(* ===== verification/_CoqProject ===== *)
-Q . S2P
Prelude.v
PyStr.v
Names.v
Regex.v
PyVal.v
Sorting.v
RegexFacts.v
JsonFacts.v
Overlay.v
Environ.v
Web.v
CommandClassify.v
Shlex.v
CommandSafety.v
PermissionRules.v
PolicyGrants.v
Policies.v
PermissionGuard.v
IpAddr.v
ExfilConfig.v
ExfilGuard.v
HaltGuards.v
IterationBudget.v
Throttle.v
Replacers.v
OutputOverflow.v
OutputPruning.v
SandboxLifecycle.v
DbResilience.v
RoutineStore.v
PostgresRoutineStore.v
RoutineTool.v
ProcessRegistry.v
ProcessTool.v
Models.v
WorkspaceWindow.v
Posix.v
FileOps.v
TaskRegistry.v
Commands.v
Secrets.v
RuntimeServer.v
SandboxEnv.v
Auth.v
OAuthConnect.v
ChildGuard.v
Telemetry.v
Delegate.v
Subagent.v
SandboxProvider.v
Memory.v
MemoryForks.v
SessionStart.v
A2A.v
Uploads.v
ChatSessions.v
Summarizer.v
Skills.v
ReadTool.v
Panels.v
Prompt.v
RootAgent.v
Artifacts.v
Cymbal.v
Services.v
LocalProcess.v
Siblings.v
Contexts.v
ContainerReader.v
TurnHalt.v
