(* ===== verification/Prelude.v ===== *)
(** * The Horizon agent service: a verification library

    The program is the long-horizon agent service of the repository
    (src/services/long-horizon-agent/horizon): a tool-using agent with guards in
    front of every tool call, environments on the host or in cloud sandboxes,
    background sub-agents and routines, and per-user stores. This library
    translates its core into Gallina and proves what each part promises. File
    names below are relative to the horizon directory.

    ** How the parts interact

    A tool call passes the guard chain (a log entry, exfiltration, policies,
    permissions; then the halt guards on the way back); a guard reads the session
    state and the overlay files of the active environment, and the last may ask
    the user through a confirmation. Calls of a delegated child pass the child's guard, which
    composes the root's. The file, process and bash tools act on the
    environment; the sandbox provider decides which environment a user gets;
    the process registry keeps background processes per session. Routines are
    created by a tool, stored, and fired by a tick that runs a turn in an
    isolated context. Slash commands change session state that guards and model
    selection read. Each turn starts from the environment of its caller, assembles
    its instruction and reminders, and ends early when a guard or the budget halts
    it; what clients see of it goes through the routes of api/ and a2a/.

    ** Shared layers

    - Prelude.v: scopes, the exception type and the error monad, tactics and
      hints. PyStr.v: str methods. Regex.v: a parser and backtracking matcher
      for the re syntax used; RegexFacts.v: facts on class runs and on the
      first match. PyVal.v: JSON-shaped values, dicts as insertion-ordered
      association lists with distinct keys, json.dumps and json.loads;
      JsonFacts.v: loads after dumps. Sorting.v: the stable sort. Shlex.v and
      IpAddr.v: the parts of shlex and ipaddress the guards use. Web.v: answers
      of a route (a value, an HTTPException or a crash), form encoding, base64.

    ** Components

    - Guards. Names.v (tools/names.py); Overlay.v (guardrails/_overlay.py,
      _jsonl.py, _regex_safety.py: overlay files and the two-level cache);
      CommandClassify.v and CommandSafety.v (segments of a shell command and
      the deny/ask classifier); PermissionRules.v and PermissionGuard.v (rules,
      grants, the guard with its confirmation round trip); PolicyGrants.v and
      Policies.v; ExfilConfig.v and ExfilGuard.v; HaltGuards.v (modules
      RepeatedFailure and NoProgress, latching and handoff);
      IterationBudget.v; Throttle.v (memory/_throttle.py).
    - Tools. Replacers.v and FileOps.v (tools/_replacers.py, file_ops.py);
      OutputOverflow.v (tools/_output_overflow.py, _paths.py);
      OutputPruning.v (context/tool_output_pruning.py); WorkspaceWindow.v;
      ProcessRegistry.v (environment/registry.py); ProcessTool.v
      (tools/processes/process.py, terminal.py and the buffer of
      environment/local_process.py).
    - Sandboxes. SandboxLifecycle.v (sandbox/lifecycle.py) over a client record;
      SandboxProvider.v (sandbox/provider.py, scheduler/snapshot_endpoint.py)
      over that client, two process caches and the settings of Environ.v
      (infrastructure/env.py). Posix.v (files, links, the kernel's walk and
      CPython's realpath); RuntimeServer.v (sandbox/runtime/server.py, the
      server inside a sandbox); SandboxEnv.v (environment/sandbox.py,
      sandbox_process.py, local.py: the client over that server, and the host).
    - Routines. DbResilience.v (infrastructure/db_resilience.py);
      RoutineStore.v (the store in memory and the abstract table, the classes
      StoreOps and StoreLaws); PostgresRoutineStore.v (SQL statements as the
      class Pg, its laws PgLaws, a connection that can fail before or after an
      exchange); RoutineTool.v (routines/, the tick endpoint, secret injection).
    - Sub-agents. TaskRegistry.v (subagents/registry.py); ChildGuard.v;
      Telemetry.v (telemetry/ui.py); Delegate.v (builder, runner, delegate.py,
      over the class SessionService with SessionLaws); Subagent.v.
    - Sessions. Models.v (models/, context/compaction_threshold.py); Commands.v
      (commands/); Secrets.v (secrets/, api/secrets.py: Secret Manager as a
      class with laws, two stores behind the class SecretStore).
    - Identity. Auth.v (auth/identity.py, oauth_verify.py, scheduler/auth.py:
      who a request is served as); OAuthConnect.v (auth/oauth.py: the flow that
      connects a Google account, over the class SecretStore).
    - Memory. Memory.v (memory/ without its forks, tools/past_sessions.py: the
      bank and the session service are parameters); MemoryForks.v (the
      background passes over a turn, skill telemetry, the dream review).
    - Sessions of users. SessionStart.v (conversation/session_start.py: the
      cache of environments and its locks as tasks of one event loop, composed
      with RuntimeServer.v and SandboxEnv.v for the migration of a workspace).
    - Clients. A2A.v (a2a/, api/tasks.py: the converter of events, data parts,
      the tasks of a context); Uploads.v (api/uploads.py: the workspace of a
      caller over Posix.v); ChatSessions.v (api/sessions.py: titles, listing,
      deletion, edits); Panels.v (the state slice, warm-up banner, process,
      routine, memory and feedback panels of api/ and feedback/).
    - The root agent. Prompt.v (conversation/system_prompt.py, soul_loader.py,
      reminders.py: the constant instruction, project context, the tail of
      reminders); RootAgent.v (agent.py: how the agent is built and the guard
      chain in front of its tools, over the guards above); TurnHalt.v (the hooks
      of the plugins, over HaltGuards.v and IterationBudget.v); Contexts.v
      (environment_context.py, context/compaction_context.py,
      schema_normalization.py, telemetry/otel.py).
    - What the agent reads and keeps. ReadTool.v (tools/read.py); Skills.v
      (tools/skill_loader.py, skill_toolset.py, skill_reload.py); Artifacts.v
      (tools/artifacts.py, _artifact_links.py, clarify.py, the wrapper of
      infrastructure/artifact_service.py, the redaction of links); Summarizer.v
      (context/summarizer.py).
    - Processes. LocalProcess.v (environment/local_process.py and
      tools/processes/interactive.py: the reader thread as a step relation over
      the class Terminal with the laws of a pseudo-terminal, kill, write, prompts);
      ContainerReader.v (the same threads in sandbox/runtime/server.py, as a
      refinement of LocalProcess.v); Siblings.v (memory/sibling_agent_plugin.py:
      the tasks of the background forks and their drain at shutdown).
    - The application. Services.v (fast_api_app.py, a2a/routes.py,
      infrastructure/resilient_session_service.py: which stores the environment
      asks for); Cymbal.v (cymbal_subagents.py: the handlers of the shop).

    ** What the theorems show

    Each component file ends with its properties, in the order definitions,
    lemmas, theorems, instances at concrete inputs. The main groups: what the
    guards block and let pass, exactly, and that a deny or a halt is final;
    invariants of reachable states (overlay caches, budgets, process
    registries, provider caches, sub-agent hand-over); refinement of the
    abstract table by the routine stores and agreement of the two stores of
    each kind; isolation of sessions, users and routines; error behaviour
    (retries, atomic edits, failed deliveries); round trips of texts; bounds of
    logs, previews, budgets and forks; liveness of approvals, ticks and fleets.

    ** Conventions, fuel and bounds

    Strings are lists of Latin-1 characters, except in OutputOverflow.v,
    ProcessTool.v and LocalProcess.v, which keep code points and bytes as integers; dashes and
    other characters beyond Latin-1 in messages are their UTF-8 bytes. Integers
    are Z, floats the rationals they denote. A function that raises returns
    [res]; state is passed explicitly. Objects that are shared and mutated
    (process handles, sub-agent handles, session state, events) live in a store
    under their identity. Recursion that is not structural takes fuel, and a
    lemma or theorem of the same file shows that the fuel given is enough
    (CommandSafety.segments_with_pipe_total, ProcessTool.wait_for_returns,
    DbResilience.retry_spec, LocalProcess.reader_finishes, and the length of a
    text for the parsers). Clocks,
    identifiers and answers of the network are inputs. Turns of one session run
    one at a time, as the framework runs them.

    ** Parameters

    Code outside the repository is an argument: float texts (PyFloat), hashes
    (Sha256), Path.resolve (Resolve), exception attributes (ExcAttr),
    packaging.version (Packaging), croniter, the SQL engine, YAML, the sandbox
    SDK, Secret Manager, session services and the agent runner. Where a theorem
    needs their documented behaviour it is a class of laws, with an instance in
    the same file that the concrete examples run on.

    ** Not modelled

    The mounting of routers and middleware and the configuration of the agent
    framework (agent.py, fast_api_app.py beyond RootAgent.v, TurnHalt.v and
    Services.v: the remaining callback lists work on requests whose parts the
    files above model each on its own); the texts of prompts for memory passes
    and the settings of the memory bank (constants handed to a service); the
    search script that runs inside an environment as a separate program, and MIME
    guessing; the agents that memory forks run; operational scripts and probes
    against live services; the web storefront, which is not Python. *)

From Stdlib Require Export String Ascii.
From stdpp Require Export base list strings gmap.
From Stdlib Require Export ZArith Lia.

(** ** Scopes and notations *)

Declare Scope py_scope.
Delimit Scope py_scope with py.
#[global] Open Scope py_scope.
#[global] Open Scope string_scope.
#[global] Open Scope list_scope.
#[global] Open Scope nat_scope.

#[global] Arguments String.append !s1 s2 / : simpl nomatch.
#[global] Arguments Ascii.eqb : simpl never.
#[global] Arguments String.eqb : simpl never.

(** ** Exceptions and the error monad

    A Python function that can raise returns a [res]; the constructors of
    [exc] are the exception classes the modelled code raises or lets
    propagate. *)

Inductive exc :=
| ValueError (msg : string)
| TypeError (msg : string)
| KeyError (msg : string)
| AttributeError (msg : string)
| IndexError (msg : string)
| RuntimeError (msg : string)
| FileNotFoundError (msg : string)
| OSError (msg : string)
| OtherError (cls : string) (msg : string).

#[global] Instance exc_eq_dec : EqDecision exc.
Proof. solve_decision. Defined.

Inductive res (A : Type) :=
| Ok (a : A)
| Raise (e : exc).
Arguments Ok {A} a.
Arguments Raise {A} e.

#[global] Instance res_eq_dec `{EqDecision A} : EqDecision (res A).
Proof. solve_decision. Defined.

Definition res_bind {A B} (m : res A) (k : A → res B) : res B :=
  match m with
  | Ok a => k a
  | Raise e => Raise e
  end.

Notation "'let!' x ':=' m 'in' k" := (res_bind m (λ x, k))
  (at level 10, x name, m at level 100, k at level 200, only parsing) : py_scope.

Lemma res_bind_ok {A B} (m : res A) (k : A → res B) (b : B) :
  res_bind m k = Ok b ↔ ∃ a, m = Ok a ∧ k a = Ok b.
Proof. destruct m; cbn; naive_solver. Qed.

(** ** Generic list functions *)

(** The first element satisfying a test, [next((x for x in l if p x), None)]. *)
Fixpoint first_such {A} (p : A → bool) (l : list A) : option A :=
  match l with
  | [] => None
  | x :: l' => if p x then Some x else first_such p l'
  end.

(** The first value a partial function produces along a list: the shape of a
    [for] loop whose body returns early. *)
Fixpoint first_some {A B} (f : A → option B) (l : list A) : option B :=
  match l with
  | [] => None
  | x :: l' => match f x with Some b => Some b | None => first_some f l' end
  end.

(** [list(dict.fromkeys(l))]: the first occurrence of every element. *)
Fixpoint dedup_from `{EqDecision A} (seen : list A) (l : list A) : list A :=
  match l with
  | [] => []
  | x :: l' =>
      if bool_decide (x ∈ seen) then dedup_from seen l'
      else x :: dedup_from (x :: seen) l'
  end.
Definition dedup `{EqDecision A} (l : list A) : list A := dedup_from [] l.

Fixpoint sum_nat (l : list nat) : nat :=
  match l with [] => 0 | n :: l' => n + sum_nat l' end.

Section ListFacts.
Context {A B : Type}.

Lemma first_such_Some (p : A → bool) l x :
  first_such p l = Some x → x ∈ l ∧ p x = true.
Proof.
  induction l as [|y l IH]; cbn; [done|].
  destruct (p y) eqn:E; [|rewrite elem_of_cons; naive_solver].
  intros [= ->]. split; [left|done].
Qed.

Lemma first_such_None (p : A → bool) l :
  first_such p l = None ↔ ∀ x, x ∈ l → p x = false.
Proof.
  induction l as [|y l IH]; cbn.
  - split; [intros _ x Hx; by apply elem_of_nil in Hx|done].
  - destruct (p y) eqn:E; split.
    + done.
    + intros H. specialize (H y (list_elem_of_here _ _)). congruence.
    + intros H x [->|Hx]%elem_of_cons; [done|]. by apply IH.
    + intros H. apply IH. intros x Hx. apply H. by right.
Qed.

Lemma first_some_Some (f : A → option B) l b :
  first_some f l = Some b → ∃ x, x ∈ l ∧ f x = Some b.
Proof.
  induction l as [|y l IH]; cbn; [done|].
  destruct (f y) eqn:E; setoid_rewrite elem_of_cons; naive_solver.
Qed.

Lemma first_some_None (f : A → option B) l :
  first_some f l = None ↔ ∀ x, x ∈ l → f x = None.
Proof.
  induction l as [|y l IH]; cbn.
  - split; [intros _ x Hx; by apply elem_of_nil in Hx|done].
  - destruct (f y) eqn:E; split.
    + done.
    + intros H. specialize (H y (list_elem_of_here _ _)). congruence.
    + intros H x [->|Hx]%elem_of_cons; [done|]. by apply IH.
    + intros H. apply IH. intros x Hx. apply H. by right.
Qed.

Lemma first_some_app (f : A → option B) l1 l2 :
  first_some f (l1 ++ l2) =
  match first_some f l1 with Some b => Some b | None => first_some f l2 end.
Proof. induction l1 as [|y l1 IH]; cbn; [done|]. by destruct (f y). Qed.

Lemma existsb_elem (p : A → bool) l :
  existsb p l = true ↔ ∃ x, x ∈ l ∧ p x = true.
Proof. rewrite existsb_exists. by setoid_rewrite list_elem_of_In. Qed.

Lemma existsb_false (p : A → bool) l :
  existsb p l = false ↔ ∀ x, x ∈ l → p x = false.
Proof.
  induction l as [|y l IH]; cbn.
  - split; [intros _ x Hx; by apply elem_of_nil in Hx|done].
  - rewrite orb_false_iff, IH. split.
    + intros [Hy H] x [->|Hx]%elem_of_cons; [done|]. by apply H.
    + intros H. split; [apply H; left|]. intros x Hx. apply H. by right.
Qed.

Lemma elem_of_existsb (p : A → bool) l x :
  x ∈ l → p x = true → existsb p l = true.
Proof. intros. apply existsb_elem; eauto. Qed.

Lemma forallb_elem (p : A → bool) l :
  forallb p l = true ↔ ∀ x, x ∈ l → p x = true.
Proof. rewrite forallb_forall. by setoid_rewrite list_elem_of_In. Qed.
End ListFacts.

Section Dedup.
Context `{EqDecision A}.

Lemma elem_of_dedup_from (seen l : list A) x :
  x ∈ dedup_from seen l ↔ x ∈ l ∧ x ∉ seen.
Proof.
  revert seen. induction l as [|y l IH]; intros seen; cbn; [set_solver|].
  case_bool_decide as Hy; [rewrite IH; set_solver|].
  rewrite elem_of_cons, IH. destruct (decide (x = y)); set_solver.
Qed.

Lemma elem_of_dedup (l : list A) x : x ∈ dedup l ↔ x ∈ l.
Proof. unfold dedup. rewrite elem_of_dedup_from. set_solver. Qed.

Lemma NoDup_dedup_from (seen l : list A) : NoDup (dedup_from seen l).
Proof.
  revert seen. induction l as [|y l IH]; intros seen; cbn; [constructor|].
  case_bool_decide; [apply IH|]. constructor; [|apply IH].
  rewrite elem_of_dedup_from. set_solver.
Qed.

Lemma NoDup_dedup (l : list A) : NoDup (dedup l).
Proof. apply NoDup_dedup_from. Qed.

Lemma dedup_nil (l : list A) : dedup l = [] ↔ l = [].
Proof.
  split; [|by intros ->]. intros H. destruct l as [|x l]; [done|].
  assert (x ∈ dedup (x :: l)) as Hx by (apply elem_of_dedup; left).
  rewrite H in Hx. by apply elem_of_nil in Hx.
Qed.
End Dedup.

(** ** Automation *)

Create HintDb py.
Create Rewrite HintDb py.
#[export] Hint Rewrite @length_app @length_map @length_rev : py.
#[export] Hint Resolve first_such_Some first_some_Some elem_of_existsb : py.

(** Turn boolean hypotheses and goals into propositions. *)
Ltac bool_prop :=
  repeat match goal with
  | H : (_ && _) = true |- _ => apply andb_true_iff in H as [? ?]
  | H : (_ || _) = true |- _ => apply orb_true_iff in H
  | H : (_ && _) = false |- _ => apply andb_false_iff in H
  | H : (_ || _) = false |- _ => apply orb_false_iff in H as [? ?]
  | H : negb _ = true |- _ => apply negb_true_iff in H
  | H : negb _ = false |- _ => apply negb_false_iff in H
  | H : (_ =? _)%string = true |- _ => apply String.eqb_eq in H
  | H : (_ =? _)%string = false |- _ => apply String.eqb_neq in H
  | H : bool_decide _ = true |- _ => apply bool_decide_eq_true in H
  | H : bool_decide _ = false |- _ => apply bool_decide_eq_false in H
  | H : (_ =? _)%nat = true |- _ => apply Nat.eqb_eq in H
  | H : (_ =? _)%nat = false |- _ => apply Nat.eqb_neq in H
  | H : (_ <=? _)%nat = true |- _ => apply Nat.leb_le in H
  | H : (_ <=? _)%nat = false |- _ => apply Nat.leb_gt in H
  | H : (_ <? _)%nat = true |- _ => apply Nat.ltb_lt in H
  | H : (_ <? _)%nat = false |- _ => apply Nat.ltb_ge in H
  | H : (_ =? _)%Z = true |- _ => apply Z.eqb_eq in H
  | H : (_ =? _)%Z = false |- _ => apply Z.eqb_neq in H
  | H : (_ <=? _)%Z = true |- _ => apply Z.leb_le in H
  | H : (_ <=? _)%Z = false |- _ => apply Z.leb_gt in H
  | H : (_ <? _)%Z = true |- _ => apply Z.ltb_lt in H
  | H : (_ <? _)%Z = false |- _ => apply Z.ltb_ge in H
  end.

(** Case analysis on the innermost scrutinee of the goal, naming the
    equation. *)
Ltac dmatch :=
  match goal with
  | |- context [match ?x with _ => _ end] =>
      lazymatch x with
      | context [match _ with _ => _ end] => fail
      | _ => let E := fresh "E" in destruct x eqn:E
      end
  end.
Ltac dmatch_in H :=
  match type of H with
  | context [match ?x with _ => _ end] =>
      lazymatch x with
      | context [match _ with _ => _ end] => fail
      | _ => let E := fresh "E" in destruct x eqn:E
      end
  end.
Ltac dmatches := repeat (dmatch; simplify_eq; try done).
Ltac dmatches_in H := repeat (dmatch_in H; simplify_eq; try done).
