(* ===== verification/PyStr.v ===== *)
(** * Python's [str]

    A Python string is a sequence of code points; here a [string] whose
    characters are the code points U+0000 to U+00FF.  On that range every
    function below computes what the method of the same name computes,
    including the characters of Latin-1 that [str.isspace], [str.lower] and
    [str.isdigit] treat specially. *)

From S2P Require Import Prelude.

(** ** Characters *)

Definition code (c : ascii) : N := N_of_ascii c.
Definition in_range (lo hi : N) (c : ascii) : bool :=
  ((lo <=? code c) && (code c <=? hi))%N.

Definition NL : ascii := "010".
Definition CR : ascii := "013".
Definition TAB : ascii := "009".
Definition SP : ascii := " ".
Definition DQ : ascii := "034".
Definition SQ : ascii := "'".
Definition BSL : ascii := "\".

Definition s1 (c : ascii) : string := String c "".
Definition NLs : string := s1 NL.
Definition DQs : string := s1 DQ.

(** [str.isspace] on one character, also the class [\s] of [re]. *)
Definition is_space (c : ascii) : bool :=
  in_range 9 13 c || in_range 28 32 c || (code c =? 133)%N || (code c =? 160)%N.
(** [str.isdecimal] on one character, also [\d]. *)
Definition is_decimal (c : ascii) : bool := in_range 48 57 c.
(** [str.isdigit]: the superscripts 1, 2 and 3 are digits but not decimal. *)
Definition is_digit (c : ascii) : bool :=
  is_decimal c || in_range 178 179 c || (code c =? 185)%N.
Definition is_upper_ascii (c : ascii) : bool := in_range 65 90 c.
Definition is_lower_ascii (c : ascii) : bool := in_range 97 122 c.
Definition is_alpha_ascii (c : ascii) : bool := is_upper_ascii c || is_lower_ascii c.
(** The class [\w]. *)
Definition is_word (c : ascii) : bool :=
  is_decimal c || is_alpha_ascii c || (code c =? 95)%N || (code c =? 170)%N
  || in_range 178 179 c || (code c =? 181)%N || in_range 185 186 c
  || in_range 188 190 c || in_range 192 214 c || in_range 216 246 c
  || in_range 248 255 c.

Definition lower_char (c : ascii) : ascii :=
  if is_upper_ascii c || in_range 192 214 c || in_range 216 222 c
  then ascii_of_N (code c + 32) else c.
(** [str.upper] on the characters of ASCII. *)
Definition upper_char (c : ascii) : ascii :=
  if is_lower_ascii c then ascii_of_N (code c - 32) else c.

(** ** Whole strings *)

Fixpoint smap (f : ascii → ascii) (s : string) : string :=
  match s with "" => "" | String c s' => String (f c) (smap f s') end.
Fixpoint sforall (p : ascii → bool) (s : string) : bool :=
  match s with "" => true | String c s' => p c && sforall p s' end.
Fixpoint sexists (p : ascii → bool) (s : string) : bool :=
  match s with "" => false | String c s' => p c || sexists p s' end.

Definition lower : string → string := smap lower_char.
Definition upper : string → string := smap upper_char.
Abbreviation slen := String.length.
(** [c in s] for a one-character string [c]. *)
Definition has_char (c : ascii) : string → bool := sexists (Ascii.eqb c).

(** Slices [s[n:]] and [s[:n]] with [0 <= n]. *)
Fixpoint sdrop (n : nat) (s : string) : string :=
  match n, s with
  | 0, _ => s
  | S _, "" => ""
  | S n', String _ s' => sdrop n' s'
  end.
Fixpoint stake (n : nat) (s : string) : string :=
  match n, s with
  | 0, _ => ""
  | S _, "" => ""
  | S n', String c s' => String c (stake n' s')
  end.
Definition slice (i j : nat) (s : string) : string := stake (j - i) (sdrop i s).

Fixpoint startswith (p s : string) : bool :=
  match p, s with
  | "", _ => true
  | String a p', String b s' => Ascii.eqb a b && startswith p' s'
  | String _ _, "" => false
  end.
Definition endswith (p s : string) : bool :=
  (slen p <=? slen s)%nat && (sdrop (slen s - slen p) s =? p)%string.
(** [sub in s]. *)
Fixpoint contains (sub s : string) : bool :=
  startswith sub s || match s with "" => false | String _ s' => contains sub s' end.
(** [s.removesuffix(p)]. *)
Definition removesuffix (p s : string) : string :=
  if endswith p s then stake (slen s - slen p) s else s.

Fixpoint lstrip (p : ascii → bool) (s : string) : string :=
  match s with
  | "" => ""
  | String c s' => if p c then lstrip p s' else s
  end.
Fixpoint rstrip (p : ascii → bool) (s : string) : string :=
  match s with
  | "" => ""
  | String c s' =>
      match rstrip p s' with
      | "" => if p c then "" else String c ""
      | r => String c r
      end
  end.
Definition strip_by (p : ascii → bool) (s : string) : string := rstrip p (lstrip p s).
(** [s.strip()], and [s.strip(chars)] through [strip_by]. *)
Definition strip : string → string := strip_by is_space.
Definition one_of (chars : string) (c : ascii) : bool := has_char c chars.

(** [s.split()]: the word the string starts with, and the following ones. *)
Fixpoint words (s : string) : string * list string :=
  match s with
  | "" => ("", [])
  | String c s' =>
      let '(w, ws) := words s' in
      if is_space c then ("", match w with "" => ws | _ => w :: ws end)
      else (String c w, ws)
  end.
Definition split_ws (s : string) : list string :=
  match words s with
  | ("", ws) => ws
  | (w, ws) => w :: ws
  end.

(** [s.split(c)] for a one-character separator. *)
Fixpoint split_on (sep : ascii) (s : string) : list string :=
  match s with
  | "" => [""]
  | String c s' =>
      if Ascii.eqb c sep then "" :: split_on sep s'
      else match split_on sep s' with
           | h :: t => String c h :: t
           | [] => [s1 c]
           end
  end.

(** [s.rsplit(c, 1)[-1]]: what follows the last separator; and what precedes
    it, when there is one. *)
Fixpoint rpartition (sep : ascii) (s : string) : option (string * string) :=
  match s with
  | "" => None
  | String c s' =>
      match rpartition sep s' with
      | Some (a, b) => Some (String c a, b)
      | None => if Ascii.eqb c sep then Some ("", s') else None
      end
  end.
Definition after_last (sep : ascii) (s : string) : string :=
  match rpartition sep s with Some (_, b) => b | None => s end.
(** [s.split(c, 1)]: before and after the first separator. *)
Fixpoint partition_at (sep : ascii) (s : string) : option (string * string) :=
  match s with
  | "" => None
  | String c s' =>
      if Ascii.eqb c sep then Some ("", s')
      else match partition_at sep s' with
           | Some (a, b) => Some (String c a, b)
           | None => None
           end
  end.
Definition before_first (sep : ascii) (s : string) : string :=
  match partition_at sep s with Some (a, _) => a | None => s end.

Fixpoint join (sep : string) (l : list string) : string :=
  match l with
  | [] => ""
  | [x] => x
  | x :: l' => x +:+ sep +:+ join sep l'
  end.

(** [str.splitlines()]: the line boundaries of Latin-1, with CR LF as one. *)
Definition is_linebreak (c : ascii) : bool :=
  in_range 10 13 c || in_range 28 30 c || (code c =? 133)%N.
Fixpoint splitlines_from (cur : string) (s : string) : list string :=
  match s with
  | "" => match cur with "" => [] | _ => [cur] end
  | String c s' =>
      if is_linebreak c then
        match s' with
        | String d s'' =>
            if Ascii.eqb c CR && Ascii.eqb d NL
            then cur :: splitlines_from "" s''
            else cur :: splitlines_from "" s'
        | "" => [cur]
        end
      else splitlines_from (cur +:+ s1 c) s'
  end.
Definition splitlines : string → list string := splitlines_from "".

(** [s.count(sub)] for a non-empty [sub]: occurrences that do not overlap. *)
Fixpoint count_from (skip : nat) (sub s : string) : nat :=
  match s with
  | "" => 0
  | String _ s' =>
      match skip with
      | S k => count_from k sub s'
      | 0 => if startswith sub s then S (count_from (slen sub - 1) sub s')
             else count_from 0 sub s'
      end
  end.
Definition str_count (sub s : string) : nat :=
  match sub with "" => S (slen s) | _ => count_from 0 sub s end.

(** The em dash of the messages, as the three bytes of its encoding. *)
Definition em_dash : string := s1 "226" +:+ s1 "128" +:+ s1 "148".

(** ** Integers as text *)

Definition digit_char (n : N) : ascii := ascii_of_N (48 + n).
Definition digit_val (c : ascii) : option Z :=
  if is_decimal c then Some (Z.of_N (code c) - 48)%Z else None.

(** Decimal digits of a natural number, least significant last. *)
Fixpoint dec_digits (fuel : nat) (n : N) (acc : string) : string :=
  match fuel with
  | 0 => acc
  | S f =>
      let acc' := String (digit_char (n mod 10)) acc in
      if (n <? 10)%N then acc' else dec_digits f (n / 10) acc'
  end.
Definition str_of_N (n : N) : string := dec_digits (S (N.to_nat (N.log2 n))) n "".
Definition str_of_Z (z : Z) : string :=
  match z with
  | Z0 => "0"
  | Zpos p => str_of_N (Npos p)
  | Zneg p => "-" +:+ str_of_N (Npos p)
  end.
Definition str_of_nat (n : nat) : string := str_of_N (N.of_nat n).

(** * Facts *)

(** [sub] occurs in [s]. *)
Definition substring_of (sub s : string) : Prop := ∃ l r, s = l +:+ sub +:+ r.

Section Append.
Implicit Types s t u : string.

Lemma sapp_nil_r s : s +:+ "" = s.
Proof. induction s as [|c s IH]; cbn; [done|]. by rewrite IH. Qed.

Lemma sapp_assoc s t u : s +:+ (t +:+ u) = (s +:+ t) +:+ u.
Proof. induction s as [|c s IH]; cbn; [done|]. by rewrite IH. Qed.

Lemma slen_app s t : slen (s +:+ t) = slen s + slen t.
Proof. induction s as [|c s IH]; cbn; [done|]. by rewrite IH. Qed.

Lemma sapp_snoc s c t : (s +:+ s1 c) +:+ t = s +:+ String c t.
Proof. by rewrite <-sapp_assoc. Qed.

Lemma slen_0 s : slen s = 0 ↔ s = "".
Proof. by destruct s. Qed.

Lemma sapp_inv_l s t u : s +:+ t = s +:+ u → t = u.
Proof. induction s as [|c s IH]; cbn; [done|]. intros [=]. auto. Qed.

Lemma sapp_eq_nil s t : s +:+ t = "" ↔ s = "" ∧ t = "".
Proof. destruct s; cbn; naive_solver. Qed.

Lemma sforall_app p s t : sforall p (s +:+ t) = sforall p s && sforall p t.
Proof.
  induction s as [|c s IH]; cbn; [done|]. by rewrite IH, andb_assoc.
Qed.

Lemma sforall_impl p q s : (∀ c, p c = true → q c = true) → sforall p s = true → sforall q s = true.
Proof.
  intros H. induction s as [|c s IH]; [done|]. cbn. intros [Hc Hs]%andb_true_iff. by rewrite (H c Hc), IH.
Qed.

Lemma sexists_app p s t : sexists p (s +:+ t) = sexists p s || sexists p t.
Proof. induction s as [|c s IH]; cbn; [done|]. by rewrite IH, orb_assoc. Qed.

Lemma sexists_sforall p s : sexists p s = negb (sforall (λ c, negb (p c)) s).
Proof.
  induction s as [|c s IH]; cbn; [done|]. rewrite IH. by destruct (p c).
Qed.

Lemma sdrop_app s t : sdrop (slen s) (s +:+ t) = t.
Proof. by induction s. Qed.

Lemma stake_app s t : stake (slen s) (s +:+ t) = s.
Proof. induction s as [|c s IH]; cbn; [by destruct t|]. by rewrite IH. Qed.

Lemma stake_drop n s : stake n s +:+ sdrop n s = s.
Proof.
  revert s. induction n as [|n IH]; intros [|c s]; cbn; try done.
  by rewrite IH.
Qed.

Lemma slen_stake n s : slen (stake n s) = n `min` slen s.
Proof.
  revert s. induction n as [|n IH]; intros [|c s]; cbn; try done.
  by rewrite IH.
Qed.

Lemma slen_sdrop n s : slen (sdrop n s) = slen s - n.
Proof.
  revert s. induction n as [|n IH]; intros [|c s]; cbn; auto.
Qed.

Lemma sdrop_add n m s : sdrop n (sdrop m s) = sdrop (m + n) s.
Proof.
  revert s. induction m as [|m IH]; intros s; cbn; [done|].
  destruct s; [by destruct n|apply IH].
Qed.

Lemma slice_app s t u : slice (slen s) (slen s + slen t) (s +:+ t +:+ u) = t.
Proof.
  unfold slice. rewrite sdrop_app.
  replace (slen s + slen t - slen s) with (slen t) by lia. apply stake_app.
Qed.
End Append.

#[export] Hint Rewrite sapp_nil_r slen_app slen_stake slen_sdrop : py.

Section Substrings.
Implicit Types s t u : string.

Lemma startswith_spec p s : startswith p s = true ↔ ∃ r, s = p +:+ r.
Proof.
  revert s. induction p as [|a p IH]; intros s; cbn.
  { split; [by exists s|done]. }
  destruct s as [|b s]; cbn; [split; [done|by intros [? ?]]|].
  rewrite andb_true_iff, IH, Ascii.eqb_eq. naive_solver.
Qed.

Lemma startswith_app p s : startswith p (p +:+ s) = true.
Proof. apply startswith_spec. by exists s. Qed.

Lemma endswith_spec p s : endswith p s = true ↔ ∃ l, s = l +:+ p.
Proof.
  unfold endswith. rewrite andb_true_iff, Nat.leb_le, String.eqb_eq. split.
  - intros [_ <-]. exists (stake (slen s - slen p) s). by rewrite stake_drop.
  - intros [l ->]. rewrite slen_app. split; [lia|].
    replace (slen l + slen p - slen p) with (slen l) by lia. apply sdrop_app.
Qed.

Lemma contains_spec sub s : contains sub s = true ↔ substring_of sub s.
Proof.
  unfold substring_of. induction s as [|c s IH]; cbn.
  - rewrite orb_false_r, startswith_spec. split.
    + intros [r Hr]. by exists "", r.
    + intros (l & r & Hs). destruct l; [by exists r|done].
  - rewrite orb_true_iff, startswith_spec, IH. split.
    + intros [[r Hr]|(l & r & Hs)]; [by exists "", r|].
      exists (String c l), r. cbn. by rewrite Hs.
    + intros (l & r & Hs). destruct l as [|c' l]; cbn in Hs.
      * left. by exists r.
      * right. injection Hs as -> Hs. by exists l, r.
Qed.

Lemma substring_refl s : substring_of s s.
Proof. exists "", "". by rewrite sapp_nil_r. Qed.

Lemma substring_trans s t u :
  substring_of s t → substring_of t u → substring_of s u.
Proof.
  intros (a & b & ->) (c & d & ->). exists (c +:+ a), (b +:+ d).
  by rewrite <-!sapp_assoc.
Qed.

Lemma substring_len s t : substring_of s t → slen s ≤ slen t.
Proof. intros (a & b & ->). rewrite !slen_app. lia. Qed.

Lemma substring_app_l l s t : substring_of s t → substring_of s (l +:+ t).
Proof. intros (a & b & ->). exists (l +:+ a), b. by rewrite sapp_assoc. Qed.

Lemma substring_mid l s r : substring_of s (l +:+ s +:+ r).
Proof. by exists l, r. Qed.

Lemma contains_refl s : contains s s = true.
Proof. apply contains_spec, substring_refl. Qed.

Lemma substring_sforall p s t :
  substring_of s t → sforall p t = true → sforall p s = true.
Proof.
  intros (a & b & ->). rewrite !sforall_app. intros H. bool_prop. done.
Qed.

Lemma has_char_spec c s : has_char c s = true ↔ ∃ l r, s = l +:+ String c r.
Proof.
  unfold has_char. induction s as [|d s IH]; cbn.
  - split; [done|]. by intros ([] & r & ?).
  - rewrite orb_true_iff, IH, Ascii.eqb_eq. split.
    + intros [->|(l & r & ->)]; [by exists "", s|by exists (String d l), r].
    + intros (l & r & Hs). destruct l as [|d' l]; cbn in Hs; injection Hs as -> Hs.
      * by left.
      * right. by exists l, r.
Qed.
End Substrings.

#[export] Hint Resolve substring_refl substring_app_l substring_mid : py.

Section Strip.
Context (p : ascii → bool).
Implicit Types s t : string.

Lemma lstrip_suffix s : ∃ l, s = l +:+ lstrip p s.
Proof.
  induction s as [|c s [l IH]]; cbn; [by exists ""|].
  destruct (p c); [|by exists ""]. exists (String c l). cbn. by rewrite <-IH.
Qed.

Lemma rstrip_prefix s : ∃ r, s = rstrip p s +:+ r.
Proof.
  induction s as [|c s [r IH]]; cbn; [by exists ""|].
  destruct (rstrip p s) as [|d t] eqn:E; cbn in *.
  - subst r. destruct (p c); [by exists (String c s)|by exists s].
  - exists r. cbn. by rewrite IH at 1.
Qed.

Lemma strip_substring s : substring_of (strip_by p s) s.
Proof.
  unfold strip_by. destruct (lstrip_suffix s) as [l Hl].
  destruct (rstrip_prefix (lstrip p s)) as [r Hr].
  exists l, r. by rewrite <-Hr.
Qed.

Lemma rstrip_idem s : rstrip p (rstrip p s) = rstrip p s.
Proof.
  induction s as [|c s IH]; cbn; [done|].
  destruct (rstrip p s) as [|d t] eqn:E.
  - destruct (p c) eqn:Hc; cbn; [done|]. by rewrite Hc.
  - change (match rstrip p (String d t) with
            | "" => if p c then "" else String c ""
            | r => String c r end = String c (String d t)).
    by rewrite IH.
Qed.

(** Stripping on the right leaves the left end alone. *)
Lemma rstrip_head c s :
  p c = false → ∃ t, rstrip p (String c s) = String c t.
Proof. intros Hc. cbn. destruct (rstrip p s); [rewrite Hc|]; eauto. Qed.

Lemma lstrip_head s :
  lstrip p s = "" ∨ ∃ c t, lstrip p s = String c t ∧ p c = false.
Proof.
  induction s as [|c s IH]; cbn; [by left|]. destruct (p c) eqn:E; eauto.
Qed.

Lemma strip_idem s : strip_by p (strip_by p s) = strip_by p s.
Proof.
  unfold strip_by. destruct (lstrip_head s) as [->|(c & t & -> & Hc)]; [done|].
  destruct (rstrip_head c t Hc) as [u Hu]. rewrite Hu. cbn [lstrip].
  rewrite Hc, <-Hu. apply rstrip_idem.
Qed.

Lemma strip_len s : slen (strip_by p s) ≤ slen s.
Proof. apply substring_len, strip_substring. Qed.

Lemma rstrip_none s :
  sforall (λ c, negb (p c)) s = true → rstrip p s = s.
Proof.
  induction s as [|c s IH]; cbn; [done|]. intros H. bool_prop.
  rewrite IH by done. destruct s; [|done]. by rewrite H.
Qed.

Lemma strip_none s : sforall (λ c, negb (p c)) s = true → strip_by p s = s.
Proof.
  intros H. unfold strip_by. destruct s as [|c s]; [done|]. cbn [lstrip].
  cbn in H. apply andb_true_iff in H as H'. destruct H' as [Hc Hs].
  apply negb_true_iff in Hc. rewrite Hc. apply rstrip_none. cbn. by rewrite Hc.
Qed.

Lemma rstrip_all s : sforall p s = true → rstrip p s = "".
Proof.
  induction s as [|c s IH]; cbn; [done|]. intros H. bool_prop.
  rewrite IH by done. by rewrite H.
Qed.

Lemma strip_empty_all s : strip_by p s = "" → sforall p s = true.
Proof.
  unfold strip_by. intros H. induction s as [|c s IH]; cbn in *; [done|].
  destruct (p c) eqn:E; [by apply IH|].
  destruct (rstrip_head c s E) as [t Ht]. cbn [lstrip] in H. congruence.
Qed.
End Strip.

(** ** Words *)

Definition no_space (s : string) : bool := sforall (λ c, negb (is_space c)) s.
Definition is_token (s : string) : bool := negb (s =? "")%string && no_space s.

Section Words.
Implicit Types s t : string.

Lemma words_tokens s :
  no_space (words s).1 = true ∧ Forall (λ w, is_token w = true) (words s).2.
Proof.
  unfold no_space. induction s as [|c s [IH1 IH2]]; cbn; [by repeat constructor|].
  destruct (words s) as [w ws]; cbn in *. destruct (is_space c) eqn:E; cbn.
  - split; [done|]. destruct w as [|d w]; [done|].
    constructor; [exact IH1|done].
  - by rewrite E, IH1.
Qed.

Lemma split_ws_tokens s : Forall (λ w, is_token w = true) (split_ws s).
Proof.
  unfold split_ws. destruct (words_tokens s) as [H1 H2].
  destruct (words s) as [[|c w] ws]; cbn in *; [done|].
  constructor; [exact H1|done].
Qed.

Lemma words_app s t :
  no_space s = true → words (s +:+ t) = (s +:+ (words t).1, (words t).2).
Proof.
  unfold no_space. induction s as [|c s IH]; cbn; [by destruct (words t)|].
  intros H. bool_prop. rewrite IH by done. by rewrite H.
Qed.

Lemma split_ws_token s : is_token s = true → split_ws s = [s].
Proof.
  unfold is_token. intros H. bool_prop. unfold split_ws.
  rewrite <-(sapp_nil_r s) at 1. rewrite words_app by done. cbn.
  rewrite sapp_nil_r. by destruct s.
Qed.

Lemma split_ws_pair s t :
  is_token s = true → is_token t = true → split_ws (s +:+ String SP t) = [s; t].
Proof.
  intros Hs Ht. pose proof (split_ws_token t Ht) as Hw.
  unfold is_token in *. bool_prop. unfold split_ws in *.
  rewrite words_app by done. cbn [words].
  change (is_space SP) with true. cbn iota.
  destruct (words t) as [w ws]; cbn. rewrite sapp_nil_r.
  destruct s as [|c s]; [done|]. destruct w; by rewrite Hw.
Qed.

Lemma split_ws_nil s : split_ws s = [] → sforall is_space s = true.
Proof.
  unfold split_ws. intros H.
  assert ((words s).1 = "" ∧ (words s).2 = []) as Hw.
  { by destruct (words s) as [[|c w] ws]. } clear H.
  induction s as [|c s IH]; cbn in *; [done|].
  destruct (words s) as [w ws]. destruct (is_space c); cbn in *.
  - apply IH. destruct w; destruct Hw; by split.
  - by destruct Hw.
Qed.
End Words.

(** ** Joining lines *)

Section Lines.
Implicit Types s t : string.

Lemma split_on_nonempty c s : split_on c s ≠ [].
Proof.
  destruct s as [|d s]; cbn; [done|]. destruct (Ascii.eqb d c); [done|].
  by destruct (split_on c s).
Qed.

Lemma join_cons sep x l : l ≠ [] → join sep (x :: l) = x +:+ sep +:+ join sep l.
Proof. by destruct l. Qed.

(** [sep.join(s.split(sep)) == s]. *)
Lemma join_split_on c s : join (s1 c) (split_on c s) = s.
Proof.
  induction s as [|d s IH]; cbn; [done|].
  destruct (Ascii.eqb d c) eqn:E.
  - apply Ascii.eqb_eq in E as ->.
    rewrite join_cons by apply split_on_nonempty. cbn. by rewrite IH.
  - pose proof (split_on_nonempty c s) as Hne.
    destruct (split_on c s) as [|h t]; [done|]. rewrite <-IH. by destruct t.
Qed.

Lemma join_app sep l1 l2 :
  l1 ≠ [] → l2 ≠ [] → join sep (l1 ++ l2) = join sep l1 +:+ sep +:+ join sep l2.
Proof.
  intros H1 H2. induction l1 as [|x l1 IH]; [done|].
  destruct l1 as [|y l1].
  - cbn [app]. by rewrite join_cons.
  - change ((x :: y :: l1) ++ l2) with (x :: (y :: l1) ++ l2).
    rewrite (join_cons _ x (_ ++ _)) by done. rewrite IH by done.
    rewrite (join_cons _ x (y :: l1)) by done. by rewrite <-!sapp_assoc.
Qed.
End Lines.

(** ** Induction over texts scanned one or two characters at a time *)

Lemma string_ind2 (P : string → Prop) :
  P "" → (∀ c, P (String c "")) →
  (∀ c d s, P s → P (String d s) → P (String c (String d s))) →
  ∀ s, P s.
Proof.
  intros H0 H1 H2 s. enough (P s ∧ ∀ c, P (String c s)) as [? _]; [done|].
  induction s as [|d s [IH1 IH2]]; split; auto.
Qed.

Lemma lstrip_app_space s : strip (String SP s) = strip s.
Proof. done. Qed.

Lemma rstrip_snoc p s c : p c = true → rstrip p (s +:+ s1 c) = rstrip p s.
Proof.
  intros Hc. induction s as [|d s IH]; cbn; [by rewrite Hc|]. by rewrite IH.
Qed.

Lemma strip_snoc_space s c : is_space c = true → strip (s +:+ s1 c) = strip s.
Proof.
  intros Hc. unfold strip, strip_by. induction s as [|d s IH]; cbn.
  - by rewrite Hc.
  - destruct (is_space d); [done|]. apply (rstrip_snoc _ (String d s)); done.
Qed.

(** ** Splitting at a separator *)

Section Splitting.
Implicit Types s t : string.

Lemma split_on_app c s t :
  split_on c (s +:+ s1 c +:+ t) = split_on c s ++ split_on c t.
Proof.
  change (s1 c +:+ t) with (String c t). induction s as [|d s IH]; cbn.
  - by rewrite Ascii.eqb_refl.
  - rewrite IH. destruct (Ascii.eqb d c); [done|].
    pose proof (split_on_nonempty c s). by destruct (split_on c s).
Qed.

Lemma split_on_none c s : has_char c s = false → split_on c s = [s].
Proof.
  unfold has_char. induction s as [|d s IH]; cbn; [done|]. intros H. bool_prop.
  rewrite Ascii.eqb_sym. destruct (Ascii.eqb c d); [done|]. by rewrite IH.
Qed.

(** Splitting undoes joining, when no part holds the separator. *)
Lemma split_on_join c l :
  l ≠ [] → Forall (λ t, has_char c t = false) l → split_on c (join (s1 c) l) = l.
Proof.
  intros Hne Hl. induction Hl as [|t l Ht Hl IH]; [done|].
  destruct l as [|u l]; [by apply split_on_none|].
  rewrite join_cons by done. rewrite split_on_app, IH by done. by rewrite split_on_none.
Qed.

(** The parts of a suffix, at a separator, are the last parts. *)
Lemma split_on_suffix c s t :
  (s = t ∨ ∃ l, s = l +:+ s1 c +:+ t) ↔ ∃ k, split_on c s = k ++ split_on c t.
Proof.
  split.
  - intros [->|[l ->]]; [by exists []|]. exists (split_on c l). apply split_on_app.
  - intros [k Hk]. rewrite <-(join_split_on c s), <-(join_split_on c t), Hk.
    destruct k as [|x k]; [by left|]. right. exists (join (s1 c) (x :: k)).
    apply join_app; [done|apply split_on_nonempty].
Qed.

Lemma has_char_sforall p c s : sforall p s = true → p c = false → has_char c s = false.
Proof.
  unfold has_char. induction s as [|d s IH]; cbn; [done|]. intros H Hc. bool_prop.
  destruct (Ascii.eqb_spec c d) as [->|]; [congruence|]. by apply IH.
Qed.

Lemma rstrip_app_keep p s t :
  t ≠ "" → rstrip p t = t → rstrip p (s +:+ t) = s +:+ t.
Proof.
  intros Hne Ht. induction s as [|d s IH]; cbn; [done|]. rewrite IH.
  by destruct s, t.
Qed.

Lemma before_first_none c s : has_char c s = false → before_first c s = s.
Proof.
  unfold before_first, has_char. intros H.
  assert (partition_at c s = None) as ->; [|done].
  induction s as [|d s IH]; cbn in *; [done|]. bool_prop. rewrite Ascii.eqb_sym.
  destruct (Ascii.eqb c d); [done|]. by rewrite IH.
Qed.

Lemma after_last_none c s : has_char c s = false → after_last c s = s.
Proof.
  unfold after_last, has_char. intros H.
  assert (rpartition c s = None) as ->; [|done].
  induction s as [|d s IH]; cbn in *; [done|]. bool_prop. rewrite IH by done.
  rewrite Ascii.eqb_sym. by destruct (Ascii.eqb c d).
Qed.
End Splitting.

(** ** Lines *)

Definition one_line (s : string) : bool := sforall (λ c, negb (is_linebreak c)) s.
Lemma splitlines_line s rest : ∀ cur, one_line s = true →
  splitlines_from cur (s +:+ NLs +:+ rest) = (cur +:+ s) :: splitlines_from "" rest.
Proof.
  induction s as [|c s IH]; intros cur Hs.
  - rewrite sapp_nil_r. cbn. by destruct rest.
  - cbn in Hs |- *. apply andb_true_iff in Hs as [Hc%negb_true_iff Hs]. rewrite Hc.
    etrans; [exact (IH _ Hs)|]. by rewrite sapp_snoc.
Qed.
Lemma splitlines_one s : ∀ cur, one_line s = true → cur +:+ s ≠ "" → splitlines_from cur s = [cur +:+ s].
Proof.
  induction s as [|c s IH]; intros cur Hs Hne.
  - rewrite sapp_nil_r in *. cbn. by destruct cur.
  - cbn in Hs |- *. apply andb_true_iff in Hs as [Hc%negb_true_iff Hs]. rewrite Hc, IH, sapp_snoc; [done..|].
    by rewrite sapp_snoc.
Qed.
(** Lines that are joined are split again. *)
Lemma splitlines_join l : Forall (λ s, one_line s = true) l → List.last l "x" ≠ "" → splitlines (join NLs l) = l.
Proof.
  induction 1 as [|s l Hs Hl IH]; [done|]. intros Hlast. destruct l as [|s' l'].
  - by apply splitlines_one.
  - rewrite join_cons by done. unfold splitlines in *. rewrite splitlines_line by done. by rewrite IH.
Qed.
