(* ===== verification/Names.v ===== *)
(** * Tool names: [horizon/tools/names.py]

    The registered tool names, the table of legacy names, and the aliasing
    applied to every persisted rule. *)

From S2P Require Import Prelude PyStr.

Definition READ := "read".
Definition WRITE := "write".
Definition EDIT := "edit".
Definition BASH := "bash".
Definition PROCESS := "process".
Definition SEARCH_FILES := "search_files".
Definition SUBAGENT := "subagent".
Definition MEMORY := "memory".
Definition LOAD_SKILL := "load_skill".
Definition WEB_RESEARCH := "web_research".
Definition ARTIFACT := "artifact".
Definition ROUTINE := "routine".
Definition CLARIFY := "clarify".
Definition PRELOAD_MEMORY := "preload_memory".

(** The frozen set [ALL]. *)
Definition ALL : list string :=
  [READ; WRITE; EDIT; BASH; PROCESS; SEARCH_FILES; SUBAGENT; MEMORY; LOAD_SKILL;
   WEB_RESEARCH; ARTIFACT; ROUTINE; CLARIFY; PRELOAD_MEMORY].

Definition TOOL_NAME_ALIASES : list (string * string) :=
  [("read_file", READ); ("view_file", READ); ("write_file", WRITE);
   ("patch", EDIT); ("terminal", BASH); ("process", PROCESS);
   ("search_files", SEARCH_FILES); ("delegate", SUBAGENT); ("agent", SUBAGENT);
   ("add_memory", MEMORY); ("recall_past_sessions", MEMORY);
   ("session_search", MEMORY); ("load_skill", LOAD_SKILL);
   ("reload", LOAD_SKILL); ("web_research", WEB_RESEARCH);
   ("artifact", ARTIFACT); ("routine", ROUTINE); ("clarify", CLARIFY);
   ("preload_memory", PRELOAD_MEMORY)].

(** [dict.get] on a table of strings. *)
Fixpoint table_get {V} (t : list (string * V)) (k : string) : option V :=
  match t with
  | [] => None
  | (k', v) :: t' => if (k =? k')%string then Some v else table_get t' k
  end.

(** [str in frozenset]. *)
Definition mem (x : string) (l : list string) : bool := existsb (String.eqb x) l.

Definition apply_tool_aliases (name : string) : string :=
  match table_get TOOL_NAME_ALIASES name with Some n => n | None => name end.

(** ** Facts *)

Lemma mem_spec x l : mem x l = true ↔ x ∈ l.
Proof.
  unfold mem. rewrite existsb_elem. split.
  - intros (y & Hy & E). apply String.eqb_eq in E as ->. done.
  - intros Hx. exists x. by rewrite String.eqb_refl.
Qed.

Lemma mem_false x l : mem x l = false ↔ x ∉ l.
Proof. rewrite <-mem_spec. destruct (mem x l); naive_solver. Qed.

Lemma table_get_in {V} (t : list (string * V)) k v :
  table_get t k = Some v → (k, v) ∈ t.
Proof.
  induction t as [|[k' v'] t IH]; cbn; [done|].
  destruct (k =? k')%string eqn:E; intros H.
  - bool_prop. simplify_eq. left.
  - right. auto.
Qed.

(** Every alias points at a registered tool. *)
Lemma alias_registered k v : table_get TOOL_NAME_ALIASES k = Some v → mem v ALL = true.
Proof.
  intros H%table_get_in. revert v k H.
  assert (Forall (λ kv, mem kv.2 ALL = true) TOOL_NAME_ALIASES) as HF.
  { repeat constructor. }
  rewrite Forall_forall in HF. intros v k H. by apply (HF (k, v)).
Qed.

(** A registered name is its own alias, so aliasing is idempotent. *)
Lemma alias_live n : mem n ALL = true → apply_tool_aliases n = n.
Proof.
  intros H%mem_spec. revert n H. apply Forall_forall.
  repeat constructor.
Qed.

Lemma alias_idem n : apply_tool_aliases (apply_tool_aliases n) = apply_tool_aliases n.
Proof.
  unfold apply_tool_aliases at 2 3.
  destruct (table_get TOOL_NAME_ALIASES n) eqn:E.
  - by apply alias_live, (alias_registered n).
  - unfold apply_tool_aliases. by rewrite E.
Qed.
