(* ===== verification/Regex.v ===== *)
(** * Python's [re]

    The part of [re] the program uses: a parser for pattern text, and the
    backtracking matcher, which lists the matches of a node in the order the
    engine tries them.  Patterns are written as in the source; [re_compile]
    covers literals, escapes, classes, groups (capturing, [(?:...)], lookahead),
    alternation, greedy and lazy repetition, anchors, word boundaries and
    back references.  It returns [None] on other syntax, where [re.compile]
    may succeed or raise [re.error]. *)

From S2P Require Import Prelude PyStr.

Inductive citem :=
| CRange (lo hi : ascii)
| CClass (p : ascii → bool).

Inductive regex :=
| REmpty
| RChar (c : ascii)
| RAny
| RSet (neg : bool) (items : list citem)
| RSeq (a b : regex)
| RAlt (a b : regex)
| RRep (lo : nat) (hi : option nat) (greedy : bool) (r : regex)
| RGroup (n : nat) (r : regex)
| RBackref (n : nat)
| RBol
| REol
| RWordB (neg : bool)
| RLook (neg : bool) (r : regex).

Record reflags := { f_icase : bool; f_dotall : bool }.
Definition noflags : reflags := {| f_icase := false; f_dotall := false |}.
Definition IGNORECASE : reflags := {| f_icase := true; f_dotall := false |}.
Definition DOTALL : reflags := {| f_icase := false; f_dotall := true |}.

(** ** Matching *)

(** A point of the subject: the character before it, what follows it, and the
    text of the groups closed so far. *)
Record mstate := MState {
  m_prev : option ascii;
  m_rest : string;
  m_caps : list (nat * string)
}.

Definition item_has (c : ascii) (it : citem) : bool :=
  match it with
  | CRange lo hi => in_range (code lo) (code hi) c
  | CClass p => p c
  end.

Definition set_has (icase : bool) (items : list citem) (c : ascii) : bool :=
  existsb (item_has c) items
  || (icase && (existsb (item_has (lower_char c)) items
                || existsb (item_has (upper_char c)) items)).

Definition char_eq (icase : bool) (a b : ascii) : bool :=
  if icase then Ascii.eqb (lower_char a) (lower_char b) else Ascii.eqb a b.

Definition word_before (st : mstate) : bool :=
  match m_prev st with Some c => is_word c | None => false end.
Definition word_after (st : mstate) : bool :=
  match m_rest st with String c _ => is_word c | "" => false end.

(** Consume one character satisfying a test. *)
Definition step1 (p : ascii → bool) (st : mstate) : list mstate :=
  match m_rest st with
  | String c rest => if p c then [MState (Some c) rest (m_caps st)] else []
  | "" => []
  end.

Fixpoint get_cap (n : nat) (caps : list (nat * string)) : option string :=
  match caps with
  | [] => None
  | (k, v) :: caps' => if n =? k then Some v else get_cap n caps'
  end.

(** Consume a given text. *)
Fixpoint eat (icase : bool) (t : string) (st : mstate) : list mstate :=
  match t with
  | "" => [st]
  | String c t' => flat_map (eat icase t') (step1 (char_eq icase c) st)
  end.

(** Repetition of [m] between [lo] and [hi] times; an iteration past the
    minimum that consumes nothing ends the loop, as in the engine. *)
Fixpoint rep_match (m : mstate → list mstate) (lo : nat) (hi : option nat)
    (greedy : bool) (fuel k : nat) (st : mstate) : list mstate :=
  match fuel with
  | 0 => []
  | S f =>
      let more :=
        if match hi with Some h => k <? h | None => true end then
          flat_map (λ st',
              if (lo <=? k) && (slen (m_rest st') =? slen (m_rest st)) then []
              else rep_match m lo hi greedy f (S k) st') (m st)
        else [] in
      if k <? lo then more
      else if greedy then more ++ [st] else st :: more
  end.

Fixpoint rmatch (fl : reflags) (r : regex) (st : mstate) : list mstate :=
  match r with
  | REmpty => [st]
  | RChar c => step1 (char_eq (f_icase fl) c) st
  | RAny => step1 (λ c, f_dotall fl || negb (Ascii.eqb c NL)) st
  | RSet neg items => step1 (λ c, xorb neg (set_has (f_icase fl) items c)) st
  | RSeq a b => flat_map (rmatch fl b) (rmatch fl a st)
  | RAlt a b => rmatch fl a st ++ rmatch fl b st
  | RRep lo hi greedy a =>
      rep_match (rmatch fl a) lo hi greedy (lo + slen (m_rest st) + 2) 0 st
  | RGroup n a =>
      map (λ st', MState (m_prev st') (m_rest st')
                    ((n, stake (slen (m_rest st) - slen (m_rest st')) (m_rest st))
                     :: m_caps st')) (rmatch fl a st)
  | RBackref n =>
      match get_cap n (m_caps st) with
      | Some t => eat (f_icase fl) t st
      | None => []
      end
  | RBol => match m_prev st with None => [st] | Some _ => [] end
  | REol =>
      if (m_rest st =? "")%string || (m_rest st =? NLs)%string then [st] else []
  | RWordB neg =>
      if xorb neg (xorb (word_before st) (word_after st)) then [st] else []
  | RLook neg a =>
      match rmatch fl a st with
      | [] => if neg then [st] else []
      | st' :: _ => if neg then [] else [MState (m_prev st) (m_rest st) (m_caps st')]
      end
  end.

(** ** Pattern text *)

(** The class named by a letter after a backslash. *)
Definition class_of (c : ascii) : option (ascii → bool) :=
  match c with
  | "s" => Some is_space
  | "S" => Some (λ c, negb (is_space c))
  | "w" => Some is_word
  | "W" => Some (λ c, negb (is_word c))
  | "d" => Some is_decimal
  | "D" => Some (λ c, negb (is_decimal c))
  | _ => None
  end%char.

(** The character an escape stands for: control letters, or itself when it is
    not a letter or digit. *)
Definition escape_char (c : ascii) : option ascii :=
  match c with
  | "n" => Some NL
  | "t" => Some TAB
  | "r" => Some CR
  | "f" => Some "012"
  | "v" => Some "011"
  | _ => if is_alpha_ascii c || is_decimal c then None else Some c
  end%char.

(** One member of a bracketed class. *)
Definition class_atom (s : string) : option (citem * option ascii * string) :=
  match s with
  | String "\" (String c rest) =>
      match class_of c with
      | Some p => Some (CClass p, None, rest)
      | None => match escape_char c with
                | Some d => Some (CRange d d, Some d, rest)
                | None => None
                end
      end
  | String c rest => Some (CRange c c, Some c, rest)
  | "" => None
  end.

Fixpoint class_items (fuel : nat) (first : bool) (s : string) :
    option (list citem * string) :=
  match fuel with
  | 0 => None
  | S f =>
      match s, first with
      | String "]" rest, false => Some ([], rest)
      | _, _ =>
          match class_atom s with
          | None => None
          | Some (it, lo, rest) =>
              match lo, rest with
              | Some a, String "-" (String x rest') =>
                  if Ascii.eqb x "]" then
                    match class_items f false rest with
                    | Some (its, r) => Some (it :: its, r)
                    | None => None
                    end
                  else
                    match class_atom (String x rest') with
                    | Some (_, Some b, rest'') =>
                        match class_items f false rest'' with
                        | Some (its, r) => Some (CRange a b :: its, r)
                        | None => None
                        end
                    | _ => None
                    end
              | _, _ =>
                  match class_items f false rest with
                  | Some (its, r) => Some (it :: its, r)
                  | None => None
                  end
              end
          end
      end
  end.

(** Leading decimal digits. *)
Fixpoint take_num (s : string) (acc : option nat) : option nat * string :=
  match s with
  | String c rest =>
      match digit_val c with
      | Some d => take_num rest (Some (10 * default 0 acc + Z.to_nat d))
      | None => (acc, s)
      end
  | "" => (acc, s)
  end.

(** The bounds of a quantifier, [None] when none starts here. *)
Definition quantifier (s : string) : option (nat * option nat * string) :=
  match s with
  | String "*" rest => Some (0, None, rest)
  | String "+" rest => Some (1, None, rest)
  | String "?" rest => Some (0, Some 1, rest)
  | String "{" rest =>
      match take_num rest None with
      | (Some n, String "}" rest') => Some (n, Some n, rest')
      | (lo, String "," rest') =>
          match take_num rest' None with
          | (hi, String "}" rest'') =>
              match lo, hi with
              | None, None => None
              | _, _ => Some (default 0 lo, hi, rest'')
              end
          | _ => None
          end
      | _ => None
      end
  | _ => None
  end.

(** Apply the quantifier that follows an atom; a second one is an error. *)
Definition quantified (a : regex) (s : string) : option (regex * string) :=
  match quantifier s with
  | None => Some (a, s)
  | Some (lo, hi, rest) =>
      let '(greedy, rest') :=
        match rest with String "?" r => (false, r) | _ => (true, rest) end in
      match quantifier rest' with
      | Some _ => None
      | None => Some (RRep lo hi greedy a, rest')
      end
  end.

(** An alternation up to a closing parenthesis or the end; [g] is the number
    of capturing groups opened so far. *)
Fixpoint parse_alt (fuel : nat) (g : nat) (s : string) :
    option (regex * nat * string) :=
  match fuel with
  | 0 => None
  | S f =>
      match parse_seq f g s with
      | Some (a, g', String "|" rest) =>
          match parse_alt f g' rest with
          | Some (b, g'', rest') => Some (RAlt a b, g'', rest')
          | None => None
          end
      | r => r
      end
  end
with parse_seq (fuel : nat) (g : nat) (s : string) :
    option (regex * nat * string) :=
  match fuel with
  | 0 => None
  | S f =>
      let continue (a : regex) (g' : nat) (rest : string) :=
        match quantified a rest with
        | None => None
        | Some (q, rest') =>
            match parse_seq f g' rest' with
            | Some (b, g'', rest'') => Some (RSeq q b, g'', rest'')
            | None => None
            end
        end in
      let group (mk : regex → regex) (g' : nat) (rest : string) :=
        match parse_alt f g' rest with
        | Some (a, g'', String ")" rest') => continue (mk a) g'' rest'
        | _ => None
        end in
      match s with
      | EmptyString => Some (REmpty, g, s)
      | String c rest =>
          match c with
          | "|" | ")" => Some (REmpty, g, s)
          | "*" | "+" | "?" => None
          | "(" =>
              match rest with
              | String "?" (String ":" r) => group id g r
              | String "?" (String "=" r) => group (RLook false) g r
              | String "?" (String "!" r) => group (RLook true) g r
              | String "?" _ => None
              | _ => group (RGroup (S g)) (S g) rest
              end
          | "[" =>
              match rest with
              | String "^" r =>
                  match class_items f true r with
                  | Some (its, r') => continue (RSet true its) g r'
                  | None => None
                  end
              | _ =>
                  match class_items f true rest with
                  | Some (its, r') => continue (RSet false its) g r'
                  | None => None
                  end
              end
          | "." => continue RAny g rest
          | "^" => continue RBol g rest
          | "$" => continue REol g rest
          | "\" =>
              match rest with
              | EmptyString => None
              | String d r =>
                  match d with
                  | "b" => continue (RWordB false) g r
                  | "B" => continue (RWordB true) g r
                  | _ =>
                      match class_of d, digit_val d, escape_char d with
                      | Some p, _, _ => continue (RSet false [CClass p]) g r
                      | None, Some n, _ =>
                          if (1 <=? n)%Z && (n <=? Z.of_nat g)%Z
                          then continue (RBackref (Z.to_nat n)) g r else None
                      | None, None, Some e => continue (RChar e) g r
                      | None, None, None => None
                      end
                  end
              end
          | _ => continue (RChar c) g rest
          end%char
      end
  end.

Definition re_compile (pat : string) : option regex :=
  match parse_alt (2 * slen pat + 2) 0 pat with
  | Some (r, _, "") => Some r
  | _ => None
  end.

(** A pattern of the source, compiled when its module is loaded. *)
Definition re_of (pat : string) : regex := default REmpty (re_compile pat).

(** ** The operations of [re] *)

Definition start_at (prev : option ascii) (s : string) : mstate := MState prev s [].

(** [pattern.match(s)]: the state at the end of the match. *)
Definition re_match (fl : reflags) (r : regex) (s : string) : option mstate :=
  head (rmatch fl r (start_at None s)).

(** The first match at or after a point: what precedes it, the text that
    starts at it, and the state at its end. *)
Fixpoint search_from (fl : reflags) (r : regex) (prev : option ascii) (s : string) :
    option (string * string * mstate) :=
  match rmatch fl r (start_at prev s) with
  | st :: _ => Some ("", s, st)
  | [] =>
      match s with
      | "" => None
      | String c s' =>
          match search_from fl r (Some c) s' with
          | Some (pre, at_, st) => Some (String c pre, at_, st)
          | None => None
          end
      end
  end.

(** [pattern.search(s)], and whether it finds anything. *)
Definition re_search (fl : reflags) (r : regex) (s : string) :=
  search_from fl r None s.
Definition re_found (fl : reflags) (r : regex) (s : string) : bool :=
  match re_search fl r s with Some _ => true | None => false end.

(** [m.group(0)]: the matched text. *)
Definition span_text (at_ : string) (st : mstate) : string :=
  stake (slen at_ - slen (m_rest st)) at_.
(** [m.group(n)]. *)
Definition group (n : nat) (st : mstate) : option string := get_cap n (m_caps st).

(** [pattern.sub(repl, s)]. An empty match is replaced and one character is
    copied, as [re] does. *)
Fixpoint sub_from (fl : reflags) (r : regex) (repl : string) (fuel : nat)
    (prev : option ascii) (s : string) : string :=
  match fuel with
  | 0 => s
  | S f =>
      match search_from fl r prev s with
      | None => s
      | Some (pre, at_, st) =>
          if slen at_ =? slen (m_rest st) then
            pre +:+ repl +:+
            match at_ with
            | "" => ""
            | String c at' => String c (sub_from fl r repl f (Some c) at')
            end
          else pre +:+ repl +:+ sub_from fl r repl f (m_prev st) (m_rest st)
      end
  end.
Definition re_sub (fl : reflags) (r : regex) (repl s : string) : string :=
  sub_from fl r repl (S (slen s)) None s.

(** [pattern.findall(s)] for a pattern with one group. *)
Fixpoint findall_from (fl : reflags) (r : regex) (fuel : nat)
    (prev : option ascii) (s : string) : list string :=
  match fuel with
  | 0 => []
  | S f =>
      match search_from fl r prev s with
      | None => []
      | Some (_, at_, st) =>
          default "" (group 1 st) ::
          (if slen at_ =? slen (m_rest st) then
             match at_ with
             | "" => []
             | String c at' => findall_from fl r f (Some c) at'
             end
           else findall_from fl r f (m_prev st) (m_rest st))
      end
  end.
Definition re_findall1 (fl : reflags) (r : regex) (s : string) : list string :=
  findall_from fl r (S (slen s)) None s.

(** ** Facts: a match stays inside its subject *)

(** Every state the matcher reaches has a rest and captures no longer than
    the subject. *)
Definition caps_within (n : nat) (st : mstate) : Prop :=
  slen (m_rest st) ≤ n ∧ Forall (λ kv : nat * string, slen kv.2 ≤ n) (m_caps st).

Lemma step1_within n p st :
  caps_within n st → Forall (caps_within n) (step1 p st).
Proof.
  intros [Hr Hc]. unfold step1. destruct (m_rest st) as [|c rest] eqn:E; [done|].
  destruct (p c); [|done]. repeat constructor; cbn in *; [lia|done].
Qed.

Lemma flat_map_within {n} (f : mstate → list mstate) l :
  Forall (caps_within n) l →
  (∀ st, caps_within n st → Forall (caps_within n) (f st)) →
  Forall (caps_within n) (flat_map f l).
Proof.
  intros Hl Hf. induction Hl as [|st l Hst Hl IH]; cbn; [done|].
  apply Forall_app; auto.
Qed.

Lemma rep_match_within n m lo hi greedy :
  (∀ st, caps_within n st → Forall (caps_within n) (m st)) →
  ∀ fuel k st, caps_within n st →
    Forall (caps_within n) (rep_match m lo hi greedy fuel k st).
Proof.
  intros Hm. induction fuel as [|f IH]; intros k st Hst; cbn [rep_match]; [done|].
  set (cont := match hi with Some h => k <? h | None => true end).
  set (more := if cont then flat_map _ (m st) else []).
  assert (Forall (caps_within n) more) as Hmore.
  { subst more. destruct cont; [|done].
    apply flat_map_within; [auto|]. intros st' Hst'.
    destruct (_ && _); [done|auto]. }
  destruct (k <? lo); [done|]. destruct greedy; [|by constructor].
  apply Forall_app; auto.
Qed.

Lemma eat_within n ic t st : caps_within n st → Forall (caps_within n) (eat ic t st).
Proof.
  revert st. induction t as [|c t IH]; intros st Hst; cbn; [by constructor|].
  apply flat_map_within; [by apply step1_within|auto].
Qed.

Lemma rmatch_within n fl r st :
  caps_within n st → Forall (caps_within n) (rmatch fl r st).
Proof.
  revert st. induction r as [| | | |a IHa b IHb|a IHa b IHb|lo hi g a IHa|k a IHa
    |k| | |neg|neg a IHa]; intros st Hst; cbn [rmatch];
    try (by apply step1_within); try (by constructor).
  - apply flat_map_within; auto.
  - apply Forall_app; auto.
  - apply rep_match_within; auto.
  - apply Forall_map. eapply Forall_impl; [by apply IHa|].
    intros st' [Hr Hc]. split; [done|]. cbn. constructor; [|done]. cbn.
    rewrite slen_stake. destruct Hst. lia.
  - destruct (get_cap k (m_caps st)); [by apply eat_within|done].
  - destruct (m_prev st); [done|by constructor].
  - destruct (_ || _); [by constructor|done].
  - destruct (xorb _ _); [by constructor|done].
  - specialize (IHa _ Hst). destruct (rmatch fl a st) as [|st' l].
    + destruct neg; [by constructor|done].
    + destruct neg; [done|]. constructor; [|done]. apply Forall_inv in IHa.
      destruct Hst, IHa. by split.
Qed.

Lemma get_cap_within n st k t :
  caps_within n st → get_cap k (m_caps st) = Some t → slen t ≤ n.
Proof.
  intros [_ H]. induction H as [|[k' v] l Hv Hl IH]; cbn; [done|].
  destruct (k =? k'); [by intros [= <-]|done].
Qed.

(** A group of a successful [match] is no longer than the subject. *)
Lemma re_match_group_len fl r s st k t :
  re_match fl r s = Some st → group k st = Some t → slen t ≤ slen s.
Proof.
  intros Hm. apply get_cap_within. unfold re_match in Hm.
  assert (Forall (caps_within (slen s)) (rmatch fl r (start_at None s))) as H.
  { apply rmatch_within. by split. }
  destruct (rmatch fl r (start_at None s)) as [|st' l]; simplify_eq/=.
  by apply Forall_inv in H.
Qed.
