(* ===== verification/PyVal.v ===== *)
(** * Python values, [dict] and [json]

    The values that reach the program through tool arguments, overlay files
    and session state are JSON-shaped.  A [dict] keeps insertion order and is
    a list of pairs with distinct keys; a finite [float] is the rational it
    denotes (NaN, the infinities and the rounding of decimal literals are out
    of the model). *)

From S2P Require Import Prelude PyStr.
From Stdlib Require Export QArith.QArith_base.
#[global] Open Scope nat_scope.

#[global] Unset Elimination Schemes.
Inductive pyval :=
| PNone
| PBool (b : bool)
| PInt (z : Z)
| PFloat (q : Q)
| PStr (s : string)
| PList (l : list pyval)
| PDict (d : list (string * pyval)).
#[global] Set Elimination Schemes.

Abbreviation pydict := (list (string * pyval)).

Lemma pyval_ind (P : pyval → Prop) :
  P PNone → (∀ b, P (PBool b)) → (∀ z, P (PInt z)) → (∀ q, P (PFloat q)) →
  (∀ s, P (PStr s)) → (∀ l, Forall P l → P (PList l)) →
  (∀ d : pydict, Forall (λ kv, P kv.2) d → P (PDict d)) → ∀ v, P v.
Proof.
  intros HN HB HI HF HS HL HD. fix IH 1. intros [|b|z|q|s|l|d].
  - done.
  - apply HB.
  - apply HI.
  - apply HF.
  - apply HS.
  - apply HL. induction l as [|x l IHl]; constructor; [apply IH|apply IHl].
  - apply HD. induction d as [|x d IHd]; constructor; [apply IH|apply IHd].
Qed.

(** ** [dict] *)

Section Dict.
Context {V : Type}.

(** [d.get(k)] *)
Fixpoint dget (d : list (string * V)) (k : string) : option V :=
  match d with
  | [] => None
  | (k', v) :: d' => if (k =? k')%string then Some v else dget d' k
  end.

(** [d[k] = v]: in place, or at the end. *)
Fixpoint dset (d : list (string * V)) (k : string) (v : V) : list (string * V) :=
  match d with
  | [] => [(k, v)]
  | (k', v') :: d' =>
      if (k =? k')%string then (k', v) :: d' else (k', v') :: dset d' k v
  end.

(** [d.pop(k, None)] *)
Fixpoint ddel (d : list (string * V)) (k : string) : list (string * V) :=
  match d with
  | [] => []
  | (k', v') :: d' => if (k =? k')%string then d' else (k', v') :: ddel d' k
  end.

(** [k in d] *)
Definition dhas (d : list (string * V)) (k : string) : bool :=
  match dget d k with Some _ => true | None => false end.

(** A dict built key by key, as a dict display or [json.loads] does. *)
Definition dict_of (l : list (string * V)) : list (string * V) :=
  fold_left (λ d kv, dset d kv.1 kv.2) l [].

Definition keys (d : list (string * V)) : list string := map fst d.

Lemma dget_dset_eq d k v : dget (dset d k v) k = Some v.
Proof.
  induction d as [|[k' v'] d IH]; cbn; [by rewrite String.eqb_refl|].
  destruct (k =? k')%string eqn:E; cbn; by rewrite E.
Qed.

Lemma dget_dset_ne d k k' v : k ≠ k' → dget (dset d k v) k' = dget d k'.
Proof.
  intros Hne. apply String.eqb_neq in Hne. induction d as [|[k1 v1] d IH]; cbn.
  - rewrite String.eqb_sym. by rewrite Hne.
  - destruct (k =? k1)%string eqn:E; cbn; [|by rewrite IH].
    apply String.eqb_eq in E as <-. by rewrite (String.eqb_sym k' k), Hne.
Qed.

Lemma dget_dset d k k' v :
  dget (dset d k v) k' = if decide (k = k') then Some v else dget d k'.
Proof.
  case_decide as H; [subst; apply dget_dset_eq|by apply dget_dset_ne].
Qed.

Lemma dget_ddel_ne d k k' : k ≠ k' → dget (ddel d k) k' = dget d k'.
Proof.
  intros Hne. apply String.eqb_neq in Hne. induction d as [|[k1 v1] d IH]; cbn; [done|].
  destruct (k =? k1)%string eqn:E; cbn; [|by rewrite IH].
  apply String.eqb_eq in E as <-. by rewrite (String.eqb_sym k' k), Hne.
Qed.

Lemma dget_None d k : dget d k = None ↔ k ∉ keys d.
Proof.
  induction d as [|[k' v] d IH]; cbn.
  - split; [|done]. intros _ H. by apply elem_of_nil in H.
  - destruct (k =? k')%string eqn:E; bool_prop.
    + subst. split; [done|]. intros []. left.
    + rewrite IH. unfold keys. cbn. rewrite not_elem_of_cons. naive_solver.
Qed.

Lemma dget_ddel_eq d k : NoDup (keys d) → dget (ddel d k) k = None.
Proof.
  induction d as [|[k' v] d IH]; cbn; [done|].
  intros [Hk Hd]%NoDup_cons. destruct (k =? k')%string eqn:E; cbn.
  - apply String.eqb_eq in E as ->. by apply dget_None.
  - rewrite E. auto.
Qed.

Lemma dget_in d k v : dget d k = Some v → (k, v) ∈ d.
Proof.
  induction d as [|[k' v'] d IH]; cbn; [done|].
  destruct (k =? k')%string eqn:E; bool_prop.
  - intros [= <-]. subst. left.
  - intros H. right. auto.
Qed.

Lemma keys_dset_in d k v : k ∈ keys d → keys (dset d k v) = keys d.
Proof.
  unfold keys. induction d as [|[k' v'] d IH]; cbn.
  - intros H. by apply elem_of_nil in H.
  - destruct (k =? k')%string eqn:E; cbn; [done|]. bool_prop.
    intros [?|Hin]%elem_of_cons; [done|]. by rewrite IH.
Qed.

Lemma keys_dset_new d k v : k ∉ keys d → keys (dset d k v) = keys d ++ [k].
Proof.
  unfold keys. induction d as [|[k' v'] d IH]; cbn; [done|].
  rewrite not_elem_of_cons. intros [Hne Hin]. apply String.eqb_neq in Hne as ->.
  cbn. by rewrite IH.
Qed.

Lemma dset_new d k v : k ∉ keys d → dset d k v = d ++ [(k, v)].
Proof.
  unfold keys. induction d as [|[k' v'] d IH]; cbn; [done|].
  rewrite not_elem_of_cons. intros [Hne Hin]. apply String.eqb_neq in Hne as ->. by rewrite IH.
Qed.

Lemma NoDup_keys_dset d k v : NoDup (keys d) → NoDup (keys (dset d k v)).
Proof.
  intros Hd. destruct (decide (k ∈ keys d)) as [Hin|Hin].
  - by rewrite keys_dset_in.
  - rewrite keys_dset_new by done. apply NoDup_app. split; [done|]. split.
    + intros x Hx ->%list_elem_of_singleton. done.
    + apply NoDup_singleton.
Qed.

Lemma keys_ddel_sub d k x : x ∈ keys (ddel d k) → x ∈ keys d.
Proof.
  unfold keys. induction d as [|[k' v'] d IH]; cbn; [done|].
  destruct (k =? k')%string; cbn; rewrite ?elem_of_cons; naive_solver.
Qed.

Lemma NoDup_keys_ddel d k : NoDup (keys d) → NoDup (keys (ddel d k)).
Proof.
  induction d as [|[k' v'] d IH]; cbn; [done|]. intros [Hk Hd]%NoDup_cons.
  destruct (k =? k')%string; cbn; [done|]. constructor; [|by apply IH].
  intros Hin%keys_ddel_sub. done.
Qed.

Lemma dget_of_in d k v : NoDup (keys d) → (k, v) ∈ d → dget d k = Some v.
Proof.
  unfold keys. induction d as [|[k' v'] d IH]; cbn [map dget]; [intros _ []%elem_of_nil|].
  intros [Hk Hd]%NoDup_cons [[= -> ->] | Hin]%elem_of_cons; [by rewrite String.eqb_refl|].
  destruct (k =? k')%string eqn:E; bool_prop; [|by apply IH].
  subst k'. destruct Hk. apply list_elem_of_fmap. by exists (k, v).
Qed.

Lemma dset_in d k v kr : kr ∈ dset d k v → kr = (k, v) ∨ kr ∈ d.
Proof.
  induction d as [|[k0 v0] d IH]; cbn; [rewrite list_elem_of_singleton; by left|].
  destruct (k =? k0)%string eqn:E; bool_prop; subst; rewrite !elem_of_cons; naive_solver.
Qed.
Lemma in_dset d k v : (k, v) ∈ dset d k v.
Proof. apply dget_in, dget_dset_eq. Qed.
Lemma in_dset_ne d k v kr : kr ∈ d → kr.1 ≠ k → kr ∈ dset d k v.
Proof.
  induction d as [|[k' v'] d IH]; cbn; [by intros ?%elem_of_nil|]. intros [->|Hin]%elem_of_cons Hne.
  - cbn in Hne. apply not_eq_sym, String.eqb_neq in Hne as ->. left.
  - destruct (k =? k')%string; right; auto.
Qed.

Lemma ddel_in d k kr : kr ∈ ddel d k → kr ∈ d.
Proof.
  induction d as [|[k' v'] d IH]; cbn; [done|]. destruct (k =? k')%string; [by right|].
  rewrite !elem_of_cons. naive_solver.
Qed.
Lemma in_ddel d k kr : kr ∈ d → kr.1 ≠ k → kr ∈ ddel d k.
Proof.
  induction d as [|[k' v'] d IH]; cbn; [done|]. intros [->|Hin]%elem_of_cons Hne.
  - cbn in Hne. apply not_eq_sym, String.eqb_neq in Hne as ->. left.
  - destruct (k =? k')%string; [done|]. right. by apply IH.
Qed.
Lemma ddel_in_iff d k kr : NoDup (keys d) → kr ∈ ddel d k ↔ kr ∈ d ∧ kr.1 ≠ k.
Proof.
  intros Hnd. split; [|intros []; by apply in_ddel]. intros Hin. split; [by eapply ddel_in|].
  intros <-. pose proof (dget_ddel_eq d kr.1 Hnd) as Hd%dget_None. apply Hd.
  unfold keys. apply list_elem_of_fmap. by exists kr.
Qed.
End Dict.

#[export] Hint Rewrite @dget_dset_eq : py.

(** ** Truth and equality *)

(** [bool(v)] *)
Definition truthy (v : pyval) : bool :=
  match v with
  | PNone => false
  | PBool b => b
  | PInt z => negb (z =? 0)%Z
  | PFloat q => negb (Qeq_bool q 0)
  | PStr s => negb (s =? "")%string
  | PList l => match l with [] => false | _ => true end
  | PDict d => match d with [] => false | _ => true end
  end.

(** The number a [bool], [int] or [float] is. *)
Definition num_of (v : pyval) : option Q :=
  match v with
  | PBool b => Some (inject_Z (if b then 1 else 0))
  | PInt z => Some (inject_Z z)
  | PFloat q => Some q
  | _ => None
  end.

(** [a == b] *)
Fixpoint py_eq (a b : pyval) {struct a} : bool :=
  match a, b with
  | PNone, PNone => true
  | PStr s, PStr t => (s =? t)%string
  | PList l, PList m =>
      (fix go (l m : list pyval) :=
         match l, m with
         | [], [] => true
         | x :: l', y :: m' => py_eq x y && go l' m'
         | _, _ => false
         end) l m
  | PDict d, PDict e =>
      (length d =? length e) &&
      (fix go (d : pydict) :=
         match d with
         | [] => true
         | (k, x) :: d' =>
             match dget e k with Some y => py_eq x y | None => false end && go d'
         end) d
  | _, _ =>
      match num_of a, num_of b with
      | Some p, Some q => Qeq_bool p q
      | _, _ => false
      end
  end.

Definition is_str (v : pyval) : option string :=
  match v with PStr s => Some s | _ => None end.
Definition is_dict (v : pyval) : option pydict :=
  match v with PDict d => Some d | _ => None end.
Definition is_list (v : pyval) : option (list pyval) :=
  match v with PList l => Some l | _ => None end.

(** [d.get(k)] as a value: [None] when absent. *)
Definition get (d : pydict) (k : string) : pyval := default PNone (dget d k).
(** [d.get(k)] when it is a string. *)
Definition get_str (d : pydict) (k : string) : option string := is_str (get d k).

(** ** Text of values *)

(** [float.__repr__], the one conversion the model leaves to the host. *)
Class PyFloat := float_repr : Q → string.

Definition hex_digit (n : N) : ascii := if (n <? 10)%N then digit_char n else ascii_of_N (87 + n).
Definition hex2 (c : ascii) : string :=
  String (hex_digit (code c / 16)) (s1 (hex_digit (code c mod 16))).

Section Repr.
Context `{PyFloat}.

(** Characters [str.isprintable] rejects. *)
Definition unprintable (c : ascii) : bool :=
  in_range 0 31 c || in_range 127 160 c || (code c =? 173)%N.

Definition repr_char (q c : ascii) : string :=
  if Ascii.eqb c BSL then "\\"
  else if Ascii.eqb c q then String BSL (s1 c)
  else if Ascii.eqb c NL then "\n"
  else if Ascii.eqb c CR then "\r"
  else if Ascii.eqb c TAB then "\t"
  else if unprintable c then "\x" +:+ hex2 c
  else s1 c.

Fixpoint concat_map (f : ascii → string) (s : string) : string :=
  match s with "" => "" | String c s' => f c +:+ concat_map f s' end.

Definition repr_str (s : string) : string :=
  let q := if has_char SQ s && negb (has_char DQ s) then DQ else SQ in
  s1 q +:+ concat_map (repr_char q) s +:+ s1 q.

(** [repr(v)] *)
Fixpoint py_repr (v : pyval) : string :=
  match v with
  | PNone => "None"
  | PBool b => if b then "True" else "False"
  | PInt z => str_of_Z z
  | PFloat q => float_repr q
  | PStr s => repr_str s
  | PList l => "[" +:+ join ", " (map py_repr l) +:+ "]"
  | PDict d =>
      "{" +:+ join ", " (map (λ kv, repr_str kv.1 +:+ ": " +:+ py_repr kv.2) d) +:+ "}"
  end.

(** [str(v)] *)
Definition py_str (v : pyval) : string :=
  match v with PStr s => s | _ => py_repr v end.
End Repr.

(** [str(exc)] and [type(exc).__name__] *)
Definition exc_text (x : exc) : string :=
  match x with
  | ValueError m | TypeError m | AttributeError m | IndexError m | RuntimeError m
  | FileNotFoundError m | OSError m | OtherError _ m => m
  | KeyError m => repr_str m
  end.
Definition exc_name (x : exc) : string :=
  match x with
  | ValueError _ => "ValueError"
  | TypeError _ => "TypeError"
  | KeyError _ => "KeyError"
  | AttributeError _ => "AttributeError"
  | IndexError _ => "IndexError"
  | RuntimeError _ => "RuntimeError"
  | FileNotFoundError _ => "FileNotFoundError"
  | OSError _ => "OSError"
  | OtherError cls _ => cls
  end.

(** ** [json.dumps] *)

Record dump_opts := {
  item_sep : string; key_sep : string; sort_keys : bool; ensure_ascii : bool
}.
Definition dump_default : dump_opts :=
  {| item_sep := ", "; key_sep := ": "; sort_keys := false; ensure_ascii := true |}.

Definition json_char (asc : bool) (c : ascii) : string :=
  if Ascii.eqb c DQ then String BSL DQs
  else if Ascii.eqb c BSL then "\\"
  else if Ascii.eqb c NL then "\n"
  else if Ascii.eqb c CR then "\r"
  else if Ascii.eqb c TAB then "\t"
  else if (code c =? 12)%N then "\f"
  else if (code c =? 8)%N then "\b"
  else if in_range 0 31 c || (asc && in_range 127 255 c) then "\u00" +:+ hex2 c
  else s1 c.
Definition json_str (asc : bool) (s : string) : string :=
  DQs +:+ concat_map (json_char asc) s +:+ DQs.

(** Code point order of strings. *)
Fixpoint str_leb (a b : string) : bool :=
  match a, b with
  | "", _ => true
  | _, "" => false
  | String x a', String y b' =>
      if Ascii.eqb x y then str_leb a' b' else (code x <? code y)%N
  end.

(** A stable insertion sort: [sorted(l, key=...)] for a total preorder. *)
Section Sort.
Context {A : Type} (le : A → A → bool).
Fixpoint insert_by (x : A) (l : list A) : list A :=
  match l with
  | [] => [x]
  | y :: l' => if le x y then x :: l else y :: insert_by x l'
  end.
Fixpoint sort_by (l : list A) : list A :=
  match l with [] => [] | x :: l' => insert_by x (sort_by l') end.
End Sort.

Section Dumps.
Context `{PyFloat} (o : dump_opts).

Fixpoint json_dumps (v : pyval) : string :=
  match v with
  | PNone => "null"
  | PBool b => if b then "true" else "false"
  | PInt z => str_of_Z z
  | PFloat q => float_repr q
  | PStr s => json_str (ensure_ascii o) s
  | PList l => "[" +:+ join (item_sep o) (map json_dumps l) +:+ "]"
  | PDict d =>
      let items := map (λ kv, (kv.1, json_dumps kv.2)) d in
      let items' := if sort_keys o
                    then sort_by (λ a b, str_leb a.1 b.1) items else items in
      "{" +:+ join (item_sep o)
                (map (λ kv, json_str (ensure_ascii o) kv.1 +:+ key_sep o +:+ kv.2) items')
          +:+ "}"
  end.
End Dumps.

(** ** [json.loads] *)

Definition json_space (c : ascii) : bool :=
  Ascii.eqb c SP || Ascii.eqb c TAB || Ascii.eqb c NL || Ascii.eqb c CR.
Definition skip_json_ws : string → string := lstrip json_space.

Definition hex_val (c : ascii) : option N :=
  if is_decimal c then Some (code c - 48)%N
  else if in_range 97 102 c then Some (code c - 87)%N
  else if in_range 65 70 c then Some (code c - 55)%N
  else None.

(** A string body after its opening quote: the text and what follows the
    closing quote. Code points past U+00FF are out of the model. *)
Fixpoint json_string (s : string) : option (string * string) :=
  match s with
  | "" => None
  | String c rest =>
      if Ascii.eqb c DQ then Some ("", rest)
      else if Ascii.eqb c BSL then
        match rest with
        | "" => None
        | String e rest' =>
            let plain d := '(t, r) ← json_string rest'; Some (String d t, r) in
            if Ascii.eqb e DQ then plain DQ
            else if Ascii.eqb e BSL then plain BSL
            else if Ascii.eqb e "/" then plain "/"%char
            else if Ascii.eqb e "b" then plain "008"%char
            else if Ascii.eqb e "f" then plain "012"%char
            else if Ascii.eqb e "n" then plain NL
            else if Ascii.eqb e "r" then plain CR
            else if Ascii.eqb e "t" then plain TAB
            else if Ascii.eqb e "u" then
              match rest' with
              | String a (String b (String c (String d rest''))) =>
                  match hex_val a, hex_val b, hex_val c, hex_val d with
                  | Some 0%N, Some 0%N, Some h, Some l =>
                      '(t, r) ← json_string rest'';
                      Some (String (ascii_of_N (16 * h + l)) t, r)
                  | _, _, _, _ => None
                  end
              | _ => None
              end
            else None
        end
      else if in_range 0 31 c then None
      else '(t, r) ← json_string rest; Some (String c t, r)
  end.

(** Leading digits: their value, their number, and the rest. *)
Fixpoint take_digits (s : string) (acc : Z) (n : nat) : Z * nat * string :=
  match s with
  | String c rest =>
      match digit_val c with
      | Some d => take_digits rest (10 * acc + d)%Z (S n)
      | None => (acc, n, s)
      end
  | "" => (acc, n, s)
  end.

Definition Qpow10 (e : Z) : Q :=
  if (0 <=? e)%Z then inject_Z (10 ^ e) else Qmake 1 (Z.to_pos (10 ^ (- e))).

(** The number grammar of [json.scanner]: after the [n] digits of the integer part [i]. *)
Definition json_number_tail (neg : bool) (i : Z) (n : nat) (r : string) : option (pyval * string) :=
  if n =? 0 then None
  else
    let sg (z : Z) := if neg then (- z)%Z else z in
    let '(m, k, r1) :=
      match r with
      | String c r' => if Ascii.eqb c "." then
                         match take_digits r' i 0 with
                         | (_, 0, _) => (i, 0, r)
                         | x => x
                         end
                       else (i, 0, r)
      | "" => (i, 0, r)
      end in
    let '(e, ne, r2) :=
      match r1 with
      | String c r' =>
          if Ascii.eqb c "e" || Ascii.eqb c "E" then
            let '(eneg, r'') :=
              match r' with
              | String d t => if Ascii.eqb d "-" then (true, t)
                              else if Ascii.eqb d "+" then (false, t) else (false, r')
              | "" => (false, r')
              end in
            match take_digits r'' 0 0 with
            | (_, 0, _) => (0%Z, 0, r1)
            | (x, nx, t) => ((if eneg then - x else x)%Z, nx, t)
            end
          else (0%Z, 0, r1)
      | "" => (0%Z, 0, r1)
      end in
    if (k =? 0) && (ne =? 0) then Some (PInt (sg i), r)
    else Some (PFloat (Qmult (inject_Z (sg m)) (Qpow10 (e - Z.of_nat k))), r2).

Definition json_number (s : string) : option (pyval * string) :=
  let '(neg, s0) := match s with
                    | String c r => if Ascii.eqb c "-" then (true, r) else (false, s)
                    | "" => (false, s) end in
  let '(i, n, r) := match s0 with
                    | String c r0 => if Ascii.eqb c "0" then (0%Z, 1, r0) else take_digits s0 0 0
                    | "" => (0%Z, 0, s0) end in
  json_number_tail neg i n r.

Definition keyword (s : string) : option (pyval * string) :=
  if startswith "null" s then Some (PNone, sdrop 4 s)
  else if startswith "true" s then Some (PBool true, sdrop 4 s)
  else if startswith "false" s then Some (PBool false, sdrop 5 s)
  else None.

Fixpoint json_value (fuel : nat) (s : string) : option (pyval * string) :=
  match fuel with
  | 0 => None
  | S f =>
      match s with
      | "" => None
      | String c rest =>
          if Ascii.eqb c DQ then
            '(t, r) ← json_string rest; Some (PStr t, r)
          else if Ascii.eqb c "{" then
            let r := skip_json_ws rest in
            match r with
            | String d r' =>
                if Ascii.eqb d "}" then Some (PDict [], r')
                else '(d, r'') ← json_members f r; Some (PDict (dict_of d), r'')
            | "" => None
            end
          else if Ascii.eqb c "[" then
            let r := skip_json_ws rest in
            match r with
            | String d r' =>
                if Ascii.eqb d "]" then Some (PList [], r')
                else '(l, r'') ← json_elements f r; Some (PList l, r'')
            | "" => None
            end
          else match keyword s with Some k => Some k | None => json_number s end
      end
  end
with json_members (fuel : nat) (s : string) : option (pydict * string) :=
  match fuel with
  | 0 => None
  | S f =>
      match s with
      | String c rest =>
          if Ascii.eqb c DQ then
            '(k, r) ← json_string rest;
            match skip_json_ws r with
            | String d r' =>
                if Ascii.eqb d ":" then
                  '(v, r'') ← json_value f (skip_json_ws r');
                  match skip_json_ws r'' with
                  | String e t =>
                      if Ascii.eqb e "}" then Some ([(k, v)], t)
                      else if Ascii.eqb e "," then
                        '(m, t') ← json_members f (skip_json_ws t);
                        Some ((k, v) :: m, t')
                      else None
                  | "" => None
                  end
                else None
            | "" => None
            end
          else None
      | "" => None
      end
  end
with json_elements (fuel : nat) (s : string) : option (list pyval * string) :=
  match fuel with
  | 0 => None
  | S f =>
      '(v, r) ← json_value f s;
      match skip_json_ws r with
      | String e t =>
          if Ascii.eqb e "]" then Some ([v], t)
          else if Ascii.eqb e "," then
            '(l, t') ← json_elements f (skip_json_ws t); Some (v :: l, t')
          else None
      | "" => None
      end
  end.

(** [json.loads(s)]; [None] is [JSONDecodeError]. *)
Definition json_loads (s : string) : option pyval :=
  '(v, r) ← json_value (2 * slen s + 2) (skip_json_ws s);
  match skip_json_ws r with "" => Some v | _ => None end.

(** ** Numbers from texts and values *)

(** [int(tok, base)] on a non-empty text of digits of that base. *)
Definition base_digits (base : Z) (tok : string) : option Z :=
  match tok with
  | "" => None
  | _ => List.fold_left (λ acc c,
           match acc, hex_val c with
           | Some a, Some d => if (Z.of_N d <? base)%Z then Some (a * base + Z.of_N d)%Z else None
           | _, _ => None
           end) (list_ascii_of_string tok) (Some 0%Z)
  end.

(** [int(tok, 10)]: surrounding blanks, a sign, single underscores between
    digits; [None] is [ValueError]. *)
Definition int10 (tok : string) : option Z :=
  let s := strip tok in
  let '(neg, body) := match s with
                      | String "-" r => (true, r)
                      | String "+" r => (false, r)
                      | _ => (false, s)
                      end in
  let parts := split_on "_" body in
  let digits := join "" parts in
  if existsb (λ p, (p =? "")%string) parts || negb (sforall is_decimal digits)
     || (4300 <? slen digits)
  then None
  else match base_digits 10 digits with
       | Some v => Some (if neg then (- v)%Z else v)
       | None => None
       end.

(** [float(s)]: a decimal literal with an optional exponent, digits possibly
    grouped by single underscores. The texts of infinities and NaN have no
    value here and raise. *)
Definition exponent (s : string) : option Z :=
  match s with
  | "" => Some 0%Z
  | String c r => if Ascii.eqb c "e" || Ascii.eqb c "E" then
                    if (strip r =? r)%string then int10 r else None
                  else None
  end.
Definition digit_run (s : string) : string * string :=
  (fix go (s : string) : string * string :=
     match s with
     | String c r => if is_decimal c || Ascii.eqb c "_"
                     then let '(a, b) := go r in (String c a, b) else ("", s)
     | "" => ("", "")
     end) s.
Definition run_value (s : string) : option (Z * nat) :=
  match s with
  | "" => Some (0%Z, 0)
  | _ => match int10 s with
         | Some z => Some (z, length (List.filter is_decimal (list_ascii_of_string s)))
         | None => None
         end
  end.
Definition float_of_str (s0 : string) : option Q :=
  let s := strip s0 in
  let '(neg, body) := match s with
                      | String c r => if Ascii.eqb c "-" then (true, r)
                                      else if Ascii.eqb c "+" then (false, r) else (false, s)
                      | "" => (false, s) end in
  let '(ip, r) := digit_run body in
  let '(fp, r') := match r with
                   | String c t => if Ascii.eqb c "." then digit_run t else ("", r)
                   | "" => ("", r) end in
  match run_value ip, run_value fp, exponent r' with
  | Some (i, n), Some (f, k), Some e =>
      if (n =? 0) && (k =? 0) then None
      else
        let m := (i * 10 ^ Z.of_nat k + f)%Z in
        Some (Qmult (inject_Z (if neg then - m else m)%Z) (Qpow10 (e - Z.of_nat k)))
  | _, _, _ => None
  end.

(** [int(v)] *)
Definition py_int (v : pyval) : res Z :=
  match v with
  | PBool b => Ok (if b then 1 else 0)%Z
  | PInt z => Ok z
  | PFloat q => Ok (Z.quot (Qnum q) (Zpos (Qden q)))
  | PStr s => match int10 s with
              | Some z => Ok z
              | None => Raise (ValueError "invalid literal for int() with base 10")
              end
  | _ => Raise (TypeError "int() argument must be a string or a real number")
  end.

(** [float(v)] *)
Definition py_float (v : pyval) : res Q :=
  match num_of v, v with
  | Some q, _ => Ok q
  | None, PStr s => match float_of_str s with
                    | Some q => Ok q
                    | None => Raise (ValueError "could not convert string to float")
                    end
  | None, _ => Raise (TypeError "float() argument must be a string or a real number")
  end.
