(* ===== verification/Sorting.v ===== *)
(** * Orders and sorting

    Facts about the code point order of strings and the stable sort of PyVal.v. *)

From S2P Require Import Prelude PyStr PyVal.
From stdpp Require Import sorting.

Lemma str_leb_total a b : str_leb a b = true ∨ str_leb b a = true.
Proof.
  revert b. induction a as [|x a IH]; intros [|y b]; cbn; auto.
  rewrite (Ascii.eqb_sym y x). destruct (Ascii.eqb_spec x y) as [->|Hne]; [apply IH|].
  rewrite !N.ltb_lt. assert (code x ≠ code y); [|lia].
  intros E. apply Hne. unfold code in E. rewrite <- (ascii_N_embedding x), E. apply ascii_N_embedding.
Qed.

Lemma str_leb_trans a b c : str_leb a b = true → str_leb b c = true → str_leb a c = true.
Proof.
  revert b c. induction a as [|x a IH]; intros [|y b] [|z c]; cbn; try done.
  destruct (Ascii.eqb_spec x y) as [->|H1], (Ascii.eqb_spec y z) as [->|H2].
  - apply IH.
  - done.
  - by destruct (Ascii.eqb_spec x z).
  - rewrite !N.ltb_lt. destruct (Ascii.eqb_spec x z) as [->|]; rewrite ?N.ltb_lt; lia.
Qed.

Lemma str_leb_antisym a b : str_leb a b = true → str_leb b a = true → a = b.
Proof.
  revert b. induction a as [|x a IH]; intros [|y b]; cbn; try done.
  rewrite (Ascii.eqb_sym y x). destruct (Ascii.eqb_spec x y) as [->|H1].
  - intros. by rewrite (IH b).
  - rewrite !N.ltb_lt. lia.
Qed.

Lemma insert_by_perm {A} le (x : A) l : insert_by le x l ≡ₚ x :: l.
Proof.
  induction l as [|y l IH]; [done|]. cbn. destruct (le x y); [done|]. rewrite IH. apply Permutation_swap.
Qed.

Lemma sort_by_perm {A} le (l : list A) : sort_by le l ≡ₚ l.
Proof. induction l as [|x l IH]; [done|]. cbn. by rewrite insert_by_perm, IH. Qed.

(** Before: less, or level and already before. *)
Definition lex {A} (le : A → A → bool) (R : A → A → Prop) (a b : A) : Prop :=
  le a b = true ∧ (le b a = true → R a b).

(** Sorting is stable: on a list sorted by [R] it sorts by the key, then by [R]. *)
Lemma sort_by_lex {A} (le : A → A → bool) (R : A → A → Prop) l :
  (∀ a b, le a b = true ∨ le b a = true) →
  (∀ a b c, le a b = true → le b c = true → le a c = true) →
  StronglySorted R l → StronglySorted (lex le R) (sort_by le l).
Proof.
  intros Htot Htr. induction 1 as [|x l Hl IH Hx]; [constructor|]. cbn.
  assert (Forall (R x) (sort_by le l)) as Hx' by by rewrite sort_by_perm.
  clear Hl Hx. induction IH as [|y m Hm IHm Hy]; cbn; [by repeat constructor|].
  apply Forall_cons in Hx' as [Hxy Hxm]. destruct (le x y) eqn:E.
  - constructor; [by constructor|]. constructor; [by split|].
    apply Forall_forall. intros z Hz. rewrite !Forall_forall in *. specialize (Hy z Hz).
    split; [destruct Hy; eauto|]. intros _. by apply Hxm.
  - constructor; [by apply IHm|]. rewrite insert_by_perm. constructor; [|done].
    destruct (Htot x y) as [?|?]; [congruence|]. by split; [|congruence].
Qed.

Lemma sort_by_total {A} (le : A → A → bool) l :
  (∀ a b, le a b = true ∨ le b a = true) →
  (∀ a b c, le a b = true → le b c = true → le a c = true) →
  StronglySorted (λ a b, le a b = true) (sort_by le l).
Proof.
  intros Htot Htr. assert (StronglySorted (λ _ _, True) l) as Hl.
  { induction l; constructor; [done|by apply Forall_true]. }
  pose proof (sort_by_lex le _ l Htot Htr Hl) as Hs.
  induction Hs as [|x m Hm IH Hx]; constructor; [done|].
  eapply Forall_impl; [exact Hx|]. by intros y [? _].
Qed.

Lemma sort_by_head {A} (le : A → A → bool) l x :
  (∀ a b, le a b = true ∨ le b a = true) →
  (∀ a b c, le a b = true → le b c = true → le a c = true) →
  (∀ a b, le a b = true → le b a = true → a = b) →
  head (sort_by le l) = Some x ↔ x ∈ l ∧ ∀ y, y ∈ l → le x y = true.
Proof.
  intros Htot Htr Has. pose proof (sort_by_total le l Htot Htr) as Hs.
  pose proof (sort_by_perm le l) as Hp. destruct (sort_by le l) as [|z m]; cbn [head].
  - apply Permutation_nil in Hp. subst l. split; [done|]. by intros [?%elem_of_nil _].
  - apply StronglySorted_inv in Hs as [_ Hz]. rewrite Forall_forall in Hz.
    assert (∀ y, y ∈ l → le z y = true) as Hmin.
    { intros y Hy. rewrite <- Hp in Hy. apply elem_of_cons in Hy as [-> | Hy]; [|by apply Hz].
      by destruct (Htot z z). }
    assert (z ∈ l) as Hzl by (rewrite <- Hp; left).
    split; [intros [= <-]; done|]. intros [Hx Hxm]. f_equal. apply Has; auto.
Qed.

(** ** Filtering and permutations *)

#[export] Instance list_filter_proper {A} (p : A → bool) :
  Proper ((≡ₚ) ==> (≡ₚ)) (List.filter p).
Proof.
  induction 1 as [|x l l' _ IH|x y l|l1 l2 l3 _ IH1 _ IH2]; cbn; [done|..].
  - destruct (p x); [by constructor|done].
  - destruct (p x), (p y); try done. constructor.
  - by etrans.
Qed.

Lemma filter_filter {A} (p q : A → bool) l :
  List.filter p (List.filter q l) = List.filter (λ x, q x && p x) l.
Proof.
  induction l as [|x l IH]; [done|]. cbn. destruct (q x); cbn; [|done]. by destruct (p x); rewrite IH.
Qed.

(** A list split by a test, up to order. *)
Lemma filter_partition {A} (p : A → bool) l :
  l ≡ₚ List.filter p l ++ List.filter (λ x, negb (p x)) l.
Proof.
  induction l as [|x l IH]; [done|]. cbn. destruct (p x); cbn; [by f_equiv|].
  rewrite <- Permutation_middle. by f_equiv.
Qed.
