(* ===== verification/RegexFacts.v ===== *)
(** * Runs of a class in a regular expression

    How the engine of Regex.v matches and substitutes a repeated character class: the
    facts the sanitisers and the parsers of the service share. *)

From S2P Require Import Prelude PyStr Regex.

(** ** Runs of one class *)

(** The longest prefix of characters satisfying [p], and the rest. *)
Fixpoint span (p : ascii → bool) (s : string) : string * string :=
  match s with
  | "" => ("", "")
  | String c s' => if p c then (String c (span p s').1, (span p s').2) else ("", s)
  end.

Definition last_char (d : option ascii) (s : string) : option ascii :=
  (fix go d s := match s with "" => d | String c s' => go (Some c) s' end) d s.

(** Greedy repetition of one class takes the whole run first. *)
Lemma rep_class_head p lo fuel k st :
  slen (m_rest st) < fuel → lo ≤ k + slen (span p (m_rest st)).1 →
  ∃ l, rep_match (step1 p) lo None true fuel k st =
    MState (last_char (m_prev st) (span p (m_rest st)).1) (span p (m_rest st)).2 (m_caps st) :: l.
Proof.
  revert k st. induction fuel as [|f IH]; intros k [prev rest caps] Hf Hlo; cbn [m_rest] in *; [lia|].
  cbn [rep_match]. destruct rest as [|c rest]; cbn [step1 m_rest span fst snd last_char m_prev m_caps] in *.
  - cbn in Hlo. destruct (k <? lo) eqn:E; bool_prop; [lia|]. by eexists.
  - destruct (p c) eqn:Ec; cbn [fst snd flat_map] in *.
    + cbn in Hlo, Hf.
      destruct (_ && _) eqn:Eb.
      { apply andb_true_iff in Eb as [_ Eb]. apply Nat.eqb_eq in Eb. cbn in Eb. lia. }
      destruct (IH (S k) (MState (Some c) rest caps)) as [l Hl]; [cbn; lia|cbn; lia|].
      rewrite Hl. cbn [m_rest m_prev m_caps app]. destruct (k <? lo); by eexists.
    + cbn in Hlo. destruct (k <? lo) eqn:E; bool_prop; [lia|]. by eexists.
Qed.

Lemma rep_class_none p fuel prev c rest caps :
  p c = false → rep_match (step1 p) 1 None true fuel 0 (MState prev (String c rest) caps) = [].
Proof. intros Hc. destruct fuel; [done|]. cbn. by rewrite Hc. Qed.

Lemma span_app p s : (span p s).1 +:+ (span p s).2 = s.
Proof. induction s as [|c s IH]; [done|]. cbn. destruct (p c); cbn; [by rewrite IH|done]. Qed.

(** What substituting each run of a class by [repl] makes of a text; [run]: the run is
    already replaced. *)
Fixpoint collapse (p : ascii → bool) (repl : string) (run : bool) (s : string) : string :=
  match s with
  | "" => ""
  | String c s' =>
      if p c then (if run then "" else repl) +:+ collapse p repl true s'
      else String c (collapse p repl false s')
  end.

Lemma collapse_run p repl s : collapse p repl true s = collapse p repl false (span p s).2.
Proof.
  induction s as [|c s IH]; [done|]. cbn. destruct (p c) eqn:E; cbn; [done|by rewrite E].
Qed.

Section ClassPlus.
Context (fl : reflags) (neg : bool) (items : list citem).
Abbreviation p := (λ c, xorb neg (set_has (f_icase fl) items c)).
Abbreviation r := (RSeq (RRep 1 None true (RSet neg items)) REmpty).

Lemma flat_map_single {A} (l : list A) : flat_map (λ x, [x]) l = l.
Proof. induction l as [|x l IH]; [done|]. cbn. by rewrite IH. Qed.

Lemma search_class prev s :
  match search_from fl r prev s with
  | None => sforall (λ c, negb (p c)) s = true
  | Some (pre, at_, st) =>
      s = pre +:+ at_ ∧ sforall (λ c, negb (p c)) pre = true ∧
      (∃ c t, at_ = String c t ∧ p c = true) ∧
      m_rest st = (span p at_).2 ∧ m_prev st = last_char None (span p at_).1
  end.
Proof.
  revert prev. induction s as [|c s IH]; intros prev; [done|]. cbn [search_from].
  assert (rmatch fl r (start_at prev (String c s)) =
    rep_match (step1 p) 1 None true (1 + slen (String c s) + 2) 0 (start_at prev (String c s))) as ->
    by apply flat_map_single.
  destruct (p c) eqn:Ec.
  - destruct (rep_class_head p 1 (1 + slen (String c s) + 2) 0 (start_at prev (String c s)))
      as [l ->]; cbn [start_at m_rest]; [lia|cbn [span]; rewrite Ec; cbn; lia|].
    split; [done|]. split; [done|]. split; [by exists c, s|]. cbn [m_rest m_prev span].
    rewrite Ec. done.
  - unfold start_at. rewrite rep_class_none by done. specialize (IH (Some c)).
    destruct (search_from fl r (Some c) s) as [[[pre at_] st]|].
    + destruct IH as (-> & Hpre & Hrest). split; [done|]. split; [|done]. cbn. by rewrite Ec.
    + cbn. by rewrite Ec.
Qed.

Lemma collapse_pass repl s b : sforall (λ c, negb (p c)) s = true → collapse p repl b s = s.
Proof.
  revert b. induction s as [|c s IH]; intros b; cbn; [done|].
  intros [Hc%negb_true_iff Hs]%andb_true_iff. rewrite Hc. by rewrite IH.
Qed.

Lemma collapse_app repl pre s :
  sforall (λ c, negb (p c)) pre = true →
  collapse p repl false (pre +:+ s) = pre +:+ collapse p repl false s.
Proof.
  induction pre as [|c pre IH]; cbn; [done|]. intros [Hc%negb_true_iff Hs]%andb_true_iff.
  rewrite Hc. by rewrite IH.
Qed.

(** [re.compile("[...]+").sub(repl, s)] *)
Lemma sub_class_plus repl fuel prev s :
  slen s < fuel → sub_from fl r repl fuel prev s = collapse p repl false s.
Proof.
  revert prev s. induction fuel as [|f IH]; intros prev s Hf; [lia|]. cbn [sub_from].
  pose proof (search_class prev s) as Hs.
  destruct (search_from fl r prev s) as [[[pre at_] st]|]; [|by rewrite collapse_pass].
  destruct Hs as (-> & Hpre & (c & t & -> & Hc) & Hrest & Hprev).
  rewrite slen_app in Hf. cbn [span] in Hrest. rewrite Hc in Hrest. cbn [snd] in Hrest.
  pose proof (f_equal slen (span_app p t)) as Hlen. rewrite slen_app in Hlen.
  destruct (_ =? _) eqn:E; [apply Nat.eqb_eq in E; rewrite Hrest in E; cbn in E; lia|].
  rewrite IH by (rewrite Hrest; cbn in Hf; lia).
  rewrite collapse_app by done. cbn [collapse]. by rewrite Hc, Hrest, collapse_run.
Qed.
End ClassPlus.

(** ** First results *)

Lemma collapse_ext p q repl run s :
  (∀ c, p c = q c) → collapse p repl run s = collapse q repl run s.
Proof.
  intros Hpq. revert run. induction s as [|c s IH]; intros run; [done|]. cbn.
  rewrite Hpq. by rewrite !IH.
Qed.

Lemma sforall_stake p n s : sforall p s = true → sforall p (stake n s) = true.
Proof.
  revert n. induction s as [|c s IH]; intros [|n]; cbn; try done.
  intros [-> Hs]%andb_true_iff. by apply IH.
Qed.

Lemma span_ext p q s : (∀ c, p c = q c) → span p s = span q s.
Proof. intros Hpq. induction s as [|c s IH]; [done|]. cbn. by rewrite Hpq, IH. Qed.

Definition leads {A} (l : list A) (x : A) : Prop := ∃ l', l = x :: l'.

Lemma flat_map_leads {A B} (f : A → list B) l x y : leads l x → leads (f x) y → leads (flat_map f l) y.
Proof. intros [l' ->] [l'' E]. exists (l'' ++ flat_map f l'). cbn. by rewrite E. Qed.

Lemma map_leads {A B} (f : A → B) l x : leads l x → leads (map f l) (f x).
Proof. intros [l' ->]. by exists (map f l'). Qed.

(** A class repeated takes its whole run first, from any point. *)
Lemma rep_set_leads fl lo items st run rest :
  span (set_has (f_icase fl) items) (m_rest st) = (run, rest) → lo ≤ slen run →
  leads (rmatch fl (RRep lo None true (RSet false items)) st)
        (MState (last_char (m_prev st) run) rest (m_caps st)).
Proof.
  intros Hs Hlo. pose proof (rep_class_head (set_has (f_icase fl) items) lo
    (lo + slen (m_rest st) + 2) 0 st) as Hr. rewrite Hs in Hr. cbn [fst snd] in Hr.
  destruct Hr as [l Hl]; [lia|lia|]. exists l. exact Hl.
Qed.

Lemma seq_leads fl a b st x y :
  leads (rmatch fl a st) x → leads (rmatch fl b x) y → leads (rmatch fl (RSeq a b) st) y.
Proof. apply flat_map_leads. Qed.

Lemma group_leads fl n a st st' :
  leads (rmatch fl a st) st' →
  leads (rmatch fl (RGroup n a) st) (MState (m_prev st') (m_rest st')
    ((n, stake (slen (m_rest st) - slen (m_rest st')) (m_rest st)) :: m_caps st')).
Proof. intros [l Hl]. cbn [rmatch]. rewrite Hl. by eexists. Qed.
