(* ===== verification/JsonFacts.v ===== *)
(** * Decimal numerals and JSON texts

    The text of an integer reads back, and [json.loads] of [json.dumps] is the value, for
    the values made of strings, integers, booleans, [null], lists and dictionaries. *)

From S2P Require Import Prelude PyStr PyVal.

(** ** Decimal numerals *)

Lemma dec_digits_decimal f n acc :
  sforall is_decimal acc = true → sforall is_decimal (dec_digits f n acc) = true.
Proof.
  revert n acc. induction f as [|f IH]; intros n acc Hacc; [done|]. cbn [dec_digits].
  assert (sforall is_decimal (String (digit_char (n mod 10)) acc) = true) as Hd.
  { cbn [sforall]. rewrite Hacc, andb_true_r. unfold is_decimal, in_range, digit_char, code.
    pose proof (N.mod_lt n 10 ltac:(done)) as Hm. revert Hm. generalize (n mod 10)%N. intros m Hm.
    rewrite N_ascii_embedding by lia. apply andb_true_iff. split; apply N.leb_le; lia. }
  destruct (_ <? _)%N; [done|by apply IH].
Qed.

Lemma take_digits_step c s acc k :
  is_decimal c = true →
  take_digits (String c s) acc k = take_digits s (10 * acc + (Z.of_N (code c) - 48)) (S k).
Proof. intros Hc. cbn [take_digits]. unfold digit_val. by rewrite Hc. Qed.

Lemma dec_digits_value f n acc a k :
  (n < 2 ^ N.of_nat f)%N →
  ∃ k', (f ≠ 0 → k' ≠ 0) ∧ take_digits (dec_digits f n acc) a k =
    take_digits acc (a * 10 ^ Z.of_nat k' + Z.of_N n) (k + k').
Proof.
  revert n acc. induction f as [|f IH]; intros n acc Hn.
  { exists 0. split; [done|].
    assert (n = 0%N) as -> by (cbn in Hn; lia). cbn [dec_digits]. f_equal; lia. }
  cbn [dec_digits]. pose proof (N.mod_lt n 10 ltac:(done)) as Hm.
  pose proof (N.div_mod n 10 ltac:(done)) as Hdm.
  assert (∀ b j, take_digits (String (digit_char (n mod 10)) acc) b j =
    take_digits acc (10 * b + Z.of_N (n mod 10)) (S j)) as Hstep.
  { intros b j. revert Hm. generalize (n mod 10)%N. intros m Hm.
    rewrite take_digits_step; unfold is_decimal, in_range, digit_char, code;
      rewrite N_ascii_embedding by lia.
    - f_equal. lia.
    - apply andb_true_iff. split; apply N.leb_le; lia. }
  destruct (N.ltb_spec n 10) as [Hlt|Hge].
  - exists 1. split; [done|]. rewrite Hstep, N.mod_small by done. f_equal; lia.
  - destruct (IH (n / 10)%N (String (digit_char (n mod 10)) acc)) as (k' & _ & ->).
    { apply N.Div0.div_lt_upper_bound. rewrite Nat2N.inj_succ, N.pow_succ_r' in Hn. lia. }
    exists (S k'). split; [done|]. rewrite Hstep, Nat2Z.inj_succ, Z.pow_succ_r by lia. f_equal; lia.
Qed.

Lemma str_of_N_digits n : sforall is_decimal (str_of_N n) = true ∧
  (take_digits (str_of_N n) 0 0).1.1 = Z.of_N n ∧ str_of_N n ≠ "".
Proof.
  unfold str_of_N. split; [by apply dec_digits_decimal|]. split.
  - destruct (dec_digits_value (S (N.to_nat (N.log2 n))) n "" 0 0) as (k' & _ & ->); [|done].
    rewrite Nat2N.inj_succ, N2Nat.id. destruct n as [|n]; [done|]. by apply N.log2_spec.
  - cbn [dec_digits]. destruct (_ <? _)%N; [done|].
    assert (∀ f n acc, acc ≠ "" → dec_digits f n acc ≠ "") as H; [|by apply H].
    induction f as [|f IH]; intros m acc Hacc; [done|]. cbn [dec_digits].
    destruct (_ <? _)%N; [done|by apply IH].
Qed.

Lemma dec_digits_app f n acc : dec_digits f n acc = dec_digits f n "" +:+ acc.
Proof.
  revert n acc. induction f as [|f IH]; intros n acc; [done|]. cbn [dec_digits].
  destruct (_ <? _)%N; [done|]. rewrite IH, (IH _ (String _ "")), <- sapp_assoc. done.
Qed.

Lemma dec_digits_first f n acc : (0 < n < 2 ^ N.of_nat f)%N →
  ∃ c s, dec_digits f n acc = String c s ∧ is_decimal c = true ∧ c ≠ "0"%char.
Proof.
  revert n acc. induction f as [|f IH]; intros n acc Hn; [cbn in Hn; lia|]. cbn [dec_digits].
  destruct (N.ltb_spec n 10) as [Hlt|Hge].
  - rewrite N.mod_small by done. exists (digit_char n), acc. split; [done|].
    assert (code (digit_char n) = 48 + n)%N as Hc.
    { unfold code, digit_char. by rewrite N_ascii_embedding by lia. }
    split; [unfold is_decimal, in_range; rewrite Hc; apply andb_true_iff; split; apply N.leb_le; lia|].
    intros E. rewrite E in Hc. change (code "0") with 48%N in Hc. lia.
  - apply IH. rewrite Nat2N.inj_succ, N.pow_succ_r' in Hn. split.
    + apply N.div_str_pos. lia.
    + apply N.Div0.div_lt_upper_bound. lia.
Qed.

(** The head of a text, when it has one, fails a test. *)
Definition head_not (p : ascii → bool) (s : string) : bool :=
  match s with String c _ => negb (p c) | "" => true end.

Lemma take_digits_stop s a k : head_not is_decimal s = true → take_digits s a k = (a, k, s).
Proof.
  destruct s as [|c s]; [done|]. cbn. unfold digit_val. by destruct (is_decimal c).
Qed.

Lemma str_of_N_read n rest : head_not is_decimal rest = true →
  ∃ k, 0 < k ∧ take_digits (str_of_N n +:+ rest) 0 0 = (Z.of_N n, k, rest).
Proof.
  intros Hr. unfold str_of_N. rewrite <- dec_digits_app.
  assert (n < 2 ^ N.of_nat (S (N.to_nat (N.log2 n))))%N as Hn.
  { rewrite Nat2N.inj_succ, N2Nat.id. destruct n as [|n]; [done|]. by apply N.log2_spec. }
  destruct (dec_digits_value _ n rest 0 0 Hn) as (k & Hk0 & ->). exists k.
  specialize (Hk0 ltac:(done)). split; [lia|]. by rewrite take_digits_stop.
Qed.

(** ** Numbers *)

(** What can follow a value inside a JSON text written by [json.dumps]. *)
Definition value_end (s : string) : bool :=
  match s with String c _ => one_of ",]}" c | "" => true end.

Lemma value_end_head s : value_end s = true → head_not is_decimal s = true ∧
  head_not (λ c, Ascii.eqb c "." || Ascii.eqb c "e" || Ascii.eqb c "E") s = true.
Proof.
  destruct s as [|c s]; [done|]. cbn [value_end head_not]. unfold one_of, has_char. cbn [sexists].
  intros H. destruct (Ascii.eqb_spec c ","), (Ascii.eqb_spec c "]"), (Ascii.eqb_spec c "}");
    by subst.
Qed.

Lemma json_tail_int (neg : bool) i k rest : k ≠ 0 → value_end rest = true →
  json_number_tail neg i k rest = Some (PInt (if neg then - i else i)%Z, rest).
Proof.
  intros Hk [_ He]%value_end_head. unfold json_number_tail. destruct (Nat.eqb_spec k 0); [done|].
  destruct rest as [|c rest]; [done|]. cbn [head_not] in He.
  apply negb_true_iff, orb_false_iff in He as [[Hdot He]%orb_false_iff HE].
  cbv zeta. rewrite Hdot. cbv iota beta. by rewrite He, HE.
Qed.

Lemma json_number_digits (neg : bool) n rest : value_end rest = true →
  json_number ((if neg then "-" else "") +:+ str_of_N n +:+ rest) =
  Some (PInt (if neg then - Z.of_N n else Z.of_N n), rest).
Proof.
  intros Hend. pose proof (value_end_head _ Hend) as [Hd _].
  assert (∃ c s, str_of_N n +:+ rest = String c s ∧ is_decimal c = true ∧
    (if Ascii.eqb c "0" then (0%Z, 1, s) else take_digits (String c s) 0 0).1.1 = Z.of_N n ∧
    (if Ascii.eqb c "0" then (0%Z, 1, s) else take_digits (String c s) 0 0).1.2 ≠ 0 ∧
    (if Ascii.eqb c "0" then (0%Z, 1, s) else take_digits (String c s) 0 0).2 = rest)
    as (c & s & E & Hc & H1 & H2 & H3).
  { destruct (decide (n = 0%N)) as [-> |Hn0]; [by exists "0"%char, rest|].
    destruct (str_of_N_read n rest Hd) as (k & Hk & Hr). unfold str_of_N in *.
    destruct (dec_digits_first (S (N.to_nat (N.log2 n))) n "") as (c & s & E & Hc & Hne).
    { rewrite Nat2N.inj_succ, N2Nat.id. split; [lia|]. apply N.log2_spec. lia. }
    rewrite E in *. exists c, (s +:+ rest). split; [done|]. split; [done|].
    destruct (Ascii.eqb_spec c "0"); [done|]. change (String c s +:+ rest) with (String c (s +:+ rest)) in Hr.
    rewrite Hr. cbn. split; [done|]. split; [lia|done]. }
  rewrite E. set (d := if Ascii.eqb c "0" then (0%Z, 1, s) else take_digits (String c s) 0 0) in *.
  assert (d = (Z.of_N n, d.1.2, rest)) as Ed by (destruct d as [[? ?] ?]; cbn in *; congruence).
  assert (Ascii.eqb c "-" = false) as Hm.
  { destruct (Ascii.eqb_spec c "-") as [-> |]; [|done]. by vm_compute in Hc. }
  unfold json_number. destruct neg; cbn [String.append].
  - change (Ascii.eqb "-" "-") with true. cbv iota beta. fold d. rewrite Ed. by apply json_tail_int.
  - rewrite Hm. cbv iota beta. fold d. rewrite Ed. by apply json_tail_int.
Qed.

Lemma json_number_int z rest : value_end rest = true →
  json_number (str_of_Z z +:+ rest) = Some (PInt z, rest).
Proof.
  intros Hr. destruct z as [|p|p].
  - apply (json_number_digits false 0 rest Hr).
  - apply (json_number_digits false (Npos p) rest Hr).
  - apply (json_number_digits true (Npos p) rest Hr).
Qed.

(** ** Strings *)

Lemma json_char_read asc c t :
  json_string (json_char asc c +:+ t) = '(u, r) ← json_string t; Some (String c u, r).
Proof. destruct asc, c as [[] [] [] [] [] [] [] []]; reflexivity. Qed.

Lemma json_string_read asc s rest :
  json_string (concat_map (json_char asc) s +:+ DQs +:+ rest) = Some (s, rest).
Proof.
  induction s as [|c s IH]; [done|]. cbn [concat_map]. rewrite <- sapp_assoc, json_char_read.
  by rewrite IH.
Qed.

(** ** Values *)

Fixpoint json_ok (v : pyval) : bool :=
  match v with
  | PFloat _ => false
  | PList l => forallb json_ok l
  | PDict d => bool_decide (NoDup (keys d)) && forallb (λ kv, json_ok kv.2) d
  | _ => true
  end.

(** The fuel the parser needs for the text of a value. *)
Fixpoint json_size (v : pyval) : nat :=
  match v with
  | PList l => 2 + sum_nat (map (λ x, S (json_size x)) l)
  | PDict d => 2 + sum_nat (map (λ kv, S (json_size kv.2)) d)
  | _ => 1
  end.

Lemma dict_of_distinct {V} (l : list (string * V)) : NoDup (keys l) → dict_of l = l.
Proof.
  intros Hnd. unfold dict_of.
  enough (∀ acc, NoDup (keys (acc ++ l)) → fold_left (λ d kv, dset d kv.1 kv.2) l acc = acc ++ l)
    as H by (by apply (H [])).
  clear Hnd. induction l as [|[k v] l IH]; intros acc Hnd; cbn [fold_left]; [by rewrite app_nil_r|].
  cbn [fst snd]. rewrite dset_new.
  2:{ unfold keys in *. rewrite map_app in Hnd. apply NoDup_app in Hnd as (_ & Hk & _).
      intros Hin. apply (Hk k Hin). left. }
  rewrite IH; by rewrite <- app_assoc.
Qed.

Section Values.
Context `{PyFloat} (o : dump_opts).
(** The separators are a comma and a colon, with blanks after them; keys in order. *)
Context (item_blank key_blank : string).
Hypothesis item_sep_ok : item_sep o = "," +:+ item_blank ∧ sforall json_space item_blank = true.
Hypothesis key_sep_ok : key_sep o = ":" +:+ key_blank ∧ sforall json_space key_blank = true.
Hypothesis unsorted : sort_keys o = false.

Lemma skip_blank b s : sforall json_space b = true → skip_json_ws (b +:+ s) = skip_json_ws s.
Proof.
  unfold skip_json_ws. induction b as [|c b IH]; [done|]. cbn.
  intros [-> Hb]%andb_true_iff. by apply IH.
Qed.

Definition starts_value (s : string) : bool :=
  match s with
  | String c _ => negb (json_space c || Ascii.eqb c "]" || Ascii.eqb c "}")
  | "" => false
  end.

Lemma starts_skip s : starts_value s = true → skip_json_ws s = s.
Proof.
  destruct s as [|c s]; [done|]. cbn. by destruct (json_space c).
Qed.

Lemma starts_app s t : starts_value s = true → starts_value (s +:+ t) = true.
Proof. by destruct s. Qed.

Lemma decimal_starts c s : is_decimal c = true →
  starts_value (String c s) = true ∧ Ascii.eqb c DQ = false ∧ Ascii.eqb c "{" = false ∧
  Ascii.eqb c "[" = false ∧ keyword (String c s) = None.
Proof. by destruct c as [[] [] [] [] [] [] [] []]. Qed.

Lemma str_of_Z_first z : ∃ c s, str_of_Z z = String c s ∧ (is_decimal c = true ∨ c = "-"%char).
Proof.
  assert (∀ n, ∃ c s, str_of_N n = String c s ∧ is_decimal c = true) as Hn.
  { intros n. destruct (str_of_N_digits n) as (Hd & _ & Hne).
    destruct (str_of_N n) as [|c s]; [done|]. exists c, s. split; [done|]. by apply andb_true_iff in Hd as [? _]. }
  destruct z as [|p|p]; cbn [str_of_Z].
  - exists "0"%char, "". auto.
  - destruct (Hn (Npos p)) as (c & s & ? & ?). eauto.
  - exists "-"%char, (str_of_N (Npos p)). auto.
Qed.

Lemma dumps_starts v : json_ok v = true → starts_value (json_dumps o v) = true.
Proof.
  destruct v as [|[]|z| | | |]; try done; intros _. cbn [json_dumps].
  destruct (str_of_Z_first z) as (c & s & -> & [Hc | ->]); [|done]. by apply decimal_starts.
Qed.

Lemma json_atom_read z f rest : value_end rest = true →
  json_value (S f) (str_of_Z z +:+ rest) = Some (PInt z, rest).
Proof.
  intros Hr. pose proof (json_number_int z rest Hr) as Hn.
  destruct (str_of_Z_first z) as (c & s & E & Hc). rewrite E in *.
  change (String c s +:+ rest) with (String c (s +:+ rest)) in *. cbn [json_value].
  destruct Hc as [Hc | ->].
  - destruct (decimal_starts c (s +:+ rest) Hc) as (_ & -> & -> & -> & ->). done.
  - by rewrite Hn.
Qed.

(** Reading the text of [v] back, whatever follows it. *)
Definition reads (v : pyval) : Prop := json_ok v = true → ∀ f rest,
  json_size v ≤ f → value_end rest = true → json_value f (json_dumps o v +:+ rest) = Some (v, rest).

Lemma value_skip v rest : json_ok v = true →
  skip_json_ws (json_dumps o v +:+ rest) = json_dumps o v +:+ rest.
Proof. intros Hv. by apply starts_skip, starts_app, dumps_starts. Qed.

Lemma elements_read l : Forall reads l → forallb json_ok l = true → l ≠ [] → ∀ f rest,
  sum_nat (map (λ x, S (json_size x)) l) ≤ f →
  json_elements f (join (item_sep o) (map (json_dumps o) l) +:+ "]" +:+ rest) = Some (l, rest).
Proof.
  destruct item_sep_ok as [Hsep Hblank]. induction 1 as [|v l Hv Hl IH]; [done|].
  intros Hok _ f rest Hf. cbn [forallb] in Hok. apply andb_true_iff in Hok as [Hvo Hlo].
  cbn [map sum_nat] in Hf. destruct f as [|f]; [lia|]. cbn [json_elements map].
  destruct l as [|v' l].
  - change (join (item_sep o) [json_dumps o v]) with (json_dumps o v). by rewrite (Hv Hvo f) by (done || lia).
  - rewrite join_cons by done. specialize (IH Hlo ltac:(done) f rest ltac:(lia)).
    assert (starts_value (join (item_sep o) (map (json_dumps o) (v' :: l))) = true) as Hst.
    { cbn [forallb] in Hlo. apply andb_true_iff in Hlo as [Hv'o _]. cbn [map].
      destruct l as [|v'' l]; [by apply dumps_starts|].
      rewrite map_cons, join_cons by done. by apply starts_app, dumps_starts. }
    change (map (json_dumps o) (v' :: l)) with (json_dumps o v' :: map (json_dumps o) l) in *.
    revert IH Hst. generalize (join (item_sep o) (json_dumps o v' :: map (json_dumps o) l)).
    intros t IH Hst. rewrite Hsep, <- !sapp_assoc, (Hv Hvo f) by (done || lia).
    cbn [mbind option_bind]. change (skip_json_ws ("," +:+ ?x)) with (String "," x).
    cbv iota beta. cbn [Ascii.eqb Bool.eqb]. 
    rewrite skip_blank, (starts_skip (t +:+ _)) by (done || by apply starts_app).
    by rewrite IH.
Qed.

Definition member (kv : string * pyval) : string :=
  json_str (ensure_ascii o) kv.1 +:+ key_sep o +:+ json_dumps o kv.2.

(** One member read: its key, the colon, its value. *)
Lemma member_read kv rest f : reads kv.2 → json_ok kv.2 = true → json_size kv.2 ≤ f →
  value_end rest = true →
  json_members (S f) (member kv +:+ rest) =
    match rest with
    | String e t =>
        if Ascii.eqb e "}" then Some ([kv], t)
        else if Ascii.eqb e "," then '(m, t') ← json_members f (skip_json_ws t); Some (kv :: m, t')
        else None
    | "" => None
    end.
Proof.
  destruct key_sep_ok as [Hsep Hblank], kv as [k v]. cbn [snd]. intros Hv Hok Hf Hrest.
  unfold member, json_str. cbn [fst snd]. rewrite <- !sapp_assoc.
  change (DQs +:+ ?x) with (String DQ x). cbn [json_members]. change (Ascii.eqb DQ DQ) with true.
  cbv iota. rewrite json_string_read. cbn [mbind option_bind]. rewrite Hsep, <- !sapp_assoc.
  change (skip_json_ws (":" +:+ ?x)) with (String ":" x). cbv iota beta.
  change (Ascii.eqb ":" ":") with true. cbv iota. rewrite skip_blank, value_skip, Hv by done.
  cbn [mbind option_bind].
  assert (skip_json_ws rest = rest) as ->.
  { destruct rest as [|c rest]; [done|]. cbn in Hrest. unfold skip_json_ws. cbn.
    destruct (json_space c) eqn:E; [|done]. by destruct c as [[] [] [] [] [] [] [] []]. }
  done.
Qed.

Lemma members_read d : Forall (λ kv, reads kv.2) d → forallb (λ kv, json_ok kv.2) d = true →
  d ≠ [] → ∀ f rest, sum_nat (map (λ kv, S (json_size kv.2)) d) ≤ f →
  json_members f (join (item_sep o) (map member d) +:+ "}" +:+ rest) = Some (d, rest).
Proof.
  destruct item_sep_ok as [Hsep Hblank]. induction 1 as [|kv d Hv Hd IH]; [done|].
  intros Hok _ f rest Hf. cbn [forallb] in Hok. apply andb_true_iff in Hok as [Hvo Hdo].
  cbn [map sum_nat] in Hf. destruct f as [|f]; [lia|]. cbn [map].
  destruct d as [|kv' d].
  - change (join (item_sep o) (member kv :: map member [])) with (member kv). by rewrite member_read by (done || lia).
  - rewrite join_cons by done. specialize (IH Hdo ltac:(done) f rest ltac:(lia)).
    assert (starts_value (join (item_sep o) (map member (kv' :: d))) = true) as Hst.
    { destruct d as [|kv'' d]; [done|]. by rewrite map_cons, join_cons by done. }
    revert IH Hst. generalize (join (item_sep o) (map member (kv' :: d))).
    intros t IH Hst. rewrite Hsep, <- !sapp_assoc, member_read by (done || lia).
    change ("," +:+ ?x) with (String "," x). cbv iota beta.
    change (Ascii.eqb "," "}") with false. change (Ascii.eqb "," ",") with true. cbv iota.
    rewrite skip_blank, (starts_skip (t +:+ _)) by (done || by apply starts_app). by rewrite IH.
Qed.

Lemma json_reads v : reads v.
Proof.
  induction v as [|b|z|q|s|l IH|d IH] using pyval_ind; unfold reads; intros Hok f rest Hf Hr;
    try done; (destruct f as [|f]; [cbn in Hf; lia|]).
  - done.
  - by destruct b.
  - by apply json_atom_read.
  - cbn [json_dumps]. unfold json_str. rewrite <- !sapp_assoc.
    change (DQs +:+ ?x) with (String DQ x). cbn [json_value]. change (Ascii.eqb DQ DQ) with true.
    cbv iota. by rewrite json_string_read.
  - cbn [json_dumps]. rewrite <- !sapp_assoc. change ("[" +:+ ?x) with (String "[" x).
    cbn [json_value]. change (Ascii.eqb "[" DQ) with false. change (Ascii.eqb "[" "{") with false.
    change (Ascii.eqb "[" "[") with true. cbv iota. destruct l as [|v l]; [done|].
    rewrite starts_skip.
    2:{ cbn [json_ok forallb] in Hok. apply andb_true_iff in Hok as [Hv _]. apply starts_app. cbn [map].
        destruct l; [by apply dumps_starts|]. rewrite map_cons, join_cons by done. by apply starts_app, dumps_starts. }
    assert (starts_value (join (item_sep o) (map (json_dumps o) (v :: l)) +:+ "]" +:+ rest) = true) as Hst.
    { cbn [json_ok forallb] in Hok. apply andb_true_iff in Hok as [Hv _]. apply starts_app. cbn [map].
      destruct l; [by apply dumps_starts|]. rewrite map_cons, join_cons by done. by apply starts_app, dumps_starts. }
    pose proof (elements_read (v :: l) IH Hok ltac:(done) f rest) as He.
    cbn [json_size] in Hf. specialize (He ltac:(lia)).
    destruct (join _ _ +:+ _) as [|c t]; [discriminate Hst|]. cbn [starts_value] in Hst.
    apply negb_true_iff, orb_false_iff in Hst as [[_ Hb]%orb_false_iff _].
    rewrite Hb, He. done.
  - cbn [json_ok] in Hok. apply andb_true_iff in Hok as [Hnd%bool_decide_eq_true Hok].
    cbn [json_dumps]. rewrite unsorted, <- !sapp_assoc. change ("{" +:+ ?x) with (String "{" x).
    cbn [json_value]. change (Ascii.eqb "{" DQ) with false. change (Ascii.eqb "{" "{") with true.
    cbv iota. destruct d as [|kv d]; [done|].
    assert (map (λ kv0, json_str (ensure_ascii o) kv0.1 +:+ key_sep o +:+ kv0.2)
      (map (λ kv0, (kv0.1, json_dumps o kv0.2)) (kv :: d)) = map member (kv :: d)) as ->
      by by rewrite map_map.
    assert (starts_value (join (item_sep o) (map member (kv :: d)) +:+ "}" +:+ rest) = true) as Hst.
    { apply starts_app. cbn [map]. destruct d; [done|]. by rewrite map_cons, join_cons by done. }
    rewrite starts_skip by done.
    pose proof (members_read (kv :: d) IH Hok ltac:(done) f rest) as He.
    cbn [json_size] in Hf. specialize (He ltac:(lia)).
    destruct (join _ _ +:+ _) as [|c t]; [discriminate Hst|]. cbn [starts_value] in Hst.
    apply negb_true_iff, orb_false_iff in Hst as [_ Hb].
    rewrite Hb, He. cbn [mbind option_bind]. by rewrite dict_of_distinct.
Qed.

Lemma json_size_len v : json_ok v = true → json_size v ≤ 2 * slen (json_dumps o v).
Proof.
  assert (∀ l : list string, slen (join (item_sep o) l) ≥ sum_nat (map slen l) + (length l - 1)) as Hjoin.
  { destruct item_sep_ok as [Hsep _]. induction l as [|s l IH]; [cbn; lia|].
    destruct l as [|s' l]; [cbn; lia|]. rewrite join_cons, !slen_app by done.
    assert (1 ≤ slen (item_sep o)) by (rewrite Hsep, slen_app; cbn; lia).
    change (map slen (s :: s' :: l)) with (slen s :: map slen (s' :: l)). cbn [sum_nat].
    cbn [length] in *. lia. }
  induction v as [|b|z|q|s|l IH|d IH] using pyval_ind; intros Hok; try done.
  - cbn; lia.
  - destruct b; cbn; lia.
  - cbn [json_size json_dumps]. destruct (str_of_Z_first z) as (c & s & -> & _). cbn. lia.
  - cbn [json_size json_dumps]. unfold json_str. rewrite !slen_app. cbn. lia.
  - cbn [json_size json_dumps]. rewrite !slen_app. specialize (Hjoin (map (json_dumps o) l)).
    rewrite length_map in Hjoin. cbn [json_ok] in Hok.
    assert (sum_nat (map (λ x, S (json_size x)) l) ≤
      2 * sum_nat (map slen (map (json_dumps o) l)) + length l) as Hs.
    { clear Hjoin. induction IH as [|v l Hv _ IHl]; [done|]. cbn [forallb] in Hok.
      apply andb_true_iff in Hok as [H1 H2]. specialize (Hv H1). specialize (IHl H2).
      cbn [map sum_nat length]. lia. }
    change (slen "[") with 1. change (slen "]") with 1. lia.
  - cbn [json_ok] in Hok. apply andb_true_iff in Hok as [_ Hok].
    cbn [json_size json_dumps]. rewrite unsorted, map_map, !slen_app.
    cbn [fst snd]. specialize (Hjoin (map member d)). rewrite length_map in Hjoin.
    assert (sum_nat (map (λ kv, S (json_size kv.2)) d) ≤
      2 * sum_nat (map slen (map member d)) + length d) as Hs.
    { clear Hjoin. induction IH as [|kv d Hv _ IHd]; [done|]. cbn [forallb] in Hok.
      apply andb_true_iff in Hok as [H1 H2]. specialize (Hv H1). specialize (IHd H2).
      cbn [map sum_nat length]. unfold member at 1. rewrite !slen_app. lia. }
    change (slen "{") with 1. change (slen "}") with 1.
    change (map (λ x, json_str (ensure_ascii o) x.1 +:+ key_sep o +:+ json_dumps o x.2) d)
      with (map member d). lia.
Qed.

(** [json.loads(json.dumps(v)) == v] *)
Lemma json_roundtrip v : json_ok v = true → json_loads (json_dumps o v) = Some v.
Proof.
  intros Hok. unfold json_loads.
  rewrite <- (sapp_nil_r (json_dumps o v)), value_skip by done.
  rewrite json_reads; [done..|rewrite sapp_nil_r; pose proof (json_size_len v Hok); lia|done].
Qed.
End Values.
