(* ===== verification/Overlay.v ===== *)
(** * Overlay files: [guardrails/_overlay.py], [_jsonl.py], [_regex_safety.py]

    The file systems the guards read through, the JSONL parser they share and
    the heuristic that rejects dangerous tenant patterns. *)

From S2P Require Import Prelude PyStr Regex PyVal.

(** ** Files and environments *)

Definition mtime : Type := Q.

(** A file of the host: what reading it gives, and its [st_mtime] ([None] when
    [stat] raises [OSError]). *)
Inductive content :=
| CText (t : string)
| CUndecodable     (** not UTF-8: [read_text] raises [UnicodeDecodeError] *)
| CUnreadable.     (** [read_text] raises [OSError] *)
Record hfile := HFile { hf_content : content; hf_mtime : option mtime }.

(** A file behind the env interface: its decoded text, or the exception other
    than [FileNotFoundError] that reading it raises. *)
Inductive rfile := RText (t : string) | RFails (e : exc).

(** The environment object: the backing store it talks to, and the attributes
    the guards look at. *)
Record env := Env {
  e_store : string;
  e_working_dir : option string;
  e_on_host_fs : bool;
  e_cache_identity : option string
}.

Record fs := FS {
  fs_host : gmap string hfile;
  fs_remote : gmap (string * string) rfile
}.

(** [working_dir / name] *)
Definition path_join (dir name : string) : string :=
  if endswith "/" dir then dir +:+ name else dir +:+ "/" +:+ name.
(** [dir / name]: an absolute [name] stands for itself. *)
Definition path_div (dir name : string) : string :=
  if startswith "/" name then name else path_join dir name.

(** [path.stat().st_mtime], [None] on any [OSError]. *)
Definition stat_mtime (f : fs) (path : string) : option mtime :=
  match fs_host f !! path with Some h => hf_mtime h | None => None end.

(** [path.read_text(encoding="utf-8")] *)
Definition read_text (f : fs) (path : string) : res string :=
  match fs_host f !! path with
  | None => Raise (FileNotFoundError path)
  | Some h =>
      match hf_content h with
      | CText t => Ok t
      | CUndecodable => Raise (ValueError "UnicodeDecodeError")
      | CUnreadable => Raise (OSError path)
      end
  end.

(** [await env.read_file(path)], decoded. *)
Definition env_read (f : fs) (e : env) (path : string) : res string :=
  match fs_remote f !! (e_store e, path) with
  | None => Raise (FileNotFoundError path)
  | Some (RText t) => Ok t
  | Some (RFails x) => Raise x
  end.

(** [await env.write_file(path, text)] *)
Definition env_write (f : fs) (e : env) (path text : string) : fs :=
  FS (fs_host f) (<[(e_store e, path) := RText text]> (fs_remote f)).

(** An [except OSError] clause: [FileNotFoundError] is a subclass. *)
Definition catches_os (x : exc) : bool :=
  match x with FileNotFoundError _ | OSError _ => true | _ => false end.

Definition is_local_env (e : env) : bool := e_on_host_fs e.

Definition overlay_cache_key (e : env) : string :=
  match e_cache_identity e with
  | Some identity => identity
  | None => "workdir:" +:+ default "" (e_working_dir e)
  end.

Definition read_overlay_text (f : fs) (e : env) (path : string) : string :=
  match env_read f e path with Ok t => t | Raise _ => "" end.

(** ** JSONL *)

Definition jsonl_line (line : string) : option pydict :=
  let stripped := strip line in
  if (stripped =? "")%string || startswith "#" stripped then None
  else match json_loads stripped with Some (PDict d) => Some d | _ => None end.

Definition iter_jsonl_objects (text : string) : list pydict :=
  omap jsonl_line (splitlines text).

(** ** Tenant patterns *)

Definition _MAX_LEN : nat := 1000.
Definition _NESTED_QUANTIFIER : regex := re_of "\([^)]*[+*][^)]*\)\s*[+*{]".
Definition safe_regex (pattern : string) : bool :=
  if _MAX_LEN <? slen pattern then false
  else negb (re_found noflags _NESTED_QUANTIFIER pattern).

(** [re.search(pattern, text)] on a pattern that is data: whether it matches,
    or [None] for [re.error]. *)
Class PyRe := re_search_text : reflags → string → string → option bool.

(** The patterns [re_compile] covers, read by the engine of [Regex]. *)
Definition engine_re : PyRe := λ fl pat s,
  match re_compile pat with
  | Some r => Some (re_found fl r s)
  | None => None
  end.

(** ** The two caches of an overlay

    The three overlay readers ([permission_rules.py], [policies.py],
    [exfil_config.py]) share one shape: a one-entry cache keyed by path and
    [mtime] for the local backend, and a dict keyed by
    [overlay_cache_key] for sandboxes. [build] is what a module makes of the
    overlay's text, [filename] the overlay's name. *)

Record ocache (R : Type) := OCache {
  oc_path : option string;
  oc_mtime : option mtime;
  oc_value : option R;
  oc_remote : list (string * R)
}.
Arguments OCache {R} _ _ _ _.
Arguments oc_path {R} _.
Arguments oc_mtime {R} _.
Arguments oc_value {R} _.
Arguments oc_remote {R} _.

Definition empty_cache {R} : ocache R := OCache None None None [].

Section Loading.
Context {R : Type} (filename : string) (build : string → res R).

(** The cached value, when it is for this path at this [mtime]. *)
Definition cache_hit (c : ocache R) (path : string) (m : option mtime) : option R :=
  match oc_path c, oc_mtime c, oc_value c, m with
  | Some p, Some t, Some v, Some t' =>
      if (p =? path)%string && Qeq_bool t t' then Some v else None
  | _, _, _, _ => None
  end.

(** The text of a host overlay: an [OSError] reads as no overlay. *)
Definition local_text (f : fs) (path : string) : res string :=
  match read_text f path with
  | Ok t => Ok t
  | Raise x => if catches_os x then Ok "" else Raise x
  end.

Definition load_local (c : ocache R) (f : fs) (working_dir : string) :
    res R * ocache R :=
  let path := path_join working_dir filename in
  let m := stat_mtime f path in
  match cache_hit c path m with
  | Some v => (Ok v, c)
  | None =>
      match (let! t := local_text f path in build t) with
      | Ok v => (Ok v, OCache (Some path) m (Some v) (oc_remote c))
      | Raise x => (Raise x, c)
      end
  end.

Definition load_remote (c : ocache R) (f : fs) (e : env) (working_dir : string) :
    res R * ocache R :=
  let key := overlay_cache_key e in
  match dget (oc_remote c) key with
  | Some v => (Ok v, c)
  | None =>
      match build (read_overlay_text f e (path_join working_dir filename)) with
      | Ok v => (Ok v, OCache (oc_path c) (oc_mtime c) (oc_value c)
                         (dset (oc_remote c) key v))
      | Raise x => (Raise x, c)
      end
  end.

(** Without an environment, or one without a working directory, [absent]. *)
Definition load_for_env (absent : R) (c : ocache R) (f : fs) (e : option env) :
    res R * ocache R :=
  match e with
  | None => (Ok absent, c)
  | Some e =>
      match e_working_dir e with
      | None => (Ok absent, c)
      | Some wd => if is_local_env e then load_local c f wd else load_remote c f e wd
      end
  end.

(** [_overlay_cache.pop(key, None)] *)
Definition forget (c : ocache R) (key : string) : ocache R :=
  OCache (oc_path c) (oc_mtime c) (oc_value c) (ddel (oc_remote c) key).
End Loading.

(** ** Facts *)

Lemma env_read_write f e path t : env_read (env_write f e path t) e path = Ok t.
Proof. unfold env_read, env_write. cbn. by rewrite lookup_insert_eq. Qed.

Lemma env_read_write_other f e e' path path' t :
  (e_store e, path) ≠ (e_store e', path') →
  env_read (env_write f e path t) e' path' = env_read f e' path'.
Proof. intros Hne. unfold env_read, env_write. cbn. by rewrite lookup_insert_ne. Qed.


(** ** Coherence of the sandbox cache *)

Section Coherence.
Context {R : Type} (filename : string) (build : string → res R) (absent : R).
(** The sandbox environments one backend instance serves. *)
Context (served : env → Prop).

(** The file an environment's overlay is read from. *)
Definition overlay_path (e : env) : string :=
  path_join (default "" (e_working_dir e)) filename.
Definition overlay_file (e : env) : string * string := (e_store e, overlay_path e).

Definition sandboxed (e : env) : Prop :=
  is_local_env e = false ∧ is_Some (e_working_dir e).

(** What [cache_identity] promises: keys identify overlay files. *)
Definition keys_identify : Prop := ∀ e e', served e → served e' →
  overlay_cache_key e = overlay_cache_key e' ↔ overlay_file e = overlay_file e'.

(** The steps of a backend instance: loads, rewrites of an overlay that also
    drop its entry, and writes to other files. *)
Inductive cache_step : ocache R * fs → ocache R * fs → Prop :=
| step_load c f e : served e →
    cache_step (c, f) ((load_for_env filename build absent c f (Some e)).2, f)
| step_rewrite c f e text : served e →
    cache_step (c, f) (forget c (overlay_cache_key e), env_write f e (overlay_path e) text)
| step_write c f e path text :
    (∀ e', served e' → (e_store e, path) ≠ overlay_file e') →
    cache_step (c, f) (c, env_write f e path text).

(** What the overlay of an environment builds to now. *)
Definition current (f : fs) (e : env) : res R :=
  build (read_overlay_text f e (overlay_path e)).

Definition coherent (cf : ocache R * fs) : Prop :=
  NoDup (keys (oc_remote cf.1)) ∧
  ∀ e v, served e → dget (oc_remote cf.1) (overlay_cache_key e) = Some v →
    current cf.2 e = Ok v.

Hypothesis Hsandboxed : ∀ e, served e → sandboxed e.
Hypothesis Hkeys : keys_identify.

Lemma load_sandboxed c f e :
  sandboxed e →
  load_for_env filename build absent c f (Some e) =
  match dget (oc_remote c) (overlay_cache_key e) with
  | Some v => (Ok v, c)
  | None => match current f e with
            | Ok v => (Ok v, OCache (oc_path c) (oc_mtime c) (oc_value c)
                               (dset (oc_remote c) (overlay_cache_key e) v))
            | Raise x => (Raise x, c)
            end
  end.
Proof.
  intros [Hl [wd Hwd]]. unfold load_for_env. rewrite Hwd, Hl.
  unfold load_remote, current, overlay_path. by rewrite Hwd.
Qed.

Lemma current_write f e e' path t :
  (e_store e, path) ≠ overlay_file e' →
  current (env_write f e path t) e' = current f e'.
Proof.
  intros Hne. unfold current, read_overlay_text. by rewrite env_read_write_other.
Qed.

Lemma coherent_load c f e :
  served e → coherent (c, f) →
  coherent ((load_for_env filename build absent c f (Some e)).2, f).
Proof.
  intros He [Hnd Hc]. rewrite load_sandboxed by auto.
  destruct (dget _ _) as [v|] eqn:Ed; [done|].
  destruct (current f e) as [v|] eqn:Er; [|done]. split; cbn.
  - by apply NoDup_keys_dset.
  - intros e' v' He'. rewrite dget_dset. case_decide as Hk; [|by apply Hc].
    intros [= <-]. apply Hkeys in Hk as Hf; [|done..]. injection Hf as Hs Hp.
    rewrite <-Er. unfold current, read_overlay_text, env_read. by rewrite Hs, Hp.
Qed.

Lemma coherent_rewrite c f e text :
  served e → coherent (c, f) →
  coherent (forget c (overlay_cache_key e), env_write f e (overlay_path e) text).
Proof.
  intros He [Hnd Hc]. split; cbn; [by apply NoDup_keys_ddel|].
  intros e' v He' Hd.
  destruct (decide (overlay_cache_key e = overlay_cache_key e')) as [Hk|Hk].
  { rewrite Hk in Hd. rewrite dget_ddel_eq in Hd; done. }
  rewrite dget_ddel_ne in Hd by done. rewrite current_write; [by apply Hc|].
  intros Hf. by apply Hk, Hkeys.
Qed.

Lemma coherent_reach f0 cf : rtc cache_step (empty_cache, f0) cf → coherent cf.
Proof.
  intros Hr. assert (coherent (empty_cache, f0)) as H0 by (split; [constructor|done]).
  induction Hr as [|x y z Hxy Hyz IH]; [done|]. apply IH.
  destruct Hxy as [c f e He|c f e text He|c f e path t Hn].
  - by apply coherent_load.
  - by apply coherent_rewrite.
  - destruct H0 as [Hnd Hc]. split; [done|]. intros e' v He' Hd. cbn.
    rewrite current_write by auto. by apply Hc.
Qed.

(** In a reachable state a load gives what the environment's own file builds
    to. *)
Lemma reachable_load f0 c f e :
  rtc cache_step (empty_cache, f0) (c, f) → served e →
  (load_for_env filename build absent c f (Some e)).1 = current f e.
Proof.
  intros Hr He. apply coherent_reach in Hr as [_ Hc].
  rewrite load_sandboxed by auto. destruct (dget _ _) as [v|] eqn:Ed.
  - symmetry. by apply Hc.
  - by destruct (current f e).
Qed.
End Coherence.

(** ** Coherence of the local cache *)

Section LocalCoherence.
Context {R : Type} (filename : string) (build : string → res R).

(** The entry is what its path builds to, as long as the file still has the
    [mtime] of the entry. *)
Definition local_coherent (c : ocache R) (f : fs) : Prop :=
  ∀ p v m, cache_hit c p m = Some v → stat_mtime f p = m →
    (let! t := local_text f p in build t) = Ok v.

Lemma load_local_coherent c f wd :
  local_coherent c f →
  (load_local filename build c f wd).1
    = (let! t := local_text f (path_join wd filename) in build t) ∧
  local_coherent (load_local filename build c f wd).2 f.
Proof.
  intros Hc. unfold load_local. set (p := path_join wd filename).
  destruct (cache_hit c p (stat_mtime f p)) as [v|] eqn:E.
  - split; [|done]. symmetry. by eapply Hc.
  - destruct (let! t := local_text f p in build t) as [v|x] eqn:Eb; [|done].
    split; [done|]. intros p' v' m Hh Hm. unfold cache_hit in Hh. cbn in Hh.
    destruct (stat_mtime f p) as [t|]; [|done]. destruct m as [t'|]; [|done].
    destruct (_ && _) eqn:Ea; [|done]. injection Hh as <-.
    apply andb_true_iff in Ea as [Ep%String.eqb_eq _]. by subst p'.
Qed.

(** A change of the host that gives every file it touches a new [mtime]
    keeps the cache coherent. *)
Lemma local_coherent_edit c f f' :
  local_coherent c f →
  (∀ p, fs_host f' !! p = fs_host f !! p ∨
     ∀ t t', oc_mtime c = Some t → stat_mtime f' p = Some t' → Qeq_bool t t' = false) →
  local_coherent c f'.
Proof.
  intros Hc Hf p v m Hh Hm. destruct (Hf p) as [Hp|Hp].
  - unfold local_text, read_text. rewrite Hp. eapply Hc; [done|].
    unfold stat_mtime in *. by rewrite <-Hp.
  - unfold cache_hit in Hh. destruct (oc_path c), (oc_mtime c) as [t|], (oc_value c);
      try done. destruct m as [t'|]; [|done]. rewrite (Hp t t') in Hh by done.
    by rewrite andb_false_r in Hh.
Qed.
End LocalCoherence.

(** ** Loading twice *)

Lemma cache_hit_same {R} path m (v : R) rem :
  is_Some m → cache_hit (OCache (Some path) m (Some v) rem) path m = Some v.
Proof.
  intros [t ->]. cbn. rewrite String.eqb_refl.
  assert (Qeq_bool t t = true) as -> by by apply Qeq_bool_iff. done.
Qed.

(** With the files unchanged, a second load gives the value of the first. *)
Lemma load_again {R} filename (build : string → res R) absent c f e v c' :
  load_for_env filename build absent c f e = (Ok v, c') →
  (load_for_env filename build absent c' f e).1 = Ok v.
Proof.
  unfold load_for_env. destruct e as [e|]; [|by intros [= <- <-]].
  destruct (e_working_dir e) as [wd|]; [|by intros [= <- <-]].
  destruct (is_local_env e).
  - unfold load_local at 1. destruct (cache_hit c _ _) as [u|] eqn:Eh.
    + intros [= <- <-]. unfold load_local. by rewrite Eh.
    + destruct (let! t := local_text f _ in build t) as [u|] eqn:Eb; [|done].
      intros [= <- <-]. unfold load_local.
      destruct (stat_mtime f (path_join wd filename)) as [t|] eqn:Em.
      * by rewrite cache_hit_same.
      * cbn [cache_hit oc_path oc_mtime oc_value]. by rewrite Eb.
  - unfold load_remote at 1. destruct (dget _ _) as [u|] eqn:Ed.
    + intros [= <- <-]. unfold load_remote. by rewrite Ed.
    + destruct (build _) as [u|] eqn:Eb; [|done]. intros [= <- <-]. unfold load_remote. cbn.
      by rewrite dget_dset_eq.
Qed.

(** ** Hot reload under the local backend *)

Section HotReload.
Context {R : Type} (filename : string) (build : string → res R) (absent : R).

(** What an edit of the host must leave for the cache to notice it: a file whose
    [stat] differs from the one the entry was made with. *)
Definition noticed (c : ocache R) (f f' : fs) : Prop :=
  ∀ p, fs_host f' !! p = fs_host f !! p ∨
    ∀ t t', oc_mtime c = Some t → stat_mtime f' p = Some t' → Qeq_bool t t' = false.

(** Loads for any local environment, and edits of the host in between. *)
Inductive local_step : ocache R * fs → ocache R * fs → Prop :=
| local_loads c f e :
    is_local_env e = true →
    local_step (c, f) ((load_for_env filename build absent c f (Some e)).2, f)
| local_edits c f f' : noticed c f f' → local_step (c, f) (c, f').

Lemma local_reach f0 c f :
  rtc local_step (empty_cache, f0) (c, f) → local_coherent build c f.
Proof.
  intros Hr. assert (local_coherent build empty_cache f0) as H0 by done.
  enough (∀ x y, rtc local_step x y → local_coherent build x.1 x.2 → local_coherent build y.1 y.2)
    as H by exact (H _ _ Hr H0).
  clear. induction 1 as [|x y z Hxy Hyz IH]; [done|]. intros H0. apply IH.
  destruct Hxy as [c1 f1 e He|c1 f1 f1' Hn]; cbn in *.
  - destruct (e_working_dir e) as [wd|]; [|done]. rewrite He.
    by apply load_local_coherent.
  - by eapply local_coherent_edit.
Qed.

(** In every reachable state, a load for a local environment gives what its
    overlay file builds to at that moment: edits take effect on the next call. *)
Theorem local_hot_reload f0 c f e wd :
  rtc local_step (empty_cache, f0) (c, f) → is_local_env e = true → e_working_dir e = Some wd →
  (load_for_env filename build absent c f (Some e)).1 =
  (let! t := local_text f (path_join wd filename) in build t).
Proof.
  intros Hr Hl Hwd. apply local_reach in Hr. unfold load_for_env. rewrite Hwd, Hl.
  by apply load_local_coherent.
Qed.
End HotReload.
