(* ===== verification/Environ.v ===== *)
(** * Environment variables: [infrastructure/env.py]

    The variables of the process, as the modules read them: [os.environ] is an
    association list that the modelled code never writes. *)

From S2P Require Import Prelude PyStr Names PyVal.

Abbreviation environment_vars := (list (string * string)).

Definition _TRUTHY : list string := ["1"; "true"; "yes"].

(** [os.environ.get(name, "")] *)
Definition env_get (environ : environment_vars) (name : string) : string :=
  default "" (dget environ name).

(** [os.environ[name]] *)
Definition env_item (environ : environment_vars) (name : string) : res string :=
  match dget environ name with Some v => Ok v | None => Raise (KeyError name) end.

Definition env_flag (environ : environment_vars) (name : string) (dflt : bool) : bool :=
  match dget environ name with
  | None => dflt
  | Some raw => mem (lower (strip raw)) _TRUTHY
  end.

(** [s or d] of strings. *)
Definition or_str (s d : string) : string := if (s =? "")%string then d else s.

Definition env_str (environ : environment_vars) (name dflt : string) : string :=
  or_str (strip (env_get environ name)) dflt.

(** [os.environ.get(name, "").strip()] *)
Definition env_stripped (environ : environment_vars) (name : string) : string :=
  strip (env_get environ name).

Lemma or_str_nonempty s d : (d =? "")%string = false → (or_str s d =? "")%string = false.
Proof. unfold or_str. by destruct (s =? "")%string eqn:E. Qed.

(** Only an absent flag takes the default: a blank one is off. A blank string takes it. *)
Lemma blank_flag_is_off environ name raw dflt :
  dget environ name = Some raw → strip raw = "" → env_flag environ name dflt = false.
Proof. intros E Hs. unfold env_flag. by rewrite E, Hs. Qed.

Lemma blank_str_is_default environ name raw dflt :
  dget environ name = Some raw → strip raw = "" → env_str environ name dflt = dflt.
Proof. intros E Hs. unfold env_str, env_get. rewrite E. change (default "" (Some raw)) with raw. by rewrite Hs. Qed.
