(* ===== verification/Web.v ===== *)
(** * HTTP routes and texts for the wire

    What a route answers (a body, an [HTTPException], or an exception the framework turns
    into a 500), and the parts of [urllib.parse] and [base64] the routes use. Bytes are the
    characters of a string. *)

From S2P Require Import Prelude PyStr PyVal.

(** ** Answers *)

Inductive web (A : Type) :=
  | Answer (a : A)
  | HTTPException (status : Z) (detail : string)
  | Crash (e : exc).
Arguments Answer {A}. Arguments HTTPException {A}. Arguments Crash {A}.

Definition web_bind {A B} (m : web A) (k : A → web B) : web B :=
  match m with
  | Answer a => k a
  | HTTPException s d => HTTPException s d
  | Crash e => Crash e
  end.
Notation "'let?' x ':=' m 'in' k" := (web_bind m (λ x, k))
  (at level 10, x name, m at level 100, k at level 200) : py_scope.

Definition of_res {A} (r : res A) : web A := match r with Ok a => Answer a | Raise e => Crash e end.

(** ** [urllib.parse.urlencode] *)

Definition is_unreserved (c : ascii) : bool :=
  in_range 48 57 c || in_range 65 90 c || in_range 97 122 c || has_char c "_.-~".
Definition hex_digit (n : N) : ascii := if (n <? 10)%N then ascii_of_N (48 + n) else ascii_of_N (55 + n).
Definition percent (n : N) : string := "%" +:+ s1 (hex_digit (n / 16)) +:+ s1 (hex_digit (n mod 16)).
(** The UTF-8 bytes of a character. *)
Definition utf8_bytes (c : ascii) : list N :=
  if (code c <? 128)%N then [code c] else [(192 + code c / 64)%N; (128 + code c mod 64)%N].
Definition quote_char (c : ascii) : string :=
  if is_unreserved c then s1 c
  else if Ascii.eqb c SP then "+"
  else join "" (map percent (utf8_bytes c)).
Definition quote_plus : string → string := concat_map quote_char.
Definition urlencode (params : list (string * string)) : string :=
  join "&" (map (λ kv, quote_plus kv.1 +:+ "=" +:+ quote_plus kv.2) params).

(** ** [base64.urlsafe_b64encode] and [urlsafe_b64decode] *)

Definition b64_char (n : N) : ascii :=
  (if n <? 26 then ascii_of_N (65 + n)
   else if n <? 52 then ascii_of_N (71 + n)
   else if n <? 62 then ascii_of_N (n - 4)
   else if n =? 62 then "-" else "_")%N%char.
(** The value of a character; the decoder takes both alphabets. *)
Definition b64_value (c : ascii) : option N :=
  if in_range 65 90 c then Some (code c - 65)%N
  else if in_range 97 122 c then Some (code c - 71)%N
  else if in_range 48 57 c then Some (code c + 4)%N
  else if Ascii.eqb c "-" || Ascii.eqb c "+" then Some 62%N
  else if Ascii.eqb c "_" || Ascii.eqb c "/" then Some 63%N
  else None.

Fixpoint b64_encode (s : string) : string :=
  match s with
  | "" => ""
  | String a "" =>
      String (b64_char (code a / 4)) (String (b64_char (code a mod 4 * 16)) "==")
  | String a (String b "") =>
      String (b64_char (code a / 4)) (String (b64_char (code a mod 4 * 16 + code b / 16))
        (String (b64_char (code b mod 16 * 4)) "="))
  | String a (String b (String c r)) =>
      String (b64_char (code a / 4)) (String (b64_char (code a mod 4 * 16 + code b / 16))
        (String (b64_char (code b mod 16 * 4 + code c / 64)) (String (b64_char (code c mod 64))
          (b64_encode r))))
  end.

(** [binascii.a2b_base64]: the place in the group of four, the bits left over, the padding
    seen; a character outside the alphabet is skipped. [None] when the text ends inside a
    group. *)
Fixpoint b64_scan (quad left pads : N) (s : string) : option string :=
  match s with
  | "" => if (quad =? 0)%N then Some "" else None
  | String c s' =>
      if Ascii.eqb c "=" then
        if ((2 <=? quad) && (4 <=? quad + (pads + 1)))%N then Some ""
        else b64_scan quad left (if (2 <=? quad)%N then pads + 1 else pads)%N s'
      else
        match b64_value c with
        | None => b64_scan quad left pads s'
        | Some v =>
            (match quad with
             | 0 => b64_scan 1 v 0 s'
             | 1 => option_map (String (ascii_of_N (left * 4 + v / 16))) (b64_scan 2 (v mod 16) 0 s')
             | 2 => option_map (String (ascii_of_N (left * 16 + v / 4))) (b64_scan 3 (v mod 4) 0 s')
             | _ => option_map (String (ascii_of_N (left * 64 + v))) (b64_scan 0 0 0 s')
             end)%N
        end
  end.
Definition is_ascii (c : ascii) : bool := in_range 0 127 c.
Definition b64_decode (s : string) : res string :=
  if negb (sforall is_ascii s) then Raise (ValueError "string argument should contain only ASCII characters")
  else match b64_scan 0 0 0 s with
       | Some b => Ok b
       | None => Raise (OtherError "binascii.Error" "Incorrect padding")
       end.

(** ** Facts *)

Lemma b64_value_char n : (n < 64)%N → b64_value (b64_char n) = Some n ∧ Ascii.eqb (b64_char n) "=" = false
  ∧ is_ascii (b64_char n) = true.
Proof.
  intros Hn. assert (n ∈ map N.of_nat (seq 0 64)) as Hin.
  { apply list_elem_of_fmap. exists (N.to_nat n). rewrite N2Nat.id. split; [done|]. apply elem_of_seq. lia. }
  revert n Hn Hin. refine (λ n _, proj1 (Forall_forall (λ n, b64_value (b64_char n) = Some n ∧
    Ascii.eqb (b64_char n) "=" = false ∧ is_ascii (b64_char n) = true) _) _ n). repeat constructor.
Qed.

Lemma code_lt c : (code c < 256)%N.
Proof. apply N_ascii_bounded. Qed.
Lemma ascii_code c : ascii_of_N (code c) = c.
Proof. apply ascii_N_embedding. Qed.

Lemma scan1 n s : (n < 64)%N → b64_scan 0 0 0 (String (b64_char n) s) = b64_scan 1 n 0 s.
Proof. intros Hn. destruct (b64_value_char n Hn) as (Hv & He & _). cbn. by rewrite He, Hv. Qed.
Lemma scan2 l n s : (n < 64)%N → b64_scan 1 l 0 (String (b64_char n) s) =
  option_map (String (ascii_of_N (l * 4 + n / 16))) (b64_scan 2 (n mod 16) 0 s).
Proof. intros Hn. destruct (b64_value_char n Hn) as (Hv & He & _). cbn -[N.div N.modulo N.mul]. by rewrite He, Hv. Qed.
Lemma scan3 l n s : (n < 64)%N → b64_scan 2 l 0 (String (b64_char n) s) =
  option_map (String (ascii_of_N (l * 16 + n / 4))) (b64_scan 3 (n mod 4) 0 s).
Proof. intros Hn. destruct (b64_value_char n Hn) as (Hv & He & _). cbn -[N.div N.modulo N.mul]. by rewrite He, Hv. Qed.
Lemma scan4 l n s : (n < 64)%N → b64_scan 3 l 0 (String (b64_char n) s) =
  option_map (String (ascii_of_N (l * 64 + n))) (b64_scan 0 0 0 s).
Proof. intros Hn. destruct (b64_value_char n Hn) as (Hv & He & _). cbn -[N.div N.modulo N.mul]. by rewrite He, Hv. Qed.

(** Three bytes at a time. *)
Lemma string_ind3 (P : string → Prop) :
  P "" → (∀ a, P (s1 a)) → (∀ a b, P (String a (s1 b))) →
  (∀ a b c r, P r → P (String a (String b (String c r)))) → ∀ s, P s.
Proof.
  intros H0 H1 H2 H3. fix IH 1. intros [|a [|b [|c r]]]; [exact H0|apply H1|apply H2|apply H3, IH].
Qed.

(** The encoding without its padding, and the padding. *)
Fixpoint b64_body (s : string) : string :=
  match s with
  | "" => ""
  | String a "" => String (b64_char (code a / 4)) (s1 (b64_char (code a mod 4 * 16)))
  | String a (String b "") =>
      String (b64_char (code a / 4)) (String (b64_char (code a mod 4 * 16 + code b / 16))
        (s1 (b64_char (code b mod 16 * 4))))
  | String a (String b (String c r)) =>
      String (b64_char (code a / 4)) (String (b64_char (code a mod 4 * 16 + code b / 16))
        (String (b64_char (code b mod 16 * 4 + code c / 64)) (String (b64_char (code c mod 64))
          (b64_body r))))
  end.
Fixpoint b64_pad (s : string) : string :=
  match s with
  | "" => ""
  | String _ "" => "=="
  | String _ (String _ "") => "="
  | String _ (String _ (String _ r)) => b64_pad r
  end.

Lemma encode_body s : b64_encode s = b64_body s +:+ b64_pad s.
Proof. induction s as [|a|a b|a b c r IH] using string_ind3; [done..|]. cbn. by rewrite IH. Qed.

Ltac byte_bounds :=
  repeat match goal with
  | c : ascii |- _ => lazymatch goal with H : (code c < 256)%N |- _ => fail | _ => pose proof (code_lt c) end
  end.
Ltac bits := byte_bounds; zify; Z.to_euclidean_division_equations; lia.

Lemma body_chars s : sforall (λ c, negb (Ascii.eqb c "=") && is_ascii c) (b64_body s) = true.
Proof.
  assert (∀ n, (n < 64)%N → negb (Ascii.eqb (b64_char n) "=") && is_ascii (b64_char n) = true) as Hc.
  { intros n Hn. destruct (b64_value_char n Hn) as (_ & -> & ->). done. }
  induction s as [|a|a b|a b c r IH] using string_ind3; [done|..]; cbn [b64_body sforall s1];
    rewrite !Hc by bits; rewrite ?IH; done.
Qed.

Lemma body_pad s : slen (b64_pad s) = Z.to_nat (- Z.of_nat (slen (b64_body s)) mod 4).
Proof.
  induction s as [|a|a b|a b c r IH] using string_ind3; [done..|]. cbn [b64_body b64_pad].
  rewrite IH. f_equal. cbn [slen String.length]. zify. Z.to_euclidean_division_equations. lia.
Qed.

Lemma pad_equals s : sforall (Ascii.eqb "=") (b64_pad s) = true.
Proof. induction s as [|a|a b|a b c r IH] using string_ind3; [done..|]. exact IH. Qed.

(** The bits of a byte, put together again. *)
Lemma first_byte a x : (x < 16)%N → ascii_of_N (code a / 4 * 4 + (code a mod 4 * 16 + x) / 16) = a.
Proof. intros Hx. rewrite <- (ascii_code a) at 3. f_equal. bits. Qed.
Lemma second_byte b x y : (y < 4)%N →
  ascii_of_N ((x * 16 + code b / 16) mod 16 * 16 + (code b mod 16 * 4 + y) / 4) = b.
Proof. intros Hy. rewrite <- (ascii_code b) at 3. f_equal. bits. Qed.
Lemma third_byte c x : ascii_of_N ((x * 4 + code c / 64) mod 4 * 64 + code c mod 64) = c.
Proof. rewrite <- (ascii_code c) at 3. f_equal. bits. Qed.

Lemma scan_encoded s : b64_scan 0 0 0 (b64_encode s) = Some s.
Proof.
  induction s as [|a|a b|a b c r IH] using string_ind3; [done|..]; cbn [b64_encode s1].
  - rewrite scan1, scan2 by bits. rewrite <- (N.add_0_r (code a mod 4 * 16)), first_byte by done. done.
  - rewrite scan1, scan2, scan3 by bits. rewrite first_byte by bits.
    rewrite <- (N.add_0_r (code b mod 16 * 4)), second_byte by done. done.
  - rewrite scan1, scan2, scan3, scan4, IH by bits.
    rewrite first_byte, second_byte, third_byte by bits. done.
Qed.

Lemma rstrip_pad p s t : sforall p t = true → sforall (λ c, negb (p c)) s = true → rstrip p (s +:+ t) = s.
Proof.
  intros Ht. induction s as [|c s IH]; cbn; [by rewrite rstrip_all|]. intros [Hc Hs]%andb_true_iff.
  rewrite (IH Hs). apply negb_true_iff in Hc. destruct s; [by rewrite Hc|done].
Qed.

(** [c * n] *)
Fixpoint repeat_char (c : ascii) (n : nat) : string :=
  match n with 0 => "" | S n => String c (repeat_char c n) end.
Lemma repeat_char_all c s : sforall (Ascii.eqb c) s = true → s = repeat_char c (slen s).
Proof.
  induction s as [|d s IH]; [done|]. cbn [sforall]. intros [Hd%Ascii.eqb_eq Hs]%andb_true_iff. subst d.
  change (slen (String c s)) with (S (slen s)). cbn [repeat_char]. f_equal. by apply IH.
Qed.

(** [encode(s).decode().rstrip("=")] and the padding put back. *)
Definition b64_unpadded (s : string) : string := rstrip (Ascii.eqb "=") (b64_encode s).
Definition repad (body : string) : string :=
  body +:+ repeat_char "=" (Z.to_nat (- Z.of_nat (slen body) mod 4)).

Lemma unpadded_body s : b64_unpadded s = b64_body s.
Proof.
  unfold b64_unpadded. rewrite encode_body. apply rstrip_pad; [apply pad_equals|].
  eapply sforall_impl; [|apply body_chars]. intros c [Hc _]%andb_true_iff. by rewrite Ascii.eqb_sym.
Qed.

(** A text encoded, stripped of its padding and padded again decodes to itself. *)
Lemma b64_roundtrip s : b64_decode (repad (b64_unpadded s)) = Ok s.
Proof.
  assert (repad (b64_unpadded s) = b64_encode s) as ->.
  { unfold repad. rewrite unpadded_body, encode_body, <- body_pad. f_equal. symmetry.
    apply repeat_char_all, pad_equals. }
  unfold b64_decode. rewrite scan_encoded. replace (sforall is_ascii (b64_encode s)) with true; [done|].
  rewrite encode_body, sforall_app. symmetry. apply andb_true_iff. split.
  - eapply sforall_impl; [|apply body_chars]. by intros c [_ Hc]%andb_true_iff.
  - eapply sforall_impl; [|apply pad_equals]. by intros c <-%Ascii.eqb_eq.
Qed.

(** The characters of the encoding: letters, digits, the dash and the underscore. *)
Definition b64_letter (c : ascii) : bool :=
  in_range 48 57 c || in_range 65 90 c || in_range 97 122 c || Ascii.eqb c "-" || Ascii.eqb c "_".
Lemma body_alphabet s : sforall b64_letter (b64_body s) = true.
Proof.
  assert (∀ n, (n < 64)%N → b64_letter (b64_char n) = true) as Hc.
  { intros n Hn. assert (n ∈ map N.of_nat (seq 0 64)) as Hin.
    { apply list_elem_of_fmap. exists (N.to_nat n). rewrite N2Nat.id. split; [done|]. apply elem_of_seq. lia. }
    revert n Hn Hin. refine (λ n _, proj1 (Forall_forall (λ n, b64_letter (b64_char n) = true) _) _ n).
    repeat constructor. }
  induction s as [|a|a b|a b c r IH] using string_ind3; [done|..]; cbn [b64_body sforall s1];
    rewrite !Hc by bits; rewrite ?IH; done.
Qed.

(** ** [base64.b64encode] and [b64decode] *)

(** The standard alphabet has + and / for the dash and the underscore. *)
Definition b64_std_char (c : ascii) : ascii :=
  if Ascii.eqb c "-" then "+" else if Ascii.eqb c "_" then "/" else c.
Definition b64encode (s : string) : string := smap b64_std_char (b64_encode s).
Definition b64_urlsafe_only (c : ascii) : bool := Ascii.eqb c "-" || Ascii.eqb c "_".
Fixpoint sfilter (p : ascii → bool) (s : string) : string :=
  match s with "" => "" | String c s' => if p c then String c (sfilter p s') else sfilter p s' end.
(** Characters outside the alphabet are skipped, the dash and the underscore among them. *)
Definition b64decode (s : string) : res string := b64_decode (sfilter (λ c, negb (b64_urlsafe_only c)) s).

Lemma std_char c : b64_urlsafe_only (b64_std_char c) = false ∧ b64_value (b64_std_char c) = b64_value c ∧
  Ascii.eqb (b64_std_char c) "=" = Ascii.eqb c "=" ∧ is_ascii (b64_std_char c) = is_ascii c.
Proof. destruct c as [[] [] [] [] [] [] [] []]; repeat split; reflexivity. Qed.

Lemma sfilter_all p s : sforall p s = true → sfilter p s = s.
Proof. induction s as [|c s IH]; [done|]. cbn. intros [-> Hs]%andb_true_iff. by rewrite IH. Qed.
Lemma sforall_through p f s : sforall p (smap f s) = sforall (λ c, p (f c)) s.
Proof. induction s as [|c s IH]; [done|]. cbn. by rewrite IH. Qed.
Lemma scan_std quad left pads s : b64_scan quad left pads (smap b64_std_char s) = b64_scan quad left pads s.
Proof.
  revert quad left pads. induction s as [|c s IH]; intros quad left pads; [done|]. cbn [smap b64_scan].
  destruct (std_char c) as (_ & -> & -> & _). by repeat case_match; rewrite ?IH.
Qed.
Lemma encoded_ascii s : sforall is_ascii (b64_encode s) = true.
Proof.
  rewrite encode_body, sforall_app. apply andb_true_iff. split.
  - eapply sforall_impl; [|apply body_chars]. by intros c [_ Hc]%andb_true_iff.
  - eapply sforall_impl; [|apply pad_equals]. by intros c <-%Ascii.eqb_eq.
Qed.

(** What is encoded decodes to itself. *)
Lemma b64_std_roundtrip s : b64decode (b64encode s) = Ok s.
Proof.
  unfold b64decode, b64encode, b64_decode. rewrite sfilter_all.
  - rewrite scan_std, scan_encoded, sforall_through. replace (sforall _ (b64_encode s)) with true; [done|].
    symmetry. eapply sforall_impl; [|apply (encoded_ascii s)]. intros c Hc. by destruct (std_char c) as (_ & _ & _ & ->).
  - rewrite sforall_through. eapply sforall_impl; [|apply (encoded_ascii s)]. intros c _.
    by destruct (std_char c) as (-> & _).
Qed.
