(* ===== verification/CommandClassify.v ===== *)
(** * Shell command parsing: [horizon/guardrails/command_classify.py]

    [strip_wrapper], the quote-aware [split_segments], the token walk and the
    auto-scope [command_prefix], and the redirection and command-substitution
    detectors the permission gate uses. *)

From S2P Require Import Prelude PyStr Regex Names.

(** ** The module's patterns *)

Definition _WRAPPER_RE : regex :=
  re_of ("^(?:bash|sh|zsh)\s+-c\s+(['" +:+ DQs +:+ "])(.*)\1\s*$").
Definition _REDIRECTION_RE : regex := re_of "(>>|>|<)".
Definition _BARE_WORD_RE : regex := re_of "^[a-z][a-z0-9-]*$".
Definition _FD_DUP_RE : regex := re_of "\d*[<>]&(?:\d+|-)".
Definition _DEVNULL_RE : regex := re_of "(?:\d*|&)>>?\s*/dev/null(?=\s|$)".
Definition _SKIP_PREFIXES : list string := ["env"].

Definition strip_wrapper (command : string) : string :=
  match re_match DOTALL _WRAPPER_RE (strip command) with
  | Some m => strip (default "" (group 2 m))
  | None => strip command
  end.

(** ** [split_segments] *)

(** The flags [in_single] and [in_double]; the code never sets both. *)
Inductive qmode := Top | InSingle | InDouble.

Definition snoc (s : string) (c : ascii) : string := s +:+ s1 c.

(** The inner function [flush]: the segment [buf] holds, when not blank, goes
    in front of what the rest of the scan yields. *)
Definition flush (buf : string) (parts : list string) : list string :=
  match strip buf with
  | "" => parts
  | seg => seg :: parts
  end.

Definition redirect_char (c : option ascii) : bool :=
  match c with
  | Some c => Ascii.eqb c "<" || Ascii.eqb c ">" || Ascii.eqb c "&"
  | None => false
  end.

Definition shead (s : string) : option ascii :=
  match s with String c _ => Some c | "" => None end.

(** One turn of the loop: what it does with [buf] (append, or [flush]), how far
    it advances [i], and the quoting flags it leaves. *)
Inductive act :=
| Keep1 (m : qmode)   (** [buf.append(ch)]; [i += 1] *)
| Keep2 (m : qmode)   (** [buf.append(ch + command[i + 1])]; [i += 2] *)
| Cut1                (** [flush()]; [i += 1] *)
| Cut2.               (** [flush()]; [i += 2] *)

Definition is_char (c : ascii) (o : option ascii) : bool :=
  match o with Some d => Ascii.eqb d c | None => false end.
Definition present (o : option ascii) : bool :=
  match o with Some _ => true | None => false end.

(** The branches of the loop body in their order; [prev] is [command[i-1:i]]
    and [nxt] is [command[i+1:i+2]]. *)
Definition action (m : qmode) (prev : option ascii) (ch : ascii) (nxt : option ascii) : act :=
  match m with
  | InSingle => Keep1 (if Ascii.eqb ch SQ then Top else InSingle)
  | InDouble =>
      if Ascii.eqb ch BSL && present nxt then Keep2 InDouble
      else Keep1 (if Ascii.eqb ch DQ then Top else InDouble)
  | Top =>
      if Ascii.eqb ch BSL && present nxt then Keep2 Top
      else if Ascii.eqb ch SQ then Keep1 InSingle
      else if Ascii.eqb ch DQ then Keep1 InDouble
      else if Ascii.eqb ch ";" || Ascii.eqb ch NL then Cut1
      else if Ascii.eqb ch "&" then
        if is_char "&" nxt then Cut2
        else if negb (redirect_char prev) && negb (redirect_char nxt) then Cut1
        else Keep1 Top
      else if Ascii.eqb ch "|" then
        if is_char "|" nxt then Cut2 else Cut1
      else Keep1 Top
  end.

(** The loop from the character at [i] on. *)
Fixpoint scan (m : qmode) (prev : option ascii) (buf s : string) : list string :=
  match s with
  | "" => flush buf []
  | String ch rest =>
      match action m prev ch (shead rest), rest with
      | Keep1 m', _ => scan m' (Some ch) (snoc buf ch) rest
      | Keep2 m', String d rest' => scan m' (Some d) (snoc (snoc buf ch) d) rest'
      | Cut1, _ => flush buf (scan Top (Some ch) "" rest)
      | Cut2, String d rest' => flush buf (scan Top (Some d) "" rest')
      | Keep2 _, "" | Cut2, "" => flush buf []
      end
  end.

Definition split_segments (command : string) : list string :=
  scan Top None "" command.

(** ** The token walk and the prefix *)

Fixpoint _skip_leading (tokens : list string) : nat :=
  match tokens with
  | t :: ts =>
      if has_char "=" t || mem t _SKIP_PREFIXES then S (_skip_leading ts) else 0
  | [] => 0
  end.

(** The [for] loop of [significant_tokens]. *)
Fixpoint positionals (tokens : list string) : list string :=
  match tokens with
  | [] => []
  | token :: ts =>
      if startswith "-" token then
        if has_char "=" token then positionals ts else []
      else token :: positionals ts
  end.

Definition significant_tokens (segment : string) : list string :=
  let tokens := split_ws segment in
  positionals (drop (_skip_leading tokens) tokens).

Definition bare_word (s : string) : bool :=
  match re_match noflags _BARE_WORD_RE s with Some _ => true | None => false end.

Definition command_prefix (segment : string) : string :=
  match significant_tokens segment with
  | [] => strip segment
  | binary :: rest =>
      match rest with
      | nxt :: _ =>
          if bare_word binary && bare_word nxt
          then binary +:+ String SP nxt else binary
      | [] => binary
      end
  end.

(** ** Redirection and command substitution *)

Definition has_redirection (segment : string) : bool :=
  let cleaned := re_sub noflags _DEVNULL_RE "" (re_sub noflags _FD_DUP_RE "" segment) in
  re_found noflags _REDIRECTION_RE cleaned.

(** Past an ANSI-C quoted run: the text after its closing quote, [None] when it
    never closes. *)
Fixpoint skip_ansi (s : string) : option string :=
  match s with
  | "" => None
  | String c rest =>
      if Ascii.eqb c SQ then Some rest
      else if Ascii.eqb c BSL then
        match rest with String _ rest' => skip_ansi rest' | "" => None end
      else skip_ansi rest
  end.

Definition opens (p : string) (s : string) : bool := startswith p s.

(** The loop of [has_command_substitution]; each turn consumes at least one
    character, so the length of the segment bounds the number of turns. *)
Fixpoint subst_scan (fuel : nat) (m : qmode) (s : string) : bool :=
  match fuel with
  | 0 => true
  | S f =>
      match s with
      | "" => match m with Top => false | _ => true end
      | String ch rest =>
          match m with
          | InSingle => subst_scan f (if Ascii.eqb ch SQ then Top else InSingle) rest
          | _ =>
              match Ascii.eqb ch BSL, rest with
              | true, String _ rest' => subst_scan f m rest'
              | _, _ =>
                  match m with
                  | InDouble =>
                      if Ascii.eqb ch "`" || opens "$(" s then true
                      else subst_scan f (if Ascii.eqb ch DQ then Top else InDouble) rest
                  | _ =>
                      if opens "$'" s then
                        match skip_ansi (sdrop 2 s) with
                        | Some rest' => subst_scan f Top rest'
                        | None => true
                        end
                      else if Ascii.eqb ch SQ then subst_scan f InSingle rest
                      else if Ascii.eqb ch DQ then subst_scan f InDouble rest
                      else if Ascii.eqb ch "`" || opens "$(" s || opens "<(" s
                              || opens ">(" s then true
                      else subst_scan f Top rest
                  end
              end
          end
      end
  end.

Definition has_command_substitution (segment : string) : bool :=
  subst_scan (S (slen segment)) Top segment.

(** * Facts *)

Section Flush.
Lemma flush_app buf k : flush buf k = flush buf [] ++ k.
Proof. unfold flush. by destruct (strip buf). Qed.

Lemma flush_space buf c : is_space c = true → ∀ k, flush (snoc buf c) k = flush buf k.
Proof. intros Hc k. unfold flush, snoc. by rewrite strip_snoc_space. Qed.

Lemma flush_one buf : strip buf ≠ "" → flush buf [] = [strip buf].
Proof. unfold flush. by destruct (strip buf). Qed.
End Flush.

(** Every segment is a piece of the command, stripped and not blank. *)
Definition piece (whole seg : string) : Prop :=
  substring_of seg whole ∧ strip seg = seg ∧ seg ≠ "".

Lemma flush_pieces whole buf parts :
  substring_of buf whole → Forall (piece whole) parts → Forall (piece whole) (flush buf parts).
Proof.
  intros Hb Hp. unfold flush. destruct (strip buf) as [|c s] eqn:E; [done|].
  constructor; [|done]. rewrite <-E. split; [|split].
  - eapply substring_trans; [apply strip_substring|done].
  - apply strip_idem.
  - by rewrite E.
Qed.

Lemma scan_pieces whole : ∀ s m p pre buf,
  whole = pre +:+ buf +:+ s → Forall (piece whole) (scan m p buf s).
Proof.
  intros s. induction s as [|c|c d s IH1 IH2] using string_ind2; intros m p pre buf ->.
  - apply flush_pieces; [|done]. apply substring_mid.
  - cbn [scan shead]. destruct (action m p c None) as [m'|m'| |];
      (apply flush_pieces; [|try constructor]); try apply substring_mid.
    exists pre, "". by rewrite sapp_nil_r.
  - pose proof (λ m p b pre', IH1 m p pre' b) as K1.
    pose proof (λ m p b pre', IH2 m p pre' b) as K2.
    cbn [scan shead]. destruct (action m p c (Some d)) as [m'|m'| |].
    + apply (K2 _ _ _ pre). unfold snoc. by rewrite <-!sapp_assoc.
    + apply (K1 _ _ _ pre). unfold snoc. by rewrite <-!sapp_assoc.
    + apply flush_pieces; [apply substring_mid|].
      apply (K2 _ _ _ (pre +:+ buf +:+ s1 c)). by rewrite <-!sapp_assoc.
    + apply flush_pieces; [apply substring_mid|].
      apply (K1 _ _ _ (pre +:+ buf +:+ s1 c +:+ s1 d)). by rewrite <-!sapp_assoc.
Qed.

Lemma segments_pieces c : Forall (piece c) (split_segments c).
Proof. by apply (scan_pieces c c Top None "" ""). Qed.

(** The quoting mode a text ends in; [None] when it ends in a backslash that
    would quote whatever follows. *)
Fixpoint end_mode (m : qmode) (s : string) : option qmode :=
  match s with
  | "" => Some m
  | String ch rest =>
      match m with
      | InSingle => end_mode (if Ascii.eqb ch SQ then Top else InSingle) rest
      | _ =>
          if Ascii.eqb ch BSL then
            match rest with String _ rest' => end_mode m rest' | "" => None end
          else match m with
               | InDouble => end_mode (if Ascii.eqb ch DQ then Top else InDouble) rest
               | _ => if Ascii.eqb ch SQ then end_mode InSingle rest
                      else if Ascii.eqb ch DQ then end_mode InDouble rest
                      else end_mode Top rest
               end
      end
  end.

(** All quotes are closed and no backslash is pending. *)
Definition closed (s : string) : Prop := end_mode Top s = Some Top.

(** A text whose first character changes nothing about the text before it. *)
Definition neutral_head (u : string) : Prop :=
  match u with
  | "" => True
  | String c _ => redirect_char (Some c) = false ∧ c ≠ "|"%char
  end.

Ltac ascii_case c d :=
  let E := fresh "E" in destruct (Ascii.eqb_spec c d) as [E|E]; [try subst c|].

Lemma neutral_redirect u : neutral_head u → redirect_char (shead u) = false.
Proof. destruct u; [done|]. by intros [? _]. Qed.

(** One turn of the loop, seen from [end_mode]. *)
Lemma action_end_mode m prev c d s :
  end_mode m (String c (String d s)) =
  match action m prev c (Some d) with
  | Keep1 m' => end_mode m' (String d s)
  | Keep2 m' => end_mode m' s
  | Cut1 => end_mode Top (String d s)
  | Cut2 => end_mode Top s
  end.
Proof.
  destruct m; cbn [action present].
  - rewrite andb_true_r. cbn [end_mode].
    ascii_case c BSL; [done|]. ascii_case c SQ; [done|]. ascii_case c DQ; [done|].
    destruct (_ || _); [done|]. unfold is_char.
    ascii_case c "&"%char; [ascii_case d "&"%char; [done|by destruct (_ && _)]|].
    ascii_case c "|"%char; [by ascii_case d "|"%char|done].
  - done.
  - rewrite andb_true_r. cbn [end_mode]. by ascii_case c BSL.
Qed.

Lemma end_mode_one m c :
  end_mode m (String c "") = Some Top →
  ∃ m', m' = Top ∧ ∀ prev,
    (∀ u, neutral_head u → action m prev c (shead u) = Keep1 m') ∨
    (∀ u, neutral_head u → action m prev c (shead u) = Cut1).
Proof.
  intros He. exists Top. split; [done|]. intros prev. destruct m; cbn in *.
  - ascii_case c BSL; [done|]. ascii_case c SQ; [done|]. ascii_case c DQ; [done|].
    cbn. destruct (_ || _); [by right|].
    ascii_case c "&"%char.
    + assert (∀ u, neutral_head u →
        is_char "&" (shead u) = false ∧ redirect_char (shead u) = false) as Hu.
      { intros u Hu. apply neutral_redirect in Hu. split; [|done].
        destruct u as [|d u]; [done|]. cbn in *. by bool_prop. }
      destruct (redirect_char prev); [left|right]; intros u Hn;
        by destruct (Hu u Hn) as [-> ->].
    + ascii_case c "|"%char; [|by left]. right. intros [|d u] Hn; [done|].
      destruct Hn as [_ Hn]. cbn. by ascii_case d "|"%char.
  - ascii_case c SQ; [by left|done].
  - ascii_case c BSL; [done|]. ascii_case c DQ; [by left|done].
Qed.

(** The scan of [a ++ u] is the scan of [a] up to its end, then that of [u]. *)
Lemma scan_app a : ∀ m prev buf, end_mode m a = Some Top →
  ∃ parts prev' buf', ∀ u, neutral_head u →
    scan m prev buf (a +:+ u) = parts ++ scan Top prev' buf' u.
Proof.
  assert (∀ m prev buf, m = Top → ∃ parts prev' buf', ∀ u, neutral_head u →
    scan m prev buf u = parts ++ scan Top prev' buf' u) as Hnil.
  { intros m prev buf ->. by exists [], prev, buf. }
  induction a as [|c|c d s IH1 IH2] using string_ind2; intros m prev buf He.
  - apply Hnil. by injection He.
  - apply end_mode_one in He as (m' & He & Ha). subst m'.
    destruct (Ha prev) as [H|H].
    + exists [], (Some c), (snoc buf c). intros u Hu. cbn [String.append scan].
      by rewrite H by done.
    + exists (flush buf []), (Some c), "". intros u Hu. cbn [String.append scan].
      rewrite H by done. apply flush_app.
  - rewrite (action_end_mode m prev) in He.
    destruct (action m prev c (Some d)) as [m'|m'| |] eqn:Ea.
    + destruct (IH2 m' (Some c) (snoc buf c) He) as (ps & p & b & Hu).
      exists ps, p, b. intros u Hn. rewrite <-Hu by done. cbn. by rewrite Ea.
    + destruct (IH1 m' (Some d) (snoc (snoc buf c) d) He) as (ps & p & b & Hu).
      exists ps, p, b. intros u Hn. rewrite <-Hu by done. cbn. by rewrite Ea.
    + destruct (IH2 Top (Some c) "" He) as (ps & p & b & Hu).
      exists (flush buf ps), p, b. intros u Hn. cbn. rewrite Ea.
      specialize (Hu u Hn). cbn in Hu. rewrite Hu, (flush_app _ (ps ++ _)).
      rewrite (flush_app _ ps). by rewrite <-app_assoc.
    + destruct (IH1 Top (Some d) "" He) as (ps & p & b & Hu).
      exists (flush buf ps), p, b. intros u Hn. cbn. rewrite Ea.
      rewrite Hu by done. rewrite (flush_app _ (ps ++ _)), (flush_app _ ps).
      by rewrite <-app_assoc.
Qed.

(** A leading blank of the buffer is stripped by [flush]. *)
Lemma scan_lead s : ∀ m prev buf,
  scan m prev (String SP buf) s = scan m prev buf s.
Proof.
  induction s as [|c|c d s IH1 IH2] using string_ind2; intros m prev buf.
  - done.
  - cbn. destruct (action m prev c None); try done.
  - cbn [scan]. destruct (action m prev c (shead (String d s))).
    + apply (IH2 _ _ (snoc buf c)).
    + apply (IH1 _ _ (snoc (snoc buf c) d)).
    + by rewrite (flush_app (String SP buf)), (flush_app buf).
    + by rewrite (flush_app (String SP buf)), (flush_app buf).
Qed.

(** Only a redirection character before it makes a scan remember [prev]. *)
Lemma scan_prev p buf s :
  redirect_char p = false → scan Top p buf s = scan Top None buf s.
Proof.
  intros Hp. destruct s as [|c s]; [done|]. cbn [scan].
  assert (action Top p c (shead s) = action Top None c (shead s)) as ->.
  { unfold action. by rewrite Hp. }
  done.
Qed.

(** Evaluate the scan of known characters. *)
Ltac run_scan :=
  cbn [String.append scan shead NLs s1];
  repeat (match goal with
          | |- context [action ?m ?p ?c ?n] =>
              let a := eval vm_compute in (action m p c n) in
              progress change (action m p c n) with a
          end; cbn [scan shead]).

(** The texts that separate commands at top level: the operators the code
    splits on, the two-character and word-like ones between blanks. *)
Definition separators : list string := [";"; NLs; " && "; " || "; " | "; " & "].

Lemma scan_separator sep : sep ∈ separators → ∀ p buf b,
  scan Top p buf (sep +:+ b) = flush buf [] ++ split_segments b.
Proof.
  unfold separators, split_segments. intros Hs p buf b.
  assert (∀ k, flush (snoc buf SP) k = flush buf k) as Hf by by apply flush_space.
  repeat (apply elem_of_cons in Hs as [->|Hs]); [..|by apply elem_of_nil in Hs];
    run_scan; rewrite ?Hf, flush_app; f_equal;
    try change (snoc "" " ") with (String SP ""); rewrite ?scan_lead;
    by apply scan_prev.
Qed.

Lemma neutral_separator sep b : sep ∈ separators → neutral_head (sep +:+ b).
Proof.
  intros Hs. repeat (apply elem_of_cons in Hs as [->|Hs]; [done|]).
  by apply elem_of_nil in Hs.
Qed.

(** A closed text followed by a separator is scanned on its own. *)
Theorem split_segments_app a sep b :
  closed a → sep ∈ separators →
  split_segments (a +:+ sep +:+ b) = split_segments a ++ split_segments b.
Proof.
  intros Ha Hs. destruct (scan_app a Top None "" Ha) as (ps & p & buf & H).
  unfold split_segments at 1. rewrite H by by apply neutral_separator.
  rewrite scan_separator by done. rewrite app_assoc. f_equal.
  unfold split_segments. rewrite <-(sapp_nil_r a), H by done. done.
Qed.

(** ** Quoted text is never split *)

(** The characters that mean nothing to the scanners outside quotes. *)
Definition plain_char (c : ascii) : bool :=
  negb (existsb (Ascii.eqb c) [BSL; SQ; DQ; ";"%char; NL; "&"%char; "|"%char;
                               "$"%char; "`"%char; "<"%char; ">"%char]).
Definition plain : string → bool := sforall plain_char.

Lemma action_plain prev c nxt : plain_char c = true → action Top prev c nxt = Keep1 Top.
Proof.
  unfold plain_char. cbn. intros H. bool_prop. cbn.
  repeat match goal with H : (c =? _)%char = false |- _ => rewrite H; clear H end.
  done.
Qed.

Lemma scan_plain s : ∀ prev buf u, plain s = true → ∃ prev',
  scan Top prev buf (s +:+ u) = scan Top prev' (buf +:+ s) u.
Proof.
  induction s as [|c s IH]; intros prev buf u Hs; [exists prev; by rewrite sapp_nil_r|].
  cbn in Hs. apply andb_true_iff in Hs as [Hc Hs].
  destruct (IH (Some c) (snoc buf c) u Hs) as [p' Hp]. exists p'.
  cbn [String.append scan]. rewrite action_plain, Hp by done.
  unfold snoc. by rewrite sapp_snoc.
Qed.

Lemma scan_single s : ∀ prev buf u, has_char SQ s = false → ∃ prev',
  scan InSingle prev buf (s +:+ u) = scan InSingle prev' (buf +:+ s) u.
Proof.
  induction s as [|c s IH]; intros prev buf u Hs; [exists prev; by rewrite sapp_nil_r|].
  cbn in Hs. apply orb_false_iff in Hs as [Hc Hs].
  destruct (IH (Some c) (snoc buf c) u Hs) as [p' Hp]. exists p'.
  cbn [String.append scan action]. rewrite Ascii.eqb_sym, Hc, Hp.
  unfold snoc. by rewrite sapp_snoc.
Qed.

(** [p 'body' q], with nothing special in [p] and [q]. *)
Definition single_quoted (p body q : string) : string :=
  p +:+ s1 SQ +:+ body +:+ s1 SQ +:+ q.

(** Nothing inside single quotes separates: a command whose only separators are
    quoted is one segment. *)
Theorem split_segments_quoted p body q :
  plain p = true → has_char SQ body = false → plain q = true →
  split_segments (single_quoted p body q) = [strip (single_quoted p body q)].
Proof.
  intros Hp Hb Hq. unfold split_segments, single_quoted.
  destruct (scan_plain p None "" (s1 SQ +:+ body +:+ s1 SQ +:+ q) Hp) as [p1 ->].
  run_scan. edestruct (scan_single body) as [p2 ->]; [done|]. run_scan.
  edestruct (scan_plain q) as [p3 Hs]; [done|]. rewrite sapp_nil_r in Hs. rewrite Hs.
  cbn. unfold snoc. rewrite !sapp_snoc.
  rewrite <-!sapp_assoc. cbn. rewrite flush_one; [done|].
  intros Hn%strip_empty_all. rewrite sforall_app in Hn. cbn in Hn.
  by rewrite andb_false_r in Hn.
Qed.

(** ** Command substitution *)

Lemma skip_ansi_len s : ∀ r, skip_ansi s = Some r → slen r < slen s.
Proof.
  induction s as [|c|c d s IH1 IH2] using string_ind2; intros r; cbn [skip_ansi].
  - done.
  - destruct (Ascii.eqb c SQ); [intros [= <-]; cbn; lia|].
    by destruct (Ascii.eqb c BSL).
  - destruct (Ascii.eqb c SQ); [intros [= <-]; cbn; lia|].
    destruct (Ascii.eqb c BSL); [intros H%IH1|intros H%IH2]; cbn in *; lia.
Qed.

(** The turns left do not matter once they exceed the characters left. *)
Lemma subst_scan_fuel f1 : ∀ f2 m s, slen s < f1 → slen s < f2 →
  subst_scan f1 m s = subst_scan f2 m s.
Proof.
  induction f1 as [|f1 IH]; intros f2 m s H1 H2; [lia|].
  destruct f2 as [|f2]; [lia|]. cbn [subst_scan].
  destruct s as [|c rest]; [done|]. cbn in H1, H2.
  assert (∀ m', subst_scan f1 m' rest = subst_scan f2 m' rest) as Hr
    by (intros; apply IH; lia).
  destruct m; rewrite ?Hr; try done.
  - destruct (Ascii.eqb c BSL), rest as [|d rest']; rewrite ?Hr;
      try (apply IH; cbn in *; lia);
      (destruct (opens "$'" _); [|done]);
      (destruct (skip_ansi _) eqn:E; [|done]); apply skip_ansi_len in E;
      cbn in *; apply IH; cbn in *; lia.
  - destruct (Ascii.eqb c BSL), rest as [|d rest']; rewrite ?Hr; try done.
    apply IH; cbn in *; lia.
Qed.

(** Plain characters are skipped, at top level and inside double quotes. *)
Lemma subst_plain p : ∀ m u, m ≠ InSingle → plain p = true →
  subst_scan (S (slen (p +:+ u))) m (p +:+ u) = subst_scan (S (slen u)) m u.
Proof.
  induction p as [|c p IH]; intros m u Hm Hp; [done|].
  cbn in Hp. apply andb_true_iff in Hp as [Hc Hp].
  rewrite <-(IH m u) by done.
  unfold plain_char in Hc. cbn in Hc. bool_prop.
  assert (∀ t v, opens (String "$" t) (String c v) = false
               ∧ opens (String "<" t) (String c v) = false
               ∧ opens (String ">" t) (String c v) = false) as Ho.
  { intros t v. unfold opens. cbn. rewrite !(Ascii.eqb_sym _ c).
    repeat match goal with H : (c =? _)%char = false |- _ => rewrite H end. done. }
  destruct m; [|done|]; cbn [subst_scan String.append String.length];
    repeat match goal with H : (c =? _)%char = false |- _ => rewrite H end;
    rewrite ?(proj1 (Ho _ _)), ?(proj1 (proj2 (Ho _ _))), ?(proj2 (proj2 (Ho _ _)));
    done.
Qed.

Lemma subst_single body : ∀ u, has_char SQ body = false →
  subst_scan (S (slen (body +:+ u))) InSingle (body +:+ u) =
  subst_scan (S (slen u)) InSingle u.
Proof.
  induction body as [|c body IH]; intros u Hb; [done|].
  cbn in Hb. apply orb_false_iff in Hb as [Hc Hb]. rewrite <-(IH u) by done.
  cbn [subst_scan String.append String.length]. by rewrite Ascii.eqb_sym, Hc.
Qed.

(** Single quotes suppress every expansion. *)
Theorem subst_single_quoted p body q :
  plain p = true → has_char SQ body = false → plain q = true →
  has_command_substitution (single_quoted p body q) = false.
Proof.
  intros Hp Hb Hq. unfold has_command_substitution, single_quoted.
  rewrite subst_plain by done.
  change (subst_scan (S (slen (body +:+ s1 SQ +:+ q))) InSingle (body +:+ s1 SQ +:+ q)
          = false).
  rewrite subst_single by done.
  change (subst_scan (S (slen q)) Top q = false).
  rewrite <-(sapp_nil_r q). by rewrite subst_plain.
Qed.

(** The openers of a nested command; the first two also expand between double
    quotes. *)
Definition dq_openers : list string := ["$("; "`"].
Definition openers : list string := dq_openers ++ ["<("; ">("].

(** A nested command behind plain text is found, at top level and inside
    double quotes, whatever follows it. *)
Theorem subst_detected p w op u :
  plain p = true → plain w = true →
  (op ∈ openers → has_command_substitution (p +:+ op +:+ u) = true) ∧
  (op ∈ dq_openers →
   has_command_substitution (p +:+ s1 DQ +:+ w +:+ op +:+ u) = true).
Proof.
  intros Hp Hw. unfold has_command_substitution, openers, dq_openers. split; intros Ho.
  - rewrite subst_plain by done.
    repeat (apply elem_of_cons in Ho as [->|Ho]; [done|]). by apply elem_of_nil in Ho.
  - rewrite subst_plain by done.
    change (subst_scan (S (slen (w +:+ op +:+ u))) InDouble (w +:+ op +:+ u) = true).
    rewrite subst_plain by done.
    repeat (apply elem_of_cons in Ho as [->|Ho]; [done|]). by apply elem_of_nil in Ho.
Qed.

(** Unterminated quoting fails closed. *)
Theorem subst_unterminated p body q :
  plain p = true → has_char q body = false → q = SQ ∨ q = DQ ∧ plain body = true →
  has_command_substitution (p +:+ s1 q +:+ body) = true.
Proof.
  intros Hp Hb Hq. unfold has_command_substitution. rewrite subst_plain by done.
  destruct Hq as [->|[-> Hq]].
  - change (subst_scan (S (slen body)) InSingle body = true).
    rewrite <-(sapp_nil_r body). by rewrite subst_single.
  - change (subst_scan (S (slen body)) InDouble body = true).
    rewrite <-(sapp_nil_r body). by rewrite subst_plain.
Qed.

(** ** Concrete inputs *)

Lemma split_segments_app_witness :
  split_segments ("cd /tmp" +:+ " && " +:+ "rm -rf 'a;b'") =
    split_segments "cd /tmp" ++ split_segments "rm -rf 'a;b'".
Proof.
  apply (split_segments_app "cd /tmp" " && " "rm -rf 'a;b'");
    [vm_compute; done|apply (bool_decide_unpack _); vm_compute; exact I].
Defined.

Lemma split_segments_quoted_witness :
  split_segments (single_quoted "echo " "a; b && c" "") =
    [strip (single_quoted "echo " "a; b && c" "")].
Proof. apply (split_segments_quoted "echo " "a; b && c" ""); reflexivity. Defined.

Lemma subst_detected_witness :
  ("$(" ∈ openers → has_command_substitution ("echo " +:+ "$(" +:+ "id)") = true) ∧
  ("$(" ∈ dq_openers →
   has_command_substitution ("echo " +:+ s1 DQ +:+ "hi " +:+ "$(" +:+ "id)") = true).
Proof. apply (subst_detected "echo " "hi " "$(" "id)"); reflexivity. Defined.
