(* ===== verification/Shlex.v ===== *)
(** * Python's [shlex]

    The lexer of [shlex.shlex(s, posix=True)] with [whitespace_split] on, as
    the program uses it: [lex] in [command_safety.py] sets
    [punctuation_chars=True] and keeps comments, [shlex.split] does neither.
    With [whitespace_split] on the set [wordchars] changes nothing, and the
    one character the lexer pushes back is read again as the start of the
    next token, so the whole run is one pass over the text. *)

From S2P Require Import Prelude PyStr.

Record config := { cf_punct : ascii → bool; cf_comments : bool }.

(** [punctuation_chars=True]. *)
Definition punct_chars (c : ascii) : bool := one_of "();<>|&" c.
Definition cfg_lex : config := {| cf_punct := punct_chars; cf_comments := true |}.
Definition cfg_split : config := {| cf_punct := λ _, false; cf_comments := false |}.

(** The values of [self.state]: a blank, ['a'], ['c'], a quote, the escape
    character with [escapedstate], and the rest of a comment line. *)
Inductive lstate :=
| LSpace
| LWord
| LPunct
| LQuote (q : ascii)
| LEscape (in_dq : bool)
| LComment.

Definition lx_space (c : ascii) : bool := one_of " " c || Ascii.eqb c TAB
  || Ascii.eqb c CR || Ascii.eqb c NL.
Definition lx_quote (c : ascii) : bool := Ascii.eqb c SQ || Ascii.eqb c DQ.

(** A character read between tokens: the state and token it starts. *)
Definition start (cfg : config) (c : ascii) : lstate * string :=
  if lx_space c then (LSpace, "")
  else if cf_comments cfg && Ascii.eqb c "#" then (LComment, "")
  else if Ascii.eqb c BSL then (LEscape false, "")
  else if cf_punct cfg c then (LPunct, s1 c)
  else if lx_quote c then (LQuote c, "")
  else (LWord, s1 c).

(** [break] with the current token, when there is one. *)
Definition emit (tok : string) (quoted : bool) (k : option (list string)) :
    option (list string) :=
  if negb (tok =? "")%string || quoted then cons tok <$> k else k.

(** [list(lx)]; [None] is the [ValueError] of an unterminated quote or
    escape. *)
Fixpoint lx_run (cfg : config) (st : lstate) (tok : string) (quoted : bool)
    (s : string) : option (list string) :=
  match s with
  | "" =>
      match st with
      | LQuote _ | LEscape _ => None
      | LSpace | LComment => Some []
      | LWord | LPunct => emit tok quoted (Some [])
      end
  | String c s' =>
      let from_start (_ : unit) :=
        let '(st', tok') := start cfg c in lx_run cfg st' tok' false s' in
      match st with
      | LSpace => from_start tt
      | LComment => lx_run cfg (if Ascii.eqb c NL then LSpace else LComment) "" false s'
      | LQuote q =>
          if Ascii.eqb c q then lx_run cfg LWord tok true s'
          else if Ascii.eqb c BSL && Ascii.eqb q DQ
          then lx_run cfg (LEscape true) tok true s'
          else lx_run cfg st (tok +:+ s1 c) true s'
      | LEscape in_dq =>
          let tok' := if in_dq && negb (Ascii.eqb c BSL) && negb (Ascii.eqb c DQ)
                      then tok +:+ s1 BSL else tok in
          lx_run cfg (if in_dq then LQuote DQ else LWord) (tok' +:+ s1 c) quoted s'
      | LWord =>
          if lx_space c then emit tok quoted (lx_run cfg LSpace "" false s')
          else if cf_comments cfg && Ascii.eqb c "#"
          then emit tok quoted (lx_run cfg LComment "" false s')
          else if lx_quote c then lx_run cfg (LQuote c) tok quoted s'
          else if Ascii.eqb c BSL then lx_run cfg (LEscape false) tok quoted s'
          else if cf_punct cfg c then emit tok quoted (from_start tt)
          else lx_run cfg LWord (tok +:+ s1 c) quoted s'
      | LPunct =>
          if lx_space c then emit tok quoted (lx_run cfg LSpace "" false s')
          else if cf_comments cfg && Ascii.eqb c "#"
          then emit tok quoted (lx_run cfg LComment "" false s')
          else if cf_punct cfg c then lx_run cfg LPunct (tok +:+ s1 c) quoted s'
          else emit tok quoted (from_start tt)
      end
  end.

Definition lx_tokens (cfg : config) (s : string) : option (list string) :=
  lx_run cfg LSpace "" false s.

(** [shlex.split(s)]. *)
Definition shlex_split (s : string) : option (list string) := lx_tokens cfg_split s.

(** ** Facts: tokens are no longer than the text *)

Definition total_len (l : list string) : nat := sum_nat (map slen l).

Definition pending (st : lstate) : nat :=
  match st with LEscape _ => 1 | _ => 0 end.

Lemma emit_len tok quoted k n ts :
  (∀ ts', k = Some ts' → total_len ts' ≤ n) →
  emit tok quoted k = Some ts → total_len ts ≤ slen tok + n.
Proof.
  unfold emit. intros Hk. destruct (_ || _).
  - intros (ts' & E & ->)%fmap_Some. cbn. specialize (Hk ts' E).
    unfold total_len in *. cbn. lia.
  - intros H%Hk. lia.
Qed.

Lemma start_len cfg c st tok : start cfg c = (st, tok) → slen tok + pending st ≤ 1.
Proof.
  unfold start. repeat case_match; intros [= <- <-]; cbn; lia.
Qed.

Lemma lx_run_len cfg s : ∀ st tok quoted ts,
  lx_run cfg st tok quoted s = Some ts →
  total_len ts ≤ slen tok + pending st + slen s.
Proof.
  induction s as [|c s IH]; intros st tok quoted ts; cbn [lx_run].
  - destruct st; intros H; simplify_eq; cbn; try lia;
      apply (emit_len _ _ _ 0) in H; try lia; by intros ? [= <-].
  - assert (∀ ts', (let '(st', tok') := start cfg c in lx_run cfg st' tok' false s)
                   = Some ts' → total_len ts' ≤ S (slen s)) as Hstart.
    { intros ts'. destruct (start cfg c) as [st' tok'] eqn:E. intros H%IH.
      apply start_len in E. lia. }
    assert (∀ st' ts', st' = LSpace ∨ st' = LComment →
       lx_run cfg st' "" false s = Some ts' → total_len ts' ≤ slen s) as Hnew.
    { intros st' ts' Hst H%IH. by destruct Hst; subst. }
    assert (slen (String c s) = S (slen s)) as -> by done.
    destruct st; repeat case_match; intros Hr;
      first [ apply Hstart in Hr; cbn; lia
            | apply (emit_len _ _ _ _ _ Hstart) in Hr; cbn; lia
            | apply (emit_len _ _ _ (slen s)) in Hr; [cbn; lia|eauto]
            | apply IH in Hr; rewrite ?slen_app in Hr; cbn in *; lia ].
Qed.

Lemma lx_tokens_len cfg s ts : lx_tokens cfg s = Some ts → total_len ts ≤ slen s.
Proof. intros H%lx_run_len. cbn in H. lia. Qed.

Lemma total_len_lookup l i j a b :
  l !! i = Some a → l !! j = Some b → i ≠ j → slen a + slen b ≤ total_len l.
Proof.
  unfold total_len. revert i j. induction l as [|x l IH]; intros i j Hi Hj Hne; [done|].
  assert (∀ k y, l !! k = Some y → slen y ≤ sum_nat (map slen l)) as Hin.
  { clear. induction l as [|z l IH]; intros k y Hk; [done|].
    destruct k as [|k]; cbn in Hk; [injection Hk as ->; cbn; lia|].
    apply IH in Hk. cbn. lia. }
  destruct i as [|i], j as [|j]; cbn in *; simplify_eq.
  - apply Hin in Hj. lia.
  - apply Hin in Hi. lia.
  - assert (i ≠ j) as Hij by congruence. specialize (IH i j Hi Hj Hij). lia.
Qed.
