(* ===== verification/CommandSafety.v ===== *)
(** * The argv-structural classifier: [horizon/guardrails/command_safety.py]

    [lex] and [_segments_with_pipe] turn a command into argument vectors,
    [_effective] strips assignments and launchers, [_segment_verdict] and
    [classify] give the coarse verdict: deny, ask, or no opinion. *)

From S2P Require Import Prelude PyStr Names Regex CommandClassify Shlex.

(** ** The module's tables *)

Definition _CONTROL_OPS : list string := ["|"; "||"; "&&"; ";"; "&"].
Definition _PIPE_OPS : list string := ["|"; "||"].
Definition _LAUNCHERS : list string :=
  ["command"; "nice"; "nohup"; "stdbuf"; "setsid"; "ionice"; "xargs"; "timeout"].
Definition _SHELL_C_FLAG : regex := re_of "^-[a-z]*c[a-z]*$".
Definition _LAUNCHER_VALUE_FLAGS : list (string * list string) :=
  [("timeout", ["-s"; "--signal"; "-k"; "--kill-after"]);
   ("nice", ["-n"; "--adjustment"]);
   ("ionice", ["-c"; "-n"; "-p"; "-P"; "-u"; "--class"; "--classdata"; "--pid"]);
   ("stdbuf", ["-i"; "-o"; "-e"; "--input"; "--output"; "--error"]);
   ("xargs", ["-I"; "-i"; "-d"; "--delimiter"; "-E"; "-e"; "--eof"; "-n";
              "--max-args"; "-L"; "-l"; "--max-lines"; "-P"; "--max-procs"; "-s";
              "--max-chars"; "--replace"])].
Definition _DANGEROUS_RM_TARGETS : list string :=
  ["/"; "~"; "$HOME"; "/etc"; "/usr"; "/bin"; "/sbin"; "/lib"; "/lib64"; "/boot";
   "/sys"; "/proc"; "/dev"; "/var"; "/root"; "/home"; "/Users"].
Definition _HOME_CONTAINERS : list string := ["/home"; "/Users"].
Definition _DANGEROUS_RM_PREFIXES : list string :=
  ["/etc"; "/usr"; "/bin"; "/sbin"; "/lib"; "/lib64"; "/boot"; "/sys"; "/proc";
   "/dev"; "/var"; "/root"].
Definition _FIND_DESTRUCTIVE : list string :=
  ["-delete"; "-exec"; "-execdir"; "-ok"; "-okdir"; "-fls"; "-fprint"; "-fprint0"].
Definition _PIPE_INTERPRETERS : list string :=
  ["sh"; "bash"; "zsh"; "python"; "python3"; "perl"; "ruby"; "node"; "php"].
Definition _CLOUD_DELETE : list (string * list string) :=
  [("bq", ["rm"]); ("gcloud", ["delete"; "rm"]); ("gsutil", ["rm"]);
   ("kubectl", ["delete"]); ("terraform", ["destroy"]);
   ("docker", ["rm"; "rmi"; "prune"]); ("gws", ["delete"])].
Definition _GIT_VALUE_FLAGS : list string :=
  ["-C"; "-c"; "--git-dir"; "--work-tree"; "--namespace"; "--super-prefix"].
Definition _GIT_GATED_SUBCOMMANDS : list string :=
  ["push"; "reset"; "clean"; "filter-branch"; "filter-repo"].

(** ** Verdicts *)

Inductive tier := Deny | Ask.
#[global] Instance tier_eq_dec : EqDecision tier.
Proof. solve_decision. Defined.
Definition tier_name (t : tier) : string := match t with Deny => "deny" | Ask => "ask" end.
Definition verdict : Type := tier * string.

Definition is_flag (t : string) : bool := startswith "-" t.
#[global] Arguments is_flag : simpl never.
Definition flags_of (args : list string) : list string := List.filter is_flag args.
Definition non_flags (args : list string) : list string :=
  List.filter (λ t, negb (is_flag t)) args.
(** [[t[1:] for t in args if t.startswith("-") and not t.startswith("--")]] *)
Definition short_flags (args : list string) : list string :=
  map (sdrop 1) (List.filter (λ t, is_flag t && negb (startswith "--" t)) args).

(** ** git *)

Fixpoint git_walk (args : list string) : list string :=
  match args with
  | [] => []
  | tok :: rest =>
      if mem tok _GIT_VALUE_FLAGS then
        match rest with _ :: rest' => git_walk rest' | [] => [] end
      else if is_flag tok then git_walk rest
      else tok :: git_walk rest
  end.
Definition _git_positionals (argv : list string) : list string := git_walk (tail argv).

Definition _git_verdict (argv : list string) : option verdict :=
  let positionals := _git_positionals argv in
  match first_such (λ t, mem t _GIT_GATED_SUBCOMMANDS) positionals with
  | None => None
  | Some sub =>
      let flags := flags_of (tail argv) in
      if (sub =? "push")%string then
        if existsb (λ f, mem f ["-f"; "--force"] || startswith "--force-with-lease" f) flags
        then Some (Ask, "git force-push rewrites remote history")
        else if existsb (λ f, mem f ["--delete"; "-d"; "--mirror"]) flags
        then Some (Ask, "git push deletes or mirrors a remote ref")
        else if existsb (startswith "+") positionals
        then Some (Ask, "git force-push via +refspec rewrites remote history")
        else None
      else if (sub =? "reset")%string && mem "--hard" flags
      then Some (Ask, "git reset --hard discards changes")
      else if (sub =? "clean")%string then
        let short := map (sdrop 1) (List.filter (λ f, negb (startswith "--" f)) flags) in
        if mem "--force" flags || existsb (contains "f") short
        then Some (Ask, "git clean deletes untracked files")
        else None
      else if mem sub ["filter-branch"; "filter-repo"]
      then Some (Ask, "git history rewrite")
      else None
  end.

(** ** From a command to its segments *)

Definition lex (command : string) : option (list string) := lx_tokens cfg_lex command.

(** The loop of [_split_tokens]: [cur] and [cur_is_pipe_target]. *)
Fixpoint split_tokens_from (cur : list string) (pipe : bool) (tokens : list string) :
    list (list string * bool) :=
  match tokens with
  | [] => match cur with [] => [] | _ => [(cur, pipe)] end
  | tok :: ts =>
      if mem tok _CONTROL_OPS then
        match cur with
        | [] => split_tokens_from [] (mem tok _PIPE_OPS) ts
        | _ => (cur, pipe) :: split_tokens_from [] (mem tok _PIPE_OPS) ts
        end
      else split_tokens_from (cur ++ [tok]) pipe ts
  end.
Definition _split_tokens (tokens : list string) : list (list string * bool) :=
  split_tokens_from [] false tokens.

Definition basename (path : string) : string := after_last "/" path.

Definition is_c_flag (t : string) : bool :=
  match re_match noflags _SHELL_C_FLAG t with Some _ => true | None => false end.

(** The index of the first token satisfying a test. *)
Fixpoint index_such (p : string → bool) (l : list string) : option nat :=
  match l with
  | [] => None
  | x :: l' => if p x then Some 0 else S <$> index_such p l'
  end.

(** The argument of a [bash -c]-shaped token list, on which the code recurses. *)
Definition shell_c_arg (toks : list string) : option string :=
  match toks with
  | t0 :: _ =>
      if (3 <=? length toks) && mem (basename t0) ["bash"; "sh"; "zsh"] then
        match index_such is_c_flag toks with
        | Some ci => toks !! S ci
        | None => None
        end
      else None
  | [] => None
  end.

(** The fallback when the command does not lex: unparseable pieces are
    dropped. *)
Definition fallback_segments (inner : string) : list (list string * bool) :=
  let pieces := match split_segments inner with [] => [inner] | ps => ps end in
  omap (λ seg, (λ argv, (argv, false)) <$> shlex_split seg) pieces.

(** [_segments_with_pipe], with the recursion bounded by [fuel]; [None] when
    the bound is reached. *)
Fixpoint segments_fuel (fuel : nat) (command : string) :
    option (list (list string * bool)) :=
  match fuel with
  | 0 => None
  | S f =>
      let inner := strip_wrapper command in
      match lex inner with
      | None => Some (fallback_segments inner)
      | Some toks =>
          match shell_c_arg toks with
          | Some arg => segments_fuel f arg
          | None => Some (_split_tokens toks)
          end
      end
  end.
Definition _segments_with_pipe (command : string) : list (list string * bool) :=
  default [] (segments_fuel (S (slen command)) command).

Definition segments (command : string) : list (list string) :=
  map fst (_segments_with_pipe command).

(** ** The effective argument vector *)

Fixpoint skip_flags (l : list string) : list string :=
  match l with
  | t :: l' => if is_flag t then skip_flags l' else l
  | [] => []
  end.

(** [cur.lstrip("+-").isdigit()] *)
Definition numeric_positional (t : string) : bool :=
  let d := lstrip (one_of "+-") t in negb (d =? "")%string && sforall is_digit d.

(** The loop over a launcher's own options. *)
Fixpoint skip_launcher (value_flags : list string) (l : list string) : list string :=
  match l with
  | [] => []
  | cur :: rest =>
      if is_flag cur then
        if has_char "=" cur then skip_launcher value_flags rest
        else if mem cur value_flags then
          match rest with _ :: rest' => skip_launcher value_flags rest' | [] => [] end
        else skip_launcher value_flags rest
      else if numeric_positional cur then skip_launcher value_flags rest
      else l
  end.

Definition is_assignment (tok : string) : bool :=
  has_char "=" tok && negb (is_flag tok) && negb (has_char "/" (before_first "=" tok)).

(** What the outer loop does with the next token: where it continues and
    whether it saw an escalation; [None] when it stops. *)
Definition unwrap (argv : list string) : option (list string * bool) :=
  match argv with
  | [] => None
  | tok :: rest =>
      if is_assignment tok then Some (rest, false)
      else
        let base := basename tok in
        if mem base ["sudo"; "doas"] then Some (skip_flags rest, true)
        else if (base =? "env")%string then Some (rest, false)
        else if mem base _LAUNCHERS then
          Some (skip_launcher (default [] (table_get _LAUNCHER_VALUE_FLAGS base)) rest, false)
        else None
  end.

Fixpoint effective_fuel (fuel : nat) (argv : list string) (escalated : bool) :
    list string * bool :=
  match fuel with
  | 0 => (argv, escalated)
  | S f =>
      match unwrap argv with
      | Some (rest, esc) => effective_fuel f rest (escalated || esc)
      | None => (argv, escalated)
      end
  end.
Definition _effective (argv : list string) : list string * bool :=
  effective_fuel (length argv) argv false.

(** ** Verdict of a segment *)

Definition _is_user_home_root (t : string) : bool :=
  match split_on "/" t with
  | [_; b; c] => mem ("/" +:+ b) _HOME_CONTAINERS && negb (c =? "")%string
  | _ => false
  end.

Definition _dangerous_target (t : string) : bool :=
  let trimmed := rstrip (one_of "/*") t in
  if (t =? "/*")%string || mem t _DANGEROUS_RM_TARGETS
     || mem trimmed _DANGEROUS_RM_TARGETS || _is_user_home_root trimmed
  then true
  else existsb (λ p, (t =? p)%string || startswith (p +:+ "/") t) _DANGEROUS_RM_PREFIXES.

Definition has_recursive (argv : list string) : bool :=
  mem "--recursive" argv || existsb (λ f, contains "r" (lower f)) (short_flags (tail argv)).
Definition has_force (argv : list string) : bool :=
  mem "--force" argv || existsb (λ f, contains "f" (lower f)) (short_flags (tail argv)).

Definition deny_rm : verdict := (Deny, "recursive force-delete of a system/home root").

Definition _rm_verdict (argv : list string) : option verdict :=
  if negb (has_recursive argv && has_force argv) then None
  else
    let targets := non_flags (tail argv) in
    if existsb _dangerous_target targets then Some deny_rm
    else if existsb (λ t, mem t ["."; "./"; ".."; "../"; "*"]) targets
    then Some (Ask, "recursive force-delete of the working directory or a glob")
    else None.

(** The branches after [rm], [find] and [git]. *)
Definition late_verdict (binary : string) (args : list string) (escalated : bool) :
    option verdict :=
  let recursive := mem "--recursive" args
                   || existsb (λ f, contains "r" (lower f)) (short_flags args) in
  if mem binary ["chmod"; "chown"] && recursive
     && existsb _dangerous_target (non_flags args)
  then Some (Ask, "recursive " +:+ binary +:+ " on a system/home root")
  else if (binary =? "mv")%string
          && existsb (λ t, (t =? "/dev/null")%string || startswith "/dev/null/" t)
               (non_flags args)
  then Some (Ask, "mv into /dev/null destroys data")
  else if match table_get _CLOUD_DELETE binary with
          | Some verbs => existsb (λ t, mem t verbs) (non_flags args)
          | None => false
          end
  then Some (Ask, binary +:+ " destructive delete")
  else if mem binary ["sudo"; "su"]
  then Some (Ask, "privilege escalation via " +:+ binary)
  else if escalated then Some (Ask, "privilege escalation")
  else None.

Definition or_else {A} (o : option A) (k : option A) : option A :=
  match o with Some x => Some x | None => k end.

Definition _segment_verdict (argv : list string) (is_pipe_target : bool) : option verdict :=
  match argv with
  | [] => None
  | _ =>
      let '(eff, escalated) := _effective argv in
      match eff with
      | [] => None
      | e0 :: args =>
          let binary := basename e0 in
          if is_pipe_target && mem binary _PIPE_INTERPRETERS
          then Some (Ask, "piping into an interpreter")
          else
            or_else (if (binary =? "rm")%string then _rm_verdict eff else None)
              (if (binary =? "find")%string && existsb (λ t, mem t _FIND_DESTRUCTIVE) args
               then Some (Ask, "find with a side-effecting action")
               else or_else (if (binary =? "git")%string then _git_verdict eff else None)
                      (late_verdict binary args escalated))
      end
  end.

(** The loop of [classify]: the first deny, else the last ask. *)
Fixpoint strongest (segs : list (list string * bool)) (acc : option verdict) :
    option verdict :=
  match segs with
  | [] => acc
  | (argv, pipe) :: rest =>
      match _segment_verdict argv pipe with
      | None => strongest rest acc
      | Some v => match v.1 with Deny => Some v | Ask => strongest rest (Some v) end
      end
  end.

Definition unparseable : verdict := (Ask, "command could not be parsed").

Definition classify (command : string) : option verdict :=
  if match lex (strip_wrapper command), segments command with
     | None, [] => true | _, _ => false end
  then Some unparseable
  else match _segments_with_pipe command with
       | [] => Some unparseable
       | segs => strongest segs None
       end.

(** * Facts *)

(** ** The recursion of [_segments_with_pipe] ends *)

Lemma strip_wrapper_len c : slen (strip_wrapper c) ≤ slen c.
Proof.
  unfold strip_wrapper. destruct (re_match _ _ _) as [m|] eqn:E; [|apply strip_len].
  etransitivity; [apply strip_len|]. etransitivity; [|apply (strip_len is_space)].
  destruct (group 2 m) as [t|] eqn:Eg; cbn; [|lia].
  by eapply re_match_group_len.
Qed.

Lemma shell_c_arg_shorter toks arg :
  shell_c_arg toks = Some arg → S (slen arg) ≤ total_len toks.
Proof.
  unfold shell_c_arg. destruct toks as [|t0 toks]; [done|].
  destruct (_ && _) eqn:Hc; [|done]. bool_prop.
  destruct (index_such _ _) as [ci|]; [|done]. intros Hl.
  assert (t0 ≠ "") as Hne by by intros ->.
  pose proof (total_len_lookup (t0 :: toks) 0 (S ci) t0 arg eq_refl Hl ltac:(lia)) as Hlen.
  assert (slen t0 ≠ 0) by by rewrite slen_0. lia.
Qed.

Lemma segments_fuel_some f : ∀ c, slen c < f → is_Some (segments_fuel f c).
Proof.
  induction f as [|f IH]; intros c Hc; [lia|]. cbn [segments_fuel].
  destruct (lex _) as [toks|] eqn:El; [|done].
  destruct (shell_c_arg toks) as [arg|] eqn:Ea; [|done].
  apply IH. apply shell_c_arg_shorter in Ea. apply lx_tokens_len in El.
  pose proof (strip_wrapper_len c). lia.
Qed.

Lemma segments_fuel_mono f g c segs :
  segments_fuel f c = Some segs → f ≤ g → segments_fuel g c = Some segs.
Proof.
  revert g c. induction f as [|f IH]; intros [|g] c H Hg; try done; [lia|].
  cbn [segments_fuel] in *. destruct (lex _) as [toks|]; [|done].
  destruct (shell_c_arg toks); [|done]. apply IH; [done|lia].
Qed.

(** ** [_effective] *)

Lemma skip_flags_len l : length (skip_flags l) ≤ length l.
Proof. induction l as [|t l IH]; cbn; [done|]. destruct (is_flag t); cbn [length]; lia. Qed.

Lemma skip_launcher_len vf l : length (skip_launcher vf l) ≤ length l.
Proof.
  assert (∀ n l, length l ≤ n → length (skip_launcher vf l) ≤ length l) as H;
    [|by apply (H (length l))].
  induction n as [|n IH]; intros [|t l'] Hl; cbn [skip_launcher length] in *; try lia.
  repeat case_match; subst; cbn [length] in *; try lia;
    match goal with |- context [skip_launcher vf ?x] => specialize (IH x ltac:(lia)) end;
    lia.
Qed.

Lemma unwrap_len argv rest esc : unwrap argv = Some (rest, esc) → length rest < length argv.
Proof.
  unfold unwrap. destruct argv as [|tok l]; [done|].
  pose proof (skip_flags_len l) as H1. pose proof (λ vf, skip_launcher_len vf l) as H2.
  cbn [length]. repeat case_match; intros [= <- <-]; try lia;
  match goal with |- context [skip_launcher ?vf _] => specialize (H2 vf) end; lia.
Qed.

Lemma effective_fuel_enough f : ∀ g argv esc,
  length argv ≤ f → length argv ≤ g →
  effective_fuel f argv esc = effective_fuel g argv esc.
Proof.
  induction f as [|f IH]; intros g argv esc Hf Hg.
  - destruct argv; [|cbn in Hf; lia]. by destruct g.
  - destruct g as [|g].
    + destruct argv; [done|cbn in Hg; lia].
    + cbn. destruct (unwrap argv) as [[rest e]|] eqn:E; [|done].
      apply unwrap_len in E. apply IH; lia.
Qed.

Lemma effective_fst f argv e1 e2 :
  (effective_fuel f argv e1).1 = (effective_fuel f argv e2).1.
Proof.
  revert argv e1 e2. induction f as [|f IH]; intros; cbn; [done|].
  destruct (unwrap argv) as [[]|]; [apply IH|done].
Qed.

(** One turn of the outer loop: the vector it continues with has the same
    effective vector. *)
Lemma effective_unwrap argv rest esc :
  unwrap argv = Some (rest, esc) → (_effective argv).1 = (_effective rest).1.
Proof.
  intros H. unfold _effective. pose proof (unwrap_len _ _ _ H) as Hl.
  destruct argv as [|t l]; [done|]. cbn [length effective_fuel] in *. rewrite H.
  rewrite (effective_fuel_enough _ (length rest)) by lia. apply effective_fst.
Qed.

Lemma effective_stop argv : unwrap argv = None → _effective argv = (argv, false).
Proof. intros H. unfold _effective. destruct argv; cbn [length effective_fuel]; by rewrite ?H. Qed.

(** A word no launcher takes for one of its own options. *)
Definition command_word (tok : string) : bool :=
  negb (is_flag tok) && negb (numeric_positional tok).

(** The words the classifier looks through: assignments, [sudo], [doas],
    [env] and the launchers. *)
Definition wraps (tok : string) : bool :=
  command_word tok
  && (is_assignment tok || mem (basename tok) (["sudo"; "doas"; "env"] ++ _LAUNCHERS)).

Lemma unwrap_wrapper w h t :
  wraps w = true → command_word h = true →
  ∃ esc, unwrap (w :: h :: t) = Some (h :: t, esc).
Proof.
  unfold wraps, command_word. intros Hw Hh. bool_prop.
  assert (skip_flags (h :: t) = h :: t) as Hsf by by (cbn; destruct (is_flag h)).
  assert (∀ vf, skip_launcher vf (h :: t) = h :: t) as Hsl.
  { intros vf. cbn. destruct (is_flag h); [done|]. by destruct (numeric_positional h). }
  unfold unwrap. rewrite Hsf, Hsl. destruct (is_assignment w); [eauto|].
  destruct (mem _ ["sudo"; "doas"]) eqn:E1; [eauto|].
  destruct (_ =? "env")%string eqn:E2; [eauto|].
  destruct (mem _ _LAUNCHERS) eqn:E3; [eauto|].
  assert (∀ b, mem b (["sudo"; "doas"; "env"] ++ _LAUNCHERS)
    = mem b ["sudo"; "doas"] || ((b =? "env")%string || mem b _LAUNCHERS)) as Hm.
  { intros b. unfold mem. rewrite existsb_app. cbn.
    by rewrite !orb_false_r, <-!orb_assoc. }
  rewrite Hm, E1, E2, E3 in *. naive_solver.
Qed.

Lemma effective_wrappers ws h t :
  forallb wraps ws = true → command_word h = true →
  (_effective (ws ++ h :: t)).1 = (_effective (h :: t)).1.
Proof.
  induction ws as [|w ws IH]; intros Hws Hh; [done|].
  cbn in Hws. apply andb_true_iff in Hws as [Hw Hws].
  rewrite <-IH by done. cbn [app].
  assert (∃ h' t', ws ++ h :: t = h' :: t' ∧ command_word h' = true) as (h' & t' & E & Hh').
  { destruct ws as [|w' ws]; [by exists h, t|]. exists w', (ws ++ h :: t).
    cbn in Hws. unfold wraps in Hws. bool_prop. done. }
  rewrite E. destruct (unwrap_wrapper w h' t' Hw Hh') as [esc Hu].
  by eapply effective_unwrap.
Qed.

(** ** Which segments are denied *)

(** The effective vector is a recursive force-delete of a dangerous target. *)
Definition catastrophic_rm (eff : list string) : Prop :=
  ∃ e0 args, eff = e0 :: args ∧ basename e0 = "rm" ∧
    has_recursive eff = true ∧ has_force eff = true ∧
    ∃ t, t ∈ non_flags args ∧ _dangerous_target t = true.

Lemma late_verdict_ask b args esc v : late_verdict b args esc = Some v → v.1 = Ask.
Proof. unfold late_verdict. repeat case_match; intros; by simplify_eq. Qed.

Lemma git_verdict_ask argv v : _git_verdict argv = Some v → v.1 = Ask.
Proof. unfold _git_verdict. repeat case_match; intros; by simplify_eq. Qed.

Lemma rm_verdict_deny e0 args v :
  _rm_verdict (e0 :: args) = Some v → v.1 = Deny →
  has_recursive (e0 :: args) = true ∧ has_force (e0 :: args) = true ∧
  v = deny_rm ∧ ∃ t, t ∈ non_flags args ∧ _dangerous_target t = true.
Proof.
  unfold _rm_verdict. destruct (negb _) eqn:Hc; [done|]. bool_prop. cbn [tail].
  destruct (existsb _dangerous_target _) eqn:Hd.
  - intros [= <-] _. apply existsb_elem in Hd. done.
  - case_match; [by intros [= <-]|done].
Qed.

Lemma segment_verdict_deny argv pipe v :
  _segment_verdict argv pipe = Some v → v.1 = Deny →
  v = deny_rm ∧ catastrophic_rm (_effective argv).1.
Proof.
  unfold _segment_verdict. destruct argv as [|a0 argv]; [done|].
  destruct (_effective (a0 :: argv)) as [eff esc]; cbn [fst].
  destruct eff as [|e0 args]; [done|].
  destruct (pipe && _); [by intros [= <-]|].
  unfold or_else. destruct (basename e0 =? "rm")%string eqn:Erm; bool_prop.
  - destruct (_rm_verdict (e0 :: args)) as [v'|] eqn:Ev.
    + intros [= <-] Hd. destruct (rm_verdict_deny _ _ _ Ev Hd) as (? & ? & -> & ?).
      split; [done|]. by exists e0, args.
    + rewrite Erm. cbn. intros Hv%late_verdict_ask Hd. congruence.
  - destruct (_ && _); [by intros [= <-]|].
    destruct (if (_ =? "git")%string then _ else _) as [v'|] eqn:Eg.
    + destruct (_ =? "git")%string; [|done]. intros [= <-].
      apply git_verdict_ask in Eg. congruence.
    + intros Hv%late_verdict_ask. congruence.
Qed.

Lemma segment_verdict_catastrophic argv pipe :
  catastrophic_rm (_effective argv).1 → _segment_verdict argv pipe = Some deny_rm.
Proof.
  intros (e0 & args & He & Hb & Hr & Hf & Ht). unfold _segment_verdict.
  destruct argv as [|a0 argv]; [done|].
  destruct (_effective (a0 :: argv)) as [eff esc]; cbn [fst] in *. subst eff.
  rewrite Hb. change (mem "rm" _PIPE_INTERPRETERS) with false. rewrite andb_false_r.
  change ("rm" =? "rm")%string with true. cbn iota. unfold _rm_verdict.
  rewrite Hr, Hf. cbn [andb negb tail].
  by rewrite (proj2 (existsb_elem _ _) Ht).
Qed.

Lemma segment_verdict_deny_iff argv pipe :
  _segment_verdict argv pipe = Some deny_rm ↔ catastrophic_rm (_effective argv).1.
Proof.
  split; [|apply segment_verdict_catastrophic].
  intros H. by destruct (segment_verdict_deny _ _ _ H).
Qed.

(** ** The verdict of a list of segments *)

Lemma strongest_deny segs acc v :
  (∀ a, acc = Some a → a.1 = Ask) →
  strongest segs acc = Some v → v.1 = Deny →
  ∃ argv pipe, (argv, pipe) ∈ segs ∧ _segment_verdict argv pipe = Some v.
Proof.
  revert acc. induction segs as [|[argv pipe] segs IH]; intros acc Hacc; cbn.
  { intros ->%Hacc. done. }
  destruct (_segment_verdict argv pipe) as [w|] eqn:Ew.
  - destruct w.1 eqn:Ew1.
    + intros [= <-] _. exists argv, pipe. split; [left|done].
    + intros Hs Hd. destruct (IH (Some w)) as (a & p & Hin & Hv); try done.
      { by intros ? [= <-]. }
      exists a, p. split; [by right|done].
  - intros Hs Hd. destruct (IH acc) as (a & p & Hin & Hv); try done.
    exists a, p. split; [by right|done].
Qed.

Lemma strongest_has_deny segs acc argv pipe v :
  (argv, pipe) ∈ segs → _segment_verdict argv pipe = Some v → v.1 = Deny →
  ∃ w, strongest segs acc = Some w ∧ w.1 = Deny.
Proof.
  revert acc. induction segs as [|[a p] segs IH]; intros acc Hin Hv Hd.
  { by apply elem_of_nil in Hin. }
  cbn. apply elem_of_cons in Hin as [[= <- <-]|Hin].
  - rewrite Hv, Hd. by exists v.
  - destruct (_segment_verdict a p) as [w|]; [|by apply IH].
    destruct w.1 eqn:E; [by exists w|by apply IH].
Qed.

Lemma strongest_none segs acc :
  strongest segs acc = None ↔
  acc = None ∧ ∀ argv pipe, (argv, pipe) ∈ segs → _segment_verdict argv pipe = None.
Proof.
  revert acc. induction segs as [|[a p] segs IH]; intros acc; cbn.
  { split; [|by intros []]. intros ->. split; [done|]. intros ? ? H. by apply elem_of_nil in H. }
  destruct (_segment_verdict a p) as [w|] eqn:Ew.
  - split.
    + destruct w.1; [done|]. intros [? _]%IH. done.
    + intros [_ H]. specialize (H a p (list_elem_of_here _ _)). congruence.
  - rewrite IH. split; intros [-> H]; (split; [done|]); intros b q.
    + intros [[= -> ->]|Hin]%elem_of_cons; [done|by apply H].
    + intros Hin. apply H. by right.
Qed.

Lemma classify_cases c :
  classify c = Some unparseable ∨
  (_segments_with_pipe c ≠ [] ∧ classify c = strongest (_segments_with_pipe c) None).
Proof.
  unfold classify. destruct (match lex _ with Some _ => false | None => _ end); [by left|].
  destruct (_segments_with_pipe c) eqn:E; [by left|]. right. by split.
Qed.

(** ** Theorems *)

(** The recursion through [bash -c] always ends, and any larger bound gives
    the same segments. *)
Theorem segments_with_pipe_total c :
  ∃ segs, _segments_with_pipe c = segs ∧
    ∀ f, slen c < f → segments_fuel f c = Some segs.
Proof.
  destruct (segments_fuel_some (S (slen c)) c ltac:(lia)) as [segs Hs].
  exists segs. unfold _segments_with_pipe. rewrite Hs. split; [done|].
  intros f Hf. eapply segments_fuel_mono; [done|lia].
Qed.

(** C5. [classify] denies exactly the commands with a segment whose effective
    vector is a recursive force-delete of a dangerous target. *)
Theorem classify_deny_iff c :
  (∃ why, classify c = Some (Deny, why)) ↔
  ∃ argv pipe, (argv, pipe) ∈ _segments_with_pipe c ∧ catastrophic_rm (_effective argv).1.
Proof.
  split.
  - intros [why Hc]. destruct (classify_cases c) as [Hu|[_ Hs]]; [by rewrite Hc in Hu|].
    rewrite Hc in Hs. symmetry in Hs.
    destruct (strongest_deny _ None _ ltac:(done) Hs eq_refl) as (argv & pipe & Hin & Hv).
    exists argv, pipe. split; [done|]. by eapply segment_verdict_deny.
  - intros (argv & pipe & Hin & Hcat).
    apply (segment_verdict_catastrophic argv pipe) in Hcat.
    destruct (strongest_has_deny _ None _ _ _ Hin Hcat eq_refl) as ([t why] & Hs & Ht).
    cbn in Ht. subst t. exists why.
    unfold classify, segments. destruct (_segments_with_pipe c) as [|seg segs].
    + by apply elem_of_nil in Hin.
    + rewrite Hs. by destruct (lex _).
Qed.

(** No opinion means: some segment was found, and none has a verdict. *)
Theorem classify_none_iff c :
  classify c = None ↔
  _segments_with_pipe c ≠ [] ∧
  ∀ argv pipe, (argv, pipe) ∈ _segments_with_pipe c → _segment_verdict argv pipe = None.
Proof.
  split.
  - intros Hc. destruct (classify_cases c) as [Hu|[Hne Hs]]; [by rewrite Hc in Hu|].
    rewrite Hc in Hs. symmetry in Hs. apply strongest_none in Hs as [_ H]. done.
  - intros [Hne H]. unfold classify, segments.
    assert (strongest (_segments_with_pipe c) None = None) as Hs
      by (by apply strongest_none).
    destruct (_segments_with_pipe c); [done|]. rewrite Hs. by destruct (lex _).
Qed.

(** Assignments, [sudo], [doas], [env] and launchers in front of a command,
    in any number and order, do not change whether it is denied. *)
Theorem wrappers_transparent ws h t pipe pipe' :
  forallb wraps ws = true → command_word h = true →
  _segment_verdict (ws ++ h :: t) pipe = Some deny_rm ↔
  _segment_verdict (h :: t) pipe' = Some deny_rm.
Proof.
  intros Hws Hh. rewrite !segment_verdict_deny_iff. by rewrite effective_wrappers.
Qed.

(** ** What the lexer of the classifier does not see *)

(** The lexer state after plain text. *)
Definition lex_plain (c : ascii) : bool := plain_char c && negb (Ascii.eqb c "#")
  && negb (punct_chars c).

Lemma lex_plain_spec c : lex_plain c = true →
  (c =? BSL)%char = false ∧ lx_quote c = false ∧ (c =? "#")%char = false ∧
  punct_chars c = false.
Proof.
  unfold lex_plain. intros [[Hc Hh]%andb_true_iff Hp]%andb_true_iff.
  apply negb_true_iff in Hp, Hh. rewrite Hp, Hh. unfold plain_char in Hc. cbn in Hc.
  bool_prop. unfold lx_quote.
  by repeat match goal with H : (c =? _)%char = false |- _ => rewrite H; clear H end.
Qed.

Lemma lx_plain_newline a : ∀ st tok b,
  st = LSpace ∨ st = LWord → sforall lex_plain a = true →
  lx_run cfg_lex st tok false (a +:+ String NL b) =
  lx_run cfg_lex st tok false (a +:+ String SP b).
Proof.
  induction a as [|c a IH]; intros st tok b Hst Ha.
  - by destruct Hst as [->| ->].
  - cbn in Ha. apply andb_true_iff in Ha as [Hc Ha].
    apply lex_plain_spec in Hc as (Hb & Hq & Hh & Hp). cbn [String.append lx_run].
    destruct Hst as [->| ->]; unfold start; cbn [cf_comments cf_punct cfg_lex andb];
      rewrite Hb, Hq, Hh, Hp; destruct (lx_space c);
      rewrite ?(IH LSpace), ?(IH LWord) by auto; done.
Qed.

(** A newline is a blank to the lexer, so the commands of a multi-line text are
    one argument vector: a catastrophic second line has no verdict. *)
Theorem newline_is_blank a b :
  sforall lex_plain a = true →
  lex (a +:+ NLs +:+ b) = lex (a +:+ " " +:+ b) ∧
  classify ("ls" +:+ NLs +:+ "rm -rf /") = None ∧
  classify "rm -rf /" = Some deny_rm.
Proof.
  intros Ha. split; [|by vm_compute]. unfold lex, lx_tokens.
  by apply (lx_plain_newline a LSpace "" b); [left|].
Qed.

Lemma lx_comment_end b : has_char NL b = false →
  lx_run cfg_lex LComment "" false b = Some [].
Proof.
  induction b as [|c b IH]; [done|]. cbn [has_char sexists lx_run]. intros H. bool_prop.
  rewrite Ascii.eqb_sym. match goal with H : (NL =? c)%char = false |- _ => rewrite H end.
  by apply IH.
Qed.

Lemma lx_plain_comment a : ∀ st tok b,
  st = LSpace ∧ tok = "" ∨ st = LWord → sforall lex_plain a = true → has_char NL b = false →
  lx_run cfg_lex st tok false (a +:+ String "#" b) = lx_run cfg_lex st tok false a.
Proof.
  induction a as [|c a IH]; intros st tok b Hst Ha Hb.
  - destruct Hst as [[-> ->]| ->]; cbn [String.append lx_run].
    + by apply lx_comment_end.
    + change (lx_space "#") with false. cbn iota.
      change (cf_comments cfg_lex && ("#" =? "#")%char) with true. cbn iota.
      by rewrite lx_comment_end.
  - cbn in Ha. apply andb_true_iff in Ha as [Hc Ha].
    apply lex_plain_spec in Hc as (Hbs & Hq & Hh & Hp). cbn [String.append lx_run].
    destruct Hst as [[-> ->]| ->]; unfold start; cbn [cf_comments cf_punct cfg_lex andb];
      rewrite Hbs, Hq, Hh, Hp; destruct (lx_space c);
      rewrite ?(IH LSpace), ?(IH LWord) by auto; done.
Qed.

(** A [#] starts a comment for the lexer even inside a word, where the shell
    reads it literally: everything after it is dropped. *)
Theorem comment_hides_rest a b :
  sforall lex_plain a = true → has_char NL b = false →
  lex (a +:+ "#" +:+ b) = lex a ∧
  classify "echo a#; rm -rf /" = None ∧ classify "echo a; rm -rf /" = Some deny_rm.
Proof.
  intros Ha Hb. split; [|by vm_compute]. unfold lex, lx_tokens.
  apply (lx_plain_comment a LSpace "" b); auto.
Qed.

(** Where the lexer and the shell part: a newline is a blank to it, so the commands
    of a multi-line text are one argument vector, and a [#] starts a comment even
    inside a word. Either hides a catastrophic command from the classifier. *)
Theorem lexer_blind_spots a b c :
  sforall lex_plain a = true → has_char NL c = false →
  lex (a +:+ NLs +:+ b) = lex (a +:+ " " +:+ b) ∧
  lex (a +:+ "#" +:+ c) = lex a ∧
  classify ("ls" +:+ NLs +:+ "rm -rf /") = None ∧
  classify "echo a#; rm -rf /" = None ∧
  classify "rm -rf /" = Some deny_rm.
Proof.
  intros Ha Hc. destruct (newline_is_blank a b Ha) as (H1 & H2 & H3).
  destruct (comment_hides_rest a c Ha Hc) as (H4 & H5 & _). by split_and!.
Qed.

(** ** Concrete inputs *)

Lemma wrappers_transparent_witness :
  _segment_verdict (["sudo"; "env"; "A=1"] ++ "rm" :: ["-rf"; "/"]) false = Some deny_rm ↔
  _segment_verdict ("rm" :: ["-rf"; "/"]) true = Some deny_rm.
Proof.
  apply (wrappers_transparent ["sudo"; "env"; "A=1"] "rm" ["-rf"; "/"] false true); reflexivity.
Defined.

Lemma lexer_blind_spots_witness :
  lex ("ls" +:+ NLs +:+ "rm -rf /") = lex ("ls" +:+ " " +:+ "rm -rf /") ∧
  lex ("ls" +:+ "#" +:+ "; rm -rf /") = lex "ls" ∧
  classify ("ls" +:+ NLs +:+ "rm -rf /") = None ∧
  classify "echo a#; rm -rf /" = None ∧
  classify "rm -rf /" = Some deny_rm.
Proof. apply (lexer_blind_spots "ls" "rm -rf /" "; rm -rf /"); reflexivity. Defined.
