(* ===== verification/PermissionRules.v ===== *)
(** * Permission rules: [horizon/guardrails/permission_rules.py]

    Parsing of the rule dicts, matching and resolution, the layers (defaults,
    the [.lha/permissions.jsonl] overlay, session grants), the overlay's two
    caches, and the session-state accessors. *)

From S2P Require Import Prelude PyStr Names Regex PyVal Overlay CommandClassify.

Definition PERMISSION_OVERLAY_FILENAME : string := ".lha/permissions.jsonl".
Definition PERMISSION_GRANTS_STATE_KEY : string := "permission_grants".
Definition APPROVAL_MODE_STATE_KEY : string := "approval_mode".

(** The members of [_VALID_DECISIONS]. *)
Inductive decision := allow | deny | ask_user.
#[global] Instance decision_eq_dec : EqDecision decision.
Proof. solve_decision. Defined.

Definition decision_of (s : string) : option decision :=
  if (s =? "allow")%string then Some allow
  else if (s =? "deny")%string then Some deny
  else if (s =? "ask_user")%string then Some ask_user
  else None.
Definition decision_name (d : decision) : string :=
  match d with allow => "allow" | deny => "deny" | ask_user => "ask_user" end.

Record PermissionRule := Rule {
  tool_names : list string;
  command_prefixes : list string;
  command_regex : option string;
  args_pattern : option string;
  rule_decision : decision;
  deny_message : option string;
  subagent : option string;
  source : option string
}.
#[global] Instance rule_eq_dec : EqDecision PermissionRule.
Proof. solve_decision. Defined.

(** ** Parsing *)

Definition _as_tuple (value : pyval) : list string :=
  match value with
  | PStr s => [s]
  | PList l => omap is_str l
  | _ => []
  end.

Definition _as_aliased_tuple (value : pyval) : list string :=
  map apply_tool_aliases (_as_tuple value).

(** [x in s] for a set of strings [s]: lists and dicts are unhashable. *)
Definition in_set (x : pyval) (s : list string) : res bool :=
  match x with
  | PList _ => Raise (TypeError "unhashable type: 'list'")
  | PDict _ => Raise (TypeError "unhashable type: 'dict'")
  | PStr t => Ok (mem t s)
  | _ => Ok false
  end.

(** A pattern the overlay may not use. *)
Definition rejected (trusted : bool) (pat : option string) : bool :=
  match pat with
  | Some p => negb trusted && negb (safe_regex p)
  | None => false
  end.

Definition _VALID_DECISIONS : list string := ["allow"; "deny"; "ask_user"].

Definition parse_rule (obj : pyval) (trusted : bool) : res (option PermissionRule) :=
  match obj with
  | PDict d =>
      let! valid := in_set (get d "decision") _VALID_DECISIONS in
      match valid, get_str d "decision" with
      | true, Some dec =>
          match _as_aliased_tuple (get d "toolName") with
          | [] => Ok None
          | names =>
              if rejected trusted (get_str d "commandRegex") then Ok None
              else if rejected trusted (get_str d "argsPattern") then Ok None
              else
                Ok (match decision_of dec with
                    | Some dn =>
                        Some {| tool_names := names;
                                command_prefixes := _as_tuple (get d "commandPrefix");
                                command_regex := get_str d "commandRegex";
                                args_pattern := get_str d "argsPattern";
                                rule_decision := dn;
                                deny_message := get_str d "denyMessage";
                                subagent := get_str d "subagent";
                                source := get_str d "source" |}
                    | None => None
                    end)
          end
      | _, _ => Ok None
      end
  | _ => Ok None
  end.

(** [[r for r in map(parse_rule, objs) if r is not None]] *)
Fixpoint parse_rules (trusted : bool) (objs : list pyval) : res (list PermissionRule) :=
  match objs with
  | [] => Ok []
  | o :: objs' =>
      let! r := parse_rule o trusted in
      let! rs := parse_rules trusted objs' in
      Ok (match r with Some r => r :: rs | None => rs end)
  end.

Definition _parse_jsonl (text : string) : res (list PermissionRule) :=
  parse_rules false (map PDict (iter_jsonl_objects text)).

(** ** Matching and resolution *)

Definition _tool_matches (rule : PermissionRule) (tool_name : string) : bool :=
  mem "*" (tool_names rule) || mem tool_name (tool_names rule).

Definition _prefix_matches (command prefix : string) : bool :=
  if (command =? prefix)%string || startswith (prefix +:+ " ") command then true
  else
    let prefix_tokens := split_ws prefix in
    match prefix_tokens with
    | [] => false
    | _ =>
        if existsb (startswith "-") prefix_tokens then false
        else bool_decide (take (length prefix_tokens) (significant_tokens command)
                          = prefix_tokens)
    end.

Definition args_dump_opts : dump_opts :=
  {| item_sep := ", "; key_sep := ": "; sort_keys := true; ensure_ascii := true |}.

Section Resolution.
Context `{PyRe} `{PyFloat}.

Definition rule_matches (rule : PermissionRule) (tool_name : string) (args : pyval)
    (command agent_name : option string) : bool :=
  _tool_matches rule tool_name
  && match subagent rule with
     | Some s => bool_decide (Some s = agent_name)
     | None => true
     end
  && match command_prefixes rule with
     | [] => true
     | ps => match command with
             | Some c => existsb (_prefix_matches c) ps
             | None => false
             end
     end
  && match command_regex rule with
     | None => true
     | Some pat => match command with
                   | Some c => default false (re_search_text noflags pat c)
                   | None => false
                   end
     end
  && match args_pattern rule with
     | None => true
     | Some pat =>
         let blob := match args with
                     | PDict _ => json_dumps args_dump_opts args
                     | _ => "" end in
         default false (re_search_text noflags pat blob)
     end.

Definition is_deny (r : PermissionRule) : bool :=
  match rule_decision r with deny => true | _ => false end.

Definition resolve_decision (rules : list PermissionRule) (tool_name : string)
    (args : pyval) (command agent_name : option string) :
    decision * option PermissionRule :=
  let matches :=
    List.filter (λ r, rule_matches r tool_name args command agent_name) rules in
  match first_such is_deny (rev matches) with
  | Some r => (deny, Some r)
  | None =>
      match last matches with
      | Some r => (rule_decision r, Some r)
      | None => (ask_user, None)
      end
  end.
End Resolution.

(** ** The overlay and its caches *)

(** The module's [_cache] (local backend) and [_overlay_cache] (sandbox). *)
Abbreviation rules_cache := (ocache (list PermissionRule)).

Definition _load_local_rules : rules_cache → fs → string →
    res (list PermissionRule) * rules_cache :=
  load_local PERMISSION_OVERLAY_FILENAME _parse_jsonl.

Definition _load_interface_rules : rules_cache → fs → env → string →
    res (list PermissionRule) * rules_cache :=
  load_remote PERMISSION_OVERLAY_FILENAME _parse_jsonl.

Definition load_persisted_rules : rules_cache → fs → option env →
    res (list PermissionRule) * rules_cache :=
  load_for_env PERMISSION_OVERLAY_FILENAME _parse_jsonl [].

(** Appending to a host file; [now] is the [mtime] the write leaves, and
    creating or extending the file may fail. *)
Definition host_append (f : fs) (path line : string) (now : mtime) : res fs :=
  match fs_host f !! path with
  | None => Ok (FS (<[path := HFile (CText line) (Some now)]> (fs_host f)) (fs_remote f))
  | Some h =>
      match hf_content h with
      | CText t => Ok (FS (<[path := HFile (CText (t +:+ line)) (Some now)]> (fs_host f))
                         (fs_remote f))
      | CUndecodable => Ok (FS (<[path := HFile CUndecodable (Some now)]> (fs_host f))
                              (fs_remote f))
      | CUnreadable => Raise (OSError path)
      end
  end.

Section Append.
Context `{PyFloat}.

Definition append_persisted_rule (c : rules_cache) (f : fs) (now : mtime) (e : env)
    (rule : pydict) : res unit * rules_cache * fs :=
  match e_working_dir e with
  | None => (Ok (), c, f)
  | Some wd =>
      let path := path_join wd PERMISSION_OVERLAY_FILENAME in
      let line := json_dumps dump_default (PDict rule) +:+ NLs in
      if is_local_env e then
        match host_append f path line now with
        | Ok f' => (Ok (), OCache (oc_path c) None (oc_value c) (oc_remote c), f')
        | Raise x => (Raise x, c, f)
        end
      else
        let current := match env_read f e path with
                       | Ok t => Ok t
                       | Raise (FileNotFoundError _) => Ok ""
                       | Raise x => Raise x
                       end in
        match current with
        | Ok t =>
            (Ok (), forget c (overlay_cache_key e), env_write f e path (t +:+ line))
        | Raise x => (Raise x, c, f)
        end
  end.
End Append.

(** ** Defaults and layers *)

Definition _SANDBOX_WRITE_TOOLS : list string := [WRITE; EDIT; ARTIFACT].
Definition _BENIGN_SIDE_EFFECT_TOOLS : list string := [MEMORY].

Definition rule_dict (tool dec : string) : pyval :=
  PDict [("toolName", PStr tool); ("decision", PStr dec)].
Definition _DEFAULT_RULE_DICTS : list pyval :=
  [rule_dict "*" "ask_user"]
  ++ map (λ t, rule_dict t "allow") _SANDBOX_WRITE_TOOLS
  ++ map (λ t, rule_dict t "allow") _BENIGN_SIDE_EFFECT_TOOLS
  ++ [rule_dict BASH "allow"; rule_dict PROCESS "allow"].

Definition DEFAULT_RULES : list PermissionRule :=
  match parse_rules true _DEFAULT_RULE_DICTS with Ok rs => rs | Raise _ => [] end.

Definition _TOOLS_REQUIRING_NARROWING : list string := [BASH; PROCESS].

Definition is_nil {A} (l : list A) : bool := match l with [] => true | _ => false end.
Definition is_none {A} (o : option A) : bool := match o with None => true | _ => false end.

Definition _is_blanket_allow (rule : PermissionRule) : bool :=
  match rule_decision rule with allow => true | _ => false end
  && existsb (λ t, mem t _TOOLS_REQUIRING_NARROWING) (tool_names rule)
  && is_nil (command_prefixes rule)
  && is_none (command_regex rule)
  && is_none (args_pattern rule).

(** [replace(r, source=src)] *)
Definition with_source (src : string) (r : PermissionRule) : PermissionRule :=
  {| tool_names := tool_names r; command_prefixes := command_prefixes r;
     command_regex := command_regex r; args_pattern := args_pattern r;
     rule_decision := rule_decision r; deny_message := deny_message r;
     subagent := subagent r; source := Some src |}.

Definition _stamp (rules : list PermissionRule) (src : string) : list PermissionRule :=
  map (with_source src) (List.filter (λ r, negb (_is_blanket_allow r)) rules).

Definition effective_rules (c : rules_cache) (f : fs) (e : option env)
    (session_grants : list pyval) : res (list PermissionRule) * rules_cache :=
  let '(persisted, c') := load_persisted_rules c f e in
  (let! overlay := persisted in
   let! grants := parse_rules false session_grants in
   Ok (map (with_source "default") DEFAULT_RULES
       ++ _stamp overlay "overlay" ++ _stamp grants "grant"),
   c').

(** ** Session state *)

(** A state object: [None], or something with [.get] and item assignment. *)
Abbreviation session := (option pydict).

Definition read_session_grants (state : session) : list pyval :=
  match state with
  | None => []
  | Some d => match get d PERMISSION_GRANTS_STATE_KEY with PList l => l | _ => [] end
  end.

Definition write_session_grants (state : session) (grants : list pyval) : bool * session :=
  match state with
  | None => (false, None)
  | Some d => (true, Some (dset d PERMISSION_GRANTS_STATE_KEY (PList grants)))
  end.

Definition read_approval_mode (state : session) : res string :=
  match state with
  | None => Ok "default"
  | Some d =>
      let mode := get d APPROVAL_MODE_STATE_KEY in
      let! ok := in_set mode ["default"; "yolo"] in
      Ok (match ok, mode with true, PStr m => m | _, _ => "default" end)
  end.

(** * Facts *)

(** ** Parsing *)

Lemma parse_rule_valid obj trusted r :
  parse_rule obj trusted = Ok (Some r) →
  tool_names r ≠ [] ∧ Forall (λ n, apply_tool_aliases n = n) (tool_names r) ∧
  (trusted = false → ∀ p, command_regex r = Some p ∨ args_pattern r = Some p →
     safe_regex p = true).
Proof.
  unfold parse_rule. destruct obj as [| | | | | |d]; try done.
  destruct (in_set _ _) as [[]|]; cbn [res_bind]; try done.
  destruct (get_str d "decision") as [dec|]; [|done].
  destruct (_as_aliased_tuple _) as [|n ns] eqn:En; [done|].
  destruct (rejected _ (get_str d "commandRegex")) eqn:Ec; [done|].
  destruct (rejected _ (get_str d "argsPattern")) eqn:Ea; [done|].
  destruct (decision_of dec); [|done]. intros [= <-]. cbn.
  split; [done|]. split.
  - rewrite <-En. unfold _as_aliased_tuple. apply Forall_map.
    apply Forall_forall. intros x _. apply alias_idem.
  - intros -> p [Hp|Hp]; rewrite Hp in *; cbn in *; by bool_prop.
Qed.

Lemma parse_rules_app trusted a b ra rb :
  parse_rules trusted a = Ok ra → parse_rules trusted b = Ok rb →
  parse_rules trusted (a ++ b) = Ok (ra ++ rb).
Proof.
  revert ra. induction a as [|o a IH]; intros ra; cbn; [by intros [= <-]|].
  destruct (parse_rule o trusted) as [r|]; cbn; [|done].
  destruct (parse_rules trusted a) as [rs|]; cbn; [|done].
  intros [= <-] Hb. rewrite (IH rs) by done. cbn. by destruct r.
Qed.

(** ** Prefixes *)

Lemma positionals_tokens ts :
  Forall (λ w, is_token w = true) ts →
  Forall (λ w, is_token w = true ∧ startswith "-" w = false) (positionals ts).
Proof.
  induction 1 as [|t ts Ht Hts IH]; cbn [positionals]; [done|].
  destruct (startswith "-" t) eqn:E; [|by constructor].
  by destruct (has_char "=" t).
Qed.

Lemma significant_tokens_ok seg :
  Forall (λ w, is_token w = true ∧ startswith "-" w = false) (significant_tokens seg).
Proof. apply positionals_tokens, Forall_drop, split_ws_tokens. Qed.

(** ** Resolution *)

Section ResolutionFacts.
Context `{PyRe} `{PyFloat}.
Implicit Types rules : list PermissionRule.

Definition matching rules tool_name args command agent_name :=
  List.filter (λ r, rule_matches r tool_name args command agent_name) rules.

Lemma elem_matching rules t a c g r :
  r ∈ matching rules t a c g ↔ r ∈ rules ∧ rule_matches r t a c g = true.
Proof. unfold matching. rewrite !list_elem_of_In. apply List.filter_In. Qed.

Lemma matching_app l1 l2 t a c g :
  matching (l1 ++ l2) t a c g = matching l1 t a c g ++ matching l2 t a c g.
Proof. apply List.filter_app. Qed.

Lemma matching_nil rules t a c g :
  (∀ r, r ∈ rules → rule_matches r t a c g = false) → matching rules t a c g = [].
Proof.
  intros Hn. destruct (matching rules t a c g) as [|r l] eqn:E; [done|].
  assert (r ∈ matching rules t a c g) as Hr by (rewrite E; left).
  apply elem_matching in Hr as [Hin Hm]. by rewrite Hn in Hm.
Qed.

Lemma is_deny_spec r : is_deny r = true ↔ rule_decision r = deny.
Proof. unfold is_deny. by destruct (rule_decision r). Qed.

Lemma resolve_some_deny rules t a c g r :
  r ∈ rules → rule_matches r t a c g = true → rule_decision r = deny →
  ∃ r', resolve_decision rules t a c g = (deny, Some r') ∧ rule_decision r' = deny
        ∧ r' ∈ rules ∧ rule_matches r' t a c g = true.
Proof.
  intros Hin Hm Hd. unfold resolve_decision. fold (matching rules t a c g).
  destruct (first_such is_deny (rev (matching rules t a c g))) as [r'|] eqn:E.
  - apply first_such_Some in E as [Hr' Hd'%is_deny_spec].
    rewrite list_elem_of_In, <-in_rev, <-list_elem_of_In in Hr'.
    apply elem_matching in Hr' as [? ?]. by exists r'.
  - rewrite first_such_None in E. specialize (E r).
    rewrite list_elem_of_In, <-in_rev, <-list_elem_of_In in E.
    rewrite elem_matching in E. apply is_deny_spec in Hd. rewrite Hd in E.
    by discriminate E.
Qed.

Lemma resolve_no_deny rules t a c g :
  (∀ r, r ∈ rules → rule_matches r t a c g = true → rule_decision r ≠ deny) →
  resolve_decision rules t a c g =
  match last (matching rules t a c g) with
  | Some r => (rule_decision r, Some r)
  | None => (ask_user, None)
  end.
Proof.
  intros Hn. unfold resolve_decision. fold (matching rules t a c g).
  destruct (first_such _ _) as [r'|] eqn:E; [|done].
  apply first_such_Some in E as [Hr' Hd'%is_deny_spec].
  rewrite list_elem_of_In, <-in_rev, <-list_elem_of_In in Hr'.
  apply elem_matching in Hr' as [? ?]. by destruct (Hn r').
Qed.

(** The last matching rule wins when no matching rule denies. *)
Lemma resolve_last rules t a c g l1 r l2 :
  rules = l1 ++ r :: l2 →
  (∀ r', r' ∈ rules → rule_matches r' t a c g = true → rule_decision r' ≠ deny) →
  rule_matches r t a c g = true →
  (∀ r', r' ∈ l2 → rule_matches r' t a c g = false) →
  resolve_decision rules t a c g = (rule_decision r, Some r).
Proof.
  intros -> Hn Hr Hl2. rewrite resolve_no_deny by done.
  rewrite matching_app, (matching_app [r] l2), (matching_nil l2) by done.
  unfold matching at 2. cbn. rewrite Hr. cbn. by rewrite last_snoc.
Qed.
End ResolutionFacts.

(** ** Layers *)

Lemma stamp_spec rules src r :
  r ∈ _stamp rules src →
  source r = Some src ∧ _is_blanket_allow r = false ∧
  ∃ r0, r0 ∈ rules ∧ r = with_source src r0.
Proof.
  unfold _stamp. intros (r0 & -> & Hr0)%list_elem_of_fmap.
  rewrite list_elem_of_In, List.filter_In, <-list_elem_of_In in Hr0.
  destruct Hr0 as [Hin Hb]. apply negb_true_iff in Hb. by repeat (split; [done|]); exists r0.
Qed.

Lemma effective_rules_ok c f e grants rs c' :
  effective_rules c f e grants = (Ok rs, c') →
  ∃ overlay gs, load_persisted_rules c f e = (Ok overlay, c') ∧
    parse_rules false grants = Ok gs ∧
    rs = map (with_source "default") DEFAULT_RULES
         ++ _stamp overlay "overlay" ++ _stamp gs "grant".
Proof.
  unfold effective_rules. destruct (load_persisted_rules c f e) as [[overlay|] c1];
    cbn; [|by intros [=]].
  destruct (parse_rules false grants) as [gs|] eqn:E; cbn; [|by intros [=]].
  intros [= <- <-]. by exists overlay, gs.
Qed.

Lemma with_source_matches `{PyRe} `{PyFloat} src r t a c g :
  rule_matches (with_source src r) t a c g = rule_matches r t a c g.
Proof. done. Qed.

(** ** Theorems: resolution *)

Section ResolutionTheorems.
Context `{PyRe} `{PyFloat}.

(** Deny wins over every other rule, whatever the order; otherwise the last
    matching rule decides; with none, the user is asked. *)
Theorem resolve_decision_spec rules t a c g :
  ((resolve_decision rules t a c g).1 = deny ↔
   ∃ r, r ∈ rules ∧ rule_matches r t a c g = true ∧ rule_decision r = deny) ∧
  (∀ l1 r l2, rules = l1 ++ r :: l2 →
     rule_matches r t a c g = true →
     (∀ r', r' ∈ l2 → rule_matches r' t a c g = false) →
     (∀ r', r' ∈ rules → rule_matches r' t a c g = true → rule_decision r' ≠ deny) →
     resolve_decision rules t a c g = (rule_decision r, Some r)) ∧
  ((∀ r, r ∈ rules → rule_matches r t a c g = false) →
   resolve_decision rules t a c g = (ask_user, None)).
Proof.
  split; [|split].
  - split.
    + intros Hd. unfold resolve_decision in Hd. fold (matching rules t a c g) in Hd.
      destruct (first_such is_deny _) as [r|] eqn:E.
      * apply first_such_Some in E as [Hr Hd'%is_deny_spec].
        rewrite list_elem_of_In, <-in_rev, <-list_elem_of_In in Hr.
        apply elem_matching in Hr as [? ?]. by exists r.
      * rewrite first_such_None in E.
        destruct (last (matching rules t a c g)) as [r|] eqn:El; [|done].
        apply last_Some in El as [l Hl]. specialize (E r). cbn in Hd.
        apply is_deny_spec in Hd. rewrite Hd in E.
        rewrite list_elem_of_In, <-in_rev, <-list_elem_of_In in E.
        rewrite Hl in E. discriminate E. apply elem_of_app. right. left.
    + intros (r & Hin & Hm & Hd).
      by destruct (resolve_some_deny _ _ _ _ _ _ Hin Hm Hd) as (? & -> & _).
  - intros l1 r l2 -> Hr Hl2 Hn. by eapply resolve_last.
  - intros Hn. rewrite resolve_no_deny by (intros r Hr Hm; by rewrite Hn in Hm).
    by rewrite matching_nil.
Qed.

(** What the layers guarantee: overlay and grant rules carry their source and
    are never a blanket allow for a shell tool, every rule names live tools,
    and a matching overlay deny holds against any session grants. *)
Theorem effective_rules_layers k f e grants rs k' :
  effective_rules k f e grants = (Ok rs, k') →
  (∀ r, r ∈ rs → source r = Some "default" ∨
     (source r = Some "overlay" ∨ source r = Some "grant") ∧ _is_blanket_allow r = false) ∧
  (∀ overlay r t a c g, load_persisted_rules k f e = (Ok overlay, k') →
     r ∈ overlay → rule_decision r = deny → rule_matches r t a c g = true →
     (resolve_decision rs t a c g).1 = deny).
Proof.
  intros (overlay & gs & Hl & Hg & ->)%effective_rules_ok. split.
  - intros r Hr. rewrite !elem_of_app in Hr. destruct Hr as [Hr|[Hr|Hr]].
    + apply list_elem_of_fmap in Hr as (r0 & -> & _). by left.
    + apply stamp_spec in Hr as (? & ? & _). right. auto.
    + apply stamp_spec in Hr as (? & ? & _). right. auto.
  - intros ov r t a c g Hl' Hin Hd Hm. rewrite Hl in Hl'. injection Hl' as <-.
    edestruct (resolve_some_deny
      (map (with_source "default") DEFAULT_RULES ++ _stamp overlay "overlay"
       ++ _stamp gs "grant") t a c g (with_source "overlay" r))
      as (r' & -> & _); try done.
    rewrite !elem_of_app. right; left. unfold _stamp. apply list_elem_of_fmap.
    exists r. split; [done|]. rewrite list_elem_of_In, List.filter_In, <-list_elem_of_In.
    split; [done|]. unfold _is_blanket_allow. by rewrite Hd.
Qed.
End ResolutionTheorems.

Lemma prefix_matches_tokens command p ts :
  split_ws p = ts → ts ≠ [] → existsb (startswith "-") ts = false →
  take (length ts) (significant_tokens command) = ts → _prefix_matches command p = true.
Proof.
  intros Hp Hne Hf Ht. unfold _prefix_matches. destruct (_ || _); [done|].
  rewrite Hp, Hf, Ht. destruct ts; [done|]. by apply bool_decide_eq_true.
Qed.

Lemma command_prefix_covers seg :
  strip seg = seg → _prefix_matches seg (command_prefix seg) = true.
Proof.
  intros Hs. unfold command_prefix. pose proof (significant_tokens_ok seg) as Hok.
  destruct (significant_tokens seg) as [|b rest] eqn:E.
  { unfold _prefix_matches. by rewrite Hs, String.eqb_refl. }
  apply Forall_cons in Hok as [[Hb Hb'] Hrest].
  assert (_prefix_matches seg b = true) as Hone.
  { apply (prefix_matches_tokens _ _ [b]); [by apply split_ws_token|done| |by rewrite E].
    cbn [existsb]. by rewrite Hb'. }
  destruct rest as [|n rest]; [done|]. destruct (_ && _); [|done].
  apply Forall_cons in Hrest as [[Hn Hn'] _].
  apply (prefix_matches_tokens _ _ [b; n]); [by apply split_ws_pair|done| |by rewrite E].
  cbn [existsb]. by rewrite Hb', Hn'.
Qed.

(** The prefix derived from a segment always matches that segment, so a rule
    built from it covers the command it was built for. *)
Theorem command_prefix_matches seg :
  strip seg = seg → _prefix_matches seg (command_prefix seg) = true.
Proof. apply command_prefix_covers. Qed.

(** ** Theorems: the overlay caches *)

(** What an environment's own overlay file parses to now. *)
Definition current_rules (f : fs) (e : env) : res (list PermissionRule) :=
  current PERMISSION_OVERLAY_FILENAME _parse_jsonl f e.

(** The steps of a backend instance on the permission cache: loads, appends,
    and writes of tools to other files. *)
Inductive rules_step `{PyFloat} (served : env → Prop) :
    rules_cache * fs → rules_cache * fs → Prop :=
| rules_load c f e : served e →
    rules_step served (c, f) ((load_persisted_rules c f (Some e)).2, f)
| rules_append c f e now rule r c' f' : served e →
    append_persisted_rule c f now e rule = (r, c', f') → rules_step served (c, f) (c', f')
| rules_write c f e path text :
    (∀ e', served e' → (e_store e, path) ≠ overlay_file PERMISSION_OVERLAY_FILENAME e') →
    rules_step served (c, f) (c, env_write f e path text).

(** An append to a sandbox overlay is a rewrite that drops the cache entry. *)
Lemma append_sandboxed `{PyFloat} c f now e rule r c' f' :
  sandboxed e → append_persisted_rule c f now e rule = (r, c', f') →
  (c' = c ∧ f' = f) ∨
  ∃ text, c' = forget c (overlay_cache_key e) ∧
    f' = env_write f e (overlay_path PERMISSION_OVERLAY_FILENAME e) text.
Proof.
  intros [Hl [wd Hwd]]. unfold append_persisted_rule, overlay_path. rewrite Hwd, Hl. cbn.
  destruct (match env_read f e _ with Ok _ => _ | Raise _ => _ end) as [t|x].
  - intros [= <- <- <-]. right. eauto.
  - intros [= <- <- <-]. by left.
Qed.

Lemma rules_step_cache `{PyFloat} served x y :
  (∀ e, served e → sandboxed e) → rules_step served x y →
  rtc (cache_step PERMISSION_OVERLAY_FILENAME _parse_jsonl [] served) x y.
Proof.
  intros Hs [c f e He|c f e now rule r c' f' He Ha|c f e path t Hn].
  - apply rtc_once. by constructor.
  - destruct (append_sandboxed _ _ _ _ _ _ _ _ (Hs e He) Ha) as [[-> ->]|(t & -> & ->)];
      [done|]. apply rtc_once. by constructor.
  - apply rtc_once. by constructor.
Qed.

(** In every reachable state of a backend instance, loading an environment's
    rules gives what its own overlay file holds: no stale rules after an
    append, and never another tenant's. *)
Theorem overlay_cache_coherent `{PyFloat} served f0 c f e :
  (∀ e, served e → sandboxed e) → keys_identify PERMISSION_OVERLAY_FILENAME served →
  rtc (rules_step served) (empty_cache, f0) (c, f) → served e →
  (load_persisted_rules c f (Some e)).1 = current_rules f e.
Proof.
  intros Hs Hk Hr He. eapply reachable_load; [done..| |done].
  assert (∀ x y, rtc (rules_step served) x y →
    rtc (cache_step PERMISSION_OVERLAY_FILENAME _parse_jsonl [] served) x y) as Hrtc.
  { intros x y Hxy. induction Hxy as [|x y z Hxy Hyz IH]; [done|].
    etransitivity; [by apply rules_step_cache|done]. }
  by apply Hrtc.
Qed.

(** ** Concrete inputs *)

Lemma effective_rules_layers_witness :
  let _ : PyRe := engine_re in let _ : PyFloat := λ _, "" in
  let rs := match (effective_rules empty_cache (FS ∅ ∅) None []).1 with
            | Ok rs => rs | Raise _ => [] end in
  rs ≠ [] ∧ ∀ r, r ∈ rs → source r = Some "default" ∨
     (source r = Some "overlay" ∨ source r = Some "grant") ∧ _is_blanket_allow r = false.
Proof.
  intros Hre Hfl rs.
  destruct (effective_rules_layers (H:=Hre) (H0:=Hfl) empty_cache (FS ∅ ∅) None [] rs empty_cache)
    as [Hsrc _]; [vm_compute; reflexivity|].
  split; [vm_compute; discriminate|exact Hsrc].
Defined.

Definition demo_env : env := Env "store" (Some "/workspace") false (Some "tenant-1").

Lemma overlay_cache_coherent_witness :
  let _ : PyFloat := λ _, "" in
  let c' := (load_persisted_rules empty_cache (FS ∅ ∅) (Some demo_env)).2 in
  (load_persisted_rules c' (FS ∅ ∅) (Some demo_env)).1 = current_rules (FS ∅ ∅) demo_env.
Proof.
  intros Hfl c'.
  apply (overlay_cache_coherent (H:=Hfl) (λ e, e = demo_env) (FS ∅ ∅)).
  - intros e ->. split; [reflexivity|by eexists].
  - intros e e' -> ->. split; intros _; reflexivity.
  - apply rtc_once. by constructor.
  - reflexivity.
Defined.
