(* ===== verification/PolicyGrants.v ===== *)
(** * Session policy grants: [horizon/guardrails/policy_grants.py]

    The per-session exemptions consulted by the policy and exfiltration
    guards: exact and loosened matching, and the [policy_grant] tool that
    grants, lists and revokes. *)

From S2P Require Import Prelude PyStr PyVal.

Definition POLICY_GRANTS_STATE_KEY : string := "_policy_grants".

(** ** Matching *)

Definition _active_grants (state : pydict) : list pydict :=
  match get state POLICY_GRANTS_STATE_KEY with
  | PList grants => omap is_dict grants
  | _ => []
  end.

(** The shape both matchers share: the tool, a non-empty signature, and a
    test on the value of each of its keys. *)
Definition matches_by (test : pyval → pyval → bool) (grant : pydict)
    (tool_name : string) (args : pyval) : bool :=
  py_eq (get grant "tool_name") (PStr tool_name)
  && match get grant "signature" with
     | PDict signature =>
         negb (length signature =? 0)
         && match args with
            | PDict a => forallb (λ kv, test (get a kv.1) kv.2) signature
            | _ => false
            end
     | _ => false
     end.

Definition grant_matches : pydict → string → pyval → bool := matches_by py_eq.

(** [value == expected], or both strings with a non-empty [expected] inside
    [value]. *)
Definition loose_value (value expected : pyval) : bool :=
  py_eq value expected
  || match value, expected with
     | PStr v, PStr e => negb (e =? "")%string && contains e v
     | _, _ => false
     end.
Definition grant_matches_loose : pydict → string → pyval → bool := matches_by loose_value.

Definition find_matching_grant (state : pydict) (tool_name : string) (args : pyval) :
    option pydict :=
  first_such (λ g, grant_matches g tool_name args) (_active_grants state).
Definition find_matching_grant_loose (state : pydict) (tool_name : string) (args : pyval) :
    option pydict :=
  first_such (λ g, grant_matches_loose g tool_name args) (_active_grants state).

(** ** The [policy_grant] tool *)

(** [isinstance(key, str) and isinstance(value, str)] *)
Definition str_item (kv : string * pyval) : bool :=
  match kv.2 with PStr _ => true | _ => false end.

Definition error_reply (flag msg : string) : pydict :=
  [(flag, PBool false); ("error", PStr msg)].

(** The loop over existing grants: the one that equals the new grant, or the
    [AttributeError] of [.get] on an entry that is not a dict. *)
Fixpoint find_duplicate (tool_name : string) (signature : pydict) (grants : list pyval) :
    res (option pydict) :=
  match grants with
  | [] => Ok None
  | PDict g :: rest =>
      if py_eq (get g "tool_name") (PStr tool_name)
         && py_eq (get g "signature") (PDict signature)
      then Ok (Some g) else find_duplicate tool_name signature rest
  | _ :: _ => Raise (AttributeError "get")
  end.

Definition stored_grants (state : pydict) : option (list pyval) :=
  is_list (get state POLICY_GRANTS_STATE_KEY).

Definition _grant (tool_name : string) (signature : pyval) (state : pydict) :
    res (pydict * pydict) :=
  if (tool_name =? "")%string
  then Ok (error_reply "granted" "tool_name is required", state)
  else
    match signature with
    | PDict ((_ :: _) as sg) =>
        if forallb str_item sg then
          let grants := default [] (stored_grants state) in
          let new_grant := [("tool_name", PStr tool_name); ("signature", PDict sg)] in
          let! dup := find_duplicate tool_name sg grants in
          Ok (match dup with
              | Some existing =>
                  ([("granted", PBool true); ("grant", PDict existing);
                    ("duplicate", PBool true)], state)
              | None =>
                  ([("granted", PBool true); ("grant", PDict new_grant)],
                   dset state POLICY_GRANTS_STATE_KEY
                     (PList (grants ++ [PDict new_grant])))
              end)
        else Ok (error_reply "granted" "signature keys and values must be strings", state)
    | _ => Ok (error_reply "granted"
                 "signature must be a non-empty dict of arg_name → value", state)
    end.

Definition _list (state : pydict) : pydict :=
  let grants := _active_grants state in
  [("count", PInt (Z.of_nat (length grants))); ("grants", PList (map PDict grants))].

Definition _revoke (index : Z) (state : pydict) : pydict * pydict :=
  match stored_grants state with
  | Some grants =>
      if (index <? 0)%Z || (Z.of_nat (length grants) <=? index)%Z
      then (error_reply "revoked" "index out of range", state)
      else
        let i := Z.to_nat index in
        let removed := default PNone (grants !! i) in
        ([("revoked", PBool true); ("grant", removed)],
         dset state POLICY_GRANTS_STATE_KEY (PList (take i grants ++ drop (S i) grants)))
  | None => (error_reply "revoked" "index out of range", state)
  end.

Definition policy_grant (action : string) (tool_name : option string)
    (signature : pyval) (index : option Z) (state : pydict) : res (pydict * pydict) :=
  if (action =? "grant")%string then
    match tool_name with
    | None => Ok (error_reply "granted" "action='grant' requires 'tool_name'", state)
    | Some t =>
        match signature with
        | PNone => Ok (error_reply "granted" "action='grant' requires 'signature'", state)
        | _ => _grant t signature state
        end
    end
  else if (action =? "list")%string then Ok (_list state, state)
  else if (action =? "revoke")%string then
    match index with
    | None => Ok (error_reply "revoked" "action='revoke' requires 'index'", state)
    | Some i => Ok (_revoke i state)
    end
  else Ok ([("error", PStr ("Unknown action " +:+ repr_str action
                            +:+ ". Use: grant, list, revoke."))], state).

(** * Facts *)

Lemma py_eq_str v s : py_eq v (PStr s) = true ↔ v = PStr s.
Proof.
  split; [|intros ->; cbn; apply String.eqb_refl].
  destruct v as [|[]| | | | |]; cbn; intros H; try done. by apply String.eqb_eq in H as ->.
Qed.

Lemma py_eq_str_l v s : py_eq (PStr s) v = true ↔ v = PStr s.
Proof.
  split; [|intros ->; cbn; apply String.eqb_refl].
  destruct v; cbn; intros H; try done. by apply String.eqb_eq in H as ->.
Qed.

(** Equality of dicts: the same number of keys, with equal values. *)
Lemma py_eq_dict d v :
  py_eq (PDict d) v = true →
  ∃ e, v = PDict e ∧ length d = length e ∧
    ∀ k x, (k, x) ∈ d → ∃ y, dget e k = Some y ∧ py_eq x y = true.
Proof.
  destruct v as [| | | | | |e]; try done. cbn. intros [Hl H]%andb_true_iff.
  exists e. split; [done|]. split; [by apply Nat.eqb_eq|]. clear Hl.
  induction d as [|[k x] d IH]; intros k' x' Hin; [by apply elem_of_nil in Hin|].
  apply andb_true_iff in H as [Hk H].
  apply elem_of_cons in Hin as [[= -> ->]|Hin]; [|by eapply IH].
  destruct (dget e k) as [y|]; [by exists y|done].
Qed.

Lemma matches_by_spec test g t a :
  matches_by test g t (PDict a) = true ↔
  get g "tool_name" = PStr t ∧ ∃ sg, get g "signature" = PDict sg ∧ sg ≠ [] ∧
    ∀ k v, (k, v) ∈ sg → test (get a k) v = true.
Proof.
  unfold matches_by. rewrite andb_true_iff, py_eq_str. apply and_iff_compat_l.
  destruct (get g "signature") as [| | | | | |sg]; try (split; [done|by intros (? & ? & _)]).
  rewrite andb_true_iff, negb_true_iff, Nat.eqb_neq, forallb_elem. split.
  - intros [Hl Hf]. exists sg. split; [done|]. split; [by intros ->|].
    intros k v Hin. apply (Hf (k, v) Hin).
  - intros (sg' & [= <-] & Hne & Hf). split; [by destruct sg|].
    intros [k v] Hin. by apply Hf.
Qed.

Lemma active_grants_set state gs :
  _active_grants (dset state POLICY_GRANTS_STATE_KEY (PList gs)) = omap is_dict gs.
Proof. unfold _active_grants, get. by rewrite dget_dset_eq. Qed.

Lemma find_grant_in state t a g :
  g ∈ _active_grants state → grant_matches g t a = true →
  ∃ g', find_matching_grant state t a = Some g'.
Proof.
  intros Hin Hm. unfold find_matching_grant.
  destruct (first_such _ _) eqn:E; [eauto|]. rewrite first_such_None in E.
  by rewrite E in Hm.
Qed.

Lemma find_duplicate_some t sg gs g :
  find_duplicate t sg gs = Ok (Some g) →
  PDict g ∈ gs ∧ get g "tool_name" = PStr t ∧ py_eq (get g "signature") (PDict sg) = true.
Proof.
  induction gs as [|x gs IH]; [done|]. cbn. destruct x as [| | | | | |d]; try done.
  destruct (_ && _) eqn:E.
  - intros [= <-]. apply andb_true_iff in E as [E1%py_eq_str E2].
    split; [left|done].
  - intros H. destruct (IH H) as (? & ? & ?). split; [by right|done].
Qed.

Lemma elem_active state g gs :
  get state POLICY_GRANTS_STATE_KEY = PList gs → PDict g ∈ gs → g ∈ _active_grants state.
Proof.
  intros Hs Hin. unfold _active_grants. rewrite Hs.
  apply list_elem_of_omap. by exists (PDict g).
Qed.

Lemma all_strings sg k v :
  forallb str_item sg = true →
  (k, v) ∈ sg → ∃ s, v = PStr s.
Proof.
  rewrite forallb_elem. intros H Hin. specialize (H _ Hin). cbn in H.
  destruct v; try done. eauto.
Qed.

(** ** Theorems *)

(** After a successful [grant], the policy guard finds a grant for every call
    of that tool whose arguments carry the signature. *)
Theorem grant_covers_call t sg state reply state' a :
  policy_grant "grant" (Some t) (PDict sg) None state = Ok (reply, state') →
  get reply "granted" = PBool true →
  (∀ k v, (k, v) ∈ sg → get a k = v) →
  ∃ g, find_matching_grant state' t (PDict a) = Some g.
Proof.
  unfold policy_grant. cbn [String.eqb]. unfold _grant.
  change ("grant" =? "grant")%string with true. cbn iota.
  destruct (t =? "")%string; [by intros [= <- <-]|].
  destruct sg as [|kv0 sg0] eqn:Esg; [by intros [= <- <-]|]. rewrite <-Esg.
  destruct (forallb _ sg) eqn:Hstr; [|by intros [= <- <-]].
  destruct (find_duplicate _ _ _) as [[g|]|] eqn:Ed; cbn [res_bind]; [| |done].
  - intros [= <- <-] _ Ha. apply find_duplicate_some in Ed as (Hin & Ht & Hs).
    unfold stored_grants in Hin.
    destruct (get state POLICY_GRANTS_STATE_KEY) as [| | | | |gs|] eqn:Eg; cbn in Hin;
      try (by apply elem_of_nil in Hin).
    eapply find_grant_in; [by eapply elem_active|].
    apply matches_by_spec. split; [done|].
    destruct (get g "signature") as [| | | | | |e] eqn:Ee; try done.
    apply py_eq_dict in Hs as (sg' & [= <-] & Hl & He). exists e.
    split; [done|]. split; [intros ->; by subst sg|]. intros k x Hx.
    destruct (He k x Hx) as (y & Hy & Hxy). apply dget_in in Hy.
    destruct (all_strings _ _ _ Hstr Hy) as [s ->]. apply py_eq_str in Hxy as ->.
    rewrite (Ha k (PStr s)) by done. by apply py_eq_str.
  - intros [= <- <-] _ Ha. eapply find_grant_in.
    + rewrite active_grants_set. apply list_elem_of_omap.
      eexists. split; [apply elem_of_app; right; left|done].
    + apply matches_by_spec. split; [done|]. exists sg. split; [done|].
      split; [by subst sg|]. intros k v Hin. rewrite (Ha k v Hin).
      destruct (all_strings _ _ _ Hstr Hin) as [s ->]. by apply py_eq_str.
Qed.

(** A grant is narrow: a call it exempts names its tool and carries each of its
    string values verbatim; a loosened match carries each as a substring. *)
Theorem grant_is_narrow state t a g k s :
  (find_matching_grant state t (PDict a) = Some g →
   ∀ sg, get g "signature" = PDict sg → (k, PStr s) ∈ sg →
   g ∈ _active_grants state ∧ get g "tool_name" = PStr t ∧ dget a k = Some (PStr s)) ∧
  (find_matching_grant_loose state t (PDict a) = Some g →
   ∀ sg, get g "signature" = PDict sg → (k, PStr s) ∈ sg →
   ∃ v, dget a k = Some (PStr v) ∧ substring_of s v).
Proof.
  split; intros [Hin Hm]%first_such_Some sg Hsg Hk.
  - apply matches_by_spec in Hm as (Ht & sg' & Hsg' & _ & Hall).
    rewrite Hsg in Hsg'. injection Hsg' as <-. split; [done|]. split; [done|].
    apply Hall, py_eq_str in Hk. unfold get in Hk.
    by destruct (dget a k); cbn in Hk; subst.
  - apply matches_by_spec in Hm as (_ & sg' & Hsg' & _ & Hall).
    rewrite Hsg in Hsg'. injection Hsg' as <-. apply Hall in Hk. unfold loose_value in Hk.
    apply orb_true_iff in Hk as [Hk%py_eq_str|Hk].
    + exists s. unfold get in Hk. destruct (dget a k); cbn in Hk; subst; [|done].
      split; [done|apply substring_refl].
    + destruct (get a k) as [| | | |v| |] eqn:Eg; try done. exists v.
      unfold get in Eg. destruct (dget a k); cbn in Eg; [|done]. subst.
      split; [done|]. bool_prop. by apply contains_spec.
Qed.

(** ** The grants a session can hold *)

(** An entry [_grant] writes: a tool and a non-empty signature of strings. *)
Definition well_formed_grant (v : pyval) : Prop :=
  ∃ t sg, v = PDict [("tool_name", PStr t); ("signature", PDict sg)] ∧ t ≠ "" ∧ sg ≠ [] ∧
    forallb str_item sg = true.

Definition grants_ok (state : pydict) : Prop :=
  get state POLICY_GRANTS_STATE_KEY = PNone ∨
  ∃ gs, get state POLICY_GRANTS_STATE_KEY = PList gs ∧ Forall well_formed_grant gs.

Lemma find_duplicate_ok t sg gs :
  Forall well_formed_grant gs → ∃ o, find_duplicate t sg gs = Ok o.
Proof.
  induction 1 as [|v gs (t' & sg' & -> & _) Hgs [o IH]]; cbn; [eauto|].
  destruct (_ && _); eauto.
Qed.

(** Every call of the tool keeps the stored grants well formed, and then none
    raises; [revoke] removes exactly the entry at its index. *)
Theorem policy_grant_invariant action t sg index state :
  grants_ok state →
  ∃ reply state', policy_grant action t sg index state = Ok (reply, state') ∧
    grants_ok state' ∧
    (∀ i gs, action = "revoke" → index = Some i →
       get state POLICY_GRANTS_STATE_KEY = PList gs →
       (0 ≤ i < Z.of_nat (length gs))%Z →
       get state' POLICY_GRANTS_STATE_KEY =
         PList (take (Z.to_nat i) gs ++ drop (S (Z.to_nat i)) gs)).
Proof.
  intros Hok. unfold policy_grant.
  destruct (action =? "grant")%string eqn:Ea; bool_prop.
  - subst action. assert (∀ P : Prop, "grant" = "revoke" → P) as Hno by done.
    destruct t as [t|]; [|by eexists _, _; split; [done|]; split; [done|]; intros; apply Hno].
    assert (∃ reply state', _grant t sg state = Ok (reply, state') ∧ grants_ok state')
      as (r & s' & Hr & Hs').
    { unfold _grant. destruct (t =? "")%string eqn:Et; [eauto|]. bool_prop.
      destruct sg as [| | | | | |sg]; try eauto. destruct sg as [|kv sg]; [eauto|].
      destruct (forallb _ _) eqn:Hf; [|eauto].
      assert (Forall well_formed_grant (default [] (stored_grants state))) as Hwf.
      { unfold stored_grants. destruct Hok as [-> |(gs & -> & Hgs)]; [constructor|done]. }
      destruct (find_duplicate_ok t (kv :: sg) _ Hwf) as [o Ho]. rewrite Ho. cbn [res_bind].
      destruct o; [eauto|]. eexists _, _. split; [done|]. right. eexists.
      split; [unfold get; by rewrite dget_dset_eq|]. apply Forall_app. split; [done|].
      constructor; [|done]. by exists t, (kv :: sg). }
    destruct sg; try (exists r, s'; split; [done|]; split; [done|]; intros; by apply Hno).
    eexists _, _. split; [done|]. split; [done|]. intros; by apply Hno.
  - destruct (action =? "list")%string eqn:El; bool_prop.
    { eexists _, _. split; [done|]. split; [done|]. by intros i gs ->. }
    destruct (action =? "revoke")%string eqn:Er; bool_prop;
      [|by eexists _, _; split; [done|]; split; [done|]; intros ? ? ->].
    destruct index as [i|]; [|by eexists _, _; split; [done|]; split].
    destruct (_revoke i state) as [reply state'] eqn:E. exists reply, state'.
    split; [done|]. unfold _revoke, stored_grants in E.
    destruct Hok as [Hn|(gs & Hgs & Hwf)].
    + rewrite Hn in E. injection E as <- <-. split; [by left|]. intros ? ? _ _ H.
      by rewrite Hn in H.
    + rewrite Hgs in E. cbn in E. destruct (_ || _) eqn:Eb.
      * injection E as <- <-. split; [right; eauto|]. intros j gs' _ [= <-] Hg' Hj.
        rewrite Hgs in Hg'. injection Hg' as <-.
        apply orb_true_iff in Eb as [Eb|Eb]; bool_prop; lia.
      * injection E as <- <-. split.
        { right. eexists. split; [unfold get; by rewrite dget_dset_eq|].
          apply Forall_app. split; [by apply Forall_take|by apply Forall_drop]. }
        intros j gs' _ [= <-] Hg' Hj. rewrite Hgs in Hg'. injection Hg' as <-.
        unfold get. by rewrite dget_dset_eq.
Qed.

(** ** Concrete inputs *)

Definition demo_signature : pydict := [("command", PStr "gcloud projects delete p")].
Definition demo_grants : pydict :=
  match policy_grant "grant" (Some "bash") (PDict demo_signature) None [] with
  | Ok (_, s) => s | Raise _ => [] end.

Lemma grant_covers_call_witness :
  ∃ g, find_matching_grant demo_grants "bash" (PDict demo_signature) = Some g.
Proof.
  apply (grant_covers_call "bash" demo_signature []
    (match policy_grant "grant" (Some "bash") (PDict demo_signature) None [] with
     | Ok (r, _) => r | Raise _ => [] end) demo_grants demo_signature);
    [vm_compute; reflexivity|vm_compute; reflexivity|].
  intros k v Hin. apply list_elem_of_singleton in Hin. injection Hin as -> ->. reflexivity.
Defined.

Lemma policy_grant_invariant_witness :
  ∃ reply state', policy_grant "grant" (Some "bash") (PDict demo_signature) None [] = Ok (reply, state') ∧
    grants_ok state' ∧
    (∀ i gs, "grant" = "revoke" → None = Some i →
       get [] POLICY_GRANTS_STATE_KEY = PList gs → (0 ≤ i < Z.of_nat (length gs))%Z →
       get state' POLICY_GRANTS_STATE_KEY =
         PList (take (Z.to_nat i) gs ++ drop (S (Z.to_nat i)) gs)).
Proof. apply (policy_grant_invariant "grant" (Some "bash") (PDict demo_signature) None []). by left. Defined.
