(* ===== verification/Policies.v ===== *)
(** * Tool policies: [horizon/guardrails/policies.py]

    The bundled seed and the [.lha/policies.jsonl] overlay, the five rule
    shapes, and the guard that blocks a matching call. *)

From S2P Require Import Prelude PyStr Names Regex PyVal Overlay.
From S2P Require Import CommandSafety PermissionRules PolicyGrants.

Definition DEFAULT_POLICIES_FILENAME : string := ".lha/policies.jsonl".
Definition _PATH_ARG_NAMES : list string := ["path"; "file_path"; "target_path"].

(** ** Loading *)

Definition keep_pattern (pat : pyval) : bool :=
  match pat with
  | PStr p => if (p =? "")%string then true else safe_regex p
  | _ => true
  end.

(** One entry of [destructive_commands_regex]; [None] drops the argument. *)
Definition filter_patterns (patterns : pyval) : option pyval :=
  match patterns with
  | PList l => match List.filter keep_pattern l with [] => None | l' => Some (PList l') end
  | other => Some other
  end.

Definition _filter_unsafe_regexes (obj : pydict) : pydict :=
  match get obj "destructive_commands_regex" with
  | PDict destructive_regex =>
      let filtered := omap (λ kv : string * pyval,
        match filter_patterns kv.2 with Some v => Some (kv.1, v) | None => None end)
        destructive_regex in
      match filtered with
      | [] => ddel obj "destructive_commands_regex"
      | _ => dset obj "destructive_commands_regex" (PDict filtered)
      end
  | _ => obj
  end.

Definition _alias_canonical_tool_name (obj : pydict) : pydict :=
  match get obj "canonical_tool_name" with
  | PStr canonical =>
      let aliased := apply_tool_aliases canonical in
      if (aliased =? canonical)%string then obj
      else dset obj "canonical_tool_name" (PStr aliased)
  | _ => obj
  end.

Definition named_policies (objs : list pydict) : list pydict :=
  map _alias_canonical_tool_name
    (List.filter (λ obj, truthy (get obj "canonical_tool_name")) objs).

Definition _parse_policies (text : string) : list pydict :=
  named_policies (iter_jsonl_objects text).

Definition strs (l : list string) : pyval := PList (map PStr l).

(** The objects of [default_policies.jsonl]. *)
Definition default_policies : list pydict :=
  let file_rule tool :=
    [("canonical_tool_name", PStr tool);
     ("destructive_paths", strs ["/etc/sudoers"; "/etc/shadow"; "/etc/passwd"]);
     ("destructive_path_patterns",
       strs ["*/.ssh/*"; "*/.aws/*"; "*/.config/gcloud/*"; "*/.kube/*"; ".lha/*"; "*/.lha/*"])] in
  [[("canonical_tool_name", PStr "terminal");
    ("destructive_commands", PDict [("command",
      strs ["dd if="; "of=/dev/sd"; "of=/dev/nvme"; "of=/dev/hd"; "mkfs."; "mkfs ";
            ":(){:|:&};:"; "nc -l"; "ncat -l"; "socat "; "> /dev/sd"; "> /dev/nvme";
            "> /dev/hd"; "/dev/tcp/"; "/dev/udp/"; "shred "; "wipefs "; "cat ~/.ssh/";
            "cat ~/.aws/"; "cat ~/.config/gcloud/"; "cat ~/.kube/"; "cat /etc/shadow";
            "cat /etc/sudoers"])]);
    ("destructive_commands_regex", PDict [("command",
      strs ["(>>?|\btee\b(?:\s+-\S+)*)\s*\S*\.lha/";
            "\bsed\b[^|;&]*-i[^|;&]*\.lha/";
            "\b(cp|mv)\b[^|;&]*\.lha/";
            "\b(rm|truncate|shred|unlink)\b[^|;&]*(?:^|[\s/'" +:+ DQs +:+
              "=])\.lha(?:$|[/\s'" +:+ DQs +:+ ";&|><])";
            "\bchmod\b[^|;&]*(?:^|[\s/'" +:+ DQs +:+ "=])\.lha(?:$|[/\s'" +:+ DQs +:+
              ";&|><])"])])];
   file_rule "write_file"; file_rule "patch"].

Definition _read_default_seed : list pydict := named_policies default_policies.

(** The seed followed by the filtered entries of an overlay's text. *)
Definition build_policies (text : string) : res (list pydict) :=
  Ok (_read_default_seed ++ map _filter_unsafe_regexes (_parse_policies text)).

Abbreviation policies_cache := (ocache (list pydict)).

Definition load_policies (c : policies_cache) (f : fs) (working_dir : option string) :
    res (list pydict) * policies_cache :=
  match working_dir with
  | None => (Ok _read_default_seed, c)
  | Some wd => load_local DEFAULT_POLICIES_FILENAME build_policies c f wd
  end.

Definition load_policies_for_env : policies_cache → fs → option env →
    res (list pydict) * policies_cache :=
  load_for_env DEFAULT_POLICIES_FILENAME build_policies _read_default_seed.

(** ** [fnmatch.fnmatchcase] *)

(** One element of a glob; a set holds ranges of code points. *)
Inductive glob_item :=
| GStar
| GAny
| GChar (c : ascii)
| GSet (neg : bool) (ranges : list (ascii * ascii)).

Definition in_ranges (rs : list (ascii * ascii)) (c : ascii) : bool :=
  existsb (λ r, (N_of_ascii r.1 <=? N_of_ascii c)%N && (N_of_ascii c <=? N_of_ascii r.2)%N) rs.

(** The members of a set: [a-z] is a range, any other character itself. *)
Fixpoint set_ranges (s : list ascii) : list (ascii * ascii) :=
  match s with
  | [] => []
  | a :: (("-"%char :: b :: rest) as tl) => (a, b) :: set_ranges rest
  | a :: rest => (a, a) :: set_ranges rest
  end.

(** Up to the closing bracket; a bracket that comes first is a member. *)
Fixpoint to_bracket (s : list ascii) : option (list ascii * list ascii) :=
  match s with
  | [] => None
  | c :: s' =>
      if Ascii.eqb c "]" then Some ([], s')
      else match to_bracket s' with
           | Some (m, rest) => Some (c :: m, rest)
           | None => None
           end
  end.
Definition set_members (s : list ascii) : option (list ascii * list ascii) :=
  match s with
  | "]"%char :: s' =>
      match to_bracket s' with Some (m, rest) => Some ("]"%char :: m, rest) | None => None end
  | _ => to_bracket s
  end.

Fixpoint glob_items (fuel : nat) (p : list ascii) : list glob_item :=
  match fuel with
  | 0 => []
  | S fuel =>
      match p with
      | [] => []
      | "*"%char :: p' => GStar :: glob_items fuel p'
      | "?"%char :: p' => GAny :: glob_items fuel p'
      | "["%char :: p' =>
          let '(neg, body) := match p' with "!"%char :: q => (true, q) | _ => (false, p') end in
          match set_members body with
          | Some (m, rest) => GSet neg (set_ranges m) :: glob_items fuel rest
          | None => GChar "[" :: glob_items fuel p'
          end
      | c :: p' => GChar c :: glob_items fuel p'
      end
  end.

Fixpoint glob_match (items : list glob_item) : list ascii → bool :=
  match items with
  | [] => λ s, match s with [] => true | _ => false end
  | GStar :: rest =>
      fix star (s : list ascii) : bool :=
        glob_match rest s || match s with [] => false | _ :: s' => star s' end
  | i :: rest => λ s,
      match s with
      | [] => false
      | c :: s' =>
          match i with
          | GChar d => Ascii.eqb c d
          | GSet neg rs => xorb neg (in_ranges rs c)
          | _ => true
          end && glob_match rest s'
      end
  end.

Definition fnmatchcase (name pat : string) : bool :=
  let p := list_ascii_of_string pat in
  glob_match (glob_items (length p) p) (list_ascii_of_string name).

(** ** Evaluation *)

Definition non_empty_str (v : pyval) : option string :=
  match v with PStr s => if (s =? "")%string then None else Some s | _ => None end.

(** The loops over [{arg: [pattern, ...]}]: the first pattern that [hit]s the
    value of its argument. *)
Definition scan_commands (kind : string) (hit : string → string → bool)
    (shape args : pyval) : option string :=
  match shape, args with
  | PDict patterns_of, PDict a =>
      first_some (λ kv : string * pyval,
        match kv.2, get a kv.1 with
        | PList patterns, PStr value =>
            match first_such (hit value) (omap non_empty_str patterns) with
            | Some pat => Some (kind +:+ " " +:+ repr_str pat +:+ " matched on arg "
                                +:+ repr_str kv.1)
            | None => None
            end
        | _, _ => None
        end) patterns_of
  | _, _ => None
  end.

(** The loops over the path-shaped arguments. *)
Definition scan_paths (kind : string) (hit : string → string → bool)
    (shape args : pyval) : option string :=
  match shape, args with
  | PList patterns, PDict a =>
      first_some (λ kv : string * pyval,
        match mem kv.1 _PATH_ARG_NAMES, kv.2 with
        | true, PStr value =>
            match first_such (hit value) (omap non_empty_str patterns) with
            | Some pat => Some (kind +:+ " " +:+ repr_str pat +:+ " matched on arg "
                                +:+ repr_str kv.1)
            | None => None
            end
        | _, _ => None
        end) a
  | _, _ => None
  end.

Definition substring_hit (value pat : string) : bool := contains (lower pat) (lower value).
Definition prefix_hit (value prefix : string) : bool := startswith prefix value.

Section Guard.
Context `{PyRe}.

(** [re.search(pat, value, re.IGNORECASE)]; [re.error] is skipped. *)
Definition regex_hit (value pat : string) : bool :=
  default false (re_search_text IGNORECASE pat value).

Definition _evaluate (rule : pydict) (tool_name : string) (args : pyval) : option string :=
  if negb (py_eq (get rule "canonical_tool_name") (PStr tool_name)) then None
  else if match get rule "destructive" with PBool true => true | _ => false end
  then Some ("tool " +:+ repr_str tool_name +:+ " is marked destructive")
  else
    first_some (λ o, o)
      [scan_commands "destructive substring" substring_hit
         (get rule "destructive_commands") args;
       scan_commands "destructive regex" regex_hit
         (get rule "destructive_commands_regex") args;
       scan_paths "destructive path prefix" prefix_hit (get rule "destructive_paths") args;
       scan_paths "destructive path pattern" fnmatchcase
         (get rule "destructive_path_patterns") args].

Definition _block (reason : string) (rule : pydict) (src : string) : pydict :=
  [("error", PStr ("tool call blocked by " +:+ src +:+ ": " +:+ reason
      +:+ ". If the user has explicitly approved this call, ask them to type "
      +:+ "`/grant <command>` to approve it for the rest of this "
      +:+ "session, then retry. Otherwise re-run with a narrower target "
      +:+ "or ask the user to add a rule to " +:+ DEFAULT_POLICIES_FILENAME
      +:+ " (you cannot write it yourself, see the `policy` skill)."));
   ("confirmation_required", PBool true);
   ("matched_rule", PDict rule)].

(** The string under [key] of a [process] call whose action is [action]. *)
Definition process_arg (action key : string) (tool_name : string) (args : pyval) :
    option string :=
  match args with
  | PDict a =>
      if (tool_name =? PROCESS)%string && py_eq (get a "action") (PStr action)
      then get_str a key else None
  | _ => None
  end.

Definition _command_for (tool_name : string) (args : pyval) : option string :=
  first_some (λ o, o)
    [match args with
     | PDict a => if (tool_name =? BASH)%string then get_str a "command" else None
     | _ => None
     end;
     process_arg "write" "data" tool_name args;
     process_arg "spawn" "command" tool_name args].

(** The first rule that blocks, and its reason. *)
Definition first_block (rules : list pydict) (tool_name : string) (args : pyval) :
    option pydict :=
  first_some (λ rule, match _evaluate rule tool_name args with
                      | Some reason => Some (_block reason rule "policy")
                      | None => None
                      end) rules.

(** A command that reaches the shell through [process], under bash's rules. *)
Definition synthetic_block (rules : list pydict) (command : option string) : option pydict :=
  match command with
  | Some c => first_block rules BASH (PDict [("command", PStr c)])
  | None => None
  end.

Definition safety_block (command : option string) (ask_is_deny : bool) : option pydict :=
  match command with
  | None => None
  | Some c =>
      match classify c with
      | Some (t, why) =>
          if match t with Deny => true | Ask => ask_is_deny end
          then Some (_block why [("command_safety", PStr (tier_name t))] "command_safety")
          else None
      | None => None
      end
  end.

(** The guard past the grants: what the loaded rules say. *)
Definition check_call (rules : list pydict) (tool_name : string) (args : pyval)
    (ask_is_deny : bool) : option pydict :=
  first_some (λ o, o)
    [first_block rules tool_name args;
     synthetic_block rules (process_arg "write" "data" tool_name args);
     synthetic_block rules (process_arg "spawn" "command" tool_name args);
     safety_block (_command_for tool_name args) ask_is_deny].

Definition exempt (state : session) (tool_name : string) (args : pyval) : bool :=
  match state with
  | Some d => match find_matching_grant d tool_name args with Some _ => true | None => false end
  | None => false
  end.

Definition policies_guard (c : policies_cache) (f : fs) (e : option env) (state : session)
    (tool_name : string) (args : pyval) (ask_is_deny : bool) :
    res (option pydict) * policies_cache :=
  if (tool_name =? "")%string then (Ok None, c)
  else if exempt state tool_name args then (Ok None, c)
  else
    let '(rules, c') := load_policies_for_env c f e in
    (let! rs := rules in Ok (check_call rs tool_name args ask_is_deny), c').
End Guard.

(** * Facts *)

(** ** Globs *)

Lemma glob_star_app rest l : ∀ s, glob_match rest s = true → glob_match (GStar :: rest) (l ++ s) = true.
Proof.
  induction l as [|c l IH]; intros s H; cbn [app].
  - destruct s; cbn in *; by rewrite H.
  - change (glob_match rest (c :: l ++ s) || glob_match (GStar :: rest) (l ++ s) = true).
    rewrite IH by done. by rewrite orb_true_r.
Qed.

Lemma glob_star_all s : glob_match [GStar] s = true.
Proof. rewrite <-(app_nil_r s). by apply glob_star_app. Qed.

Lemma glob_chars l rest s :
  glob_match rest s = true → glob_match (map GChar l ++ rest) (l ++ s) = true.
Proof.
  intros H. induction l as [|c l IH]; cbn; [done|]. by rewrite Ascii.eqb_refl.
Qed.

(** ** The first block *)

Section BlockFacts.
Context `{PyRe}.

Lemma first_block_some rules t a :
  is_Some (first_block rules t a) ↔ ∃ r, r ∈ rules ∧ is_Some (_evaluate r t a).
Proof.
  unfold first_block. split.
  - intros [b (r & Hr & Hb)%first_some_Some]. exists r. split; [done|].
    by destruct (_evaluate r t a).
  - intros (r & Hr & [x Hx]). destruct (first_some _ _) eqn:E; [done|].
    rewrite first_some_None in E. specialize (E r Hr). cbn in E. by rewrite Hx in E.
Qed.

Lemma evaluate_other r t a :
  py_eq (get r "canonical_tool_name") (PStr t) = false → _evaluate r t a = None.
Proof. unfold _evaluate. by intros ->. Qed.

Lemma first_block_other rules t a :
  (∀ r, r ∈ rules → py_eq (get r "canonical_tool_name") (PStr t) = false) →
  first_block rules t a = None.
Proof.
  intros Hr. apply first_some_None. intros r Hin. by rewrite evaluate_other by auto.
Qed.

Lemma first_some_cons_is_Some {A} (o : option A) l :
  is_Some (first_some (λ o, o) (o :: l)) ↔ is_Some o ∨ is_Some (first_some (λ o, o) l).
Proof. destruct o; cbn; [|naive_solver]. split; eauto. Qed.

Lemma scan_paths_hit kind hit pats a arg value pat :
  mem arg _PATH_ARG_NAMES = true → (arg, PStr value) ∈ a →
  PStr pat ∈ pats → pat ≠ "" → hit value pat = true →
  is_Some (scan_paths kind hit (PList pats) (PDict a)).
Proof.
  intros Harg Ha Hp Hne Hh. unfold scan_paths.
  destruct (first_some _ a) eqn:E; [done|]. rewrite first_some_None in E.
  specialize (E _ Ha). cbn [fst snd] in E. rewrite Harg in E.
  destruct (first_such _ _) eqn:Ef; [done|]. rewrite first_such_None in Ef.
  rewrite Ef in Hh; [done|]. apply list_elem_of_omap. exists (PStr pat). split; [done|].
  cbn. destruct (pat =? "")%string eqn:Ep; bool_prop; done.
Qed.
End BlockFacts.

(** ** Protected paths *)

Definition _protected_dirs : list string := [".ssh"; ".aws"; ".config/gcloud"; ".kube"; ".lha"].
Definition _protected_files : list string := ["/etc/sudoers"; "/etc/shadow"; "/etc/passwd"].

(** Below a protected directory, or starting with a protected file. *)
Definition protected_path (path : string) : Prop :=
  (∃ l d r, path = l +:+ "/" +:+ d +:+ "/" +:+ r ∧ d ∈ _protected_dirs) ∨
  (∃ r, path = ".lha/" +:+ r) ∨
  (∃ p r, path = p +:+ r ∧ p ∈ _protected_files).

Definition file_globs : list string :=
  ["*/.ssh/*"; "*/.aws/*"; "*/.config/gcloud/*"; "*/.kube/*"; ".lha/*"; "*/.lha/*"].

Lemma list_ascii_app a b :
  list_ascii_of_string (a +:+ b) = list_ascii_of_string a ++ list_ascii_of_string b.
Proof. induction a as [|c a IH]; cbn; [done|]. by rewrite IH. Qed.

Lemma below_dir_matches l d r :
  d ∈ _protected_dirs →
  ∃ g, g ∈ file_globs ∧ g ≠ "" ∧ fnmatchcase (l +:+ "/" +:+ d +:+ "/" +:+ r) g = true.
Proof.
  intros Hd. exists ("*/" +:+ d +:+ "/*").
  assert (glob_items (slen ("*/" +:+ d +:+ "/*")) (list_ascii_of_string ("*/" +:+ d +:+ "/*"))
    = GStar :: map GChar (list_ascii_of_string ("/" +:+ d +:+ "/")) ++ [GStar] ∧
    ("*/" +:+ d +:+ "/*") ∈ file_globs) as [Hg Hf].
  { unfold _protected_dirs in Hd. rewrite !elem_of_cons, elem_of_nil in Hd.
    destruct Hd as [-> | [-> | [-> | [-> | [-> | []]]]]]; (split; [done|unfold file_globs; cbn; set_solver]). }
  split; [done|]. split; [done|]. unfold fnmatchcase.
  assert (length (list_ascii_of_string ("*/" +:+ d +:+ "/*")) = slen ("*/" +:+ d +:+ "/*")) as Hlen.
  { generalize ("*/" +:+ d +:+ "/*"). intros s. induction s; cbn; auto. }
  rewrite Hlen, Hg. clear.
  assert (l +:+ "/" +:+ d +:+ "/" +:+ r = l +:+ (("/" +:+ d +:+ "/") +:+ r)) as ->
    by by rewrite !sapp_assoc.
  generalize ("/" +:+ d +:+ "/"). intros m. rewrite !list_ascii_app. apply glob_star_app.
  apply glob_chars, glob_star_all.
Qed.

Lemma seed_file_rule t :
  t = WRITE ∨ t = EDIT →
  ∃ r, r ∈ _read_default_seed ∧ get r "canonical_tool_name" = PStr t ∧
    get r "destructive_paths" = strs _protected_files ∧
    get r "destructive_path_patterns" = strs file_globs.
Proof.
  assert (∃ x y z, _read_default_seed = [x; y; z] ∧
    (get y "canonical_tool_name" = PStr WRITE ∧ get y "destructive_paths" = strs _protected_files ∧
     get y "destructive_path_patterns" = strs file_globs) ∧
    (get z "canonical_tool_name" = PStr EDIT ∧ get z "destructive_paths" = strs _protected_files ∧
     get z "destructive_path_patterns" = strs file_globs)) as (x & y & z & -> & Hy & Hz).
  { eexists _, _, _. split; [vm_compute; reflexivity|]. done. }
  intros [-> | ->]; [exists y|exists z]; split; try done; set_solver.
Qed.

Lemma file_rule_blocks `{PyRe} r t a arg path :
  get r "canonical_tool_name" = PStr t →
  get r "destructive_paths" = strs _protected_files →
  get r "destructive_path_patterns" = strs file_globs →
  mem arg _PATH_ARG_NAMES = true → (arg, PStr path) ∈ a → protected_path path →
  is_Some (_evaluate r t (PDict a)).
Proof.
  intros Ht Hf Hg Harg Ha Hp. unfold _evaluate. rewrite Ht, Hf, Hg.
  assert (py_eq (PStr t) (PStr t) = true) as -> by by apply py_eq_str. cbn [negb].
  destruct (match get r "destructive" with PBool true => true | _ => false end); [done|].
  rewrite !first_some_cons_is_Some. unfold strs.
  destruct Hp as [(l & d & x & -> & Hd)|[(x & ->)|(p & x & -> & Hp)]].
  - right; right; right; left.
    destruct (below_dir_matches l d x Hd) as (g & Hin & Hne & Hm).
    eapply scan_paths_hit; [done..| |done|done]. by apply list_elem_of_fmap_2.
  - right; right; right; left. eapply scan_paths_hit with (pat := ".lha/*"); [done..| |done|].
    { apply list_elem_of_fmap_2. unfold file_globs. set_solver. }
    unfold fnmatchcase. cbn [append list_ascii_of_string].
    change (glob_items _ _) with (map GChar (list_ascii_of_string ".lha/") ++ [GStar]).
    apply (glob_chars (list_ascii_of_string ".lha/")), glob_star_all.
  - right; right; left. eapply scan_paths_hit with (pat := p); [done..| | |].
    { by apply list_elem_of_fmap_2. }
    { unfold _protected_files in Hp. intros ->. set_solver. }
    unfold prefix_hit. apply startswith_spec. by exists x.
Qed.

(** ** Filtering *)

Lemma filter_patterns_ok v l p :
  filter_patterns v = Some (PList l) → PStr p ∈ l → p = "" ∨ safe_regex p = true.
Proof.
  intros Hf Hp. destruct v as [| | | | |ps|]; try done. cbn in Hf.
  assert (PStr p ∈ List.filter keep_pattern ps) as Hin.
  { by destruct (List.filter keep_pattern ps); [|injection Hf as <-]. }
  rewrite list_elem_of_In, List.filter_In in Hin. destruct Hin as [_ Hk]. cbn in Hk.
  destruct (p =? "")%string eqn:E; bool_prop; auto.
Qed.

(** ** Every cached rule list contains the seed *)

Definition seeded (c : policies_cache) : Prop :=
  (∀ v, oc_value c = Some v → _read_default_seed ⊆ v) ∧
  (∀ k v, dget (oc_remote c) k = Some v → _read_default_seed ⊆ v).

Lemma build_seeded text v : build_policies text = Ok v → _read_default_seed ⊆ v.
Proof. intros [= <-]. set_solver. Qed.

Lemma load_seeded c f e r c' :
  seeded c → load_policies_for_env c f e = (r, c') →
  seeded c' ∧ ∀ v, r = Ok v → _read_default_seed ⊆ v.
Proof.
  intros [Hl Hr]. unfold load_policies_for_env, load_for_env.
  destruct e as [e|]; [|by intros [= <- <-]; split; [|intros v [= <-]]].
  destruct (e_working_dir e) as [wd|]; [|by intros [= <- <-]; split; [|intros v [= <-]]].
  destruct (is_local_env e).
  - unfold load_local. destruct (cache_hit c _ _) as [v|] eqn:Eh.
    + intros [= <- <-]. split; [done|]. intros v' [= <-]. apply Hl.
      unfold cache_hit in Eh. destruct (oc_path c), (oc_mtime c), (oc_value c);
        try done. destruct (stat_mtime _ _); [|done]. by destruct (_ && _); simplify_eq.
    + destruct (local_text f _) as [t|]; cbn; intros [= <- <-]; [|done].
      split; [|intros v [= <-]; by apply (build_seeded t)].
      split; [|done]. intros v [= <-]. by apply (build_seeded t).
  - unfold load_remote. destruct (dget (oc_remote c) _) as [v|] eqn:Ed.
    + intros [= <- <-]. split; [done|]. intros v' [= <-]. by eapply Hr.
    + intros [= <- <-]. split; [|intros v [= <-]; by eapply build_seeded].
      split; [done|]. cbn. intros k v. rewrite dget_dset. case_decide; [|apply Hr].
      intros [= <-]. by eapply build_seeded.
Qed.

(** * Theorems *)

Section PolicyTheorems.
Context `{PyRe}.

(** A command reaches the shell through [process] under the checks of [bash]:
    whatever rules are loaded, a spawn or a write of a command that [bash]
    would refuse is refused, and when no rule is about [process] itself the
    outcome is the same block. *)
Theorem process_covers_bash rules cmd args ask :
  process_arg "spawn" "command" PROCESS (PDict args) = Some cmd ∨
  process_arg "write" "data" PROCESS (PDict args) = Some cmd →
  (is_Some (check_call rules BASH (PDict [("command", PStr cmd)]) ask) →
   is_Some (check_call rules PROCESS (PDict args) ask)) ∧
  ((∀ r, r ∈ rules → py_eq (get r "canonical_tool_name") (PStr PROCESS) = false) →
   check_call rules PROCESS (PDict args) ask =
   check_call rules BASH (PDict [("command", PStr cmd)]) ask).
Proof.
  intros Hcmd.
  set (sp := process_arg "spawn" "command" PROCESS (PDict args)) in *.
  set (wr := process_arg "write" "data" PROCESS (PDict args)) in *.
  assert ((sp = Some cmd ∧ wr = None) ∨ (wr = Some cmd ∧ sp = None)) as Hone.
  { subst sp wr. unfold process_arg in *. cbn [String.eqb] in *.
    change (PROCESS =? PROCESS)%string with true in *. cbn [andb] in *.
    destruct (py_eq (get args "action") (PStr "spawn")) eqn:E1,
      (py_eq (get args "action") (PStr "write")) eqn:E2; try naive_solver.
    apply py_eq_str in E1. apply py_eq_str in E2. congruence. }
  assert (_command_for PROCESS (PDict args) = Some cmd) as Hfor.
  { unfold _command_for. fold sp wr. change (PROCESS =? BASH)%string with false. clearbody sp wr. cbn.
    by destruct Hone as [[-> ->]|[-> ->]]. }
  assert (check_call rules PROCESS (PDict args) ask =
    first_some (λ o, o) [first_block rules PROCESS (PDict args); synthetic_block rules wr;
      synthetic_block rules sp; safety_block (Some cmd) ask]) as ->
    by (unfold check_call; by rewrite Hfor).
  assert (check_call rules BASH (PDict [("command", PStr cmd)]) ask =
    first_some (λ o, o) [first_block rules BASH (PDict [("command", PStr cmd)]); None; None;
      safety_block (Some cmd) ask]) as -> by done.
  clearbody sp wr.
  set (fb := first_block rules BASH (PDict [("command", PStr cmd)])).
  assert ((synthetic_block rules wr = fb ∧ synthetic_block rules sp = None) ∨
    (synthetic_block rules wr = None ∧ synthetic_block rules sp = fb)) as Ho.
  { destruct Hone as [[-> ->]|[-> ->]]; [right|left]; done. }
  split.
  - rewrite !first_some_cons_is_Some. destruct Ho as [[-> ->]|[-> ->]]; tauto.
  - intros Hn. rewrite (first_block_other rules PROCESS) by done. cbn [first_some].
    destruct Ho as [[-> ->]|[-> ->]]; by destruct fb.
Qed.

(** What the guard blocks: with no matching grant, exactly the calls a loaded
    rule refuses, directly or as the bash command a [process] call carries, and
    those the classifier denies (or asks about, in a headless child). *)
Theorem policies_guard_blocks_iff c f e state t a ask rules c' :
  t ≠ "" → exempt state t a = false → load_policies_for_env c f e = (Ok rules, c') →
  (∃ b, policies_guard c f e state t a ask = (Ok (Some b), c')) ↔
  (∃ r, r ∈ rules ∧ is_Some (_evaluate r t a)) ∨
  (∃ r cmd, r ∈ rules ∧
     (process_arg "write" "data" t a = Some cmd ∨ process_arg "spawn" "command" t a = Some cmd) ∧
     is_Some (_evaluate r BASH (PDict [("command", PStr cmd)]))) ∨
  (∃ cmd tr why, _command_for t a = Some cmd ∧ classify cmd = Some (tr, why) ∧
     (tr = Deny ∨ ask = true)).
Proof.
  intros Ht Hex Hl. unfold policies_guard. rewrite Hex, Hl.
  destruct (t =? "")%string eqn:E; [by bool_prop|]. cbn [res_bind].
  transitivity (is_Some (check_call rules t a ask)).
  { split; [intros [b [= ->]]; done|intros [b ->]; eauto]. }
  unfold check_call. rewrite !first_some_cons_is_Some.
  assert (∀ o, is_Some (synthetic_block rules o) ↔ ∃ r cmd, r ∈ rules ∧ o = Some cmd ∧
    is_Some (_evaluate r BASH (PDict [("command", PStr cmd)]))) as Hsyn.
  { intros [cmd|]; cbn [synthetic_block].
    - rewrite first_block_some. naive_solver.
    - split; [by intros [? ?]|]. by intros (? & ? & _ & ? & _). }
  assert (is_Some (safety_block (_command_for t a) ask) ↔
    ∃ cmd tr why, _command_for t a = Some cmd ∧ classify cmd = Some (tr, why) ∧
     (tr = Deny ∨ ask = true)) as Hsafe.
  { unfold safety_block. destruct (_command_for t a) as [cmd|];
      [|split; [by intros [? ?]|by intros (? & ? & ? & ? & _)]].
    destruct (classify cmd) as [[tr why]|] eqn:Ec;
      [|split; [by intros [? ?]|intros (? & ? & ? & ? & ? & _); congruence]].
    split.
    - intros Hb. exists cmd, tr, why. split; [done|]. split; [done|].
      destruct tr; [by left|]. destruct ask; [by right|by destruct Hb].
    - intros (cmd' & tr' & why' & [= <-] & Hc & Hor). rewrite Ec in Hc. injection Hc as <- <-.
      destruct tr; [done|]. by destruct Hor as [?| ->]. }
  rewrite first_block_some, !Hsyn, Hsafe. cbn [first_some].
  split.
  - intros [?|[(r & cmd & ? & ? & ?)|[(r & cmd & ? & ? & ?)|[?|[? [=]]]]]]; eauto 10.
  - intros [?|[(r & cmd & ? & [?|?] & ?)|?]]; eauto 10.
Qed.

(** The seed holds under every overlay: without a matching grant a [write] or
    [edit] of a path below a credentials directory, below [.lha] (the guards'
    own overlays) or starting with a protected system file is blocked, whatever
    the overlays read and cached so far say. *)
Theorem seed_protects_paths c f e state t a ask arg path rules c' :
  seeded c → t = WRITE ∨ t = EDIT → exempt state t (PDict a) = false →
  load_policies_for_env c f e = (Ok rules, c') →
  mem arg _PATH_ARG_NAMES = true → (arg, PStr path) ∈ a → protected_path path →
  seeded c' ∧ ∃ b, policies_guard c f e state t (PDict a) ask = (Ok (Some b), c').
Proof.
  intros Hs Ht Hex Hl Harg Ha Hp.
  destruct (load_seeded _ _ _ _ _ Hs Hl) as [Hs' Hin]. split; [done|].
  unfold policies_guard. rewrite Hex, Hl. cbn [res_bind].
  assert ((t =? "")%string = false) as -> by by destruct Ht as [-> | ->].
  destruct (seed_file_rule t Ht) as (r & Hr & Ht' & Hp' & Hg').
  assert (is_Some (check_call rules t (PDict a) ask)) as [b ->]; [|by exists b].
  apply first_some_cons_is_Some. left. apply first_block_some.
  exists r. split; [by apply (Hin rules)|].
  by eapply file_rule_blocks.
Qed.
End PolicyTheorems.

(** ** Concrete inputs *)

Definition demo_fs : fs := FS ∅ ∅.

Lemma process_covers_bash_witness :
  let _ : PyRe := engine_re in
  let args := [("action", PStr "spawn"); ("command", PStr "rm -rf /")] in
  (is_Some (check_call [] BASH (PDict [("command", PStr "rm -rf /")]) false) →
   is_Some (check_call [] PROCESS (PDict args) false)) ∧
  ((∀ r, r ∈ [] → py_eq (get r "canonical_tool_name") (PStr PROCESS) = false) →
   check_call [] PROCESS (PDict args) false =
   check_call [] BASH (PDict [("command", PStr "rm -rf /")]) false).
Proof.
  intros Hre args. apply (process_covers_bash (H:=Hre) [] "rm -rf /" args false). left. reflexivity.
Defined.

Lemma policies_guard_blocks_iff_witness :
  let _ : PyRe := engine_re in
  let a := PDict [("command", PStr "rm -rf /")] in
  let rules := _read_default_seed in
  (∃ b, policies_guard empty_cache demo_fs None None BASH a false = (Ok (Some b), empty_cache)) ↔
  (∃ r, r ∈ rules ∧ is_Some (_evaluate r BASH a)) ∨
  (∃ r cmd, r ∈ rules ∧
     (process_arg "write" "data" BASH a = Some cmd ∨ process_arg "spawn" "command" BASH a = Some cmd) ∧
     is_Some (_evaluate r BASH (PDict [("command", PStr cmd)]))) ∨
  (∃ cmd tr why, _command_for BASH a = Some cmd ∧ classify cmd = Some (tr, why) ∧
     (tr = Deny ∨ false = true)).
Proof.
  intros Hre a rules.
  apply (policies_guard_blocks_iff (H:=Hre) empty_cache demo_fs None None BASH a false rules empty_cache);
    [done|reflexivity|reflexivity].
Defined.

Lemma seed_protects_paths_witness :
  let _ : PyRe := engine_re in
  seeded empty_cache ∧
  ∃ b, policies_guard empty_cache demo_fs None None WRITE
         (PDict [("path", PStr "/home/user/.ssh/authorized_keys")]) false = (Ok (Some b), empty_cache).
Proof.
  intros Hre.
  apply (seed_protects_paths (H:=Hre) empty_cache demo_fs None None WRITE
    [("path", PStr "/home/user/.ssh/authorized_keys")] false "path" "/home/user/.ssh/authorized_keys"
    _read_default_seed empty_cache); [by split|by left|reflexivity|reflexivity|reflexivity|by left|].
  left. exists "/home/user", ".ssh", "authorized_keys". split; [reflexivity|].
  apply (bool_decide_unpack _). vm_compute. exact I.
Defined.
