(* ===== verification/PermissionGuard.v ===== *)
(** * The permission gate: [horizon/guardrails/permission_guard.py]

    How a tool call resolves to allow, deny or ask over the layered rules, and
    the [before_tool_callback] that carries the decision out: yolo and headless
    modes, the confirmation request of [tools/_hitl.py], and the grant recorded
    on resume. *)

From S2P Require Import Prelude PyStr Names Regex PyVal Overlay CommandClassify.
From S2P Require Import CommandSafety PermissionRules.

Definition READ_ONLY_TOOLS : list string :=
  [READ; SEARCH_FILES; PRELOAD_MEMORY; LOAD_SKILL; WEB_RESEARCH].
Definition SELF_CONFIRMING_TOOLS : list string := [CLARIFY].
Definition SUBAGENT_TOOLS : list string := [SUBAGENT].

Definition _is_memory_search (tool_name : string) (args : pyval) : bool :=
  (tool_name =? MEMORY)%string
  && match args with PDict a => py_eq (get a "action") (PStr "search") | _ => false end.

Definition _shell_command (tool_name : string) (args : pyval) : option string :=
  match args with
  | PDict a =>
      if (tool_name =? BASH)%string then get_str a "command"
      else if (tool_name =? PROCESS)%string && py_eq (get a "action") (PStr "write")
      then get_str a "data"
      else if (tool_name =? PROCESS)%string && py_eq (get a "action") (PStr "spawn")
      then get_str a "command"
      else None
  | _ => None
  end.

(** The segments a shell command is resolved by. *)
Definition shell_segments (command : string) : list string :=
  match split_segments (strip_wrapper command) with
  | [] => [strip command]
  | segs => segs
  end.

(** [rule is None or rule.source not in {"grant", "overlay"}] *)
Definition unapproved (rule : option PermissionRule) : bool :=
  match rule with
  | Some r => negb (bool_decide (source r = Some "grant") || bool_decide (source r = Some "overlay"))
  | None => true
  end.

Definition asks (v : option verdict) : bool :=
  match v with Some (Ask, _) => true | _ => false end.

Section Deciding.
Context `{PyRe} `{PyFloat}.

(** The loop body: the decision for one segment. *)
Definition segment_decision (rules : list PermissionRule) (tool_name seg : string)
    (agent_name : option string) : decision * option PermissionRule :=
  let '(d, r) := resolve_decision rules tool_name (PDict [("command", PStr seg)])
                   (Some seg) agent_name in
  match d with
  | allow =>
      if has_command_substitution seg then (ask_user, None)
      else if unapproved r && asks (classify seg) then (ask_user, None)
      else (allow, r)
  | _ => (d, r)
  end.

(** The loop over the segments: the last denying rule and the prefixes of the
    segments to ask about. *)
Fixpoint shell_loop (rules : list PermissionRule) (tool_name : string)
    (agent_name : option string) (segs : list string)
    (deny_rule : option PermissionRule) (ask_prefixes : list string) :
    option PermissionRule * list string :=
  match segs with
  | [] => (deny_rule, ask_prefixes)
  | seg :: rest =>
      match segment_decision rules tool_name seg agent_name with
      | (deny, r) => shell_loop rules tool_name agent_name rest r ask_prefixes
      | (allow, _) => shell_loop rules tool_name agent_name rest deny_rule ask_prefixes
      | (ask_user, _) =>
          shell_loop rules tool_name agent_name rest deny_rule
            (ask_prefixes ++ [command_prefix seg])
      end
  end.

Definition _shell_decision (rules : list PermissionRule) (tool_name command : string)
    (agent_name : option string) : decision * option PermissionRule * list string :=
  match shell_loop rules tool_name agent_name (shell_segments command) None [] with
  | (Some r, _) => (deny, Some r, [])
  | (None, []) => (allow, None, [])
  | (None, ps) => (ask_user, None, dedup ps)
  end.

(** The decision, the rule of a deny, the proposed prefixes (shell only), and
    the shell command. *)
Record resolution := Resolution {
  rs_decision : decision;
  rs_deny_rule : option PermissionRule;
  rs_prefixes : option (list string);
  rs_command : option string
}.

(** What [resolve_permission_decision] makes of the effective rules. *)
Definition resolve_with (rules : list PermissionRule) (tool_name : string) (args : pyval)
    (agent_name : option string) : resolution :=
  match _shell_command tool_name args with
  | Some command =>
      let '(d, r, ps) := _shell_decision rules tool_name command agent_name in
      Resolution d r (match ps with [] => None | _ => Some ps end) (Some command)
  | None =>
      let '(d, matched) := resolve_decision rules tool_name args None agent_name in
      Resolution d (match d with deny => matched | _ => None end) None None
  end.

Definition resolve_permission_decision (c : rules_cache) (f : fs) (e : option env)
    (tool_name : string) (args : pyval) (state : session) (agent_name : option string) :
    res resolution * rules_cache :=
  let '(rules, c') := effective_rules c f e (read_session_grants state) in
  (let! rs := rules in Ok (resolve_with rs tool_name args agent_name), c').

(** ** Resuming a confirmation *)

(** [int(s)]: superscripts are digits to [isdigit] and no numerals. *)
Definition int_of_digits (s : string) : res Z := py_int (PStr s).

Definition isdigit (s : string) : bool := negb (s =? "")%string && sforall is_digit s.

(** [x or y] *)
Definition py_or (x y : pyval) : pyval := if truthy x then x else y.

Fixpoint index_of (x : string) (l : list string) : option nat :=
  match l with
  | [] => None
  | y :: l' => if (x =? y)%string then Some 0 else option_map S (index_of x l')
  end.

Definition _resolve_outcome (payload : pyval) (ordered_outcomes : list (string * string)) :
    res string :=
  let keys := map fst ordered_outcomes in
  let labels := map snd ordered_outcomes in
  match payload with
  | PDict p =>
      match first_such (λ k, py_eq (get p "outcome") (PStr k)) keys with
      | Some k => Ok k
      | None =>
          match py_or (get p "choice") (get p "answer") with
          | PStr choice0 =>
              let choice := strip choice0 in
              match index_of choice labels with
              | Some i => Ok (default "" (keys !! i))
              | None =>
                  if isdigit choice then
                    let! n := int_of_digits choice in
                    Ok (if ((0 <=? n) && (n <? Z.of_nat (length keys)))%Z
                        then default "" (keys !! Z.to_nat n) else "proceed_always")
                  else Ok "proceed_always"
              end
          | _ => Ok "proceed_always"
          end
      end
  | _ => Ok "proceed_always"
  end.

(** ** The gate *)

(** ADK's [ToolConfirmation]. *)
Record confirmation := Confirmation { tc_confirmed : bool; tc_payload : pyval }.

(** What a guard call reads and changes: the rule cache, the files, the
    session, the confirmation requests dispatched, [skip_summarization]. *)
Record world := World {
  w_cache : rules_cache;
  w_fs : fs;
  w_state : session;
  w_requests : list (string * pydict);
  w_skip : bool
}.
Definition with_cache (c : rules_cache) (w : world) : world :=
  World c (w_fs w) (w_state w) (w_requests w) (w_skip w).

(** The tool call: the tool, its arguments, the agent, the confirmation it
    resumes with, the environment, the mode, and the clock its writes leave. *)
Record call := Call {
  c_tool : string;
  c_args : pyval;
  c_agent : option string;
  c_confirmation : option confirmation;
  c_env : option env;
  c_headless : bool;
  c_now : mtime
}.

Definition request_user_confirmation (confirmed : option confirmation) (hint : string)
    (payload : pydict) (w : world) : option confirmation * world :=
  match confirmed with
  | Some tc => (Some tc, w)
  | None => (None, World (w_cache w) (w_fs w) (w_state w)
                     (w_requests w ++ [(hint, payload)]) true)
  end.

Definition refusal (msg : string) (flags : list string) : pydict :=
  ("error", PStr msg) :: map (λ k, (k, PBool true)) flags.

(** [x if x else y] on an optional text. *)
Definition or_text (x : option string) (y : string) : string :=
  match x with Some s => if (s =? "")%string then y else s | None => y end.

Definition deny_reply (tool_name : string) (rule : option PermissionRule) : pydict :=
  let src := match rule ≫= source with
             | Some s => if (s =? "")%string then "" else " [" +:+ s +:+ "]"
             | None => "" end in
  refusal (or_text (rule ≫= deny_message)
             ("tool call denied by permission rule" +:+ src +:+ ": " +:+ tool_name))
    ["permission_denied"].

Definition proposed_rule (tool_name : string) (prefixes : option (list string)) : pydict :=
  [("toolName", PStr tool_name); ("decision", PStr "allow")]
  ++ match prefixes with
     | Some ps => [("commandPrefix", PList (map PStr ps))]
     | None => []
     end.

Definition label_target (tool_name : string) (prefixes : option (list string)) : string :=
  match prefixes with
  | Some ps => join ", " (map (λ p, "`" +:+ p +:+ "`") ps)
  | None => tool_name
  end.

Definition ordered_outcomes (target : string) : list (string * string) :=
  [("proceed_once", "Yes, once");
   ("proceed_always", "Yes " +:+ em_dash +:+ " allow " +:+ target +:+ " this session");
   ("proceed_always_and_save", "Always allow " +:+ target);
   ("cancel", "Decline")].

Definition summary_of (tool_name : string) (command : option string) : string :=
  match command with
  | Some c => "Run: " +:+ c
  | None => "Allow tool: " +:+ tool_name
  end.

Definition request_payload (tool_name : string) (r : resolution) : pydict :=
  let summary := summary_of tool_name (rs_command r) in
  [("kind", PStr "permission"); ("toolName", PStr tool_name); ("summary", PStr summary);
   ("proposedRule", PDict (proposed_rule tool_name (rs_prefixes r)));
   ("question", PStr summary);
   ("choices", PList (map (λ kv, PStr kv.2)
      (ordered_outcomes (label_target tool_name (rs_prefixes r)))))].

(** Recording the outcome of a confirmed call. *)
Definition record_outcome (k : call) (outcome : string) (rule : pydict) (w : world) :
    res (option pydict) * world :=
  if (outcome =? "cancel")%string
  then (Ok (Some (refusal ("User declined the " +:+ c_tool k +:+ " call.")
                    ["permission_denied"])), w)
  else if (outcome =? "proceed_always")%string
  then (Ok None,
        World (w_cache w) (w_fs w)
          (write_session_grants (w_state w)
             (read_session_grants (w_state w) ++ [PDict rule])).2
          (w_requests w) (w_skip w))
  else if (outcome =? "proceed_always_and_save")%string
  then match c_env k with
       | None => (Ok None, w)
       | Some e =>
           match append_persisted_rule (w_cache w) (w_fs w) (c_now k) e rule with
           | (Ok _, c', f') =>
               (Ok None, World c' f' (w_state w) (w_requests w) (w_skip w))
           | (Raise x, c', f') =>
               (Raise x, World c' f' (w_state w) (w_requests w) (w_skip w))
           end
       end
  else (Ok None, w).

(** The branch for [ask_user] with a user present. *)
Definition ask_branch (k : call) (r : resolution) (w : world) :
    res (option pydict) * world :=
  let target := label_target (c_tool k) (rs_prefixes r) in
  match request_user_confirmation (c_confirmation k) (summary_of (c_tool k) (rs_command r))
          (request_payload (c_tool k) r) w with
  | (None, w') =>
      (Ok (Some (refusal ("This " +:+ c_tool k +:+
         " call requires user approval. Awaiting confirmation.")
         ["confirmation_required"])), w')
  | (Some tc, w') =>
      if negb (tc_confirmed tc)
      then (Ok (Some (refusal ("User declined the " +:+ c_tool k +:+ " call.")
                        ["permission_denied"])), w')
      else match _resolve_outcome (tc_payload tc) (ordered_outcomes target) with
           | Ok outcome =>
               record_outcome k outcome (proposed_rule (c_tool k) (rs_prefixes r)) w'
           | Raise x => (Raise x, w')
           end
  end.

Definition headless_reply (tool_name : string) : pydict :=
  refusal ("This " +:+ tool_name +:+
    " call needs approval, but no user is present (headless routine run). Auto-denied " +:+
    em_dash +:+ " design the task to avoid operations that require approval.")
    ["permission_denied"; "headless_denied"].

Definition bypasses (tool_name : string) (args : pyval) : bool :=
  (tool_name =? "")%string
  || mem tool_name READ_ONLY_TOOLS
  || _is_memory_search tool_name args
  || mem tool_name SELF_CONFIRMING_TOOLS
  || mem tool_name SUBAGENT_TOOLS.

Definition permission_guard (k : call) (w : world) : res (option pydict) * world :=
  if bypasses (c_tool k) (c_args k) then (Ok None, w)
  else
    let '(resolved, c') := resolve_permission_decision (w_cache w) (w_fs w) (c_env k)
                             (c_tool k) (c_args k) (w_state w) (c_agent k) in
    let w := with_cache c' w in
    match resolved with
    | Raise x => (Raise x, w)
    | Ok r =>
        match rs_decision r with
        | allow => (Ok None, w)
        | deny => (Ok (Some (deny_reply (c_tool k) (rs_deny_rule r))), w)
        | ask_user =>
            match read_approval_mode (w_state w) with
            | Raise x => (Raise x, w)
            | Ok mode =>
                if (mode =? "yolo")%string && negb (c_headless k) then (Ok None, w)
                else if c_headless k then
                  match rs_command r with
                  | Some _ => (Ok None, w)
                  | None => (Ok (Some (headless_reply (c_tool k))), w)
                  end
                else ask_branch k r w
            end
        end
    end.
End Deciding.

(** * Facts *)

Section GuardFacts.
Context `{PyRe} `{PyFloat}.
Implicit Types rules : list PermissionRule.

(** ** One segment *)

(** A rule that denies a segment. *)
Definition denied_by rules t seg g (r : PermissionRule) : Prop :=
  r ∈ rules ∧ rule_decision r = deny ∧
  rule_matches r t (PDict [("command", PStr seg)]) (Some seg) g = true.

Lemma segment_deny_iff rules t seg g :
  (segment_decision rules t seg g).1 = deny ↔ ∃ r, denied_by rules t seg g r.
Proof.
  unfold segment_decision. set (a := PDict _).
  destruct (resolve_decision rules t a (Some seg) g) as [d o] eqn:E. split.
  - intros Hd. assert (d = deny) as -> by by destruct d; repeat case_match.
    unfold resolve_decision in E. fold (matching rules t a (Some seg) g) in E.
    destruct (first_such is_deny _) as [r|] eqn:Ef.
    + apply first_such_Some in Ef as [Hr Hd'%is_deny_spec].
      rewrite list_elem_of_In, <-in_rev, <-list_elem_of_In in Hr.
      apply elem_matching in Hr as [? ?]. by exists r.
    + destruct (last _) as [r|] eqn:El; [|done]. injection E as Hr _.
      apply last_Some in El as [l Hl]. exists r.
      assert (r ∈ matching rules t a (Some seg) g) as Hin by (rewrite Hl; set_solver).
      apply elem_matching in Hin as [? ?]. done.
  - intros (r & Hin & Hd & Hm).
    destruct (resolve_some_deny _ _ _ _ _ _ Hin Hm Hd) as (r' & E' & _).
    fold a in E'. rewrite E in E'. injection E' as -> _. done.
Qed.

Lemma segment_deny_rule rules t seg g d o :
  segment_decision rules t seg g = (d, o) → d = deny → ∃ r, o = Some r ∧ r ∈ rules.
Proof.
  unfold segment_decision, resolve_decision.
  fold (matching rules t (PDict [("command", PStr seg)]) (Some seg) g).
  destruct (first_such is_deny _) as [r|] eqn:Ef.
  - intros [= <- <-] _. exists r. split; [done|].
    apply first_such_Some in Ef as [Hr _].
    rewrite list_elem_of_In, <-in_rev, <-list_elem_of_In in Hr. by apply elem_matching in Hr as [? _].
  - destruct (last _) as [r|] eqn:El; [|by intros [= <- <-]].
    apply last_Some in El as [l Hl].
    assert (r ∈ matching rules t (PDict [("command", PStr seg)]) (Some seg) g) as Hin
      by (rewrite Hl; set_solver).
    apply elem_matching in Hin as [? ?].
    destruct (rule_decision r) eqn:Er; repeat case_match; intros; simplify_eq; eauto.
Qed.

Definition asked rules t g (seg : string) : bool :=
  bool_decide ((segment_decision rules t seg g).1 = ask_user).

Lemma shell_loop_spec rules t g segs : ∀ dr ps,
  (shell_loop rules t g segs dr ps).2 =
    ps ++ map command_prefix (List.filter (asked rules t g) segs) ∧
  ((shell_loop rules t g segs dr ps).1 = None ↔
     dr = None ∧ ∀ seg, seg ∈ segs → (segment_decision rules t seg g).1 ≠ deny) ∧
  (∀ r, (shell_loop rules t g segs dr ps).1 = Some r → dr = Some r ∨ r ∈ rules).
Proof.
  induction segs as [|seg segs IH]; intros dr ps.
  { cbn. rewrite app_nil_r. split; [done|]. split; [|by left].
    split; [intros ->; split; [done|intros ? Hx; by apply elem_of_nil in Hx]|by intros [-> _]]. }
  cbn [shell_loop List.filter]. unfold asked at 1.
  destruct (segment_decision rules t seg g) as [[] o] eqn:E; cbn [fst].
  - destruct (IH dr ps) as (H2 & H1 & H3). split; [done|]. split; [|done].
    rewrite H1. setoid_rewrite elem_of_cons. split; [|naive_solver].
    intros [-> Hs]. split; [done|]. intros s [-> |Hs']; [by rewrite E|auto].
  - destruct (segment_deny_rule _ _ _ _ _ _ E eq_refl) as (r & -> & Hr).
    destruct (IH (Some r) ps) as (H2 & H1 & H3). split; [done|]. split.
    + rewrite H1. split; [by intros [? _]|]. intros [_ Hs].
      destruct (Hs seg); [left|by rewrite E].
    + intros r' Hr'. destruct (H3 r' Hr') as [[= <-]|?]; auto.
  - destruct (IH dr (ps ++ [command_prefix seg])) as (H2 & H1 & H3).
    split; [|split; [|done]].
    + rewrite H2. cbn. by rewrite <-app_assoc.
    + rewrite H1. setoid_rewrite elem_of_cons. split; [|naive_solver].
      intros [-> Hs]. split; [done|]. intros s [-> |Hs']; [by rewrite E|auto].
Qed.

Lemma shell_decision_cases rules t cmd g :
  let segs := shell_segments cmd in
  ((∃ seg, seg ∈ segs ∧ (segment_decision rules t seg g).1 = deny) ∧
   ∃ r, r ∈ rules ∧ _shell_decision rules t cmd g = (deny, Some r, [])) ∨
  ((∀ seg, seg ∈ segs → (segment_decision rules t seg g).1 ≠ deny) ∧
   ((∀ seg, seg ∈ segs → (segment_decision rules t seg g).1 = allow) ∧
    _shell_decision rules t cmd g = (allow, None, []) ∨
    (∃ seg, seg ∈ segs ∧ (segment_decision rules t seg g).1 = ask_user) ∧
    _shell_decision rules t cmd g =
      (ask_user, None, dedup (map command_prefix (List.filter (asked rules t g) segs))))).
Proof.
  intros segs. unfold _shell_decision. fold segs.
  destruct (shell_loop_spec rules t g segs None []) as (H2 & H1 & H3).
  destruct (shell_loop _ _ _ segs None []) as [[r|] ps]; cbn [fst snd app] in *.
  - left. split; [|exists r; split; [by destruct (H3 r eq_refl)|done]].
    destruct (decide (Exists (λ seg, (segment_decision rules t seg g).1 = deny) segs))
      as [He|He].
    + by apply Exists_exists in He.
    + assert (Some r = None) as [=]. apply H1. split; [done|]. intros seg Hs Hd.
      apply He, Exists_exists. eauto.
  - destruct H1 as [H1 _]. destruct (H1 eq_refl) as [_ Hnd]. right. split; [done|].
    subst ps. destruct (map _ _) as [|p ps] eqn:Em.
    + left. split; [|done]. intros seg Hs. specialize (Hnd seg Hs).
      destruct (segment_decision rules t seg g).1 eqn:Ed; [done|done|].
      assert (seg ∈ List.filter (asked rules t g) segs) as Hf.
      { rewrite list_elem_of_In, List.filter_In, <-list_elem_of_In. split; [done|].
        by apply bool_decide_eq_true. }
      apply map_eq_nil in Em. rewrite Em in Hf. by apply elem_of_nil in Hf.
    + right. split; [|done].
      assert (p ∈ map command_prefix (List.filter (asked rules t g) segs)) as Hp
        by (rewrite Em; left).
      apply list_elem_of_fmap in Hp as (seg & -> & Hs).
      rewrite list_elem_of_In, List.filter_In, <-list_elem_of_In in Hs.
      destruct Hs as [Hs Ha%bool_decide_eq_true]. by exists seg.
Qed.
End GuardFacts.

(** ** The rule an approval records *)

Definition granted_rule (t : string) (prefixes : option (list string)) : PermissionRule :=
  {| tool_names := [t]; command_prefixes := default [] prefixes; command_regex := None;
     args_pattern := None; rule_decision := allow; deny_message := None; subagent := None;
     source := Some "grant" |}.

(** The approval of a shell command proposes prefixes; that of another tool
    must not be a blanket allow of a shell tool. *)
Definition grantable (t : string) (prefixes : option (list string)) : Prop :=
  match prefixes with
  | Some ps => ps ≠ []
  | None => mem t _TOOLS_REQUIRING_NARROWING = false
  end.

Lemma omap_is_str ps : omap is_str (map PStr ps) = ps.
Proof. induction ps as [|p ps IH]; cbn; [done|]. by rewrite IH. Qed.

Lemma proposed_rule_parsed t prefixes :
  apply_tool_aliases t = t → grantable t prefixes →
  ∃ r, parse_rules false [PDict (proposed_rule t prefixes)] = Ok [r] ∧
    _stamp [r] "grant" = [granted_rule t prefixes].
Proof.
  intros Ht Hg.
  exists {| tool_names := [apply_tool_aliases t];
            command_prefixes := omap is_str (map PStr (default [] prefixes));
            command_regex := None; args_pattern := None; rule_decision := allow;
            deny_message := None; subagent := None; source := None |}.
  rewrite omap_is_str, Ht. split.
  - rewrite <-Ht at 2. rewrite <-(omap_is_str (default [] prefixes)). by destruct prefixes.
  - unfold _stamp, _is_blanket_allow. cbn -[_TOOLS_REQUIRING_NARROWING mem]. unfold grantable in Hg.
    destruct prefixes as [[|p ps]|]; cbn [default is_nil] in *; [done| |by rewrite Hg].
    by rewrite !andb_false_r.
Qed.

Lemma shell_segments_stripped cmd seg : seg ∈ shell_segments cmd → strip seg = seg.
Proof.
  unfold shell_segments. intros Hs.
  pose proof (segments_pieces (strip_wrapper cmd)) as Hp.
  destruct (split_segments (strip_wrapper cmd)) as [|s segs].
  - apply list_elem_of_singleton in Hs as ->. apply strip_idem.
  - rewrite Forall_forall in Hp. by apply (Hp seg).
Qed.

Section Granting.
Context `{PyRe} `{PyFloat}.
Implicit Types rules : list PermissionRule.

Lemma resolve_snoc rules r t a c g :
  (∀ r', r' ∈ rules → rule_matches r' t a c g = true → rule_decision r' ≠ deny) →
  rule_decision r ≠ deny →
  resolve_decision (rules ++ [r]) t a c g =
  if rule_matches r t a c g then (rule_decision r, Some r)
  else resolve_decision rules t a c g.
Proof.
  intros Hn Hr.
  assert (∀ r', r' ∈ rules ++ [r] → rule_matches r' t a c g = true → rule_decision r' ≠ deny).
  { intros r' [Hin|Hin]%elem_of_app; [by apply Hn|].
    by apply list_elem_of_singleton in Hin as ->. }
  rewrite resolve_no_deny by done. rewrite matching_app. unfold matching at 2. cbn.
  destruct (rule_matches r t a c g); [by rewrite last_snoc|].
  rewrite app_nil_r. by rewrite resolve_no_deny.
Qed.

Lemma granted_matches_shell t prefixes seg g :
  default [] prefixes ≠ [] →
  rule_matches (granted_rule t prefixes) t (PDict [("command", PStr seg)]) (Some seg) g =
  existsb (_prefix_matches seg) (default [] prefixes).
Proof.
  intros Hne. unfold rule_matches, _tool_matches, granted_rule. cbn.
  rewrite String.eqb_refl, orb_true_r. cbn. rewrite !andb_true_r.
  by destruct (default [] prefixes).
Qed.

Lemma granted_matches_tool t a g :
  rule_matches (granted_rule t None) t a None g = true.
Proof.
  unfold rule_matches, _tool_matches, granted_rule. cbn.
  by rewrite String.eqb_refl, orb_true_r.
Qed.

Lemma segment_granted rules t ps seg g :
  (segment_decision rules t seg g).1 ≠ deny → ps ≠ [] →
  has_command_substitution seg = false →
  existsb (_prefix_matches seg) ps = true ∨ (segment_decision rules t seg g).1 = allow →
  (segment_decision (rules ++ [granted_rule t (Some ps)]) t seg g).1 = allow.
Proof.
  intros Hnd Hne Hsub Hor.
  assert (∀ r', r' ∈ rules →
    rule_matches r' t (PDict [("command", PStr seg)]) (Some seg) g = true →
    rule_decision r' ≠ deny) as Hn.
  { intros r Hr Hm Hd. apply Hnd, segment_deny_iff. by exists r. }
  unfold segment_decision. rewrite resolve_snoc by done.
  rewrite granted_matches_shell by done. change (default [] (Some ps)) with ps.
  destruct (existsb (_prefix_matches seg) ps).
  - by rewrite Hsub.
  - destruct Hor as [?|Ha]; [done|]. exact Ha.
Qed.

(** After the approval of a shell ask, the command resolves to allow. *)
Lemma shell_granted rules t cmd g ps :
  _shell_decision rules t cmd g = (ask_user, None, ps) →
  (∀ seg, seg ∈ shell_segments cmd → has_command_substitution seg = false) →
  _shell_decision (rules ++ [granted_rule t (Some ps)]) t cmd g = (allow, None, []) ∧ ps ≠ [].
Proof.
  intros Hd Hsub.
  destruct (shell_decision_cases rules t cmd g)
    as [[_ (r & _ & E)]|[Hnd [[_ E]|[(s & Hs & Hask) E]]]]; rewrite Hd in E; [done|done|].
  injection E as ->.
  assert (∀ seg, seg ∈ shell_segments cmd → asked rules t g seg = true →
    command_prefix seg ∈ dedup (map command_prefix
      (List.filter (asked rules t g) (shell_segments cmd)))) as Hps.
  { intros seg Hin Ha. apply elem_of_dedup, list_elem_of_fmap. exists seg.
    split; [done|]. rewrite list_elem_of_In, List.filter_In, <-list_elem_of_In. done. }
  set (ps := dedup _) in *.
  assert (ps ≠ []) as Hne.
  { intros En. assert (command_prefix s ∈ ps) as Hin
      by (apply Hps; [done|by apply bool_decide_eq_true]).
    rewrite En in Hin. by apply elem_of_nil in Hin. }
  split; [|done].
  assert (∀ seg, seg ∈ shell_segments cmd →
    (segment_decision (rules ++ [granted_rule t (Some ps)]) t seg g).1 = allow) as Hall.
  { intros seg Hin. apply segment_granted; [by apply Hnd|done|by apply Hsub|].
    destruct ((segment_decision rules t seg g).1) eqn:Ed; [by right|by destruct (Hnd seg)|].
    left. apply existsb_elem. exists (command_prefix seg). split.
    - apply Hps; [done|]. by apply bool_decide_eq_true.
    - by apply command_prefix_covers, (shell_segments_stripped cmd). }
  destruct (shell_decision_cases (rules ++ [granted_rule t (Some ps)]) t cmd g)
    as [[(s' & Hs' & Hd') _]|[_ [[_ E]|[(s' & Hs' & Hd') _]]]]; [|done|];
    by rewrite Hall in Hd'.
Qed.

(** What an ask of the resolver becomes once its proposed rule is granted. *)
Lemma resolve_granted rules t a g r :
  resolve_with rules t a g = r → rs_decision r = ask_user →
  match rs_command r with
  | Some cmd => ∀ seg, seg ∈ shell_segments cmd → has_command_substitution seg = false
  | None => mem t _TOOLS_REQUIRING_NARROWING = false
  end →
  grantable t (rs_prefixes r) ∧
  rs_decision (resolve_with (rules ++ [granted_rule t (rs_prefixes r)]) t a g) = allow.
Proof.
  unfold resolve_with. destruct (_shell_command t a) as [cmd|].
  - destruct (_shell_decision rules t cmd g) as [[d o] ps] eqn:E. intros <-. cbn. intros -> Hsub.
    assert (o = None) as ->.
    { destruct (shell_decision_cases rules t cmd g)
        as [[_ (r & _ & E')]|[_ [[_ E']|[_ E']]]]; rewrite E in E'; by simplify_eq. }
    apply shell_granted in E as [E Hne]; [|done]. destruct ps as [|p ps]; [done|].
    split; [done|]. by rewrite E.
  - destruct (resolve_decision rules t a None g) as [d o] eqn:E. intros <-. cbn. intros -> Hm.
    split; [done|]. rewrite resolve_snoc; [by rewrite granted_matches_tool| |done].
    intros r' Hr' Hm' Hd. destruct (resolve_some_deny _ _ _ _ _ _ Hr' Hm' Hd) as (x & E' & _).
    by rewrite E in E'.
Qed.
(** Once the rule an ask proposes is among the session's grants, the same call resolves to
    allow; and a call that resolved resolves the same way again. *)
Lemma resolve_after_grant c f e t a g st r c' :
  apply_tool_aliases t = t →
  resolve_permission_decision c f e t a (Some st) g = (Ok r, c') → rs_decision r = ask_user →
  match rs_command r with
  | Some cmd => ∀ seg, seg ∈ shell_segments cmd → has_command_substitution seg = false
  | None => mem t _TOOLS_REQUIRING_NARROWING = false
  end →
  ∃ r2 c2, resolve_permission_decision c' f e t a
      (Some (dset st PERMISSION_GRANTS_STATE_KEY
        (PList (read_session_grants (Some st) ++ [PDict (proposed_rule t (rs_prefixes r))])))) g = (Ok r2, c2) ∧
    rs_decision r2 = allow.
Proof.
  intros Hal Hr Hask Hsub. unfold resolve_permission_decision in Hr.
  destruct (effective_rules _ _ _ _) as [[rs|] c0] eqn:Ers; [|done].
  injection Hr as Hr <-. apply effective_rules_ok in Ers as (ov & gs & Hov & Hgs & Hrs).
  destruct (resolve_granted rs t a g r Hr Hask Hsub) as [Hg Hall].
  destruct (proposed_rule_parsed _ _ Hal Hg) as (pr & Hpr & Hstamp).
  unfold resolve_permission_decision, effective_rules.
  pose proof (load_again _ _ _ _ _ _ _ _ Hov) as Hov'.
  fold load_persisted_rules in Hov'. unfold load_persisted_rules at 1.
  unfold load_persisted_rules in Hov'.
  destruct (load_for_env _ _ _ c0 f e) as [ov' c2]. cbn [fst] in Hov'. subst ov'.
  set (G := PList (read_session_grants (Some st) ++ _)).
  assert (read_session_grants (Some (dset st PERMISSION_GRANTS_STATE_KEY G)) =
    read_session_grants (Some st) ++ [PDict (proposed_rule t (rs_prefixes r))]) as ->
    by (unfold read_session_grants, get; by rewrite dget_dset_eq).
  cbn [res_bind]. rewrite (parse_rules_app _ _ _ _ _ Hgs Hpr). cbn [res_bind].
  assert (_stamp (gs ++ [pr]) "grant" = _stamp gs "grant" ++ [granted_rule t (rs_prefixes r)])
    as -> by (unfold _stamp in *; by rewrite List.filter_app, map_app, Hstamp).
  rewrite !app_assoc. rewrite <-(app_assoc (map _ _)), <-Hrs. by eexists _, _.
Qed.

Lemma resolve_again c f e t a st g r c' :
  resolve_permission_decision c f e t a st g = (Ok r, c') →
  (resolve_permission_decision c' f e t a st g).1 = Ok r.
Proof.
  unfold resolve_permission_decision. intros Hr.
  destruct (effective_rules c f e _) as [[rs|] c0] eqn:Ers; [|done]. injection Hr as Hr <-.
  apply effective_rules_ok in Ers as (ov & gs & Hov & Hgs & Hrs). unfold effective_rules.
  pose proof (load_again _ _ _ _ _ _ _ _ Hov) as Hov'. fold load_persisted_rules in Hov'.
  unfold load_persisted_rules in *. destruct (load_for_env _ _ _ c0 f e) as [ov' c2].
  cbn [fst] in Hov'. subst ov'. cbn [res_bind]. rewrite Hgs. cbn [res_bind fst]. by rewrite <-Hrs, Hr.
Qed.
End Granting.

(** * Theorems *)

Section GuardTheorems.
Context `{PyRe} `{PyFloat}.

(** How a shell command resolves, by its segments: deny as soon as a rule denies
    one of them, whatever else is allowed; allow when every segment is allowed;
    otherwise ask, proposing the prefixes of exactly the segments in question. *)
Theorem shell_decision_spec rules t cmd g :
  ((_shell_decision rules t cmd g).1.1 = deny ↔
     ∃ seg r, seg ∈ shell_segments cmd ∧ denied_by rules t seg g r) ∧
  ((_shell_decision rules t cmd g).1.1 = allow ↔
     ∀ seg, seg ∈ shell_segments cmd →
       (resolve_decision rules t (PDict [("command", PStr seg)]) (Some seg) g).1 = allow ∧
       has_command_substitution seg = false ∧
       (asks (classify seg) = true → unapproved
          (resolve_decision rules t (PDict [("command", PStr seg)]) (Some seg) g).2 = false)) ∧
  (∀ ps, (_shell_decision rules t cmd g).1.1 = ask_user →
     (_shell_decision rules t cmd g).2 = ps →
     NoDup ps ∧ ps ≠ [] ∧ ∀ p, p ∈ ps ↔ ∃ seg, seg ∈ shell_segments cmd ∧
       (segment_decision rules t seg g).1 = ask_user ∧ p = command_prefix seg).
Proof.
  assert (∀ seg, (segment_decision rules t seg g).1 = allow ↔
    (resolve_decision rules t (PDict [("command", PStr seg)]) (Some seg) g).1 = allow ∧
       has_command_substitution seg = false ∧
       (asks (classify seg) = true → unapproved
          (resolve_decision rules t (PDict [("command", PStr seg)]) (Some seg) g).2 = false))
    as Hal.
  { intros seg. unfold segment_decision.
    destruct (resolve_decision _ _ _ _ _) as [[] o]; cbn [fst snd];
      [|by split; [|intros [? _]]..].
    destruct (has_command_substitution seg); cbn [fst]; [by split; [|intros (_ & ? & _)]|].
    destruct (unapproved o), (asks (classify seg)); naive_solver. }
  assert (∀ p, p ∈ dedup (map command_prefix (List.filter (asked rules t g) (shell_segments cmd)))
    ↔ ∃ seg, seg ∈ shell_segments cmd ∧
       (segment_decision rules t seg g).1 = ask_user ∧ p = command_prefix seg) as Hps.
  { intros p. rewrite elem_of_dedup, list_elem_of_fmap. split.
    - intros (seg & -> & Hs). rewrite list_elem_of_In, List.filter_In, <-list_elem_of_In in Hs.
      destruct Hs as [? ?%bool_decide_eq_true]. eauto.
    - intros (seg & Hs & Ha & ->). exists seg. split; [done|].
      rewrite list_elem_of_In, List.filter_In, <-list_elem_of_In. split; [done|].
      by apply bool_decide_eq_true. }
  assert (∀ seg, seg ∈ shell_segments cmd → (segment_decision rules t seg g).1 = deny ↔
    ∃ r, denied_by rules t seg g r) as Hde by (intros; apply segment_deny_iff).
  setoid_rewrite <-Hal.
  destruct (shell_decision_cases rules t cmd g)
    as [[(s & Hs & Hd) (r & _ & ->)]|[Hnd [[Ha ->]|[(s & Hs & Hd) ->]]]]; cbn [fst snd].
  - split; [|split; [|done]].
    + split; [|done]. intros _. apply Hde in Hd as [r' Hr']; [|done]. eauto.
    + split; [done|]. intros Hall. rewrite Hall in Hd; done.
  - split; [|split; [done|done]]. split; [done|]. intros (s & r & Hs & Hr).
    exfalso. apply (Hnd s Hs). apply Hde; eauto.
  - split; [|split].
    + split; [done|]. intros (s' & r & Hs' & Hr). exfalso. apply (Hnd s' Hs'). apply Hde; eauto.
    + split; [done|]. intros Hall. rewrite Hall in Hd; done.
    + intros ps _ <-. split; [apply NoDup_dedup|]. split; [|apply Hps].
      intros En. assert (command_prefix s ∈ @nil string) as Hin by (rewrite <-En; apply Hps; eauto).
      by apply elem_of_nil in Hin.
Qed.

(** C3. Deny is final: a matching deny rule refuses the call in every approval mode,
    headless or not, whatever confirmation it resumes with, and nothing is
    recorded, written or asked. *)
Theorem deny_is_final k w rs c' :
  bypasses (c_tool k) (c_args k) = false →
  effective_rules (w_cache w) (w_fs w) (c_env k) (read_session_grants (w_state w)) = (Ok rs, c') →
  match _shell_command (c_tool k) (c_args k) with
  | Some cmd => ∃ seg r, seg ∈ shell_segments cmd ∧ denied_by rs (c_tool k) seg (c_agent k) r
  | None => ∃ r, r ∈ rs ∧ rule_decision r = deny ∧
              rule_matches r (c_tool k) (c_args k) None (c_agent k) = true
  end →
  ∃ reply, permission_guard k w = (Ok (Some reply), with_cache c' w) ∧
    get reply "permission_denied" = PBool true.
Proof.
  intros Hb He Hd. unfold permission_guard, resolve_permission_decision. rewrite Hb, He.
  cbn [res_bind]. assert (rs_decision (resolve_with rs (c_tool k) (c_args k) (c_agent k)) = deny)
    as ->; [|by eexists]. unfold resolve_with. destruct (_shell_command _ _) as [cmd|].
  - destruct Hd as (seg & r & Hs & Hr).
    destruct (shell_decision_cases rs (c_tool k) cmd (c_agent k))
      as [[_ (r' & _ & ->)]|[Hnd _]]; [done|].
    destruct (Hnd seg Hs). apply segment_deny_iff. by exists r.
  - destruct Hd as (r & Hr & Hd & Hm).
    by destruct (resolve_some_deny _ _ _ _ _ _ Hr Hm Hd) as (x & -> & _).
Qed.

(** When a gated call passes, and what passing may change: it resolved to allow,
    or to ask with the session in yolo mode, headless with a shell command, or
    confirmed; only a confirmation changes the session or the files, and then by
    exactly the proposed rule: appended to the session's grants, or to the
    environment's overlay. *)
Theorem guard_passes_only k w w' :
  bypasses (c_tool k) (c_args k) = false → permission_guard k w = (Ok None, w') →
  ∃ r c', resolve_permission_decision (w_cache w) (w_fs w) (c_env k)
            (c_tool k) (c_args k) (w_state w) (c_agent k) = (Ok r, c') ∧
  let rule := proposed_rule (c_tool k) (rs_prefixes r) in
  w_requests w' = w_requests w ∧
  ((rs_decision r = allow ∨
    rs_decision r = ask_user ∧
      (read_approval_mode (w_state w) = Ok "yolo" ∧ c_headless k = false ∨
       c_headless k = true ∧ is_Some (rs_command r))) ∧ w' = with_cache c' w ∨
   (rs_decision r = ask_user ∧ c_headless k = false ∧
    ∃ tc o, c_confirmation k = Some tc ∧ tc_confirmed tc = true ∧
      _resolve_outcome (tc_payload tc)
        (ordered_outcomes (label_target (c_tool k) (rs_prefixes r))) = Ok o ∧ o ≠ "cancel" ∧
      ((w_state w' = w_state w ∧ w_fs w' = w_fs w) ∨
       (o = "proceed_always" ∧ w_fs w' = w_fs w ∧
        ∃ st, w_state w = Some st ∧ w_state w' =
          Some (dset st PERMISSION_GRANTS_STATE_KEY
                  (PList (read_session_grants (Some st) ++ [PDict rule])))) ∨
       (o = "proceed_always_and_save" ∧ w_state w' = w_state w ∧
        ∃ e c1, c_env k = Some e ∧
          append_persisted_rule c' (w_fs w) (c_now k) e rule = (Ok (), c1, w_fs w'))))).
Proof.
  intros Hb. unfold permission_guard. rewrite Hb.
  destruct (resolve_permission_decision _ _ _ _ _ _ _) as [[r|x] c']; [|done].
  intros Hg. exists r, c'. split; [done|]. cbv zeta.
  destruct (rs_decision r) eqn:Er; [|done|].
  { injection Hg as <-. split; [done|]. left. auto. }
  destruct (read_approval_mode (w_state (with_cache c' w))) as [mode|] eqn:Em; [|done].
  change (w_state (with_cache c' w)) with (w_state w) in *.
  destruct ((mode =? "yolo")%string && negb (c_headless k)) eqn:Ey.
  { injection Hg as <-. apply andb_true_iff in Ey as [Ey%String.eqb_eq Eh%negb_true_iff].
    split; [done|]. left. rewrite Em, Ey. auto 6. }
  destruct (c_headless k) eqn:Eh.
  { destruct (rs_command r) eqn:Ec; [|done]. injection Hg as <-. split; [done|].
    left. split; [|done]. right. split; [done|]. right. eauto. }
  unfold ask_branch in Hg. destruct (c_confirmation k) as [tc|] eqn:Etc; cbn in Hg; [|done].
  destruct (tc_confirmed tc) eqn:Ecf; [|done]. cbn in Hg.
  destruct (_resolve_outcome _ _) as [o|] eqn:Eo; [|done].
  unfold record_outcome in Hg.
  destruct (o =? "cancel")%string eqn:E1; [done|]. bool_prop.
  assert (w_requests w' = w_requests w ∧
      ((w_state w' = w_state w ∧ w_fs w' = w_fs w) ∨
       (o = "proceed_always" ∧ w_fs w' = w_fs w ∧
        ∃ st, w_state w = Some st ∧ w_state w' =
          Some (dset st PERMISSION_GRANTS_STATE_KEY (PList (read_session_grants (Some st)
            ++ [PDict (proposed_rule (c_tool k) (rs_prefixes r))])))) ∨
       (o = "proceed_always_and_save" ∧ w_state w' = w_state w ∧
        ∃ e c1, c_env k = Some e ∧
          append_persisted_rule c' (w_fs w) (c_now k) e
            (proposed_rule (c_tool k) (rs_prefixes r)) = (Ok (), c1, w_fs w'))))
    as [Hq Hw]; [|split; [done|]; right; split; [done|]; split; [done|]; by exists tc, o].
  destruct (o =? "proceed_always")%string eqn:E2; bool_prop.
  { injection Hg as <-. split; [done|]. cbn. destruct (w_state w) as [st|]; [|auto].
    right. left. eauto. }
  destruct (o =? "proceed_always_and_save")%string eqn:E3; bool_prop;
    [|injection Hg as <-; auto].
  destruct (c_env k) as [e|]; [|injection Hg as <-; auto].
  cbn in Hg. destruct (append_persisted_rule _ _ _ _ _) as [[[[]|] c1] f1] eqn:Ea; [|done].
  injection Hg as <-. cbn. split; [done|]. right. right. eauto 10.
Qed.

End GuardTheorems.

(** ** Outcomes *)

Lemma index_of_spec x l i : index_of x l = Some i → l !! i = Some x.
Proof.
  revert i. induction l as [|y l IH]; intros i; cbn; [done|].
  destruct (x =? y)%string eqn:E; [bool_prop; subst y; by intros [= <-]|].
  destruct (index_of x l); cbn; [|done]. intros [= <-]. by apply IH.
Qed.

Lemma lookup_map {A B} (h : A → B) l i : map h l !! i = h <$> (l !! i).
Proof. exact (list_lookup_fmap h l i). Qed.

Lemma index_of_first x l i :
  l !! i = Some x → (∀ j, j < i → l !! j ≠ Some x) → index_of x l = Some i.
Proof.
  revert i. induction l as [|y l IH]; intros i Hi Hn; [done|]. cbn.
  destruct i as [|i]; cbn in Hi.
  - injection Hi as ->. by rewrite String.eqb_refl.
  - destruct (x =? y)%string eqn:E; bool_prop.
    + subst. destruct (Hn 0); [lia|done].
    + rewrite (IH i); [done..|]. intros j Hj. apply (Hn (S j)). lia.
Qed.

Lemma outcome_index target i key label :
  ordered_outcomes target !! i = Some (key, label) →
  index_of label (map snd (ordered_outcomes target)) = Some i.
Proof.
  intros Hi. apply index_of_first; [by rewrite lookup_map, Hi|].
  intros j Hj Hl. rewrite lookup_map in Hl.
  destruct i as [|[|[|[|i]]]]; [..|done]; injection Hi as <- <-;
    destruct j as [|[|[|j]]]; try lia; discriminate Hl.
Qed.

(** A resumed confirmation always names one of the four outcomes; a client that
    answers with a label or with its index gets the outcome at that place; the
    one payload that raises is a choice made of digits that are no numeral. *)
Theorem resolve_outcome_roundtrip target payload :
  (∀ o, _resolve_outcome payload (ordered_outcomes target) = Ok o →
     o ∈ map fst (ordered_outcomes target)) ∧
  (∀ i key label, ordered_outcomes target !! i = Some (key, label) → strip label = label →
     _resolve_outcome (PDict [("choice", PStr label)]) (ordered_outcomes target) = Ok key ∧
     _resolve_outcome (PDict [("choice", PStr (str_of_nat i))]) (ordered_outcomes target)
       = Ok key) ∧
  (∀ x, _resolve_outcome payload (ordered_outcomes target) = Raise x →
     ∃ p c, payload = PDict p ∧
       (get p "choice" = PStr c ∨ get p "answer" = PStr c) ∧
       isdigit (strip c) = true ∧ int_of_digits (strip c) = Raise x).
Proof.
  set (outs := ordered_outcomes target). split; [|split].
  - intros o. unfold _resolve_outcome.
    assert ("proceed_always" ∈ map fst outs) as Hpa by (cbn; set_solver).
    destruct payload as [| | | | | |p]; try by intros [= <-].
    destruct (first_such _ (map fst outs)) as [key|] eqn:Ef.
    { intros [= <-]. by apply first_such_Some in Ef as [? _]. }
    destruct (py_or _ _) as [| | | |c| |]; try by intros [= <-].
    destruct (index_of _ _) as [i|] eqn:Ei.
    { intros [= <-]. apply index_of_spec in Ei. change (default "" (map fst outs !! i) ∈ map fst outs). rewrite lookup_map in Ei |- *.
      destruct (outs !! i) as [kv|] eqn:Eo; [|done]. cbn [default fmap option_fmap option_map]. apply list_elem_of_fmap.
      exists kv. split; [done|]. by eapply list_elem_of_lookup_2. }
    destruct (isdigit _); [|by intros [= <-]].
    destruct (int_of_digits _) as [n|]; cbn [res_bind]; [|done]. intros [= <-].
    destruct ((0 <=? n) && (n <? _))%Z eqn:En; [|done]. bool_prop.
    destruct (lookup_lt_is_Some_2 (map fst outs) (Z.to_nat n)) as [key Hk]; [cbn in *; lia|].
    change (default "" (map fst outs !! Z.to_nat n) ∈ map fst outs).
    rewrite Hk. by eapply list_elem_of_lookup_2.
  - intros i key label Hi Hs. subst outs.
    split; [|destruct i as [|[|[|[|i]]]]; [..|done]; by injection Hi as <- <-].
    unfold _resolve_outcome.
    change (first_such _ _) with (@None string). cbn iota.
    assert (py_or (get [("choice", PStr label)] "choice") (get [("choice", PStr label)] "answer")
      = PStr label) as ->.
    { unfold py_or. change (get _ "choice") with (PStr label). change (get _ "answer") with PNone.
      cbn [truthy]. destruct (label =? "")%string eqn:El; [|done]. bool_prop. subst label.
      by destruct i as [|[|[|[|i]]]]. }
    rewrite Hs, (outcome_index _ _ _ _ Hi).
    change (Ok (default "" (map fst (ordered_outcomes target) !! i)) = Ok key).
    by rewrite lookup_map, Hi.
  - intros x. unfold _resolve_outcome. destruct payload as [| | | | | |p]; try done.
    destruct (first_such _ _); [done|]. unfold py_or.
    destruct (truthy (get p "choice")) eqn:Et.
    + destruct (get p "choice") as [| | | |c| |] eqn:Ec; try done.
      destruct (index_of _ _); [done|]. destruct (isdigit (strip c)) eqn:Ed; [|done].
      destruct (int_of_digits (strip c)) eqn:Ei; cbn [res_bind]; [done|]. intros [= <-].
      exists p, c. split; [done|]. auto.
    + destruct (get p "answer") as [| | | |c| |] eqn:Ec; try done.
      destruct (index_of _ _); [done|]. destruct (isdigit (strip c)) eqn:Ed; [|done].
      destruct (int_of_digits (strip c)) eqn:Ei; cbn [res_bind]; [done|]. intros [= <-].
      exists p, c. split; [done|]. auto.
Qed.

(** ** Concrete inputs *)

Definition demo_deny_rule : pydict :=
  [("toolName", PStr "bash"); ("commandPrefix", PStr "rm"); ("decision", PStr "deny")].
Definition demo_session (rules : list pyval) : pydict :=
  [(PERMISSION_GRANTS_STATE_KEY, PList rules)].
Definition demo_world (rules : list pyval) : world :=
  World empty_cache (FS ∅ ∅) (Some (demo_session rules)) [] false.
Definition demo_call (command : string) (answer : option confirmation) : call :=
  Call BASH (PDict [("command", PStr command)]) None answer None false 0%Q.
Definition demo_rules (rules : list pyval) : list PermissionRule :=
  match (effective_rules empty_cache (FS ∅ ∅) None rules).1 with Ok rs => rs | Raise _ => [] end.

Definition demo_deny : PermissionRule :=
  match last (demo_rules [PDict demo_deny_rule]) with
  | Some r => r
  | None => Rule [] [] None None deny None None None
  end.

Lemma deny_is_final_witness :
  let _ : PyRe := engine_re in let _ : PyFloat := λ _, "" in
  let w := demo_world [PDict demo_deny_rule] in
  ∃ reply, permission_guard (demo_call "ls && rm x" None) w =
      (Ok (Some reply), with_cache empty_cache w) ∧
    get reply "permission_denied" = PBool true.
Proof.
  intros Hre Hfl w.
  apply (deny_is_final (H:=Hre) (H0:=Hfl) (demo_call "ls && rm x" None) w
    (demo_rules [PDict demo_deny_rule]) empty_cache); [reflexivity|vm_compute; reflexivity|].
  exists "rm x", demo_deny. split; [|split].
  - apply (list_elem_of_lookup_2 _ 1). vm_compute. reflexivity.
  - apply (list_elem_of_lookup_2 _ (length (demo_rules [PDict demo_deny_rule]) - 1)).
    vm_compute. reflexivity.
  - split; vm_compute; reflexivity.
Defined.

Lemma guard_passes_only_witness :
  let _ : PyRe := engine_re in let _ : PyFloat := λ _, "" in
  let k := demo_call "ls" None in let w := demo_world [] in
  ∃ r c', resolve_permission_decision (w_cache w) (w_fs w) (c_env k)
            (c_tool k) (c_args k) (w_state w) (c_agent k) = (Ok r, c') ∧
    w_requests w = [].
Proof.
  intros Hre Hfl k w.
  destruct (guard_passes_only (H:=Hre) (H0:=Hfl) k w (with_cache empty_cache w))
    as (r & c' & Hr & Hq & _); [reflexivity|vm_compute; reflexivity|].
  exists r, c'. split; [exact Hr|exact Hq].
Defined.

Definition demo_answer : confirmation :=
  Confirmation true (PDict [("choice", PStr "1")]).

Definition demo_resolution (command : string) : resolution :=
  let _ : PyRe := engine_re in let _ : PyFloat := λ _, "" in
  resolve_with (demo_rules []) BASH (PDict [("command", PStr command)]) None.

