(* ===== verification/IpAddr.v ===== *)
(** * Python's [ipaddress], as far as [exfil_config.py] uses it

    [ip_address] on a text, [ipv4_mapped], and [str] of an address. *)

From S2P Require Import Prelude PyStr PyVal.

#[local] Open Scope Z_scope.

Inductive ipaddr :=
| V4 (n : Z)
| V6 (n : Z) (scope : option string).

(** ** IPv4 *)

Definition v4_octet (tok : string) : option Z :=
  if negb (sforall is_decimal tok) || (3 <? slen tok)%nat
     || (startswith "0" tok && negb (tok =? "0")%string)
  then None
  else match base_digits 10 tok with
       | Some v => if 255 <? v then None else Some v
       | None => None
       end.

Definition parse_v4 (s : string) : option Z :=
  match split_on "." s with
  | [a; b; c; d] =>
      match v4_octet a, v4_octet b, v4_octet c, v4_octet d with
      | Some a, Some b, Some c, Some d => Some (a * 2 ^ 24 + b * 2 ^ 16 + c * 2 ^ 8 + d)
      | _, _, _, _ => None
      end
  | _ => None
  end.

Definition byte_of (n k : Z) : Z := Z.land (Z.shiftr n (8 * k)) 255.
Definition v4_str (n : Z) : string :=
  join "." (map str_of_Z [byte_of n 3; byte_of n 2; byte_of n 1; byte_of n 0]).

(** ** IPv6 *)

Definition hextet (tok : string) : option Z :=
  if (4 <? slen tok)%nat then None else base_digits 16 tok.

(** [int] of a list of hextets, most significant first. *)
Fixpoint hextets (toks : list string) (acc : Z) : option Z :=
  match toks with
  | [] => Some acc
  | t :: toks' => match hextet t with
                  | Some v => hextets toks' (Z.lor (Z.shiftl acc 16) v)
                  | None => None
                  end
  end.

(** The places, among the inner parts, that are empty. *)
Fixpoint empties (i last : nat) (parts : list string) : list nat :=
  match parts with
  | [] => []
  | p :: parts' =>
      if (0 <? i)%nat && (i <? last)%nat && (p =? "")%string
      then i :: empties (S i) last parts' else empties (S i) last parts'
  end.

Fixpoint hex_digits_of (fuel : nat) (n : Z) (acc : string) : string :=
  match fuel with
  | O => acc
  | S f => let acc' := String (hex_digit (Z.to_N (n mod 16))) acc in
           if n <? 16 then acc' else hex_digits_of f (n / 16) acc'
  end.
Definition hex_of (n : Z) : string := hex_digits_of 8 n "".

(** A trailing dotted quad stands for two hextets. *)
Definition expand_v4 (parts : list string) : option (list string) :=
  match rev parts with
  | l :: rest =>
      if has_char "." l then
        match parse_v4 l with
        | Some v => Some (rev rest ++ [hex_of (Z.shiftr v 16); hex_of (Z.land v 65535)])
        | None => None
        end
      else Some parts
  | [] => None
  end.

Definition is_empty (o : option string) : bool := bool_decide (o = Some "").

Definition parse_v6_int (s : string) : option Z :=
  let parts0 := split_on ":" s in
  if (s =? "")%string || (length parts0 <? 3)%nat then None
  else match expand_v4 parts0 with
  | None => None
  | Some parts =>
      let n := length parts in
      if (9 <? n)%nat then None
      else
        let e0 := is_empty (head parts) in
        let e1 := is_empty (last parts) in
        match empties 0 (n - 1) parts with
        | [] => if negb (n =? 8)%nat || e0 || e1 then None else hextets parts 0
        | [i] =>
            let lo := (n - i - 1)%nat in
            if (e0 && negb (i =? 1)%nat) || (e1 && negb (lo =? 1)%nat) then None
            else
              let hi := if e0 then 0%nat else i in
              let lo := if e1 then 0%nat else lo in
              if (8 <? hi + lo + 1)%nat then None
              else match hextets (take hi parts) 0 with
                   | Some a => hextets (drop (n - lo) parts)
                                 (Z.shiftl a (16 * Z.of_nat (8 - (hi + lo))))
                   | None => None
                   end
        | _ => None
        end
  end.

(** [_split_scope_id] and the constructor. *)
Definition parse_v6 (s : string) : option ipaddr :=
  if has_char "/" s then None
  else match partition_at "%" s with
       | None => match parse_v6_int s with Some n => Some (V6 n None) | None => None end
       | Some (a, scope) =>
           if (scope =? "")%string || has_char "%" scope then None
           else match parse_v6_int a with Some n => Some (V6 n (Some scope)) | None => None end
       end.

(** [_compress_hextets]: the first longest run of two or more zeros. *)
Fixpoint zero_run (hs : list string) : nat :=
  match hs with "0" :: hs' => S (zero_run hs') | _ => O end.
Fixpoint longest_run (i : nat) (hs : list string) : nat * nat :=
  match hs with
  | [] => (0, 0)%nat
  | h :: hs' =>
      let here := zero_run hs in
      let '(j, len) := longest_run (S i) hs' in
      if (len <=? here)%nat then (i, here) else (j, len)
  end.
Definition compress (hs : list string) : list string :=
  let '(start, len) := longest_run 0 hs in
  if (len <=? 1)%nat then hs
  else
    let stop := (start + len)%nat in
    let tail := if (stop =? length hs)%nat then [""] else drop stop hs in
    let body := take start hs ++ "" :: tail in
    if (start =? 0)%nat then "" :: body else body.

Definition v6_str (n : Z) (scope : option string) : string :=
  join ":" (compress (map (λ k, hex_of (Z.land (Z.shiftr n (16 * k)) 65535))
                        [7; 6; 5; 4; 3; 2; 1; 0]))
  +:+ match scope with Some s => "%" +:+ s | None => "" end.

(** ** [ip_address] *)

(** [ip_address(host)]: [None] is [ValueError]. *)
Definition ip_address (host : string) : option ipaddr :=
  match parse_v4 host with
  | Some n => Some (V4 n)
  | None => parse_v6 host
  end.

(** [str(getattr(addr, "ipv4_mapped", None) or addr)] *)
Definition unmapped_str (a : ipaddr) : string :=
  match a with
  | V4 n => v4_str n
  | V6 n scope =>
      if Z.shiftr n 32 =? 65535 then v4_str (Z.land n (2 ^ 32 - 1)) else v6_str n scope
  end.
