(* ===== verification/ExfilConfig.v ===== *)
(** * The exfiltration configuration: [horizon/guardrails/exfil_config.py]

    The default hosts, secret patterns and command-shape detectors, the
    [.lha/exfil.jsonl] overlay that extends them, and the predicates on
    commands and hosts. *)

From S2P Require Import Prelude PyStr Names Regex PyVal Overlay IpAddr.

Definition EXFIL_OVERLAY_FILENAME : string := ".lha/exfil.jsonl".

Definition DEFAULT_ALLOWED_HOSTS : list string :=
  ["localhost"; "127.0.0.1"; "::1"; "github.com"; "githubusercontent.com"; "google.com";
   "googleapis.com"; "gstatic.com"; "googleusercontent.com"; "gcr.io"; "pkg.dev";
   "pypi.org"; "pythonhosted.org"; "npmjs.org"].

(** A compiled pattern: one of the module's own, or a tenant's text, compiled
    with [re.IGNORECASE]. *)
Inductive rx :=
| Built (fl : reflags) (r : regex)
| Tenant (pat : string).

Definition _DEFAULT_SECRET_PATTERNS : list (string * string) :=
  [("private key block", "-----BEGIN[ A-Z]*PRIVATE KEY-----");
   ("AWS access key id", "\b(?:AKIA|ASIA)[0-9A-Z]{16}\b");
   ("Google API key", "\bAIza[0-9A-Za-z_\-]{35}\b");
   ("GitHub token", "\bgh[pousr]_[A-Za-z0-9]{36,}\b");
   ("Slack token", "\bxox[baprs]-[A-Za-z0-9-]{10,}\b");
   ("OpenAI-style key", "\bsk-[A-Za-z0-9]{20,}\b");
   ("service-account private_key",
     DQs +:+ "private_key" +:+ DQs +:+ "\s*:\s*" +:+ DQs +:+ "-----BEGIN")].

Definition HTTP_TOOLS_RE : regex := re_of "\b(curl|wget)\b".
Definition TRANSFER_TOOLS_RE : regex :=
  re_of "\b(scp|sftp|ftp|rsync|ssh|nc|ncat|netcat|telnet|socat)\b".
Definition UPLOAD_RE : regex :=
  re_of "(--data\b|--data-[a-z]+\b|\s-d\b|\s-F\b|--form\b|\s-T\b|--upload-file\b)".
Definition _ENV_VAR_RE : regex := re_of "\$\{?([A-Za-z_][A-Za-z0-9_]*)".
Definition _SECRET_ENV_WORDS : list string :=
  ["KEY"; "KEYS"; "TOKEN"; "SECRET"; "SECRETS"; "PASSWORD"; "PASSWD"; "CREDENTIAL";
   "CREDENTIALS"; "APIKEY"].
Definition _DEFAULT_SENSITIVE_PATH : regex := re_of
  ("(\.env(?![.\w])|\.env\.(?:local|production|prod|preprod|dev|development|staging|test|testing|secret|secrets)\b"
   +:+ "|/\.aws(/|\b)|application_default_credentials|/\.config/gcloud/"
   +:+ "|id_rsa|id_ed25519|id_ecdsa|/\.ssh/"
   +:+ "|service[-_]?account[^\" +:+ DQs +:+ "'\s]*\.json|credentials\.json"
   +:+ "|\.pem\b|\.netrc\b|\.npmrc\b|\.pypirc\b)").
Definition HOST_RE : regex := re_of ("https?://([^/\s'" +:+ DQs +:+ "]+)").
Definition SCP_HOST_RE : regex := re_of "\b[\w.+-]+@([\w.-]+):".
Definition DEVTCP_RE : regex := re_of ("/dev/tcp/([^/\s'" +:+ DQs +:+ "]+)").
Definition SCHEME_HOST_RE : regex := re_of "\b(?:ssh|git|ftp|ftps)://(?:[\w.+-]+@)?([\w.-]+)".
Definition GIT_EGRESS_RE : regex :=
  re_of "\bgit\b[^\n]*\b(?:push|remote\s+(?:add|set-url))\b".

Record ExfilConfig := Config {
  allowed_hosts : list string;
  secret_patterns : list (string * rx);
  sensitive_path_res : list rx
}.

(** ** Building a configuration *)

Section Building.
Context `{PyRe}.

Definition rx_search (p : rx) (text : string) : bool :=
  match p with
  | Built fl r => re_found fl r text
  | Tenant pat => default false (re_search_text IGNORECASE pat text)
  end.

(** Whether [re.compile] accepts the pattern shows on any subject. *)
Definition _safe_compile (pattern : string) : option rx :=
  match re_search_text IGNORECASE pattern "" with
  | Some _ => Some (Tenant pattern)
  | None => None
  end.

Definition default_secret_rx : list (string * rx) :=
  map (λ kv : string * string, (kv.1, Built noflags (re_of kv.2))) _DEFAULT_SECRET_PATTERNS.

Definition _compile_secret_patterns (extra : list string) : list (string * rx) :=
  default_secret_rx
  ++ omap (λ pat, if safe_regex pat then
                    match _safe_compile pat with
                    | Some r => Some ("tenant pattern " +:+ repr_str pat, r)
                    | None => None
                    end
                  else None) extra.

Definition default_sensitive : rx := Built IGNORECASE _DEFAULT_SENSITIVE_PATH.

Definition default_config : ExfilConfig :=
  Config DEFAULT_ALLOWED_HOSTS (_compile_secret_patterns []) [default_sensitive].

(** The strings met iterating over a value: a text yields its characters, a
    dict its keys; what is not iterable raises. *)
Definition iter_strs (v : pyval) : res (list string) :=
  match v with
  | PStr s => Ok (map s1 (list_ascii_of_string s))
  | PList l => Ok (omap is_str l)
  | PDict d => Ok (map fst d)
  | _ => Raise (TypeError "object is not iterable")
  end.

(** [obj.get(key, [])] *)
Definition get_list (obj : pydict) (key : string) : pyval :=
  match dget obj key with Some v => v | None => PList [] end.

Record overlay := Lists { ov_hosts : list string; ov_secrets : list string; ov_paths : list string }.

Fixpoint parse_objects (objs : list pydict) : res overlay :=
  match objs with
  | [] => Ok (Lists [] [] [])
  | obj :: rest =>
      let! h := iter_strs (get_list obj "allow_hosts") in
      let! s := iter_strs (get_list obj "secret_patterns") in
      let! p := iter_strs (get_list obj "sensitive_paths") in
      let! o := parse_objects rest in
      Ok (Lists (h ++ ov_hosts o) (s ++ ov_secrets o) (p ++ ov_paths o))
  end.

Definition _parse_overlay (text : string) : res overlay :=
  parse_objects (iter_jsonl_objects text).

Definition _build_overlay_config (o : overlay) : ExfilConfig :=
  Config (DEFAULT_ALLOWED_HOSTS ++ ov_hosts o)
    (_compile_secret_patterns (ov_secrets o))
    (default_sensitive :: omap _safe_compile (List.filter safe_regex (ov_paths o))).

Definition build_exfil (text : string) : res ExfilConfig :=
  let! o := _parse_overlay text in Ok (_build_overlay_config o).

Definition load_exfil_config (c : ocache ExfilConfig) (f : fs) (working_dir : option string) :
    res ExfilConfig * ocache ExfilConfig :=
  match working_dir with
  | None => (Ok default_config, c)
  | Some wd => load_local EXFIL_OVERLAY_FILENAME build_exfil c f wd
  end.

Definition load_exfil_config_for_env : ocache ExfilConfig → fs → option env →
    res ExfilConfig * ocache ExfilConfig :=
  load_for_env EXFIL_OVERLAY_FILENAME build_exfil default_config.

(** ** Predicates *)

Definition scan_secrets (text : string) (config : ExfilConfig) : option string :=
  first_some (λ kv : string * rx, if rx_search kv.2 text then Some kv.1 else None)
    (secret_patterns config).

Definition _has_secret_env (command : string) : bool :=
  existsb (λ name, existsb (λ seg, mem seg _SECRET_ENV_WORDS) (split_on "_" (upper name)))
    (re_findall1 noflags _ENV_VAR_RE command).

Definition references_secret (command : string) (config : ExfilConfig) : bool :=
  _has_secret_env command
  || existsb (λ pat, rx_search pat command) (sensitive_path_res config).
End Building.

Definition extract_hosts (command : string) : list string :=
  re_findall1 noflags HOST_RE command ++ re_findall1 noflags SCP_HOST_RE command
  ++ re_findall1 noflags DEVTCP_RE command ++ re_findall1 noflags SCHEME_HOST_RE command.

Definition dot (c : ascii) : bool := Ascii.eqb "." c.

(** The host of a match: no user, no port, no case, no trailing dots. *)
Definition normalize_host (host : string) : string :=
  rstrip dot (lower (strip (before_first ":" (after_last "@" host)))).

(** The domain a pattern of the allowlist stands for. *)
Definition pattern_base (pattern : string) : string :=
  let p := lower pattern in if startswith "*." p then sdrop 2 p else p.

Definition host_allowed (host : string) (config : ExfilConfig) : bool :=
  let host := normalize_host host in
  if (host =? "")%string then false
  else existsb (λ pattern,
         let base := pattern_base pattern in
         (host =? base)%string || endswith ("." +:+ base) host) (allowed_hosts config).

(** ** The metadata server *)

Definition METADATA_HOSTS : list string :=
  ["metadata.google.internal"; "metadata"; "169.254.169.254"].

Definition is_hex (c : ascii) : bool := match hex_val c with Some _ => true | None => false end.
Definition is_octal (c : ascii) : bool := in_range 48 55 c.

Definition _octet (tok : string) : option Z :=
  match tok with
  | String z (String x rest) =>
      let zero := Ascii.eqb z "0" in
      if zero && (Ascii.eqb x "x" || Ascii.eqb x "X")
         && negb (rest =? "")%string && sforall is_hex rest
      then base_digits 16 rest
      else if zero && sforall is_octal (String x rest) then base_digits 8 (String x rest)
      else int10 tok
  | _ => int10 tok
  end.

(** The loop that packs the leading bytes above the last value. *)
Fixpoint pack_leading (tail_bits shift : Z) (rev_leading : list Z) (packed : Z) : Z :=
  match rev_leading with
  | [] => packed
  | v :: rest =>
      pack_leading tail_bits (shift + 1) rest
        (Z.lor packed (Z.shiftl v (tail_bits + 8 * shift)))
  end.

Definition byte_ok (v : Z) : bool := ((0 <=? v) && (v <=? 255))%Z.

(** [inet_aton]'s forms: one to four parts, the last one packing what is left. *)
Definition inet_aton (host : string) : option Z :=
  let parts := split_on "." host in
  if 4 <? length parts then None
  else match mapM _octet parts with
       | None => None
       | Some values =>
           match rev values with
           | [] => None
           | last_ :: rev_leading =>
               let tail_bits := (8 * (4 - Z.of_nat (length parts) + 1))%Z in
               if negb (forallb byte_ok rev_leading) then None
               else if negb ((0 <=? last_) && (last_ <? Z.shiftl 1 tail_bits))%Z then None
               else Some (pack_leading tail_bits 0 rev_leading last_)
           end
       end.

Definition _as_ipv4 (host : string) : option string :=
  match ip_address host with
  | Some addr => Some (unmapped_str addr)
  | None => match inet_aton host with
            | Some packed => Some (v4_str packed)
            | None => None
            end
  end.

Definition metadata_name (host : option string) : bool :=
  match host with Some h => mem h METADATA_HOSTS | None => false end.

Definition is_metadata_host (host : string) : bool :=
  let host := rstrip dot (strip_by (one_of "[]") (lower (strip (after_last "@" host)))) in
  let host := if has_char "]" host || (str_count ":" host <=? 1)
              then strip_by (one_of "[]") (before_first ":" host) else host in
  if mem host METADATA_HOSTS then true else metadata_name (_as_ipv4 host).

Definition targets_metadata (command : string) : bool :=
  let lowered := lower command in
  contains "169.254.169.254" lowered || contains "metadata.google.internal" lowered
  || existsb is_metadata_host (extract_hosts command).

(** * Facts *)

Lemma ascii_all (P : ascii → bool) :
  forallb (λ n, P (ascii_of_nat n)) (seq 0 256) = true → ∀ c, P c = true.
Proof.
  rewrite forallb_elem. intros H c. rewrite <-(ascii_nat_embedding c). apply H.
  apply elem_of_seq. pose proof (nat_ascii_bounded c). lia.
Qed.

(** A fact about every character, by evaluating it on all of them. *)
Ltac by_all_chars c :=
  match goal with |- ?P => refine (bool_decide_eq_true_1 P _) end;
  revert c; apply ascii_all; vm_compute; reflexivity.

(** ** Tokens of an address *)

Definition alnum (c : ascii) : bool := is_decimal c || is_alpha_ascii c.
Definition word_tok (tok : string) : bool := negb (tok =? "")%string && sforall alnum tok.

Lemma hex_val_lower c : hex_val (lower_char c) = hex_val c.
Proof. by_all_chars c. Qed.

Lemma decimal_lower c : is_decimal (lower_char c) = is_decimal c.
Proof. by_all_chars c. Qed.

Lemma octal_lower c : is_octal (lower_char c) = is_octal c.
Proof. by_all_chars c. Qed.

Lemma alnum_lower c : alnum c = true → alnum (lower_char c) = true.
Proof. by_all_chars c. Qed.

Lemma zero_lower c : Ascii.eqb (lower_char c) "0" = Ascii.eqb c "0".
Proof. by_all_chars c. Qed.

Lemma x_lower c :
  Ascii.eqb (lower_char c) "x" || Ascii.eqb (lower_char c) "X"
  = Ascii.eqb c "x" || Ascii.eqb c "X".
Proof. by_all_chars c. Qed.

(** Characters the normalisation of a host looks for. *)
Lemma alnum_not c d : alnum c = true → d ∈ list_ascii_of_string "@:[]. _%/-+" → Ascii.eqb d c = false.
Proof.
  intros Hc Hd. destruct (Ascii.eqb_spec d c) as [->|]; [|done].
  cbn in Hd. rewrite !elem_of_cons, elem_of_nil in Hd.
  repeat destruct Hd as [->|Hd]; done.
Qed.

Lemma alnum_not_space c : alnum c = true → is_space c = false.
Proof. by_all_chars c. Qed.

Lemma sforall_smap (p q : ascii → bool) g s :
  (∀ c, p c = q (g c)) → sforall q (smap g s) = sforall p s.
Proof. intros Hp. induction s as [|c s IH]; cbn; [done|]. by rewrite IH, Hp. Qed.

Lemma list_smap g s : list_ascii_of_string (smap g s) = map g (list_ascii_of_string s).
Proof. induction s as [|c s IH]; cbn; [done|]. by rewrite IH. Qed.

Lemma fold_left_map {A B C} (h : B → C → B) (g : A → C) l b :
  List.fold_left h (map g l) b = List.fold_left (λ b a, h b (g a)) l b.
Proof. revert b. induction l as [|x l IH]; intros b; cbn; [done|]. apply IH. Qed.

Lemma fold_left_ext {A B} (h h' : B → A → B) l b :
  (∀ b a, h b a = h' b a) → List.fold_left h l b = List.fold_left h' l b.
Proof. intros He. revert b. induction l as [|x l IH]; intros b; cbn; [done|]. by rewrite He. Qed.

Lemma base_digits_lower base s : base_digits base (lower s) = base_digits base s.
Proof.
  destruct s as [|c s]; [done|]. change (lower (String c s)) with (String (lower_char c) (lower s)).
  unfold base_digits.
  change (String (lower_char c) (lower s)) with (smap lower_char (String c s)).
  rewrite list_smap, fold_left_map. apply fold_left_ext. intros b a. by rewrite hex_val_lower.
Qed.

Lemma slen_smap g s : slen (smap g s) = slen s.
Proof. induction s as [|c s IH]; cbn; [done|]. by rewrite IH. Qed.

Lemma int10_word tok :
  word_tok tok = true →
  int10 tok = if negb (sforall is_decimal tok) || (4300 <? slen tok) then None
              else base_digits 10 tok.
Proof.
  unfold word_tok. intros H. bool_prop.
  assert (strip tok = tok) as Hs.
  { apply strip_none. clear H. induction tok as [|c s IH]; [done|]. cbn in *. bool_prop.
    rewrite alnum_not_space by done. destruct s; [done|]. by apply IH. }
  assert (has_char "_" tok = false) as Hu by by eapply has_char_sforall.
  unfold int10. rewrite Hs. destruct tok as [|c s]; [done|].
  cbn [sforall] in *. bool_prop.
  assert (Ascii.eqb "-" c = false ∧ Ascii.eqb "+" c = false) as [Hm Hp].
  { split; (apply alnum_not; [done|cbn; set_solver]). }
  assert (match String c s with
          | String "-" r => (true, r) | String "+" r => (false, r)
          | _ => (false, String c s) end = (false, String c s)) as ->.
  { destruct c as [[] [] [] [] [] [] [] []]; done. }
  rewrite split_on_none by done. cbn [existsb join].
  assert ((String c s =? "")%string = false) as -> by done. cbn [orb negb].
  destruct (negb _ || _); [done|]. by destruct (base_digits 10 _).
Qed.

Lemma octet_lower tok : word_tok tok = true → _octet (lower tok) = _octet tok.
Proof.
  intros Hw.
  assert (word_tok (lower tok) = true) as Hw'.
  { unfold word_tok in *. bool_prop. apply andb_true_iff. split; [by destruct tok|].
    clear -H0. induction tok as [|c s IH]; [done|]. cbn in *. bool_prop.
    rewrite alnum_lower by done. by apply IH. }
  assert (int10 (lower tok) = int10 tok) as Hi.
  { rewrite !int10_word by done. unfold lower at 1 2.
    rewrite (sforall_smap is_decimal is_decimal lower_char) by (intros; by rewrite decimal_lower).
    rewrite slen_smap. by rewrite base_digits_lower. }
  destruct tok as [|c [|x rest]]; [done|exact Hi|].
  assert (lower (String c (String x rest)) =
    String (lower_char c) (String (lower_char x) (lower rest))) as E by done.
  rewrite E in Hi |- *. unfold _octet. rewrite Hi.
  assert (Ascii.eqb (lower_char c) "0" = Ascii.eqb c "0") as -> by apply zero_lower.
  assert (Ascii.eqb (lower_char x) "x" || Ascii.eqb (lower_char x) "X"
    = Ascii.eqb x "x" || Ascii.eqb x "X") as -> by apply x_lower.
  assert (sforall is_hex (lower rest) = sforall is_hex rest) as ->.
  { apply sforall_smap. intros d. unfold is_hex. by rewrite hex_val_lower. }
  change (String (lower_char x) (lower rest)) with (lower (String x rest)).
  assert (sforall is_octal (lower (String x rest)) = sforall is_octal (String x rest)) as ->.
  { apply sforall_smap. intros d. by rewrite octal_lower. }
  rewrite !base_digits_lower. by destruct rest.
Qed.

(** ** Packed values *)

(** What the parts of a numeric address stand for. *)
Definition aton_value (vals : list Z) : Z :=
  match vals with
  | [d] => d
  | [a; d] => a * 2 ^ 24 + d
  | [a; b; d] => a * 2 ^ 24 + b * 2 ^ 16 + d
  | [a; b; c; d] => a * 2 ^ 24 + b * 2 ^ 16 + c * 2 ^ 8 + d
  | _ => -1
  end%Z.

(** Leading parts are bytes, the last fits what is left. *)
Definition in_bounds (vals : list Z) : Prop :=
  match rev vals with
  | last_ :: leading =>
      Forall (λ v, 0 ≤ v < 256)%Z leading ∧ (0 ≤ last_ < 2 ^ (8 * (5 - Z.of_nat (length vals))))%Z
  | [] => False
  end.

Lemma lor_shiftl_add a b k : (0 ≤ k → 0 ≤ a < 2 ^ k → Z.lor a (Z.shiftl b k) = a + b * 2 ^ k)%Z.
Proof.
  intros Hk Ha. rewrite <-Z.add_nocarry_lor; [by rewrite Z.shiftl_mul_pow2|].
  apply Z.bits_inj'. intros n Hn. rewrite Z.land_spec, Z.bits_0.
  destruct (Z_lt_le_dec n k).
  - rewrite Z.shiftl_spec_low by done. apply andb_false_r.
  - rewrite (Z.testbit_eqb a n) by done. apply andb_false_iff. left.
    rewrite Z.div_small; [done|]. split; [lia|].
    apply Z.lt_le_trans with (2 ^ k)%Z; [lia|]. by apply Z.pow_le_mono_r.
Qed.

Lemma byte_ok_spec v : byte_ok v = true ↔ (0 ≤ v < 256)%Z.
Proof. unfold byte_ok. rewrite andb_true_iff, !Z.leb_le. lia. Qed.

Fixpoint base256 (l : list Z) : Z :=
  match l with [] => 0 | v :: l' => v + 256 * base256 l' end%Z.

Lemma pack_leading_value l : ∀ tail shift packed,
  (0 ≤ tail + 8 * shift → 0 ≤ packed < 2 ^ (tail + 8 * shift))%Z → (0 ≤ tail + 8 * shift)%Z →
  Forall (λ v, 0 ≤ v < 256)%Z l →
  (pack_leading tail shift l packed = packed + 2 ^ (tail + 8 * shift) * base256 l)%Z.
Proof.
  induction l as [|v l IH]; intros tail shift packed Hp Hk HF; cbn; [lia|].
  apply Forall_cons in HF as [Hv HF]. specialize (Hp Hk).
  assert (2 ^ (tail + 8 * (shift + 1)) = 2 ^ (tail + 8 * shift) * 256)%Z as Hpow.
  { replace (tail + 8 * (shift + 1))%Z with (tail + 8 * shift + 8)%Z by lia.
    by rewrite Z.pow_add_r. }
  rewrite lor_shiftl_add by done. rewrite IH; [rewrite Hpow; lia| |lia|done].
  intros _. rewrite Hpow. split; nia.
Qed.

(** Evaluate the widths, which depend on the number of parts only. *)
Ltac eval_in Hv :=
  match type of Hv with
  | context [(2 ^ ?e)%Z] => let x := eval vm_compute in (2 ^ e)%Z in change (2 ^ e)%Z with x in Hv
  end.
Ltac eval_goal :=
  match goal with
  | |- context [(1 ≪ ?e)%Z] =>
      let x := eval vm_compute in (1 ≪ e)%Z in change (1 ≪ e)%Z with x;
      let y := eval vm_compute in e in change e with y
  end.

Lemma inet_aton_value host vals :
  length (split_on "." host) ≤ 4 → mapM _octet (split_on "." host) = Some vals → in_bounds vals →
  inet_aton host = Some (aton_value vals).
Proof.
  intros Hl Hm Hb. unfold inet_aton. rewrite Hm.
  destruct (4 <? length (split_on "." host)) eqn:E; bool_prop; [lia|].
  apply length_mapM in Hm as Hlen. rewrite Hlen in *. clear Hm Hlen. unfold in_bounds in Hb.
  assert (length vals ≤ 4) as Hl' by lia.
  destruct vals as [|v1 [|v2 [|v3 [|v4 [|? ?]]]]]; cbn in Hl'; try lia;
    cbn [rev app length] in *; [by destruct Hb|..];
    destruct Hb as [HF Hv]; rewrite ?Forall_cons in HF;
    cbn [forallb]; rewrite ?(proj2 (byte_ok_spec _)) by tauto; cbn [negb andb];
    eval_in Hv; eval_goal; rewrite (proj2 (Z.leb_le _ _)), (proj2 (Z.ltb_lt _ _)) by lia;
    cbn [negb andb]; rewrite pack_leading_value by (rewrite ?Forall_cons; cbn; tauto || lia);
    f_equal; cbn [base256 aton_value]; cbn; lia.
Qed.

(** ** Dotted quads *)

Lemma byte_of_spec n k : (0 ≤ k → 0 ≤ n → byte_of n k = (n / 2 ^ (8 * k)) mod 256)%Z.
Proof.
  intros Hk Hn. unfold byte_of. rewrite Z.shiftr_div_pow2 by lia.
  change 255%Z with (Z.ones 8). by rewrite Z.land_ones.
Qed.

Lemma bytes_value n : (0 ≤ n < 2 ^ 32)%Z →
  aton_value [byte_of n 3; byte_of n 2; byte_of n 1; byte_of n 0] = n.
Proof.
  intros Hn. unfold aton_value. rewrite !byte_of_spec by lia. cbn -[Z.div Z.modulo].
  cbn in Hn. rewrite Z.div_1_r. Z.to_euclidean_division_equations. lia.
Qed.

Definition bytes : list Z := map Z.of_nat (seq 0 256).

Lemma byte_in n k : (0 ≤ k → 0 ≤ n → byte_of n k ∈ bytes)%Z.
Proof.
  intros Hk Hn. rewrite byte_of_spec by done. unfold bytes. apply list_elem_of_fmap.
  exists (Z.to_nat ((n / 2 ^ (8 * k)) mod 256)). rewrite elem_of_seq.
  pose proof (Z.mod_pos_bound (n / 2 ^ (8 * k)) 256). lia.
Qed.

Lemma byte_str_no_dot b : b ∈ bytes → has_char "." (str_of_Z b) = false.
Proof.
  intros Hb. enough (forallb (λ b, negb (has_char "." (str_of_Z b))) bytes = true) as H.
  { rewrite forallb_elem in H. by apply negb_true_iff, H. }
  vm_compute. reflexivity.
Qed.

Lemma byte_str_inj b c : b ∈ bytes → c ∈ bytes → str_of_Z b = str_of_Z c → b = c.
Proof.
  intros Hb Hc He.
  enough (forallb (λ b, forallb (λ c, implb (str_of_Z b =? str_of_Z c)%string (b =? c)%Z) bytes)
    bytes = true) as H.
  { rewrite forallb_elem in H. specialize (H b Hb). rewrite forallb_elem in H.
    specialize (H c Hc). rewrite He, String.eqb_refl in H. cbn in H. by bool_prop. }
  vm_compute. reflexivity.
Qed.

Lemma split_v4_str n : (0 ≤ n)%Z →
  split_on "." (v4_str n) =
  [str_of_Z (byte_of n 3); str_of_Z (byte_of n 2); str_of_Z (byte_of n 1); str_of_Z (byte_of n 0)].
Proof.
  intros Hn. apply (split_on_join "." (map str_of_Z
    [byte_of n 3; byte_of n 2; byte_of n 1; byte_of n 0]%Z)); [done|].
  apply Forall_map, Forall_forall. intros b Hb.
  apply byte_str_no_dot. rewrite !elem_of_cons, elem_of_nil in Hb.
  destruct Hb as [-> |[-> |[-> |[-> |[]]]]]; by apply byte_in.
Qed.

Definition METADATA_ADDRESS : Z := 2852039166.

Lemma list_eq_cons4 {A} (a b c d a' b' c' d' : A) :
  [a; b; c; d] = [a'; b'; c'; d'] → a = a' ∧ b = b' ∧ c = c' ∧ d = d'.
Proof. by intros [= -> -> -> ->]. Qed.

Lemma v4_str_inj n m :
  (0 ≤ n < 2 ^ 32)%Z → (0 ≤ m < 2 ^ 32)%Z → v4_str n = v4_str m → n = m.
Proof.
  intros Hn Hm He. apply (f_equal (split_on ".")) in He. rewrite !split_v4_str in He by lia.
  rewrite <-(bytes_value n), <-(bytes_value m) by done.
  assert (∀ k, (0 ≤ k)%Z → str_of_Z (byte_of n k) = str_of_Z (byte_of m k) →
    byte_of n k = byte_of m k) as Hk.
  { intros k Hk. apply byte_str_inj; apply byte_in; lia. }
  pose proof (list_eq_cons4 _ _ _ _ _ _ _ _ He) as (H3 & H2 & H1 & H0).
  by rewrite (Hk 3%Z), (Hk 2%Z), (Hk 1%Z), (Hk 0%Z).
Qed.

Lemma v4_metadata n : (0 ≤ n < 2 ^ 32)%Z →
  mem (v4_str n) METADATA_HOSTS = true ↔ n = METADATA_ADDRESS.
Proof.
  intros Hn. rewrite mem_spec. unfold METADATA_HOSTS. rewrite !elem_of_cons, elem_of_nil.
  assert (∀ s, v4_str n = s → length (split_on "." s) = 4) as Hl.
  { intros s <-. by rewrite split_v4_str by lia. }
  split.
  - intros [H|[H|[H|[]]]]; [by apply Hl in H..|].
    apply v4_str_inj; [done|done|]. rewrite H. vm_compute. reflexivity.
  - intros ->. right; right; left. vm_compute. reflexivity.
Qed.

(** ** The two readings of a host agree *)

Lemma base_digits_nonneg base tok v : (0 ≤ base)%Z → base_digits base tok = Some v → (0 ≤ v)%Z.
Proof.
  intros Hb. unfold base_digits. destruct tok as [|c s]; [done|].
  generalize (list_ascii_of_string (String c s)). intros l.
  set (h := λ (acc : option Z) c, _). assert (∀ acc, (∀ a, acc = Some a → 0 ≤ a)%Z →
    ∀ r, List.fold_left h l acc = Some r → (0 ≤ r)%Z) as Hf.
  { induction l as [|d l IH]; intros acc Ha r; cbn; [by apply Ha|]. apply IH.
    intros a. unfold h. destruct acc as [a0|]; [|done]. destruct (hex_val d); [|done].
    destruct (_ <? _)%Z; [|done]. intros [= <-]. specialize (Ha a0 eq_refl). nia. }
  apply Hf. by intros a [= <-].
Qed.

Lemma decimals_word tok : tok ≠ "" → sforall is_decimal tok = true → word_tok tok = true.
Proof.
  intros Hne Hd. unfold word_tok. apply andb_true_iff. split.
  { apply negb_true_iff. by apply String.eqb_neq. }
  clear Hne. induction tok as [|c s IH]; [done|]. cbn in *. bool_prop. unfold alnum.
  rewrite H. by apply IH.
Qed.

Lemma v4_octet_octet tok v : v4_octet tok = Some v → _octet tok = Some v ∧ (0 ≤ v < 256)%Z.
Proof.
  unfold v4_octet. destruct (negb (sforall is_decimal tok)) eqn:Ed; [done|].
  destruct (3 <? slen tok) eqn:El; [done|]. cbn [orb].
  destruct (startswith "0" tok && negb (tok =? "0")%string) eqn:Ez; [done|].
  destruct (base_digits 10 tok) as [w|] eqn:Eb; [|done].
  destruct (255 <? w)%Z eqn:Ew; [done|]. intros [= ->].
  apply negb_false_iff in Ed. bool_prop.
  split; [|split; [by eapply (base_digits_nonneg 10); [lia|exact Eb]|lia]].
  assert (int10 tok = Some v) as Hi.
  { rewrite int10_word by (apply decimals_word; [by intros ->|done]). rewrite Ed.
    destruct (4300 <? slen tok) eqn:E; [bool_prop; lia|done]. }
  destruct tok as [|z [|x rest]]; [exact Hi..|]. unfold _octet. rewrite Hi.
  destruct (Ascii.eqb_spec z "0") as [->|]; [|done]. exfalso.
  destruct Ez as [Ez|Ez]; [by vm_compute in Ez|by bool_prop].
Qed.

Lemma parse_v4_inet host n :
  parse_v4 host = Some n →
  ∃ vals, length (split_on "." host) = 4 ∧ mapM _octet (split_on "." host) = Some vals ∧
    in_bounds vals ∧ n = aton_value vals.
Proof.
  unfold parse_v4. destruct (split_on "." host) as [|a [|b [|c [|d [|]]]]]; try done.
  destruct (v4_octet a) as [va|] eqn:Ea; [|done]. destruct (v4_octet b) as [vb|] eqn:Eb; [|done].
  destruct (v4_octet c) as [vc|] eqn:Ec; [|done]. destruct (v4_octet d) as [vd|] eqn:Ed; [|done].
  apply v4_octet_octet in Ea as [Ea Ha], Eb as [Eb Hb], Ec as [Ec Hc], Ed as [Ed Hd].
  intros [= <-]. exists [va; vb; vc; vd]. split; [done|]. split; [|split; [|done]].
  - cbn [mapM mbind option_bind]. by rewrite Ea, Eb, Ec, Ed.
  - unfold in_bounds. cbn [rev app length]. split; [by rewrite !Forall_cons|]. cbn. lia.
Qed.

Lemma parse_v6_none host :
  has_char ":" host = false → has_char "%" host = false → parse_v6 host = None.
Proof.
  intros Hc Hp. unfold parse_v6. destruct (has_char "/" host); [done|].
  assert (partition_at "%" host = None) as ->.
  { clear Hc. unfold has_char in Hp. induction host as [|d s IH]; cbn in *; [done|]. bool_prop.
    rewrite Ascii.eqb_sym. destruct (Ascii.eqb "%" d); [done|]. by rewrite IH. }
  unfold parse_v6_int. rewrite split_on_none by done. by rewrite orb_true_r.
Qed.

(** The address of numeric parts, however they are spelled. *)
Lemma as_ipv4_numeric host vals :
  has_char ":" host = false → has_char "%" host = false →
  length (split_on "." host) ≤ 4 → mapM _octet (split_on "." host) = Some vals → in_bounds vals →
  _as_ipv4 host = Some (v4_str (aton_value vals)).
Proof.
  intros Hc Hp Hl Hm Hb. unfold _as_ipv4, ip_address.
  destruct (parse_v4 host) as [n|] eqn:E4.
  - apply parse_v4_inet in E4 as (vals' & _ & Hm' & _ & ->). rewrite Hm in Hm'.
    by injection Hm' as <-.
  - rewrite parse_v6_none by done. by rewrite (inet_aton_value host vals).
Qed.

Lemma aton_value_bound vals : in_bounds vals → length vals ≤ 4 → (0 ≤ aton_value vals < 2 ^ 32)%Z.
Proof.
  unfold in_bounds. destruct vals as [|v1 [|v2 [|v3 [|v4 [|? ?]]]]]; cbn [rev app length];
    intros Hb Hl; try lia; destruct Hb as [HF Hv]; rewrite ?Forall_cons in HF;
    eval_in Hv; cbn; lia.
Qed.

(** ** Numeric hosts pass the normalisation *)

Lemma word_lower tok : word_tok tok = true → word_tok (lower tok) = true.
Proof.
  unfold word_tok. intros H. bool_prop. apply andb_true_iff. split; [by destruct tok|].
  clear -H0. induction tok as [|c s IH]; [done|]. cbn in *. bool_prop.
  rewrite alnum_lower by done. by apply IH.
Qed.

(** Letters, digits and dots. *)
Definition numeric_char (c : ascii) : bool := alnum c || dot c.

Lemma join_word_chars toks :
  Forall (λ t, word_tok t = true) toks → sforall numeric_char (join "." toks) = true.
Proof.
  induction 1 as [|t toks Ht Htoks IH]; [done|].
  assert (sforall numeric_char t = true) as Hn.
  { unfold word_tok in Ht. bool_prop. clear -H0. unfold numeric_char.
    induction t as [|c s IH]; [done|]. cbn in *. bool_prop. rewrite H. by apply IH. }
  destruct toks as [|u toks]; [done|]. rewrite join_cons by done.
  rewrite !sforall_app, Hn, IH. done.
Qed.

Lemma numeric_no_char c s :
  sforall numeric_char s = true → numeric_char c = false → has_char c s = false.
Proof. apply has_char_sforall. Qed.

Lemma numeric_strip p s :
  (∀ c, numeric_char c = true → p c = false) → sforall numeric_char s = true → strip_by p s = s.
Proof.
  intros Hp Hs. apply strip_none. induction s as [|c s IH]; [done|]. cbn in *. bool_prop.
  rewrite Hp by done. by apply IH.
Qed.

Lemma join_lower toks : lower (join "." toks) = join "." (map lower toks).
Proof.
  assert (∀ a b, lower (a +:+ b) = lower a +:+ lower b) as Happ.
  { intros a b. induction a as [|c a IH]; cbn; [done|]. by rewrite <-IH. }
  induction toks as [|t toks IH]; [done|]. destruct toks as [|u toks]; [done|].
  rewrite join_cons by done. cbn [map] in *. rewrite (join_cons _ (lower t)) by done.
  by rewrite !Happ, IH.
Qed.

Lemma rstrip_word t : word_tok t = true → rstrip dot t = t.
Proof.
  unfold word_tok. intros H. bool_prop. apply rstrip_none. clear H.
  induction t as [|c s IH]; [done|]. cbn in *. bool_prop. unfold dot at 1.
  rewrite (alnum_not c) by (done || (cbn; set_solver)). by apply IH.
Qed.

Lemma rstrip_join toks :
  Forall (λ t, word_tok t = true) toks → rstrip dot (join "." toks) = join "." toks.
Proof.
  induction 1 as [|t toks Ht Htoks IH]; [done|].
  destruct toks as [|u toks]; [by apply rstrip_word|]. rewrite join_cons by done.
  rewrite sapp_assoc. apply rstrip_app_keep; [|done].
  apply Forall_cons in Htoks as [Hu _]. unfold word_tok in Hu.
  bool_prop. destruct u; [done|]. by destruct toks.
Qed.

Lemma metadata_host_numeric toks :
  Forall (λ t, word_tok t = true) toks →
  is_metadata_host (join "." toks) =
  mem (join "." (map lower toks)) METADATA_HOSTS
  || metadata_name (_as_ipv4 (join "." (map lower toks))).
Proof.
  intros Ht.
  assert (Forall (λ t, word_tok t = true) (map lower toks)) as Htl.
  { apply Forall_map. eapply Forall_impl; [exact Ht|]. intros t. apply word_lower. }
  pose proof (join_word_chars _ Ht) as Hj. pose proof (join_word_chars _ Htl) as Hjl.
  unfold is_metadata_host. rewrite after_last_none by by eapply numeric_no_char.
  unfold strip. rewrite (numeric_strip is_space); [| |done].
  2: { intros c Hc. unfold numeric_char in Hc. apply orb_true_iff in Hc as [Hc|Hc].
       - by apply alnum_not_space.
       - unfold dot in Hc. by apply Ascii.eqb_eq in Hc as <-. }
  assert (∀ c, numeric_char c = true → one_of "[]" c = false) as Hbr.
  { intros c Hc. unfold numeric_char in Hc. apply orb_true_iff in Hc as [Hc|Hc].
    - unfold one_of, has_char. cbn. rewrite !(Ascii.eqb_sym c).
      by rewrite !(alnum_not c) by (done || (cbn; set_solver)).
    - unfold dot in Hc. by apply Ascii.eqb_eq in Hc as <-. }
  rewrite join_lower, (numeric_strip (one_of "[]")) by done. rewrite rstrip_join by done.
  rewrite (before_first_none ":") by by eapply numeric_no_char.
  rewrite (numeric_strip (one_of "[]")) by done. by destruct (_ || _), (mem _ _).
Qed.

(** * Theorems *)

(** The allowlist works on whole labels: a host passes exactly when, after
    normalisation, its labels end in the labels of an allowed domain; no
    look-alike that merely ends in the same letters does. *)
Theorem host_allowed_spec host config :
  host_allowed host config = true ↔
  normalize_host host ≠ "" ∧
  ∃ pattern subdomain, pattern ∈ allowed_hosts config ∧
    split_on "." (normalize_host host) = subdomain ++ split_on "." (pattern_base pattern).
Proof.
  unfold host_allowed. destruct (normalize_host host =? "")%string eqn:E; bool_prop.
  { split; [done|]. by intros [? _]. }
  rewrite existsb_elem. split.
  - intros (p & Hp & Hm). split; [done|]. exists p.
    destruct (proj1 (split_on_suffix "." (normalize_host host) (pattern_base p))) as [k Hk];
      [|by exists k].
    apply orb_true_iff in Hm as [Hm%String.eqb_eq|(l & Hl)%endswith_spec]; [by left|].
    right. by exists l.
  - intros (_ & p & k & Hp & Hk). exists p. split; [done|]. apply orb_true_iff.
    destruct (proj2 (split_on_suffix "." (normalize_host host) (pattern_base p))) as [Hs|[l Hl]];
      [by exists k|left; by apply String.eqb_eq|].
    right. apply endswith_spec. by exists l.
Qed.

(** Every numeric spelling of a host is read as the address it denotes: one to
    four parts, each decimal, hexadecimal or octal, in upper or lower case. Such
    a host is the metadata server exactly when that address is 169.254.169.254. *)
Theorem metadata_numeric toks vals :
  Forall (λ t, word_tok t = true) toks → 1 ≤ length toks ≤ 4 →
  mapM _octet toks = Some vals → in_bounds vals →
  is_metadata_host (join "." toks) = true ↔ aton_value vals = METADATA_ADDRESS.
Proof.
  intros Ht Hl Hm Hb. rewrite metadata_host_numeric by done.
  assert (Forall (λ t, word_tok t = true) (map lower toks)) as Htl.
  { apply Forall_map. eapply Forall_impl; [exact Ht|]. intros t. apply word_lower. }
  set (host := join "." (map lower toks)).
  assert (split_on "." host = map lower toks) as Hsplit.
  { apply (split_on_join "."); [by destruct toks; [cbn in Hl; lia|]|].
    eapply Forall_impl; [exact Htl|]. intros t Htt. cbn in Htt. unfold word_tok in Htt. bool_prop.
    by eapply has_char_sforall. }
  assert (mapM _octet (map lower toks) = Some vals) as Hml.
  { rewrite <-Hm. clear -Ht. induction Ht as [|t toks Ht Htoks IH]; [done|].
    cbn [map mapM]. by rewrite octet_lower, IH. }
  pose proof (join_word_chars _ Htl) as Hc. fold host in Hc.
  assert (_as_ipv4 host = Some (v4_str (aton_value vals))) as Ha.
  { apply as_ipv4_numeric; [by eapply numeric_no_char..| | |done].
    - rewrite Hsplit, length_map. lia.
    - by rewrite Hsplit. }
  assert (length vals ≤ 4) as Hlv by (apply length_mapM in Hm; lia).
  pose proof (aton_value_bound vals Hb Hlv) as Hv.
  rewrite Ha. cbn [metadata_name]. rewrite orb_true_iff, (v4_metadata (aton_value vals)) by done.
  split; [|by right]. intros [Hh|?]; [|done].
  apply mem_spec in Hh. unfold METADATA_HOSTS in Hh. rewrite !elem_of_cons, elem_of_nil in Hh.
  destruct Hh as [Hh|[Hh|[Hh|[]]]]; rewrite Hh in Hsplit; rewrite <-Hsplit in Hml;
    vm_compute in Hml; try done. by injection Hml as <-.
Qed.

(** ** Concrete inputs *)

Lemma metadata_numeric_witness :
  is_metadata_host (join "." ["0xA9"; "254"; "0376.0"]) = false ∧
  (is_metadata_host (join "." ["0xA9"; "254"; "43518"]) = true ↔
   aton_value [169; 254; 43518]%Z = METADATA_ADDRESS).
Proof.
  split; [vm_compute; reflexivity|].
  apply (metadata_numeric ["0xA9"; "254"; "43518"] [169; 254; 43518]%Z);
    [by repeat constructor|cbn; lia|vm_compute; reflexivity|].
  split; [repeat constructor; lia|cbn; lia].
Defined.
