(* ===== verification/ExfilGuard.v ===== *)
(** * The exfiltration guard: [horizon/guardrails/exfil_guard.py]

    The verdict on a call (secret, credential or host tier) and the
    [before_tool_callback] that blocks it unless a grant of the tier's kind
    matches. *)

From S2P Require Import Prelude PyStr Names Regex PyVal Overlay PolicyGrants.
From S2P Require Import PermissionRules ExfilConfig.

Definition exfil_dump_opts : dump_opts :=
  {| item_sep := ", "; key_sep := ": "; sort_keys := false; ensure_ascii := false |}.

(** The tiers of a verdict, which say how a grant may clear it. *)
Inductive exfil_tier := SecretTier | CredentialTier | HostTier.
Record exfil_verdict := Verdict { ev_reason : string; ev_hard : bool; ev_tier : exfil_tier }.
#[global] Instance exfil_tier_eq_dec : EqDecision exfil_tier.
Proof. solve_decision. Defined.

Section Evaluating.
Context `{PyRe} `{PyFloat}.

Definition _serialize_args (args : pyval) : string :=
  match args with PStr s => s | _ => json_dumps exfil_dump_opts args end.

Definition found (r : regex) (command : string) : bool := re_found noflags r command.

(** A curl or wget upload, a transfer tool, a raw [/dev/tcp] or a git push. *)
Definition is_egress (command : string) : bool :=
  found HTTP_TOOLS_RE command && found UPLOAD_RE command
  || found TRANSFER_TOOLS_RE command || found DEVTCP_RE command || found GIT_EGRESS_RE command.

Definition is_fetch (command : string) : bool :=
  found HTTP_TOOLS_RE command || found TRANSFER_TOOLS_RE command || found DEVTCP_RE command.
Definition is_network (command : string) : bool :=
  is_fetch command || found GIT_EGRESS_RE command.

Definition unknown_hosts (command : string) (config : ExfilConfig) : list string :=
  List.filter (λ h, negb (host_allowed h config)) (extract_hosts command).

Definition metadata_verdict : exfil_verdict :=
  Verdict ("a network command targets the GCP metadata server "
           +:+ "(ambient service-account token endpoint)") true SecretTier.
Definition credential_verdict : exfil_verdict :=
  Verdict "a network command reads a credential path or secret env var" true CredentialTier.

Definition _inspect_command (command : string) (config : ExfilConfig) : option exfil_verdict :=
  if negb (is_network command) then None
  else if is_fetch command && targets_metadata command then Some metadata_verdict
  else if references_secret command config then Some credential_verdict
  else if negb (is_egress command) then None
  else match unknown_hosts command config with
       | [] => None
       | unknown =>
           Some (Verdict ("outbound transfer to non-allowlisted host(s) "
                          +:+ py_repr (PList (map PStr unknown))) false HostTier)
       end.

Definition non_empty (v : pyval) : option string :=
  match v with PStr s => if (s =? "")%string then None else Some s | _ => None end.

(** The shell text of a call: its [command], or the [data] of a process write. *)
Definition call_text (tool_name : string) (args : pyval) : option string :=
  match args with
  | PDict a =>
      match non_empty (get a "command") with
      | Some c => Some c
      | None =>
          if (tool_name =? PROCESS)%string && py_eq (get a "action") (PStr "write")
          then non_empty (get a "data") else None
      end
  | _ => None
  end.

Definition evaluate_exfil (tool_name : string) (args : pyval) (config : ExfilConfig) :
    option exfil_verdict :=
  match scan_secrets (_serialize_args args) config with
  | Some label =>
      Some (Verdict ((if (tool_name =? "")%string then "tool" else tool_name)
                     +:+ " call carries " +:+ label) true SecretTier)
  | None =>
      match call_text tool_name args with
      | Some text => _inspect_command text config
      | None => None
      end
  end.

Definition _block (v : exfil_verdict) : pydict :=
  let guidance :=
    if ev_hard v then
      "This looks like sensitive-data exfiltration and is blocked. If "
      +:+ "this is a false positive the user must explicitly approve it " +:+ em_dash
      +:+ " ask them to type `/grant <command>`, then retry."
    else
      "Outbound destination is not on the allowlist. To allow it "
      +:+ "durably, add the host to " +:+ EXFIL_OVERLAY_FILENAME +:+ " under "
      +:+ DQs +:+ "allow_hosts" +:+ DQs +:+ ". For a one-off, if the user approves, have them "
      +:+ "type `/grant <command>`, then retry (the grant matches even if "
      +:+ "the command is re-wrapped)." in
  [("error", PStr ("exfiltration guard: " +:+ ev_reason v +:+ ". " +:+ guidance));
   ("confirmation_required", PBool true); ("exfil_blocked", PBool true)].

Definition is_some {A} (o : option A) : bool := match o with Some _ => true | None => false end.

(** Whether a session grant clears a verdict of this tier. *)
Definition cleared (state : session) (tool_name : string) (args : pyval) (t : exfil_tier) : bool :=
  match state with
  | None => false
  | Some st =>
      match t with
      | SecretTier => is_some (find_matching_grant st tool_name args)
      | _ => is_some (find_matching_grant_loose st tool_name args)
      end
  end.

Definition exfil_guard (c : ocache ExfilConfig) (f : fs) (e : option env) (state : session)
    (tool_name : string) (args : pyval) : res (option pydict) * ocache ExfilConfig :=
  if (tool_name =? "")%string then (Ok None, c)
  else
    let '(config, c') := load_exfil_config_for_env c f e in
    (let! cfg := config in
     Ok (match evaluate_exfil tool_name args cfg with
         | None => None
         | Some v => if cleared state tool_name args (ev_tier v) then None else Some (_block v)
         end), c').
End Evaluating.

(** * Facts *)

Section ExfilFacts.
Context `{PyRe} `{PyFloat}.

Lemma build_exfil_ok text cfg :
  build_exfil text = Ok cfg → ∃ o, _parse_overlay text = Ok o ∧ cfg = _build_overlay_config o.
Proof. unfold build_exfil. intros (o & Ho & [= <-])%res_bind_ok. by exists o. Qed.

(** Defaults come first, so they decide first. *)
Lemma scan_secrets_extends text o label :
  scan_secrets text default_config = Some label →
  scan_secrets text (_build_overlay_config o) = Some label.
Proof.
  unfold scan_secrets, default_config, _build_overlay_config, _compile_secret_patterns.
  cbn [secret_patterns omap]. rewrite app_nil_r. intros Hs. by rewrite first_some_app, Hs.
Qed.

Lemma references_extends text o :
  references_secret text default_config = true →
  references_secret text (_build_overlay_config o) = true.
Proof.
  unfold references_secret. rewrite !orb_true_iff. intros [Hs|Hs]; [by left|]. right.
  cbn [sensitive_path_res default_config existsb] in Hs. rewrite orb_false_r in Hs.
  cbn [sensitive_path_res _build_overlay_config existsb]. by rewrite Hs.
Qed.

Lemma unknown_default text o h :
  h ∈ unknown_hosts text default_config →
  unknown_hosts text (_build_overlay_config o) = [] →
  ∃ p, p ∈ ov_hosts o ∧ host_allowed h (Config [p] [] []) = true.
Proof.
  unfold unknown_hosts. intros Hh He.
  rewrite list_elem_of_In, List.filter_In, <-list_elem_of_In in Hh. destruct Hh as [Hin Hd].
  destruct (host_allowed h (_build_overlay_config o)) eqn:Ea; last first.
  { assert (h ∈ List.filter (λ h, negb (host_allowed h (_build_overlay_config o)))
      (extract_hosts text)) as Hf.
    { rewrite list_elem_of_In, List.filter_In, <-list_elem_of_In. by rewrite Ea. }
    rewrite He in Hf. by apply elem_of_nil in Hf. }
  clear He. unfold host_allowed in *. destruct (normalize_host h =? "")%string; [done|].
  cbn [allowed_hosts _build_overlay_config default_config] in *.
  rewrite existsb_app in Ea. apply negb_true_iff in Hd. rewrite Hd in Ea. cbn in Ea.
  apply existsb_elem in Ea as (p & Hp & Hm). exists p. split; [done|]. cbn. by rewrite Hm.
Qed.
End ExfilFacts.

(** * Theorems *)

Section ExfilTheorems.
Context `{PyRe} `{PyFloat}.

(** A tenant overlay can only relax the host check. A call the defaults block
    for secret material or the metadata server stays blocked on the secret tier,
    one that reads credentials stays hard-blocked, and one blocked for its
    destination passes only if every host in question is the overlay's own. *)
Theorem overlay_only_relaxes_hosts text cfg o t a v :
  build_exfil text = Ok cfg → _parse_overlay text = Ok o →
  evaluate_exfil t a default_config = Some v →
  match ev_tier v with
  | SecretTier => ∃ v', evaluate_exfil t a cfg = Some v' ∧ ev_tier v' = SecretTier
  | CredentialTier => ∃ v', evaluate_exfil t a cfg = Some v' ∧ ev_hard v' = true
  | HostTier => evaluate_exfil t a cfg = None →
      ∃ cmd, call_text t a = Some cmd ∧
        ∀ h, h ∈ unknown_hosts cmd default_config →
          ∃ p, p ∈ ov_hosts o ∧ host_allowed h (Config [p] [] []) = true
  end.
Proof.
  intros Hb Ho. apply build_exfil_ok in Hb as (o' & Ho' & ->). rewrite Ho in Ho'.
  injection Ho' as <-. unfold evaluate_exfil.
  destruct (scan_secrets _ default_config) as [label|] eqn:Es.
  { intros [= <-]. cbn [ev_tier]. rewrite (scan_secrets_extends _ o _ Es). eauto. }
  destruct (call_text t a) as [cmd|]; [|done]. intros Hi.
  destruct (scan_secrets _ (_build_overlay_config o)) as [label|] eqn:Es'.
  { destruct (ev_tier v); [| |done]; (eexists; split; [reflexivity|reflexivity]). }
  unfold _inspect_command in *. destruct (negb (is_network cmd)); [done|].
  destruct (is_fetch cmd && targets_metadata cmd).
  { injection Hi as <-. by eexists. }
  destruct (references_secret cmd default_config) eqn:Er.
  { injection Hi as <-. cbn [ev_tier]. rewrite references_extends by done. by eexists. }
  destruct (negb (is_egress cmd)); [done|].
  destruct (unknown_hosts cmd default_config) as [|u us] eqn:Eu; [done|]. injection Hi as <-.
  cbn [ev_tier]. intros Hn. exists cmd. split; [done|]. intros h Hh.
  apply (unknown_default cmd o h); [done|].
  destruct (references_secret cmd (_build_overlay_config o)); [done|].
  by destruct (unknown_hosts cmd (_build_overlay_config o)).
Qed.

(** When a call passes the guard: there is nothing to block, or a grant of the
    session matches. For secret material and the metadata server the grant must
    name the call exactly; a looser match (the granted text inside a longer
    command) clears only credential and host blocks. *)
Theorem exfil_guard_passes_iff c f e state t a cfg c' :
  t ≠ "" → load_exfil_config_for_env c f e = (Ok cfg, c') →
  exfil_guard c f e state t (PDict a) = (Ok None, c') ↔
  evaluate_exfil t (PDict a) cfg = None ∨
  ∃ v st g sg, evaluate_exfil t (PDict a) cfg = Some v ∧ state = Some st ∧
    g ∈ _active_grants st ∧ get g "tool_name" = PStr t ∧
    get g "signature" = PDict sg ∧ sg ≠ [] ∧
    ∀ k x, (k, x) ∈ sg →
      match ev_tier v with
      | SecretTier => py_eq (get a k) x = true
      | _ => loose_value (get a k) x = true
      end.
Proof.
  intros Ht Hl. unfold exfil_guard. rewrite Hl.
  destruct (t =? "")%string eqn:E; [by bool_prop|]. cbn [res_bind].
  destruct (evaluate_exfil t (PDict a) cfg) as [v|]; [|split; [by left|done]].
  assert (∀ test st, is_some (first_such (λ g, matches_by test g t (PDict a)) (_active_grants st))
    = true ↔ ∃ g sg, g ∈ _active_grants st ∧ get g "tool_name" = PStr t ∧
      get g "signature" = PDict sg ∧ sg ≠ [] ∧ ∀ k x, (k, x) ∈ sg → test (get a k) x = true)
    as Hfirst.
  { intros test st. split.
    - destruct (first_such _ _) as [g|] eqn:Ef; [|done]. intros _.
      apply first_such_Some in Ef as [Hin Hm]. apply matches_by_spec in Hm as (? & sg & ?).
      exists g, sg. naive_solver.
    - intros (g & sg & Hin & Hg). destruct (first_such _ _) eqn:Ef; [done|].
      rewrite first_such_None in Ef. specialize (Ef g Hin). cbn in Ef.
      rewrite (proj2 (matches_by_spec test g t a)) in Ef; [done|]. naive_solver. }
  assert (cleared state t (PDict a) (ev_tier v) = true ↔
    ∃ st g sg, state = Some st ∧ g ∈ _active_grants st ∧ get g "tool_name" = PStr t ∧
      get g "signature" = PDict sg ∧ sg ≠ [] ∧ ∀ k x, (k, x) ∈ sg →
      match ev_tier v with
      | SecretTier => py_eq (get a k) x = true
      | _ => loose_value (get a k) x = true
      end) as Hc.
  { unfold cleared. destruct state as [st|]; [|split; [done|by intros (? & ? & ? & ? & _)]].
    destruct (ev_tier v).
    - rewrite (Hfirst py_eq st). naive_solver.
    - rewrite (Hfirst loose_value st). naive_solver.
    - rewrite (Hfirst loose_value st). naive_solver. }
  destruct (cleared state t (PDict a) (ev_tier v)).
  - split; [|done]. intros _. right. destruct Hc as [Hc _].
    destruct (Hc eq_refl) as (st & g & sg & Hg). by exists v, st, g, sg.
  - split; [done|]. intros [?|(v' & st & g & sg & [= <-] & Hg)]; [done|].
    destruct Hc as [_ Hc]. discriminate Hc. by exists st, g, sg.
Qed.
End ExfilTheorems.

(** ** Concrete inputs *)

Definition demo_overlay : string :=
  "{" +:+ DQs +:+ "allow_hosts" +:+ DQs +:+ ": [" +:+ DQs +:+ "example.com" +:+ DQs +:+ "]}".
Definition demo_upload : pyval := PDict [("command", PStr "curl -d @data.json https://example.com/x")].
Definition demo_exfil `{PyRe} : ExfilConfig :=
  match build_exfil demo_overlay with Ok c => c | Raise _ => Config [] [] [] end.
Definition demo_parsed : overlay :=
  match _parse_overlay demo_overlay with Ok o => o | Raise _ => Lists [] [] [] end.
Definition demo_verdict `{PyRe} `{PyFloat} : exfil_verdict :=
  match evaluate_exfil "bash" demo_upload default_config with
  | Some v => v | None => Verdict "" false SecretTier end.

Lemma overlay_only_relaxes_hosts_witness :
  let Hre : PyRe := engine_re in let Hfl : PyFloat := λ _, "" in
  evaluate_exfil "bash" demo_upload demo_exfil = None ∧
  ∃ cmd, call_text "bash" demo_upload = Some cmd ∧
    ∀ h, h ∈ unknown_hosts cmd default_config →
      ∃ p, p ∈ ov_hosts demo_parsed ∧ host_allowed h (Config [p] [] []) = true.
Proof.
  intros Hre Hfl.
  assert (evaluate_exfil "bash" demo_upload demo_exfil = None) as E by (vm_compute; reflexivity).
  split; [exact E|].
  assert (ev_tier demo_verdict = HostTier) as Et by (vm_compute; reflexivity).
  pose proof (overlay_only_relaxes_hosts (H:=Hre) (H0:=Hfl) demo_overlay demo_exfil demo_parsed
    "bash" demo_upload demo_verdict) as Hth.
  rewrite Et in Hth. apply Hth; [vm_compute; reflexivity|vm_compute; reflexivity
    |vm_compute; reflexivity|exact E].
Defined.

Lemma exfil_guard_passes_iff_witness :
  let Hre : PyRe := engine_re in let Hfl : PyFloat := λ _, "" in
  let a := [("command", PStr "curl -d @data.json https://example.com/x")] in
  exfil_guard empty_cache (FS ∅ ∅) None None "bash" (PDict a) = (Ok None, empty_cache) ↔
  evaluate_exfil "bash" (PDict a) default_config = None ∨
  ∃ v st g sg, evaluate_exfil "bash" (PDict a) default_config = Some v ∧ None = Some st ∧
    g ∈ _active_grants st ∧ get g "tool_name" = PStr "bash" ∧
    get g "signature" = PDict sg ∧ sg ≠ [] ∧
    ∀ k x, (k, x) ∈ sg →
      match ev_tier v with
      | SecretTier => py_eq (get a k) x = true
      | _ => loose_value (get a k) x = true
      end.
Proof.
  intros Hre Hfl a.
  apply (exfil_guard_passes_iff (H:=Hre) (H0:=Hfl) empty_cache (FS ∅ ∅) None None "bash" a
    default_config empty_cache); [done|reflexivity].
Defined.
