(* ===== verification/HaltGuards.v ===== *)
(** * Halt guards: [guardrails/halt_consumer.py], [repeated_failure.py],
    [no_progress.py], [guardrails_plugin.py], [guardrails/__init__.py] and
    [conversation/graceful_halt.py]

    The guards that stop a turn: repeated failures of one call, identical
    responses, the latch they share, and the one text-only handoff turn a halt
    still grants. *)

From Stdlib Require Import Lqa.
From S2P Require Import Prelude PyStr PyVal.

(** ** The latch *)

Definition HALT_REASON_STATE_KEY : string := "halt_reason".
Definition HALT_HANDOFF_DELIVERED_STATE_KEY : string := "__halt_handoff_delivered__".

(** What the callbacks use of ADK's [LlmRequest]. *)
Record llm_config := LlmConfig { cfg_tools : list string; cfg_tool_config : option string }.
Record llm_request := LlmRequest {
  tools_dict : list (string * string);
  req_config : option llm_config;
  req_contents : list (string * string)   (** role and text *)
}.

Definition halt_text (reason : string) : string := "[halted: " +:+ reason +:+ "]".

(** An [LlmResponse] holding [halt_content(reason)]: its role and text. *)
Definition halt_content (reason : string) : string * string := ("model", halt_text reason).

Definition build_handoff_reminder (reason : string) : string :=
  "<system-reminder>" +:+ NLs
  +:+ "STOP " +:+ em_dash +:+ " this turn's budget has been reached (" +:+ reason
  +:+ "). Tools are now disabled; you cannot make any more tool calls this turn. Respond with "
  +:+ "text ONLY." +:+ NLs +:+ NLs
  +:+ "Your reply MUST contain:" +:+ NLs
  +:+ "1. A short summary of the work completed so far this turn." +:+ NLs
  +:+ "2. The remaining tasks that were not finished." +:+ NLs
  +:+ "3. Concrete recommendations for what to do next (the user can reply "
  +:+ "to continue in a fresh turn with a fresh budget)." +:+ NLs +:+ NLs
  +:+ "Do not apologize at length and do not attempt any tool call " +:+ em_dash +:+ " it will "
  +:+ "be rejected." +:+ NLs
  +:+ "</system-reminder>".

Definition apply_graceful_halt (r : llm_request) (reason : string) : llm_request :=
  LlmRequest []
    (match req_config r with
     | Some _ => Some (LlmConfig [] None)
     | None => None
     end)
    (req_contents r ++ [("user", build_handoff_reminder reason)]).

(** The reply to give instead of calling the model, if any; the request; the
    state. *)
Definition deliver_halt_or_envelope (r : llm_request) (state : pydict) (reason flag_key : string) :
    option (string * string) * llm_request * pydict :=
  if truthy (get state flag_key) then (Some (halt_content reason), r, state)
  else (None, apply_graceful_halt r reason, dset state flag_key (PBool true)).

(** The text of a reason put into a message: [str] of the stored value. *)
Definition halt_consumer_callback `{PyFloat} (state : pydict) (r : llm_request) :
    option (string * string) * llm_request * pydict :=
  let reason := get state HALT_REASON_STATE_KEY in
  if truthy reason
  then deliver_halt_or_envelope r state (py_str reason) HALT_HANDOFF_DELIVERED_STATE_KEY
  else (None, r, state).

Definition acknowledge_halt (state : pydict) : pydict := dset state HALT_REASON_STATE_KEY PNone.
Definition reset_halt_handoff (state : pydict) : pydict :=
  dset state HALT_HANDOFF_DELIVERED_STATE_KEY PNone.

Definition latch_halt (state : pydict) (reason : string) : bool * pydict :=
  if truthy (get state HALT_REASON_STATE_KEY) then (false, state)
  else (true, dset state HALT_REASON_STATE_KEY (PStr reason)).

Definition halted (state : pydict) : bool := truthy (get state HALT_REASON_STATE_KEY).

(** ** [RepeatedFailureGuard] *)

Module RepeatedFailure.
Definition _STREAK_STATE_KEY : string := "__repeated_failure_streak__".
Definition LAST_ERROR_STATE_KEY : string := "last_error".
Definition _DECAY_SECONDS : Q := 600.

Definition signature_opts : dump_opts :=
  {| item_sep := ","; key_sep := ":"; sort_keys := true; ensure_ascii := false |}.

(** [hashlib.sha256(...).hexdigest()]. *)
Class Sha256 := sha256_hex : string → string.

Record streak := Streak { count : Z; last_failure_at : Q }.
Definition streaks : Type := list (string * streak).

(** [s if s is truthy, else nothing] on a value shown in a message. *)
Definition not_zero (v : pyval) : bool :=
  match v with PNone => false | _ => negb (py_eq v (PInt 0)) end.

Section Callbacks.
Context `{PyFloat} `{Sha256}.

Definition _error_text (tool_response : pydict) : string :=
  if truthy (get tool_response "error") then py_str (get tool_response "error")
  else
    let stderr := get tool_response "stderr" in
    let exit_code := get tool_response "exit_code" in
    if not_zero exit_code
    then "exit_code=" +:+ py_str exit_code
         +:+ (if truthy stderr then ": " +:+ py_str stderr else "")
    else py_repr (PDict tool_response).

(** [args or {}] *)
Definition _signature (tool_name : string) (args : pyval) : string :=
  tool_name +:+ ":" +:+ sha256_hex (json_dumps signature_opts (if truthy args then args else PDict [])).

Definition _is_failure (tool_response : pyval) : bool :=
  match tool_response with
  | PDict r =>
      dhas r "error" || not_zero (get r "exit_code")
      || match get r "success" with PBool false => true | _ => false end
  | _ => false
  end.

Definition load_entry (kv : string * pyval) : res (option (string * streak)) :=
  match kv.2 with
  | PDict e =>
      if dhas e "count" then
        let! n := py_int (get e "count") in
        let! t := py_float (default (PFloat 0) (dget e "last_failure_at")) in
        Ok (Some (kv.1, Streak n t))
      else Ok None
  | _ => Ok None
  end.

Fixpoint load_entries (items : pydict) : res streaks :=
  match items with
  | [] => Ok []
  | kv :: rest =>
      let! x := load_entry kv in
      let! xs := load_entries rest in
      Ok (match x with Some e => e :: xs | None => xs end)
  end.

Definition _load_streaks (raw : pyval) : res streaks :=
  match raw with PDict d => load_entries d | _ => Ok [] end.

Definition stale (now : Q) (s : streak) : bool :=
  negb (Qle_bool (now - last_failure_at s) _DECAY_SECONDS).

Definition _prune_stale (ss : streaks) (now : Q) : streaks :=
  List.filter (λ kv, negb (stale now kv.2)) ss.

(** The dict stored in the session. *)
Definition dump_streak (s : streak) : pyval :=
  PDict [("count", PInt (count s)); ("last_failure_at", PFloat (last_failure_at s))].
Definition dump_streaks (ss : streaks) : pyval :=
  PDict (map (λ kv, (kv.1, dump_streak kv.2)) ss).

(** [RepeatedFailureGuard.__init__] *)
Definition make (threshold : Z) : res Z :=
  if (threshold <? 2)%Z
  then Raise (ValueError ("threshold must be >= 2 (threshold=1 would halt on the first failure); got "
                          +:+ str_of_Z threshold))
  else Ok threshold.

Definition after_tool_callback (threshold : Z) (tool_name : string) (args tool_response : pyval)
    (now : Q) (state : pydict) : res pydict :=
  let signature := _signature tool_name args in
  let! loaded := _load_streaks (get state _STREAK_STATE_KEY) in
  let ss := _prune_stale loaded now in
  Ok (match _is_failure tool_response, tool_response with
      | true, PDict r =>
          let prior := match dget ss signature with Some e => count e | None => 0%Z end in
          let n := (prior + 1)%Z in
          let state := dset state _STREAK_STATE_KEY
                         (dump_streaks (dset ss signature (Streak n now))) in
          let state := dset state LAST_ERROR_STATE_KEY (PStr (_error_text r)) in
          if (threshold <=? n)%Z
          then (latch_halt state
                  (tool_name +:+ " failed " +:+ str_of_Z n +:+ " times in a row with the same "
                   +:+ "arguments " +:+ em_dash +:+ " halting to avoid a tool loop.")).2
          else state
      | _, _ =>
          let state := if dhas ss signature
                       then dset state _STREAK_STATE_KEY (dump_streaks (ddel ss signature))
                       else state in
          dset state LAST_ERROR_STATE_KEY PNone
      end).
End Callbacks.

Definition reset (state : pydict) : pydict := dset state _STREAK_STATE_KEY PNone.
End RepeatedFailure.

(** ** [NoProgressGuard] *)

Module NoProgress.
Definition _STREAK_STATE_KEY : string := "__no_progress_streak__".
Definition _LAST_TEXT_STATE_KEY : string := "__no_progress_last_text__".

(** A response: its content's parts, each with its text if it has one. *)
Definition response : Type := option (list (option string)).

Definition part_text (part : option string) : option string :=
  match part with Some t => if (t =? "")%string then None else Some t | None => None end.

Definition _normalize_text (llm_response : response) : string :=
  match llm_response with
  | None => ""
  | Some parts =>
      match omap part_text parts with
      | [] => ""
      | text_parts => join " " (split_ws (join " " text_parts))
      end
  end.

Definition make (window : Z) : res Z :=
  if (window <? 2)%Z
  then Raise (ValueError ("window must be >= 2 (a window of 1 would halt on every response); got "
                          +:+ str_of_Z window))
  else Ok window.

(** [streak + 1] *)
Definition py_succ (v : pyval) : res pyval :=
  match v with
  | PInt n => Ok (PInt (n + 1))
  | PBool b => Ok (PInt ((if b then 1 else 0) + 1))
  | PFloat q => Ok (PFloat (q + 1))
  | _ => Raise (TypeError "unsupported operand type(s) for +=")
  end.
Definition at_least (v : pyval) (n : Z) : bool :=
  match num_of v with Some q => Qle_bool (inject_Z n) q | None => false end.

Definition after_model_callback `{PyFloat} (window : Z) (llm_response : response)
    (state : pydict) : res pydict :=
  let normalized := _normalize_text llm_response in
  if (normalized =? "")%string then Ok state
  else
    let previous := get state _LAST_TEXT_STATE_KEY in
    let! streak :=
      if py_eq previous (PStr normalized)
      then py_succ (default (PInt 0) (dget state _STREAK_STATE_KEY)) else Ok (PInt 1) in
    let state := dset state _LAST_TEXT_STATE_KEY (PStr normalized) in
    let state := dset state _STREAK_STATE_KEY streak in
    Ok (if at_least streak window
        then (latch_halt state
                ("no progress detected: the model produced the same response "
                 +:+ py_str streak +:+ " times in a row " +:+ em_dash
                 +:+ " halting to avoid a response loop.")).2
        else state).

Definition reset (state : pydict) : pydict :=
  dset (dset state _STREAK_STATE_KEY (PInt 0)) _LAST_TEXT_STATE_KEY PNone.
End NoProgress.

(** [guardrails/__init__.py]: the reset at a user-turn boundary. *)
Definition clear_halt_state (state : pydict) : pydict :=
  NoProgress.reset (RepeatedFailure.reset (reset_halt_handoff (acknowledge_halt state))).

(** ** [GuardrailsPlugin] *)

Record guardrails := Guardrails { g_threshold : Z; g_window : Z }.

Definition make_plugin (failure_threshold no_progress_window : Z) : res guardrails :=
  let! t := RepeatedFailure.make failure_threshold in
  let! w := NoProgress.make no_progress_window in
  Ok (Guardrails t w).

(** * Facts *)

Lemma get_dset_eq d k v : get (dset d k v) k = v.
Proof. unfold get. by rewrite dget_dset_eq. Qed.

Lemma get_dset_ne d k k' v : k ≠ k' → get (dset d k v) k' = get d k'.
Proof. intros. unfold get. by rewrite dget_dset_ne. Qed.

Lemma latch_halted state reason :
  reason ≠ "" → halted (latch_halt state reason).2 = true.
Proof.
  intros Hr. unfold latch_halt, halted.
  destruct (truthy (get state HALT_REASON_STATE_KEY)) eqn:E; [done|]. cbn [snd].
  rewrite get_dset_eq. cbn. apply negb_true_iff. by apply String.eqb_neq.
Qed.

Lemma latch_get state reason k :
  k ≠ HALT_REASON_STATE_KEY → get (latch_halt state reason).2 k = get state k.
Proof.
  intros Hk. unfold latch_halt. destruct (truthy _); [done|]. cbn [snd].
  by rewrite get_dset_ne.
Qed.

(** ** Streaks of failures *)

Module RepeatedFailureFacts.
Import RepeatedFailure.

Section Streaks.
Context `{PyFloat} `{Sha256}.

(** One finished call. *)
Record event := Event { ev_tool : string; ev_args : pyval; ev_response : pyval; ev_now : Q }.
Definition sig (e : event) : string := _signature (ev_tool e) (ev_args e).
Definition failed (e : event) : bool := _is_failure (ev_response e).

Fixpoint run (threshold : Z) (evs : list event) (state : pydict) : res pydict :=
  match evs with
  | [] => Ok state
  | e :: evs' =>
      let! state' := after_tool_callback threshold (ev_tool e) (ev_args e) (ev_response e)
                       (ev_now e) state in
      run threshold evs' state'
  end.

(** The specification: the streak of one signature. A call resets it, a failure
    extends it, and it expires ten minutes after its last failure. *)
Definition live (now : Q) (a : option streak) : option streak :=
  match a with Some k => if stale now k then None else Some k | None => None end.
Definition tick (s : string) (a : option streak) (e : event) : option streak :=
  let a := live (ev_now e) a in
  if (sig e =? s)%string
  then if failed e
       then Some (Streak (match a with Some k => count k | None => 0 end + 1) (ev_now e))
       else None
  else a.
Definition streak_of (s : string) (evs : list event) : option streak :=
  List.fold_left (tick s) evs None.
Definition failures (s : string) (evs : list event) : Z :=
  match streak_of s evs with Some k => count k | None => 0%Z end.

Fixpoint monotone (t : Q) (evs : list event) : Prop :=
  match evs with [] => True | e :: evs' => (t <= ev_now e)%Q ∧ monotone (ev_now e) evs' end.

Lemma load_dump ss : _load_streaks (dump_streaks ss) = Ok ss.
Proof.
  unfold _load_streaks, dump_streaks. induction ss as [|[k [n t]] ss IH]; [done|].
  cbn [map load_entries fst snd]. rewrite IH. done.
Qed.

Lemma dget_prune ss now s :
  NoDup (keys ss) → dget (_prune_stale ss now) s = live now (dget ss s).
Proof.
  unfold _prune_stale. induction ss as [|[k v] ss IH]; [done|]. cbn. intros [Hk Hnd]%NoDup_cons.
  destruct (stale now v) eqn:Es; cbn; destruct (s =? k)%string eqn:E.
  - bool_prop. subst k. rewrite IH by done. cbn. rewrite Es.
    apply dget_None in Hk. by rewrite Hk.
  - by apply IH.
  - cbn. by rewrite Es.
  - by apply IH.
Qed.

Lemma keys_prune_sub ss now k : k ∈ keys (_prune_stale ss now) → k ∈ keys ss.
Proof.
  unfold keys, _prune_stale. intros (kv & -> & Hin)%list_elem_of_fmap.
  rewrite list_elem_of_In, List.filter_In, <-list_elem_of_In in Hin.
  apply list_elem_of_fmap. exists kv. naive_solver.
Qed.

Lemma NoDup_prune ss now : NoDup (keys ss) → NoDup (keys (_prune_stale ss now)).
Proof.
  induction ss as [|[k v] ss IH]; [done|]. intros [Hk Hnd]%NoDup_cons. cbn.
  destruct (negb _); [|by apply IH]. cbn. constructor; [|by apply IH].
  intros Hin%keys_prune_sub. done.
Qed.

Lemma stale_mono t now k : (t <= now)%Q → stale t k = true → stale now k = true.
Proof.
  unfold stale. rewrite !negb_true_iff. intros Ht Hs.
  destruct (Qle_bool (now - last_failure_at k) _DECAY_SECONDS) eqn:E; [|done].
  apply Qle_bool_iff in E. exfalso. apply not_true_iff_false in Hs. apply Hs, Qle_bool_iff. lra.
Qed.

Lemma live_live t now a : (t <= now)%Q → live now (live t a) = live now a.
Proof.
  intros Ht. destruct a as [k|]; [|done]. cbn. destruct (stale t k) eqn:E; [|done].
  by rewrite (stale_mono t now).
Qed.

Lemma not_stale_now now n : stale now (Streak n now) = false.
Proof.
  unfold stale, _DECAY_SECONDS. apply negb_false_iff, Qle_bool_iff. cbn. lra.
Qed.

(** The stored streaks agree with the specification, up to expired entries. *)
Definition agrees (state : pydict) (t : Q) (spec : string → option streak) : Prop :=
  ∃ ss, _load_streaks (get state _STREAK_STATE_KEY) = Ok ss ∧ NoDup (keys ss) ∧
    ∀ s, live t (dget ss s) = spec s.

Lemma step_agrees threshold e state t spec :
  agrees state t spec → (t <= ev_now e)%Q →
  ∃ state', after_tool_callback threshold (ev_tool e) (ev_args e) (ev_response e) (ev_now e) state
    = Ok state' ∧
    agrees state' (ev_now e) (λ s, tick s (spec s) e) ∧
    halted state' = halted state ||
      failed e && (threshold <=? match tick (sig e) (spec (sig e)) e with
                                 | Some k => count k | None => 0 end)%Z.
Proof.
  intros (ss & Hss & Hnd & Hsp) Ht. unfold after_tool_callback. rewrite Hss. cbn [res_bind].
  set (now := ev_now e) in *. set (pr := _prune_stale ss now).
  assert (∀ s, dget pr s = live now (spec s)) as Hpr.
  { intros s. unfold pr. rewrite dget_prune by done. by rewrite <-Hsp, live_live. }
  assert (NoDup (keys pr)) as Hndp by by apply NoDup_prune.
  fold (sig e). destruct (failed e) eqn:Ef.
  - assert (tick (sig e) (spec (sig e)) e =
      Some (Streak (match live now (spec (sig e)) with Some k => count k | None => 0 end + 1) now))
      as -> by (unfold tick; by rewrite String.eqb_refl, Ef).
    unfold failed in Ef. destruct (ev_response e) as [| | | | | |r] eqn:Hresp; try done.
    rewrite Ef, Hpr. set (n := (_ + 1)%Z). cbn [count andb].
    set (st1 := dset (dset state _ _) _ _).
    assert (get st1 _STREAK_STATE_KEY = dump_streaks (dset pr (sig e) (Streak n now))) as Hst1.
    { unfold st1. rewrite get_dset_ne by done. by rewrite get_dset_eq. }
    assert (halted st1 = halted state) as Hh1.
    { unfold halted, st1. by rewrite !get_dset_ne by done. }
    assert (∀ st2, get st2 _STREAK_STATE_KEY = get st1 _STREAK_STATE_KEY →
      agrees st2 now (λ s, tick s (spec s) e)) as Hag.
    { intros st2 Hst2. exists (dset pr (sig e) (Streak n now)). rewrite Hst2, Hst1, load_dump.
      split; [done|]. split; [by apply NoDup_keys_dset|]. intros s. rewrite dget_dset. unfold tick.
      destruct (sig e =? s)%string eqn:E; bool_prop.
      - subst s. rewrite decide_True by done. unfold failed. rewrite Hresp, Ef. cbn.
        by rewrite not_stale_now.
      - rewrite decide_False, Hpr by done. by apply live_live, Qle_refl. }
    destruct (threshold <=? n)%Z eqn:En; eexists; (split; [done|]); split.
    + apply Hag. by apply latch_get.
    + rewrite latch_halted by by destruct (ev_tool e). by rewrite orb_true_r.
    + by apply Hag.
    + by rewrite Hh1, orb_false_r.
  - set (st1 := if dhas pr (sig e) then dset state _STREAK_STATE_KEY (dump_streaks (ddel pr (sig e)))
                else state).
    exists (dset st1 LAST_ERROR_STATE_KEY PNone).
    split; [unfold failed in Ef; by destruct (ev_response e); try rewrite Ef|].
    split; last first.
    { rewrite orb_false_r. unfold halted. rewrite get_dset_ne by done. unfold st1.
      destruct (dhas _ _); [by rewrite get_dset_ne|done]. }
    unfold agrees, tick. rewrite Ef, get_dset_ne by done. unfold st1, dhas.
    destruct (dget pr (sig e)) as [k|] eqn:Ek.
    + exists (ddel pr (sig e)). rewrite get_dset_eq, load_dump. split; [done|].
      split; [by apply NoDup_keys_ddel|]. intros s. destruct (sig e =? s)%string eqn:E; bool_prop.
      * subst s. by rewrite dget_ddel_eq.
      * rewrite dget_ddel_ne, Hpr by done. by apply live_live, Qle_refl.
    + exists ss. split; [done|]. split; [done|]. intros s.
      rewrite <-(live_live t now), Hsp, <-Hpr by done.
      destruct (sig e =? s)%string eqn:E; bool_prop; [by subst s|]. done.
Qed.

Lemma run_agrees threshold evs : ∀ pre state t,
  agrees state t (λ s, streak_of s pre) → monotone t evs →
  ∃ state', run threshold evs state = Ok state' ∧
    (halted state' = true ↔ halted state = true ∨
       ∃ mid e post, evs = mid ++ e :: post ∧ failed e = true ∧
         (threshold ≤ failures (sig e) (pre ++ mid ++ [e]))%Z).
Proof.
  induction evs as [|e evs IH]; intros pre state t Ha Hm; cbn [run].
  - exists state. split; [done|]. split; [by left|].
    intros [?|(mid & e & post & Hx & _)]; [done|]. by destruct mid.
  - destruct Hm as [Ht Hm].
    destruct (step_agrees threshold e state t _ Ha Ht) as (st1 & Hst1 & Ha1 & Hh1).
    rewrite Hst1. cbn [res_bind].
    assert (∀ s, tick s (streak_of s pre) e = streak_of s (pre ++ [e])) as Hsnoc.
    { intros s. unfold streak_of. by rewrite fold_left_app. }
    destruct (IH (pre ++ [e]) st1 (ev_now e)) as (st2 & Hst2 & Hh2).
    { destruct Ha1 as (ss & ? & ? & Hs). exists ss. split; [done|]. split; [done|].
      intros s. by rewrite Hs, Hsnoc. }
    { done. }
    exists st2. split; [done|]. rewrite Hh2, Hh1, orb_true_iff, andb_true_iff, Z.leb_le, Hsnoc.
    fold (failures (sig e) (pre ++ [e])). split.
    + intros [[?|[? ?]]|(mid & e' & post & -> & Hf & Hx)]; [by left| |].
      * right. exists [], e, evs. done.
      * right. exists (e :: mid), e', post. split; [done|]. split; [done|].
        by rewrite <-app_assoc in Hx.
    + intros [?|(mid & e' & post & Hx & Hf & Hn)]; [by left; left|].
      destruct mid as [|e1 mid]; cbn in Hx; injection Hx as <- ->; [by left; right|].
      right. exists mid, e', post. split; [done|]. split; [done|]. by rewrite <-app_assoc.
Qed.

(** From a fresh turn, with a clock that does not run backwards, the guard never
    raises, and it halts exactly when some call fails and its own streak (same
    tool, same arguments, no success and no ten-minute gap in between) has then
    reached the threshold. *)
Theorem repeated_failure_halts_iff threshold evs state t :
  monotone t evs → halted state = false →
  ∃ state', run threshold evs (reset state) = Ok state' ∧
    (halted state' = true ↔ ∃ pre e post, evs = pre ++ e :: post ∧ failed e = true ∧
       (threshold ≤ failures (sig e) (pre ++ [e]))%Z).
Proof.
  intros Hm Hh. destruct (run_agrees threshold evs [] (reset state) t) as (st & Hst & Hi).
  - exists []. unfold reset. rewrite get_dset_eq. split; [done|]. split; [constructor|done].
  - done.
  - exists st. split; [done|]. rewrite Hi. unfold reset, halted in *.
    rewrite get_dset_ne by done. rewrite Hh. naive_solver.
Qed.
End Streaks.
End RepeatedFailureFacts.

(** ** Runs of identical responses *)

Module NoProgressFacts.
Import NoProgress.

Section Runs.
Context `{PyFloat}.

Fixpoint run (window : Z) (responses : list response) (state : pydict) : res pydict :=
  match responses with
  | [] => Ok state
  | r :: rest => let! state' := after_model_callback window r state in run window rest state'
  end.

(** The texts the guard compares: silent turns (tool calls only) do not count. *)
Definition said (responses : list response) : list string :=
  List.filter (λ t, negb (t =? "")%string) (map _normalize_text responses).

(** How often [x] is repeated at the head of a list. *)
Fixpoint lead (x : string) (l : list string) : nat :=
  match l with
  | y :: l' => if (x =? y)%string then S (lead x l') else 0
  | [] => 0
  end.

Lemma lead_replicate x n l : n ≤ lead x l ↔ ∃ r, l = replicate n x ++ r.
Proof.
  revert n. induction l as [|y l IH]; intros n; cbn.
  - split; [|by intros [r Hr]; destruct n]. intros Hn. exists []. by destruct n; [|lia].
  - destruct n as [|n]; [split; [by eexists|lia]|]. destruct (x =? y)%string eqn:E; bool_prop.
    + subst y. rewrite <-Nat.succ_le_mono, IH. cbn.
      split; intros [r Hr]; exists r; [by rewrite Hr|by injection Hr].
    + split; [lia|]. intros [r Hr]. cbn in Hr. by injection Hr as ->.
Qed.

(** The state after saying [l] (last first). *)
Definition tracks (state : pydict) (rev_said : list string) : Prop :=
  match rev_said with
  | [] => get state _LAST_TEXT_STATE_KEY = PNone
  | x :: _ => get state _LAST_TEXT_STATE_KEY = PStr x ∧
              dget state _STREAK_STATE_KEY = Some (PInt (Z.of_nat (lead x rev_said)))
  end.

Lemma rev_replicate {A} n (x : A) : rev (replicate n x) = replicate n x.
Proof. induction n as [|n IH]; [done|]. cbn [replicate rev]. by rewrite IH, <-replicate_cons_app. Qed.

(** Some [window] texts in a row are the same. *)
Definition repeats (w : nat) (l : list string) : Prop :=
  ∃ pre x post, l = pre ++ replicate w x ++ post.

Lemma repeats_snoc w l x :
  0 < w → repeats w (l ++ [x]) ↔ repeats w l ∨ w ≤ lead x (x :: rev l).
Proof.
  intros Hw. rewrite lead_replicate. split.
  - intros (pre & y & post & Hl). destruct post as [|z post _] using rev_ind.
    + right. rewrite app_nil_r in Hl. apply (f_equal (@rev string)) in Hl.
      rewrite !rev_app_distr, rev_replicate in Hl. cbn in Hl. exists (rev pre).
      destruct w as [|w]; [lia|]. cbn in Hl |- *. by injection Hl as -> ->.
    + left. rewrite !app_assoc in Hl. apply app_inj_tail in Hl as [-> _].
      exists pre, y, post. by rewrite app_assoc.
  - intros [(pre & y & post & ->)|[r Hr]].
    + exists pre, y, (post ++ [x]). by rewrite !app_assoc.
    + exists (rev r), x, []. rewrite app_nil_r. apply (f_equal (@rev string)) in Hr.
      by rewrite rev_app_distr, rev_replicate in Hr; cbn in Hr; rewrite rev_involutive in Hr.
Qed.

Lemma at_least_nat n w : at_least (PInt (Z.of_nat n)) w = (w <=? Z.of_nat n)%Z.
Proof.
  unfold at_least. cbn [num_of]. apply eq_true_iff_eq.
  by rewrite Qle_bool_iff, <-Zle_Qle, Z.leb_le.
Qed.

Lemma step_tracks w r state l :
  tracks state (rev l) → (0 < w)%Z →
  ∃ state', after_model_callback w r state = Ok state' ∧
    tracks state' (rev (l ++ said [r])) ∧
    (halted state' = true ↔ halted state = true ∨
       (said [r] ≠ [] ∧ (w ≤ Z.of_nat (lead (_normalize_text r) (_normalize_text r :: rev l)))%Z)).
Proof.
  intros Ht Hw. unfold after_model_callback, said. cbn [map List.filter].
  destruct (_normalize_text r =? "")%string eqn:E; bool_prop.
  { exists state. cbn. rewrite app_nil_r. naive_solver. }
  cbn [negb]. set (x := _normalize_text r) in *. rewrite rev_app_distr. cbn [rev app].
  assert ((if py_eq (get state _LAST_TEXT_STATE_KEY) (PStr x)
           then py_succ (default (PInt 0) (dget state _STREAK_STATE_KEY)) else Ok (PInt 1))
    = Ok (PInt (Z.of_nat (lead x (x :: rev l))))) as ->.
  { cbn [lead]. rewrite String.eqb_refl. unfold tracks in Ht.
    destruct (rev l) as [|y l']; [by rewrite Ht|]. destruct Ht as [-> ->]. cbn [py_eq].
    rewrite String.eqb_sym. destruct (x =? y)%string eqn:Exy; bool_prop.
    - subst y. cbn [lead]. rewrite String.eqb_refl. cbn. do 2 f_equal. lia.
    - cbn [lead]. apply String.eqb_neq in Exy as ->. done. }
  cbn [res_bind]. set (n := lead x (x :: rev l)). rewrite at_least_nat.
  set (st1 := dset (dset state _ _) _ _).
  assert (get st1 _LAST_TEXT_STATE_KEY = PStr x ∧
    dget st1 _STREAK_STATE_KEY = Some (PInt (Z.of_nat n))) as [Hl1 Hs1].
  { unfold st1. rewrite get_dset_ne by done. by rewrite get_dset_eq, dget_dset_eq. }
  assert (halted st1 = halted state) as Hh1.
  { unfold halted, st1. by rewrite !get_dset_ne by done. }
  destruct (w <=? Z.of_nat n)%Z eqn:En; eexists; (split; [done|]); bool_prop.
  - split.
    + unfold tracks. fold n. rewrite latch_get by done. split; [done|].
      unfold latch_halt. destruct (truthy _); [done|]. cbn [snd]. by rewrite dget_dset_ne.
    + rewrite latch_halted by done. split; [|done]. intros _. right. done.
  - split; [done|]. rewrite Hh1. split; [by left|]. intros [?|[_ ?]]; [done|lia].
Qed.

Lemma run_tracks w rs : ∀ l state,
  (0 < w)%Z → tracks state (rev l) → (halted state = true ↔ repeats (Z.to_nat w) l) →
  ∃ state', run w rs state = Ok state' ∧
    (halted state' = true ↔ repeats (Z.to_nat w) (l ++ said rs)).
Proof.
  induction rs as [|r rs IH]; intros l state Hw Ht Hh; cbn [run].
  - exists state. unfold said. cbn. by rewrite app_nil_r.
  - destruct (step_tracks w r state l Ht Hw) as (st1 & Hst1 & Ht1 & Hh1). rewrite Hst1.
    cbn [res_bind]. destruct (IH (l ++ said [r]) st1 Hw Ht1) as (st2 & Hst2 & Hh2).
    { rewrite Hh1, Hh. unfold said. cbn [map List.filter].
      destruct (negb (_normalize_text r =? "")%string).
      - rewrite repeats_snoc by lia. split; (intros [?|Hx]; [by left|right]).
        + lia.
        + split; [done|lia].
      - rewrite app_nil_r. naive_solver. }
    exists st2. split; [done|]. rewrite Hh2. unfold said. cbn [map List.filter].
    by destruct (negb _); rewrite <-?app_assoc, ?app_nil_r.
Qed.

(** From a fresh turn the guard never raises, and it halts exactly when the model
    has said the same text [window] times in a row; silent turns neither count
    nor break a run. *)
Theorem no_progress_halts_iff w window rs state :
  make w = Ok window → halted state = false →
  ∃ state', run window rs (reset state) = Ok state' ∧
    (halted state' = true ↔ repeats (Z.to_nat window) (said rs)).
Proof.
  unfold make. destruct (w <? 2)%Z eqn:E; [done|]. intros [= ->] Hh. bool_prop.
  apply (run_tracks window rs [] (reset state)); [lia| |].
  - unfold tracks, reset. cbn. by rewrite get_dset_eq.
  - unfold reset, halted in *. rewrite !get_dset_ne, Hh by done. split; [done|].
    intros (pre & x & post & Hx). destruct (Z.to_nat window) eqn:En; [lia|].
    by destruct pre.
Qed.
End Runs.
End NoProgressFacts.

(** ** The life of a halt *)

Definition tools_stripped (r : llm_request) : Prop :=
  tools_dict r = [] ∧ ∀ c, req_config r = Some c → cfg_tools c = [] ∧ cfg_tool_config c = None.

(** A latched reason holds until the next user turn: the model is called once
    more, with its tools stripped and the handoff text appended; every later
    call gets the halt envelope instead; a later latch does not replace the
    reason; and [clear_halt_state] lifts the halt and empties both counters, so
    nothing carries over. *)
Theorem halt_lifecycle `{PyFloat} state reason r1 r2 :
  reason ≠ "" → halted state = false →
  truthy (get state HALT_HANDOFF_DELIVERED_STATE_KEY) = false →
  let '(wrote, s0) := latch_halt state reason in
  wrote = true ∧ (∀ reason', latch_halt s0 reason' = (false, s0)) ∧
  ∃ r1' s1, halt_consumer_callback s0 r1 = (None, r1', s1) ∧
    tools_stripped r1' ∧
    req_contents r1' = req_contents r1 ++ [("user", build_handoff_reminder reason)] ∧
    halt_consumer_callback s1 r2 = (Some (halt_content reason), r2, s1) ∧
    halt_consumer_callback (clear_halt_state s1) r2 = (None, r2, clear_halt_state s1) ∧
    truthy (get (clear_halt_state s1) HALT_HANDOFF_DELIVERED_STATE_KEY) = false ∧
    RepeatedFailure._load_streaks (get (clear_halt_state s1) RepeatedFailure._STREAK_STATE_KEY)
      = Ok [] ∧
    NoProgressFacts.tracks (clear_halt_state s1) [].
Proof.
  intros Hr Hh Hd. unfold latch_halt. unfold halted in Hh. rewrite Hh.
  assert (truthy (PStr reason) = true) as Ht
    by (cbn; apply negb_true_iff; by apply String.eqb_neq).
  split; [done|]. split; [intros reason'; by rewrite get_dset_eq, Ht|].
  set (s0 := dset state HALT_REASON_STATE_KEY (PStr reason)).
  assert (get s0 HALT_REASON_STATE_KEY = PStr reason) as H0 by apply get_dset_eq.
  exists (apply_graceful_halt r1 reason), (dset s0 HALT_HANDOFF_DELIVERED_STATE_KEY (PBool true)).
  set (s1 := dset s0 _ _).
  assert (get s1 HALT_REASON_STATE_KEY = PStr reason) as H1
    by (unfold s1; by rewrite get_dset_ne).
  split; [|split; [|split; [|split; [|split; [|split; [|split]]]]]].
  - unfold halt_consumer_callback. rewrite H0, Ht. unfold deliver_halt_or_envelope.
    unfold s0 at 1. by rewrite get_dset_ne, Hd.
  - split; [done|]. intros c. cbn. destruct (req_config r1); [|done]. by intros [= <-].
  - done.
  - unfold halt_consumer_callback. rewrite H1, Ht. unfold deliver_halt_or_envelope.
    unfold s1 at 1. by rewrite get_dset_eq.
  - unfold halt_consumer_callback, clear_halt_state at 1, NoProgress.reset, RepeatedFailure.reset,
      reset_halt_handoff, acknowledge_halt. rewrite !get_dset_ne by done. by rewrite get_dset_eq.
  - unfold clear_halt_state, NoProgress.reset, RepeatedFailure.reset, reset_halt_handoff.
    rewrite !get_dset_ne by done. by rewrite get_dset_eq.
  - unfold clear_halt_state, NoProgress.reset, RepeatedFailure.reset.
    rewrite !get_dset_ne by done. by rewrite get_dset_eq.
  - unfold NoProgressFacts.tracks, clear_halt_state, NoProgress.reset. by rewrite get_dset_eq.
Qed.

(** ** Concrete inputs *)

Definition demo_failure (now : Q) : RepeatedFailureFacts.event :=
  RepeatedFailureFacts.Event "bash" (PDict [("command", PStr "make")])
    (PDict [("error", PStr "exit 2")]) now.

Lemma repeated_failure_halts_iff_witness :
  let Hfl : PyFloat := λ _, "" in let Hsha : RepeatedFailure.Sha256 := id in
  let evs := [demo_failure 0; demo_failure 1; demo_failure 2] in
  ∃ state', RepeatedFailureFacts.run 3 evs (RepeatedFailure.reset []) = Ok state' ∧
    (halted state' = true ↔ ∃ pre e post, evs = pre ++ e :: post ∧
       RepeatedFailureFacts.failed e = true ∧
       (3 ≤ RepeatedFailureFacts.failures (RepeatedFailureFacts.sig e) (pre ++ [e]))%Z).
Proof.
  intros Hfl Hsha evs.
  apply (RepeatedFailureFacts.repeated_failure_halts_iff (H:=Hfl) (H0:=Hsha) 3 evs [] 0%Q);
    [|reflexivity].
  by vm_compute.
Defined.

Lemma no_progress_halts_iff_witness :
  let Hfl : PyFloat := λ _, "" in
  let rs := [Some [Some "working on it"]; None; Some [Some "Working on it"]; Some [Some "working on it"]] in
  ∃ state', NoProgressFacts.run 3 rs (NoProgress.reset []) = Ok state' ∧
    (halted state' = true ↔ NoProgressFacts.repeats (Z.to_nat 3) (NoProgressFacts.said rs)).
Proof.
  intros Hfl rs. apply (NoProgressFacts.no_progress_halts_iff (H:=Hfl) 3 3 rs []); reflexivity.
Defined.

Lemma halt_lifecycle_witness :
  let Hfl : PyFloat := λ _, "" in
  let r := LlmRequest [("bash", "")] None [("user", "go on")] in
  let '(wrote, s0) := latch_halt [] "stuck" in
  wrote = true ∧ (∀ reason', latch_halt s0 reason' = (false, s0)) ∧
  ∃ r1' s1, halt_consumer_callback s0 r = (None, r1', s1) ∧
    tools_stripped r1' ∧
    req_contents r1' = req_contents r ++ [("user", build_handoff_reminder "stuck")] ∧
    halt_consumer_callback s1 r = (Some (halt_content "stuck"), r, s1) ∧
    halt_consumer_callback (clear_halt_state s1) r = (None, r, clear_halt_state s1) ∧
    truthy (get (clear_halt_state s1) HALT_HANDOFF_DELIVERED_STATE_KEY) = false ∧
    RepeatedFailure._load_streaks (get (clear_halt_state s1) RepeatedFailure._STREAK_STATE_KEY)
      = Ok [] ∧
    NoProgressFacts.tracks (clear_halt_state s1) [].
Proof. intros Hfl r. apply (halt_lifecycle (H:=Hfl) [] "stuck" r r); done. Defined.
