(* ===== verification/IterationBudget.v ===== *)
(** * The iteration budget: [conversation/iteration_budget.py] and
    [conversation/iteration_budget_plugin.py]

    The per-session caps on turns and on tool calls within a turn, and the
    plugin that rebuilds the budget from the session state at each callback. *)

From S2P Require Import Prelude PyStr PyVal HaltGuards.

(** ** [IterationBudget] *)

Definition _DEFAULT_MAX_TOOL_CALLS_PER_ITERATION : Z := 50.
Definition _DEFAULT_MAX_ITERATIONS : Z := 50.

Record budget := Budget {
  _max_iterations : Z;
  _max_tool_calls_per_iteration : Z;
  _iterations_used : Z;
  _tool_calls_this_iteration : Z;
  _halted : bool;
  _halt_reason : pyval
}.

Definition not_positive (what : string) (n : Z) : exc :=
  ValueError (what +:+ " must be positive, got " +:+ str_of_Z n).

(** The check both constructors make. *)
Definition check_caps (max_iterations max_tool_calls : Z) : res unit :=
  if (max_iterations <=? 0)%Z then Raise (not_positive "max_iterations" max_iterations)
  else if (max_tool_calls <=? 0)%Z
  then Raise (not_positive "max_tool_calls_per_iteration" max_tool_calls)
  else Ok ().

Definition make_budget (max_iterations max_tool_calls : Z) : res budget :=
  let! _ := check_caps max_iterations max_tool_calls in
  Ok (Budget max_iterations max_tool_calls 0 0 false PNone).

Definition remaining_iterations (b : budget) : Z :=
  Z.max 0 (_max_iterations b - _iterations_used b).

(** The text of an exception: [str(exc)]. *)
Definition exc_text (x : exc) : string :=
  match x with
  | ValueError m | TypeError m | KeyError m | AttributeError m | IndexError m
  | RuntimeError m | FileNotFoundError m | OSError m | OtherError _ m => m
  end.

Section Budget.
Context `{PyFloat}.

Definition agent_halted (b : budget) : exc :=
  OtherError "AgentHalted"
    (if truthy (_halt_reason b) then "Agent halted: " +:+ py_str (_halt_reason b)
     else "Agent halted").

Definition record_iteration (b : budget) : res budget :=
  if _halted b then Raise (agent_halted b)
  else if (_max_iterations b <=? _iterations_used b)%Z
  then Raise (OtherError "IterationLimitExceeded"
                ("Iteration limit reached: " +:+ str_of_Z (_max_iterations b)))
  else Ok (Budget (_max_iterations b) (_max_tool_calls_per_iteration b) (_iterations_used b + 1)
             (_tool_calls_this_iteration b) (_halted b) (_halt_reason b)).

Definition record_tool_call (b : budget) : res budget :=
  if _halted b then Raise (agent_halted b)
  else if (_max_tool_calls_per_iteration b <=? _tool_calls_this_iteration b)%Z
  then Raise (OtherError "ToolCallLimitExceeded"
                ("Tool-call limit reached for this iteration: "
                 +:+ str_of_Z (_max_tool_calls_per_iteration b)))
  else Ok (Budget (_max_iterations b) (_max_tool_calls_per_iteration b) (_iterations_used b)
             (_tool_calls_this_iteration b + 1) (_halted b) (_halt_reason b)).

Definition reset_iteration_counters (b : budget) : budget :=
  Budget (_max_iterations b) (_max_tool_calls_per_iteration b) (_iterations_used b) 0
    (_halted b) (_halt_reason b).

Definition halt (b : budget) (reason : string) : budget :=
  Budget (_max_iterations b) (_max_tool_calls_per_iteration b) (_iterations_used b)
    (_tool_calls_this_iteration b) true (PStr reason).

(** ** [IterationBudgetPlugin] *)

Definition ITERATION_STATE_KEY : string := "iteration".
Definition _TOOL_CALLS_STATE_KEY : string := "_iteration_budget_tool_calls".
Definition _HALTED_STATE_KEY : string := "_iteration_budget_halted".
Definition _HALT_REASON_STATE_KEY : string := "_iteration_budget_halt_reason".
Definition _HANDOFF_DELIVERED_STATE_KEY : string := "_iteration_budget_handoff_delivered".

Record plugin := Plugin { p_max_iterations : Z; p_max_tool_calls : Z }.

Definition make_budget_plugin (max_iterations max_tool_calls : Z) : res plugin :=
  let! _ := check_caps max_iterations max_tool_calls in Ok (Plugin max_iterations max_tool_calls).

Definition _hydrate_budget (p : plugin) (state : pydict) : res budget :=
  let! b := make_budget (p_max_iterations p) (p_max_tool_calls p) in
  let! used := py_int (default (PInt 0) (dget state ITERATION_STATE_KEY)) in
  let! calls := py_int (default (PInt 0) (dget state _TOOL_CALLS_STATE_KEY)) in
  let is_halted := truthy (get state _HALTED_STATE_KEY) in
  Ok (Budget (_max_iterations b) (_max_tool_calls_per_iteration b) used calls is_halted
        (if is_halted then get state _HALT_REASON_STATE_KEY else PNone)).

Definition _persist_budget (state : pydict) (b : budget) : pydict :=
  let state := dset state ITERATION_STATE_KEY (PInt (_iterations_used b)) in
  let state := dset state _TOOL_CALLS_STATE_KEY (PInt (_tool_calls_this_iteration b)) in
  let state := dset state _HALTED_STATE_KEY (PBool (_halted b)) in
  dset state _HALT_REASON_STATE_KEY (_halt_reason b).

Definition before_run_callback (p : plugin) (state : pydict) : res pydict :=
  let! b := _hydrate_budget p state in
  if _halted b then Ok state
  else Ok (match record_iteration b with
           | Raise x => _persist_budget state (halt b (exc_text x))
           | Ok b' => _persist_budget (dset state _HANDOFF_DELIVERED_STATE_KEY PNone)
                        (reset_iteration_counters b')
           end).

(** The reply given instead of calling the model, if any; the request; the
    state. *)
Definition before_model_callback (p : plugin) (state : pydict) (r : llm_request) :
    res (option (string * string) * llm_request * pydict) :=
  let! b := _hydrate_budget p state in
  if _halted b then
    let reason := if truthy (_halt_reason b) then py_str (_halt_reason b) else "agent halted" in
    Ok (deliver_halt_or_envelope r state reason _HANDOFF_DELIVERED_STATE_KEY)
  else Ok (None, r, state).

(** The loop over an event's function calls. *)
Fixpoint record_calls (n : nat) (b : budget) : budget :=
  match n with
  | 0 => b
  | S n' =>
      record_calls n'
        (match record_tool_call b with
         | Ok b' => b'
         | Raise x => if _halted b then b else halt b (exc_text x)
         end)
  end.

Definition on_event_callback (p : plugin) (state : pydict) (function_calls : nat) : res pydict :=
  let! b := _hydrate_budget p state in
  Ok (_persist_budget state (record_calls function_calls b)).

(** [_StateBoundBudget]: each operation of the view, then [_flush]; an exception
    leaves the state alone. *)
Definition bound_record_iteration (state : pydict) (b : budget) : res (budget * pydict) :=
  let! b' := record_iteration b in Ok (b', _persist_budget state b').
Definition bound_record_tool_call (state : pydict) (b : budget) : res (budget * pydict) :=
  let! b' := record_tool_call b in Ok (b', _persist_budget state b').
Definition bound_reset (state : pydict) (b : budget) : budget * pydict :=
  let b' := reset_iteration_counters b in (b', _persist_budget state b').
Definition bound_halt (state : pydict) (b : budget) (reason : string) : budget * pydict :=
  let b' := halt b reason in (b', _persist_budget state b').

(** * Facts *)

(** ** Persisting *)

Definition well_counted (b : budget) : Prop :=
  (0 ≤ _iterations_used b ≤ _max_iterations b)%Z ∧
  (0 ≤ _tool_calls_this_iteration b ≤ _max_tool_calls_per_iteration b)%Z ∧
  (_halted b = false → _halt_reason b = PNone).

Definition for_plugin (p : plugin) (b : budget) : Prop :=
  _max_iterations b = p_max_iterations p ∧ _max_tool_calls_per_iteration b = p_max_tool_calls p.

Definition caps_ok (p : plugin) : Prop := (0 < p_max_iterations p ∧ 0 < p_max_tool_calls p)%Z.

Lemma make_plugin_caps m n p : make_budget_plugin m n = Ok p → caps_ok p.
Proof.
  unfold make_budget_plugin, check_caps. destruct (m <=? 0)%Z eqn:E1; [done|].
  destruct (n <=? 0)%Z eqn:E2; [done|]. intros [= <-]. bool_prop. done.
Qed.

Lemma hydrate_cases p state used calls :
  caps_ok p → py_int (default (PInt 0) (dget state ITERATION_STATE_KEY)) = Ok used →
  py_int (default (PInt 0) (dget state _TOOL_CALLS_STATE_KEY)) = Ok calls →
  _hydrate_budget p state = Ok (Budget (p_max_iterations p) (p_max_tool_calls p) used calls
    (truthy (get state _HALTED_STATE_KEY))
    (if truthy (get state _HALTED_STATE_KEY) then get state _HALT_REASON_STATE_KEY else PNone)).
Proof.
  intros [Hi Ht] Hu Hc. unfold _hydrate_budget, make_budget, check_caps.
  destruct (p_max_iterations p <=? 0)%Z eqn:E1; bool_prop; [lia|].
  destruct (p_max_tool_calls p <=? 0)%Z eqn:E2; bool_prop; [lia|]. cbn [res_bind].
  rewrite Hu. cbn [res_bind]. by rewrite Hc.
Qed.

Lemma dget_persist state b k :
  k ≠ ITERATION_STATE_KEY → k ≠ _TOOL_CALLS_STATE_KEY → k ≠ _HALTED_STATE_KEY →
  k ≠ _HALT_REASON_STATE_KEY → dget (_persist_budget state b) k = dget state k.
Proof. intros. unfold _persist_budget. by rewrite !dget_dset_ne by done. Qed.

(** Rebuilding the budget from the state it was stored in gives it back. *)
Lemma hydrate_persist p state b :
  caps_ok p → for_plugin p b → (_halted b = false → _halt_reason b = PNone) →
  _hydrate_budget p (_persist_budget state b) = Ok b.
Proof.
  intros Hp [Hi Ht] Hr. unfold _persist_budget.
  rewrite (hydrate_cases p _ (_iterations_used b) (_tool_calls_this_iteration b)); [|done|..].
  - unfold get. rewrite dget_dset_eq, (dget_dset_ne _ _HALT_REASON_STATE_KEY _HALTED_STATE_KEY),
      dget_dset_eq by done. cbn [default truthy]. rewrite <-Hi, <-Ht.
    destruct b as [mi mt iu tc [] hr]; cbn in *; [done|]. by rewrite Hr.
  - rewrite !dget_dset_ne by done. by rewrite dget_dset_eq.
  - rewrite dget_dset_ne by done. rewrite dget_dset_ne by done. by rewrite dget_dset_eq.
Qed.

Lemma record_calls_spec n : ∀ b,
  well_counted b →
  well_counted (record_calls n b) ∧
  _max_iterations (record_calls n b) = _max_iterations b ∧
  _max_tool_calls_per_iteration (record_calls n b) = _max_tool_calls_per_iteration b ∧
  _iterations_used (record_calls n b) = _iterations_used b ∧
  (_halted (record_calls n b) = true ↔ _halted b = true ∨
     (_max_tool_calls_per_iteration b < _tool_calls_this_iteration b + Z.of_nat n)%Z) ∧
  (_halted (record_calls n b) = false →
     _tool_calls_this_iteration (record_calls n b) = _tool_calls_this_iteration b + Z.of_nat n)%Z.
Proof.
  induction n as [|n IH]; intros b Hb; cbn [record_calls].
  - split; [done|]. do 3 (split; [done|]). split; [|lia].
    split; [by left|]. intros [?|?]; [done|]. destruct Hb as (_ & ? & _). lia.
  - pose proof Hb as (Hi & Ht & Hr). unfold record_tool_call. destruct (_halted b) eqn:Eh.
    + destruct (IH b) as (? & ? & ? & ? & Hh & Hc); [done|]. do 4 (split; [done|]).
      rewrite Hh, Eh. split; [tauto|]. intros Hf. rewrite Hf, Eh in Hh. naive_solver.
    + destruct (_ <=? _)%Z eqn:El; bool_prop.
      * destruct (IH (halt b (exc_text (OtherError "ToolCallLimitExceeded"
          ("Tool-call limit reached for this iteration: "
           +:+ str_of_Z (_max_tool_calls_per_iteration b)))))) as (? & ? & ? & ? & Hh & Hc).
        { done. }
        do 4 (split; [done|]). split.
        -- split; [|intros _; apply Hh; by left]. intros _. right. lia.
        -- intros Hf. assert (false = true) as [=]. rewrite <-Hf. apply Hh. by left.
      * edestruct IH as (? & ? & ? & ? & Hh & Hc); [|do 4 (split; [done|])].
        { unfold well_counted. cbn. split; [done|]. split; [lia|done]. }
        cbn [_halted _max_tool_calls_per_iteration _tool_calls_this_iteration] in Hh, Hc.
        rewrite Hh. split; [split; (intros [?|?]; [by left|right; lia])|].
        intros Hf. rewrite Hc by done. lia.
Qed.
End Budget.

(** ** Traces of a session *)

Section Traces.
Context `{PyFloat} (p : plugin).

(** What the runner reports to the plugin: a user turn, a model call, an event
    with some function calls. *)
Inductive callback := Run | Model (r : llm_request) | Event (function_calls : nat).

Definition callback_step (k : callback) (state : pydict) :
    res (option (string * string) * pydict) :=
  match k with
  | Run => let! s := before_run_callback p state in Ok (None, s)
  | Model r => let! x := before_model_callback p state r in
               Ok (let '(reply, _, s) := x in (reply, s))
  | Event n => let! s := on_event_callback p state n in Ok (None, s)
  end.

Fixpoint session (trace : list callback) (state : pydict) : res pydict :=
  match trace with
  | [] => Ok state
  | k :: rest => let! x := callback_step k state in session rest x.2
  end.

(** Turns so far, and function calls since the last turn started. *)
Definition is_run (k : callback) : bool := match k with Run => true | _ => false end.
Definition turns (trace : list callback) : Z := Z.of_nat (length (List.filter is_run trace)).
Definition count_call (n : Z) (k : callback) : Z :=
  match k with Run => 0 | Event m => n + Z.of_nat m | Model _ => n end%Z.
Definition calls_in_turn (trace : list callback) : Z := List.fold_left count_call trace 0%Z.

(** One of the caps was passed at some point of the trace. *)
Definition overrun (trace : list callback) : Prop :=
  ∃ pre post, trace = pre ++ post ∧
    (p_max_iterations p < turns pre ∨ p_max_tool_calls p < calls_in_turn pre)%Z.

Lemma overrun_snoc trace k :
  overrun (trace ++ [k]) ↔ overrun trace ∨
  (p_max_iterations p < turns (trace ++ [k]) ∨ p_max_tool_calls p < calls_in_turn (trace ++ [k]))%Z.
Proof.
  split.
  - intros (pre & post & Heq & Ho). destruct post as [|x post _] using rev_ind.
    + rewrite app_nil_r in Heq. subst pre. by right.
    + rewrite app_assoc in Heq. apply app_inj_tail in Heq as [-> _]. left. by exists pre, post.
  - intros [(pre & post & -> & Ho)|Ho].
    + exists pre, (post ++ [k]). by rewrite app_assoc.
    + exists (trace ++ [k]), []. by rewrite app_nil_r.
Qed.

Lemma turns_snoc trace k : turns (trace ++ [k]) = (turns trace + if is_run k then 1 else 0)%Z.
Proof.
  unfold turns. rewrite List.filter_app, length_app. cbn. destruct (is_run k); cbn; lia.
Qed.
Lemma calls_snoc trace k : calls_in_turn (trace ++ [k]) = count_call (calls_in_turn trace) k.
Proof. unfold calls_in_turn. by rewrite fold_left_app. Qed.

(** The state after a trace. *)
Definition follows (trace : list callback) (state : pydict) : Prop :=
  ∃ b, _hydrate_budget p state = Ok b ∧ for_plugin p b ∧ well_counted b ∧
    (_halted b = true ↔ overrun trace) ∧
    (_halted b = false → _iterations_used b = turns trace ∧
                         _tool_calls_this_iteration b = calls_in_turn trace).

Lemma follows_persist trace state b :
  caps_ok p → for_plugin p b → well_counted b → (_halted b = true ↔ overrun trace) →
  (_halted b = false → _iterations_used b = turns trace ∧
                       _tool_calls_this_iteration b = calls_in_turn trace) →
  follows trace (_persist_budget state b).
Proof.
  intros Hc Hp Hw Hh Hn. exists b. split; [|done]. apply hydrate_persist; [done..|apply Hw].
Qed.

Lemma hydrate_other k v state :
  k ≠ ITERATION_STATE_KEY → k ≠ _TOOL_CALLS_STATE_KEY → k ≠ _HALTED_STATE_KEY →
  k ≠ _HALT_REASON_STATE_KEY → _hydrate_budget p (dset state k v) = _hydrate_budget p state.
Proof.
  intros. unfold _hydrate_budget, get. by rewrite !dget_dset_ne by done.
Qed.

Lemma step_run trace state :
  caps_ok p → follows trace state →
  ∃ s', before_run_callback p state = Ok s' ∧ follows (trace ++ [Run]) s'.
Proof.
  intros Hc (b & Hb & Hp & Hw & Hh & Hn). unfold before_run_callback. rewrite Hb. cbn [res_bind].
  destruct (_halted b) eqn:Eh.
  - exists state. split; [done|]. exists b. do 3 (split; [done|]). rewrite Eh.
    split; [|done]. rewrite overrun_snoc. tauto.
  - destruct (Hn eq_refl) as [Hi Ht]. pose proof Hp as [Hpi Hpt].
    pose proof Hw as (Hwi & Hwt & Hwr). unfold record_iteration. rewrite Eh.
    destruct (_ <=? _)%Z eqn:El; bool_prop; eexists; (split; [done|]).
    + apply follows_persist; [done|done|done| |done]. split; [|done]. intros _.
      apply overrun_snoc. right. left. rewrite turns_snoc. cbn [is_run]. lia.
    + apply follows_persist; [done|done| | |].
      * split; [cbn; lia|]. split; [cbn; lia|]. intros _. by apply Hwr.
      * cbn [_halted reset_iteration_counters]. split; [done|].
        rewrite overrun_snoc, turns_snoc, calls_snoc. cbn [is_run count_call]. rewrite <-Hh.
        intros [?|[?|?]]; [done|lia|destruct Hc; lia].
      * intros _. rewrite turns_snoc, calls_snoc. cbn. lia.
Qed.

Lemma step_event trace state n :
  caps_ok p → follows trace state →
  ∃ s', on_event_callback p state n = Ok s' ∧ follows (trace ++ [Event n]) s'.
Proof.
  intros Hc (b & Hb & Hp & Hw & Hh & Hn). unfold on_event_callback. rewrite Hb. cbn [res_bind].
  eexists. split; [done|]. pose proof Hp as [Hpi Hpt].
  destruct (record_calls_spec n b Hw) as (Hw' & Hmi & Hmt & Hiu & Hh' & Hn').
  apply follows_persist; [done| |done| |].
  - split; congruence.
  - rewrite Hh', Hh, overrun_snoc, turns_snoc, calls_snoc. cbn [is_run count_call].
    destruct (_halted b) eqn:Eh; [tauto|]. destruct (Hn eq_refl) as [Hi Ht]. rewrite Hpt, Ht.
    destruct Hw as ((? & ?) & _). split; [tauto|]. intros [?|[?|?]]; [tauto|lia|tauto].
  - intros Hf. rewrite Hiu, (Hn' Hf), turns_snoc, calls_snoc. cbn [is_run count_call].
    destruct (_halted b) eqn:Eh; [|destruct (Hn eq_refl); lia].
    assert (false = true) as [=]. rewrite <-Hf. apply Hh'. by left.
Qed.

Lemma step_model trace state r :
  follows trace state →
  ∃ reply r' s', before_model_callback p state r = Ok (reply, r', s') ∧
    follows (trace ++ [Model r]) s'.
Proof.
  intros (b & Hb & Hp & Hw & Hh & Hn). unfold before_model_callback. rewrite Hb. cbn [res_bind].
  assert (∀ s', _hydrate_budget p s' = Ok b → follows (trace ++ [Model r]) s') as Hf.
  { intros s' Hs'. exists b. do 3 (split; [done|]).
    rewrite overrun_snoc, turns_snoc, calls_snoc. cbn [is_run count_call]. rewrite Z.add_0_r.
    split; [|done]. rewrite Hh. split; [by left|]. intros [?|Ho]; [done|].
    exists trace, []. by rewrite app_nil_r. }
  destruct (_halted b); [|by eexists _, _, _; split; [done|]; apply Hf].
  unfold deliver_halt_or_envelope. destruct (truthy _); eexists _, _, _; (split; [done|]); apply Hf;
    [done|]. by rewrite hydrate_other.
Qed.

Lemma session_follows trace : ∀ pre state,
  caps_ok p → follows pre state →
  ∃ s', session trace state = Ok s' ∧ follows (pre ++ trace) s'.
Proof.
  induction trace as [|k trace IH]; intros pre state Hc Hf; cbn [session].
  - exists state. by rewrite app_nil_r.
  - assert (∃ reply s1, callback_step k state = Ok (reply, s1) ∧ follows (pre ++ [k]) s1)
      as (reply & s1 & Hk & Hf1).
    { destruct k as [|r|n]; cbn [callback_step].
      - destruct (step_run pre state Hc Hf) as (s & -> & ?). cbn. eauto.
      - destruct (step_model pre state r Hf) as (reply & r' & s & -> & ?). cbn. eauto.
      - destruct (step_event pre state n Hc Hf) as (s & -> & ?). cbn. eauto. }
    rewrite Hk. cbn [res_bind snd]. destruct (IH (pre ++ [k]) s1 Hc Hf1) as (s2 & ? & Hf2).
    exists s2. split; [done|]. by rewrite <-app_assoc in Hf2.
Qed.

Definition fresh (state : pydict) : Prop :=
  dget state ITERATION_STATE_KEY = None ∧ dget state _TOOL_CALLS_STATE_KEY = None ∧
  dget state _HALTED_STATE_KEY = None.

Lemma follows_fresh state : caps_ok p → fresh state → follows [] state.
Proof.
  intros Hc (Hi & Ht & Hh). unfold follows.
  rewrite (hydrate_cases p state 0 0) by (done || by rewrite ?Hi, ?Ht).
  unfold get. rewrite Hh. cbn [default truthy]. eexists. split; [done|]. split; [done|].
  split; [split; [|split]; destruct Hc; cbn; lia || done|]. split; [|done].
  cbn. split; [done|]. intros (pre & post & He & Ho). destruct pre; [|done].
  destruct Hc. unfold turns, calls_in_turn in Ho. cbn in Ho. lia.
Qed.

(** ** After a halt *)

(** Halted, and the handoff turn has been given. *)
Definition done_for (state : pydict) : Prop :=
  ∃ b, _hydrate_budget p state = Ok b ∧ for_plugin p b ∧ _halted b = true ∧
    truthy (get state _HANDOFF_DELIVERED_STATE_KEY) = true.

Lemma record_calls_halted n b : _halted b = true → record_calls n b = b.
Proof.
  intros Hb. induction n as [|n IH]; cbn [record_calls]; [done|].
  unfold record_tool_call. by rewrite Hb.
Qed.

Lemma done_for_step k state :
  caps_ok p → done_for state →
  ∃ reply s', callback_step k state = Ok (reply, s') ∧ done_for s' ∧
    (∀ r, k = Model r → ∃ reason, reply = Some (halt_content reason)).
Proof.
  intros Hc (b & Hb & Hp & Hh & Hd). destruct k as [|r|n]; cbn [callback_step].
  - unfold before_run_callback. rewrite Hb. cbn [res_bind]. rewrite Hh. cbn [res_bind].
    eexists _, _. split; [done|]. split; [by exists b|done].
  - unfold before_model_callback. rewrite Hb. cbn [res_bind]. rewrite Hh. cbn [res_bind].
    unfold deliver_halt_or_envelope. rewrite Hd. eexists _, _. split; [done|].
    split; [by exists b|]. intros. by eexists.
  - unfold on_event_callback. rewrite Hb. cbn [res_bind]. rewrite record_calls_halted by done.
    eexists _, _. split; [done|]. split; [|done]. exists b.
    rewrite hydrate_persist by (done || by rewrite Hh). unfold get.
    by rewrite dget_persist by done.
Qed.

Lemma done_for_session trace : ∀ state,
  caps_ok p → done_for state → ∃ s', session trace state = Ok s' ∧ done_for s'.
Proof.
  induction trace as [|k trace IH]; intros state Hc Hd; cbn [session]; [by exists state|].
  destruct (done_for_step k state Hc Hd) as (reply & s1 & -> & Hd1 & _). by apply IH.
Qed.
End Traces.

(** * Theorems *)

Section BudgetTheorems.
Context `{PyFloat}.

(** The budget of a session, through any sequence of callbacks: nothing raises,
    the counters stay within the caps, and it halts exactly when a cap was
    passed: more turns than allowed, or more function calls than allowed since
    the last turn began. Until then the counters are exact. *)
Theorem budget_halts_iff m n p trace state :
  make_budget_plugin m n = Ok p → fresh state →
  ∃ state' b, session p trace state = Ok state' ∧ _hydrate_budget p state' = Ok b ∧
    (0 ≤ _iterations_used b ≤ p_max_iterations p)%Z ∧
    (0 ≤ _tool_calls_this_iteration b ≤ p_max_tool_calls p)%Z ∧
    (_halted b = true ↔ overrun p trace) ∧
    (_halted b = false → _iterations_used b = turns trace ∧
                         _tool_calls_this_iteration b = calls_in_turn trace).
Proof.
  intros Hp%make_plugin_caps Hf.
  destruct (session_follows p trace [] state Hp (follows_fresh p state Hp Hf))
    as (s' & Hs & b & Hb & [Hi Ht] & (Hwi & Hwt & _) & Hh & Hn).
  exists s', b. rewrite <-Hi, <-Ht. done.
Qed.

(** A halt is for the rest of the session, not of the turn: after it no sequence
    of callbacks, new turns included, brings the budget back; the model is
    called at most once more, without tools, and each later call is answered by
    the halt envelope. *)
Theorem budget_halt_is_final m n p before after r r' state s1 :
  make_budget_plugin m n = Ok p → fresh state →
  session p before state = Ok s1 → overrun p before →
  ∃ s2, session p (Model r :: after) s1 = Ok s2 ∧
    ∃ reason, before_model_callback p s2 r' = Ok (Some (halt_content reason), r', s2).
Proof.
  intros Hp%make_plugin_caps Hf Hs Ho.
  destruct (session_follows p before [] state Hp (follows_fresh p state Hp Hf))
    as (s' & Hs' & b & Hb & Hfp & _ & Hh & _).
  rewrite Hs in Hs'. injection Hs' as <-. apply Hh in Ho.
  assert (∃ s, session p [Model r] s1 = Ok s ∧ done_for p s) as (s & Hs2 & Hd).
  { cbn [session callback_step]. unfold before_model_callback. rewrite Hb. cbn [res_bind].
    rewrite Ho. cbn [res_bind]. unfold deliver_halt_or_envelope.
    destruct (truthy (get s1 _HANDOFF_DELIVERED_STATE_KEY)) eqn:Ed; cbn [snd];
      eexists; (split; [done|]); exists b; [done|].
    rewrite hydrate_other by done. do 3 (split; [done|]). by rewrite get_dset_eq. }
  cbn [session] in Hs2 |- *. destruct (callback_step p (Model r) s1) as [[reply s0]|]; [|done].
  cbn [res_bind snd] in *. injection Hs2 as ->.
  destruct (done_for_session p after s Hp Hd) as (s2 & Hs2 & b2 & Hb2 & _ & Hh2 & Hd2).
  exists s2. split; [done|]. unfold before_model_callback. rewrite Hb2. cbn [res_bind].
  rewrite Hh2. unfold deliver_halt_or_envelope. rewrite Hd2. by eexists.
Qed.
End BudgetTheorems.

(** ** Concrete inputs *)

Definition demo_plugin : plugin := Plugin 2 3.
Definition demo_request : llm_request := LlmRequest [("bash", "")] None [("user", "go on")].
Definition demo_trace : list callback :=
  [Run; Model demo_request; Event 2; Run; Model demo_request; Run].

Lemma budget_halts_iff_witness :
  let Hfl : PyFloat := λ _, "" in
  ∃ state' b, session demo_plugin demo_trace [] = Ok state' ∧
    _hydrate_budget demo_plugin state' = Ok b ∧
    (0 ≤ _iterations_used b ≤ p_max_iterations demo_plugin)%Z ∧
    (0 ≤ _tool_calls_this_iteration b ≤ p_max_tool_calls demo_plugin)%Z ∧
    (_halted b = true ↔ overrun demo_plugin demo_trace) ∧
    (_halted b = false → _iterations_used b = turns demo_trace ∧
                         _tool_calls_this_iteration b = calls_in_turn demo_trace).
Proof.
  intros Hfl.
  apply (budget_halts_iff (H:=Hfl) 2 3 demo_plugin demo_trace []); [reflexivity|by split_and!].
Defined.

Lemma budget_halt_is_final_witness :
  let Hfl : PyFloat := λ _, "" in
  let before := [Run; Run; Run] in
  let s1 := match session demo_plugin before [] with Ok s => s | Raise _ => [] end in
  ∃ s2, session demo_plugin [Model demo_request; Run; Event 1] s1 = Ok s2 ∧
    ∃ reason, before_model_callback demo_plugin s2 demo_request =
      Ok (Some (halt_content reason), demo_request, s2).
Proof.
  intros Hfl before s1.
  apply (budget_halt_is_final (H:=Hfl) 2 3 demo_plugin before [Run; Event 1] demo_request
    demo_request [] s1); [reflexivity|by split_and!|vm_compute; reflexivity|].
  exists before, []. split; [reflexivity|]. left. vm_compute. reflexivity.
Defined.
