(* ===== verification/Throttle.v ===== *)
(** * Fork throttling: [memory/_throttle.py]

    The cooldown and the per-session cap on background forks, by fork type. *)

From Stdlib Require Import Lqa.
From S2P Require Import Prelude PyStr PyVal.

Definition _THROTTLE_STATE_KEY : string := "_fork_throttle".
Definition _FORK_COOLDOWN_SECONDS : Q := 120.
Definition _FORK_PER_SESSION_CAP : Z := 50.

Definition Qmax0 (q : Q) : Q := if Qle_bool 0 q then q else 0%Q.

(** [raw] is the environment variable [LHA_FORK_COOLDOWN]. *)
Definition _cooldown_seconds (raw : option string) : Q :=
  match raw with
  | None => _FORK_COOLDOWN_SECONDS
  | Some r => match float_of_str r with
              | Some q => Qmax0 q
              | None => _FORK_COOLDOWN_SECONDS
              end
  end.

(** [entry.get(key, default) or default] for a zero default. *)
Definition or_zero (entry : pydict) (key : string) (zero : pyval) : pyval :=
  let v := default zero (dget entry key) in if truthy v then v else zero.

(** The [try] block: both numbers, or both zero. *)
Definition read_entry (entry : pydict) : Z * Q :=
  match py_int (or_zero entry "count" (PInt 0)), py_float (or_zero entry "last_at" (PFloat 0)) with
  | Ok n, Ok t => (n, t)
  | _, _ => (0%Z, 0%Q)
  end.

Definition claim_entry (n : Z) (now : Q) : pyval :=
  PDict [("count", PInt (n + 1)); ("last_at", PFloat now)].

Definition Qlt_bool (a b : Q) : bool := negb (Qle_bool b a).

Definition try_claim (raw_cooldown : option string) (now : Q) (state : option pydict)
    (fork_type : string) : bool * option pydict :=
  match state with
  | None => (true, None)
  | Some st =>
      let throttle := default [] (is_dict (get st _THROTTLE_STATE_KEY)) in
      let entry := default [] (is_dict (get throttle fork_type)) in
      let '(n, last_at) := read_entry entry in
      if (_FORK_PER_SESSION_CAP <=? n)%Z then (false, state)
      else
        let cooldown := _cooldown_seconds raw_cooldown in
        if Qlt_bool 0 cooldown && Qlt_bool 0 last_at && Qlt_bool (now - last_at) cooldown
        then (false, state)
        else (true, Some (dset st _THROTTLE_STATE_KEY
                            (PDict (dset throttle fork_type (claim_entry n now)))))
  end.

(** * Facts *)

Lemma Qlt_bool_spec a b : Qlt_bool a b = true ↔ (a < b)%Q.
Proof.
  unfold Qlt_bool. rewrite negb_true_iff, <-not_true_iff_false, Qle_bool_iff.
  split; [apply Qnot_le_lt|apply Qlt_not_le].
Qed.

(** The claims of a session in order: a fork type and the time of the attempt. *)
Fixpoint claims (raw : option string) (attempts : list (string * Q)) (state : option pydict) :
    list (string * Q) * option pydict :=
  match attempts with
  | [] => ([], state)
  | (t, now) :: rest =>
      let '(ok, state') := try_claim raw now state t in
      let '(granted, state'') := claims raw rest state' in
      ((if ok then [(t, now)] else []) ++ granted, state'')
  end.

(** The times, latest first, at which a type was granted. *)
Definition times (t : string) (granted : list (string * Q)) : list Q :=
  rev (map snd (List.filter (λ g, (g.1 =? t)%string) granted)).

(** What a state holds after some grants. *)
Definition records (state : option pydict) (granted : list (string * Q)) : Prop :=
  ∃ st throttle, state = Some st ∧ default [] (is_dict (get st _THROTTLE_STATE_KEY)) = throttle ∧
    ∀ t, ∃ q, read_entry (default [] (is_dict (get throttle t))) =
                (Z.of_nat (length (times t granted)), q) ∧
              (q == match times t granted with [] => 0 | x :: _ => x end)%Q.

(** The grants of one type respect both limits; times latest first. *)
Fixpoint spaced (cooldown : Q) (ts : list Q) : Prop :=
  match ts with
  | x :: ((y :: _) as rest) =>
      ((0 < cooldown)%Q → (0 < y)%Q → (cooldown <= x - y)%Q) ∧ spaced cooldown rest
  | _ => True
  end.
Definition within (cooldown : Q) (granted : list (string * Q)) : Prop :=
  ∀ t, (Z.of_nat (length (times t granted)) ≤ _FORK_PER_SESSION_CAP)%Z ∧
       spaced cooldown (times t granted).

(** What the documentation asks of an attempt. *)
Definition may_claim (cooldown : Q) (granted : list (string * Q)) (t : string) (now : Q) : Prop :=
  (Z.of_nat (length (times t granted)) < _FORK_PER_SESSION_CAP)%Z ∧
  match times t granted with
  | [] => True
  | x :: _ => (0 < cooldown)%Q → (0 < x)%Q → (cooldown <= now - x)%Q
  end.

Lemma times_snoc t granted u now :
  times t (granted ++ [(u, now)]) =
  if (u =? t)%string then now :: times t granted else times t granted.
Proof.
  unfold times. rewrite List.filter_app, map_app, rev_app_distr. cbn.
  by destruct (u =? t)%string.
Qed.

Lemma read_claim_entry n now ts :
  n = Z.of_nat (length ts) →
  ∃ q, read_entry (default [] (is_dict (claim_entry n now))) =
         (Z.of_nat (length (now :: ts)), q) ∧ (q == now)%Q.
Proof.
  intros ->. set (m := (Z.of_nat (length ts) + 1)%Z).
  set (e := [("count", PInt m); ("last_at", PFloat now)]).
  assert (or_zero e "count" (PInt 0) = PInt m) as Hn.
  { change ((if negb (m =? 0)%Z then PInt m else PInt 0) = PInt m).
    destruct (m =? 0)%Z eqn:E; bool_prop; [lia|done]. }
  assert (or_zero e "last_at" (PFloat 0) = if negb (Qeq_bool now 0) then PFloat now else PFloat 0)
    as Ht by done.
  change (is_dict (claim_entry (Z.of_nat (length ts)) now)) with (Some e).
  change (default [] (Some e)) with e. unfold read_entry. rewrite Hn, Ht.
  assert (Z.of_nat (length (now :: ts)) = m) as -> by (cbn [length]; lia).
  destruct (Qeq_bool now 0) eqn:Eq; cbn [negb py_int py_float num_of].
  - exists 0%Q. split; [done|]. symmetry. by apply Qeq_bool_iff.
  - by exists now.
Qed.

Lemma claim_step raw state granted t now :
  records state granted →
  ∃ ok state', try_claim raw now state t = (ok, state') ∧
    (ok = true ↔ may_claim (_cooldown_seconds raw) granted t now) ∧
    records state' (granted ++ if ok then [(t, now)] else []).
Proof.
  intros (st & throttle & -> & Hth & Hr). unfold try_claim. rewrite Hth.
  destruct (Hr t) as (x & Hx & Hxq). rewrite Hx.
  unfold may_claim. set (ts := times t granted) in *.
  destruct (_ <=? _)%Z eqn:Ec; bool_prop.
  { eexists _, _. split; [done|]. split; [split; [done|intros [? _]; lia]|].
    rewrite app_nil_r. by exists st, throttle. }
  set (cd := _cooldown_seconds raw).
  destruct (Qlt_bool 0 cd && Qlt_bool 0 x && Qlt_bool (now - x) cd) eqn:Eg.
  - eexists _, _. split; [done|]. split; [|rewrite app_nil_r; by exists st, throttle].
    split; [done|]. intros [_ Hm]. apply andb_true_iff in Eg as [Eg Eg3%Qlt_bool_spec].
    apply andb_true_iff in Eg as [Eg1%Qlt_bool_spec Eg2%Qlt_bool_spec].
    destruct ts as [|y ts']; [lra|].
    assert (0 < y)%Q as Hy by lra. specialize (Hm Eg1 Hy). lra.
  - eexists _, _. split; [done|]. split.
    + split; [|done]. intros _. split; [done|]. destruct ts as [|y ts'] eqn:Ets; [done|].
      intros H1 H2. assert (0 < x)%Q as H2' by lra.
      apply Qlt_bool_spec in H1, H2'. rewrite H1, H2' in Eg. cbn in Eg.
      apply Qnot_lt_le. intros Hlt.
      assert (now - x < cd)%Q as Hlt'%Qlt_bool_spec by lra. congruence.
    + eexists _, (dset throttle t (claim_entry (Z.of_nat (length ts)) now)).
      split; [done|]. split; [by unfold get; rewrite dget_dset_eq|].
      intros u. rewrite times_snoc. unfold get. rewrite dget_dset.
      destruct (t =? u)%string eqn:E; bool_prop; [|by rewrite decide_False; [apply Hr|]].
      subst u. rewrite decide_True by done. fold ts. by apply read_claim_entry.
Qed.

Lemma claims_records raw attempts : ∀ state granted,
  records state granted → within (_cooldown_seconds raw) granted →
  within (_cooldown_seconds raw) (granted ++ (claims raw attempts state).1).
Proof.
  induction attempts as [|[t now] attempts IH]; intros state granted Hr Hw; cbn [claims].
  - by rewrite app_nil_r.
  - destruct (claim_step raw state granted t now Hr) as (ok & s' & -> & Hok & Hr').
    specialize (IH s' _ Hr'). destruct (claims raw attempts s') as [g s'']. cbn [fst] in *.
    rewrite app_assoc. apply IH. destruct ok; [|by rewrite app_nil_r].
    destruct (proj1 Hok eq_refl) as [Hn Hx]. intros u. rewrite times_snoc.
    destruct (t =? u)%string eqn:E; bool_prop; [|apply Hw]. subst u.
    destruct (Hw t) as [_ Hs]. cbn [length]. split; [lia|]. cbn [spaced].
    by destruct (times t granted).
Qed.

(** * Theorems *)

(** The two limits hold of every session: whatever forks are attempted and when,
    a type is granted at most fifty times, and two grants of a type in a row are
    at least the cooldown apart; and an attempt is refused only for one of these
    reasons. *)
Theorem throttle_limits raw attempts t now st :
  get st _THROTTLE_STATE_KEY = PNone →
  let '(granted, state') := claims raw attempts (Some st) in
  within (_cooldown_seconds raw) granted ∧
  ((try_claim raw now state' t).1 = true ↔ may_claim (_cooldown_seconds raw) granted t now).
Proof.
  intros Hst. assert (records (Some st) []) as H0.
  { exists st, []. rewrite Hst. split; [done|]. split; [done|]. intros u. by exists 0%Q. }
  assert (within (_cooldown_seconds raw) []) as Hw0.
  { intros u. split; [|done]. unfold times, _FORK_PER_SESSION_CAP. cbn. lia. }
  pose proof (claims_records raw attempts (Some st) [] H0 Hw0) as Hw.
  assert (records (claims raw attempts (Some st)).2 (claims raw attempts (Some st)).1) as Hr.
  { change (claims raw attempts (Some st)).1 with ([] ++ (claims raw attempts (Some st)).1).
    clear Hw Hw0. revert H0. generalize (Some st) (@nil (string * Q)).
    induction attempts as [|[u at_] attempts IH]; intros state granted Hr; cbn [claims].
    - by rewrite app_nil_r.
    - destruct (claim_step raw state granted u at_ Hr) as (ok & s' & -> & _ & Hr').
      specialize (IH s' _ Hr'). destruct (claims raw attempts s') as [g s'']. cbn [fst snd] in *.
      by rewrite app_assoc. }
  destruct (claims raw attempts (Some st)) as [granted state']. cbn [fst snd app] in *.
  split; [done|]. destruct (claim_step raw state' granted t now Hr) as (ok & s' & -> & Hok & _).
  exact Hok.
Qed.

(** ** Concrete inputs *)

Lemma throttle_limits_witness :
  let attempts := [("review", 0%Q); ("review", 10%Q); ("memory", 20%Q)] in
  let '(granted, state') := claims None attempts (Some []) in
  within (_cooldown_seconds None) granted ∧
  ((try_claim None 30%Q state' "review").1 = true ↔
     may_claim (_cooldown_seconds None) granted "review" 30%Q).
Proof.
  intros attempts. apply (throttle_limits None attempts "review" 30%Q []). reflexivity.
Defined.
