(* ===== verification/Replacers.v ===== *)
(** * The replacer ladder of the [edit] tool: [tools/_replacers.py]

    The five replacers, which yield candidate search texts from tightest to
    loosest, and [find_replacement], which accepts one only when it is
    unambiguous. *)

From S2P Require Import Prelude PyStr Regex PyVal.

Definition lines_of (s : string) : list string := split_on NL s.
Definition unlines (l : list string) : string := join NLs l.

Definition simple_replacer (content find : string) : list string := [find].

(** [sum(len(lines[k]) + 1 for k in range(i))] *)
Definition line_offset (lines : list string) (i : nat) : nat :=
  sum_nat (map (λ l, S (slen l)) (take i lines)).
(** The loop that adds up the [n] lines from [i] on, and the newlines between. *)
Definition span_end (lines : list string) (i n : nat) : nat :=
  line_offset lines i + sum_nat (map slen (take n (drop i lines))) + (n - 1).
Definition line_span (content : string) (lines : list string) (i n : nat) : string :=
  slice (line_offset lines i) (span_end lines i n) content.

(** [range(len(lines) - n + 1)] *)
Definition starts (lines : list string) (n : nat) : list nat :=
  seq 0 (S (length lines) - n).

(** [if search_lines and search_lines[-1] == "": search_lines.pop()] *)
Definition drop_final_empty (lines : list string) : list string :=
  match rev lines with
  | "" :: rest => rev rest
  | _ => lines
  end.

Definition same_stripped (xs ys : list string) : bool :=
  bool_decide (map strip xs = map strip ys).

Definition line_trimmed_replacer (content find : string) : list string :=
  let original_lines := lines_of content in
  let search_lines := drop_final_empty (lines_of find) in
  match search_lines with
  | [] => []
  | _ =>
      let n := length search_lines in
      omap (λ i, if same_stripped (take n (drop i original_lines)) search_lines
                 then Some (line_span content original_lines i n) else None)
        (starts original_lines n)
  end.

Definition _SPACES : regex := re_of "\s+".
Definition norm (text : string) : string := strip (re_sub noflags _SPACES " " text).

(** [re.escape(w)] as a pattern: the word itself. *)
Definition literal (w : string) : regex :=
  foldr (λ c r, RSeq (RChar c) r) REmpty (list_ascii_of_string w).
(** The words of the text, with any blanks in between. *)
Fixpoint words_pattern (ws : list string) : regex :=
  match ws with
  | [] => REmpty
  | [w] => literal w
  | w :: ws' => RSeq (literal w) (RSeq _SPACES (words_pattern ws'))
  end.

Definition whitespace_normalized_replacer (content find : string) : list string :=
  let normalized_find := norm find in
  let lines := lines_of content in
  let of_line line :=
    if (norm line =? normalized_find)%string then [line]
    else if negb (normalized_find =? "")%string && contains normalized_find (norm line) then
      match split_ws (strip find) with
      | [] => []
      | ws => match re_search noflags (words_pattern ws) line with
              | Some (_, at_, st) => [span_text at_ st]
              | None => []
              end
      end
    else [] in
  let n := length (lines_of find) in
  flat_map of_line lines
  ++ (if 1 <? n
      then omap (λ i, let block := unlines (take n (drop i lines)) in
                      if (norm block =? normalized_find)%string then Some block else None)
             (starts lines n)
      else []).

Definition blank (line : string) : bool := (strip line =? "")%string.
Definition indent_of (line : string) : nat := slen line - slen (lstrip is_space line).
Definition min_list (l : list nat) (d : nat) : nat := foldr Nat.min d l.

Definition remove_indent (text : string) : string :=
  let lines := lines_of text in
  match List.filter (λ ln, negb (blank ln)) lines with
  | [] => text
  | ln :: rest =>
      let min_indent := min_list (map indent_of rest) (indent_of ln) in
      unlines (map (λ ln, if blank ln then ln else sdrop min_indent ln) lines)
  end.

Definition indentation_flexible_replacer (content find : string) : list string :=
  let normalized_find := remove_indent find in
  let content_lines := lines_of content in
  let n := length (lines_of find) in
  if length content_lines <? n then []
  else omap (λ i, let block := unlines (take n (drop i content_lines)) in
                  if (remove_indent block =? normalized_find)%string then Some block else None)
         (starts content_lines n).

(** The first line at or after [j] that is [last] when stripped. *)
Fixpoint next_line (last : string) (j : nat) (lines : list string) : option nat :=
  match lines with
  | [] => None
  | l :: rest => if (strip l =? last)%string then Some j else next_line last (S j) rest
  end.

Definition block_anchor_replacer (content find : string) : list string :=
  let original_lines := lines_of content in
  let search_lines := lines_of find in
  if length search_lines <? 3 then []
  else
    let search_lines := drop_final_empty search_lines in
    if length search_lines <? 3 then []
    else
      let first := strip (default "" (head search_lines)) in
      let last_ := strip (default "" (last search_lines)) in
      omap (λ i,
        match original_lines !! i with
        | Some l =>
            if (strip l =? first)%string then
              match next_line last_ (i + 2) (drop (i + 2) original_lines) with
              | Some j => Some (line_span content original_lines i (S j - i))
              | None => None
              end
            else None
        | None => None
        end) (seq 0 (length original_lines)).

Definition REPLACERS : list (string * (string → string → list string)) :=
  [("simple_replacer", simple_replacer);
   ("line_trimmed_replacer", line_trimmed_replacer);
   ("whitespace_normalized_replacer", whitespace_normalized_replacer);
   ("indentation_flexible_replacer", indentation_flexible_replacer);
   ("block_anchor_replacer", block_anchor_replacer)].
Definition _STRATEGY_NAMES : string := join ", " (map fst REPLACERS).

Record Replacement := Repl { search : option string; count : nat; error : option string }.

(** The candidates that occur in the content, without repetitions. *)
Definition seen_candidates (content : string) (candidates : list string) : list string :=
  dedup (List.filter (λ c, contains c content) candidates).

Definition multiple_blocks (name : string) : string :=
  "oldText matched multiple distinct blocks via " +:+ name +:+
  "; the anchor must be unique. Add surrounding context, or split the change into more specific anchors.".
Definition multiple_times (n : nat) : string :=
  "oldText matched " +:+ str_of_nat n +:+ " times in the file; the " +:+
  "anchor must be unique. Add surrounding context, or split the change into more specific anchors.".
Definition not_found : string :=
  "oldText not found. Tried, in order: " +:+ _STRATEGY_NAMES +:+
  ". It must match the file's text " +:+ em_dash +:+ " check " +:+
  "whitespace, indentation, and that the lines still exist.".

Fixpoint walk (replacers : list (string * (string → string → list string)))
    (content old_string : string) : Replacement :=
  match replacers with
  | [] => Repl None 0 (Some not_found)
  | (name, replacer) :: rest =>
      match seen_candidates content (replacer content old_string) with
      | [] => walk rest content old_string
      | [search] =>
          let occurrences := str_count search content in
          if 1 <? occurrences then Repl None 0 (Some (multiple_times occurrences))
          else Repl (Some search) 1 None
      | _ => Repl None 0 (Some (multiple_blocks name))
      end
  end.

Definition find_replacement (content old_string : string) : Replacement :=
  walk REPLACERS content old_string.

(** * Facts *)

Lemma unlines_lines s : unlines (lines_of s) = s.
Proof. apply join_split_on. Qed.

Lemma sum_slens_join l :
  l ≠ [] → slen (unlines l) = sum_nat (map slen l) + (length l - 1).
Proof.
  induction l as [|x l IH]; [done|]. intros _. destruct l as [|y l].
  - cbn. lia.
  - unfold unlines in *. rewrite join_cons by done. rewrite !slen_app, IH by done. cbn. lia.
Qed.

(** The text before a block of lines is as long as the offset says. *)
Lemma unlines_app pre blk :
  blk ≠ [] → ∃ l, unlines (pre ++ blk) = l +:+ unlines blk ∧
    slen l = sum_nat (map (λ l, S (slen l)) pre).
Proof.
  intros Hb. destruct pre as [|p pre]; [by exists ""|].
  exists (unlines (p :: pre) +:+ NLs). split.
  - unfold unlines. rewrite join_app by done. by rewrite sapp_assoc.
  - rewrite slen_app, sum_slens_join by done. cbn. clear Hb. induction pre as [|q pre IH]; cbn; lia.
Qed.

Lemma unlines_app_r blk post : blk ≠ [] → ∃ r, unlines (blk ++ post) = unlines blk +:+ r.
Proof.
  intros Hb. destruct post as [|q post]; [exists ""; by rewrite app_nil_r, sapp_nil_r|].
  exists (NLs +:+ unlines (q :: post)). unfold unlines. by rewrite join_app.
Qed.

(** The slice between the computed offsets is the block of lines. *)
Lemma line_span_block content pre blk post :
  lines_of content = pre ++ blk ++ post → blk ≠ [] →
  line_span content (lines_of content) (length pre) (length blk) = unlines blk.
Proof.
  intros Hl Hb. unfold line_span, span_end, line_offset. rewrite Hl.
  rewrite drop_app_length, !take_app_length.
  rewrite <-(unlines_lines content), Hl.
  destruct (unlines_app pre (blk ++ post)) as (l & -> & Hlen); [by destruct blk|].
  destruct (unlines_app_r blk post Hb) as (r & ->).
  rewrite <-Hlen. replace (slen l + sum_nat (map slen blk) + (length blk - 1))
    with (slen l + slen (unlines blk)) by (rewrite sum_slens_join by done; lia).
  apply slice_app.
Qed.

Lemma block_at (lines : list string) i n :
  i + n ≤ length lines →
  lines = take i lines ++ take n (drop i lines) ++ drop (i + n) lines ∧
  length (take i lines) = i ∧ length (take n (drop i lines)) = n.
Proof.
  intros Hi. split; [|split].
  - rewrite <-drop_drop, take_drop, take_drop. done.
  - rewrite length_take. lia.
  - rewrite length_take, length_drop. lia.
Qed.

Lemma line_span_take content i n :
  0 < n → i + n ≤ length (lines_of content) →
  line_span content (lines_of content) i n = unlines (take n (drop i (lines_of content))).
Proof.
  intros Hn Hi. destruct (block_at _ _ _ Hi) as (Hb & Hpre & Hblk).
  pose proof (line_span_block content _ _ _ Hb) as Hs. rewrite Hpre, Hblk in Hs. apply Hs.
  intros He. rewrite He in Hblk. cbn in Hblk. lia.
Qed.

Lemma block_substring content i n :
  i + n ≤ length (lines_of content) → 0 < n →
  substring_of (unlines (take n (drop i (lines_of content)))) content.
Proof.
  intros Hi Hn. destruct (block_at _ _ _ Hi) as (Hb & Hpre & Hblk).
  set (blk := take n (drop i (lines_of content))) in *.
  assert (blk ≠ []) as Hne by (intros He; rewrite He in Hblk; cbn in Hblk; lia).
  rewrite <-(unlines_lines content), Hb.
  destruct (unlines_app (take i (lines_of content)) (blk ++ drop (i + n) (lines_of content)))
    as (l & -> & _); [by destruct blk|].
  destruct (unlines_app_r blk (drop (i + n) (lines_of content)) Hne) as (r & ->).
  by exists l, r.
Qed.

Lemma elem_starts lines n i : 0 < n → i ∈ starts lines n ↔ i + n ≤ length lines.
Proof. intros Hn. unfold starts. rewrite elem_of_seq. lia. Qed.

Lemma drop_final_empty_cases l : drop_final_empty l = l ∨ l = drop_final_empty l ++ [""].
Proof.
  unfold drop_final_empty. destruct (rev l) as [|x r] eqn:E; [by left|].
  destruct x; [|by left]. right. rewrite <-(rev_involutive l), E. done.
Qed.

Lemma length_lines_pos s : 0 < length (lines_of s).
Proof.
  unfold lines_of. pose proof (split_on_nonempty NL s). destruct (split_on NL s); cbn; [done|lia].
Qed.

Lemma search_from_split fl r s : ∀ prev pre at_ st,
  search_from fl r prev s = Some (pre, at_, st) → s = pre +:+ at_.
Proof.
  induction s as [|c s IH]; intros prev pre at_ st; cbn [search_from].
  - destruct (rmatch _ _ _); [done|]. by intros [= <- <- <-].
  - destruct (rmatch _ _ _); [|by intros [= <- <- <-]].
    destruct (search_from fl r (Some c) s) as [[[pre' at'] st']|] eqn:E; [|done].
    intros [= <- <- <-]. cbn. by rewrite (IH _ _ _ _ E).
Qed.

Lemma re_search_substring fl r s pre at_ st :
  re_search fl r s = Some (pre, at_, st) → substring_of (span_text at_ st) s.
Proof.
  intros H%search_from_split. exists pre, (sdrop (slen at_ - slen (m_rest st)) at_).
  unfold span_text. by rewrite stake_drop.
Qed.

Lemma line_substring content l : l ∈ lines_of content → substring_of l content.
Proof.
  intros (i & Hi)%list_elem_of_lookup. pose proof (lookup_lt_Some _ _ _ Hi) as Hlt.
  pose proof (block_substring content i 1 ltac:(lia) ltac:(lia)) as Hs.
  erewrite drop_S in Hs by done. cbn in Hs. exact Hs.
Qed.

Lemma next_line_spec last_ lines : ∀ j k,
  next_line last_ j lines = Some k → j ≤ k < j + length lines.
Proof.
  induction lines as [|l lines IH]; intros j k; cbn; [done|].
  destruct (strip l =? last_)%string; [intros [= <-]; lia|]. intros H%IH. lia.
Qed.

(** ** Every candidate is a piece of the content *)

Definition verbatim (content : string) (l : list string) : Prop :=
  Forall (λ c, substring_of c content) l.

Lemma verbatim_omap {A} content (h : A → option string) l :
  (∀ x c, x ∈ l → h x = Some c → substring_of c content) → verbatim content (omap h l).
Proof.
  intros Hh. apply Forall_forall. intros c (x & Hx & Hc)%list_elem_of_omap. by eapply Hh.
Qed.

Lemma line_trimmed_verbatim content find : verbatim content (line_trimmed_replacer content find).
Proof.
  unfold line_trimmed_replacer. destruct (drop_final_empty (lines_of find)) as [|x xs] eqn:E;
    [constructor|]. apply verbatim_omap. intros i c Hi.
  destruct (same_stripped _ _); [|done]. intros [= <-].
  assert (0 < length (x :: xs)) as Hn by (cbn; lia).
  apply elem_starts in Hi; [|done]. rewrite line_span_take by done.
  by apply block_substring.
Qed.

Lemma blocks_verbatim content n (test : string → bool) :
  0 < n → verbatim content
    (omap (λ i, let block := unlines (take n (drop i (lines_of content))) in
                if test block then Some block else None) (starts (lines_of content) n)).
Proof.
  intros Hn. apply verbatim_omap. intros i c Hi. cbv zeta.
  destruct (test _); [|done]. intros [= <-]. apply elem_starts in Hi; [|done].
  by apply block_substring.
Qed.

Lemma whitespace_verbatim content find :
  verbatim content (whitespace_normalized_replacer content find).
Proof.
  unfold whitespace_normalized_replacer. apply Forall_app. split.
  - apply Forall_forall. intros c Hc.
    rewrite list_elem_of_In, in_flat_map in Hc. destruct Hc as (line & Hin & Hc).
    rewrite <-list_elem_of_In in Hin, Hc. apply line_substring in Hin.
    destruct (norm line =? norm find)%string.
    { apply list_elem_of_singleton in Hc as ->. done. }
    destruct (_ && _); [|by apply elem_of_nil in Hc].
    destruct (split_ws (strip find)); [by apply elem_of_nil in Hc|].
    destruct (re_search _ _ line) as [[[pre at_] st]|] eqn:Er; [|by apply elem_of_nil in Hc].
    apply list_elem_of_singleton in Hc as ->.
    eapply substring_trans; [by eapply re_search_substring|done].
  - destruct (1 <? length (lines_of find)) eqn:E; [|constructor]. bool_prop.
    apply (blocks_verbatim content _ (λ b, norm b =? norm find)%string). lia.
Qed.

Lemma indentation_verbatim content find :
  verbatim content (indentation_flexible_replacer content find).
Proof.
  unfold indentation_flexible_replacer. destruct (_ <? _); [constructor|].
  apply (blocks_verbatim content _ (λ b, remove_indent b =? remove_indent find)%string).
  apply length_lines_pos.
Qed.

Lemma block_anchor_verbatim content find : verbatim content (block_anchor_replacer content find).
Proof.
  unfold block_anchor_replacer. destruct (_ <? 3); [constructor|].
  destruct (_ <? 3); [constructor|]. apply verbatim_omap. intros i c Hi.
  destruct (lines_of content !! i) as [l|] eqn:El; [|done]. destruct (_ =? _)%string; [|done].
  destruct (next_line _ _ _) as [j|] eqn:Ej; [|done]. intros [= <-].
  apply next_line_spec in Ej. rewrite length_drop in Ej.
  rewrite line_span_take by lia. apply block_substring; lia.
Qed.

Lemma seen_nil content l : seen_candidates content l = [] ↔ ∀ c, c ∈ l → ¬ substring_of c content.
Proof.
  unfold seen_candidates. rewrite dedup_nil. split.
  - intros Hf c Hc Hs. assert (c ∈ List.filter (λ c, contains c content) l) as Hin.
    { rewrite list_elem_of_In, List.filter_In, <-list_elem_of_In. by rewrite contains_spec. }
    rewrite Hf in Hin. by apply elem_of_nil in Hin.
  - intros Hl. destruct (List.filter _ l) as [|c cs] eqn:E; [done|].
    assert (c ∈ List.filter (λ c, contains c content) l) as Hin by (rewrite E; left).
    rewrite list_elem_of_In, List.filter_In, <-list_elem_of_In, contains_spec in Hin.
    destruct Hin as [Hin Hs]. by destruct (Hl c Hin).
Qed.

Lemma elem_seen content l c : c ∈ seen_candidates content l ↔ c ∈ l ∧ substring_of c content.
Proof.
  unfold seen_candidates. rewrite elem_of_dedup, list_elem_of_In, List.filter_In,
    <-list_elem_of_In. by rewrite contains_spec.
Qed.

Lemma walk_success rs content old r s :
  walk rs content old = r → search r = Some s →
  r = Repl (Some s) 1 None ∧ substring_of s content ∧ str_count s content ≤ 1 ∧
  ∃ pre name rep post, rs = pre ++ (name, rep) :: post ∧
    (∀ n p c, (n, p) ∈ pre → c ∈ p content old → ¬ substring_of c content) ∧
    s ∈ rep content old ∧ ∀ c, c ∈ rep content old → substring_of c content → c = s.
Proof.
  intros <-. induction rs as [|[name rep] rs IH]; cbn [walk]; [done|].
  destruct (seen_candidates content (rep content old)) as [|c [|c' cs]] eqn:E; [| |done].
  - intros Hs. destruct (IH Hs) as (? & ? & ? & pre & n & p & post & -> & Hpre & Hin & Hu).
    do 3 (split; [done|]). exists ((name, rep) :: pre), n, p, post. split; [done|].
    split; [|done]. intros n' p' c' [[= -> ->]|Hin']%elem_of_cons; [|by eapply Hpre].
    by apply seen_nil.
  - destruct (1 <? str_count c content) eqn:Ec; [done|]. bool_prop. cbn. intros [= <-].
    assert (c ∈ seen_candidates content (rep content old)) as Hc by (rewrite E; left).
    apply elem_seen in Hc as [Hc Hsub]. do 3 (split; [done|]).
    exists [], name, rep, rs. split; [done|].
    split; [by intros n p d Hx; apply elem_of_nil in Hx|]. split; [done|].
    intros d Hd Hsd. assert (d ∈ seen_candidates content (rep content old)) as Hds
      by by apply elem_seen. rewrite E in Hds. by apply list_elem_of_singleton in Hds.
Qed.

(** * Theorems *)

(** Only the first replacer may invent text: each fuzzy one yields pieces of the
    content, cut at the offsets it computes, so what the edit replaces is there. *)
Theorem candidates_verbatim name replacer content find :
  (name, replacer) ∈ tail REPLACERS →
  Forall (λ c, substring_of c content) (replacer content find).
Proof.
  unfold REPLACERS. cbn [tail]. rewrite !elem_of_cons, elem_of_nil.
  intros [[= -> ->]|[[= -> ->]|[[= -> ->]|[[= -> ->]|[]]]]].
  - apply line_trimmed_verbatim.
  - apply whitespace_verbatim.
  - apply indentation_verbatim.
  - apply block_anchor_verbatim.
Qed.

(** The line-trimmed replacer finds exactly the blocks of consecutive lines that
    equal the lines sought, up to blanks at both ends of each line. *)
Theorem line_trimmed_spec content find c :
  let sought := drop_final_empty (lines_of find) in
  c ∈ line_trimmed_replacer content find ↔
  sought ≠ [] ∧ ∃ pre block post, lines_of content = pre ++ block ++ post ∧
    map strip block = map strip sought ∧ c = unlines block.
Proof.
  intros sought. unfold line_trimmed_replacer. fold sought.
  destruct sought as [|x xs] eqn:E.
  { split; [intros H; by apply elem_of_nil in H|by intros [? _]]. }
  set (n := length (x :: xs)). assert (0 < n) as Hn by (cbn; lia).
  rewrite list_elem_of_omap. split.
  - intros (i & Hi & Hc). apply elem_starts in Hi; [|done]. split; [done|].
    destruct (same_stripped _ _) eqn:Es; [|done]. injection Hc as <-.
    apply bool_decide_eq_true in Es. destruct (block_at _ _ _ Hi) as (Hb & _).
    exists (take i (lines_of content)), (take n (drop i (lines_of content))),
      (drop (i + n) (lines_of content)). split; [done|]. split; [done|].
    by apply line_span_take.
  - intros (_ & pre & block & post & Hl & Hs & ->). exists (length pre).
    assert (length block = n) as Hbn.
    { apply (f_equal length) in Hs. by rewrite !length_map in Hs. }
    split.
    + apply elem_starts; [done|]. rewrite Hl, !length_app. lia.
    + rewrite Hl at 1. rewrite drop_app_length, <-Hbn, take_app_length.
      unfold same_stripped. rewrite Hs, bool_decide_eq_true_2 by done. f_equal.
      apply (line_span_block content pre block post Hl).
      intros ->. cbn in Hbn. lia.
Qed.

(** A resolved edit is unambiguous: its search text occurs in the file and is
    counted once; it is the only text of the file the deciding replacer
    proposes, and every tighter replacer proposes none. In particular text that
    occurs in the file verbatim is never matched fuzzily: it is resolved to
    itself, or refused when it occurs more than once. *)
Theorem find_replacement_spec content old :
  (∀ s, search (find_replacement content old) = Some s →
     find_replacement content old = Repl (Some s) 1 None ∧
     substring_of s content ∧ str_count s content ≤ 1 ∧
     ∃ pre name rep post, REPLACERS = pre ++ (name, rep) :: post ∧
       (∀ n p c, (n, p) ∈ pre → c ∈ p content old → ¬ substring_of c content) ∧
       s ∈ rep content old ∧ ∀ c, c ∈ rep content old → substring_of c content → c = s) ∧
  (substring_of old content →
     find_replacement content old =
       if 1 <? str_count old content
       then Repl None 0 (Some (multiple_times (str_count old content)))
       else Repl (Some old) 1 None) ∧
  (error (find_replacement content old) = Some not_found →
     ∀ name rep c, (name, rep) ∈ REPLACERS → c ∈ rep content old → ¬ substring_of c content).
Proof.
  split; [|split].
  - intros s Hs. by apply (walk_success REPLACERS content old).
  - intros Hs. unfold find_replacement, REPLACERS. cbn [walk].
    assert (seen_candidates content (simple_replacer content old) = [old]) as ->; [|done].
    unfold seen_candidates, simple_replacer. cbn [List.filter].
    by rewrite (proj2 (contains_spec old content) Hs).
  - unfold find_replacement.
    enough (∀ rs, error (walk rs content old) = Some not_found →
      ∀ name rep c, (name, rep) ∈ rs → c ∈ rep content old → ¬ substring_of c content) as H
      by exact (H REPLACERS).
    induction rs as [|[n p] rs IH]; cbn [walk]; [intros _ ? ? ? Hx; by apply elem_of_nil in Hx|].
    destruct (seen_candidates content (p content old)) as [|c [|c' cs]] eqn:E.
    + intros Hw name rep c [[= -> ->]|Hin]%elem_of_cons; [|by eapply IH].
      by apply seen_nil.
    + destruct (1 <? _); cbn [error]; [|done].
      by intros [=].
    + cbn [error]. by intros [=].
Qed.
