(* ===== verification/OutputOverflow.v ===== *)
(** * Oversized tool output: [tools/_output_overflow.py] and [tools/_paths.py]

    The preview of a long output (whole lines from both ends, or a cut on a
    character boundary), and the spill of the full text to a file. Texts are
    lists of code points here, because the caps are on UTF-8 bytes. *)

From S2P Require Import Prelude PyStr Overlay.

(** ** UTF-8 *)

Module Utf8.
(** A code point that can be encoded: not a surrogate. *)
Definition scalar (c : Z) : bool :=
  ((0 <=? c) && (c <? 55296) || (57344 <=? c) && (c <? 1114112))%Z.

Definition utf8 (c : Z) : list Z :=
  (if c <? 128 then [c]
   else if c <? 2048 then [192 + c / 64; 128 + c mod 64]
   else if c <? 65536 then [224 + c / 4096; 128 + (c / 64) mod 64; 128 + c mod 64]
   else [240 + c / 262144; 128 + (c / 4096) mod 64; 128 + (c / 64) mod 64; 128 + c mod 64])%Z.

Definition encode (t : list Z) : list Z := flat_map utf8 t.

(** [(b & 0xC0) == 0x80] *)
Definition is_cont (b : Z) : bool := (Z.land b 192 =? 128)%Z.

(** What may follow a lead byte: the range of the second byte, and how many more
    continuation bytes there are; and the bits of the lead. *)
Definition lead (b : Z) : option (Z * Z * nat * Z) :=
  (if (194 <=? b) && (b <=? 223) then Some (128, 191, 0%nat, b - 192)
   else if b =? 224 then Some (160, 191, 1%nat, 0)
   else if b =? 237 then Some (128, 159, 1%nat, 13)
   else if (225 <=? b) && (b <=? 239) then Some (128, 191, 1%nat, b - 224)
   else if b =? 240 then Some (144, 191, 2%nat, 0)
   else if (241 <=? b) && (b <=? 243) then Some (128, 191, 2%nat, b - 240)
   else if b =? 244 then Some (128, 143, 2%nat, 4)
   else None)%Z.

(** Up to [n] continuation bytes: the value, whether all were there, the rest. *)
Fixpoint conts (n : nat) (acc : Z) (bs : list Z) : Z * bool * list Z :=
  match n, bs with
  | 0, _ => (acc, true, bs)
  | S n', b :: bs' =>
      if ((128 <=? b) && (b <=? 191))%Z then conts n' (acc * 64 + (b - 128))%Z bs'
      else (acc, false, bs)
  | S _, [] => (acc, false, [])
  end.

(** [bytes.decode("utf-8", errors=...)]: each maximal ill-formed piece becomes [bad]. *)
Fixpoint decode_with (bad : list Z) (fuel : nat) (bs : list Z) : list Z :=
  match fuel, bs with
  | S f, b :: bs' =>
      if (b <? 128)%Z then b :: decode_with bad f bs'
      else match lead b, bs' with
           | Some (lo, hi, n, v), c :: bs'' =>
               if ((lo <=? c) && (c <=? hi))%Z then
                 match conts n (v * 64 + (c - 128))%Z bs'' with
                 | (x, true, rest) => x :: decode_with bad f rest
                 | (_, false, rest) => bad ++ decode_with bad f rest
                 end
               else bad ++ decode_with bad f bs'
           | _, _ => bad ++ decode_with bad f bs'
           end
  | _, _ => []
  end.
(** [errors="replace"] puts U+FFFD, [errors="ignore"] nothing. *)
Definition decode (bs : list Z) : list Z := decode_with [65533%Z] (length bs) bs.
Definition decode_ignore (bs : list Z) : list Z := decode_with [] (length bs) bs.
End Utf8.
Import Utf8.

(** ** Texts *)

Definition newline : Z := 10.
Definition cps (s : string) : list Z := map (λ c, Z.of_N (code c)) (list_ascii_of_string s).

(** [text.split("\n")] and ["\n".join(lines)] *)
Fixpoint split_nl (t : list Z) : list (list Z) :=
  match t with
  | [] => [[]]
  | c :: t' => if (c =? newline)%Z then [] :: split_nl t'
               else match split_nl t' with h :: r => (c :: h) :: r | [] => [[c]] end
  end.
Fixpoint join_nl (l : list (list Z)) : list Z :=
  match l with
  | [] => []
  | [x] => x
  | x :: l' => x ++ newline :: join_nl l'
  end.

Definition TERMINAL_OUTPUT_LIMIT : nat := 50 * 1024.
Definition TERMINAL_OUTPUT_MAX_LINES : nat := 800.
Definition OVERFLOW_SUBDIR : string := "lha/tool-output".

(** [_MARKER], and what [format] makes of it. *)
Definition _MARKER : string :=
  NLs +:+ "... [{bytes} bytes / {lines} lines omitted] ..." +:+ NLs.
Definition fill_marker (bytes lines : nat) : string :=
  NLs +:+ "... [" +:+ str_of_nat bytes +:+ " bytes / " +:+ str_of_nat lines
  +:+ " lines omitted] ..." +:+ NLs.

(** [start] walks forward, [end] backward, off the continuation bytes. *)
Fixpoint drop_cont (bs : list Z) : list Z :=
  match bs with
  | b :: bs' => if is_cont b then drop_cont bs' else bs
  | [] => []
  end.
Definition _utf8_safe_tail (raw : list Z) (max_bytes : nat) : list Z :=
  decode (drop_cont (drop (length raw - max_bytes) raw)).

Fixpoint walk_back (raw : list Z) (e : nat) : nat :=
  match e with
  | 0 => 0
  | S e' => match raw !! e with
            | Some b => if is_cont b then walk_back raw e' else e
            | None => e
            end
  end.
Definition _utf8_safe_head (raw : list Z) (max_bytes : nat) : list Z :=
  decode (take (walk_back raw (Nat.min (length raw) max_bytes)) raw).

(** The loop over the lines from one end: [i] lines are kept so far. *)
Fixpoint keep_lines (budget cap i bytes : nat) (lines : list (list Z)) : list (list Z) :=
  match lines with
  | [] => []
  | line :: rest =>
      let size := length (encode line) + (if 0 <? i then 1 else 0) in
      if (budget <? bytes + size) || (cap <=? i) then []
      else line :: keep_lines budget cap (S i) (bytes + size) rest
  end.

Definition make_preview (text : list Z) (max_bytes max_lines : nat) : res (list Z * bool) :=
  if negb (forallb scalar text) then Raise (ValueError "UnicodeEncodeError: surrogates not allowed")
  else
    let raw := encode text in
    let lines := split_nl text in
    if (length raw <=? max_bytes) && (length lines <=? max_lines) then Ok (text, false)
    else
      let reserve := slen _MARKER + 32 in
      if max_bytes <=? reserve then Ok (_utf8_safe_head raw max_bytes, true)
      else
        let budget := max_bytes - reserve in
        let head_budget := budget / 2 in
        let tail_budget := budget - head_budget in
        let head := keep_lines head_budget (max_lines / 2) 0 0 lines in
        let tail := rev (keep_lines tail_budget (max_lines / 2) 0 0 (rev lines)) in
        let '(head_text, tail_text) :=
          match join_nl head, join_nl tail with
          | [], [] => (_utf8_safe_head raw head_budget, _utf8_safe_tail raw tail_budget)
          | h, t => (h, t)
          end in
        let kept_bytes := length (encode head_text) + length (encode tail_text) in
        let kept_lines := length head + length tail in
        let marker := fill_marker (length raw - kept_bytes) (length lines - kept_lines) in
        Ok (head_text ++ cps marker ++ tail_text, true).

(** ** Spilling *)

(** [Path.resolve]: what the file system makes of a path. *)
Class Resolve := resolve : string → string.

Section Spilling.
Context `{Resolve}.

(** [resolved.relative_to(root)] succeeds. *)
Definition is_under (root path : string) : bool :=
  (path =? root)%string || startswith (if endswith "/" root then root else root +:+ "/") path.

Definition path_under_root (path root : string) : res string :=
  let root := resolve root in
  let candidate := if startswith "/" path then path else path_join root path in
  let resolved := resolve candidate in
  if is_under root resolved then Ok resolved
  else Raise (ValueError ("Path outside working_dir: " +:+ path +:+ " (env root: " +:+ root +:+ ")")).

Definition _overflow_dir (working_dir : string) : res string :=
  match path_under_root OVERFLOW_SUBDIR (resolve working_dir) with
  | Ok d => Ok d
  | Raise (ValueError m) =>
      Raise (RuntimeError ("overflow dir escapes workspace root: " +:+ m))
  | Raise x => Raise x
  end.

Record OverflowResult := Overflow {
  o_preview : list Z; o_pointer : list Z; o_path : string; o_truncated : bool
}.

(** The environment's files, as far as this module writes them. *)
Definition files : Type := list (string * list Z).

Definition nl_count (t : list Z) : nat := length (List.filter (Z.eqb newline) t).

Definition pointer_text (label path : string) (text : list Z) : string :=
  label +:+ " saved to " +:+ path +:+ " (" +:+ str_of_nat (S (nl_count text)) +:+ " lines / "
  +:+ str_of_nat (length (encode text)) +:+ " bytes). "
  +:+ "Use read with offset/limit to read it, grep it via bash, "
  +:+ "or delegate a subagent to process it (don't read the whole thing "
  +:+ "yourself).".

(** [id_factory] is the name it returns; [writes] what the environment's
    [write_file] leaves. *)
Definition overflow_to_file (text : list Z) (stream id label working_dir : string)
    (max_bytes max_lines : nat) (fs0 : files) : res (OverflowResult * files) :=
  let! pv := make_preview text max_bytes max_lines in
  let! dir := _overflow_dir working_dir in
  let path := path_join dir (stream +:+ "-" +:+ id +:+ ".txt") in
  Ok (Overflow pv.1 (cps (pointer_text label path text)) path pv.2, (path, text) :: fs0).

Definition emit_stream (text : list Z) (stream id working_dir : string) (fs0 : files) :
    res (list Z * bool * option string * files) :=
  let! pv := make_preview text TERMINAL_OUTPUT_LIMIT TERMINAL_OUTPUT_MAX_LINES in
  if negb pv.2 then Ok (text, false, None, fs0)
  else
    let! r := overflow_to_file text stream id "Full output" working_dir
                TERMINAL_OUTPUT_LIMIT TERMINAL_OUTPUT_MAX_LINES fs0 in
    Ok (o_preview r.1 ++ [newline; newline] ++ o_pointer r.1, true, Some (o_path r.1), r.2).
End Spilling.

(** * Facts *)

(** ** Encoding and decoding *)

Section Encoding.
#[local] Open Scope Z_scope.

Lemma is_cont_spec b : 0 ≤ b < 256 → is_cont b = (128 <=? b) && (b <? 192).
Proof.
  intros Hb.
  assert (forallb (λ n, Bool.eqb (is_cont (Z.of_nat n))
    ((128 <=? Z.of_nat n) && (Z.of_nat n <? 192))) (seq 0 256) = true) as H
    by (vm_compute; reflexivity).
  rewrite forallb_elem in H. specialize (H (Z.to_nat b)).
  rewrite Z2Nat.id in H by lia. apply Bool.eqb_prop, H, elem_of_seq. lia.
Qed.

(** The bytes of one character: a lead that is no continuation byte, then
    continuation bytes. *)
Definition is_chunk (l : list Z) : Prop :=
  ∃ b r, l = b :: r ∧ is_cont b = false ∧ Forall (λ x, is_cont x = true) r.

Lemma scalar_range c : scalar c = true → 0 ≤ c < 1114112.
Proof. unfold scalar. rewrite orb_true_iff, !andb_true_iff, !Z.leb_le, !Z.ltb_lt. lia. Qed.

Ltac byte_tac :=
  rewrite is_cont_spec by (Z.to_euclidean_division_equations; lia);
  rewrite ?andb_true_iff, ?andb_false_iff, ?Z.leb_le, ?Z.ltb_lt, ?Z.leb_gt, ?Z.ltb_ge;
  Z.to_euclidean_division_equations; lia.

Lemma utf8_chunk c : scalar c = true → is_chunk (utf8 c).
Proof.
  intros Hc%scalar_range. unfold utf8.
  destruct (c <? 128) eqn:E1; bool_prop; [|destruct (c <? 2048) eqn:E2; bool_prop;
    [|destruct (c <? 65536) eqn:E3; bool_prop]]; eexists _, _; (split; [done|]);
    rewrite ?Forall_cons; repeat split; try done; byte_tac.
Qed.

Lemma lead_decode bad b c (lo hi : Z) n v bs f :
  lead b = Some (lo, hi, n, v) → 128 ≤ b → lo ≤ c ≤ hi →
  decode_with bad (S f) (b :: c :: bs) =
  match conts n (v * 64 + (c - 128)) bs with
  | (x, true, rest) => x :: decode_with bad f rest
  | (_, false, rest) => bad ++ decode_with bad f rest
  end.
Proof.
  intros Hl Hb Hc. cbn [decode_with].
  destruct (b <? 128) eqn:E; bool_prop; [lia|]. rewrite Hl.
  rewrite (proj2 (Z.leb_le lo c)), (proj2 (Z.leb_le c hi)) by lia. done.
Qed.

Lemma conts_ok n acc b bs :
  128 ≤ b ≤ 191 → conts (S n) acc (b :: bs) = conts n (acc * 64 + (b - 128)) bs.
Proof.
  intros Hb. cbn [conts]. by rewrite (proj2 (Z.leb_le 128 b)), (proj2 (Z.leb_le b 191)) by lia.
Qed.

(** The lead of each width, with the range of its second byte. *)
Lemma lead2 q : 2 ≤ q < 32 → lead (192 + q) = Some (128, 191, 0%nat, q).
Proof.
  intros Hq. unfold lead.
  rewrite (proj2 (Z.leb_le 194 _)), (proj2 (Z.leb_le _ 223)) by lia. cbn [andb].
  do 2 f_equal. lia.
Qed.

Lemma lead3 q : 0 ≤ q < 16 →
  ∃ lo hi, lead (224 + q) = Some (lo, hi, 1%nat, q) ∧
    lo = (if q =? 0 then 160 else 128) ∧ hi = (if q =? 13 then 159 else 191).
Proof.
  intros Hq.
  assert (forallb (λ n, let q := Z.of_nat n in bool_decide (lead (224 + q) =
    Some (if q =? 0 then 160 else 128, if q =? 13 then 159 else 191, 1%nat, q))) (seq 0 16) = true)
    as H by (vm_compute; reflexivity).
  rewrite forallb_elem in H. specialize (H (Z.to_nat q)). cbv zeta in H.
  rewrite Z2Nat.id, bool_decide_eq_true in H by lia.
  eexists _, _. split; [|done]. apply H, elem_of_seq. lia.
Qed.

Lemma lead4 q : 0 ≤ q < 5 →
  ∃ lo hi, lead (240 + q) = Some (lo, hi, 2%nat, q) ∧
    lo = (if q =? 0 then 144 else 128) ∧ hi = (if q =? 4 then 143 else 191).
Proof.
  intros Hq.
  assert (forallb (λ n, let q := Z.of_nat n in bool_decide (lead (240 + q) =
    Some (if q =? 0 then 144 else 128, if q =? 4 then 143 else 191, 2%nat, q))) (seq 0 5) = true)
    as H by (vm_compute; reflexivity).
  rewrite forallb_elem in H. specialize (H (Z.to_nat q)). cbv zeta in H.
  rewrite Z2Nat.id, bool_decide_eq_true in H by lia.
  eexists _, _. split; [|done]. apply H, elem_of_seq. lia.
Qed.

Lemma decode_char bad c bs f :
  scalar c = true → decode_with bad (S f) (utf8 c ++ bs) = c :: decode_with bad f bs.
Proof.
  intros Hs. pose proof (scalar_range c Hs) as Hc. unfold utf8.
  destruct (c <? 128) eqn:E1; bool_prop.
  { cbn [app decode_with]. by rewrite (proj2 (Z.ltb_lt c 128)) by lia. }
  destruct (c <? 2048) eqn:E2; bool_prop.
  { cbn [app]. rewrite (lead_decode _ _ _ 128 191 0 (c / 64)).
    - cbn [conts]. f_equal. Z.to_euclidean_division_equations. lia.
    - apply lead2. Z.to_euclidean_division_equations. lia.
    - Z.to_euclidean_division_equations. lia.
    - Z.to_euclidean_division_equations. lia. }
  destruct (c <? 65536) eqn:E3; bool_prop.
  { cbn [app]. destruct (lead3 (c / 4096)) as (lo & hi & Hl & Hlo & Hhi).
    { Z.to_euclidean_division_equations. lia. }
    rewrite (lead_decode _ _ _ _ _ _ _ _ _ Hl).
    - rewrite conts_ok by (Z.to_euclidean_division_equations; lia). cbn [conts]. f_equal.
      Z.to_euclidean_division_equations. lia.
    - Z.to_euclidean_division_equations. lia.
    - unfold scalar in Hs. rewrite orb_true_iff, !andb_true_iff, !Z.leb_le, !Z.ltb_lt in Hs.
      subst lo hi. destruct (c / 4096 =? 0) eqn:Ea, (c / 4096 =? 13) eqn:Eb; bool_prop;
        Z.to_euclidean_division_equations; lia. }
  cbn [app]. destruct (lead4 (c / 262144)) as (lo & hi & Hl & Hlo & Hhi).
  { Z.to_euclidean_division_equations. lia. }
  rewrite (lead_decode _ _ _ _ _ _ _ _ _ Hl).
  - rewrite !conts_ok by (Z.to_euclidean_division_equations; lia). cbn [conts]. f_equal.
    Z.to_euclidean_division_equations. lia.
  - Z.to_euclidean_division_equations. lia.
  - subst lo hi. destruct (c / 262144 =? 0) eqn:Ea, (c / 262144 =? 4) eqn:Eb; bool_prop;
      Z.to_euclidean_division_equations; lia.
Qed.
End Encoding.

Definition encodable (t : list Z) : Prop := Forall (λ c, scalar c = true) t.

Lemma encode_app a b : encode (a ++ b) = encode a ++ encode b.
Proof. unfold encode. apply flat_map_app. Qed.

Lemma utf8_pos c : 0 < length (utf8 c).
Proof. unfold utf8. repeat case_match; cbn; lia. Qed.

Lemma encode_len t : length t ≤ length (encode t).
Proof.
  induction t as [|c t IH]; [done|]. change (encode (c :: t)) with (utf8 c ++ encode t).
  rewrite length_app. cbn. pose proof (utf8_pos c). lia.
Qed.

(** Decoding undoes encoding. *)
Lemma decode_with_encode bad t f : encodable t → length t ≤ f → decode_with bad f (encode t) = t.
Proof.
  intros Ht. revert f.
  induction Ht as [|c t Hc Ht IH]; intros f Hf; [by destruct f|]. destruct f as [|f]; [cbn in Hf; lia|].
  change (encode (c :: t)) with (utf8 c ++ encode t). rewrite decode_char by done.
  f_equal. apply IH. cbn in Hf. lia.
Qed.
Lemma decode_encode t : encodable t → decode (encode t) = t.
Proof. intros Ht. apply decode_with_encode, encode_len. done. Qed.

(** ** Cuts on a character boundary *)

(** What is left of a character that was cut is ill-formed. *)
Definition dangling (bs : list Z) : Prop :=
  match bs with
  | [] => True
  | [b] => 128 ≤ b
  | [b; x] => 224 ≤ b ∧ 128 ≤ x < 192
  | [b; x; y] => 240 ≤ b ∧ 128 ≤ x < 192 ∧ 128 ≤ y < 192
  | _ => False
  end%Z.
Lemma dangling_ignored f bs : dangling bs → decode_with [] f bs = [].
Proof.
  assert (∀ b, (128 <= b)%Z → (b <? 128)%Z = false) as Hge by (intros b Hb; apply Z.ltb_ge; lia).
  assert (∀ b, (128 <= b < 192)%Z → lead b = None) as Hcont.
  { intros b Hb. destruct (lead b) as [[[[? ?] ?] ?]|] eqn:El; [|done]. unfold lead in El. repeat case_match; bool_prop; simplify_eq; lia. }
  assert (∀ f b, (128 <= b)%Z → decode_with [] f [b] = []) as H1.
  { intros [|g] b Hb; [done|]. cbn [decode_with]. rewrite Hge by done. destruct (lead b) as [[[[? ?] ?] ?]|]; by destruct g. }
  assert (∀ f b x, (224 <= b)%Z → (128 <= x < 192)%Z → decode_with [] f [b; x] = []) as H2.
  { intros [|g] b x Hb Hx; [done|]. cbn [decode_with]. rewrite Hge by lia.
    destruct (lead b) as [[[[lo hi] n] v]|] eqn:El; [|apply H1; lia]. destruct (_ && _); [|apply H1; lia].
    destruct n as [|n]; [|by destruct g]. unfold lead in El. repeat case_match; bool_prop; simplify_eq; lia. }
  destruct bs as [|b [|x [|y [|]]]]; cbn [dangling]; [by destruct f|apply H1|intros [? ?]; by apply H2| |done].
  intros (Hb & Hx & Hy). destruct f as [|g]; [done|]. cbn [decode_with]. rewrite Hge by lia.
  assert (decode_with [] g [x; y] = []) as Hxy.
  { destruct g as [|g]; [done|]. cbn [decode_with]. rewrite Hge, Hcont by lia. apply H1. lia. }
  destruct (lead b) as [[[[lo hi] n] v]|] eqn:El; [|done]. destruct (_ && _); [|done].
  assert (2 ≤ n) as Hn by (unfold lead in El; repeat case_match; bool_prop; simplify_eq; lia).
  destruct n as [|[|n]]; [lia..|]. cbn [conts]. destruct (_ && _); [by destruct g|apply H1; lia].
Qed.
Lemma utf8_cut c k : scalar c = true → k < length (utf8 c) → dangling (take k (utf8 c)).
Proof.
  intros Hr%scalar_range. unfold utf8.
  repeat case_match; bool_prop; cbn [length]; intros Hk; destruct k as [|[|[|[|]]]]; try lia; cbn [take dangling];
    repeat split; Z.to_euclidean_division_equations; lia.
Qed.

(** The longest text whose bytes fit. *)
Lemma decode_ignore_take t n : encodable t →
  ∃ pre suf, t = pre ++ suf ∧ decode_ignore (take n (encode t)) = pre ∧ length (encode pre) ≤ n ∧
    ∀ c suf', suf = c :: suf' → n < length (encode (pre ++ [c])).
Proof.
  intros Ht. unfold decode_ignore. remember (length (take n (encode t))) as f eqn:Ef. assert (length (take n (encode t)) ≤ f) as Hf by lia.
  clear Ef. revert n f Hf. induction Ht as [|c t Hc Ht IH]; intros n f Hf.
  { exists [], []. split_and!; [done| |cbn; lia|done]. by destruct n, f. }
  change (encode (c :: t)) with (utf8 c ++ encode t) in *. pose proof (utf8_pos c) as Hpos.
  destruct (decide (length (utf8 c) ≤ n)) as [Hle|Hgt].
  - rewrite take_app_ge in * by done. rewrite length_app in Hf. destruct f as [|f]; [lia|].
    destruct (IH (n - length (utf8 c)) f) as (pre & suf & -> & E & Hl & Hmax); [lia|].
    exists (c :: pre), suf. rewrite decode_char, E by done. split_and!; [done..| |].
    + change (encode (c :: pre)) with (utf8 c ++ encode pre). rewrite length_app. lia.
    + intros c' suf' Es. specialize (Hmax _ _ Es). change (encode ((c :: pre) ++ [c'])) with (utf8 c ++ encode (pre ++ [c'])).
      rewrite length_app. lia.
  - exists [], (c :: t). split_and!; [done| |cbn; lia|].
    + rewrite take_app_le by lia. apply dangling_ignored, utf8_cut; [done|lia].
    + intros c' suf' [= <- _]. cbn [app]. change (encode [c]) with (utf8 c ++ []). rewrite app_nil_r. lia.
Qed.

Lemma encode_head t : encodable t → ∀ b, encode t !! 0 = Some b → is_cont b = false.
Proof.
  intros [|c t' Hc Ht'] b Hb; [done|].
  change (encode (c :: t')) with (utf8 c ++ encode t') in Hb.
  destruct (utf8_chunk c Hc) as (b' & r & E & Hb' & _). rewrite E in Hb. cbn in Hb. by simplify_eq.
Qed.

Lemma drop_cont_encode t : encodable t → drop_cont (encode t) = encode t.
Proof.
  intros Ht. pose proof (encode_head t Ht) as Hh. destruct (encode t) as [|b bs]; [done|].
  cbn. by rewrite (Hh b eq_refl).
Qed.

Lemma drop_cont_conts r bs :
  Forall (λ x, is_cont x = true) r → drop_cont (r ++ bs) = drop_cont bs.
Proof. induction 1 as [|b r Hb Hr IH]; cbn; [done|]. by rewrite Hb. Qed.

Lemma drop_boundary t k :
  encodable t → ∃ pre suf, t = pre ++ suf ∧ drop_cont (drop k (encode t)) = encode suf.
Proof.
  intros Ht. revert k. induction Ht as [|c t Hc Ht IH]; intros k.
  { exists [], []. split; [done|]. by destruct k. }
  change (encode (c :: t)) with (utf8 c ++ encode t). destruct k as [|k].
  { exists [], (c :: t). split; [done|]. rewrite drop_0.
    apply (drop_cont_encode (c :: t)). by constructor. }
  destruct (utf8_chunk c Hc) as (b & r & E & Hb & Hr). rewrite E. cbn [app drop].
  destruct (decide (k ≤ length r)) as [Hk|Hk].
  - exists [c], t. split; [done|]. rewrite drop_app_le by done.
    rewrite drop_cont_conts by by apply Forall_drop. by apply drop_cont_encode.
  - rewrite drop_app_ge by lia. destruct (IH (k - length r)) as (pre & suf & -> & Hs).
    exists (c :: pre), suf. done.
Qed.

Lemma walk_back_app l r e :
  (∀ b, r !! 0 = Some b → is_cont b = false) → l ≠ [] →
  walk_back (l ++ r) (length l + e) = length l + walk_back r e.
Proof.
  intros Hr Hl. induction e as [|e IH].
  - rewrite Nat.add_0_r. destruct (length l) as [|n] eqn:En; [by destruct l|].
    cbn [walk_back]. rewrite lookup_app_r by lia. rewrite En, Nat.sub_diag.
    destruct (r !! 0) as [b|] eqn:Eb; [|lia]. rewrite (Hr b eq_refl). lia.
  - rewrite Nat.add_succ_r. cbn [walk_back]. rewrite lookup_app_r by lia.
    replace (S (length l + e) - length l) with (S e) by lia.
    destruct (r !! S e) as [b|]; [|lia]. destruct (is_cont b); [done|lia].
Qed.

Lemma walk_back_chunk b r bs e :
  Forall (λ x, is_cont x = true) r → e ≤ length r → walk_back ((b :: r) ++ bs) e = 0.
Proof.
  intros Hr. induction e as [|e IH]; intros He; [done|]. cbn [walk_back].
  destruct (lookup_lt_is_Some_2 r e) as [x Hx]; [lia|].
  replace (((b :: r) ++ bs) !! S e) with (Some x) by (symmetry; by apply (lookup_app_l_Some r bs e)).
  assert (is_cont x = true) as -> by exact (Forall_lookup_1 _ r e x Hr Hx). apply IH. lia.
Qed.

Lemma take_boundary t e :
  encodable t → e ≤ length (encode t) →
  ∃ pre suf, t = pre ++ suf ∧ take (walk_back (encode t) e) (encode t) = encode pre ∧
    length (encode pre) ≤ e.
Proof.
  intros Ht. revert e. induction Ht as [|c t Hc Ht IH]; intros e He.
  { exists [], []. cbn in He. assert (e = 0) as -> by lia. done. }
  change (encode (c :: t)) with (utf8 c ++ encode t) in *.
  destruct (utf8_chunk c Hc) as (b & r & E & Hb & Hr).
  destruct (decide (e ≤ length r)) as [Hk|Hk].
  - exists [], (c :: t). split; [done|]. rewrite E, walk_back_chunk by done. split; [done|cbn; lia].
  - assert (length (utf8 c) ≤ e) as Hle by (rewrite E; cbn; lia).
    rewrite length_app in He.
    destruct (IH (e - length (utf8 c))) as (pre & suf & Heq & Hp & Hl); [lia|].
    assert (walk_back (utf8 c ++ encode t) e =
      length (utf8 c) + walk_back (encode t) (e - length (utf8 c))) as ->.
    { rewrite <- walk_back_app; [f_equal; lia|by apply encode_head|by rewrite E]. }
    exists (c :: pre), suf. split; [by rewrite Heq|].
    change (encode (c :: pre)) with (utf8 c ++ encode pre). rewrite take_app_add, Hp.
    split; [done|]. rewrite length_app. lia.
Qed.

Lemma safe_head_spec t m :
  encodable t → ∃ suf, t = _utf8_safe_head (encode t) m ++ suf ∧
    length (encode (_utf8_safe_head (encode t) m)) ≤ m.
Proof.
  intros Ht. unfold _utf8_safe_head.
  destruct (take_boundary t (Nat.min (length (encode t)) m) Ht) as (pre & suf & Heq & -> & Hl); [lia|].
  rewrite decode_encode by (by rewrite Heq in Ht; apply Forall_app in Ht as [? _]).
  exists suf. split; [done|lia].
Qed.

Lemma safe_tail_spec t m :
  encodable t → ∃ pre, t = pre ++ _utf8_safe_tail (encode t) m ∧
    length (encode (_utf8_safe_tail (encode t) m)) ≤ m.
Proof.
  intros Ht. unfold _utf8_safe_tail.
  set (k := length (encode t) - m).
  destruct (drop_boundary t k Ht) as (pre & suf & Heq & Hd).
  assert (length (drop_cont (drop k (encode t))) ≤ length (drop k (encode t))) as Hlen.
  { generalize (drop k (encode t)). intros l. induction l as [|b l IH]; cbn; [done|].
    destruct (is_cont b); cbn; lia. }
  rewrite Hd in Hlen |- *. rewrite length_drop in Hlen.
  rewrite decode_encode by (by rewrite Heq in Ht; apply Forall_app in Ht as [_ ?]).
  exists pre. split; [done|]. subst k. lia.
Qed.

(** ** Lines *)

Lemma split_nl_cons t : ∃ h r, split_nl t = h :: r.
Proof.
  induction t as [|c t (h & r & IH)]; cbn; [by eauto|]. rewrite IH.
  destruct (c =? newline)%Z; eauto.
Qed.

Lemma join_split_nl t : join_nl (split_nl t) = t.
Proof.
  induction t as [|c t IH]; [done|]. cbn [split_nl].
  destruct (split_nl_cons t) as (h & r & E). rewrite E in *.
  destruct (c =? newline)%Z eqn:Ec; bool_prop.
  - change (newline :: join_nl (h :: r) = c :: t). congruence.
  - change (join_nl ((c :: h) :: r) = c :: t). rewrite <- IH. by destruct r.
Qed.

(** The lines of two lists joined: at most one line feed between them. *)
Lemma join_nl_app x y : ∃ sep, join_nl (x ++ y) = join_nl x ++ sep ++ join_nl y
  ∧ length (encode sep) ≤ 1 ∧ encodable sep.
Proof.
  destruct (decide (y = [])) as [-> | Hy].
  { exists []. rewrite !app_nil_r. split_and!; [done|cbn; lia|constructor]. }
  induction x as [|a x IH].
  { exists []. split_and!; [done|cbn; lia|constructor]. }
  destruct x as [|b x].
  - exists [newline]. destruct y; [done|]. split_and!; [done|done|by repeat constructor].
  - destruct IH as (sep & IH & Hs). exists sep. split; [|done].
    change (join_nl ((a :: b :: x) ++ y)) with (a ++ newline :: join_nl ((b :: x) ++ y)).
    rewrite IH. change (join_nl (a :: b :: x)) with (a ++ newline :: join_nl (b :: x)).
    by rewrite <- !app_assoc.
Qed.

Definition bytes_of (l : list (list Z)) : nat := length (encode (join_nl l)).
Definition sizes (l : list (list Z)) : nat := sum_list_with (λ x, length (encode x)) l.

Lemma bytes_of_sizes l : bytes_of l = sizes l + (length l - 1).
Proof.
  unfold bytes_of, sizes. induction l as [|a [|b l] IH]; [done| |]. { cbn [join_nl sum_list_with length]. lia. }
  change (join_nl (a :: b :: l)) with (a ++ [newline] ++ join_nl (b :: l)).
  rewrite !encode_app, !length_app, IH. change (length (encode [newline])) with 1.
  cbn [sum_list_with length]. lia.
Qed.

Lemma bytes_of_rev l : bytes_of (rev l) = bytes_of l.
Proof.
  rewrite !bytes_of_sizes, length_rev. f_equal.
  induction l as [|a l IH]; [done|]. unfold sizes in *. cbn [rev].
  rewrite sum_list_with_app, IH. cbn [sum_list_with]. lia.
Qed.

Lemma bytes_of_app x y :
  bytes_of x + bytes_of y ≤ bytes_of (x ++ y) ≤ bytes_of x + bytes_of y + 1.
Proof.
  unfold bytes_of. destruct (join_nl_app x y) as (sep & -> & Hs & _).
  rewrite !encode_app, !length_app. lia.
Qed.

(** ** The lines kept from one end *)

(** What [k] lines take after [i] others: a separator each, but for the first. *)
Definition block_size (i : nat) (l : list (list Z)) : nat :=
  sizes l + (if 0 <? i then length l else length l - 1).

Lemma block_size_cons i x l :
  block_size i (x :: l) = length (encode x) + (if 0 <? i then 1 else 0) + block_size (S i) l.
Proof. unfold block_size, sizes. cbn. destruct i; cbn; lia. Qed.

Lemma block_size_0 l : block_size 0 l = bytes_of l.
Proof. by rewrite bytes_of_sizes. Qed.

(** A prefix of the lines within the budget and the cap; if lines are left, the cap
    is reached or the next line no longer fits. *)
Lemma keep_lines_spec budget cap i bytes lines :
  ∃ k, keep_lines budget cap i bytes lines = take k lines ∧ k ≤ length lines
    ∧ (k = 0 ∨ bytes + block_size i (take k lines) ≤ budget ∧ i + k ≤ cap)
    ∧ (k = length lines ∨ cap ≤ i + k ∨ budget < bytes + block_size i (take (S k) lines)).
Proof.
  revert i bytes. induction lines as [|x l IH]; intros i bytes.
  { exists 0. cbn. auto. }
  cbn [keep_lines]. destruct (_ || _) eqn:E.
  - exists 0. split_and!; [done|cbn; lia|by left|].
    rewrite orb_true_iff, Nat.ltb_lt, Nat.leb_le in E. right.
    cbn [take]. rewrite take_0, block_size_cons. destruct E; [right|left]; lia.
  - rewrite orb_false_iff, Nat.ltb_ge, Nat.leb_gt in E.
    destruct (IH (S i) (bytes + (length (encode x) + (if 0 <? i then 1 else 0))))
      as (k & -> & Hk & Hfit & Hstop).
    exists (S k). split_and!; [done|cbn; lia| |].
    + right. cbn [take]. rewrite block_size_cons.
      destruct Hfit as [-> | [? ?]]; [|lia].
      change (block_size (S i) (take 0 l)) with 0. lia.
    + change (take (S (S k)) (x :: l)) with (x :: take (S k) l). rewrite block_size_cons.
      cbn [length]. destruct Hstop as [? | [? | ?]]; lia.
Qed.

Lemma rev_take_rev {A} k (l : list A) : k ≤ length l → rev (take k (rev l)) = drop (length l - k) l.
Proof.
  intros Hk. rewrite <- (take_drop (length l - k) l) at 1. rewrite rev_app_distr.
  rewrite take_app_le by (rewrite length_rev, length_drop; lia).
  rewrite take_ge by (rewrite length_rev, length_drop; lia). apply rev_involutive.
Qed.

(** The kept head and tail. *)
Lemma keep_head budget cap lines :
  ∃ k, keep_lines budget cap 0 0 lines = take k lines ∧ k ≤ length lines ∧ k ≤ cap
    ∧ bytes_of (take k lines) ≤ budget
    ∧ (k = length lines ∨ cap ≤ k ∨ budget < bytes_of (take (S k) lines)).
Proof.
  destruct (keep_lines_spec budget cap 0 0 lines) as (k & H1 & H2 & H3 & H4).
  rewrite !block_size_0 in *. exists k. split_and!; [done|done|lia| |lia].
  destruct H3 as [-> | [? _]]; [|lia]. rewrite take_0. cbn. lia.
Qed.

Lemma keep_tail budget cap lines :
  ∃ k, rev (keep_lines budget cap 0 0 (rev lines)) = drop (length lines - k) lines
    ∧ k ≤ length lines ∧ k ≤ cap ∧ bytes_of (drop (length lines - k) lines) ≤ budget
    ∧ (k = length lines ∨ cap ≤ k ∨ budget < bytes_of (drop (length lines - S k) lines)).
Proof.
  destruct (keep_head budget cap (rev lines)) as (k & H1 & H2 & H3 & H4 & H5).
  rewrite length_rev in *. exists k. rewrite H1, rev_take_rev by done.
  rewrite <- bytes_of_rev, rev_take_rev in H4 by done.
  split_and!; [done..|]. destruct (decide (k = length lines)) as [|Hne]; [by left|right].
  rewrite <- bytes_of_rev, rev_take_rev in H5 by lia. lia.
Qed.

(** Blocks of lines from the two ends that do not meet fit side by side in the text;
    blocks that meet cover it. *)
Lemma bytes_disjoint a b l :
  a + b ≤ length l → bytes_of (take a l) + bytes_of (drop (length l - b) l) ≤ bytes_of l.
Proof.
  intros Hab. rewrite <- (take_drop a l) at 4.
  rewrite <- (take_drop (length l - b - a) (drop a l)). rewrite drop_drop.
  replace (a + (length l - b - a)) with (length l - b) by lia.
  pose proof (bytes_of_app (take a l) (take (length l - b - a) (drop a l) ++ drop (length l - b) l)).
  pose proof (bytes_of_app (take (length l - b - a) (drop a l)) (drop (length l - b) l)). lia.
Qed.

Lemma bytes_cover a b l :
  length l ≤ a + b → bytes_of l ≤ bytes_of (take a l) + bytes_of (drop (length l - b) l) + 1.
Proof.
  intros Hab. rewrite <- (take_drop a l) at 1.
  pose proof (bytes_of_app (take a l) (drop a l)) as H1.
  assert (bytes_of (drop a l) ≤ bytes_of (drop (length l - b) l)); [|lia].
  rewrite <- (take_drop (a - (length l - b)) (drop (length l - b) l)). rewrite drop_drop.
  destruct (decide (a ≤ length l)).
  - replace (length l - b + (a - (length l - b))) with a by lia.
    pose proof (bytes_of_app (take (a - (length l - b)) (drop (length l - b) l)) (drop a l)). lia.
  - rewrite (drop_ge l a) by lia. unfold bytes_of at 1. cbn. lia.
Qed.

(** ** The marker *)

Definition ascii_str (s : string) : bool := forallb (λ c, (code c <? 128)%N) (list_ascii_of_string s).

Lemma cps_app s u : cps (s +:+ u) = cps s ++ cps u.
Proof. unfold cps. induction s as [|c s IH]; [done|]. cbn. f_equal. apply IH. Qed.

Lemma cps_ascii s : ascii_str s = true → length (encode (cps s)) = slen s ∧ encodable (cps s).
Proof.
  unfold ascii_str, cps. induction s as [|c s IH]; [by repeat constructor|].
  cbn [list_ascii_of_string forallb map]. intros [Hc Hs]%andb_true_iff.
  apply N.ltb_lt in Hc. destruct (IH Hs) as [H1 H2].
  assert (Z.of_N (code c) < 128)%Z by lia. split.
  - change (encode (?x :: ?l)) with (utf8 x ++ encode l). rewrite length_app, H1.
    unfold utf8. assert ((Z.of_N (code c) <? 128)%Z = true) as -> by lia. done.
  - constructor; [|done]. unfold scalar.
    rewrite orb_true_iff, !andb_true_iff, !Z.leb_le, !Z.ltb_lt. lia.
Qed.

Lemma ascii_str_app s u : ascii_str (s +:+ u) = ascii_str s && ascii_str u.
Proof.
  unfold ascii_str. induction s as [|c s IH]; [done|]. cbn. by rewrite IH, andb_assoc.
Qed.

Lemma dec_digits_spec f n acc k :
  (n < 10 ^ N.of_nat (S k))%N →
  slen (dec_digits f n acc) ≤ slen acc + S k ∧
  (ascii_str acc = true → ascii_str (dec_digits f n acc) = true).
Proof.
  revert n acc k. induction f as [|f IH]; intros n acc k Hn; cbn [dec_digits]; [split; [lia|done]|].
  assert (ascii_str acc = true → ascii_str (String (digit_char (n mod 10)) acc) = true) as Hd.
  { unfold ascii_str. cbn [list_ascii_of_string forallb]. intros ->.
    unfold digit_char, code. rewrite andb_true_r, N.ltb_lt.
    pose proof (N.mod_lt n 10 ltac:(done)) as Hm. rewrite N_ascii_embedding; revert Hm;
      generalize (n mod 10)%N; lia. }
  destruct (N.ltb_spec n 10) as [E | E].
  - split; [cbn; lia|done].
  - destruct k as [|k]; [change (10 ^ N.of_nat 1)%N with 10%N in Hn; lia|].
    destruct (IH (n / 10)%N (String (digit_char (n mod 10)) acc) k) as [H1 H2].
    { apply N.Div0.div_lt_upper_bound. rewrite Nat2N.inj_succ, N.pow_succ_r' in Hn. done. }
    split; [cbn [slen] in H1; lia|auto].
Qed.

Lemma str_of_nat_size n k :
  (Z.of_nat n < 10 ^ Z.of_nat (S k))%Z →
  slen (str_of_nat n) ≤ S k ∧ ascii_str (str_of_nat n) = true.
Proof.
  intros Hn. unfold str_of_nat, str_of_N.
  destruct (dec_digits_spec (S (N.to_nat (N.log2 (N.of_nat n)))) (N.of_nat n) "" k) as [H1 H2].
  { apply N2Z.inj_lt. rewrite N2Z.inj_pow, !nat_N_Z. exact Hn. }
  by split; [|apply H2].
Qed.

Lemma fill_marker_size a b :
  (Z.of_nat a < 10 ^ 20)%Z → (Z.of_nat b < 10 ^ 20)%Z →
  length (encode (cps (fill_marker a b))) ≤ slen _MARKER + 32.
Proof.
  intros Ha Hb. destruct (str_of_nat_size a 19 Ha) as [Ha1 Ha2].
  destruct (str_of_nat_size b 19 Hb) as [Hb1 Hb2]. unfold fill_marker.
  rewrite (λ s H, proj1 (cps_ascii s H)) by (by rewrite !ascii_str_app, Ha2, Hb2).
  rewrite !slen_app. change (slen _MARKER) with 49. change (slen NLs) with 1.
  change (slen "... [") with 5. change (slen " bytes / ") with 9.
  change (slen " lines omitted] ...") with 19. lia.
Qed.

(** ** The preview *)

(** [h] and [t] are cut from the two ends of [text] and do not meet. *)
Definition ends_of (h t text : list Z) : Prop := ∃ mid, text = h ++ mid ++ t.

Lemma encodable_encode_inj a b :
  encodable a → encodable b → encode a = encode b → a = b.
Proof. intros Ha Hb E. by rewrite <- (decode_encode a), E, decode_encode. Qed.

(** A prefix and a suffix whose bytes fit side by side do not meet. *)
Lemma ends_of_fit text h t s p :
  text = h ++ s → text = p ++ t →
  length (encode h) + length (encode t) ≤ length (encode text) → ends_of h t text.
Proof.
  intros Hh Hp Hle.
  assert (length h ≤ length p) as Hlen.
  { destruct (decide (length h ≤ length p)) as [|Hlt]; [done|exfalso].
    assert (∃ x r, h = p ++ x :: r ∧ t = x :: r ++ s) as (x & r & -> & ->).
    { rewrite Hh in Hp. apply app_eq_inv in Hp as [(k & -> & ->) | (k & -> & ->)].
      - destruct k as [|x r]; [rewrite app_nil_r in Hlt; lia|]. by exists x, r.
      - rewrite length_app in Hlt. lia. }
    rewrite Hp in Hle. rewrite !encode_app in Hle.
    change (x :: r ++ s) with ([x] ++ (r ++ s)) in Hle. change (x :: r) with ([x] ++ r) in Hle.
    rewrite !encode_app, !length_app in Hle.
    assert (0 < length (encode [x])); [|lia].
    change (encode [x]) with (utf8 x ++ []). rewrite app_nil_r. apply utf8_pos. }
  rewrite Hh in Hp. apply app_eq_inv in Hp as [(k & -> & ->) | (k & -> & ->)].
  - assert (k = []) as -> by (destruct k; [done|rewrite length_app in Hlen; cbn in Hlen; lia]).
    exists []. by rewrite Hh, app_nil_r.
  - by exists k.
Qed.

(** The lines kept at the two ends do not meet when they leave some line out or
    cannot hold the whole text. *)
Lemma ends_of_lines text a b :
  a + b ≤ length (split_nl text) →
  ends_of (join_nl (take a (split_nl text)))
          (join_nl (drop (length (split_nl text) - b) (split_nl text))) text.
Proof.
  set (l := split_nl text). intros Hab.
  set (m := take (length l - b - a) (drop a l)). set (z := drop (length l - b) l).
  assert (l = take a l ++ m ++ z) as Hl.
  { rewrite <- (take_drop a l) at 1. f_equal.
    rewrite <- (take_drop (length l - b - a) (drop a l)) at 1. f_equal.
    rewrite drop_drop. subst z. f_equal. lia. }
  destruct (join_nl_app (take a l) (m ++ z)) as (s1 & E1 & _).
  destruct (join_nl_app m z) as (s2 & E2 & _).
  exists (s1 ++ join_nl m ++ s2).
  transitivity (join_nl l); [symmetry; apply join_split_nl|].
  rewrite Hl at 1. by rewrite E1, E2, <- !app_assoc.
Qed.

Lemma bytes_of_split text : bytes_of (split_nl text) = length (encode text).
Proof. unfold bytes_of. by rewrite join_split_nl. Qed.

Lemma split_nl_len t : length (split_nl t) ≤ S (length t).
Proof.
  induction t as [|c t IH]; [done|]. cbn [split_nl].
  destruct (split_nl_cons t) as (h & r & E). rewrite E in *.
  destruct (c =? newline)%Z; cbn in *; lia.
Qed.

Definition halves (text : list Z) (hb tb cap : nat) : list Z * list Z :=
  let lines := split_nl text in
  match join_nl (keep_lines hb cap 0 0 lines), join_nl (rev (keep_lines tb cap 0 0 (rev lines))) with
  | [], [] => (_utf8_safe_head (encode text) hb, _utf8_safe_tail (encode text) tb)
  | h, t => (h, t)
  end.

Lemma join_nl_nil l : join_nl l = [] → length l ≤ 1.
Proof. destruct l as [|a [|b l]]; cbn; [lia|lia|]. by destruct a. Qed.

(** The two halves of a text over a cap: within their budgets, and apart. *)
Lemma halves_spec text hb tb ml :
  encodable text → 4 ≤ ml →
  (ml < length (split_nl text) ∨ hb + tb + 1 < length (encode text)) →
  let '(h, t) := halves text hb tb (ml / 2) in
  length (encode h) ≤ hb ∧ length (encode t) ≤ tb ∧ ends_of h t text.
Proof.
  intros Henc Hml Hbig. unfold halves. rewrite <- bytes_of_split in Hbig.
  destruct (keep_head hb (ml / 2) (split_nl text)) as (a & -> & Ha & Hac & Hab & Hastop).
  destruct (keep_tail tb (ml / 2) (split_nl text)) as (b & -> & Hb & Hbc & Hbb & Hbstop).
  assert (ml / 2 + ml / 2 ≤ ml ∧ 2 ≤ ml / 2) as [Hcap Hcap2].
  { pose proof (Nat.div_mod ml 2 ltac:(done)). pose proof (Nat.mod_upper_bound ml 2 ltac:(done)). lia. }
  assert (a + b ≤ length (split_nl text)) as Hdis.
  { destruct Hbig as [?|Hbig]; [lia|].
    destruct (decide (a + b ≤ length (split_nl text))) as [|Hlt]; [done|].
    pose proof (bytes_cover a b (split_nl text) ltac:(lia)). lia. }
  set (l := split_nl text) in *.
  destruct (decide (join_nl (take a l) = [] ∧ join_nl (drop (length l - b) l) = [])) as [[Eh Et]|Hne].
  2: { assert (length (encode (join_nl (take a l))) ≤ hb ∧
         length (encode (join_nl (drop (length l - b) l))) ≤ tb ∧
         ends_of (join_nl (take a l)) (join_nl (drop (length l - b) l)) text) as H
         by (split_and!; [exact Hab|exact Hbb|by apply ends_of_lines]).
       destruct (join_nl (take a l)), (join_nl (drop (length l - b) l)); tauto. }
  rewrite Eh, Et.
  destruct (safe_head_spec text hb Henc) as (s & Hs & Hsl).
  destruct (safe_tail_spec text tb Henc) as (p & Hp & Hpl).
  split_and!; [done..|]. apply (ends_of_fit _ _ _ s p); [done..|].
  apply join_nl_nil in Eh, Et. rewrite length_take in Eh. rewrite length_drop in Et.
  rewrite <- (bytes_of_split text). fold l.
  destruct Hbig as [Hbig|Hbig]; [|lia].
  pose proof (bytes_disjoint (S a) (S b) l ltac:(lia)). lia.
Qed.

(** The preview of an encodable text: it fits the byte cap; it is the text itself
    exactly when both caps hold; otherwise it is a prefix (under a tiny cap) or the
    text with one middle part replaced by a marker that counts its bytes. *)
Theorem make_preview_spec text max_bytes max_lines :
  encodable text → 4 ≤ max_lines → (Z.of_nat (length (encode text)) < 10 ^ 19)%Z →
  ∃ p truncated, make_preview text max_bytes max_lines = Ok (p, truncated) ∧
    length (encode p) ≤ max_bytes ∧
    (truncated = false ↔
       length (encode text) ≤ max_bytes ∧ length (split_nl text) ≤ max_lines) ∧
    (truncated = false → p = text) ∧
    (truncated = true → (∃ rest, text = p ++ rest) ∨
       ∃ h mid t n, text = h ++ mid ++ t ∧ p = h ++ cps (fill_marker (length (encode mid)) n) ++ t).
Proof.
  intros Henc Hml Hsize. unfold make_preview.
  assert (forallb scalar text = true) as -> by by (apply forallb_elem, Forall_forall).
  cbn [negb]. set (n := length (split_nl text)). set (raw := length (encode text)) in *.
  destruct (_ && _) eqn:E.
  { rewrite andb_true_iff, !Nat.leb_le in E. exists text, false. by split_and!; [done|lia|done|..]. }
  assert (¬ (raw ≤ max_bytes ∧ n ≤ max_lines)) as Hover.
  { rewrite <- !Nat.leb_le, <- andb_true_iff, E. done. }
  clear E. destruct (Nat.leb_spec max_bytes (slen _MARKER + 32)) as [Hb|Hb].
  { destruct (safe_head_spec text max_bytes Henc) as (s & Hs & Hl).
    eexists _, true. split_and!; [done|done|done|done|eauto]. }
  set (budget := max_bytes - (slen _MARKER + 32)) in *.
  assert (budget / 2 ≤ budget) as Hhalf by (apply Nat.Div0.div_le_upper_bound; lia).
  pose proof (halves_spec text (budget / 2) (budget - budget / 2) max_lines Henc Hml) as Hspec.
  unfold halves in Hspec.
  destruct (match join_nl _ with [] => _ | _ => _ end) as [h t].
  destruct Hspec as (Hh & Ht & mid & Hmid); [change (slen _MARKER) with 49 in *; lia|].
  assert (raw - (length (encode h) + length (encode t)) = length (encode mid)) as ->.
  { subst raw. rewrite Hmid, !encode_app, !length_app. lia. }
  eexists _, true. split_and!; [done| |done|done|right; eauto 10].
  rewrite !encode_app, !length_app.
  match goal with |- context [fill_marker ?x ?y] => pose proof (fill_marker_size x y) as Hm end.
  assert (length (encode mid) ≤ raw).
  { subst raw. rewrite Hmid, !encode_app, !length_app. lia. }
  assert (n ≤ S raw). { subst n raw. rewrite split_nl_len. pose proof (encode_len text). lia. }
  assert (10 ^ 19 + 1 < 10 ^ 20)%Z by done. subst budget. lia.
Qed.

Definition sample_text : list Z := concat (repeat (cps "a line" ++ [newline]) 40).

Lemma make_preview_spec_witness :
  ∃ p truncated, make_preview sample_text 200 10 = Ok (p, truncated) ∧
    length (encode p) ≤ 200 ∧
    (truncated = false ↔
       length (encode sample_text) ≤ 200 ∧ length (split_nl sample_text) ≤ 10) ∧
    (truncated = false → p = sample_text) ∧
    (truncated = true → (∃ rest, sample_text = p ++ rest) ∨
       ∃ h mid t n, sample_text = h ++ mid ++ t ∧
         p = h ++ cps (fill_marker (length (encode mid)) n) ++ t).
Proof. apply make_preview_spec; [by repeat constructor|lia|done]. Defined.

(** What a tool returns for one output stream: the text itself, and no file written;
    or, over a cap, a preview and a pointer, with the whole text in the one new file,
    which lies under the workspace root. *)
Theorem emit_stream_keeps_text `{Resolve} text stream id working_dir fs0 payload trunc path fs1 :
  emit_stream text stream id working_dir fs0 = Ok (payload, trunc, path, fs1) →
  (trunc = false ∧ payload = text ∧ path = None ∧ fs1 = fs0 ∧
     length (encode text) ≤ TERMINAL_OUTPUT_LIMIT ∧
     length (split_nl text) ≤ TERMINAL_OUTPUT_MAX_LINES) ∨
  (trunc = true ∧ ∃ dir preview p,
     is_under (resolve (resolve working_dir)) dir = true ∧
     p = path_join dir (stream +:+ "-" +:+ id +:+ ".txt") ∧
     make_preview text TERMINAL_OUTPUT_LIMIT TERMINAL_OUTPUT_MAX_LINES = Ok (preview, true) ∧
     payload = preview ++ [newline; newline] ++ cps (pointer_text "Full output" p text) ∧
     path = Some p ∧ fs1 = (p, text) :: fs0).
Proof.
  unfold emit_stream, overflow_to_file.
  generalize TERMINAL_OUTPUT_LIMIT TERMINAL_OUTPUT_MAX_LINES. intros max_bytes max_lines.
  destruct (make_preview text max_bytes max_lines) as [[preview t]|x] eqn:Ep; cbn; [|done].
  destruct t; cbn.
  - destruct (_overflow_dir working_dir) as [dir|x] eqn:Ed; cbn; [|done].
    intros [= <- <- <- <-]. right. split; [done|]. exists dir, preview, (path_join dir (stream +:+ "-" +:+ id +:+ ".txt")).
    split_and!; try done. revert Ed. unfold _overflow_dir, path_under_root.
    destruct (is_under _ _) eqn:Eu; [|done]. by intros [= <-].
  - intros [= <- <- <- <-]. left. unfold make_preview in Ep.
    destruct (negb _); [done|]. destruct ((length (encode text) <=? max_bytes) && _) eqn:E.
    + rewrite andb_true_iff, !Nat.leb_le in E. tauto.
    + cbv zeta in Ep. destruct (max_bytes <=? _); [done|].
      by destruct (match join_nl _ with [] => _ | _ => _ end).
Qed.

Lemma emit_stream_keeps_text_witness :
  let _ : Resolve := λ p, p in
  let text := cps "hello" in
  (false = false ∧ text = text ∧ @None string = None ∧ @nil (string * list Z) = [] ∧
     length (encode text) ≤ TERMINAL_OUTPUT_LIMIT ∧
     length (split_nl text) ≤ TERMINAL_OUTPUT_MAX_LINES) ∨
  (false = true ∧ ∃ dir preview p,
     is_under (resolve (resolve "/workspace")) dir = true ∧
     p = path_join dir ("stdout" +:+ "-" +:+ "id" +:+ ".txt") ∧
     make_preview text TERMINAL_OUTPUT_LIMIT TERMINAL_OUTPUT_MAX_LINES = Ok (preview, true) ∧
     text = preview ++ [newline; newline] ++ cps (pointer_text "Full output" p text) ∧
     None = Some p ∧ [] = (p, text) :: []).
Proof. intros H text. apply (emit_stream_keeps_text (H:=H)). by vm_compute. Defined.
