(* ===== verification/OutputPruning.v ===== *)
(** * Pruning stale tool output: [context/tool_output_pruning.py]

    The session's events, the walk from the newest event that chooses the tool
    results to zero, and the mutation. Events are the entries of a list of distinct
    objects; [event, part_index] pairs are positions in it. Token counts are [Z]. *)

From S2P Require Import Prelude PyStr Names PyVal.

Definition PRUNE_MARKER : string :=
  "[output pruned to reclaim context " +:+ em_dash +:+ " re-run the tool if needed]".

(** [PROTECTED_TOOL_SUBSTRINGS] *)
Definition PROTECTED_TOOL_SUBSTRINGS : list string := ["skill"; SUBAGENT; CLARIFY].

(** The keyword arguments, with their defaults. *)
Record prune_params := Params {
  protect_recent_turns : Z; protect_token_budget : Z;
  min_part_tokens : Z; min_reclaim_tokens : Z
}.
Definition default_params : prune_params := Params 3 40000 500 20000.

Record function_response := FResp { fr_name : option string; fr_response : pyval }.
Record part := Part {
  p_text : option string; p_function_response : option function_response;
  p_function_call : bool
}.
(** [event.content], and its [parts]. *)
Record event := Event { e_content : option (option (list part)) }.

Record PruneResult := Pruned { pruned_count : Z; reclaimed_tokens : Z }.

(** [content and content.parts], as the list the loops run over. *)
Definition parts_of (e : event) : list part :=
  match e_content e with Some (Some ps) => ps | _ => [] end.

Section Pruning.
Context `{PyFloat}.

Definition _estimate_tokens (v : pyval) : Z := (Z.of_nat (slen (py_str v)) / 4)%Z.

Definition _is_protected_tool (name : option string) : bool :=
  match name with
  | None => false
  | Some n => negb (n =? "")%string
              && existsb (λ sub, contains sub (lower n)) PROTECTED_TOOL_SUBSTRINGS
  end.

Definition has_text (p : part) : bool :=
  match p_text p with Some t => negb (t =? "")%string | None => false end.
Definition has_function (p : part) : bool :=
  match p_function_response p with Some _ => true | None => p_function_call p end.

Definition _is_user_turn (e : event) : bool :=
  match parts_of e with
  | [] => false
  | ps => existsb has_text ps && negb (existsb has_function ps)
  end.

Definition _already_pruned (response : pyval) : bool :=
  match response with
  | PDict d => match dget d "pruned" with Some v => py_eq v (PStr PRUNE_MARKER) | None => false end
  | _ => false
  end.

Definition _overflow_paths (response : pyval) : pydict :=
  match response with
  | PDict d => List.filter (λ kv, endswith "overflow_path" kv.1
                             && match kv.2 with PStr _ => true | _ => false end) d
  | _ => []
  end.

(** The state of the walk: [turns_seen], [protected_tokens] and [candidates], each a
    position (event and part) with its tokens, the last found first. *)
Record walk := Walk {
  turns_seen : Z; protected_tokens : Z; candidates : list (nat * nat * Z)
}.

(** What the loop body does with a part: nothing, count its tokens as protected, or
    take it as a candidate. *)
Inductive verdict := Skip | Protect (tokens : Z) | Candidate (tokens : Z).

Definition judge (pr : prune_params) (turns protected : Z) (p : part) : verdict :=
  match p_function_response p with
  | None => Skip
  | Some fr =>
      if _already_pruned (fr_response fr) then Skip
      else
        let tokens := _estimate_tokens (fr_response fr) in
        if (turns <=? protect_recent_turns pr)%Z then Protect tokens
        else if (protected <? protect_token_budget pr)%Z then Protect tokens
        else if _is_protected_tool (fr_name fr) then Skip
        else if (tokens <? min_part_tokens pr)%Z then Skip
        else Candidate tokens
  end.

Definition visit_part (pr : prune_params) (i idx : nat) (w : walk) (p : part) : walk :=
  match judge pr (turns_seen w) (protected_tokens w) p with
  | Skip => w
  | Protect t => Walk (turns_seen w) (protected_tokens w + t) (candidates w)
  | Candidate t => Walk (turns_seen w) (protected_tokens w) ((i, idx, t) :: candidates w)
  end.

(** The parts of one event, from [idx] on. *)
Fixpoint visit_parts (pr : prune_params) (i idx : nat) (ps : list part) (w : walk) : walk :=
  match ps with
  | [] => w
  | p :: ps' => visit_parts pr i (S idx) ps' (visit_part pr i idx w p)
  end.

Definition visit_event (pr : prune_params) (i : nat) (e : event) (w : walk) : walk :=
  let turns := if _is_user_turn e then (turns_seen w + 1)%Z else turns_seen w in
  visit_parts pr i 0 (parts_of e) (Walk turns (protected_tokens w) (candidates w)).

(** [for event in reversed(events)]: the events from position [i] on have been visited
    when event [i - 1] is. *)
Fixpoint walk_events (pr : prune_params) (i : nat) (es : list event) : walk :=
  match es with
  | [] => Walk 0 0 []
  | e :: es' => visit_event pr i e (walk_events pr (S i) es')
  end.

(** [fr.response = {"pruned": PRUNE_MARKER, **_overflow_paths(fr.response)}] *)
Definition prune_part (p : part) : part :=
  match p_function_response p with
  | Some fr =>
      Part (p_text p)
        (Some (FResp (fr_name fr)
           (PDict (fold_left (λ d kv, dset d kv.1 kv.2) (_overflow_paths (fr_response fr))
                     [("pruned", PStr PRUNE_MARKER)]))))
        (p_function_call p)
  | None => p
  end.

Definition prune_at (i idx : nat) (es : list event) : list event :=
  alter (λ e, match e_content e with
              | Some (Some ps) => Event (Some (Some (alter prune_part idx ps)))
              | _ => e
              end) i es.

Definition prune_tool_outputs (es : list event) (pr : prune_params) :
    list event * PruneResult :=
  let cands := rev (candidates (walk_events pr 0 es)) in
  let reclaimable := fold_left Z.add (map snd cands) 0%Z in
  if (reclaimable <? min_reclaim_tokens pr)%Z then (es, Pruned 0 0)
  else (fold_left (λ es c, prune_at c.1.1 c.1.2 es) cands es,
        Pruned (Z.of_nat (length cands)) reclaimable).

(** The callback before a model call; [env] is [LHA_PRUNE_TOOL_OUTPUTS]. *)
Definition prune_tool_outputs_callback (env : option string) (es : list event) : list event :=
  if (default "1" env =? "0")%string then es
  else match es with [] => [] | _ => (prune_tool_outputs es default_params).1 end.
End Pruning.

(** * Facts *)

Lemma alter_middle {A} (f : A → A) l x r : alter f (length l) (l ++ x :: r) = l ++ f x :: r.
Proof. induction l as [|y l IH]; [done|]. cbn. by f_equal. Qed.

Section Facts.
Context `{PyFloat} (pr : prune_params).

(** The walk and the mutation in one structural pass. *)
Fixpoint prune_parts (turns protected : Z) (ps : list part) : Z * list part :=
  match ps with
  | [] => (protected, [])
  | p :: ps' =>
      match judge pr turns protected p with
      | Skip => let r := prune_parts turns protected ps' in (r.1, p :: r.2)
      | Protect t => let r := prune_parts turns (protected + t) ps' in (r.1, p :: r.2)
      | Candidate _ => let r := prune_parts turns protected ps' in (r.1, prune_part p :: r.2)
      end
  end.

Definition with_parts (e : event) (ps : list part) : event :=
  match e_content e with Some (Some _) => Event (Some (Some ps)) | _ => e end.

Definition user_turns (es : list event) : Z :=
  fold_right (λ e n, if _is_user_turn e then (n + 1)%Z else n) 0%Z es.

Fixpoint prune_events (es : list event) : Z * list event :=
  match es with
  | [] => (0%Z, [])
  | e :: es' =>
      let r := prune_events es' in
      let q := prune_parts (user_turns es) r.1 (parts_of e) in
      (q.1, with_parts e q.2 :: r.2)
  end.

Lemma visit_parts_acc i idx ps turns prot c :
  let w := visit_parts pr i idx ps (Walk turns prot []) in
  visit_parts pr i idx ps (Walk turns prot c) = Walk turns (protected_tokens w) (candidates w ++ c)
  ∧ turns_seen w = turns ∧ protected_tokens w = (prune_parts turns prot ps).1.
Proof.
  cbv zeta. revert idx prot c. induction ps as [|p ps IH]; intros idx prot c; [done|].
  cbn [visit_parts prune_parts]. unfold visit_part. cbn [turns_seen protected_tokens candidates].
  destruct (judge pr turns prot p) as [|t|t].
  - apply IH.
  - apply IH.
  - destruct (IH (S idx) prot ((i, idx, t) :: c)) as (-> & _ & _).
    destruct (IH (S idx) prot [(i, idx, t)]) as (-> & _ & E).
    cbn [turns_seen protected_tokens candidates]. by rewrite <- app_assoc, E.
Qed.

(** Folding over one event's candidates prunes its parts in place. *)
Lemma fold_parts pre done_ ps turns prot post :
  fold_left (λ es c, prune_at c.1.1 c.1.2 es)
    (rev (candidates (visit_parts pr (length pre) (length done_) ps (Walk turns prot []))))
    (pre ++ Event (Some (Some (done_ ++ ps))) :: post)
  = pre ++ Event (Some (Some (done_ ++ (prune_parts turns prot ps).2))) :: post.
Proof.
  revert done_ prot. induction ps as [|p ps IH]; intros done_ prot; [done|].
  cbn [visit_parts prune_parts]. unfold visit_part. cbn [turns_seen protected_tokens candidates].
  assert (S (length done_) = length (done_ ++ [p])) as Hlen by (rewrite length_app; cbn; lia).
  destruct (judge pr turns prot p) as [|t|t]; cbn [snd].
  - rewrite Hlen. specialize (IH (done_ ++ [p]) prot). by rewrite <- !app_assoc in IH.
  - rewrite Hlen. specialize (IH (done_ ++ [p]) (prot + t)%Z). by rewrite <- !app_assoc in IH.
  - destruct (visit_parts_acc (length pre) (S (length done_)) ps turns prot
      [(length pre, length done_, t)]) as (-> & _ & _).
    cbn [candidates]. rewrite rev_app_distr, fold_left_app. cbn [rev app fold_left fst snd].
    assert (prune_at (length pre) (length done_)
      (pre ++ Event (Some (Some (done_ ++ p :: ps))) :: post)
      = pre ++ Event (Some (Some ((done_ ++ [prune_part p]) ++ ps))) :: post) as ->.
    { unfold prune_at. rewrite alter_middle. cbn [e_content].
      by rewrite alter_middle, <- app_assoc. }
    replace (S (length done_)) with (length (done_ ++ [prune_part p]))
      by (rewrite length_app; cbn; lia).
    rewrite IH. by rewrite <- app_assoc.
Qed.

(** The candidates of the walk, pruned in place one by one, give the structural pass. *)
Lemma fold_events pre es :
  let w := walk_events pr (length pre) es in
  turns_seen w = user_turns es ∧ protected_tokens w = (prune_events es).1 ∧
  fold_left (λ es c, prune_at c.1.1 c.1.2 es) (rev (candidates w)) (pre ++ es)
  = pre ++ (prune_events es).2.
Proof.
  cbv zeta. revert pre. induction es as [|e es IH]; intros pre; [done|].
  specialize (IH (pre ++ [e])). cbn [walk_events prune_events fst snd].
  replace (length (pre ++ [e])) with (S (length pre)) in IH by (rewrite length_app; cbn; lia).
  destruct (walk_events pr (S (length pre)) es) as [turns prot cands] eqn:Ew.
  cbn [turns_seen protected_tokens candidates] in IH. destruct IH as (-> & -> & IH).
  unfold visit_event. cbn [turns_seen protected_tokens candidates].
  assert ((if _is_user_turn e then (user_turns es + 1)%Z else user_turns es)
    = user_turns (e :: es)) as -> by done.
  destruct (visit_parts_acc (length pre) 0 (parts_of e) (user_turns (e :: es))
    (prune_events es).1 cands) as (-> & Ht & Hp).
  cbn [turns_seen protected_tokens candidates].
  split_and!; [done|done|]. rewrite rev_app_distr, fold_left_app.
  rewrite <- app_assoc in IH. cbn [app] in IH. rewrite IH, <- app_assoc. cbn [app].
  unfold with_parts, parts_of. destruct e as [[[ps|]|]]; cbn [e_content]; try done.
  apply (fold_parts pre [] ps).
Qed.

Lemma prune_tool_outputs_eq es :
  prune_tool_outputs es pr =
  let cands := rev (candidates (walk_events pr 0 es)) in
  let total := fold_left Z.add (map snd cands) 0%Z in
  if (total <? min_reclaim_tokens pr)%Z then (es, Pruned 0 0)
  else ((prune_events es).2, Pruned (Z.of_nat (length cands)) total).
Proof.
  unfold prune_tool_outputs. cbv zeta. destruct (_ <? _)%Z; [done|]. f_equal.
  apply (fold_events [] es).
Qed.

Lemma dget_filter_keep (f : string * pyval → bool) (d : pydict) k v :
  dget d k = Some v → f (k, v) = true → dget (List.filter f d) k = Some v.
Proof.
  induction d as [|[k' v'] d IH]; [done|]. cbn [dget List.filter].
  destruct (k =? k')%string eqn:E; bool_prop.
  - intros [= ->] Hf. subst k'. rewrite Hf. cbn [dget]. by rewrite String.eqb_refl.
  - intros Hd Hf. destruct (f (k', v')); cbn [dget]; [|by apply IH].
    apply String.eqb_neq in E as ->. by apply IH.
Qed.

Lemma keys_filter (f : string * pyval → bool) (d : pydict) :
  NoDup (keys d) → NoDup (keys (List.filter f d)).
Proof.
  unfold keys. induction d as [|kv d IH]; [done|]. cbn [map List.filter].
  intros [Hk Hd]%NoDup_cons. destruct (f kv); [|by apply IH]. cbn [map]. constructor; [|by apply IH].
  intros (x & Ex & Hin)%list_elem_of_fmap. apply Hk, list_elem_of_fmap. exists x. split; [done|].
  apply list_elem_of_In in Hin. apply List.filter_In in Hin as [? _]. by apply list_elem_of_In.
Qed.

(** [{**l, over d0}]: what the later dict has wins. *)
Lemma dget_merge (l d0 : pydict) k :
  NoDup (keys l) → dget (fold_left (λ d kv, dset d kv.1 kv.2) l d0) k
    = match dget l k with Some v => Some v | None => dget d0 k end.
Proof.
  revert d0. induction l as [|[k' v'] l IH]; intros d0 Hl; [done|]. cbn [fold_left dget fst snd].
  apply NoDup_cons in Hl as [Hk' Hl]. rewrite IH by done.
  destruct (k =? k')%string eqn:E; bool_prop.
  - subst k'. by rewrite (proj2 (dget_None l k) Hk'), dget_dset_eq.
  - rewrite dget_dset_ne; [done|]. congruence.
Qed.

(** ** What is pruned *)

Lemma already_pruned_prune_part p fr :
  p_function_response p = Some fr →
  ∃ fr', p_function_response (prune_part p) = Some fr' ∧ fr_name fr' = fr_name fr ∧
    _already_pruned (fr_response fr') = true.
Proof.
  intros E. unfold prune_part. rewrite E. eexists. split; [done|]. split; [done|].
  cbn [fr_response _already_pruned].
  assert (∀ l d, Forall (λ kv, endswith "overflow_path" kv.1 = true) l →
    dget (fold_left (λ d kv, dset d kv.1 kv.2) l d) "pruned" = dget (d : pydict) "pruned") as Hl.
  { induction l as [|[k v] l IH]; intros d Hd; [done|]. apply Forall_cons in Hd as [Hk Hl].
    cbn [fold_left]. rewrite IH by done. apply dget_dset_ne. cbn [fst] in *. intros ->. by vm_compute in Hk. }
  rewrite Hl; [reflexivity|]. unfold _overflow_paths. destruct (fr_response fr); try constructor.
  apply Forall_forall. intros kv Hin. apply list_elem_of_In, List.filter_In in Hin as [_ Hb].
  by apply andb_true_iff in Hb as [? _].
Qed.

(** The tokens of the results of some events that are not pruned. *)
Definition part_tokens (p : part) : Z :=
  match p_function_response p with
  | Some fr => if _already_pruned (fr_response fr) then 0 else _estimate_tokens (fr_response fr)
  | None => 0
  end%Z.
Definition sum_Z (l : list Z) : Z := fold_right Z.add 0%Z l.
Definition event_tokens (e : event) : Z := sum_Z (map part_tokens (parts_of e)).
Definition live_tokens (es : list event) : Z := sum_Z (map event_tokens es).

(** A part that the pass replaced: a large result of an unprotected tool, with
    enough user turns from its event on and enough tokens kept around it. *)
Definition stale (turns kept : Z) (p : part) : Prop :=
  ∃ fr, p_function_response p = Some fr ∧ _already_pruned (fr_response fr) = false ∧
    _is_protected_tool (fr_name fr) = false ∧
    (min_part_tokens pr ≤ _estimate_tokens (fr_response fr))%Z ∧
    (protect_recent_turns pr < turns)%Z ∧ (protect_token_budget pr ≤ kept)%Z.

Lemma estimate_nonneg v : (0 ≤ _estimate_tokens v)%Z.
Proof. unfold _estimate_tokens. apply Z.div_pos; lia. Qed.

Lemma part_tokens_nonneg p : (0 ≤ part_tokens p)%Z.
Proof.
  unfold part_tokens. destruct (p_function_response p) as [fr|]; [|done].
  destruct (_already_pruned _); [done|apply estimate_nonneg].
Qed.

Lemma sum_Z_app a b : sum_Z (a ++ b) = (sum_Z a + sum_Z b)%Z.
Proof. unfold sum_Z. induction a as [|x a IH]; cbn; [done|]. rewrite IH. lia. Qed.

Lemma judge_cases turns prot p :
  match judge pr turns prot p with
  | Skip => True
  | Protect t => t = part_tokens p
  | Candidate t => stale turns prot p ∧ t = part_tokens p
  end.
Proof.
  unfold judge, stale, part_tokens. destruct (p_function_response p) as [fr|] eqn:E; [|done].
  destruct (_already_pruned _) eqn:Ea; [done|].
  destruct (Z.leb_spec turns (protect_recent_turns pr)); [done|].
  destruct (Z.ltb_spec prot (protect_token_budget pr)); [done|].
  destruct (_is_protected_tool _) eqn:Et; [done|].
  destruct (Z.ltb_spec (_estimate_tokens (fr_response fr)) (min_part_tokens pr)); [done|].
  split; [|done]. exists fr. split_and!; (done || lia).
Qed.

Lemma part_tokens_pruned p fr :
  p_function_response p = Some fr → part_tokens (prune_part p) = 0%Z.
Proof.
  intros E. destruct (already_pruned_prune_part p fr E) as (fr' & E' & _ & Ha).
  unfold part_tokens. by rewrite E', Ha.
Qed.

(** What is counted as protected stays: it is at most the tokens of the results kept. *)
Lemma prune_parts_kept turns prot ps :
  let r := prune_parts turns prot ps in
  (prot ≤ r.1 ≤ prot + sum_Z (map part_tokens r.2))%Z ∧
  Forall2 (λ p p', p' = p ∨ p' = prune_part p ∧ stale turns r.1 p) ps r.2.
Proof.
  cbv zeta. revert prot. induction ps as [|p ps IH]; intros prot; [cbn; split; [lia|constructor]|].
  cbn [prune_parts]. pose proof (judge_cases turns prot p) as Hj. pose proof (part_tokens_nonneg p).
  destruct (judge pr turns prot p) as [|t|t]; cbn [fst snd map];
    change (sum_Z (?x :: ?l)) with (x + sum_Z l)%Z.
  - destruct (IH prot) as [Hb Hf]. split; [lia|]. constructor; [by left|done].
  - destruct (IH (prot + t)%Z) as [Hb Hf]. split; [lia|]. constructor; [by left|done].
  - destruct (IH prot) as [Hb Hf]. destruct Hj as [Hs _].
    pose proof (part_tokens_nonneg (prune_part p)). split; [lia|].
    constructor; [|done]. right. split; [done|].
    destruct Hs as (fr & ? & ? & ? & ? & ? & ?). exists fr. split_and!; try done. lia.
Qed.

Lemma parts_of_with_parts e turns prot :
  parts_of (with_parts e (prune_parts turns prot (parts_of e)).2)
  = (prune_parts turns prot (parts_of e)).2.
Proof. unfold with_parts, parts_of. by destruct e as [[[ps|]|]]. Qed.

Lemma prune_events_kept es :
  let r := prune_events es in
  (0 ≤ r.1 ≤ live_tokens r.2)%Z ∧ length r.2 = length es ∧
  ∀ i e, es !! i = Some e → ∃ e', r.2 !! i = Some e' ∧
    Forall2 (λ p p', p' = p ∨
      p' = prune_part p ∧ stale (user_turns (drop i es)) (live_tokens (drop i r.2)) p)
      (parts_of e) (parts_of e').
Proof.
  cbv zeta. induction es as [|e es IH]; [cbn; split_and!; (lia || done)|].
  destruct IH as (Hb & Hl & Hi). cbn [prune_events fst snd].
  destruct (prune_parts_kept (user_turns (e :: es)) (prune_events es).1 (parts_of e)) as [Hpb Hpf].
  set (q := prune_parts _ _ _) in *.
  assert (event_tokens (with_parts e q.2) = sum_Z (map part_tokens q.2)) as Hev.
  { unfold event_tokens. subst q. by rewrite parts_of_with_parts. }
  assert (live_tokens (with_parts e q.2 :: (prune_events es).2)
    = (sum_Z (map part_tokens q.2) + live_tokens (prune_events es).2)%Z) as Hlive.
  { by rewrite <- Hev. }
  split; [lia|]. split; [cbn; lia|].
  intros [|i] e0; cbn [lookup list_lookup]; [|apply Hi].
  intros [= <-]. eexists. split; [done|]. rewrite !drop_0.
  subst q. rewrite parts_of_with_parts. eapply Forall2_impl; [exact Hpf|].
  intros p p' [-> | [-> (fr & ? & ? & ? & ? & ? & ?)]]; [by left|]. right. split; [done|].
  exists fr. split_and!; try done. lia.
Qed.

(** ** Pruning again *)

Lemma judge_pruned turns prot p : judge pr turns prot (prune_part p) = Skip ∨ prune_part p = p.
Proof.
  destruct (p_function_response p) as [fr|] eqn:E; [left|right; unfold prune_part; by rewrite E].
  destruct (already_pruned_prune_part p fr E) as (fr' & E' & _ & Ha).
  unfold judge. by rewrite E', Ha.
Qed.

Lemma visit_parts_pruned i idx turns prot c ps :
  visit_parts pr i idx (prune_parts turns prot ps).2 (Walk turns prot c)
  = Walk turns (prune_parts turns prot ps).1 c.
Proof.
  revert idx prot. induction ps as [|p ps IH]; intros idx prot; [done|]. cbn [prune_parts].
  destruct (judge pr turns prot p) as [|t|t] eqn:Ej;
    cbn [fst snd visit_parts]; unfold visit_part; cbn [turns_seen protected_tokens candidates].
  - rewrite Ej. apply IH.
  - rewrite Ej. apply IH.
  - assert (judge pr turns prot (prune_part p) = Skip) as ->; [|apply IH].
    destruct (judge_pruned turns prot p) as [?|E]; [done|].
    pose proof (judge_cases turns prot p) as Hj. rewrite Ej in Hj.
    destruct Hj as [(fr & Hfr & Ha & _) _].
    destruct (already_pruned_prune_part p fr Hfr) as (fr' & E' & _ & Ha').
    rewrite E, Hfr in E'. simplify_eq. congruence.
Qed.

Lemma prune_part_flags p :
  has_text (prune_part p) = has_text p ∧ has_function (prune_part p) = has_function p.
Proof.
  unfold prune_part, has_text, has_function. by destruct (p_function_response p) eqn:E; rewrite ?E.
Qed.

Lemma prune_parts_flags turns prot ps :
  map has_text (prune_parts turns prot ps).2 = map has_text ps ∧
  map has_function (prune_parts turns prot ps).2 = map has_function ps.
Proof.
  revert prot. induction ps as [|p ps IH]; intros prot; [done|]. cbn [prune_parts].
  destruct (prune_part_flags p) as [E1 E2].
  destruct (judge pr turns prot p) as [|t|t]; cbn [snd map]; rewrite ?E1, ?E2;
    split; f_equal; apply IH.
Qed.

Lemma existsb_map {A} (f : A → bool) l : existsb f l = existsb id (map f l).
Proof. induction l as [|x l IH]; cbn; [done|]. by rewrite IH. Qed.

Lemma user_turn_pruned e turns prot :
  _is_user_turn (with_parts e (prune_parts turns prot (parts_of e)).2) = _is_user_turn e.
Proof.
  assert (∀ e, _is_user_turn e = existsb id (map has_text (parts_of e))
    && negb (existsb id (map has_function (parts_of e)))) as Hu.
  { intros e0. unfold _is_user_turn. rewrite <- !existsb_map. by destruct (parts_of e0). }
  rewrite !Hu, parts_of_with_parts. by destruct (prune_parts_flags turns prot (parts_of e)) as [-> ->].
Qed.

Lemma walk_pruned i es :
  walk_events pr i (prune_events es).2 = Walk (user_turns es) (prune_events es).1 [].
Proof.
  revert i. induction es as [|e es IH]; intros i; [done|]. cbn [prune_events fst snd walk_events].
  rewrite IH. unfold visit_event. rewrite user_turn_pruned, parts_of_with_parts.
  cbn [turns_seen protected_tokens candidates]. apply (visit_parts_pruned i 0 (user_turns (e :: es))).
Qed.

(** ** The tokens reclaimed *)

Lemma visit_parts_total i idx turns prot ps :
  (sum_Z (map part_tokens ps) = sum_Z (map part_tokens (prune_parts turns prot ps).2)
   + sum_Z (map snd (candidates (visit_parts pr i idx ps (Walk turns prot [])))))%Z.
Proof.
  revert idx prot. induction ps as [|p ps IH]; intros idx prot; [done|].
  cbn [prune_parts visit_parts]. unfold visit_part. cbn [turns_seen protected_tokens candidates].
  pose proof (judge_cases turns prot p) as Hj.
  destruct (judge pr turns prot p) as [|t|t]; cbn [snd map];
    change (sum_Z (?x :: ?l)) with (x + sum_Z l)%Z.
  - rewrite (IH (S idx) prot). lia.
  - rewrite (IH (S idx) (prot + t)%Z). lia.
  - destruct Hj as [(fr & Hfr & _) Ht]. rewrite (part_tokens_pruned p fr Hfr).
    destruct (visit_parts_acc i (S idx) ps turns prot [(i, idx, t)]) as (-> & _ & _).
    cbn [candidates]. rewrite map_app, sum_Z_app, (IH (S idx) prot). cbn. lia.
Qed.

Lemma walk_total i es :
  (live_tokens es = live_tokens (prune_events es).2
   + sum_Z (map snd (candidates (walk_events pr i es))))%Z.
Proof.
  revert i. induction es as [|e es IH]; intros i; [done|]. cbn [prune_events walk_events fst snd].
  pose proof (fold_events (repeat e (S i)) es) as Hw. rewrite repeat_length in Hw.
  cbv zeta in Hw. destruct (walk_events pr (S i) es) as [turns prot cands] eqn:Ew.
  cbn [turns_seen protected_tokens candidates] in Hw. destruct Hw as (-> & -> & _).
  unfold visit_event. cbn [turns_seen protected_tokens candidates].
  change (if _is_user_turn e then (user_turns es + 1)%Z else user_turns es)
    with (user_turns (e :: es)).
  destruct (visit_parts_acc i 0 (parts_of e) (user_turns (e :: es)) (prune_events es).1 cands)
    as (-> & _ & _). cbn [candidates]. rewrite map_app, sum_Z_app.
  change (live_tokens (?x :: ?l)) with (event_tokens x + live_tokens l)%Z.
  rewrite (IH (S i)), Ew. unfold event_tokens. rewrite parts_of_with_parts.
  rewrite (visit_parts_total i 0 (user_turns (e :: es)) (prune_events es).1 (parts_of e)).
  cbn [candidates]. lia.
Qed.

Lemma fold_add_rev (l : list Z) : fold_left Z.add (rev l) 0%Z = sum_Z l.
Proof.
  rewrite fold_left_rev_right || rewrite <- fold_left_rev_right, rev_involutive.
  unfold sum_Z. induction l as [|x l IH]; cbn; [done|]. rewrite IH. lia.
Qed.
End Facts.

(** Pruning is all or nothing, and accounts for what it removes: the tokens of live
    results before are those after plus [reclaimed_tokens], which reach the floor
    unless nothing was touched. Only results are replaced, each by its [prune_part],
    and only stale ones: large, of an unprotected tool, with more than
    [protect_recent_turns] user turns from their event on, and at least
    [protect_token_budget] tokens of results from there on left as they were. *)
Theorem prune_spec `{PyFloat} (es : list event) (pr : prune_params) :
  let r := prune_tool_outputs es pr in
  (r = (es, Pruned 0 0) ∨ (min_reclaim_tokens pr ≤ reclaimed_tokens r.2)%Z) ∧
  (live_tokens es = live_tokens r.1 + reclaimed_tokens r.2)%Z ∧
  length r.1 = length es ∧
  ∀ i e, es !! i = Some e → ∃ e', r.1 !! i = Some e' ∧
    Forall2 (λ p p', p' = p ∨
      p' = prune_part p ∧ stale pr (user_turns (drop i es)) (live_tokens (drop i r.1)) p)
      (parts_of e) (parts_of e').
Proof.
  cbv zeta. rewrite prune_tool_outputs_eq. cbv zeta.
  rewrite map_rev, fold_add_rev, length_rev. pose proof (walk_total pr 0 es) as Ht.
  destruct (Z.ltb_spec (sum_Z (map snd (candidates (walk_events pr 0 es)))) (min_reclaim_tokens pr));
    cbn [fst snd reclaimed_tokens].
  - split_and!; [by left|lia|done|]. intros i e He. exists e. split; [done|].
    apply Forall_Forall2_diag, Forall_forall. by left.
  - destruct (prune_events_kept pr es) as (_ & Hl & Hi). split_and!; [by right|lia|done|done].
Qed.

(** Pruning twice is pruning once: the second pass finds nothing. *)
Theorem prune_idempotent `{PyFloat} (es : list event) (pr : prune_params) :
  let es' := (prune_tool_outputs es pr).1 in
  prune_tool_outputs es' pr = (es', Pruned 0 0).
Proof.
  cbv zeta. pose proof (prune_tool_outputs_eq pr es) as Heq. cbv zeta in Heq.
  destruct (_ <? _)%Z eqn:E; rewrite Heq; cbn [fst]; [exact Heq|].
  unfold prune_tool_outputs. rewrite walk_pruned. cbn [candidates rev map fold_left length].
  destruct (0 <? _)%Z; reflexivity.
Qed.

(** A pruned result keeps its tool's name and every string under an
    [*overflow_path] key, so a spilled output can still be read back; only those and
    the marker are left of the body. *)
Theorem prune_keeps_overflow_paths `{PyFloat} p fr d :
  p_function_response p = Some fr → fr_response fr = PDict d → NoDup (keys d) →
  ∃ d', p_function_response (prune_part p) = Some (FResp (fr_name fr) (PDict d')) ∧
    dget d' "pruned" = Some (PStr PRUNE_MARKER) ∧
    ∀ k, k ≠ "pruned" → dget d' k =
      match dget d k with
      | Some (PStr path) => if endswith "overflow_path" k then Some (PStr path) else None
      | _ => None
      end.
Proof.
  intros Hp Hr Hnd.
  destruct (already_pruned_prune_part p fr Hp) as (fr' & Hp' & _ & _).
  unfold prune_part. rewrite Hp, Hr. clear fr' Hp'. cbn [_overflow_paths p_function_response].
  eexists. split; [done|].
  match goal with |- context [List.filter ?f _] => set (f0 := f) end.
  pose proof (keys_filter f0 d Hnd) as Hnf.
  assert (∀ k v, dget (List.filter f0 d) k = Some v → dget d k = Some v ∧ f0 (k, v) = true) as Hsub.
  { intros k v Hg%dget_in. apply list_elem_of_In, List.filter_In in Hg as [Hin Hf]. split; [|done].
    apply list_elem_of_In in Hin. by apply dget_of_in. }
  split.
  - rewrite dget_merge by done. destruct (dget (List.filter f0 d) "pruned") as [v|] eqn:E; [|done].
    by apply Hsub in E as [_ E].
  - intros k Hk. rewrite dget_merge by done. cbn [dget].
    rewrite (proj2 (String.eqb_neq k "pruned") Hk).
    destruct (dget (List.filter f0 d) k) as [v|] eqn:E.
    + apply Hsub in E as [-> E]. unfold f0 in E. cbn in E. apply andb_true_iff in E as [-> E].
      by destruct v.
    + destruct (dget d k) as [[]|] eqn:Ed; try done. destruct (endswith _ k) eqn:Ek; [|done].
      rewrite (dget_filter_keep f0 d k _ Ed) in E; [done|]. unfold f0. cbn. by rewrite Ek.
Qed.

Lemma prune_keeps_overflow_paths_witness :
  let _ : PyFloat := λ _, "" in
  let d := [("output", PStr "a long text"); ("stdout_overflow_path", PStr "/w/lha/out.txt")] in
  let p := Part None (Some (FResp (Some "bash") (PDict d))) false in
  ∃ d', p_function_response (prune_part p) = Some (FResp (Some "bash") (PDict d')) ∧
    dget d' "pruned" = Some (PStr PRUNE_MARKER) ∧
    ∀ k, k ≠ "pruned" → dget d' k =
      match dget d k with
      | Some (PStr path) => if endswith "overflow_path" k then Some (PStr path) else None
      | _ => None
      end.
Proof.
  intros H d p.
  apply (prune_keeps_overflow_paths (H:=H) p (FResp (Some "bash") (PDict d)) d);
    [done|done|apply (bool_decide_unpack _); vm_compute; exact I].
Defined.
