(* ===== verification/SandboxLifecycle.v ===== *)
(** * Sandbox lifecycle: [sandbox/lifecycle.py]

    Provisioning, deletion, snapshots and per-user discovery of sandboxes, on top of
    the Vertex SDK. The SDK is a parameter: [client], one function per call, each
    from a state of the service to a result and the next state. Objects of the SDK
    are attribute tables. *)

From S2P Require Import Prelude PyStr Names Regex PyVal Sorting RegexFacts JsonFacts.
From stdpp Require Import sorting.

(** ** Objects *)

#[global] Unset Elimination Schemes.
Inductive obj :=
| ONone
| OBool (b : bool)
| OInt (z : Z)
| OStr (s : string)
| OList (l : list obj) (text : string)
| ODict (d : list (string * obj)) (text : string)
| OObj (attrs : list (string * obj)) (text : string).
#[global] Set Elimination Schemes.

(** [getattr(o, k, None)] *)
Definition getattr (o : obj) (k : string) : obj :=
  match o with
  | OObj attrs _ => match table_get attrs k with Some v => v | None => ONone end
  | _ => ONone
  end.
(** [o.k] *)
Definition attribute (o : obj) (k : string) : res obj :=
  match o with
  | OObj attrs _ => match table_get attrs k with
                    | Some v => Ok v | None => Raise (AttributeError k) end
  | _ => Raise (AttributeError k)
  end.
(** [d.get(k)] of an object that is a dict. *)
Definition dict_get (o : obj) (k : string) : obj :=
  match o with
  | ODict d _ => match table_get d k with Some v => v | None => ONone end
  | _ => ONone
  end.
Definition is_odict (o : obj) : bool := match o with ODict _ _ => true | _ => false end.
Definition is_none (o : obj) : bool := match o with ONone => true | _ => false end.

Definition truth (o : obj) : bool :=
  match o with
  | ONone => false
  | OBool b => b
  | OInt z => negb (z =? 0)%Z
  | OStr s => negb (s =? "")%string
  | OList l _ => match l with [] => false | _ => true end
  | ODict d _ => match d with [] => false | _ => true end
  | OObj _ _ => true
  end.
(** [a or b] *)
Definition or_else (a b : obj) : obj := if truth a then a else b.

Definition obj_str (o : obj) : string :=
  match o with
  | ONone => "None"
  | OBool b => if b then "True" else "False"
  | OInt z => str_of_Z z
  | OStr s => s
  | OList _ t | ODict _ t | OObj _ t => t
  end.
(** [o == s] for a string [s] *)
Definition eq_str (o : obj) (s : string) : bool :=
  match o with OStr t => (t =? s)%string | _ => false end.
(** [o.startswith(p)] and [o.endswith(p)] *)
Definition obj_startswith (o : obj) (p : string) : res bool :=
  match o with OStr s => Ok (startswith p s) | _ => Raise (AttributeError "startswith") end.
Definition obj_endswith (o : obj) (p : string) : res bool :=
  match o with OStr s => Ok (endswith p s) | _ => Raise (AttributeError "endswith") end.
(** [sub in o] *)
Definition str_in (sub : string) (o : obj) : res bool :=
  match o with
  | OStr s => Ok (contains sub s)
  | OList l _ => Ok (existsb (λ x, eq_str x sub) l)
  | ODict d _ => Ok (match table_get d sub with Some _ => true | None => false end)
  | _ => Raise (TypeError "argument is not iterable")
  end.

(** ** The service *)

Record config := Config { c_fields : list (string * obj) }.

(** One function per SDK call the module makes, on the service's state. *)
Record client (W : Type) := Client {
  sandboxes_list : string → W → res (list obj) * W;
  sandboxes_get : string → W → res obj * W;
  sandboxes_create : string → config → W → res obj * W;
  sandboxes_delete : string → W → res unit * W;
  snapshots_list : string → W → res (list obj) * W;
  snapshots_create : string → config → W → res obj * W;
  snapshots_delete : string → W → res unit * W;
  templates_list : string → W → res (list obj) * W;
  templates_get : string → W → res obj * W;
  templates_create : string → string → config → W → res obj * W;
  generate_access_token : string → W → res obj * W
}.
Arguments sandboxes_list {W}. Arguments sandboxes_get {W}. Arguments sandboxes_create {W}.
Arguments sandboxes_delete {W}. Arguments snapshots_list {W}. Arguments snapshots_create {W}.
Arguments snapshots_delete {W}. Arguments templates_list {W}. Arguments templates_get {W}.
Arguments templates_create {W}. Arguments generate_access_token {W}.

(** The attributes of an exception object. *)
Class ExcAttr := exc_attr : exc → string → obj.

(** A call: the service's state, and a result or an exception. *)
Definition call (W A : Type) : Type := W → res A * W.
Definition ret {W A} (a : A) : call W A := λ w, (Ok a, w).
Definition raise {W A} (e : exc) : call W A := λ w, (Raise e, w).
Definition lift {W A} (m : res A) : call W A := λ w, (m, w).
Definition bind {W A B} (m : call W A) (k : A → call W B) : call W B :=
  λ w, match m w with
       | (Ok a, w') => k a w'
       | (Raise e, w') => (Raise e, w')
       end.
(** [try: ... except Exception as exc: ...] *)
Definition catch {W A} (m : call W A) (h : exc → call W A) : call W A :=
  λ w, match m w with
       | (Ok a, w') => (Ok a, w')
       | (Raise e, w') => h e w'
       end.
Notation "'let*' x ':=' m 'in' k" := (bind m (λ x, k))
  (at level 10, x name, m at level 100, k at level 200, only parsing) : py_scope.

(** ** TTLs and names *)

Definition _TTL_RE : regex := re_of "^\s*(\d+)\s*([smhd])\s*$".
Definition _TTL_MULT : list (string * Z) := [("s", 1); ("m", 60); ("h", 3600); ("d", 86400)]%Z.

Definition _normalize_ttl (ttl : string) : res string :=
  match re_match IGNORECASE _TTL_RE ttl with
  | None => Raise (ValueError ("Invalid TTL " +:+ repr_str ttl
              +:+ ": expected <number><s|m|h|d> (e.g. '14d', '900s')"))
  | Some m =>
      let '(n, _, _) := take_digits (default "" (group 1 m)) 0 0 in
      match table_get _TTL_MULT (lower (default "" (group 2 m))) with
      | Some k => Ok (str_of_Z (n * k) +:+ "s")
      | None => Raise (KeyError (lower (default "" (group 2 m))))
      end
  end.

Record ProvisionedSandbox := Provisioned { ps_name : string; lb_host : string; routing_token : string }.

Definition _SAFE_USER_ID : regex := re_of "[^a-zA-Z0-9_]+".
Definition _USER_ID_MAX_LEN : nat := 32.

(** [s or d] on strings *)
Definition str_or (s d : string) : string := if (s =? "")%string then d else s.

Definition runtime_image_version (image_uri : string) : string :=
  let ref := strip image_uri in
  if has_char "@" ref then
    str_or (stake 19 (re_sub noflags _SAFE_USER_ID "_" (after_last "@" ref))) "untagged"
  else match rpartition ":" ref with
       | Some (_, suffix) =>
           if negb (has_char "/" suffix)
           then str_or (re_sub noflags _SAFE_USER_ID "_" suffix) "untagged"
           else "untagged"
       | None => "untagged"
       end.

Definition _sanitize_user_id (user_id : string) : string :=
  str_or (stake _USER_ID_MAX_LEN (re_sub noflags _SAFE_USER_ID "_" user_id)) "anonymous".

Definition _user_display_prefix (user_id : string) : string :=
  "lha-" +:+ _sanitize_user_id user_id +:+ "-".

Definition sandbox_display_name (user_id image_uri : string) : string :=
  _user_display_prefix user_id +:+ runtime_image_version image_uri.

Definition SNAPSHOT_DISPLAY_SUFFIX : string := "-snap".

Definition sandbox_display_name_from_snapshot (snapshot_display_name : string) : string :=
  removesuffix SNAPSHOT_DISPLAY_SUFFIX snapshot_display_name.

Definition ROUTINE_DISPLAY_PREFIX : string := "lhart-".

Definition routine_display_name (routine_id image_uri : string) : string :=
  ROUTINE_DISPLAY_PREFIX +:+ _sanitize_user_id routine_id +:+ "-"
  +:+ runtime_image_version image_uri.

(** [packaging.version.Version(s) < Version(t)], [None] when either is invalid. *)
Class Packaging := version_lt : string → string → option bool.

Definition version_below_floor `{Packaging} (display_name floor : string) : bool :=
  if (floor =? "")%string then false
  else
    let head := match rpartition "-" display_name with Some (a, _) => a | None => display_name end in
    let token := sdrop (slen head + 1) display_name in
    match version_lt (lstrip (one_of "v") (smap (λ c, if Ascii.eqb c "_" then "."%char else c) token))
                     (lstrip (one_of "v") floor) with
    | Some b => b
    | None => false
    end.

(** ** Reading SDK objects *)

Definition _operation_resource_name (operation : obj) : res string :=
  let response := getattr operation "response" in
  if is_none response then
    Raise (RuntimeError "Sandbox operation returned no response; cannot extract resource name")
  else
    let name := getattr response "name" in
    if negb (truth name) then Raise (RuntimeError "Sandbox operation response missing 'name' field")
    else Ok (obj_str name).

Definition DEFAULT_TEMPLATE_DISPLAY_NAME : string := "lha-default".
Definition DEFAULT_RUNTIME_PORT : Z := 8080.

Definition template_display_name (internet_access : bool) : string :=
  DEFAULT_TEMPLATE_DISPLAY_NAME +:+ "-" +:+ (if internet_access then "net" else "hermetic").

(** An attribute, or the entry of the same name when there is none and [o] is a dict. *)
Definition attr_or_item (o : obj) (k : string) : obj :=
  let a := getattr o k in if is_none a && is_odict o then dict_get o k else a.

Definition template_internet_access (template : obj) (dflt : bool) : res bool :=
  let egress := attr_or_item template "egress_control_config" in
  let ia := attr_or_item egress "internet_access" in
  if negb (is_none ia) then Ok (truth ia)
  else
    let dn := or_else (getattr template "display_name") (OStr "") in
    let! net := obj_endswith dn "-net" in
    if net then Ok true
    else
      let! hermetic := obj_endswith dn "-hermetic" in
      if hermetic then Ok false else Ok dflt.

Definition _template_image_uri (template : obj) : option string :=
  let cce := attr_or_item template "custom_container_environment" in
  if is_none cce then None
  else
    let spec := attr_or_item cce "custom_container_spec" in
    if is_none spec then None
    else
      let image := attr_or_item spec "image_uri" in
      if truth image then Some (obj_str image) else None.

Definition _provisioned_from_operation (operation : obj) : res ProvisionedSandbox :=
  let response := getattr operation "response" in
  if is_none response then
    Raise (RuntimeError "Sandbox operation returned no response; cannot extract resource name")
  else
    let name := getattr response "name" in
    if negb (truth name) then Raise (RuntimeError "Sandbox operation response missing 'name' field")
    else
      let conn := getattr response "connection_info" in
      if is_none conn then
        Raise (RuntimeError ("Sandbox operation response missing 'connection_info' " +:+ em_dash
                 +:+ " the LB host and routing token are mandatory for talking to the shim"))
      else
        let host := getattr conn "load_balancer_hostname" in
        let token := getattr conn "routing_token" in
        if negb (truth host) || negb (truth token) then
          Raise (RuntimeError "Sandbox connection_info missing load_balancer_hostname or routing_token")
        else Ok (Provisioned (obj_str name) (obj_str host) (obj_str token)).

Definition _sandbox_is_running (sandbox : obj) : res bool :=
  let state := getattr sandbox "state" in
  if is_none state then Ok true
  else str_in "RUNNING" (or_else (getattr state "name") (OStr (obj_str state))).

Definition _sandbox_state_name (sandbox : obj) : obj :=
  let state := getattr sandbox "state" in
  if is_none state then OStr "" else or_else (getattr state "name") (OStr (obj_str state)).

(** ** Choosing among candidates *)

(** The shape of the listing loops: the values some elements give, or the first
    exception. *)
Fixpoint collect {A} (f : obj → res (option A)) (l : list obj) : res (list A) :=
  match l with
  | [] => Ok []
  | x :: l' =>
      let! a := f x in
      let! r := collect f l' in
      Ok (match a with Some v => v :: r | None => r end)
  end.

(** [(create_time, name, display_name)] *)
Abbreviation candidate := (string * string * string)%type.

Definition newest_first {A} (name time : A → string) (l : list A) : list A :=
  sort_by (λ a b, str_leb (time b) (time a)) (sort_by (λ a b, str_leb (name a) (name b)) l).
Definition _newest_first : list candidate → list candidate :=
  newest_first (λ c, c.1.2) (λ c, c.1.1).

Definition create_time (o : obj) : string :=
  let t := getattr o "create_time" in if truth t then obj_str t else "".

(** [display and display.startswith(prefix)] *)
Definition has_prefix (prefix : string) (display : obj) : res bool :=
  if truth display then obj_startswith display prefix else Ok false.

Definition named {A} (o : obj) (k : string → A) : option A :=
  let name := getattr o "name" in if truth name then Some (k (obj_str name)) else None.

(** The body of the loop of [_user_snapshots]. *)
Definition snapshot_candidate (prefix : string) (snap : obj) : res (option candidate) :=
  let display := getattr snap "display_name" in
  let! ok := has_prefix prefix display in
  Ok (if ok then named snap (λ n, (create_time snap, n, obj_str display)) else None).

(** The bodies of the loops over sandboxes: by exact name, and by prefix. *)
Definition exact_match (want : string) (sandbox : obj) : res (option string) :=
  if negb (eq_str (getattr sandbox "display_name") want) then Ok None
  else
    let! running := _sandbox_is_running sandbox in
    Ok (if running then named sandbox id else None).

Definition latest_candidate (prefix : string) (sandbox : obj) : res (option candidate) :=
  let display := getattr sandbox "display_name" in
  let! ok := has_prefix prefix display in
  if negb ok then Ok None
  else
    let! running := _sandbox_is_running sandbox in
    Ok (if running then named sandbox (λ n, (create_time sandbox, n, obj_str display)) else None).

Definition prior_candidate (prefix current : string) (sandbox : obj) : res (option candidate) :=
  let display := getattr sandbox "display_name" in
  let! ok := has_prefix prefix display in
  if negb ok || eq_str display current then Ok None
  else
    let! running := _sandbox_is_running sandbox in
    Ok (if running then named sandbox (λ n, (create_time sandbox, n, obj_str display)) else None).

Definition state_candidate (want : string) (sandbox : obj) : res (option (obj * string)) :=
  if negb (eq_str (getattr sandbox "display_name") want) then Ok None
  else Ok (named sandbox (λ n, (_sandbox_state_name sandbox, n))).

(** [_rank], also the chain that names the status. *)
Definition _rank (state_name : obj) : res nat :=
  let! running := str_in "RUNNING" state_name in
  if running then Ok 0
  else
    let! creating := str_in "CREATING" state_name in
    let! pending := if creating then Ok true else str_in "PENDING" state_name in
    if pending then Ok 1
    else
      let! error := str_in "ERROR" state_name in
      Ok (if error then 2 else 3).

Fixpoint ranked (l : list (obj * string)) : res (list (nat * string)) :=
  match l with
  | [] => Ok []
  | (s, n) :: l' => let! k := _rank s in let! r := ranked l' in Ok ((k, n) :: r)
  end.

(** Tuples in order: the rank, then the name. *)
Definition rank_leb (a b : nat * string) : bool :=
  (a.1 <? b.1) || (a.1 =? b.1) && str_leb a.2 b.2.

Definition status_of (rank : nat) : option string :=
  match rank with
  | 0 => Some "ready" | 1 => Some "provisioning" | 2 => Some "error" | _ => None
  end.

(** [l[keep:]] *)
Definition slice_from {A} (keep : Z) (l : list A) : list A :=
  if (0 <=? keep)%Z then drop (Z.to_nat keep) l
  else drop (length l - Z.to_nat (- keep)) l.

(** ** Operations *)

Section Operations.
Context {W : Type} (cl : client W) `{ExcAttr}.

Definition _is_not_found (e : exc) : bool :=
  match or_else (exc_attr e "code") (exc_attr e "status_code") with
  | OInt z => (z =? 404)%Z
  | _ => false
  end.

(** The template's identity, from its own fields or those of the hydrated object;
    [None]: the loop goes on with the next template. *)
Definition template_identity (template : obj) : call W (option (obj * option string)) :=
  let candidate_name := getattr template "display_name" in
  let candidate_image := _template_image_uri template in
  if is_none candidate_name || (match candidate_image with None => true | _ => false end) then
    let template_name := getattr template "name" in
    if negb (truth template_name) then ret None
    else
      catch (let* hydrated := templates_get cl (obj_str template_name) in
             ret (Some (getattr hydrated "display_name", _template_image_uri hydrated)))
            (λ _, ret None)
  else ret (Some (candidate_name, candidate_image)).

Fixpoint find_template (display_name image_uri : string) (l : list obj) : call W (option string) :=
  match l with
  | [] => ret None
  | template :: l' =>
      let* id := template_identity template in
      match id with
      | Some (n, i) =>
          if eq_str n display_name && bool_decide (i = Some image_uri)
          then let* n' := lift (attribute template "name") in ret (Some (obj_str n'))
          else find_template display_name image_uri l'
      | None => find_template display_name image_uri l'
      end
  end.

Definition template_config (image_uri : string) (internet_access : bool) : config :=
  Config [("custom_container_environment",
           ODict [("custom_container_spec", ODict [("image_uri", OStr image_uri)] "");
                  ("ports", OList [ODict [("port", OInt DEFAULT_RUNTIME_PORT); ("protocol", OStr "TCP")] ""] "")] "");
          ("egress_control_config", ODict [("internet_access", OBool internet_access)] "")].

Definition ensure_template (agent_instance_name image_uri : string) (internet_access : bool) :
    call W string :=
  let display_name := template_display_name internet_access in
  let* existing := templates_list cl agent_instance_name in
  let* found := find_template display_name image_uri existing in
  match found with
  | Some n => ret n
  | None =>
      let* operation := templates_create cl agent_instance_name display_name
                          (template_config image_uri internet_access) in
      lift (_operation_resource_name operation)
  end.

Definition mint_sandbox_token (service_account : string) : call W string :=
  let* t := generate_access_token cl service_account in ret (obj_str t).

Definition fetch_routing_token (sandbox_name : string) : call W string :=
  let* sandbox := sandboxes_get cl sandbox_name in
  let conn := getattr sandbox "connection_info" in
  if is_none conn then
    raise (RuntimeError ("sandbox " +:+ sandbox_name
             +:+ " has no connection_info; cannot refresh routing token"))
  else
    let token := getattr conn "routing_token" in
    if negb (truth token) then
      raise (RuntimeError ("sandbox " +:+ sandbox_name +:+ " connection_info missing routing_token"))
    else ret (obj_str token).

(** [if ttl: config["ttl"] = _normalize_ttl(ttl)] *)
Definition with_ttl (ttl : option string) (fields : list (string * obj)) : res config :=
  match ttl with
  | Some t => if (t =? "")%string then Ok (Config fields)
              else let! s := _normalize_ttl t in Ok (Config (fields ++ [("ttl", OStr s)]))
  | None => Ok (Config fields)
  end.

Definition provision_sandbox (agent_instance_name owner template_name : string)
    (display_name ttl : option string) : call W ProvisionedSandbox :=
  if (template_name =? "")%string then
    raise (ValueError "provision_sandbox requires template_name")
  else
    let named_ := match display_name with
                  | Some d => if (d =? "")%string then [] else [("display_name", OStr d)]
                  | None => [] end in
    let* cfg := lift (with_ttl ttl ([("owner", OStr owner);
                  ("sandbox_environment_template", OStr template_name)] ++ named_)) in
    let* operation := sandboxes_create cl agent_instance_name cfg in
    lift (_provisioned_from_operation operation).

Definition delete_sandbox (sandbox_name : string) : call W unit :=
  catch (sandboxes_delete cl sandbox_name)
        (λ e, if _is_not_found e then ret tt else raise e).

Definition snapshot_user_sandbox (sandbox_name display_name : string) (ttl : option string) :
    call W string :=
  let* cfg := lift (with_ttl ttl [("display_name", OStr display_name);
                                  ("wait_for_completion", OBool true)]) in
  let* operation := snapshots_create cl sandbox_name cfg in
  let name := getattr (getattr operation "response") "name" in
  if negb (truth name) then raise (RuntimeError "Snapshot operation response missing 'name' field")
  else ret (obj_str name).

Definition _user_snapshots (agent_instance_name user_id : string) : call W (list candidate) :=
  let* snaps := snapshots_list cl agent_instance_name in
  let* candidates := lift (collect (snapshot_candidate (_user_display_prefix user_id)) snaps) in
  ret (_newest_first candidates).

Definition find_latest_user_snapshot (agent_instance_name user_id : string) :
    call W (option (string * string)) :=
  let* snaps := _user_snapshots agent_instance_name user_id in
  ret (match snaps with (_, name, display) :: _ => Some (name, display) | [] => None end).

Definition delete_snapshot (snapshot_name : string) : call W unit :=
  catch (snapshots_delete cl snapshot_name)
        (λ e, if _is_not_found e then ret tt else raise e).

Fixpoint delete_each (l : list string) : call W unit :=
  match l with
  | [] => ret tt
  | n :: l' => let* u := delete_snapshot n in delete_each l'
  end.

Definition prune_user_snapshots (agent_instance_name user_id : string) (keep : Z) :
    call W (list string) :=
  let* candidates := _user_snapshots agent_instance_name user_id in
  let stale := map (λ c, c.1.2) (slice_from keep candidates) in
  let* u := delete_each stale in
  ret stale.

Definition restore_sandbox_from_snapshot (agent_instance_name owner snapshot_name display_name : string)
    (ttl : option string) : call W ProvisionedSandbox :=
  let* cfg := lift (with_ttl ttl [("owner", OStr owner); ("display_name", OStr display_name);
                                  ("sandbox_environment_snapshot", OStr snapshot_name)]) in
  let* operation := sandboxes_create cl agent_instance_name cfg in
  lift (_provisioned_from_operation operation).

Definition find_by_display (agent_instance_name want : string) : call W (option string) :=
  let* listed := sandboxes_list cl agent_instance_name in
  let* matches := lift (collect (exact_match want) listed) in
  ret (head (sort_by str_leb matches)).

Definition find_user_sandbox (agent_instance_name user_id image_uri : string) :
    call W (option string) :=
  find_by_display agent_instance_name (sandbox_display_name user_id image_uri).

Definition find_routine_sandbox (agent_instance_name routine_id image_uri : string) :
    call W (option string) :=
  find_by_display agent_instance_name (routine_display_name routine_id image_uri).

Definition find_prior_user_sandbox (agent_instance_name user_id current_image_uri : string) :
    call W (option string) :=
  let* listed := sandboxes_list cl agent_instance_name in
  let* candidates := lift (collect (prior_candidate (_user_display_prefix user_id)
                              (sandbox_display_name user_id current_image_uri)) listed) in
  ret (match _newest_first candidates with c :: _ => Some c.1.2 | [] => None end).

Definition find_latest_user_sandbox (agent_instance_name user_id : string) :
    call W (option (string * string)) :=
  let* listed := sandboxes_list cl agent_instance_name in
  let* candidates := lift (collect (latest_candidate (_user_display_prefix user_id)) listed) in
  ret (match _newest_first candidates with c :: _ => Some (c.1.2, c.2) | [] => None end).

Inductive snapshot_status := NoSandbox | Snapshotted (pruned : nat).

Definition snapshot_and_prune_user (agent_instance_name user_id snapshot_ttl : string) (keep : Z) :
    call W snapshot_status :=
  let* latest := find_latest_user_sandbox agent_instance_name user_id in
  match latest with
  | None => ret NoSandbox
  | Some (sandbox_name, sandbox_display) =>
      let* u := snapshot_user_sandbox sandbox_name (sandbox_display +:+ SNAPSHOT_DISPLAY_SUFFIX)
                  (Some snapshot_ttl) in
      let* pruned := prune_user_snapshots agent_instance_name user_id keep in
      ret (Snapshotted (length pruned))
  end.

Definition get_user_sandbox_state (agent_instance_name user_id image_uri : string) :
    call W (option (string * string)) :=
  let* listed := sandboxes_list cl agent_instance_name in
  let* candidates := lift (collect (state_candidate (sandbox_display_name user_id image_uri)) listed) in
  let* ranks := lift (ranked candidates) in
  ret (match sort_by rank_leb ranks with
       | (k, name) :: _ => match status_of k with Some s => Some (s, name) | None => None end
       | [] => None
       end).
End Operations.

(** * Facts *)


(** ** Names *)

Definition safe_char (c : ascii) : bool :=
  is_alpha_ascii c || is_decimal c || Ascii.eqb c "_".

Definition _SAFE_ITEMS : list citem :=
  match _SAFE_USER_ID with RSeq (RRep _ _ _ (RSet _ items)) _ => items | _ => [] end.

Lemma safe_user_id_class :
  _SAFE_USER_ID = RSeq (RRep 1 None true (RSet true _SAFE_ITEMS)) REmpty ∧
  ∀ c, xorb true (set_has false _SAFE_ITEMS c) = negb (safe_char c).
Proof.
  split; [reflexivity|]. intros c.
  enough (forallb (λ n, Bool.eqb (xorb true (set_has false _SAFE_ITEMS (ascii_of_nat n)))
    (negb (safe_char (ascii_of_nat n)))) (seq 0 256) = true) as Hall.
  { rewrite forallb_elem in Hall. specialize (Hall (nat_of_ascii c)).
    rewrite ascii_nat_embedding in Hall. apply Bool.eqb_prop, Hall, elem_of_seq.
    pose proof (nat_ascii_bounded c). lia. }
  vm_compute. reflexivity.
Qed.

(** [_SAFE_USER_ID.sub("_", s)], as a function of its own. *)
Definition sanitize : string → string := collapse (λ c, negb (safe_char c)) "_" false.

Lemma sanitize_sub s : re_sub noflags _SAFE_USER_ID "_" s = sanitize s.
Proof.
  destruct safe_user_id_class as [-> Hc]. unfold re_sub.
  rewrite sub_class_plus by lia. by apply collapse_ext.
Qed.

Lemma sanitize_safe s : sforall safe_char (sanitize s) = true.
Proof.
  unfold sanitize.
  enough (∀ run, sforall safe_char (collapse (λ c, negb (safe_char c)) "_" run s) = true) by done.
  induction s as [|c s IH]; intros run; [done|].
  cbn [collapse]. destruct (safe_char c) eqn:E; cbn [negb].
  - cbn [sforall]. by rewrite E, IH.
  - destruct run; [apply IH|]. change (sforall safe_char (String "_" (collapse
      (λ c, negb (safe_char c)) "_" true s)) = true). cbn [sforall]. by rewrite IH.
Qed.

Lemma str_or_safe s d : sforall safe_char s = true → sforall safe_char d = true →
  sforall safe_char (str_or s d) = true.
Proof. intros ? ?. unfold str_or. by destruct (s =? "")%string. Qed.

Lemma user_token_safe u : sforall safe_char (_sanitize_user_id u) = true.
Proof.
  unfold _sanitize_user_id. rewrite sanitize_sub.
  apply str_or_safe; [|reflexivity]. apply sforall_stake, sanitize_safe.
Qed.

Lemma version_token_safe i : sforall safe_char (runtime_image_version i) = true.
Proof.
  unfold runtime_image_version. rewrite !sanitize_sub.
  destruct (has_char _ _); [apply str_or_safe; [apply sforall_stake, sanitize_safe|reflexivity]|].
  destruct (rpartition _ _) as [[a b]|]; [|reflexivity].
  destruct (negb _); [|reflexivity]. apply str_or_safe; [|reflexivity].
  rewrite sanitize_sub. apply sanitize_safe.
Qed.

(** Two tokens before a hyphen are told apart by it. *)
Lemma startswith_token a b v :
  sforall safe_char a = true → sforall safe_char b = true →
  startswith (a +:+ "-") (b +:+ "-" +:+ v) = true ↔ a = b.
Proof.
  revert b. induction a as [|c a IH]; intros [|d b]; cbn.
  - done.
  - intros _ [Hd _]%andb_true_iff. split; [|done]. intros [E _]%andb_true_iff.
    apply Ascii.eqb_eq in E as <-. done.
  - intros [Hc _]%andb_true_iff _. split; [|done]. intros [E _]%andb_true_iff.
    apply Ascii.eqb_eq in E as ->. done.
  - intros [Hc Ha]%andb_true_iff [Hd Hb]%andb_true_iff. rewrite andb_true_iff, Ascii.eqb_eq, IH by done.
    split; [by intros [-> ->]|by intros [= -> ->]].
Qed.

Lemma app_token_inj a b v w :
  sforall safe_char a = true → sforall safe_char b = true →
  a +:+ "-" +:+ v = b +:+ "-" +:+ w → a = b ∧ v = w.
Proof.
  revert b. induction a as [|c a IH]; intros [|d b]; cbn.
  - intros _ _ [= ->]. done.
  - intros _ [Hd _]%andb_true_iff [= <- _]. done.
  - intros [Hc _]%andb_true_iff _ [= -> _]. done.
  - intros [_ Ha]%andb_true_iff [_ Hb]%andb_true_iff [= -> E]. by destruct (IH b Ha Hb E) as [-> ->].
Qed.

(** What a display name says: its user part, and, when it is a sandbox's, its image
    version, up to the sanitisation of both. The prefix of a user matches exactly the
    sandboxes and snapshots of the users with the same sanitised id, never a
    routine's; a snapshot's name gives back the sandbox's. *)
Theorem display_names_identify u v img img' :
  (startswith (_user_display_prefix u) (sandbox_display_name v img) = true ↔
     _sanitize_user_id u = _sanitize_user_id v) ∧
  (startswith (_user_display_prefix u)
       (sandbox_display_name v img +:+ SNAPSHOT_DISPLAY_SUFFIX) = true ↔
     _sanitize_user_id u = _sanitize_user_id v) ∧
  startswith (_user_display_prefix u) (routine_display_name v img) = false ∧
  (sandbox_display_name u img = sandbox_display_name v img' ↔
     _sanitize_user_id u = _sanitize_user_id v ∧
     runtime_image_version img = runtime_image_version img') ∧
  sandbox_display_name_from_snapshot (sandbox_display_name u img +:+ SNAPSHOT_DISPLAY_SUFFIX)
    = sandbox_display_name u img.
Proof.
  pose proof (user_token_safe u) as Hu. pose proof (user_token_safe v) as Hv.
  unfold sandbox_display_name, _user_display_prefix.
  split_and!.
  - rewrite <- !sapp_assoc. cbn -[_sanitize_user_id]. by apply startswith_token.
  - rewrite <- !sapp_assoc. cbn -[_sanitize_user_id]. by apply startswith_token.
  - done.
  - rewrite <- !sapp_assoc. split; [|by intros [-> ->]].
    intros E. apply (app_token_inj _ _ _ _ Hu Hv). by injection E.
  - unfold sandbox_display_name_from_snapshot, removesuffix.
    assert (∀ t q, endswith q (t +:+ q) = true) as ->.
    { intros t q. unfold endswith. rewrite slen_app. apply andb_true_iff.
      split; [apply Nat.leb_le; lia|]. rewrite Nat.add_sub, sdrop_app. apply String.eqb_refl. }
    rewrite slen_app, Nat.add_sub. apply stake_app.
Qed.

(** ** TTLs *)

Lemma span_digits p n u :
  sforall p n = true → match u with String c _ => p c = false | "" => True end →
  span p (n +:+ u) = (n, u).
Proof.
  intros Hn Hu. induction n as [|c n IH].
  - destruct u as [|c u]; [done|]. cbn. by rewrite Hu.
  - cbn in Hn |- *. apply andb_true_iff in Hn as [-> Hn]. by rewrite IH.
Qed.

Lemma class_icase c :
  set_has true [CClass is_decimal] c = is_decimal c ∧ set_has true [CClass is_space] c = is_space c ∧
  (is_decimal c = true → is_space c = false).
Proof.
  enough (forallb (λ n, let c := ascii_of_nat n in
    Bool.eqb (set_has true [CClass is_decimal] c) (is_decimal c) &&
    Bool.eqb (set_has true [CClass is_space] c) (is_space c) &&
    implb (is_decimal c) (negb (is_space c))) (seq 0 256) = true) as Hall.
  { rewrite forallb_elem in Hall. specialize (Hall (nat_of_ascii c)). cbv zeta in Hall.
    rewrite ascii_nat_embedding, !andb_true_iff in Hall.
    destruct Hall as [[H1 H2] H3]; [apply elem_of_seq; pose proof (nat_ascii_bounded c); lia|].
    split_and!; [by apply Bool.eqb_prop..|]. intros E. rewrite E in H3. by apply negb_true_iff. }
  vm_compute. reflexivity.
Qed.

Lemma ttl_match digits u :
  sforall is_decimal digits = true → digits ≠ "" → u ∈ ["s"; "m"; "h"; "d"]%char →
  ∃ m, re_match IGNORECASE _TTL_RE (digits +:+ s1 u) = Some m ∧
    group 1 m = Some digits ∧ group 2 m = Some (s1 u).
Proof.
  intros Hd Hne Hu.
  assert (is_decimal u = false ∧ is_space u = false) as [Hud Hus].
  { rewrite !elem_of_cons, elem_of_nil in Hu. destruct Hu as [-> | [-> | [-> | [-> | []]]]]; done. }
  set (end_ := MState (Some u) "" [(2, s1 u); (1, digits)]).
  enough (leads (rmatch IGNORECASE _TTL_RE (start_at None (digits +:+ s1 u))) end_) as [l Hl].
  { exists end_. unfold re_match. rewrite Hl. done. }
  assert (∀ s, span (set_has (f_icase IGNORECASE) [CClass is_space]) s = span is_space s) as Hsp.
  { intros s. apply span_ext. intros c. apply class_icase. }
  assert (∀ s, span (set_has (f_icase IGNORECASE) [CClass is_decimal]) s = span is_decimal s) as Hdp.
  { intros s. apply span_ext. intros c. apply class_icase. }
  destruct digits as [|d0 digits]; [done|].
  assert (is_space d0 = false) as Hd0.
  { apply class_icase. cbn in Hd. by apply andb_true_iff in Hd as [? _]. }
  set (ds := String d0 digits) in *.
  apply (seq_leads _ _ _ _ (start_at None (ds +:+ s1 u))); [by eexists|].
  eapply seq_leads.
  { apply (rep_set_leads _ 0 _ _ "" (ds +:+ s1 u)); [|cbn; lia].
    rewrite Hsp. cbn [m_rest start_at]. unfold ds. cbn. by rewrite Hd0. }
  cbn [m_prev m_caps start_at last_char].
  eapply seq_leads.
  { apply group_leads. eapply seq_leads; [|by eexists].
    apply (rep_set_leads _ 1 _ _ ds (s1 u)); [|cbn; lia].
    rewrite Hdp. by apply span_digits. }
  cbn [m_prev m_caps m_rest].
  eapply seq_leads.
  { apply (rep_set_leads _ 0 _ _ "" (s1 u)); [|cbn; lia].
    rewrite Hsp. cbn. by rewrite Hus. }
  cbn [m_prev m_caps m_rest last_char].
  rewrite slen_app, Nat.add_sub, stake_app.
  eapply seq_leads.
  { apply group_leads. eapply seq_leads; [|by eexists].
    exists []. cbn. rewrite !elem_of_cons, elem_of_nil in Hu.
    destruct Hu as [-> | [-> | [-> | [-> | []]]]]; reflexivity. }
  cbn [m_prev m_caps m_rest].
  eapply seq_leads; [apply (rep_set_leads _ 0 _ _ "" ""); [done|cbn; lia]|].
  eapply seq_leads; by eexists.
Qed.

(** A number and a unit give the seconds, as a Duration, which is itself accepted and
    left as it is. *)
Theorem normalize_ttl_seconds n u k :
  table_get _TTL_MULT (s1 u) = Some k →
  _normalize_ttl (str_of_N n +:+ s1 u) = Ok (str_of_Z (Z.of_N n * k) +:+ "s") ∧
  _normalize_ttl (str_of_Z (Z.of_N n * k) +:+ "s") = Ok (str_of_Z (Z.of_N n * k) +:+ "s").
Proof.
  intros Hk.
  assert (u ∈ ["s"; "m"; "h"; "d"]%char ∧ lower (s1 u) = s1 u ∧ (0 ≤ k)%Z) as (Hu & Hlow & Hpos).
  { unfold table_get, _TTL_MULT in Hk.
    repeat (match type of Hk with context [(s1 u =? ?t)%string] =>
      destruct (String.eqb_spec (s1 u) t) as [E|_]; [injection E as ->; simplify_eq;
        split_and!; [by repeat constructor|done|lia]|] end). done. }
  assert (∀ m v j, table_get _TTL_MULT (s1 v) = Some j → lower (s1 v) = s1 v →
    v ∈ ["s"; "m"; "h"; "d"]%char →
    _normalize_ttl (str_of_N m +:+ s1 v) = Ok (str_of_Z (Z.of_N m * j) +:+ "s")) as Hnorm.
  { intros m v j Hj Hlv Hv. destruct (str_of_N_digits m) as (Hd & Hval & Hne).
    destruct (ttl_match (str_of_N m) v Hd Hne Hv) as (st & Hm & H1 & H2).
    unfold _normalize_ttl. rewrite Hm, H1, H2.
    change (default "" (Some (str_of_N m))) with (str_of_N m).
    destruct (take_digits (str_of_N m) 0 0) as [[z i] r]. cbn in Hval. subst z.
    change (default "" (Some (s1 v))) with (s1 v). by rewrite Hlv, Hj. }
  split; [by apply Hnorm|].
  assert (str_of_Z (Z.of_N n * k) = str_of_N (Z.to_N (Z.of_N n * k))) as ->.
  { assert (0 ≤ Z.of_N n * k)%Z as Hz by lia. destruct (Z.of_N n * k)%Z; done. }
  change "s" with (s1 "s"). rewrite (Hnorm _ "s"%char 1%Z); [|done|done|by left].
  rewrite Z2N.id, Z.mul_1_r by lia. change (s1 "s") with "s".
  assert (0 ≤ Z.of_N n * k)%Z as Hz by lia. destruct (Z.of_N n * k)%Z; done.
Qed.

(** Of two candidates, the one created last; then the one of the lesser name. *)
Definition fresher (a b : candidate) : Prop :=
  str_leb b.1.1 a.1.1 = true ∧ (str_leb a.1.1 b.1.1 = true → str_leb a.1.2 b.1.2 = true).

Lemma newest_first_sorted l : StronglySorted fresher (_newest_first l).
Proof.
  unfold _newest_first, newest_first. apply (sort_by_lex (λ a b : candidate, str_leb b.1.1 a.1.1)
    (λ a b : candidate, str_leb a.1.2 b.1.2 = true)).
  - intros a b. apply str_leb_total.
  - intros a b c. intros H1 H2. by apply (str_leb_trans _ b.1.1).
  - apply (sort_by_total (λ a b : candidate, str_leb a.1.2 b.1.2)).
    + intros a b. apply str_leb_total.
    + intros a b c. apply str_leb_trans.
Qed.

Lemma newest_first_perm l : _newest_first l ≡ₚ l.
Proof. unfold _newest_first, newest_first. by rewrite !sort_by_perm. Qed.

Definition c_name (c : candidate) : string := c.1.2.

(** The order of the listing does not matter when resource names are distinct. *)
Lemma newest_first_unique l l' :
  l ≡ₚ l' → NoDup (map c_name l) → _newest_first l = _newest_first l'.
Proof.
  intros Hp Hnd. apply (StronglySorted_unique_strong fresher).
  - intros a b Ha Hb [H1 H2] [H3 H4].
    rewrite newest_first_perm in Ha. rewrite newest_first_perm, <- Hp in Hb.
    assert (c_name a = c_name b) as E by (apply str_leb_antisym; unfold c_name; auto).
    apply list_elem_of_lookup in Ha as [i Hi], Hb as [j Hj].
    assert (i = j) as ->; [|by simplify_eq].
    apply (NoDup_lookup (map c_name l) i j (c_name a)); [done|..];
      rewrite list_lookup_fmap; [by rewrite Hi|by rewrite Hj, E].
  - apply newest_first_sorted.
  - apply newest_first_sorted.
  - by rewrite !newest_first_perm.
Qed.

(** ** The listing loops *)

Lemma collect_perm {A} (f : obj → res (option A)) l l' cs :
  l ≡ₚ l' → collect f l = Ok cs → ∃ cs', collect f l' = Ok cs' ∧ cs ≡ₚ cs'.
Proof.
  intros Hp. revert cs. induction Hp as [|x l l' Hp IH|x y l|l1 l2 l3 H1 IH1 H2 IH2]; intros cs.
  - cbn. intros [= <-]. by exists [].
  - cbn. destruct (f x) as [a|]; cbn; [|done]. destruct (collect f l) as [r|]; cbn; [|done].
    intros [= <-]. destruct (IH r eq_refl) as (r' & -> & Hr). cbn. eexists. split; [done|].
    destruct a; by rewrite Hr.
  - cbn. destruct (f x) as [a|], (f y) as [b|]; cbn; try done.
    destruct (collect f l) as [r|]; cbn; [|done]. intros [= <-]. eexists. split; [done|].
    destruct a, b; try done. apply Permutation_swap.
  - intros Hc. destruct (IH1 cs Hc) as (cs2 & Hc2 & Hp2).
    destruct (IH2 cs2 Hc2) as (cs3 & Hc3 & Hp3). exists cs3. split; [done|]. by rewrite Hp2.
Qed.

(** The freshest sandbox of a user, whatever order the service lists them in: the
    candidate created last, and of those created at one time the one of the least
    resource name; [None] exactly when there is no candidate. Two instances that see
    the same sandboxes, in any order, agree. *)
Theorem find_latest_agrees {W} (cl : client W) agent user_id l cs w w' :
  sandboxes_list cl agent w = (Ok l, w') →
  collect (latest_candidate (_user_display_prefix user_id)) l = Ok cs →
  NoDup (map c_name cs) →
  ∃ r, find_latest_user_sandbox cl agent user_id w = (Ok r, w') ∧
    match r with
    | None => cs = []
    | Some (n, d) => ∃ t, (t, n, d) ∈ cs ∧ ∀ c, c ∈ cs → c ≠ (t, n, d) → fresher (t, n, d) c
    end ∧
    ∀ l2 w2 w2', sandboxes_list cl agent w2 = (Ok l2, w2') → l ≡ₚ l2 →
      find_latest_user_sandbox cl agent user_id w2 = (Ok r, w2').
Proof.
  intros Hl Hcs Hnd.
  set (pick := λ s : list candidate, match s with c :: _ => Some (c.1.2, c.2) | [] => None end).
  exists (pick (_newest_first cs)).
  split; [unfold find_latest_user_sandbox, bind, lift; by rewrite Hl, Hcs|]. split.
  - pose proof (newest_first_sorted cs) as Hs. pose proof (newest_first_perm cs) as Hp.
    destruct (_newest_first cs) as [|[[t n] d] m]; cbn.
    + by apply Permutation_nil in Hp.
    + exists t. split; [rewrite <- Hp; left|]. intros c Hc Hne. rewrite <- Hp in Hc.
      apply elem_of_cons in Hc as [->|Hc]; [done|].
      apply StronglySorted_inv in Hs as [_ Hs]. rewrite Forall_forall in Hs. by apply Hs.
  - intros l2 w2 w2' Hl2 Hperm. destruct (collect_perm _ _ _ _ Hperm Hcs) as (cs2 & Hcs2 & Hp2).
    unfold find_latest_user_sandbox, bind, lift. rewrite Hl2, Hcs2.
    by rewrite (newest_first_unique cs cs2).
Qed.

(** Pruning keeps the newest [keep] snapshots of the user: the names it returns are
    those of all the others, it has deleted each of them (a snapshot already gone is
    no failure), and every snapshot kept is fresher than every one deleted. *)
Theorem prune_keeps_newest {W} (cl : client W) `{ExcAttr} agent user_id keep l cs w w1 :
  (0 ≤ keep)%Z →
  snapshots_list cl agent w = (Ok l, w1) →
  collect (snapshot_candidate (_user_display_prefix user_id)) l = Ok cs →
  (∀ n v, ∃ v', snapshots_delete cl n v = (Ok tt, v') ∨
                ∃ e, snapshots_delete cl n v = (Raise e, v') ∧ _is_not_found e = true) →
  ∃ kept stale w2,
    prune_user_snapshots cl agent user_id keep w = (Ok (map c_name stale), w2) ∧
    delete_each cl (map c_name stale) w1 = (Ok tt, w2) ∧
    cs ≡ₚ kept ++ stale ∧
    Z.of_nat (length kept) = Z.min keep (Z.of_nat (length cs)) ∧
    ∀ a b, a ∈ kept → b ∈ stale → fresher a b.
Proof.
  intros Hkeep Hl Hcs Hdel.
  assert (∀ ns v, ∃ v', delete_each cl ns v = (Ok tt, v')) as Hall.
  { induction ns as [|n ns IH]; intros v; [by exists v|]. cbn. unfold bind, delete_snapshot, catch.
    destruct (Hdel n v) as (v' & [-> | (e & -> & He)]); [apply IH|]. rewrite He. apply IH. }
  set (k := Z.to_nat keep). set (s := _newest_first cs).
  destruct (Hall (map c_name (drop k s)) w1) as [w2 Hw2].
  exists (take k s), (drop k s), w2. split_and!.
  - unfold prune_user_snapshots, _user_snapshots, bind, lift, ret. rewrite Hl, Hcs.
    unfold slice_from. rewrite (proj2 (Z.leb_le 0 keep) Hkeep).
    change (map (λ c, c.1.2) (drop (Z.to_nat keep) (_newest_first cs))) with (map c_name (drop k s)).
    by rewrite Hw2.
  - done.
  - rewrite take_drop. subst s. by rewrite newest_first_perm.
  - rewrite length_take. subst s k. rewrite (Permutation_length (newest_first_perm cs)). lia.
  - intros a b Ha Hb. pose proof (newest_first_sorted cs) as Hs. fold s in Hs.
    rewrite <- (take_drop k s) in Hs. apply StronglySorted_app in Hs as (Hs & _ & _).
    by apply Hs.
Qed.

(** ** The provisioning banner and the reattach agree *)

Lemma exact_state_match want l ms cs rs :
  collect (exact_match want) l = Ok ms → collect (state_candidate want) l = Ok cs →
  ranked cs = Ok rs →
  (∀ o, o ∈ l → eq_str (getattr o "display_name") want = true →
     is_none (getattr o "state") = false) →
  ∀ n, n ∈ ms ↔ (0, n) ∈ rs.
Proof.
  intros Hms Hcs Hrs Hst n. revert ms cs rs Hms Hcs Hrs.
  induction l as [|o l IH]; intros ms cs rs; cbn [collect].
  { intros [= <-] [= <-]. cbn. intros [= <-]. by rewrite !elem_of_nil. }
  assert (∀ ms cs rs, collect (exact_match want) l = Ok ms →
    collect (state_candidate want) l = Ok cs → ranked cs = Ok rs → n ∈ ms ↔ (0, n) ∈ rs) as IH'.
  { intros ms' cs' rs'. apply IH. intros o' Ho'. apply Hst. by right. }
  clear IH. unfold exact_match at 1, state_candidate at 1.
  destruct (eq_str (getattr o "display_name") want) eqn:Ed; cbn [negb res_bind].
  2: { destruct (collect (exact_match want) l) as [ms'|]; cbn; [|done].
       destruct (collect (state_candidate want) l) as [cs'|]; cbn; [|done].
       intros [= <-] [= <-]. by apply IH'. }
  assert (is_none (getattr o "state") = false) as Hs by (apply Hst; [by left|done]).
  unfold named, _sandbox_is_running, _sandbox_state_name. rewrite Hs.
  set (st := or_else _ _).
  destruct (str_in "RUNNING" st) as [run|] eqn:Er; cbn [res_bind]; [|done].
  destruct (collect (exact_match want) l) as [ms'|] eqn:E1; cbn [res_bind]; [|done].
  destruct (collect (state_candidate want) l) as [cs'|] eqn:E2; cbn [res_bind]; [|done].
  destruct (truth (getattr o "name")).
  2: { intros [= <-] [= <-] Hr. specialize (IH' _ _ _ eq_refl eq_refl Hr). by destruct run. }
  intros [= <-] [= <-]. cbn [ranked]. unfold _rank. rewrite Er. cbn [res_bind].
  destruct run; cbn [res_bind].
  - destruct (ranked cs') as [rs'|] eqn:E3; cbn [res_bind]; [|done]. intros [= <-].
    specialize (IH' _ _ _ eq_refl eq_refl E3). rewrite !elem_of_cons, IH'. unfold id. naive_solver.
  - destruct (str_in "CREATING" st) as [c|]; cbn [res_bind]; [|done].
    destruct (if c then Ok true else str_in "PENDING" st) as [p|]; cbn [res_bind]; [|done].
    assert (∃ k, (if p then Ok 1 else let! error := str_in "ERROR" st in Ok (if error then 2 else 3)) = Ok (S k)
      ∨ ∃ e, (if p then Ok 1 else let! error := str_in "ERROR" st in Ok (if error then 2 else 3)) = Raise e)
      as [k [-> | [e ->]]].
    { destruct p; [by exists 0; left|]. destruct (str_in "ERROR" st) as [[]|e]; cbn;
        [by exists 1; left|by exists 2; left|exists 0; right; by exists e]. }
    2: done.
    cbn [res_bind]. destruct (ranked cs') as [rs'|] eqn:E3; cbn [res_bind]; [|done]. intros [= <-].
    specialize (IH' _ _ _ eq_refl eq_refl E3). rewrite elem_of_cons, IH'. naive_solver.
Qed.

Lemma rank_leb_spec a b :
  rank_leb a b = true ↔ a.1 < b.1 ∨ a.1 = b.1 ∧ str_leb a.2 b.2 = true.
Proof. unfold rank_leb. by rewrite orb_true_iff, andb_true_iff, Nat.ltb_lt, Nat.eqb_eq. Qed.

(** When every sandbox of the name reports a state, the banner says ready for a
    sandbox exactly when a reattach finds that very sandbox. *)
Theorem ready_is_reattachable {W} (cl : client W) agent user_id image_uri w l w' st found name :
  sandboxes_list cl agent w = (Ok l, w') →
  (∀ o, o ∈ l → eq_str (getattr o "display_name") (sandbox_display_name user_id image_uri) = true →
     is_none (getattr o "state") = false) →
  get_user_sandbox_state cl agent user_id image_uri w = (Ok st, w') →
  find_user_sandbox cl agent user_id image_uri w = (Ok found, w') →
  st = Some ("ready", name) ↔ found = Some name.
Proof.
  unfold get_user_sandbox_state, find_user_sandbox, find_by_display, bind, lift, ret.
  intros -> Hst. set (want := sandbox_display_name user_id image_uri) in *.
  destruct (collect (state_candidate want) l) as [cs|] eqn:Ec; [|done].
  destruct (ranked cs) as [rs|] eqn:Er; [|done]. intros [= <-].
  destruct (collect (exact_match want) l) as [ms|] eqn:Em; [|done]. intros [= <-].
  pose proof (exact_state_match want l ms cs rs Em Ec Er Hst) as Hiff.
  rewrite (sort_by_head str_leb) by
    (intros; (apply str_leb_total || eapply str_leb_trans || apply str_leb_antisym); eassumption).
  transitivity (head (sort_by rank_leb rs) = Some (0, name)).
  { destruct (sort_by rank_leb rs) as [|[[|[|[|k]]] n] m]; cbn; split; intros E; simplify_eq; done. }
  rewrite (sort_by_head rank_leb).
  - rewrite Hiff. split; intros [Hin Hmin]; (split; [done|]).
    + intros y Hy%Hiff. specialize (Hmin _ Hy). apply rank_leb_spec in Hmin as [?|[_ ?]]; [cbn in *; lia|done].
    + intros [[|k] y] Hy; apply rank_leb_spec; cbn [fst snd]; [|lia]. right. split; [done|].
      by apply Hmin, Hiff.
  - intros [a x] [b y]. rewrite !rank_leb_spec. cbn [fst snd].
    destruct (Nat.lt_trichotomy a b) as [?|[->|?]]; [by left; left| |by right; left].
    destruct (str_leb_total x y); [left|right]; by right.
  - intros [a x] [b y] [c z]. rewrite !rank_leb_spec. cbn [fst snd].
    intros [?|[-> H1]] [?|[-> H2]]; try (left; lia). right. split; [done|]. by eapply str_leb_trans.
  - intros [a x] [b y]. rewrite !rank_leb_spec. cbn [fst snd].
    intros [?|[-> H1]] [?|[E H2]]; try lia. f_equal. by apply str_leb_antisym.
Qed.

(** ** Concrete inputs *)

Definition demo_sandbox (name display state time : string) : obj :=
  OObj [("name", OStr name); ("display_name", OStr display); ("state", OStr state);
        ("create_time", OStr time)] "".

(** A service whose state is what it lists; deleting always succeeds. *)
Definition demo_client : client (list obj) :=
  let no {A} : res A := Raise (OtherError "ApiError" "not offered") in
  {| sandboxes_list _ w := (Ok w, w); sandboxes_get _ w := (no, w);
     sandboxes_create _ _ w := (no, w); sandboxes_delete _ w := (no, w);
     snapshots_list _ w := (Ok w, w); snapshots_create _ _ w := (no, w);
     snapshots_delete n w := (Ok tt, List.filter (λ o, negb (eq_str (getattr o "name") n)) w);
     templates_list _ w := (no, w); templates_get _ w := (no, w);
     templates_create _ _ _ w := (no, w); generate_access_token _ w := (no, w) |}.

Definition demo_listing : list obj :=
  [demo_sandbox "s/1" "lha-ann-v0_3_0" "STATE_RUNNING" "2026-01-01";
   demo_sandbox "s/2" "lha-ann-v0_3_1" "STATE_RUNNING" "2026-02-01";
   demo_sandbox "s/3" "lha-bob-v0_3_1" "STATE_CREATING" "2026-03-01"].

Lemma find_latest_agrees_witness :
  let cs := [("2026-01-01", "s/1", "lha-ann-v0_3_0"); ("2026-02-01", "s/2", "lha-ann-v0_3_1")] in
  ∃ r, find_latest_user_sandbox demo_client "e" "ann" demo_listing = (Ok r, demo_listing) ∧
    match r with
    | None => cs = []
    | Some (n, d) => ∃ t, (t, n, d) ∈ cs ∧ ∀ c, c ∈ cs → c ≠ (t, n, d) → fresher (t, n, d) c
    end ∧
    ∀ l2 w2 w2', sandboxes_list demo_client "e" w2 = (Ok l2, w2') → demo_listing ≡ₚ l2 →
      find_latest_user_sandbox demo_client "e" "ann" w2 = (Ok r, w2').
Proof.
  intros cs. apply (find_latest_agrees demo_client "e" "ann" demo_listing cs demo_listing demo_listing);
    [reflexivity|vm_compute; reflexivity|apply (bool_decide_unpack _); vm_compute; exact I].
Defined.

Lemma prune_keeps_newest_witness :
  let _ : ExcAttr := λ _ _, ONone in
  let cs := [("2026-01-01", "s/1", "lha-ann-v0_3_0"); ("2026-02-01", "s/2", "lha-ann-v0_3_1")] in
  ∃ kept stale w2,
    prune_user_snapshots demo_client "e" "ann" 1 demo_listing = (Ok (map c_name stale), w2) ∧
    delete_each demo_client (map c_name stale) demo_listing = (Ok tt, w2) ∧
    cs ≡ₚ kept ++ stale ∧
    Z.of_nat (length kept) = Z.min 1 (Z.of_nat (length cs)) ∧
    ∀ a b, a ∈ kept → b ∈ stale → fresher a b.
Proof.
  intros H cs. apply (prune_keeps_newest (H:=H) demo_client "e" "ann" 1 demo_listing cs
    demo_listing demo_listing); [lia|reflexivity|vm_compute; reflexivity|].
  intros n v. eexists. left. reflexivity.
Defined.

Lemma ready_is_reattachable_witness :
  Some ("ready", "s/2") = Some ("ready", "s/2") ↔ Some "s/2" = Some "s/2".
Proof.
  apply (ready_is_reattachable demo_client "e" "ann" "img:v0.3.1" demo_listing demo_listing
    demo_listing (Some ("ready", "s/2")) (Some "s/2") "s/2");
    [reflexivity| |vm_compute; reflexivity|vm_compute; reflexivity].
  intros o Ho _. repeat (apply elem_of_cons in Ho as [->|Ho]; [reflexivity|]).
  by apply elem_of_nil in Ho.
Defined.

Lemma normalize_ttl_seconds_witness :
  _normalize_ttl (str_of_N 14 +:+ s1 "d") = Ok (str_of_Z (14 * 86400) +:+ "s") ∧
  _normalize_ttl (str_of_Z (14 * 86400) +:+ "s") = Ok (str_of_Z (14 * 86400) +:+ "s").
Proof. apply (normalize_ttl_seconds 14 "d" 86400). reflexivity. Defined.

(** Two users whose ids differ only in what is sanitised share their sandbox. *)
Example sanitised_ids_collide img :
  sandbox_display_name "ann.lee@corp" img = sandbox_display_name "ann_lee_corp" img.
Proof. reflexivity. Qed.
