(* ===== verification/DbResilience.v ===== *)
(** * Database resilience: [infrastructure/db_resilience.py]

    Which exceptions mean that a connection died, the retry loop around them, and
    the settings of the connection pools. *)

From S2P Require Import Prelude PyStr PyVal.
From Stdlib Require Import QArith Qpower.

#[local] Open Scope nat_scope.

(** ** Exceptions of the drivers *)

(** An exception: the names of its class and of its base classes, the attribute
    [connection_invalidated] (when it has one), the attribute [orig], the message. *)
#[global] Unset Elimination Schemes.
Inductive dbexc := DbExc (mro : list string) (connection_invalidated : option bool)
  (orig : option dbexc) (msg : string).
#[global] Set Elimination Schemes.

Definition mro (e : dbexc) : list string := let '(DbExc m _ _ _) := e in m.
Definition connection_invalidated (e : dbexc) : option bool := let '(DbExc _ b _ _) := e in b.
Definition orig (e : dbexc) : option dbexc := let '(DbExc _ _ o _) := e in o.

(** [isinstance(e, classes)] *)
Definition isinstance (e : dbexc) (classes : list string) : bool :=
  existsb (λ c, bool_decide (c ∈ mro e)) classes.

(** Whether [asyncpg] can be imported in this installation. *)
Class Asyncpg := asyncpg_installed : bool.

Definition _transient_disconnect_types `{Asyncpg} : list string :=
  let types := ["ConnectionRefusedError"; "ConnectionResetError"] in
  if asyncpg_installed
  then ["asyncpg.ConnectionDoesNotExistError"; "asyncpg.InterfaceError";
        "asyncpg.ConnectionFailureError"] ++ types
  else types.

Definition sqlalchemy_types : list string :=
  ["sqlalchemy.DBAPIError"; "sqlalchemy.OperationalError"; "sqlalchemy.InterfaceError"].

Definition is_transient_disconnect `{Asyncpg} (e : dbexc) : bool :=
  if isinstance e sqlalchemy_types
     && (default false (connection_invalidated e)
         || match orig e with
            | Some o => isinstance o _transient_disconnect_types
            | None => false
            end)
  then true
  else isinstance e _transient_disconnect_types.

(** ** Pools *)

Definition _POOL_RECYCLE_SECONDS : Z := 1800.
Definition _CONNECT_TIMEOUT_SECONDS : Z := 10.
Definition _DEFAULT_POOL_SIZE : Z := 4.
Definition _DEFAULT_MAX_OVERFLOW : Z := 4.
Definition _DEFAULT_POOL_TIMEOUT_SECONDS : Z := 30.
Definition _POOLED_SQL_SCHEME_PREFIXES : list string := ["postgresql"; "postgres"].

(** [environ]: the environment variables. *)
Definition _env_int (environ : list (string * string)) (name : string) (dflt : Z) : Z :=
  match dget environ name with
  | None => dflt
  | Some raw =>
      match py_int (PStr raw) with
      | Ok value => if (0 <=? value)%Z then value else dflt
      | Raise _ => dflt
      end
  end.

Definition resilient_engine_kwargs (environ : list (string * string)) (pooled : bool) : pydict :=
  let kwargs := [("pool_pre_ping", PBool true); ("pool_recycle", PInt _POOL_RECYCLE_SECONDS);
                 ("connect_args", PDict [("timeout", PInt _CONNECT_TIMEOUT_SECONDS)])] in
  if pooled
  then kwargs ++
       [("pool_size", PInt (_env_int environ "LHA_DB_POOL_SIZE" _DEFAULT_POOL_SIZE));
        ("max_overflow", PInt (_env_int environ "LHA_DB_MAX_OVERFLOW" _DEFAULT_MAX_OVERFLOW));
        ("pool_timeout",
          PInt (_env_int environ "LHA_DB_POOL_TIMEOUT" _DEFAULT_POOL_TIMEOUT_SECONDS))]
  else kwargs.

(** [s.split(sep, 1)[0]] for a separator of several characters. *)
Fixpoint before_sub (sep s : string) : string :=
  if startswith sep s then ""
  else match s with "" => "" | String c s' => String c (before_sub sep s') end.

Definition is_pooled_sql_url (uri : option string) : bool :=
  match uri with
  | None => false
  | Some uri =>
      if (uri =? "")%string || negb (contains "://" uri) then false
      else bool_decide (before_first "+" (lower (before_sub "://" uri))
                        ∈ _POOLED_SQL_SCHEME_PREFIXES)
  end.

(** ** Retrying *)

(** What an attempt, and the loop, end with. *)
Inductive outcome (A : Type) :=
| Returned (a : A)
| Raised (e : dbexc)
| AssertionFailed.
Arguments Returned {A} a.
Arguments Raised {A} e.
Arguments AssertionFailed {A}.

Definition _DEFAULT_ATTEMPTS : Z := 3.
Definition _DEFAULT_BASE_DELAY : Q := 1 # 4.

Section Retry.
Context `{Asyncpg} {St A : Type}.
(** An operation on a state: it returns or raises, and changes the state. *)
Implicit Types op : St → (A + dbexc) * St.

(** [base_delay * 2 ** (attempt - 1)] *)
Definition backoff (base_delay : Q) (attempt : nat) : Q :=
  (base_delay * inject_Z (2 ^ Z.of_nat (attempt - 1)))%Q.

(** The loop, [n] attempts left, the next of number [attempt]; the delays it slept. *)
Fixpoint retry_loop op (base_delay : Q) (n attempt : nat) (last_exc : option dbexc) (s : St) :
    outcome A * St * list Q :=
  match n with
  | 0 => (match last_exc with Some e => Raised e | None => AssertionFailed end, s, [])
  | S n' =>
      match op s with
      | (inl a, s') => (Returned a, s', [])
      | (inr e, s') =>
          if negb (is_transient_disconnect e) then (Raised e, s', [])
          else if n' =? 0 then (Raised e, s', [])
          else let '(o, s'', ds) := retry_loop op base_delay n' (S attempt) (Some e) s' in
               (o, s'', backoff base_delay attempt :: ds)
      end
  end.

Definition retry_on_disconnect op (attempts : Z) (base_delay : Q) (s : St) :
    outcome A * St * list Q :=
  retry_loop op base_delay (Z.to_nat attempts) 1 None s.

(** [j] attempts in a row from [s] lose the connection and leave [s']. *)
Fixpoint disconnects op (j : nat) (s s' : St) : Prop :=
  match j with
  | 0 => s' = s
  | S j' => ∃ e s1, op s = (inr e, s1) ∧ is_transient_disconnect e = true ∧
      disconnects op j' s1 s'
  end.

(** A disconnection with attempts left leads to the next attempt. *)
Lemma retry_loop_next op base n k last s e s' :
  op s = (inr e, s') → is_transient_disconnect e = true → 0 < n →
  (retry_loop op base (S n) k last s).1 = (retry_loop op base n (S k) (Some e) s').1.
Proof.
  intros Hop He Hn. change (retry_loop op base (S n) k last s) with
    (match op s with
     | (inl a, s') => (Returned a, s', [])
     | (inr e, s') =>
         if negb (is_transient_disconnect e) then (Raised e, s', [])
         else if n =? 0 then (Raised e, s', [])
         else let '(o, s'', ds) := retry_loop op base n (S k) (Some e) s' in
              (o, s'', backoff base k :: ds)
     end).
  rewrite Hop, He. cbn [negb]. destruct (Nat.eqb_spec n 0); [lia|].
  by destruct (retry_loop op base n (S k) (Some e) s') as [[? ?] ?].
Qed.

(** An attempt that returns, or fails for good, ends the loop. *)
Lemma retry_loop_end op base n k last s r s' :
  op s = (r, s') → (∀ e, r = inr e → is_transient_disconnect e = false) →
  (retry_loop op base (S n) k last s).1 =
    (match r with inl a => Returned a | inr e => Raised e end, s').
Proof.
  intros Hop He. cbn [retry_loop]. rewrite Hop. destruct r as [a|e]; [done|]. by rewrite He.
Qed.

Definition delays (base_delay : Q) (first j : nat) : list Q :=
  map (backoff base_delay) (seq first j).

(** The loop runs through the disconnections and ends as the attempt after them does. *)
Lemma retry_loop_spec op base n k last s :
  0 < n →
  ∃ j s1, j < n ∧ disconnects op j s s1 ∧
    match op s1 with
    | (inl a, s') => retry_loop op base n k last s = (Returned a, s', delays base k j)
    | (inr e, s') => retry_loop op base n k last s = (Raised e, s', delays base k j) ∧
                     (is_transient_disconnect e = true → j = n - 1)
    end.
Proof.
  revert k last s. induction n as [|n IH]; intros k last s Hn; [lia|].
  cbn [retry_loop]. destruct (op s) as [[a|e] s2] eqn:Es.
  - exists 0, s. split; [lia|]. split; [done|]. by rewrite Es.
  - destruct (is_transient_disconnect e) eqn:Et; cbn [negb].
    2:{ exists 0, s. split; [lia|]. split; [done|]. rewrite Es. by split; [|congruence]. }
    destruct (Nat.eqb_spec n 0) as [-> |Hn0].
    { exists 0, s. split; [lia|]. split; [done|]. by rewrite Es. }
    destruct (IH (S k) (Some e) s2) as (j & s1 & Hj & Hd & Hres); [lia|].
    exists (S j), s1. split; [lia|]. split; [by exists e, s2|].
    change (delays base k (S j)) with (backoff base k :: delays base (S k) j).
    destruct (op s1) as [[a|e'] s']; [by rewrite Hres|].
    destruct Hres as [-> Hlast]. split; [done|]. intros E. specialize (Hlast E). lia.
Qed.

(** The time slept doubles with every attempt: [j] disconnections cost
    [base * (2 ^ j - 1)]. *)
Lemma delays_sum base j :
  (foldr Qplus 0 (delays base 1 j) == base * inject_Z (2 ^ Z.of_nat j - 1))%Q.
Proof.
  enough (∀ k, 1 ≤ k → foldr Qplus 0 (delays base k j) ==
    base * (inject_Z (2 ^ Z.of_nat (k - 1)) * inject_Z (2 ^ Z.of_nat j - 1)))%Q as Hk.
  { rewrite (Hk 1) by lia. change (inject_Z (2 ^ Z.of_nat (1 - 1))) with 1%Q. ring. }
  induction j as [|j IH]; intros k Hle; unfold delays; cbn [seq map foldr].
  { change (inject_Z (2 ^ Z.of_nat 0 - 1)) with 0%Q. ring. }
  fold (delays base (S k) j). rewrite IH by lia. unfold backoff.
  replace (S k - 1) with (S (k - 1)) by lia.
  rewrite !Nat2Z.inj_succ, !Z.pow_succ_r by lia.
  generalize (2 ^ Z.of_nat (k - 1))%Z (2 ^ Z.of_nat j)%Z. intros x y.
  unfold Z.sub. rewrite !inject_Z_plus, !inject_Z_mult, !inject_Z_opp. ring.
Qed.
End Retry.

(** With at least one attempt, the loop runs the operation again exactly while it loses
    the connection and attempts are left, and ends as the last run of it does: no result
    and no error is made up, an error that is no disconnection is raised at once, and a
    disconnection only after the last attempt. The state is the one the runs left, and [j]
    retries cost [base_delay * (2 ^ j - 1)] seconds of sleep. *)
Theorem retry_spec `{Asyncpg} {St A : Type} (op : St → (A + dbexc) * St) (attempts : Z)
    (base_delay : Q) (s : St) :
  (1 ≤ attempts)%Z →
  ∃ j s1 ds, (Z.of_nat j < attempts)%Z ∧ disconnects op j s s1 ∧
    (foldr Qplus 0 ds == base_delay * inject_Z (2 ^ Z.of_nat j - 1))%Q ∧ length ds = j ∧
    match op s1 with
    | (inl a, s') => retry_on_disconnect op attempts base_delay s = (Returned a, s', ds)
    | (inr e, s') => retry_on_disconnect op attempts base_delay s = (Raised e, s', ds) ∧
        (is_transient_disconnect e = true → Z.of_nat j = attempts - 1)%Z
    end.
Proof.
  intros Hn. destruct (retry_loop_spec op base_delay (Z.to_nat attempts) 1 None s)
    as (j & s1 & Hj & Hd & Hres); [lia|].
  exists j, s1, (delays base_delay 1 j). split; [lia|]. split; [done|].
  split; [apply delays_sum|]. split; [unfold delays; autorewrite with py; apply length_seq|].
  unfold retry_on_disconnect. destruct (op s1) as [[a|e] s']; [done|].
  destruct Hres as [Hr Hlast]. split; [done|]. intros E. specialize (Hlast E). lia.
Qed.

(** ** Concrete inputs *)

(** A connection that fails [k] times, then works. *)
Definition flaky (e : dbexc) (k : nat) : (nat + dbexc) * nat :=
  match k with 0 => (inl 7, 0) | S k' => (inr e, k') end.
Definition reset : dbexc := DbExc ["ConnectionResetError"; "OSError"] None None "reset by peer".

Lemma retry_spec_witness :
  let _ : Asyncpg := true in
  ((1 ≤ 3)%Z ∧
   ∃ j s1 ds, (Z.of_nat j < 3)%Z ∧ disconnects (flaky reset) j 2 s1 ∧
    (foldr Qplus 0 ds == _DEFAULT_BASE_DELAY * inject_Z (2 ^ Z.of_nat j - 1))%Q ∧ length ds = j ∧
    match flaky reset s1 with
    | (inl a, s') => retry_on_disconnect (flaky reset) 3 _DEFAULT_BASE_DELAY 2 = (Returned a, s', ds)
    | (inr e, s') => retry_on_disconnect (flaky reset) 3 _DEFAULT_BASE_DELAY 2 = (Raised e, s', ds) ∧
        (is_transient_disconnect e = true → Z.of_nat j = 3 - 1)%Z
    end) ∧
  retry_on_disconnect (flaky reset) 3 _DEFAULT_BASE_DELAY 2
    = (Returned 7, 0, [(1 # 4) * 1; (1 # 4) * 2]%Q) ∧
  (retry_on_disconnect (flaky reset) 3 _DEFAULT_BASE_DELAY 3).1.1 = Raised reset.
Proof.
  intros inst. split; [split; [lia|]|split; reflexivity].
  exact (@retry_spec inst nat nat (flaky reset) 3 _DEFAULT_BASE_DELAY 2 ltac:(lia)).
Defined.
