(* ===== verification/RoutineStore.v ===== *)
(** * Routine schedules: [scheduler/routine_store.py], [scheduler/cron.py]

    The rows of scheduled routines, what a store of them promises (an abstract store
    over a finite map, and an interface stated against it), and the store in memory. *)

From S2P Require Import Prelude PyStr Names PyVal Sorting.
From stdpp Require Import sorting.

(** ** Cron expressions

    [croniter] is a library: [croniter.is_valid], and [get_next] from a base time. Times
    are aware datetimes, as microseconds since the epoch. *)

Class Croniter := {
  croniter_is_valid : string → bool;
  croniter_get_next : string → Z → res Z;
}.

(** The exceptions of [except ValueError]; croniter's own are subclasses. *)
Definition is_value_error (e : exc) : bool :=
  match e with ValueError _ => true | _ => false end.

(** Documented: [get_next] is a date after the base, or raises an error of the library,
    which is a [ValueError]. *)
Class CroniterLaws `{Croniter} : Prop := {
  get_next_after s t t' : croniter_get_next s t = Ok t' → (t < t')%Z;
  get_next_raises s t e : croniter_get_next s t = Raise e → is_value_error e = true;
}.

Definition is_valid_cron `{Croniter} (schedule : string) : bool :=
  negb (schedule =? "")%string && croniter_is_valid schedule.

Definition next_cron_fire `{Croniter} (schedule : string) (after : Z) : res Z :=
  if negb (is_valid_cron schedule)
  then Raise (ValueError ("invalid cron schedule: " +:+ repr_str schedule))
  else croniter_get_next schedule after.

(** ** Rows *)

Record RoutineRow := Row {
  id : string;
  user_id : string;
  app_name : string;
  schedule : string;
  task : string;
  secrets : list pyval;
  delivery : string;
  next_fire_at : Z;
  created_at : Z;
}.

(** [replace(row, id=rid)], [replace(row, next_fire_at=t)] and the same for [created_at] *)
Definition with_id (rid : string) (r : RoutineRow) : RoutineRow :=
  Row rid (user_id r) (app_name r) (schedule r) (task r) (secrets r) (delivery r)
    (next_fire_at r) (created_at r).
Definition with_fire (t : Z) (r : RoutineRow) : RoutineRow :=
  Row (id r) (user_id r) (app_name r) (schedule r) (task r) (secrets r) (delivery r)
    t (created_at r).
Definition with_created (t : Z) (r : RoutineRow) : RoutineRow :=
  Row (id r) (user_id r) (app_name r) (schedule r) (task r) (secrets r) (delivery r)
    (next_fire_at r) t.

(** ** The store in memory *)

(** [self._rows], a dict: in insertion order. *)
Definition rows : Type := list (string * RoutineRow).

Definition row_id (fresh : string) (row : RoutineRow) : string :=
  if (id row =? "")%string then fresh else id row.

(** [fresh]: the [uuid4] drawn for a row without an id. *)
Definition add (fresh : string) (row : RoutineRow) (st : rows) : string * rows :=
  let rid := row_id fresh row in
  match dget st rid with
  | None => (rid, dset st rid (with_id rid row))
  | Some existing =>
      if (user_id existing =? user_id row)%string
      then (rid, dset st rid (with_id rid row)) else (rid, st)
  end.

(** The loop of [claim_due] over the items listed first. *)
Fixpoint claim_loop `{Croniter} (cursor : Z) (items : rows) (st : rows) (claimed : list RoutineRow) :
    res (list RoutineRow) * rows :=
  match items with
  | [] => (Ok claimed, st)
  | (rid, row) :: items' =>
      if (next_fire_at row <=? cursor)%Z then
        let claimed' := claimed ++ [row] in
        match next_cron_fire (schedule row) cursor with
        | Ok nxt => claim_loop cursor items' (dset st rid (with_fire nxt row)) claimed'
        | Raise e =>
            if is_value_error e then claim_loop cursor items' (ddel st rid) claimed'
            else (Raise e, st)
        end
      else claim_loop cursor items' st claimed
  end.

Definition claim_due `{Croniter} (cursor : Z) (st : rows) : res (list RoutineRow) * rows :=
  claim_loop cursor st st [].

Definition owned_by (user : string) (r : RoutineRow) : bool := (user_id r =? user)%string.
Definition fires_before (a b : RoutineRow) : bool := (next_fire_at a <=? next_fire_at b)%Z.

Definition list_for_user (user : string) (st : rows) : list RoutineRow :=
  sort_by fires_before (List.filter (owned_by user) (map snd st)).

Definition cancel (routine_id user : string) (st : rows) : bool * rows :=
  match dget st routine_id with
  | None => (false, st)
  | Some row =>
      if negb (user_id row =? user)%string then (false, st) else (true, ddel st routine_id)
  end.

(** ** Building the store *)

Inductive backend (M P : Type) := Memory (m : M) | Postgres (p : P).
Arguments Memory {M P} m.
Arguments Postgres {M P} p.

(** [strip().lower()] of [LHA_ROUTINE_STORE]; [build_pg] is the constructor of the
    Postgres store, [current] the module's [_singleton]. *)
Definition get_routine_store {P} (environ : list (string * string)) (build_pg : res P)
    (current : option (backend rows P)) : res (backend rows P) * option (backend rows P) :=
  match current with
  | Some s => (Ok s, current)
  | None =>
      let name := lower (strip (default "memory" (dget environ "LHA_ROUTINE_STORE"))) in
      if (name =? "postgres")%string then
        match build_pg with
        | Ok p => (Ok (Postgres p), Some (Postgres p))
        | Raise e => (Raise e, None)
        end
      else if (name =? "memory")%string then (Ok (Memory []), Some (Memory []))
      else (Raise (ValueError ("unknown LHA_ROUTINE_STORE=" +:+ repr_str name
                               +:+ "; expected 'memory' or 'postgres'")), None)
  end.

Definition reset_routine_store {P} : option (backend rows P) := None.
Definition active_routine_store {P} (current : option (backend rows P)) := current.

(** ** The abstract store

    A finite map from ids to rows. A row's [created_at] is no part of it: the two stores
    treat it differently when a routine is edited in place. *)

Abbreviation table := (gmap string RoutineRow).

Definition norm : RoutineRow → RoutineRow := with_created 0.
Definition values (m : table) : list RoutineRow := map snd (map_to_list m).

Definition due (cursor : Z) (r : RoutineRow) : bool := (next_fire_at r <=? cursor)%Z.
Definition schedulable `{Croniter} (cursor : Z) (r : RoutineRow) : bool :=
  match next_cron_fire (schedule r) cursor with Ok _ => true | Raise _ => false end.

Definition spec_add (rid : string) (row : RoutineRow) (m : table) : table :=
  match m !! rid with
  | Some old => if owned_by (user_id row) old then <[rid := norm (with_id rid row)]> m else m
  | None => <[rid := norm (with_id rid row)]> m
  end.

(** A due row moves to its next date, or is dropped when it has none. *)
Definition advance `{Croniter} (cursor : Z) (r : RoutineRow) : option RoutineRow :=
  if due cursor r then
    match next_cron_fire (schedule r) cursor with
    | Ok nxt => Some (with_fire nxt r)
    | Raise _ => None
    end
  else Some r.
Definition spec_claim `{Croniter} (cursor : Z) (m : table) : table := omap (advance cursor) m.

Definition spec_cancel (rid user : string) (m : table) : bool * table :=
  match m !! rid with
  | Some r => if owned_by user r then (true, delete rid m) else (false, m)
  | None => (false, m)
  end.

(** ** The interface

    The protocol [RoutineStore]: four operations on a state, each of which may raise. *)

Class StoreOps (St : Type) := {
  s_add : string → RoutineRow → St → res string * St;
  s_claim_due : Z → St → res (list RoutineRow) * St;
  s_list_for_user : string → St → res (list RoutineRow) * St;
  s_cancel : string → string → St → res bool * St;
}.

(** What a store promises: its state stands for an abstract store, and each operation
    succeeds, answers from that store and moves it as specified. [hands_out_dropped]: a
    due row that has no next date is handed out once more before it is dropped;
    [accepts]: the rows it can hold. *)
Class StoreLaws `{Croniter} (St : Type) `{StoreOps St} (hands_out_dropped : bool) := {
  view : St → table;
  inv : St → Prop;
  accepts : RoutineRow → Prop;
  add_law fresh row s : inv s → accepts row →
    ∃ s', s_add fresh row s = (Ok (row_id fresh row), s') ∧ inv s' ∧
      view s' = spec_add (row_id fresh row) row (view s);
  claim_law cursor s : inv s →
    ∃ rs s', s_claim_due cursor s = (Ok rs, s') ∧ inv s' ∧
      view s' = spec_claim cursor (view s) ∧
      map norm rs ≡ₚ List.filter (λ r, due cursor r && (hands_out_dropped || schedulable cursor r))
                       (values (view s));
  list_law user s : inv s →
    ∃ rs s', s_list_for_user user s = (Ok rs, s') ∧ inv s' ∧ view s' = view s ∧
      map norm rs ≡ₚ List.filter (owned_by user) (values (view s)) ∧
      StronglySorted (λ a b, fires_before a b = true) rs;
  cancel_law rid user s : inv s →
    ∃ s', s_cancel rid user s = (Ok (spec_cancel rid user (view s)).1, s') ∧ inv s' ∧
      view s' = (spec_cancel rid user (view s)).2;
}.

#[global] Instance memory_ops `{Croniter} : StoreOps rows := {
  s_add fresh row st := (Ok (add fresh row st).1, (add fresh row st).2);
  s_claim_due := claim_due;
  s_list_for_user user st := (Ok (list_for_user user st), st);
  s_cancel rid user st := (Ok (cancel rid user st).1, (cancel rid user st).2);
}.

(** ** Histories *)

Inductive event :=
| EAdd (fresh : string) (row : RoutineRow)
| EClaim (cursor : Z)
| EListFor (user : string)
| ECancel (rid user : string).

Inductive answer :=
| AId (r : res string)
| AClaimed (r : res (list RoutineRow))
| AListed (r : res (list RoutineRow))
| ADone (r : res bool).

Definition perform {St} `{StoreOps St} (e : event) (s : St) : answer * St :=
  match e with
  | EAdd fresh row => let '(r, s') := s_add fresh row s in (AId r, s')
  | EClaim cursor => let '(r, s') := s_claim_due cursor s in (AClaimed r, s')
  | EListFor user => let '(r, s') := s_list_for_user user s in (AListed r, s')
  | ECancel rid user => let '(r, s') := s_cancel rid user s in (ADone r, s')
  end.

Fixpoint run {St} `{StoreOps St} (es : list event) (s : St) : list answer * St :=
  match es with
  | [] => ([], s)
  | e :: es' => let '(a, s1) := perform e s in let '(l, s2) := run es' s1 in (a :: l, s2)
  end.

(** The rows of a history are rows the store can hold. *)
Definition sound_event `{StoreLaws St handed} (e : event) : Prop :=
  match e with EAdd _ row => accepts row | _ => True end.

Definition spec_step `{Croniter} (e : event) (m : table) : table :=
  match e with
  | EAdd fresh row => spec_add (row_id fresh row) row m
  | EClaim cursor => spec_claim cursor m
  | EListFor _ => m
  | ECancel rid user => (spec_cancel rid user m).2
  end.

Definition spec_answer `{Croniter} (handed : bool) (e : event) (m : table) (a : answer) : Prop :=
  match e, a with
  | EAdd fresh row, AId r => r = Ok (row_id fresh row)
  | EClaim cursor, AClaimed r => ∃ rs, r = Ok rs ∧
      map norm rs ≡ₚ List.filter (λ x, due cursor x && (handed || schedulable cursor x)) (values m)
  | EListFor user, AListed r => ∃ rs, r = Ok rs ∧
      map norm rs ≡ₚ List.filter (owned_by user) (values m) ∧
      StronglySorted (λ a b, fires_before a b = true) rs
  | ECancel rid user, ADone r => r = Ok (spec_cancel rid user m).1
  | _, _ => False
  end.

Fixpoint spec_run `{Croniter} (handed : bool) (es : list event) (m : table)
    (l : list answer) (m' : table) : Prop :=
  match es, l with
  | [], [] => m' = m
  | e :: es', a :: l' => spec_answer handed e m a ∧ spec_run handed es' (spec_step e m) l' m'
  | _, _ => False
  end.

(** * Facts *)

(** ** Any store of the interface *)

Section Interface.
Context {St : Type} {handed : bool} `{StoreLaws St handed}.

Lemma perform_spec e s : inv s → sound_event e →
  let '(a, s') := perform e s in
  inv s' ∧ view s' = spec_step e (view s) ∧ spec_answer handed e (view s) a.
Proof.
  intros Hi He. destruct e as [fresh row|cursor|user|rid user]; cbn [perform].
  - destruct (add_law fresh row s Hi He) as (s' & -> & ? & ?). done.
  - destruct (claim_law cursor s Hi) as (rs & s' & -> & ? & ? & ?). split_and!; [done..|]. by exists rs.
  - destruct (list_law user s Hi) as (rs & s' & -> & ? & ? & ? & ?). split_and!; [done..|]. by exists rs.
  - destruct (cancel_law rid user s Hi) as (s' & -> & ? & ?). done.
Qed.

Lemma run_spec es s : inv s → Forall sound_event es →
  let '(l, s') := run es s in inv s' ∧ spec_run handed es (view s) l (view s').
Proof.
  intros Hi He. revert s Hi. induction He as [|e es He _ IH]; intros s Hi; cbn [run]; [done|].
  pose proof (perform_spec e s Hi He) as Hp. destruct (perform e s) as [a s1].
  destruct Hp as (Hi1 & Hv & Ha). specialize (IH s1 Hi1).
  destruct (run es s1) as [l s2]. destruct IH as [? Hr]. cbn [spec_run]. by rewrite <- Hv.
Qed.
End Interface.

(** ** The rows of an abstract store *)

Lemma elem_of_values (m : table) r : r ∈ values m ↔ ∃ k, m !! k = Some r.
Proof.
  unfold values. rewrite list_elem_of_fmap. split.
  - intros ([k r'] & -> & Hk). exists k. by apply elem_of_map_to_list.
  - intros [k Hk]. exists (k, r). split; [done|]. by apply elem_of_map_to_list.
Qed.

Lemma spec_claim_lookup `{Croniter} cursor m k :
  spec_claim cursor m !! k = m !! k ≫= advance cursor.
Proof. apply lookup_omap. Qed.

(** No row of an abstract store is due right after a claim. *)
Lemma claimed_not_due `{CroniterLaws} cursor m k r :
  spec_claim cursor m !! k = Some r → due cursor r = false.
Proof.
  rewrite spec_claim_lookup. intros (r0 & Hr0 & Ha)%bind_Some.
  unfold advance, next_cron_fire in Ha. destruct (due cursor r0) eqn:Ed; [|congruence].
  destruct (negb (is_valid_cron (schedule r0))); [done|].
  destruct (croniter_get_next _ _) eqn:E; [|done]. simplify_eq. apply get_next_after in E.
  unfold due. cbn. apply Z.leb_gt. lia.
Qed.

(** ** The store in memory *)

Section Memory.
Context `{CroniterLaws}.

Definition mem_view (st : rows) : table := norm <$> (list_to_map st : table).
Definition mem_inv (st : rows) : Prop := NoDup (keys st).

Lemma list_to_map_dget (st : rows) k : (list_to_map st : table) !! k = dget st k.
Proof.
  induction st as [|[k' r] st IH]; [done|]. rewrite list_to_map_cons. cbn [dget].
  destruct (String.eqb_spec k k') as [-> |Hne].
  - by rewrite lookup_insert_eq.
  - by rewrite lookup_insert_ne.
Qed.

Lemma mem_view_lookup st k : mem_view st !! k = norm <$> dget st k.
Proof. unfold mem_view. by rewrite lookup_fmap, list_to_map_dget. Qed.

Lemma mem_values st : mem_inv st → values (mem_view st) ≡ₚ map norm (map snd st).
Proof.
  intros Hi. unfold values, mem_view. rewrite map_to_list_fmap, map_to_list_to_map by done.
  by rewrite !list_fmap_map || idtac; rewrite !map_map.
Qed.

Lemma filter_norm (p : RoutineRow → bool) l : (∀ r, p (norm r) = p r) →
  List.filter p (map norm l) = map norm (List.filter p l).
Proof.
  intros Hp. induction l as [|r l IH]; [done|]. cbn. rewrite Hp. by destruct (p r); cbn; rewrite IH.
Qed.

Lemma next_raises sch c e : next_cron_fire sch c = Raise e → is_value_error e = true.
Proof.
  unfold next_cron_fire. destruct (negb _); [by intros [= <-]|]. apply get_next_raises.
Qed.

(** The loop hands out the due items, and moves or drops exactly their rows. *)
Lemma claim_loop_spec cursor items st claimed :
  NoDup (keys items) → NoDup (keys st) →
  ∃ st', claim_loop cursor items st claimed =
      (Ok (claimed ++ List.filter (due cursor) (map snd items)), st') ∧ NoDup (keys st') ∧
    ∀ k, dget st' k = match dget items k with
                      | Some r => if due cursor r then advance cursor r else dget st k
                      | None => dget st k
                      end.
Proof.
  revert st claimed. induction items as [|[rid row] items IH]; intros st claimed Hn Hs.
  { exists st. cbn. by rewrite app_nil_r. }
  apply NoDup_cons in Hn as [Hrid Hn]. cbn [claim_loop keys map fst snd List.filter] in *.
  fold (due cursor row). assert (dget items rid = None) as Hnone by by apply dget_None.
  assert (∀ k, dget ((rid, row) :: items) k = if (k =? rid)%string then Some row else dget items k)
    as Hget by done.
  destruct (due cursor row) eqn:Ed.
  2:{ destruct (IH st claimed Hn Hs) as (st' & E & Hs' & Hk). exists st'.
      split; [done|]. split; [done|]. intros k. rewrite Hk, Hget.
      destruct (String.eqb_spec k rid) as [-> |]; [|done]. by rewrite Hnone, Ed. }
  destruct (next_cron_fire (schedule row) cursor) as [nxt|e] eqn:En.
  - destruct (IH (dset st rid (with_fire nxt row)) (claimed ++ [row]) Hn
      ltac:(by apply NoDup_keys_dset)) as (st' & -> & Hs' & Hk).
    exists st'. split; [by rewrite <- app_assoc|]. split; [done|]. intros k. rewrite Hk, Hget.
    destruct (String.eqb_spec k rid) as [-> |Hne].
    + rewrite Hnone, Ed, dget_dset_eq. unfold advance. by rewrite Ed, En.
    + by rewrite dget_dset_ne.
  - rewrite (next_raises _ _ _ En).
    destruct (IH (ddel st rid) (claimed ++ [row]) Hn
      ltac:(by apply NoDup_keys_ddel)) as (st' & -> & Hs' & Hk).
    exists st'. split; [by rewrite <- app_assoc|]. split; [done|]. intros k. rewrite Hk, Hget.
    destruct (String.eqb_spec k rid) as [-> |Hne].
    + rewrite Hnone, Ed, dget_ddel_eq by done. unfold advance. by rewrite Ed, En.
    + by rewrite dget_ddel_ne.
Qed.

Lemma claim_due_spec cursor st : mem_inv st →
  ∃ st', claim_due cursor st = (Ok (List.filter (due cursor) (map snd st)), st') ∧ mem_inv st' ∧
    ∀ k, dget st' k = dget st k ≫= advance cursor.
Proof.
  intros Hi. destruct (claim_loop_spec cursor st st [] Hi Hi) as (st' & E & Hi' & Hk).
  exists st'. split; [done|]. split; [done|]. intros k. rewrite Hk.
  destruct (dget st k) as [r|]; [cbn|done]. unfold advance. by destruct (due cursor r).
Qed.

#[export] Instance memory_laws : StoreLaws rows true.
Proof.
  refine (Build_StoreLaws _ _ _ _ mem_view mem_inv (λ _, True) _ _ _ _); cbn.
  - intros fresh row st Hi _. unfold add. set (rid := row_id fresh row).
    unfold spec_add. rewrite mem_view_lookup.
    assert (∀ v, mem_inv (dset st rid v) ∧ mem_view (dset st rid v) = <[rid := norm v]> (mem_view st)) as Hset.
    { intros v. split; [by apply NoDup_keys_dset|]. apply map_eq. intros k.
      rewrite mem_view_lookup. destruct (decide (rid = k)) as [<- |Hne].
      - by rewrite lookup_insert_eq, dget_dset_eq.
      - by rewrite lookup_insert_ne, mem_view_lookup, dget_dset_ne. }
    destruct (dget st rid) as [old|] eqn:Eo; cbn.
    + unfold owned_by. cbn. destruct (String.eqb_spec (user_id old) (user_id row)); cbn.
      * exists (dset st rid (with_id rid row)). by destruct (Hset (with_id rid row)).
      * by exists st.
    + exists (dset st rid (with_id rid row)). by destruct (Hset (with_id rid row)).
  - intros cursor st Hi. destruct (claim_due_spec cursor st Hi) as (st' & E & Hi' & Hk).
    exists (List.filter (due cursor) (map snd st)), st'. split; [done|]. split; [done|]. split.
    + apply map_eq. intros k. rewrite spec_claim_lookup, !mem_view_lookup, Hk.
      destruct (dget st k) as [r|]; [cbn|done]. unfold advance. cbn.
      change (due cursor (norm r)) with (due cursor r).
      destruct (due cursor r); [|done]. by destruct (next_cron_fire _ _).
    + rewrite mem_values, filter_norm by done. f_equiv.
      rewrite (List.filter_ext (λ r, due cursor r && (true || schedulable cursor r)) (due cursor));
        [done|]. intros r. by destruct (due cursor r).
  - intros user st Hi. exists (list_for_user user st), st. split; [done|]. split; [done|].
    split; [done|]. unfold list_for_user. split.
    + rewrite sort_by_perm, mem_values by done. by rewrite filter_norm.
    + apply sort_by_total; unfold fires_before.
      * intros a b. rewrite !Z.leb_le. lia.
      * intros a b c. rewrite !Z.leb_le. lia.
  - intros rid user st Hi. unfold cancel, spec_cancel. rewrite mem_view_lookup.
    destruct (dget st rid) as [r|] eqn:Er; cbn; [|by exists st].
    unfold owned_by. cbn. destruct (String.eqb_spec (user_id r) user); cbn; [|by exists st].
    exists (ddel st rid). split; [done|]. split; [by apply NoDup_keys_ddel|].
    apply map_eq. intros k. rewrite mem_view_lookup.
    destruct (decide (rid = k)) as [<- |Hne].
    + rewrite lookup_delete_eq, dget_ddel_eq by done. done.
    + by rewrite lookup_delete_ne, mem_view_lookup, dget_ddel_ne.
Defined.
End Memory.

(** ** What every store guarantees *)

Section Guarantees.
Context `{CroniterLaws} {St : Type} {handed : bool} `{!StoreOps St} `{L : !StoreLaws St handed}.

(** The rows handed out along a history, by id and due date. *)
Definition handed_out (l : list answer) : list (string * Z) :=
  flat_map (λ a, match a with
                 | AClaimed (Ok rs) => map (λ r, (id r, next_fire_at r)) rs
                 | _ => []
                 end) l.

Definition keyed (m : table) : Prop := ∀ k r, m !! k = Some r → id r = k.
Definition is_add (e : event) : bool := match e with EAdd _ _ => true | _ => false end.

Lemma keyed_step e m : keyed m → keyed (spec_step e m).
Proof.
  intros Hk. assert (∀ rid row, keyed (<[rid := norm (with_id rid row)]> m)) as Hadd.
  { intros rid row k r. rewrite lookup_insert. case_decide as E; [|by apply Hk].
    by intros [= <-]. }
  destruct e as [fresh row|cursor|user|rid user]; cbn [spec_step]; [..|done|].
  - unfold spec_add. destruct (m !! _) as [old|]; [destruct (owned_by _ _)|]; auto.
  - intros k r. rewrite spec_claim_lookup. intros (r0 & Hr0 & Ha)%bind_Some.
    rewrite <- (Hk k r0 Hr0). unfold advance in Ha.
    destruct (due cursor r0); [destruct (next_cron_fire _ _)|]; by simplify_eq.
  - unfold spec_cancel. destruct (m !! rid) as [r|]; [destruct (owned_by user r)|]; cbn; try done.
    intros k r'. rewrite lookup_delete. case_decide; [done|]. apply Hk.
Qed.

(** A row moves forward only: along an event that adds nothing, the date of a row that
    stays does not decrease. *)
Lemma fire_monotone e m k r' : is_add e = false → spec_step e m !! k = Some r' →
  ∃ r, m !! k = Some r ∧ (next_fire_at r ≤ next_fire_at r')%Z.
Proof.
  destruct e as [fresh row|cursor|user|rid user]; cbn [is_add spec_step]; intros Ha; [done|..].
  - intros Hr'. pose proof (claimed_not_due _ _ _ _ Hr') as Hd. rewrite spec_claim_lookup in Hr'.
    apply bind_Some in Hr' as (r & Hr & Hadv). exists r. split; [done|]. unfold advance in Hadv.
    destruct (due cursor r) eqn:Ed; [|by simplify_eq]. unfold due in *. bool_prop. lia.
  - intros Hr. by exists r'.
  - unfold spec_cancel. destruct (m !! rid) as [r|] eqn:Er; [destruct (owned_by user r)|]; cbn; [|intros ?; by exists r'..].
    rewrite lookup_delete. case_decide; [done|]. intros ?. by exists r'.
Qed.

(** What a claim hands out is in the store, and due. *)
Lemma claim_hands_out cursor m rs x : keyed m →
  map norm rs ≡ₚ List.filter (λ r, due cursor r && (handed || schedulable cursor r)) (values m) →
  x ∈ map (λ r, (id r, next_fire_at r)) rs →
  ∃ r, m !! x.1 = Some r ∧ next_fire_at r = x.2 ∧ due cursor r = true.
Proof.
  intros Hk Hp (r & -> & Hr)%list_elem_of_fmap. cbn [fst snd].
  assert (norm r ∈ map norm rs) as Hn by (apply list_elem_of_fmap; eauto).
  rewrite Hp, list_elem_of_In, List.filter_In, <- list_elem_of_In, elem_of_values in Hn.
  destruct Hn as [[k Hm] Hd]. bool_prop. pose proof (Hk _ _ Hm) as E. cbn in E. subst k.
  by exists (norm r).
Qed.

Lemma claimed_ids cursor m rs : keyed m →
  map norm rs ≡ₚ List.filter (λ r, due cursor r && (handed || schedulable cursor r)) (values m) →
  NoDup (map id rs).
Proof.
  intros Hk Hp. replace (map id rs) with (map id (map norm rs)) by (by rewrite map_map).
  rewrite Hp. assert (map id (values m) = (map_to_list m).*1) as E.
  { unfold values. rewrite map_map. apply list_fmap_ext. intros i [k r] Hi.
    apply list_elem_of_lookup_2, elem_of_map_to_list in Hi. cbn. by apply Hk. }
  assert (NoDup (map id (values m))) as Hnd by (rewrite E; apply NoDup_fst_map_to_list).
  clear Hp E. induction (values m) as [|r l IH]; [constructor|]. cbn [List.filter map] in *.
  apply NoDup_cons in Hnd as [Hr Hnd]. destruct (_ && _); cbn [map]; [|by apply IH].
  constructor; [|by apply IH]. intros (r' & Hid & Hr')%list_elem_of_fmap. apply Hr.
  apply list_elem_of_In, List.filter_In in Hr' as [Hr' _].
  apply list_elem_of_fmap. exists r'. split; [done|]. by apply list_elem_of_In.
Qed.

Lemma handed_out_later es m l m' x :
  Forall (λ e, is_add e = false) es → keyed m → spec_run handed es m l m' →
  x ∈ handed_out l → ∃ r, m !! x.1 = Some r ∧ (next_fire_at r ≤ x.2)%Z.
Proof.
  intros Hes. revert m l. induction Hes as [|e es He _ IH]; intros m l Hk Hr Hx.
  { destruct l; [|done]. by apply elem_of_nil in Hx. }
  destruct l as [|a l]; [done|]. destruct Hr as [Ha Hr].
  cbn [handed_out flat_map] in Hx. apply elem_of_app in Hx as [Hx|Hx].
  - destruct a as [| [rs|] | | ]; try by apply elem_of_nil in Hx.
    destruct e; try done. destruct Ha as (rs' & [= <-] & Hp).
    destruct (claim_hands_out _ _ _ _ Hk Hp Hx) as (r & ? & ? & ?). exists r. split; [done|lia].
  - destruct (IH _ _ (keyed_step e m Hk) Hr Hx) as (r' & Hr' & Hle).
    destruct (fire_monotone e m x.1 r' He Hr') as (r & ? & ?). exists r. split; [done|lia].
Qed.

Lemma handed_out_once es m l m' :
  Forall (λ e, is_add e = false) es → keyed m → spec_run handed es m l m' →
  NoDup (handed_out l).
Proof.
  intros Hes. revert m l. induction Hes as [|e es He Hes IH]; intros m l Hk Hr.
  { destruct l; [constructor|done]. }
  destruct l as [|a l]; [done|]. destruct Hr as [Ha Hr]. cbn [handed_out flat_map].
  apply NoDup_app. split_and!; [..|by apply (IH _ _ (keyed_step e m Hk) Hr)].
  - destruct a as [| [rs|] | | ]; try constructor. destruct e; try done.
    destruct Ha as (rs' & [= <-] & Hp). apply (NoDup_fmap_1 fst).
    change (NoDup (map fst (map (λ r, (id r, next_fire_at r)) rs))). rewrite map_map.
    by apply (claimed_ids cursor m).
  - intros x Hx Hlater. destruct a as [| [rs|] | | ]; try by apply elem_of_nil in Hx.
    destruct e as [|cursor| |]; try done. destruct Ha as (rs' & [= <-] & Hp).
    destruct (claim_hands_out _ _ _ _ Hk Hp Hx) as (r & Hm & Ht & Hd).
    destruct (handed_out_later es _ l m' x Hes (keyed_step (EClaim cursor) m Hk) Hr Hlater) as (r' & Hr' & Hle).
    apply claimed_not_due in Hr'. unfold due in *. bool_prop. lia.
Qed.

(** An event of somebody else than [user]. *)
Definition not_by (user : string) (e : event) : Prop :=
  match e with
  | EAdd _ row => user_id row ≠ user
  | ECancel _ u => u ≠ user
  | EClaim _ | EListFor _ => True
  end.
(** The claims of a history can move every row they meet. *)
Definition all_schedulable (schedule_ : string) (e : event) : Prop :=
  match e with EClaim c => ∃ t, next_cron_fire schedule_ c = Ok t | _ => True end.

Lemma others_step e m k r : not_by (user_id r) e → all_schedulable (schedule r) e →
  m !! k = Some r → ∃ t, spec_step e m !! k = Some (with_fire t r).
Proof.
  intros Hby Hs Hr. assert (r = with_fire (next_fire_at r) r) as Hsame by by destruct r.
  destruct e as [fresh row|cursor|user|rid user]; cbn [spec_step not_by all_schedulable] in *.
  - exists (next_fire_at r). rewrite <- Hsame. unfold spec_add.
    destruct (decide (row_id fresh row = k)) as [-> |Hne].
    + rewrite Hr. unfold owned_by. by destruct (String.eqb_spec (user_id r) (user_id row)).
    + destruct (m !! row_id fresh row) as [old|]; [destruct (owned_by _ _)|];
        by rewrite ?lookup_insert_ne.
  - rewrite spec_claim_lookup, Hr. cbn. unfold advance. destruct Hs as [t ->].
    destruct (due cursor r); [by exists t|]. exists (next_fire_at r). by rewrite <- Hsame.
  - exists (next_fire_at r). by rewrite <- Hsame.
  - exists (next_fire_at r). rewrite <- Hsame. unfold spec_cancel.
    destruct (decide (rid = k)) as [-> |Hne].
    + rewrite Hr. unfold owned_by. by destruct (String.eqb_spec (user_id r) user).
    + destruct (m !! rid) as [r'|]; [destruct (owned_by user r')|]; cbn;
        by rewrite ?lookup_delete_ne.
Qed.

Lemma others_run es m l m' k r :
  Forall (not_by (user_id r)) es → Forall (all_schedulable (schedule r)) es →
  spec_run handed es m l m' → m !! k = Some r → ∃ t, m' !! k = Some (with_fire t r).
Proof.
  intros Hby. revert m l r Hby. induction es as [|e es IH]; intros m l r Hby Hs Hr Hk.
  { destruct l; [|done]. cbn in Hr. subst m'. exists (next_fire_at r). rewrite Hk. by destruct r. }
  destruct l as [|a l]; [done|]. destruct Hr as [_ Hr].
  apply Forall_cons in Hby as [Hb Hby], Hs as [Hs1 Hs].
  destruct (others_step e m k r Hb Hs1 Hk) as [t Ht].
  destruct (IH _ _ (with_fire t r) Hby Hs Hr Ht) as [t' Ht']. by exists t'.
Qed.
End Guarantees.

(** ** Properties *)


(** C19. No date of a routine is fired twice: along any history in which nothing is added, on
    any store that keeps the protocol, no id is handed out twice for the same date. *)
Theorem fires_at_most_once `{CroniterLaws} {St handed} `{!StoreOps St} `{!StoreLaws St handed}
    (es : list event) (s : St) :
  inv s → keyed (view s) → Forall (λ e, is_add e = false) es →
  NoDup (handed_out (run es s).1).
Proof.
  intros Hi Hk He. pose proof (run_spec es s Hi) as Hr. destruct (run es s) as [l s'].
  destruct Hr as [_ Hr]; [eapply Forall_impl; [exact He|]; by intros []|].
  by apply (handed_out_once (handed := handed) es (view s) l (view s')).
Qed.

(** Routines are isolated by owner: whatever other users add, list and cancel, and
    however often due routines are claimed, a routine whose schedule has a next date
    stays in the store, owned by its user, with the task, the secrets and the schedule
    it had; only its next date moves. *)
Theorem others_cannot_touch `{CroniterLaws} {St handed} `{!StoreOps St} `{!StoreLaws St handed}
    (es : list event) (s : St) (k : string) (r : RoutineRow) :
  inv s → Forall (sound_event (St := St)) es → view s !! k = Some r →
  Forall (not_by (user_id r)) es → Forall (all_schedulable (schedule r)) es →
  ∃ t, view (run es s).2 !! k = Some (with_fire t r).
Proof.
  intros Hi He Hr Hby Hs. pose proof (run_spec es s Hi He) as Hrun.
  destruct (run es s) as [l s']. destruct Hrun as [_ Hrun].
  by apply (others_run (handed := handed) es (view s) l).
Qed.

(** ** Concrete inputs *)

(** A library that knows one schedule, every hour, and a date that never comes. *)
Definition hour : Z := 3600000000.
Definition demo_cron : Croniter := {|
  croniter_is_valid s := mem s ["0 * * * *"; "0 0 30 2 *"];
  croniter_get_next s t :=
    if (s =? "0 * * * *")%string then Ok ((t / hour + 1) * hour)%Z
    else Raise (ValueError "failed to find next date");
|}.
Lemma demo_cron_laws : @CroniterLaws demo_cron.
Proof.
  constructor; cbn; intros s t x; destruct (s =? "0 * * * *")%string; try done.
  - intros [= <-]. pose proof (Z_div_mod_eq_full t hour). pose proof (Z.mod_pos_bound t hour eq_refl). lia.
  - by intros [= <-].
Qed.

Definition demo_row (i u s : string) (t : Z) : RoutineRow :=
  Row i u "lha" s "summarise the inbox" [PStr "MAIL_TOKEN"] "report_back" t 0.
Definition demo_history : list event :=
  [EAdd "f1" (demo_row "digest" "ann" "0 * * * *" 10); EAdd "f2" (demo_row "" "bob" "0 0 30 2 *" 20);
   EAdd "f3" (demo_row "digest" "bob" "0 * * * *" 5); EClaim 30; EListFor "ann"; EClaim 30;
   ECancel "digest" "bob"; ECancel "digest" "ann"].


Lemma fires_at_most_once_witness :
  let _ := demo_cron in
  let st : rows := [("digest", demo_row "digest" "ann" "0 * * * *" 10)] in
  let es := [EClaim 30; EClaim 30; ECancel "digest" "bob"; EClaim (2 * hour)] in
  (Forall (λ e, is_add e = false) es ∧ NoDup (handed_out (run es st).1)) ∧
  handed_out (run es st).1 = [("digest", 10%Z); ("digest", hour)].
Proof.
  intros cron st es. split; [|vm_compute; reflexivity].
  assert (Forall (λ e, is_add e = false) es) as He by (repeat constructor).
  split; [exact He|].
  refine (@fires_at_most_once cron demo_cron_laws rows true _ (@memory_laws cron demo_cron_laws) es st _ _ He).
  - apply (bool_decide_unpack _). vm_compute. exact I.
  - intros k r. change (mem_view st !! k = Some r → id r = k). rewrite mem_view_lookup. cbn.
    destruct (String.eqb_spec k "digest") as [-> |]; [|discriminate]. by intros [= <-].
Defined.

Lemma others_cannot_touch_witness :
  let _ := demo_cron in
  let r := demo_row "digest" "ann" "0 * * * *" 10 in
  let st : rows := [("digest", r)] in
  let es := [EClaim 30; ECancel "digest" "bob"; EAdd "f" (demo_row "digest" "bob" "x" 0)] in
  mem_view st !! "digest" = Some r ∧ (∃ t, mem_view (run es st).2 !! "digest" = Some (with_fire t r)) ∧
  (run es st).2 = [("digest", with_fire hour r)].
Proof.
  intros cron r st es. split; [reflexivity|]. split; [|vm_compute; reflexivity].
  refine (@others_cannot_touch cron demo_cron_laws rows true _ (@memory_laws cron demo_cron_laws)
    es st "digest" r _ _ _ _ _).
  - apply (bool_decide_unpack _). vm_compute. exact I.
  - repeat constructor; discriminate.
  - reflexivity.
  - repeat constructor; discriminate.
  - repeat constructor. exists hour. reflexivity.
Defined.
