(* ===== verification/PostgresRoutineStore.v ===== *)
(** * Routine schedules in Postgres: [scheduler/routine_postgres_store.py]

    The store over a database: its statements, its transaction, and the retries around
    them. The database is an interface, one operation per statement of the module; the
    connection to it can be lost before or after a statement takes effect. *)

From S2P Require Import Prelude PyStr Names PyVal Sorting JsonFacts DbResilience RoutineStore.
From stdpp Require Import sorting.

(** ** The database *)

(** A row of the table [routines]; [secrets] is a text. *)
Record pgrow := PgRow {
  pg_id : string; pg_user : string; pg_app : string; pg_schedule : string; pg_task : string;
  pg_secrets : string; pg_delivery : string; pg_next : Z; pg_created : Z;
}.

(** The statements of the module. [_CANCEL_SQL]'s result is the command tag. *)
Class Pg (T : Type) := {
  _SCHEMA_SQL : T → T;
  _INSERT_SQL : pgrow → T → T;
  _CLAIM_DUE_SQL : Z → T → list pgrow;
  _SELECT_USER_SQL : string → T → list pgrow;
  _DELETE_SQL : string → T → T;
  _UPDATE_FIRE_AT_SQL : Z → string → T → T;
  _CANCEL_SQL : string → string → T → string * T;
}.

(** ** The connection *)

(** What happens to the connection during one exchange: nothing; it is lost before the
    exchange takes effect; it is lost after, and the caller does not learn of it. *)
Inductive fault := Works | LostBefore (e : dbexc) | LostAfter (e : dbexc).

(** The object: its pool, [_schema_ready], [_retry_base_delay]; with the database and the
    faults to come (none when the list is used up). *)
Record pgstore (T : Type) := PgStore {
  has_pool : bool;
  schema_ready : bool;
  base_delay : Q;
  db : T;
  faults : list fault;
}.
Arguments PgStore {T}.
Arguments has_pool {T}.
Arguments schema_ready {T}.
Arguments base_delay {T}.
Arguments db {T}.
Arguments faults {T}.

Definition with_db {T} (t : T) (s : pgstore T) : pgstore T :=
  PgStore (has_pool s) (schema_ready s) (base_delay s) t (faults s).
Definition with_pool {T} (p r : bool) (s : pgstore T) : pgstore T :=
  PgStore p r (base_delay s) (db s) (faults s).
Definition next_fault {T} (s : pgstore T) : fault * pgstore T :=
  match faults s with
  | [] => (Works, s)
  | f :: fs => (f, PgStore (has_pool s) (schema_ready s) (base_delay s) (db s) fs)
  end.

(** One exchange with the database. *)
Definition exchange {T A} (f : T → (A + dbexc) * T) (s : pgstore T) : (A + dbexc) * pgstore T :=
  let '(flt, s1) := next_fault s in
  match flt with
  | Works => let '(r, t) := f (db s1) in (r, with_db t s1)
  | LostBefore e => (inr e, s1)
  | LostAfter e => (inr e, with_db (f (db s1)).2 s1)
  end.
Definition statement {T A} (f : T → A * T) : pgstore T → (A + dbexc) * pgstore T :=
  exchange (λ t, let '(a, t') := f t in (inl a, t')).

(** An exception of the database, and of the program, as the caller sees it. *)
Definition db_error (e : dbexc) : exc :=
  let '(DbExc m _ _ msg) := e in OtherError (default "Exception" (head m)) msg.
Definition foreign_exc (e : exc) : dbexc :=
  match e with
  | ValueError m => DbExc ["ValueError"; "Exception"] None None m
  | TypeError m => DbExc ["TypeError"; "Exception"] None None m
  | KeyError m => DbExc ["KeyError"; "LookupError"; "Exception"] None None m
  | AttributeError m => DbExc ["AttributeError"; "Exception"] None None m
  | IndexError m => DbExc ["IndexError"; "LookupError"; "Exception"] None None m
  | RuntimeError m => DbExc ["RuntimeError"; "Exception"] None None m
  | FileNotFoundError m => DbExc ["FileNotFoundError"; "OSError"; "Exception"] None None m
  | OSError m => DbExc ["OSError"; "Exception"] None None m
  | OtherError c m => DbExc [c; "Exception"] None None m
  end.
Definition to_res {A} (o : outcome A) : res A :=
  match o with
  | Returned a => Ok a
  | Raised e => Raise (db_error e)
  | AssertionFailed => Raise (OtherError "AssertionError" "")
  end.

(** ** The store *)

Section Store.
Context `{Asyncpg} `{Croniter} `{PyFloat} {T : Type} `{Pg T}.

Definition retry {A} (op : pgstore T → (A + dbexc) * pgstore T) (s : pgstore T) : res A * pgstore T :=
  let '(o, s', _) := retry_on_disconnect op _DEFAULT_ATTEMPTS (base_delay s) s in (to_res o, s').

(** Connecting and creating the tables, each at most once; not retried. *)
Definition _ensure_pool (s : pgstore T) : res unit * pgstore T :=
  if has_pool s && schema_ready s then (Ok tt, s)
  else
    let '(r, s1) := if has_pool s then (inl tt, s) else statement (λ t, (tt, t)) s in
    match r with
    | inr e => (Raise (db_error e), s1)
    | inl _ =>
        let s2 := with_pool true (schema_ready s1) s1 in
        if schema_ready s2 then (Ok tt, s2)
        else let '(r2, s3) := statement (λ t, (tt, _SCHEMA_SQL t)) s2 in
             match r2 with
             | inr e => (Raise (db_error e), s3)
             | inl _ => (Ok tt, with_pool true true s3)
             end
    end.

Definition close (s : pgstore T) : pgstore T :=
  if has_pool s then with_pool false false s else s.

(** The parameters of [_INSERT_SQL]. *)
Definition insert_args (rid : string) (row : RoutineRow) : pgrow :=
  PgRow rid (user_id row) (app_name row) (schedule row) (task row)
    (json_dumps dump_default (PList (secrets row))) (delivery row) (next_fire_at row) (created_at row).

Definition pg_add (fresh : string) (row : RoutineRow) (s : pgstore T) : res string * pgstore T :=
  let '(p, s0) := _ensure_pool s in
  match p with
  | Raise e => (Raise e, s0)
  | Ok _ =>
      let rid := row_id fresh row in
      let '(r, s1) := retry (statement (λ t, (tt, _INSERT_SQL (insert_args rid row) t))) s0 in
      (res_bind r (λ _, Ok rid), s1)
  end.

(** [tuple(v)] of a decoded value. *)
Definition py_tuple (v : pyval) : res (list pyval) :=
  match v with
  | PList l => Ok l
  | PStr t => Ok (map (λ c, PStr (s1 c)) (list_ascii_of_string t))
  | PDict d => Ok (map PStr (keys d))
  | _ => Raise (TypeError "object is not iterable")
  end.

Definition _row_to_routine (r : pgrow) : res RoutineRow :=
  match json_loads (pg_secrets r) with
  | None => Raise (ValueError "JSONDecodeError")
  | Some v =>
      let! l := py_tuple v in
      Ok (Row (pg_id r) (pg_user r) (pg_app r) (pg_schedule r) (pg_task r) l (pg_delivery r)
            (pg_next r) (pg_created r))
  end.

(** The loop inside the transaction. *)
Fixpoint claim_rows (cursor : Z) (rs : list pgrow) (t : T) (claimed : list RoutineRow) :
    res (list RoutineRow) * T :=
  match rs with
  | [] => (Ok claimed, t)
  | r :: rs' =>
      match next_cron_fire (pg_schedule r) cursor with
      | Raise e =>
          if is_value_error e then claim_rows cursor rs' (_DELETE_SQL (pg_id r) t) claimed
          else (Raise e, t)
      | Ok next_at =>
          let t' := _UPDATE_FIRE_AT_SQL next_at (pg_id r) t in
          match _row_to_routine r with
          | Raise e => (Raise e, t')
          | Ok x => claim_rows cursor rs' t' (claimed ++ [x])
          end
      end
  end.

(** [async with conn.transaction()]: an exception of the body rolls everything back. *)
Definition claim_transaction (cursor : Z) (t : T) : (list RoutineRow + dbexc) * T :=
  match claim_rows cursor (_CLAIM_DUE_SQL cursor t) t [] with
  | (Ok claimed, t') => (inl claimed, t')
  | (Raise e, _) => (inr (foreign_exc e), t)
  end.

Definition pg_claim_due (cursor : Z) (s : pgstore T) : res (list RoutineRow) * pgstore T :=
  let '(p, s0) := _ensure_pool s in
  match p with
  | Raise e => (Raise e, s0)
  | Ok _ => retry (exchange (claim_transaction cursor)) s0
  end.

Fixpoint map_res {A B} (f : A → res B) (l : list A) : res (list B) :=
  match l with
  | [] => Ok []
  | x :: l' => let! y := f x in let! ys := map_res f l' in Ok (y :: ys)
  end.

Definition pg_list_for_user (user : string) (s : pgstore T) : res (list RoutineRow) * pgstore T :=
  let '(p, s0) := _ensure_pool s in
  match p with
  | Raise e => (Raise e, s0)
  | Ok _ =>
      let '(r, s1) := retry (statement (λ t, (_SELECT_USER_SQL user t, t))) s0 in
      (res_bind r (map_res _row_to_routine), s1)
  end.

Definition deleted (status : string) : bool :=
  startswith "DELETE " (upper status) && negb (endswith " 0" status).

Definition pg_cancel (routine_id user : string) (s : pgstore T) : res bool * pgstore T :=
  let '(p, s0) := _ensure_pool s in
  match p with
  | Raise e => (Raise e, s0)
  | Ok _ =>
      let '(r, s1) := retry (statement (_CANCEL_SQL routine_id user)) s0 in
      (res_bind r (λ status, Ok (deleted status)), s1)
  end.

(** [__init__], [build_from_env] *)
Definition pg_init (dsn : string) (t : T) (fs : list fault) : res (pgstore T) :=
  if (dsn =? "")%string then Raise (ValueError "PostgresRoutineStore requires a non-empty DSN")
  else Ok (PgStore false false _DEFAULT_BASE_DELAY t fs).

Definition build_from_env (environ : list (string * string)) (t : T) (fs : list fault) :
    res (pgstore T) :=
  let dsn := strip (default "" (dget environ "LHA_REMINDER_DB_URL")) in
  if (dsn =? "")%string
  then Raise (ValueError ("LHA_ROUTINE_STORE=postgres requires LHA_REMINDER_DB_URL "
                          +:+ "(e.g. postgres://user@/db?host=/cloudsql/<conn_name>)"))
  else pg_init dsn t fs.

#[export] Instance pg_ops : StoreOps (pgstore T) := {
  s_add := pg_add;
  s_claim_due := pg_claim_due;
  s_list_for_user := pg_list_for_user;
  s_cancel := pg_cancel;
}.
End Store.

(** ** The statements, as documented

    What each statement does to the rows of the table, which are identified by their
    primary key. *)

Definition set_next (n : Z) (r : pgrow) : pgrow :=
  PgRow (pg_id r) (pg_user r) (pg_app r) (pg_schedule r) (pg_task r) (pg_secrets r) (pg_delivery r)
    n (pg_created r).
Definition set_created (n : Z) (r : pgrow) : pgrow :=
  PgRow (pg_id r) (pg_user r) (pg_app r) (pg_schedule r) (pg_task r) (pg_secrets r) (pg_delivery r)
    (pg_next r) n.
Definition all_rows (m : gmap string pgrow) : list pgrow := map snd (map_to_list m).

Class PgLaws (T : Type) `{Pg T} := {
  contents : T → gmap string pgrow;
  primary_key t k r : contents t !! k = Some r → pg_id r = k;
  schema_law t : contents (_SCHEMA_SQL t) = contents t;
  insert_law r t : contents (_INSERT_SQL r t) =
    match contents t !! pg_id r with
    | None => <[pg_id r := r]> (contents t)
    | Some old => if (pg_user old =? pg_user r)%string
                  then <[pg_id r := set_created (pg_created old) r]> (contents t) else contents t
    end;
  due_law cursor t : _CLAIM_DUE_SQL cursor t ≡ₚ
    List.filter (λ r, (pg_next r <=? cursor)%Z) (all_rows (contents t));
  select_user_law user t : _SELECT_USER_SQL user t ≡ₚ
    List.filter (λ r, (pg_user r =? user)%string) (all_rows (contents t)) ∧
    StronglySorted (λ a b, (pg_next a <= pg_next b)%Z) (_SELECT_USER_SQL user t);
  delete_law rid t : contents (_DELETE_SQL rid t) = delete rid (contents t);
  update_law n rid t : contents (_UPDATE_FIRE_AT_SQL n rid t) = alter (set_next n) rid (contents t);
  cancel_sql_law rid user t :
    match contents t !! rid with
    | Some r => if (pg_user r =? user)%string
                then (_CANCEL_SQL rid user t).1 = "DELETE 1" ∧
                     contents (_CANCEL_SQL rid user t).2 = delete rid (contents t)
                else (_CANCEL_SQL rid user t).1 = "DELETE 0" ∧
                     contents (_CANCEL_SQL rid user t).2 = contents t
    | None => (_CANCEL_SQL rid user t).1 = "DELETE 0" ∧
              contents (_CANCEL_SQL rid user t).2 = contents t
    end;
}.

(** * Facts *)

Section PgFacts.
Context `{Asyncpg} `{Cr : Croniter} `{CL : !CroniterLaws} `{PyFloat} {T : Type} `{PT : Pg T} `{PL : !PgLaws T}.

(** A row as the abstract store has it. *)
Definition to_row (r : pgrow) : RoutineRow :=
  match _row_to_routine r with
  | Ok x => norm x
  | Raise _ => norm (Row (pg_id r) (pg_user r) (pg_app r) (pg_schedule r) (pg_task r) [] (pg_delivery r)
                       (pg_next r) (pg_created r))
  end.
Definition decodes (r : pgrow) : Prop := ∃ x, _row_to_routine r = Ok x.

Lemma to_row_fields r : id (to_row r) = pg_id r ∧ user_id (to_row r) = pg_user r ∧
  schedule (to_row r) = pg_schedule r ∧ next_fire_at (to_row r) = pg_next r.
Proof.
  unfold to_row, _row_to_routine. destruct (json_loads (pg_secrets r)) as [v|]; [|done]. by destruct (py_tuple v).
Qed.

Lemma to_row_next n r : to_row (set_next n r) = with_fire n (to_row r).
Proof.
  unfold to_row, _row_to_routine. change (pg_secrets (set_next n r)) with (pg_secrets r).
  destruct (json_loads (pg_secrets r)) as [v|]; [|done]. by destruct (py_tuple v).
Qed.
Lemma to_row_created n r : to_row (set_created n r) = to_row r.
Proof.
  unfold to_row, _row_to_routine. change (pg_secrets (set_created n r)) with (pg_secrets r).
  destruct (json_loads (pg_secrets r)) as [v|]; [|done]. by destruct (py_tuple v).
Qed.
Lemma decodes_next n r : decodes r → decodes (set_next n r).
Proof.
  unfold decodes, _row_to_routine. change (pg_secrets (set_next n r)) with (pg_secrets r).
  destruct (json_loads (pg_secrets r)) as [v|]; [|by intros [? ?]].
  destruct (py_tuple v); [by eexists|by intros [? ?]].
Qed.
Lemma decodes_created n r : decodes r → decodes (set_created n r).
Proof.
  unfold decodes, _row_to_routine. change (pg_secrets (set_created n r)) with (pg_secrets r).
  destruct (json_loads (pg_secrets r)) as [v|]; [|by intros [? ?]].
  destruct (py_tuple v); [by eexists|by intros [? ?]].
Qed.

(** What the insert stores reads back: the column of secrets is lossless. *)
Lemma insert_args_read rid row : forallb json_ok (secrets row) = true →
  _row_to_routine (insert_args rid row) = Ok (with_id rid row).
Proof.
  intros Hs. unfold _row_to_routine, insert_args. cbn [pg_secrets].
  rewrite (json_roundtrip dump_default " " " "); [by destruct row|done..|]. exact Hs.
Qed.

Definition pg_view (s : pgstore T) : table := to_row <$> contents (db s).
(** No faults to come, and every row can be read back. *)
Definition pg_inv (s : pgstore T) : Prop :=
  faults s = [] ∧ ∀ k r, contents (db s) !! k = Some r → decodes r.

Lemma retry_works {A} (f : T → (A + dbexc) * T) (s : pgstore T) a t :
  faults s = [] → f (db s) = (inl a, t) →
  retry (exchange f) s = (Ok a, with_db t s).
Proof.
  intros Hf Ha. unfold retry, retry_on_disconnect. change (Z.to_nat _DEFAULT_ATTEMPTS) with 3.
  cbn [retry_loop]. unfold exchange, next_fault. rewrite Hf, Ha. done.
Qed.

Lemma ensure_pool_works s : faults s = [] → ∃ s', _ensure_pool s = (Ok tt, s') ∧
  faults s' = [] ∧ contents (db s') = contents (db s).
Proof.
  intros Hf. unfold _ensure_pool, statement, exchange, next_fault. destruct s as [p r b t fs].
  cbn in Hf. subst fs. destruct p, r; cbn; (eexists; split; [done|]; split; [done|]);
    cbn; rewrite ?schema_law; done.
Qed.

(** The two together: an operation that works on the contents of the database. *)
Lemma retry_contents {A} (f : T → (A + dbexc) * T) s0 a (P : T → Prop) :
  faults s0 = [] → (∃ t, f (db s0) = (inl a, t) ∧ P t) →
  ∃ s', retry (exchange f) s0 = (Ok a, s') ∧ faults s' = [] ∧ P (db s').
Proof.
  intros Hf (t & Ht & HP). exists (with_db t s0). split; [by apply retry_works|]. by destruct s0.
Qed.

(** ** Claims *)

Definition pg_schedulable (cursor : Z) (r : pgrow) : bool :=
  match next_cron_fire (pg_schedule r) cursor with Ok _ => true | Raise _ => false end.
Definition pg_advance (cursor : Z) (r : pgrow) : option pgrow :=
  match next_cron_fire (pg_schedule r) cursor with Ok n => Some (set_next n r) | Raise _ => None end.

Lemma claim_rows_spec cursor rs t claimed :
  NoDup (map pg_id rs) → Forall decodes rs →
  ∃ xs t', claim_rows cursor rs t claimed = (Ok (claimed ++ xs), t') ∧
    map norm xs = map to_row (List.filter (pg_schedulable cursor) rs) ∧
    (∀ k, k ∉ map pg_id rs → contents t' !! k = contents t !! k) ∧
    (∀ r, r ∈ rs → contents t !! pg_id r = Some r → contents t' !! pg_id r = pg_advance cursor r).
Proof.
  revert t claimed. induction rs as [|r rs IH]; intros t claimed Hnd Hdec.
  { exists [], t. cbn. rewrite app_nil_r. split_and!; try done. by intros r ?%elem_of_nil. }
  cbn [map] in Hnd. apply NoDup_cons in Hnd as [Hr Hnd]. apply Forall_cons in Hdec as [[x Hx] Hdec].
  cbn [claim_rows List.filter]. unfold pg_schedulable at 1. unfold pg_advance.
  destruct (next_cron_fire (pg_schedule r) cursor) as [n|e] eqn:En.
  - rewrite Hx. destruct (IH (_UPDATE_FIRE_AT_SQL n (pg_id r) t) (claimed ++ [x]) Hnd Hdec)
      as (xs & t' & -> & Hxs & Hout & Hin).
    exists (x :: xs), t'. rewrite <- app_assoc. split; [done|]. split.
    { cbn [map]. rewrite Hxs. f_equal. unfold to_row. by rewrite Hx. }
    split.
    + intros k [Hk1 Hk2]%not_elem_of_cons. rewrite Hout, update_law by done. by rewrite lookup_alter_ne.
    + intros r' [-> | Hr']%elem_of_cons Hc.
      * rewrite Hout, update_law by done. by rewrite lookup_alter_eq, Hc, En.
      * apply Hin; [done|]. rewrite update_law, lookup_alter_ne; [done|]. intros E. apply Hr.
        rewrite E. by apply list_elem_of_fmap_2.
  - rewrite (next_raises _ _ _ En).
    destruct (IH (_DELETE_SQL (pg_id r) t) claimed Hnd Hdec) as (xs & t' & -> & Hxs & Hout & Hin).
    exists xs, t'. split; [done|]. split; [done|]. split.
    + intros k [Hk1 Hk2]%not_elem_of_cons. rewrite Hout, delete_law by done. by rewrite lookup_delete_ne.
    + intros r' [-> | Hr']%elem_of_cons Hc.
      * rewrite Hout, delete_law by done. by rewrite lookup_delete_eq, En.
      * apply Hin; [done|]. rewrite delete_law, lookup_delete_ne; [done|]. intros E. apply Hr.
        rewrite E. by apply list_elem_of_fmap_2.
Qed.

Lemma elem_of_all_rows (m : gmap string pgrow) r : r ∈ all_rows m ↔ ∃ k, m !! k = Some r.
Proof.
  unfold all_rows. rewrite list_elem_of_fmap. split.
  - intros ([k r'] & -> & Hk). exists k. by apply elem_of_map_to_list.
  - intros [k Hk]. exists (k, r). split; [done|]. by apply elem_of_map_to_list.
Qed.

Lemma all_rows_ids t : NoDup (map pg_id (all_rows (contents t))).
Proof.
  assert (map pg_id (all_rows (contents t)) = (map_to_list (contents t)).*1) as ->.
  { unfold all_rows. rewrite map_map. apply list_fmap_ext. intros i [k r] Hi.
    apply list_elem_of_lookup_2, elem_of_map_to_list in Hi. by apply primary_key in Hi. }
  apply NoDup_fst_map_to_list.
Qed.

Lemma filter_ids (p : pgrow → bool) l : NoDup (map pg_id l) → NoDup (map pg_id (List.filter p l)).
Proof.
  induction l as [|r l IH]; [done|]. cbn. intros [Hr Hnd]%NoDup_cons. destruct (p r); [|by apply IH].
  cbn. constructor; [|by apply IH]. intros (r' & E & Hr')%list_elem_of_fmap. apply Hr.
  apply list_elem_of_In, List.filter_In in Hr' as [Hr' _]. rewrite E.
  by apply list_elem_of_fmap_2, list_elem_of_In.
Qed.

Lemma values_rows m : values (to_row <$> m : table) = map to_row (all_rows m).
Proof.
  unfold values, all_rows. rewrite map_to_list_fmap.
  change (map snd (map (prod_map (λ x : string, x) to_row) (map_to_list m)) =
    map to_row (map snd (map_to_list m))). by rewrite !map_map.
Qed.

Lemma filter_to_row (p : RoutineRow → bool) (q : pgrow → bool) l : (∀ r, p (to_row r) = q r) →
  List.filter p (map to_row l) = map to_row (List.filter q l).
Proof.
  intros Hp. induction l as [|r l IH]; [done|]. cbn. rewrite Hp. by destruct (q r); cbn; rewrite IH.
Qed.

Lemma claim_transaction_spec cursor t :
  (∀ k r, contents t !! k = Some r → decodes r) →
  ∃ xs t', claim_transaction cursor t = (inl xs, t') ∧
    map norm xs ≡ₚ List.filter (λ r, due cursor r && schedulable cursor r)
                     (values (to_row <$> contents t : table)) ∧
    (to_row <$> contents t' : table) = spec_claim cursor (to_row <$> contents t : table) ∧
    (∀ k r, contents t' !! k = Some r → decodes r).
Proof.
  intros Hdec. pose proof (due_law cursor t) as Hdue.
  set (dues := List.filter (λ r, (pg_next r <=? cursor)%Z) (all_rows (contents t))) in *.
  assert (NoDup (map pg_id (_CLAIM_DUE_SQL cursor t))) as Hnd.
  { rewrite Hdue. apply filter_ids, all_rows_ids. }
  assert (∀ r, r ∈ _CLAIM_DUE_SQL cursor t ↔
    (pg_next r <=? cursor)%Z = true ∧ contents t !! pg_id r = Some r) as Hin.
  { intros r. rewrite Hdue. unfold dues. rewrite list_elem_of_In, List.filter_In, <- list_elem_of_In, elem_of_all_rows.
    split; [intros [[k Hk] ?]; split; [done|]|intros [? ?]; eauto].
    by rewrite (primary_key _ _ _ Hk). }
  assert (Forall decodes (_CLAIM_DUE_SQL cursor t)) as Hall.
  { apply Forall_forall. intros r [_ Hr]%Hin. by apply (Hdec (pg_id r)). }
  destruct (claim_rows_spec cursor _ t [] Hnd Hall) as (xs & t' & E & Hxs & Hout & Hadv).
  assert (∀ k, contents t' !! k = contents t !! k ≫= λ r,
    if (pg_next r <=? cursor)%Z then pg_advance cursor r else Some r) as Hk.
  { intros k. destruct (contents t !! k) as [r|] eqn:Er; cbn.
    - pose proof (primary_key _ _ _ Er) as <-. destruct (_ <=? _)%Z eqn:Ed.
      + apply Hadv; [by apply Hin|done].
      + rewrite Hout; [done|]. intros (r' & Ei & Hr')%list_elem_of_fmap.
        apply Hin in Hr' as [Hd Hr']. rewrite <- Ei, Er in Hr'. congruence.
    - rewrite Hout; [done|]. intros (r' & -> & [_ Hr']%Hin)%list_elem_of_fmap. congruence. }
  exists xs, t'. unfold claim_transaction. rewrite E. split; [done|]. split_and!.
  - rewrite Hxs, values_rows. rewrite (filter_to_row _ (λ r, (pg_next r <=? cursor)%Z && pg_schedulable cursor r)).
    + rewrite Hdue. unfold dues. by rewrite filter_filter.
    + intros r. destruct (to_row_fields r) as (_ & _ & Es & En). unfold due, schedulable, pg_schedulable.
      by rewrite Es, En.
  - apply map_eq. intros k. rewrite spec_claim_lookup, !lookup_fmap, Hk.
    destruct (contents t !! k) as [r|]; [cbn|done].
    destruct (to_row_fields r) as (_ & _ & Es & En). unfold advance, due. rewrite Es, En.
    destruct (_ <=? _)%Z; [|done]. unfold pg_advance. destruct (next_cron_fire _ _) as [n|]; [|done].
    cbn. by rewrite to_row_next.
  - intros k r. rewrite Hk. intros (r0 & Hr0 & Hr)%bind_Some. apply Hdec in Hr0.
    unfold pg_advance in Hr. destruct (pg_next r0 <=? cursor)%Z; [|by injection Hr as <-].
    destruct (next_cron_fire (pg_schedule r0) cursor); simplify_eq. by apply decodes_next.
Qed.

(** ** The store keeps the protocol *)

Lemma pg_view_lookup s k : pg_view s !! k = to_row <$> contents (db s) !! k.
Proof. apply lookup_fmap. Qed.

Lemma upsert_view fresh row t : forallb json_ok (secrets row) = true →
  (to_row <$> contents (_INSERT_SQL (insert_args (row_id fresh row) row) t) : table) =
    spec_add (row_id fresh row) row (to_row <$> contents t : table) ∧
  ((∀ k r, contents t !! k = Some r → decodes r) →
   ∀ k r, contents (_INSERT_SQL (insert_args (row_id fresh row) row) t) !! k = Some r → decodes r).
Proof.
  intros Hs. set (rid := row_id fresh row). pose proof (insert_args_read rid row Hs) as Hread.
  assert (to_row (insert_args rid row) = norm (with_id rid row)) as Hto by (unfold to_row; by rewrite Hread).
  rewrite insert_law. cbn [insert_args pg_id pg_user]. unfold spec_add. rewrite lookup_fmap.
  destruct (contents t !! rid) as [old|] eqn:Eo; cbn [fmap option_fmap option_map].
  - destruct (to_row_fields old) as (_ & Hu & _ & _). unfold owned_by. rewrite Hu.
    destruct (pg_user old =? user_id row)%string; [|done].
    rewrite fmap_insert. fold (insert_args rid row). rewrite to_row_created, Hto. split; [done|].
    intros Hdec k r. rewrite lookup_insert. case_decide; [|by apply Hdec].
    intros [= <-]. apply decodes_created. by eexists.
  - rewrite fmap_insert. fold (insert_args rid row). rewrite Hto. split; [done|].
    intros Hdec k r. rewrite lookup_insert. case_decide; [|by apply Hdec].
    intros [= <-]. by eexists.
Qed.

Lemma map_res_decodes l : Forall decodes l → ∃ xs, map_res _row_to_routine l = Ok xs ∧ map norm xs = map to_row l.
Proof.
  induction 1 as [|r l [x Hx] _ (xs & Hxs & Hm)]; [by exists []|].
  exists (x :: xs). cbn. rewrite Hx. cbn. rewrite Hxs. cbn. split; [done|]. rewrite Hm.
  unfold to_row. by rewrite Hx.
Qed.

Lemma listed_sorted l xs : map norm xs = map to_row l →
  StronglySorted (λ a b, (pg_next a <= pg_next b)%Z) l →
  StronglySorted (λ a b, fires_before a b = true) xs.
Proof.
  intros Hm Hs. revert xs Hm. induction Hs as [|r l _ IH Hr]; intros [|x xs] Hm; try done; [constructor|].
  cbn [map] in Hm. injection Hm as Hx Hm. constructor; [by apply IH|].
  assert (next_fire_at x = pg_next r) as Ex.
  { destruct (to_row_fields r) as (_ & _ & _ & <-). by rewrite <- Hx. }
  clear IH. revert xs Hm. induction Hr as [|r' l Hr' _ IH]; intros [|x' xs] Hm; try done.
  cbn [map] in Hm. injection Hm as Hx' Hm. constructor; [|by apply IH].
  unfold fires_before. apply Z.leb_le. destruct (to_row_fields r') as (_ & _ & _ & E).
  rewrite Ex. change (next_fire_at x') with (next_fire_at (norm x')). rewrite Hx', E. lia.
Qed.

Lemma cancel_step rid user t :
  let spec := spec_cancel rid user (to_row <$> contents t : table) in
  deleted (_CANCEL_SQL rid user t).1 = spec.1 ∧
  (to_row <$> contents (_CANCEL_SQL rid user t).2 : table) = spec.2 ∧
  ((∀ k r, contents t !! k = Some r → decodes r) →
   ∀ k r, contents (_CANCEL_SQL rid user t).2 !! k = Some r → decodes r).
Proof.
  cbv zeta. pose proof (cancel_sql_law rid user t) as Hc. unfold spec_cancel. rewrite lookup_fmap.
  destruct (contents t !! rid) as [r|] eqn:Er; cbn [fmap option_fmap option_map].
  - destruct (to_row_fields r) as (_ & Hu & _ & _). unfold owned_by. rewrite Hu.
    destruct (pg_user r =? user)%string; destruct Hc as [-> ->]; cbn; [|done].
    split; [done|]. split; [by rewrite fmap_delete|]. intros Hdec k r'. rewrite lookup_delete.
    case_decide; [done|]. apply Hdec.
  - by destruct Hc as [-> ->].
Qed.

#[export] Instance pg_laws : StoreLaws (pgstore T) false.
Proof.
  refine (Build_StoreLaws _ _ _ _ pg_view pg_inv (λ row, forallb json_ok (secrets row) = true) _ _ _ _);
    cbn [s_add s_claim_due s_list_for_user s_cancel pg_ops].
  - intros fresh row s [Hf Hdec] Hs. unfold pg_add.
    destruct (ensure_pool_works s Hf) as (s0 & -> & Hf0 & Hc0).
    destruct (upsert_view fresh row (db s0) Hs) as [Hv Hd].
    rewrite Hc0 in Hv, Hd. specialize (Hd Hdec). unfold statement.
    rewrite (retry_works _ s0 tt (_INSERT_SQL (insert_args (row_id fresh row) row) (db s0))) by done.
    eexists. split; [done|]. unfold pg_inv, pg_view. by destruct s0.
  - intros cursor s [Hf Hdec]. unfold pg_claim_due.
    destruct (ensure_pool_works s Hf) as (s0 & -> & Hf0 & Hc0).
    destruct (claim_transaction_spec cursor (db s0)) as (xs & t' & E & Hxs & Hv & Hd).
    { by rewrite Hc0. }
    rewrite (retry_works _ s0 xs t') by done. exists xs, (with_db t' s0). split; [done|].
    rewrite Hc0 in Hxs, Hv. unfold pg_inv, pg_view. by destruct s0.
  - intros user s [Hf Hdec]. unfold pg_list_for_user.
    destruct (ensure_pool_works s Hf) as (s0 & -> & Hf0 & Hc0). unfold statement.
    rewrite (retry_works _ s0 (_SELECT_USER_SQL user (db s0)) (db s0)) by done.
    destruct (select_user_law user (db s0)) as [Hp Hsort]. rewrite Hc0 in Hp.
    assert (Forall decodes (_SELECT_USER_SQL user (db s0))) as Hall.
    { rewrite Hp. apply Forall_forall. intros r Hr. apply list_elem_of_In, List.filter_In in Hr as [Hr _].
      apply list_elem_of_In, elem_of_all_rows in Hr as [k Hk]. by apply (Hdec k). }
    destruct (map_res_decodes _ Hall) as (xs & Hxs & Hm). cbn [res_bind]. rewrite Hxs.
    exists xs, (with_db (db s0) s0). split; [done|]. split; [by unfold pg_inv; destruct s0; cbn in *; rewrite Hc0|].
    split; [unfold pg_view; destruct s0; cbn in *; by rewrite Hc0|]. split; [|by apply (listed_sorted _ _ Hm)].
    rewrite Hm, Hp. unfold pg_view. rewrite values_rows. symmetry.
    rewrite (filter_to_row _ (λ r, (pg_user r =? user)%string)); [done|].
    intros r. unfold owned_by. destruct (to_row_fields r) as (_ & -> & _). done.
  - intros rid user s [Hf Hdec]. unfold pg_cancel.
    destruct (ensure_pool_works s Hf) as (s0 & -> & Hf0 & Hc0).
    destruct (cancel_step rid user (db s0)) as (H1 & H2 & H3). rewrite Hc0 in H1, H2, H3.
    unfold statement.
    rewrite (retry_works _ s0 (_CANCEL_SQL rid user (db s0)).1 (_CANCEL_SQL rid user (db s0)).2);
      [|done|by destruct (_CANCEL_SQL rid user (db s0))].
    eexists. cbn [res_bind]. rewrite H1. split; [done|]. unfold pg_inv, pg_view.
    destruct s0; cbn in *. by specialize (H3 Hdec).
Defined.
End PgFacts.

(** ** Two stores side by side *)

Section Agreement.
Context `{CroniterLaws} {S1 S2 : Type} `{!StoreOps S1} `{!StoreLaws S1 true} `{!StoreOps S2} `{!StoreLaws S2 false}.

Definition answer_agrees (e : event) (a1 a2 : answer) : Prop :=
  match e, a1, a2 with
  | EAdd _ _, AId r1, AId r2 => r1 = r2
  | EClaim cursor, AClaimed r1, AClaimed r2 => ∃ rs1 rs2 last, r1 = Ok rs1 ∧ r2 = Ok rs2 ∧
      map norm rs1 ≡ₚ map norm rs2 ++ last ∧
      Forall (λ r, schedulable cursor r = true) (map norm rs2) ∧
      Forall (λ r, schedulable cursor r = false) last
  | EListFor _, AListed r1, AListed r2 => ∃ rs1 rs2, r1 = Ok rs1 ∧ r2 = Ok rs2 ∧
      map norm rs1 ≡ₚ map norm rs2
  | ECancel _ _, ADone r1, ADone r2 => r1 = r2
  | _, _, _ => False
  end.

Fixpoint answers_agree (es : list event) (l1 l2 : list answer) : Prop :=
  match es, l1, l2 with
  | [], [], [] => True
  | e :: es', a1 :: l1', a2 :: l2' => answer_agrees e a1 a2 ∧ answers_agree es' l1' l2'
  | _, _, _ => False
  end.

Lemma spec_answers_agree e m a1 a2 :
  spec_answer true e m a1 → spec_answer false e m a2 → answer_agrees e a1 a2.
Proof.
  destruct e as [fresh row|cursor|user|rid user], a1, a2; cbn; try done; [congruence|..|congruence].
  - intros (rs1 & -> & H1) (rs2 & -> & H2).
    exists rs1, rs2, (List.filter (λ r, due cursor r && negb (schedulable cursor r)) (values m)).
    split; [done|]. split; [done|]. rewrite H1, H2. split_and!.
    + rewrite (filter_partition (schedulable cursor) (List.filter _ _)), !filter_filter.
      apply Permutation_app; apply Permutation_refl'; apply List.filter_ext; intros r;
        by rewrite andb_true_r.
    + apply Forall_forall. intros r Hr. apply list_elem_of_In, List.filter_In in Hr as [_ Hr].
      by apply andb_true_iff in Hr as [_ Hr].
    + apply Forall_forall. intros r Hr. apply list_elem_of_In, List.filter_In in Hr as [_ Hr].
      apply andb_true_iff in Hr as [_ Hr]. by apply negb_true_iff.
  - intros (rs1 & -> & H1 & _) (rs2 & -> & H2 & _). exists rs1, rs2. by rewrite H1, H2.
Qed.

Lemma spec_runs_agree es m l1 l2 m1 m2 :
  spec_run true es m l1 m1 → spec_run false es m l2 m2 → m1 = m2 ∧ answers_agree es l1 l2.
Proof.
  revert m l1 l2. induction es as [|e es IH]; intros m [|a1 l1] [|a2 l2]; cbn; try done.
  - by intros -> ->.
  - intros [H1 R1] [H2 R2]. destruct (IH _ _ _ R1 R2) as [-> Ha]. split; [done|].
    split; [by apply (spec_answers_agree e m)|done].
Qed.
End Agreement.

(** ** Properties *)


Section Faults.
Context `{Asyncpg} `{Cr : Croniter} `{CL : !CroniterLaws} `{PyFloat} {T : Type} `{PT : Pg T} `{PL : !PgLaws T}.

(** A connected store over [t], with faults to come. *)
Definition connected (t : T) (fs : list fault) : pgstore T := PgStore true true _DEFAULT_BASE_DELAY t fs.

Lemma exchange_works {A} (f : T → (A + dbexc) * T) t :
  exchange f (connected t []) = ((f t).1, connected (f t).2 []).
Proof. unfold exchange. cbn. by destruct (f t) as [r t']. Qed.

(** Two losses before the operation takes effect do not show. *)
Lemma retry_outage {A} (f : T → (A + dbexc) * T) t es :
  Forall (λ e, is_transient_disconnect e = true) es → length es ≤ 2 →
  (∀ e t', f t = (inr e, t') → is_transient_disconnect e = false) →
  retry (exchange f) (connected t (map LostBefore es)) = retry (exchange f) (connected t []).
Proof.
  intros He Hl Hf. unfold retry, retry_on_disconnect. change (Z.to_nat _DEFAULT_ATTEMPTS) with 3.
  assert (∀ n k last, length es < n →
    (retry_loop (exchange f) _DEFAULT_BASE_DELAY n k last (connected t (map LostBefore es))).1 =
    (match (f t).1 with inl a => Returned a | inr e => Raised e end, connected (f t).2 [])) as Hall.
  { clear Hl. induction He as [|e es He _ IH]; intros [|n] k last Hn; cbn [map length] in *; try lia.
    - apply retry_loop_end; [apply exchange_works|]. intros e E. apply (Hf e (f t).2).
      by destruct (f t); cbn in *; subst.
    - rewrite (retry_loop_next _ _ n k last _ e (connected t (map LostBefore es))) by (done || lia).
      apply IH. lia. }
  assert ((retry_loop (exchange f) _DEFAULT_BASE_DELAY 3 1 None (connected t [])).1 =
    (match (f t).1 with inl a => Returned a | inr e => Raised e end, connected (f t).2 [])) as E2.
  { apply retry_loop_end; [apply exchange_works|]. intros e E. apply (Hf e (f t).2).
    by destruct (f t); cbn in *; subst. }
  change (base_delay (connected t ?l)) with _DEFAULT_BASE_DELAY.
  pose proof (Hall 3 1 None ltac:(lia)) as E1.
  destruct (retry_loop _ _ _ _ _ (connected t (map LostBefore es))) as [[? ?] ?].
  destruct (retry_loop _ _ _ _ _ (connected t [])) as [[? ?] ?]. cbn in *. congruence.
Qed.

(** A loss after the operation took effect runs it once more. *)
Lemma retry_lost_after {A} (f : T → (A + dbexc) * T) t e a t' t'' :
  is_transient_disconnect e = true → (f t).2 = t' → f t' = (inl a, t'') →
  retry (exchange f) (connected t [LostAfter e]) = (Ok a, connected t'' []).
Proof.
  intros He Ht Ha. unfold retry, retry_on_disconnect. change (Z.to_nat _DEFAULT_ATTEMPTS) with 3.
  assert ((retry_loop (exchange f) _DEFAULT_BASE_DELAY 3 1 None (connected t [LostAfter e])).1 =
    (Returned a, connected t'' [])) as E.
  { rewrite (retry_loop_next _ _ 2 1 None _ e (connected t' [])); [|by subst t'|done|lia].
    apply (retry_loop_end _ _ 1 2 (Some e) _ (inl a)); [|done]. by rewrite exchange_works, Ha. }
  change (base_delay (connected t ?l)) with _DEFAULT_BASE_DELAY.
  destruct (retry_loop _ _ _ _ _ (connected t [LostAfter e])) as [[? ?] ?]. cbn in E. by simplify_eq.
Qed.
End Faults.

(** A short outage does not show: on a connected store, when an operation loses its
    connection at most twice before it takes effect, it answers and leaves exactly what it
    does on a connection that holds. *)
Theorem short_outage_hidden `{Asyncpg} `{CroniterLaws} `{PyFloat} {T} `{!Pg T} `{!PgLaws T}
    (ev : event) (t : T) (es : list dbexc) :
  (∀ k r, contents t !! k = Some r → decodes r) →
  Forall (λ e, is_transient_disconnect e = true) es → length es ≤ 2 →
  perform ev (connected t (map LostBefore es)) = perform ev (connected t []).
Proof.
  intros Hdec He Hl.
  destruct ev as [fresh row|cursor|user|rid user]; cbn [perform s_add s_claim_due s_list_for_user s_cancel pg_ops];
    unfold pg_add, pg_claim_due, pg_list_for_user, pg_cancel, _ensure_pool; cbn [has_pool schema_ready connected andb];
    unfold statement; (rewrite (retry_outage _ t es); [done|done|done|]); cbv beta.
  - done.
  - intros e t'. by destruct (claim_transaction_spec cursor t Hdec) as (xs & t1 & -> & _).
  - done.
  - by destruct (_CANCEL_SQL rid user t).
Qed.

(** A reply lost after the commit is not made up for: the retry sees a database already
    changed. A claim that loses its reply hands out nothing, although every row it had
    claimed has moved on (or is gone): those dates never fire. A cancellation that loses
    its reply says that there was no such routine, although it has deleted it. *)
Theorem lost_reply_loses_work `{Asyncpg} `{CroniterLaws} `{PyFloat} {T} `{!Pg T} `{!PgLaws T}
    (t : T) (e : dbexc) (cursor : Z) (rid : string) (r : pgrow) :
  (∀ k r, contents t !! k = Some r → decodes r) → is_transient_disconnect e = true →
  contents t !! rid = Some r →
  (∃ s', perform (EClaim cursor) (connected t [LostAfter e]) = (AClaimed (Ok []), s') ∧
    pg_view s' = spec_claim cursor (pg_view (connected t []))) ∧
  (∃ s', perform (ECancel rid (pg_user r)) (connected t [LostAfter e]) = (ADone (Ok false), s') ∧
    contents (db s') !! rid = None).
Proof.
  intros Hdec He Hr. split.
  - destruct (claim_transaction_spec cursor t Hdec) as (xs & t' & E & _ & Hv & Hd).
    destruct (claim_transaction_spec cursor t' Hd) as (ys & t'' & E' & Hys & Hv' & _).
    assert (∀ x, x ∈ values (to_row <$> contents t' : table) → due cursor x = false) as Hno.
    { intros x [k Hk]%elem_of_values. rewrite Hv in Hk. by apply claimed_not_due in Hk. }
    assert (ys = []) as ->.
    { destruct ys as [|y ys]; [done|]. assert (norm y ∈ map norm (y :: ys)) as Hy by left.
      rewrite Hys, list_elem_of_In, List.filter_In, <- list_elem_of_In in Hy.
      destruct Hy as [Hy Hd']. rewrite (Hno _ Hy) in Hd'. done. }
    exists (connected t'' []). cbn [perform s_claim_due pg_ops]. unfold pg_claim_due, _ensure_pool.
    cbn [has_pool schema_ready connected andb].
    rewrite (retry_lost_after _ t e [] t' t''); [|done|by rewrite E|done]. split; [done|].
    change (pg_view (connected t'' [])) with (to_row <$> contents t'' : table).
    rewrite Hv', Hv. apply map_eq. intros k. rewrite !spec_claim_lookup.
    destruct ((to_row <$> contents t : table) !! k ≫= advance cursor) as [x|] eqn:Ex; [|done]. cbn.
    assert (due cursor x = false) as Hx by (apply (claimed_not_due cursor (pg_view (connected t [])) k);
      by rewrite spec_claim_lookup).
    unfold advance. by rewrite Hx.
  - cbn [perform s_cancel pg_ops]. unfold pg_cancel, _ensure_pool. cbn [has_pool schema_ready connected andb].
    unfold statement. pose proof (cancel_sql_law rid (pg_user r) t) as Hc1. rewrite Hr, String.eqb_refl in Hc1.
    destruct Hc1 as [_ Hc1]. set (t' := (_CANCEL_SQL rid (pg_user r) t).2) in *.
    pose proof (cancel_sql_law rid (pg_user r) t') as Hc2. rewrite Hc1, lookup_delete_eq in Hc2.
    destruct Hc2 as [Hc2 Hc3]. destruct (_CANCEL_SQL rid (pg_user r) t') as [status t''] eqn:E.
    cbn in Hc2, Hc3. subst status.
    rewrite (retry_lost_after _ t e "DELETE 0" t' t''); [|done| |by rewrite E].
    + exists (connected t'' []). split; [done|]. cbn. by rewrite Hc3, lookup_delete_eq.
    + unfold t'. by destruct (_CANCEL_SQL rid (pg_user r) t).
Qed.

(** ** Concrete inputs *)

(** A table as a list of rows, and its statements. *)
Definition table_of (t : list pgrow) : gmap string pgrow := list_to_map (map (λ r, (pg_id r, r)) t).
Definition upsert (r : pgrow) (m : gmap string pgrow) : gmap string pgrow :=
  match m !! pg_id r with
  | None => <[pg_id r := r]> m
  | Some old => if (pg_user old =? pg_user r)%string
                then <[pg_id r := set_created (pg_created old) r]> m else m
  end.
Definition next_leb (a b : pgrow) : bool := (pg_next a <=? pg_next b)%Z.
Definition demo_pg : Pg (list pgrow) := {|
  _SCHEMA_SQL t := t;
  _INSERT_SQL r t := all_rows (upsert r (table_of t));
  _CLAIM_DUE_SQL c t := sort_by next_leb (List.filter (λ r, (pg_next r <=? c)%Z) (all_rows (table_of t)));
  _SELECT_USER_SQL u t :=
    sort_by next_leb (List.filter (λ r, (pg_user r =? u)%string) (all_rows (table_of t)));
  _DELETE_SQL i t := all_rows (delete i (table_of t));
  _UPDATE_FIRE_AT_SQL n i t := all_rows (alter (set_next n) i (table_of t));
  _CANCEL_SQL i u t :=
    match table_of t !! i with
    | Some r => if (pg_user r =? u)%string then ("DELETE 1", all_rows (delete i (table_of t)))
                else ("DELETE 0", t)
    | None => ("DELETE 0", t)
    end;
|}.

Definition row_keyed (m : gmap string pgrow) : Prop := ∀ k r, m !! k = Some r → pg_id r = k.
Lemma table_of_keyed t : row_keyed (table_of t).
Proof.
  intros k r. induction t as [|r' t IH]; [done|]. unfold table_of. cbn [map]. rewrite list_to_map_cons.
  rewrite lookup_insert. case_decide; [|exact IH]. by intros [= <-].
Qed.
Lemma table_of_rows m : row_keyed m → table_of (all_rows m) = m.
Proof.
  intros Hk. unfold table_of, all_rows. rewrite map_map.
  replace (map _ (map_to_list m)) with (map_to_list m); [apply list_to_map_to_list|].
  rewrite <- (map_id (map_to_list m)) at 1. apply list_fmap_ext. intros i [k r] Hi.
  apply list_elem_of_lookup_2, elem_of_map_to_list in Hi. cbn. by rewrite (Hk k r).
Qed.

#[local] Existing Instance demo_pg.
Lemma demo_pg_laws : PgLaws (list pgrow).
Proof.
  refine (Build_PgLaws _ _ table_of table_of_keyed _ _ _ _ _ _ _); cbn.
  - done.
  - intros r t. apply table_of_rows. unfold upsert. intros k x.
    pose proof (table_of_keyed t) as Hk.
    destruct (table_of t !! pg_id r) as [old|]; [destruct (_ =? _)%string|]; try apply Hk;
      rewrite lookup_insert; case_decide; try apply Hk; by intros [= <-].
  - intros c t. apply sort_by_perm.
  - intros u t. split; [apply sort_by_perm|].
    set (l := sort_by _ _). assert (StronglySorted (λ a b, next_leb a b = true) l) as Hs.
    { unfold l. apply sort_by_total; unfold next_leb; intros *; rewrite !Z.leb_le; lia. }
    clearbody l. induction Hs as [|a m Hm IH Ha]; constructor; [done|].
    eapply Forall_impl; [exact Ha|]. intros b Hb. apply Z.leb_le. exact Hb.
  - intros i t. apply table_of_rows. intros k x. rewrite lookup_delete. case_decide; [done|]. apply table_of_keyed.
  - intros n i t. apply table_of_rows. intros k x. rewrite lookup_alter. case_decide; [|apply table_of_keyed].
    intros (y & Hy & ->)%fmap_Some. apply table_of_keyed in Hy. cbn. congruence.
  - intros i u t. destruct (table_of t !! i) as [r|]; [|done]. destruct (_ =? _)%string; [|done].
    split; [done|]. apply table_of_rows. intros k x. rewrite lookup_delete. case_decide; [done|]. apply table_of_keyed.
Defined.

Definition demo_asyncpg : Asyncpg := true.
Definition demo_float : PyFloat := λ _, "0.0".
#[local] Existing Instance demo_asyncpg.
#[local] Existing Instance demo_float.
#[local] Existing Instance demo_cron.
#[local] Existing Instance demo_cron_laws.
#[local] Existing Instance demo_pg_laws.

Definition demo_events : list event :=
  [EAdd "f1" (demo_row "digest" "ann" "0 * * * *" 10); EAdd "" (demo_row "feb30" "bob" "0 0 30 2 *" 20);
   EClaim 30; EListFor "ann"; ECancel "digest" "bob"; ECancel "digest" "ann"].
Definition demo_store : pgstore (list pgrow) := PgStore false false _DEFAULT_BASE_DELAY [] [].


Definition demo_pgrow : pgrow :=
  PgRow "digest" "ann" "lha" "0 * * * *" "summarise the inbox" "[]" "report_back" 10 0.
Definition demo_table : list pgrow := [demo_pgrow].
Lemma demo_decodes k r : contents demo_table !! k = Some r → decodes r.
Proof.
  change (contents demo_table) with (<["digest" := demo_pgrow]> (∅ : gmap string pgrow)).
  rewrite lookup_insert. case_decide; [|discriminate]. intros [= <-]. eexists. vm_compute. reflexivity.
Qed.

Lemma short_outage_hidden_witness :
  Forall (λ e, is_transient_disconnect e = true) [reset; reset] ∧
  perform (EClaim 30) (connected demo_table (map LostBefore [reset; reset]))
    = perform (EClaim 30) (connected demo_table []) ∧
  (perform (EClaim 30) (connected demo_table [])).1 =
    AClaimed (Ok [Row "digest" "ann" "lha" "0 * * * *" "summarise the inbox" [] "report_back" 10 0]).
Proof.
  assert (Forall (λ e, is_transient_disconnect e = true) [reset; reset]) as He by (repeat constructor).
  split; [exact He|]. split; [|vm_compute; reflexivity].
  refine (short_outage_hidden (EClaim 30) demo_table [reset; reset] demo_decodes He _). cbn. lia.
Defined.

Lemma lost_reply_loses_work_witness :
  contents demo_table !! "digest" = head demo_table ∧
  ((∃ s', perform (EClaim 30) (connected demo_table [LostAfter reset]) = (AClaimed (Ok []), s') ∧
      pg_view s' = spec_claim 30 (pg_view (connected demo_table []))) ∧
   (∃ s', perform (ECancel "digest" "ann") (connected demo_table [LostAfter reset]) = (ADone (Ok false), s') ∧
      contents (db s') !! "digest" = None)).
Proof.
  split; [reflexivity|].
  exact (lost_reply_loses_work demo_table reset 30 "digest"
    demo_pgrow demo_decodes eq_refl eq_refl).
Defined.
