(* ===== verification/RoutineTool.v ===== *)
(** * Routines: [routines/], [secrets/inject.py], [scheduler/routine_tick_endpoint.py]

    The tool that creates, tests, lists and cancels routines; the manifest it writes; the
    isolation a routine runs under and the secrets it sees; the endpoint that fires the
    routines that are due. The store is any store of the interface of RoutineStore.v. *)

From S2P Require Import Prelude PyStr Names Regex PyVal Sorting RegexFacts Overlay PermissionGuard RoutineStore.

(** ** Dates as text

    [datetime.isoformat()] of an aware UTC datetime, from microseconds since the epoch. *)

(** The civil date of a number of days since 1970-01-01. *)
Definition civil (days : Z) : Z * Z * Z :=
  let z := (days + 719468)%Z in
  let era := (z / 146097)%Z in
  let doe := (z - era * 146097)%Z in
  let yoe := ((doe - doe / 1460 + doe / 36524 - doe / 146096) / 365)%Z in
  let doy := (doe - (365 * yoe + yoe / 4 - yoe / 100))%Z in
  let mp := ((5 * doy + 2) / 153)%Z in
  let d := (doy - (153 * mp + 2) / 5 + 1)%Z in
  let m := (if mp <? 10 then mp + 3 else mp - 9)%Z in
  let y := (yoe + era * 400 + (if m <=? 2 then 1 else 0))%Z in
  (y, m, d).

Fixpoint zeros (n : nat) : string := match n with 0 => "" | S n' => String "0" (zeros n') end.
(** [f"{z:0{width}d}"] of a natural number *)
Definition padded (width : nat) (z : Z) : string :=
  let s := str_of_Z z in zeros (width - slen s) +:+ s.

Definition isoformat (t : Z) : string :=
  let '(y, m, d) := civil (t / 86400000000) in
  let us := (t mod 86400000000)%Z in
  let s := (us / 1000000)%Z in
  let frac := (us mod 1000000)%Z in
  padded 4 y +:+ "-" +:+ padded 2 m +:+ "-" +:+ padded 2 d +:+ "T"
  +:+ padded 2 (s / 3600) +:+ ":" +:+ padded 2 (s / 60 mod 60) +:+ ":" +:+ padded 2 (s mod 60)
  +:+ (if (frac =? 0)%Z then "" else "." +:+ padded 6 frac) +:+ "+00:00".

(** ** Isolation

    The context variables a routine's turn is run under. *)

Record RoutineRun := Run { run_id : string; run_owner : string }.

Record ctx := Ctx {
  _routine_run : option RoutineRun;
  _HEADLESS : bool;
  _routine_secret_scope : option (list string);
  _delegated_google_token : option string;
  identity : option string;       (** [get_user_id_from_context()] *)
}.

(** [frozenset(n for n in names if isinstance(n, str))] *)
Definition str_names (names : list pyval) : list string := omap is_str names.

(** [with routine_isolation(...)]: the context of the block. The variables have their
    former values after it. *)
Definition routine_isolation (routine_id owner : string) (names : list pyval) (c : ctx) : ctx :=
  Ctx (Some (Run routine_id owner)) true (Some (str_names names))
    (_delegated_google_token c) (identity c).

Definition user_identity_scope (user : string) (c : ctx) : ctx :=
  Ctx (_routine_run c) (_HEADLESS c) (_routine_secret_scope c) (_delegated_google_token c) (Some user).

(** [_resolve_secret_env]: [env_owner] is the [owner] of the active environment, [get_all]
    the secret store. *)
Definition _resolve_secret_env (env_owner : option string)
    (get_all : string → res (list (string * string))) (c : ctx) (allow : option (list string)) :
    list (string * string) :=
  let owner := match env_owner with
               | Some o => if (o =? "")%string then identity c else Some o
               | None => identity c end in
  match owner with
  | None => []
  | Some o =>
      if (o =? "")%string then []
      else match get_all o with
           | Raise _ => []
           | Ok secrets_ =>
               let result := match _delegated_google_token c with
                             | Some d => if (d =? "")%string then secrets_
                                         else dset secrets_ "CLOUDSDK_AUTH_ACCESS_TOKEN" d
                             | None => secrets_ end in
               match allow with
               | Some names => List.filter (λ kv, mem kv.1 names) result
               | None => result
               end
           end
  end.

Definition secret_env (env_owner : option string) (get_all : string → res (list (string * string)))
    (c : ctx) : list (string * string) :=
  _resolve_secret_env env_owner get_all c (_routine_secret_scope c).

Definition scoped_secret_env (env_owner : option string)
    (get_all : string → res (list (string * string))) (c : ctx) (declared : list pyval) :
    list (string * string) :=
  _resolve_secret_env env_owner get_all c (Some (str_names declared)).

Definition HEADLESS_PREAMBLE (routine_id : string) : string :=
  "You are running UNATTENDED as a scheduled routine (" +:+ routine_id +:+ "). No user is " +:+
  "present, so do not ask questions. You have your OWN fresh isolated sandbox: " +:+
  "shell commands (git clone, install, build, commit) run normally in it. " +:+
  "Anything else that would need interactive approval can't be granted, and " +:+
  "secret-exfiltration and known-destructive commands are still refused " +:+ em_dash +:+ " design " +:+
  "around those. Save files you want to keep with artifact(save); your final " +:+
  "text response is what gets reported back after the run. Task follows." +:+ NLs +:+ NLs.

(** ** Manifests *)

Definition DEFAULT_DELIVERY : string := "report_back".
Definition ROUTINE_OVERLAY_DIR : string := ".lha/routines".

Record RoutineManifest := Manifest {
  m_id : string; m_name : string; m_schedule : string; m_task : string;
  m_secrets : list string; m_delivery : string;
}.

Definition _nonempty_str (value : pyval) : option string :=
  match value with
  | PStr s => if (strip s =? "")%string then None else Some (strip s)
  | _ => None
  end.

Definition _str_tuple (value : pyval) : list string :=
  match value with
  | PStr s => if (strip s =? "")%string then [] else [strip s]
  | PList l => omap _nonempty_str l
  | _ => []
  end.

Definition parse_manifest (obj : pyval) (routine_id : string) : option RoutineManifest :=
  match obj with
  | PDict d =>
      match _nonempty_str (get d "name"), _nonempty_str (get d "schedule"),
            _nonempty_str (get d "task") with
      | Some name, Some sched, Some task_ =>
          if (routine_id =? "")%string then None
          else Some (Manifest routine_id name sched task_ (_str_tuple (get d "secrets"))
                       (default DEFAULT_DELIVERY (_nonempty_str (get d "delivery"))))
      | _, _, _ => None
      end
  | _ => None
  end.

(** [yaml.safe_dump(body, sort_keys=False)] *)
Class Yaml := safe_dump : pydict → string.

Definition manifest_path (e : env) (routine_id : string) : string :=
  path_div (path_div (default "" (e_working_dir e)) ROUTINE_OVERLAY_DIR) (routine_id +:+ ".yaml").

Definition write_routine_via_env `{Yaml} (f : fs) (e : env) (body : pydict) (routine_id : string) :
    res RoutineManifest * fs :=
  match parse_manifest (PDict body) routine_id with
  | None => (Raise (ValueError ("invalid routine manifest for " +:+ repr_str routine_id)), f)
  | Some m => (Ok m, env_write f e (manifest_path e routine_id) (safe_dump body))
  end.

(** ** The tool *)

Definition _SLUG_RE : regex := re_of "[^a-z0-9]+".

Definition _slug (name : string) : string :=
  let s := strip_by (one_of "-") (re_sub noflags _SLUG_RE "-" (lower name)) in
  if (s =? "")%string then "routine" else s.

(** [tool_context]: the user and the application of the invocation context (each may be
    missing), when there is one; the confirmation the call resumes with. *)
Record tool_ctx := ToolCtx {
  t_invocation : option (option string * option string);
  t_confirmation : option confirmation;
}.

Definition _identity (tc : tool_ctx) : option (string * string) :=
  match t_invocation tc with
  | None => None
  | Some (u, a) =>
      let user := default "" u in
      let app := default "" a in
      if (user =? "")%string || (app =? "")%string then None else Some (user, app)
  end.

Definition failure (msg : string) : pydict := [("success", PBool false); ("error", PStr msg)].

(** The store, and the world of the tool calls. *)
Record rworld (St : Type) := RWorld { rw_store : St; rw_world : world }.
Arguments RWorld {St}.
Arguments rw_store {St}.
Arguments rw_world {St}.

Definition with_fs (f : fs) (w : world) : world :=
  World (w_cache w) f (w_state w) (w_requests w) (w_skip w).

Section Tool.
Context `{PyFloat} `{Yaml} `{Croniter} {St : Type} `{StoreOps St}.
(** The active environment, the clock, the [uuid4] drawn for a row without an id. *)
Context (e : env) (now : Z) (fresh : string).

Definition routine_body (name sched task_ : string) (secrets_ : list pyval) (delivery_ : option string) : pydict :=
  [("name", PStr name); ("schedule", PStr sched); ("task", PStr task_); ("secrets", PList secrets_);
   ("delivery", PStr (or_text delivery_ DEFAULT_DELIVERY))].

Definition create_hint (name sched : string) (secrets_ : list pyval) : string :=
  "Schedule routine '" +:+ name +:+ "' (" +:+ sched +:+ ")? It runs unattended in an "
  +:+ "isolated sandbox with only these secrets: "
  +:+ (match secrets_ with [] => "none" | _ => py_repr (PList secrets_) end) +:+ ".".

(** After the confirmation: the manifest, then the row. *)
Definition register (routine_id user app name sched task_ : string) (secrets_ : list pyval)
    (body : pydict) (w : rworld St) : res pydict * rworld St :=
  let '(m, f) := write_routine_via_env (w_fs (rw_world w)) e body routine_id in
  let w1 := RWorld (rw_store w) (with_fs f (rw_world w)) in
  match m with
  | Raise x => (Raise x, w1)
  | Ok _ =>
      match next_cron_fire sched now with
      | Raise x => (Raise x, w1)
      | Ok next_at =>
          let delivery_ := match get body "delivery" with PStr d => d | _ => "" end in
          let row := Row routine_id user app sched task_ secrets_ delivery_ next_at now in
          let '(r, st) := s_add fresh row (rw_store w1) in
          let w2 := RWorld st (rw_world w1) in
          match r with
          | Raise x => (Raise x, w2)
          | Ok _ => (Ok [("success", PBool true); ("id", PStr routine_id);
                         ("next_fire_at", PStr (isoformat next_at))], w2)
          end
      end
  end.

Definition _create (name sched task_ : string) (secrets_ : list pyval) (delivery_ : option string)
    (tc : tool_ctx) (w : rworld St) : res pydict * rworld St :=
  if (name =? "")%string || (sched =? "")%string || (task_ =? "")%string
  then (Ok (failure "create requires name, schedule, task"), w)
  else if negb (is_valid_cron sched)
  then (Ok (failure ("invalid cron schedule " +:+ repr_str sched +:+ " (e.g. '0 8 * * *')")), w)
  else
    match _identity tc with
    | None => (Ok (failure "no active invocation context"), w)
    | Some (user, app) =>
        let routine_id := _slug name in
        let body := routine_body name sched task_ secrets_ delivery_ in
        let '(c, w') := request_user_confirmation (t_confirmation tc)
          (create_hint name sched secrets_)
          [("kind", PStr "routine"); ("manifest", PDict body); ("routine_id", PStr routine_id)]
          (rw_world w) in
        let w1 := RWorld (rw_store w) w' in
        match c with
        | None => (Ok [("success", PBool true); ("status", PStr "awaiting_user_response");
                       ("routine_id", PStr routine_id)], w1)
        | Some c =>
            if negb (tc_confirmed c)
            then (Ok [("success", PBool false); ("status", PStr "declined");
                      ("error", PStr "user declined")], w1)
            else register routine_id user app name sched task_ secrets_ body w1
        end
    end.

(** [run_routine_once], on the id, the owner, the task and the secrets. *)
Definition _test (run_once : string → string → string → list pyval → pydict)
    (name task_ : string) (secrets_ : list pyval) (tc : tool_ctx) (w : rworld St) :
    res pydict * rworld St :=
  if (task_ =? "")%string then (Ok (failure "test requires task"), w)
  else match _identity tc with
       | None => (Ok (failure "no active invocation context"), w)
       | Some (user, _) => (Ok (run_once (_slug name) user task_ secrets_), w)
       end.

Definition row_entry (r : RoutineRow) : pyval :=
  PDict [("id", PStr (id r)); ("schedule", PStr (schedule r));
         ("next_fire_at", PStr (isoformat (next_fire_at r)))].

Definition _list (tc : tool_ctx) (w : rworld St) : res pydict * rworld St :=
  match _identity tc with
  | None => (Ok (failure "no active invocation context"), w)
  | Some (user, _) =>
      let '(r, st) := s_list_for_user user (rw_store w) in
      (res_bind r (λ rs, Ok [("success", PBool true); ("routines", PList (map row_entry rs))]),
       RWorld st (rw_world w))
  end.

(** [env.delete_file(path)]; its failures are ignored. *)
Definition env_delete (f : fs) (en : env) (path : string) : fs :=
  FS (fs_host f) (delete (e_store en, path) (fs_remote f)).

Definition _cancel (rid : string) (tc : tool_ctx) (w : rworld St) : res pydict * rworld St :=
  if (rid =? "")%string then (Ok (failure "cancel requires id"), w)
  else match _identity tc with
       | None => (Ok (failure "no active invocation context"), w)
       | Some (user, _) =>
           let '(r, st) := s_cancel rid user (rw_store w) in
           match r with
           | Raise x => (Raise x, RWorld st (rw_world w))
           | Ok false => (Ok (failure "no such routine"), RWorld st (rw_world w))
           | Ok true =>
               (Ok [("success", PBool true); ("id", PStr rid)],
                RWorld st (with_fs (env_delete (w_fs (rw_world w)) e (manifest_path e rid)) (rw_world w)))
           end
       end.

Definition routine (run_once : string → string → string → list pyval → pydict)
    (action : string) (name sched task_ : option string) (secrets_ : option (list pyval))
    (delivery_ rid : option string) (tc : tool_ctx) (w : rworld St) : res pydict * rworld St :=
  if (action =? "test")%string
  then _test run_once (default "" name) (default "" task_) (default [] secrets_) tc w
  else if (action =? "create")%string
  then _create (default "" name) (default "" sched) (default "" task_) (default [] secrets_) delivery_ tc w
  else if (action =? "list")%string then _list tc w
  else if (action =? "cancel")%string then _cancel (default "" rid) tc w
  else (Ok (failure ("unknown action " +:+ repr_str action)), w).
End Tool.

(** ** Running once *)

(** A part of a message: its text, when it has one. *)
Definition part : Type := option string.
Definition part_text (p : part) : string := default "" p.

(** The parts of an event's content, when it has a content. *)
Definition _event_text (event : option (list part)) : string :=
  match event with
  | None => ""
  | Some parts => join "" (map part_text parts)
  end.

(** How draining the runner ends. *)
Inductive drain_end := Drained | TimedOut | Failed (cls msg : string).

(** The envelope, from the events seen and how the run ended; the run is under
    [routine_isolation] of the context. *)
Definition run_routine_once (runner : ctx → string → list (option (list part)) * drain_end)
    (duration_ms : Z) (c : ctx) (routine_id owner task_ : string) (secrets_ : list pyval) : pydict :=
  let '(events, fin) := runner (routine_isolation routine_id owner secrets_ c)
                          (HEADLESS_PREAMBLE routine_id +:+ task_) in
  let status := match fin with Drained => "completed" | TimedOut => "timeout" | Failed _ _ => "error" end in
  let output := match fin with
                | Failed cls msg => cls +:+ ": " +:+ msg
                | _ => join "" (map _event_text events) end in
  [("success", PBool (status =? "completed")%string); ("status", PStr status); ("output", PStr output);
   ("iterations", PInt (Z.of_nat (length events))); ("duration_ms", PInt duration_ms)].

(** ** Firing what is due *)

(** The A2A objects: a message has parts and a role; a task a status message, a history
    and artifacts. *)
Record a2a_message := Message { msg_parts : list part; msg_from_agent : bool }.
Record a2a_task := Task {
  status_message : option a2a_message;
  history : list a2a_message;
  artifacts : list (list part);
}.
Inductive a2a_result := RMessage (m : a2a_message) | RTask (t : a2a_task).

Definition _text_from_parts (parts : list part) : string :=
  join NLs (List.filter (λ t, negb (t =? "")%string) (map (λ p, strip (part_text p)) parts)).

Definition non_empty (t : string) : option string := if (t =? "")%string then None else Some t.

Definition _final_text_from_result (r : a2a_result) : string :=
  match r with
  | RMessage m => _text_from_parts (msg_parts m)
  | RTask t =>
      let of_message (m : a2a_message) := non_empty (_text_from_parts (msg_parts m)) in
      match status_message t ≫= of_message with
      | Some x => x
      | None =>
          match first_some (λ m, if msg_from_agent m then of_message m else None) (rev (history t)) with
          | Some x => x
          | None => default "" (first_some (λ a, non_empty (_text_from_parts a)) (artifacts t))
          end
      end
  end.

(** [scheduled_session_state] *)
Definition scheduled_session_state (job_type title : string) : pydict :=
  [("system:session_source", PStr "scheduler"); ("system:scheduler_job", PStr job_type); ("lha_chat_title", PStr title)].

Section Tick.
Context {W : Type}.
(** The session service and the request handler of the application, on a world of their
    own; the application name of the runner. *)
Context (create_session : string → string → pydict → W → res string * W).
Context (on_message_send : ctx → string → string → W → res a2a_result * W).
Context (runner_app : option string).

Definition _run_routine_turn (c : ctx) (session_id : string) (r : RoutineRow) (w : W) : res string * W :=
  let '(res_, w') := on_message_send c session_id (HEADLESS_PREAMBLE (id r) +:+ task r) w in
  (res_bind res_ (λ x, Ok (_final_text_from_result x)), w').

(** [available]: whether the application has a runner and a handler. *)
Definition _fire_routine (available : bool) (c : ctx) (r : RoutineRow) (w : W) : bool * W :=
  if negb available then (false, w)
  else
    let ci := routine_isolation (id r) (user_id r) (secrets r) c in
    let '(s, w1) := create_session (or_text runner_app (app_name r)) (user_id r)
                      (scheduled_session_state "routine" ("Routine: " +:+ id r)) w in
    match s with
    | Raise _ => (false, w1)
    | Ok session_id =>
        let '(t, w2) := _run_routine_turn (user_identity_scope (user_id r) ci) session_id r w1 in
        (match t with Ok _ => true | Raise _ => false end, w2)
    end.

Fixpoint fire_all (available : bool) (c : ctx) (claimed : list RoutineRow) (fired failed : nat) (w : W) :
    nat * nat * W :=
  match claimed with
  | [] => (fired, failed, w)
  | r :: rest =>
      let '(ok, w') := _fire_routine available c r w in
      fire_all available c rest (S fired) (if ok then failed else S failed) w'
  end.

Definition routine_tick `{StoreOps St} (now : Z) (available : bool) (c : ctx) (st : St) (w : W) :
    res pydict * St * W :=
  let '(r, st') := s_claim_due now st in
  match r with
  | Raise x => (Raise x, st', w)
  | Ok claimed =>
      let '(fired, failed, w') := fire_all available c claimed 0 0 w in
      (Ok (("fired", PInt (Z.of_nat fired))
           :: (if failed =? 0 then [] else [("failed", PInt (Z.of_nat failed))])), st', w')
  end.
End Tick.

(** * Facts *)

(** ** Slugs *)

Definition slug_alnum (c : ascii) : bool := is_lower_ascii c || is_decimal c.
Definition slug_char (c : ascii) : bool := slug_alnum c || Ascii.eqb c "-".

(** No two dashes in a row; [d]: the character before was one. *)
Fixpoint single_dashes (d : bool) (s : string) : bool :=
  match s with
  | "" => true
  | String c s' => if Ascii.eqb c "-" then negb d && single_dashes true s' else single_dashes false s'
  end.

(** Lower-case words and numbers joined by single dashes. *)
Definition is_slug (s : string) : Prop :=
  s ≠ "" ∧ sforall slug_char s = true ∧ single_dashes true s = true ∧ rstrip (one_of "-") s = s.

Definition _SLUG_ITEMS : list citem :=
  match _SLUG_RE with RSeq (RRep _ _ _ (RSet _ items)) _ => items | _ => [] end.

Lemma slug_class :
  _SLUG_RE = RSeq (RRep 1 None true (RSet true _SLUG_ITEMS)) REmpty ∧
  ∀ c, xorb true (set_has false _SLUG_ITEMS c) = negb (slug_alnum c).
Proof. split; [reflexivity|]. by intros [[] [] [] [] [] [] [] []]. Qed.

Definition dashed : bool → string → string := collapse (λ c, negb (slug_alnum c)) "-".

Lemma slug_sub s : re_sub noflags _SLUG_RE "-" s = dashed false s.
Proof.
  destruct slug_class as [-> Hc]. unfold re_sub. rewrite sub_class_plus by lia. by apply collapse_ext.
Qed.

Lemma dash_not_alnum c : slug_alnum c = true → Ascii.eqb c "-" = false.
Proof. by destruct c as [[] [] [] [] [] [] [] []]. Qed.

Lemma dashed_shape run s :
  sforall slug_char (dashed run s) = true ∧ single_dashes run (dashed run s) = true.
Proof.
  unfold dashed. revert run. induction s as [|c s IH]; intros run; [done|]. cbn [collapse].
  destruct (slug_alnum c) eqn:E; cbn [negb].
  - destruct (IH false) as [H1 H2]. cbn [sforall single_dashes]. unfold slug_char at 1.
    by rewrite E, H1, (dash_not_alnum c E), H2.
  - destruct (IH true) as [H1 H2]. destruct run; [done|].
    change ("-" +:+ ?x) with (String "-" x). cbn [sforall single_dashes negb andb].
    change (Ascii.eqb "-" "-") with true. by rewrite H1, H2.
Qed.

Lemma dashed_id run s : sforall slug_char s = true → single_dashes run s = true → dashed run s = s.
Proof.
  unfold dashed. revert run. induction s as [|c s IH]; intros run; [done|]. cbn [sforall single_dashes collapse].
  intros [Hc Hs]%andb_true_iff. unfold slug_char in Hc. apply orb_true_iff in Hc as [Hc|Hc].
  - rewrite Hc, (dash_not_alnum c Hc). cbn [negb]. intros Hd. by rewrite IH.
  - apply Ascii.eqb_eq in Hc as ->. change (Ascii.eqb "-" "-") with true.
    change (negb (slug_alnum "-")) with true. cbv iota. destruct run; cbn [negb andb]; [done|].
    intros Hd. change ("-" +:+ ?x) with (String "-" x). by rewrite IH.
Qed.

Lemma single_dashes_prefix d s t : single_dashes d (s +:+ t) = true → single_dashes d s = true.
Proof.
  revert d. induction s as [|c s IH]; intros d; [done|]. cbn [String.append single_dashes].
  destruct (Ascii.eqb c "-"); [|apply IH]. intros [-> H]%andb_true_iff. by apply IH.
Qed.

Lemma lstrip_dash d s : single_dashes d s = true → single_dashes true (lstrip (one_of "-") s) = true.
Proof.
  destruct s as [|c s]; [done|]. cbn [single_dashes lstrip]. unfold one_of at 1, has_char. cbn [sexists].
  rewrite orb_false_r. destruct (Ascii.eqb c "-") eqn:E.
  - intros [_ H]%andb_true_iff. destruct s as [|c' s]; [done|]. cbn [single_dashes lstrip] in *.
    unfold one_of, has_char. cbn [sexists]. rewrite orb_false_r.
    destruct (Ascii.eqb c' "-") eqn:E'; [by cbn in H|]. cbn [single_dashes]. by rewrite E'.
  - intros H. cbn [single_dashes]. by rewrite E.
Qed.

Lemma lstrip_id s : single_dashes true s = true → lstrip (one_of "-") s = s.
Proof.
  destruct s as [|c s]; [done|]. cbn [single_dashes lstrip]. unfold one_of, has_char. cbn [sexists].
  rewrite orb_false_r. by destruct (Ascii.eqb c "-").
Qed.

Lemma lower_slug s : sforall slug_char s = true → lower s = s.
Proof.
  unfold lower. induction s as [|c s IH]; [done|]. cbn [sforall smap]. intros [Hc Hs]%andb_true_iff.
  rewrite IH by done. f_equal. by destruct c as [[] [] [] [] [] [] [] []].
Qed.

(** ** Secrets *)

(** Whatever the owner of the environment and the secrets stored, the code of a routine
    sees no variable but those its row declares. *)
Lemma isolated_secrets rid owner names c env_owner get_all k v :
  (k, v) ∈ secret_env env_owner get_all (routine_isolation rid owner names c) → k ∈ str_names names.
Proof.
  unfold secret_env, _resolve_secret_env. cbn [_routine_secret_scope routine_isolation].
  repeat case_match; try by intros ?%elem_of_nil.
  all: intros Hk; apply list_elem_of_In, List.filter_In in Hk as [_ Hk]; by apply mem_spec.
Qed.

(** ** Firing *)

Section TickFacts.
Context {W : Type} (create_session : string → string → pydict → W → res string * W).
Context (runner_app : option string).
Implicit Types h : ctx → string → string → W → res a2a_result * W.

(** A context that is the isolation of the row [r]. *)
Definition isolates (r : RoutineRow) (c : ctx) : Prop :=
  _routine_run c = Some (Run (id r) (user_id r)) ∧ _HEADLESS c = true ∧ identity c = Some (user_id r) ∧
  ∀ env_owner get_all k v, (k, v) ∈ secret_env env_owner get_all c → k ∈ str_names (secrets r).

Lemma fire_isolates r c :
  isolates r (user_identity_scope (user_id r) (routine_isolation (id r) (user_id r) (secrets r) c)).
Proof.
  split_and!; [done..|]. intros env_owner get_all k v.
  apply (isolated_secrets (id r) (user_id r) (secrets r)
    (Ctx None false None (_delegated_google_token c) (Some (user_id r)))).
Qed.

Lemma fire_all_agree h1 h2 available c claimed n k w :
  (∀ r ci s m w, r ∈ claimed → isolates r ci → h1 ci s m w = h2 ci s m w) →
  fire_all create_session h1 runner_app available c claimed n k w =
  fire_all create_session h2 runner_app available c claimed n k w.
Proof.
  intros Hh. revert n k w. induction claimed as [|r rs IH]; intros n k w; [done|]. cbn [fire_all].
  assert (_fire_routine create_session h1 runner_app available c r w =
    _fire_routine create_session h2 runner_app available c r w) as ->.
  { unfold _fire_routine, _run_routine_turn. destruct (negb available); [done|].
    destruct (create_session _ _ _ w) as [[s|] w1]; [|done].
    rewrite (Hh r _ _ _ _ (list_elem_of_here _ _) (fire_isolates r c)). done. }
  destruct (_fire_routine _ _ _ _ _ _ _) as [ok w1]. apply IH. intros. apply (Hh r0); [by right|done].
Qed.

Lemma fire_all_count h available c claimed n k w :
  (fire_all create_session h runner_app available c claimed n k w).1.1 = n + length claimed ∧
  k ≤ (fire_all create_session h runner_app available c claimed n k w).1.2 ≤ k + length claimed.
Proof.
  revert n k w. induction claimed as [|r rs IH]; intros n k w; cbn [fire_all fst snd length]; [lia|].
  destruct (_fire_routine _ _ _ _ _ _ _) as [[] w1]; destruct (IH (S n) k w1), (IH (S n) (S k) w1); lia.
Qed.
End TickFacts.

(** ** The tool against the store's interface *)

Section ToolFacts.
Context `{PyFloat} `{Yaml} `{CroniterLaws} {St : Type} {handed : bool} `{!StoreOps St} `{L : !StoreLaws St handed}.

Lemma nonempty_text s : strip s ≠ "" → (s =? "")%string = false ∧ _nonempty_str (PStr s) = Some (strip s).
Proof.
  intros Hs. split; [by destruct s|]. unfold _nonempty_str. apply String.eqb_neq in Hs. by rewrite Hs.
Qed.

Lemma slug_nonempty n : _slug n ≠ "".
Proof. unfold _slug. destruct (String.eqb_spec (strip_by (one_of "-") (re_sub noflags _SLUG_RE "-" (lower n))) ""); done. Qed.

Lemma write_manifest f e name sched task_ secrets_ delivery_ :
  strip name ≠ "" → strip sched ≠ "" → strip task_ ≠ "" →
  ∃ m, write_routine_via_env f e (routine_body name sched task_ secrets_ delivery_) (_slug name) =
    (Ok m, env_write f e (manifest_path e (_slug name))
             (safe_dump (routine_body name sched task_ secrets_ delivery_))).
Proof.
  intros Hn Hs Ht. unfold write_routine_via_env, parse_manifest.
  change (get (routine_body name sched task_ secrets_ delivery_) "name") with (PStr name).
  change (get (routine_body name sched task_ secrets_ delivery_) "schedule") with (PStr sched).
  change (get (routine_body name sched task_ secrets_ delivery_) "task") with (PStr task_).
  destruct (nonempty_text _ Hn) as [_ ->], (nonempty_text _ Hs) as [_ ->], (nonempty_text _ Ht) as [_ ->].
  destruct (String.eqb_spec (_slug name) ""); [by apply slug_nonempty in e0|]. by eexists.
Qed.
End ToolFacts.

(** ** Properties *)

(** The id of a routine is a slug: not empty, lower-case letters, digits and single dashes,
    none at either end, so it names one file of the routines' directory. A name that is
    already a slug is its own id. *)
Theorem slug_spec (name : string) :
  is_slug (_slug name) ∧ (is_slug name → _slug name = name).
Proof.
  unfold _slug. rewrite slug_sub. split.
  - destruct (dashed_shape false (lower name)) as [Hc Hd].
    destruct (String.eqb_spec (strip_by (one_of "-") (dashed false (lower name))) "") as [_|Hne].
    { by split_and!. }
    unfold strip_by in *. pose proof (lstrip_dash _ _ Hd) as Hl.
    destruct (lstrip_suffix (one_of "-") (dashed false (lower name))) as [l El].
    rewrite El, sforall_app in Hc. apply andb_true_iff in Hc as [_ Hc].
    destruct (rstrip_prefix (one_of "-") (lstrip (one_of "-") (dashed false (lower name)))) as [r Er].
    split_and!; [done|..|apply rstrip_idem].
    + rewrite Er, sforall_app in Hc. by apply andb_true_iff in Hc as [Hc _].
    + rewrite Er in Hl. by apply single_dashes_prefix in Hl.
  - intros (Hne & Hc & Hd & Hr). rewrite lower_slug by done.
    assert (single_dashes false name = true) as Hd'.
    { destruct name as [|c name]; [done|]. cbn [single_dashes] in *. by destruct (Ascii.eqb c "-"). }
    rewrite dashed_id by done. unfold strip_by. rewrite lstrip_id, Hr by done.
    by destruct (String.eqb_spec name "").
Qed.

(** A routine is scheduled only with the user's approval: a call that does not resume with
    a confirmation the user gave leaves the store and the files as they were and does not
    report success with an id; the pending call asks, once. *)
Theorem create_needs_approval `{PyFloat} `{Yaml} `{Croniter} {St} `{StoreOps St} (e : env) (now : Z)
    (fresh name sched task_ : string) (secrets_ : list pyval) (delivery_ : option string)
    (tc : tool_ctx) (w : rworld St) :
  (t_confirmation tc ≫= λ c, if tc_confirmed c then Some tt else None) = None →
  ∃ reply w', _create e now fresh name sched task_ secrets_ delivery_ tc w = (Ok reply, w') ∧
    rw_store w' = rw_store w ∧ w_fs (rw_world w') = w_fs (rw_world w) ∧ dget reply "id" = None ∧
    (get reply "status" = PStr "awaiting_user_response" →
     ∃ q, w_requests (rw_world w') = w_requests (rw_world w) ++ [q]).
Proof.
  intros Hc. unfold _create. destruct (_ || _); [by eexists _, _|].
  destruct (negb (is_valid_cron sched)); [by eexists _, _|].
  destruct (_identity tc) as [[user app]|]; [|by eexists _, _].
  destruct (t_confirmation tc) as [[b p]|]; cbn [request_user_confirmation].
  - cbn in Hc. destruct b; [done|]. cbn. eexists _, _. split; [by destruct w|]. done.
  - eexists _, _. split; [done|]. cbn. split; [done|]. split; [done|]. split; [done|]. by eexists.
Qed.

(** What an approved creation does: the manifest is written where its id says and the reply
    gives the id and the next date. When nobody else holds the id, the row is stored as
    asked and the user's own list shows it. When another user does, nothing is stored,
    although the reply is the same. *)
Theorem create_registers `{PyFloat} `{Yaml} `{CroniterLaws} {St handed} `{!StoreOps St}
    `{!StoreLaws St handed} (e : env) (now t : Z) (fresh name sched task_ user app : string)
    (secrets_ : list pyval) (delivery_ : option string) (tc : tool_ctx) (w : rworld St) :
  let rid := _slug name in
  let row := Row rid user app sched task_ secrets_ (or_text delivery_ DEFAULT_DELIVERY) t now in
  inv (rw_store w) → accepts row → strip name ≠ "" → strip sched ≠ "" → strip task_ ≠ "" →
  (∃ p, t_confirmation tc = Some (Confirmation true p)) → _identity tc = Some (user, app) →
  next_cron_fire sched now = Ok t →
  ∃ w', _create e now fresh name sched task_ secrets_ delivery_ tc w =
      (Ok [("success", PBool true); ("id", PStr rid); ("next_fire_at", PStr (isoformat t))], w') ∧
    inv (rw_store w') ∧
    env_read (w_fs (rw_world w')) e (manifest_path e rid)
      = Ok (safe_dump (routine_body name sched task_ secrets_ delivery_)) ∧
    match view (rw_store w) !! rid with
    | Some old =>
        if owned_by user old
        then view (rw_store w') = <[rid := norm row]> (view (rw_store w))
        else view (rw_store w') = view (rw_store w)
    | None => view (rw_store w') = <[rid := norm row]> (view (rw_store w))
    end ∧
    (view (rw_store w') !! rid = Some (norm row) →
     ∃ entries w'', _list tc w' = (Ok [("success", PBool true); ("routines", PList entries)], w'') ∧
       row_entry row ∈ entries).
Proof.
  intros rid row Hi Hacc Hn Hs Ht [p Hconf] Hid Hnext. destruct w as [st0 w0].
  cbn [rw_store rw_world] in Hi |- *.
  assert (is_valid_cron sched = true) as Hv.
  { unfold next_cron_fire in Hnext. by destruct (is_valid_cron sched). }
  destruct (write_manifest (w_fs w0) e name sched task_ secrets_ delivery_ Hn Hs Ht) as [m Hm].
  destruct (add_law fresh row st0 Hi Hacc) as (st & Hadd & Hi' & Hview).
  assert (row_id fresh row = rid) as Hrid.
  { unfold row_id. cbn [id row]. destruct (String.eqb_spec rid ""); [|done]. by apply slug_nonempty in e0. }
  rewrite Hrid in Hview.
  eexists. split.
  { unfold _create. destruct (nonempty_text _ Hn) as [-> _], (nonempty_text _ Hs) as [-> _],
      (nonempty_text _ Ht) as [-> _]. cbn [orb]. rewrite Hv, Hid, Hconf. cbn [negb request_user_confirmation tc_confirmed].
    unfold register. cbn [rw_store rw_world]. rewrite Hm, Hnext.
    change (match get (routine_body name sched task_ secrets_ delivery_) "delivery" with PStr d => d | _ => "" end)
      with (or_text delivery_ DEFAULT_DELIVERY).
    fold rid. fold row. rewrite Hadd. reflexivity. }
  cbn [rw_store rw_world with_fs w_fs]. split; [done|]. split; [apply env_read_write|]. split.
  { rewrite Hview. unfold spec_add. change (with_id rid row) with row. cbn [user_id row].
    destruct (view st0 !! rid) as [old|]; [|done]. by destruct (owned_by user old). }
  intros Hrow. unfold _list. rewrite Hid. cbn [rw_store rw_world].
  destruct (list_law user st Hi') as (rs & st' & -> & _ & _ & Hp & _). cbn [res_bind].
  eexists _, _. split; [done|].
  assert (norm row ∈ map norm rs) as Hin.
  { rewrite Hp, list_elem_of_In, List.filter_In, <- list_elem_of_In, elem_of_values.
    split; [by exists rid|]. unfold owned_by. cbn. apply String.eqb_refl. }
  apply list_elem_of_fmap in Hin as (r' & Hr' & Hin). apply list_elem_of_fmap. exists r'. split; [|done].
  unfold row_entry. by destruct r'; cbn in Hr'; simplify_eq.
Qed.

(** The tick fires what is due, once: on a store that keeps the protocol it reports as
    fired exactly the due rows the store hands out, those of them that failed as failed,
    leaves none of them due, and a second tick at the same time fires nothing and runs
    nothing, whatever the first did to the world. *)
Theorem tick_fires_due_once `{CroniterLaws} {St handed} `{!StoreOps St} `{!StoreLaws St handed} {W}
    (create_session : string → string → pydict → W → res string * W)
    (handler : ctx → string → string → W → res a2a_result * W) (app : option string)
    (now : Z) (available : bool) (c : ctx) (st : St) (w : W) :
  inv st →
  let due_rows := List.filter (λ r, due now r && (handed || schedulable now r)) (values (view st)) in
  ∃ failed st' w', routine_tick create_session handler app now available c st w =
      (Ok (("fired", PInt (Z.of_nat (length due_rows)))
           :: (if failed =? 0 then [] else [("failed", PInt (Z.of_nat failed))])), st', w') ∧
    failed ≤ length due_rows ∧ inv st' ∧ view st' = spec_claim now (view st) ∧
    ∀ w2, ∃ st2, routine_tick create_session handler app now available c st' w2 =
      (Ok [("fired", PInt 0)], st2, w2).
Proof.
  intros Hi due_rows. unfold routine_tick.
  destruct (claim_law now st Hi) as (rs & st' & -> & Hi' & Hv & Hp).
  assert (length rs = length due_rows) as Hlen.
  { rewrite <- (length_map norm), Hp. done. }
  destruct (fire_all_count create_session app handler available c rs 0 0 w) as [Hfired Hfailed].
  destruct (fire_all create_session handler app available c rs 0 0 w) as [[fired failed] w'].
  cbn [fst snd] in *. subst fired. exists failed, st', w'. rewrite Nat.add_0_l, Hlen.
  split; [done|]. split; [lia|]. split; [done|]. split; [done|]. intros w2.
  destruct (claim_law now st' Hi') as (rs2 & st2 & -> & _ & _ & Hp2). exists st2.
  destruct rs2 as [|r2 rs2]; [done|]. exfalso.
  assert (norm r2 ∈ map norm (r2 :: rs2)) as Hr by left.
  rewrite Hp2, list_elem_of_In, List.filter_In, <- list_elem_of_In, elem_of_values in Hr.
  destruct Hr as [[k Hk] Hd]. rewrite Hv in Hk. apply claimed_not_due in Hk. by rewrite Hk in Hd.
Qed.

(** A routine's turn is isolated: a tick depends on the handler only as it behaves in the
    isolation of the rows claimed. There the run is marked with the routine's id and
    owner, headless, under the owner's identity, and the variables the secrets give, with
    any store of secrets and any environment, are among those the row declares. *)
Theorem tick_is_isolated `{StoreOps St} {W}
    (create_session : string → string → pydict → W → res string * W)
    (h1 h2 : ctx → string → string → W → res a2a_result * W) (app : option string)
    (now : Z) (available : bool) (c : ctx) (st : St) (w : W) :
  (∀ rs r ci s m w, (s_claim_due now st).1 = Ok rs → r ∈ rs → isolates r ci → h1 ci s m w = h2 ci s m w) →
  routine_tick create_session h1 app now available c st w =
  routine_tick create_session h2 app now available c st w.
Proof.
  intros Hh. unfold routine_tick. destruct (s_claim_due now st) as [[rs|] st']; [|done]. cbn [fst] in Hh.
  rewrite (fire_all_agree create_session app h1 h2 available c rs 0 0 w); [done|].
  intros r ci s m w' Hr Hci. by apply (Hh rs r).
Qed.

(** ** Concrete inputs *)

#[local] Existing Instance demo_cron.
#[local] Existing Instance demo_cron_laws.
Definition demo_yaml : Yaml := λ _, "name: Daily digest".
#[local] Existing Instance demo_yaml.
Definition tool_float : PyFloat := λ _, "0.0".
#[local] Existing Instance tool_float.

Example isoformat_epoch : isoformat 1735689600000001 = "2025-01-01T00:00:00.000001+00:00" ∧
  isoformat (1709208000 * 1000000) = "2024-02-29T12:00:00+00:00".
Proof. split; vm_compute; reflexivity. Qed.

Lemma slug_spec_witness :
  (is_slug (_slug "  Daily Digest!! (EU) ") ∧ (is_slug "daily-digest" → _slug "daily-digest" = "daily-digest")) ∧
  _slug "  Daily Digest!! (EU) " = "daily-digest-eu" ∧ _slug "***" = "routine".
Proof.
  split; [split|split; vm_compute; reflexivity].
  - exact (proj1 (slug_spec "  Daily Digest!! (EU) ")).
  - exact (proj2 (slug_spec "daily-digest")).
Defined.

Definition demo_env : env := Env "box" (Some "/workspace") false None.
Definition demo_world (st : rows) : rworld rows :=
  RWorld st (World empty_cache (FS ∅ ∅) None [] false).
Definition demo_ctx (c : option confirmation) : tool_ctx := ToolCtx (Some (Some "ann", Some "lha")) c.
Definition demo_create (c : option confirmation) (st : rows) :=
  _create demo_env 5 "f1" "Daily digest" "0 * * * *" "summarise" [PStr "MAIL"] None (demo_ctx c) (demo_world st).

Lemma create_needs_approval_witness :
  ∃ reply w', demo_create None [] = (Ok reply, w') ∧
    rw_store w' = [] ∧ w_fs (rw_world w') = FS ∅ ∅ ∧ dget reply "id" = None ∧
    (get reply "status" = PStr "awaiting_user_response" →
     ∃ q, w_requests (rw_world w') = [] ++ [q]).
Proof.
  exact (create_needs_approval demo_env 5 "f1" "Daily digest" "0 * * * *" "summarise" [PStr "MAIL"] None
    (demo_ctx None) (demo_world []) eq_refl).
Defined.

(** Bob holds the id: Ann is told that her routine is scheduled, and it is not. *)
Lemma create_registers_witness :
  let bobs := [("daily-digest", demo_row "daily-digest" "bob" "0 * * * *" 10)] in
  let conf := Some (Confirmation true PNone) in
  (∃ w', demo_create conf bobs =
      (Ok [("success", PBool true); ("id", PStr "daily-digest");
           ("next_fire_at", PStr (isoformat hour))], w') ∧
    mem_inv (rw_store w') ∧
    env_read (w_fs (rw_world w')) demo_env (manifest_path demo_env (_slug "Daily digest"))
      = Ok "name: Daily digest" ∧
    mem_view (rw_store w') = mem_view bobs ∧
    (mem_view (rw_store w') !! "daily-digest" =
       Some (norm (Row "daily-digest" "ann" "lha" "0 * * * *" "summarise" [PStr "MAIL"] "report_back" hour 5)) →
     ∃ entries w'', _list (demo_ctx conf) w' = (Ok [("success", PBool true); ("routines", PList entries)], w'') ∧
       row_entry (Row "daily-digest" "ann" "lha" "0 * * * *" "summarise" [PStr "MAIL"] "report_back" hour 5) ∈ entries)) ∧
  (_list (demo_ctx None) (demo_create conf []).2).1 =
    Ok [("success", PBool true); ("routines", PList [PDict [("id", PStr "daily-digest");
      ("schedule", PStr "0 * * * *"); ("next_fire_at", PStr "1970-01-01T01:00:00+00:00")]])].
Proof.
  intros bobs conf. split; [|vm_compute; reflexivity].
  refine (create_registers (St := rows) (handed := true) demo_env 5 hour "f1" "Daily digest" "0 * * * *"
    "summarise" "ann" "lha" [PStr "MAIL"] None (demo_ctx conf) (demo_world bobs) _ I _ _ _ _ eq_refl eq_refl).
  - apply (bool_decide_unpack _). vm_compute. exact I.
  - vm_compute. discriminate.
  - vm_compute. discriminate.
  - vm_compute. discriminate.
  - exists PNone. reflexivity.
Defined.

(** A world that records which routine ran, and with which secrets. *)
Definition logged : Type := list (string * list string).
Definition demo_session (app user : string) (st : pydict) (w : logged) : res string * logged := (Ok "s1", w).
Definition demo_handler (c : ctx) (s m : string) (w : logged) : res a2a_result * logged :=
  (Ok (RMessage (Message [Some "done"] true)),
   w ++ [(match _routine_run c with Some r => run_id r | None => "" end,
          map fst (secret_env None (λ _, Ok [("MAIL_TOKEN", "x"); ("AWS_KEY", "y")]) c))]).
Definition no_ctx : ctx := Ctx None false None None None.
Definition due_store : rows := [("digest", demo_row "digest" "ann" "0 * * * *" 10)].

Lemma tick_fires_due_once_witness :
  (mem_inv due_store ∧
   ∃ failed st' w', routine_tick demo_session demo_handler None 30 true no_ctx due_store [] =
      (Ok (("fired", PInt 1) :: (if failed =? 0 then [] else [("failed", PInt (Z.of_nat failed))])), st', w') ∧
    failed ≤ 1 ∧ mem_inv st' ∧ mem_view st' = spec_claim 30 (mem_view due_store) ∧
    ∀ w2, ∃ st2, routine_tick demo_session demo_handler None 30 true no_ctx st' w2 = (Ok [("fired", PInt 0)], st2, w2)) ∧
  (routine_tick demo_session demo_handler None 30 true no_ctx due_store []).2 = [("digest", ["MAIL_TOKEN"])].
Proof.
  assert (mem_inv due_store) as Hi by (apply (bool_decide_unpack _); vm_compute; exact I).
  split; [split; [exact Hi|]|vm_compute; reflexivity].
  exact (tick_fires_due_once (St := rows) (handed := true) demo_session demo_handler None 30 true no_ctx due_store [] Hi).
Defined.

(** A handler that would misbehave outside an isolation. *)
Definition rogue_handler (c : ctx) (s m : string) (w : logged) : res a2a_result * logged :=
  if _HEADLESS c then demo_handler c s m w else (Raise (RuntimeError "not isolated"), w).

Lemma tick_is_isolated_witness :
  routine_tick demo_session demo_handler None 30 true no_ctx due_store [] =
  routine_tick demo_session rogue_handler None 30 true no_ctx due_store [].
Proof.
  apply (tick_is_isolated (St := rows)). intros rs r ci s m w _ _ (_ & Hh & _). unfold rogue_handler.
  rewrite Hh. reflexivity.
Defined.
