(* ===== verification/ProcessRegistry.v ===== *)
(** * Background processes of a session: [environment/registry.py]

    Each session's registry of process handles, and the table of the registries. A
    handle is an object that other threads change: the process behind it exits. The
    model keeps the handles in a store of objects, and the registries hold references
    to them. Times are readings of [time.time()], in the unit of [finished_ttl_s]. *)

From S2P Require Import Prelude PyStr Names PyVal.

Definition DEFAULT_MAX_SESSIONS : Z := 32.
Definition DEFAULT_FINISHED_TTL_S : Z := 600.
Definition DEFAULT_MAX_SESSION_REGISTRIES : Z := 128.

(** ** Handles *)

Record handle := Handle { session_id : string; is_running : bool; finished_at : option Z }.

(** The objects, by identity. *)
Abbreviation objects := (nat → handle).

Definition set_obj (objs : objects) (r : nat) (h : handle) : objects :=
  λ s, if decide (s = r) then h else objs s.

(** ** One registry *)

Record registry := Registry {
  _max : Z; _ttl : Z;
  (** in insertion order *)
  _handles : list (string * nat)
}.
Definition new_registry : registry := Registry DEFAULT_MAX_SESSIONS DEFAULT_FINISHED_TTL_S [].
Definition with_handles (reg : registry) (l : list (string * nat)) : registry :=
  Registry (_max reg) (_ttl reg) l.

Definition len {A} (l : list A) : Z := Z.of_nat (length l).

Section Registry.
Context (objs : objects).

Definition running (kr : string * nat) : bool := is_running (objs kr.2).

(** The loop of [_enforce_cap] over the keys as they were; a key it looks up is always
    there. *)
Fixpoint evict_finished (cap : Z) (ks : list string) (l : list (string * nat)) :
    list (string * nat) :=
  match ks with
  | [] => l
  | sid :: ks' =>
      if (len l <=? cap)%Z then l
      else match dget l sid with
           | Some r => if is_running (objs r) then evict_finished cap ks' l
                       else evict_finished cap ks' (ddel l sid)
           | None => l
           end
  end.
Definition _enforce_cap (reg : registry) : registry :=
  if (len (_handles reg) <=? _max reg)%Z then reg
  else with_handles reg (evict_finished (_max reg) (keys (_handles reg)) (_handles reg)).

Definition register (reg : registry) (r : nat) : registry :=
  _enforce_cap (with_handles reg (dset (_handles reg) (session_id (objs r)) r)).

Definition expired (now ttl : Z) (r : nat) : bool :=
  negb (is_running (objs r)) &&
  match finished_at (objs r) with Some t => (ttl <? now - t)%Z | None => false end.
Definition gc (now : Z) (reg : registry) : registry :=
  with_handles reg
    (fold_left (λ l sid, ddel l sid)
       (keys (List.filter (λ kr, expired now (_ttl reg) kr.2) (_handles reg))) (_handles reg)).

(** The reads collect first. *)
Definition get_handle (now : Z) (reg : registry) (sid : string) : option nat * registry :=
  let reg := gc now reg in (dget (_handles reg) sid, reg).
Definition list_running (now : Z) (reg : registry) : list nat * registry :=
  let reg := gc now reg in (map snd (List.filter running (_handles reg)), reg).
Definition list_finished (now : Z) (reg : registry) : list nat * registry :=
  let reg := gc now reg in (map snd (List.filter (λ kr, negb (running kr)) (_handles reg)), reg).
Definition all_of (now : Z) (reg : registry) : list nat * registry :=
  let reg := gc now reg in (map snd (_handles reg), reg).

(** ** The table of registries *)

Abbreviation table := (list (string * registry)).

Definition busy (reg : registry) : bool := existsb running (_handles reg).

(** The first key, other than the protected one, whose registry holds no running
    handle. *)
Fixpoint first_idle (protected : string) (t : table) : option string :=
  match t with
  | [] => None
  | (key, reg) :: t' =>
      if (key =? protected)%string then first_idle protected t'
      else if negb (busy reg) then Some key else first_idle protected t'
  end.

Fixpoint prune_loop (fuel : nat) (t : table) : table :=
  if (len t <=? DEFAULT_MAX_SESSION_REGISTRIES)%Z then t
  else match fuel, last t with
       | S fuel', Some (protected, _) =>
           match first_idle protected t with
           | Some key => prune_loop fuel' (ddel t key)
           | None => t
           end
       | _, _ => t
       end.
(** Each round removes an entry: as many rounds as there are entries are enough. *)
Definition _prune_session_registries (t : table) : table := prune_loop (length t) t.

(** Setting the key, then [move_to_end]. *)
Definition for_session (t : table) (key : string) : registry * table :=
  let reg := default new_registry (dget t key) in
  (reg, _prune_session_registries (ddel t key ++ [(key, reg)])).

(** [resolve_registry(ctx).register(handle)] *)
Definition register_for (t : table) (key : string) (r : nat) : table :=
  let '(reg, t) := for_session t key in dset t key (register reg r).

(** [resolve_registry(ctx).get(session_id)] *)
Definition lookup_for (now : Z) (t : table) (key sid : string) : option nat * table :=
  let '(reg, t) := for_session t key in
  let '(found, reg) := get_handle now reg sid in (found, dset t key reg).

Fixpoint all_handles (now : Z) (t : table) : list nat * table :=
  match t with
  | [] => ([], [])
  | (key, reg) :: t' =>
      let '(hs, reg) := all_of now reg in
      let '(rest, t') := all_handles now t' in (hs ++ rest, (key, reg) :: t')
  end.

Fixpoint find_handle (now : Z) (t : table) (sid : string) : option nat * table :=
  match t with
  | [] => (None, [])
  | (key, reg) :: t' =>
      let '(found, reg) := get_handle now reg sid in
      match found with
      | Some r => (Some r, (key, reg) :: t')
      | None => let '(found, t') := find_handle now t' sid in (found, (key, reg) :: t')
      end
  end.
End Registry.

(** ** Which registry a call uses *)

(** [session_key_from_context]: the ids along the context, and the registry kept in the
    turn's own state when there is none. [temp]: the state's entry. *)
Inductive source := BySession (key : string) | ByState (existing : option registry).
Definition resolve_source (has_context : bool) (id : option string) (temp : option registry) : source :=
  match (if has_context then id else None) with
  | Some key => BySession key
  | None => ByState (if has_context then temp else None)
  end.
Definition for_state (existing : option registry) : registry := default new_registry existing.

(** * Facts *)

(** ** Dropping the first few *)

(** [l] without the first [n] of its elements that satisfy [P]. *)
Fixpoint drop_first {A} (P : A → bool) (n : nat) (l : list A) : list A :=
  match n, l with
  | S n', x :: l' => if P x then drop_first P n' l' else x :: drop_first P n l'
  | _, _ => l
  end.

Lemma drop_first_0 {A} (P : A → bool) l : drop_first P 0 l = l.
Proof. by destruct l. Qed.

Lemma drop_first_length {A} (P : A → bool) n l :
  length (drop_first P n l) = length l - Nat.min n (length (List.filter P l)).
Proof.
  revert n. induction l as [|x l IH]; intros [|n]; cbn [drop_first List.filter length]; try lia.
  pose proof (List.filter_length_le P l). destruct (P x); cbn [length]; rewrite IH; lia.
Qed.

(** What is not in [P] stays. *)
Lemma drop_first_keeps {A} (P : A → bool) n l x : P x = false → x ∈ l → x ∈ drop_first P n l.
Proof.
  intros Hx. revert n. induction l as [|y l IH]; intros [|n]; cbn; try done.
  intros [->|Hin]%elem_of_cons; [rewrite Hx; by left|].
  destruct (P y); [by apply IH|right; by apply IH].
Qed.

Lemma drop_first_in {A} (P : A → bool) n l x : x ∈ drop_first P n l → x ∈ l.
Proof.
  revert n. induction l as [|y l IH]; intros [|n]; cbn; try done.
  destruct (P y); rewrite ?elem_of_cons; [by intros ?%IH; right|naive_solver].
Qed.

(** When more is asked than there is, nothing of [P] is left. *)
Lemma drop_first_all {A} (P : A → bool) n l x :
  length (List.filter P l) ≤ n → x ∈ drop_first P n l → P x = false.
Proof.
  revert n. induction l as [|y l IH]; intros [|n]; cbn; try (by intros _ ?%elem_of_nil).
  - destruct (P y) eqn:E; cbn; [lia|]. intros Hl [->|Hin]%elem_of_cons; [done|].
    apply (IH 0); [done|by rewrite drop_first_0].
  - destruct (P y) eqn:E; cbn; intros Hl; [apply IH; lia|].
    intros [->|Hin]%elem_of_cons; [done|]. by apply (IH (S n)).
Qed.

Lemma drop_first_keys {V} (P : string * V → bool) n l x :
  x ∈ keys (drop_first P n l) → x ∈ keys l.
Proof.
  unfold keys. rewrite !list_elem_of_In, !in_map_iff. intros (y & <- & Hy). exists y.
  split; [done|]. rewrite <- list_elem_of_In in *. by eapply drop_first_in.
Qed.

Lemma drop_first_nodup {V} (P : string * V → bool) n l :
  NoDup (keys l) → NoDup (keys (drop_first P n l)).
Proof.
  revert n. induction l as [|[k v] l IH]; intros [|n] Hnd; cbn [drop_first]; try done.
  apply NoDup_cons in Hnd as [Hk Hnd]. destruct (P _); [by apply IH|].
  apply NoDup_cons. split; [|by apply IH]. intros Hin. apply Hk. by eapply (drop_first_keys P (S n)).
Qed.

(** ** The cap *)

Lemma dget_app_ne {V} (l l' : list (string * V)) k :
  k ∉ keys l → dget (l ++ l') k = dget l' k.
Proof.
  unfold keys. induction l as [|[k' v] l IH]; cbn; [done|].
  intros [Hne Hin]%not_elem_of_cons. apply String.eqb_neq in Hne as ->. by apply IH.
Qed.
Lemma ddel_app_ne {V} (l l' : list (string * V)) k :
  k ∉ keys l → ddel (l ++ l') k = l ++ ddel l' k.
Proof.
  unfold keys. induction l as [|[k' v] l IH]; cbn; [done|].
  intros [Hne Hin]%not_elem_of_cons. apply String.eqb_neq in Hne as ->. by rewrite IH.
Qed.

Lemma len_app {A} (l l' : list A) : len (l ++ l') = (len l + len l')%Z.
Proof. unfold len. rewrite length_app. lia. Qed.
Lemma len_cons {A} (x : A) l : len (x :: l) = (1 + len l)%Z.
Proof. unfold len. cbn [length]. lia. Qed.

Section Cap.
Context (objs : objects).
Abbreviation idle := (λ kr, negb (running objs kr)).

Lemma evict_finished_spec cap pre suf :
  NoDup (keys (pre ++ suf)) →
  evict_finished objs cap (keys suf) (pre ++ suf) =
    pre ++ drop_first idle (Z.to_nat (len (pre ++ suf) - cap)) suf.
Proof.
  revert pre. induction suf as [|[sid r] suf IH]; intros pre Hnd.
  { cbn. by destruct (Z.to_nat _). }
  cbn [keys map fst evict_finished]. fold (keys suf).
  destruct (Z.leb_spec (len (pre ++ (sid, r) :: suf)) cap).
  { by replace (Z.to_nat _) with 0 by lia. }
  destruct (Z.to_nat _) as [|n] eqn:En; [lia|].
  assert (sid ∉ keys pre) as Hsid.
  { unfold keys in *. rewrite map_app in Hnd. apply NoDup_app in Hnd as (_ & Hd & _).
    intros Hin. by apply (Hd sid Hin); left. }
  rewrite dget_app_ne by done. cbn [dget]. rewrite String.eqb_refl. cbn [drop_first running snd].
  unfold running at 1. cbn [snd]. destruct (is_running (objs r)); cbn [negb].
  - assert (pre ++ (sid, r) :: suf = (pre ++ [(sid, r)]) ++ suf) as E by (by rewrite <- app_assoc).
    rewrite E in *. rewrite IH, En by done. by rewrite <- app_assoc.
  - rewrite ddel_app_ne by done. cbn [ddel]. rewrite String.eqb_refl.
    rewrite IH.
    + f_equal. f_equal. rewrite !len_app, len_cons in *. lia.
    + unfold keys in *. rewrite map_app in *. cbn in Hnd.
      apply NoDup_app in Hnd as (H1 & H2 & [_ H3]%NoDup_cons). apply NoDup_app. split_and!; try done.
      intros x Hx Hs. apply (H2 x Hx). by right.
Qed.

(** The cap as a reference definition: drop the oldest finished handles, as many as the
    registry is over by. *)
Lemma enforce_cap_spec reg :
  NoDup (keys (_handles reg)) →
  _enforce_cap objs reg = with_handles reg
    (drop_first idle (Z.to_nat (len (_handles reg) - _max reg)) (_handles reg)).
Proof.
  intros Hnd. unfold _enforce_cap. destruct (Z.leb_spec (len (_handles reg)) (_max reg)).
  - replace (Z.to_nat _) with 0 by lia. rewrite drop_first_0. by destruct reg.
  - by rewrite (evict_finished_spec _ [] (_handles reg)).
Qed.
End Cap.

(** The result of a registration, in one registry: the handle is in it; a running handle
    that was in it under another name still is; the size is within the cap, or every
    handle left is running. Handles leave oldest first, and only finished ones. *)
Theorem register_spec objs reg r :
  NoDup (keys (_handles reg)) → (0 ≤ _max reg)%Z →
  let before := dset (_handles reg) (session_id (objs r)) r in
  let after := _handles (register objs reg r) in
  after = drop_first (λ kr, negb (running objs kr)) (Z.to_nat (len before - _max reg)) before ∧
  NoDup (keys after) ∧
  (∀ kr, kr ∈ before → running objs kr = true → kr ∈ after) ∧
  ((len after ≤ _max reg)%Z ∨ ∀ kr, kr ∈ after → running objs kr = true).
Proof.
  intros Hnd Hmax before after.
  assert (NoDup (keys before)) as Hb by (by apply NoDup_keys_dset).
  assert (after = drop_first (λ kr, negb (running objs kr)) (Z.to_nat (len before - _max reg)) before) as E.
  { subst after. unfold register. rewrite enforce_cap_spec by done. done. }
  rewrite E. split_and!; [done| | |].
  - by apply drop_first_nodup.
  - intros kr Hin Hr. apply drop_first_keeps; [by rewrite Hr|done].
  - destruct (decide (length (List.filter (λ kr, negb (running objs kr)) before)
      ≤ Z.to_nat (len before - _max reg))) as [Hle|Hgt].
    + right. intros kr Hin. apply negb_false_iff. exact (drop_first_all (λ kr, negb (running objs kr)) _ _ _ Hle Hin).
    + left. unfold len in *. rewrite drop_first_length.
      pose proof (List.filter_length_le (λ kr, negb (running objs kr)) before). lia.
Qed.

(** ** The table *)

Section Table.
Context (objs : objects).
Abbreviation free := (λ kr : string * registry, negb (busy objs kr.2)).

Lemma first_idle_spec l key reg :
  NoDup (keys (l ++ [(key, reg)])) →
  first_idle objs key (l ++ [(key, reg)]) = option_map fst (List.find free l).
Proof.
  unfold keys. induction l as [|[k v] l IH]; cbn; [by rewrite String.eqb_refl|].
  intros [Hk Hnd]%NoDup_cons.
  destruct (String.eqb_spec k key) as [->|_].
  { exfalso. apply Hk. rewrite map_app. apply elem_of_app. right. left. }
  destruct (negb (busy objs v)); [done|]. by apply IH.
Qed.

Lemma find_drop_first {V} (P : string * V → bool) l :
  NoDup (keys l) →
  match List.find P l with
  | Some kr => ∀ n, ddel l kr.1 = drop_first P 1 l ∧ drop_first P (S n) l = drop_first P n (ddel l kr.1)
  | None => ∀ n, drop_first P n l = l
  end.
Proof.
  unfold keys. induction l as [|[k v] l IH]; cbn [List.find map fst]; [by intros _ []|].
  intros [Hk Hnd]%NoDup_cons. destruct (P (k, v)) eqn:E.
  { intros n. cbn [ddel fst drop_first]. rewrite String.eqb_refl, E, drop_first_0. done. }
  specialize (IH Hnd). destruct (List.find P l) as [[k' v']|] eqn:Ef.
  - intros n. apply find_some in Ef as [Hin _]. cbn [fst] in *.
    assert ((k' =? k)%string = false) as Hne.
    { apply String.eqb_neq. intros ->. apply Hk. apply list_elem_of_In.
      apply in_map_iff. by exists (k, v'). }
    cbn [ddel drop_first]. rewrite Hne, E. destruct (IH n) as [IH1 IH2]. rewrite IH1.
    split; [done|]. rewrite IH2. destruct n; [by rewrite !drop_first_0, IH1|].
    cbn [drop_first]. by rewrite E, IH1.
  - intros [|n]; [done|]. cbn [drop_first]. by rewrite E, IH.
Qed.

Lemma ddel_length {V} (l : list (string * V)) k : k ∈ keys l → length l = S (length (ddel l k)).
Proof.
  unfold keys. induction l as [|[k' v] l IH]; cbn; [by intros ?%elem_of_nil|].
  destruct (String.eqb_spec k k') as [->|Hne]; [done|].
  intros [?|Hin]%elem_of_cons; [done|]. cbn. by rewrite (IH Hin).
Qed.

(** Pruning as a reference definition: of the registries before the one just asked for,
    drop the oldest that hold no running handle, as many as the table is over by. *)
Lemma prune_table_spec l key reg :
  NoDup (keys (l ++ [(key, reg)])) →
  _prune_session_registries objs (l ++ [(key, reg)]) =
    drop_first free (Z.to_nat (len l + 1 - DEFAULT_MAX_SESSION_REGISTRIES)) l ++ [(key, reg)].
Proof.
  unfold _prune_session_registries.
  assert (∀ fuel l, length l < fuel → NoDup (keys (l ++ [(key, reg)])) →
    prune_loop objs fuel (l ++ [(key, reg)]) =
    drop_first free (Z.to_nat (len l + 1 - DEFAULT_MAX_SESSION_REGISTRIES)) l ++ [(key, reg)]) as Hloop.
  { clear l. intros fuel. induction fuel as [|fuel IH]; intros l Hf Hnd; [lia|]. cbn [prune_loop].
    rewrite len_app. change (len [(key, reg)]) with 1%Z.
    destruct (Z.leb_spec (len l + 1) DEFAULT_MAX_SESSION_REGISTRIES).
    { replace (Z.to_nat _) with 0 by lia. by rewrite drop_first_0. }
    destruct (Z.to_nat _) as [|n] eqn:En; [lia|].
    rewrite last_snoc, first_idle_spec by done.
    assert (NoDup (keys l)) as Hl.
    { unfold keys in *. rewrite map_app in Hnd. by apply NoDup_app in Hnd as (? & _). }
    pose proof (find_drop_first free l Hl) as Hfd.
    destruct (List.find free l) as [[k v]|] eqn:Ef; cbn [option_map fst]; [|by rewrite Hfd].
    apply find_some in Ef as [Hin _].
    assert (k ∈ keys l) as Hk by (apply list_elem_of_In, in_map_iff; by exists (k, v)).
    assert (ddel (l ++ [(key, reg)]) k = ddel l k ++ [(key, reg)]) as ->.
    { clear -Hk. unfold keys in Hk. induction l as [|[k' v'] l IH]; [by apply elem_of_nil in Hk|].
      cbn. destruct (String.eqb_spec k k') as [->|Hne]; [done|]. cbn in *.
      apply elem_of_cons in Hk as [?|Hk]; [done|]. by rewrite IH. }
    pose proof (ddel_length l k Hk) as Hlen.
    rewrite IH; [|lia|].
    - f_equal. destruct (Hfd n) as [_ ->]. cbn [fst]. f_equal. unfold len in *. lia.
    - unfold keys in *. rewrite map_app in *. apply NoDup_app in Hnd as (_ & Hd & Hs).
      apply NoDup_app. split_and!; [by apply NoDup_keys_ddel| |done].
      intros x Hx. apply Hd. by eapply keys_ddel_sub. }
  intros Hnd. apply Hloop; [rewrite length_app; cbn; lia|done].
Qed.
End Table.

(** Asking for a session's registry gives the one it has, or a new one, and makes it the
    last of the table. A registry with a running handle is never dropped; the table is
    within its bound, or every other registry has one. *)
Theorem for_session_spec objs t key :
  NoDup (keys t) →
  let '(reg, t') := for_session objs t key in
  reg = default new_registry (dget t key) ∧ last t' = Some (key, reg) ∧ NoDup (keys t') ∧
  (∀ kr, kr ∈ t → kr.1 ≠ key → busy objs kr.2 = true → kr ∈ t') ∧
  (∀ kr, kr ∈ t' → kr.1 ≠ key → kr ∈ t) ∧
  ((len t' ≤ DEFAULT_MAX_SESSION_REGISTRIES)%Z ∨
   ∀ kr, kr ∈ t' → kr.1 ≠ key → busy objs kr.2 = true).
Proof.
  intros Hnd. unfold for_session. set (reg := default new_registry (dget t key)).
  assert (key ∉ keys (ddel t key)) as Hk by (by apply dget_None, dget_ddel_eq).
  assert (NoDup (keys (ddel t key ++ [(key, reg)]))) as Hnd'.
  { unfold keys in *. rewrite map_app. apply NoDup_app. split_and!.
    - by apply NoDup_keys_ddel.
    - intros x Hx ->%list_elem_of_singleton. done.
    - apply NoDup_singleton. }
  assert (∀ kr, kr ∈ ddel t key ↔ kr ∈ t ∧ kr.1 ≠ key) as Hdel by (intros; by apply ddel_in_iff).
  rewrite prune_table_spec by done. set (n := Z.to_nat _).
  set (idle := λ kr : string * registry, negb (busy objs kr.2)).
  split_and!.
  - done.
  - by rewrite last_snoc.
  - unfold keys in *. rewrite map_app in *. apply NoDup_app in Hnd' as (H1 & H2 & H3).
    apply NoDup_app. split_and!; try done.
    + by apply drop_first_nodup.
    + intros x Hx. apply H2. by eapply drop_first_keys.
  - intros kr Hin Hne Hb. apply elem_of_app. left. apply drop_first_keeps.
    + unfold idle. by rewrite Hb.
    + by apply Hdel.
  - intros kr [Hin|Hin]%elem_of_app Hne.
    + by apply drop_first_in, Hdel in Hin as [? _].
    + apply list_elem_of_singleton in Hin as ->. done.
  - destruct (decide (length (List.filter idle (ddel t key)) ≤ n)) as [Hle|Hgt].
    + right. intros kr [Hin|Hin]%elem_of_app Hne.
      * apply negb_false_iff. exact (drop_first_all idle _ _ _ Hle Hin).
      * apply list_elem_of_singleton in Hin as ->. done.
    + left. rewrite len_app. change (len [(key, reg)]) with 1%Z. unfold len in *.
      rewrite drop_first_length. pose proof (List.filter_length_le idle (ddel t key)). lia.
Qed.

(** ** A running process is never lost *)

Record world := World { w_objs : objects; w_table : list (string * registry) }.

(** What happens: a process is spawned in a session under a fresh id, or promoted; one
    exits; a session looks an id up, or lists, or is only asked for; the whole table is
    read or searched. *)
Inductive event :=
| Spawn (key sid : string) (r : nat)
| Exit (r : nat) (t : Z)
| Lookup (now : Z) (key sid : string)
| Touch (key : string)
| Scan (now : Z)
| Find (now : Z) (sid : string).

Definition step (w : world) (e : event) : world :=
  let objs := w_objs w in
  match e with
  | Spawn key sid r =>
      let objs := set_obj objs r (Handle sid true None) in
      World objs (register_for objs (w_table w) key r)
  | Exit r t => World (set_obj objs r (Handle (session_id (objs r)) false (Some t))) (w_table w)
  | Lookup now key sid => World objs (lookup_for objs now (w_table w) key sid).2
  | Touch key => World objs (for_session objs (w_table w) key).2
  | Scan now => World objs (all_handles objs now (w_table w)).2
  | Find now sid => World objs (find_handle objs now (w_table w) sid).2
  end.

Definition good_registry (reg : registry) : Prop := NoDup (keys (_handles reg)) ∧ (0 ≤ _max reg)%Z.
Definition good (t : list (string * registry)) : Prop :=
  NoDup (keys t) ∧ ∀ kr, kr ∈ t → good_registry kr.2.

(** The session [key] holds the object [r] under [sid], and it runs. *)
Definition holds (objs : objects) (t : list (string * registry)) (key sid : string) (r : nat) : Prop :=
  ∃ reg, (key, reg) ∈ t ∧ (sid, r) ∈ _handles reg ∧ is_running (objs r) = true.

Lemma gc_spec objs now reg :
  good_registry reg →
  good_registry (gc objs now reg) ∧
  ∀ kr, kr ∈ _handles reg → running objs kr = true → kr ∈ _handles (gc objs now reg).
Proof.
  intros [Hnd Hm]. unfold gc. cbn [_handles with_handles].
  set (ks := keys (List.filter (λ kr, expired objs now (_ttl reg) kr.2) (_handles reg))).
  assert (∀ kr, kr ∈ _handles reg → running objs kr = true → kr.1 ∉ ks) as Hks.
  { intros [k v] Hin Hr Hk. apply list_elem_of_In, in_map_iff in Hk as ([k' v'] & E & Hf).
    cbn in E. subst k'. apply filter_In in Hf as [Hin' He]. rewrite <- list_elem_of_In in Hin'.
    assert (v = v') as <-.
    { apply dget_of_in in Hin, Hin'; [|done..]. congruence. }
    unfold expired in He. unfold running in Hr. cbn in *. by rewrite Hr in He. }
  clearbody ks. revert Hnd Hks. generalize (_handles reg) as l. induction ks as [|k ks IH]; intros l Hnd Hks.
  { cbn. split; [done|auto]. }
  cbn [fold_left]. destruct (IH (ddel l k)) as [IH1 IH2].
  - by apply NoDup_keys_ddel.
  - intros kr Hin Hr. assert (kr ∈ l) as Hl by (by eapply ddel_in).
    specialize (Hks kr Hl Hr). by apply not_elem_of_cons in Hks as [_ ?].
  - split; [done|]. intros kr Hin Hr. apply IH2; [|done]. apply in_ddel; [done|].
    specialize (Hks kr Hin Hr). by apply not_elem_of_cons in Hks as [? _].
Qed.

Lemma holds_busy objs sid r reg :
  (sid, r) ∈ _handles reg → is_running (objs r) = true → busy objs reg = true.
Proof.
  intros Hin Hr. unfold busy. apply existsb_exists. exists (sid, r).
  by rewrite <- list_elem_of_In.
Qed.

Lemma for_session_good objs t key :
  good t →
  let '(reg, t') := for_session objs t key in
  good t' ∧ good_registry reg ∧ (key, reg) ∈ t' ∧
  ∀ k sid r, holds objs t k sid r →
    holds objs t' k sid r ∧ (k = key → (sid, r) ∈ _handles reg).
Proof.
  intros [Hnd Hg]. pose proof (for_session_spec objs t key Hnd) as Hs.
  destruct (for_session objs t key) as [reg t']. destruct Hs as (Hreg & Hl & Hnd' & Hkeep & Hfrom & _).
  assert ((key, reg) ∈ t') as Hin by (by apply last_Some_elem_of in Hl).
  assert (good_registry reg) as Hgr.
  { subst reg. destruct (dget t key) as [x|] eqn:E; [by apply dget_in, Hg in E|].
    split; [apply NoDup_nil_2|done]. }
  split_and!; try done.
  - split; [done|]. intros [k x] Hx. destruct (decide (k = key)) as [->|Hne].
    + apply dget_of_in in Hx, Hin; [|done..]. cbn. congruence.
    + by apply Hg, Hfrom.
  - intros k sid r (x & Hx & Hh & Hr). destruct (decide (k = key)) as [->|Hne].
    + assert (reg = x) as <-.
      { apply dget_of_in in Hx; [|done]. subst reg. by rewrite Hx. }
      split; [by exists reg|done].
    + split; [|done]. exists x. split_and!; try done. apply Hkeep; [done..|].
      by eapply holds_busy.
Qed.

(** Replacing a registry. *)
Lemma replace_good objs t key reg reg' :
  good t → (key, reg) ∈ t → good_registry reg' →
  good (dset t key reg') ∧
  ∀ k sid r, holds objs t k sid r →
    (k = key → (sid, r) ∈ _handles reg → (sid, r) ∈ _handles reg') →
    holds objs (dset t key reg') k sid r.
Proof.
  intros [Hnd Hg] Hin Hg'. split.
  - split; [by apply NoDup_keys_dset|]. by intros kr [->|?]%dset_in; [|apply Hg].
  - intros k sid r (x & Hx & Hh & Hr) Hk. destruct (decide (k = key)) as [->|Hne].
    + assert (reg = x) as <- by (apply dget_of_in in Hx, Hin; [congruence|done..]).
      exists reg'. split_and!; [apply in_dset|by apply Hk|done].
    + exists x. split_and!; try done. by apply in_dset_ne.
Qed.

(** A pass over the whole table, or over some of it. *)
Definition kept_by (objs : objects) (a b : string * registry) : Prop :=
  a.1 = b.1 ∧ good_registry b.2 ∧
  (∀ kr, kr ∈ _handles a.2 → running objs kr = true → kr ∈ _handles b.2) ∧
  ∀ kr, kr ∈ _handles b.2 → kr ∈ _handles a.2.

Lemma pass_good objs t t' :
  good t → Forall2 (kept_by objs) t t' →
  good t' ∧ ∀ k sid r, holds objs t k sid r → holds objs t' k sid r.
Proof.
  intros [Hnd _] Hf. split_and!.
  - assert (keys t' = keys t) as Hkeys.
    { clear Hnd. unfold keys. induction Hf as [|a b l l' (E & _) Hf IH]; cbn; [done|]. by rewrite E, IH. }
    split; [by rewrite Hkeys|]. clear -Hf. induction Hf as [|a b l l' (_ & Hg & _) Hf IH];
      intros kr; [by intros ?%elem_of_nil|]. intros [->|?]%elem_of_cons; [done|by apply IH].
  - intros k sid r (x & Hx & Hh & Hr). clear Hnd. induction Hf as [|a [kb b] l l' (E & _ & Hk & _) Hf IH];
      [by apply elem_of_nil in Hx|]. apply elem_of_cons in Hx as [<-|Hx].
    + cbn in *. subst kb. exists b. split_and!; [left|by apply Hk|done].
    + destruct (IH Hx) as (y & Hy & ?). exists y. split; [by right|done].
Qed.

Lemma gc_sub objs now reg kr : kr ∈ _handles (gc objs now reg) → kr ∈ _handles reg.
Proof.
  unfold gc. cbn [_handles with_handles]. generalize (keys (List.filter (λ kr, expired objs now (_ttl reg) kr.2) (_handles reg))).
  intros ks. generalize (_handles reg). induction ks as [|k ks IH]; intros l; cbn [fold_left]; [done|].
  intros Hin%IH. by eapply ddel_in.
Qed.

Lemma gc_pair objs now k reg : good_registry reg → kept_by objs (k, reg) (k, gc objs now reg).
Proof.
  intros Hg. destruct (gc_spec objs now reg Hg). split_and!; try done. intros kr. apply gc_sub.
Qed.

Lemma all_handles_pass objs now t :
  (∀ kr, kr ∈ t → good_registry kr.2) →
  Forall2 (kept_by objs) t (all_handles objs now t).2.
Proof.
  induction t as [|[k reg] t IH]; intros Hg; [constructor|]. cbn [all_handles].
  unfold all_of. destruct (all_handles objs now t) as [rest t'] eqn:E. cbn [snd].
  constructor.
  - apply gc_pair, (Hg (k, reg)). left.
  - apply IH. intros kr Hin. apply Hg. by right.
Qed.

Lemma same_pass objs t :
  (∀ kr, kr ∈ t → good_registry kr.2) →
  Forall2 (kept_by objs) t t.
Proof.
  induction t as [|kr t IH]; intros Hg; constructor.
  - split_and!; [done|apply Hg; left|..]; auto.
  - apply IH. intros x Hx. apply Hg. by right.
Qed.

Lemma find_handle_pass objs now sid t :
  (∀ kr, kr ∈ t → good_registry kr.2) →
  Forall2 (kept_by objs) t (find_handle objs now t sid).2.
Proof.
  induction t as [|[k reg] t IH]; intros Hg; [constructor|]. cbn [find_handle].
  unfold get_handle. destruct (dget _ sid) as [r|].
  - constructor; [apply gc_pair, (Hg (k, reg)); left|].
    apply same_pass. intros kr Hin. apply Hg. by right.
  - destruct (find_handle objs now t sid) as [f t'] eqn:E. cbn [snd]. constructor.
    + apply gc_pair, (Hg (k, reg)). left.
    + apply IH. intros kr Hin. apply Hg. by right.
Qed.

(** The events that could part a session from a process: its exit, and an id or an
    object used again. *)
Definition leaves_alone (key sid : string) (r : nat) (e : event) : Prop :=
  match e with
  | Exit r' _ => r' ≠ r
  | Spawn k s r' => r' ≠ r ∧ ¬ (k = key ∧ s = sid)
  | _ => True
  end.

Lemma register_good objs reg r :
  good_registry reg →
  good_registry (register objs reg r) ∧
  ∀ kr, kr ∈ dset (_handles reg) (session_id (objs r)) r → running objs kr = true →
    kr ∈ _handles (register objs reg r).
Proof.
  intros [Hnd Hm]. destruct (register_spec objs reg r Hnd Hm) as (_ & H1 & H2 & _).
  split; [|exact H2]. split; [exact H1|]. unfold register, _enforce_cap.
  by destruct (_ <=? _)%Z.
Qed.

Lemma spawn_good objs t key r :
  good t →
  good (register_for objs t key r) ∧
  (is_running (objs r) = true → holds objs (register_for objs t key r) key (session_id (objs r)) r) ∧
  ∀ k sid r', holds objs t k sid r' → (k = key → sid ≠ session_id (objs r)) →
    holds objs (register_for objs t key r) k sid r'.
Proof.
  intros Hg. unfold register_for. pose proof (for_session_good objs t key Hg) as Hs.
  destruct (for_session objs t key) as [reg t']. destruct Hs as (Hg' & Hgr & Hin & Hh).
  destruct (register_good objs reg r Hgr) as [Hgn Hk].
  destruct (replace_good objs t' key reg (register objs reg r) Hg' Hin Hgn) as [H1 H2].
  split_and!; [done| |].
  - intros Hr. exists (register objs reg r). split_and!; [apply in_dset|apply Hk; [apply in_dset|done]|done].
  - intros k sid r' Hold Hne. destruct (Hh k sid r' Hold) as [Hold' _]. apply H2; [done|].
    intros E Hreg. destruct Hold as (_ & _ & _ & Hr). apply Hk; [|done].
    apply in_dset_ne; [done|]. by apply Hne.
Qed.

Lemma step_good w e :
  good (w_table w) →
  good (w_table (step w e)) ∧
  ∀ key sid r, holds (w_objs w) (w_table w) key sid r → leaves_alone key sid r e →
    holds (w_objs (step w e)) (w_table (step w e)) key sid r.
Proof.
  intros Hg. destruct e as [k s r'|r' t|now k s|k|now|now s]; cbn [step w_objs w_table leaves_alone].
  - set (objs := set_obj _ _ _). destruct (spawn_good objs (w_table w) k r' Hg) as (H1 & _ & H2).
    assert (session_id (objs r') = s) as Es by (unfold objs, set_obj; by rewrite decide_True).
    split; [done|]. intros key sid r (reg & Hin & Hh & Hr) [Hr' Hne]. apply H2.
    + exists reg. split_and!; try done. unfold objs, set_obj. by rewrite decide_False by congruence.
    + rewrite Es. intros -> ->. naive_solver.
  - split; [done|]. intros key sid r (reg & Hin & Hh & Hr) Hne. exists reg. split_and!; try done.
    unfold set_obj. by rewrite decide_False by congruence.
  - unfold lookup_for. pose proof (for_session_good (w_objs w) (w_table w) k Hg) as Hs.
    destruct (for_session _ _ k) as [reg t']. destruct Hs as (Hg' & Hgr & Hin & Hh).
    unfold get_handle. cbn [snd]. destruct (gc_spec (w_objs w) now reg Hgr) as [Hgn Hk].
    destruct (replace_good (w_objs w) t' k reg _ Hg' Hin Hgn) as [H1 H2]. split; [done|].
    intros key sid r Hold _. destruct (Hh _ _ _ Hold) as [Hold' _]. apply H2; [done|].
    intros _ Hreg. destruct Hold as (_ & _ & _ & Hr). by apply Hk.
  - pose proof (for_session_good (w_objs w) (w_table w) k Hg) as Hs.
    destruct (for_session _ _ k) as [reg t']. destruct Hs as (Hg' & _ & _ & Hh). split; [done|].
    intros key sid r Hold _. by apply Hh.
  - destruct (pass_good (w_objs w) (w_table w) (all_handles (w_objs w) now (w_table w)).2 Hg) as [H1 H2];
      [apply all_handles_pass, Hg|]. split; [done|]. intros. by apply H2.
  - destruct (pass_good (w_objs w) (w_table w) (find_handle (w_objs w) now (w_table w) s).2 Hg) as [H1 H2];
      [apply find_handle_pass, Hg|]. split; [done|]. intros. by apply H2.
Qed.

Lemma steps_good evs w :
  good (w_table w) →
  good (w_table (fold_left step evs w)) ∧
  ∀ key sid r, holds (w_objs w) (w_table w) key sid r → Forall (leaves_alone key sid r) evs →
    holds (w_objs (fold_left step evs w)) (w_table (fold_left step evs w)) key sid r.
Proof.
  revert w. induction evs as [|e evs IH]; intros w Hg; cbn [fold_left]; [auto|].
  destruct (step_good w e Hg) as [H1 H2]. destruct (IH _ H1) as [H3 H4]. split; [done|].
  intros key sid r Hold [He Hevs]%Forall_cons. apply H4; [|done]. by apply H2.
Qed.

Lemma holds_lookup objs t key sid r now :
  good t → holds objs t key sid r → (lookup_for objs now t key sid).1 = Some r.
Proof.
  intros Hg Hh. unfold lookup_for. pose proof (for_session_good objs t key Hg) as Hs.
  destruct (for_session _ _ key) as [reg t']. destruct Hs as (_ & Hgr & _ & Hold).
  destruct (Hold key sid r Hh) as [_ Hreg]. specialize (Hreg eq_refl).
  destruct (gc_spec objs now reg Hgr) as [[Hnd _] Hk]. unfold get_handle. cbn [fst].
  apply dget_of_in; [done|]. destruct Hh as (_ & _ & _ & Hr). by apply Hk.
Qed.

(** A running process stays within reach of its session. Whatever has happened before,
    and whatever happens after a process is spawned (any number of sessions asking for
    their registries, spawning, exiting, looking up, the whole table being read), as long
    as it has not exited and neither its id in the session nor its object is used again,
    looking the id up in the session finds it, at any time: no cap and no expiry ever
    drops a running process. *)
Theorem running_is_found before key sid r after now :
  Forall (leaves_alone key sid r) after →
  let w := fold_left step after (step (fold_left step before (World (λ _, Handle "" false None) [])) (Spawn key sid r)) in
  (lookup_for (w_objs w) now (w_table w) key sid).1 = Some r.
Proof.
  intros Hall. set (w0 := fold_left step before _).
  assert (good (w_table w0)) as Hg0.
  { apply (steps_good before). split; [apply NoDup_nil_2|]. by intros kr ?%elem_of_nil. }
  assert (good (w_table (step w0 (Spawn key sid r)))) as Hg1 by (by apply step_good).
  assert (holds (w_objs (step w0 (Spawn key sid r))) (w_table (step w0 (Spawn key sid r))) key sid r) as Hh.
  { cbn [step w_objs w_table]. set (objs := set_obj _ _ _).
    assert (objs r = Handle sid true None) as Eo by (unfold objs, set_obj; by rewrite decide_True).
    destruct (spawn_good objs (w_table w0) key r Hg0) as (_ & H1 & _). rewrite Eo in H1. by apply H1. }
  destruct (steps_good after _ Hg1) as [Hg2 Hh2]. specialize (Hh2 key sid r Hh Hall).
  cbv zeta. by apply holds_lookup.
Qed.

(** ** Sessions do not see each other's processes *)

Definition comes_from (evs : list event) (t : list (string * registry)) : Prop :=
  ∀ key reg sid r, (key, reg) ∈ t → (sid, r) ∈ _handles reg → Spawn key sid r ∈ evs.

Lemma pass_from objs evs t t' :
  Forall2 (kept_by objs) t t' → comes_from evs t → comes_from evs t'.
Proof.
  intros Hf Hc key reg sid r Hin Hh. apply list_elem_of_lookup in Hin as [i Hi].
  destruct (Forall2_lookup_r _ _ _ _ _ Hf Hi) as ([k x] & Hx & E & _ & _ & Hs). cbn in *. subst k.
  eapply Hc; [by eapply list_elem_of_lookup_2|by apply Hs].
Qed.

Lemma for_session_from objs evs t key :
  NoDup (keys t) → comes_from evs t →
  let '(reg, t') := for_session objs t key in
  comes_from evs t' ∧ ∀ sid r, (sid, r) ∈ _handles reg → Spawn key sid r ∈ evs.
Proof.
  intros Hnd Hc. pose proof (for_session_spec objs t key Hnd) as Hs.
  destruct (for_session objs t key) as [reg t']. destruct Hs as (Hreg & Hl & Hnd' & _ & Hfrom & _).
  assert (∀ sid r, (sid, r) ∈ _handles reg → Spawn key sid r ∈ evs) as Hown.
  { subst reg. intros sid r. destruct (dget t key) as [x|] eqn:E; [|by intros ?%elem_of_nil].
    apply Hc. by apply dget_in. }
  split; [|done]. intros k x sid r Hin. destruct (decide (k = key)) as [->|Hne].
  - apply last_Some_elem_of in Hl. apply dget_of_in in Hin, Hl; [|done..].
    assert (x = reg) as -> by congruence. apply Hown.
  - apply Hc. by apply (Hfrom (k, x)).
Qed.

Lemma replace_from evs t key reg :
  comes_from evs t → (∀ sid r, (sid, r) ∈ _handles reg → Spawn key sid r ∈ evs) →
  comes_from evs (dset t key reg).
Proof. intros Hc Hr k x sid r [[= -> ->]|Hin]%dset_in; [apply Hr|by eapply Hc]. Qed.

Lemma step_from evs w e :
  good (w_table w) → comes_from evs (w_table w) → comes_from (e :: evs) (w_table (step w e)).
Proof.
  intros Hg Hc0. assert (comes_from (e :: evs) (w_table w)) as Hc.
  { intros k x sid r Hin Hh. right. by eapply Hc0. }
  destruct e as [k s r'|r' t|now k s|k|now|now s]; cbn [step w_objs w_table] in *; try done.
  - set (objs := set_obj _ _ _). unfold register_for.
    pose proof (for_session_from objs _ _ k (proj1 Hg) Hc) as Hs.
    pose proof (for_session_good objs _ k Hg) as Hgs.
    destruct (for_session objs (w_table w) k) as [reg t']. destruct Hs as [H1 H2].
    destruct Hgs as (_ & [Hnd Hm] & _). apply replace_from; [done|]. intros sid r Hin.
    assert (session_id (objs r') = s) as Es by (unfold objs, set_obj; by rewrite decide_True).
    destruct (register_spec objs reg r' Hnd Hm) as (E & _). rewrite E, Es in Hin.
    apply drop_first_in, dset_in in Hin as [[= -> ->]|Hin]; [left|by apply H2].
  - unfold lookup_for. pose proof (for_session_from (w_objs w) _ _ k (proj1 Hg) Hc) as Hs.
    destruct (for_session _ _ k) as [reg t']. destruct Hs as [H1 H2]. unfold get_handle. cbn [snd].
    apply replace_from; [done|]. intros sid r Hin. by apply H2; apply gc_sub in Hin.
  - pose proof (for_session_from (w_objs w) _ _ k (proj1 Hg) Hc) as Hs.
    destruct (for_session _ _ k) as [reg t']. by destruct Hs.
  - eapply pass_from; [|exact Hc]. apply all_handles_pass, Hg.
  - eapply pass_from; [|exact Hc]. apply find_handle_pass, Hg.
Qed.

(** A session can reach a process only if the process was spawned in that very session
    under the id it names, whatever the other sessions did. *)
Theorem lookup_is_own evs key sid r now :
  let w := fold_left step evs (World (λ _, Handle "" false None) []) in
  (lookup_for (w_objs w) now (w_table w) key sid).1 = Some r → Spawn key sid r ∈ evs.
Proof.
  cbv zeta. assert (∀ evs0 w, good (w_table w) → comes_from evs0 (w_table w) →
    (lookup_for (w_objs (fold_left step evs w)) now (w_table (fold_left step evs w)) key sid).1 = Some r →
    Spawn key sid r ∈ rev evs ++ evs0) as Hall.
  { induction evs as [|e evs IH]; intros evs0 w Hg Hc; cbn [fold_left rev app].
    - unfold lookup_for. pose proof (for_session_from (w_objs w) _ _ key (proj1 Hg) Hc) as Hs.
      destruct (for_session _ _ key) as [reg t']. destruct Hs as [_ H2]. unfold get_handle. cbn [fst].
      intros Hd%dget_in%gc_sub. by apply H2.
    - intros Hl. rewrite <- app_assoc. cbn [app]. apply (IH (e :: evs0) (step w e)); try done.
      + by apply step_good.
      + by apply step_from. }
  intros Hl. apply Hall with (evs0 := []) in Hl.
  - rewrite app_nil_r in Hl. rewrite list_elem_of_In in *. by apply in_rev.
  - split; [apply NoDup_nil_2|]. by intros kr ?%elem_of_nil.
  - by intros ? ? ? ? ?%elem_of_nil.
Qed.

(** ** Concrete inputs *)

Lemma running_is_found_witness :
  let after := [Touch "b"; Spawn "a" "p2" 2; Exit 2 5; Scan 1000; Find 2000 "p2"; Lookup 3000 "a" "p2"] in
  Forall (leaves_alone "a" "p1" 1) after ∧
  let w := fold_left step after (step (fold_left step [Spawn "a" "p0" 0; Exit 0 1] (World (λ _, Handle "" false None) [])) (Spawn "a" "p1" 1)) in
  (lookup_for (w_objs w) 9999 (w_table w) "a" "p1").1 = Some 1.
Proof.
  intros after.
  assert (Forall (leaves_alone "a" "p1" 1) after) as Hall.
  { subst after. repeat constructor; cbn; intuition congruence. }
  split; [exact Hall|]. exact (running_is_found [Spawn "a" "p0" 0; Exit 0 1] "a" "p1" 1 after 9999 Hall).
Defined.

Definition demo_objects : objects := λ r, Handle ("p" +:+ str_of_nat r) (Nat.even r) (Some 0%Z).

Lemma register_spec_witness :
  let reg := Registry 2 600 [("p0", 0); ("p1", 1); ("p3", 3)] in
  let before := dset (_handles reg) (session_id (demo_objects 4)) 4 in
  let after := _handles (register demo_objects reg 4) in
  after = [("p0", 0); ("p4", 4)] ∧
  (after = drop_first (λ kr, negb (running demo_objects kr)) (Z.to_nat (len before - _max reg)) before ∧
   NoDup (keys after) ∧
   (∀ kr, kr ∈ before → running demo_objects kr = true → kr ∈ after) ∧
   ((len after ≤ _max reg)%Z ∨ ∀ kr, kr ∈ after → running demo_objects kr = true)).
Proof.
  intros reg before after. split; [vm_compute; reflexivity|].
  apply (register_spec demo_objects reg 4).
  - apply (bool_decide_unpack _). vm_compute. exact I.
  - cbn. lia.
Defined.

Lemma for_session_spec_witness :
  let t := [("a", Registry 32 600 [("p0", 0)])] in
  let '(reg, t') := for_session demo_objects t "b" in
  reg = default new_registry (dget t "b") ∧ last t' = Some ("b", reg) ∧ NoDup (keys t') ∧
  (∀ kr, kr ∈ t → kr.1 ≠ "b" → busy demo_objects kr.2 = true → kr ∈ t') ∧
  (∀ kr, kr ∈ t' → kr.1 ≠ "b" → kr ∈ t) ∧
  ((len t' ≤ DEFAULT_MAX_SESSION_REGISTRIES)%Z ∨
   ∀ kr, kr ∈ t' → kr.1 ≠ "b" → busy demo_objects kr.2 = true).
Proof.
  apply (for_session_spec demo_objects [("a", Registry 32 600 [("p0", 0)])] "b").
  apply (bool_decide_unpack _). vm_compute. exact I.
Defined.

Lemma lookup_is_own_witness :
  let evs := [Spawn "a" "p1" 1; Spawn "b" "p2" 2; Exit 1 5] in
  let w := fold_left step evs (World (λ _, Handle "" false None) []) in
  (lookup_for (w_objs w) 10 (w_table w) "b" "p2").1 = Some 2 ∧ Spawn "b" "p2" 2 ∈ evs ∧
  (lookup_for (w_objs w) 10 (w_table w) "a" "p2").1 = None.
Proof.
  intros evs w.
  assert ((lookup_for (w_objs w) 10 (w_table w) "b" "p2").1 = Some 2) as H by (vm_compute; reflexivity).
  split; [exact H|]. split; [exact (lookup_is_own evs "b" "p2" 2 10 H)|vm_compute; reflexivity].
Defined.
