(* ===== verification/ProcessTool.v ===== *)
(** * The shell tools: [tools/processes] and the buffer of [environment/local_process.py]

    [bash] runs a command in the foreground and promotes it when its time is up;
    [process] drives the promoted and spawned ones through the registry of the calling
    session. A local handle keeps the last bytes of the output, and a reader pages
    through them by absolute offsets. Bytes and decoded texts are lists of integers, as
    in [OutputOverflow]. What the host does (spawning, waiting, signals, writing to the
    terminal) is a parameter. Times are in milliseconds. *)

From S2P Require Import Prelude PyStr Names PyVal Overlay OutputOverflow ProcessRegistry.
Import Utf8.

Definition DEFAULT_BUFFER_BYTES : Z := 200 * 1024.
Definition POLL_TAIL_BYTES : Z := 1024.
Definition DEFAULT_LOG_LIMIT : Z := 8192.
Definition _WAIT_FOR_POLL_MS : Z := 200.
Definition _DEFAULT_WAIT_FOR_TIMEOUT_MS : Z := 60000.

(** ** The local handle *)

Record local_handle := Local {
  lh_id : string; lh_command : string; lh_pid : Z; lh_started_at : Z;
  lh_finished_at : option Z;
  _buffer_bytes : Z; _buffer : list Z; _total_bytes : Z;
  _exit_code : option Z;
  (** [_exit_event] is set *)
  _exited : bool
}.

Definition started (id command : string) (pid now : Z) : local_handle :=
  Local id command pid now None DEFAULT_BUFFER_BYTES [] 0 None false.

(** The reader thread, on a chunk: [del self._buffer[:overflow]]. *)
Definition on_chunk (chunk : list Z) (h : local_handle) : local_handle :=
  let buffer := _buffer h ++ chunk in
  let overflow := (len buffer - _buffer_bytes h)%Z in
  Local (lh_id h) (lh_command h) (lh_pid h) (lh_started_at h) (lh_finished_at h) (_buffer_bytes h)
    (if (0 <? overflow)%Z then drop (Z.to_nat overflow) buffer else buffer)
    (_total_bytes h + len chunk) (_exit_code h) (_exited h).

(** ... and when it ends. *)
Definition on_exit (code : option Z) (now : Z) (h : local_handle) : local_handle :=
  Local (lh_id h) (lh_command h) (lh_pid h) (lh_started_at h) (Some now) (_buffer_bytes h)
    (_buffer h) (_total_bytes h) code true.

Definition alive (h : local_handle) : bool := negb (_exited h).

(** [l[a:b]] for a start within the list. *)
Definition slice {A} (l : list A) (a b : Z) : list A :=
  let n := len l in
  let stop := (if b <? 0 then Z.max 0 (n + b) else Z.min b n)%Z in
  take (Z.to_nat (stop - a)) (drop (Z.to_nat a) l).

(** [(data, next_offset, exit_code)] *)
Definition read (h : local_handle) (offset : Z) (limit : option Z) : list Z * Z * option Z :=
  let buffer_start := (_total_bytes h - len (_buffer h))%Z in
  let slice_start := (Z.max offset buffer_start - buffer_start)%Z in
  let slice_start := Z.max 0 (Z.min slice_start (len (_buffer h))) in
  let data := match limit with
              | None => drop (Z.to_nat slice_start) (_buffer h)
              | Some l => slice (_buffer h) slice_start (slice_start + l)
              end in
  (data, (buffer_start + slice_start + len data)%Z, _exit_code h).

(** [s.replace(old, new)] for a non-empty [old]; [skip]: characters of an occurrence
    still to pass. *)
Fixpoint replace_from (old new : string) (skip : nat) (s : string) : string :=
  match s with
  | "" => ""
  | String c s' =>
      match skip with
      | S k => replace_from old new k s'
      | 0 => if startswith old s then new +:+ replace_from old new (slen old - 1) s'
             else String c (replace_from old new 0 s')
      end
  end.
Definition replace_sub (old new s : string) : string := replace_from old new 0 s.

(** ** Replies *)

Definition status_of_handle (h : local_handle) : string := if alive h then "running" else "exited".

Record summary := Summary {
  s_session_id : string; s_command : string; s_pid : Z; s_status : string;
  s_exit_code : option Z; s_started_at : Z; s_finished_at : option Z; s_output_size : Z
}.
Definition _summarize (h : local_handle) : summary :=
  Summary (lh_id h) (lh_command h) (lh_pid h) (status_of_handle h) (_exit_code h)
    (lh_started_at h) (lh_finished_at h) (_total_bytes h).

Inductive wait_outcome :=
| Matched (text : list Z) (status : string) (exit_code : option Z) (tail : list Z)
| ExitedFirst (exit_code : option Z) (tail : list Z)
| TimedOut (tail : list Z).

Inductive reply :=
| Error (msg : string)
| Listing (running finished : list summary)
| Spawned (session_id : string) (pid : Z) (command : string)
| Polled (session_id status : string) (exit_code : option Z) (tail : list Z) (output_size : Z)
    (prompt : option (list Z))
| Logged (session_id : string) (data : list Z) (offset next_offset : Z) (exit_code : option Z)
    (status : string)
| Waited (session_id status : string) (exit_code : option Z) (timed_out : bool)
| WaitedFor (session_id pattern : string) (outcome : wait_outcome)
| Killed (session_id : string) (exit_code : option Z)
| Written (session_id : string) (bytes : Z).

(** ** [wait_for] *)

Section WaitFor.
(** What each poll sees: the handle when it reads, what the pattern finds in a text, and
    the clock it compares with the deadline. *)
Context (seen : nat → local_handle) (search : list Z → option (list Z)) (clock : nat → Z).

Definition output (h : local_handle) : list Z := (read h 0 None).1.1.
(** [data[-POLL_TAIL_BYTES:]] *)
Definition last_bytes (data : list Z) : list Z := drop (length data - Z.to_nat POLL_TAIL_BYTES) data.

(** The body of the loop: a reply, or [None] to sleep and go round. *)
Definition wait_turn (deadline : Z) (i : nat) : option wait_outcome :=
  let h := seen i in
  let data := output h in
  let tail := decode (last_bytes data) in
  match search (decode data) with
  | Some m => Some (Matched m (status_of_handle h) (_exit_code h) tail)
  | None =>
      if negb (alive h) then Some (ExitedFirst (_exit_code h) tail)
      else if (deadline <=? clock i)%Z then Some (TimedOut tail)
      else None
  end.

Fixpoint wait_loop (fuel : nat) (deadline : Z) (i : nat) : option wait_outcome :=
  match fuel with
  | 0 => None
  | S fuel' =>
      match wait_turn deadline i with
      | Some r => Some r
      | None => wait_loop fuel' deadline (S i)
      end
  end.

(** The polls a wait can take: one per sleep, and the last. *)
Definition wait_fuel (timeout : Z) : nat := S (S (Z.to_nat (timeout / _WAIT_FOR_POLL_MS))).

(** [started_at]: the clock when the wait begins. *)
Definition _wait_for (started_at timeout : Z) : option wait_outcome :=
  wait_loop (wait_fuel timeout) (started_at + timeout) 0.
End WaitFor.

(** ** The tools *)

Record state := State {
  st_objs : nat → local_handle;
  st_table : list (string * registry);
  (** identity of the next handle object *)
  st_next : nat
}.

(** The registry's view of a handle. *)
Definition as_handle (h : local_handle) : handle := Handle (lh_id h) (alive h) (lh_finished_at h).
Definition views (s : state) : objects := λ r, as_handle (st_objs s r).
Definition set_local (s : state) (r : nat) (h : local_handle) : state :=
  State (λ x, if decide (x = r) then h else st_objs s x) (st_table s) (st_next s).

Section Tools.
Context `{Resolve}.

(** What the host does for these tools. [h_spawn]: the handle of a command started in a
    directory. [h_wait]: the handle after waiting for it, with no limit or for a time.
    [h_kill], [h_write]: the handle after a kill; whether the write went through.
    [h_compile]: [re.compile], its error's text, or the search it gives.
    [h_prompt]: the prompt [detect_interactive_prompt] makes out in the bytes. *)
Record host := Host {
  h_spawn : string → string → res local_handle;
  h_wait : option Z → local_handle → local_handle;
  h_kill : local_handle → local_handle;
  h_write : local_handle → list Z → res unit;
  h_compile : string → string + (list Z → option (list Z));
  h_seen : nat → local_handle; h_clock : nat → Z;
  h_prompt : list Z → option (list Z);
  h_now : Z
}.
Context (ho : host) (working_dir : string).

(** Opening the handle, then registering it with the caller's session. *)
Definition adopt (key : string) (h : local_handle) (s : state) : state :=
  let r := st_next s in
  let s' := State (λ x, if decide (x = r) then h else st_objs s x) (st_table s) (S r) in
  State (st_objs s') (register_for (views s') (st_table s') key r) (st_next s').

Definition _spawn (key command : string) (cwd : option string) (s : state) : res reply * state :=
  let root := resolve working_dir in
  match (match cwd with None => Ok root | Some c => path_under_root c root end) with
  | Raise (ValueError m) => (Ok (Error (replace_sub "Path outside" "cwd outside" m)), s)
  | Raise e => (Raise e, s)
  | Ok resolved_cwd =>
      match h_spawn ho command resolved_cwd with
      | Raise e => (Raise e, s)
      | Ok h => (Ok (Spawned (lh_id h) (lh_pid h) command), adopt key h s)
      end
  end.

Definition _poll (h : local_handle) : reply :=
  let size := _total_bytes h in
  let '(data, _, exit_code) := read h (Z.max 0 (size - POLL_TAIL_BYTES)) None in
  Polled (lh_id h) (status_of_handle h) exit_code (decode data) (_total_bytes h)
    (if alive h then h_prompt ho data else None).

Record args := Args {
  a_action : string; a_session_id : option string; a_offset : Z; a_limit : Z;
  a_timeout : option Z; a_data : option (list Z); a_submit : bool;
  a_pattern : option string; a_command : option string; a_cwd : option string
}.

Definition truthy_str (o : option string) : option string :=
  match o with Some s => if (s =? "")%string then None else Some s | None => None end.

(** [payload.endswith(b"\n")] *)
Definition ends_nl (l : list Z) : bool := match last l with Some b => (b =? 10)%Z | None => false end.

Definition HANDLE_ACTIONS : list string := ["poll"; "log"; "wait"; "wait_for"; "kill"; "write"].

(** The actions on a handle already found: the reply, and the handle as they leave it. *)
Definition on_handle (a : args) (h : local_handle) : res reply * local_handle :=
  let act := a_action a in
  if (act =? "poll")%string then (Ok (_poll h), h)
  else if (act =? "log")%string then
    let '(chunk, next_offset, exit_code) := read h (a_offset a) (Some (a_limit a)) in
    (Ok (Logged (lh_id h) (decode chunk) (a_offset a) next_offset exit_code (status_of_handle h)), h)
  else if (act =? "wait_for")%string then
    match truthy_str (a_pattern a) with
    | None => (Ok (Error "action 'wait_for' requires pattern"), h)
    | Some pattern =>
        match h_compile ho pattern with
        | inl e => (Ok (Error ("invalid pattern " +:+ repr_str pattern +:+ ": " +:+ e)), h)
        | inr search =>
            let timeout := default _DEFAULT_WAIT_FOR_TIMEOUT_MS (a_timeout a) in
            match _wait_for (h_seen ho) search (h_clock ho) (h_now ho) timeout with
            | Some o => (Ok (WaitedFor (lh_id h) pattern o), h)
            | None => (Raise (RuntimeError "out of fuel"), h)
            end
        end
    end
  else if (act =? "wait")%string then
    let h := h_wait ho (a_timeout a) h in
    (Ok (Waited (lh_id h) (status_of_handle h) (_exit_code h) (alive h)), h)
  else if (act =? "kill")%string then
    let h := h_kill ho h in (Ok (Killed (lh_id h) (_exit_code h)), h)
  else
    match a_data a with
    | None => (Ok (Error "action 'write' requires data"), h)
    | Some text =>
        if negb (forallb scalar text) then (Raise (ValueError "UnicodeEncodeError: surrogates not allowed"), h)
        else
          let payload := encode text in
          let payload := if a_submit a && negb (ends_nl payload) then payload ++ [10%Z] else payload in
          match (if _exited h
                 then Raise (RuntimeError ("process " +:+ lh_id h +:+ " has already exited"))
                 else h_write ho h payload) with
          | Ok _ => (Ok (Written (lh_id h) (len payload)), h)
          | Raise (RuntimeError m) | Raise (OSError m) | Raise (FileNotFoundError m) =>
              (Ok (Error ("write failed (" +:+ m +:+ "); the process may have exited")), h)
          | Raise e => (Raise e, h)
          end
    end.

Definition process (key : string) (a : args) (s : state) : res reply * state :=
  let '(reg, table) := for_session (views s) (st_table s) key in
  let s := State (st_objs s) table (st_next s) in
  let act := a_action a in
  if (act =? "list")%string then
    let '(running, reg) := list_running (views s) (h_now ho) reg in
    let '(finished, reg) := list_finished (views s) (h_now ho) reg in
    (Ok (Listing (map (λ r, _summarize (st_objs s r)) running) (map (λ r, _summarize (st_objs s r)) finished)),
     State (st_objs s) (dset table key reg) (st_next s))
  else if (act =? "spawn")%string then
    match truthy_str (a_command a) with
    | None => (Ok (Error "action 'spawn' requires command"), s)
    | Some command => _spawn key command (a_cwd a) s
    end
  else if negb (mem act HANDLE_ACTIONS) then (Ok (Error ("unknown action " +:+ repr_str act)), s)
  else
    match truthy_str (a_session_id a) with
    | None => (Ok (Error ("action " +:+ repr_str act +:+ " requires session_id")), s)
    | Some sid =>
        let '(found, reg) := get_handle (views s) (h_now ho) reg sid in
        let s := State (st_objs s) (dset table key reg) (st_next s) in
        match found with
        | None => (Ok (Error ("no such session " +:+ repr_str sid)), s)
        | Some r =>
            let '(rep, h) := on_handle a (st_objs s r) in (rep, set_local s r h)
        end
    end.

(** ** [bash] *)

Inductive bash_reply :=
| Finished (stdout : list Z) (exit_code : Z) (truncated : bool) (overflow_path : option string)
| Promoted (session_id : string) (pid : Z) (partial_output : list Z) (command : string).

(** [id]: the name [id_factory] draws for an overflow file. *)
Definition bash (key command : string) (timeout : Z) (id : string) (fs0 : files) (s : state) :
    res bash_reply * files * state :=
  match h_spawn ho command (resolve working_dir) with
  | Raise e => (Raise e, fs0, s)
  | Ok h0 =>
      let h := h_wait ho (Some timeout) h0 in
      let text := decode (read h 0 None).1.1 in
      match _exit_code h with
      | Some code =>
          match emit_stream text "stdout" id working_dir fs0 with
          | Raise e => (Raise e, fs0, s)
          | Ok (out, truncated, path, fs1) => (Ok (Finished out code truncated path), fs1, s)
          end
      | None =>
          match make_preview text TERMINAL_OUTPUT_LIMIT TERMINAL_OUTPUT_MAX_LINES with
          | Raise e => (Raise e, fs0, s)
          | Ok (partial, _) => (Ok (Promoted (lh_id h) (lh_pid h) partial command), fs0, adopt key h s)
          end
      end
  end.
End Tools.

(** * Facts *)

(** ** The rolling buffer *)

(** The last [n] of a list. *)
Definition lasts {A} (n : Z) (l : list A) : list A := drop (length l - Z.to_nat n) l.

(** The buffer holds the end of all that was output, and the total is its length. *)
Definition rolled (h : local_handle) (produced : list Z) : Prop :=
  _buffer h = lasts (_buffer_bytes h) produced ∧ _total_bytes h = len produced ∧
  (0 ≤ _buffer_bytes h)%Z.

Lemma lasts_length {A} n (l : list A) : (0 ≤ n)%Z → len (lasts n l) = Z.min n (len l).
Proof. intros Hn. unfold lasts, len. rewrite length_drop. lia. Qed.

Lemma rolled_chunk h produced chunk : rolled h produced → rolled (on_chunk chunk h) (produced ++ chunk).
Proof.
  intros (Hb & Ht & Hn). unfold rolled, on_chunk. cbn [_buffer _total_bytes _buffer_bytes].
  split_and!; [|by rewrite Ht, len_app|done]. rewrite Hb.
  set (n := _buffer_bytes h) in *. unfold lasts.
  assert (drop (length produced - Z.to_nat n) produced ++ chunk
    = drop (length produced - Z.to_nat n) (produced ++ chunk)) as ->.
  { rewrite drop_app. f_equal. replace (_ - _ - _) with 0 by lia. done. }
  set (k := length produced - Z.to_nat n).
  destruct (Z.ltb_spec 0 (len (drop k (produced ++ chunk)) - n)) as [Ho|Ho];
    unfold len in Ho |- *; rewrite length_drop, length_app in *.
  - rewrite drop_drop. f_equal. lia.
  - f_equal. lia.
Qed.

(** A read gives the output from the offset, or from the oldest byte kept when that is
    later, up to the limit, and says where it stopped. *)
Lemma read_spec h produced offset limit :
  rolled h produced → (∀ l, limit = Some l → 0 ≤ l)%Z →
  let kept := (len produced - len (_buffer h))%Z in
  let a := Z.min (Z.max offset kept) (len produced) in
  let rest := drop (Z.to_nat a) produced in
  let data := match limit with None => rest | Some l => take (Z.to_nat l) rest end in
  (0 ≤ kept)%Z ∧ (0 ≤ a ≤ len produced)%Z ∧
  read h offset limit = (data, (a + len data)%Z, _exit_code h).
Proof.
  intros (Hb & Ht & Hn) Hl kept a rest data.
  assert (len (_buffer h) = Z.min (_buffer_bytes h) (len produced)) as Hlen.
  { rewrite Hb. by apply lasts_length. }
  assert (0 ≤ len produced)%Z as Hp by (unfold len; lia).
  assert (0 ≤ kept)%Z as Hk by lia. assert (0 ≤ a ≤ len produced)%Z as Ha by lia.
  split_and!; [done|lia|lia|].
  unfold read. rewrite Ht. fold kept. set (start := Z.max 0 _).
  assert (kept + start = a)%Z as Hst by lia.
  assert (drop (Z.to_nat start) (_buffer h) = rest) as Hrest.
  { unfold rest. rewrite Hb. unfold lasts. rewrite drop_drop. f_equal. unfold len in *. lia. }
  assert (match limit with
          | Some l => slice (_buffer h) start (start + l)
          | None => drop (Z.to_nat start) (_buffer h)
          end = data) as ->; [|by rewrite Hst].
  subst data. destruct limit as [l|]; [|done]. specialize (Hl l eq_refl). unfold slice.
  rewrite Hrest. destruct (Z.ltb_spec (start + l) 0); [lia|].
  assert (len rest = len (_buffer h) - start)%Z as Hr.
  { rewrite <- Hrest. unfold len in *. rewrite length_drop. lia. }
  destruct (Z.leb_spec (start + l) (len (_buffer h))).
  - f_equal. lia.
  - rewrite !take_ge; [done|unfold len in *; lia..].
Qed.

(** A reader that pages from the offset the last page gave, while output goes on. It is
    never further behind than the buffer is long. *)
Inductive paging : local_handle → Z → list Z → list Z → Prop :=
| page_start id command pid now : paging (started id command pid now) 0 [] []
| page_output h o acc produced chunk :
    paging h o acc produced → paging (on_chunk chunk h) o acc (produced ++ chunk)
| page_exit h o acc produced code now :
    paging h o acc produced → paging (on_exit code now h) o acc produced
| page_read h o acc produced limit data next code :
    paging h o acc produced → (∀ l, limit = Some l → 0 ≤ l)%Z →
    (_total_bytes h - o ≤ _buffer_bytes h)%Z →
    read h o limit = (data, next, code) → paging h next (acc ++ data) produced.

Lemma paging_inv h o acc produced :
  paging h o acc produced →
  rolled h produced ∧ acc = take (Z.to_nat o) produced ∧ (0 ≤ o ≤ len produced)%Z.
Proof.
  induction 1 as [|h o acc produced chunk _ (IH1 & IH2 & IH3)|h o acc produced code now _ IH
    |h o acc produced limit data next code _ (IH1 & IH2 & IH3) Hl Hw Hr].
  - split_and!; [|done..]. split_and!; done.
  - split_and!; [by apply rolled_chunk| |lia|rewrite len_app; unfold len in *; lia].
    rewrite IH2, take_app_le; [done|]. unfold len in IH3. lia.
  - exact IH.
  - split; [done|]. destruct (read_spec h produced o limit IH1 Hl) as (Hk & Ha & E).
    rewrite Hr in E. injection E as -> -> _. destruct IH1 as (Hb & Ht & Hn).
    assert (len (_buffer h) = Z.min (_buffer_bytes h) (len produced)) as Hlen.
    { rewrite Hb. by apply lasts_length. }
    replace (Z.min (Z.max o (len produced - len (_buffer h))) (len produced)) with o in * by lia.
    set (rest := drop (Z.to_nat o) produced).
    assert (len rest = len produced - o)%Z as Hr' by (unfold rest, len in *; rewrite length_drop; lia).
    set (k := match limit with None => length rest | Some l => Z.to_nat l end).
    assert (match limit with Some l => take (Z.to_nat l) rest | None => rest end = take k rest) as ->.
    { subst k. destruct limit; [done|by rewrite take_ge]. }
    assert (len (take k rest) = Z.min (Z.of_nat k) (len rest)) as Hlk by (unfold len; rewrite length_take; lia).
    rewrite Hlk. split; [|lia]. rewrite IH2.
    replace (Z.to_nat (o + Z.min (Z.of_nat k) (len rest))) with (Z.to_nat o + Nat.min k (length rest))
      by (unfold len in *; lia).
    rewrite <- take_take_drop. fold rest. f_equal. destruct (decide (k ≤ length rest)) as [Hle|Hgt]; [f_equal; lia|].
    rewrite !take_ge by lia. done.
Qed.

(** Paging through the log loses nothing and repeats nothing: what a reader has
    collected is exactly the output up to its offset, and a page as long as what is left
    gives the rest. *)
Theorem log_pages_exactly h o acc produced :
  paging h o acc produced →
  acc = take (Z.to_nat o) produced ∧ (0 ≤ o ≤ len produced)%Z ∧
  ((_total_bytes h - o ≤ _buffer_bytes h)%Z → ∀ l, (len produced - o ≤ l)%Z →
     acc ++ (read h o (Some l)).1.1 = produced ∧ (read h o (Some l)).1.2 = len produced).
Proof.
  intros Hp. destruct (paging_inv h o acc produced Hp) as (Hr & Hacc & Ho).
  split_and!; [done|lia|lia|]. intros Hw l Hl.
  destruct (read h o (Some l)) as [[d n] c] eqn:E. cbn [fst snd].
  assert (∀ l', Some l = Some l' → 0 ≤ l')%Z as Hpos by (intros ? [= <-]; lia).
  destruct (paging_inv _ _ _ _ (page_read _ _ _ _ _ _ _ _ Hp Hpos Hw E)) as (_ & Hacc' & Hn).
  destruct (read_spec h produced o (Some l) Hr Hpos) as (Hk & Ha & E').
  rewrite E in E'. injection E' as -> -> _. destruct Hr as (Hb & Ht & Hb0).
  assert (len (_buffer h) = Z.min (_buffer_bytes h) (len produced)) as Hlen by (rewrite Hb; by apply lasts_length).
  replace (Z.min (Z.max o (len produced - len (_buffer h))) (len produced)) with o in * by lia.
  set (rest := drop (Z.to_nat o) produced) in *.
  assert (len rest = len produced - o)%Z as Hrest by (unfold rest, len in *; rewrite length_drop; lia).
  rewrite (take_ge rest) by (unfold len in *; lia). rewrite Hacc, Hrest. split; [|lia].
  apply take_drop.
Qed.

(** ** Waiting *)

Lemma wait_loop_first seen search clock deadline n fuel i :
  (∀ j, i ≤ j → j < i + n → wait_turn seen search clock deadline j = None) →
  wait_turn seen search clock deadline (i + n) ≠ None → n < fuel →
  wait_loop seen search clock fuel deadline i = wait_turn seen search clock deadline (i + n).
Proof.
  revert fuel i. induction n as [|n IH]; intros [|fuel] i Hn Hs Hf; try lia; cbn [wait_loop].
  - rewrite Nat.add_0_r in *. by destruct (wait_turn _ _ _ _ i).
  - rewrite Hn by lia. replace (i + S n) with (S i + n) in * by lia. apply IH; [|done|lia].
    intros j ? ?. apply Hn; lia.
Qed.

(** The first of the turns that stops, when one does. *)
Lemma first_stop (f : nat → option wait_outcome) n :
  f n ≠ None → ∃ k, k ≤ n ∧ f k ≠ None ∧ ∀ j, j < k → f j = None.
Proof.
  induction n as [n IH] using lt_wf_ind. intros Hn.
  destruct (decide (Exists (λ j, f j ≠ None) (seq 0 n))) as [He|He].
  - apply Exists_exists in He as (j & Hj & Hs). apply elem_of_seq in Hj.
    destruct (IH j) as (k & ? & ?); [lia|done|]. exists k. split; [lia|done].
  - exists n. split_and!; [done|done|]. intros j Hj. destruct (f j) eqn:E; [|done].
    exfalso. apply He, Exists_exists. exists j. split; [apply elem_of_seq; lia|by rewrite E].
Qed.

(** [wait_for] always returns, whatever the process prints and the pattern matches: as
    each round sleeps for a poll, the deadline is met within the rounds allowed. What it
    returns is the first round's that saw a match, an exit, or the deadline, in this
    order of preference. *)
Theorem wait_for_returns seen search (clock : nat → Z) started_at timeout :
  (started_at ≤ clock 0%nat)%Z → (∀ i : nat, clock i + _WAIT_FOR_POLL_MS ≤ clock (S i))%Z →
  ∃ i o, _wait_for seen search clock started_at timeout = Some o ∧
    wait_turn seen search clock (started_at + timeout) i = Some o ∧
    (∀ j, j < i → search (decode (output (seen j))) = None ∧ alive (seen j) = true ∧
                  (clock j < started_at + timeout)%Z) ∧
    (i = 0 ∨ (clock (i - 1)%nat < started_at + timeout)%Z).
Proof.
  intros H0 Hstep. set (deadline := (started_at + timeout)%Z).
  set (f := wait_turn seen search clock deadline).
  assert (∀ i : nat, started_at + Z.of_nat i * _WAIT_FOR_POLL_MS ≤ clock i)%Z as Hclock.
  { induction i as [|i IH]; [lia|]. specialize (Hstep i). unfold _WAIT_FOR_POLL_MS in *. lia. }
  set (n := S (Z.to_nat (timeout / _WAIT_FOR_POLL_MS))).
  assert (f n ≠ None) as Hn.
  { unfold f, wait_turn. destruct (search _); [done|]. destruct (negb _); [done|].
    destruct (Z.leb_spec deadline (clock n)) as [|Hlt]; [done|]. exfalso.
    specialize (Hclock n). unfold deadline, n, _WAIT_FOR_POLL_MS in *.
    destruct (decide (0 ≤ timeout)%Z) as [Hpos|Hneg].
    - pose proof (Z.mul_succ_div_gt timeout 200). lia.
    - lia. }
  destruct (first_stop f n Hn) as (i & Hi & Hs & Hbefore).
  assert (∀ j, j < i → search (decode (output (seen j))) = None ∧ alive (seen j) = true ∧
                  (clock j < deadline)%Z) as Hall.
  { intros j Hj. specialize (Hbefore j Hj). unfold f, wait_turn in Hbefore.
    destruct (search _); [done|]. destruct (alive (seen j)); [|done]. cbn [negb] in Hbefore.
    destruct (Z.leb_spec deadline (clock j)); done. }
  destruct (f i) as [o|] eqn:Ei; [|done]. exists i, o. split_and!; [|done|exact Hall|].
  - unfold _wait_for. rewrite (wait_loop_first _ _ _ _ i); cbn [Nat.add].
    + exact Ei.
    + intros j _ Hj. by apply Hbefore.
    + change (f i ≠ None). by rewrite Ei.
    + unfold wait_fuel. subst n. lia.
  - destruct i as [|i]; [by left|right]. cbn. rewrite Nat.sub_0_r. apply Hall. lia.
Qed.

(** ** Decoded bytes are always text *)

Lemma conts_range n acc bs x r :
  conts n acc bs = (x, true, r) →
  (acc * 64 ^ Z.of_nat n ≤ x < (acc + 1) * 64 ^ Z.of_nat n)%Z.
Proof.
  revert acc bs. induction n as [|n IH]; intros acc bs.
  { cbn [conts]. intros [= <- <-]. cbn. lia. }
  destruct bs as [|b bs]; cbn [conts]; [done|].
  destruct ((128 <=? b)%Z && (b <=? 191)%Z) eqn:E; [|done].
  apply andb_true_iff in E as [E1%Z.leb_le E2%Z.leb_le]. intros Hx%IH.
  rewrite Nat2Z.inj_succ, Z.pow_succ_r by lia.
  assert (0 < 64 ^ Z.of_nat n)%Z by (apply Z.pow_pos_nonneg; lia). nia.
Qed.

Lemma lead_scalar b c lo hi n v bs x r :
  lead b = Some (lo, hi, n, v) → (lo ≤ c ≤ hi)%Z →
  conts n (v * 64 + (c - 128)) bs = (x, true, r) → scalar x = true.
Proof.
  intros Hl Hc Hx%conts_range. unfold scalar, lead in *.
  rewrite orb_true_iff, !andb_true_iff, !Z.leb_le, !Z.ltb_lt.
  repeat match type of Hl with
  | context [if ?t then _ else _] => destruct t eqn:?
  end; try done; injection Hl as <- <- <- <-; bool_prop; cbn in Hx; lia.
Qed.

Lemma decode_scalar bs : Forall (λ b, 0 ≤ b)%Z bs → forallb scalar (decode bs) = true.
Proof.
  unfold decode. generalize (length bs) as f. intros f. revert bs.
  induction f as [|f IH]; intros [|b bs] Hb; try done. cbn [decode_with app].
  apply Forall_cons in Hb as [Hb0 Hbs].
  assert (∀ n acc l x ok r, conts n acc l = (x, ok, r) → Forall (λ b, 0 ≤ b)%Z l →
    Forall (λ b, 0 ≤ b)%Z r) as Hrest.
  { induction n as [|n IHn]; intros acc l x ok r; [by intros [= <- <- <-]|].
    destruct l as [|y l]; cbn [conts]; [by intros [= <- <- <-]|].
    destruct (_ && _); [|by intros [= <- <- <-]]. intros Hc [_ Hl]%Forall_cons. by eapply IHn. }
  assert (forallb scalar (65533%Z :: decode_with [65533%Z] f bs) = true) as Hbad by (cbn; by apply IH).
  destruct (Z.ltb_spec b 128); [cbn [forallb]; rewrite IH by done; rewrite andb_true_r;
    unfold scalar; apply orb_true_iff; left; apply andb_true_iff; rewrite Z.leb_le, Z.ltb_lt; lia|].
  destruct (lead b) as [[[[lo hi] n] v]|] eqn:El; [|done]. destruct bs as [|c bs]; [done|].
  apply Forall_cons in Hbs as [Hc Hbs].
  destruct ((lo <=? c)%Z && (c <=? hi)%Z) eqn:E; [|done].
  apply andb_true_iff in E as [E1%Z.leb_le E2%Z.leb_le].
  destruct (conts n (v * 64 + (c - 128)) bs) as [[x ok] r] eqn:Ec.
  pose proof (Hrest _ _ _ _ _ _ Ec Hbs) as Hr. destruct ok; cbn [forallb].
  - rewrite IH by done. rewrite andb_true_r. by eapply lead_scalar.
  - by rewrite IH.
Qed.

(** ** The tools *)

Section ToolFacts.
Context `{Resolve} (ho : host) (working_dir : string).

Lemma make_preview_total text b l :
  forallb scalar text = true → ∃ p, make_preview text b l = Ok p.
Proof.
  intros E. unfold make_preview. rewrite E. cbn [negb].
  destruct (_ && _); [by eexists|]. cbv zeta. destruct (_ <=? _); [by eexists|].
  by destruct (join_nl _), (join_nl _); eexists.
Qed.

(** A handle adopted while it runs can be reached from its session. *)
Lemma adopt_found key h s now :
  good (st_table s) → alive h = true →
  let s' := adopt key h s in
  st_objs s' (st_next s) = h ∧ good (st_table s') ∧
  (lookup_for (views s') now (st_table s') key (lh_id h)).1 = Some (st_next s).
Proof.
  intros Hg Ha s'.
  assert (st_objs s' (st_next s) = h) as Ho by (cbn; by rewrite decide_True).
  assert (views s' (st_next s) = Handle (lh_id h) true (lh_finished_at h)) as Hv.
  { unfold views. rewrite Ho. unfold as_handle. by rewrite Ha. }
  destruct (spawn_good (views s') (st_table s) key (st_next s) Hg) as (H1 & H2 & _).
  rewrite Hv in H2. split_and!; [done|exact H1|]. apply holds_lookup; [exact H1|]. by apply H2.
Qed.

(** What [bash] does once the command is spawned, according to whether it has ended when
    the wait is over. Ended: the reply carries its code and its output, whole or as a
    preview of the file it was saved to, no process is registered, and the only failure
    is a spill directory outside the workspace. Not ended: the reply carries its id, no
    file is written, and, the process running, the session finds it under that id. *)
Theorem bash_spec key command timeout id fs0 s h0 :
  good (st_table s) →
  h_spawn ho command (resolve working_dir) = Ok h0 →
  let h := h_wait ho (Some timeout) h0 in
  Forall (λ b, 0 ≤ b)%Z (output h) →
  let '(r, fs1, s') := bash ho working_dir key command timeout id fs0 s in
  match _exit_code h with
  | Some code =>
      s' = s ∧
      match emit_stream (decode (output h)) "stdout" id working_dir fs0 with
      | Ok (out, truncated, path, fs) => r = Ok (Finished out code truncated path) ∧ fs1 = fs
      | Raise e => r = Raise e ∧ fs1 = fs0 ∧ _overflow_dir working_dir = Raise e
      end
  | None =>
      fs1 = fs0 ∧ (∃ partial, r = Ok (Promoted (lh_id h) (lh_pid h) partial command)) ∧
      (alive h = true → st_objs s' (st_next s) = h ∧
         ∀ now, (lookup_for (views s') now (st_table s') key (lh_id h)).1 = Some (st_next s))
  end.
Proof.
  intros Hg Hsp h Hb. unfold bash. rewrite Hsp. fold h. fold (output h).
  pose proof (decode_scalar (output h) Hb) as Hs.
  destruct (_exit_code h) as [code|].
  - destruct (emit_stream _ _ _ _ _) as [[[[out tr] path] fs]|e] eqn:E; [done|].
    split_and!; try done. unfold emit_stream, overflow_to_file in E.
    destruct (make_preview_total (decode (output h)) TERMINAL_OUTPUT_LIMIT TERMINAL_OUTPUT_MAX_LINES Hs) as [p Hp].
    rewrite Hp in E. cbn [res_bind] in E. destruct (negb p.2); [done|].
    destruct (_overflow_dir working_dir); cbn [res_bind] in E; [done|]. congruence.
  - destruct (make_preview_total (decode (output h)) TERMINAL_OUTPUT_LIMIT TERMINAL_OUTPUT_MAX_LINES Hs) as [[p t] ->].
    split_and!; [done|by eexists|]. intros Ha.
    destruct (adopt_found key h s 0 Hg Ha) as (H1 & _ & _). split; [done|].
    intros now. by apply adopt_found.
Qed.

Lemma for_session_others objs t key :
  NoDup (keys t) →
  let '(reg, t') := for_session objs t key in
  NoDup (keys t') ∧ ∀ k x, k ≠ key → (k, x) ∈ t' → (k, x) ∈ t.
Proof.
  intros Hnd. pose proof (for_session_spec objs t key Hnd) as Hs.
  destruct (for_session objs t key) as [reg t']. destruct Hs as (_ & _ & H1 & _ & H2 & _).
  split; [done|]. intros k x Hne Hin. by apply (H2 (k, x)).
Qed.

Lemma adopt_scope key h s :
  NoDup (keys (st_table s)) →
  (∀ r, r ≠ st_next s → st_objs (adopt key h s) r = st_objs s r) ∧
  ∀ k x, k ≠ key → (k, x) ∈ st_table (adopt key h s) → (k, x) ∈ st_table s.
Proof.
  intros Hnd. split.
  - intros r Hr. cbn. by rewrite decide_False.
  - intros k x Hne. unfold adopt. cbn [st_table]. set (objs := views _). unfold register_for.
    pose proof (for_session_others objs (st_table s) key Hnd) as Hs.
    destruct (for_session _ _ key) as [reg t']. destruct Hs as [_ Hs].
    intros [[= -> ->]|Hin]%dset_in; [done|by apply Hs].
Qed.

(** A call of [process] stays within its session: the only handle it can change is the
    one its own registry has under the id it was given, or the one it spawns; and it
    neither changes nor creates the registry of another session. *)
Theorem process_scoped key a s rep s' :
  NoDup (keys (st_table s)) →
  process ho working_dir key a s = (rep, s') →
  (∀ r, r ≠ st_next s → st_objs s' r ≠ st_objs s r →
     ∃ sid, a_session_id a = Some sid ∧ a_action a ∈ HANDLE_ACTIONS ∧
       (lookup_for (views s) (h_now ho) (st_table s) key sid).1 = Some r) ∧
  ∀ k x, k ≠ key → (k, x) ∈ st_table s' → (k, x) ∈ st_table s.
Proof.
  intros Hnd. unfold process.
  pose proof (for_session_others (views s) (st_table s) key Hnd) as Hfs.
  destruct (for_session (views s) (st_table s) key) as [reg table] eqn:Ef. destruct Hfs as [Hnd' Hold].
  assert (∀ reg', ∀ k x, k ≠ key → (k, x) ∈ dset table key reg' → (k, x) ∈ st_table s) as Hset.
  { intros reg' k x Hne [[= -> ->]|Hin]%dset_in; [done|by apply Hold]. }
  destruct (a_action a =? "list")%string.
  { unfold list_running, list_finished. intros [= <- <-]. split; [done|apply Hset]. }
  destruct (a_action a =? "spawn")%string.
  { destruct (truthy_str (a_command a)) as [command|]; [|by intros [= <- <-]].
    unfold _spawn. destruct (match a_cwd a with None => _ | Some c => _ end) as [d|e].
    2: { destruct e; by intros [= <- <-]. }
    destruct (h_spawn ho command d) as [h|e]; [|by intros [= <- <-]]. intros [= <- <-].
    set (s1 := State (st_objs s) table (st_next s)).
    destruct (adopt_scope key h s1 Hnd') as [H1 H2]. split.
    - intros r Hr Hne. by rewrite H1 in Hne.
    - intros k x Hne Hin. apply Hold; [done|]. by apply H2. }
  destruct (mem (a_action a) HANDLE_ACTIONS) eqn:Em; cbn [negb]; [|by intros [= <- <-]].
  destruct (truthy_str (a_session_id a)) as [sid|] eqn:Es; [|by intros [= <- <-]].
  assert (a_session_id a = Some sid) as Esid.
  { destruct (a_session_id a) as [x|]; [|done]. cbn in Es. by destruct (x =? "")%string. }
  destruct (get_handle (views s) (h_now ho) reg sid) as [found reg'] eqn:Eg.
  replace (get_handle (views (State (st_objs s) table (st_next s))) (h_now ho) reg sid)
    with (found, reg') by (by rewrite <- Eg).
  destruct found as [r|]; [|intros [= <- <-]; by split; [|apply Hset]].
  destruct (on_handle ho a _) as [rp h]. intros [= <- <-]. split; [|apply Hset].
  intros r' _ Hne. cbn in Hne. destruct (decide (r' = r)) as [->|]; [|done].
  exists sid. split_and!; [done|by apply mem_spec|]. unfold lookup_for. by rewrite Ef, Eg.
Qed.
End ToolFacts.

(** ** Concrete inputs *)

Definition demo_handle : local_handle := on_chunk (cps "hello") (started "proc_1" "sleep 9" 42 0).
Definition demo_done : local_handle := on_exit (Some 0%Z) 7 (on_chunk (cps "done") (started "proc_2" "true" 43 0)).

(** Waiting leaves the handle as it is, and nothing can be written. *)
Definition demo_host (h : local_handle) : host :=
  Host (λ _ _, Ok h) (λ _ h, h) (on_exit (Some (-15)%Z) 9)
    (λ _ _, Raise (OSError "EIO")) (λ _, inr (λ _, None)) (λ _, h) (λ i, Z.of_nat i * 200)%Z (λ _, None) 0.

Lemma log_pages_exactly_witness :
  let h := demo_handle in let produced := cps "hello" in
  take 2 produced = take (Z.to_nat 2) produced ∧ (0 ≤ 2 ≤ len produced)%Z ∧
  ((_total_bytes h - 2 ≤ _buffer_bytes h)%Z → ∀ l, (len produced - 2 ≤ l)%Z →
     take 2 produced ++ (read h 2 (Some l)).1.1 = produced ∧ (read h 2 (Some l)).1.2 = len produced).
Proof.
  intros h produced. apply (log_pages_exactly h 2 (take 2 produced) produced).
  apply (page_read h 0 [] produced (Some 2%Z) (take 2 produced) 2 None).
  - apply (page_output _ _ _ [] produced). apply page_start.
  - intros l [= <-]. lia.
  - vm_compute. discriminate.
  - vm_compute. reflexivity.
Defined.

Lemma wait_for_returns_witness :
  let seen := λ _ : nat, demo_handle in let search := λ _ : list Z, @None (list Z) in
  let clock := λ i : nat, (Z.of_nat i * 200)%Z in
  ∃ i o, _wait_for seen search clock 0 500 = Some o ∧
    wait_turn seen search clock (0 + 500) i = Some o ∧
    (∀ j, j < i → search (decode (output (seen j))) = None ∧ alive (seen j) = true ∧
                  (clock j < 0 + 500)%Z) ∧
    (i = 0 ∨ (clock (i - 1)%nat < 0 + 500)%Z).
Proof.
  intros seen search clock. apply (wait_for_returns seen search clock 0 500).
  - subst clock. cbn. lia.
  - intros i. subst clock. unfold _WAIT_FOR_POLL_MS. cbn beta. lia.
Defined.

Definition demo_state : state := State (λ _, demo_done) [] 0.

Lemma bash_spec_witness :
  let _ : Resolve := λ p, p in
  let ho := demo_host demo_handle in
  let '(r, fs1, s') := bash ho "/w" "sess" "sleep 9" 30 "id" [] demo_state in
  fs1 = [] ∧
  (∃ partial, r = Ok (Promoted "proc_1" 42 partial "sleep 9")) ∧
  (alive demo_handle = true → st_objs s' 0 = demo_handle ∧
     ∀ now, (lookup_for (views s') now (st_table s') "sess" "proc_1").1 = Some 0).
Proof.
  intros HR ho. apply (bash_spec ho "/w" "sess" "sleep 9" 30 "id" [] demo_state demo_handle).
  - split; [apply NoDup_nil_2|]. by intros kr ?%elem_of_nil.
  - reflexivity.
  - vm_compute. repeat constructor; discriminate.
Defined.

Definition kill_args (sid : string) : args := Args "kill" (Some sid) 0 DEFAULT_LOG_LIMIT None None true None None None.

Lemma process_scoped_witness :
  let _ : Resolve := λ p, p in
  let ho := demo_host demo_handle in
  let s := adopt "sess" demo_handle demo_state in
  (process ho "/w" "sess" (kill_args "proc_1") s).1 = Ok (Killed "proc_1" (Some (-15)%Z)) ∧
  (process ho "/w" "other" (kill_args "proc_1") s).1 = Ok (Error "no such session 'proc_1'") ∧
  let s' := (process ho "/w" "sess" (kill_args "proc_1") s).2 in
  (∀ r, r ≠ st_next s → st_objs s' r ≠ st_objs s r →
     ∃ sid, a_session_id (kill_args "proc_1") = Some sid ∧ a_action (kill_args "proc_1") ∈ HANDLE_ACTIONS ∧
       (lookup_for (views s) (h_now ho) (st_table s) "sess" sid).1 = Some r) ∧
  ∀ k x, k ≠ "sess" → (k, x) ∈ st_table s' → (k, x) ∈ st_table s.
Proof.
  intros HR ho s. split; [vm_compute; reflexivity|]. split; [vm_compute; reflexivity|].
  apply (process_scoped ho "/w" "sess" (kill_args "proc_1") s (Ok (Killed "proc_1" (Some (-15)%Z)))).
  - apply (bool_decide_unpack _). vm_compute. exact I.
  - subst s. vm_compute. reflexivity.
Defined.
