(* ===== verification/Models.v ===== *)
(** * Models: [models/registry.py], [models/selector.py], [models/capabilities.py],
      [models/media.py], [models/dispatcher.py], [context/compaction_threshold.py]

    Which model a turn runs on, how large its window is, and when its history is
    compacted. Floats are rationals; what rounding does to a product is not modelled. *)

From S2P Require Import Prelude PyStr Names PyVal Sorting Environ PermissionRules.
From Stdlib Require Import QArith.
#[local] Open Scope nat_scope.

(** ** The registry *)

Definition DEFAULT_MODEL_NAME : string := "gemini-3.7-flash".
Definition DEFAULT_INPUT_TOKEN_LIMIT : Z := 200000.

Record ModelCapabilities := Capabilities {
  max_image_bytes : option Z;
  can_view_mime : option string → bool;
  (** whether there is a content transform *)
  prepares_contents : bool
}.
Definition _views_anything (_ : option string) : bool := true.
Definition GEMINI_CAPABILITIES : ModelCapabilities := Capabilities None _views_anything false.
Definition DEFAULT_CAPABILITIES : ModelCapabilities := GEMINI_CAPABILITIES.

Record ModelDescriptor := Descriptor { input_limit : Z; capabilities : ModelCapabilities }.

Definition _MODELS : list (string * ModelDescriptor) :=
  [("gemini-3.7-flash", Descriptor 1000000 GEMINI_CAPABILITIES);
   ("gemini-3.1-pro-preview", Descriptor 1000000 GEMINI_CAPABILITIES)].
Definition MODEL_REGISTRY : list string := keys _MODELS.

(** [_MODELS.get(name) if name else None] *)
Definition descriptor (name : option string) : option ModelDescriptor :=
  match name with
  | Some n => if (n =? "")%string then None else dget _MODELS n
  | None => None
  end.
Definition input_token_limit (name : option string) : Z :=
  match descriptor name with Some d => input_limit d | None => DEFAULT_INPUT_TOKEN_LIMIT end.
Definition model_capabilities (name : option string) : ModelCapabilities :=
  match descriptor name with Some d => capabilities d | None => DEFAULT_CAPABILITIES end.

Definition _priority_tier_enabled (environ : environment_vars) : bool :=
  (lower (strip (env_get environ "LHA_VERTEX_SERVICE_TIER")) =? "priority")%string.

(** [_LazyModelRegistry.__getitem__]: [built] are the backends built so far. *)
Definition registry_item (built : list string) (name : string) : res (list string) :=
  if negb (mem name MODEL_REGISTRY) then Raise (KeyError name)
  else Ok (if mem name built then built else built ++ [name]).

(** ** The choice of a turn *)

Definition SELECTED_MODEL_STATE_KEY : string := "selected_model".

Definition _resolve (environ : environment_vars) (state : session) : res string :=
  let by_env := match dget environ "LHA_ROOT_MODEL" with
                | Some m => if mem m MODEL_REGISTRY then m else DEFAULT_MODEL_NAME
                | None => DEFAULT_MODEL_NAME
                end in
  match state with
  | Some ((_ :: _) as d) =>
      let choice := get d SELECTED_MODEL_STATE_KEY in
      let! known := in_set choice MODEL_REGISTRY in
      Ok (match known, choice with true, PStr m => m | _, _ => by_env end)
  | _ => Ok by_env
  end.

(** ** Compaction *)

Definition DEFAULT_WINDOW_FRACTION : Q := 3 # 4.

Definition _window_fraction (environ : environment_vars) : Q :=
  match dget environ "LHA_COMPACTION_WINDOW_FRACTION" with
  | None => DEFAULT_WINDOW_FRACTION
  | Some raw =>
      match float_of_str raw with
      | None => DEFAULT_WINDOW_FRACTION
      | Some value =>
          if negb (Qle_bool value 0) && negb (Qle_bool 1 value) then value
          else DEFAULT_WINDOW_FRACTION
      end
  end.

(** [int(x)] of a float truncates. *)
Definition truncate (q : Q) : Z := Z.quot (Qnum q) (Zpos (Qden q)).

Definition compaction_token_threshold (environ : environment_vars) (limit : Z) : Z :=
  Z.max 1 (truncate (inject_Z limit * _window_fraction environ)).

(** [select_model_callback]: the model stamped on the request, and the threshold stamped
    on the compaction configuration, when there is one that has a threshold. *)
Definition apply_compaction_threshold (environ : environment_vars)
    (compaction_config : option (option Z)) (model_name : string) : option (option Z) :=
  match compaction_config with
  | Some (Some _) =>
      Some (Some (compaction_token_threshold environ (input_token_limit (Some model_name))))
  | c => c
  end.
Definition select_model_callback (environ : environment_vars) (state : session)
    (compaction_config : option (option Z)) : res (string * option (option Z)) :=
  let! model_name := _resolve environ state in
  Ok (model_name, apply_compaction_threshold environ compaction_config model_name).

(** ** The dispatcher *)

(** [DispatchingLlm]: a default that must be known, then each request to the backend it
    names. [None]: the request names none. *)
Definition backends_text : string :=
  "[" +:+ join ", " (map repr_str (sort_by str_leb MODEL_REGISTRY)) +:+ "]".
Definition default_must_be_known (model : string) : res unit :=
  if mem model MODEL_REGISTRY then Ok tt
  else Raise (ValueError ("default model " +:+ repr_str model +:+ " not in backends ("
                +:+ backends_text +:+ ")")).
Definition route (model : string) (requested : option string) : res string :=
  let name := match requested with Some n => or_str n model | None => model end in
  if mem name MODEL_REGISTRY then Ok name
  else Raise (ValueError ("unknown model " +:+ repr_str name +:+ "; available: " +:+ backends_text)).

(** ** Media *)

Definition b64_len (n_raw : Z) : Z := 4 * ((n_raw + 2) / 3).

Definition bytes_of (s : string) : list Z := map (λ c, Z.of_N (code c)) (list_ascii_of_string s).
Definition starts (p data : list Z) : bool := bool_decide (take (length p) data = p).

Definition PNG_MAGIC : list Z := [137; 80; 78; 71; 13; 10; 26; 10]%Z.
Definition sniff_image_or_pdf_mime (data : list Z) : option string :=
  match data with
  | [] => None
  | _ =>
      if starts PNG_MAGIC data then Some "image/png"
      else if starts [255; 216; 255]%Z data then Some "image/jpeg"
      else if starts (bytes_of "GIF87a") data || starts (bytes_of "GIF89a") data then Some "image/gif"
      else if starts (bytes_of "RIFF") data && starts (bytes_of "WEBP") (drop 8 data)
           then Some "image/webp"
      else if starts (bytes_of "%PDF-") data then Some "application/pdf"
      else None
  end.

(** * Facts *)

Lemma resolve_known environ state m : _resolve environ state = Ok m → mem m MODEL_REGISTRY = true.
Proof.
  unfold _resolve.
  assert (mem (match dget environ "LHA_ROOT_MODEL" with
               | Some m => if mem m MODEL_REGISTRY then m else DEFAULT_MODEL_NAME
               | None => DEFAULT_MODEL_NAME end) MODEL_REGISTRY = true) as Henv.
  { destruct (dget environ _) as [x|]; [|reflexivity]. by destruct (mem x MODEL_REGISTRY) eqn:E. }
  destruct state as [[|kv d]|]; [by intros [= <-]| |by intros [= <-]].
  destruct (get (kv :: d) SELECTED_MODEL_STATE_KEY) as [| | | |t| |]; cbn [in_set res_bind];
    try done; try (by intros [= <-]).
  destruct (mem t MODEL_REGISTRY) eqn:E; by intros [= <-].
Qed.

Lemma fraction_range environ : (0 < _window_fraction environ < 1)%Q.
Proof.
  unfold _window_fraction. destruct (dget _ _) as [raw|]; [|by split].
  destruct (float_of_str raw) as [q|]; [|by split].
  destruct (Qle_bool q 0) eqn:E1, (Qle_bool 1 q) eqn:E2; cbn [negb andb]; try by split.
  split; apply Qnot_le_lt; intros Hle%Qle_bool_iff; congruence.
Qed.

(** Whatever the session's state and the environment, a turn that gets a model gets a
    registered one, which the dispatcher routes to; and a compaction threshold stamped
    for a window is at least one token and less than the window. *)
Theorem turn_model_ok environ state cfg m cfg' :
  select_model_callback environ state cfg = Ok (m, cfg') →
  (∀ dflt, route dflt (Some m) = Ok m) ∧ m ∈ MODEL_REGISTRY ∧
  (∀ t, cfg' = Some (Some t) →
     (1 ≤ t < input_token_limit (Some m))%Z ∧ ∃ t0, cfg = Some (Some t0)).
Proof.
  unfold select_model_callback. destruct (_resolve environ state) as [x|] eqn:Er; [|done].
  intros [= <- <-]. pose proof (resolve_known _ _ _ Er) as Hm.
  assert (x ∈ MODEL_REGISTRY) as Hin by (by apply mem_spec).
  split_and!; [|done|].
  - intros dflt. unfold route, or_str.
    assert ((x =? "")%string = false) as ->.
    { unfold MODEL_REGISTRY, keys, _MODELS in Hin. cbn in Hin. rewrite !elem_of_cons, elem_of_nil in Hin.
      by destruct Hin as [-> | [-> | []]]. }
    by rewrite Hm.
  - intros t. destruct cfg as [[t0|]|]; cbn [apply_compaction_threshold]; try done.
    intros [= <-]. split; [|by eexists].
    assert (input_token_limit (Some x) = 1000000%Z) as ->.
    { unfold MODEL_REGISTRY, keys, _MODELS in Hin. cbn in Hin. rewrite !elem_of_cons, elem_of_nil in Hin.
      by destruct Hin as [-> | [-> | []]]. }
    unfold compaction_token_threshold, truncate. pose proof (fraction_range environ) as [Hlo Hhi].
    destruct (_window_fraction environ) as [n d]. unfold Qlt in *. cbn in *.
    rewrite Z.mul_1_r in *. rewrite Z.quot_div_nonneg by lia.
    assert (1000000 * n / Z.pos d < 1000000)%Z by (apply Z.div_lt_upper_bound; lia).
    change (1 * d)%positive with d. lia.
Qed.

(** The length computed is that of the encoding: four characters for each group of three
    bytes, the last group padded. *)
Lemma b64_len_spec n : (0 ≤ n)%Z → (4 * n ≤ 3 * b64_len n < 4 * n + 12)%Z ∧ (b64_len n mod 4 = 0)%Z.
Proof.
  intros Hn. unfold b64_len. split.
  - Z.to_euclidean_division_equations. lia.
  - rewrite Z.mul_comm. apply Z.mod_mul. lia.
Qed.

Lemma turn_model_ok_witness :
  let environ := [("LHA_COMPACTION_WINDOW_FRACTION", "0.5")] in
  let state := Some [("selected_model", PStr "gemini-3.1-pro-preview")] in
  select_model_callback environ state (Some (Some 0%Z)) = Ok ("gemini-3.1-pro-preview", Some (Some 500000%Z)) ∧
  ((∀ dflt, route dflt (Some "gemini-3.1-pro-preview") = Ok "gemini-3.1-pro-preview") ∧
   "gemini-3.1-pro-preview" ∈ MODEL_REGISTRY ∧
   (∀ t, Some (Some 500000%Z) = Some (Some t) →
      (1 ≤ t < input_token_limit (Some "gemini-3.1-pro-preview"))%Z ∧ ∃ t0, Some (Some 0%Z) = Some (Some t0))).
Proof.
  intros environ state. split; [vm_compute; reflexivity|].
  apply (turn_model_ok environ state (Some (Some 0%Z))). vm_compute. reflexivity.
Defined.
