(* ===== verification/WorkspaceWindow.v ===== *)
(** * The workspace window: [workspace_window.py]

    The default scope of a session's paths, on top of the trust gate [path_under_root] of
    OutputOverflow.v. Paths are texts; what the file system makes of one is a parameter. *)

From S2P Require Import Prelude PyStr Names PyVal Overlay PermissionRules OutputOverflow.

Definition WORKSPACE_WINDOW_STATE_KEY : string := "workspace_window".
Definition _ROOT_SENTINELS : list string := [""; "."; "/"].

(** [_as_dict]: a session state is a dict, or there is none. *)
Definition _as_dict (state : session) : pydict := default [] state.

Definition strip_slashes (s : string) : string := strip_by (one_of "/") s.

(** The loop over the entries: texts only, cleaned. *)
Definition clean_entry (v : pyval) : option string :=
  match v with
  | PStr s => let cleaned := strip_slashes (strip s) in
              if (cleaned =? "")%string || (cleaned =? ".")%string then None else Some cleaned
  | _ => None
  end.

Definition window_dirs (state : session) : res (list string) :=
  match get (_as_dict state) WORKSPACE_WINDOW_STATE_KEY with
  | PNone => Ok []
  | PStr s => Ok (omap clean_entry [PStr s])
  | PList l => Ok (omap clean_entry l)
  | PDict d => Ok (omap clean_entry (map PStr (keys d)))
  | PBool _ | PInt _ | PFloat _ => Raise (TypeError "object is not iterable")
  end.

(** [Path(path).parts], but for the leading slash. *)
Definition parts (path : string) : list string :=
  List.filter (λ p, negb ((p =? "")%string || (p =? ".")%string)) (split_on "/" path).

Section Window.
Context `{Resolve}.

Definition outside (path env_root : string) : exc :=
  ValueError ("Path outside working_dir: " +:+ path +:+ " (env root: " +:+ env_root +:+ ")").

Definition resolve_in_window (path env_root : string) (window : list string) : res string :=
  let anchor := default "" (head window) in
  if (anchor =? "")%string then
    if mem path _ROOT_SENTINELS then path_under_root "." env_root else path_under_root path env_root
  else if mem ".." (parts path) then Raise (outside path env_root)
  else if mem path _ROOT_SENTINELS then
    path_under_root (if (path =? "/")%string then "." else anchor) env_root
  else if startswith "/" path then
    match path_under_root path env_root with
    | Ok literal => Ok literal
    | Raise _ =>
        let rest := lstrip (one_of "/") path in
        path_under_root (if (rest =? "")%string then "." else rest) env_root
    end
  else path_under_root (anchor +:+ "/" +:+ path) env_root.

Definition render_window (window : list string) : option string :=
  match window with
  | [] => None
  | _ =>
      let joined := join ", " (map (λ d, "`" +:+ d +:+ "/`") window) in
      Some ("Workspace focus: " +:+ joined +:+ ". Relative paths and `search_files` "
        +:+ "default to this scope. To reach the whole workspace, "
        +:+ "prefix a path with `/` (e.g. `/other-project/x.md`) or pass "
        +:+ "`scope=" +:+ DQs +:+ "workspace" +:+ DQs
        +:+ "`. The user can clear the focus with `/workspace /`.")
  end.

(** [resolved.relative_to(root).parts] *)
Definition relative_parts (root path : string) : list string := parts (sdrop (slen root) path).

(** [is_dir]: the directories of the host. *)
Definition maybe_seed_window (is_dir : string → bool) (state : session) (resolved env_root : string)
    (check_host_fs : bool) : res session :=
  match state with
  | None => Ok None
  | Some d =>
      let! dirs := window_dirs state in
      match dirs with
      | _ :: _ => Ok state
      | [] =>
          let root := resolve env_root in
          let path := resolve resolved in
          if negb (is_under root path) then Ok state
          else match relative_parts root path with
               | top :: _ :: _ =>
                   if check_host_fs && negb (is_dir (path_join root top)) then Ok state
                   else Ok (Some (dset d WORKSPACE_WINDOW_STATE_KEY (PList [PStr top])))
               | _ => Ok state
               end
      end
  end.
End Window.

(** ** Lexical resolution

    What [Path.resolve] does on a file system without symbolic links: the [..] of an
    absolute path drop the part before them. *)

Fixpoint norm_parts (acc : list string) (ps : list string) : list string :=
  match ps with
  | [] => rev acc
  | p :: ps' => if (p =? "..")%string then norm_parts (tail acc) ps' else norm_parts (p :: acc) ps'
  end.
Definition lexical : Resolve := λ path, "/" +:+ join "/" (norm_parts [] (parts path)).

(** * Facts *)

Section Containment.
Context `{Resolve}.

Lemma path_under_root_contained path root p :
  path_under_root path root = Ok p → is_under (resolve root) p = true.
Proof. unfold path_under_root. destruct (is_under _ _) eqn:E; [|done]. by intros [= <-]. Qed.

Lemma path_under_root_outside path root x :
  path_under_root path root = Raise x → x = outside path (resolve root).
Proof. unfold path_under_root, outside. destruct (is_under _ _); [done|]. by intros [= <-]. Qed.
End Containment.

Lemma parts_app a b : parts (a +:+ "/" +:+ b) = parts a ++ parts b.
Proof.
  unfold parts. pose proof (split_on_app "/" a b) as E. change (s1 "/") with "/" in E.
  by rewrite E, List.filter_app.
Qed.

Lemma norm_parts_plain acc ps : mem ".." ps = false → norm_parts acc ps = rev acc ++ ps.
Proof.
  revert acc. induction ps as [|p ps IH]; intros acc; cbn [mem existsb norm_parts].
  - by rewrite app_nil_r.
  - intros [Hp Hps]%orb_false_iff. rewrite String.eqb_sym, Hp. rewrite IH by done.
    cbn. by rewrite <- app_assoc.
Qed.

Lemma mem_app x l k : mem x (l ++ k) = mem x l || mem x k.
Proof. apply existsb_app. Qed.

(** A relative path under a directory, neither with [..]: lexically the directory's own
    resolution, and then the parts of the path. *)
Lemma lexical_join dir path :
  mem ".." (parts dir) = false → mem ".." (parts path) = false →
  lexical (dir +:+ "/" +:+ path) = "/" +:+ join "/" (parts dir ++ parts path).
Proof.
  intros Hd Hp. unfold lexical. by rewrite parts_app, norm_parts_plain by (by rewrite mem_app, Hd, Hp).
Qed.

Lemma under_refl root : is_under root root = true.
Proof. unfold is_under. by rewrite String.eqb_refl. Qed.

Lemma under_child root rest : is_under root (root +:+ "/" +:+ rest) = true.
Proof.
  unfold is_under. apply orb_true_iff. right. destruct (endswith "/" root).
  - apply startswith_app.
  - rewrite (sapp_assoc root). apply startswith_app.
Qed.

Lemma join_under (l k : list string) : is_under ("/" +:+ join "/" l) ("/" +:+ join "/" (l ++ k)) = true.
Proof.
  destruct l as [|y l]; [cbn [join app]; unfold is_under; apply orb_true_iff; right; apply startswith_app|].
  destruct k as [|x k]; [rewrite app_nil_r; apply under_refl|].
  rewrite join_app by done. rewrite (sapp_assoc "/"). apply under_child.
Qed.

(** The parts of a path are names: not empty, not a dot, without a slash. *)
Definition is_part (p : string) : Prop := p ≠ "" ∧ p ≠ "." ∧ has_char "/" p = false.

Lemma split_on_pieces c s : Forall (λ p, has_char c p = false) (split_on c s).
Proof.
  induction s as [|d s IH]; [by repeat constructor|]. cbn [split_on]. unfold has_char in *.
  destruct (Ascii.eqb d c) eqn:E; [by constructor|].
  destruct (split_on c s) as [|x l]; [|inversion_clear IH as [|? ? Hx Hl]];
    (constructor; [|done]); cbn; rewrite Ascii.eqb_sym, E; done.
Qed.

Lemma parts_are path : Forall is_part (parts path).
Proof.
  apply Forall_forall. intros p Hp. apply list_elem_of_In, List.filter_In in Hp as [Hp Hne].
  pose proof (split_on_pieces "/" path) as Hs. rewrite Forall_forall in Hs.
  apply list_elem_of_In in Hp. apply Hs in Hp. bool_prop. by split_and!.
Qed.

Lemma parts_join ps : Forall is_part ps → parts (join "/" ps) = ps.
Proof.
  induction 1 as [|p ps (Hne & Hdot & Hs) _ IH]; [done|].
  assert (parts p = [p]) as Hp.
  { unfold parts. rewrite split_on_none by done. cbn. apply String.eqb_neq in Hne, Hdot. by rewrite Hne, Hdot. }
  destruct ps as [|q ps]; [done|]. rewrite join_cons, parts_app by done. by rewrite Hp, IH.
Qed.

Lemma parts_slash s : parts ("/" +:+ s) = parts s.
Proof. change ("/" +:+ s) with ("" +:+ "/" +:+ s). by rewrite parts_app. Qed.

Lemma relative_join l k : Forall is_part k →
  relative_parts ("/" +:+ join "/" l) ("/" +:+ join "/" (l ++ k)) = k.
Proof.
  intros Hk. unfold relative_parts. destruct l as [|y l].
  { cbn [join app]. change (slen ("/" +:+ "")) with (slen "/"). rewrite sdrop_app. by apply parts_join. }
  destruct k as [|x k].
  { rewrite app_nil_r. rewrite <- (sapp_nil_r ("/" +:+ join "/" (y :: l))) at 2. by rewrite sdrop_app. }
  rewrite join_app by done. rewrite (sapp_assoc "/" (join "/" (y :: l))), sdrop_app, parts_slash.
  by apply parts_join.
Qed.

Lemma parts_join_path root path : parts (path_join root path) = parts root ++ parts path.
Proof.
  unfold path_join. destruct (endswith "/" root) eqn:E; [|by rewrite parts_app].
  apply endswith_spec in E as [r ->]. rewrite <- sapp_assoc, parts_app.
  change (r +:+ "/") with (r +:+ "/" +:+ ""). rewrite parts_app. cbn. by rewrite app_nil_r.
Qed.

(** ** Entries *)

Lemma dirs_cleaned state l d : window_dirs state = Ok l → d ∈ l → d ≠ "" ∧ d ≠ ".".
Proof.
  assert (∀ vs : list pyval, @Ok (list string) (omap clean_entry vs) = Ok l → d ∈ l → d ≠ "" ∧ d ≠ ".") as Hc.
  { intros vs [= <-] (v & _ & Hv)%list_elem_of_omap. destruct v; try done. cbn in Hv.
    destruct (_ || _) eqn:E; [done|]. injection Hv as <-. bool_prop. done. }
  unfold window_dirs. destruct (get _ _); try done; [apply (Hc [])|apply (Hc [PStr s])|apply Hc..].
Qed.

(** ** Properties *)

(** The window is a default, never an authority: whatever the path and the window, and
    whatever the file system makes of paths, what is resolved lies under the resolved root
    of the environment, and the only error is the gate's. *)
Theorem window_stays_under_root `{Resolve} (path env_root : string) (window : list string) :
  match resolve_in_window path env_root window with
  | Ok p => is_under (resolve env_root) p = true
  | Raise x => ∃ q root, x = outside q root
  end.
Proof.
  assert (∀ q, match path_under_root q env_root with
               | Ok p => is_under (resolve env_root) p = true
               | Raise x => ∃ q root, x = outside q root end) as Hg.
  { intros q. destruct (path_under_root q env_root) as [p|x] eqn:E.
    - by apply path_under_root_contained in E.
    - apply path_under_root_outside in E. eauto. }
  unfold resolve_in_window. destruct (_ =? "")%string; [destruct (mem _ _); apply Hg|].
  destruct (mem ".." _); [eauto|]. destruct (mem _ _); [apply Hg|].
  destruct (startswith "/" path); [|apply Hg].
  destruct (path_under_root path env_root) as [p|x] eqn:E; [by apply path_under_root_contained in E|].
  apply Hg.
Qed.

(** A relative path stays in the window: without symbolic links, when the root and the
    first directory of the window have no [..], a relative path that is resolved at all is
    resolved under that directory; a path that would climb is refused, whatever it names. *)
Theorem window_confines `{!Resolve} (path env_root anchor : string) (window : list string) :
  resolve = lexical → anchor ≠ "" → mem ".." (parts env_root) = false → mem ".." (parts anchor) = false →
  startswith "/" env_root = true → startswith "/" anchor = false → startswith "/" path = false →
  if mem ".." (parts path)
  then resolve_in_window path env_root (anchor :: window) = Raise (outside path env_root)
  else ∃ p, resolve_in_window path env_root (anchor :: window) = Ok p ∧
    is_under (lexical (env_root +:+ "/" +:+ anchor)) p = true ∧
    relative_parts (lexical env_root) p = parts anchor ++ parts path.
Proof.
  intros Hres Ha Hroot Hanc Hra Haa Hpa. unfold resolve_in_window. cbn [head].
  change (from_option id "" (Some anchor)) with anchor. destruct (String.eqb_spec anchor ""); [done|].
  destruct (mem ".." (parts path)) eqn:Hpp; [done|].
  assert (∀ q, startswith "/" q = false → mem ".." (parts q) = false →
    ∃ p, path_under_root q env_root = Ok p ∧ p = "/" +:+ join "/" (parts env_root ++ parts q)) as Hg.
  { intros q Hq Hqq. unfold path_under_root. rewrite Hq, Hres.
    assert (lexical env_root = "/" +:+ join "/" (parts env_root)) as Hr
      by (unfold lexical; by rewrite norm_parts_plain).
    assert (parts (lexical env_root) = parts env_root) as Hpr
      by (rewrite Hr, parts_slash; apply parts_join, parts_are).
    assert (lexical (path_join (lexical env_root) q) = "/" +:+ join "/" (parts env_root ++ parts q)) as Hc.
    { unfold lexical at 1. rewrite parts_join_path, Hpr.
      by rewrite norm_parts_plain by (by rewrite mem_app, Hroot, Hqq). }
    rewrite Hc, Hr, join_under. by eexists. }
  assert (∃ q, (if mem path _ROOT_SENTINELS then anchor else anchor +:+ "/" +:+ path) = q ∧
    startswith "/" q = false ∧ parts q = parts anchor ++ parts path) as (q & Hq & Hqs & Hqp).
  { destruct (mem path _ROOT_SENTINELS) eqn:Em; eexists; (split; [done|]).
    - split; [done|]. apply mem_spec in Em. unfold _ROOT_SENTINELS in Em. rewrite !elem_of_cons in Em.
      destruct Em as [-> |[-> |[-> |Hnil]]]; [symmetry; apply app_nil_r..|by apply elem_of_nil in Hnil].
    - split; [by destruct anchor|apply parts_app]. }
  assert ((path =? "/")%string = false) as -> by (apply String.eqb_neq; by intros ->).
  rewrite Hpa. destruct (Hg q) as (p & Hp & ->); [done|by rewrite Hqp, mem_app, Hanc, Hpp|].
  exists ("/" +:+ join "/" (parts env_root ++ parts q)).
  split; [destruct (mem path _ROOT_SENTINELS); by subst q|]. rewrite Hqp. split.
  - rewrite lexical_join by done. rewrite app_assoc. apply join_under.
  - unfold lexical. rewrite norm_parts_plain by done. cbn [rev app]. apply relative_join.
    apply Forall_app. split; apply parts_are.
Qed.

Lemma part_unstripped p : has_char "/" p = false → strip_slashes p = p.
Proof.
  intros Hp. apply strip_none. unfold has_char in Hp. rewrite sexists_sforall in Hp.
  apply negb_false_iff in Hp. induction p as [|c p IH]; [done|]. cbn [sforall] in Hp |- *.
  apply andb_true_iff in Hp as [Hc Hp]. rewrite IH, andb_true_r by done.
  unfold one_of, has_char. cbn [sexists]. by rewrite orb_false_r, Ascii.eqb_sym.
Qed.

(** The window follows the first write, once: seeding changes nothing but an empty window
    of a session that can be written, and then to the top directory of what was written;
    the session then has that directory as its one window directory (when its name has
    no blank at either end), and no later write moves it. *)
Theorem window_seeded_once `{Resolve} (is_dir : string → bool) (st st' : session)
    (path env_root : string) (check : bool) :
  maybe_seed_window is_dir st path env_root check = Ok st' →
  st' = st ∨
  ∃ d top x rest, st = Some d ∧ window_dirs st = Ok [] ∧
    relative_parts (resolve env_root) (resolve path) = top :: x :: rest ∧
    st' = Some (dset d WORKSPACE_WINDOW_STATE_KEY (PList [PStr top])) ∧
    (strip top = top → window_dirs st' = Ok [top] ∧
       ∀ path2 check2, maybe_seed_window is_dir st' path2 env_root check2 = Ok st').
Proof.
  unfold maybe_seed_window at 1. destruct st as [d|]; [|intros [= <-]; by left].
  destruct (window_dirs (Some d)) as [[|y dirs]|] eqn:Ew; cbn [res_bind]; [|intros [= <-]; by left|done].
  destruct (negb _); [intros [= <-]; by left|].
  destruct (relative_parts _ _) as [|top [|x rest]] eqn:Ep; [intros [= <-]; by left..|].
  destruct (_ && _); [intros [= <-]; by left|]. intros [= <-]. right.
  exists d, top, x, rest. do 4 (split; [done|]). intros Htop.
  assert (window_dirs (Some (dset d WORKSPACE_WINDOW_STATE_KEY (PList [PStr top]))) = Ok [top]) as Hw.
  { pose proof (parts_are (sdrop (slen (resolve env_root)) (resolve path))) as Hp.
    unfold relative_parts in Ep. rewrite Ep in Hp. apply Forall_cons in Hp as [(Hne & Hdot & Hs) _].
    unfold window_dirs, get, _as_dict. cbn [default from_option id]. rewrite dget_dset_eq. cbn [default from_option id].
    change (omap clean_entry [PStr top]) with
      (match clean_entry (PStr top) with Some y => [y] | None => [] end).
    unfold clean_entry. rewrite Htop, part_unstripped by done.
    apply String.eqb_neq in Hne, Hdot. by rewrite Hne, Hdot. }
  split; [done|]. intros path2 check2. unfold maybe_seed_window. rewrite Hw. done.
Qed.

(** ** Concrete inputs *)

Lemma window_confines_witness :
  let _ := lexical in
  (∃ p, resolve_in_window "src/../a.py" "/workspace" ["projA"] = Raise (outside "src/../a.py" "/workspace") ∧
     resolve_in_window "./src//a.py" "/workspace" ["projA"] = Ok p ∧
     is_under (lexical ("/workspace" +:+ "/" +:+ "projA")) p = true ∧
     relative_parts (lexical "/workspace") p = parts "projA" ++ parts "./src//a.py") ∧
  resolve_in_window "./src//a.py" "/workspace" ["projA"] = Ok "/workspace/projA/src/a.py" ∧
  resolve_in_window "/b.md" "/workspace" ["projA"] = Ok "/workspace/b.md".
Proof.
  intros R. split; [|split; vm_compute; reflexivity].
  pose proof (window_confines (H := R) "src/../a.py" "/workspace" "projA" []
    eq_refl ltac:(discriminate) eq_refl eq_refl eq_refl eq_refl eq_refl) as H1.
  pose proof (window_confines (H := R) "./src//a.py" "/workspace" "projA" []
    eq_refl ltac:(discriminate) eq_refl eq_refl eq_refl eq_refl eq_refl) as H2.
  change (mem ".." (parts "src/../a.py")) with true in H1.
  change (mem ".." (parts "./src//a.py")) with false in H2. cbv iota in H1, H2.
  destruct H2 as (p & H2). exists p. split; [exact H1|exact H2].
Defined.

Lemma window_seeded_once_witness :
  let _ := lexical in
  let st' := Some [("workspace_window", PList [PStr "projA"])] in
  maybe_seed_window (λ _, true) (Some []) "/workspace/projA/a.py" "/workspace" true = Ok st' ∧
  (st' = Some [] ∨
   ∃ d top x rest, Some [] = Some d ∧ window_dirs (Some []) = Ok [] ∧
    relative_parts (resolve "/workspace") (resolve "/workspace/projA/a.py") = top :: x :: rest ∧
    st' = Some (dset d WORKSPACE_WINDOW_STATE_KEY (PList [PStr top])) ∧
    (strip top = top → window_dirs st' = Ok [top] ∧
       ∀ path2 check2, maybe_seed_window (λ _, true) st' path2 "/workspace" check2 = Ok st')).
Proof.
  intros R st'. split; [vm_compute; reflexivity|].
  apply (window_seeded_once (λ _, true) (Some []) st' "/workspace/projA/a.py" "/workspace" true).
  vm_compute. reflexivity.
Defined.
