(* ===== verification/Posix.v ===== *)
(** * Paths and a file system

    What the routes of the sandbox runtime use of [pathlib], [os] and [shutil]: a tree of
    files, directories and symbolic links, the kernel's walk along a path, CPython's
    [os.path.realpath] (3.12, the version of the runtime's image) and the operations on
    top of them. Paths are absolute, lists of names from the root. What the kernel may
    refuse on its own (permissions, a full disk) is a parameter, asked before each call. *)

From stdpp Require Import fin_maps gmap.
From S2P Require Import Prelude PyStr PyVal WorkspaceWindow.
#[local] Open Scope nat_scope.

Abbreviation path := (list string) (only parsing).
Inductive node := File (data : string) (mode : Z) | Dir | Link (target : string).
#[global] Instance node_eq_dec : EqDecision node.
Proof. solve_decision. Defined.
Abbreviation fs := (gmap (list string) node) (only parsing).

Definition path_text (p : path) : string := "/" +:+ join "/" p.
Definition is_absolute (raw : string) : bool := startswith "/" raw.
(** [Path(p).parent] *)
Definition parent (p : path) : path := removelast p.

(** The root of the tree is a directory. *)
Definition node_at (m : fs) (p : path) : option node := match p with [] => Some Dir | _ => m !! p end.
Definition link_target (m : fs) (p : path) : option string :=
  match node_at m p with Some (Link t) => Some t | _ => None end.

(** ** Errors *)

Inductive errno :=
| ENOENT | EACCES | EPERM | EEXIST | ENOTDIR | EISDIR | ENOTEMPTY | ELOOP
| EOTHER (number : Z) (text : string).
Definition strerror (e : errno) : string :=
  match e with
  | ENOENT => "[Errno 2] No such file or directory"
  | EACCES => "[Errno 13] Permission denied"
  | EPERM => "[Errno 1] Operation not permitted"
  | EEXIST => "[Errno 17] File exists"
  | ENOTDIR => "[Errno 20] Not a directory"
  | EISDIR => "[Errno 21] Is a directory"
  | ENOTEMPTY => "[Errno 39] Directory not empty"
  | ELOOP => "[Errno 40] Too many levels of symbolic links"
  | EOTHER n t => "[Errno " +:+ str_of_Z n +:+ "] " +:+ t
  end.
(** [str(exc)] *)
Definition os_text (e : errno) (p : path) : string := strerror e +:+ ": " +:+ repr_str (path_text p).
Definition os_exc (e : errno) (p : path) : exc :=
  let text := os_text e p in
  match e with
  | ENOENT => FileNotFoundError text
  | EACCES | EPERM => OtherError "PermissionError" text
  | EEXIST => OtherError "FileExistsError" text
  | ENOTDIR => OtherError "NotADirectoryError" text
  | EISDIR => OtherError "IsADirectoryError" text
  | ENOTEMPTY | ELOOP | EOTHER _ _ => OSError text
  end.

(** A system call: its value, or an error with the path it was given. *)
Inductive sys (A : Type) := Done (a : A) | Fails (e : errno) (at_ : path).
Arguments Done {A}. Arguments Fails {A}.

Inductive os_op := ORead | OWrite | OChmod | OMkdir | OUnlink | ORmdir | OScan | OStat.
Class Host := {
  fault : os_op → path → option errno;
  (** the mode of a new file *)
  create_mode : Z;
  (** [st_size] and [st_mtime] *)
  st_size : fs → path → Z;
  st_mtime : fs → path → Z
}.

(** ** The kernel's walk

    [follow]: whether a link in the last place is followed. The walk ends in a place that
    need not exist, in a directory that does. *)

Definition MAXSYMLINKS : nat := 40.
Fixpoint namei (links : nat) (m : fs) (follow : bool) {struct links} : path → list string → errno + path :=
  fix go (cur : path) (rest : list string) {struct rest} : errno + path :=
    match rest with
    | [] => inr cur
    | name :: rest' =>
        match node_at m cur with
        | Some Dir =>
            if (name =? "..")%string then go (parent cur) rest'
            else
              let here := cur ++ [name] in
              match link_target m here with
              | None => go here rest'
              | Some t =>
                  if negb follow && match rest' with [] => true | _ => false end then inr here
                  else match links with
                       | 0 => inl ELOOP
                       | S n => namei n m follow (if is_absolute t then [] else cur) (parts t ++ rest')
                       end
              end
        | Some _ => inl ENOTDIR
        | None => inl ENOENT
        end
    end.
Definition locate (m : fs) (follow : bool) (p : path) : errno + path := namei MAXSYMLINKS m follow [] p.

(** ** [os.path.realpath]

    [_joinrealpath(path, rest, False, seen)]: [seen] has the links met so far, with what
    they resolved to, or nothing yet. A link met again while it is being resolved is a loop:
    the rest of the path is then joined as it is ([false]). *)

(** [os.path.join(path, rest)] for the pieces of a rest: one that starts with a slash
    replaces the path. *)
Definition join_rest (p : path) (rest : list string) : path :=
  match rest with
  | "" :: (_ :: _) as absolute => absolute
  | _ => p ++ rest
  end.
Definition dropped (name : string) : bool := (name =? "")%string || (name =? ".")%string.
Fixpoint joinreal (fuel : nat) (m : fs) {struct fuel} :
    gmap path (option path) → path → list string → option (path * bool * gmap path (option path)) :=
  fix go (seen : gmap path (option path)) (p : path) (rest : list string) {struct rest} :=
    match rest with
    | [] => Some (p, true, seen)
    | name :: rest' =>
        if dropped name then go seen p rest'
        else if (name =? "..")%string then go seen (parent p) rest'
        else
          let newpath := p ++ [name] in
          match link_target m newpath with
          | None => go seen newpath rest'
          | Some t =>
              match seen !! newpath with
              | Some (Some known) => go seen known rest'
              | Some None => Some (join_rest newpath rest', false, seen)
              | None =>
                  match fuel with
                  | 0 => None
                  | S fuel' =>
                      match joinreal fuel' m (<[newpath := None]> seen) (if is_absolute t then [] else p)
                              (split_on "/" t) with
                      | None => None
                      | Some (known, false, seen') => Some (join_rest known rest', false, seen')
                      | Some (known, true, seen') => go (<[newpath := Some known]> seen') known rest'
                      end
                  end
              end
          end
    end.

(** [os.path.normpath] *)
Definition normpath (p : path) : path :=
  fold_left (λ acc name, if dropped name then acc else if (name =? "..")%string then parent acc else acc ++ [name])
    p [].
Definition links (m : fs) : gset path := dom (filter (λ kn, is_Some (link_target m kn.1)) m).
Definition realpath (m : fs) (p : path) : option (path * bool) :=
  match joinreal (S (size (links m))) m ∅ [] p with
  | Some (q, ok, _) => Some (normpath q, ok)
  | None => None
  end.

(** ** Operations *)

Section Operations.
Context `{Host}.

Definition stat (m : fs) (p : path) : sys node :=
  match fault OStat p with
  | Some e => Fails e p
  | None =>
      match locate m true p with
      | inl e => Fails e p
      | inr q => match node_at m q with Some n => Done n | None => Fails ENOENT p end
      end
  end.

(** [Path(p).resolve()]. *)
Definition resolve_path (m : fs) (p : path) : res path :=
  match realpath m p with
  | None => Raise (RuntimeError "maximum recursion depth exceeded")
  | Some (q, _) =>
      match stat m q with
      | Fails ELOOP _ => Raise (RuntimeError ("Symlink loop from " +:+ repr_str (path_text q)))
      | _ => Ok q
      end
  end.

(** [exists()], [is_dir()]: errors that mean there is no such file are [False]. *)
Definition ignored (e : errno) : bool := match e with ENOENT | ENOTDIR | ELOOP => true | _ => false end.
Definition test (f : node → bool) (m : fs) (p : path) : sys bool :=
  match stat m p with
  | Done n => Done (f n)
  | Fails e q => if ignored e then Done false else Fails e q
  end.
Definition is_dir_node (n : node) : bool := match n with Dir => true | _ => false end.
Definition exists_ : fs → path → sys bool := test (λ _, true).
Definition is_dir : fs → path → sys bool := test is_dir_node.
(** [is_symlink()] *)
Definition is_symlink (m : fs) (p : path) : sys bool :=
  match fault OStat p with
  | Some e => if ignored e then Done false else Fails e p
  | None => match locate m false p with
            | inl e => if ignored e then Done false else Fails e p
            | inr q => Done (match link_target m q with Some _ => true | None => false end)
            end
  end.

Definition read_bytes (m : fs) (p : path) : sys string :=
  match fault ORead p with
  | Some e => Fails e p
  | None =>
      match locate m true p with
      | inl e => Fails e p
      | inr q => match node_at m q with
                 | Some (File data _) => Done data
                 | Some Dir => Fails EISDIR p
                 | _ => Fails ENOENT p
                 end
      end
  end.

Definition outcome : Type := sys unit * fs.
Definition and_then (r : outcome) (k : fs → outcome) : outcome :=
  match r with (Done _, m) => k m | failed => failed end.

Definition write_bytes (data : string) (m : fs) (p : path) : outcome :=
  match fault OWrite p with
  | Some e => (Fails e p, m)
  | None =>
      match locate m true p with
      | inl e => (Fails e p, m)
      | inr q =>
          match node_at m q with
          | Some Dir => (Fails EISDIR p, m)
          | Some (File _ mode) => (Done tt, <[q := File data mode]> m)
          | _ => (Done tt, <[q := File data create_mode]> m)
          end
      end
  end.
Definition chmod (mode : Z) (m : fs) (p : path) : outcome :=
  match fault OChmod p with
  | Some e => (Fails e p, m)
  | None =>
      match locate m true p with
      | inl e => (Fails e p, m)
      | inr q =>
          match node_at m q with
          | Some (File data _) => (Done tt, <[q := File data mode]> m)
          | Some _ => (Done tt, m)
          | None => (Fails ENOENT p, m)
          end
      end
  end.

Definition os_mkdir (m : fs) (p : path) : outcome :=
  match fault OMkdir p with
  | Some e => (Fails e p, m)
  | None =>
      match locate m false p with
      | inl e => (Fails e p, m)
      | inr q => match node_at m q with
                 | Some _ => (Fails EEXIST p, m)
                 | None => (Done tt, <[q := Dir]> m)
                 end
      end
  end.
(** [Path(p).mkdir(parents=parents, exist_ok=True)]: on a missing parent, the parents
    first. *)
Definition tolerate (m : fs) (p : path) (e : errno) : outcome :=
  match is_dir m p with
  | Done true => (Done tt, m)
  | Done false => (Fails e p, m)
  | Fails e' q => (Fails e' q, m)
  end.
Fixpoint mkdir_loop (fuel : nat) (m : fs) (p : path) : outcome :=
  match os_mkdir m p with
  | (Done _, m') => (Done tt, m')
  | (Fails ENOENT _, _) =>
      match fuel with
      | 0 => (Fails ENOENT p, m)
      | S fuel' =>
          and_then (mkdir_loop fuel' m (parent p)) (λ m',
            match os_mkdir m' p with
            | (Fails ENOENT _, _) => (Fails ENOENT p, m')
            | (Fails e _, _) => tolerate m' p e
            | done => done
            end)
      end
  | (Fails e _, _) => tolerate m p e
  end.
Definition mkdir_p (m : fs) (p : path) : outcome := mkdir_loop (length p) m p.

Definition unlink_at (m : fs) (q : path) : outcome :=
  match fault OUnlink q with
  | Some e => (Fails e q, m)
  | None => match node_at m q with
            | None => (Fails ENOENT q, m)
            | Some Dir => (Fails EISDIR q, m)
            | Some _ => (Done tt, delete q m)
            end
  end.
Definition unlink (m : fs) (p : path) : outcome :=
  match locate m false p with
  | inl e => (Fails e p, m)
  | inr q => unlink_at m q
  end.

(** The names in a directory. *)
Definition child_of (p q : path) : option string :=
  if bool_decide (q ≠ [] ∧ parent q = p) then last q else None.
Definition children (m : fs) (p : path) : list string := omap (child_of p) (map fst (map_to_list m)).
Definition rmdir_at (m : fs) (q : path) : outcome :=
  match fault ORmdir q with
  | Some e => (Fails e q, m)
  | None => match children m q with [] => (Done tt, delete q m) | _ => (Fails ENOTEMPTY q, m) end
  end.
(** [shutil.rmtree]: what is in the directory, then the directory. It walks by directory
    handles, so names are looked up where they are found. *)
Fixpoint rmtree_at (fuel : nat) (m : fs) (q : path) : outcome :=
  match fuel with
  | 0 => (Fails ENOTEMPTY q, m)
  | S fuel' =>
      match fault OScan q with
      | Some e => (Fails e q, m)
      | None =>
          and_then (fold_left (λ r name, and_then r (λ m,
                      let here := q ++ [name] in
                      match node_at m here with
                      | Some Dir => rmtree_at fuel' m here
                      | _ => unlink_at m here
                      end)) (children m q) (Done tt, m))
            (λ m, rmdir_at m q)
      end
  end.
Definition depth (m : fs) : nat := foldr max 0 (map length (map fst (map_to_list m))).
Definition rmtree (m : fs) (p : path) : outcome :=
  match locate m true p with
  | inl e => (Fails e p, m)
  | inr q => rmtree_at (S (depth m)) m q
  end.

(** [os.scandir]: where the directory is, and the names in it. *)
Definition scandir (m : fs) (p : path) : sys (path * list string) :=
  match fault OScan p with
  | Some e => Fails e p
  | None =>
      match locate m true p with
      | inl e => Fails e p
      | inr q => match node_at m q with
                 | Some Dir => Done (q, children m q)
                 | Some _ => Fails ENOTDIR p
                 | None => Fails ENOENT p
                 end
      end
  end.

(** [p.rglob("*")], the regular files among it: no link is followed below [p]. *)
Definition below (q r : path) : option path :=
  if bool_decide (q `prefix_of` r) then Some (drop (length q) r) else None.
Definition files_below (m : fs) (q : path) : list (path * string) :=
  omap (λ rn, match rn.2, below q rn.1 with
              | File data _, Some (x :: rel) => Some (x :: rel, data)
              | _, _ => None
              end) (map_to_list m).
End Operations.

(** * Facts *)

(** ** Names and prefixes *)

(** No name that a path would drop or go up by. *)
Definition is_name (n : string) : Prop := dropped n = false ∧ n ≠ "..".
Definition clean (p : path) : Prop := Forall is_name p.

Lemma parent_snoc (p : path) n : parent (p ++ [n]) = p.
Proof. apply removelast_last. Qed.
Lemma parent_prefix (p : path) : parent p `prefix_of` p.
Proof.
  destruct p as [|n p _] using rev_ind; [done|]. rewrite parent_snoc. by apply prefix_app_r.
Qed.
Lemma parent_clean p : clean p → clean (parent p).
Proof.
  destruct p as [|n p _] using rev_ind; [done|]. rewrite parent_snoc. intros [Hp _]%Forall_app. done.
Qed.
Lemma prefix_snoc_cases (q p : path) n : q `prefix_of` p ++ [n] → q `prefix_of` p ∨ q = p ++ [n].
Proof.
  intros [k Hk]. destruct k as [|x k _] using rev_ind; [right; by rewrite app_nil_r in Hk|].
  rewrite app_assoc in Hk. apply app_inj_tail in Hk as [-> _]. left. by apply prefix_app_r.
Qed.
Lemma prefix_nil_eq (q : path) : q `prefix_of` [] → q = [].
Proof. intros [k Hk]. by destruct q. Qed.
Lemma prefix_comparable (p q r : path) : p `prefix_of` r → q `prefix_of` r → p `prefix_of` q ∨ q `prefix_of` p.
Proof.
  intros [k Hk] [j Hj]. rewrite Hk in Hj. apply app_eq_app in Hj as (l & [[-> _]|[-> _]]).
  - right. by apply prefix_app_r.
  - left. by apply prefix_app_r.
Qed.
Lemma dropped_spec n : dropped n = false ↔ n ≠ "" ∧ n ≠ ".".
Proof. unfold dropped. rewrite orb_false_iff, !String.eqb_neq. done. Qed.

Lemma normpath_clean p : clean (normpath p).
Proof.
  unfold normpath. assert (∀ acc, clean acc → clean (fold_left
    (λ acc name, if dropped name then acc else if (name =? "..")%string then parent acc else acc ++ [name]) p acc))
    as Hf; [|by apply Hf, Forall_nil].
  induction p as [|n p IH]; intros acc Hacc; [done|]. cbn [fold_left]. apply IH.
  destruct (dropped n) eqn:Ed; [done|]. destruct (n =? "..")%string eqn:En; [by apply parent_clean|].
  apply Forall_app. split; [done|]. constructor; [|constructor]. by split; [|apply String.eqb_neq].
Qed.
Lemma normpath_of_clean p : clean p → normpath p = p.
Proof.
  unfold normpath. intros Hp. enough (∀ acc, fold_left
    (λ acc name, if dropped name then acc else if (name =? "..")%string then parent acc else acc ++ [name]) p acc
    = acc ++ p) as Hf by apply Hf.
  induction Hp as [|n p [Hd Hn] _ IH]; intros acc; [by rewrite app_nil_r|]. cbn [fold_left].
  apply String.eqb_neq in Hn. rewrite Hd, Hn, IH. by rewrite <- app_assoc.
Qed.

(** ** Paths through no link *)

Definition physical (m : fs) (p : path) : Prop := ∀ q, q `prefix_of` p → link_target m q = None.

Lemma physical_nil m : physical m [].
Proof. intros q ->%prefix_nil_eq. done. Qed.
Lemma physical_prefix m p q : q `prefix_of` p → physical m p → physical m q.
Proof. intros Hq Hp r Hr. apply Hp. by transitivity q. Qed.
Lemma physical_snoc m p n : physical m p → link_target m (p ++ [n]) = None → physical m (p ++ [n]).
Proof. intros Hp Hn q [Hq | ->]%prefix_snoc_cases; [by apply Hp|done]. Qed.
Lemma physical_parent m p : physical m p → physical m (parent p).
Proof. apply physical_prefix, parent_prefix. Qed.

(** The kernel's walk along such a path stays on it. *)
Lemma namei_physical n m follow cur rest q : physical m (cur ++ rest) → clean rest →
  namei n m follow cur rest = inr q →
  q = cur ++ rest ∧ ∀ r, cur `prefix_of` r → r `prefix_of` parent (cur ++ rest) → rest ≠ [] →
    node_at m r = Some Dir.
Proof.
  revert cur. induction rest as [|name rest IH]; intros cur Hp Hc Hw.
  { destruct n; cbn in Hw; injection Hw as <-; by rewrite app_nil_r. }
  apply Forall_cons in Hc as [[_ Hn] Hc]. apply String.eqb_neq in Hn.
  assert (link_target m (cur ++ [name]) = None) as Hl.
  { apply Hp. rewrite (app_assoc cur [name] rest : cur ++ name :: rest = _). by apply prefix_app_r. }
  assert (node_at m cur = Some Dir ∧ namei n m follow (cur ++ [name]) rest = inr q) as [Hd Hw'].
  { destruct n; cbn [namei] in Hw; destruct (node_at m cur) as [[]|]; try done; rewrite Hn, Hl in Hw; done. }
  assert (cur ++ name :: rest = (cur ++ [name]) ++ rest) as E by by rewrite <- app_assoc.
  rewrite E in Hp |- *. destruct (IH (cur ++ [name]) Hp Hc Hw') as [-> Hr]. split; [done|].
  intros r Hcr Hr' _. destruct (decide (r = cur)) as [->|Hne]; [done|].
  destruct rest as [|x rest].
  - rewrite app_nil_r, parent_snoc in Hr'. destruct Hne. apply (anti_symm prefix); done.
  - apply Hr; [|done|done]. destruct Hcr as [k ->]. destruct k as [|y k]; [by rewrite app_nil_r in Hne|].
    assert (cur ++ y :: k `prefix_of` (cur ++ [name]) ++ x :: rest) as [j Hj].
    { etransitivity; [exact Hr'|apply parent_prefix]. }
    rewrite <- !app_assoc in Hj. apply app_inv_head in Hj. injection Hj as <- _.
    rewrite (app_assoc cur [name] k : cur ++ name :: k = _). by apply prefix_app_r.
Qed.

Lemma locate_physical m follow p q : physical m p → clean p → locate m follow p = inr q →
  q = p ∧ (p ≠ [] → ∀ r, r `prefix_of` parent p → node_at m r = Some Dir).
Proof.
  intros Hp Hc Hq. destruct (namei_physical MAXSYMLINKS m follow [] p q Hp Hc Hq) as [-> Hd]. split; [done|].
  intros Hne r Hr. by apply Hd; [apply prefix_nil| |].
Qed.

(** On a path of directories, the walk arrives. *)
Lemma namei_dirs n m follow cur rest : physical m (cur ++ rest) → clean rest →
  (∀ r, cur `prefix_of` r → r `prefix_of` parent (cur ++ rest) → node_at m r = Some Dir) →
  namei n m follow cur rest = inr (cur ++ rest).
Proof.
  revert cur. induction rest as [|name rest IH]; intros cur Hp Hc Hd.
  { rewrite app_nil_r. by destruct n. }
  apply Forall_cons in Hc as [[_ Hn] Hc]. apply String.eqb_neq in Hn.
  assert (cur ++ name :: rest = (cur ++ [name]) ++ rest) as E by by rewrite <- app_assoc.
  assert (link_target m (cur ++ [name]) = None) as Hl by (apply Hp; rewrite E; by apply prefix_app_r).
  assert (cur `prefix_of` parent (cur ++ name :: rest)) as Hpre.
  { destruct rest as [|x rest _] using rev_ind; [by rewrite parent_snoc|].
    rewrite (app_assoc cur (name :: rest) [x] : cur ++ name :: rest ++ [x] = _), parent_snoc. by apply prefix_app_r. }
  assert (node_at m cur = Some Dir) as Hcur by by apply Hd.
  assert (namei n m follow (cur ++ [name]) rest = inr ((cur ++ [name]) ++ rest)) as Hrec.
  { rewrite E in Hp, Hd. apply IH; [done|done|]. intros r Hr Hr'. apply Hd; [|done].
    by transitivity (cur ++ [name]); [apply prefix_app_r|]. }
  rewrite E. destruct n; cbn [namei]; rewrite Hcur, Hn, Hl; exact Hrec.
Qed.
Lemma locate_dirs m follow p : physical m p → clean p → (∀ r, r `prefix_of` parent p → node_at m r = Some Dir) →
  locate m follow p = inr p.
Proof. intros Hp Hc Hd. apply (namei_dirs MAXSYMLINKS m follow [] p Hp Hc). intros r _ Hr. by apply Hd. Qed.

(** ** What [realpath] gives *)

Lemma link_in_links m p t : link_target m p = Some t → p ∈ links m.
Proof.
  intros Hl. unfold links. apply elem_of_dom. destruct p as [|n p]; [done|].
  assert (∃ x, node_at m (n :: p) = Some x) as [x Hx].
  { unfold link_target in Hl. destruct (node_at m (n :: p)); [by eexists|done]. }
  exists x. apply map_lookup_filter_Some. split; [exact Hx|]. exists t. exact Hl.
Qed.

Lemma joinreal_nil fuel m seen p : joinreal fuel m seen p [] = Some (p, true, seen).
Proof. by destruct fuel. Qed.
Lemma joinreal_cons fuel m seen p name rest : joinreal fuel m seen p (name :: rest) =
  if dropped name then joinreal fuel m seen p rest
  else if (name =? "..")%string then joinreal fuel m seen (parent p) rest
  else match link_target m (p ++ [name]) with
       | None => joinreal fuel m seen (p ++ [name]) rest
       | Some t =>
           match seen !! (p ++ [name]) with
           | Some (Some known) => joinreal fuel m seen known rest
           | Some None => Some (join_rest (p ++ [name]) rest, false, seen)
           | None =>
               match fuel with
               | 0 => None
               | S fuel' =>
                   match joinreal fuel' m (<[p ++ [name] := None]> seen) (if is_absolute t then [] else p)
                           (split_on "/" t) with
                   | None => None
                   | Some (known, false, seen') => Some (join_rest known rest, false, seen')
                   | Some (known, true, seen') => joinreal fuel m (<[p ++ [name] := Some known]> seen') known rest
                   end
               end
           end
       end.
Proof. by destruct fuel. Qed.

(** The fuel given is enough: every nested call resolves a link not met before. *)
Lemma joinreal_total fuel m seen p rest : size (links m ∖ dom seen) ≤ fuel →
  ∃ q ok seen', joinreal fuel m seen p rest = Some (q, ok, seen') ∧ dom seen ⊆ dom seen'.
Proof.
  revert seen p rest. induction fuel as [|fuel IHf]; intros seen p rest.
  all: revert seen p; induction rest as [|name rest IH]; intros seen p Hf; [rewrite joinreal_nil; eauto|].
  all: rewrite joinreal_cons; destruct (dropped name); [by apply IH|]; destruct (name =? "..")%string; [by apply IH|].
  all: destruct (link_target m (p ++ [name])) as [t|] eqn:Hl; [|by apply IH].
  all: destruct (seen !! (p ++ [name])) as [[known|]|] eqn:Hs; [by apply IH|by eauto|].
  all: assert (p ++ [name] ∈ links m ∖ dom seen) as Hin
    by (apply elem_of_difference; split; [by apply (link_in_links m _ t)|by apply not_elem_of_dom]).
  { exfalso. apply (size_non_empty_iff (links m ∖ dom seen)); [set_solver|lia]. }
  destruct (IHf (<[p ++ [name] := None]> seen) (if is_absolute t then [] else p) (split_on "/" t))
    as (q & ok & seen' & -> & Hsub).
  { assert (size (links m ∖ dom (<[p ++ [name] := None]> seen)) < size (links m ∖ dom seen)); [|lia].
    apply subset_size. rewrite dom_insert_L. set_solver. }
  rewrite dom_insert_L in Hsub. destruct ok; [|exists (join_rest q rest), false, seen'; split; [done|set_solver]].
  destruct (IH (<[p ++ [name] := Some q]> seen') q) as (q' & ok' & seen'' & -> & Hsub').
  { etransitivity; [|exact Hf]. apply subseteq_size. rewrite dom_insert_L. set_solver. }
  rewrite dom_insert_L in Hsub'. exists q', ok', seen''. split; [done|set_solver].
Qed.

Lemma realpath_total m p : ∃ q ok, realpath m p = Some (q, ok).
Proof.
  unfold realpath. destruct (joinreal_total (S (size (links m))) m ∅ [] p) as (q & ok & seen & -> & _); [|by eauto].
  rewrite dom_empty_L, difference_empty_L. lia.
Qed.

(** When no loop is met, the path goes through no link. *)
Lemma joinreal_physical fuel m seen p rest q seen' :
  joinreal fuel m seen p rest = Some (q, true, seen') →
  physical m p → clean p → (∀ k v, seen !! k = Some (Some v) → physical m v ∧ clean v) →
  (physical m q ∧ clean q) ∧ ∀ k v, seen' !! k = Some (Some v) → physical m v ∧ clean v.
Proof.
  revert seen p rest q seen'. induction fuel as [|fuel IHf]; intros seen p rest q seen'.
  all: revert seen p; induction rest as [|name rest IH]; intros seen p Hj Hp Hc Hs;
    [rewrite joinreal_nil in Hj; by injection Hj as <- <-|].
  all: rewrite joinreal_cons in Hj; destruct (dropped name) eqn:Hd; [by apply (IH seen p)|].
  all: destruct (name =? "..")%string eqn:Hn;
    [by apply (IH seen (parent p)); [|apply physical_parent|apply parent_clean|]|].
  all: destruct (link_target m (p ++ [name])) as [t|] eqn:Hl;
    [|apply (IH seen (p ++ [name])); [done|by apply physical_snoc| |done];
      apply Forall_app; split; [done|]; constructor; [|constructor]; by split; [|apply String.eqb_neq]].
  all: destruct (seen !! (p ++ [name])) as [[known|]|] eqn:Hk; [|done|];
    [destruct (Hs _ _ Hk); by apply (IH seen known)|].
  { done. }
  destruct (joinreal fuel m _ _ _) as [[[known [|]] seen1]|] eqn:Hin; [|done..].
  apply IHf in Hin as [[Hp1 Hc1] Hs1].
  - apply (IH (<[p ++ [name] := Some known]> seen1) known); [done..|].
    intros k v [[<- [= <-]]|[_ Hv]]%lookup_insert_Some; [done|by apply (Hs1 k)].
  - destruct (is_absolute t); [apply physical_nil|done].
  - destruct (is_absolute t); [by apply Forall_nil|done].
  - intros k v [[_ ?]|[_ Hv]]%lookup_insert_Some; [done|by apply (Hs k)].
Qed.

(** No loop of links is met on the way. *)
Definition settled (m : fs) (p : path) : Prop := ∃ q, realpath m p = Some (q, true).
#[global] Instance settled_dec m p : Decision (settled m p).
Proof.
  refine (match realpath m p as r return Decision (∃ q, r = Some (q, true)) with
          | Some (q, true) => left _ | _ => right _ end); try (intros [? ?]; done). by exists q.
Defined.

Lemma realpath_physical m p q : realpath m p = Some (q, true) → physical m q ∧ clean q.
Proof.
  unfold realpath. destruct (joinreal _ m ∅ [] p) as [[[r ok] seen]|] eqn:Hj; [|done]. intros [= <- ->].
  apply joinreal_physical in Hj as [[Hp Hc] _]; [|apply physical_nil|by apply Forall_nil|done].
  by rewrite normpath_of_clean.
Qed.

(** A path through no link is its own. *)
Lemma joinreal_own fuel m seen cur rest : physical m (cur ++ rest) → clean rest →
  joinreal fuel m seen cur rest = Some (cur ++ rest, true, seen).
Proof.
  revert cur. induction rest as [|name rest IH]; intros cur Hp Hc.
  { by rewrite app_nil_r, joinreal_nil. }
  apply Forall_cons in Hc as [[Hd Hn] Hc]. apply String.eqb_neq in Hn.
  assert (cur ++ name :: rest = (cur ++ [name]) ++ rest) as E by by rewrite <- app_assoc.
  rewrite E in Hp |- *. assert (link_target m (cur ++ [name]) = None) as Hl by (apply Hp; by apply prefix_app_r).
  rewrite joinreal_cons, Hd, Hn, Hl. by apply IH.
Qed.
Lemma realpath_own m p : physical m p → clean p → realpath m p = Some (p, true).
Proof. intros Hp Hc. unfold realpath. rewrite (joinreal_own _ m ∅ [] p Hp Hc). cbv beta iota. by rewrite normpath_of_clean. Qed.
Lemma settled_own m p : physical m p → clean p → settled m p.
Proof. intros Hp Hc. exists p. by apply realpath_own. Qed.

Lemma resolve_settled `{Host} m p q : settled m p → resolve_path m p = Ok q →
  realpath m p = Some (q, true) ∧ physical m q ∧ clean q.
Proof.
  intros [r Hr] Hq. unfold resolve_path in Hq. rewrite Hr in Hq.
  assert (r = q) as -> by by repeat case_match; simplify_eq.
  split; [done|]. by apply (realpath_physical m p).
Qed.

(** ** Changes below a directory only *)

Section Within.
Context `{Host} (root : path).

Record within (m m' : fs) : Prop := {
  outside_same p : ¬ root `prefix_of` p → m' !! p = m !! p;
  links_old p t : link_target m' p = Some t → link_target m p = Some t;
  root_stays : node_at m root = Some Dir → node_at m' root = Some Dir
}.
#[global] Instance within_preorder : PreOrder within.
Proof.
  split; [by split|]. intros a b c H1 H2. split.
  - intros p Hp. by rewrite (outside_same _ _ H2), (outside_same _ _ H1).
  - intros p t Ht. by apply (links_old _ _ H1), (links_old _ _ H2).
  - intros Hr. by apply (root_stays _ _ H2), (root_stays _ _ H1).
Qed.

(** The directory is there, and so is the way to it. *)
Definition rooted (m : fs) : Prop := ∀ q, q `prefix_of` root → node_at m q = Some Dir.

Lemma node_at_same (m m' : fs) p : m' !! p = m !! p → node_at m' p = node_at m p.
Proof. by destruct p. Qed.
Lemma within_rooted m m' : within m m' → rooted m → rooted m'.
Proof.
  intros Hw Hr q Hq. destruct (decide (root `prefix_of` q)) as [Hq'|Hq'].
  - assert (q = root) as -> by by apply (anti_symm prefix). apply (root_stays _ _ Hw). by apply Hr.
  - rewrite (node_at_same m m'); [by apply Hr|]. by apply (outside_same _ _ Hw).
Qed.
Lemma within_physical m m' p : within m m' → physical m p → physical m' p.
Proof.
  intros Hw Hp q Hq. destruct (link_target m' q) as [t|] eqn:E; [|done].
  apply (links_old _ _ Hw) in E. rewrite (Hp q Hq) in E. done.
Qed.
Lemma rooted_physical m : rooted m → physical m root.
Proof. intros Hr q Hq. unfold link_target. by rewrite Hr. Qed.

Lemma node_at_insert (m : fs) p q n : p ≠ [] → node_at (<[p := n]> m) q = if decide (q = p) then Some n else node_at m q.
Proof.
  intros Hne. destruct q as [|x q]; cbn; [by case_decide|]. case_decide as E; [rewrite E; by rewrite lookup_insert_eq|].
  by rewrite lookup_insert_ne by congruence.
Qed.
Lemma node_at_delete (m : fs) p q : p ≠ [] → node_at (delete p m) q = if decide (q = p) then None else node_at m q.
Proof.
  intros Hne. destruct q as [|x q]; cbn; [by case_decide|]. case_decide as E; [rewrite E; by rewrite lookup_delete_eq|].
  by rewrite lookup_delete_ne by congruence.
Qed.
Lemma under_nonempty p : root `prefix_of` p → p ≠ root → p ≠ [].
Proof. intros Hp Hne ->. by apply prefix_nil_eq in Hp. Qed.

Lemma insert_within (m : fs) p n : root `prefix_of` p → p ≠ root → (∀ t, n ≠ Link t) → within m (<[p := n]> m).
Proof.
  intros Hp Hne Hn. pose proof (under_nonempty p Hp Hne) as Hp0. split.
  - intros q Hq. apply lookup_insert_ne. intros ->. done.
  - intros q t. unfold link_target. rewrite node_at_insert by done. case_decide; [|done]. destruct n; [done..|].
    by destruct (Hn target).
  - intros Hr. rewrite node_at_insert by done. case_decide; congruence.
Qed.
Lemma delete_within (m : fs) p : root `prefix_of` p → p ≠ root → within m (delete p m).
Proof.
  intros Hp Hne. pose proof (under_nonempty p Hp Hne) as Hp0. split.
  - intros q Hq. apply lookup_delete_ne. intros ->. done.
  - intros q t. unfold link_target. rewrite node_at_delete by done. by case_decide.
  - intros Hr. rewrite node_at_delete by done. case_decide; congruence.
Qed.

Lemma write_within data m p : rooted m → physical m p → clean p → root `prefix_of` p →
  within m (write_bytes data m p).2.
Proof.
  intros Hr Hp Hc Hu. unfold write_bytes. destruct (fault OWrite p); [done|].
  destruct (locate m true p) as [e|q] eqn:Hl; [done|]. apply locate_physical in Hl as [-> _]; [|done..].
  assert (p = root → node_at m p = Some Dir) as Hroot by (intros ->; by apply Hr).
  destruct (node_at m p) as [[d mode| |t]|]; cbn [snd]; [|done|..];
    (apply insert_within; [done| |done]); intros ->; by specialize (Hroot eq_refl).
Qed.
Lemma chmod_within mode m p : rooted m → physical m p → clean p → root `prefix_of` p → within m (chmod mode m p).2.
Proof.
  intros Hr Hp Hc Hu. unfold chmod. destruct (fault OChmod p); [done|].
  destruct (locate m true p) as [e|q] eqn:Hl; [done|]. apply locate_physical in Hl as [-> _]; [|done..].
  assert (p = root → node_at m p = Some Dir) as Hroot by (intros ->; by apply Hr).
  destruct (node_at m p) as [[d md| |t]|]; cbn [snd]; try done.
  apply insert_within; [done| |done]. intros ->. by specialize (Hroot eq_refl).
Qed.

(** A path on the way to the root, or below it. *)
Definition comparable (p : path) : Prop := root `prefix_of` p ∨ p `prefix_of` root.
Lemma comparable_parent p : comparable p → comparable (parent p).
Proof.
  intros [Hp|Hp]; [|right; etransitivity; [apply parent_prefix|done]].
  destruct p as [|x p _] using rev_ind; [by left|]. rewrite parent_snoc.
  apply prefix_snoc_cases in Hp as [Hp|E]; [by left|right; by exists [x]].
Qed.

Lemma os_mkdir_within m p : rooted m → physical m p → clean p → comparable p → within m (os_mkdir m p).2.
Proof.
  intros Hr Hp Hc Hu. unfold os_mkdir. destruct (fault OMkdir p); [done|].
  destruct (locate m false p) as [e|q] eqn:Hl; [done|]. apply locate_physical in Hl as [-> _]; [|done..].
  destruct (node_at m p) eqn:E; [done|]. cbn [snd]. assert (¬ p `prefix_of` root) as Hn.
  { intros Hpre. by rewrite (Hr p Hpre) in E. }
  destruct Hu as [Hu|Hu]; [|done]. apply insert_within; [done| |done]. by intros ->.
Qed.
Lemma tolerate_same m p e : (tolerate m p e).2 = m.
Proof. unfold tolerate. by destruct (is_dir m p) as [[]|]. Qed.

Lemma and_then_within (m : fs) r k : within m r.2 → (∀ m', r = (Done tt, m') → within m' (k m').2) →
  within m (and_then r k).2.
Proof.
  destruct r as [[[]|e q] m']; cbn [and_then snd]; intros H1 H2; [|done]. etransitivity; [exact H1|by apply H2].
Qed.
Lemma mkdir_loop_within fuel m p : rooted m → physical m p → clean p → comparable p →
  within m (mkdir_loop fuel m p).2.
Proof.
  revert m p. induction fuel as [|fuel IH]; intros m p Hr Hp Hc Hu; cbn [mkdir_loop];
    pose proof (os_mkdir_within m p Hr Hp Hc Hu) as Hm; destruct (os_mkdir m p) as [[[]|[] at_] m1];
    cbn [snd] in Hm |- *; rewrite ?tolerate_same; try done.
  assert (within m (mkdir_loop fuel m (parent p)).2) as Hrec.
  { apply IH; [done|by apply physical_parent|by apply parent_clean|by apply comparable_parent]. }
  apply and_then_within; [done|]. intros m' Hm'. rewrite Hm' in Hrec. cbn [snd] in Hrec.
  assert (within m' (os_mkdir m' p).2) as H2.
  { apply os_mkdir_within; [by apply (within_rooted m)|by apply (within_physical m)|done..]. }
  destruct (os_mkdir m' p) as [[[]|[] at2] m2]; cbn [snd] in H2 |- *; rewrite ?tolerate_same; done.
Qed.
Lemma mkdir_p_within m p : rooted m → physical m p → clean p → comparable p → within m (mkdir_p m p).2.
Proof. apply mkdir_loop_within. Qed.

Lemma unlink_at_within m q : root `prefix_of` q → q ≠ root → within m (unlink_at m q).2.
Proof.
  intros Hq Hne. unfold unlink_at. destruct (fault OUnlink q); [done|].
  destruct (node_at m q) as [[]|]; cbn [snd]; try done; by apply delete_within.
Qed.
Lemma unlink_within m p : physical m p → clean p → root `prefix_of` p → p ≠ root → within m (unlink m p).2.
Proof.
  intros Hp Hc Hu Hne. unfold unlink. destruct (locate m false p) as [e|q] eqn:Hl; [done|].
  apply locate_physical in Hl as [-> _]; [|done..]. by apply unlink_at_within.
Qed.

Lemma fold_within {A} (f : A → fs → outcome) names m0 r : (∀ x m, within m (f x m).2) → within m0 r.2 →
  within m0 (fold_left (λ r x, and_then r (f x)) names r).2.
Proof.
  intros Hf. revert r. induction names as [|x names IH]; intros r Hr; [done|]. cbn [fold_left]. apply IH.
  apply and_then_within; [done|]. intros. apply Hf.
Qed.
Lemma under_snoc q (n : string) : root `prefix_of` q → root `prefix_of` q ++ [n] ∧ q ++ [n] ≠ root.
Proof.
  intros Hq. split; [by apply prefix_app_r|]. intros <-. by apply prefix_snoc_not in Hq.
Qed.
Lemma rmtree_at_within fuel m q : root `prefix_of` q → q ≠ root → within m (rmtree_at fuel m q).2.
Proof.
  revert m q. induction fuel as [|fuel IH]; intros m q Hq Hne; cbn [rmtree_at]; [done|].
  destruct (fault OScan q); [done|]. apply and_then_within.
  - apply (fold_within (λ name m, match node_at m (q ++ [name]) with
                                  | Some Dir => rmtree_at fuel m (q ++ [name])
                                  | _ => unlink_at m (q ++ [name])
                                  end)); [|done].
    intros x m1. destruct (under_snoc q x Hq).
    destruct (node_at m1 (q ++ [x])) as [[]|]; [apply unlink_at_within|apply IH|apply unlink_at_within..]; done.
  - intros m' _. unfold rmdir_at. destruct (fault ORmdir q); [done|].
    destruct (children m' q); cbn [snd]; [by apply delete_within|done].
Qed.
Lemma rmtree_within m p : physical m p → clean p → root `prefix_of` p → p ≠ root → within m (rmtree m p).2.
Proof.
  intros Hp Hc Hu Hne. unfold rmtree. destruct (locate m true p) as [e|q] eqn:Hl; [done|].
  apply locate_physical in Hl as [-> _]; [|done..]. by apply rmtree_at_within.
Qed.
End Within.

(** ** When the system refuses nothing *)

Lemma namei_missing n m follow cur rest : physical m (cur ++ rest) → clean rest →
  (∀ r, cur `prefix_of` r → r `prefix_of` parent (cur ++ rest) → node_at m r = None ∨ node_at m r = Some Dir) →
  namei n m follow cur rest = inr (cur ++ rest) ∨ namei n m follow cur rest = inl ENOENT.
Proof.
  revert cur. induction rest as [|name rest IH]; intros cur Hp Hc Hd.
  { rewrite app_nil_r. left. by destruct n. }
  apply Forall_cons in Hc as [[_ Hn] Hc]. apply String.eqb_neq in Hn.
  assert (cur ++ name :: rest = (cur ++ [name]) ++ rest) as E by by rewrite <- app_assoc.
  assert (link_target m (cur ++ [name]) = None) as Hl by (apply Hp; rewrite E; by apply prefix_app_r).
  assert (cur `prefix_of` parent (cur ++ name :: rest)) as Hpre.
  { destruct rest as [|x rest _] using rev_ind; [by rewrite parent_snoc|].
    rewrite (app_assoc cur (name :: rest) [x] : cur ++ name :: rest ++ [x] = _), parent_snoc. by apply prefix_app_r. }
  assert (namei n m follow (cur ++ [name]) rest = inr ((cur ++ [name]) ++ rest) ∨
          namei n m follow (cur ++ [name]) rest = inl ENOENT) as Hrec.
  { rewrite E in Hp, Hd. apply IH; [done|done|]. intros r Hr Hr'. apply Hd; [|done].
    by transitivity (cur ++ [name]); [apply prefix_app_r|]. }
  rewrite E. destruct (Hd cur) as [Hcur|Hcur]; [done|done|..]; destruct n; cbn [namei]; rewrite Hcur; auto;
    rewrite Hn, Hl; exact Hrec.
Qed.

(** The same links resolve paths alike. *)
Definition same_links (m m' : fs) : Prop := ∀ p, link_target m' p = link_target m p.
Lemma joinreal_same m m' fuel seen p rest : same_links m m' →
  joinreal fuel m' seen p rest = joinreal fuel m seen p rest.
Proof.
  intros Hs. revert seen p rest. induction fuel as [|fuel IHf]; intros seen p rest; revert seen p;
    (induction rest as [|name rest IH]; intros seen p; [by rewrite !joinreal_nil|]);
    rewrite !joinreal_cons, !IH, Hs; destruct (dropped name); try done; destruct (name =? "..")%string; try done;
    destruct (link_target m _); try done; rewrite ?IHf;
    destruct (seen !! (p ++ [name])) as [[k|]|]; rewrite ?IH; try done.
  destruct (joinreal fuel m _ _ _) as [[[k []] s']|]; rewrite ?IH; done.
Qed.
Lemma same_links_links m m' : same_links m m' → links m' = links m.
Proof.
  intros Hs. apply set_eq. intros p. split; intros Hin.
  all: unfold links in Hin; apply elem_of_dom in Hin as [n Hn]; apply map_lookup_filter_Some in Hn as [_ [t Ht]];
    cbn in Ht; apply (link_in_links _ _ t); first [rewrite Hs; exact Ht|rewrite <- Hs; exact Ht].
Qed.
Lemma realpath_same m m' p : same_links m m' → realpath m' p = realpath m p.
Proof.
  intros Hs. unfold realpath. by rewrite (same_links_links m m' Hs), (joinreal_same m m' _ _ _ _ Hs).
Qed.
Lemma physical_same m m' p : same_links m m' → physical m p → physical m' p.
Proof. intros Hs Hp q Hq. rewrite Hs. by apply Hp. Qed.
Lemma insert_same_links m p n : p ≠ [] → link_target m p = None → (∀ t, n ≠ Link t) → same_links m (<[p := n]> m).
Proof.
  intros Hne Hl Hn q. unfold link_target. rewrite node_at_insert by done. case_decide as E; [|done]. subst q.
  unfold link_target in Hl. rewrite Hl. destruct n; [done..|]. by destruct (Hn target).
Qed.

Section Quiet.
Context `{Host} (quiet : ∀ op p, fault op p = None).

(** What is at a path, for a path through no link: the kernel's walk either arrives or has
    met a missing name or a file on its way. *)
Lemma stat_at m p n : physical m p → clean p → (∀ q, q `prefix_of` parent p → node_at m q = Some Dir) →
  node_at m p = Some n → stat m p = Done n.
Proof.
  intros Hp Hc Hd Hn. unfold stat. by rewrite quiet, locate_dirs, Hn.
Qed.

Lemma mkdir_loop_ok fuel m p : physical m p → clean p → length p ≤ fuel →
  (∀ q, q `prefix_of` p → node_at m q = None ∨ node_at m q = Some Dir) →
  ∃ m', mkdir_loop fuel m p = (Done tt, m') ∧
    ∀ q, node_at m' q = if bool_decide (q `prefix_of` p) then Some Dir else node_at m q.
Proof.
  assert (∀ m p, physical m p → clean p → (∀ q, q `prefix_of` parent p → node_at m q = Some Dir) →
    node_at m p = None ∨ node_at m p = Some Dir →
    ∃ m', (∀ q, node_at m' q = if bool_decide (q `prefix_of` p) then Some Dir else node_at m q) ∧
      (os_mkdir m p = (Done tt, m') ∨ os_mkdir m p = (Fails EEXIST p, m) ∧ m' = m ∧ tolerate m p EEXIST = (Done tt, m)))
    as Hone.
  { clear fuel m p. intros m p Hp Hc Hd Hn. unfold os_mkdir. rewrite quiet, locate_dirs by done. destruct Hn as [Hn|Hn].
    - rewrite Hn. exists (<[p := Dir]> m). split; [|by left]. intros q.
      assert (p ≠ []) as Hne by (intros ->; done). rewrite node_at_insert by done. case_decide as E.
      { subst q. by rewrite bool_decide_true. }
      case_bool_decide as Hq; [|done]. apply Hd. destruct p as [|x p _] using rev_ind; [done|].
      rewrite parent_snoc. by apply prefix_snoc_cases in Hq as [?|?].
    - rewrite Hn. exists m. split; [|right; split_and!; [done|done|]].
      + intros q. case_bool_decide as Hq; [|done]. destruct p as [|x p _] using rev_ind; [by apply prefix_nil_eq in Hq as ->|].
        apply prefix_snoc_cases in Hq as [Hq | ->]; [|done]. apply Hd. by rewrite parent_snoc.
      + unfold tolerate, is_dir, test. by rewrite (stat_at m p Dir). }
  revert m p. induction fuel as [|fuel IH]; intros m p Hp Hc Hf Hn; cbn [mkdir_loop].
  { destruct p; [|cbn in Hf; lia]. destruct (Hone m [] Hp Hc) as (m' & Hm' & [-> | (-> & -> & ->)]);
      [by intros q ->%prefix_nil_eq|by right|by eauto..]. }
  destruct (locate m false p) as [e|q] eqn:Hl.
  - assert (os_mkdir m p = (Fails ENOENT p, m)) as ->.
    { unfold os_mkdir. rewrite quiet. destruct (namei_missing MAXSYMLINKS m false [] p Hp Hc) as [E|E].
      - intros r _ Hr. apply Hn. etransitivity; [exact Hr|apply parent_prefix].
      - unfold locate in Hl. by rewrite E in Hl.
      - unfold locate. by rewrite E. }
    destruct (IH m (parent p)) as (m1 & -> & Hm1); [by apply physical_parent|by apply parent_clean| | |].
    { destruct p as [|x p _] using rev_ind; [cbn in *; lia|]. rewrite parent_snoc. rewrite length_app in Hf. cbn in Hf. lia. }
    { intros q Hq. apply Hn. etransitivity; [exact Hq|apply parent_prefix]. }
    cbn [and_then]. assert (∀ q, q `prefix_of` parent p → node_at m1 q = Some Dir) as Hd1.
    { intros q Hq. by rewrite Hm1, bool_decide_true. }
    assert (physical m1 p) as Hp1.
    { intros q Hq. unfold link_target. rewrite Hm1. case_bool_decide; [done|]. by apply Hp. }
    assert (node_at m1 p = None ∨ node_at m1 p = Some Dir) as Hn1.
    { rewrite Hm1. case_bool_decide; [by right|by apply Hn]. }
    destruct (Hone m1 p Hp1 Hc Hd1 Hn1) as (m' & Hm' & Hres). exists m'. split.
    { by destruct Hres as [-> | (-> & -> & ->)]. }
    intros q. rewrite Hm', Hm1. case_bool_decide as H1; [done|]. case_bool_decide as H2; [|done].
    destruct H1. etransitivity; [exact H2|apply parent_prefix].
  - apply locate_physical in Hl as [-> Hd]; [|done..].
    assert (∀ q, q `prefix_of` parent p → node_at m q = Some Dir) as Hd'.
    { destruct p as [|x p]; [by intros q ->%prefix_nil_eq|by apply Hd]. }
    destruct (Hone m p Hp Hc Hd' (Hn p (reflexivity p))) as (m' & Hm' & [-> | (-> & -> & ->)]); eauto.
Qed.
Lemma mkdir_p_ok m p : physical m p → clean p →
  (∀ q, q `prefix_of` p → node_at m q = None ∨ node_at m q = Some Dir) →
  ∃ m', mkdir_p m p = (Done tt, m') ∧
    ∀ q, node_at m' q = if bool_decide (q `prefix_of` p) then Some Dir else node_at m q.
Proof. intros. by apply mkdir_loop_ok. Qed.

Lemma write_bytes_ok data m p : physical m p → clean p → p ≠ [] →
  (∀ q, q `prefix_of` parent p → node_at m q = Some Dir) → node_at m p ≠ Some Dir →
  ∃ mode, write_bytes data m p = (Done tt, <[p := File data mode]> m).
Proof.
  intros Hp Hc Hne Hd Hn. unfold write_bytes. rewrite quiet, locate_dirs by done.
  destruct (node_at m p) as [[d mode| |t]|]; [by eexists|done|by eexists..].
Qed.
End Quiet.

(** ** Trees *)

(** Names are proper, and what is in a place has directories above it. *)
Record tree (m : fs) : Prop := {
  t_names p n : m !! p = Some n → Forall (λ x, is_part x ∧ x ≠ "..") p;
  t_parents p n : m !! p = Some n → node_at m (parent p) = Some Dir
}.
Lemma tree_ancestors m p q : tree m → is_Some (node_at m p) → q `prefix_of` p → q ≠ p → node_at m q = Some Dir.
Proof.
  intros Ht. revert q. induction p as [|x p IH] using rev_ind; intros q Hs Hq Hne.
  { apply prefix_nil_eq in Hq. done. }
  assert (node_at m p = Some Dir) as Hp.
  { destruct Hs as [n Hn]. rewrite <- (parent_snoc p x). apply (t_parents m Ht _ n). by destruct p. }
  apply prefix_snoc_cases in Hq as [Hq|?]; [|done]. destruct (decide (q = p)) as [->|Hqp]; [done|].
  by apply IH; [eexists| |].
Qed.
Lemma parent_app (p q : path) : q ≠ [] → parent (p ++ q) = p ++ parent q.
Proof. intros Hq. by apply removelast_app. Qed.
Lemma parent_strict (p : path) : p ≠ [] → ¬ p `prefix_of` parent p.
Proof.
  destruct p as [|x p _] using rev_ind; [done|]. intros _ Hp. rewrite parent_snoc in Hp. by apply prefix_snoc_not in Hp.
Qed.
Lemma prefix_app_cases (p q r : path) : q `prefix_of` p ++ r → q `prefix_of` p ∨ ∃ k, k ≠ [] ∧ q = p ++ k ∧ k `prefix_of` r.
Proof.
  intros Hq. destruct (prefix_comparable q p (p ++ r) Hq (prefix_app_r p p r (reflexivity p))) as [?|[k ->]]; [by left|].
  destruct k as [|x k]; [left; by rewrite app_nil_r|]. right. exists (x :: k). split_and!; [done|done|].
  by apply prefix_app_inv in Hq.
Qed.

Lemma namei_no_loop n m follow cur rest : physical m (cur ++ rest) → clean rest →
  namei n m follow cur rest ≠ inl ELOOP.
Proof.
  revert cur. induction rest as [|name rest IH]; intros cur Hp Hc; [by destruct n|].
  apply Forall_cons in Hc as [[_ Hn] Hc]. apply String.eqb_neq in Hn.
  assert (cur ++ name :: rest = (cur ++ [name]) ++ rest) as E by by rewrite <- app_assoc. rewrite E in Hp.
  assert (link_target m (cur ++ [name]) = None) as Hl by (apply Hp; by apply prefix_app_r).
  pose proof (IH _ Hp Hc) as Hrec. destruct n; cbn [namei]; destruct (node_at m cur) as [[]|]; try done;
    rewrite Hn, Hl; exact Hrec.
Qed.

Section QuietResolve.
Context `{Host} (quiet : ∀ op p, fault op p = None).
(** A path through no link resolves to itself. *)
Lemma resolve_own m p : physical m p → clean p → resolve_path m p = Ok p.
Proof.
  intros Hp Hc. unfold resolve_path. rewrite realpath_own by done. unfold stat. rewrite quiet.
  pose proof (namei_no_loop MAXSYMLINKS m true [] p Hp Hc) as Hn. unfold locate.
  destruct (namei _ m true [] p) as [[]|q]; try done. by destruct (node_at m q).
Qed.
End QuietResolve.

(** ** What a walk meets in a tree *)

Definition proper (p : path) : Prop := Forall (λ x, is_part x ∧ x ≠ "..") p.
Lemma proper_clean p : proper p → clean p.
Proof.
  intros Hp. eapply Forall_impl; [exact Hp|]. intros x ((? & ? & _) & ?). split; [|done]. by apply dropped_spec.
Qed.
Lemma proper_parts p : proper p → Forall is_part p.
Proof. intros Hp. eapply Forall_impl; [exact Hp|]. by intros x [? _]. Qed.
Lemma proper_prefix p q : q `prefix_of` p → proper p → proper q.
Proof. intros [k ->] [? _]%Forall_app. done. Qed.
Lemma tree_proper m p : tree m → is_Some (node_at m p) → proper p.
Proof. intros Ht [n Hn]. destruct p as [|x p]; [by apply Forall_nil|]. by apply (t_names m Ht _ n). Qed.

(** A file on the way. *)
Definition blocked (m : fs) (p : path) : Prop := ∃ q d mode, q `prefix_of` p ∧ node_at m q = Some (File d mode).
(** The bytes of the file at a path. *)
Definition contents_at (m : fs) (p : path) : option string :=
  match node_at m p with Some (File d _) => Some d | _ => None end.

Lemma free_or_blocked m p : physical m p →
  (∀ q, q `prefix_of` p → node_at m q = None ∨ node_at m q = Some Dir) ∨ blocked m p.
Proof.
  induction p as [|x p IH] using rev_ind; intros Hp; [left; intros q ->%prefix_nil_eq; by right|].
  destruct IH as [IH|(q & d & md & Hq & Hn)].
  { eapply physical_prefix; [|exact Hp]. by apply prefix_app_r. }
  2:{ right. exists q, d, md. split; [by apply prefix_app_r|done]. }
  destruct (node_at m (p ++ [x])) as [[d md| |t]|] eqn:E.
  - right. by exists (p ++ [x]), d, md.
  - left. intros q [Hq | ->]%prefix_snoc_cases; [by apply IH|by right].
  - specialize (Hp (p ++ [x]) (reflexivity _)). unfold link_target in Hp. by rewrite E in Hp.
  - left. intros q [Hq | ->]%prefix_snoc_cases; [by apply IH|by left].
Qed.
Lemma free_not_blocked m p : (∀ q, q `prefix_of` p → node_at m q = None ∨ node_at m q = Some Dir) → ¬ blocked m p.
Proof. intros Hd (q & d & md & Hq & Hn). destruct (Hd q Hq); congruence. Qed.

Lemma namei_blocked n m follow cur k x rest : physical m (cur ++ k ++ x :: rest) → clean (k ++ x :: rest) →
  (∃ d mode, node_at m (cur ++ k) = Some (File d mode)) →
  (∀ r, cur `prefix_of` r → r `prefix_of` cur ++ k → r ≠ cur ++ k → node_at m r = Some Dir) →
  namei n m follow cur (k ++ x :: rest) = inl ENOTDIR.
Proof.
  revert cur. induction k as [|name k IH]; intros cur Hp Hc (d & mode & Hf) Hd.
  { rewrite app_nil_r in Hf. cbn [app]. destruct n; cbn [namei]; by rewrite Hf. }
  cbn [app] in *. apply Forall_cons in Hc as [[_ Hn] Hc]. apply String.eqb_neq in Hn.
  assert (∀ l, cur ++ name :: l = (cur ++ [name]) ++ l) as E by (intros; by rewrite <- app_assoc).
  rewrite E in Hp, Hf. assert (link_target m (cur ++ [name]) = None) as Hl by (apply Hp; by apply prefix_app_r).
  assert (node_at m cur = Some Dir) as Hcur.
  { apply Hd; [done|by apply prefix_app_r|]. intros Ec. apply (f_equal length) in Ec. rewrite length_app in Ec. cbn in Ec. lia. }
  assert (namei n m follow (cur ++ [name]) (k ++ x :: rest) = inl ENOTDIR) as Hrec.
  { apply IH; [done|done|by exists d, mode|]. intros r Hr Hr' Hne. rewrite <- E in Hr', Hne. apply Hd; [|done|done].
    by transitivity (cur ++ [name]); [apply prefix_app_r|]. }
  destruct n; cbn [namei]; rewrite Hcur, Hn, Hl; exact Hrec.
Qed.

Inductive walked (m : fs) (p : path) : errno + path → Prop :=
| arrives : (∀ q, q `prefix_of` parent p → node_at m q = Some Dir) → ¬ blocked m (parent p) → walked m p (inr p)
| missing : node_at m p = None → ¬ blocked m (parent p) →
    (∀ q, q `prefix_of` parent p → node_at m q = None ∨ node_at m q = Some Dir) → walked m p (inl ENOENT)
| stopped : node_at m p = None → blocked m (parent p) → walked m p (inl ENOTDIR).
Lemma walk_cases m follow p : tree m → physical m p → clean p → walked m p (locate m follow p).
Proof.
  intros Ht Hp Hc. destruct (free_or_blocked m (parent p)) as [Hfree|Hb]; [by apply physical_parent|..].
  - pose proof (free_not_blocked m _ Hfree) as Hnb.
    destruct (namei_missing MAXSYMLINKS m follow [] p Hp Hc) as [E|E]; [by intros q _ Hq; apply Hfree|..];
      unfold locate; rewrite E.
    + constructor; [|done]. intros q Hq. destruct p as [|x p]; [by apply prefix_nil_eq in Hq as ->|].
      destruct (namei_physical MAXSYMLINKS m follow [] (x :: p) _ Hp Hc E) as [_ Hd]. by apply Hd; [apply prefix_nil|..].
    + constructor; [|done|done]. destruct (node_at m p) as [n|] eqn:En; [|done]. exfalso.
      assert (locate m follow p = inr p) as El; [|unfold locate in El; congruence].
      apply locate_dirs; [done|done|]. intros q Hq. destruct p as [|x p]; [by apply prefix_nil_eq in Hq as ->|].
      apply (tree_ancestors m (x :: p)); [done|by eexists| |].
      * etransitivity; [exact Hq|apply parent_prefix].
      * intros ->. by apply parent_strict in Hq.
  - assert (node_at m p = None) as Hn.
    { destruct (node_at m p) as [n|] eqn:En; [|done]. exfalso. destruct Hb as (q & d & md & Hq & Hf).
      assert (node_at m q = Some Dir); [|congruence]. destruct p as [|x p]; [by apply prefix_nil_eq in Hq as ->|].
      apply (tree_ancestors m (x :: p)); [done|by eexists| |].
      - etransitivity; [exact Hq|apply parent_prefix].
      - intros ->. by apply parent_strict in Hq. }
    assert (locate m follow p = inl ENOTDIR) as ->; [|by constructor].
    destruct Hb as (q & d & md & Hq & Hf). assert (∃ x rest, p = q ++ x :: rest) as (x & rest & ->).
    { destruct p as [|y p _] using rev_ind; [by apply prefix_nil_eq in Hq as ->|]. rewrite parent_snoc in Hq.
      destruct Hq as [k ->]. destruct k as [|x k]; [exists y, []|exists x, (k ++ [y])]; by rewrite <- app_assoc. }
    apply (namei_blocked MAXSYMLINKS m follow [] q x rest Hp Hc); [by exists d, md|].
    intros r _ Hr Hne. apply (tree_ancestors m q); [done|by eexists|done|done].
Qed.

Lemma tree_mkdir m m1 p : tree m → proper p →
  (∀ q, node_at m1 q = if bool_decide (q `prefix_of` p) then Some Dir else node_at m q) → tree m1.
Proof.
  intros Ht Hp Hm. assert (∀ q n, m1 !! q = Some n → q ≠ [] → q `prefix_of` p ∨ ¬ q `prefix_of` p ∧ node_at m q = Some n) as Hq.
  { intros q n Hn Hne. assert (node_at m1 q = Some n) as E by by destruct q. rewrite Hm in E.
    case_bool_decide; [by left|by right]. }
  assert (∀ q n, m1 !! q = Some n → proper q ∧ node_at m1 (parent q) = Some Dir) as Hok; [|split; intros; by eapply Hok].
  intros q n Hn. destruct (decide (q = [])) as [->|Hne]; [split; [by apply Forall_nil|done]|].
  destruct (Hq q n Hn Hne) as [Hpre|[Hnp E]].
  - split; [by apply (proper_prefix p)|]. rewrite Hm, bool_decide_true; [done|].
    etransitivity; [apply parent_prefix|done].
  - split; [apply (tree_proper m); [done|by eexists]|]. rewrite Hm. case_bool_decide; [done|].
    apply (t_parents m Ht _ n). by destruct q.
Qed.
Lemma tree_write m p d mode : tree m → proper p → p ≠ [] → node_at m (parent p) = Some Dir → node_at m p ≠ Some Dir →
  tree (<[p := File d mode]> m).
Proof.
  intros Ht Hp Hne Hd Hn. assert (parent p ≠ p) as Hpp by (intros E; apply (parent_strict p Hne); by rewrite E).
  split; intros q n [[<- <-]|[Hqp Hq]]%lookup_insert_Some; [done|by apply (t_names m Ht _ n)|..];
    rewrite node_at_insert by done; case_decide as E; try done; pose proof (t_parents m Ht q n Hq) as Hpar; [|done].
  by rewrite E in Hpar.
Qed.
Lemma tree_unlink m p : tree m → p ≠ [] → node_at m p ≠ Some Dir → tree (delete p m).
Proof.
  intros Ht Hne Hn. split; intros q n [Hqp Hq]%lookup_delete_Some; [by apply (t_names m Ht _ n)|].
  rewrite node_at_delete by done. case_decide as E; [|by apply (t_parents m Ht q n)].
  rewrite <- E in Hn. by rewrite (t_parents m Ht q n Hq) in Hn.
Qed.

Section QuietTree.
Context `{Host} (quiet : ∀ op p, fault op p = None).
Lemma mkdir_blocked m p : tree m → physical m p → clean p → blocked m p →
  ∃ e at_, (e = EEXIST ∨ e = ENOTDIR) ∧ mkdir_p m p = (Fails e at_, m).
Proof.
  intros Ht Hp Hc Hb. pose proof (walk_cases m false p Ht Hp Hc) as Hw.
  pose proof (walk_cases m true p Ht Hp Hc) as Hw'.
  assert ((∃ d md, node_at m p = Some (File d md)) ∨ blocked m (parent p)) as Hcase.
  { destruct Hb as (q & d & md & Hq & Hf). destruct p as [|x p _] using rev_ind; [by apply prefix_nil_eq in Hq as ->|].
    rewrite parent_snoc. apply prefix_snoc_cases in Hq as [Hq | ->]; [right; by exists q, d, md|left; by exists d, md]. }
  assert (∃ e, (e = EEXIST ∨ e = ENOTDIR) ∧ os_mkdir m p = (Fails e p, m) ∧ tolerate m p e = (Fails e p, m))
    as (e & He & Hos & Hto).
  { unfold os_mkdir, tolerate, is_dir, test, stat. rewrite !quiet.
    destruct Hcase as [(d & md & E)|Hbp].
    - destruct Hw; [|congruence..]. destruct Hw'; [|congruence..]. exists EEXIST. rewrite E. auto.
    - destruct Hw; [done..|]. destruct Hw'; [done..|]. exists ENOTDIR. auto. }
  unfold mkdir_p. destruct (length p); cbn [mkdir_loop]; rewrite Hos;
    (exists e, p; split; [done|]; destruct He as [-> | ->]; exact Hto).
Qed.
End QuietTree.

(** ** Clearing a directory *)

Lemma child_of_spec p q n : child_of p q = Some n ↔ q = p ++ [n].
Proof.
  unfold child_of. case_bool_decide as Hc.
  - destruct Hc as [Hne <-]. destruct q as [|x q _] using rev_ind; [done|]. rewrite last_snoc, parent_snoc. split.
    + by intros [= ->].
    + intros E. by apply app_inj_tail in E as [_ ->].
  - split; [done|]. intros ->. destruct Hc. split; [by destruct p|apply parent_snoc].
Qed.
Lemma children_spec (m : fs) p n : n ∈ children m p ↔ is_Some (m !! (p ++ [n])).
Proof.
  unfold children. rewrite list_elem_of_omap. setoid_rewrite child_of_spec. split.
  - intros (q & Hq & ->). apply list_elem_of_fmap in Hq as ([k x] & -> & Hin). apply elem_of_map_to_list in Hin. by exists x.
  - intros [x Hx]. exists (p ++ [n]). split; [|done]. apply list_elem_of_fmap. exists (p ++ [n], x).
    split; [done|]. by apply elem_of_map_to_list.
Qed.
Lemma children_nodup (m : fs) p : NoDup (children m p).
Proof.
  unfold children. pose proof (NoDup_fst_map_to_list m) as Hn. change (map fst) with (fmap (M:=list) (@fst path node)).
  induction Hn as [|q l Hq _ IH]; cbn; [constructor|]. destruct (child_of p q) as [n|] eqn:E; [|done].
  constructor; [|done]. rewrite list_elem_of_omap. intros (q' & Hq' & E').
  apply child_of_spec in E, E'. by subst.
Qed.

(** Everything at [q] and below is gone. *)
Definition cleared (q : path) (m m' : fs) : Prop :=
  ∀ r, node_at m' r = if bool_decide (q `prefix_of` r) then None else node_at m r.
Lemma tree_cleared q m m' : tree m → q ≠ [] → cleared q m m' → tree m'.
Proof.
  intros Ht Hq Hc. assert (∀ r n, m' !! r = Some n → r ≠ [] → ¬ q `prefix_of` r ∧ node_at m r = Some n) as Hr.
  { intros r n Hn Hne. assert (node_at m' r = Some n) as E by by destruct r. rewrite Hc in E. by case_bool_decide. }
  assert (∀ r n, m' !! r = Some n → proper r ∧ node_at m' (parent r) = Some Dir) as Hok; [|split; intros; by eapply Hok].
  intros r n Hn. destruct (decide (r = [])) as [->|Hne]; [split; [by apply Forall_nil|done]|].
  destruct (Hr r n Hn Hne) as [Hnp E]. split; [apply (tree_proper m); [done|by eexists]|].
  rewrite Hc, bool_decide_false; [apply (t_parents m Ht _ n); by destruct r|].
  intros Hp. apply Hnp. etransitivity; [exact Hp|apply parent_prefix].
Qed.

Lemma depth_bound (m : fs) r : is_Some (m !! r) → length r ≤ depth m.
Proof.
  intros [n Hn]. unfold depth. assert (r ∈ map fst (map_to_list m)) as Hin.
  { apply list_elem_of_fmap. exists (r, n). split; [done|]. by apply elem_of_map_to_list. }
  induction (map fst (map_to_list m)) as [|x l IH]; [by apply elem_of_nil in Hin|]. cbn.
  apply elem_of_cons in Hin as [->|Hin]; [lia|]. specialize (IH Hin). lia.
Qed.

Section QuietClear.
Context `{Host} (quiet : ∀ op p, fault op p = None).

(** The loop over the names of a directory, each removed by [f]. *)
Lemma clear_names (f : string → fs → outcome) q m names : q ≠ [] → NoDup names → tree m →
  (∀ n, n ∈ names → is_Some (node_at m (q ++ [n]))) →
  (∀ n m1, n ∈ names → tree m1 → (∀ r, q ++ [n] `prefix_of` r → node_at m1 r = node_at m r) →
    ∃ m2, f n m1 = (Done tt, m2) ∧ cleared (q ++ [n]) m1 m2) →
  ∃ m', fold_left (λ r n, and_then r (f n)) names (Done tt, m) = (Done tt, m') ∧ tree m' ∧
    ∀ r, node_at m' r = if bool_decide (Exists (λ n, q ++ [n] `prefix_of` r) names) then None else node_at m r.
Proof.
  intros Hq. revert m. induction names as [|n names IH]; intros m Hnd Ht Hin Hf.
  { exists m. split; [done|]. split; [done|]. intros r. rewrite bool_decide_false; [done|].
    intros (n & Hn & _)%Exists_exists. by apply elem_of_nil in Hn. }
  apply NoDup_cons in Hnd as [Hni Hnd]. cbn [fold_left and_then].
  destruct (Hf n m) as (m1 & -> & Hc1); [by left|done|done|].
  assert (∀ n' r, n' ∈ names → q ++ [n'] `prefix_of` r → node_at m1 r = node_at m r) as Hsame.
  { intros n' r Hn' Hp. rewrite Hc1, bool_decide_false; [done|]. intros Hp'.
    destruct (prefix_comparable _ _ _ Hp Hp') as [[k E]|[k E]]; rewrite <- app_assoc in E; apply app_inv_head in E;
      by injection E as -> _. }
  destruct (IH m1) as (m' & Hfold & Ht' & Hm'); [done|by apply (tree_cleared (q ++ [n]) m); [|by destruct q|]|..].
  { intros n' Hn'. rewrite (Hsame n') by done. apply Hin. by right. }
  { intros n' m2 Hn' Ht2 Hs. apply Hf; [by right|done|]. intros r Hr. by rewrite Hs, (Hsame n'). }
  exists m'. split; [done|]. split; [done|]. intros r. rewrite Hm', Hc1.
  case_bool_decide as H1; rewrite Exists_exists in H1.
  - rewrite bool_decide_true; [done|]. destruct H1 as (n' & Hn' & Hp). apply Exists_exists. exists n'. split; [by right|done].
  - case_bool_decide as H2.
    + rewrite bool_decide_true; [done|]. apply Exists_exists. exists n. split; [by left|done].
    + rewrite bool_decide_false; [done|]. intros (n' & [->|Hn']%elem_of_cons & Hp)%Exists_exists; [done|]. apply H1. by exists n'.
Qed.

Lemma rmtree_at_ok fuel m q : tree m → q ≠ [] → node_at m q = Some Dir →
  (∀ r, is_Some (m !! r) → q `prefix_of` r → length r < length q + fuel) →
  ∃ m', rmtree_at fuel m q = (Done tt, m') ∧ cleared q m m'.
Proof.
  revert m q. induction fuel as [|fuel IH]; intros m q Ht Hq Hd Hlen.
  { specialize (Hlen q). destruct q as [|x q]; [done|]. cbn in Hd. rewrite Hd in Hlen.
    specialize (Hlen ltac:(by eexists) (reflexivity _)). lia. }
  cbn [rmtree_at]. rewrite quiet.
  destruct (clear_names (λ n m, match node_at m (q ++ [n]) with
                                | Some Dir => rmtree_at fuel m (q ++ [n])
                                | _ => unlink_at m (q ++ [n]) end) q m (children m q) Hq (children_nodup m q) Ht)
    as (m1 & Hfold & Ht1 & Hm1).
  { intros n Hn%children_spec. by destruct q. }
  { intros n m1 Hn%children_spec Ht1 Hs. assert (q ++ [n] ≠ []) as Hne by by destruct q.
    assert (node_at m1 (q ++ [n]) = m !! (q ++ [n])) as E by (rewrite Hs by done; by destruct q).
    assert (∀ x, node_at m1 (q ++ [n]) = Some x → x ≠ Dir →
      ∃ m2, unlink_at m1 (q ++ [n]) = (Done tt, m2) ∧ cleared (q ++ [n]) m1 m2) as Hun.
    { intros x Ex Hx. exists (delete (q ++ [n]) m1). unfold unlink_at. rewrite quiet, Ex. split; [by destruct x|].
      intros r. rewrite node_at_delete by done. case_decide as Er; [subst r; by rewrite bool_decide_true|].
      case_bool_decide as Hp; [|done]. destruct (node_at m1 r) as [y|] eqn:Ey; [|done]. exfalso. apply Hx.
      assert (Some x = Some Dir); [|congruence]. rewrite <- Ex. apply (tree_ancestors m1 r); [done|by eexists|done|done]. }
    destruct Hn as [x Hx]. rewrite <- E in Hx. destruct x as [d md| |t]; rewrite Hx; [by eapply Hun| |by eapply Hun].
    apply IH; [done|done|done|]. intros r Hr Hp. assert (r ≠ []) as Hrne by (intros ->; by apply prefix_nil_eq in Hp).
    assert (is_Some (m !! r)) as Hr'.
    { destruct Hr as [y Hy]. exists y. assert (node_at m1 r = Some y) as Ey by by destruct r.
      rewrite Hs in Ey by done. by destruct r. }
    specialize (Hlen r Hr'). rewrite length_app. cbn [length]. assert (q `prefix_of` r) as Hq'.
    { etransitivity; [|exact Hp]. by apply prefix_app_r. }
    specialize (Hlen Hq'). lia. }
  rewrite Hfold. cbn [and_then]. unfold rmdir_at. rewrite quiet.
  assert (children m1 q = []) as ->.
  { apply elem_of_nil_inv. intros n Hn%children_spec. destruct Hn as [x Hx].
    assert (node_at m1 (q ++ [n]) = Some x) as E by (by destruct q). rewrite Hm1 in E. case_bool_decide as Hb; [done|].
    apply Hb, Exists_exists. exists n. split; [|done]. apply children_spec. exists x. by destruct q. }
  exists (delete q m1). split; [done|]. intros r. rewrite node_at_delete by done.
  case_decide as E; [subst r; by rewrite bool_decide_true|]. rewrite Hm1. case_bool_decide as Hb; rewrite Exists_exists in Hb.
  - destruct Hb as (n & _ & Hp). rewrite bool_decide_true; [done|]. etransitivity; [|exact Hp]. by apply prefix_app_r.
  - case_bool_decide as Hp; [|done]. destruct (node_at m r) as [x|] eqn:Ex; [|done]. exfalso. apply Hb.
    destruct Hp as [k ->]. destruct k as [|n k]; [by rewrite app_nil_r in E|]. exists n. split.
    + apply children_spec. assert (q ++ n :: k = (q ++ [n]) ++ k) as Ek by by rewrite <- app_assoc.
      destruct (decide (k = [])) as [->|Hk]; [exists x; by destruct q|]. exists Dir.
      assert (node_at m (q ++ [n]) = Some Dir) as En; [|by destruct q].
      apply (tree_ancestors m (q ++ n :: k)); [done|by eexists|rewrite Ek; by apply prefix_app_r|].
      rewrite Ek. intros Eq. apply (f_equal length) in Eq. rewrite !length_app in Eq. destruct k; [done|cbn in Eq; lia].
    + rewrite (app_assoc q [n] k : q ++ n :: k = _). by apply prefix_app_r.
Qed.
Lemma rmtree_ok m p : tree m → physical m p → clean p → p ≠ [] → node_at m p = Some Dir →
  ∃ m', rmtree m p = (Done tt, m') ∧ cleared p m m'.
Proof.
  intros Ht Hp Hc Hne Hd. unfold rmtree. destruct (walk_cases m true p Ht Hp Hc); [|congruence..].
  apply rmtree_at_ok; [done..|]. intros r Hr _. apply depth_bound in Hr. destruct p; [done|cbn; lia].
Qed.
End QuietClear.

(** ** Checks of concrete trees *)

Definition is_dir_at (m : fs) (p : path) : bool := match node_at m p with Some Dir => true | _ => false end.
Lemma is_dir_at_spec m p : is_dir_at m p = true ↔ node_at m p = Some Dir.
Proof. unfold is_dir_at. split; [|by intros ->]. by destruct (node_at m p) as [[]|]. Qed.
Lemma rooted_check m root : forallb (λ n, is_dir_at m (take n root)) (seq 0 (S (length root))) = true → rooted root m.
Proof.
  rewrite forallb_elem. intros Hall q [k Hk]. apply is_dir_at_spec.
  replace q with (take (length q) root) by (rewrite Hk; by rewrite take_app_length).
  apply Hall. apply elem_of_seq. apply (f_equal length) in Hk. rewrite length_app in Hk. lia.
Qed.
Definition name_ok (x : string) : bool := negb (dropped x) && negb (has_char "/" x) && negb (x =? "..")%string.
Lemma tree_check m : forallb (λ pn, forallb name_ok pn.1 && is_dir_at m (parent pn.1)) (map_to_list m) = true → tree m.
Proof.
  rewrite forallb_elem. intros Hall. assert (∀ p n, m !! p = Some n → forallb name_ok p = true ∧ is_dir_at m (parent p) = true)
    as Hp by (intros p n Hn; apply andb_true_iff, (Hall (p, n)); by apply elem_of_map_to_list).
  split; intros p n Hn; destruct (Hp p n Hn) as [Hok Hd]; [|by apply is_dir_at_spec].
  apply Forall_forall. rewrite forallb_elem in Hok. intros x Hx%Hok. unfold name_ok, dropped in Hx. bool_prop.
  by repeat split.
Qed.
(** A system that refuses nothing. *)
Definition quiet_host : Host := {| fault := λ _ _, None; create_mode := 420; st_size := λ _ _, 0%Z; st_mtime := λ _ _, 0%Z |}.
