(* ===== verification/FileOps.v ===== *)
(** * File operations: [tools/file_ops.py]

    Reading, writing, editing and searching through the active environment: the protected
    paths, the pages of a read, atomic edits resolved against the text as read, and the
    replies of a search. *)

From S2P Require Import Prelude PyStr Names PyVal Sorting Overlay PermissionRules Replacers OutputOverflow WorkspaceWindow.

(** ** The host and the environment *)

(** What is at a path of the host, when something is. *)
Inductive host_entry := IsFile | IsDir | IsOther.

Record ExecutionResult := Executed { exit_code : Z; stdout : string; stderr : string }.

(** The host as the tools see it: the home directory, what is at a path, whether
    [write_file] refuses a path, and what the environment makes of a command. *)
Record host := Host {
  home : string;
  entry : string → option host_entry;
  write_error : string → option exc;
  execute : fs → string → res ExecutionResult;
}.
Definition is_dir (h : host) (p : string) : bool :=
  match entry h p with Some IsDir => true | _ => false end.

(** [await env.write_file(path, text)] *)
Definition write_file (h : host) (f : fs) (e : env) (path text : string) : res fs :=
  match write_error h path with Some x => Raise x | None => Ok (env_write f e path text) end.

(** The replies of a tool. *)
Definition _error (message : string) : pydict := [("success", PBool false); ("error", PStr message)].

Definition working_dir (e : env) : string := default "" (e_working_dir e).

(** ** Protected paths and binary files *)

(** [os.path.join(a, b)] of a relative [b]. *)
Definition os_join : string → string → string := path_join.

Definition _denied_exact_names : list string :=
  [".ssh/authorized_keys"; ".ssh/id_rsa"; ".ssh/id_ed25519"; ".ssh/config"; ".bashrc"; ".zshrc";
   ".profile"; ".bash_profile"; ".zprofile"; ".netrc"; ".pgpass"; ".npmrc"; ".pypirc"].
Definition _denied_dirs : list string := [".ssh"; ".aws"; ".gnupg"; ".kube"].
Definition _denied_dirs2 : list string := [".docker"; ".azure"; ".config/gh"].

Section Paths.
Context `{Resolve}.

(** [os.path.realpath] is what the file system makes of a path. *)
Definition _denied_exact_paths (home : string) : list string :=
  map resolve (map (os_join home) _denied_exact_names
               ++ ["/etc/sudoers"; "/etc/passwd"; "/etc/shadow"]).

Definition _denied_prefixes (home : string) : list string :=
  map (λ p, resolve p +:+ "/")
    (map (os_join home) _denied_dirs ++ ["/etc/sudoers.d"; "/etc/systemd"]
     ++ map (os_join home) _denied_dirs2).

(** [os.path.expanduser], for the user's own home. *)
Definition expanduser (home path : string) : string :=
  if (path =? "~")%string then home
  else if startswith "~/" path then home +:+ sdrop 1 path else path.

Definition _is_write_denied (h : host) (path : string) : bool :=
  let hm := resolve (home h) in
  let resolved := resolve (expanduser (home h) path) in
  mem resolved (_denied_exact_paths hm) || existsb (λ p, startswith p resolved) (_denied_prefixes hm).
End Paths.

Definition _BINARY_EXTENSIONS : list string :=
  [".png"; ".jpg"; ".jpeg"; ".gif"; ".bmp"; ".ico"; ".webp"; ".tiff"; ".tif"; ".mp4"; ".mov"; ".avi";
   ".mkv"; ".webm"; ".wmv"; ".flv"; ".m4v"; ".mpeg"; ".mpg"; ".mp3"; ".wav"; ".ogg"; ".flac"; ".aac";
   ".m4a"; ".wma"; ".aiff"; ".opus"; ".zip"; ".tar"; ".gz"; ".bz2"; ".7z"; ".rar"; ".xz"; ".z"; ".tgz";
   ".iso"; ".exe"; ".dll"; ".so"; ".dylib"; ".bin"; ".o"; ".a"; ".obj"; ".lib"; ".app"; ".msi"; ".deb";
   ".rpm"; ".doc"; ".docx"; ".xls"; ".xlsx"; ".ppt"; ".pptx"; ".odt"; ".ods"; ".odp"; ".ttf"; ".otf";
   ".woff"; ".woff2"; ".eot"; ".pyc"; ".pyo"; ".class"; ".jar"; ".war"; ".ear"; ".node"; ".wasm"; ".rlib";
   ".sqlite"; ".sqlite3"; ".db"; ".mdb"; ".idx"; ".psd"; ".ai"; ".eps"; ".sketch"; ".fig"; ".xd"; ".blend";
   ".3ds"; ".max"; ".swf"; ".fla"; ".lockb"; ".dat"; ".data"].

(** [PurePath.suffix]: from the last dot of the name, unless the name starts or ends with
    it. *)
Definition path_name (path : string) : string := default "" (last (parts path)).
Definition suffix (path : string) : string :=
  let name := path_name path in
  match rpartition "." name with
  | Some (before, ext) => if (before =? "")%string || (ext =? "")%string then "" else "." +:+ ext
  | None => ""
  end.
Definition _has_binary_extension (path : string) : bool := mem (lower (suffix path)) _BINARY_EXTENSIONS.

(** ** Reading *)

Definition MAX_LINE_LENGTH : nat := 2000.
Definition _LINE_TRUNC_SUFFIX : string := "... (line truncated)".
Definition _MAX_READ_CHARS : nat := TERMINAL_OUTPUT_LIMIT.

Fixpoint numbered (no : nat) (window : list string) : list string :=
  match window with
  | [] => []
  | raw_line :: rest =>
      let line := if MAX_LINE_LENGTH <? slen raw_line
                  then stake MAX_LINE_LENGTH raw_line +:+ _LINE_TRUNC_SUFFIX else raw_line in
      (str_of_nat no +:+ ": " +:+ line) :: numbered (S no) rest
  end.

Definition _format_numbered_lines (window : list string) (first_line_no total_lines : nat) : string :=
  let body := join NLs (numbered first_line_no window) in
  let last_line_no := first_line_no + length window - 1 in
  let trailer :=
    if total_lines <=? last_line_no
    then "End of file - total " +:+ str_of_nat total_lines +:+ " lines"
    else "Showing lines " +:+ str_of_nat first_line_no +:+ "-" +:+ str_of_nat last_line_no
         +:+ " of " +:+ str_of_nat total_lines +:+ ". "
         +:+ "Use offset=" +:+ str_of_nat (last_line_no + 1) +:+ " to continue." in
  body +:+ NLs +:+ NLs +:+ trailer.

(** The page of a text: its lines from [offset], at most [limit]; [None] past the end. *)
Definition page (lines : list string) (offset limit : Z) : option (list string * nat) :=
  let start := Z.to_nat (Z.max (offset - 1) 0) in
  if length lines <=? start then None
  else Some (take (Z.to_nat (Z.max limit 0)) (drop start lines), start + 1).

(** A read's reply: the content as code points, and the file spilled, when one was. *)
Inductive read_reply :=
| ReadError (message : string)
| ReadOk (content : list Z)
| ReadSpilled (content : list Z) (overflow_path : string) (spilled : list Z).

(** The message of an [except] clause of the tools, when one catches the exception. *)
Definition io_message (verb path : string) (x : exc) : option string :=
  match x with
  | FileNotFoundError _ => Some ("File not found: " +:+ path)
  | OtherError "IsADirectoryError" _ => Some ("Path is a directory, not a file: " +:+ path)
  | OSError m => Some ("Failed to " +:+ verb +:+ " " +:+ path +:+ ": " +:+ m)
  | _ => None
  end.

Section Tools.
Context `{PyFloat} `{Resolve} (h : host).

Definition _resolve_in_session_window (path : string) (e : env) (st : session) : res (res string) :=
  match window_dirs st with
  | Raise x => Raise x
  | Ok dirs => Ok (resolve_in_window path (resolve (working_dir e)) dirs)
  end.

Definition text_reply (text path fresh : string) (offset limit : Z) (e : env) : res read_reply :=
  if (text =? "")%string then Ok (ReadOk [])
  else
    let lines := splitlines text in
    match page lines offset limit with
    | None => Ok (ReadOk [])
    | Some (window, first) =>
        let body := cps (_format_numbered_lines window first (length lines)) in
        let! pv := make_preview body _MAX_READ_CHARS TERMINAL_OUTPUT_MAX_LINES in
        if negb pv.2 then Ok (ReadOk body)
        else
          let! o := overflow_to_file body "read" fresh "This page of output" (working_dir e)
                      _MAX_READ_CHARS TERMINAL_OUTPUT_MAX_LINES [] in
          Ok (ReadSpilled (o_preview o.1 ++ [newline; newline] ++ o_pointer o.1) (o_path o.1) body)
    end.

Definition read_file (path fresh : string) (offset limit : Z) (f : fs) (e : env) (st : session) :
    res read_reply :=
  let! r := _resolve_in_session_window path e st in
  match r with
  | Raise x => Ok (ReadError (exc_text x))
  | Ok target =>
      if _is_write_denied h target
      then Ok (ReadError ("Read denied: " +:+ path +:+ " is on the protected paths list."))
      else if _has_binary_extension target then Ok (ReadError ("Cannot read binary file: " +:+ path))
      else match entry h target with
           | Some IsDir => Ok (ReadError ("Path is a directory, not a file: " +:+ path))
           | Some IsOther => Ok (ReadError ("Not a regular file: " +:+ path))
           | _ =>
               match env_read f e target with
               | Raise x => match io_message "read" path x with
                            | Some m => Ok (ReadError m)
                            | None => Raise x end
               | Ok text => text_reply text path fresh offset limit e
               end
           end
  end.

(** ** Diagnostics *)

Definition _MAX_DIAGNOSTICS : nat := 20.

(** [shlex.quote] *)
Definition shell_safe (c : ascii) : bool := is_word c && (code c <? 128)%N || one_of "@%+=:,./-" c.
Definition shlex_quote (s : string) : string :=
  if (s =? "")%string then "''"
  else if sforall shell_safe s then s
  else "'" +:+ join ("'" +:+ DQs +:+ "'" +:+ DQs +:+ "'") (split_on SQ s) +:+ "'".

(** One finding as a line; [None] for an item that is no object. A [location] that is
    neither an object nor empty has no [get]. *)
Definition diagnostic_line (path : string) (item : pyval) : res (option string) :=
  match item with
  | PDict d =>
      let loc := get d "location" in
      let! row := (if truthy loc then
                     match loc with
                     | PDict l => Ok (default (PStr "?") (dget l "row"))
                     | _ => Raise (AttributeError "get")
                     end
                   else Ok (PStr "?")) in
      let code_ := get d "code" in
      let prefix := if truthy code_ then py_str code_ +:+ " " else "" in
      let message := default (PStr "") (dget d "message") in
      Ok (Some (rstrip is_space (path +:+ ":" +:+ py_str row +:+ ": " +:+ prefix +:+ py_str message)))
  | _ => Ok None
  end.

Fixpoint diagnostic_lines (path : string) (items : list pyval) : res (list string) :=
  match items with
  | [] => Ok []
  | i :: rest =>
      let! l := diagnostic_line path i in
      let! ls := diagnostic_lines path rest in
      Ok (match l with Some x => x :: ls | None => ls end)
  end.

Definition _post_edit_diagnostics (path : string) (f : fs) : res (option string) :=
  match execute h f ("ruff check --output-format=json --force-exclude " +:+ shlex_quote path) with
  | Raise _ => Ok None
  | Ok r =>
      let out := strip (stdout r) in
      if (out =? "")%string then Ok None
      else match json_loads out with
           | Some (PList (item :: items)) =>
               let findings := item :: items in
               let! lines := diagnostic_lines path (take _MAX_DIAGNOSTICS findings) in
               match lines with
               | [] => Ok None
               | _ =>
                   let overflow := length findings - length lines in
                   Ok (Some ("ruff diagnostics (informational " +:+ em_dash +:+ " the edit was applied):"
                     +:+ NLs +:+ join NLs lines
                     +:+ (if 0 <? overflow then NLs +:+ "... and " +:+ str_of_nat overflow +:+ " more" else "")))
               end
           | _ => Ok None
           end
  end.

(** What [write] and [edit] do once the file is written. An exception leaves it written. *)
Definition after_write (result : pydict) (target : string) (f : fs) (e : env) (st : session) :
    res pydict * fs * session :=
  match maybe_seed_window (is_dir h) st target (resolve (working_dir e)) (e_on_host_fs e) with
  | Raise x => (Raise x, f, st)
  | Ok st' =>
      if endswith ".py" target then
        match _post_edit_diagnostics target f with
        | Raise x => (Raise x, f, st')
        | Ok (Some text) =>
            if (text =? "")%string then (Ok result, f, st')
            else (Ok (result ++ [("diagnostics", PStr text)]), f, st')
        | Ok None => (Ok result, f, st')
        end
      else (Ok result, f, st')
  end.

(** ** Writing *)

(** Writing the file, and what follows. *)
Definition put (path target content : string) (result : pydict) (f : fs) (e : env) (st : session) :
    res pydict * fs * session :=
  match write_file h f e target content with
  | Raise x =>
      match x with
      | OSError m | FileNotFoundError m => (Ok (_error ("Failed to write " +:+ path +:+ ": " +:+ m)), f, st)
      | _ => (Raise x, f, st)
      end
  | Ok f' => after_write result target f' e st
  end.

Definition write (path content : string) (f : fs) (e : env) (st : session) : res pydict * fs * session :=
  match _resolve_in_session_window path e st with
  | Raise x => (Raise x, f, st)
  | Ok (Raise x) => (Ok (_error (exc_text x)), f, st)
  | Ok (Ok target) =>
      if _is_write_denied h target
      then (Ok (_error ("Write denied: " +:+ path +:+ " is on the protected paths list.")), f, st)
      else put path target content [("success", PBool true); ("path", PStr target)] f e st
  end.
End Tools.

(** ** Edits *)

Record ResolvedEdit := Edit { start : nat; stop : nat; new_text : string; index : nat }.

(** [original.find(sub)], of a text that occurs. *)
Fixpoint find_at (sub s : string) : nat :=
  if startswith sub s then 0
  else match s with "" => 0 | String _ s' => S (find_at sub s') end.

Definition edit_label (i : nat) : string := "edits[" +:+ str_of_nat i +:+ "]".

(** The loop over [edits], from item [i]. *)
Fixpoint resolve_items (original : string) (i : nat) (edits : list pyval) : list ResolvedEdit + string :=
  match edits with
  | [] => inl []
  | item :: rest =>
      match item with
      | PDict d =>
          match get d "oldText", get d "newText" with
          | PStr old_text, PStr new_text_ =>
              let resolution := find_replacement original old_text in
              match error resolution with
              | Some m => inr (edit_label i +:+ ": " +:+ m)
              | None =>
                  let found := default "" (search resolution) in
                  let at_ := find_at found original in
                  match resolve_items original (S i) rest with
                  | inl l => inl (Edit at_ (at_ + slen found) new_text_ i :: l)
                  | inr m => inr m
                  end
              end
          | _, _ => inr (edit_label i +:+ " must have string oldText and newText")
          end
      | _ => inr (edit_label i +:+ " must be an object with oldText and newText")
      end
  end.

Definition by_start (a b : ResolvedEdit) : bool := start a <=? start b.

(** [itertools.pairwise]: the first neighbours that overlap. *)
Fixpoint overlapping (l : list ResolvedEdit) : option (ResolvedEdit * ResolvedEdit) :=
  match l with
  | a :: ((b :: _) as rest) => if start b <? stop a then Some (a, b) else overlapping rest
  | _ => None
  end.

Definition _resolve_edits (original : string) (edits : list pyval) : list ResolvedEdit + string :=
  match resolve_items original 0 edits with
  | inr m => inr m
  | inl l =>
      let resolved := sort_by by_start l in
      match overlapping resolved with
      | Some (a, b) => inr (edit_label (index a) +:+ " and " +:+ edit_label (index b)
          +:+ " target overlapping or adjacent regions: merge them into one edit")
      | None => inl resolved
      end
  end.

Fixpoint apply_from (original : string) (cursor : nat) (resolved : list ResolvedEdit) : string :=
  match resolved with
  | [] => sdrop cursor original
  | r :: rest => slice cursor (start r) original +:+ new_text r +:+ apply_from original (stop r) rest
  end.
Definition _apply_resolved_edits (original : string) (resolved : list ResolvedEdit) : string :=
  apply_from original 0 resolved.

Section EditTool.
Context `{PyFloat} `{Resolve} (h : host).

Definition edit (path : string) (edits : list pyval) (f : fs) (e : env) (st : session) :
    res pydict * fs * session :=
  match _resolve_in_session_window path e st with
  | Raise x => (Raise x, f, st)
  | Ok (Raise x) => (Ok (_error (exc_text x)), f, st)
  | Ok (Ok target) =>
      if _is_write_denied h target
      then (Ok (_error ("Write denied: " +:+ path +:+ " is on the protected paths list.")), f, st)
      else match edits with
      | [] => (Ok (_error "edits must be a non-empty list of {oldText, newText}."), f, st)
      | _ =>
          match env_read f e target with
          | Raise x => match io_message "read" path x with
                       | Some m => (Ok (_error m), f, st)
                       | None => (Raise x, f, st) end
          | Ok original =>
              match _resolve_edits original edits with
              | inr m => (Ok (_error (m +:+ " (file: " +:+ path +:+ ")")), f, st)
              | inl resolved =>
                  put h path target (_apply_resolved_edits original resolved)
                    [("success", PBool true); ("path", PStr target);
                     ("replacements", PInt (Z.of_nat (length resolved)))] f e st
              end
          end
      end
  end.
End EditTool.

(** ** Searching *)

Definition _SEARCH_DELIMITER : string := "###__LHA_SEARCH_RESULT__###".
Definition _SEARCH_ERROR_KEY : string := "__lha_search_error__".

(** [text[text.find(d):]], and the part between the first two delimiters. *)
Fixpoint after_sub (sub s : string) : option string :=
  if startswith sub s then Some (sdrop (slen sub) s)
  else match s with "" => None | String _ s' => after_sub sub s' end.
Fixpoint until_sub (sub s : string) : option string :=
  if startswith sub s then Some ""
  else match s with "" => None | String c s' => String c <$> until_sub sub s' end.
Definition extract_delimited (text delimiter : string) : option string :=
  after_sub delimiter text ≫= until_sub delimiter.

Definition match_entry (m : pyval) : res pyval :=
  match m with
  | PDict d =>
      match dget d "path", dget d "line", dget d "text" with
      | Some p, Some l, Some t => Ok (PDict [("path", p); ("line", l); ("text", t)])
      | None, _, _ => Raise (KeyError "path")
      | _, None, _ => Raise (KeyError "line")
      | _, _, None => Raise (KeyError "text")
      end
  | _ => Raise (TypeError "not an object")
  end.
Definition mtime_of (m : pyval) : Q :=
  match m with PDict d => default 0%Q (num_of (default (PInt 0) (dget d "mtime"))) | _ => 0%Q end.
(** [sorted(..., key=mtime, reverse=True)] keeps the order of equal ones. *)
Definition newer (a b : pyval) : bool := Qle_bool (mtime_of b) (mtime_of a).

Fixpoint entries (l : list pyval) : res (list pyval) :=
  match l with
  | [] => Ok []
  | m :: l' => let! x := match_entry m in let! xs := entries l' in Ok (x :: xs)
  end.

(** What [search_files] replies to the result of its script, [path] being the argument. *)
Definition search_reply `{PyFloat} (path : string) (limit : Z) (r : ExecutionResult) : res pydict :=
  if negb (exit_code r =? 0)%Z then
    let s := strip (stderr r) in
    let msg := if (s =? "")%string then "search failed" else s in
    if contains "not a directory" (lower msg) || contains "No such file" msg
    then Ok (_error ("Search path invalid: " +:+ path +:+ ": " +:+ msg))
    else Ok (_error ("Search failed for " +:+ path +:+ ": " +:+ msg))
  else
    match extract_delimited (stdout r) _SEARCH_DELIMITER with
    | None => Ok (_error ("Search produced no result envelope for " +:+ path +:+ "; stderr="
                          +:+ repr_str (stderr r)))
    | Some payload =>
        match json_loads payload with
        | None => Ok (_error "Search produced invalid JSON: ")
        | Some (PDict d) =>
            match dget d _SEARCH_ERROR_KEY with
            | Some m => Ok (_error ("Invalid regex pattern: " +:+ py_str m))
            | None =>
                match d with
                | [] => Ok [("success", PBool true); ("matches", PList []); ("truncated", PBool (limit <=? 0)%Z)]
                | _ => Raise (AttributeError "get")
                end
            end
        | Some (PList l) =>
            let! matches := entries (sort_by newer l) in
            Ok [("success", PBool true); ("matches", PList matches);
                ("truncated", PBool (limit <=? Z.of_nat (length l))%Z)]
        | Some _ => Raise (TypeError "object has no len()")
        end
    end.

(** [script]: the program that searches a root; [run] what executing it gives, where a
    [None] is a timeout. *)
Definition search_files `{PyFloat} `{Resolve} (script : string → string)
    (run : string → option (res ExecutionResult)) (path scope : string) (limit : Z) (e : env) (st : session) :
    res pydict :=
  let env_root := resolve (working_dir e) in
  let! window := (if (scope =? "workspace")%string then Ok [] else window_dirs st) in
  match resolve_in_window path env_root window with
  | Raise x => Ok (_error (exc_text x))
  | Ok root =>
      match run ("python3 -c " +:+ shlex_quote (script root)) with
      | None => Ok (_error ("Search timed out after 30s for " +:+ path
                            +:+ ". Narrow the path or pattern."))
      | Some (Raise x) => Ok (_error ("Search failed for " +:+ path +:+ ": " +:+ exc_text x))
      | Some (Ok r) => search_reply path limit r
      end
  end.

(** * Facts *)

(** ** Finding *)

Lemma find_at_split sub s : substring_of sub s →
  ∃ l r, s = l +:+ sub +:+ r ∧ find_at sub s = slen l.
Proof.
  rewrite <- contains_spec. induction s as [|c s IH]; cbn [contains find_at].
  - intros H. destruct (startswith sub "") eqn:E; [|done].
    apply startswith_spec in E as [r ->]. by exists "", r.
  - destruct (startswith sub (String c s)) eqn:E; cbn [orb].
    + intros _. apply startswith_spec in E as [r ->]. by exists "", r.
    + intros H. destruct (IH H) as (l & r & -> & ->). by exists (String c l), r.
Qed.

Lemma find_at_spec sub s : substring_of sub s →
  slice (find_at sub s) (find_at sub s + slen sub) s = sub ∧ find_at sub s + slen sub ≤ slen s.
Proof.
  intros (l & r & -> & ->)%find_at_split. rewrite slice_app, !slen_app. split; [done|lia].
Qed.

Lemma resolution_cases original old :
  (∃ m, error (find_replacement original old) = Some m) ∨
  ∃ s, find_replacement original old = Repl (Some s) 1 None ∧ substring_of s original.
Proof.
  destruct (search (find_replacement original old)) as [s|] eqn:E.
  - right. exists s. by destruct (walk_success REPLACERS original old _ s eq_refl E) as (? & ? & _).
  - left. unfold find_replacement in *. revert E. generalize REPLACERS. intros rs.
    induction rs as [|[n p] rs IH]; cbn [walk]; [intros _; by eexists|].
    destruct (seen_candidates _ _) as [|c [|c' cs]]; [apply IH| |intros _; by eexists].
    destruct (1 <? _); [intros _; by eexists|done].
Qed.

(** ** Resolving the items *)

(** The edit [r] is what the item [r] is numbered by asks for. *)
Definition resolves (original : string) (items : list pyval) (from : nat) (r : ResolvedEdit) : Prop :=
  from ≤ index r ∧ start r ≤ stop r ≤ slen original ∧
  ∃ d old, items !! (index r - from) = Some (PDict d) ∧ get d "oldText" = PStr old ∧
    get d "newText" = PStr (new_text r) ∧
    search (find_replacement original old) = Some (slice (start r) (stop r) original).

Lemma resolve_items_spec original i items l :
  resolve_items original i items = inl l →
  map index l = seq i (length items) ∧ Forall (resolves original items i) l.
Proof.
  revert i l. induction items as [|item items IH]; intros i l; cbn [resolve_items].
  { intros [= <-]. by split; constructor. }
  destruct item as [| | | | | |d]; try done.
  destruct (get d "oldText") as [| | | |old| |] eqn:Eo; try done.
  destruct (get d "newText") as [| | | |new| |] eqn:En; try done.
  destruct (resolution_cases original old) as [[m Hm]|(s & Hs & Hsub)]; [by rewrite Hm|].
  rewrite Hs. cbn [error search default from_option id].
  destruct (resolve_items original (S i) items) as [l'|] eqn:E; [|done]. intros [= <-].
  destruct (IH (S i) l' E) as [Hm Hall]. cbn [map length seq index]. rewrite Hm. split; [done|].
  destruct (find_at_spec s original Hsub) as [Hslice Hle]. constructor.
  - split; [done|]. cbn [index start stop new_text]. split; [lia|]. exists d, old.
    rewrite Nat.sub_diag. cbn [lookup list_lookup]. split; [done|]. split; [done|]. split; [done|].
    by rewrite Hs, Hslice.
  - eapply Forall_impl; [exact Hall|]. intros r (Hi & Hb & d' & old' & Hl & Hr).
    split; [lia|]. split; [done|]. exists d', old'. split; [|done].
    replace (index r - i) with (S (index r - S i)) by lia. done.
Qed.

(** ** Spans *)

Fixpoint disjoint_spans (cursor : nat) (l : list ResolvedEdit) : Prop :=
  match l with
  | [] => True
  | r :: rest => cursor ≤ start r ≤ stop r ∧ disjoint_spans (stop r) rest
  end.

Lemma overlapping_none l : Forall (λ r, start r ≤ stop r) l → overlapping l = None → disjoint_spans 0 l.
Proof.
  intros Hl Ho. assert (∀ c, match l with r :: _ => c ≤ start r | [] => True end → disjoint_spans c l) as H.
  2:{ apply H. destruct l; [done|lia]. }
  induction Hl as [|r l Hr _ IH]; intros c Hc; [done|]. cbn [disjoint_spans]. split; [done|].
  destruct l as [|r' l]; [done|]. cbn [overlapping] in Ho.
  destruct (Nat.ltb_spec (start r') (stop r)); [done|]. by apply IH.
Qed.

(** Two spans of a list in order overlap only if two neighbours do. *)
Lemma overlapping_some l a b : overlapping l = Some (a, b) →
  ∃ pre post, l = pre ++ a :: b :: post ∧ start b < stop a.
Proof.
  induction l as [|x l IH]; [done|]. destruct l as [|y l]; [done|]. cbn [overlapping].
  destruct (Nat.ltb_spec (start y) (stop x)).
  - intros [= <- <-]. by exists [], l.
  - intros (pre & post & -> & Hlt)%IH. by exists (x :: pre), post.
Qed.

Lemma disjoint_pairs c l i j a b : disjoint_spans c l → i < j → l !! i = Some a → l !! j = Some b →
  stop a ≤ start b.
Proof.
  revert c i j. induction l as [|r l IH]; intros c i j; [done|]. cbn [disjoint_spans].
  intros [Hr Hl] Hij Ha Hb. destruct j as [|j]; [lia|]. cbn in Hb. destruct i as [|i].
  - cbn in Ha. injection Ha as <-. clear IH Hij. revert l Hl Hb. induction j as [|j IHj]; intros [|x l] Hl Hb; try done.
    + cbn in Hb. injection Hb as <-. cbn in Hl. lia.
    + cbn in Hl, Hb. destruct Hl as [Hx Hl].
      enough (∀ c' m, disjoint_spans c' m → m !! j = Some b → c' ≤ start b) as H.
      { specialize (H _ _ Hl Hb). lia. }
      clear. intros c' m. revert c'. revert j. induction m as [|y m IH]; intros j c' Hm Hb; [done|].
      destruct j as [|j]; cbn in Hm, Hb; [injection Hb as <-; lia|].
      destruct Hm as [Hy Hm]. specialize (IH _ _ Hm Hb). lia.
  - cbn in Ha. apply (IH _ i j Hl); [lia|done|done].
Qed.

(** ** Applying *)

(** Texts between gaps: [g0 m0 g1 m1 ... gn]. *)
Fixpoint weave (gaps mids : list string) : string :=
  match gaps, mids with
  | g :: gs, m :: ms => g +:+ m +:+ weave gs ms
  | g :: _, [] => g
  | [], _ => ""
  end.

Fixpoint gaps_from (original : string) (cursor : nat) (l : list ResolvedEdit) : list string :=
  match l with
  | [] => [sdrop cursor original]
  | r :: rest => slice cursor (start r) original :: gaps_from original (stop r) rest
  end.

Lemma apply_weave original cursor l :
  apply_from original cursor l = weave (gaps_from original cursor l) (map new_text l).
Proof.
  revert cursor. induction l as [|r l IH]; intros cursor; [done|]. cbn. by rewrite IH.
Qed.

Lemma slice_drop i j s : i ≤ j → slice i j s +:+ sdrop j s = sdrop i s.
Proof.
  intros Hij. unfold slice. rewrite <- (stake_drop (j - i) (sdrop i s)) at 2.
  rewrite sdrop_add. by replace (i + (j - i)) with j by lia.
Qed.

Lemma original_weave original cursor l : disjoint_spans cursor l →
  sdrop cursor original =
  weave (gaps_from original cursor l) (map (λ r, slice (start r) (stop r) original) l).
Proof.
  revert cursor. induction l as [|r l IH]; intros cursor; [done|]. cbn [disjoint_spans gaps_from map weave].
  intros [[H1 H2] Hl]. rewrite <- IH by done. by rewrite !slice_drop by lia.
Qed.

Lemma length_gaps original cursor l : length (gaps_from original cursor l) = S (length l).
Proof. revert cursor. induction l; intros cursor; cbn; [done|]. by rewrite IHl. Qed.

Lemma by_start_total a b : by_start a b = true ∨ by_start b a = true.
Proof. unfold by_start. rewrite !Nat.leb_le. lia. Qed.

(** ** Pages *)

Lemma numbered_length no l : length (numbered no l) = length l.
Proof. revert no. induction l; intros no; cbn; [done|]. by rewrite IHl. Qed.

(** Reading page after page, each from the offset the one before names. *)
Fixpoint read_on (lines : list string) (limit : Z) (fuel : nat) (offset : Z) : list string :=
  match fuel with
  | 0 => []
  | S n =>
      match page lines offset limit with
      | None => []
      | Some (w, first) => w ++ read_on lines limit n (Z.of_nat (first + length w))
      end
  end.

Lemma read_on_spec lines limit fuel k : (0 < limit)%Z → length lines ≤ fuel + k →
  read_on lines limit fuel (Z.of_nat (S k)) = drop k lines.
Proof.
  intros Hlim. revert k. induction fuel as [|n IH]; intros k Hf; cbn [read_on].
  { by rewrite drop_ge by lia. }
  unfold page. replace (Z.to_nat (Z.max (Z.of_nat (S k) - 1) 0)) with k by lia.
  destruct (Nat.leb_spec (length lines) k); [by rewrite drop_ge by lia|].
  replace (Z.max limit 0) with limit by lia. set (m := Z.to_nat limit).
  assert (0 < m) as Hm by lia. rewrite length_take, length_drop.
  set (w := m `min` (length lines - k)). replace (k + 1 + w) with (S (k + w)) by lia.
  rewrite IH by lia. unfold w. destruct (decide (m ≤ length lines - k)).
  - rewrite Nat.min_l, <- drop_drop by lia. apply take_drop.
  - rewrite Nat.min_r, (drop_ge lines (k + _)), app_nil_r by lia.
    by rewrite take_ge by (rewrite length_drop; lia).
Qed.

(** ** Properties *)

(** C24. What resolving a list of edits guarantees: every item has its span, taken against the
    text as read, in order and disjoint. The text is gaps and matched pieces, and applying
    gives the same gaps with each piece replaced by its item's new text: nothing outside
    the pieces changes, and no edit sees another's result. *)
Theorem edits_are_simultaneous (original : string) (edits : list pyval) (resolved : list ResolvedEdit) :
  _resolve_edits original edits = inl resolved →
  (∃ gaps, length gaps = S (length edits) ∧
    original = weave gaps (map (λ r, slice (start r) (stop r) original) resolved) ∧
    _apply_resolved_edits original resolved = weave gaps (map new_text resolved)) ∧
  map index resolved ≡ₚ seq 0 (length edits) ∧
  (∀ r, r ∈ resolved → ∃ d old, edits !! index r = Some (PDict d) ∧
     get d "oldText" = PStr old ∧ get d "newText" = PStr (new_text r) ∧
     search (find_replacement original old) = Some (slice (start r) (stop r) original)) ∧
  (∀ i j a b, i < j → resolved !! i = Some a → resolved !! j = Some b → stop a ≤ start b).
Proof.
  unfold _resolve_edits. destruct (resolve_items original 0 edits) as [l|] eqn:E; [|done].
  destruct (resolve_items_spec _ _ _ _ E) as [Hidx Hall].
  destruct (overlapping (sort_by by_start l)) as [[? ?]|] eqn:Eo; [done|]. intros [= <-].
  pose proof (sort_by_perm by_start l) as Hp. set (s := sort_by by_start l) in *.
  assert (Forall (resolves original edits 0) s) as Hs by by rewrite Hp.
  assert (disjoint_spans 0 s) as Hd.
  { apply overlapping_none; [|done]. eapply Forall_impl; [exact Hs|]. by intros r (_ & [? _] & _). }
  split_and!.
  - exists (gaps_from original 0 s). rewrite length_gaps. split; [|split].
    + rewrite (Permutation_length Hp). by rewrite <- (length_map index l), Hidx, length_seq.
    + rewrite <- original_weave by done. done.
    + apply apply_weave.
  - by rewrite Hp, Hidx.
  - intros r Hr. rewrite Forall_forall in Hs. destruct (Hs r Hr) as (_ & _ & d & old & Hl & Hrest).
    rewrite Nat.sub_0_r in Hl. eauto.
  - intros i j a b. by apply (disjoint_pairs 0).
Qed.

(** Nothing written, and no success reported. *)
Ltac refused := intros [= <- <- <-]; left; (split; [done|]); try done; by intros reply [= <-].

(** An edit is all or nothing, and a write or an edit touches one file: each leaves every
    file as it was and reports no success, or writes the one file the path names, which
    lies under the root of the workspace and is not protected. An edit then holds the
    edits resolved against what was there. *)
Theorem edit_is_atomic `{PyFloat} `{Resolve} (h : host) (path content : string) (edits : list pyval)
    (f : fs) (e : env) (st : session) :
  (∀ x f' st', edit h path edits f e st = (x, f', st') →
     f' = f ∧ (∀ reply, x = Ok reply → get reply "success" = PBool false) ∨
     ∃ target original resolved, is_under (resolve (resolve (working_dir e))) target = true ∧
       _is_write_denied h target = false ∧ env_read f e target = Ok original ∧
       _resolve_edits original edits = inl resolved ∧
       f' = env_write f e target (_apply_resolved_edits original resolved)) ∧
  (∀ x f' st', write h path content f e st = (x, f', st') →
     f' = f ∧ (∀ reply, x = Ok reply → get reply "success" = PBool false) ∨
     ∃ target, is_under (resolve (resolve (working_dir e))) target = true ∧
       _is_write_denied h target = false ∧ f' = env_write f e target content).
Proof.
  assert (∀ target text result x f' st', put h path target text result f e st = (x, f', st') →
    f' = f ∧ (∀ reply, x = Ok reply → get reply "success" = PBool false) ∨
    f' = env_write f e target text) as Hput.
  { intros target text result x f' st'. unfold put, write_file. destruct (write_error h target) as [y|].
    - destruct y; refused.
    - unfold after_write. repeat case_match; intros; simplify_eq; by right. }
  assert (∀ target, _resolve_in_session_window path e st = Ok (Ok target) →
    is_under (resolve (resolve (working_dir e))) target = true) as Hunder.
  { intros target. unfold _resolve_in_session_window. destruct (window_dirs st) as [dirs|]; [|done].
    intros [= Ht]. pose proof (window_stays_under_root path (resolve (working_dir e)) dirs) as Hw.
    by rewrite Ht in Hw. }
  split; intros x f' st'; [unfold edit|unfold write];
    (destruct (_resolve_in_session_window path e st) as [[target|y]|y] eqn:Er;
      [|refused|refused]);
    (destruct (_is_write_denied h target) eqn:Ed; [refused|]).
  - destruct edits as [|item items]; [refused|].
    destruct (env_read f e target) as [original|y] eqn:Ef.
    2:{ destruct (io_message "read" path y); refused. }
    destruct (_resolve_edits original (item :: items)) as [resolved|m] eqn:Ee.
    2:{ refused. }
    intros [Hl|Hr]%Hput; [by left|right]. exists target, original, resolved. auto 6.
  - intros [Hl|Hr]%Hput; [by left|right]. exists target. auto.
Qed.

(** Reading a file page by page, each from the offset the one before names, gives every
    line once, in order, and ends: as many pages as there are lines are enough, whatever
    the page size. *)
Theorem pages_cover_the_file (lines : list string) (limit : Z) :
  (0 < limit)%Z →
  read_on lines limit (length lines) 1 = lines ∧
  ∀ more, read_on lines limit (length lines + more) 1 = lines.
Proof.
  intros Hl. split; [|intros more]; rewrite (read_on_spec lines limit _ 0) by (done || lia); apply drop_0.
Qed.

(** ** Concrete inputs *)

Definition sample : string := "def f():" +:+ NLs +:+ "    return 1" +:+ NLs +:+ "x = f()" +:+ NLs.
Definition item (o n : string) : pyval := PDict [("oldText", PStr o); ("newText", PStr n)].
Definition sample_edits : list pyval := [item "x = f()" "y = f()"; item "return 1" "return 2"].

(** Adjacent edits are not overlapping: they are applied. *)
Example adjacent_edits_apply :
  (λ r, match r with inl l => _apply_resolved_edits "abcd" l | inr m => m end)
    (_resolve_edits "abcd" [item "cd" "Y"; item "ab" "X"]) = "XY".
Proof. vm_compute. reflexivity. Qed.

Definition sample_resolved : list ResolvedEdit := [Edit 13 21 "return 2" 1; Edit 22 29 "y = f()" 0].

Lemma edits_are_simultaneous_witness :
  _resolve_edits sample sample_edits = inl sample_resolved ∧
  ((∃ gaps, length gaps = 3 ∧
    sample = weave gaps (map (λ r, slice (start r) (stop r) sample) sample_resolved) ∧
    _apply_resolved_edits sample sample_resolved = weave gaps (map new_text sample_resolved)) ∧
  map index sample_resolved ≡ₚ seq 0 2 ∧
  (∀ r, r ∈ sample_resolved → ∃ d old, sample_edits !! index r = Some (PDict d) ∧
     get d "oldText" = PStr old ∧ get d "newText" = PStr (new_text r) ∧
     search (find_replacement sample old) = Some (slice (start r) (stop r) sample)) ∧
  (∀ i j a b, i < j → sample_resolved !! i = Some a → sample_resolved !! j = Some b → stop a ≤ start b)) ∧
  _apply_resolved_edits sample sample_resolved
    = "def f():" +:+ NLs +:+ "    return 2" +:+ NLs +:+ "y = f()" +:+ NLs.
Proof.
  assert (_resolve_edits sample sample_edits = inl sample_resolved) as E by (vm_compute; reflexivity).
  split; [exact E|]. split; [|vm_compute; reflexivity].
  exact (edits_are_simultaneous sample sample_edits sample_resolved E).
Defined.

Definition demo_host : host := Host "/home/ann" (λ _, Some IsFile) (λ _, None) (λ _ _, Ok (Executed 0 "" "")).
Definition demo_box : env := Env "box" (Some "/workspace") false None.
Definition demo_files : fs := FS ∅ {[ ("box", "/workspace/a.txt") := RText sample ]}.

Lemma edit_is_atomic_witness :
  let _ := lexical in let _ : PyFloat := λ _, "0.0" in
  let out := edit demo_host "a.txt" sample_edits demo_files demo_box None in
  (out.1.2 = demo_files ∧ (∀ reply, out.1.1 = Ok reply → get reply "success" = PBool false) ∨
   ∃ target original resolved, is_under (resolve (resolve (working_dir demo_box))) target = true ∧
     _is_write_denied demo_host target = false ∧ env_read demo_files demo_box target = Ok original ∧
     _resolve_edits original sample_edits = inl resolved ∧
     out.1.2 = env_write demo_files demo_box target (_apply_resolved_edits original resolved)) ∧
  out.1.1 = Ok [("success", PBool true); ("path", PStr "/workspace/a.txt"); ("replacements", PInt 2)] ∧
  env_read out.1.2 demo_box "/workspace/a.txt"
    = Ok ("def f():" +:+ NLs +:+ "    return 2" +:+ NLs +:+ "y = f()" +:+ NLs).
Proof.
  intros R F out. split; [|split; vm_compute; reflexivity].
  apply (proj1 (edit_is_atomic demo_host "a.txt" "" sample_edits demo_files demo_box None) _ _ out.2).
  unfold out. by destruct (edit demo_host "a.txt" sample_edits demo_files demo_box None) as [[? ?] ?].
Defined.

Lemma pages_cover_the_file_witness :
  (0 < 2)%Z ∧ read_on ["a"; "b"; "c"; "d"; "e"] 2 5 1 = ["a"; "b"; "c"; "d"; "e"] ∧
  ∀ more, read_on ["a"; "b"; "c"; "d"; "e"] 2 (5 + more) 1 = ["a"; "b"; "c"; "d"; "e"].
Proof. split; [lia|]. apply (pages_cover_the_file ["a"; "b"; "c"; "d"; "e"] 2). lia. Defined.
