(* ===== verification/TaskRegistry.v ===== *)
(** * Background sub-agents: [subagents/registry.py]

    The registry behind spawning, waiting for and cancelling sub-agents. A task finishes
    when the event loop decides; a call that waits takes the steps the tasks make while it
    waits as an explicit sequence. *)

From S2P Require Import Prelude PyStr Names PyVal Sorting.
From Stdlib Require Import QArith Qround.

#[local] Open Scope nat_scope.

(** ** Tasks and handles *)

(** An [asyncio.Task]: running, perhaps with a cancellation requested; or done. *)
Inductive task :=
| Running (cancelling : bool)
| Returned (result : pyval)
| Raised (msg : string)
| Cancelled.

Definition done (t : task) : bool := match t with Running _ => false | _ => true end.
Definition cancelled (t : task) : bool := match t with Cancelled => true | _ => false end.

(** [task.cancel()]: a request, refused by a task that is done. *)
Definition cancel_task (t : task) : bool * task :=
  match t with Running _ => (true, Running true) | _ => (false, t) end.

Record SubAgentHandle := Handle {
  task_id : string;
  goal : string;
  h_task : task;
  started_at : Q;
  parent_id : option string;
  cancelled_explicitly : bool;
  name : option string;
  consumed : bool;
}.

Definition set_task (t : task) (h : SubAgentHandle) : SubAgentHandle :=
  Handle (task_id h) (goal h) t (started_at h) (parent_id h) (cancelled_explicitly h) (name h) (consumed h).
Definition set_consumed (h : SubAgentHandle) : SubAgentHandle :=
  Handle (task_id h) (goal h) (h_task h) (started_at h) (parent_id h) (cancelled_explicitly h) (name h) true.
(** [handle.cancelled_explicitly = True; handle.task.cancel()] *)
Definition set_cancelled (h : SubAgentHandle) : SubAgentHandle :=
  Handle (task_id h) (goal h) (cancel_task (h_task h)).2 (started_at h) (parent_id h) true (name h) (consumed h).

Definition _status_label (h : SubAgentHandle) : string :=
  if cancelled (h_task h) || cancelled_explicitly h then "cancelled"
  else match h_task h with
       | Running _ => "running"
       | Cancelled => "cancelled"
       | Raised _ => "failed"
       | Returned _ => "completed"
       end.

(** ** The registry *)

(** [self._handles], in order of registration. *)
Definition registry : Type := list (string * SubAgentHandle).

(** Change one handle in place. *)
Definition update (st : registry) (tid : string) (f : SubAgentHandle → SubAgentHandle) : registry :=
  map (λ kh, if (kh.1 =? tid)%string then (kh.1, f kh.2) else kh) st.

(** A task that is running ends. *)
Definition finish (tid : string) (t : task) (st : registry) : registry :=
  update st tid (λ h, if done (h_task h) then h else set_task t h).
Definition ends (steps : list (string * task)) (st : registry) : registry :=
  fold_left (λ s kt, finish kt.1 kt.2 s) steps st.

(** [fresh]: the identifier drawn; [now] the monotonic clock. *)
Definition register (fresh goal_ : string) (parent name_ : option string) (now : Q) (st : registry) :
    string * registry :=
  (fresh, dset st fresh (Handle fresh goal_ (Running false) now parent false name_ false)).

(** [round(q, 3)], to even on a tie. *)
Definition round3 (q : Q) : Q :=
  let x := (q * 1000)%Q in
  let n := Qfloor x in
  let twice := (2 * (x - inject_Z n))%Q in
  let m := match (twice ?= 1)%Q with
           | Lt => n | Gt => (n + 1)%Z | Eq => if Z.even n then n else (n + 1)%Z end in
  (inject_Z m / 1000)%Q.
Definition elapsed (now : Q) (h : SubAgentHandle) : pyval := PFloat (round3 (now - started_at h)).

Definition named (h : SubAgentHandle) (payload : pydict) : pydict :=
  match name h with
  | Some n => if (n =? "")%string then payload else payload ++ [("name", PStr n)]
  | None => payload
  end.

Definition unknown (tid : string) : pydict := [("status", PStr "unknown"); ("task_id", PStr tid)].
Definition status_reply (s tid : string) : pydict := [("status", PStr s); ("task_id", PStr tid)].

Definition get_status (tid : string) (now : Q) (st : registry) : pydict :=
  match dget st tid with
  | None => unknown tid
  | Some h => named h [("status", PStr (_status_label h)); ("task_id", PStr tid);
                       ("goal", PStr (goal h)); ("elapsed_s", elapsed now h)]
  end.

(** The end of [get_result], for a task that is done. *)
Definition final_reply (tid : string) (h : SubAgentHandle) : pydict :=
  if cancelled_explicitly h || cancelled (h_task h) then status_reply "cancelled" tid
  else match h_task h with
       | Raised msg => [("status", PStr "failed"); ("task_id", PStr tid); ("error", PStr msg)]
       | Returned r => [("status", PStr "completed"); ("task_id", PStr tid); ("result", r)]
       | _ => []
       end.

(** [steps]: how tasks end while the call waits; [now] the clock after it. *)
Definition get_result (tid : string) (wait : bool) (steps : list (string * task)) (now : Q) (st : registry) :
    pydict * registry :=
  match dget st tid with
  | None => (unknown tid, st)
  | Some h =>
      if done (h_task h) then (final_reply tid h, st)
      else if negb wait then (status_reply (_status_label h) tid, st)
      else
        let st' := ends steps st in
        match dget st' tid with
        | None => (unknown tid, st')
        | Some h' =>
            (match h_task h' with
             | Running _ => [("status", PStr "timeout"); ("task_id", PStr tid); ("elapsed_s", elapsed now h')]
             | Cancelled => status_reply "cancelled" tid
             | Raised msg => [("status", PStr "failed"); ("task_id", PStr tid); ("error", PStr msg)]
             | Returned _ => final_reply tid h'
             end, st')
        end
  end.

(** The handles a wait watches, by id. *)
Definition watched (ids : option (list string)) (st : registry) : list string :=
  match ids with
  | None => map fst (List.filter (λ kh, negb (consumed kh.2)) st)
  | Some l => List.filter (λ t, dhas st t) l
  end.

Definition is_done (st : registry) (tid : string) : bool :=
  match dget st tid with Some h => done (h_task h) | None => false end.

Definition wait (ids : option (list string)) (steps : list (string * task)) (now : Q) (st : registry) :
    pydict * registry :=
  match watched ids st with
  | [] => ([("status", PStr "no_active_tasks")], st)
  | ws =>
      let st1 := ends steps st in
      match first_such (is_done st1) ws with
      | None => ([("status", PStr "timeout"); ("still_running", PList (map PStr ws))], st1)
      | Some finished =>
          let st2 := update st1 finished set_consumed in
          let '(result, st3) := get_result finished false [] now st2 in
          ([("task_id", PStr finished); ("status", get result "status"); ("result", get result "result");
            ("still_running",
              PList (map PStr (List.filter (λ t, negb (t =? finished)%string && negb (is_done st3 t)) ws)))],
           st3)
      end
  end.

Definition is_child (tid : string) (h : SubAgentHandle) : bool :=
  match parent_id h with Some p => (p =? tid)%string | None => false end.

Definition cancel (tid : string) (st : registry) : bool * registry :=
  match dget st tid with
  | None => (false, st)
  | Some h =>
      let '(requested, t) := cancel_task (h_task h) in
      (requested || done t,
       map (λ kh, if (kh.1 =? tid)%string || is_child tid kh.2 then (kh.1, set_cancelled kh.2) else kh) st)
  end.

Definition active_entry (now : Q) (h : SubAgentHandle) : option pydict :=
  let label := _status_label h in
  if negb (label =? "running")%string then None
  else Some (named h [("task_id", PStr (task_id h)); ("goal", PStr (goal h)); ("status", PStr label);
                      ("elapsed_s", elapsed now h)]).
Definition list_active (now : Q) (st : registry) : list pydict := omap (active_entry now) (map snd st).

(** [get_registry] and [reset_registry], of the module's registry. *)
Definition get_registry (active : option registry) : registry * option registry :=
  match active with Some r => (r, active) | None => ([], Some []) end.
Definition reset_registry : option registry := None.

(** ** Traces *)

Inductive event :=
| ERegister (fresh goal_ : string) (parent name_ : option string) (now : Q)
| EEnd (tid : string) (t : task)
| EWait (ids : option (list string)) (steps : list (string * task)) (now : Q)
| EResult (tid : string) (wait_ : bool) (steps : list (string * task)) (now : Q)
| ECancel (tid : string).

Definition step (e : event) (st : registry) : registry :=
  match e with
  | ERegister fresh g p n now => (register fresh g p n now st).2
  | EEnd tid t => finish tid t st
  | EWait ids steps now => (wait ids steps now st).2
  | EResult tid w steps now => (get_result tid w steps now st).2
  | ECancel tid => (cancel tid st).2
  end.

(** What a wait for any task hands to the model, if anything. *)
Definition surfaced (e : event) (st : registry) : list string :=
  match e with
  | EWait None steps now =>
      match get (wait None steps now st).1 "task_id" with PStr t => [t] | _ => [] end
  | _ => []
  end.

Fixpoint trace (es : list event) (st : registry) : list string * registry :=
  match es with
  | [] => ([], st)
  | e :: es' => let '(l, st') := trace es' (step e st) in (surfaced e st ++ l, st')
  end.

(** Identifiers are drawn afresh. *)
Fixpoint fresh_ids (es : list event) (st : registry) : Prop :=
  match es with
  | [] => True
  | e :: es' =>
      match e with ERegister fresh _ _ _ _ => fresh ∉ keys st | _ => True end ∧ fresh_ids es' (step e st)
  end.

(** * Facts *)

Lemma dget_map_entries (g : string → SubAgentHandle → SubAgentHandle) (st : registry) k :
  dget (map (λ kh, (kh.1, g kh.1 kh.2)) st) k = g k <$> dget st k.
Proof.
  induction st as [|[k' h] st IH]; [done|]. cbn. destruct (String.eqb_spec k k') as [-> |]; [done|apply IH].
Qed.

Lemma keys_map_entries (g : string → SubAgentHandle → SubAgentHandle) (st : registry) :
  keys (map (λ kh, (kh.1, g kh.1 kh.2)) st) = keys st.
Proof. unfold keys. by rewrite map_map. Qed.

Lemma update_entries st tid f :
  update st tid f = map (λ kh, (kh.1, (if (kh.1 =? tid)%string then f else λ h, h) kh.2)) st.
Proof. apply map_ext. intros [k h]. cbn. by destruct (k =? tid)%string. Qed.

Lemma dget_update st tid f k :
  dget (update st tid f) k = (if (k =? tid)%string then f else λ h, h) <$> dget st k.
Proof. rewrite update_entries. apply (dget_map_entries (λ k, if (k =? tid)%string then f else λ h, h)). Qed.

Lemma keys_update st tid f : keys (update st tid f) = keys st.
Proof. rewrite update_entries. apply (keys_map_entries (λ k, if (k =? tid)%string then f else λ h, h)). Qed.

Lemma cancel_entries tid st :
  (cancel tid st).2 =
    if dhas st tid
    then map (λ kh, (kh.1, (if (kh.1 =? tid)%string || is_child tid kh.2 then set_cancelled kh.2 else kh.2))) st
    else st.
Proof.
  unfold cancel, dhas. destruct (dget st tid) as [h|]; [|done].
  destruct (cancel_task (h_task h)) as [requested t]. cbn [snd]. apply map_ext. intros [k h'].
  cbn. by destruct (_ || _).
Qed.

(** What a step can do to a handle that exists: its task may end, it may be consumed, and
    only a cancellation of it or of its parent flags it. *)
Definition hits (e : event) (tid : string) (h : SubAgentHandle) (st : registry) : bool :=
  match e with ECancel x => dhas st x && ((tid =? x)%string || is_child x h) | _ => false end.

Definition evolves (h h' : SubAgentHandle) : Prop :=
  task_id h' = task_id h ∧ goal h' = goal h ∧ parent_id h' = parent_id h ∧
  (done (h_task h) = true → h_task h' = h_task h) ∧ (consumed h = true → consumed h' = true).

#[local] Instance evolves_preorder : PreOrder evolves.
Proof.
  split; [by intros h|]. intros h1 h2 h3 (Ha1 & Ha2 & Ha3 & H1 & H2) (Hb1 & Hb2 & Hb3 & H3 & H4).
  split_and!; try congruence; [|auto].
  intros Hd. rewrite <- H1 by done. apply H3. by rewrite H1.
Qed.

Lemma finish_step tid t st k h : dget st k = Some h →
  ∃ h', dget (finish tid t st) k = Some h' ∧ evolves h h' ∧ cancelled_explicitly h' = cancelled_explicitly h.
Proof.
  intros Hk. unfold finish. rewrite dget_update, Hk. destruct (k =? tid)%string; cbn; [|by eexists].
  destruct (done (h_task h)) eqn:Ed; [by eexists|]. eexists. split; [done|]. split; [|done].
  unfold evolves. cbn. split_and!; try done. by rewrite Ed.
Qed.

Lemma ends_step steps st k h : dget st k = Some h →
  ∃ h', dget (ends steps st) k = Some h' ∧ evolves h h' ∧ cancelled_explicitly h' = cancelled_explicitly h.
Proof.
  unfold ends. revert st h. induction steps as [|[tid t] steps IH]; intros st h Hk; [by exists h|].
  cbn [fold_left fst snd]. destruct (finish_step tid t st k h Hk) as (h1 & H1 & E1 & C1).
  destruct (IH _ h1 H1) as (h2 & H2 & E2 & C2). exists h2. split; [done|]. split; [by etrans|congruence].
Qed.

Lemma result_state tid w steps now st : (get_result tid w steps now st).2 = st ∨
  (get_result tid w steps now st).2 = ends steps st.
Proof. unfold get_result. repeat case_match; auto. Qed.

Lemma result_no_wait tid now st : (get_result tid false [] now st).2 = st.
Proof. unfold get_result. by repeat case_match. Qed.

(** A wait's state: nothing, or the tasks that ended and one handle consumed. *)
Lemma wait_state ids steps now st :
  (wait ids steps now st).2 = st ∨ (wait ids steps now st).2 = ends steps st ∨
  ∃ t, (wait ids steps now st).2 = update (ends steps st) t set_consumed.
Proof.
  unfold wait. destruct (watched ids st) as [|w ws]; [by left|]. right.
  destruct (first_such _ _) as [t|]; [|by left]. right. exists t.
  pose proof (result_no_wait t now (update (ends steps st) t set_consumed)) as Hr.
  by destruct (get_result _ _ _ _ _).
Qed.

Lemma consume_step t st k h : dget st k = Some h →
  ∃ h', dget (update st t set_consumed) k = Some h' ∧ evolves h h' ∧
    cancelled_explicitly h' = cancelled_explicitly h.
Proof.
  intros Hk. rewrite dget_update, Hk. destruct (k =? t)%string; cbn; by eexists.
Qed.

Lemma step_handle e st k h : dget st k = Some h →
  match e with ERegister fresh _ _ _ _ => fresh ∉ keys st | _ => True end →
  ∃ h', dget (step e st) k = Some h' ∧ evolves h h' ∧
    cancelled_explicitly h' = cancelled_explicitly h || hits e k h st.
Proof.
  intros Hk Hf. destruct e as [fresh g p n now|tid t|ids steps now|tid w steps now|tid]; cbn [step hits];
    rewrite ?orb_false_r.
  - exists h. split; [|done]. unfold register. cbn [snd]. rewrite dget_dset_ne; [done|].
    intros ->. apply Hf. apply dget_in in Hk. apply list_elem_of_fmap. by exists (k, h).
  - by apply finish_step.
  - destruct (wait_state ids steps now st) as [-> |[-> |[t ->]]]; [by exists h|by apply ends_step|].
    destruct (ends_step steps st k h Hk) as (h1 & H1 & E1 & C1).
    destruct (consume_step t _ k h1 H1) as (h2 & H2 & E2 & C2). exists h2.
    split; [done|]. split; [by etrans|congruence].
  - destruct (result_state tid w steps now st) as [-> | ->]; [by exists h|by apply ends_step].
  - rewrite cancel_entries. destruct (dhas st tid); cbn [andb]; [|by exists h; rewrite orb_false_r].
    rewrite (dget_map_entries (λ k h, if (k =? tid)%string || is_child tid h then set_cancelled h else h)), Hk.
    cbn. destruct (_ || _); eexists; (split; [done|]); [|by rewrite orb_false_r].
    split; [|by rewrite orb_true_r]. unfold evolves. cbn. split_and!; try done. by destruct (h_task h).
Qed.

(** ** Surfacing *)

Definition is_consumed (st : registry) (t : string) : Prop := ∃ h, dget st t = Some h ∧ consumed h = true.

Lemma step_consumed e st t : is_consumed st t →
  match e with ERegister fresh _ _ _ _ => fresh ∉ keys st | _ => True end → is_consumed (step e st) t.
Proof.
  intros (h & Hh & Hc) Hf. destruct (step_handle e st t h Hh Hf) as (h' & Hh' & (_&_&_&_&Hcc) & _).
  exists h'. auto.
Qed.

Lemma elem_watched st t : NoDup (keys st) → t ∈ watched None st ↔ ∃ h, dget st t = Some h ∧ consumed h = false.
Proof.
  intros Hnd. unfold watched. rewrite list_elem_of_fmap. split.
  - intros ([k h] & -> & Hin). apply list_elem_of_In, List.filter_In in Hin as [Hin Hc].
    apply negb_true_iff in Hc. exists h. split; [|done]. cbn in *. apply list_elem_of_In in Hin.
    clear Hc. induction st as [|[k' h'] st IH]; [by apply elem_of_nil in Hin|].
    apply NoDup_cons in Hnd as [Hk Hnd]. cbn. apply elem_of_cons in Hin as [[= <- <-]|Hin].
    + by rewrite String.eqb_refl.
    + destruct (String.eqb_spec k k') as [-> |]; [|by apply IH]. exfalso. apply Hk.
      apply list_elem_of_fmap. by exists (k', h).
  - intros (h & Hh & Hc). exists (t, h). split; [done|].
    apply list_elem_of_In, List.filter_In. split; [by apply list_elem_of_In, dget_in|]. cbn. by rewrite Hc.
Qed.

(** The reply of a wait that finds a finished task. *)
Lemma wait_finished ids steps now st t : first_such (is_done (ends steps st)) (watched ids st) = Some t →
  get (wait ids steps now st).1 "task_id" = PStr t ∧
  (wait ids steps now st).2 = update (ends steps st) t set_consumed.
Proof.
  intros Hf. unfold wait. destruct (watched ids st) as [|w ws]; [done|]. rewrite Hf.
  pose proof (result_no_wait t now (update (ends steps st) t set_consumed)) as Hr.
  by destruct (get_result _ _ _ _ _).
Qed.

Lemma surfaced_cases steps now st :
  surfaced (EWait None steps now) st = [] ∨
  ∃ t, surfaced (EWait None steps now) st = [t] ∧ t ∈ watched None st ∧
    step (EWait None steps now) st = update (ends steps st) t set_consumed.
Proof.
  destruct (first_such (is_done (ends steps st)) (watched None st)) as [t|] eqn:E.
  - right. exists t. cbn [surfaced step]. destruct (wait_finished None steps now st t E) as [-> ->].
    split; [done|]. split; [|done]. by apply first_such_Some in E as [? _].
  - left. cbn [surfaced]. unfold wait. destruct (watched None st); [done|]. by rewrite E.
Qed.

Lemma step_keys e st : NoDup (keys st) → NoDup (keys (step e st)).
Proof.
  assert (∀ steps s, NoDup (keys s) → NoDup (keys (ends steps s))) as Hends.
  { intros steps. unfold ends. induction steps as [|[k t] steps IH]; intros s Hs; [done|]. cbn [fold_left].
    apply IH. unfold finish. by rewrite keys_update. }
  intros Hnd. destruct e as [fresh g p n now|tid t|ids steps now|tid w steps now|tid]; cbn [step].
  - by apply NoDup_keys_dset.
  - unfold finish. by rewrite keys_update.
  - destruct (wait_state ids steps now st) as [-> |[-> |[t ->]]]; rewrite ?keys_update; auto.
  - destruct (result_state tid w steps now st) as [-> | ->]; auto.
  - rewrite cancel_entries. destruct (dhas st tid); [|done].
    by rewrite (keys_map_entries (λ k h, if (k =? tid)%string || is_child tid h then set_cancelled h else h)).
Qed.

Lemma consumed_never_again es st t :
  NoDup (keys st) → fresh_ids es st → is_consumed st t → t ∉ (trace es st).1.
Proof.
  revert st. induction es as [|e es IH]; intros st Hnd Hf Hc; cbn [trace]; [by intros ?%elem_of_nil|].
  destruct Hf as [Hfe Hf]. pose proof (IH (step e st) (step_keys e st Hnd) Hf (step_consumed e st t Hc Hfe)) as Hrest.
  destruct (trace es (step e st)) as [l st']. cbn [fst] in *. rewrite not_elem_of_app. split; [|done].
  destruct e as [| |[ids|] steps now| |]; try by intros ?%elem_of_nil.
  destruct (surfaced_cases steps now st) as [-> |(t' & -> & Hw & _)]; [by intros ?%elem_of_nil|].
  intros ->%list_elem_of_singleton. apply elem_watched in Hw as (h & Hh & Hcons); [|done].
  destruct Hc as (h' & Hh' & Hc'). congruence.
Qed.

(** Waits for any task hand each finished sub-agent to the model at most once, whatever
    registrations, endings, waits, queries and cancellations are interleaved. *)
Theorem surfaced_once es st : NoDup (keys st) → fresh_ids es st → NoDup (trace es st).1.
Proof.
  revert st. induction es as [|e es IH]; intros st Hnd Hf; cbn [trace]; [constructor|].
  destruct Hf as [Hfe Hf]. pose proof (IH (step e st) (step_keys e st Hnd) Hf) as Hrest.
  pose proof (consumed_never_again es (step e st)) as Hnever.
  destruct (trace es (step e st)) as [l st']. cbn [fst] in *. apply NoDup_app.
  destruct e as [| |[ids|] steps now| |]; try (split; [constructor|]; split; [by intros ? ?%elem_of_nil|done]).
  destruct (surfaced_cases steps now st) as [-> |(t & -> & Hw & Hstep)].
  { split; [constructor|]. split; [by intros ? ?%elem_of_nil|done]. }
  split; [apply NoDup_singleton|]. split; [|done]. intros x ->%list_elem_of_singleton.
  apply Hnever; [by apply step_keys|done|]. rewrite Hstep.
  apply elem_watched in Hw as (h & Hh & _); [|done].
  destruct (ends_step steps st t h Hh) as (h1 & H1 & _). unfold is_consumed.
  rewrite dget_update, H1, String.eqb_refl. cbn. by eexists.
Qed.

(** ** Draining *)

Lemma dget_notin_consumed t (st : registry) : t ∉ keys st → update st t set_consumed = st.
Proof.
  intros Ht. unfold update. rewrite <- (map_id st) at 2. apply map_ext_in. intros [k h] Hin. cbn.
  destruct (String.eqb_spec k t) as [-> |]; [|done]. exfalso. apply Ht. apply list_elem_of_fmap.
  exists (t, h). split; [done|]. by apply list_elem_of_In.
Qed.

(** Consuming the first pending handle leaves the others pending, in order. *)
Lemma watched_consume st t ts : NoDup (keys st) → watched None st = t :: ts →
  watched None (update st t set_consumed) = ts.
Proof.
  unfold watched. induction st as [|[k h] st IH]; [done|]. intros [Hk Hnd]%NoDup_cons.
  change (update ((k, h) :: st) t set_consumed)
    with ((if (k =? t)%string then (k, set_consumed h) else (k, h)) :: update st t set_consumed).
  cbn [List.filter snd]. destruct (consumed h) eqn:Ec; cbn [negb map fst].
  - intros Hw. destruct (String.eqb_spec k t) as [-> |Hne]; cbn [List.filter snd consumed set_consumed negb].
    + exfalso. apply Hk. apply list_elem_of_fmap.
      assert (t ∈ watched None st) as Hin by (unfold watched; rewrite Hw; apply elem_of_cons; by left).
      apply elem_watched in Hin as (h' & Hh' & _); [|done]. exists (t, h'). split; [done|]. by apply dget_in.
    + rewrite Ec. cbn [negb]. by apply IH.
  - intros [= -> <-]. rewrite String.eqb_refl. cbn [List.filter snd consumed set_consumed negb].
    by rewrite dget_notin_consumed.
Qed.

Lemma is_done_consume st t k : is_done (update st t set_consumed) k = is_done st k.
Proof.
  unfold is_done. rewrite dget_update. destruct (dget st k) as [h|]; [|done]. cbn. by destruct (k =? t)%string.
Qed.

Lemma step_drain st t ts now : NoDup (keys st) → watched None st = t :: ts → is_done st t = true →
  surfaced (EWait None [] now) st = [t] ∧ step (EWait None [] now) st = update st t set_consumed.
Proof.
  intros Hnd Hw Hd. cbn [surfaced step].
  destruct (wait_finished None [] now st t) as [-> ->]; [|done].
  rewrite Hw. cbn. by rewrite Hd.
Qed.

(** When every pending sub-agent has finished, successive waits hand them over in the order
    they were registered; the wait after the last one reports that nothing is active. *)
Theorem fleet_drains st now : NoDup (keys st) →
  (∀ t, t ∈ watched None st → is_done st t = true) →
  let '(out, st') := trace (replicate (length (watched None st)) (EWait None [] now)) st in
  out = watched None st ∧ get (wait None [] now st').1 "status" = PStr "no_active_tasks".
Proof.
  remember (watched None st) as ws eqn:Hw. symmetry in Hw. revert st Hw.
  induction ws as [|t ts IH]; intros st Hw Hnd Hdone; cbn [length replicate trace].
  - split; [done|]. unfold wait. by rewrite Hw.
  - destruct (step_drain st t ts now Hnd Hw) as [-> Hst]; [apply Hdone, elem_of_cons; by left|]. rewrite Hst.
    pose proof (IH (update st t set_consumed) (watched_consume st t ts Hnd Hw)) as IHs.
    destruct (trace _ _) as [out st']. destruct IHs as [-> ?]; [by rewrite keys_update| |done].
    intros k Hk. rewrite is_done_consume. apply Hdone, elem_of_cons. by right.
Qed.

(** ** Results *)

(** Whether a trace cancels a task, directly or as a child. *)
Fixpoint hit_along (es : list event) (tid : string) (st : registry) : bool :=
  match es with
  | [] => false
  | e :: es' =>
      match dget st tid with Some h => hits e tid h st | None => false end || hit_along es' tid (step e st)
  end.

Lemma trace_handle es st tid h : dget st tid = Some h → fresh_ids es st →
  ∃ h', dget (trace es st).2 tid = Some h' ∧ evolves h h' ∧
    cancelled_explicitly h' = cancelled_explicitly h || hit_along es tid st.
Proof.
  revert st h. induction es as [|e es IH]; intros st h Hh Hf; cbn [trace hit_along].
  - exists h. by rewrite orb_false_r.
  - destruct Hf as [Hfe Hf]. destruct (step_handle e st tid h Hh Hfe) as (h1 & H1 & E1 & C1).
    destruct (IH _ h1 H1 Hf) as (h2 & H2 & E2 & C2). destruct (trace es (step e st)) as [l st'].
    exists h2. split; [done|]. split; [by etrans|]. rewrite C2, C1, Hh. by rewrite orb_assoc.
Qed.

(** The result of a finished sub-agent can be fetched again and again, with or without
    waiting and whatever else happens; a cancellation of it, or of the task that spawned it,
    replaces the result by the word cancelled for good, even one that had completed. *)
Theorem result_until_cancelled es st tid h w steps now :
  dget st tid = Some h → done (h_task h) = true → fresh_ids es st →
  (get_result tid w steps now (trace es st).2).1 =
    if hit_along es tid st then status_reply "cancelled" tid else final_reply tid h.
Proof.
  intros Hh Hd Hf. destruct (trace_handle es st tid h Hh Hf) as (h' & H' & (_&_&_&Ht&_) & Hc).
  specialize (Ht Hd). unfold get_result. rewrite H', Ht, Hd. cbn [fst]. unfold final_reply.
  rewrite Hc, Ht. destruct (hit_along es tid st); [by rewrite orb_true_r|by rewrite orb_false_r].
Qed.

(** ** Instances *)

Definition fleet : list event :=
  [ERegister "p" "plan" None None 0%Q; ERegister "a" "read" (Some "p") (Some "reader") 0%Q;
   ERegister "b" "write" (Some "p") None 0%Q; EEnd "b" (Returned (PStr "written"));
   EWait None [("a", Raised "boom")] 1%Q; EEnd "p" (Returned (PStr "planned"));
   EWait None [] 2%Q; EResult "b" true [] 2%Q; EWait None [] 3%Q; EWait None [] 3%Q].

Example fleet_order : (trace fleet []).1 = ["a"; "p"; "b"].
Proof. reflexivity. Qed.

Lemma surfaced_once_witness : NoDup (trace fleet []).1.
Proof.
  apply (surfaced_once fleet []); [constructor|].
  cbn; repeat split; apply (bool_decide_unpack _); vm_compute; exact I.
Defined.

Lemma fleet_drains_witness :
  let st := (trace [ERegister "a" "read" None None 0%Q; ERegister "b" "write" None None 0%Q;
                    EEnd "b" (Returned (PStr "written")); EEnd "a" (Raised "boom")] []).2 in
  let '(out, st') := trace (replicate (length (watched None st)) (EWait None [] 1%Q)) st in
  out = watched None st ∧ get (wait None [] 1%Q st').1 "status" = PStr "no_active_tasks".
Proof.
  intros st. apply (fleet_drains st 1%Q).
  - apply (bool_decide_unpack _). vm_compute. exact I.
  - intros t Ht. apply elem_of_cons in Ht as [-> |Ht]; [reflexivity|].
    apply elem_of_cons in Ht as [-> |Ht]; [reflexivity|]. by apply elem_of_nil in Ht.
Defined.

Lemma result_until_cancelled_witness :
  let st := (trace fleet []).2 in
  (get_result "b" false [] 4%Q (trace [ECancel "a"] st).2).1 =
    [("status", PStr "completed"); ("task_id", PStr "b"); ("result", PStr "written")] ∧
  (get_result "b" false [] 4%Q (trace [ECancel "a"; ECancel "p"] st).2).1 = status_reply "cancelled" "b".
Proof.
  intros st. split.
  - apply (result_until_cancelled [ECancel "a"] st "b"
      (Handle "b" "write" (Returned (PStr "written")) 0%Q (Some "p") false None true) false [] 4%Q);
      [reflexivity..|]. cbn. tauto.
  - apply (result_until_cancelled [ECancel "a"; ECancel "p"] st "b"
      (Handle "b" "write" (Returned (PStr "written")) 0%Q (Some "p") false None true) false [] 4%Q);
      [reflexivity..|]. cbn. tauto.
Defined.
