(* ===== verification/Commands.v ===== *)
(** * Slash commands: [commands/__init__.py] and [commands/dispatcher.py]

    A user turn that begins with a slash is taken before the model runs: a built-in
    command answers it, the name of a bound skill rewrites it, anything else passes. The
    commands act on the session's state through the components they belong to. What the
    memory review, the skill reload and the sandbox upgrade return is an argument. *)

From S2P Require Import Prelude PyStr Names RegexFacts PyVal Sorting Overlay Environ.
From S2P Require Import PermissionRules PolicyGrants Policies OutputOverflow.
From S2P Require Import RoutineStore RoutineTool WorkspaceWindow Models.

(** ** The request *)

(** A message: its role, and the text of each of its parts. *)
Record content := Content { c_role : option string; c_texts : list (option string) }.

Definition filled_text (t : option string) : option string :=
  match t with Some s => if (s =? "")%string then None else Some s | None => None end.
Definition is_user (c : content) : bool :=
  match c_role c with Some r => (r =? "user")%string | None => false end.

(** The loops over the messages from the last, and over the parts of the user's. *)
Definition user_text (c : content) : option string :=
  if is_user c then first_some filled_text (c_texts c) else None.
Definition _last_user_text (contents : list content) : option string :=
  first_some user_text (rev contents).

(** The first part with a text gets the new one. *)
Fixpoint rewrite_parts (new_text : string) (parts : list (option string)) : list (option string) :=
  match parts with
  | [] => []
  | p :: rest => match filled_text p with
                 | Some _ => Some new_text :: rest
                 | None => p :: rewrite_parts new_text rest
                 end
  end.
Fixpoint rewrite_first (new_text : string) (reversed : list content) : list content :=
  match reversed with
  | [] => []
  | c :: rest => match user_text c with
                 | Some _ => Content (c_role c) (rewrite_parts new_text (c_texts c)) :: rest
                 | None => c :: rewrite_first new_text rest
                 end
  end.
Definition _rewrite_last_user_text (contents : list content) (new_text : string) : list content :=
  rev (rewrite_first new_text (rev contents)).

(** ** The commands *)

Definition middot : string := s1 "183".

(** The grants as [/grant] lists them. *)
Fixpoint grant_lines `{PyFloat} (i : nat) (grants : list pyval) : res (list string) :=
  match grants with
  | [] => Ok []
  | PDict g :: rest =>
      let! lines := grant_lines (S i) rest in
      Ok (("  [" +:+ str_of_nat i +:+ "] " +:+ py_str (default (PStr "?") (dget g "tool_name"))
           +:+ " " +:+ py_str (default (PDict []) (dget g "signature"))) :: lines)
  | _ :: _ => Raise (AttributeError "get")
  end.

Definition grant_listing `{PyFloat} (state : session) : res string :=
  let grants := match state with Some d => get d POLICY_GRANTS_STATE_KEY | None => PNone end in
  if negb (truthy grants) then Ok "no active grants"
  else match grants with
       | PList l =>
           let! lines := grant_lines 0 l in
           Ok (join NLs ((str_of_nat (length l) +:+ " active grant(s):") :: lines))
       | PDict _ | PStr _ => Raise (AttributeError "get")
       | _ => Raise (TypeError "object has no len()")
       end.

Definition _grant_signature (key command : string) : pyval := PDict [(key, PStr command)].

(** [/grant]: a grant per shape in which a command reaches the shell. *)
Definition cmd_grant `{PyFloat} (args : string) (state : session) : res string * session :=
  let command := strip args in
  if (command =? "")%string then (grant_listing state, state)
  else match state with
       | None => (Raise (ValueError "tool_context.state is required"), state)
       | Some d =>
           match policy_grant "grant" (Some BASH) (_grant_signature "command" command) None d with
           | Raise e => (Raise e, state)
           | Ok (result, d1) =>
               if negb (truthy (get result "granted"))
               then (Ok ("/grant failed: " +:+ py_str (default (PStr "unknown") (dget result "error"))), Some d1)
               else
                 match policy_grant "grant" (Some PROCESS) (_grant_signature "command" command) None d1 with
                 | Raise e => (Raise e, Some d1)
                 | Ok (_, d2) =>
                     match policy_grant "grant" (Some PROCESS) (_grant_signature "data" command) None d2 with
                     | Raise e => (Raise e, Some d2)
                     | Ok (_, d3) =>
                         (Ok (if truthy (get result "duplicate")
                              then "grant for command=" +:+ repr_str command +:+ " already active"
                              else "granted command=" +:+ repr_str command +:+ " for this session"),
                          Some d3)
                     end
                 end
           end
       end.

Definition cmd_yolo (state : session) : string * session :=
  match state with
  | None => ("/yolo: no session state available", None)
  | Some d =>
      let current := default (PStr "default") (dget d APPROVAL_MODE_STATE_KEY) in
      let yolo := negb (py_eq current (PStr "yolo")) in
      ((if yolo
        then "Approval mode: YOLO " +:+ em_dash +:+ " risky commands auto-approved this session. "
             +:+ "Catastrophic and secret-exfil blocks still apply."
        else "Approval mode: default " +:+ em_dash
             +:+ " interactive approval required for risky commands."),
       Some (dset d APPROVAL_MODE_STATE_KEY (PStr (if yolo then "yolo" else "default"))))
  end.

(** [state if isinstance(state, dict) else None] *)
Definition if_dict (is_dict : bool) (state : session) : session := if is_dict then state else None.

Definition available_models : string := join ", " (sort_by str_leb MODEL_REGISTRY).

Definition cmd_model (environ : environment_vars) (is_dict : bool) (args : string) (state : session) :
    res string * session :=
  let name := strip args in
  if (name =? "")%string then
    (let! current := _resolve environ (if_dict is_dict state) in
     Ok ("current: " +:+ current +:+ NLs +:+ "available: " +:+ available_models), state)
  else if negb (mem name MODEL_REGISTRY) then
    (Ok ("unknown model " +:+ repr_str name +:+ "; available: " +:+ available_models), state)
  else match state with
       | None => (Ok ("/model " +:+ name +:+ ": no session state available"), None)
       | Some d => (Ok ("model set to " +:+ name +:+ " for this session"),
                    Some (dset d SELECTED_MODEL_STATE_KEY (PStr name)))
       end.

(** [is_directory]: the directories of the host. *)
Definition cmd_workspace `{Resolve} (is_directory : string → bool) (e : option env) (is_dict : bool)
    (args : string) (state : session) : res string * session :=
  let arg := strip args in
  if (arg =? "")%string then
    (let! current := window_dirs (if_dict is_dict state) in
     Ok (match current with
         | [] => "workspace focus: (whole workspace) " +:+ em_dash +:+ " set one with /workspace <subdir>"
         | _ => "workspace focus: " +:+ join ", " current
         end), state)
  else match state with
       | None => (Ok "/workspace: no session state available", None)
       | Some d =>
           if mem arg ["/"; "--all"] then
             (Ok ("workspace focus cleared " +:+ em_dash +:+ " now spanning the whole workspace"),
              Some (dset d WORKSPACE_WINDOW_STATE_KEY (PList [])))
           else
             let rel := strip_slashes arg in
             match e with
             | None => (Raise (RuntimeError "no active environment"), state)
             | Some e =>
                 match (match e_working_dir e with
                        | Some wd => path_under_root rel (resolve wd)
                        | None => Raise (AttributeError "resolve") end) with
                 | Ok resolved =>
                     if is_directory resolved
                     then (Ok ("workspace focus set to " +:+ rel +:+ "/ for this session"),
                           Some (dset d WORKSPACE_WINDOW_STATE_KEY (PList [PStr rel])))
                     else (Ok ("/workspace: directory not found: " +:+ arg), state)
                 | Raise (ValueError _) => (Ok ("/workspace: directory not found: " +:+ arg), state)
                 | Raise x => (Raise x, state)
                 end
             end
       end.

Fixpoint grant_bullets `{PyFloat} (grants : list pyval) : res (list string) :=
  match grants with
  | [] => Ok []
  | PDict g :: rest =>
      let target := let p := get g "commandPrefix" in if truthy p then p else get g "toolName" in
      let! lines := grant_bullets rest in
      Ok (("  " +:+ middot +:+ " " +:+ py_str (get g "toolName") +:+ " " +:+ py_str target) :: lines)
  | _ :: _ => Raise (AttributeError "get")
  end.

Definition cmd_permissions `{PyFloat} (c : rules_cache) (f : fs) (e : option env)
    (args : string) (state : session) : res string * session * rules_cache :=
  if (lower (strip args) =? "clear")%string
  then (Ok "session permission grants cleared", (write_session_grants state []).2, c)
  else
    let grants := read_session_grants state in
    let '(loaded, c') := match e with
                         | None => (Ok [], c)
                         | Some _ => load_persisted_rules c f e end in
    let reply :=
      let! persisted := match loaded with
                        | Raise (RuntimeError _) => Ok []
                        | other => other end in
      let! bullets := grant_bullets grants in
      Ok (join NLs
            ((match grants with
              | [] => ["no session permission grants"]
              | _ => (str_of_nat (length grants) +:+ " session grant(s):") :: bullets
              end)
             ++ [str_of_nat (length persisted) +:+ " persisted rule(s) in .lha/permissions.jsonl";
                 "use `/permissions clear` to drop session grants"])) in
    (reply, state, c').

(** [args.strip().split(maxsplit=1)] *)
Definition split_once_ws (s : string) : list string :=
  let s := strip s in
  if (s =? "")%string then []
  else let '(head, rest) := span (λ c, negb (is_space c)) s in
       let rest := lstrip is_space rest in
       if (rest =? "")%string then [head] else [head; rest].

Definition routine_line (r : RoutineRow) : string :=
  "- " +:+ id r +:+ "  (" +:+ schedule r +:+ ")  next: " +:+ isoformat (next_fire_at r).

Definition cmd_routines {St} `{StoreOps St} (user : option string) (args : string) (s : St) :
    res string * St :=
  let user_id := default "" user in
  let list_all :=
    let '(rows, s') := s_list_for_user user_id s in
    (let! rows := rows in
     Ok (match rows with
         | [] => "No routines scheduled."
         | _ => "Scheduled routines:" +:+ NLs +:+ join NLs (map routine_line rows)
         end), s') in
  match split_once_ws args with
  | sub :: arg :: _ =>
      if (lower sub =? "remove")%string then
        let '(ok, s') := s_cancel (strip arg) user_id s in
        (let! ok := ok in
         Ok (if ok then "Removed routine '" +:+ strip arg +:+ "'." else "No such routine."), s')
      else list_all
  | _ => list_all
  end.

(** [dream-review], from what [_run_dream_review_for_user] returned; [None]: no
    invocation. *)
Definition cmd_dream_review `{PyFloat} (result : option (res pydict)) : res string :=
  match result with
  | None => Ok "/dream-review: no active invocation context"
  | Some r =>
      let! result := r in
      Ok (if truthy (get result "success")
          then "dream-review done " +:+ em_dash +:+ " profile consolidated from "
               +:+ py_str (default (PInt 0) (dget result "sessions_reviewed")) +:+ " session(s)"
          else "dream-review skipped: " +:+ py_str (default (PStr "unknown") (dget result "reason")))
  end.

(** The difference a reload of the skills made. *)
Record skill_diff := Diff { loaded : list string; removed : list string; skills_total : nat }.

Definition BOUND_SKILLS_STATE_KEY : string := "bound_skills".

(** [reload]: the difference [resync_and_refresh] reports, [None] when no toolset is
    bound; the catalog it leaves goes into the state. *)
Definition cmd_reload (diff : res (option skill_diff)) (catalog : list pyval) (state : session) :
    res string * session :=
  match diff with
  | Raise e => (Raise e, state)
  | Ok None => (Ok "/reload: no skill toolset bound", state)
  | Ok (Some d) =>
      (Ok ("reloaded " +:+ middot +:+ " "
           +:+ join (" " +:+ middot +:+ " ")
                 (("skills: " +:+ str_of_nat (skills_total d))
                  :: (match loaded d with [] => [] | l => ["+" +:+ join ", " l] end)
                  ++ (match removed d with [] => [] | l => ["-" +:+ join ", " l] end))),
       match state with
       | Some s => Some (dset s BOUND_SKILLS_STATE_KEY (PList catalog))
       | None => None
       end)
  end.

(** [sandbox-upgrade], from what [upgrade_user_sandbox] returns for a user. *)
Definition cmd_sandbox_upgrade `{PyFloat} (user : option string) (upgrade : string → res pydict) : res string :=
  match filled_text user with
  | None => Ok "/sandbox-upgrade: no user context"
  | Some u =>
      let! result := upgrade u in
      let status := get result "status" in
      let version := py_str (default (PStr "?") (dget result "version")) in
      Ok (if py_eq status (PStr "upgraded")
          then "sandbox upgraded to " +:+ version +:+ " " +:+ middot +:+ " /workspace migrated"
          else if py_eq status (PStr "already_current")
          then "already on " +:+ version +:+ " " +:+ em_dash +:+ " nothing to upgrade"
          else if py_eq status (PStr "no_sandbox")
          then "no sandbox to upgrade yet " +:+ em_dash +:+ " one provisions on your next session"
          else "/sandbox-upgrade unavailable: "
               +:+ py_str (default (PStr "sandbox backend off") (dget result "reason")))
  end.

(** ** The dispatcher *)

(** What the commands see around them. *)
Record surroundings := Surroundings {
  s_environ : environment_vars;
  s_is_dict : bool;
  s_env : option env;
  s_fs : fs;
  s_directory : string → bool;
  s_user : option string;
  s_dream : option (res pydict);
  s_upgrade : string → res pydict;
  s_diff : res (option skill_diff);
  s_catalog : list pyval;
  s_skills : list string
}.

Record cmd_state (St : Type) := CmdState {
  cs_session : session; cs_cache : rules_cache; cs_store : St
}.
Arguments CmdState {St}. Arguments cs_session {St}. Arguments cs_cache {St}. Arguments cs_store {St}.

Section Dispatch.
Context `{PyFloat} `{Resolve} {St : Type} `{StoreOps St} (around : surroundings).

Definition on_session {A} (w : cmd_state St) (r : A * session) : A * cmd_state St :=
  (r.1, CmdState r.2 (cs_cache w) (cs_store w)).

(** [BUILTIN_COMMAND_REGISTRY.get(cmd)], applied. *)
Definition builtin (cmd args : string) (w : cmd_state St) : option (res string * cmd_state St) :=
  let state := cs_session w in
  if (cmd =? "dream-review")%string then Some (cmd_dream_review (s_dream around), w)
  else if (cmd =? "reload")%string then
    Some (on_session w (cmd_reload (s_diff around) (s_catalog around) state))
  else if (cmd =? "model")%string then
    Some (on_session w (cmd_model (s_environ around) (s_is_dict around) args state))
  else if (cmd =? "workspace")%string then
    Some (on_session w (cmd_workspace (s_directory around) (s_env around) (s_is_dict around) args state))
  else if (cmd =? "sandbox-upgrade")%string then
    Some (cmd_sandbox_upgrade (s_user around) (s_upgrade around), w)
  else if (cmd =? "grant")%string then Some (on_session w (cmd_grant args state))
  else if (cmd =? "permissions")%string then
    let '(r, st, c) := cmd_permissions (cs_cache w) (s_fs around) (s_env around) args state in
    Some (r, CmdState st c (cs_store w))
  else if (cmd =? "routines")%string then
    let '(r, s') := cmd_routines (s_user around) args (cs_store w) in
    Some (r, CmdState state (cs_cache w) s')
  else if (cmd =? "yolo")%string then
    Some (on_session w (let '(r, st) := cmd_yolo state in (Ok r, st)))
  else None.

(** [text[1:].partition(" ")] *)
Definition split_command (text : string) : string * string :=
  let body := sdrop 1 text in
  match partition_at SP body with Some (cmd, rest) => (cmd, rest) | None => (body, "") end.

(** The reply that ends the turn, or [None] and the model runs on the request. *)
Definition _dispatch (contents : list content) (w : cmd_state St) :
    option string * list content * cmd_state St :=
  match _last_user_text contents with
  | None => (None, contents, w)
  | Some text =>
      if negb (startswith "/" text) then (None, contents, w)
      else
        let '(cmd, rest) := split_command text in
        match builtin cmd rest w with
        | Some (Ok reply, w') => (Some reply, contents, w')
        | Some (Raise _, w') => (Some ("[/" +:+ cmd +:+ " failed; see server logs]"), contents, w')
        | None =>
            if mem cmd (s_skills around)
            then (None, _rewrite_last_user_text contents
                          (strip ("Use the " +:+ cmd +:+ " skill. " +:+ rest)), w)
            else (None, contents, w)
        end
  end.
End Dispatch.

(** * Facts *)

(** ** Grants *)

Lemma exempt_iff d t a :
  exempt (Some d) t (PDict a) = true ↔
  ∃ g, g ∈ _active_grants d ∧ grant_matches g t (PDict a) = true.
Proof.
  unfold exempt. destruct (find_matching_grant d t (PDict a)) as [g|] eqn:E; split; try done.
  - intros _. unfold find_matching_grant in E. apply first_such_Some in E as [? ?]. by exists g.
  - intros (g & Hin & Hm). destruct (find_grant_in d t (PDict a) g Hin Hm) as [g' Hg]. congruence.
Qed.

(** A grant with one entry matches the calls of its tool that carry it. *)
Lemma single_matches g t0 k c t a :
  get g "tool_name" = PStr t0 → get g "signature" = PDict [(k, PStr c)] →
  grant_matches g t (PDict a) = true ↔ t = t0 ∧ get a k = PStr c.
Proof.
  intros Ht Hs. unfold grant_matches. rewrite matches_by_spec, Ht, Hs. split.
  - intros ([= ->] & sg & [= <-] & _ & Hv). split; [done|]. apply py_eq_str, Hv. left.
  - intros [-> Hv]. split; [done|]. eexists. split; [done|]. split; [done|].
    intros k' v [= -> ->]%list_elem_of_singleton. by apply py_eq_str.
Qed.

Lemma single_signature g k c :
  py_eq (get g "signature") (PDict [(k, PStr c)]) = true → get g "signature" = PDict [(k, PStr c)].
Proof.
  destruct (get g "signature") as [| | | | | |e]; try done. intros E.
  apply py_eq_dict in E as (e' & [= <-] & Hl & He). destruct e as [|[k0 x] [|]]; try done.
  destruct (He k0 x) as (y & Hy & Hxy); [left|]. cbn in Hy.
  destruct (String.eqb_spec k0 k) as [->|]; [|done]. injection Hy as <-.
  apply py_eq_str in Hxy as ->. done.
Qed.

(** A successful grant of one entry widens the exemptions by exactly what it matches. *)
Lemma grant_widens t0 k c d r d' :
  policy_grant "grant" (Some t0) (_grant_signature k c) None d = Ok (r, d') →
  truthy (get r "granted") = true →
  ∀ t a, exempt (Some d') t (PDict a) = true ↔
    exempt (Some d) t (PDict a) = true ∨ t = t0 ∧ get a k = PStr c.
Proof.
  unfold policy_grant. change ("grant" =? "grant")%string with true. cbn iota.
  unfold _grant_signature, _grant. destruct (t0 =? "")%string; [by intros [= <- <-]|].
  cbn [forallb str_item snd andb].
  destruct (find_duplicate t0 _ _) as [[g|]|] eqn:Ed; cbn [res_bind]; [| |done].
  - intros [= <- <-] _ t a. apply find_duplicate_some in Ed as (Hin & Ht & Hs%single_signature).
    split; [by left|]. intros [?|Hm]; [done|]. apply exempt_iff. exists g.
    unfold stored_grants in Hin.
    destruct (get d POLICY_GRANTS_STATE_KEY) as [| | | | |gs|] eqn:Eg; cbn in Hin;
      try (by apply elem_of_nil in Hin).
    split; [by eapply elem_active|]. by apply (single_matches g t0 k c).
  - intros [= <- <-] _ t a. rewrite !exempt_iff, active_grants_set.
    assert (omap is_dict (default [] (stored_grants d)) = _active_grants d) as Ha.
    { unfold stored_grants, _active_grants. by destruct (get d POLICY_GRANTS_STATE_KEY). }
    rewrite omap_app, Ha. set (new := [("tool_name", PStr t0); ("signature", PDict [(k, PStr c)])]).
    assert (grant_matches new t (PDict a) = true ↔ t = t0 ∧ get a k = PStr c) as Hnew
      by (by apply single_matches).
    setoid_rewrite elem_of_app. cbn [omap list_omap is_dict]. setoid_rewrite list_elem_of_singleton.
    rewrite <- Hnew. naive_solver.
Qed.

(** [/grant] exempts from the policies exactly the calls it names, on top of those
    already exempt: [bash] with that command, and [process] with the command as its
    [command] or as its [data]. Each of the last two holds whatever the other arguments
    of the call are. *)
Theorem grant_exempts_exactly `{PyFloat} args d reply d' command :
  strip args = command → command ≠ "" →
  cmd_grant args (Some d) = (Ok reply, Some d') →
  (∀ m, reply ≠ "/grant failed: " +:+ m) →
  ∀ t a, exempt (Some d') t (PDict a) = true ↔
    exempt (Some d) t (PDict a) = true ∨
    t = BASH ∧ get a "command" = PStr command ∨
    t = PROCESS ∧ (get a "command" = PStr command ∨ get a "data" = PStr command).
Proof.
  intros Hs Hc. unfold cmd_grant. rewrite Hs. apply String.eqb_neq in Hc. rewrite Hc.
  destruct (policy_grant "grant" (Some BASH) _ None d) as [[r1 d1]|] eqn:E1; [|done].
  destruct (truthy (get r1 "granted")) eqn:T1; cbn [negb].
  2: { intros [= <- <-] Hm. exfalso. by eapply Hm. }
  destruct (policy_grant "grant" (Some PROCESS) (_grant_signature "command" command) None d1)
    as [[r2 d2]|] eqn:E2; [|done].
  destruct (policy_grant "grant" (Some PROCESS) (_grant_signature "data" command) None d2)
    as [[r3 d3]|] eqn:E3; [|done].
  intros [= _ <-] _ t a.
  assert (∀ k0 x r0 y, policy_grant "grant" (Some PROCESS) (_grant_signature k0 command) None x = Ok (r0, y) →
    truthy (get r0 "granted") = true) as Hgr.
  { intros k0 x r0 y. unfold policy_grant. change ("grant" =? "grant")%string with true. cbn iota.
    unfold _grant_signature, _grant. cbn [forallb str_item snd andb].
    change (PROCESS =? "")%string with false. cbn iota.
    destruct (find_duplicate _ _ _) as [[g|]|]; cbn [res_bind]; try done; by intros [= <- <-]. }
  rewrite (grant_widens _ _ _ _ _ _ E3 (Hgr _ _ _ _ E3)), (grant_widens _ _ _ _ _ _ E2 (Hgr _ _ _ _ E2)),
    (grant_widens _ _ _ _ _ _ E1 T1).
  tauto.
Qed.

(** ** Modes, models, focus *)

(** [/yolo] switches the mode the permission guard reads, and switching twice from the
    default comes back to it. *)
Lemma yolo_switches d :
  (cmd_yolo (Some d)).2 = Some (dset d APPROVAL_MODE_STATE_KEY
    (PStr (if py_eq (default (PStr "default") (dget d APPROVAL_MODE_STATE_KEY)) (PStr "yolo")
           then "default" else "yolo"))) ∧
  read_approval_mode (cmd_yolo (Some d)).2 =
    Ok (if py_eq (default (PStr "default") (dget d APPROVAL_MODE_STATE_KEY)) (PStr "yolo")
        then "default" else "yolo").
Proof.
  unfold cmd_yolo. cbn [snd]. set (y := py_eq _ _). split; [by destruct y|].
  unfold read_approval_mode, get. rewrite dget_dset_eq. by destruct y.
Qed.

Lemma yolo_twice d :
  dget d APPROVAL_MODE_STATE_KEY = None →
  read_approval_mode (cmd_yolo (cmd_yolo (Some d)).2).2 = Ok "default".
Proof.
  intros E. destruct (yolo_switches d) as [-> _].
  destruct (yolo_switches (dset d APPROVAL_MODE_STATE_KEY
    (PStr (if py_eq (default (PStr "default") (dget d APPROVAL_MODE_STATE_KEY)) (PStr "yolo")
           then "default" else "yolo")))) as [_ ->].
  rewrite dget_dset_eq, E. done.
Qed.

Lemma sdget_nonempty (d : pydict) k v : dset d k v ≠ [].
Proof. destruct d as [|[k' v'] d]; cbn; [done|]. by destruct (k =? k')%string. Qed.

(** A model chosen with [/model] is the one the session's turns run on from then on. The
    command's own report agrees when the state is a plain dict; when it is another kind
    of state object, the report does not look at it. *)
Theorem model_choice_sticks environ is_dict args d reply st :
  strip args ≠ "" → mem (strip args) MODEL_REGISTRY = true →
  cmd_model environ is_dict args (Some d) = (Ok reply, st) →
  reply = "model set to " +:+ strip args +:+ " for this session" ∧
  (∀ environ' cfg, ∃ cfg', select_model_callback environ' st cfg = Ok (strip args, cfg')) ∧
  (∀ environ' blank, strip blank = "" →
     (cmd_model environ' true blank st).1 =
       Ok ("current: " +:+ strip args +:+ NLs +:+ "available: " +:+ available_models) ∧
     (cmd_model environ' false blank st).1 = (cmd_model environ' false blank None).1).
Proof.
  intros Hne Hm. unfold cmd_model at 1. rewrite (proj2 (String.eqb_neq _ _) Hne), Hm. cbn [negb].
  intros [= <- <-]. split; [done|].
  assert (∀ env', _resolve env' (Some (dset d SELECTED_MODEL_STATE_KEY (PStr (strip args)))) = Ok (strip args)) as Hr.
  { intros env'. unfold _resolve. pose proof (sdget_nonempty d SELECTED_MODEL_STATE_KEY (PStr (strip args))) as Hd.
    pose proof (dget_dset_eq d SELECTED_MODEL_STATE_KEY (PStr (strip args))) as Hg.
    destruct (dset d SELECTED_MODEL_STATE_KEY _) as [|kv d'] eqn:E; [done|].
    unfold get. rewrite Hg. change (default PNone (Some (PStr (strip args)))) with (PStr (strip args)).
    cbn [in_set res_bind]. by rewrite Hm. }
  split.
  - intros env' cfg. unfold select_model_callback. rewrite Hr. by eexists.
  - intros env' blank Hb. unfold cmd_model. rewrite Hb. cbn [String.eqb if_dict fst].
    change ("" =? "")%string with true. cbn iota. cbn [fst]. by rewrite Hr.
Qed.

(** ** The rewriting of a turn *)

Lemma rewrite_parts_text new_text parts t :
  first_some filled_text parts = Some t → new_text ≠ "" →
  first_some filled_text (rewrite_parts new_text parts) = Some new_text.
Proof.
  intros Ht Hn%String.eqb_neq. induction parts as [|p parts IH]; [done|]. cbn in Ht |- *.
  destruct (filled_text p) eqn:E; cbn; [by rewrite Hn|]. rewrite E. auto.
Qed.

Lemma rewrite_last contents new_text t :
  _last_user_text contents = Some t → new_text ≠ "" →
  _last_user_text (_rewrite_last_user_text contents new_text) = Some new_text.
Proof.
  unfold _last_user_text, _rewrite_last_user_text. rewrite rev_involutive.
  generalize (rev contents) as l. intros l Ht Hn. induction l as [|c l IH]; [done|].
  cbn in Ht |- *. destruct (user_text c) as [u|] eqn:E; cbn.
  - unfold user_text in *. cbn [c_role c_texts]. destruct (is_user c) eqn:Eu; [|done].
    unfold is_user in *. cbn [c_role]. rewrite Eu. by rewrite (rewrite_parts_text _ _ _ E Hn).
  - rewrite E. auto.
Qed.

(** What becomes of a turn. A reply, exactly for a built-in command, whether or not the
    command fails, and then the request is as it was; otherwise nothing but the request
    may change, and it changes only to name a bound skill the user called. *)
Theorem dispatch_spec `{PyFloat} `{Resolve} {St} `{StoreOps St} around contents (w : cmd_state St) :
  let '(reply, contents', w') := _dispatch around contents w in
  (reply ≠ None ↔ ∃ text, _last_user_text contents = Some text ∧ startswith "/" text = true ∧
     builtin around (split_command text).1 (split_command text).2 w ≠ None) ∧
  (reply ≠ None → contents' = contents) ∧
  (reply = None → w' = w ∧
     (contents' = contents ∨ ∃ text cmd rest,
        _last_user_text contents = Some text ∧ startswith "/" text = true ∧
        split_command text = (cmd, rest) ∧ cmd ∈ s_skills around ∧
        _last_user_text contents' = Some (strip ("Use the " +:+ cmd +:+ " skill. " +:+ rest)))).
Proof.
  unfold _dispatch. destruct (_last_user_text contents) as [text|] eqn:El.
  2: { split_and!; [split; [done|by intros (? & ? & _)]|done|auto]. }
  destruct (startswith "/" text) eqn:Es; cbn [negb].
  2: { split_and!; [split; [done|intros (? & [= <-] & ? & _); congruence]|done|auto]. }
  destruct (split_command text) as [cmd rest] eqn:Ec.
  destruct (builtin around cmd rest w) as [[[r|e] w1]|] eqn:Eb.
  1, 2: (split_and!; [|done|done]); split; [intros _|done]; exists text; rewrite Ec; cbn [fst snd]; rewrite Eb; done.
  assert (¬ ∃ text0, Some text = Some text0 ∧ startswith "/" text0 = true ∧
    builtin around (split_command text0).1 (split_command text0).2 w ≠ None) as Hno.
  { intros (? & [= <-] & _ & Hb). rewrite Ec in Hb. cbn [fst snd] in Hb. congruence. }
  destruct (mem cmd (s_skills around)) eqn:Em.
  2: { split_and!; [split; [done|done]|done|auto]. }
  split_and!; [split; [done|done]|done|]. intros _. split; [done|]. right. exists text, cmd, rest.
  split_and!; try done; [by apply mem_spec|].
  eapply rewrite_last; [done|]. intros E. by apply strip_empty_all in E.
Qed.

(** ** Concrete inputs *)

Definition granted_state : pydict :=
  match (cmd_grant (H:=λ _, "") "make deploy" (Some [])).2 with Some d => d | None => [] end.

Lemma grant_exempts_exactly_witness :
  let a := [("action", PStr "spawn"); ("command", PStr "make deploy")] in
  exempt (Some granted_state) PROCESS (PDict a) = true ↔
    exempt (Some []) PROCESS (PDict a) = true ∨
    PROCESS = BASH ∧ get a "command" = PStr "make deploy" ∨
    PROCESS = PROCESS ∧ (get a "command" = PStr "make deploy" ∨ get a "data" = PStr "make deploy").
Proof.
  intros a. apply (grant_exempts_exactly (H:=λ _, "") "make deploy" [] "granted command='make deploy' for this session"
    granted_state "make deploy"); [reflexivity|done|vm_compute; reflexivity|done].
Defined.

(** The exemption of a call does not depend on its other arguments: with [make deploy]
    granted, a line written to a running shell is not checked, whatever it is, as long as
    the call also carries the granted text in an argument it does not use. *)
Definition smuggled (line : string) : pyval :=
  PDict [("action", PStr "write"); ("session_id", PStr "proc_1"); ("data", PStr line);
         ("command", PStr "make deploy")].
Example grant_opens_write :
  exempt (Some granted_state) PROCESS (smuggled "dd if=/dev/zero of=/dev/sda") = true ∧
  exempt (Some []) PROCESS (smuggled "dd if=/dev/zero of=/dev/sda") = false ∧
  (policies_guard (H:=engine_re) empty_cache (FS ∅ ∅) None (Some granted_state) PROCESS
     (smuggled "dd if=/dev/zero of=/dev/sda") true).1 = Ok None ∧
  (policies_guard (H:=engine_re) empty_cache (FS ∅ ∅) None (Some []) PROCESS
     (smuggled "dd if=/dev/zero of=/dev/sda") true).1 ≠ Ok None.
Proof. vm_compute. split_and!; [reflexivity..|discriminate]. Qed.

Lemma model_choice_sticks_witness :
  let st := Some [("selected_model", PStr "gemini-3.1-pro-preview")] in
  "model set to gemini-3.1-pro-preview for this session" =
    "model set to " +:+ strip " gemini-3.1-pro-preview" +:+ " for this session" ∧
  (∀ environ' cfg, ∃ cfg', select_model_callback environ' st cfg = Ok (strip " gemini-3.1-pro-preview", cfg')) ∧
  (∀ environ' blank, strip blank = "" →
     (cmd_model environ' true blank st).1 =
       Ok ("current: " +:+ strip " gemini-3.1-pro-preview" +:+ NLs +:+ "available: " +:+ available_models) ∧
     (cmd_model environ' false blank st).1 = (cmd_model environ' false blank None).1).
Proof.
  intros st. apply (model_choice_sticks [] false " gemini-3.1-pro-preview" [] _ st);
    [vm_compute; discriminate|vm_compute; reflexivity|vm_compute; reflexivity].
Defined.
