(* ===== verification/Secrets.v ===== *)
(** * Secrets: [secrets/store.py], [secrets/dotenv.py] and the routes of [api/secrets.py]

    A user's secrets are one JSON blob, kept in Secret Manager behind a cache, or in
    memory. Secret Manager is a parameter with its laws; the two stores are shown to
    answer alike. *)

From S2P Require Import Prelude PyStr Names Regex PyVal Sorting RegexFacts JsonFacts Web HaltGuards.
From Stdlib Require Import QArith.
#[local] Open Scope nat_scope.

Definition MAX_BLOB_BYTES : nat := 64 * 1024.

Definition SecretTooLargeError (msg : string) : exc := OtherError "SecretTooLargeError" msg.

(** ** Blobs *)

(** [{name: {"value": ..., "created_at": ...}}] *)
Abbreviation blob := pydict.
Definition secret_entry (value : string) (now_ms : Z) : pyval :=
  PDict [("value", PStr value); ("created_at", PInt now_ms)].

Definition values_of (b : blob) : pydict :=
  omap (λ kv : string * pyval,
    match kv.2 with
    | PDict e => match dget e "value" with Some v => Some (kv.1, v) | None => None end
    | _ => None
    end) b.

(** [entry.get("created_at")]: an entry that is no dict has no [get]. *)
Fixpoint name_rows (items : blob) : res (list pydict) :=
  match items with
  | [] => Ok []
  | (name, PDict e) :: rest =>
      let! rows := name_rows rest in
      Ok ([("name", PStr name); ("created_at", get e "created_at")] :: rows)
  | _ :: _ => Raise (AttributeError "get")
  end.
Definition names_of (b : blob) : res (list pydict) :=
  name_rows (sort_by (λ x y, str_leb x.1 y.1) b).

Definition with_secret (b : blob) (name value : string) (now_ms : Z) : blob :=
  dset b name (secret_entry value now_ms).
Definition with_many (b : blob) (mapping : list (string * string)) (now_ms : Z) : blob :=
  fold_left (λ b kv, with_secret b kv.1 kv.2 now_ms) mapping b.

Section Sizes.
Context `{PyFloat}.
Definition blob_text (b : blob) : string := json_dumps dump_default (PDict b).
Definition too_large (b : blob) : bool := MAX_BLOB_BYTES <? slen (blob_text b).
End Sizes.

(** ** In memory *)

Section Memory.
Context `{PyFloat}.
Definition blobs : Type := list (string * blob).
Definition _blob (m : blobs) (user_id : string) : blob := default [] (dget m user_id).

(** [_guard_size], then the new blob takes the place of the old. *)
Definition mem_store (m : blobs) (user_id : string) (b : blob) : res unit * blobs :=
  if too_large b
  then (Raise (SecretTooLargeError ("secrets blob is over " +:+ str_of_nat MAX_BLOB_BYTES +:+ " bytes")), m)
  else (Ok tt, dset m user_id b).

Definition mem_get_all (m : blobs) (user_id : string) : res pydict := Ok (values_of (_blob m user_id)).
Definition mem_list_names (m : blobs) (user_id : string) : res (list pydict) := names_of (_blob m user_id).
Definition mem_set_secret (m : blobs) (user_id name value : string) (now_ms : Z) : res unit * blobs :=
  mem_store m user_id (with_secret (_blob m user_id) name value now_ms).
Definition mem_set_many (m : blobs) (user_id : string) (mapping : list (string * string)) (now_ms : Z) :
    res unit * blobs :=
  match mapping with
  | [] => (Ok tt, m)
  | _ => mem_store m user_id (with_many (_blob m user_id) mapping now_ms)
  end.
Definition mem_delete_secret (m : blobs) (user_id name : string) : res bool * blobs :=
  let b := _blob m user_id in
  if negb (dhas b name) then (Ok false, m) else (Ok true, dset m user_id (ddel b name)).
End Memory.

(** ** Secret Manager *)

(** The three calls of the client, on the state of the service. *)
Class SecretManager (W : Type) := {
  access_secret_version : string → W → res string * W;
  create_secret : string → string → W → res unit * W;
  add_secret_version : string → string → W → res unit * W
}.

Definition is_error (cls : string) (e : exc) : bool :=
  match e with OtherError c _ => (c =? cls)%string | _ => false end.

Section Store.
Context `{PyFloat} `{RepeatedFailure.Sha256} {W : Type} `{SecretManager W} (project_id : string) (ttl_s : Q).

Definition _secret_id (user_id : string) : string := "lha-secret-" +:+ stake 32 (RepeatedFailure.sha256_hex user_id).
Definition _secret_name (user_id : string) : string :=
  "projects/" +:+ project_id +:+ "/secrets/" +:+ _secret_id user_id.
Definition _version_name (user_id version : string) : string :=
  _secret_name user_id +:+ "/versions/" +:+ version.

(** The instance: its cache of [(expiry, blob)], and the service. *)
Record secret_store := ManagerStore { _cache : list (string * (Q * blob)); s_world : W }.

Definition parse_blob (data : string) : blob :=
  match json_loads data with Some (PDict b) => b | _ => [] end.

Definition _fetch_blob (user_id : string) (w : W) : res blob * W :=
  match access_secret_version (_version_name user_id "latest") w with
  | (Ok data, w') => (Ok (parse_blob data), w')
  | (Raise e, w') => if is_error "NotFound" e then (Ok [], w') else (Raise e, w')
  end.

Definition _cached_blob (now : Q) (user_id : string) (s : secret_store) : res blob * secret_store :=
  match dget (_cache s) user_id with
  | Some (expiry, b) =>
      if negb (Qle_bool expiry now) then (Ok b, s)
      else let '(r, w) := _fetch_blob user_id (s_world s) in
           match r with
           | Ok b => (Ok b, ManagerStore (dset (_cache s) user_id (now + ttl_s, b)%Q) w)
           | Raise e => (Raise e, ManagerStore (_cache s) w)
           end
  | None =>
      let '(r, w) := _fetch_blob user_id (s_world s) in
      match r with
      | Ok b => (Ok b, ManagerStore (dset (_cache s) user_id (now + ttl_s, b)%Q) w)
      | Raise e => (Raise e, ManagerStore (_cache s) w)
      end
  end.

Definition invalidate (user_id : string) (s : secret_store) : secret_store :=
  ManagerStore (ddel (_cache s) user_id) (s_world s).

Definition get_all (now : Q) (user_id : string) (s : secret_store) : res pydict * secret_store :=
  let '(r, s') := _cached_blob now user_id s in (let! b := r in Ok (values_of b), s').
Definition list_names (now : Q) (user_id : string) (s : secret_store) : res (list pydict) * secret_store :=
  let '(r, s') := _cached_blob now user_id s in (let! b := r in names_of b, s').

(** An existing secret is no failure. *)
Definition _ensure_secret (user_id : string) (w : W) : res unit * W :=
  match create_secret ("projects/" +:+ project_id) (_secret_id user_id) w with
  | (Raise e, w') => if is_error "AlreadyExists" e then (Ok tt, w') else (Raise e, w')
  | ok => ok
  end.

Definition _write_blob (user_id : string) (b : blob) (s : secret_store) : res unit * secret_store :=
  let data := blob_text b in
  if too_large b
  then (Raise (SecretTooLargeError ("secrets blob is " +:+ str_of_nat (slen data) +:+ " bytes, over the "
                                    +:+ str_of_nat MAX_BLOB_BYTES +:+ "-byte limit")), s)
  else
    match _ensure_secret user_id (s_world s) with
    | (Raise e, w) => (Raise e, ManagerStore (_cache s) w)
    | (Ok _, w) =>
        match add_secret_version (_secret_name user_id) data w with
        | (Raise e, w') => (Raise e, ManagerStore (_cache s) w')
        | (Ok _, w') => (Ok tt, invalidate user_id (ManagerStore (_cache s) w'))
        end
    end.

(** Read, change, write: the shape of the three writes. *)
Definition rewrite_blob {A} (user_id : string) (change : blob → A * option blob) (s : secret_store) :
    res A * secret_store :=
  match _fetch_blob user_id (s_world s) with
  | (Raise e, w) => (Raise e, ManagerStore (_cache s) w)
  | (Ok b, w) =>
      let s := ManagerStore (_cache s) w in
      match change b with
      | (a, None) => (Ok a, s)
      | (a, Some b') => let '(r, s') := _write_blob user_id b' s in (let! u := r in Ok a, s')
      end
  end.

Definition set_secret (user_id name value : string) (now_ms : Z) : secret_store → res unit * secret_store :=
  rewrite_blob user_id (λ b, (tt, Some (with_secret b name value now_ms))).
Definition set_many (user_id : string) (mapping : list (string * string)) (now_ms : Z) (s : secret_store) :
    res unit * secret_store :=
  match mapping with
  | [] => (Ok tt, s)
  | _ => rewrite_blob user_id (λ b, (tt, Some (with_many b mapping now_ms))) s
  end.
Definition delete_secret (user_id name : string) : secret_store → res bool * secret_store :=
  rewrite_blob user_id (λ b, if negb (dhas b name) then (false, None) else (true, Some (ddel b name))).
End Store.
Arguments ManagerStore {W}. Arguments _cache {W}. Arguments s_world {W}.

(** [get_secret_store]: the backend the environment names. *)
Inductive secret_backend := SecretManagerBackend (project : string) | MemoryBackend.
Definition get_secret_store (environ : list (string * string)) : res secret_backend :=
  let backend := lower (strip (default "secretmanager" (dget environ "LHA_SECRET_BACKEND"))) in
  if mem backend ["secretmanager"; "gcp"] then
    match dget environ "GOOGLE_CLOUD_PROJECT" with
    | Some p => Ok (SecretManagerBackend p)
    | None => Raise (KeyError "GOOGLE_CLOUD_PROJECT")
    end
  else if (backend =? "memory")%string then Ok MemoryBackend
  else Raise (ValueError ("unknown LHA_SECRET_BACKEND=" +:+ repr_str backend
                          +:+ "; expected 'secretmanager' or 'memory'")).

(** ** [parse_dotenv] *)

Definition _VALID_KEY : regex := re_of "^[A-Za-z_][A-Za-z0-9_]*$".
Definition valid_key (key : string) : bool :=
  match re_match noflags _VALID_KEY key with Some _ => true | None => false end.

Record Skipped := Skip { lineno : nat; reason : string }.
Record ParsedDotenv := Parsed { entries : list (string * string); skipped : list Skipped }.

(** [value[: value.find(" #")]], the value itself when there is none. *)
Fixpoint before_comment (s : string) : string :=
  match s with
  | "" => ""
  | String c s' => if startswith " #" s then "" else String c (before_comment s')
  end.

Definition last_char_of (s : string) : option ascii := last (list_ascii_of_string s).

Definition _unquote (value : string) : string :=
  let stripped := strip value in
  match stripped, last_char_of stripped with
  | String q rest, Some e =>
      if (2 <=? slen stripped) && Ascii.eqb q e && (Ascii.eqb q SQ || Ascii.eqb q DQ)
      then stake (slen rest - 1) rest
      else strip (before_comment value)
  | _, _ => strip (before_comment value)
  end.

(** One line: an entry, a reason to skip it, or nothing. *)
Definition dotenv_line (raw : string) : option (string + string * string) :=
  let line := strip raw in
  if (line =? "")%string || startswith "#" line then None
  else
    let line := if startswith "export " line then lstrip is_space (sdrop 7 line) else line in
    match partition_at "=" line with
    | None => Some (inl "no '='")
    | Some (key, value) =>
        let key := strip key in
        if negb (valid_key key) then Some (inl "invalid key name")
        else Some (inr (key, _unquote value))
    end.

Fixpoint dotenv_lines (n : nat) (lines : list string) (p : ParsedDotenv) : ParsedDotenv :=
  match lines with
  | [] => p
  | raw :: rest =>
      dotenv_lines (S n) rest
        match dotenv_line raw with
        | None => p
        | Some (inl why) => Parsed (entries p) (skipped p ++ [Skip n why])
        | Some (inr (k, v)) => Parsed (dset (entries p) k v) (skipped p)
        end
  end.
Definition parse_dotenv (text : string) : ParsedDotenv := dotenv_lines 1 (splitlines text) (Parsed [] []).

(** ** Facts on blobs *)

Section Blobs.
Context `{PyFloat}.

Definition good_blob (b : blob) : Prop := json_ok (PDict b) = true ∧ too_large b = false.

Lemma blob_parses b : good_blob b → parse_blob (blob_text b) = b.
Proof. intros [Hok _]. unfold parse_blob, blob_text. by rewrite (json_roundtrip dump_default " " " "). Qed.

Lemma good_nil : good_blob [].
Proof. done. Qed.

Lemma json_ok_dict b :
  json_ok (PDict b) = true ↔ NoDup (keys b) ∧ ∀ kv, kv ∈ b → json_ok kv.2 = true.
Proof.
  cbn [json_ok]. rewrite andb_true_iff, bool_decide_eq_true, forallb_forall.
  by setoid_rewrite list_elem_of_In.
Qed.

Lemma with_secret_ok b name value ms :
  json_ok (PDict b) = true → json_ok (PDict (with_secret b name value ms)) = true.
Proof.
  rewrite !json_ok_dict. intros [Hnd Hv]. split; [by apply NoDup_keys_dset|].
  intros kv [->|Hin]%dset_in; [done|by apply Hv].
Qed.
Lemma with_many_ok mapping : ∀ b ms,
  json_ok (PDict b) = true → json_ok (PDict (with_many b mapping ms)) = true.
Proof.
  induction mapping as [|kv rest IH]; intros b ms Hb; [done|]. apply IH. by apply with_secret_ok.
Qed.
Lemma ddel_ok b name : json_ok (PDict b) = true → json_ok (PDict (ddel b name)) = true.
Proof.
  rewrite !json_ok_dict. intros [Hnd Hv]. split; [by apply NoDup_keys_ddel|].
  intros kv Hin%ddel_in. by apply Hv.
Qed.

Lemma slen_join_cons sep x l : slen (join sep l) ≤ slen (join sep (x :: l)).
Proof.
  destruct l as [|y l]; [cbn; lia|]. rewrite (join_cons sep x) by done. rewrite !slen_app. lia.
Qed.
Lemma slen_join_mono sep x l l' : slen (join sep l) ≤ slen (join sep l') → l' ≠ [] ∨ l = [] →
  slen (join sep (x :: l)) ≤ slen (join sep (x :: l')).
Proof.
  intros Hl Hn. destruct l as [|y l], l' as [|y' l'].
  - done.
  - rewrite (join_cons sep x (y' :: l')) by done. rewrite !slen_app. cbn [join]. lia.
  - destruct Hn; done.
  - rewrite (join_cons sep x (y :: l)), (join_cons sep x (y' :: l')) by done. rewrite !slen_app. lia.
Qed.

(** Deleting never makes the text longer: the delete needs no size check. *)
Lemma ddel_shorter b name : slen (blob_text (ddel b name)) ≤ slen (blob_text b).
Proof.
  unfold blob_text. cbn [json_dumps dump_default sort_keys item_sep]. rewrite !slen_app, !map_map.
  apply Nat.add_le_mono_l, Nat.add_le_mono_r. induction b as [|[k v] b IH]; [done|]. cbn [ddel map fst snd].
  destruct (name =? k)%string; [apply slen_join_cons|]. cbn [map fst snd].
  apply slen_join_mono; [apply IH|]. destruct b; [by right|by left].
Qed.
Lemma good_ddel b name : good_blob b → good_blob (ddel b name).
Proof.
  intros [Hok Hs]. split; [by apply ddel_ok|]. unfold too_large in *.
  apply Nat.ltb_ge in Hs. apply Nat.ltb_ge. pose proof (ddel_shorter b name). lia.
Qed.
End Blobs.

(** ** Calls and answers *)

Inductive secret_op :=
  | GetAll | ListNames
  | SetSecret (name value : string) (now_ms : Z)
  | SetMany (mapping : list (string * string)) (now_ms : Z)
  | DeleteSecret (name : string).
(** Who calls, the clock at the call, and the call. *)
Record secret_call := SecretCall { c_user : string; c_now : Q; c_op : secret_op }.

Inductive secret_answer :=
  | Values (r : res pydict) | SecretNames (r : res (list pydict)) | Done (r : res unit) | Deleted (r : res bool).
(** The two size errors differ in their wording. *)
Definition forget_message (a : secret_answer) : secret_answer :=
  match a with
  | Done (Raise (OtherError "SecretTooLargeError" _)) => Done (Raise (SecretTooLargeError ""))
  | _ => a
  end.

(** The operations of a store, whichever holds the blobs. *)
Class SecretStore (St : Type) := {
  store_get_all : Q → string → St → res pydict * St;
  store_list_names : Q → string → St → res (list pydict) * St;
  store_set_secret : string → string → string → Z → St → res unit * St;
  store_set_many : string → list (string * string) → Z → St → res unit * St;
  store_delete : string → string → St → res bool * St
}.
#[export] Instance memory_secrets `{PyFloat} : SecretStore blobs := {|
  store_get_all _ u m := (mem_get_all m u, m);
  store_list_names _ u m := (mem_list_names m u, m);
  store_set_secret u n v ms m := mem_set_secret m u n v ms;
  store_set_many u mp ms m := mem_set_many m u mp ms;
  store_delete u n m := mem_delete_secret m u n
|}.
Definition manager_secrets `{PyFloat} `{RepeatedFailure.Sha256} {W : Type} `{SecretManager W}
    (project_id : string) (ttl_s : Q) : SecretStore secret_store := {|
  store_get_all := get_all project_id ttl_s;
  store_list_names := list_names project_id ttl_s;
  store_set_secret := set_secret project_id;
  store_set_many := set_many project_id;
  store_delete := delete_secret project_id
|}.

Section Calls.
Context {St : Type} `{SecretStore St}.

Definition store_call (c : secret_call) (s : St) : secret_answer * St :=
  let u := c_user c in
  match c_op c with
  | GetAll => let '(r, s) := store_get_all (c_now c) u s in (Values r, s)
  | ListNames => let '(r, s) := store_list_names (c_now c) u s in (SecretNames r, s)
  | SetSecret n v ms => let '(r, s) := store_set_secret u n v ms s in (Done r, s)
  | SetMany mp ms => let '(r, s) := store_set_many u mp ms s in (Done r, s)
  | DeleteSecret n => let '(r, s) := store_delete u n s in (Deleted r, s)
  end.
Fixpoint run_calls (cs : list secret_call) (s : St) : list secret_answer :=
  match cs with
  | [] => []
  | c :: cs => let '(a, s') := store_call c s in a :: run_calls cs s'
  end.

(** *** The routes of [api/secrets.py] *)

Definition stored_or (r : res unit) (body : pydict) : web pydict :=
  match r with
  | Ok _ => Answer body
  | Raise (OtherError "SecretTooLargeError" msg) => HTTPException 413 msg
  | Raise e => Crash e
  end.

Definition list_secrets (now : Q) (user_id : string) (s : St) : web pydict * St :=
  match store_list_names now user_id s with
  | (Ok names, s') => (Answer [("secrets", PList (map PDict names))], s')
  | (Raise e, s') => (Crash e, s')
  end.

(** [_VALID_NAME] is the pattern of the file's keys; nothing strips a name. *)
Definition put_secret (user_id name value : string) (now_ms : Z) (s : St) : web pydict * St :=
  if negb (valid_key name)
  then (HTTPException 400 "name must match [A-Za-z_][A-Za-z0-9_]* (a valid env var name)", s)
  else let '(r, s') := store_set_secret user_id name value now_ms s in
       (stored_or r [("name", PStr name); ("ok", PBool true)], s').

Definition row_name (row : pydict) : string := match dget row "name" with Some (PStr n) => n | _ => "" end.
Definition import_dotenv (user_id content : string) (commit : bool) (now : Q) (now_ms : Z) (s : St) :
    web pydict * St :=
  let parsed := parse_dotenv content in
  match store_list_names now user_id s with
  | (Raise e, s1) => (Crash e, s1)
  | (Ok names, s1) =>
      let existing := map row_name names in
      let conflicts := sort_by str_leb (List.filter (λ k, mem k existing) (keys (entries parsed))) in
      let '(r, s2) := if commit then store_set_many user_id (entries parsed) now_ms s1 else (Ok tt, s1) in
      (stored_or r
        [("valid", PList (map PStr (sort_by str_leb (keys (entries parsed)))));
         ("skipped", PList (map (λ k, PDict [("lineno", PInt (Z.of_nat (lineno k))); ("reason", PStr (reason k))])
                                (skipped parsed)));
         ("conflicts", PList (map PStr conflicts));
         ("committed", PBool commit)], s2)
  end.

Definition delete_route (user_id name : string) (s : St) : web pydict * St :=
  match store_delete user_id name s with
  | (Ok deleted, s') => (Answer [("name", PStr name); ("deleted", PBool deleted)], s')
  | (Raise e, s') => (Crash e, s')
  end.
End Calls.

(** ** Secret Manager, as its documentation describes it *)

Class SecretManagerLaws (W : Type) `{SecretManager W} := {
  has_secret : W → string → bool;
  latest : W → string → option string;
  access_law name w : access_secret_version (name +:+ "/versions/latest") w =
    (match latest w name with Some d => Ok d | None => Raise (OtherError "NotFound" name) end, w);
  create_law parent id w : let name := parent +:+ "/secrets/" +:+ id in
    if has_secret w name then create_secret parent id w = (Raise (OtherError "AlreadyExists" name), w)
    else ∃ w', create_secret parent id w = (Ok tt, w') ∧ has_secret w' name = true ∧
         ∀ n, latest w' n = latest w n;
  add_law name data w : has_secret w name = true →
    ∃ w', add_secret_version name data w = (Ok tt, w') ∧
      (∀ n, latest w' n = if decide (n = name) then Some data else latest w n)
}.

Section Agree.
Context `{PyFloat} `{RepeatedFailure.Sha256} {W : Type} `{SecretManagerLaws W} (project_id : string) (ttl_s : Q).
(** The users, whose digests do not collide. *)
Context (users : list string).
Hypothesis digests : ∀ u v, u ∈ users → v ∈ users → _secret_id u = _secret_id v → u = v.

Definition stored (w : W) (u : string) : blob :=
  match latest w (_secret_name project_id u) with Some d => parse_blob d | None => [] end.

Record same_blobs (s : secret_store) (m : blobs) : Prop := {
  sb_blob u : u ∈ users → stored (s_world s) u = _blob m u;
  sb_good u : u ∈ users → good_blob (_blob m u);
  sb_cache u e b : u ∈ users → dget (_cache s) u = Some (e, b) → b = _blob m u;
  sb_keys : NoDup (keys (_cache s))
}.

Lemma fetch_stored u w : _fetch_blob project_id u w = (Ok (stored w u), w).
Proof.
  unfold _fetch_blob, stored. change (_version_name project_id u "latest") with
    (_secret_name project_id u +:+ "/versions/" +:+ "latest").
  change ("/versions/" +:+ "latest") with "/versions/latest".
  rewrite access_law. by destruct (latest w _).
Qed.

Lemma secret_name_inj u v : u ∈ users → v ∈ users →
  _secret_name project_id u = _secret_name project_id v → u = v.
Proof.
  intros Hu Hv E. apply digests; [done..|]. by apply sapp_inv_l, sapp_inv_l, sapp_inv_l in E.
Qed.

Lemma cached_blob_ok now u s m : same_blobs s m → u ∈ users →
  ∃ s', _cached_blob project_id ttl_s now u s = (Ok (_blob m u), s') ∧ same_blobs s' m.
Proof.
  intros [Hb Hg Hc Hk] Hu. unfold _cached_blob. rewrite fetch_stored, (Hb u Hu).
  set (s1 := ManagerStore _ _). assert (same_blobs s1 m) as Hs1.
  { constructor; cbn; [done..| |by apply NoDup_keys_dset]. intros v e b Hv. rewrite dget_dset.
    case_decide; [|by apply Hc]. by intros [= <- <-]; subst. }
  destruct (dget (_cache s) u) as [[e b]|] eqn:E; [|by exists s1].
  destruct (Qle_bool e now); [by exists s1|]. exists s. rewrite (Hc u e b Hu E). by split.
Qed.

(** A write that fits replaces the blob in both stores, one that does not replaces neither. *)
Lemma write_blob_ok u b s m : same_blobs s m → u ∈ users → json_ok (PDict b) = true →
  let '(r, s') := _write_blob project_id u b s in let '(r', m') := mem_store m u b in
  forget_message (Done r) = forget_message (Done r') ∧ (too_large b = false → r = Ok tt) ∧ same_blobs s' m'.
Proof.
  intros Hs Hu Hok. pose proof Hs as [Hb Hg Hc Hk]. unfold _write_blob, mem_store.
  destruct (too_large b) eqn:Hl; [done|]. unfold _ensure_secret.
  assert (∃ w, match create_secret ("projects/" +:+ project_id) (_secret_id u) (s_world s) with
    | (Raise e, w') => if is_error "AlreadyExists" e then (Ok tt, w') else (Raise e, w')
    | ok => ok end = (Ok tt, w) ∧ has_secret w (_secret_name project_id u) = true ∧
    ∀ n, latest w n = latest (s_world s) n) as (w & -> & Hw & Hsame).
  { pose proof (create_law ("projects/" +:+ project_id) (_secret_id u) (s_world s)) as Hcr. cbv zeta in Hcr.
    rewrite <- sapp_assoc in Hcr. change ("projects/" +:+ project_id +:+ "/secrets/" +:+ _secret_id u) with
      (_secret_name project_id u) in Hcr.
    destruct (has_secret (s_world s) _) eqn:Hh.
    - rewrite Hcr. by exists (s_world s).
    - destruct Hcr as (w & -> & Hw & Hs'). by exists w. }
  destruct (add_law (_secret_name project_id u) (blob_text b) w Hw) as (w' & -> & Hw').
  split; [done|]. split; [done|]. unfold invalidate. cbn [_cache s_world].
  constructor; cbn [_cache s_world].
  - intros v Hv. unfold stored, _blob. rewrite Hw', dget_dset. case_decide as E1; case_decide as E2; cbn.
    + by apply blob_parses.
    + by destruct E2; apply secret_name_inj.
    + by subst.
    + rewrite Hsame. by apply Hb.
  - intros v Hv. unfold _blob. rewrite dget_dset. case_decide; cbn; [done|by apply Hg].
  - intros v e b' Hv. destruct (decide (u = v)) as [<-|Hne]; [by rewrite dget_ddel_eq|].
    unfold _blob. rewrite dget_ddel_ne, dget_dset_ne by done. by apply Hc.
  - by apply NoDup_keys_ddel.
Qed.

Lemma rewrite_ok {A} u (change : blob → A * option blob) s m : same_blobs s m → u ∈ users →
  let b := _blob m u in
  rewrite_blob project_id u change s =
    match change b with
    | (a, None) => (Ok a, s)
    | (a, Some b') => let '(r, s') := _write_blob project_id u b' s in (let! _ := r in Ok a, s')
    end.
Proof.
  intros [Hb _ _ _] Hu. unfold rewrite_blob. rewrite fetch_stored, (Hb u Hu). by destruct s.
Qed.

#[local] Instance ours : SecretStore secret_store := manager_secrets project_id ttl_s.

Lemma call_ok c s m : same_blobs s m → c_user c ∈ users →
  let '(a, s') := store_call c s in let '(a', m') := store_call c m in
  forget_message a = forget_message a' ∧ same_blobs s' m'.
Proof.
  destruct c as [u now op]. cbn [c_user]. intros Hs Hu. unfold store_call.
  cbn [c_op c_user c_now store_get_all store_list_names store_set_secret store_set_many store_delete ours
    memory_secrets manager_secrets].
  pose proof (sb_good s m Hs u Hu) as Hgood.
  destruct op as [| |n v ms|mp ms|n].
  - unfold get_all. by destruct (cached_blob_ok now u s m Hs Hu) as (s' & -> & Hs').
  - unfold list_names. by destruct (cached_blob_ok now u s m Hs Hu) as (s' & -> & Hs').
  - unfold set_secret, mem_set_secret. rewrite (rewrite_ok u _ s m Hs Hu).
    pose proof (write_blob_ok u (with_secret (_blob m u) n v ms) s m Hs Hu
                  (with_secret_ok _ n v ms (proj1 Hgood))) as Hw.
    destruct (_write_blob _ _ _ s) as [r s'], (mem_store m u _) as [r' m']. destruct Hw as (E & _ & Hw).
    by destruct r as [[]|].
  - unfold set_many, mem_set_many. destruct mp as [|kv mp]; [done|]. rewrite (rewrite_ok u _ s m Hs Hu).
    pose proof (write_blob_ok u (with_many (_blob m u) (kv :: mp) ms) s m Hs Hu
                  (with_many_ok _ _ ms (proj1 Hgood))) as Hw.
    destruct (_write_blob _ _ _ s) as [r s'], (mem_store m u _) as [r' m']. destruct Hw as (E & _ & Hw).
    by destruct r as [[]|].
  - unfold delete_secret, mem_delete_secret. rewrite (rewrite_ok u _ s m Hs Hu).
    destruct (negb (dhas (_blob m u) n)) eqn:Hn; [done|]. cbn [fst snd].
    pose proof (good_ddel _ n Hgood) as [Hok Hsz].
    pose proof (write_blob_ok u (ddel (_blob m u) n) s m Hs Hu Hok) as Hw. unfold mem_store in Hw.
    rewrite Hsz in Hw. destruct (_write_blob _ _ _ s) as [r s']. destruct Hw as (_ & Hr & Hw).
    by rewrite Hr.
Qed.

(** Secret Manager behind its cache and the store in memory answer every sequence of
    reads, writes and deletes of an instance alike (the size errors up to their wording): what
    a call writes is what later calls read whatever the clock says, a blob comes back from its
    JSON as it went in, a blob over the limit changes nothing, and a user never reads or
    changes the secrets of another. *)
Theorem secret_stores_agree calls : ∀ s m, same_blobs s m → Forall (λ c, c_user c ∈ users) calls →
  map forget_message (run_calls (H := manager_secrets project_id ttl_s) calls s)
  = map forget_message (run_calls calls m).
Proof.
  induction calls as [|c calls IH]; intros s m Hs Hc; [done|].
  apply Forall_cons in Hc as [Hu Hc]. cbn [run_calls]. pose proof (call_ok c s m Hs Hu) as Hstep.
  change (manager_secrets project_id ttl_s) with ours.
  destruct (store_call (H := ours) c s) as [a s'], (store_call c m) as [a' m'].
  destruct Hstep as [E Hs']. cbn [map]. f_equal; [exact E|by apply IH].
Qed.
End Agree.

(** ** An environment file written out and read back *)

Definition id_start (c : ascii) : bool := in_range 65 90 c || in_range 97 122 c || Ascii.eqb c "_".
Definition id_char (c : ascii) : bool := id_start c || in_range 48 57 c.
Definition identifier (k : string) : bool :=
  match k with String c r => id_start c && sforall id_char r | "" => false end.

(** [KEY], an equals sign and the value between double quotes. *)
Definition env_line (kv : string * string) : string := kv.1 +:+ "=" +:+ DQs +:+ kv.2 +:+ DQs.
Fixpoint env_file (l : list (string * string)) : string :=
  match l with [] => "" | kv :: l => env_line kv +:+ NLs +:+ env_file l end.

Lemma id_char_facts c : id_char c = true →
  is_space c = false ∧ is_linebreak c = false ∧ Ascii.eqb c "=" = false ∧ Ascii.eqb c "#" = false.
Proof. destruct c as [[] [] [] [] [] [] [] []]; vm_compute; done. Qed.
Lemma id_start_char c : id_start c = true → id_char c = true.
Proof. unfold id_char. by intros ->. Qed.
Lemma id_start_set c : xorb false (set_has (f_icase noflags) [CRange "A" "Z"; CRange "a" "z"; CRange "_" "_"] c)
  = id_start c.
Proof. destruct c as [[] [] [] [] [] [] [] []]; reflexivity. Qed.
Lemma id_char_set c :
  set_has (f_icase noflags) [CRange "A" "Z"; CRange "a" "z"; CRange "0" "9"; CRange "_" "_"] c = id_char c.
Proof. destruct c as [[] [] [] [] [] [] [] []]; reflexivity. Qed.

Lemma identifier_chars k : identifier k = true → sforall id_char k = true.
Proof.
  destruct k as [|c k]; [done|]. cbn. intros [Hc Hk]%andb_true_iff. by rewrite id_start_char, Hk.
Qed.

Lemma span_whole p s : sforall p s = true → span p s = (s, "").
Proof.
  induction s as [|c s IH]; [done|]. cbn. intros [Hc Hs]%andb_true_iff. by rewrite Hc, IH.
Qed.

Lemma identifier_valid k : identifier k = true → valid_key k = true.
Proof.
  destruct k as [|c k]; [done|]. cbn [identifier]. intros [Hc Hk]%andb_true_iff.
  unfold valid_key, re_match.
  enough (∃ x, leads (rmatch noflags _VALID_KEY (start_at None (String c k))) x) as [x [l ->]] by done.
  eexists. apply (seq_leads _ _ _ _ (start_at None (String c k))); [by eexists|].
  eapply seq_leads.
  { exists []. cbn [rmatch]. unfold step1. cbn [m_rest start_at]. by rewrite id_start_set, Hc. }
  eapply seq_leads; [apply (rep_set_leads _ 0 _ _ k "")|].
  - cbn [m_rest]. rewrite (span_ext _ id_char) by apply id_char_set. by apply span_whole.
  - lia.
  - eapply seq_leads; by eexists.
Qed.

Lemma one_line_app s t : one_line (s +:+ t) = one_line s && one_line t.
Proof. apply sforall_app. Qed.

Lemma rstrip_end p s c : p c = false → rstrip p (s +:+ s1 c) = s +:+ s1 c.
Proof.
  intros Hc. induction s as [|d s IH]; cbn; [by rewrite Hc|].
  change (s +:+ String c "") with (s +:+ s1 c). rewrite IH. by destruct s.
Qed.

(** A line that begins and ends with other characters than blanks is its own strip. *)
Lemma strip_ends p a s c : p a = false → p c = false →
  strip_by p (String a (s +:+ s1 c)) = String a (s +:+ s1 c).
Proof.
  intros Ha Hc. unfold strip_by. cbn [lstrip]. rewrite Ha. exact (rstrip_end p (String a s) c Hc).
Qed.

Lemma partition_key k v : sforall id_char k = true → partition_at "=" (k +:+ "=" +:+ v) = Some (k, v).
Proof.
  induction k as [|c k IH]; [done|]. cbn [sforall]. intros [Hc Hk]%andb_true_iff.
  change (String c k +:+ "=" +:+ v) with (String c (k +:+ "=" +:+ v)).
  cbn [partition_at]. destruct (id_char_facts c Hc) as (_ & _ & -> & _). by rewrite (IH Hk).
Qed.

(** A blank in a prefix cannot fall inside a key. *)
Lemma no_blank_prefix v p : ∀ k, sforall id_char k = true → has_char SP p = true → has_char "=" p = false →
  startswith p (k +:+ "=" +:+ v) = false.
Proof.
  unfold has_char. induction p as [|a p IH]; intros k Hk Hs He; [done|].
  cbn [sexists] in Hs, He. apply orb_false_iff in He as [Ha He].
  destruct k as [|c k]; cbn [startswith String.append].
  - by rewrite Ascii.eqb_sym, Ha.
  - cbn [sforall] in Hk. apply andb_true_iff in Hk as [Hc Hk].
    destruct (Ascii.eqb a c) eqn:E; [|done]. apply Ascii.eqb_eq in E as ->. apply (IH k); [done| |done].
    apply orb_true_iff in Hs as [Hs|Hs]; [|done]. apply Ascii.eqb_eq in Hs as <-. done.
Qed.

Lemma last_char_snoc s c : last_char_of (s +:+ s1 c) = Some c.
Proof.
  unfold last_char_of. enough (list_ascii_of_string (s +:+ s1 c) = list_ascii_of_string s ++ [c]) as ->
    by apply last_snoc.
  induction s as [|d s IH]; [done|]. cbn. by f_equal.
Qed.

Lemma unquote_quoted v : _unquote (DQs +:+ v +:+ DQs) = v.
Proof.
  unfold _unquote. assert (strip (DQs +:+ v +:+ DQs) = String DQ (v +:+ s1 DQ)) as -> by by apply strip_ends.
  cbv zeta. pose proof (last_char_snoc (String DQ v) DQ) as Hl.
  change (String DQ v +:+ s1 DQ) with (String DQ (v +:+ s1 DQ)) in Hl. rewrite Hl. cbn [slen String.length]. rewrite slen_app.
  replace (2 <=? _) with true by (symmetry; apply Nat.leb_le; cbn; lia). cbn [andb orb].
  change (slen (s1 DQ)) with 1. by rewrite Nat.add_sub, stake_app.
Qed.

Lemma env_line_read kv : identifier kv.1 = true → dotenv_line (env_line kv) = Some (inr kv).
Proof.
  destruct kv as [k v]. unfold env_line. cbn [fst snd]. intros Hid.
  pose proof (identifier_chars k Hid) as Hk. unfold dotenv_line.
  assert (strip (k +:+ "=" +:+ DQs +:+ v +:+ DQs) = k +:+ "=" +:+ DQs +:+ v +:+ DQs) as ->.
  { destruct k as [|c k]; [done|]. cbn in Hk. apply andb_true_iff in Hk as [Hc Hk].
    destruct (id_char_facts c Hc) as (Hsp & _). rewrite !sapp_assoc. by apply strip_ends. }
  replace (_ || _) with false.
  2:{ destruct k as [|c k]; [done|]. cbn in Hk. apply andb_true_iff in Hk as [Hc Hk].
      destruct (id_char_facts c Hc) as (_ & _ & _ & Hh). cbn -[String.append]. cbn.
      by rewrite Ascii.eqb_sym, Hh. }
  rewrite no_blank_prefix, partition_key by done.
  assert (strip k = k) as ->.
  { apply strip_none. eapply sforall_impl; [|exact Hk]. intros c Hc. cbn.
    by destruct (id_char_facts c Hc) as (-> & _). }
  by rewrite identifier_valid, unquote_quoted.
Qed.

Lemma env_line_one_line kv : identifier kv.1 = true → one_line kv.2 = true → one_line (env_line kv) = true.
Proof.
  intros Hid Hv. unfold env_line. rewrite !one_line_app, Hv. cbn. rewrite andb_true_r.
  unfold one_line. eapply sforall_impl; [|exact (identifier_chars _ Hid)]. intros c Hc. cbn.
  by destruct (id_char_facts c Hc) as (_ & -> & _).
Qed.

Lemma dotenv_lines_file l : ∀ n p,
  Forall (λ kv, identifier kv.1 = true ∧ one_line kv.2 = true) l → NoDup (keys (entries p ++ l)) →
  dotenv_lines n (splitlines (env_file l)) p = Parsed (entries p ++ l) (skipped p).
Proof.
  induction l as [|kv l IH]; intros n p Hl Hnd; [rewrite app_nil_r; by destruct p|].
  apply Forall_cons in Hl as [[Hid Hv] Hl]. cbn [env_file]. unfold splitlines.
  rewrite splitlines_line by by apply env_line_one_line. cbn [dotenv_lines]. change ("" +:+ env_line kv) with (env_line kv).
  rewrite env_line_read by done. destruct kv as [k v]. cbn [fst snd] in *.
  rewrite dset_new; [|unfold keys in *; rewrite map_app in Hnd; apply NoDup_app in Hnd as (_ & Hk & _)].
  - fold splitlines. etrans; [apply IH; [done|]|]; cbn [entries]; by rewrite <- app_assoc.
  - intros Hin. apply (Hk k Hin). left.
Qed.

(** An import reads back what an environment file says: identifiers distinct from each
    other, each with its value between double quotes on a line of its own, come back in order
    with their values untouched (quotes, equals signs, comment marks and blanks at either end
    included), and no line is reported as skipped. *)
Theorem dotenv_roundtrip l :
  Forall (λ kv, identifier kv.1 = true ∧ one_line kv.2 = true) l → NoDup (keys l) →
  parse_dotenv (env_file l) = Parsed l [].
Proof. apply (dotenv_lines_file l 1 (Parsed [] [])). Qed.

(** ** A service in memory, and both theorems at work *)

(** Each secret with its latest payload, if it has one yet. *)
Definition vault := list (string * option string).
Definition vault_latest (w : vault) (name : string) : option string := mjoin (dget w name).

#[export] Instance vault_manager : SecretManager vault := {|
  access_secret_version name w :=
    let secret := stake (slen name - slen "/versions/latest") name in
    (match vault_latest w secret with Some d => Ok d | None => Raise (OtherError "NotFound" secret) end, w);
  create_secret parent id w :=
    let name := parent +:+ "/secrets/" +:+ id in
    if dhas w name then (Raise (OtherError "AlreadyExists" name), w) else (Ok tt, dset w name None);
  add_secret_version name data w := (Ok tt, dset w name (Some data))
|}.

#[export] Program Instance vault_laws : SecretManagerLaws vault := {|
  has_secret w name := dhas w name; latest := vault_latest
|}.
Next Obligation. cbn. by rewrite slen_app, Nat.add_sub, stake_app. Qed.
Next Obligation.
  cbn. destruct (dhas w _) eqn:E; [done|].
  eexists. split; [done|]. unfold dhas in *. rewrite dget_dset_eq. split; [done|].
  intros n. unfold vault_latest. rewrite dget_dset. case_decide; [subst|done].
  by destruct (dget w _).
Qed.
Next Obligation.
  eexists. split; [done|]. intros n. cbn. unfold vault_latest. rewrite dget_dset.
  by destruct (decide (name = n)), (decide (n = name)); subst.
Qed.

Definition two_users : list secret_call := [
  SecretCall "ann" 0 (SetSecret "TOKEN" "a1" 10);
  SecretCall "ann" 1 GetAll;
  SecretCall "bob" 1 ListNames;
  SecretCall "ann" 2 (SetMany [("KEY", "k"); ("TOKEN", "a2")] 20);
  SecretCall "ann" 3 GetAll;
  SecretCall "bob" 4 (DeleteSecret "TOKEN");
  SecretCall "ann" 5 (DeleteSecret "TOKEN");
  SecretCall "ann" 6 ListNames
].

(** The digest of a name is the name itself here. *)
Lemma secret_stores_agree_witness :
  let Hfl : PyFloat := λ _, "" in let Hsha : RepeatedFailure.Sha256 := id in
  map forget_message (run_calls (H := manager_secrets "p" 60) two_users (ManagerStore [] []))
  = map forget_message (run_calls two_users ([] : blobs))
  ∧ run_calls two_users ([] : blobs) =
    [Done (Ok tt); Values (Ok [("TOKEN", PStr "a1")]); SecretNames (Ok []); Done (Ok tt);
     Values (Ok [("TOKEN", PStr "a2"); ("KEY", PStr "k")]); Deleted (Ok false); Deleted (Ok true);
     SecretNames (Ok [[("name", PStr "KEY"); ("created_at", PInt 20)]])].
Proof.
  intros Hfl Hsha. split; [|vm_compute; reflexivity].
  apply (secret_stores_agree (W := vault) "p" 60 ["ann"; "bob"]).
  - intros u v Hu Hv. rewrite !elem_of_cons, elem_of_nil in Hu, Hv.
    destruct Hu as [-> | [-> | []]], Hv as [-> | [-> | []]]; done.
  - constructor; [done|done|done|constructor].
  - repeat constructor.
Defined.

Lemma dotenv_roundtrip_witness :
  let l := [("TOKEN", " a=" +:+ DQs +:+ "b #c "); ("_K2", "")] in
  env_file l = "TOKEN=" +:+ DQs +:+ " a=" +:+ DQs +:+ "b #c " +:+ DQs +:+ NLs +:+ "_K2=" +:+ DQs +:+ DQs +:+ NLs ∧
  parse_dotenv (env_file l) = Parsed l [].
Proof.
  intros l. split; [reflexivity|]. apply (dotenv_roundtrip l).
  - repeat constructor.
  - apply (bool_decide_unpack _). vm_compute. exact I.
Defined.

(** ** What the pattern lets through *)

(** A name sent to the route may end in a line feed: the dollar sign matches before it. *)
Example name_with_newline :
  let Hfl : PyFloat := λ _, "" in
  put_secret "ann" ("TOKEN" +:+ NLs) "v" 10 ([] : blobs) =
    (Answer [("name", PStr ("TOKEN" +:+ NLs)); ("ok", PBool true)],
     [("ann", [("TOKEN" +:+ NLs, secret_entry "v" 10)])]).
Proof. vm_compute. reflexivity. Qed.
Example name_with_space :
  let Hfl : PyFloat := λ _, "" in
  (put_secret "ann" "TOKEN " "v" 10 ([] : blobs)).2 = [].
Proof. vm_compute. reflexivity. Qed.
