(* ===== verification/RuntimeServer.v ===== *)
(** * The server inside a sandbox: [sandbox/runtime/server.py]

    The routes of the shim: files under the workspace root, archives, commands and
    background processes. The file system and the path walks are those of Posix.v; what a
    command does, the signals of the host and the framework's texts for invalid
    parameters are inputs. Bytes are the characters of a string; an archive is the list
    of its members. *)

From stdpp Require Import fin_maps gmap.
From S2P Require Import Prelude PyStr PyVal Sorting Environ WorkspaceWindow Posix Web.
#[local] Open Scope nat_scope.

(** ** Files *)

Record ListEntry := Entry { e_name : string; e_kind : string; e_size : Z; e_mtime : Z }.

(** A member of an archive. [None]: its header cannot be read; otherwise its bytes, and
    whether their checksum agrees. *)
Record member := Member { filename : string; contents : option (string * bool) }.
Definition is_dir_member (x : member) : bool := endswith "/" (filename x).

Section Files.
Context `{Host} (validation : string → string) (WORKSPACE_ROOT : path).

Definition PermissionError (e : errno) : bool := match e with EACCES | EPERM => true | _ => false end.
Definition of_sys {A} (r : sys A) : web A :=
  match r with Done a => Answer a | Fails e p => Crash (os_exc e p) end.

(** [WORKSPACE_ROOT / raw if not Path(raw).is_absolute() else Path(raw)] *)
Definition joined (raw : string) : path :=
  if is_absolute raw then parts raw else WORKSPACE_ROOT ++ parts raw.
Definition escapes (raw : string) : web path :=
  HTTPException 403 ("path " +:+ repr_str raw +:+ " escapes workspace root " +:+ path_text WORKSPACE_ROOT).
Definition _resolve_within_workspace (m : fs) (raw : string) : web path :=
  let? target := of_res (resolve_path m (joined raw)) in
  if bool_decide (WORKSPACE_ROOT `prefix_of` target) then Answer target else escapes raw.

Definition read_file (m : fs) (raw : string) : web string :=
  let? target := _resolve_within_workspace m raw in
  match read_bytes m target with
  | Done data => Answer (b64encode data)
  | Fails ENOENT p => HTTPException 404 (os_text ENOENT p)
  | Fails EISDIR p => HTTPException 400 (os_text EISDIR p)
  | Fails e p => if PermissionError e then HTTPException 403 (os_text e p) else Crash (os_exc e p)
  end.

Definition kind_of (n : option node) : string :=
  match n with Some (Link _) => "symlink" | Some Dir => "dir" | _ => "file" end.
(** The loop over the rows: the entries so far, and whether it was cut short. An entry
    whose [stat] fails is passed over. *)
Fixpoint list_rows (m : fs) (where_ : path) (limit : nat) (rows : list string) (entries : list ListEntry) :
    list ListEntry * bool :=
  match rows with
  | [] => (entries, false)
  | name :: rows' =>
      if limit <=? length entries then (entries, true)
      else
        let here := where_ ++ [name] in
        match fault OStat here with
        | Some _ => list_rows m where_ limit rows' entries
        | None =>
            list_rows m where_ limit rows'
              (entries ++ [Entry name (kind_of (node_at m here)) (st_size m here) (st_mtime m here)])
        end
  end.
(** A directory, or the answer that says it is none. *)
Definition directory (m : fs) (raw : string) (target : path) : web unit :=
  let? there := of_sys (exists_ m target) in
  if negb there then HTTPException 404 (raw +:+ " not found")
  else
    let? d := of_sys (is_dir m target) in
    if negb d then HTTPException 400 (raw +:+ " is not a directory") else Answer tt.
Definition list_files (m : fs) (raw : string) (limit : Z) : web (list ListEntry * bool) :=
  if negb ((1 <=? limit) && (limit <=? 10000))%Z then HTTPException 422 (validation "limit")
  else
    let? target := _resolve_within_workspace m raw in
    let? _ := directory m raw target in
    let? found := of_sys (scandir m target) in
    Answer (list_rows m found.1 (Z.to_nat limit) (sort_by str_leb found.2) []).

(** Answers with the file system they leave. *)
Definition status_ok (r : outcome) (refuse : errno → path → web unit) : web unit * fs :=
  match r with (Done _, m) => (Answer tt, m) | (Fails e p, m) => (refuse e p, m) end.

Definition write_refusal (e : errno) (p : path) : web unit :=
  match e with
  | ENOENT => HTTPException 404 (os_text e p)
  | EACCES | EPERM => HTTPException 403 (os_text e p)
  | _ => HTTPException 400 (os_text e p)
  end.
Definition write_all (data : string) (mode : option Z) (m : fs) (target : path) : outcome :=
  and_then (mkdir_p m (parent target)) (λ m,
    and_then (write_bytes data m target) (λ m,
      match mode with Some md => chmod md m target | None => (Done tt, m) end)).
Definition write_file (m : fs) (raw content_b64 : string) (mode : option Z) : web unit * fs :=
  match _resolve_within_workspace m raw with
  | Answer target =>
      match b64decode content_b64 with
      | Raise e => (Crash e, m)
      | Ok data => status_ok (write_all data mode m target) write_refusal
      end
  | HTTPException s d => (HTTPException s d, m)
  | Crash e => (Crash e, m)
  end.

Definition delete_refusal (e : errno) (p : path) : web unit :=
  match e with
  | ENOENT => HTTPException 404 (os_text e p)
  | EISDIR => HTTPException 400 (os_text e p)
  | EACCES | EPERM => HTTPException 403 (os_text e p)
  | _ => HTTPException 500 (os_text e p)
  end.
(** [recursive and target.is_dir() and not target.is_symlink()] *)
Definition wants_tree (recursive : bool) (m : fs) (target : path) : sys bool :=
  if negb recursive then Done false
  else match is_dir m target with
       | Done true => match is_symlink m target with Done l => Done (negb l) | failed => failed end
       | other => other
       end.
Definition remove (recursive : bool) (m : fs) (target : path) : outcome :=
  match wants_tree recursive m target with
  | Done true => rmtree m target
  | Done false => unlink m target
  | Fails e p => (Fails e p, m)
  end.
Definition delete_file (m : fs) (raw : string) (recursive : bool) : web unit * fs :=
  match _resolve_within_workspace m raw with
  | Answer target =>
      if bool_decide (target = WORKSPACE_ROOT) then (HTTPException 400 "cannot delete workspace root", m)
      else status_ok (remove recursive m target) delete_refusal
  | HTTPException s d => (HTTPException s d, m)
  | Crash e => (Crash e, m)
  end.

(** ** Archives *)

(** [zf.write(entry, arcname=entry.relative_to(target).as_posix())], for each file. *)
Fixpoint zip_files (target : path) (found : list (path * string)) : sys (list member) :=
  match found with
  | [] => Done []
  | (rel, data) :: found' =>
      match fault ORead (target ++ rel) with
      | Some e => Fails e (target ++ rel)
      | None => match zip_files target found' with
                | Done l => Done (Member (join "/" rel) (Some (data, true)) :: l)
                | failed => failed
                end
      end
  end.
Definition download_zip (m : fs) (raw : string) : web (string * list member) :=
  let? target := _resolve_within_workspace m raw in
  let? _ := directory m raw target in
  match locate m true target with
  | inl e => Crash (os_exc e target)
  | inr q =>
      let? members := of_sys (zip_files target (files_below m q)) in
      Answer (or_str (default "" (last target)) "workspace" +:+ ".zip", members)
  end.

(** Every destination is resolved before anything is written. *)
Fixpoint destinations (m : fs) (target : path) (members : list member) : web (list path) :=
  match members with
  | [] => Answer []
  | x :: members' =>
      let? dest := _resolve_within_workspace m
        (if is_absolute (filename x) then filename x else path_text (target ++ parts (filename x))) in
      let? rest := destinations m target members' in
      Answer (dest :: rest)
  end.

(** What stops an extraction: an error of the system, or a damaged member. *)
Definition damaged (name : string) : web unit :=
  HTTPException 400 ("invalid zip: " +:+ "Bad CRC-32 for file " +:+ repr_str name).
Definition extract_one (x : member) (dest : path) (m : fs) : web unit * fs :=
  let crash := λ e p, Crash (os_exc e p) in
  if is_dir_member x then status_ok (mkdir_p m dest) crash
  else match status_ok (mkdir_p m (parent dest)) crash with
       | (Answer _, m1) =>
           match contents x with
           | None => (damaged (filename x), m1)
           | Some (data, intact) =>
               match status_ok (write_bytes data m1 dest) crash with
               | (Answer _, m2) => (if intact then Answer tt else damaged (filename x), m2)
               | failed => failed
               end
           end
       | failed => failed
       end.
Fixpoint extract (members : list member) (dests : list path) (m : fs) : web unit * fs :=
  match members, dests with
  | x :: members', dest :: dests' =>
      match extract_one x dest m with
      | (Answer _, m') => extract members' dests' m'
      | failed => failed
      end
  | _, _ => (Answer tt, m)
  end.
(** [inl]: the body is no archive. *)
Definition upload_zip (m : fs) (raw : string) (body : string + list member) : web unit * fs :=
  match _resolve_within_workspace m raw with
  | Answer target =>
      match body with
      | inl why => (HTTPException 400 ("invalid zip: " +:+ why), m)
      | inr members =>
          match destinations m target members with
          | Answer dests =>
              match status_ok (mkdir_p m target) (λ e p, Crash (os_exc e p)) with
              | (Answer _, m') => extract members dests m'
              | failed => failed
              end
          | HTTPException s d => (HTTPException s d, m)
          | Crash e => (Crash e, m)
          end
      end
  | HTTPException s d => (HTTPException s d, m)
  | Crash e => (Crash e, m)
  end.
End Files.

(** ** Commands *)

Definition _PROCESS_INHERITED_ENV_KEYS : list string := ["PATH"; "HOME"; "USER"; "LANG"; "LC_ALL"].
Definition _PROCESS_BUFFER_BYTES : nat := 200 * 1024.
Definition _PROCESS_MAX_SESSIONS : nat := 64.

(** [base.update(requested)] over the inherited names that are set. *)
Definition _resolve_env (environ : environment_vars) (requested : option (list (string * string))) :
    option (list (string * string)) :=
  let base := omap (λ k, pair k <$> dget environ k) _PROCESS_INHERITED_ENV_KEYS in
  option_map (λ asked, fold_left (λ d kv, dset d kv.1 kv.2) asked base) requested.

Record ExecRequest := ExecReq {
  x_command : string; x_timeout : option Q; x_cwd : option string; x_env : option (list (string * string))
}.
Record ExecResponse := ExecResp { x_exit_code : Z; x_stdout : string; x_stderr : string; x_timed_out : bool }.
(** What the shell does within the time it is given: it ends (a return code may be
    missing), it is killed, or it does not start. *)
Inductive shell_outcome :=
| Finished (code : option Z) (out err : string)
| Expired (out err : string)
| NotStarted (e : exc).
(** [shell]: the command, its directory, its environment and its time; the files it
    leaves. *)
Definition exec_command (environ : environment_vars) (DEFAULT_EXEC_TIMEOUT_SEC : Q)
    (shell : string → option string → option (list (string * string)) → Q → fs → shell_outcome * fs)
    (req : ExecRequest) (m : fs) : web ExecResponse * fs :=
  let timeout := default DEFAULT_EXEC_TIMEOUT_SEC (x_timeout req) in
  match shell (x_command req) (x_cwd req) (_resolve_env environ (x_env req)) timeout m with
  | (Finished code out err, m') => (Answer (ExecResp (default 0%Z code) out err false), m')
  | (Expired out err, m') => (Answer (ExecResp (-1) out err true), m')
  | (NotStarted e, m') => (Crash e, m')
  end.

(** ** Background processes *)

Record container_process := Proc {
  session_id : string; c_command : string; c_pid : Z;
  c_buffer : string; c_total : nat; c_code : option Z; c_exited : bool;
  c_last_output : Q
}.
(** The table [_PROCESSES], in order of spawning. *)
Definition process_table : Type := list (string * container_process).
Definition c_running (p : container_process) : bool := negb (c_exited p).

(** The reader, on a chunk: the oldest bytes go when the buffer is full. *)
Definition on_output (chunk : string) (now : Q) (p : container_process) : container_process :=
  let buffer := c_buffer p +:+ chunk in
  let overflow := slen buffer - _PROCESS_BUFFER_BYTES in
  Proc (session_id p) (c_command p) (c_pid p) (sdrop overflow buffer) (c_total p + slen chunk)
    (c_code p) (c_exited p) now.
Definition on_end (code : option Z) (p : container_process) : container_process :=
  Proc (session_id p) (c_command p) (c_pid p) (c_buffer p) (c_total p) code true (c_last_output p).

(** [read(offset, limit)] for an offset that is not negative. *)
Definition c_read (p : container_process) (offset : nat) (limit : option nat) : string * nat :=
  let buffer_start := c_total p - slen (c_buffer p) in
  let slice_start := offset `max` buffer_start - buffer_start in
  let slice_start := slice_start `min` slen (c_buffer p) in
  let data := match limit with
              | None => sdrop slice_start (c_buffer p)
              | Some l => stake l (sdrop slice_start (c_buffer p))
              end in
  (data, buffer_start + slice_start + slen data).

Record ProcessStatus := PStatus {
  s_session_id : string; s_pid : Z; s_command : string; s_running : bool; s_exit_code : option Z;
  s_output_size : nat; s_idle_seconds : Q
}.
Definition c_status (now : Q) (p : container_process) : ProcessStatus :=
  PStatus (session_id p) (c_pid p) (c_command p) (c_running p) (c_code p) (c_total p) (now - c_last_output p).

Definition _get_process (t : process_table) (sid : string) : web container_process :=
  match dget t sid with
  | Some p => Answer p
  | None => HTTPException 404 ("unknown session " +:+ repr_str sid)
  end.

Section Processes.
Context `{Host} (WORKSPACE_ROOT : path).

Definition _resolve_process_cwd (m : fs) (raw : option string) : web (option path) :=
  match raw with
  | None => Answer None
  | Some r => let? p := _resolve_within_workspace WORKSPACE_ROOT m r in Answer (Some p)
  end.

(** [popen]: the identifiers of the new process, or the error of the spawn. *)
Definition spawn_process (environ : environment_vars)
    (popen : string → option path → option (list (string * string)) → (string * Z) + (errno * path))
    (now : Q) (command : string) (cwd : option string) (env : option (list (string * string)))
    (m : fs) (t : process_table) : web (string * Z) * process_table :=
  let alive := length (List.filter (λ kp, c_running kp.2) t) in
  if _PROCESS_MAX_SESSIONS <=? alive
  then (HTTPException 429 ("too many live sessions (" +:+ str_of_nat alive +:+ "/"
          +:+ str_of_nat _PROCESS_MAX_SESSIONS +:+ ")"), t)
  else match _resolve_process_cwd m cwd with
       | Answer dir =>
           match popen command dir (_resolve_env environ env) with
           | inr (e, p) => (HTTPException 500 ("spawn failed: " +:+ os_text e p), t)
           | inl (sid, pid) => (Answer (sid, pid), dset t sid (Proc sid command pid "" 0 None false now))
           end
       | HTTPException s d => (HTTPException s d, t)
       | Crash e => (Crash e, t)
       end.

Definition list_processes (now : Q) (t : process_table) : list ProcessStatus := map (λ kp, c_status now kp.2) t.
Definition process_status (now : Q) (t : process_table) (sid : string) : web ProcessStatus :=
  let? p := _get_process t sid in Answer (c_status now p).

Record ProcessOutput := POutput { o_data_b64 : string; o_next_offset : nat; o_exit_code : option Z }.
Definition process_output (validation : string → string) (t : process_table) (sid : string)
    (offset : Z) (limit : option Z) : web ProcessOutput :=
  if (offset <? 0)%Z then HTTPException 422 (validation "offset")
  else if match limit with Some l => (l <=? 0)%Z | None => false end then HTTPException 422 (validation "limit")
  else
    let? p := _get_process t sid in
    let '(data, next_offset) := c_read p (Z.to_nat offset) (option_map Z.to_nat limit) in
    Answer (POutput (b64encode data) next_offset (c_code p)).

(** [write]: what is written to the terminal. *)
Definition process_stdin (t : process_table) (sid data_b64 : string) (submit : bool) : web string :=
  let? p := _get_process t sid in
  match b64decode data_b64 with
  | Raise e => HTTPException 400 ("bad base64: " +:+ exc_text e)
  | Ok payload =>
      let payload := if submit && negb (endswith NLs payload) then payload +:+ NLs else payload in
      if c_exited p then HTTPException 409 ("process " +:+ sid +:+ " has already exited") else Answer payload
  end.

(** [reaped]: the return code the reader saw in time, when it did. *)
Definition process_kill (reaped : option (option Z)) (t : process_table) (sid : string) : web Z * process_table :=
  match _get_process t sid with
  | Answer p =>
      if c_exited p then (Answer (default (-1)%Z (c_code p)), t)
      else match reaped with
           | Some code => (Answer (default (-1)%Z code), dset t sid (on_end code p))
           | None => (Answer (-1)%Z, t)
           end
  | HTTPException s d => (HTTPException s d, t)
  | Crash e => (Crash e, t)
  end.
End Processes.

(** * Facts *)

(** ** The routes of files, as one step *)

Inductive file_request :=
| GetFile (raw : string)
| ListFiles (raw : string) (limit : Z)
| PutFile (raw content_b64 : string) (mode : option Z)
| DeleteFile (raw : string) (recursive : bool)
| GetZip (raw : string)
| PutZip (raw : string) (body : string + list member).
Inductive file_answer :=
| FileOf (content_b64 : string)
| EntriesOf (entries : list ListEntry) (truncated : bool)
| ArchiveOf (name : string) (members : list member)
| StatusOk.

Section Confinement.
Context `{Host} (validation : string → string) (WORKSPACE_ROOT : path).
Let root := WORKSPACE_ROOT.

Definition serve (m : fs) (req : file_request) : web file_answer * fs :=
  let done_ := λ r : web unit * fs, (let? _ := r.1 in Answer StatusOk, r.2) in
  match req with
  | GetFile raw => (let? c := read_file root m raw in Answer (FileOf c), m)
  | ListFiles raw limit => (let? r := list_files validation root m raw limit in Answer (EntriesOf r.1 r.2), m)
  | PutFile raw c mode => done_ (write_file root m raw c mode)
  | DeleteFile raw recursive => done_ (delete_file root m raw recursive)
  | GetZip raw => (let? r := download_zip root m raw in Answer (ArchiveOf r.1 r.2), m)
  | PutZip raw body => done_ (upload_zip root m raw body)
  end.

(** Where a member of an archive goes. *)
Definition member_path (target : path) (x : member) : path :=
  joined root (if is_absolute (filename x) then filename x else path_text (target ++ parts (filename x))).
(** None of the paths a request has resolved meets a loop of links. *)
Definition resolves (m : fs) (req : file_request) : Prop :=
  match req with
  | GetFile raw | ListFiles raw _ | PutFile raw _ _ | DeleteFile raw _ | GetZip raw => settled m (joined root raw)
  | PutZip raw body =>
      settled m (joined root raw) ∧
      ∀ target members x, realpath m (joined root raw) = Some (target, true) → body = inr members →
        x ∈ members → settled m (member_path target x)
  end.

(** What an answer shows is under the root. *)
Definition shows_inside (m : fs) (a : file_answer) : Prop :=
  match a with
  | FileOf c => ∃ p data mode, root `prefix_of` p ∧ m !! p = Some (File data mode) ∧ c = b64encode data
  | EntriesOf entries _ => ∃ q, root `prefix_of` q ∧ node_at m q = Some Dir ∧
      ∀ e, e ∈ entries → e_name e ∈ children m q ∧ e_kind e = kind_of (node_at m (q ++ [e_name e]))
  | ArchiveOf _ members => ∃ q, root `prefix_of` q ∧
      ∀ x, x ∈ members → ∃ rel data mode, filename x = join "/" rel ∧ contents x = Some (data, true) ∧
        m !! (q ++ rel) = Some (File data mode)
  | StatusOk => True
  end.

Lemma within_workspace_settled m raw target : settled m (joined root raw) →
  _resolve_within_workspace root m raw = Answer target →
  root `prefix_of` target ∧ physical m target ∧ clean target ∧ realpath m (joined root raw) = Some (target, true).
Proof.
  intros Hs Hr. unfold _resolve_within_workspace in Hr. destruct (resolve_path m _) as [q|] eqn:Hq; [|done].
  cbn [of_res web_bind] in Hr. case_bool_decide as Hp; [|done]. injection Hr as <-.
  apply resolve_settled in Hq as (? & ? & ?); [|done]. done.
Qed.

Lemma status_ok_fs r refuse : (status_ok r refuse).2 = r.2.
Proof. by destruct r as [[] ?]. Qed.

(** [within] through the steps of an extraction. *)
Lemma extract_within members dests m0 m : rooted root m0 → within root m0 m →
  Forall (λ d, physical m0 d ∧ clean d ∧ root `prefix_of` d) dests →
  within root m0 (extract members dests m).2.
Proof.
  intros Hr. revert dests m. induction members as [|x members IH]; intros [|d dests] m Hw Hd; try done.
  apply Forall_cons in Hd as [(Hp & Hc & Hu) Hd]. cbn [extract].
  assert (∀ m1, within root m0 m1 → rooted root m1 ∧ physical m1 d) as Hstill.
  { intros m1 H1. split; [by apply (within_rooted root m0)|by apply (within_physical root m0)]. }
  assert (∀ m1 p, within root m0 m1 → clean p → p `prefix_of` d → comparable root p →
    within root m0 (mkdir_p m1 p).2) as Hmk.
  { intros m1 p H1 Hcp Hpd Hcmp. destruct (Hstill m1 H1) as [Hr1 Hp1]. etransitivity; [exact H1|].
    apply mkdir_p_within; [done|by apply (physical_prefix m1 d)|done|done]. }
  assert (within root m0 (extract_one x d m).2) as Hone.
  { unfold extract_one. destruct (is_dir_member x); [rewrite status_ok_fs; apply Hmk; [done|done|done|by left]|].
    pose proof (Hmk m (parent d) Hw (parent_clean d Hc) (parent_prefix d)
      (comparable_parent root d (or_introl Hu))) as H1.
    destruct (mkdir_p m (parent d)) as [[[]|e p] m1]; cbn [status_ok snd] in H1 |- *; [|done].
    destruct (contents x) as [[data intact]|]; [|done].
    destruct (Hstill m1 H1) as [Hr1 Hp1].
    pose proof (write_within root data m1 d Hr1 Hp1 Hc Hu) as H2.
    destruct (write_bytes data m1 d) as [[[]|e p] m2]; cbn [status_ok snd] in H2 |- *; by transitivity m1. }
  destruct (extract_one x d m) as [[] m']; cbn [snd] in Hone |- *; [by apply IH|done|done].
Qed.

Lemma destinations_inside m target members dests :
  (∀ x, x ∈ members → settled m (member_path target x)) →
  destinations root m target members = Answer dests →
  Forall (λ d, physical m d ∧ clean d ∧ root `prefix_of` d) dests.
Proof.
  revert dests. induction members as [|x members IH]; intros dests Hs Hd; cbn [destinations] in Hd.
  { injection Hd as <-. constructor. }
  destruct (_resolve_within_workspace root m _) as [d| |] eqn:Hr; [|done..]. cbn [web_bind] in Hd.
  destruct (destinations root m target members) as [rest| |] eqn:Hrest; [|done..]. injection Hd as <-.
  apply within_workspace_settled in Hr as (? & ? & ? & _); [|apply (Hs x); by left].
  constructor; [done|]. apply IH; [|done]. intros y Hy. apply Hs. by right.
Qed.

Lemma zip_files_shows target found members : zip_files target found = Done members →
  ∀ x, x ∈ members → ∃ rel data, (rel, data) ∈ found ∧ x = Member (join "/" rel) (Some (data, true)).
Proof.
  revert members. induction found as [|[rel data] found IH]; intros members; cbn [zip_files].
  { intros [= <-] x Hx. by apply elem_of_nil in Hx. }
  destruct (fault ORead _); [done|]. destruct (zip_files target found) as [l|]; [|done].
  intros [= <-] x [->|Hx]%elem_of_cons.
  - exists rel, data. split; [by left|done].
  - destruct (IH l eq_refl x Hx) as (r & d & Hin & ->). exists r, d. split; [by right|done].
Qed.
Lemma files_below_spec m q rel data : (rel, data) ∈ files_below m q ↔
  rel ≠ [] ∧ ∃ mode, m !! (q ++ rel) = Some (File data mode).
Proof.
  unfold files_below. rewrite list_elem_of_omap. split.
  - intros ([r n] & Hin%elem_of_map_to_list & Hf). cbn in Hf. destruct n as [d mode| |]; [|done..].
    unfold below in Hf. case_bool_decide as Hp; [|done]. destruct Hp as [k ->]. rewrite drop_app_length in Hf.
    destruct k as [|x k]; [done|]. injection Hf as <- <-. split; [done|]. by exists mode.
  - intros [Hne [mode Hm]]. exists (q ++ rel, File data mode). split; [by apply elem_of_map_to_list|]. cbn.
    unfold below. rewrite bool_decide_true by (by apply prefix_app_r). rewrite drop_app_length. by destruct rel.
Qed.
Lemma list_rows_shows m q limit rows entries : ∀ e, e ∈ (list_rows m q limit rows entries).1 →
  e ∈ entries ∨ e_name e ∈ rows ∧ e_kind e = kind_of (node_at m (q ++ [e_name e])).
Proof.
  revert entries. induction rows as [|name rows IH]; intros entries e; cbn [list_rows]; [by left|].
  destruct (limit <=? length entries); [by left|]. destruct (fault OStat _).
  - intros [?|[? ?]]%IH; [by left|]. right. split; [by right|done].
  - intros [[Hin | ->%list_elem_of_singleton]%elem_of_app|[Hin ?]]%IH; [by left|..]; right; (split; [|done]);
      [by left|by right].
Qed.

Lemma write_all_within data mode m target : rooted root m → physical m target → clean target →
  root `prefix_of` target → within root m (write_all data mode m target).2.
Proof.
  intros Hr Hp Hc Hu. unfold write_all. apply and_then_within.
  { apply mkdir_p_within; [done|by apply physical_parent|by apply parent_clean|].
    apply comparable_parent. by left. }
  intros m1 H1. assert (within root m m1) as Hw1.
  { replace m1 with (mkdir_p m (parent target)).2 by by rewrite H1.
    apply mkdir_p_within; [done|by apply physical_parent|by apply parent_clean|].
    apply comparable_parent. by left. }
  pose proof (within_rooted _ _ _ Hw1 Hr) as Hr1. pose proof (within_physical _ _ _ _ Hw1 Hp) as Hp1.
  apply and_then_within; [by apply write_within|]. intros m2 H2.
  assert (within root m1 m2) as Hw2.
  { replace m2 with (write_bytes data m1 target).2 by by rewrite H2. by apply write_within. }
  destruct mode as [md|]; [|done]. apply chmod_within; [by apply (within_rooted root m1)| |done|done].
  by apply (within_physical root m1).
Qed.
Lemma remove_within recursive m target : physical m target → clean target → root `prefix_of` target →
  target ≠ root → within root m (remove recursive m target).2.
Proof.
  intros Hp Hc Hu Hne. unfold remove. destruct (wants_tree recursive m target) as [[]|e p]; [|by apply unlink_within|done].
  by apply rmtree_within.
Qed.

Lemma write_file_within m raw content_b64 mode : rooted root m → settled m (joined root raw) →
  within root m (write_file root m raw content_b64 mode).2.
Proof.
  intros Hr Hs. unfold write_file. destruct (_resolve_within_workspace root m raw) as [target| |] eqn:Ht; [|done..].
  apply within_workspace_settled in Ht as (Hu & Hp & Hc & _); [|done]. destruct (b64decode _); [|done].
  rewrite status_ok_fs. by apply write_all_within.
Qed.
Lemma delete_file_within m raw recursive : rooted root m → settled m (joined root raw) →
  within root m (delete_file root m raw recursive).2.
Proof.
  intros Hr Hs. unfold delete_file. destruct (_resolve_within_workspace root m raw) as [target| |] eqn:Ht; [|done..].
  apply within_workspace_settled in Ht as (Hu & Hp & Hc & _); [|done].
  case_bool_decide as Hne; [done|]. rewrite status_ok_fs. by apply remove_within.
Qed.
Lemma upload_zip_within m raw body : rooted root m → resolves m (PutZip raw body) →
  within root m (upload_zip root m raw body).2.
Proof.
  intros Hr [Hs Hm]. unfold upload_zip.
  destruct (_resolve_within_workspace root m raw) as [target| |] eqn:Ht; [|done..].
  apply within_workspace_settled in Ht as (Hu & Hp & Hc & Hreal); [|done].
  destruct body as [why|members]; [done|].
  destruct (destinations root m target members) as [dests| |] eqn:Hd; [|done..].
  apply destinations_inside in Hd; [|intros x Hx; by apply (Hm target members)].
  assert (within root m (mkdir_p m target).2) as Hw by (apply mkdir_p_within; [done..|by left]).
  destruct (mkdir_p m target) as [[[]|e p] m']; cbn [status_ok snd] in Hw |- *; [|done].
  by apply extract_within.
Qed.

Lemma read_file_shows m raw c : rooted root m → settled m (joined root raw) → read_file root m raw = Answer c →
  shows_inside m (FileOf c).
Proof.
  intros Hr Hs. unfold read_file. destruct (_resolve_within_workspace root m raw) as [target| |] eqn:Ht; [|done..].
  apply within_workspace_settled in Ht as (Hu & Hp & Hc & _); [|done]. cbn [web_bind]. unfold read_bytes.
  destruct (fault ORead target) as [e|]; [destruct e; cbn; done|].
  destruct (locate m true target) as [e|q] eqn:Hl; [destruct e; cbn; done|].
  apply locate_physical in Hl as [-> _]; [|done..].
  destruct (node_at m target) as [[data mode| |]|] eqn:Hn; [|done..]. intros [= <-].
  exists target, data, mode. split_and!; [done| |done]. by destruct target.
Qed.
Lemma directory_at m q target r : physical m target → clean target → scandir m target = Done (q, r) →
  q = target ∧ node_at m target = Some Dir ∧ r = children m target.
Proof.
  intros Hp Hc. unfold scandir. destruct (fault OScan target); [done|].
  destruct (locate m true target) as [e|q'] eqn:Hl; [done|]. apply locate_physical in Hl as [-> _]; [|done..].
  destruct (node_at m target) as [[]|]; try done. by intros [= <- <-].
Qed.
Lemma list_files_shows m raw limit r : settled m (joined root raw) →
  list_files validation root m raw limit = Answer r → shows_inside m (EntriesOf r.1 r.2).
Proof.
  intros Hs. unfold list_files. destruct (negb _); [done|].
  destruct (_resolve_within_workspace root m raw) as [target| |] eqn:Ht; [|done..].
  apply within_workspace_settled in Ht as (Hu & Hp & Hc & _); [|done]. cbn [web_bind].
  destruct (directory m raw target); [|done..]. cbn [web_bind].
  destruct (scandir m target) as [[q names]|] eqn:Hsc; [|done]. cbn [of_sys web_bind fst snd]. intros [= <-].
  apply directory_at in Hsc as (-> & Hd & ->); [|done..]. exists target. split_and!; [done|done|].
  intros e [Hin|[Hin Hk]]%list_rows_shows; [by apply elem_of_nil in Hin|]. split; [|done].
  by rewrite (sort_by_perm str_leb) in Hin.
Qed.
Lemma download_zip_shows m raw r : settled m (joined root raw) →
  download_zip root m raw = Answer r → shows_inside m (ArchiveOf r.1 r.2).
Proof.
  intros Hs. unfold download_zip. destruct (_resolve_within_workspace root m raw) as [target| |] eqn:Ht; [|done..].
  apply within_workspace_settled in Ht as (Hu & Hp & Hc & _); [|done]. cbn [web_bind].
  destruct (directory m raw target); [|done..]. cbn [web_bind].
  destruct (locate m true target) as [|q] eqn:Hl; [done|]. apply locate_physical in Hl as [-> _]; [|done..].
  destruct (zip_files target _) as [members|] eqn:Hz; [|done]. cbn [of_sys web_bind]. intros [= <-].
  exists target. split; [done|]. intros x Hx.
  destruct (zip_files_shows _ _ _ Hz x Hx) as (rel & data & Hin & ->).
  apply files_below_spec in Hin as [_ [mode Hm]]. by exists rel, data, mode.
Qed.

(** C16. The workspace root holds. Whatever a request of the file routes asks for, by whatever
    path, through whatever links and with whatever the system refuses on the way: nothing
    outside the root changes, no link appears, the root stays, and what the answer shows
    (bytes, entries, members) is of files under the root; provided that resolving the
    request's paths does not run into a loop of links. *)
Theorem file_routes_confined m req : rooted root m → resolves m req →
  within root m (serve m req).2 ∧ rooted root (serve m req).2 ∧
  ∀ a, (serve m req).1 = Answer a → shows_inside m a.
Proof.
  intros Hr Hs. assert (within root m (serve m req).2) as Hw.
  { destruct req; cbn [serve snd] in *; [done|done|by apply write_file_within|by apply delete_file_within|done|].
    by apply upload_zip_within. }
  split; [done|]. split; [by apply (within_rooted root m)|]. intros a.
  destruct req; cbn [serve fst resolves] in *.
  - destruct (read_file root m raw) as [c| |] eqn:E; [|done..]. intros [= <-]. by apply (read_file_shows m raw).
  - destruct (list_files validation root m raw limit) as [r| |] eqn:E; [|done..]. intros [= <-].
    by apply (list_files_shows m raw limit).
  - destruct (write_file root m raw content_b64 mode).1; [|done..]. by intros [= <-].
  - destruct (delete_file root m raw recursive).1; [|done..]. by intros [= <-].
  - destruct (download_zip root m raw) as [r| |] eqn:E; [|done..]. intros [= <-]. by apply (download_zip_shows m raw).
  - destruct (upload_zip root m raw body).1; [|done..]. by intros [= <-].
Qed.
End Confinement.

(** ** An archive carries the files of a directory *)

Section Migration.
Context `{Host} (quiet : ∀ op p, fault op p = None).

Lemma rel_text rel : rel ≠ [] → Forall is_part rel →
  is_absolute (join "/" rel) = false ∧ endswith "/" (join "/" rel) = false ∧ parts (join "/" rel) = rel.
Proof.
  intros Hne Hp. assert (split_on "/" (join "/" rel) = rel) as Hs.
  { apply (split_on_join "/"); [done|]. eapply Forall_impl; [exact Hp|]. by intros x (_ & _ & ?). }
  assert (∀ x, x ∈ rel → x ≠ "") as Hx.
  { intros x Hin. rewrite Forall_forall in Hp. by destruct (Hp x Hin). }
  split_and!; [| |by apply parts_join].
  - apply not_true_is_false. intros [r E]%startswith_spec. rewrite E in Hs.
    change ("/" +:+ r) with ("" +:+ s1 "/" +:+ r) in Hs. rewrite split_on_app in Hs.
    apply (Hx ""); [|done]. rewrite <- Hs. apply elem_of_app. left. by left.
  - apply not_true_is_false. intros [r E]%endswith_spec. rewrite E in Hs.
    change (r +:+ "/") with (r +:+ s1 "/" +:+ "") in Hs. rewrite split_on_app in Hs.
    apply (Hx ""); [|done]. rewrite <- Hs. apply elem_of_app. right. by left.
Qed.

Lemma zip_files_all target found : zip_files target found =
  Done (map (λ rd, Member (join "/" rd.1) (Some (rd.2, true))) found).
Proof. induction found as [|[rel data] found IH]; [done|]. cbn [zip_files map]. by rewrite quiet, IH. Qed.

Lemma app_parts_path p q : Forall is_part p → Forall is_part q → parts (path_text (p ++ q)) = p ++ q.
Proof. intros Hp Hq. unfold path_text. rewrite parts_slash. apply parts_join. by apply Forall_app. Qed.

Section Into.
Context (root : path) (m2 : fs) (t2 : path) (found : list (path * string)).
Context (Hparts : Forall is_part t2) (Hroot : root `prefix_of` t2) (Hphys : physical m2 t2) (Hclean : clean t2).
Context (Hdirs : ∀ q, q `prefix_of` t2 → node_at m2 q = None ∨ node_at m2 q = Some Dir).
Context (Hempty : ∀ rel, rel ≠ [] → node_at m2 (t2 ++ rel) = None).
(** What is carried comes from a tree. *)
Context (Hfound : ∀ rel data, (rel, data) ∈ found → rel ≠ [] ∧ Forall (λ x, is_part x ∧ x ≠ "..") rel).
Context (Hfiles : ∀ rel data rel' data', (rel, data) ∈ found → (rel', data') ∈ found →
  ¬ rel `prefix_of` parent rel' ∧ (rel = rel' → data = data')).

Let to_member := λ rd : path * string, Member (join "/" rd.1) (Some (rd.2, true)).

Lemma found_clean rel data : (rel, data) ∈ found → clean (t2 ++ rel).
Proof.
  intros Hin. apply Forall_app. split; [done|]. destruct (Hfound rel data Hin) as [_ Hn].
  eapply Forall_impl; [exact Hn|]. intros x ((? & ? & _) & ?). split; [|done]. by apply dropped_spec.
Qed.
Lemma below_dirs q rel : q `prefix_of` t2 ++ rel → node_at m2 q = None ∨ node_at m2 q = Some Dir.
Proof. intros [Hq|(k & Hk & -> & _)]%prefix_app_cases; [by apply Hdirs|left; by apply Hempty]. Qed.
Lemma below_physical rel : physical m2 (t2 ++ rel).
Proof.
  intros q Hq. unfold link_target. by destruct (below_dirs q rel Hq) as [-> | ->].
Qed.

Lemma destinations_found l : l ⊆ found →
  destinations root m2 t2 (map to_member l) = Answer (map (λ rd, t2 ++ rd.1) l).
Proof.
  induction l as [|[rel data] l IH]; intros Hl; [done|]. cbn [map destinations to_member filename fst].
  assert ((rel, data) ∈ found) as Hin by (apply Hl; by left). destruct (Hfound rel data Hin) as [Hne Hn].
  assert (Forall is_part rel) as Hrel by (eapply Forall_impl; [exact Hn|by intros x [? _]]).
  destruct (rel_text rel Hne Hrel) as (-> & _ & ->).
  assert (_resolve_within_workspace root m2 (path_text (t2 ++ rel)) = Answer (t2 ++ rel)) as ->.
  { unfold _resolve_within_workspace, joined. change (is_absolute (path_text (t2 ++ rel))) with true. cbv iota.
    rewrite app_parts_path by done. rewrite (resolve_own quiet).
    - cbn [of_res web_bind]. rewrite bool_decide_true; [done|]. by apply prefix_app_r.
    - apply below_physical.
    - by apply (found_clean rel data). }
  cbn [web_bind]. rewrite IH; [done|]. intros x Hx. apply Hl. by right.
Qed.

(** What has been extracted so far. *)
Record so_far (pre : list (path * string)) (m : fs) : Prop := {
  only rel n : rel ≠ [] → node_at m (t2 ++ rel) = Some n →
    (∃ data mode, n = File data mode ∧ (rel, data) ∈ pre) ∨
    (n = Dir ∧ ∃ rel' data, (rel', data) ∈ found ∧ rel `prefix_of` parent rel');
  there rel data : (rel, data) ∈ pre → ∃ mode, node_at m (t2 ++ rel) = Some (File data mode);
  way q : q `prefix_of` t2 → node_at m q = Some Dir
}.

Lemma extract_step pre rel data m : pre ⊆ found → (rel, data) ∈ found → so_far pre m →
  ∃ m', extract_one (to_member (rel, data)) (t2 ++ rel) m = (Answer tt, m') ∧ so_far (pre ++ [(rel, data)]) m'.
Proof.
  intros Hpre Hin [Honly Hthere Hway]. destruct (Hfound rel data Hin) as [Hne Hn].
  assert (Forall is_part rel) as Hrel by (eapply Forall_impl; [exact Hn|by intros x [? _]]).
  pose proof (found_clean rel data Hin) as Hc.
  assert (physical m (t2 ++ rel)) as Hp.
  { intros q [Hq|(k & Hk & -> & _)]%prefix_app_cases; unfold link_target; [by rewrite Hway|].
    destruct (node_at m (t2 ++ k)) as [n|] eqn:E; [|done].
    by destruct (Honly k n Hk E) as [(? & ? & -> & _)|[-> _]]. }
  assert (parent (t2 ++ rel) = t2 ++ parent rel) as Epar by by apply parent_app.
  destruct (mkdir_p_ok quiet m (parent (t2 ++ rel))) as (m1 & Hmk & Hm1).
  { by apply physical_parent. } { by apply parent_clean. }
  { intros q Hq. rewrite Epar in Hq. apply prefix_app_cases in Hq as [Hq|(k & Hk & -> & Hkr)]; [right; by apply Hway|].
    destruct (node_at m (t2 ++ k)) as [n|] eqn:E; [|by left]. right.
    destruct (Honly k n Hk E) as [(d & md & -> & Hkin)|[-> _]]; [|done]. exfalso.
    by destruct (Hfiles k d rel data (Hpre _ Hkin) Hin). }
  assert (node_at m1 (t2 ++ rel) ≠ Some Dir) as Hnd.
  { rewrite Hm1. rewrite bool_decide_false by (apply parent_strict; by destruct t2). intros E.
    destruct (Honly rel Dir Hne E) as [(? & ? & ? & _)|(_ & rel' & d' & Hin' & Hpr)]; [done|].
    by destruct (Hfiles rel data rel' d' Hin Hin'). }
  assert (t2 ++ rel ≠ []) as Hne2 by (by destruct t2).
  destruct (write_bytes_ok quiet data m1 (t2 ++ rel)) as [mode Hw].
  { intros q Hq. unfold link_target. rewrite Hm1. case_bool_decide; [done|]. by apply Hp. }
  { done. } { done. } { intros q Hq. by rewrite Hm1, bool_decide_true. } { done. }
  exists (<[t2 ++ rel := File data mode]> m1). split.
  { unfold extract_one, to_member, is_dir_member. cbn [filename contents fst snd].
    destruct (rel_text rel Hne Hrel) as (_ & -> & _). rewrite Hmk. cbn [status_ok]. by rewrite Hw. }
  split.
  - intros k n Hk. rewrite node_at_insert by done. case_decide as E.
    { apply app_inv_head in E as ->. intros [= <-]. left. exists data, mode. split; [done|].
      apply elem_of_app. right. by left. }
    rewrite Hm1. case_bool_decide as Hkp.
    + intros [= <-]. right. split; [done|]. exists rel, data. split; [done|].
      rewrite Epar in Hkp. by apply prefix_app_inv in Hkp.
    + intros E'. destruct (Honly k n Hk E') as [(d & md & -> & Hkin)|?]; [|by right].
      left. exists d, md. split; [done|]. apply elem_of_app. by left.
  - intros k d [Hkin|[= -> ->]%list_elem_of_singleton]%elem_of_app.
    + rewrite node_at_insert by done. case_decide as E.
      { apply app_inv_head in E as ->. destruct (Hfiles rel d rel data (Hpre _ Hkin) Hin) as [_ ->]; [by eexists|done]. }
      destruct (Hthere k d Hkin) as [md Hk]. exists md. rewrite Hm1. case_bool_decide as Hkp; [|done].
      rewrite Epar in Hkp. apply prefix_app_inv in Hkp. by destruct (Hfiles k d rel data (Hpre _ Hkin) Hin).
    + exists mode. rewrite node_at_insert by done. by rewrite decide_True.
  - intros q Hq. rewrite node_at_insert by done. case_decide as E.
    { subst q. exfalso. apply prefix_length in Hq. rewrite length_app in Hq. destruct rel; [done|cbn in Hq; lia]. }
    rewrite Hm1. case_bool_decide; [done|by apply Hway].
Qed.

Lemma extract_found pre suf m : found = pre ++ suf → so_far pre m →
  ∃ m', extract (map to_member suf) (map (λ rd, t2 ++ rd.1) suf) m = (Answer tt, m') ∧ so_far found m'.
Proof.
  revert pre m. induction suf as [|[rel data] suf IH]; intros pre m E Hs.
  { rewrite app_nil_r in E. subst pre. by exists m. }
  destruct (extract_step pre rel data m) as (m' & Hone & Hs'); [| |done|].
  { rewrite E. intros x Hx. apply elem_of_app. by left. } { rewrite E. apply elem_of_app. right. by left. }
  cbn [map extract fst]. change (λ rd : path * string, Member (join "/" rd.1) (Some (rd.2, true))) with to_member.
  rewrite Hone. apply (IH (pre ++ [(rel, data)]) m'); [|done]. by rewrite <- app_assoc.
Qed.
End Into.

Lemma download_found root m raw t r : physical m t → clean t → realpath m (joined root raw) = Some (t, true) →
  download_zip root m raw = Answer r →
  r.2 = map (λ rd, Member (join "/" rd.1) (Some (rd.2, true))) (files_below m t).
Proof.
  intros Hp Hc Hreal. unfold download_zip.
  destruct (_resolve_within_workspace root m raw) as [target| |] eqn:Ht; [|done..].
  apply within_workspace_settled in Ht as (_ & _ & _ & E); [|by eexists]. rewrite Hreal in E. injection E as <-.
  cbn [web_bind]. destruct (directory m raw t); [|done..]. cbn [web_bind].
  destruct (locate m true t) as [|q] eqn:Hl; [done|]. apply locate_physical in Hl as [-> _]; [|done..].
  rewrite zip_files_all. cbn [of_sys web_bind]. by intros [= <-].
Qed.

(** An archive moves a directory whole. What the route for archives gives for a directory
    of one workspace can be uploaded into any place of another where nothing is in the
    way: the upload succeeds, nothing outside that workspace changes, and the regular files
    below the two places are then the same, each with its bytes. *)
Theorem archive_roundtrip root1 m1 raw1 t1 name members root2 m2 raw2 t2 :
  tree m1 → realpath m1 (joined root1 raw1) = Some (t1, true) →
  download_zip root1 m1 raw1 = Answer (name, members) →
  rooted root2 m2 → realpath m2 (joined root2 raw2) = Some (t2, true) → root2 `prefix_of` t2 → Forall is_part t2 →
  (∀ q, q `prefix_of` t2 → node_at m2 q = None ∨ node_at m2 q = Some Dir) →
  (∀ rel, rel ≠ [] → node_at m2 (t2 ++ rel) = None) →
  ∃ m2', upload_zip root2 m2 raw2 (inr members) = (Answer tt, m2') ∧ within root2 m2 m2' ∧
    ∀ rel data, rel ≠ [] →
      (∃ mode, m2' !! (t2 ++ rel) = Some (File data mode)) ↔ (∃ mode, m1 !! (t1 ++ rel) = Some (File data mode)).
Proof.
  intros Ht H1 Hdown Hr H2 Hu Hparts Hdirs Hempty.
  destruct (realpath_physical _ _ _ H1) as [Hp1 Hc1]. destruct (realpath_physical _ _ _ H2) as [Hp2 Hc2].
  pose proof (download_found _ _ _ _ _ Hp1 Hc1 H1 Hdown) as Hmem. cbn [snd] in Hmem. subst members.
  set (found := files_below m1 t1).
  assert (∀ p n, p ≠ [] → (m1 !! p = Some n ↔ node_at m1 p = Some n)) as Hat by (by intros [|x p] n).
  assert (∀ rel data, (rel, data) ∈ found → rel ≠ [] ∧ Forall (λ x, is_part x ∧ x ≠ "..") rel) as Hfound.
  { intros rel data Hin. apply files_below_spec in Hin as [Hne [mode Hm]]. split; [done|].
    apply (t_names m1 Ht) in Hm. by apply Forall_app in Hm as [_ ?]. }
  assert (∀ rel data rel' data', (rel, data) ∈ found → (rel', data') ∈ found →
    ¬ rel `prefix_of` parent rel' ∧ (rel = rel' → data = data')) as Hfiles.
  { intros rel data rel' data' [Hne [md Hm]]%files_below_spec [Hne' [md' Hm']]%files_below_spec. split.
    - intros Hpre. assert (node_at m1 (t1 ++ rel) = Some Dir) as Hd.
      { apply (tree_ancestors m1 (t1 ++ rel')); [done| | |].
        - exists (File data' md'). apply Hat; [by destruct t1|done].
        - apply prefix_app. etransitivity; [exact Hpre|apply parent_prefix].
        - intros E. apply app_inv_head in E as ->. by apply parent_strict in Hpre. }
      apply Hat in Hm; [|by destruct t1]. congruence.
    - intros ->. congruence. }
  assert (rooted root2 m2 ∧ resolves root2 m2 (PutZip raw2 (inr
    (map (λ rd, Member (join "/" rd.1) (Some (rd.2, true))) found)))) as [_ Hres].
  { split; [done|]. split; [by eexists|]. intros target ms x Et [= <-] Hx. rewrite H2 in Et. injection Et as <-.
    apply list_elem_of_fmap in Hx as ([rel data] & -> & Hin). destruct (Hfound rel data Hin) as [Hne Hn].
    assert (Forall is_part rel) as Hrel by (eapply Forall_impl; [exact Hn|by intros y [? _]]).
    unfold member_path. cbn [filename fst]. destruct (rel_text rel Hne Hrel) as (-> & _ & ->). unfold joined.
    change (is_absolute (path_text (t2 ++ rel))) with true. cbv iota. rewrite app_parts_path by done.
    apply settled_own; [by apply below_physical|by apply (found_clean t2 found Hc2 Hfound rel data)]. }
  assert (_resolve_within_workspace root2 m2 raw2 = Answer t2) as Hraw.
  { unfold _resolve_within_workspace. assert (resolve_path m2 (joined root2 raw2) = Ok t2) as ->.
    { rewrite <- (resolve_own quiet m2 t2 Hp2 Hc2). unfold resolve_path. by rewrite H2, (realpath_own m2 t2). }
    cbn [of_res web_bind]. by rewrite bool_decide_true. }
  destruct (mkdir_p_ok quiet m2 t2 Hp2 Hc2 Hdirs) as (m & Hmk & Hm).
  assert (so_far t2 found [] m) as Hs.
  { split.
    - intros rel n Hne E. rewrite Hm in E. rewrite bool_decide_false in E.
      + by rewrite Hempty in E.
      + intros Hpre. apply prefix_length in Hpre. rewrite length_app in Hpre. destruct rel; [done|cbn in Hpre; lia].
    - intros rel data Hin. by apply elem_of_nil in Hin.
    - intros q Hq. by rewrite Hm, bool_decide_true. }
  destruct (extract_found root2 m2 t2 found Hparts Hu Hp2 Hc2 Hdirs Hempty Hfound Hfiles [] found m eq_refl Hs) as (m2' & Hex & [Honly Hthere _]).
  assert (upload_zip root2 m2 raw2 (inr (map (λ rd, Member (join "/" rd.1) (Some (rd.2, true))) found))
    = (Answer tt, m2')) as Hup.
  { unfold upload_zip. rewrite Hraw. rewrite (destinations_found root2 m2 t2 found Hparts Hu Hc2 Hdirs Hempty Hfound found) by done.
    rewrite Hmk. cbn [status_ok]. exact Hex. }
  exists m2'. split; [exact Hup|]. split.
  { change m2' with (Answer tt, m2').2. rewrite <- Hup. by apply upload_zip_within. }
  intros rel data Hne. assert (t2 ++ rel ≠ [] ∧ t1 ++ rel ≠ []) as [Hn2 Hn1] by (by destruct rel, t1, t2).
  transitivity ((rel, data) ∈ found); [|unfold found; rewrite files_below_spec; naive_solver]. split.
  - intros [mode E]. assert (node_at m2' (t2 ++ rel) = Some (File data mode)) as E' by by destruct (t2 ++ rel).
    by destruct (Honly rel _ Hne E') as [(d & md & [= -> ->] & Hin)|[? _]].
  - intros Hin. destruct (Hthere rel data Hin) as [mode E]. exists mode. by destruct (t2 ++ rel).
Qed.
End Migration.

(** ** At concrete inputs *)

Definition demo_root : path := ["workspace"].
(** A workspace with a directory and a link to it, and a file outside. *)
Definition demo_ws : fs := list_to_map [
  (["workspace"], Dir); (["workspace"; "a"], Dir); (["workspace"; "a"; "x"], File "hello" 420);
  (["workspace"; "l"], Link "a"); (["etc"], Dir); (["etc"; "passwd"], File "root" 420)].
(** The same with a link that is its own target, and one that leads out. *)
Definition looping_ws : fs :=
  <[["workspace"; "loop"] := Link "loop"]> (<[["workspace"; "evil"] := Link "/etc"]> demo_ws).
Definition no_text : string → string := λ _, "".

Lemma file_routes_confined_witness :
  let Hh : Host := quiet_host in
  rooted demo_root demo_ws ∧ resolves demo_root demo_ws (GetFile "l/x") ∧
  (serve no_text demo_root demo_ws (GetFile "l/x")).1 = Answer (FileOf (b64encode "hello")) ∧
  within demo_root demo_ws (serve no_text demo_root demo_ws (GetFile "l/x")).2 ∧
  rooted demo_root (serve no_text demo_root demo_ws (GetFile "l/x")).2 ∧
  ∀ a, (serve no_text demo_root demo_ws (GetFile "l/x")).1 = Answer a → shows_inside demo_root demo_ws a.
Proof.
  intros Hh. assert (rooted demo_root demo_ws) as Hr by (apply rooted_check; vm_compute; reflexivity).
  assert (resolves demo_root demo_ws (GetFile "l/x")) as Hs by (exists ["workspace"; "a"; "x"]; vm_compute; reflexivity).
  split; [exact Hr|]. split; [exact Hs|]. split; [vm_compute; reflexivity|].
  exact (file_routes_confined (H := Hh) no_text demo_root demo_ws (GetFile "l/x") Hr Hs).
Defined.

Definition empty_ws : fs := {[ ["workspace"] := Dir ]}.
Lemma archive_roundtrip_witness :
  let Hh : Host := quiet_host in
  let members := [Member "x" (Some ("hello", true))] in
  download_zip demo_root demo_ws "a" = Answer ("a.zip", members) ∧
  ∃ m2', upload_zip demo_root empty_ws "in/b" (inr members) = (Answer tt, m2') ∧ within demo_root empty_ws m2' ∧
    ∀ rel data, rel ≠ [] →
      (∃ mode, m2' !! (["workspace"; "in"; "b"] ++ rel) = Some (File data mode)) ↔
      (∃ mode, demo_ws !! (["workspace"; "a"] ++ rel) = Some (File data mode)).
Proof.
  intros Hh members.
  assert (download_zip demo_root demo_ws "a" = Answer ("a.zip", members)) as Hd by (vm_compute; reflexivity).
  split; [exact Hd|].
  refine (archive_roundtrip (H := Hh) (λ _ _, eq_refl) demo_root demo_ws "a" ["workspace"; "a"] "a.zip" members
    demo_root empty_ws "in/b" ["workspace"; "in"; "b"] _ _ Hd _ _ _ _ _ _).
  - apply tree_check. vm_compute. reflexivity.
  - vm_compute. reflexivity.
  - apply rooted_check. vm_compute. reflexivity.
  - vm_compute. reflexivity.
  - by eexists.
  - repeat constructor; done.
  - intros q Hq. destruct (decide (q = ["workspace"])) as [->|Hne]; [right; reflexivity|].
    destruct q as [|x q]; [by right|]. left. apply (lookup_singleton_ne _ _ Dir). congruence.
  - intros rel Hne. apply (lookup_singleton_ne _ _ Dir). by destruct rel.
Defined.

(** Where the rule of no loops is needed: past a link that is its own target CPython joins
    the rest of a path as it is, so a link that leads out of the workspace is not looked
    through, and the system follows it. *)
Example loop_escapes :
  let Hh : Host := quiet_host in
  ¬ settled looping_ws (joined demo_root "loop/../evil/passwd") ∧
  (serve no_text demo_root looping_ws (GetFile "evil/passwd")).1
    = HTTPException 403 "path 'evil/passwd' escapes workspace root /workspace" ∧
  (serve no_text demo_root looping_ws (GetFile "loop/../evil/passwd")).1 = Answer (FileOf (b64encode "root")) ∧
  (serve no_text demo_root looping_ws (PutFile "loop/../evil/passwd" (b64encode "mine") None)).2
    !! ["etc"; "passwd"] = Some (File "mine" 420).
Proof.
  intros Hh. split_and!; [|vm_compute; reflexivity..]. intros [q Hq]. vm_compute in Hq. discriminate Hq.
Qed.

(** Deleting a link deletes what it leads to, and leaves the link. *)
Example link_target_deleted :
  let Hh : Host := quiet_host in
  let m := (serve no_text demo_root demo_ws (DeleteFile "l" true)).2 in
  m !! ["workspace"; "a"; "x"] = None ∧ m !! ["workspace"; "a"] = None ∧ m !! ["workspace"; "l"] = Some (Link "a").
Proof. by vm_compute. Qed.

(** Reading below a file is an error of the server, not of the request. *)
Example read_below_a_file_crashes :
  let Hh : Host := quiet_host in
  (serve no_text demo_root demo_ws (GetFile "a/x/y")).1
  = Crash (OtherError "NotADirectoryError" "[Errno 20] Not a directory: '/workspace/a/x/y'").
Proof. by vm_compute. Qed.

(** A damaged member stops an extraction after the members before it were written. *)
Example damaged_member_leaves_half :
  let Hh : Host := quiet_host in
  let r := serve no_text demo_root empty_ws (PutZip "." (inr [Member "one" (Some ("1", true)); Member "two" None])) in
  r.1 = HTTPException 400 "invalid zip: Bad CRC-32 for file 'two'" ∧ r.2 !! ["workspace"; "one"] = Some (File "1" 420).
Proof. by vm_compute. Qed.
