(* ===== verification/SandboxEnv.v ===== *)
(** * The client of a sandbox: [environment/sandbox.py], [environment/sandbox_process.py]

    What the environment makes of each reply of the runtime, its state (tokens, the mark
    that the backend is gone, readiness) and the handle of a background process. Composed
    with the server of RuntimeServer.v it is a store of files, agrees with the environment
    of the host ([environment/local.py]), and its handles read as local ones. A transport
    error is an exception in place of a reply. *)

From Stdlib Require Import QArith Qminmax Lqa.
From stdpp Require Import fin_maps gmap.
From S2P Require Import Prelude PyStr Names PyVal Sorting Environ ProcessRegistry ProcessTool WorkspaceWindow FileOps Posix Web RuntimeServer.
#[local] Open Scope nat_scope.

(** ** Replies *)

(** The content of a response: JSON, an archive, or any other text. *)
Inductive content := Json (v : pyval) | Archive (members : list member) | Text (t : string).
Record response := Response { status_code : Z; body : content }.
(** [r.json()]; [None] is a [JSONDecodeError]. *)
Definition response_json (r : response) : option pyval := match body r with Json v => Some v | _ => None end.

Section Client.
Context `{PyFloat}.

(** Starlette's JSON: no blanks, characters as they are. *)
Definition wire_json : dump_opts :=
  {| item_sep := ","; key_sep := ":"; sort_keys := false; ensure_ascii := false |}.
(** [r.text]; that of an archive is not looked at. *)
Definition response_text (r : response) : string :=
  match body r with Json v => json_dumps wire_json v | Text t => t | Archive _ => "" end.
Definition envelope_of (v : pyval) : res pydict :=
  match v with PDict d => Ok d | _ => Raise (AttributeError "get") end.

Definition _raise_file_http_error (op : string) (p : path) (r : response) : exc :=
  let where_ := "sandbox " +:+ op +:+ "(" +:+ path_text p +:+ ")" in
  let raise_ (detail : string) : exc :=
    if (status_code r =? 404)%Z then FileNotFoundError (where_ +:+ ": " +:+ detail)
    else if (status_code r =? 403)%Z then OtherError "PermissionError" (where_ +:+ ": " +:+ detail)
    else
      let lowered := lower detail in
      if (status_code r =? 400)%Z && contains "is a directory" lowered
      then OtherError "IsADirectoryError" (where_ +:+ ": " +:+ detail)
      else if (status_code r =? 400)%Z && contains "not a directory" lowered
      then OtherError "NotADirectoryError" (where_ +:+ ": " +:+ detail)
      else if (status_code r =? 400)%Z && contains "file exists" lowered
      then OtherError "FileExistsError" (where_ +:+ ": " +:+ detail)
      else OSError (where_ +:+ " HTTP " +:+ str_of_Z (status_code r) +:+ ": " +:+ detail) in
  match response_json r with
  | None => raise_ (response_text r)
  | Some v => match envelope_of v with
              | Ok d => raise_ (py_str (default (PStr (response_text r)) (dget d "detail")))
              | Raise e => e
              end
  end.

Definition is_200 (r : response) : bool := (status_code r =? 200)%Z.

Definition read_reply (p : path) (r : response) : res string :=
  let where_ := "sandbox read_file(" +:+ path_text p +:+ ") " +:+ em_dash +:+ " " in
  if is_200 r then
    match response_json r with
    | None => Raise (OSError (where_ +:+ "non-JSON response: " +:+ repr_str (response_text r)))
    | Some v =>
        let! envelope := envelope_of v in
        match get envelope "content_b64" with
        | PNone => Raise (OSError (where_ +:+ "response missing 'content_b64': " +:+ py_repr v))
        | PStr encoded => b64decode encoded
        | _ => Raise (TypeError "argument should be a bytes-like object or ASCII string")
        end
    end
  else Raise (_raise_file_http_error "read_file" p r).

(** [list(v)] of a JSON value. *)
Definition json_list (v : pyval) : res (list pyval) :=
  match v with
  | PList l => Ok l
  | PStr s => Ok (map (λ c, PStr (s1 c)) (list_ascii_of_string s))
  | PDict d => Ok (map (λ kv, PStr kv.1) d)
  | _ => Raise (TypeError "object is not iterable")
  end.
Definition list_reply (p : path) (r : response) : res (list pyval * bool) :=
  if is_200 r then
    match response_json r with
    | None => Raise (OSError ("sandbox list_directory(" +:+ path_text p +:+ ") " +:+ em_dash +:+
                              " non-JSON response: " +:+ repr_str (response_text r)))
    | Some v =>
        let! envelope := envelope_of v in
        let! entries := json_list (default (PList []) (dget envelope "entries")) in
        Ok (entries, truthy (default (PBool false) (dget envelope "truncated")))
    end
  else Raise (_raise_file_http_error "list_directory" p r).

(** [write_file], [delete_file], [upload_zip]: nothing but the status is looked at. *)
Definition ok_reply (op : string) (p : path) (r : response) : res unit :=
  if is_200 r then Ok tt else Raise (_raise_file_http_error op p r).
Definition download_reply (p : path) (r : response) : res (list member) :=
  if is_200 r then
    match body r with
    | Archive members => Ok members
    | _ => Raise (OSError "content is no archive")
    end
  else Raise (_raise_file_http_error "download_zip" p r).

(** ** Commands *)

Record ExecutionResult := Executed { exit_code : Z; stdout : string; stderr : string; timed_out : bool }.
Definition failed (why : string) : ExecutionResult := Executed (-1) "" why false.
(** [inl]: a transport error. *)
Definition execute_reply (r : exc + response) : res ExecutionResult :=
  match r with
  | inl x => Ok (failed ("sandbox /exec transport error: " +:+ exc_text x))
  | inr r =>
      if negb (is_200 r)
      then Ok (failed ("sandbox /exec HTTP " +:+ str_of_Z (status_code r) +:+ ": " +:+ response_text r))
      else match response_json r with
           | None => Ok (failed ("non-JSON response: " +:+ response_text r))
           | Some v =>
               let! envelope := envelope_of v in
               let! code := py_int (default (PInt (-1)) (dget envelope "exit_code")) in
               Ok (Executed code (py_str (default (PStr "") (dget envelope "stdout")))
                     (py_str (default (PStr "") (dget envelope "stderr")))
                     (truthy (default (PBool false) (dget envelope "timed_out"))))
           end
  end.
(** The body of the request, and the time the round trip is given. *)
Definition execute_body (command : string) (timeout : option pyval) (env : option pydict) : pydict :=
  [("command", PStr command)]
  ++ match timeout with Some t => [("timeout", t)] | None => [] end
  ++ match env with Some e => [("env", PDict e)] | None => [] end.
Definition http_timeout (timeout : option Q) : Q := match timeout with Some t => t + 30 | None => 600 end.

Definition make_dir_command (p : path) : string := "mkdir -p " +:+ shlex_quote (path_text p).
Definition make_dir_reply (p : path) (r : exc + response) : res unit :=
  let! result := execute_reply r in
  if (exit_code result =? 0)%Z then Ok tt
  else Raise (OSError (or_str (stderr result) ("mkdir failed for " +:+ path_text p))).

(** ** Processes *)

(** [r.raise_for_status()] *)
Definition raise_for_status (r : response) : res unit :=
  if ((200 <=? status_code r) && (status_code r <? 300))%Z then Ok tt
  else Raise (OtherError "HTTPStatusError" (str_of_Z (status_code r))).
(** [r.json()], its error propagated. *)
Definition json_of (r : response) : res pyval :=
  match response_json r with Some v => Ok v | None => Raise (ValueError "JSONDecodeError") end.
Definition item (d : pydict) (k : string) : res pyval :=
  match dget d k with Some v => Ok v | None => Raise (KeyError k) end.

Definition spawn_reply (r : response) : res (string * Z) :=
  let! _ := raise_for_status r in
  let! v := json_of r in
  let! d := envelope_of v in
  let! sid := item d "session_id" in
  let! raw := item d "pid" in
  let! pid := py_int raw in
  Ok (py_str sid, pid).

Definition row_of (v : pyval) : res pydict :=
  let! s := envelope_of v in
  let! sid := item s "session_id" in
  let! command := item s "command" in
  let! running := item s "is_running" in
  Ok [("session_id", sid); ("command", command); ("running", running); ("exit_code", get s "exit_code");
      ("idle_seconds", default (PFloat 0) (dget s "idle_seconds"));
      ("output_size", default (PInt 0) (dget s "output_size")); ("pid", default (PInt 0) (dget s "pid"));
      ("started_at", PFloat 0)].
Fixpoint rows_of (l : list pyval) : res (list pydict) :=
  match l with
  | [] => Ok []
  | v :: l' => let! row := row_of v in let! rows := rows_of l' in Ok (row :: rows)
  end.
Definition processes_reply (r : response) : res (list pydict) :=
  let! _ := raise_for_status r in
  let! v := json_of r in
  let! d := envelope_of v in
  let! sessions := json_list (default (PList []) (dget d "sessions")) in
  rows_of sessions.
Definition kill_reply (r : response) : res bool :=
  if (status_code r =? 404)%Z then Ok false else let! _ := raise_for_status r in Ok true.
End Client.

(** ** The state of the environment *)

Record sandbox_env := SandboxEnv {
  _initialized : bool; _gone : bool; _closed : bool; _last_probe_error : string;
  bearer : string; routing_token : string; _routing_token_refreshed_at : Q
}.
Definition with_flags (init gone closed : bool) (probe : string) (e : sandbox_env) : sandbox_env :=
  SandboxEnv init gone closed probe (bearer e) (routing_token e) (_routing_token_refreshed_at e).

(** The hook on every response: a gateway error marks the backend as gone, once the
    sandbox has been ready. *)
Definition gateway_error (status : Z) : bool := existsb (Z.eqb status) [502; 503; 504]%Z.
Definition _note_response (status : Z) (e : sandbox_env) : sandbox_env :=
  if negb (_initialized e) then e
  else if gateway_error status then with_flags (_initialized e) true (_closed e) (_last_probe_error e) e
  else e.
(** A call: the response passes the hook, then is read. *)
Definition call {A} (reply : exc + response) (read : response → res A) (e : sandbox_env) : res A * sandbox_env :=
  match reply with
  | inl x => (Raise x, e)
  | inr r => (read r, _note_response (status_code r) e)
  end.

(** [initialize]: [/healthz] is asked until it answers 200 or the time is up. *)
Definition _HEALTHZ_TIMEOUT_SEC : Q := 180.
Definition _POLL_INTERVAL_SEC : Q := 3.
Section Ready.
Context `{PyFloat} (sandbox_name : string) (healthz : nat → exc + response) (clock : nat → Q).

(** Whether a probe found it ready, and what it wrote down otherwise. *)
Definition _probe_healthz (r : exc + response) : bool * option string :=
  match r with
  | inl x => (false, Some (exc_name x +:+ ": " +:+ exc_text x))
  | inr r => if negb (is_200 r)
             then (false, Some ("HTTP " +:+ str_of_Z (status_code r) +:+ ": " +:+ stake 200 (response_text r)))
             else (true, None)
  end.
Fixpoint _wait_for (fuel i : nat) (deadline : Q) (last_error : string) : option (res unit * string) :=
  match fuel with
  | 0 => None
  | S fuel' =>
      let '(ready, error) := _probe_healthz (healthz i) in
      let last_error := default last_error error in
      if ready then Some (Ok tt, last_error)
      else if Qle_bool deadline (clock i) then
        let detail := if (last_error =? "")%string then "" else " last_error=" +:+ repr_str last_error in
        Some (Raise (OtherError "TimeoutError" ("sandbox /healthz never became ready within 180s (sandbox="
                       +:+ sandbox_name +:+ ")" +:+ detail)), last_error)
      else _wait_for fuel' (S i) deadline last_error
  end.
(** [start]: the clock before the first probe. *)
Definition initialize (fuel : nat) (start : Q) (e : sandbox_env) : option (res unit * sandbox_env) :=
  if _initialized e then Some (Ok tt, e)
  else match _wait_for fuel 0 (start + _HEALTHZ_TIMEOUT_SEC) "" with
       | None => None
       | Some (r, error) =>
           Some (r, with_flags (match r with Ok _ => true | Raise _ => false end) (_gone e) (_closed e) error e)
       end.
End Ready.

(** [refresh_auth]: what minting a token or fetching the routing token comes to. *)
Inductive fetched := Fetched (token : string) | BackendGone | FetchFailed (e : exc).
Definition refresh_auth (minter routing : option fetched) (now interval : Q) (e : sandbox_env) : bool * sandbox_env :=
  if _gone e then (false, e)
  else match minter with
       | None => (true, e)
       | Some BackendGone => (false, e)
       | Some (FetchFailed _) => (true, e)
       | Some (Fetched token) =>
           let e1 := SandboxEnv (_initialized e) (_gone e) (_closed e) (_last_probe_error e)
                       ("Bearer " +:+ token) (routing_token e) (_routing_token_refreshed_at e) in
           if negb (Qle_bool interval (now - _routing_token_refreshed_at e)) then (true, e1)
           else match routing with
                | None => (true, e1)
                | Some BackendGone => (false, e1)
                | Some (FetchFailed _) => (true, e1)
                | Some (Fetched routing) =>
                    (true, SandboxEnv (_initialized e) (_gone e) (_closed e) (_last_probe_error e)
                             ("Bearer " +:+ token) routing now)
                end
       end.

(** [close], whatever closing the HTTP client comes to, and [close_sync]. *)
Definition close (e : sandbox_env) : sandbox_env :=
  if _closed e then e else with_flags (_initialized e) (_gone e) true (_last_probe_error e) e.
Definition close_sync (e : sandbox_env) : sandbox_env :=
  with_flags (_initialized e) (_gone e) true (_last_probe_error e) e.

(** ** The handle of a background process *)

Record sandbox_handle := SandboxHandle {
  h_session_id : string; h_pid : Z; h_command : string; h_started_at : Q; h_finished_at : option Q;
  h_exit_code : option Z; h_output_size : Z; h_last_status_at : Q; h_last_idle_seconds : Q; h_is_running : bool
}.
Definition new_handle (session_id : string) (pid : Z) (command : string) (now : Q) : sandbox_handle :=
  SandboxHandle session_id pid command now None None 0 0 0 true.
Definition finish (now : Q) (f : option Q) : option Q := Some (default now f).
Definition h_ended (code : option Z) (now : Q) (h : sandbox_handle) : sandbox_handle :=
  SandboxHandle (h_session_id h) (h_pid h) (h_command h) (h_started_at h) (finish now (h_finished_at h)) code
    (h_output_size h) (h_last_status_at h) (h_last_idle_seconds h) false.
Definition h_with_code (code : option Z) (h : sandbox_handle) : sandbox_handle :=
  SandboxHandle (h_session_id h) (h_pid h) (h_command h) (h_started_at h) (h_finished_at h) code
    (h_output_size h) (h_last_status_at h) (h_last_idle_seconds h) (h_is_running h).
Definition idle_seconds (now : Q) (h : sandbox_handle) : Q :=
  h_last_idle_seconds h + Qmax 0 (now - h_last_status_at h).

(** An exit code as the wire has it. *)
Definition code_of (v : pyval) : option Z := match v with PInt z => Some z | _ => None end.
Definition _apply_status (d : pydict) (now : Q) (h : sandbox_handle) : res sandbox_handle :=
  let running := truthy (default (PBool false) (dget d "is_running")) in
  let! size := py_int (default (PInt 0) (dget d "output_size")) in
  let! idle := py_float (default (PFloat 0) (dget d "idle_seconds")) in
  Ok (SandboxHandle (h_session_id h) (h_pid h) (h_command h) (h_started_at h)
        (if running then h_finished_at h else finish now (h_finished_at h))
        (code_of (get d "exit_code")) size now idle running).
Definition refresh_status (r : response) (now : Q) (h : sandbox_handle) : res sandbox_handle :=
  let! _ := raise_for_status r in
  let! v := json_of r in
  let! d := envelope_of v in
  _apply_status d now h.

(** [read]: the bytes, the next offset and the exit code, and the handle after it. *)
Definition handle_read (r : response) (now : Q) (h : sandbox_handle) :
    res (string * Z * option Z) * sandbox_handle :=
  match (let! _ := raise_for_status r in
         let! v := json_of r in
         let! d := envelope_of v in
         let! raw := item d "data_b64" in
         let! data := match raw with PStr s => b64decode s | _ => Raise (TypeError "expected bytes") end in
         let! next := item d "next_offset" in
         let! n := py_int next in
         Ok (data, n, code_of (get d "exit_code"))) with
  | Raise e => (Raise e, h)
  | Ok (data, n, code) =>
      (Ok (data, n, code), match code with Some _ => h_ended code now h | None => h_with_code None h end)
  end.
(** [write]: refused without asking once it is known to have ended. *)
Definition already_exited (h : sandbox_handle) : exc :=
  RuntimeError ("process " +:+ h_session_id h +:+ " has already exited").
Definition handle_write (ask : string → bool → response) (data : string) (h : sandbox_handle) : res unit * sandbox_handle :=
  if negb (h_is_running h) then (Raise (already_exited h), h)
  else
    let r := ask (b64encode data) false in
    if (status_code r =? 409)%Z
    then (Raise (already_exited h),
          SandboxHandle (h_session_id h) (h_pid h) (h_command h) (h_started_at h) (h_finished_at h) (h_exit_code h)
            (h_output_size h) (h_last_status_at h) (h_last_idle_seconds h) false)
    else (raise_for_status r, h).
Definition handle_kill (ask : response) (now : Q) (h : sandbox_handle) : res unit * sandbox_handle :=
  if negb (h_is_running h) then (Ok tt, h)
  else match (let! _ := raise_for_status ask in
              let! v := json_of ask in
              let! d := envelope_of v in
              py_int (default (PInt (-1)) (dget d "exit_code"))) with
       | Raise e => (Raise e, h)
       | Ok code => (Ok tt, h_ended (Some code) now h)
       end.

(** [wait]: the status is asked until the process has ended or the deadline is over; the
    replies and the clocks are those of each round. *)
Fixpoint handle_wait (fuel i : nat) (asked : nat → response) (now : nat → Q) (deadline : option Q)
    (h : sandbox_handle) : option (res (option Z) * sandbox_handle) :=
  match fuel with
  | 0 => None
  | S fuel' =>
      match refresh_status (asked i) (now i) h with
      | Raise e => Some (Raise e, h)
      | Ok h' =>
          if negb (h_is_running h') then Some (Ok (h_exit_code h'), h')
          else if match deadline with Some d => Qle_bool d (now i) | None => false end then Some (Ok None, h')
          else handle_wait fuel' (S i) asked now deadline h'
      end
  end.

(** ** Over the server *)

Section Wire.
Context `{PyFloat} `{Host} (validation : string → string) (root : path).

(** The response a route's answer becomes. *)
Definition render {A} (f : A → content) (w : web A) : response :=
  match w with
  | Answer a => Response 200 (f a)
  | HTTPException s d => Response s (Json (PDict [("detail", PStr d)]))
  | Crash _ => Response 500 (Text "Internal Server Error")
  end.
Definition ok_json (_ : unit) : content := Json (PDict [("status", PStr "ok")]).
Definition entry_json (e : ListEntry) : pyval :=
  PDict [("name", PStr (e_name e)); ("kind", PStr (e_kind e)); ("size", PInt (e_size e)); ("mtime", PInt (e_mtime e))].
Definition listing_json (r : list ListEntry * bool) : content :=
  Json (PDict [("entries", PList (map entry_json r.1)); ("truncated", PBool r.2)]).

Definition env_read (m : fs) (p : path) : res string :=
  read_reply p (render (λ c, Json (PDict [("content_b64", PStr c)])) (read_file root m (path_text p))).
Definition env_list (m : fs) (p : path) (limit : Z) : res (list pyval * bool) :=
  list_reply p (render listing_json (list_files validation root m (path_text p) limit)).
Definition env_write (m : fs) (p : path) (data : string) : res unit * fs :=
  let '(w, m') := write_file root m (path_text p) (b64encode data) None in
  (ok_reply "write_file" p (render ok_json w), m').
Definition env_delete (m : fs) (p : path) (recursive : bool) : res unit * fs :=
  let '(w, m') := delete_file root m (path_text p) recursive in
  (ok_reply "delete_file" p (render ok_json w), m').
Definition env_download (m : fs) (p : path) : res (list member) :=
  download_reply p (render (λ r, Archive r.2) (download_zip root m (path_text p))).
Definition env_upload (m : fs) (p : path) (members : list member) : res unit * fs :=
  let '(w, m') := upload_zip root m (path_text p) (inr members) in
  (ok_reply "upload_zip" p (render ok_json w), m').
End Wire.

(** ** The environment of the host: [environment/local.py] *)

Section Local.
Context `{Host}.

Definition res_of_sys {A} (r : sys A) : res A := match r with Done a => Ok a | Fails e p => Raise (os_exc e p) end.
Definition res_of_outcome (r : outcome) : res unit * fs := (res_of_sys r.1, r.2).

Definition local_list (m : fs) (p : path) (limit : nat) : res (list ListEntry * bool) :=
  let! found := res_of_sys (scandir m p) in
  Ok (list_rows m found.1 limit (sort_by str_leb found.2) []).
Definition local_make_dir (m : fs) (p : path) : res unit * fs := res_of_outcome (mkdir_p m p).
(** [shutil.rmtree(path)]: of a link it is refused, of a file it is no directory. *)
Definition local_rmtree (m : fs) (p : path) : res unit * fs :=
  match locate m false p with
  | inl e => (Raise (os_exc e p), m)
  | inr q =>
      match node_at m q with
      | None => (Raise (os_exc ENOENT p), m)
      | Some (Link _) => (Raise (OSError "Cannot call rmtree on a symbolic link"), m)
      | Some (File _ _) => (Raise (os_exc ENOTDIR p), m)
      | Some Dir => res_of_outcome (rmtree m p)
      end
  end.
Definition local_delete (m : fs) (p : path) (recursive : bool) : res unit * fs :=
  if recursive then local_rmtree m p else res_of_outcome (unlink m p).
(** Without asking whether there is a directory. *)
Definition local_download (m : fs) (p : path) : res (list member) :=
  match locate m true p with
  | inl _ => Ok []
  | inr q => res_of_sys (zip_files p (files_below m q))
  end.
End Local.

(** * Facts *)

Section Store.
Context `{PyFloat} `{Host} (quiet : ∀ op p, fault op p = None) (validation : string → string) (root : path).

(** A place the theorems are about: under the root, named properly, through no link. *)
Record place (m : fs) (p : path) : Prop := {
  pl_tree : tree m; pl_rooted : rooted root m; pl_physical : physical m p; pl_proper : proper p;
  pl_under : root `prefix_of` p
}.

Lemma resolve_place m p : place m p → _resolve_within_workspace root m (path_text p) = Answer p.
Proof.
  intros [Ht Hr Hp Hpr Hu]. unfold _resolve_within_workspace, joined.
  change (is_absolute (path_text p)) with true. cbv iota.
  replace (parts (path_text p)) with p; [|unfold path_text; by rewrite parts_slash, parts_join by by apply proper_parts].
  rewrite (resolve_own quiet) by (done || by apply proper_clean). cbn [of_res web_bind]. by rewrite bool_decide_true.
Qed.
Lemma place_walk m p follow : place m p → walked m p (locate m follow p).
Proof. intros [Ht Hr Hp Hpr Hu]. apply walk_cases; [done|done|by apply proper_clean]. Qed.
Lemma place_parent_root m p : place m p → p ≠ root → node_at m root = Some Dir ∧ p ≠ [].
Proof. intros [Ht Hr _ _ Hu] Hne. split; [by apply Hr|]. intros ->. by apply prefix_nil_eq in Hu. Qed.

(** What [read_file] answers. *)
Lemma read_file_place m p : place m p → read_file root m (path_text p) =
  match node_at m p with
  | Some (File d _) => Answer (b64encode d)
  | Some _ => HTTPException 400 (os_text EISDIR p)
  | None => match locate m true p with inl ENOTDIR => Crash (os_exc ENOTDIR p) | _ => HTTPException 404 (os_text ENOENT p) end
  end.
Proof.
  intros Hpl. unfold read_file. rewrite (resolve_place m p Hpl). cbn [web_bind]. unfold read_bytes. rewrite quiet.
  destruct (place_walk m p true Hpl) as [Hd Hb|Hn Hb Hd|Hn Hb]; [|by rewrite Hn..].
  destruct (node_at m p) as [[d md| |t]|] eqn:E; try done.
  pose proof (pl_physical m p Hpl p (reflexivity p)) as Hl. unfold link_target in Hl. by rewrite E in Hl.
Qed.

Lemma env_read_place m p d : place m p → env_read root m p = Ok d ↔ contents_at m p = Some d.
Proof.
  intros Hpl. unfold env_read, contents_at. rewrite (read_file_place m p Hpl).
  destruct (node_at m p) as [[data md| |t]|] eqn:E.
  - assert (read_reply p (Response 200 (Json (PDict [("content_b64", PStr (b64encode data))]))) = Ok data) as E'
      by exact (b64_std_roundtrip data).
    cbn [render]. rewrite E'. split; congruence.
  - split; [|done]. unfold read_reply. cbn [render is_200 status_code]. by change (400 =? 200)%Z with false.
  - split; [|done]. unfold read_reply. cbn [render is_200 status_code]. by change (400 =? 200)%Z with false.
  - split; [|done]. destruct (locate m true p) as [[]|q]; unfold read_reply; cbn [render is_200 status_code];
      (by change (404 =? 200)%Z with false) || (by change (500 =? 200)%Z with false).
Qed.

Lemma ok_reply_answer op p (w : web unit) : ok_reply op p (render ok_json w) = Ok tt ↔ w = Answer tt ∨
  ∃ d, w = HTTPException 200 d.
Proof.
  unfold ok_reply, is_200. destruct w as [[]|s d|e]; cbn [render status_code].
  - change (200 =? 200)%Z with true. cbv iota. split; [by left|done].
  - destruct (Z.eqb_spec s 200) as [->|Hs]; split; try done; [intros _; right; by exists d|].
    intros [?|[? ?]]; congruence.
  - change (500 =? 200)%Z with false. cbv iota. split; [done|]. by intros [?|[? ?]].
Qed.
Definition refuses (refuse : errno → path → web unit) : Prop := ∀ e p, refuse e p ≠ Answer tt ∧ ∀ d, refuse e p ≠ HTTPException 200 d.
Lemma status_ok_reply op p r refuse : refuses refuse →
  ok_reply op p (render ok_json (status_ok r refuse).1) = Ok tt ↔ r.1 = Done tt.
Proof.
  intros Hr. rewrite ok_reply_answer. destruct r as [[[]|e q] m]; cbn [status_ok fst].
  - split; [done|by left].
  - destruct (Hr e q) as [H1 H2]. split; [|done]. intros [?|[d ?]]; [done|by destruct (H2 d)].
Qed.
Lemma write_refuses : refuses write_refusal.
Proof. intros [] p; split; done. Qed.
Lemma delete_refuses : refuses delete_refusal.
Proof. intros [] p; split; done. Qed.

Lemma mkdir_contents m m1 p : (∀ q, q `prefix_of` p → node_at m q = None ∨ node_at m q = Some Dir) →
  (∀ q, node_at m1 q = if bool_decide (q `prefix_of` p) then Some Dir else node_at m q) →
  same_links m m1 ∧ ∀ q, contents_at m1 q = contents_at m q.
Proof.
  intros Hfree Hm1. split; intros q; unfold link_target, contents_at; rewrite Hm1;
    (case_bool_decide as Hq; [|done]); by destruct (Hfree q Hq) as [-> | ->].
Qed.

Lemma write_all_place m p data : place m p → ∃ r m', write_all data None m p = (r, m') ∧ tree m' ∧ same_links m m' ∧
  (r = Done tt ↔ ¬ blocked m (parent p) ∧ node_at m p ≠ Some Dir) ∧
  (r = Done tt → ∀ q, contents_at m' q = if decide (q = p) then Some data else contents_at m q) ∧
  (r ≠ Done tt → ∀ q, contents_at m' q = contents_at m q).
Proof.
  intros [Ht Hr Hp Hpr Hu]. pose proof (proper_clean p Hpr) as Hc. unfold write_all.
  pose proof (physical_parent m p Hp) as Hpp. pose proof (parent_clean p Hc) as Hcp.
  destruct (free_or_blocked m (parent p) Hpp) as [Hfree|Hb].
  2:{ destruct (mkdir_blocked quiet m (parent p) Ht Hpp Hcp Hb) as (e & at_ & _ & ->). exists (Fails e at_), m.
      cbn [and_then]. split_and!; try done. split; [done|]. by intros [? _]. }
  destruct (mkdir_p_ok quiet m (parent p) Hpp Hcp Hfree) as (m1 & -> & Hm1). cbn [and_then].
  destruct (mkdir_contents m m1 _ Hfree Hm1) as [Hl1 Hc1].
  assert (tree m1) as Ht1 by (apply (tree_mkdir m m1 (parent p)); [done|by apply (proper_prefix p); [apply parent_prefix|]|done]).
  pose proof (physical_same _ _ _ Hl1 Hp) as Hp1.
  assert (∀ q, q `prefix_of` parent p → node_at m1 q = Some Dir) as Hd1 by (intros q Hq; by rewrite Hm1, bool_decide_true).
  destruct (decide (node_at m p = Some Dir)) as [Hdir|Hdir].
  - exists (Fails EISDIR p), m1. assert (node_at m1 p = Some Dir) as Hn1 by (rewrite Hm1; by case_bool_decide).
    assert (write_bytes data m1 p = (Fails EISDIR p, m1)) as ->.
    { unfold write_bytes. by rewrite quiet, locate_dirs, Hn1. }
    cbn [and_then]. split_and!; try done. split; [done|]. by intros [_ ?].
  - assert (p ≠ []) as Hne by (intros ->; done).
    assert (node_at m1 p ≠ Some Dir) as Hn1.
    { rewrite Hm1, bool_decide_false by by apply parent_strict. done. }
    destruct (write_bytes_ok quiet data m1 p Hp1 Hc Hne Hd1 Hn1) as [mode ->]. cbn [and_then].
    exists (Done tt), (<[p := File data mode]> m1). split_and!; [done|by apply tree_write; [..|apply Hd1|]| | | |done].
    + intros q. rewrite <- (Hl1 q). apply insert_same_links; [done|by apply Hp1|done].
    + split; [|done]. intros _. split; [by apply free_not_blocked|done].
    + intros _ q. unfold contents_at at 1. rewrite node_at_insert by done. case_decide; [done|apply Hc1].
Qed.

Lemma remove_file_place m p : place m p → ∃ r m', unlink m p = (r, m') ∧ tree m' ∧
  (∀ q t, link_target m' q = Some t → link_target m q = Some t) ∧
  (r = Done tt ↔ is_Some (contents_at m p)) ∧
  (r = Done tt → ∀ q, contents_at m' q = if decide (q = p) then None else contents_at m q) ∧
  (r ≠ Done tt → ∀ q, contents_at m' q = contents_at m q).
Proof.
  intros Hpl. unfold unlink.
  pose proof (place_walk m p false Hpl) as Hw. destruct Hpl as [Ht Hr Hp Hpr Hu].
  assert (is_Some (contents_at m p) ↔ ∃ d md, node_at m p = Some (File d md)) as Hcs.
  { unfold contents_at. destruct (node_at m p) as [[d md| |]|]; split; intros [? E]; try done; [by exists d, md|..];
      destruct E; congruence. }
  assert (∀ e q, node_at m p = None ∨ node_at m p = Some Dir → ∃ r m', (@Fails unit e q, m) = (r, m') ∧ tree m' ∧
    (∀ q t, link_target m' q = Some t → link_target m q = Some t) ∧ (r = Done tt ↔ is_Some (contents_at m p)) ∧
    (r = Done tt → ∀ q, contents_at m' q = if decide (q = p) then None else contents_at m q) ∧
    (r ≠ Done tt → ∀ q, contents_at m' q = contents_at m q)) as Hfail.
  { intros e q Hn. exists (Fails e q), m. split_and!; try done. split; [done|]. intros (d & md & E)%Hcs.
    destruct Hn; congruence. }
  destruct Hw as [Hd Hb|Hn Hb Hd|Hn Hb]; [|by apply Hfail; left..]. unfold unlink_at. rewrite quiet.
  destruct (node_at m p) as [[d md| |t]|] eqn:E; [|by apply Hfail; right| |by apply Hfail; left].
  2:{ pose proof (Hp p (reflexivity p)) as Hl. unfold link_target in Hl. by rewrite E in Hl. }
  assert (p ≠ []) as Hne by (intros ->; done).
  exists (Done tt), (delete p m). split_and!; [done|by apply tree_unlink; [| |congruence]| | | |done].
  - intros q t. unfold link_target. rewrite node_at_delete by done. by case_decide.
  - split; [|done]. intros _. apply Hcs. by exists d, md.
  - intros _ q. unfold contents_at at 1. rewrite node_at_delete by done. by case_decide.
Qed.

(** C14. The environment of a sandbox is a store of files. At any place of the workspace that is
    reached through no link: a file reads as the bytes it has; a write succeeds unless a
    file stands in the way or the place is a directory, and then this file alone has the
    new bytes; a deletion succeeds exactly where there is a file, and takes it alone. A
    failure, which is always raised, leaves every file as it was. The place stays one, so
    this holds for any sequence of calls. *)
Theorem sandbox_file_store m p : place m p →
  (∀ d, env_read root m p = Ok d ↔ contents_at m p = Some d) ∧
  (∀ data r m', env_write root m p data = (r, m') → place m' p ∧ within root m m' ∧
     (r = Ok tt ↔ ¬ blocked m (parent p) ∧ node_at m p ≠ Some Dir) ∧
     ∀ q, contents_at m' q = if decide (r = Ok tt ∧ q = p) then Some data else contents_at m q) ∧
  (∀ r m', env_delete root m p false = (r, m') → place m' p ∧ within root m m' ∧
     (r = Ok tt ↔ is_Some (contents_at m p)) ∧
     ∀ q, contents_at m' q = if decide (r = Ok tt ∧ q = p) then None else contents_at m q).
Proof.
  intros Hpl. split; [intros d; by apply env_read_place|]. pose proof (resolve_place m p Hpl) as Hres.
  assert (settled m (joined root (path_text p))) as Hset.
  { replace (joined root (path_text p)) with p.
    - destruct Hpl. apply settled_own; [done|by apply proper_clean].
    - unfold joined. change (is_absolute (path_text p)) with true. cbv iota. unfold path_text.
      by rewrite parts_slash, parts_join by (apply proper_parts; by destruct Hpl). }
  assert (∀ m', tree m' → within root m m' → place m' p) as Hstay.
  { intros m' Ht' Hw. destruct Hpl. split; [done|by apply (within_rooted root m)|by apply (within_physical root m)|done..]. }
  split.
  - intros data r m' E. destruct (write_all_place m p data Hpl) as (x & m1 & Hx & Ht1 & _ & Hiff & Hok & Hko).
    pose proof (write_file_within root m (path_text p) (b64encode data) None (pl_rooted m p Hpl) Hset) as Hw.
    unfold env_write, write_file in *. rewrite Hres, b64_std_roundtrip, Hx in *.
    destruct (status_ok (x, m1) write_refusal) as [w m2] eqn:Es.
    assert (m2 = m1) as -> by (by destruct x; injection Es as _ <-). injection E as <- <-. cbn [snd] in Hw.
    assert (ok_reply "write_file" p (render ok_json w) = Ok tt ↔ x = Done tt) as Hrep.
    { pose proof (status_ok_reply "write_file" p (x, m1) write_refusal write_refuses) as Hs. by rewrite Es in Hs. }
    split_and!; [by apply Hstay|done|by rewrite Hrep|]. intros q. case_decide as Hd.
    + destruct Hd as [->%Hrep ->]. by rewrite Hok, decide_True.
    + destruct x as [[]|e at_]; [|by apply Hko]. rewrite Hok by done. case_decide; [|done].
      destruct Hd. split; [by apply Hrep|done].
  - intros r m' E. destruct (remove_file_place m p Hpl) as (x & m1 & Hx & Ht1 & _ & Hiff & Hok & Hko).
    pose proof (delete_file_within root m (path_text p) false (pl_rooted m p Hpl) Hset) as Hw.
    unfold env_delete, delete_file in *. rewrite Hres in *. case_bool_decide as Hroot.
    { injection E as <- <-. subst p. split_and!; [done|done| |].
      - split; [done|]. unfold contents_at. rewrite (pl_rooted m root Hpl root (reflexivity root)). by intros [? ?].
      - intros q. case_decide as Hd; [|done]. by destruct Hd. }
    unfold remove, wants_tree in *. cbn [negb] in *. rewrite Hx in *.
    destruct (status_ok (x, m1) delete_refusal) as [w m2] eqn:Es.
    assert (m2 = m1) as -> by (by destruct x; injection Es as _ <-). injection E as <- <-. cbn [snd] in Hw.
    assert (ok_reply "delete_file" p (render ok_json w) = Ok tt ↔ x = Done tt) as Hrep.
    { pose proof (status_ok_reply "delete_file" p (x, m1) delete_refusal delete_refuses) as Hs. by rewrite Es in Hs. }
    split_and!; [by apply Hstay|done|by rewrite Hrep|]. intros q. case_decide as Hd.
    + destruct Hd as [->%Hrep ->]. by rewrite Hok, decide_True.
    + destruct x as [[]|e at_]; [|by apply Hko]. rewrite Hok by done. case_decide; [|done].
      destruct Hd. split; [by apply Hrep|done].
Qed.

(** ** The two environments *)

(** The same result, or an error of the same class. *)
Definition agree {A B} (R : A → B → Prop) (a : res A) (b : res B) : Prop :=
  match a, b with
  | Ok x, Ok y => R x y
  | Raise e, Raise e' => exc_name e = exc_name e'
  | _, _ => False
  end.

Lemma refusal_404 op p d : exc_name (_raise_file_http_error op p (Response 404 (Json (PDict [("detail", PStr d)]))))
  = "FileNotFoundError".
Proof. reflexivity. Qed.
Lemma refusal_400 op p d : exc_name (_raise_file_http_error op p (Response 400 (Json (PDict [("detail", PStr d)])))) =
  if contains "is a directory" (lower d) then "IsADirectoryError"
  else if contains "not a directory" (lower d) then "NotADirectoryError"
  else if contains "file exists" (lower d) then "FileExistsError" else "OSError".
Proof.
  set (w := "sandbox " +:+ op +:+ "(" +:+ path_text p +:+ ")").
  transitivity (exc_name (
    if contains "is a directory" (lower d) then OtherError "IsADirectoryError" (w +:+ ": " +:+ d)
    else if contains "not a directory" (lower d) then OtherError "NotADirectoryError" (w +:+ ": " +:+ d)
    else if contains "file exists" (lower d) then OtherError "FileExistsError" (w +:+ ": " +:+ d)
    else OSError (w +:+ " HTTP " +:+ "400" +:+ ": " +:+ d))); [reflexivity|]. by repeat case_match.
Qed.
Lemma lower_app s t : lower (s +:+ t) = lower s +:+ lower t.
Proof. induction s as [|c s IH]; [done|]. cbn. by rewrite <- IH. Qed.

Lemma free_walk m p follow : place m p → ¬ blocked m (parent p) →
  locate m follow p = inr p ∧ (∀ q, q `prefix_of` parent p → node_at m q = Some Dir) ∨
  locate m follow p = inl ENOENT ∧ node_at m p = None.
Proof. intros Hpl Hb. destruct (place_walk m p follow Hpl); [by left|by right|done]. Qed.

Lemma place_no_link m p t : place m p → node_at m p ≠ Some (Link t).
Proof.
  intros Hpl E. pose proof (pl_physical m p Hpl p (reflexivity p)) as Hl. unfold link_target in Hl. by rewrite E in Hl.
Qed.

Lemma lists_agree m p limit : place m p → ¬ blocked m (parent p) → (1 ≤ limit ≤ 10000)%Z →
  contains "is a directory" (lower (path_text p +:+ " is not a directory")) = false →
  agree (λ a b, b = (map entry_json a.1, a.2)) (local_list m p (Z.to_nat limit)) (env_list validation root m p limit).
Proof.
  intros Hpl Hb Hl Htext. unfold env_list, list_files.
  replace ((1 <=? limit) && (limit <=? 10000))%Z with true by (symmetry; apply andb_true_iff; split; apply Z.leb_le; lia).
  cbn [negb]. rewrite (resolve_place m p Hpl). cbn [web_bind].
  unfold local_list, directory, exists_, is_dir, test, stat, scandir. rewrite !quiet.
  destruct (free_walk m p true Hpl Hb) as [[-> Hd]|[-> Hn]]; [|exact (eq_sym (refusal_404 "list_directory" p _))].
  destruct (node_at m p) as [[d md| |t]|] eqn:E; cbn [of_sys web_bind negb is_dir_node].
  - change (exc_name (os_exc ENOTDIR p) = exc_name (_raise_file_http_error "list_directory" p
      (Response 400 (Json (PDict [("detail", PStr (path_text p +:+ " is not a directory"))]))))).
    rewrite refusal_400, Htext.
    assert (contains "not a directory" (lower (path_text p +:+ " is not a directory")) = true) as ->; [|done].
    apply contains_spec. rewrite lower_app. exists (lower (path_text p) +:+ " is "), "". by rewrite <- sapp_assoc.
  - cbn [of_sys web_bind render res_of_sys res_bind fst snd]. unfold list_reply. cbn [is_200 status_code].
    change (200 =? 200)%Z with true. cbv iota. by destruct (list_rows m p _ _ []) as [entries []].
  - by destruct (place_no_link m p t Hpl).
  - exact (eq_sym (refusal_404 "list_directory" p _)).
Qed.

Lemma deletions_agree m p : place m p → ¬ blocked m (parent p) → p ≠ root →
  agree eq (local_delete m p false).1 (env_delete root m p false).1 ∧
  (local_delete m p false).2 = (env_delete root m p false).2.
Proof.
  intros Hpl Hb Hne. unfold env_delete, delete_file. rewrite (resolve_place m p Hpl), bool_decide_false by done.
  unfold remove, wants_tree, local_delete, unlink, unlink_at. cbn [negb].
  destruct (free_walk m p false Hpl Hb) as [[-> Hd]|[-> Hn]].
  2:{ split; [|done]. exact (eq_sym (refusal_404 "delete_file" p _)). }
  rewrite quiet. destruct (node_at m p) as [[d md| |t]|] eqn:E.
  - by split.
  - split; [|done]. change (exc_name (os_exc EISDIR p) = exc_name (_raise_file_http_error "delete_file" p
      (Response 400 (Json (PDict [("detail", PStr (os_text EISDIR p))]))))).
    rewrite refusal_400. assert (contains "is a directory" (lower (os_text EISDIR p)) = true) as ->; [|done].
    unfold os_text. rewrite lower_app. apply contains_spec.
    exists "[errno 21] ", (lower (": " +:+ repr_str (path_text p))). by rewrite sapp_assoc.
  - by destruct (place_no_link m p t Hpl).
  - split; [|done]. exact (eq_sym (refusal_404 "delete_file" p _)).
Qed.

Lemma tree_deletions_agree m p : place m p → p ≠ root → node_at m p = Some Dir →
  ∃ m', local_delete m p true = (Ok tt, m') ∧ env_delete root m p true = (Ok tt, m') ∧ cleared p m m'.
Proof.
  intros Hpl Hne Hd. destruct (place_parent_root m p Hpl Hne) as [_ Hp0].
  destruct (rmtree_ok quiet m p) as (m' & Hrm & Hcl); [by destruct Hpl|by destruct Hpl|
    apply proper_clean; by destruct Hpl|done|done|]. exists m'.
  assert (∀ f, locate m f p = inr p) as Hloc by (intros f; by destruct (place_walk m p f Hpl); [|congruence..]).
  split_and!; [| |done].
  - unfold local_delete, local_rmtree, res_of_outcome. by rewrite Hloc, Hd, Hrm.
  - unfold env_delete, delete_file. rewrite (resolve_place m p Hpl), bool_decide_false by done.
    unfold remove, wants_tree, is_dir, test, stat, is_symlink. rewrite !quiet, !Hloc, Hd. cbn [negb is_dir_node].
    unfold link_target. rewrite Hd. cbn [negb]. by rewrite Hrm.
Qed.

End Store.

(** ** A remote log reads as a local one *)

Definition bytes_of (s : string) : list Z := map (λ c, Z.of_N (code c)) (list_ascii_of_string s).

Lemma bytes_app s t : bytes_of (s +:+ t) = bytes_of s ++ bytes_of t.
Proof. unfold bytes_of. induction s as [|c s IH]; [done|]. cbn. by rewrite IH. Qed.
Lemma bytes_drop n s : bytes_of (sdrop n s) = drop n (bytes_of s).
Proof.
  unfold bytes_of. revert s. induction n as [|n IH]; intros [|c s]; try done. apply IH.
Qed.
Lemma bytes_take n s : bytes_of (stake n s) = take n (bytes_of s).
Proof.
  unfold bytes_of. revert s. induction n as [|n IH]; intros [|c s]; try done. cbn. f_equal. apply IH.
Qed.
Lemma bytes_length s : length (bytes_of s) = slen s.
Proof. unfold bytes_of. rewrite length_map. induction s as [|c s IH]; [done|]. cbn. by rewrite IH. Qed.
Lemma bytes_len s : len (bytes_of s) = Z.of_nat (slen s).
Proof. unfold len. by rewrite bytes_length. Qed.

(** What happens to a process: output, or its end. *)
Inductive process_event := Wrote (chunk : string) (now : Q) | Ended (code : option Z).
Definition remote_event (p : container_process) (ev : process_event) : container_process :=
  match ev with Wrote chunk now => on_output chunk now p | Ended code => on_end code p end.
Definition local_event (h : local_handle) (ev : process_event) : local_handle :=
  match ev with Wrote chunk _ => on_chunk (bytes_of chunk) h | Ended code => on_exit code 0 h end.

Record mirrors (p : container_process) (h : local_handle) : Prop := {
  m_buffer : _buffer h = bytes_of (c_buffer p);
  m_total : _total_bytes h = Z.of_nat (c_total p);
  m_bound : _buffer_bytes h = DEFAULT_BUFFER_BYTES;
  m_kept : slen (c_buffer p) ≤ c_total p;
  m_code : _exit_code h = c_code p;
  m_exited : _exited h = c_exited p
}.
Lemma buffer_size : Z.of_nat _PROCESS_BUFFER_BYTES = DEFAULT_BUFFER_BYTES.
Proof. unfold _PROCESS_BUFFER_BYTES, DEFAULT_BUFFER_BYTES. lia. Qed.

Lemma mirrors_event p h ev : mirrors p h → mirrors (remote_event p ev) (local_event h ev).
Proof.
  intros [Hb Ht Hn Hk Hc He]. destruct ev as [chunk now|code]; [|by split].
  pose proof buffer_size as Hsz. cbn [remote_event local_event].
  split; cbn [on_output on_chunk c_buffer c_total c_code c_exited _buffer _total_bytes _buffer_bytes _exit_code _exited];
    [| |exact Hn| |exact Hc|exact He].
  - rewrite Hb, Hn, bytes_drop, bytes_app, <- bytes_app, bytes_len. rewrite slen_app.
    case_match eqn:Ho; bool_prop.
    + f_equal. lia.
    + replace (slen (c_buffer p) + slen chunk - _PROCESS_BUFFER_BYTES) with 0 by lia. done.
  - rewrite Ht, bytes_len. lia.
  - assert (∀ n s, slen (sdrop n s) = slen s - n) as ->.
    { intros n s. by rewrite <- bytes_length, bytes_drop, length_drop, bytes_length. }
    rewrite slen_app. lia.
Qed.

Lemma mirrors_history p h events : mirrors p h →
  mirrors (fold_left remote_event events p) (fold_left local_event events h).
Proof.
  revert p h. induction events as [|ev events IH]; intros p h Hm; [done|]. cbn [fold_left]. by apply IH, mirrors_event.
Qed.

Lemma mirrors_read p h offset limit : mirrors p h → (0 ≤ offset)%Z → (∀ l, limit = Some l → 0 < l)%Z →
  let '(data, next) := c_read p (Z.to_nat offset) (option_map Z.to_nat limit) in
  ProcessTool.read h offset limit = (bytes_of data, Z.of_nat next, c_code p).
Proof.
  intros [Hb Ht Hn Hk Hc He] Ho Hl. unfold c_read, ProcessTool.read.
  rewrite Hb, Ht, Hc, bytes_len. set (n := slen (c_buffer p)) in *. set (start := c_total p - n).
  replace (Z.of_nat (c_total p) - Z.of_nat n)%Z with (Z.of_nat start) by (unfold start; lia).
  set (ss := Z.to_nat offset `max` start - start).
  replace (Z.max 0 (Z.min (Z.max offset (Z.of_nat start) - Z.of_nat start) (Z.of_nat n)))
    with (Z.of_nat (ss `min` n)) by (unfold ss; lia).
  assert (∀ l, (0 ≤ l)%Z → slice (bytes_of (c_buffer p)) (Z.of_nat (ss `min` n)) (Z.of_nat (ss `min` n) + l) =
    take (Z.to_nat l) (drop (ss `min` n) (bytes_of (c_buffer p)))) as Hslice.
  { intros l Hl0. unfold slice. rewrite bytes_len, Nat2Z.id. fold n.
    destruct (Z.ltb_spec (Z.of_nat (ss `min` n) + l) 0); [lia|].
    destruct (Z.le_gt_cases (Z.of_nat (ss `min` n) + l) (Z.of_nat n)).
    - f_equal. lia.
    - rewrite !take_ge; [done|..]; rewrite length_drop, bytes_length; fold n; lia. }
  destruct limit as [l|]; cbn [option_map].
  - rewrite Hslice by (specialize (Hl l eq_refl); lia). rewrite <- bytes_drop, <- bytes_take, bytes_len. f_equal. f_equal. lia.
  - rewrite Nat2Z.id, <- bytes_drop, bytes_len. f_equal. f_equal. lia.
Qed.

Definition output_json (o : ProcessOutput) : content :=
  Json (PDict [("data_b64", PStr (o_data_b64 o)); ("next_offset", PInt (Z.of_nat (o_next_offset o)));
               ("exit_code", match o_exit_code o with Some c => PInt c | None => PNone end)]).

(** A process of a sandbox reads as a local one. Started alike and given the same output
    and the same end, whatever they are, the handle over the network returns for every
    offset and limit the same bytes, the same next offset and the same exit code as the
    handle on the host, and knows from then on that the process has ended exactly when an
    exit code came with them. *)
Theorem remote_log_is_local `{PyFloat} validation t sid command pid events offset limit now sh :
  let p := fold_left remote_event events (Proc sid command pid "" 0 None false now) in
  let h := fold_left local_event events (started sid command pid 0) in
  dget t sid = Some p → (0 ≤ offset)%Z → (∀ l, limit = Some l → 0 < l)%Z →
  ∃ data next sh', handle_read (render output_json (process_output validation t sid offset limit)) now sh
      = (Ok (data, next, _exit_code h), sh') ∧
    ProcessTool.read h offset limit = (bytes_of data, next, _exit_code h) ∧
    h_exit_code sh' = _exit_code h ∧ h_is_running sh' = (match _exit_code h with Some _ => false | None => h_is_running sh end).
Proof.
  intros p h Ht Ho Hl. assert (mirrors p h) as Hm.
  { by apply mirrors_history. }
  pose proof (mirrors_read p h offset limit Hm Ho Hl) as Hr. pose proof (m_code p h Hm) as Hc.
  unfold process_output. replace (offset <? 0)%Z with false by (symmetry; apply Z.ltb_ge; lia).
  assert (match limit with Some l => (l <=? 0)%Z | None => false end = false) as ->.
  { destruct limit as [l|]; [|done]. apply Z.leb_gt. by apply Hl. }
  unfold _get_process. rewrite Ht. cbn [web_bind]. destruct (c_read p _ _) as [data next].
  rewrite Hc. exists data, (Z.of_nat next), (match c_code p with Some _ => h_ended (c_code p) now sh | None => h_with_code None sh end).
  split; [|split; [exact Hr|by destruct (c_code p)]].
  assert (∀ c, handle_read (Response 200 (output_json (POutput (b64encode data) next c))) now sh
    = (Ok (data, Z.of_nat next, c), match c with Some _ => h_ended c now sh | None => h_with_code None sh end)) as Hread.
  { intros c. unfold handle_read, output_json. cbn [o_data_b64 o_next_offset o_exit_code].
    change (raise_for_status _) with (Ok tt). cbn [res_bind json_of response_json body envelope_of].
    change (item _ "data_b64") with (Ok (PStr (b64encode data))). cbn [res_bind].
    rewrite b64_std_roundtrip. cbn [res_bind]. change (item _ "next_offset") with (Ok (PInt (Z.of_nat next))).
    cbn [res_bind py_int]. by destruct c. }
  apply Hread.
Qed.

(** ** Waiting for a sandbox *)

Section Waiting.
Context `{PyFloat} (sandbox_name : string) (healthz : nat → exc + response) (clock : nat → Q) (start : Q).
Context (ticks : ∀ i, (start + _POLL_INTERVAL_SEC * inject_Z (Z.of_nat i) <= clock i)%Q).

Definition ready (i : nat) : bool := (_probe_healthz (healthz i)).1.
Definition in_time (i : nat) : Prop := (clock i < start + _HEALTHZ_TIMEOUT_SEC)%Q.

Lemma late_after i : 60 ≤ i → Qle_bool (start + _HEALTHZ_TIMEOUT_SEC)%Q (clock i) = true.
Proof.
  intros Hi. apply Qle_bool_iff. eapply Qle_trans; [|apply ticks]. unfold _HEALTHZ_TIMEOUT_SEC, _POLL_INTERVAL_SEC.
  assert (60 <= inject_Z (Z.of_nat i))%Q as H60.
  { change (60#1) with (inject_Z 60). rewrite <- Zle_Qle. lia. }
  lra.
Qed.

(** The loop stops at the first probe that is ready or comes too late. *)
Lemma wait_stops fuel i error : i ≤ 60 → 60 < i + fuel →
  ∃ k error', i ≤ k ≤ 60 ∧ (∀ j, i ≤ j < k → ready j = false ∧ in_time j) ∧
    if ready k then _wait_for sandbox_name healthz clock fuel i (start + _HEALTHZ_TIMEOUT_SEC) error = Some (Ok tt, error')
    else ¬ in_time k ∧ ∃ msg, _wait_for sandbox_name healthz clock fuel i (start + _HEALTHZ_TIMEOUT_SEC) error
           = Some (Raise (OtherError "TimeoutError" msg), error').
Proof.
  revert i error. induction fuel as [|fuel IH]; intros i error Hi Hf; [lia|]. cbn [_wait_for].
  destruct (_probe_healthz (healthz i)) as [ok err] eqn:Ep. destruct ok.
  { exists i, (default error err). split; [lia|]. split; [intros; lia|]. unfold ready. by rewrite Ep. }
  destruct (Qle_bool _ (clock i)) eqn:El.
  { exists i, (default error err). split; [lia|]. split; [intros; lia|]. unfold ready. rewrite Ep. cbn [fst].
    split; [|by eexists]. intros Hlt. apply Qle_bool_iff in El. unfold in_time in Hlt. by apply Qlt_not_le in Hlt. }
  assert (i < 60) as Hlt.
  { destruct (le_lt_dec 60 i) as [Hge|?]; [|lia]. by rewrite (late_after i Hge) in El. }
  destruct (IH (S i) (default error err)) as (k & error' & Hk & Hj & Hres); [lia|lia|].
  exists k, error'. split; [lia|]. split; [|done]. intros j Hij. destruct (decide (j = i)) as [->|Hne].
  - unfold ready. rewrite Ep. split; [done|]. unfold in_time. apply Qnot_le_lt. intros Hle%Qle_bool_iff. congruence.
  - apply Hj. lia.
Qed.

(** Readiness is decided. With a clock that runs at least as fast as the pauses between
    probes, [initialize] returns within 61 probes: ready at the first probe that answers
    200 if none before it came after the deadline, and otherwise with a timeout, at the
    first probe after the deadline, and still not initialised. *)
Theorem initialize_decides e : _initialized e = false →
  ∃ k r e', initialize sandbox_name healthz clock 61 start e = Some (r, e') ∧ k ≤ 60 ∧
    (∀ j, j < k → ready j = false ∧ in_time j) ∧
    _gone e' = _gone e ∧ _initialized e' = ready k ∧
    if ready k then r = Ok tt else ¬ in_time k ∧ ∃ msg, r = Raise (OtherError "TimeoutError" msg).
Proof.
  intros He. unfold initialize. rewrite He.
  destruct (wait_stops 61 0 "") as (k & error & Hk & Hj & Hres); [lia|lia|]. exists k.
  destruct (ready k) eqn:Er.
  - rewrite Hres. eexists _, _. split_and!; [done|lia|intros j Hj'; apply Hj; lia|done|done|done].
  - destruct Hres as (Hlate & msg & ->). eexists _, _. split_and!; [done|lia|intros j Hj'; apply Hj; lia|done|done|done|].
    by eexists.
Qed.
End Waiting.

(** The environment is given up exactly when its backend is known to be gone: by a gateway
    error after it was ready, by the minting of a token, or by the fetch of a routing token
    that is due. Otherwise the tokens that could be had are in place. *)
Lemma refresh_gives_up minter routing now interval e :
  (refresh_auth minter routing now interval e).1 = false ↔
  _gone e = true ∨ minter = Some BackendGone ∨
  (∃ token, minter = Some (Fetched token)) ∧ routing = Some BackendGone ∧
    Qle_bool interval (now - _routing_token_refreshed_at e) = true.
Proof.
  unfold refresh_auth. destruct (_gone e); [split; [by left|done]|].
  destruct minter as [[token| |x]|]; cbn [fst].
  - destruct (Qle_bool interval _) eqn:El; cbn [negb].
    + destruct routing as [[r| |x]|]; cbn [fst]; split; try done.
      * intros [?|[?|(_ & ? & _)]]; done.
      * intros _. right; right. split; [by exists token|done].
      * intros [?|[?|(_ & ? & _)]]; done.
      * intros [?|[?|(_ & ? & _)]]; done.
    + split; [done|]. by intros [?|[?|(_ & _ & ?)]].
  - split; [by right; left|done].
  - split; [done|]. intros [?|[?|([? ?] & _)]]; done.
  - split; [done|]. intros [?|[?|([? ?] & _)]]; done.
Qed.

(** ** At concrete inputs *)

Definition plain_ws : fs := list_to_map [
  (["workspace"], Dir); (["workspace"; "a"], Dir); (["workspace"; "a"; "x"], File "hello" 420)].
Lemma plain_place p : proper p → demo_root `prefix_of` p → place demo_root plain_ws p.
Proof.
  intros Hp Hu. split; [apply tree_check; vm_compute; reflexivity|apply rooted_check; vm_compute; reflexivity| |exact Hp|exact Hu].
  intros q _. destruct (link_target plain_ws q) as [t|] eqn:E; [|done]. exfalso.
  apply link_in_links in E. assert (links plain_ws = ∅) as Hn by (vm_compute; reflexivity). rewrite Hn in E. by apply not_elem_of_empty in E.
Qed.

Lemma sandbox_file_store_witness :
  let Hf : PyFloat := λ _, "" in let Hh : Host := quiet_host in
  let p := ["workspace"; "a"; "x"] in
  (env_write demo_root plain_ws p "new").1 = Ok tt ∧
  (∀ d, env_read demo_root plain_ws p = Ok d ↔ contents_at plain_ws p = Some d) ∧
  (∀ data r m', env_write demo_root plain_ws p data = (r, m') → place demo_root m' p ∧ within demo_root plain_ws m' ∧
     (r = Ok tt ↔ ¬ blocked plain_ws (parent p) ∧ node_at plain_ws p ≠ Some Dir) ∧
     ∀ q, contents_at m' q = if decide (r = Ok tt ∧ q = p) then Some data else contents_at plain_ws q) ∧
  (∀ r m', env_delete demo_root plain_ws p false = (r, m') → place demo_root m' p ∧ within demo_root plain_ws m' ∧
     (r = Ok tt ↔ is_Some (contents_at plain_ws p)) ∧
     ∀ q, contents_at m' q = if decide (r = Ok tt ∧ q = p) then None else contents_at plain_ws q).
Proof.
  intros Hf Hh p. split; [vm_compute; reflexivity|].
  apply (sandbox_file_store (H := Hf) (H0 := Hh) (λ _ _, eq_refl) demo_root plain_ws p).
  apply plain_place; [repeat constructor; done|by exists ["a"; "x"]].
Defined.


Lemma remote_log_is_local_witness :
  let Hf : PyFloat := λ _, "" in
  let events := [Wrote "ab" 0; Wrote "c" 0; Ended (Some 0%Z)] in
  let p := fold_left remote_event events (Proc "p1" "make" 7 "" 0 None false 0) in
  let h := fold_left local_event events (started "p1" "make" 7 0) in
  let sh := new_handle "p1" 7 "make" 0 in
  bytes_of (c_buffer p) = [97; 98; 99]%Z ∧
  ∃ data next sh', handle_read (render output_json (process_output no_text [("p1", p)] "p1" 1 (Some 1%Z))) 5 sh
      = (Ok (data, next, _exit_code h), sh') ∧
    ProcessTool.read h 1 (Some 1%Z) = (bytes_of data, next, _exit_code h) ∧
    h_exit_code sh' = _exit_code h ∧ h_is_running sh' = (match _exit_code h with Some _ => false | None => h_is_running sh end).
Proof.
  intros Hf events p h sh. split; [vm_compute; reflexivity|].
  apply (remote_log_is_local (H := Hf) no_text [("p1", p)] "p1" "make" 7 events 1 (Some 1%Z) 5 sh); [done|lia|].
  intros l [= <-]. lia.
Defined.

Lemma initialize_decides_witness :
  let Hf : PyFloat := λ _, "" in
  let healthz : nat → exc + response :=
    λ i, if i <? 2 then inr (Response 503 (Text "booting")) else inr (Response 200 (Json (PDict []))) in
  let clock := λ i, (0 + _POLL_INTERVAL_SEC * inject_Z (Z.of_nat i))%Q in
  let e := SandboxEnv false false false "" "" "" 0 in
  _initialized e = false ∧
  ∃ k r e', initialize "box" healthz clock 61 0 e = Some (r, e') ∧ k ≤ 60 ∧
    (∀ j, j < k → ready healthz j = false ∧ in_time clock 0 j) ∧
    _gone e' = _gone e ∧ _initialized e' = ready healthz k ∧
    if ready healthz k then r = Ok tt else ¬ in_time clock 0 k ∧ ∃ msg, r = Raise (OtherError "TimeoutError" msg).
Proof.
  intros Hf healthz clock e. split; [reflexivity|].
  apply (initialize_decides (H := Hf) "box" healthz clock 0); [|reflexivity]. intros i. apply Qle_refl.
Defined.

(** Where the environments differ. Recursive deletion of a file is an error on the host and
    deletes the file in a sandbox; a missing directory is archived as empty on the host;
    below a file the classes of the errors differ; and a path may say that it is a
    directory. *)
Example environments_differ :
  let Hf : PyFloat := λ _, "" in let Hh : Host := quiet_host in
  let x := ["workspace"; "a"; "x"] in
  (local_delete plain_ws x true).1 = Raise (os_exc ENOTDIR x) ∧ (env_delete demo_root plain_ws x true).1 = Ok tt ∧
  local_download plain_ws ["workspace"; "b"] = Ok [] ∧
  agree eq (local_download plain_ws ["workspace"; "b"]) (env_download demo_root plain_ws ["workspace"; "b"]) = False ∧
  (match local_list plain_ws (x ++ ["y"]) 9, env_list no_text demo_root plain_ws (x ++ ["y"]) 9 with
   | Raise e, Raise e' => (exc_name e, exc_name e') = ("NotADirectoryError", "FileNotFoundError") | _, _ => False end) ∧
  (let odd := ["workspace"; "this is a directory"] in let m := <[odd := File "" 420]> plain_ws in
   match local_list m odd 9, env_list no_text demo_root m odd 9 with
   | Raise e, Raise e' => (exc_name e, exc_name e') = ("NotADirectoryError", "IsADirectoryError") | _, _ => False end).
Proof. intros Hf Hh x. split_and!; vm_compute; reflexivity. Qed.

(** A process whose exit code was not seen in time is taken to have ended. *)
Example kill_forgets_a_survivor :
  let Hf : PyFloat := λ _, "" in
  let t := [("p1", Proc "p1" "make" 7 "" 0 None false 0)] in
  let '(w, t') := process_kill None t "p1" in
  c_running (Proc "p1" "make" 7 "" 0 None false 0) = true ∧ t' = t ∧
  (handle_kill (render (λ c, Json (PDict [("exit_code", PInt c)])) w) 9 (new_handle "p1" 7 "make" 0)).2
    = h_ended (Some (-1)%Z) 9 (new_handle "p1" 7 "make" 0).
Proof. vm_compute. split_and!; reflexivity. Qed.
