(* ===== verification/Auth.v ===== *)
(** * Who a request is from: [auth/identity.py], [auth/oauth_verify.py], [scheduler/auth.py]

    The identity of a request in the three modes, the middleware in front of the routes,
    the verified access tokens the process remembers, and the gate of the scheduler's
    endpoints. Checking a signature and asking Google about a token are parameters. *)

From Stdlib Require Import QArith Qminmax Lqa.
From S2P Require Import Prelude PyStr Names PyVal RegexFacts Environ Web HaltGuards RoutineTool.
#[local] Open Scope nat_scope.

(** ** Verified access tokens: [oauth_verify.py] *)

Definition _TOKENINFO_URL : string := "https://oauth2.googleapis.com/tokeninfo".
Definition _CACHE_MAX_TTL : Q := 300.
Definition _CACHE_MAX_ENTRIES : nat := 4096.

(** [sha256(token) -> (email, expiry_epoch)] *)
Definition token_cache : Type := list (string * (string * Q)).

Definition OAuthVerifyError (msg : string) : exc := OtherError "OAuthVerifyError" msg.

Definition _truthy (v : pyval) : bool :=
  match v with PBool b => b | PStr s => (lower s =? "true")%string | _ => false end.

Definition is_text (t : string) (v : pyval) : bool := match v with PStr s => (s =? t)%string | _ => false end.

Definition tokeninfo_url (token : string) : string :=
  _TOKENINFO_URL +:+ "?" +:+ urlencode [("access_token", token)].

(** What a reply of the endpoint says for [expected_aud] at [current]: an email and the
    token's expiry. *)
Definition read_tokeninfo (expected_aud : string) (current : Q) (reply : res pyval) : res (string * Q) :=
  match reply with
  | Raise err => Raise (OAuthVerifyError ("tokeninfo request failed: " +:+ exc_text err))
  | Ok (PDict info) =>
      if negb (is_text expected_aud (get info "aud")) then Raise (OAuthVerifyError "token audience mismatch")
      else match get info "email" with
           | PStr email =>
               if (email =? "")%string then Raise (OAuthVerifyError "token missing email")
               else if negb (_truthy (get info "email_verified")) then Raise (OAuthVerifyError "email not verified")
               else match py_float (get info "exp") with
                    | Raise _ => Raise (OAuthVerifyError "token missing/invalid exp")
                    | Ok exp => if Qle_bool exp current then Raise (OAuthVerifyError "token expired")
                                else Ok (email, exp)
                    end
           | _ => Raise (OAuthVerifyError "token missing email")
           end
  | Ok _ => Raise (OAuthVerifyError "tokeninfo returned non-dict")
  end.

(** Room for one more: expired entries go first, all of them if that is not enough. *)
Definition make_room (current : Q) (c : token_cache) : token_cache :=
  if _CACHE_MAX_ENTRIES <=? length c then
    let live := List.filter (λ e, negb (Qle_bool e.2.2 current)) c in
    if _CACHE_MAX_ENTRIES <=? length live then [] else live
  else c.

Section Identity.
Context `{RepeatedFailure.Sha256}.

(** Ask, and remember a good answer. *)
Definition ask_google (http_get : string → res pyval) (now : Q) (token expected_aud : string)
    (c : token_cache) : res string * token_cache :=
  match read_tokeninfo expected_aud now (http_get (tokeninfo_url token)) with
  | Raise e => (Raise e, c)
  | Ok (email, exp) =>
      (Ok email, dset (make_room now c) (RepeatedFailure.sha256_hex token)
                   (email, Qmin exp (now + _CACHE_MAX_TTL)))
  end.

Definition verify_google_access_token (http_get : string → res pyval) (now : Q) (token expected_aud : string)
    (c : token_cache) : res string * token_cache :=
  if (token =? "")%string then (Raise (OAuthVerifyError "empty token"), c)
  else match dget c (RepeatedFailure.sha256_hex token) with
       | Some (email, expiry) =>
           if negb (Qle_bool expiry now) then (Ok email, c) else ask_google http_get now token expected_aud c
       | None => ask_google http_get now token expected_aud c
       end.

(** ** Modes: [identity.py] *)

Inductive AuthMode := DEV | IAP | TRUSTED_HEADER.

(** The errors of [get_auth_mode], by their messages. *)
Definition get_auth_mode (environ : environment_vars) : AuthMode + string :=
  let raw := lower (strip (default "dev" (dget environ "LHA_AUTH_MODE"))) in
  let mode := if (raw =? "dev")%string then Some DEV
              else if (raw =? "iap")%string then Some IAP
              else if (raw =? "trusted_header")%string then Some TRUSTED_HEADER else None in
  match mode with
  | None => inr ("LHA_AUTH_MODE=" +:+ repr_str raw +:+ " is not one of ['dev', 'iap', 'trusted_header']")
  | Some DEV =>
      if (env_get environ "K_SERVICE" =? "")%string then inl DEV
      else inr ("LHA_AUTH_MODE=dev refused: K_SERVICE is set (running on Cloud Run). "
                +:+ "Set LHA_AUTH_MODE=iap or trusted_header for deployed environments.")
  | Some m => inl m
  end.

Definition _dev_user_id (environ : environment_vars) : string :=
  or_str (strip (env_str environ "LHA_DEV_USER_ID" "dev@local")) "dev@local".

(** A request: its method, its path, its headers under their lower-case names, and the
    identity stored on [request.state]. *)
Record request := Request {
  method : string; path : string; headers : list (string * string); state_user_id : option string
}.
Definition header (r : request) (name : string) : string := default "" (dget (headers r) (lower name)).

Definition _IAP_JWT_HEADER : string := "X-Goog-IAP-JWT-Assertion".
Definition _FORWARDED_IAP_JWT_HEADER : string := "X-LHA-IAP-Assertion".
Definition _TRUSTED_USER_ID_HEADER : string := "X-LHA-User-Id".
Definition _IAP_PUBLIC_KEYS_URL : string := "https://www.gstatic.com/iap/verify/public_key".

Definition _extract_bearer (r : request) : string :=
  let raw := header r "Authorization" in
  if (lower (stake 7 raw) =? "bearer ")%string then strip (sdrop 7 raw) else "".

(** The network as one request meets it: [id_token.verify_token(jwt, audience, certs_url)],
    the tokeninfo endpoint, the time. *)
Record outside := Outside {
  verify_token : string → string → string → res pyval;
  http_get : string → res pyval;
  time_now : Q
}.

(** What a request changes: the stored identity, the context variables, the token cache. *)
Record auth_state := AuthState { a_request : request; a_ctx : ctx; _cache : token_cache }.

Definition _iap_audience (environ : environment_vars) : web string :=
  let audience := env_stripped environ "LHA_IAP_AUDIENCE" in
  if (audience =? "")%string then HTTPException 500 "LHA_IAP_AUDIENCE is not configured" else Answer audience.

Definition _verify_iap_jwt (environ : environment_vars) (o : outside) (jwt : string) : web pydict :=
  let? audience := _iap_audience environ in
  match verify_token o jwt audience _IAP_PUBLIC_KEYS_URL with
  | Raise _ => HTTPException 401 "invalid IAP JWT"
  | Ok (PDict claims) => Answer claims
  | Ok _ => HTTPException 401 "IAP JWT decoded to non-dict claims"
  end.

Definition set_delegated_google_token (token : string) (c : ctx) : ctx :=
  Ctx (_routine_run c) (_HEADLESS c) (_routine_secret_scope c) (Some token) (identity c).

Definition _resolve_oauth_bearer (environ : environment_vars) (o : outside) (token : string) (s : auth_state) :
    web string * auth_state :=
  let client_id := env_stripped environ "LHA_GCP_OAUTH_CLIENT_ID" in
  if (client_id =? "")%string then (HTTPException 500 "LHA_GCP_OAUTH_CLIENT_ID is not configured", s)
  else
    match verify_google_access_token (http_get o) (time_now o) token client_id (_cache s) with
    | (Raise _, c) => (HTTPException 401 "invalid OAuth bearer", AuthState (a_request s) (a_ctx s) c)
    | (Ok email, c) => (Answer email, AuthState (a_request s) (set_delegated_google_token token (a_ctx s)) c)
    end.

Definition iap_jwt (r : request) : string :=
  or_str (strip (header r _IAP_JWT_HEADER)) (strip (header r _FORWARDED_IAP_JWT_HEADER)).

(** The identity of a mode, before it is stored. *)
Definition identify (environ : environment_vars) (o : outside) (mode : AuthMode) (s : auth_state) :
    web string * auth_state :=
  let r := a_request s in
  match mode with
  | DEV => (Answer (_dev_user_id environ), s)
  | TRUSTED_HEADER =>
      let forwarded := strip (header r _TRUSTED_USER_ID_HEADER) in
      if (forwarded =? "")%string then (HTTPException 401 ("missing " +:+ _TRUSTED_USER_ID_HEADER), s)
      else (Answer forwarded, s)
  | IAP =>
      let jwt := iap_jwt r in
      if negb (jwt =? "")%string then
        (let? claims := _verify_iap_jwt environ o jwt in
         match get claims "email" with
         | PStr email => if (email =? "")%string then HTTPException 401 "IAP JWT missing email claim"
                         else Answer email
         | _ => HTTPException 401 "IAP JWT missing email claim"
         end, s)
      else
        let bearer := _extract_bearer r in
        if (bearer =? "")%string
        then (HTTPException 401 ("missing " +:+ _IAP_JWT_HEADER +:+ " or OAuth bearer"), s)
        else _resolve_oauth_bearer environ o bearer s
  end.

Definition store_identity (user : string) (s : auth_state) : auth_state :=
  let r := a_request s in
  AuthState (Request (method r) (path r) (headers r) (Some user)) (user_identity_scope user (a_ctx s)) (_cache s).

Definition resolve_user_id (environ : environment_vars) (o : outside) (s : auth_state) : web string * auth_state :=
  let resolve :=
    match get_auth_mode environ with
    | inr msg => (HTTPException 500 msg, s)
    | inl mode =>
        match identify environ o mode s with
        | (Answer user, s') => (Answer user, store_identity user s')
        | (failed, s') => (failed, s')
        end
    end in
  match state_user_id (a_request s) with
  | Some cached => if (cached =? "")%string then resolve else (Answer cached, s)
  | None => resolve
  end.

Definition current_user_id := resolve_user_id.

(** ** The middleware *)

Definition _UNAUTHENTICATED_PATHS : list string := ["/"; "/healthz"; "/ready"; "/.well-known/agent-card.json"].
Definition _UNAUTHENTICATED_PREFIXES : list string := ["/_gcp_iap/"; "/openapi"; "/docs"; "/redoc"; "/scheduler/"].
Definition _is_public_path (path : string) : bool :=
  mem path _UNAUTHENTICATED_PATHS || existsb (λ prefix, startswith prefix path) _UNAUTHENTICATED_PREFIXES.

(** [dispatch]: what the inner application answers, or the JSON of the refusal. *)
Definition dispatch {A} (environ : environment_vars) (o : outside) (call_next : auth_state → web A * auth_state)
    (s : auth_state) : web A * auth_state :=
  let r := a_request s in
  if (method r =? "OPTIONS")%string || _is_public_path (path r) then call_next s
  else match resolve_user_id environ o s with
       | (Answer _, s') => call_next s'
       | (HTTPException status detail, s') => (HTTPException status detail, s')
       | (Crash e, s') => (Crash e, s')
       end.

(** ** The scheduler's endpoints: [scheduler/auth.py] *)

Definition _is_auth_disabled (environ : environment_vars) : bool :=
  env_flag environ "LHA_SCHEDULER_AUTH_DISABLED" false.

(** [s.split(None, 1)]: the first word, and what follows the blanks after it. *)
Definition split_first_ws (s : string) : string * string :=
  let '(head, rest) := span (λ c, negb (is_space c)) (lstrip is_space s) in (head, lstrip is_space rest).

(** [authorization.split(None, 1)] in two, the first of them "bearer". *)
Definition scheduler_bearer (authorization : option string) : option string :=
  match authorization with
  | None => None
  | Some a =>
      if (a =? "")%string then None
      else let '(scheme, rest) := split_first_ws a in
           if (rest =? "")%string || negb (lower scheme =? "bearer")%string then None
           else let token := strip rest in if (token =? "")%string then None else Some token
  end.

Definition _allowlist (environ : environment_vars) : list string :=
  let raw := env_stripped environ "LHA_SCHEDULER_SA" in
  if (raw =? "")%string then []
  else map (λ s, lower (strip s)) (List.filter (λ s, negb (strip s =? "")%string) (split_on "," raw)).

(** [verify]: [id_token.verify_oauth2_token(token, audience)], whose claims are a dict. *)
Definition verify_cloud_scheduler_token (environ : environment_vars) (verify : string → string → res pydict)
    (authorization : option string) : web unit :=
  if _is_auth_disabled environ then Answer tt
  else
    let audience := env_stripped environ "LHA_SCHEDULER_AUDIENCE" in
    if (audience =? "")%string then HTTPException 500 "scheduler audience not configured"
    else match scheduler_bearer authorization with
         | None => HTTPException 401 "missing or invalid bearer token"
         | Some token =>
             match verify token audience with
             | Raise _ => HTTPException 401 "token verification failed"
             | Ok claims =>
                 let allowlist := _allowlist environ in
                 if match allowlist with [] => true | _ => false end then Answer tt
                 else match get claims "email" with
                      | PStr email => if negb (email =? "")%string && mem (lower email) allowlist then Answer tt
                                      else HTTPException 403 "caller not on scheduler allowlist"
                      | _ => HTTPException 403 "caller not on scheduler allowlist"
                      end
             end
         end.
End Identity.

(** ** The cache only says what Google said *)

(** A reply that vouches for an email at a time, for an audience, until [exp]. *)
Definition vouches (aud : string) (t : Q) (reply : res pyval) (email : string) (exp : Q) : Prop :=
  ∃ info, reply = Ok (PDict info) ∧ get info "aud" = PStr aud ∧ get info "email" = PStr email ∧ email ≠ "" ∧
    _truthy (get info "email_verified") = true ∧ py_float (get info "exp") = Ok exp ∧ (t < exp)%Q.

Lemma Qle_bool_lt x y : Qle_bool x y = false ↔ (y < x)%Q.
Proof.
  split.
  - intros H. apply Qnot_le_lt. intros Hle%Qle_bool_iff. congruence.
  - intros H. apply not_true_is_false. intros Hle%Qle_bool_iff. by apply Qlt_not_le in H.
Qed.

Lemma read_vouches aud t reply email exp :
  read_tokeninfo aud t reply = Ok (email, exp) ↔ vouches aud t reply email exp.
Proof.
  unfold vouches. split.
  - destruct reply as [[| | | | | |info]|]; cbn [read_tokeninfo]; try done. intros Hr. exists info.
    destruct (get info "aud") as [| | | |a| |] eqn:Ea; cbn [is_text negb] in Hr; try done.
    destruct (a =? aud)%string eqn:Eaa; cbn [negb] in Hr; [|done]. apply String.eqb_eq in Eaa as ->.
    destruct (get info "email") as [| | | |e| |] eqn:Ee; try done.
    destruct (e =? "")%string eqn:En; [done|]. destruct (_truthy _) eqn:Et; cbn [negb] in Hr; [|done].
    destruct (py_float _) as [x|] eqn:Ex; [|done]. destruct (Qle_bool x t) eqn:El; [done|].
    injection Hr as <- <-. split_and!; try done; [by apply String.eqb_neq|by apply Qle_bool_lt].
  - intros (info & -> & Ha & He & Hn & Ht & Hx & Hl). cbn [read_tokeninfo]. rewrite Ha, He, Ht, Hx. cbn [is_text].
    rewrite String.eqb_refl. apply String.eqb_neq in Hn as ->. apply Qle_bool_lt in Hl as ->. done.
Qed.

Section Tokens.
Context `{RepeatedFailure.Sha256} (aud : string).

(** A call of the verifier: the token, the time, what the endpoint answers then. *)
Record token_call := TokenCall { tc_token : string; tc_now : Q; tc_get : string → res pyval }.
Definition call_verifier (x : token_call) (c : token_cache) : res string * token_cache :=
  verify_google_access_token (tc_get x) (tc_now x) (tc_token x) aud c.
(** The cache of a process after the calls of its life. *)
Definition cache_after (xs : list token_call) : token_cache := fold_left (λ c x, (call_verifier x c).2) xs [].

Definition said (x : token_call) (key email : string) (exp : Q) : Prop :=
  RepeatedFailure.sha256_hex (tc_token x) = key ∧
  vouches aud (tc_now x) (tc_get x (tokeninfo_url (tc_token x))) email exp.

Record sound (xs : list token_call) (c : token_cache) : Prop := {
  entries_said key email e : (key, (email, e)) ∈ c →
    ∃ x exp, x ∈ xs ∧ said x key email exp ∧ e = Qmin exp (tc_now x + _CACHE_MAX_TTL);
  within_bound : length c ≤ _CACHE_MAX_ENTRIES
}.

Lemma make_room_sub now c kr : kr ∈ make_room now c → kr ∈ c.
Proof.
  unfold make_room. case_match; [|done]. case_match; [by intros ?%elem_of_nil|].
  intros [Hin _]%list_elem_of_In%filter_In. by apply list_elem_of_In.
Qed.
Lemma make_room_len now c : length (make_room now c) < _CACHE_MAX_ENTRIES.
Proof.
  unfold make_room. case_match eqn:E1; [|by apply Nat.leb_gt].
  case_match eqn:E2; [unfold _CACHE_MAX_ENTRIES; cbn [length]; lia|by apply Nat.leb_gt].
Qed.
Lemma length_dset {V} (d : list (string * V)) k v : length (dset d k v) ≤ S (length d).
Proof. induction d as [|[k' v'] d IH]; cbn; [done|]. case_match; cbn; lia. Qed.

Lemma asked_sound xs x c : sound xs c →
  sound (xs ++ [x]) (ask_google (tc_get x) (tc_now x) (tc_token x) aud c).2.
Proof.
  intros [He Hb]. assert (sound (xs ++ [x]) c) as Hc.
  { constructor; [|done]. intros k em e Hin. destruct (He k em e Hin) as (y & exp & Hy & Hs).
    exists y, exp. split; [apply elem_of_app; by left|done]. }
  unfold ask_google. destruct (read_tokeninfo _ _ _) as [[em exp]|] eqn:Hr; [|done]. apply read_vouches in Hr.
  constructor; cbn [snd].
  - intros k em' e [[= -> -> ->]|Hin]%dset_in.
    + exists x, exp. split; [apply elem_of_app; right; left|done].
    + eapply Hc, make_room_sub, Hin.
  - pose proof (length_dset (make_room (tc_now x) c) (RepeatedFailure.sha256_hex (tc_token x))
      (em, Qmin exp (tc_now x + _CACHE_MAX_TTL)%Q)).
    pose proof (make_room_len (tc_now x) c). lia.
Qed.

(** A hit leaves the cache as it is. *)
Lemma verifier_cases x c :
  (call_verifier x c).2 = c ∨ call_verifier x c = ask_google (tc_get x) (tc_now x) (tc_token x) aud c.
Proof.
  unfold call_verifier, verify_google_access_token. case_match; [by left|].
  destruct (dget c _) as [[em e]|]; [|by right]. case_match; [by left|by right].
Qed.

Lemma verifier_sound xs x c : sound xs c → sound (xs ++ [x]) (call_verifier x c).2.
Proof.
  intros Hs. destruct (verifier_cases x c) as [-> | ->]; [|by apply asked_sound].
  destruct Hs as [He Hb]. constructor; [|done]. intros k em e Hin.
  destruct (He k em e Hin) as (y & exp & Hy & Hs). exists y, exp. split; [apply elem_of_app; by left|done].
Qed.

Lemma reachable_cache xs : sound xs (cache_after xs).
Proof.
  induction xs as [|x xs IH] using rev_ind; [constructor; [by intros ??? ?%elem_of_nil|cbn; lia]|].
  unfold cache_after. rewrite fold_left_app. by apply verifier_sound.
Qed.

(** C18. An access token is taken for an email only on Google's word: at any point of a
    process's life, if a call with a token answers an email, then at one of the calls up to
    this one, made for a token of the same digest, the endpoint said that this email is
    verified for our client until a time that is still to come, and that call was less
    than five minutes ago. The cache never holds more than its bound. *)
Theorem token_vouched xs x email c :
  call_verifier x (cache_after xs) = (Ok email, c) →
  length c ≤ _CACHE_MAX_ENTRIES ∧
  ∃ y exp, y ∈ xs ++ [x] ∧ said y (RepeatedFailure.sha256_hex (tc_token x)) email exp ∧
    (tc_now x < exp)%Q ∧ (tc_now x < tc_now y + _CACHE_MAX_TTL)%Q.
Proof.
  intros Hcall. pose proof (reachable_cache xs) as Hs. pose proof (verifier_sound xs x _ Hs) as Hs'.
  rewrite Hcall in Hs'. split; [apply Hs'|]. unfold call_verifier, verify_google_access_token in Hcall.
  case_match; [done|].
  assert (ask_google (tc_get x) (tc_now x) (tc_token x) aud (cache_after xs) = (Ok email, c) →
    ∃ y exp, y ∈ xs ++ [x] ∧ said y (RepeatedFailure.sha256_hex (tc_token x)) email exp ∧
    (tc_now x < exp)%Q ∧ (tc_now x < tc_now y + _CACHE_MAX_TTL)%Q) as Hfetch.
  { unfold ask_google. destruct (read_tokeninfo _ _ _) as [[em exp]|] eqn:Hr; [|done]. intros [= -> _].
    apply read_vouches in Hr. exists x, exp. split; [apply elem_of_app; right; left|]. split; [done|].
    split; [by destruct Hr as (? & _ & _ & _ & _ & _ & _ & Hl)|]. unfold _CACHE_MAX_TTL. lra. }
  destruct (dget (cache_after xs) _) as [[em e]|] eqn:Hd; [|by apply Hfetch].
  destruct (Qle_bool e (tc_now x)) eqn:El; [by apply Hfetch|]. injection Hcall as -> <-.
  apply dget_in in Hd. destruct (entries_said _ _ Hs _ _ _ Hd) as (y & exp & Hy & Hsaid & ->).
  apply Qle_bool_lt, Q.min_glb_lt_iff in El as [Hx Ht].
  exists y, exp. split; [apply elem_of_app; by left|done].
Qed.
End Tokens.

(** ** The gate of the routes *)

Section Gate.
Context `{RepeatedFailure.Sha256} (environ : environment_vars) (o : outside).

(** Who the request is allowed to say it is from, and what it leaves in the context. *)
Definition may_speak_for (r : request) (c : token_cache) (user : string) (token : option string) : Prop :=
  match get_auth_mode environ with
  | inl DEV => env_get environ "K_SERVICE" = "" ∧ user = _dev_user_id environ ∧ user ≠ "" ∧ token = None
  | inl TRUSTED_HEADER => user = strip (header r _TRUSTED_USER_ID_HEADER) ∧ user ≠ "" ∧ token = None
  | inl IAP =>
      (iap_jwt r ≠ "" ∧ user ≠ "" ∧ env_stripped environ "LHA_IAP_AUDIENCE" ≠ "" ∧ token = None ∧
       ∃ claims, verify_token o (iap_jwt r) (env_stripped environ "LHA_IAP_AUDIENCE") _IAP_PUBLIC_KEYS_URL
                   = Ok (PDict claims) ∧ get claims "email" = PStr user)
      ∨ (iap_jwt r = "" ∧ _extract_bearer r ≠ "" ∧ env_stripped environ "LHA_GCP_OAUTH_CLIENT_ID" ≠ "" ∧
         token = Some (_extract_bearer r) ∧
         (verify_google_access_token (http_get o) (time_now o) (_extract_bearer r)
            (env_stripped environ "LHA_GCP_OAUTH_CLIENT_ID") c).1 = Ok user)
  | inr _ => False
  end.

Lemma dev_user_nonempty : _dev_user_id environ ≠ "".
Proof. apply String.eqb_neq. by apply or_str_nonempty. Qed.

Lemma iap_claims_ok jwt claims : _verify_iap_jwt environ o jwt = Answer claims →
  env_stripped environ "LHA_IAP_AUDIENCE" ≠ "" ∧
  verify_token o jwt (env_stripped environ "LHA_IAP_AUDIENCE") _IAP_PUBLIC_KEYS_URL = Ok (PDict claims).
Proof.
  unfold _verify_iap_jwt, _iap_audience. destruct (env_stripped environ "LHA_IAP_AUDIENCE" =? "")%string eqn:E; [done|].
  cbn [web_bind]. intros Hv. split; [by apply String.eqb_neq|].
  by destruct (verify_token _ _ _ _) as [[]|]; simplify_eq.
Qed.

Lemma bearer_ok bearer s user s' : _resolve_oauth_bearer environ o bearer s = (Answer user, s') →
  env_stripped environ "LHA_GCP_OAUTH_CLIENT_ID" ≠ "" ∧ a_request s' = a_request s ∧
  _delegated_google_token (a_ctx s') = Some bearer ∧
  (verify_google_access_token (http_get o) (time_now o) bearer
     (env_stripped environ "LHA_GCP_OAUTH_CLIENT_ID") (_cache s)).1 = Ok user.
Proof.
  unfold _resolve_oauth_bearer. destruct (_ =? "")%string eqn:E; [done|]. apply String.eqb_neq in E.
  destruct (verify_google_access_token _ _ _ _ _) as [[em|] c] eqn:Ev; [|done]. by intros [= <- <-].
Qed.
Lemma identify_ok mode s user s' : get_auth_mode environ = inl mode → identify environ o mode s = (Answer user, s') →
  ∃ token, may_speak_for (a_request s) (_cache s) user token ∧ a_request s' = a_request s ∧
    _delegated_google_token (a_ctx s') = match token with Some t => Some t | None => _delegated_google_token (a_ctx s) end.
Proof.
  intros Hm Hid. unfold may_speak_for. rewrite Hm. destruct mode; cbn [identify] in Hid.
  - injection Hid as <- <-. exists None. split_and!; try done; [|apply dev_user_nonempty].
    unfold get_auth_mode in Hm. destruct (env_get environ "K_SERVICE" =? "")%string eqn:E; [by apply String.eqb_eq|].
    by repeat case_match.
  - destruct (iap_jwt (a_request s) =? "")%string eqn:Ej; cbn [negb] in Hid.
    + destruct (_extract_bearer (a_request s) =? "")%string eqn:Eb; [done|].
      apply bearer_ok in Hid as (Hc & Hr & Hd & Hv). apply String.eqb_eq in Ej. apply String.eqb_neq in Eb.
      exists (Some (_extract_bearer (a_request s))). split; [right; by split_and!|done].
    + injection Hid as Hid <-. destruct (_verify_iap_jwt environ o _) as [claims| |] eqn:Ev; try done.
      apply iap_claims_ok in Ev as [Ha Hv]. cbn [web_bind] in Hid. apply String.eqb_neq in Ej.
      destruct (get claims "email") as [| | | |em| |] eqn:Ee; try done.
      destruct (em =? "")%string eqn:En; [done|]. injection Hid as ->. apply String.eqb_neq in En.
      exists None. split; [left; split_and!; try done; by exists claims|done].
  - destruct (_ =? "")%string eqn:E in Hid; [done|]. injection Hid as <- <-. apply String.eqb_neq in E.
    by exists None.
Qed.

(** Nothing but an [HTTPException] refuses an identity. *)
Lemma identify_refuses mode s x s' : identify environ o mode s = (x, s') → a_request s' = a_request s ∧
  ((∃ user, x = Answer user) ∨ ∃ status detail, status ∈ [401; 500]%Z ∧ x = HTTPException status detail).
Proof.
  assert (∀ status detail, status ∈ [401; 500]%Z → ∃ st d, st ∈ [401; 500]%Z ∧ HTTPException (A:=string) status detail = HTTPException st d)
    as Href by eauto.
  assert ((401 ∈ [401; 500])%Z ∧ (500 ∈ [401; 500])%Z) as [H1 H5] by (rewrite !elem_of_cons; lia).
  destruct mode; cbn [identify].
  - intros [= <- <-]. eauto.
  - destruct (negb (iap_jwt (a_request s) =? "")%string).
    + intros [= <- <-]. split; [done|]. unfold _verify_iap_jwt, _iap_audience. case_match; cbn [web_bind]; [eauto|].
      repeat case_match; cbn [web_bind] in *; simplify_eq; repeat case_match; simplify_eq; eauto.
    + case_match; [intros [= <- <-]; eauto|]. unfold _resolve_oauth_bearer. case_match; [intros [= <- <-]; eauto|].
      destruct (verify_google_access_token _ _ _ _ _) as [[em|] c]; intros [= <- <-]; eauto.
  - case_match; intros [= <- <-]; eauto.
Qed.

(** C17. No route runs for an unknown user. A request that is not a preflight and not for a
    public path, and that has no identity yet, is refused with 401 or 500 whatever the
    route, or it runs the route as a user it may speak for: the configured developer only
    outside Cloud Run, the header's user only when the mode trusts the header, and in IAP
    mode the email of a verified assertion or, without one, of a verified access token,
    which alone becomes the delegated token. The identity then holds for the rest of the
    request whatever is asked again. *)
Theorem identity_gate s :
  default "" (state_user_id (a_request s)) = "" → method (a_request s) ≠ "OPTIONS" →
  _is_public_path (path (a_request s)) = false →
  (∃ status detail s1, status ∈ [401; 500]%Z ∧ a_request s1 = a_request s ∧
     ∀ A (route : auth_state → web A * auth_state),
       dispatch environ o route s = (HTTPException status detail, s1))
  ∨ ∃ user token s1, may_speak_for (a_request s) (_cache s) user token ∧
      state_user_id (a_request s1) = Some user ∧ identity (a_ctx s1) = Some user ∧
      _delegated_google_token (a_ctx s1)
        = match token with Some t => Some t | None => _delegated_google_token (a_ctx s) end ∧
      (user ≠ "" → ∀ environ' o', current_user_id environ' o' s1 = (Answer user, s1)) ∧
      ∀ A (route : auth_state → web A * auth_state), dispatch environ o route s = route s1.
Proof.
  intros Hnone Hopt%String.eqb_neq Hpub.
  assert (∀ A (route : auth_state → web A * auth_state), dispatch environ o route s =
    match (match get_auth_mode environ with
           | inr msg => (HTTPException 500 msg, s)
           | inl mode => match identify environ o mode s with
                         | (Answer user, s') => (Answer user, store_identity user s')
                         | (failed, s') => (failed, s') end
           end) with
    | (Answer _, s') => route s'
    | (HTTPException status detail, s') => (HTTPException status detail, s')
    | (Crash e, s') => (Crash e, s')
    end) as Hd.
  { intros A route. unfold dispatch. rewrite Hopt, Hpub. cbn [orb]. unfold resolve_user_id.
    destruct (state_user_id (a_request s)) as [c|]; cbn in Hnone; subst; done. }
  destruct (get_auth_mode environ) as [mode|msg] eqn:Hm.
  2:{ left. exists 500%Z, msg, s. split; [rewrite !elem_of_cons; lia|]. split; [done|]. intros. by rewrite Hd. }
  destruct (identify environ o mode s) as [x s'] eqn:Hid.
  destruct (identify_refuses _ _ _ _ Hid) as [Hr [[user ->]|(st & d & Hst & ->)]].
  - right. destruct (identify_ok _ _ _ _ Hm Hid) as (token & Hsp & _ & Hdel).
    exists user, token, (store_identity user s'). split_and!; try done.
    intros Hne%String.eqb_neq environ' o'. unfold current_user_id, resolve_user_id.
    cbn [store_identity a_request state_user_id]. by rewrite Hne.
  - left. exists st, d, s'. split_and!; [done|done|]. intros. by rewrite Hd.
Qed.
End Gate.

(** ** The scheduler's gate *)

(** Who may call the scheduler's endpoints, exactly: anyone when the checks are turned
    off; otherwise a caller with a bearer token verified for the configured audience, whose
    email, in any case, is on the allowlist when there is one. *)
Theorem scheduler_gate_iff environ verify authorization :
  verify_cloud_scheduler_token environ verify authorization = Answer tt ↔
  _is_auth_disabled environ = true ∨
  (env_stripped environ "LHA_SCHEDULER_AUDIENCE" ≠ "" ∧ ∃ token claims,
     scheduler_bearer authorization = Some token ∧
     verify token (env_stripped environ "LHA_SCHEDULER_AUDIENCE") = Ok claims ∧
     (_allowlist environ = [] ∨
      ∃ email, get claims "email" = PStr email ∧ email ≠ "" ∧ lower email ∈ _allowlist environ)).
Proof.
  unfold verify_cloud_scheduler_token. destruct (_is_auth_disabled environ); [split; auto|].
  destruct (env_stripped environ "LHA_SCHEDULER_AUDIENCE" =? "")%string eqn:Ea;
    [apply String.eqb_eq in Ea; split; [done|by intros [?|[? _]]]|apply String.eqb_neq in Ea].
  destruct (scheduler_bearer authorization) as [token|]; [|split; [done|by intros [?|(_ & ? & ? & ? & _)]]].
  destruct (verify token _) as [claims|] eqn:Ev.
  2:{ split; [done|]. intros [?|(_ & t & cs & [= <-] & Hv & _)]; [done|]. congruence. }
  assert (∀ b : bool, (if b then Answer tt else HTTPException 403 "caller not on scheduler allowlist") = Answer tt ↔
    b = true) as Hb by (intros []; split; done).
  transitivity (_allowlist environ = [] ∨
    ∃ email, get claims "email" = PStr email ∧ email ≠ "" ∧ lower email ∈ _allowlist environ).
  - destruct (_allowlist environ) as [|x l] eqn:El; [split; auto|].
    destruct (get claims "email") as [| | | |email| |] eqn:Ee;
      try (split; [done|intros [?|(? & ? & _)]; done]).
    rewrite Hb, andb_true_iff, mem_spec, negb_true_iff, String.eqb_neq. split.
    + intros [He Hin]. right. by exists email.
    + intros [?|(em & [= <-] & Hne & Hin)]; done.
  - split; [intros Ha; right; split; [done|]; by exists token, claims|].
    intros [?|(_ & t & cs & [= <-] & Hv & Ha)]; [done|]. rewrite Ev in Hv. by injection Hv as <-.
Qed.

(** ** At concrete inputs *)

(** An endpoint that vouches for ann until 1000, for the client of these tests. *)
Definition ann_info : string → res pyval := λ _,
  Ok (PDict [("aud", PStr "client"); ("email", PStr "ann@corp"); ("email_verified", PStr "true");
             ("exp", PStr "1000")]).
Definition down : string → res pyval := λ _, Raise (OSError "timed out").

Lemma token_vouched_witness :
  let Hsha : RepeatedFailure.Sha256 := id in
  let xs := [TokenCall "t" 100 ann_info] in
  let x := TokenCall "t" 399 down in
  call_verifier "client" x (cache_after "client" xs) = (Ok "ann@corp", cache_after "client" xs) ∧
  length (cache_after "client" xs) ≤ _CACHE_MAX_ENTRIES ∧
  ∃ y exp, y ∈ xs ++ [x] ∧ said "client" y (RepeatedFailure.sha256_hex (tc_token x)) "ann@corp" exp ∧
    (tc_now x < exp)%Q ∧ (tc_now x < tc_now y + _CACHE_MAX_TTL)%Q.
Proof.
  intros Hsha xs x.
  assert (call_verifier "client" x (cache_after "client" xs) = (Ok "ann@corp", cache_after "client" xs)) as Hc
    by (vm_compute; reflexivity).
  split; [exact Hc|]. exact (token_vouched (H := Hsha) "client" xs x "ann@corp" _ Hc).
Defined.

(** Five minutes after the answer the cache is no longer taken at its word. *)
Example stale_token_refused :
  let Hsha : RepeatedFailure.Sha256 := id in
  (call_verifier "client" (TokenCall "t" 400 down) (cache_after "client" [TokenCall "t" 100 ann_info])).1
  = Raise (OAuthVerifyError "tokeninfo request failed: timed out").
Proof. vm_compute. reflexivity. Qed.

(** In IAP mode the header of the trusted mode is not looked at. *)
Definition iap_vars : environment_vars :=
  [("LHA_AUTH_MODE", "iap"); ("LHA_IAP_AUDIENCE", "aud"); ("LHA_GCP_OAUTH_CLIENT_ID", "client");
   ("K_SERVICE", "svc")].
Definition no_context : ctx := Ctx None false None None None.
Definition bearer_request : auth_state :=
  AuthState (Request "POST" "/a2a" [("authorization", "Bearer t"); ("x-lha-user-id", "eve@corp")] None)
    no_context [].
Definition google_up : outside := Outside (λ _ _ _, Raise (ValueError "no key")) ann_info 100.

Lemma identity_gate_witness :
  let Hsha : RepeatedFailure.Sha256 := id in
  (resolve_user_id iap_vars google_up bearer_request).1 = Answer "ann@corp" ∧
  ((∃ status detail s1, status ∈ [401; 500]%Z ∧ a_request s1 = a_request bearer_request ∧
     ∀ A (route : auth_state → web A * auth_state),
       dispatch iap_vars google_up route bearer_request = (HTTPException status detail, s1))
  ∨ ∃ user token s1, may_speak_for iap_vars google_up (a_request bearer_request) (_cache bearer_request) user token ∧
      state_user_id (a_request s1) = Some user ∧ identity (a_ctx s1) = Some user ∧
      _delegated_google_token (a_ctx s1)
        = match token with Some t => Some t | None => _delegated_google_token (a_ctx bearer_request) end ∧
      (user ≠ "" → ∀ environ' o', current_user_id environ' o' s1 = (Answer user, s1)) ∧
      ∀ A (route : auth_state → web A * auth_state), dispatch iap_vars google_up route bearer_request = route s1).
Proof.
  intros Hsha. split; [vm_compute; reflexivity|].
  apply (identity_gate (H := Hsha) iap_vars google_up bearer_request); [reflexivity|done|reflexivity].
Defined.

(** An allowlist of separators alone is no allowlist: every verified caller passes. *)
Example empty_allowlist_is_open :
  verify_cloud_scheduler_token [("LHA_SCHEDULER_AUDIENCE", "aud"); ("LHA_SCHEDULER_SA", " , ")]
    (λ _ _, Ok [("email", PStr "anyone@elsewhere")]) (Some "Bearer t") = Answer tt.
Proof. vm_compute. reflexivity. Qed.

(** A public prefix is a prefix of the text, not of the path's segments. *)
Example docs_prefix_is_textual : _is_public_path "/docs-internal/export" = true.
Proof. reflexivity. Qed.
