(* ===== verification/OAuthConnect.v ===== *)
(** * Connecting a Google account: [auth/oauth.py]

    The scopes of a connection, the signed state of the redirect, the exchange of the code
    and the four routes, over the store of Secrets.v. HMAC-SHA256 and Google's token
    endpoint are parameters. *)

From S2P Require Import Prelude PyStr Names PyVal Sorting RegexFacts JsonFacts Environ Web ExfilConfig HaltGuards Secrets.
#[local] Open Scope nat_scope.

Definition AUTH_ENDPOINT : string := "https://accounts.google.com/o/oauth2/v2/auth".
Definition TOKEN_ENDPOINT : string := "https://oauth2.googleapis.com/token".
Definition _SCOPE_PREFIX : string := "https://www.googleapis.com/auth/".
Definition CLOUD_PLATFORM_SCOPE : string := _SCOPE_PREFIX +:+ "cloud-platform".

(** The surfaces, with their scopes for reading and for writing. *)
Definition WORKSPACE_SURFACES : list (string * (list string * list string)) := [
  ("drive", (["drive.readonly"], ["drive"]));
  ("gmail", (["gmail.readonly"], ["gmail.modify"]));
  ("calendar", (["calendar.readonly"], ["calendar"]));
  ("sheets", (["spreadsheets.readonly"], ["spreadsheets"]));
  ("docs", (["documents.readonly"], ["documents"]));
  ("chat", (["chat.messages.readonly"; "chat.spaces.readonly"], ["chat.messages"; "chat.spaces"]));
  ("tasks", (["tasks.readonly"], ["tasks"]));
  ("slides", (["presentations.readonly"], ["presentations"]));
  ("keep", (["keep.readonly"], ["keep"]));
  ("script", (["script.projects.readonly"], ["script.projects"]));
  ("meet", (["meetings.space.readonly"], ["meetings.space.created"]));
  ("forms", (["forms.body.readonly"; "forms.responses.readonly"], ["forms.body"; "forms.responses.readonly"]));
  ("directory", (["directory.readonly"], ["directory.readonly"]))
].

Definition GCP_TOKEN_KEY : string := "CLOUDSDK_AUTH_ACCESS_TOKEN".
Definition GCP_EXPIRES_KEY : string := "CLOUDSDK_AUTH_TOKEN_EXPIRES_AT".
Definition GWS_TOKEN_KEY : string := "GOOGLE_WORKSPACE_CLI_TOKEN".
Definition GWS_EXPIRES_KEY : string := "GOOGLE_WORKSPACE_TOKEN_EXPIRES_AT".
Definition GWS_META_KEY : string := "GOOGLE_WORKSPACE_SCOPES_META".
Definition _GCP_KEYS : list string := [GCP_TOKEN_KEY; GCP_EXPIRES_KEY].
Definition _GWS_KEYS : list string := [GWS_TOKEN_KEY; GWS_EXPIRES_KEY; GWS_META_KEY].

(** ** Scopes *)

Definition add_scope (out : list string) (name : string) : list string :=
  let url := _SCOPE_PREFIX +:+ name in if mem url out then out else out ++ [url].
Definition workspace_scopes (surfaces : list string) (readonly : bool) : list string :=
  fold_left (λ out surface,
    match dget WORKSPACE_SURFACES surface with
    | None => out
    | Some (ro, rw) => fold_left add_scope (if readonly then ro else rw) out
    end) surfaces [].

(** ** The signed state *)

(** [hmac.new(key, msg, sha256).digest()] *)
Class Hmac := hmac_sha256 : string → string → string.

Definition state_opts : dump_opts :=
  {| item_sep := ","; key_sep := ":"; sort_keys := true; ensure_ascii := true |}.

(** Bytes as the text they are in UTF-8, for texts of Latin-1 characters. *)
Fixpoint utf8_text (s : string) : option string :=
  match s with
  | "" => Some ""
  | String c s' =>
      if is_ascii c then option_map (String c) (utf8_text s')
      else match s' with
           | String d s'' =>
               if ((code c =? 194) || (code c =? 195))%N && in_range 128 191 d
               then option_map (String (ascii_of_N ((code c - 192) * 64 + (code d - 128)))) (utf8_text s'')
               else None
           | "" => None
           end
  end.

Section State.
Context `{PyFloat} `{Hmac}.

Definition _sig (body secret : string) : string := b64_unpadded (hmac_sha256 secret body).
Definition state_body (payload : pydict) : string := b64_unpadded (json_dumps state_opts (PDict payload)).
Definition sign_state (payload : pydict) (secret : string) : string :=
  state_body payload +:+ "." +:+ _sig (state_body payload) secret.

(** [compare_digest] takes strings of ASCII characters only. *)
Definition verify_state (token secret : string) : res (option pydict) :=
  match partition_at "." token with
  | None => Ok None
  | Some (body, sig) =>
      if negb (sforall is_ascii sig)
      then Raise (TypeError "comparing strings with non-ASCII characters is not supported")
      else if negb (sig =? _sig body secret)%string then Ok None
      else match b64_decode (repad body) with
           | Raise _ => Ok None
           | Ok raw =>
               match utf8_text raw ≫= json_loads with
               | Some (PDict obj) => Ok (Some obj)
               | _ => Ok None
               end
           end
  end.
End State.

(** ** The flow *)

Definition build_auth_url (client_id redirect_uri : string) (scopes : list string) (state : string) : string :=
  AUTH_ENDPOINT +:+ "?" +:+
  urlencode [("client_id", client_id); ("redirect_uri", redirect_uri); ("response_type", "code");
             ("scope", join " " scopes); ("state", state)].

(** [post]: the token endpoint's reply to a form. [OAuthError] is the one error the callback
    turns into a 502. *)
Definition OAuthError (msg : string) : exc := OtherError "OAuthError" msg.
Definition exchange_code `{PyFloat} (post : string → list (string * string) → res pydict)
    (code client_id client_secret redirect_uri : string) : res (string * Z) :=
  let! resp := post TOKEN_ENDPOINT
    [("code", code); ("client_id", client_id); ("client_secret", client_secret);
     ("redirect_uri", redirect_uri); ("grant_type", "authorization_code")] in
  let token := get resp "access_token" in
  if negb (truthy token)
  then Raise (OAuthError ("token exchange failed: " +:+ py_str (default (PStr "no access_token") (dget resp "error"))))
  else
    let expires_in := get resp "expires_in" in
    let! n := py_int (if truthy expires_in then expires_in else PInt 0) in
    Ok (py_str token, n).

(** ** Settings *)

Section Settings.
Context (environ : environment_vars).
Definition _client_id : string := env_stripped environ "LHA_GCP_OAUTH_CLIENT_ID".
Definition _client_secret : string := env_stripped environ "LHA_GCP_OAUTH_CLIENT_SECRET".
Definition _redirect_uri : string := env_stripped environ "LHA_GCP_OAUTH_REDIRECT_URI".
Definition _state_secret : string := _client_secret.
Definition _oauth_configured : bool :=
  negb (_client_id =? "")%string && negb (_client_secret =? "")%string && negb (_redirect_uri =? "")%string.
End Settings.

(** [int(raw) if raw else None] *)
Definition _int_or_none (raw : pyval) : res (option Z) :=
  if truthy raw then let! n := py_int raw in Ok (Some n) else Ok None.

(** [list(v)] *)
Definition py_list (v : pyval) : res (list pyval) :=
  match v with
  | PList l => Ok l
  | PStr s => Ok (map (λ c, PStr (s1 c)) (list_ascii_of_string s))
  | PDict d => Ok (map (λ kv, PStr kv.1) d)
  | _ => Raise (TypeError "object is not iterable")
  end.

(** ** The routes *)

Section Routes.
Context `{PyFloat} `{Hmac} {St : Type} `{SecretStore St} (environ : environment_vars).

(** One [set_secret] after the other, up to the first that fails. *)
Fixpoint set_each (user_id : string) (kvs : list (string * string)) (now_ms : Z) (s : St) : res unit * St :=
  match kvs with
  | [] => (Ok tt, s)
  | (k, v) :: kvs' =>
      match store_set_secret user_id k v now_ms s with
      | (Ok _, s') => set_each user_id kvs' now_ms s'
      | failed => failed
      end
  end.
Definition expiry_entry (key : string) (expires_at : Z) : list (string * string) :=
  if (expires_at =? 0)%Z then [] else [(key, str_of_Z expires_at)].
Definition gcp_entries (token : string) (expires_at : Z) : list (string * string) :=
  (GCP_TOKEN_KEY, token) :: expiry_entry GCP_EXPIRES_KEY expires_at.
Definition meta_text (surfaces : list pyval) (readonly : bool) : string :=
  json_dumps dump_default (PDict [("surfaces", PList surfaces); ("readonly", PBool readonly)]).
Definition workspace_entries (token : string) (expires_at : Z) (surfaces : list pyval) (readonly : bool) :
    list (string * string) :=
  (GWS_TOKEN_KEY, token) :: expiry_entry GWS_EXPIRES_KEY expires_at
  ++ [(GWS_META_KEY, meta_text surfaces readonly)].
Definition persist_gcp (user_id token : string) (expires_at : Z) : Z → St → res unit * St :=
  set_each user_id (gcp_entries token expires_at).
Definition persist_workspace (user_id token : string) (expires_at : Z) (surfaces : list pyval) (readonly : bool) :
    Z → St → res unit * St :=
  set_each user_id (workspace_entries token expires_at surfaces readonly).

Fixpoint delete_each (user_id : string) (ks : list string) (s : St) : res unit * St :=
  match ks with
  | [] => (Ok tt, s)
  | k :: ks' =>
      match store_delete user_id k s with
      | (Ok _, s') => delete_each user_id ks' s'
      | (Raise e, s') => (Raise e, s')
      end
  end.
Definition clear_connection (user_id target : string) : St → res unit * St :=
  delete_each user_id (if (target =? "gcp")%string then _GCP_KEYS else _GWS_KEYS).

Definition surface_list (surfaces : string) : list string :=
  List.filter (λ s, negb (s =? "")%string) (split_on "," surfaces).
Definition asked_scopes (target : string) (readonly : bool) (surfaces : string) : web (list string) :=
  if (target =? "gcp")%string then Answer [CLOUD_PLATFORM_SCOPE]
  else if (target =? "workspace")%string then
    match workspace_scopes (surface_list surfaces) readonly with
    | [] => HTTPException 400 "select at least one Workspace surface"
    | scopes => Answer scopes
    end
  else HTTPException 400 "target must be gcp or workspace".
Definition state_payload (user_id target : string) (readonly : bool) (surfaces nonce : string) : pydict :=
  [("user_id", PStr user_id); ("target", PStr target);
   ("surfaces", PList (map PStr (surface_list surfaces)));
   ("readonly", PBool readonly); ("nonce", PStr nonce)].

Definition connect (target : string) (readonly : bool) (surfaces user_id nonce : string) : web string :=
  if negb (_oauth_configured environ)
  then HTTPException 503 ("GCP OAuth not configured (set LHA_GCP_OAUTH_CLIENT_ID / _SECRET / _REDIRECT_URI)")
  else
    let? scopes := asked_scopes target readonly surfaces in
    Answer (build_auth_url (_client_id environ) (_redirect_uri environ) scopes
              (sign_state (state_payload user_id target readonly surfaces nonce) (_state_secret environ))).

(** The state of a callback: signed by us, for this user. *)
Definition callback_state (state user_id : string) : web pydict :=
  let? data := if (state =? "")%string then Answer None else of_res (verify_state state (_state_secret environ)) in
  match data with
  | None | Some [] => HTTPException 400 "invalid or missing state"
  | Some data => if negb (py_str (get data "user_id") =? user_id)%string
                 then HTTPException 403 "state/user mismatch" else Answer data
  end.

Definition exchanged (post : string → list (string * string) → res pydict) (code : string) : web (string * Z) :=
  match exchange_code post code (_client_id environ) (_client_secret environ) (_redirect_uri environ) with
  | Ok r => Answer r
  | Raise e => if is_error "OAuthError" e then HTTPException 502 (exc_text e) else Crash e
  end.

(** [now]: the clock in seconds. *)
Definition callback (post : string → list (string * string) → res pydict) (now now_ms : Z)
    (code state user_id : string) (s : St) : web unit * St :=
  if negb (_oauth_configured environ) then (HTTPException 503 "GCP OAuth not configured", s)
  else match callback_state state user_id with
       | Answer data =>
           if (code =? "")%string then (HTTPException 400 "missing code", s)
           else match exchanged post code with
                | Answer (token, expires_in) =>
                    let expires_at := if (expires_in =? 0)%Z then 0%Z else (now + expires_in)%Z in
                    if match get data "target" with PStr t => (t =? "workspace")%string | _ => false end then
                      let surfaces := get data "surfaces" in
                      match py_list (if truthy surfaces then surfaces else PList []) with
                      | Raise e => (Crash e, s)
                      | Ok l =>
                          let '(r, s') := persist_workspace user_id token expires_at l
                            (truthy (default (PBool true) (dget data "readonly"))) now_ms s in
                          (of_res r, s')
                      end
                    else let '(r, s') := persist_gcp user_id token expires_at now_ms s in (of_res r, s')
                | HTTPException st d => (HTTPException st d, s)
                | Crash e => (Crash e, s)
                end
       | HTTPException st d => (HTTPException st d, s)
       | Crash e => (Crash e, s)
       end.

(** [json.loads(values.get(GWS_META_KEY) or "{}")], [{}] when it does not parse. *)
Definition workspace_meta (values : pydict) : res pyval :=
  let raw := get values GWS_META_KEY in
  if truthy raw then
    match raw with
    | PStr t => Ok (default (PDict []) (json_loads t))
    | _ => Raise (TypeError "the JSON object must be str, bytes or bytearray")
    end
  else Ok (PDict []).

Record connection := Connection { connected : bool; expires_at : option Z }.
Record oauth_status := OAuthStatus {
  gcp : connection; workspace : connection; ws_surfaces : pyval; ws_readonly : bool; all_surfaces : list string
}.
Definition status_of (values : pydict) : res oauth_status :=
  let! meta := workspace_meta values in
  let! gcp_exp := _int_or_none (get values GCP_EXPIRES_KEY) in
  let! gws_exp := _int_or_none (get values GWS_EXPIRES_KEY) in
  match meta with
  | PDict m =>
      Ok (OAuthStatus (Connection (dhas values GCP_TOKEN_KEY) gcp_exp) (Connection (dhas values GWS_TOKEN_KEY) gws_exp)
            (default (PList []) (dget m "surfaces")) (truthy (default (PBool true) (dget m "readonly")))
            (keys WORKSPACE_SURFACES))
  | _ => Raise (AttributeError "get")
  end.
Definition status (now : Q) (user_id : string) (s : St) : web oauth_status * St :=
  let '(r, s') := store_get_all now user_id s in (of_res (let! values := r in status_of values), s').

Definition disconnect (target user_id : string) (s : St) : web unit * St :=
  if negb ((target =? "gcp")%string || (target =? "workspace")%string)
  then (HTTPException 400 "target must be gcp or workspace", s)
  else let '(r, s') := clear_connection user_id target s in (of_res r, s').
End Routes.

(** ** A state signed is a state verified *)

Definition by_key (a b : string * pyval) : bool := str_leb a.1 b.1.
Definition compact : dump_opts :=
  {| item_sep := ","; key_sep := ":"; sort_keys := false; ensure_ascii := true |}.

(** No dictionary inside. *)
Fixpoint flat (v : pyval) : bool :=
  match v with PDict _ => false | PList l => forallb flat l | _ => true end.

Lemma sort_by_map {A B} (f : A → B) (le : A → A → bool) (le' : B → B → bool) l :
  (∀ x y, le' (f x) (f y) = le x y) → sort_by le' (map f l) = map f (sort_by le l).
Proof.
  intros Hle. assert (∀ x l, insert_by le' (f x) (map f l) = map f (insert_by le x l)) as Hi.
  { intros x k. induction k as [|y k IH]; [done|]. cbn. rewrite Hle. destruct (le x y); [done|]. cbn. by rewrite IH. }
  induction l as [|x l IH]; [done|]. cbn. by rewrite IH, Hi.
Qed.

Section StateFacts.
Context `{PyFloat} `{Hmac}.

Lemma dumps_flat v : flat v = true → json_dumps state_opts v = json_dumps compact v.
Proof.
  induction v as [|b|z|q|s|l IH|d IH] using pyval_ind; intros Hf; try done. cbn [json_dumps].
  do 3 f_equal. cbn [flat] in Hf. rewrite forallb_forall in Hf. apply map_ext_in. intros x Hx.
  rewrite Forall_forall in IH. apply IH; [by apply list_elem_of_In|by apply Hf].
Qed.

Lemma dumps_sorted d : forallb (λ kv, flat kv.2) d = true →
  json_dumps state_opts (PDict d) = json_dumps compact (PDict (sort_by by_key d)).
Proof.
  intros Hf. cbn [json_dumps state_opts compact sort_keys item_sep key_sep ensure_ascii]. do 3 f_equal.
  rewrite (sort_by_map (λ kv : string * pyval, (kv.1, json_dumps state_opts kv.2)) by_key) by done.
  rewrite !map_map. apply map_ext_in. intros kv Hkv. cbn [fst snd]. rewrite dumps_flat; [done|].
  rewrite forallb_forall in Hf. apply Hf. apply list_elem_of_In in Hkv. apply list_elem_of_In.
  by rewrite (sort_by_perm by_key d) in Hkv.
Qed.

Lemma utf8_ascii s : sforall is_ascii s = true → utf8_text s = Some s.
Proof.
  induction s as [|c s IH]; [done|]. cbn [sforall utf8_text]. intros [-> Hs]%andb_true_iff. by rewrite (IH Hs).
Qed.

Lemma body_no_dot s : has_char "." (b64_unpadded s) = false.
Proof.
  rewrite unpadded_body. apply not_true_is_false. intros Hd. apply has_char_spec in Hd as (l & r & E).
  pose proof (body_alphabet s) as Ha. rewrite E, sforall_app in Ha. cbn in Ha. bool_prop. done.
Qed.

Lemma partition_first c a b : has_char c a = false → partition_at c (a +:+ String c b) = Some (a, b).
Proof.
  unfold has_char. induction a as [|d a IH]; cbn; [by rewrite Ascii.eqb_refl|].
  intros [Hd Ha]%orb_false_iff. by rewrite Ascii.eqb_sym, Hd, (IH Ha).
Qed.

Lemma sig_ascii body secret : sforall is_ascii (_sig body secret) = true.
Proof.
  unfold _sig. rewrite unpadded_body. eapply sforall_impl; [|apply body_chars]. by intros c [_ Hc]%andb_true_iff.
Qed.

Lemma join_all p sep l : sforall p sep = true → Forall (λ s, sforall p s = true) l → sforall p (join sep l) = true.
Proof.
  intros Hs. induction 1 as [|x l Hx Hl IH]; [done|]. destruct l as [|y l]; [done|].
  by rewrite join_cons, !sforall_app, Hx, Hs, IH.
Qed.
Lemma json_str_ascii s : sforall is_ascii (json_str true s) = true.
Proof.
  unfold json_str. rewrite !sforall_app. change (sforall is_ascii DQs) with true.
  rewrite andb_true_r. cbn [andb]. induction s as [|c s IH]; [done|]. cbn [concat_map].
  rewrite sforall_app, IH, andb_true_r. destruct c as [[] [] [] [] [] [] [] []]; reflexivity.
Qed.
Lemma str_of_Z_ascii z : sforall is_ascii (str_of_Z z) = true.
Proof.
  assert (∀ n, sforall is_ascii (str_of_N n) = true) as Hn.
  { intros n. eapply sforall_impl; [|apply str_of_N_digits]. intros c. by destruct c as [[] [] [] [] [] [] [] []]. }
  destruct z as [|q|q]; [done|apply Hn|]. exact (Hn (Npos q)).
Qed.

Lemma dumps_ascii v : json_ok v = true → sforall is_ascii (json_dumps compact v) = true.
Proof.
  induction v as [|b|z|q|s|l IH|d IH] using pyval_ind; intros Hok; try done.
  - by destruct b.
  - apply str_of_Z_ascii.
  - apply json_str_ascii.
  - cbn [json_dumps]. rewrite !sforall_app, join_all; [done..|]. apply Forall_map.
    cbn [json_ok] in Hok. rewrite forallb_forall in Hok. rewrite Forall_forall in IH |- *.
    intros x Hx. apply IH; [done|]. by apply Hok, list_elem_of_In.
  - apply json_ok_dict in Hok as [_ Hv]. rewrite Forall_forall in IH.
    cbn [json_dumps compact sort_keys ensure_ascii item_sep key_sep].
    rewrite !sforall_app, join_all; [done..|]. rewrite map_map. apply Forall_map, Forall_forall.
    intros kv Hkv. cbn [fst snd]. rewrite !sforall_app, json_str_ascii. cbn [andb sforall]. apply IH; auto.
Qed.

Lemma partition_split c s a b : partition_at c s = Some (a, b) → s = a +:+ String c b.
Proof.
  revert a. induction s as [|d s IH]; intros a; [done|]. cbn. destruct (Ascii.eqb_spec d c) as [->|].
  - by intros [= <- ->].
  - destruct (partition_at c s) as [[x y]|]; [|done]. intros [= <- ->]. cbn. f_equal. by apply IH.
Qed.

Lemma state_verified payload secret :
  json_ok (PDict payload) = true → forallb (λ kv, flat kv.2) payload = true →
  verify_state (sign_state payload secret) secret = Ok (Some (sort_by by_key payload)).
Proof.
  intros Hok Hf. unfold verify_state, sign_state.
  change ("." +:+ ?x) with (String "." x). rewrite partition_first by apply body_no_dot.
  rewrite sig_ascii, String.eqb_refl. cbn [negb]. unfold state_body. rewrite b64_roundtrip, dumps_sorted by done.
  assert (json_ok (PDict (sort_by by_key payload)) = true) as Hs.
  { apply json_ok_dict in Hok as [Hnd Hv]. apply json_ok_dict. unfold keys in *. rewrite sort_by_perm.
    split; [done|]. intros kv. rewrite sort_by_perm. apply Hv. }
  rewrite utf8_ascii by by apply dumps_ascii. cbn [mbind option_bind].
  by rewrite (json_roundtrip compact "" "") by done.
Qed.

(** Whatever verifies was signed with the secret. *)
Lemma verified_signed token secret obj :
  verify_state token secret = Ok (Some obj) →
  ∃ body, token = body +:+ "." +:+ _sig body secret ∧
    ∃ raw, b64_decode (repad body) = Ok raw ∧ utf8_text raw ≫= json_loads = Some (PDict obj).
Proof.
  unfold verify_state. destruct (partition_at "." token) as [[body sig]|] eqn:Ep; [|done].
  destruct (sforall is_ascii sig); [|done]. cbn [negb]. destruct (sig =? _sig body secret)%string eqn:Es; [|done].
  apply String.eqb_eq in Es as ->. cbn [negb]. destruct (b64_decode (repad body)) as [raw|] eqn:Ed; [|done].
  intros Hv. exists body. split.
  - exact (partition_split _ _ _ _ Ep).
  - exists raw. split; [done|]. destruct (utf8_text raw ≫= json_loads) as [[]|]; by simplify_eq.
Qed.
End StateFacts.

(** ** What the routes keep to *)

(** [int] of the numeral of a time. *)
Lemma fold_digits s : ∀ a k, sforall is_decimal s = true →
  List.fold_left (λ acc c, match acc, hex_val c with
    | Some a, Some d => if (Z.of_N d <? 10)%Z then Some (a * 10 + Z.of_N d)%Z else None
    | _, _ => None end) (list_ascii_of_string s) (Some a) = Some (take_digits s a k).1.1.
Proof.
  induction s as [|c s IH]; intros a k Hs; [done|]. cbn [sforall] in Hs. apply andb_true_iff in Hs as [Hc Hs].
  assert (hex_val c = Some (code c - 48)%N ∧ digit_val c = Some (Z.of_N (code c) - 48)%Z ∧
          (48 ≤ code c ∧ code c ≤ 57)%N) as (Hh & Hd & Hr).
  { unfold hex_val, digit_val. rewrite Hc. split_and!; try done; unfold is_decimal, in_range in Hc;
      apply andb_true_iff in Hc as [?%N.leb_le ?%N.leb_le]; lia. }
  cbn [list_ascii_of_string fold_left take_digits]. rewrite Hh, Hd.
  replace (Z.of_N (code c - 48) <? 10)%Z with true by (symmetry; apply Z.ltb_lt; lia).
  rewrite (IH _ (S k)) by done. do 4 f_equal. lia.
Qed.

Lemma int10_numeral z : (0 < z)%Z → slen (str_of_Z z) ≤ 4300 → int10 (str_of_Z z) = Some z.
Proof.
  destruct z as [|q|q]; try lia. intros _ Hl. cbn [str_of_Z] in *.
  destruct (str_of_N_digits (Npos q)) as (Hd & Hv & Hne).
  rewrite int10_word; [|unfold word_tok; apply andb_true_iff; split].
  - rewrite Hd. cbn [negb orb]. replace (4300 <? _) with false by (symmetry; apply Nat.ltb_ge; lia).
    unfold base_digits. destruct (str_of_N (Npos q)) as [|c s] eqn:E; [done|].
    rewrite (fold_digits _ 0 0) by done. by rewrite Hv.
  - by destruct (str_of_N (Npos q)).
  - eapply sforall_impl; [|exact Hd]. intros c. by destruct c as [[] [] [] [] [] [] [] []].
Qed.

Lemma values_dget b k : NoDup (keys b) →
  dget (values_of b) k = match dget b k with Some (PDict e) => dget e "value" | _ => None end.
Proof.
  unfold values_of, keys. induction b as [|[k' v] b IH]; [done|]. cbn [map omap list_omap dget fst snd].
  intros [Hk Hnd]%NoDup_cons. destruct (k =? k')%string eqn:E.
  - apply String.eqb_eq in E as ->.
    assert (dget (omap (λ kv : string * pyval, match kv.2 with
      | PDict e => match dget e "value" with Some v => Some (kv.1, v) | None => None end
      | _ => None end) b) k' = None) as Hnone.
    { rewrite IH by done. by assert (dget b k' = None) as -> by by apply dget_None. }
    destruct v as [| | | | | |e]; try exact Hnone. destruct (dget e "value") as [x|] eqn:Ex; [|exact Hnone].
    cbn [dget]. by rewrite String.eqb_refl.
  - destruct v as [| | | | | |e]; try (by apply IH). destruct (dget e "value") as [x|]; [|by apply IH].
    cbn [dget]. rewrite E. by apply IH.
Qed.

Section RouteFacts.
Context `{PyFloat} `{Hmac} (environ : environment_vars).

Lemma set_each_values user kvs ms : ∀ m m' : blobs, NoDup (keys (_blob m user)) → NoDup (keys kvs) →
  set_each user kvs ms m = (Ok tt, m') →
  NoDup (keys (_blob m' user)) ∧
  ∀ k, dget (values_of (_blob m' user)) k
     = match dget kvs k with Some v => Some (PStr v) | None => dget (values_of (_blob m user)) k end.
Proof.
  induction kvs as [|[n v] kvs IH]; intros m m' Hnd Hk; [by intros [= <-]|]. cbn [set_each].
  apply NoDup_cons in Hk as [Hn Hk]. cbn [store_set_secret memory_secrets]. unfold mem_set_secret, mem_store.
  destruct (too_large _); [done|]. intros Hs. set (m1 := dset m user _) in Hs.
  assert (_blob m1 user = with_secret (_blob m user) n v ms) as E by (unfold m1, _blob; by rewrite dget_dset_eq).
  assert (NoDup (keys (_blob m1 user))) as Hnd1 by (rewrite E; by apply NoDup_keys_dset).
  destruct (IH m1 m' Hnd1 Hk Hs) as [Hnd' Hv]. split; [done|]. intros k. rewrite Hv, !values_dget, E by done.
  cbn [dget]. unfold with_secret. destruct (k =? n)%string eqn:Ek.
  - apply String.eqb_eq in Ek as ->. rewrite dget_dset_eq. apply dget_None in Hn. cbn [fst] in Hn. by rewrite Hn.
  - apply String.eqb_neq in Ek. by rewrite dget_dset_ne.
Qed.

Lemma set_each_others user kvs ms v : v ≠ user → ∀ m : blobs, dget (set_each user kvs ms m).2 v = dget m v.
Proof.
  intros Hv. induction kvs as [|[n x] kvs IH]; intros m; [done|]. cbn [set_each store_set_secret memory_secrets].
  unfold mem_set_secret, mem_store. destruct (too_large _); [done|]. rewrite IH. by rewrite dget_dset_ne.
Qed.

Lemma delete_each_values user ks : ∀ m : blobs, NoDup (keys (_blob m user)) →
  (delete_each user ks m).1 = Ok tt ∧ NoDup (keys (_blob (delete_each user ks m).2 user)) ∧
  ∀ k, dget (values_of (_blob (delete_each user ks m).2 user)) k
     = if decide (k ∈ ks) then None else dget (values_of (_blob m user)) k.
Proof.
  induction ks as [|n ks IH]; intros m Hnd.
  { split_and!; done. }
  cbn [delete_each store_delete memory_secrets]. unfold mem_delete_secret.
  destruct (dhas (_blob m user) n) eqn:Hh; cbn [negb].
  - set (m1 := dset m user _). assert (_blob m1 user = ddel (_blob m user) n) as E
      by (unfold m1, _blob; by rewrite dget_dset_eq).
    assert (NoDup (keys (_blob m1 user))) as Hnd1 by (rewrite E; by apply NoDup_keys_ddel).
    destruct (IH m1 Hnd1) as (H1 & H2 & H3). split_and!; [done|done|]. intros k. rewrite H3, !values_dget, E by done.
    destruct (decide (k = n)) as [->|Hne].
    + rewrite dget_ddel_eq by done. rewrite (decide_True (P := n ∈ n :: ks)) by left. by case_decide.
    + rewrite dget_ddel_ne by done. destruct (decide (k ∈ ks)) as [Hin|Hin].
      * by rewrite decide_True by by right.
      * rewrite decide_False; [done|]. by rewrite elem_of_cons; intros [?|?].
  - destruct (IH m Hnd) as (H1 & H2 & H3). split_and!; [done|done|]. intros k. rewrite H3, !values_dget by done.
    destruct (decide (k = n)) as [->|Hne].
    + rewrite (decide_True (P := n ∈ n :: ks)) by left. case_decide; [done|].
      unfold dhas in Hh. by destruct (dget (_blob m user) n).
    + destruct (decide (k ∈ ks)) as [Hin|Hin].
      * by rewrite decide_True by by right.
      * rewrite decide_False; [done|]. by rewrite elem_of_cons; intros [?|?].
Qed.
(** A callback does something only on a state of our own for the very user who calls:
    if it answers, or changes the store in any way, the state is a body with our signature
    on it, the body is a dictionary naming the caller, and a code was given. *)
Theorem callback_needs_own_state {St : Type} `{SecretStore St} post now now_ms code state user_id (s : St) x s' :
  callback environ post now now_ms code state user_id s = (x, s') → x = Answer tt ∨ s' ≠ s →
  _oauth_configured environ = true ∧ code ≠ "" ∧
  ∃ body raw data, state = body +:+ "." +:+ _sig body (_state_secret environ) ∧
    b64_decode (repad body) = Ok raw ∧ utf8_text raw ≫= json_loads = Some (PDict data) ∧
    py_str (get data "user_id") = user_id.
Proof.
  unfold callback. destruct (_oauth_configured environ); cbn [negb]; [|by intros [= <- <-] [?|?]].
  destruct (callback_state environ state user_id) as [data| |] eqn:Ec; [|by intros [= <- <-] [?|?]..].
  destruct (code =? "")%string eqn:Eco; [by intros [= <- <-] [?|?]|]. intros _ _. split; [done|].
  split; [by apply String.eqb_neq|]. unfold callback_state in Ec.
  destruct (state =? "")%string; [done|].
  destruct (verify_state state (_state_secret environ)) as [[obj|]|] eqn:Ev; cbn [of_res web_bind] in Ec; try done.
  apply verified_signed in Ev as (body & Eb & raw & Hd & Hj). destruct obj as [|kv obj]; [done|].
  destruct (py_str (get (kv :: obj) "user_id") =? user_id)%string eqn:Eu; [|done]. apply String.eqb_eq in Eu.
  by exists body, raw, (kv :: obj).
Qed.

(** The keys of either connection, and a user who has none of them. *)
Definition connection_keys : list string := _GCP_KEYS ++ _GWS_KEYS.
Definition unconnected (m : blobs) (user_id : string) : Prop :=
  NoDup (keys (_blob m user_id)) ∧ ∀ k, k ∈ connection_keys → dget (values_of (_blob m user_id)) k = None.

Definition status_none : oauth_status :=
  OAuthStatus (Connection false None) (Connection false None) (PList []) true (keys WORKSPACE_SURFACES).
Definition status_gcp (e : option Z) : oauth_status :=
  OAuthStatus (Connection true e) (Connection false None) (PList []) true (keys WORKSPACE_SURFACES).
Definition status_workspace (e : option Z) (surfaces : list string) (readonly : bool) : oauth_status :=
  OAuthStatus (Connection false None) (Connection true e) (PList (map PStr surfaces)) readonly
    (keys WORKSPACE_SURFACES).

(** The state a user is sent away with comes back as its data. *)
Lemma callback_state_own user target readonly surfaces nonce :
  callback_state environ (sign_state (state_payload user target readonly surfaces nonce) (_state_secret environ)) user
  = Answer (sort_by by_key (state_payload user target readonly surfaces nonce)).
Proof.
  unfold callback_state. assert (∀ p k, (sign_state p k =? "")%string = false) as Hne.
  { intros p k. unfold sign_state. apply String.eqb_neq. by destruct (state_body p). }
  rewrite Hne, state_verified.
  - cbn [of_res web_bind]. unfold state_payload. cbn [sort_by insert_by by_key fst].
    change (py_str (get _ "user_id")) with user at 1. by rewrite String.eqb_refl.
  - apply json_ok_dict. split; [apply (bool_decide_unpack _); vm_compute; exact I|].
    intros kv Hkv. unfold state_payload in Hkv. rewrite !elem_of_cons, elem_of_nil in Hkv.
    destruct Hkv as [-> | [-> | [-> | [-> | [-> | []]]]]]; try done. cbn [snd json_ok].
    apply forallb_forall. intros x (t & <- & _)%in_map_iff. done.
  - unfold state_payload. cbn [forallb snd flat]. rewrite andb_true_r, !andb_true_l.
    apply forallb_forall. intros x (t & <- & _)%in_map_iff. done.
Qed.

Lemma callback_state_other user other target readonly surfaces nonce : other ≠ user →
  callback_state environ (sign_state (state_payload user target readonly surfaces nonce) (_state_secret environ)) other
  = HTTPException 403 "state/user mismatch".
Proof.
  intros Ho%not_eq_sym%String.eqb_neq. pose proof (callback_state_own user target readonly surfaces nonce) as Hc.
  unfold callback_state in *. destruct (if (_ =? "")%string then _ else _) as [[[|kv d]|]| |]; try done.
  cbn [web_bind] in *. destruct (py_str (get (kv :: d) "user_id") =? user)%string eqn:E; [|done].
  apply String.eqb_eq in E as ->. by rewrite Ho.
Qed.
Lemma meta_read l readonly :
  truthy (PStr (meta_text (map PStr l) readonly)) = true ∧
  json_loads (meta_text (map PStr l) readonly)
  = Some (PDict [("surfaces", PList (map PStr l)); ("readonly", PBool readonly)]).
Proof.
  split; [done|]. unfold meta_text. rewrite (json_roundtrip dump_default " " " "); try done.
  apply json_ok_dict. split; [apply (bool_decide_unpack _); vm_compute; exact I|].
  intros kv. rewrite !elem_of_cons, elem_of_nil. intros [-> | [-> | []]]; [|done].
  apply forallb_forall. intros x (t & <- & _)%in_map_iff. done.
Qed.

(** The expiry as it is stored and as it is reported. *)
Definition reported (now n : Z) : option Z := if (n =? 0)%Z then None else Some (now + n)%Z.
Definition readable (now n : Z) : Prop := n ≠ 0%Z → (0 < now + n)%Z ∧ slen (str_of_Z (now + n)) ≤ 4300.

Definition stored_expiry (now n : Z) : pyval :=
  if (n =? 0)%Z then PNone else PStr (str_of_Z (now + n)).
Lemma expiry_reported now n : readable now n → _int_or_none (stored_expiry now n) = Ok (reported now n).
Proof.
  unfold stored_expiry, reported, _int_or_none. intros Hr. destruct (n =? 0)%Z eqn:E; [done|].
  apply Z.eqb_neq in E. destruct (Hr E) as [Hp Hl]. cbn [py_int truthy]. rewrite int10_numeral by done.
  assert ((str_of_Z (now + n) =? "")%string = false) as ->; [|done].
  apply String.eqb_neq. destruct (now + n)%Z as [|q|q] eqn:Eq; try lia. apply str_of_N_digits.
Qed.

Lemma status_of_keys (values : pydict) gt ge wt we wm meta ge' we' :
  dget values GCP_TOKEN_KEY = gt → get values GCP_EXPIRES_KEY = ge →
  dget values GWS_TOKEN_KEY = wt → get values GWS_EXPIRES_KEY = we →
  get values GWS_META_KEY = wm →
  (if truthy wm then match wm with PStr t => Ok (default (PDict []) (json_loads t))
                                | _ => Raise (TypeError "the JSON object must be str, bytes or bytearray") end
   else Ok (PDict [])) = Ok (PDict meta) →
  _int_or_none ge = Ok ge' → _int_or_none we = Ok we' →
  status_of values = Ok (OAuthStatus
    (Connection (match gt with Some _ => true | None => false end) ge')
    (Connection (match wt with Some _ => true | None => false end) we')
    (default (PList []) (dget meta "surfaces")) (truthy (default (PBool true) (dget meta "readonly")))
    (keys WORKSPACE_SURFACES)).
Proof.
  intros Hgt Hge Hwt Hwe Hwm Hm Hg Hw. unfold status_of, workspace_meta. rewrite Hwm, Hm, Hge, Hwe, Hg, Hw.
  cbn [res_bind]. unfold dhas. by rewrite Hgt, Hwt.
Qed.

Lemma dget_here (l : list (string * string)) k v : dget ((k, v) :: l) k = Some v.
Proof. cbn [dget]. by rewrite String.eqb_refl. Qed.
Lemma dget_there (l : list (string * string)) n k v : n ≠ k → dget ((k, v) :: l) n = dget l n.
Proof. intros Hn%String.eqb_neq. cbn [dget]. by rewrite Hn. Qed.
Ltac entries := repeat first [rewrite dget_here | rewrite dget_there by done]; try reflexivity.

(** The status of a user whose connections are the entries just stored. *)
Lemma status_gcp_stored values token now n : readable now n →
  let kvs := gcp_entries token (if (n =? 0)%Z then 0%Z else (now + n)%Z) in
  (∀ k, k ∈ connection_keys → dget values k = option_map PStr (dget kvs k)) →
  status_of values = Ok (status_gcp (reported now n)).
Proof.
  intros Hr kvs Hv.
  eapply (status_of_keys values (Some (PStr token)) (stored_expiry now n) None PNone PNone [] _ None); try done.
  - rewrite Hv by (unfold connection_keys; cbn; set_solver). unfold kvs, gcp_entries. by rewrite dget_here.
  - unfold get. rewrite Hv by (unfold connection_keys; cbn; set_solver).
    unfold kvs, gcp_entries, expiry_entry, stored_expiry. rewrite dget_there by done.
    destruct (n =? 0)%Z eqn:E; [done|]. apply Z.eqb_neq in E. destruct (Hr E) as [Hp _].
    replace (now + n =? 0)%Z with false by (symmetry; apply Z.eqb_neq; lia). by rewrite dget_here.
  - rewrite Hv by (unfold connection_keys; cbn; set_solver). unfold kvs, gcp_entries, expiry_entry.
    case_match; entries.
  - unfold get. rewrite Hv by (unfold connection_keys; cbn; set_solver). unfold kvs, gcp_entries, expiry_entry.
    case_match; entries.
  - unfold get. rewrite Hv by (unfold connection_keys; cbn; set_solver). unfold kvs, gcp_entries, expiry_entry.
    case_match; entries.
  - by apply expiry_reported.
Qed.

Lemma status_workspace_stored values token now n l readonly : readable now n →
  let kvs := workspace_entries token (if (n =? 0)%Z then 0%Z else (now + n)%Z) (map PStr l) readonly in
  (∀ k, k ∈ connection_keys → dget values k = option_map PStr (dget kvs k)) →
  status_of values = Ok (status_workspace (reported now n) l readonly).
Proof.
  intros Hr kvs Hv. destruct (meta_read l readonly) as [Ht Hj].
  assert (∀ k, k ∈ connection_keys → k ≠ GWS_TOKEN_KEY → k ≠ GWS_EXPIRES_KEY → k ≠ GWS_META_KEY → dget values k = None)
    as Hnone.
  { intros k Hk H1 H2 H3. rewrite Hv by done. unfold kvs, workspace_entries, expiry_entry.
    rewrite dget_there by done. case_match; cbn [app]; rewrite ?dget_there by done; done. }
  eapply (status_of_keys values None PNone (Some (PStr token)) (stored_expiry now n)
    (PStr (meta_text (map PStr l) readonly))
    [("surfaces", PList (map PStr l)); ("readonly", PBool readonly)] None); try done.
  - apply Hnone; [unfold connection_keys; cbn; set_solver|done..].
  - unfold get. rewrite Hnone; [done|unfold connection_keys; cbn; set_solver|done..].
  - rewrite Hv by (unfold connection_keys; cbn; set_solver). unfold kvs, workspace_entries. by rewrite dget_here.
  - unfold get. rewrite Hv by (unfold connection_keys; cbn; set_solver).
    unfold kvs, workspace_entries, expiry_entry, stored_expiry. rewrite dget_there by done.
    destruct (n =? 0)%Z eqn:E; [cbn [app Z.eqb]; by rewrite dget_there by done|].
    apply Z.eqb_neq in E. destruct (Hr E) as [Hp _].
    replace (now + n =? 0)%Z with false by (symmetry; apply Z.eqb_neq; lia). cbn [app]. by rewrite dget_here.
  - unfold get. rewrite Hv by (unfold connection_keys; cbn; set_solver).
    unfold kvs, workspace_entries, expiry_entry. rewrite dget_there by done.
    case_match; cbn [app]; rewrite ?dget_there by done; by rewrite dget_here.
  - rewrite Ht, Hj. done.
  - by apply expiry_reported.
Qed.
Lemma gcp_entries_keys token e : NoDup (keys (gcp_entries token e)).
Proof. unfold gcp_entries, expiry_entry. case_match; apply (bool_decide_unpack _); vm_compute; exact I. Qed.
Lemma workspace_entries_keys token e l ro : NoDup (keys (workspace_entries token e l ro)).
Proof.
  unfold workspace_entries, expiry_entry, keys. case_match; cbn [app map fst];
    apply (bool_decide_unpack _); vm_compute; exact I.
Qed.

Lemma exchanged_ok post code r : exchanged environ post code = Answer r →
  exchange_code post code (_client_id environ) (_client_secret environ) (_redirect_uri environ) = Ok r.
Proof.
  unfold exchanged. destruct (exchange_code _ _ _ _ _) as [x|e]; [by intros [= ->]|]. by destruct (is_error _ _).
Qed.

(** What a target's connection stores, and the status it has then. *)
Definition entries_of (target token : string) (e : Z) (surfaces : string) (readonly : bool) : list (string * string) :=
  if (target =? "gcp")%string then gcp_entries token e
  else workspace_entries token e (map PStr (surface_list surfaces)) readonly.
Definition connected_status (target : string) (e : option Z) (surfaces : string) (readonly : bool) : oauth_status :=
  if (target =? "gcp")%string then status_gcp e else status_workspace e (surface_list surfaces) readonly.

Lemma entries_status target token now n surfaces readonly values : readable now n →
  (∀ k, k ∈ connection_keys → dget values k =
    option_map PStr (dget (entries_of target token (if (n =? 0)%Z then 0%Z else (now + n)%Z) surfaces readonly) k)) →
  status_of values = Ok (connected_status target (reported now n) surfaces readonly).
Proof.
  unfold entries_of, connected_status. intros Hr Hv. destruct (target =? "gcp")%string.
  - by apply (status_gcp_stored _ token).
  - by apply (status_workspace_stored _ token).
Qed.

Lemma callback_stores post now ms code target readonly surfaces nonce user (m : blobs) m' :
  target = "gcp" ∨ target = "workspace" →
  callback environ post now ms code
    (sign_state (state_payload user target readonly surfaces nonce) (_state_secret environ)) user m = (Answer tt, m') →
  ∃ token n,
    exchange_code post code (_client_id environ) (_client_secret environ) (_redirect_uri environ) = Ok (token, n) ∧
    set_each user (entries_of target token (if (n =? 0)%Z then 0%Z else (now + n)%Z) surfaces readonly) ms m
      = (Ok tt, m').
Proof.
  intros Ht. unfold callback. destruct (negb _); [done|]. rewrite callback_state_own.
  destruct (code =? "")%string; [done|].
  destruct (exchanged environ post code) as [[token n]| |] eqn:Hx; [|done..].
  intros Hc. exists token, n. split; [by apply exchanged_ok|]. unfold entries_of.
  change (get (sort_by by_key (state_payload user target readonly surfaces nonce)) "target") with (PStr target) in Hc.
  change (get (sort_by by_key (state_payload user target readonly surfaces nonce)) "surfaces")
    with (PList (map PStr (surface_list surfaces))) in Hc.
  change (dget (sort_by by_key (state_payload user target readonly surfaces nonce)) "readonly")
    with (Some (PBool readonly)) in Hc.
  destruct Ht as [-> | ->]; cbn [String.eqb] in Hc |- *.
  - change ("gcp" =? "workspace")%string with false in Hc. change ("gcp" =? "gcp")%string with true.
    cbv iota beta in Hc |- *. unfold persist_gcp in Hc.
    destruct (set_each _ _ _ _) as [[[]|] m1]; by simplify_eq.
  - change ("workspace" =? "workspace")%string with true in Hc. change ("workspace" =? "gcp")%string with false.
    cbv iota beta in Hc |- *.
    assert (py_list (if truthy (PList (map PStr (surface_list surfaces)))
                     then PList (map PStr (surface_list surfaces)) else PList [])
            = Ok (map PStr (surface_list surfaces))) as Hl by by destruct (surface_list surfaces).
    rewrite Hl in Hc. change (truthy (default (PBool true) (Some (PBool readonly)))) with readonly in Hc.
    unfold persist_workspace in Hc. destruct (set_each _ _ _ _) as [[[]|] m1]; by simplify_eq.
Qed.

(** The deletion of a connection clears what its entries had set. *)
Lemma deleted_entries target token e surfaces readonly k : target = "gcp" ∨ target = "workspace" →
  k ∈ connection_keys → k ∉ (if (target =? "gcp")%string then _GCP_KEYS else _GWS_KEYS) →
  dget (entries_of target token e surfaces readonly) k = None.
Proof.
  intros Ht Hin Hk. unfold entries_of. unfold connection_keys, _GCP_KEYS, _GWS_KEYS in *.
  destruct Ht as [-> | ->].
  - change ("gcp" =? "gcp")%string with true in *. cbv iota in *. rewrite !elem_of_cons, elem_of_nil in Hk.
    unfold gcp_entries, expiry_entry. rewrite dget_there by naive_solver.
    case_match; [done|]. rewrite dget_there by naive_solver. done.
  - change ("workspace" =? "gcp")%string with false in *. cbv iota in *. rewrite !elem_of_cons, elem_of_nil in Hk.
    unfold workspace_entries, expiry_entry. rewrite dget_there by naive_solver.
    case_match; cbn [app]; rewrite ?dget_there by naive_solver; done.
Qed.

Lemma disconnect_clears target user (m : blobs) token e surfaces readonly :
  target = "gcp" ∨ target = "workspace" → NoDup (keys (_blob m user)) →
  (∀ k, k ∈ connection_keys →
     dget (values_of (_blob m user)) k = option_map PStr (dget (entries_of target token e surfaces readonly) k)) →
  ∃ m', disconnect target user m = (Answer tt, m') ∧ ∀ t, status t user m' = (Answer status_none, m').
Proof.
  intros Ht Hnd Hv.
  destruct (delete_each_values user (if (target =? "gcp")%string then _GCP_KEYS else _GWS_KEYS) m Hnd) as (Hd & _ & Hdv).
  unfold disconnect, clear_connection.
  assert (negb ((target =? "gcp")%string || (target =? "workspace")%string) = false) as ->
    by by destruct Ht as [-> | ->].
  destruct (delete_each user _ m) as [r m'] eqn:Em. cbn [fst snd] in Hd, Hdv. subst r. exists m'. split; [done|].
  intros t. unfold status. cbn [store_get_all memory_secrets]. unfold mem_get_all. cbn [res_bind].
  assert (∀ k, k ∈ connection_keys → dget (values_of (_blob m' user)) k = None) as Hgone.
  { intros k Hin. rewrite Hdv. case_decide as Hk; [done|]. by rewrite Hv, deleted_entries by done. }
  rewrite (status_of_keys _ None PNone None PNone PNone [] None None); try done;
    unfold get; by rewrite ?Hgone by (unfold connection_keys; cbn; set_solver).
Qed.

(** The whole round of a connection, for a user who has none. The link handed out asks
    for the scopes chosen and carries a state that only this user's callback accepts:
    anyone else's is refused with 403 and stores nothing. When the user's own callback
    answers, the token of the exchange is stored, no other user's secrets have changed,
    and from then on the status is exactly the connection asked for: its target, its
    surfaces, its access mode and its expiry. Disconnecting takes all of it back. *)
Theorem connection_as_asked target readonly surfaces user nonce url (m : blobs) :
  connect environ target readonly surfaces user nonce = Answer url → unconnected m user →
  ∃ state scopes, asked_scopes target readonly surfaces = Answer scopes ∧
    url = build_auth_url (_client_id environ) (_redirect_uri environ) scopes state ∧
    (∀ other post now ms code, other ≠ user →
      callback environ post now ms code state other m = (HTTPException 403 "state/user mismatch", m)) ∧
    ∀ post now ms code m', callback environ post now ms code state user m = (Answer tt, m') →
      ∃ token n,
        exchange_code post code (_client_id environ) (_client_secret environ) (_redirect_uri environ) = Ok (token, n) ∧
        dget (values_of (_blob m' user)) (if (target =? "gcp")%string then GCP_TOKEN_KEY else GWS_TOKEN_KEY)
          = Some (PStr token) ∧
        (∀ v, v ≠ user → dget m' v = dget m v) ∧
        (readable now n → ∀ t, status t user m' =
          (Answer (connected_status target (reported now n) surfaces readonly), m')) ∧
        ∃ m'', disconnect target user m' = (Answer tt, m'') ∧ ∀ t, status t user m'' = (Answer status_none, m'').
Proof.
  unfold connect. destruct (_oauth_configured environ) eqn:Hconf; [|done]. cbn [negb].
  destruct (asked_scopes target readonly surfaces) as [scopes| |] eqn:Hs; try done. cbn [web_bind].
  intros [= <-] [Hnd Hnone].
  set (state := sign_state (state_payload user target readonly surfaces nonce) (_state_secret environ)).
  assert (target = "gcp" ∨ target = "workspace") as Ht.
  { unfold asked_scopes in Hs. destruct (target =? "gcp")%string eqn:E1; [left; by apply String.eqb_eq|].
    destruct (target =? "workspace")%string eqn:E2; [right; by apply String.eqb_eq|done]. }
  exists state, scopes. split_and!; [done|done| |].
  { intros other post now ms code Ho. unfold callback. rewrite Hconf. cbn [negb]. unfold state.
    by rewrite callback_state_other. }
  intros post now ms code m' Hc. destruct (callback_stores _ _ _ _ _ _ _ _ _ _ _ Ht Hc) as (token & n & Hx & Hset).
  set (kvs := entries_of target token _ surfaces readonly) in Hset.
  assert (NoDup (keys kvs)) as Hk.
  { unfold kvs, entries_of. case_match; [apply gcp_entries_keys|apply workspace_entries_keys]. }
  destruct (set_each_values _ _ _ _ _ Hnd Hk Hset) as [Hnd' Hv].
  assert (∀ k, k ∈ connection_keys → dget (values_of (_blob m' user)) k = option_map PStr (dget kvs k)) as Hvk.
  { intros k Hin. rewrite Hv, Hnone by done. by destruct (dget kvs k). }
  exists token, n. split; [done|]. split.
  { rewrite Hv. unfold kvs, entries_of, gcp_entries, workspace_entries.
    destruct (target =? "gcp")%string; by rewrite dget_here. }
  split; [intros v Hne; by rewrite <- (set_each_others user kvs ms v Hne m), Hset|].
  split.
  { intros Hr t. unfold status. cbn [store_get_all memory_secrets]. unfold mem_get_all. cbn [res_bind].
    by rewrite (entries_status target token now n surfaces readonly). }
  by apply (disconnect_clears target user m' token (if (n =? 0)%Z then 0%Z else (now + n)%Z) surfaces readonly).
Qed.
End RouteFacts.

(** ** At a concrete input *)

Definition oauth_vars : environment_vars :=
  [("LHA_GCP_OAUTH_CLIENT_ID", "cid"); ("LHA_GCP_OAUTH_CLIENT_SECRET", "key");
   ("LHA_GCP_OAUTH_REDIRECT_URI", "https://lha/cb")].
(** A digest that is the key and the text, and an endpoint that gives a token for an hour. *)
Definition demo_hmac : Hmac := λ key msg, key +:+ ":" +:+ msg.
Definition one_hour : string → list (string * string) → res pydict :=
  λ _ _, Ok [("access_token", PStr "ya29"); ("expires_in", PInt 3600)].
Definition ann_state : string :=
  sign_state (H := λ _, "") (H0 := demo_hmac) (state_payload "ann" "workspace" true "drive,chat" "n1") "key".

Lemma connection_as_asked_witness :
  let Hfl : PyFloat := λ _, "" in let Hm : Hmac := demo_hmac in
  let url := build_auth_url "cid" "https://lha/cb"
    (workspace_scopes ["drive"; "chat"] true) ann_state in
  connect oauth_vars "workspace" true "drive,chat" "ann" "n1" = Answer url ∧
  (callback oauth_vars one_hour 1000 0 "c0de" ann_state "ann" ([] : blobs)).1 = Answer tt ∧
  ∃ state scopes, asked_scopes "workspace" true "drive,chat" = Answer scopes ∧
    url = build_auth_url (_client_id oauth_vars) (_redirect_uri oauth_vars) scopes state ∧
    (∀ other post now ms code, other ≠ "ann" →
      callback oauth_vars post now ms code state other ([] : blobs)
        = (HTTPException 403 "state/user mismatch", [])) ∧
    ∀ post now ms code m', callback oauth_vars post now ms code state "ann" ([] : blobs) = (Answer tt, m') →
      ∃ token n,
        exchange_code post code (_client_id oauth_vars) (_client_secret oauth_vars) (_redirect_uri oauth_vars)
          = Ok (token, n) ∧
        dget (values_of (_blob m' "ann")) GWS_TOKEN_KEY = Some (PStr token) ∧
        (∀ v, v ≠ "ann" → dget m' v = None) ∧
        (readable now n → ∀ t, status t "ann" m' =
          (Answer (connected_status "workspace" (reported now n) "drive,chat" true), m')) ∧
        ∃ m'', disconnect "workspace" "ann" m' = (Answer tt, m'') ∧ ∀ t, status t "ann" m'' = (Answer status_none, m'').
Proof.
  intros Hfl Hm url.
  assert (connect oauth_vars "workspace" true "drive,chat" "ann" "n1" = Answer url) as Hc by (vm_compute; reflexivity).
  split; [exact Hc|]. split; [vm_compute; reflexivity|].
  apply (connection_as_asked oauth_vars "workspace" true "drive,chat" "ann" "n1" url [] Hc).
  split; [constructor|done].
Defined.

Lemma callback_needs_own_state_witness :
  let Hfl : PyFloat := λ _, "" in let Hm : Hmac := demo_hmac in
  let r := callback oauth_vars one_hour 1000 0 "c0de" ann_state "ann" ([] : blobs) in
  r.1 = Answer tt ∧
  (_oauth_configured oauth_vars = true ∧ "c0de" ≠ "" ∧
  ∃ body raw data, ann_state = body +:+ "." +:+ _sig body (_state_secret oauth_vars) ∧
    b64_decode (repad body) = Ok raw ∧ utf8_text raw ≫= json_loads = Some (PDict data) ∧
    py_str (get data "user_id") = "ann").
Proof.
  intros Hfl Hm r. assert (r.1 = Answer tt) as Hr by (vm_compute; reflexivity). split; [exact Hr|].
  apply (callback_needs_own_state oauth_vars one_hour 1000 0 "c0de" ann_state "ann" ([] : blobs) r.1 r.2);
    [apply surjective_pairing|by left].
Defined.

(** ** What a careless exchange leaves behind *)

(** A new connection without an expiry keeps the expiry of the one before. *)
Definition no_expiry : string → list (string * string) → res pydict := λ _ _, Ok [("access_token", PStr "new")].
Example stale_expiry_reported :
  let Hfl : PyFloat := λ _, "" in let Hm : Hmac := demo_hmac in
  let st := sign_state (state_payload "ann" "gcp" true "" "n1") "key" in
  let m1 := (callback oauth_vars one_hour 1000 0 "c0de" st "ann" ([] : blobs)).2 in
  let m2 := (callback oauth_vars no_expiry 9000 0 "c0de" st "ann" m1).2 in
  (status 0 "ann" m2).1 = Answer (status_gcp (Some 4600%Z)).
Proof. vm_compute. reflexivity. Qed.

(** A signature with a character beyond ASCII is an exception, not a refusal. *)
Example non_ascii_signature_raises :
  let Hfl : PyFloat := λ _, "" in let Hm : Hmac := demo_hmac in
  verify_state ("abc." +:+ s1 "233") "key"
  = Raise (TypeError "comparing strings with non-ASCII characters is not supported").
Proof. vm_compute. reflexivity. Qed.
