(* ===== verification/ChildGuard.v ===== *)
(** * Delegated children under guard: [subagents/child_guard.py],
    [subagents/ask_parent.py], [subagents/resurface_context.py], [subagents/profiles.py]

    The callback in front of a child's tool calls: its profile, the grants it inherits, the
    exfiltration and policy guards of the root agent, and the one approval a drain may send
    up to the user. *)

From S2P Require Import Prelude PyStr Names Regex PyVal Sorting Overlay CommandClassify CommandSafety.
From S2P Require Import PermissionRules PolicyGrants Policies PermissionGuard ExfilConfig ExfilGuard.

(** ** Profiles *)

Record ChildProfile := Profile {
  p_name : string;
  p_description : string;
  allowed_tool_names : option (list string);
}.

Definition PROFILES : list (string * ChildProfile) :=
  [("explore", Profile "explore"
     ("Read-only researcher: file reads and search only, no writes, " +:+ "no shell, no network.")
     (Some [READ; SEARCH_FILES]))].

Definition get_profile (name : string) : res ChildProfile :=
  match dget PROFILES name with Some p => Ok p | None => Raise (KeyError name) end.

Definition render_profiles_block : string :=
  let line p := "- " +:+ p_name p +:+ ": " +:+ p_description p in
  join NLs ("## Child profiles (pass profile=<name> to lock a child down)"
            :: map line (sort_by (λ a b, str_leb (p_name a) (p_name b)) (map snd PROFILES))).

(** ** The bubble budget

    [None] outside a drain. A context variable: a call that runs in a copy of the context
    does not change the budget its siblings see. *)

Definition bubble : Type := option Z.

Definition try_consume_bubble (budget : bubble) : bool * bubble :=
  match budget with
  | None => (false, budget)
  | Some b => if (b <=? 0)%Z then (false, budget) else (true, Some (b - 1)%Z)
  end.

(** [with child_drain(n)]: the block runs under [Some n] and the former budget returns. *)
Definition child_drain {A} (n : Z) (block : bubble → A * bubble) (outer : bubble) : A * bubble :=
  ((block (Some n)).1, outer).

(** What a child's calls read and change. *)
Record cworld := CWorld {
  cw : world;
  cw_exfil : ocache ExfilConfig;
  cw_policies : policies_cache;
  cw_budget : bubble;
}.
Definition with_world (w : world) (x : cworld) : cworld :=
  CWorld w (cw_exfil x) (cw_policies x) (cw_budget x).
Definition with_budget (b : bubble) (x : cworld) : cworld :=
  CWorld (cw x) (cw_exfil x) (cw_policies x) b.
Definition with_state (st : session) (w : world) : world :=
  World (w_cache w) (w_fs w) st (w_requests w) (w_skip w).

(** ** Asking the parent *)

Definition ASK_PARENT_TOOL_NAME : string := "ask_parent".
Definition _NO_PARENT_NOTE : string :=
  "No parent is available to answer (background/headless run, or the single "
  +:+ "escalation for this task was already used). Make the most reasonable "
  +:+ "interpretation and note the assumption in your summary.".

(** The text of a non-blank string. *)
Definition non_blank (v : pyval) : option string :=
  match v with PStr s => if (strip s =? "")%string then None else Some (strip s) | _ => None end.

Definition _extract_answer (payload : pyval) : option string :=
  match payload with
  | PDict p => non_blank (py_or (get p "answer") (get p "choice"))
  | _ => non_blank payload
  end.

Definition opt_str (o : option string) : pyval := match o with Some s => PStr s | None => PNone end.

Definition ask_parent (question : string) (tc : option confirmation) (x : cworld) : pydict * cworld :=
  if (strip question =? "")%string
  then ([("success", PBool false); ("error", PStr "Question text is required.")], x)
  else
    let q := strip question in
    match tc with
    | Some c =>
        if negb (tc_confirmed c)
        then ([("answer", PNone); ("note", PStr "The parent declined to answer.")], x)
        else ([("answer", opt_str (_extract_answer (tc_payload c)))], x)
    | None =>
        let '(available, b) := try_consume_bubble (cw_budget x) in
        if negb available then ([("answer", PNone); ("note", PStr _NO_PARENT_NOTE)], x)
        else
          let '(_, w) := request_user_confirmation None q
                           [("kind", PStr "ask_parent"); ("question", PStr q)] (cw x) in
          ([("status", PStr "awaiting_parent"); ("summary", PStr ("Escalated to parent: " +:+ q))],
           with_budget b (with_world w x))
    end.

(** ** The guard *)

Definition _deny_msg (tool_name : string) (profile : ChildProfile) : string :=
  let allowed := sort_by str_leb (default [] (allowed_tool_names profile)) in
  "tool " +:+ repr_str tool_name +:+ " is not permitted under the " +:+ repr_str (p_name profile)
  +:+ " profile (allowed: " +:+ "[" +:+ join ", " (map repr_str allowed) +:+ "]" +:+ ").".

Definition _normalize_grants (parent_grants : pyval) : list pydict :=
  match parent_grants with PList l => omap is_dict l | _ => [] end.

Definition _write_grant (state : session) (tool_name : string) (proposed_prefix : option (list string)) :
    session :=
  match state with
  | None => None
  | Some _ =>
      let rule := [("toolName", PStr tool_name); ("decision", PStr "allow")] ++
        match proposed_prefix with
        | Some ((_ :: _) as ps) => [("commandPrefix", PList (map PStr ps))]
        | _ => []
        end in
      (write_session_grants state (read_session_grants state ++ [PDict rule])).2
  end.

(** The request a child sends up: that of the permission guard without its rule. *)
Definition child_payload (tool_name : string) (r : resolution) : pydict :=
  let summary := summary_of tool_name (rs_command r) in
  [("kind", PStr "permission"); ("toolName", PStr tool_name); ("summary", PStr summary);
   ("question", PStr summary);
   ("choices", PList (map (λ kv, PStr kv.2) (ordered_outcomes (label_target tool_name (rs_prefixes r)))))].

Definition exhausted_reply (tool_name : string) : pydict :=
  refusal ("This delegated task needs approval for " +:+ tool_name +:+ ", but the single "
           +:+ "approval available per delegate run was already used. Split the work "
           +:+ "into separate delegate calls or pre-grant the operation.")
    ["permission_denied"; "resurface_exhausted"].

Section Guard.
Context `{PyRe} `{PyFloat}.

(** An [ask_user] decision, on resume and on the first pass. *)
Definition ask_up (k : call) (r : resolution) (x : cworld) : option pydict * cworld :=
  match c_confirmation k with
  | Some tc =>
      if tc_confirmed tc
      then (None, with_world (with_state (_write_grant (w_state (cw x)) (c_tool k) (rs_prefixes r)) (cw x)) x)
      else (Some (refusal ("User declined the " +:+ c_tool k +:+ " call.") ["permission_denied"]), x)
  | None =>
      let '(available, b) := try_consume_bubble (cw_budget x) in
      if available then
        let '(_, w) := request_user_confirmation None (summary_of (c_tool k) (rs_command r))
                         (child_payload (c_tool k) r) (cw x) in
        (Some (refusal ("This " +:+ c_tool k +:+ " call requires user approval. Awaiting confirmation.")
                 ["confirmation_required"]), with_budget b (with_world w x))
      else (Some (exhausted_reply (c_tool k)), x)
  end.

Definition _resurface_decision (k : call) (x : cworld) : res (option pydict) * cworld :=
  let '(resolved, c) := resolve_permission_decision (w_cache (cw x)) (w_fs (cw x)) (c_env k)
                          (c_tool k) (c_args k) (w_state (cw x)) (c_agent k) in
  let x := with_world (with_cache c (cw x)) x in
  match resolved with
  | Raise e => (Raise e, x)
  | Ok r =>
      match rs_decision r with
      | allow => (Ok None, x)
      | deny => (Ok (Some (deny_reply (c_tool k) (rs_deny_rule r))), x)
      | ask_user => let '(reply, x') := ask_up k r x in (Ok reply, x')
      end
  end.

(** The parent's grants reach the session once, when it has none. *)
Definition inherit (grants : list pydict) (state : session) : session :=
  match grants, state with
  | _ :: _, Some st =>
      if truthy (get st POLICY_GRANTS_STATE_KEY) then state
      else Some (dset st POLICY_GRANTS_STATE_KEY (PList (map PDict grants)))
  | _, _ => state
  end.

Definition profile_allows (profile : option ChildProfile) (tool_name : string) : bool :=
  match profile ≫= allowed_tool_names with Some names => mem tool_name names | None => true end.

(** [make_child_policy_guard(parent_grants=..., profile=...)], the guard it returns. *)
Definition child_guard (parent_grants : pyval) (profile : option ChildProfile) (k : call) (x : cworld) :
    res (option pydict) * cworld :=
  if (c_tool k =? ASK_PARENT_TOOL_NAME)%string then (Ok None, x)
  else if negb (profile_allows profile (c_tool k))
  then (Ok (Some [("error", PStr (from_option (_deny_msg (c_tool k)) "" profile));
                  ("denied_by_profile", PBool true)]), x)
  else
    let x := with_world (with_state (inherit (_normalize_grants parent_grants) (w_state (cw x))) (cw x)) x in
    let '(exfil, ce) := exfil_guard (cw_exfil x) (w_fs (cw x)) (c_env k) (w_state (cw x)) (c_tool k) (c_args k) in
    let x := CWorld (cw x) ce (cw_policies x) (cw_budget x) in
    match exfil with
    | Raise e => (Raise e, x)
    | Ok (Some block) => (Ok (Some block), x)
    | Ok None =>
        let ask_is_deny := match cw_budget x with None => true | Some _ => false end in
        let '(pol, cp) := policies_guard (cw_policies x) (w_fs (cw x)) (c_env k) (w_state (cw x))
                            (c_tool k) (c_args k) ask_is_deny in
        let x := CWorld (cw x) (cw_exfil x) cp (cw_budget x) in
        match cw_budget x, pol with
        | None, _ => (pol, x)
        | Some _, Ok None => _resurface_decision k x
        | Some _, _ => (pol, x)
        end
    end.

(** ** A child's run

    The calls of a drain, one after the other; [copied]: in a copy of the context. *)
Inductive child_event :=
| ETool (copied : bool) (k : call)
| EAsk (copied : bool) (question : string) (tc : option confirmation).

Definition is_copied (e : child_event) : bool := match e with ETool c _ | EAsk c _ _ => c end.

Definition child_step (grants : pyval) (profile : option ChildProfile) (e : child_event) (x : cworld) : cworld :=
  let x' := match e with
            | ETool _ k => (child_guard grants profile k x).2
            | EAsk _ q tc => (ask_parent q tc x).2
            end in
  if is_copied e then with_budget (cw_budget x) x' else x'.

Definition child_run (grants : pyval) (profile : option ChildProfile) (es : list child_event) (x : cworld) : cworld :=
  fold_left (λ x e, child_step grants profile e x) es x.
End Guard.

(** * Facts *)

Section Facts.
Context `{PyRe} `{PyFloat}.

(** ** Passing again

    A guard's answer for a state depends on the state's policy grants. *)

Lemma active_grants_ext st st' :
  get st' POLICY_GRANTS_STATE_KEY = get st POLICY_GRANTS_STATE_KEY → _active_grants st' = _active_grants st.
Proof. unfold _active_grants. by intros ->. Qed.

Lemma exfil_again c f e st st' t a c' :
  get st' POLICY_GRANTS_STATE_KEY = get st POLICY_GRANTS_STATE_KEY →
  exfil_guard c f e (Some st) t a = (Ok None, c') → (exfil_guard c' f e (Some st') t a).1 = Ok None.
Proof.
  intros Hst. unfold exfil_guard, load_exfil_config_for_env. destruct (t =? "")%string; [by intros [= <-]|].
  destruct (load_for_env _ _ _ c f e) as [[cfg|] c1] eqn:El; cbn [res_bind]; [|done]. intros [= Hv <-].
  pose proof (load_again _ _ _ _ _ _ _ _ El) as El'. destruct (load_for_env _ _ _ c1 f e) as [r c2].
  cbn [fst] in *. subst r. cbn [res_bind fst]. f_equal. revert Hv. destruct (evaluate_exfil t a cfg) as [v|]; [|done].
  unfold cleared, find_matching_grant, find_matching_grant_loose. by rewrite (active_grants_ext st st').
Qed.

Lemma policies_cases c f e state t a ask c' : t ≠ "" → policies_guard c f e state t a ask = (Ok None, c') →
  (exempt state t a = true ∧ c' = c) ∨
  ∃ rules, load_policies_for_env c f e = (Ok rules, c') ∧ check_call rules t a ask = None.
Proof.
  intros Ht. unfold policies_guard. destruct (String.eqb_spec t ""); [done|].
  destruct (exempt state t a); [intros [= <-]; by left|]. right.
  destruct (load_policies_for_env c f e) as [[rules|] c1]; cbn [res_bind] in *; [|done].
  exists rules. by simplify_eq.
Qed.

Lemma policies_again c f e st st' t a ask c' :
  get st' POLICY_GRANTS_STATE_KEY = get st POLICY_GRANTS_STATE_KEY →
  policies_guard c f e (Some st) t a ask = (Ok None, c') → (policies_guard c' f e (Some st') t a ask).1 = Ok None.
Proof.
  intros Hst Hp. destruct (decide (t = "")) as [-> |Ht]; [done|]. unfold policies_guard.
  destruct (String.eqb_spec t ""); [done|].
  assert (exempt (Some st') t a = exempt (Some st) t a) as ->
    by (unfold exempt, find_matching_grant; by rewrite (active_grants_ext st st')).
  destruct (policies_cases _ _ _ _ _ _ _ _ Ht Hp) as [[-> _]|(rules & Hl & Hc)]; [done|].
  destruct (exempt _ _ _); [done|]. pose proof (load_again _ _ _ _ _ _ _ _ Hl) as Hl'.
  unfold load_policies_for_env in *. destruct (load_for_env _ _ _ c' f e) as [r c2]. cbn [fst] in Hl'. subst r.
  cbn [res_bind fst]. by rewrite Hc.
Qed.

(** A child's call with a command the classifier flags passes by a grant, or when the flag
    is only to ask and the drain can. *)
Lemma policies_command c f e state t a ask c' cmd tr why : t ≠ "" →
  policies_guard c f e state t a ask = (Ok None, c') → exempt state t a = false →
  _command_for t a = Some cmd → classify cmd = Some (tr, why) → tr = Ask ∧ ask = false.
Proof.
  intros Ht Hp Hex Hc Hcl.
  destruct (policies_cases _ _ _ _ _ _ _ _ Ht Hp) as [[? _]|(rules & _ & Hb)]; [congruence|].
  unfold check_call in Hb. cbn [first_some] in Hb. repeat (case_match; [done|]).
  unfold safety_block in *. rewrite Hc, Hcl in *. destruct tr; [done|]. by destruct ask.
Qed.

(** ** Inherited grants *)

Lemma inherit_kept G st v :
  inherit G (Some st) = Some st → get v POLICY_GRANTS_STATE_KEY = get st POLICY_GRANTS_STATE_KEY →
  inherit G (Some v) = Some v.
Proof.
  unfold inherit. intros Hi Hv. destruct G as [|g G]; [done|]. rewrite Hv.
  destruct (truthy _) eqn:Et; [done|]. injection Hi as Hi. exfalso. rewrite <-Hi in Et.
  unfold get in Et. by rewrite dget_dset_eq in Et.
Qed.

Lemma inherit_idem G st : ∃ st1, inherit G (Some st) = Some st1 ∧ inherit G (Some st1) = Some st1.
Proof.
  unfold inherit. destruct G as [|g G]; [by exists st|].
  destruct (truthy (get st POLICY_GRANTS_STATE_KEY)) eqn:E; [exists st; by rewrite E|].
  eexists. split; [done|]. unfold get. by rewrite dget_dset_eq.
Qed.

Lemma state_keys_differ st v :
  get (dset st PERMISSION_GRANTS_STATE_KEY v) POLICY_GRANTS_STATE_KEY = get st POLICY_GRANTS_STATE_KEY.
Proof. unfold get. by rewrite dget_dset_ne. Qed.

(** ** The guard, past the profile *)

(** The guard as one chain, for a call it passes. *)
Lemma child_guard_pass G P k x x' : c_tool k ≠ ASK_PARENT_TOOL_NAME →
  child_guard G P k x = (Ok None, x') →
  profile_allows P (c_tool k) = true ∧
  let st := inherit (_normalize_grants G) (w_state (cw x)) in
  ∃ ce cp, exfil_guard (cw_exfil x) (w_fs (cw x)) (c_env k) st (c_tool k) (c_args k) = (Ok None, ce) ∧
    policies_guard (cw_policies x) (w_fs (cw x)) (c_env k) st (c_tool k) (c_args k)
      (match cw_budget x with None => true | Some _ => false end) = (Ok None, cp) ∧
    let x1 := CWorld (with_state st (cw x)) ce cp (cw_budget x) in
    match cw_budget x with
    | None => x' = x1
    | Some _ => _resurface_decision k x1 = (Ok None, x')
    end.
Proof.
  intros Hk. unfold child_guard. destruct (String.eqb_spec (c_tool k) ASK_PARENT_TOOL_NAME); [done|].
  destruct (profile_allows P (c_tool k)); cbn [negb]; [|done]. cbn [cw_exfil cw w_fs w_state with_world with_state].
  destruct (exfil_guard _ _ _ _ _ _) as [[[block|]|e] ce]; [done| |done].
  cbn [cw_policies cw_budget cw w_fs w_state with_world with_state]. intros Hg. split; [done|]. exists ce.
  destruct (policies_guard _ _ _ _ _ _ _) as [pol cp] eqn:Ep. exists cp.
  revert Hg. destruct (cw_budget x) as [b|]; cbn [cw_budget].
  - by destruct pol as [[block|]|e].
  - by intros [= -> <-].
Qed.

Lemma write_grant_proposed st t prefixes : grantable t prefixes →
  _write_grant (Some st) t prefixes =
    Some (dset st PERMISSION_GRANTS_STATE_KEY
      (PList (read_session_grants (Some st) ++ [PDict (proposed_rule t prefixes)]))).
Proof. unfold grantable, _write_grant, proposed_rule. by destruct prefixes as [[|p ps]|]. Qed.

(** ** Requests *)

(** The approvals the budget still allows. *)
Definition room (b : bubble) : nat := match b with None => 0 | Some n => Z.to_nat n end.

Definition requests (x : cworld) : nat := length (w_requests (cw x)).

Lemma consume_room b ok b' : try_consume_bubble b = (ok, b') → room b' + (if ok then 1 else 0) = room b.
Proof.
  unfold try_consume_bubble. destruct b as [n|]; [|by intros [= <- <-]].
  destruct (Z.leb_spec n 0); intros [= <- <-]; cbn; lia.
Qed.

Lemma ask_up_requests k r x : let x' := (ask_up k r x).2 in
  requests x' + room (cw_budget x') = requests x + room (cw_budget x).
Proof.
  unfold ask_up. destruct (c_confirmation k) as [tc|]; [by destruct (tc_confirmed tc)|].
  pose proof (consume_room (cw_budget x)) as Hc. destruct (try_consume_bubble _) as [ok b].
  specialize (Hc ok b eq_refl). destruct ok; [|done]. unfold requests. cbn. rewrite length_app. cbn. lia.
Qed.

Lemma ask_parent_requests q tc x : let x' := (ask_parent q tc x).2 in
  requests x' + room (cw_budget x') = requests x + room (cw_budget x).
Proof.
  unfold ask_parent. destruct (_ =? _)%string; [done|]. destruct tc as [c|]; [by destruct (tc_confirmed c)|].
  pose proof (consume_room (cw_budget x)) as Hc. destruct (try_consume_bubble _) as [ok b].
  specialize (Hc ok b eq_refl). destruct ok; [|done]. unfold requests. cbn. rewrite length_app. cbn. lia.
Qed.

(** A branch that asks nothing. *)
#[local] Ltac unasked := unfold requests; cbn; congruence.

Lemma child_guard_requests G P k x : let x' := (child_guard G P k x).2 in
  requests x' + room (cw_budget x') = requests x + room (cw_budget x).
Proof.
  unfold child_guard. destruct (_ =? _)%string; [done|]. destruct (profile_allows _ _); cbn [negb]; [|done].
  cbn [cw_exfil cw w_fs w_state with_world with_state].
  destruct (exfil_guard _ _ _ _ _ _) as [[[block|]|e] ce]; [done| |done].
  cbn [cw_policies cw_budget cw w_fs w_state with_world with_state].
  destruct (policies_guard _ _ _ _ _ _ _) as [pol cp].
  set (w := with_state _ (cw x)). assert (w_requests w = w_requests (cw x)) as Hw by done. clearbody w.
  destruct (cw_budget x) as [b|] eqn:Eb; [|unasked].
  destruct pol as [[block|]|e]; [unasked| |unasked].
  unfold _resurface_decision. cbn [cw].
  destruct (resolve_permission_decision _ _ _ _ _ _ _) as [[r|e] c]; [|unasked].
  destruct (rs_decision r); [unasked..|].
  pose proof (ask_up_requests k r (with_world (with_cache c w) (CWorld w ce cp (Some b)))) as Ha.
  cbv zeta in *. destruct (ask_up _ _ _) as [o x']. cbn [snd] in *. rewrite Ha. unasked.
Qed.
End Facts.

(** * Theorems *)

Section Theorems.
Context `{PyRe} `{PyFloat}.


(** A drain with budget [n] sends at most [n] requests up, approvals and questions
    together, and outside a drain none is sent, as long as the calls run in the context of
    the drain; a call that runs in a copy of the context leaves the budget as it was, so
    each of those has the whole budget again. *)
Theorem one_bubble_per_run G P es x :
  (Forall (λ e, is_copied e = false) es →
     requests (child_run G P es x) ≤ requests x + room (cw_budget x)) ∧
  (Forall (λ e, is_copied e = true) es → cw_budget (child_run G P es x) = cw_budget x).
Proof.
  unfold child_run. split.
  - intros Hes. assert (∀ y, requests (fold_left (λ x e, child_step G P e x) es y) +
      room (cw_budget (fold_left (λ x e, child_step G P e x) es y)) = requests y + room (cw_budget y)) as Hall.
    { induction Hes as [|e es He Hes IH]; intros y; [done|]. cbn [fold_left]. rewrite IH.
      unfold child_step. rewrite He. destruct e as [c k|c q tc]; [apply child_guard_requests|apply ask_parent_requests]. }
    specialize (Hall x). lia.
  - intros Hes. revert x. induction Hes as [|e es He Hes IH]; intros x; [done|]. cbn [fold_left]. rewrite IH.
    unfold child_step. by rewrite He.
Qed.

(** After a pass in a drain the same call resolves to allow, under the state it left. *)
Lemma resurface_settles k w ce cp b st1 x' :
  apply_tool_aliases (c_tool k) = c_tool k → w_state w = Some st1 →
  match _shell_command (c_tool k) (c_args k) with
  | Some cmd => ∀ seg, seg ∈ shell_segments cmd → has_command_substitution seg = false
  | None => mem (c_tool k) _TOOLS_REQUIRING_NARROWING = false
  end →
  _resurface_decision k (CWorld w ce cp (Some b)) = (Ok None, x') →
  ∃ st2 r2 c1, get st2 POLICY_GRANTS_STATE_KEY = get st1 POLICY_GRANTS_STATE_KEY ∧
    x' = CWorld (World c1 (w_fs w) (Some st2) (w_requests w) (w_skip w)) ce cp (Some b) ∧
    (resolve_permission_decision c1 (w_fs w) (c_env k) (c_tool k) (c_args k) (Some st2) (c_agent k)).1
      = Ok r2 ∧ rs_decision r2 = allow.
Proof.
  destruct w as [wc wf ws wq wk]. intros Hal Hst Hcmd Hrest. cbn in Hst. subst ws.
  unfold _resurface_decision in Hrest. cbn [cw w_cache w_fs w_state] in Hrest.
  destruct (resolve_permission_decision _ _ _ _ _ _ _) as [[r|e] c] eqn:Er; [|done].
  destruct (rs_decision r) eqn:Ed; [injection Hrest as <-|done|].
  { exists st1, r, c. split_and!; [done|done| |done]. by eapply resolve_again. }
  assert (match rs_command r with
          | Some cmd => ∀ seg, seg ∈ shell_segments cmd → has_command_substitution seg = false
          | None => mem (c_tool k) _TOOLS_REQUIRING_NARROWING = false end) as Hsub.
  { revert Er. unfold resolve_permission_decision. destruct (effective_rules _ _ _ _) as [[rs|] ?]; [|done].
    intros [= <- _]. unfold resolve_with. destruct (_shell_command _ _) as [cmd|].
    - by destruct (_shell_decision _ _ _ _) as [[? ?] ?].
    - by destruct (resolve_decision _ _ _ _ _). }
  destruct (resolve_after_grant _ _ _ _ _ _ _ _ _ Hal Er Ed Hsub) as (r2 & c2 & Hr2 & ?).
  assert (grantable (c_tool k) (rs_prefixes r)) as Hgr.
  { revert Er. unfold resolve_permission_decision. destruct (effective_rules _ _ _ _) as [[rs|] ?]; [|done].
    intros [= Er _]. by apply (resolve_granted rs _ _ _ _ Er Ed Hsub). }
  unfold ask_up in Hrest. destruct (c_confirmation k) as [tc|]; [|by destruct (try_consume_bubble _) as [[] ?]].
  destruct (tc_confirmed tc); [|done].
  change (w_state (cw (with_world _ _))) with (Some st1) in Hrest.
  rewrite (write_grant_proposed st1) in Hrest by done. injection Hrest as <-.
  eexists _, r2, c. split_and!; [apply state_keys_differ|done|exact (f_equal fst Hr2)|done].
Qed.

(** A call that passed in a drain passes again, with no request, whatever confirmation the
    repetition carries: also the call the user approved once. What the written grant cannot
    cover are commands with a substitution and blanket allows of a shell tool. *)
Theorem child_approval_sticks G P k k' x x' b st :
  c_tool k ≠ ASK_PARENT_TOOL_NAME → apply_tool_aliases (c_tool k) = c_tool k →
  cw_budget x = Some b → w_state (cw x) = Some st →
  match _shell_command (c_tool k) (c_args k) with
  | Some cmd => ∀ seg, seg ∈ shell_segments cmd → has_command_substitution seg = false
  | None => mem (c_tool k) _TOOLS_REQUIRING_NARROWING = false
  end →
  child_guard G P k x = (Ok None, x') →
  c_tool k' = c_tool k → c_args k' = c_args k → c_agent k' = c_agent k → c_env k' = c_env k →
  ∃ x2, child_guard G P k' x' = (Ok None, x2) ∧ w_requests (cw x2) = w_requests (cw x).
Proof.
  intros Hk Hal Hb Hst Hcmd Hg Et Ea Eg Ee.
  pose proof (child_guard_pass G P k x x' Hk Hg) as (HP & ce & cp & He & Hp & Hrest).
  rewrite Hb, Hst in *. destruct (inherit_idem (_normalize_grants G) st) as (st1 & Hi & Hi1).
  rewrite Hi in *.
  destruct (resurface_settles k (with_state (Some st1) (cw x)) ce cp b st1 x' Hal eq_refl Hcmd Hrest) as (st2 & r2 & c1 & Hpol & -> & Hr2 & Hallow).
  cbn [w_fs w_requests w_skip with_state] in *.
  unfold child_guard. rewrite Et, Ea, Ee, HP. destruct (String.eqb_spec (c_tool k) ASK_PARENT_TOOL_NAME); [done|].
  cbn [negb cw_exfil cw w_fs w_state with_world with_state]. rewrite (inherit_kept _ st1 st2 Hi1 Hpol).
  pose proof (exfil_again _ _ _ _ st2 _ _ _ Hpol He) as He2.
  destruct (exfil_guard ce _ _ _ _ _) as [r ce2]. cbn [fst] in He2. subst r.
  cbn [cw_policies cw_budget cw w_fs w_state with_world with_state].
  pose proof (policies_again _ _ _ _ st2 _ _ _ _ Hpol Hp) as Hp2.
  destruct (policies_guard cp _ _ _ _ _ _) as [r cp2]. cbn [fst] in Hp2. subst r.
  unfold _resurface_decision. cbn [cw w_cache w_fs w_state with_state]. rewrite Et, Ea, Eg, Ee.
  destruct (resolve_permission_decision _ _ _ _ _ _ _) as [r c2]. cbn [fst] in Hr2. subst r.
  rewrite Hallow. by eexists.
Qed.
End Theorems.

(** ** A child in its drain *)

Definition child_world (n : bubble) : cworld :=
  CWorld (World empty_cache (FS ∅ ∅) (Some []) [] false) empty_cache empty_cache n.
Definition child_call (command : string) (tc : option confirmation) : call :=
  Call BASH (PDict [("command", PStr command)]) None tc None false 0%Q.
Definition yes : confirmation := Confirmation true (PDict [("choice", PStr "Decline")]).
Definition child_policy : pyval :=
  PList [PDict [("tool_name", PStr "bash"); ("signature", PDict [("command", PStr "make")])]].

(** In copies of the context one budget sends two requests. *)
Example copies_ask_twice :
  let Hre : PyRe := engine_re in let Hfl : PyFloat := λ _, "" in
  let es c := [ETool c (child_call "git reset --hard" None); EAsk c "which one?" None] in
  requests (child_run PNone None (es false) (child_world (Some 1%Z))) = 1 ∧
  requests (child_run PNone None (es true) (child_world (Some 1%Z))) = 2.
Proof. split; vm_compute; reflexivity. Qed.


Lemma one_bubble_per_run_witness :
  let Hre : PyRe := engine_re in let Hfl : PyFloat := λ _, "" in
  let es := [ETool false (child_call "git reset --hard" None); EAsk false "which one?" None;
             ETool false (child_call "git push --force" None)] in
  requests (child_run PNone None es (child_world (Some 1%Z))) ≤ 1.
Proof.
  intros Hre Hfl es. apply (one_bubble_per_run (H:=Hre) (H0:=Hfl) PNone None es (child_world (Some 1%Z))).
  repeat constructor.
Defined.

Lemma child_approval_sticks_witness :
  let Hre : PyRe := engine_re in let Hfl : PyFloat := λ _, "" in
  let x := child_world (Some 0%Z) in
  let k tc := child_call "git reset --hard" tc in
  ∃ x', child_guard PNone None (k (Some yes)) x = (Ok None, x') ∧
    ∃ x2, child_guard PNone None (k None) x' = (Ok None, x2) ∧ w_requests (cw x2) = [].
Proof.
  intros Hre Hfl x k. subst Hre Hfl. exists (child_guard (H:=engine_re) (H0:=λ _, "") PNone None (k (Some yes)) x).2.
  assert (child_guard (H:=engine_re) (H0:=λ _, "") PNone None (k (Some yes)) x =
    (Ok None, (child_guard (H:=engine_re) (H0:=λ _, "") PNone None (k (Some yes)) x).2)) as Hg
    by (vm_compute; reflexivity).
  split; [exact Hg|].
  apply (child_approval_sticks (H:=engine_re) (H0:=λ _, "") PNone None (k (Some yes)) (k None) x _ 0%Z []);
    [discriminate|reflexivity|reflexivity|reflexivity| |exact Hg|reflexivity..].
  intros seg Hseg. assert (shell_segments "git reset --hard" = ["git reset --hard"]) as E
    by (vm_compute; reflexivity). rewrite E in Hseg. apply list_elem_of_singleton in Hseg as ->.
  vm_compute. reflexivity.
Defined.
