(* ===== verification/Telemetry.v ===== *)
(** * The panel's logs: [telemetry/ui.py]

    Capped logs in the session for the user interface: tool calls, the call in flight,
    delegate runs and spawned sub-agents, memory writes. A failure of one of these
    operations is swallowed; what it wrote into a shared entry before failing stays. *)

From S2P Require Import Prelude PyStr PyVal.

Definition TOOL_CALL_LOG_STATE_KEY : string := "tool_call_log".
Definition DELEGATE_HISTORY_STATE_KEY : string := "delegate_history".
Definition MEMORY_WRITES_STATE_KEY : string := "memory_writes".
Definition IN_FLIGHT_TOOL_CALL_STATE_KEY : string := "in_flight_tool_call".
Definition _TOOL_LOG_CAP : nat := 50.
Definition _DELEGATE_CAP : nat := 25.
Definition _MEMORY_CAP : nat := 50.
Definition _ARG_PREVIEW_CHARS : nat := 120.
Definition _SUMMARY_PREVIEW_CHARS : nat := 240.

(** One character, written as its bytes. *)
Definition ellipsis : string := s1 "226" +:+ s1 "128" +:+ s1 "166".

Definition _truncate (text : string) (limit : nat) : string :=
  if slen text <=? limit then text else stake (limit - 1) text +:+ ellipsis.

Definition blank_newlines : string → string := smap (λ c, if Ascii.eqb c NL then SP else c).

Section Preview.
Context `{PyFloat}.

Definition _args_preview (args : pyval) : string :=
  if negb (truthy args) then ""
  else match args with
       | PDict d =>
           join ", " (map (λ kv, kv.1 +:+ "=" +:+ _truncate (blank_newlines (py_str kv.2)) 60) (take 3 d))
       | _ => _truncate (py_str args) _ARG_PREVIEW_CHARS
       end.
End Preview.

Definition _is_ok (response : pyval) : bool :=
  match response with
  | PDict d =>
      if truthy (get d "error") then false
      else if match get d "status" with
              | PStr s => existsb (String.eqb (lower s)) ["error"; "failed"; "halted"]
              | _ => false end then false
      else match dget d "success" with Some v => truthy v | None => true end
  | _ => true
  end.

(** [existing[-cap:]] *)
Definition last_n {A} (n : nat) (l : list A) : list A := drop (length l - n) l.

Definition log_of (state : pydict) (key : string) : list pyval :=
  match get state key with PList l => l | _ => [] end.

Definition _append_capped (state : pydict) (key : string) (entry : pyval) (cap : nat) : pydict :=
  let existing := log_of state key ++ [entry] in
  dset state key (PList (if cap <? length existing then last_n cap existing else existing)).

Section Callbacks.
Context `{PyFloat} (now_ms : Z).

Definition before_tool_log_callback (name : string) (args : pyval) (state : pydict) : pydict :=
  dset state IN_FLIGHT_TOOL_CALL_STATE_KEY
    (PDict [("name", PStr name); ("args", PStr (_args_preview args)); ("started_ms", PInt now_ms)]).

Definition tool_call_log_callback (name : string) (args response : pyval) (state : pydict) : pydict :=
  let entry := PDict [("name", PStr name); ("args", PStr (_args_preview args));
                      ("ok", PBool (_is_ok response)); ("ts", PInt now_ms)] in
  dset (_append_capped state TOOL_CALL_LOG_STATE_KEY entry _TOOL_LOG_CAP) IN_FLIGHT_TOOL_CALL_STATE_KEY PNone.

Definition record_delegate_run (goal status : string) (iterations duration_ms : Z) (summary : string)
    (state : pydict) : pydict :=
  _append_capped state DELEGATE_HISTORY_STATE_KEY
    (PDict [("goal", PStr (_truncate (strip goal) _ARG_PREVIEW_CHARS)); ("status", PStr status);
            ("iterations", PInt iterations); ("duration_ms", PInt duration_ms);
            ("summary", PStr (_truncate (strip summary) _SUMMARY_PREVIEW_CHARS)); ("ts", PInt now_ms)])
    _DELEGATE_CAP.

Definition spawn_row (task_id goal : string) : pydict :=
  [("task_id", PStr task_id); ("goal", PStr (_truncate (strip goal) _ARG_PREVIEW_CHARS));
   ("status", PStr "running"); ("iterations", PInt 0); ("duration_ms", PInt 0); ("summary", PStr "");
   ("ts", PInt now_ms)].

Definition record_subagent_spawn (task_id goal : string) (state : pydict) : pydict :=
  _append_capped state DELEGATE_HISTORY_STATE_KEY (PDict (spawn_row task_id goal)) _DELEGATE_CAP.

(** The row of a task, updated in place; its time stamp is read after its status is set. *)
Definition updated_row (status summary : string) (entry : pydict) : pydict :=
  let e1 := dset entry "status" (PStr status) in
  let e2 := if (summary =? "")%string then e1
            else dset e1 "summary" (PStr (_truncate (strip summary) _SUMMARY_PREVIEW_CHARS)) in
  match py_int (default (PInt now_ms) (dget e2 "ts")) with
  | Ok ts => dset e2 "duration_ms" (PInt (Z.max 0 (now_ms - ts)))
  | Raise _ => e2
  end.

Definition is_row (task_id : string) (entry : pydict) : bool := py_eq (get entry "task_id") (PStr task_id).

Fixpoint update_first (task_id status summary : string) (rows : list pyval) : list pyval :=
  match rows with
  | [] => []
  | PDict d :: rest =>
      if is_row task_id d then PDict (updated_row status summary d) :: rest
      else PDict d :: update_first task_id status summary rest
  | v :: rest => v :: update_first task_id status summary rest
  end.

Definition update_subagent_status (task_id status summary : string) (state : pydict) : pydict :=
  match get state DELEGATE_HISTORY_STATE_KEY with
  | PList rows =>
      dset state DELEGATE_HISTORY_STATE_KEY (PList (update_first task_id status summary rows))
  | _ => state
  end.

Definition record_memory_write (scope content : string) (state : pydict) : pydict :=
  _append_capped state MEMORY_WRITES_STATE_KEY
    (PDict [("scope", PStr scope); ("content", PStr (_truncate (strip content) _SUMMARY_PREVIEW_CHARS));
            ("ts", PInt now_ms)])
    _MEMORY_CAP.
End Callbacks.

(** * Facts *)

Lemma length_last_n {A} n (l : list A) : length (last_n n l) = n `min` length l.
Proof. unfold last_n. rewrite length_drop. lia. Qed.

Lemma last_n_suffix {A} n (l : list A) : ∃ front, l = front ++ last_n n l.
Proof. exists (take (length l - n) l). unfold last_n. by rewrite take_drop. Qed.

Lemma log_of_dset_eq st k l : log_of (dset st k (PList l)) k = l.
Proof. unfold log_of, get. by rewrite dget_dset_eq. Qed.

Lemma log_of_dset_ne st k k' v : k ≠ k' → log_of (dset st k' v) k = log_of st k.
Proof. intros Hne. unfold log_of, get. by rewrite dget_dset_ne. Qed.

(** What an append leaves: the last [cap] of the entries, the new one among them. *)
Lemma append_capped_spec st key e cap : 0 < cap →
  let l := log_of (_append_capped st key e cap) key in
  length l = cap `min` S (length (log_of st key)) ∧ last l = Some e ∧
  ∃ front, log_of st key ++ [e] = front ++ l.
Proof.
  intros Hc. cbv zeta. unfold _append_capped. rewrite log_of_dset_eq. set (l := log_of st key ++ [e]).
  assert (length l = S (length (log_of st key))) as Hl by (unfold l; rewrite length_app; cbn; lia).
  destruct (Nat.ltb_spec cap (length l)).
  - split; [rewrite length_last_n; lia|]. destruct (last_n_suffix cap l) as [front Hf]. split; [|by exists front].
    assert (last l = Some e) as Hlast by (unfold l; by rewrite last_snoc).
    assert (length (last_n cap l) ≠ 0) as Hne by (rewrite length_last_n; lia).
    destruct (last_n cap l) as [|x r] eqn:E; [done|]. rewrite Hf, last_app in Hlast.
    by destruct (last (x :: r)) eqn:Ex; [|apply last_None in Ex].
  - split; [lia|]. split; [unfold l; by rewrite last_snoc|by exists []].
Qed.

Lemma update_first_length tid s m now l : length (update_first now tid s m l) = length l.
Proof. induction l as [|v l IH]; [done|]. destruct v; cbn; try by rewrite IH. destruct (is_row _ _); cbn; by rewrite ?IH. Qed.

(** ** The logs stay bounded *)

Inductive log_event :=
| LBefore (now : Z) (name : string) (args : pyval)
| LAfter (now : Z) (name : string) (args response : pyval)
| LRun (now : Z) (goal status : string) (iterations duration_ms : Z) (summary : string)
| LSpawn (now : Z) (task_id goal : string)
| LUpdate (now : Z) (task_id status summary : string)
| LMemory (now : Z) (scope content : string).

Definition log_step `{PyFloat} (st : pydict) (e : log_event) : pydict :=
  match e with
  | LBefore now n a => before_tool_log_callback now n a st
  | LAfter now n a r => tool_call_log_callback now n a r st
  | LRun now g s i d m => record_delegate_run now g s i d m st
  | LSpawn now t g => record_subagent_spawn now t g st
  | LUpdate now t s m => update_subagent_status now t s m st
  | LMemory now s c => record_memory_write now s c st
  end.

Definition bounded (st : pydict) : Prop :=
  length (log_of st TOOL_CALL_LOG_STATE_KEY) ≤ _TOOL_LOG_CAP ∧
  length (log_of st DELEGATE_HISTORY_STATE_KEY) ≤ _DELEGATE_CAP ∧
  length (log_of st MEMORY_WRITES_STATE_KEY) ≤ _MEMORY_CAP.

Lemma append_other st k k' e cap : k ≠ k' → log_of (_append_capped st k' e cap) k = log_of st k.
Proof. intros Hne. unfold _append_capped. by apply log_of_dset_ne. Qed.

Lemma append_bound st k e cap : 0 < cap → length (log_of (_append_capped st k e cap) k) ≤ cap.
Proof. intros Hc. destruct (append_capped_spec st k e cap Hc) as [-> _]. lia. Qed.

(** Through any sequence of the panel's operations each log keeps within its cap. *)
Theorem logs_bounded `{PyFloat} es st : bounded st → bounded (fold_left log_step es st).
Proof.
  revert st. induction es as [|e es IH]; intros st (Ht & Hd & Hm); [done|]. cbn [fold_left]. apply IH.
  unfold bounded. destruct e as [now n a|now n a r|now g s i d m|now t g|now t s m|now s c]; cbn [log_step].
  - unfold before_tool_log_callback. by rewrite !log_of_dset_ne.
  - unfold tool_call_log_callback. rewrite !(log_of_dset_ne _ _ IN_FLIGHT_TOOL_CALL_STATE_KEY) by done.
    rewrite (append_other _ DELEGATE_HISTORY_STATE_KEY), (append_other _ MEMORY_WRITES_STATE_KEY) by done. split; [apply append_bound; unfold _TOOL_LOG_CAP; lia|done].
  - unfold record_delegate_run. rewrite (append_other _ TOOL_CALL_LOG_STATE_KEY), (append_other _ MEMORY_WRITES_STATE_KEY) by done.
    split_and!; [done|apply append_bound; unfold _DELEGATE_CAP; lia|done].
  - unfold record_subagent_spawn. rewrite (append_other _ TOOL_CALL_LOG_STATE_KEY), (append_other _ MEMORY_WRITES_STATE_KEY) by done.
    split_and!; [done|apply append_bound; unfold _DELEGATE_CAP; lia|done].
  - unfold update_subagent_status. destruct (get st DELEGATE_HISTORY_STATE_KEY) as [| | | | |rows|] eqn:E; try done.
    rewrite (log_of_dset_ne _ TOOL_CALL_LOG_STATE_KEY), (log_of_dset_ne _ MEMORY_WRITES_STATE_KEY) by done.
    rewrite log_of_dset_eq, update_first_length.
    unfold log_of in Hd at 1. by rewrite E in Hd.
  - unfold record_memory_write. rewrite (append_other _ TOOL_CALL_LOG_STATE_KEY), (append_other _ DELEGATE_HISTORY_STATE_KEY) by done.
    split_and!; [done|done|apply append_bound; unfold _MEMORY_CAP; lia].
Qed.

Lemma logs_bounded_witness :
  let Hfl : PyFloat := λ _, "" in
  bounded (fold_left log_step
    [LSpawn 5 "a1" "read"; LBefore 6 "bash" (PDict [("command", PStr "ls")]);
     LAfter 7 "bash" (PDict [("command", PStr "ls")]) (PDict [("success", PBool true)]);
     LUpdate 9 "a1" "completed" "done"] []).
Proof. intros Hfl. apply (logs_bounded (H:=Hfl)). split_and!; vm_compute; lia. Defined.
