(* ===== verification/Subagent.v ===== *)
(** * The subagent tool: [subagents/spawn.py], [subagents/subagent.py],
    [subagents/transcript.py], [subagents/descriptions.py]

    One tool over the registry of background tasks and the delegation: what each action
    does, the rows of the panel it keeps in step, the parent's transcript it can hand down. *)

From S2P Require Import Prelude PyStr Names PyVal Overlay PermissionRules PolicyGrants PermissionGuard.
From S2P Require Import ChildGuard Telemetry DbResilience RoutineTool Delegate TaskRegistry.

(** ** The parent's transcript *)

Definition MAX_TRANSCRIPT_CHARS : nat := 4000.

(** A part of an event: its text, and whether it is a function call or response. *)
Record tpart := TPart { tp_text : string; tp_call : bool }.
Record tevent := TEvent { te_author : string; te_parts : list tpart }.

Definition turn_text (e : tevent) : string :=
  strip (join "" (map tp_text (List.filter (λ p, negb (tp_call p)) (te_parts e)))).
Definition speaker (author : string) : string := if (author =? "user")%string then "User" else "Assistant".

Definition turn (e : tevent) : option string :=
  if (turn_text e =? "")%string then None else Some (speaker (te_author e) +:+ ": " +:+ turn_text e).
Definition turns (events : list tevent) : list string := omap turn events.

(** The turns kept, from the last one back; [size] counts those already kept. *)
Fixpoint keep_turns (size : nat) (rev_turns : list string) : list string :=
  match rev_turns with
  | [] => []
  | t :: rest =>
      let size := size + slen t + 1 in
      if MAX_TRANSCRIPT_CHARS <? size then [] else t :: keep_turns size rest
  end.
Definition parent_transcript (events : list tevent) : string :=
  join NLs (rev (keep_turns 0 (rev (turns events)))).

(** ** The panel's row of a task *)

Definition _TERMINAL : list string := ["completed"; "timeout"; "failed"; "cancelled"].
Definition _PANEL_STATUS : list (string * string) :=
  [("completed", "completed"); ("timeout", "timeout"); ("failed", "halted"); ("cancelled", "halted")].

Section Tool.
Context `{PyFloat} {S : Type} `{SessionService S}.
Context (request_confirmation_name : string) (json_error : string → string) (catalog : string → option string).
Context (run_fresh : Agent → string → bubble → run_result).
Context (run_kept : Agent → string → string → child_message → bubble → S → run_result * S).
(** The draws of a call: the digits of a child's name, a task's identifier, the clocks. *)
Context (hex8 fresh : string) (now_ms : Z) (now : Q).

Definition _result_summary (payload : pydict) : string :=
  match get payload "result" with
  | PDict inner =>
      match get inner "summary" with
      | PStr s => s
      | _ => py_str (default (PStr "") (dget payload "error"))
      end
  | _ => py_str (default (PStr "") (dget payload "error"))
  end.

(** The registry, and the parent's world. *)
Record aworld := AWorld { aw_registry : registry; aw_parent : dworld S }.
Definition with_panel (f : pydict → pydict) (w : aworld) : aworld :=
  AWorld (aw_registry w) (DWorld (f (dw_state (aw_parent w))) (dw_requests (aw_parent w)) (dw_sessions (aw_parent w))).
Definition with_registry (r : registry) (w : aworld) : aworld := AWorld r (aw_parent w).

(** [ctx]: whether the call has a tool context. *)
Definition _sync_row (ctx : bool) (tid : string) (payload : pydict) (w : aworld) : aworld :=
  match get payload "status" with
  | PStr s =>
      if ctx && existsb (String.eqb s) _TERMINAL
      then with_panel (update_subagent_status now_ms tid (default "halted" (dget _PANEL_STATUS s))
                         (_result_summary payload)) w
      else w
  | _ => w
  end.

(** The background run of a child: what a task the event loop ends returns. *)
Definition background_run (g : dargs) : task :=
  match run_child json_error catalog run_fresh hex8 PNone None g with
  | Ok d => Returned (PDict d)
  | Raise x => Raised (exc_text x)
  end.

Definition _spawn (ctx : bool) (g : dargs) (w : aworld) : pydict * aworld :=
  let '(tid, r) := register fresh (g_goal g) None (g_name g) now (aw_registry w) in
  let w := with_registry r w in
  ([("success", PBool true); ("task_id", PStr tid); ("status", PStr "pending")],
   if ctx then with_panel (record_subagent_spawn now_ms tid (g_goal g)) w else w).

Definition _status (ctx : bool) (tid : string) (w : aworld) : pydict * aworld :=
  let payload := get_status tid now (aw_registry w) in
  (payload, _sync_row ctx tid payload w).

Definition _result (ctx : bool) (tid : string) (wait_ : bool) (steps : list (string * task)) (w : aworld) :
    pydict * aworld :=
  let '(payload, r) := get_result tid wait_ steps now (aw_registry w) in
  (payload, _sync_row ctx tid payload (with_registry r w)).

Definition _wait (ctx : bool) (ids : option (list string)) (steps : list (string * task)) (w : aworld) :
    pydict * aworld :=
  let '(payload, r) := wait ids steps now (aw_registry w) in
  let w := with_registry r w in
  (payload, match get payload "task_id" with
            | PStr tid => _sync_row ctx tid [("status", get payload "status");
                            ("result", py_or (get payload "result") (PDict []))] w
            | _ => w
            end).

Definition _cancel (tid : string) (w : aworld) : pydict * aworld :=
  let '(ok, r) := cancel tid (aw_registry w) in
  ([("task_id", PStr tid); ("cancelled", PBool ok)], with_registry r w).

Definition _list_active (w : aworld) : pydict :=
  [("active", PList (map PDict (list_active now (aw_registry w))))].

Definition requires (action what : string) : pydict :=
  failure ("action='" +:+ action +:+ "' requires '" +:+ what +:+ "'").

(** The arguments of the tool; [s_child] holds those of a child, but for the goal, the
    context and the timeout. *)
Record sargs := SArgs {
  s_goal : option string; s_context : string; s_task_id : option string; s_task_ids : option (list string);
  s_wait : bool; s_timeout : option pyval; s_child : dargs;
}.

Definition _DEFAULT_TIMEOUT_S : pyval := PFloat 300.
(** The arguments of a child. *)
Definition child_args (goal context : string) (timeout : pyval) (g : dargs) : dargs :=
  Args goal context (g_toolsets g) (g_skills g) timeout (g_model g) (g_tools g) (g_instructions g)
    (g_inline g) (g_format g) (g_schema g) (g_max g) (g_name g) (g_profile g).

(** [steps]: how the tasks end while the call waits. *)
Definition agent (action : string) (a : sargs) (ctx : bool) (steps : list (string * task)) (w : aworld) :
    pydict * aworld :=
  let with_id (k : string → pydict * aworld) :=
    match s_task_id a with None => (requires action "task_id", w) | Some tid => k tid end in
  if (action =? "spawn")%string then
    match s_goal a with
    | None => (requires "spawn" "goal", w)
    | Some goal => _spawn ctx (child_args goal (s_context a) (default _DEFAULT_TIMEOUT_S (s_timeout a)) (s_child a)) w
    end
  else if (action =? "status")%string then with_id (λ tid, _status ctx tid w)
  else if (action =? "result")%string then with_id (λ tid, _result ctx tid (s_wait a) steps w)
  else if (action =? "wait")%string then _wait ctx (s_task_ids a) steps w
  else if (action =? "cancel")%string then with_id (λ tid, _cancel tid w)
  else if (action =? "list")%string then (_list_active w, w)
  else (failure ("Unknown action " +:+ repr_str action
                 +:+ ". Use: spawn, status, result, wait, cancel, list."), w).

(** ** The tool *)

Definition _SUPPORTED_ACTIONS : list string := ["status"; "result"; "wait"; "cancel"; "list"].

Definition _with_parent_transcript (context : string) (include : bool) (events : list tevent) : string :=
  if negb include then context
  else
    let transcript := parent_transcript events in
    if (transcript =? "")%string then context
    else
      let block := "## Parent conversation so far" +:+ gap +:+ transcript in
      if is_blank context then block else block +:+ gap +:+ strip context.

(** [tc]: the tool context, when there is one. *)
Definition subagent (action : option string) (background include_transcript : bool) (a : sargs)
    (events : list tevent) (headless : bool) (outer : bubble) (tc : option dctx) (steps : list (string * task))
    (w : aworld) : pydict * aworld :=
  let ctx := match tc with Some _ => true | None => false end in
  match action with
  | Some act =>
      if negb (existsb (String.eqb act) _SUPPORTED_ACTIONS)
      then (failure ("Unknown action " +:+ repr_str act +:+ ". Use one of " +:+ join ", " _SUPPORTED_ACTIONS
              +:+ ", or omit action (optionally with background=True) to start a new task."), w)
      else agent act a ctx steps w
  | None =>
      match s_goal a with
      | None => (failure "goal is required to start a new subagent task.", w)
      | Some goal =>
          let context := _with_parent_transcript (s_context a) include_transcript events in
          if background
          then agent "spawn" (SArgs (Some goal) context None None true (s_timeout a) (s_child a)) ctx steps w
          else
            let g := child_args goal context (default (PFloat 120) (s_timeout a)) (s_child a) in
            let '(out, p) := delegate request_confirmation_name json_error catalog run_fresh run_kept hex8 now_ms
                               headless outer tc g (aw_parent w) in
            (out, AWorld (aw_registry w) p)
      end
  end.
End Tool.

(** ** The tool's description *)

Definition _DYNAMIC_MARKER : string := gap +:+ "<!-- lha:dynamic -->" +:+ gap.
Definition _SKILLS_POINTER : string :=
  "Pass skill names from your `<available_skills>` block (skills=[...]).".

Definition _base_description (current : option string) : string :=
  match current with None => "" | Some d => before_sub _DYNAMIC_MARKER d end.
Definition _build_suffix : string := _SKILLS_POINTER +:+ gap +:+ render_profiles_block.

(** The callback on one function declaration, a name and a description. *)
Definition _callback (fd : string * option string) : string * option string :=
  if (fd.1 =? SUBAGENT)%string
  then (fd.1, Some (_base_description fd.2 +:+ _DYNAMIC_MARKER +:+ _build_suffix)) else fd.

(** * Facts *)

Lemma keep_turns_size size l :
  size + sum_nat (map (λ t, slen t + 1) (keep_turns size l)) ≤ size `max` MAX_TRANSCRIPT_CHARS ∧
  ∃ rest, l = keep_turns size l ++ rest ∧
    match rest with
    | [] => True
    | t :: _ => MAX_TRANSCRIPT_CHARS < size + sum_nat (map (λ t, slen t + 1) (keep_turns size l)) + slen t + 1
    end.
Proof.
  revert size. induction l as [|t l IH]; intros size; cbn [keep_turns].
  { cbn. split; [lia|]. by exists []. }
  destruct (Nat.ltb_spec MAX_TRANSCRIPT_CHARS (size + slen t + 1)).
  - cbn [map sum_nat app]. split; [lia|]. exists (t :: l). split; [done|]. lia.
  - destruct (IH (size + slen t + 1)) as (H1 & rest & H2 & H3). cbn [map sum_nat app]. split; [lia|].
    exists rest. split; [by rewrite <-H2|]. destruct rest; [done|]. lia.
Qed.

Lemma sum_nat_rev l : sum_nat (rev l) = sum_nat l.
Proof.
  assert (∀ a b, sum_nat (a ++ b) = sum_nat a + sum_nat b) as Happ
    by (intros a b; induction a as [|x a IH]; cbn; [done|rewrite IH; lia]).
  induction l as [|x l IH]; [done|]. cbn. rewrite Happ, IH. cbn. lia.
Qed.

Lemma slen_join_lines l : slen (join NLs l) + 1 ≤ sum_nat (map (λ t, slen t + 1) l) `max` 1.
Proof.
  induction l as [|t l IH]; [cbn; lia|]. destruct (decide (l = [])) as [-> |Hne]; [cbn; lia|].
  rewrite join_cons by done. rewrite !slen_app. cbn [map sum_nat]. change (slen NLs) with 1.
  assert (1 ≤ sum_nat (map (λ t, slen t + 1) l)) by (destruct l; [done|cbn; lia]). lia.
Qed.

(** The transcript handed to a child is below the limit, and is the last turns of the
    conversation, whole and in order; the turn before them would not fit. *)
Theorem transcript_tail events :
  slen (parent_transcript events) < MAX_TRANSCRIPT_CHARS ∧
  ∃ front kept, turns events = front ++ kept ∧ parent_transcript events = join NLs kept ∧
    match last front with
    | None => True
    | Some t => MAX_TRANSCRIPT_CHARS < sum_nat (map (λ t, slen t + 1) kept) + slen t + 1
    end.
Proof.
  unfold parent_transcript. destruct (keep_turns_size 0 (rev (turns events))) as (Hs & rest & Hr & Hf).
  set (k := keep_turns 0 (rev (turns events))) in *.
  assert (sum_nat (map (λ t, slen t + 1) (rev k)) = sum_nat (map (λ t, slen t + 1) k)) as Hsum
    by (by rewrite map_rev, sum_nat_rev).
  split.
  - pose proof (slen_join_lines (rev k)) as Hl. rewrite Hsum in Hl. unfold MAX_TRANSCRIPT_CHARS in *. lia.
  - exists (rev rest), (rev k). split; [by rewrite <-rev_app_distr, <-Hr, rev_involutive|]. split; [done|].
    rewrite Hsum. destruct rest as [|t rest]; [done|]. cbn [rev]. by rewrite last_snoc.
Qed.

(** ** The panel keeps in step *)

Lemma update_first_row now tid status summary pre d post :
  (∀ e, PDict e ∈ pre → is_row tid e = false) → is_row tid d = true →
  update_first now tid status summary (pre ++ PDict d :: post) =
    pre ++ PDict (updated_row now status summary d) :: post.
Proof.
  intros Hpre Hd. induction pre as [|v pre IH]; cbn [app update_first]; [by rewrite Hd|].
  rewrite IH by (intros e He; apply Hpre, elem_of_cons; by right).
  destruct v as [| | | | | |e]; try done. by rewrite (Hpre e) by (apply elem_of_cons; by left).
Qed.

Lemma updated_row_status now status summary d : get (updated_row now status summary d) "status" = PStr status.
Proof.
  unfold updated_row, get. destruct (summary =? "")%string; destruct (py_int _);
    repeat first [rewrite dget_dset_eq|rewrite dget_dset_ne by done]; done.
Qed.

Section Panel.
Context `{PyFloat} {S : Type} `{SessionService S}.

(** Asking for a task that has ended brings its row up to date: whatever the registry
    reports as a terminal status, the row shows the panel's word for it, and the other rows
    stay as they are. *)
Theorem panel_in_step fresh now_ms now action a tid steps (w : aworld (S:=S)) s pre d post :
  action = "status" ∨ action = "result" → s_task_id a = Some tid →
  let '(payload, w') := agent fresh now_ms now action a true steps w in
  get payload "status" = PStr s → s ∈ _TERMINAL →
  log_of (dw_state (aw_parent w)) DELEGATE_HISTORY_STATE_KEY = pre ++ PDict d :: post →
  (∀ e, PDict e ∈ pre → is_row tid e = false) → is_row tid d = true →
  ∃ d', log_of (dw_state (aw_parent w')) DELEGATE_HISTORY_STATE_KEY = pre ++ PDict d' :: post ∧
    get d' "status" = PStr (default "halted" (dget _PANEL_STATUS s)).
Proof.
  intros Ha Ht.
  assert (∃ payload w1, agent fresh now_ms now action a true steps w = (payload, _sync_row now_ms true tid payload w1) ∧
    aw_parent w1 = aw_parent w) as (payload & w1 & -> & Hw).
  { unfold agent. rewrite Ht. destruct Ha as [-> | ->]; cbn [String.eqb].
    - exists (get_status tid now (aw_registry w)), w. done.
    - cbn. unfold _result. destruct (get_result tid _ steps now (aw_registry w)) as [payload r].
      by exists payload, (with_registry r w). }
  intros Hs Hterm Hrows Hpre Hd. unfold _sync_row. rewrite Hs.
  assert (existsb (String.eqb s) _TERMINAL = true) as -> by (apply existsb_elem; exists s; split; [done|apply String.eqb_refl]).
  cbn [andb]. unfold with_panel. cbn [aw_parent dw_state]. rewrite Hw.
  set (summary := _result_summary payload). set (word := default _ _).
  exists (updated_row now_ms word summary d). split; [|apply updated_row_status].
  unfold update_subagent_status. revert Hrows. unfold log_of at 1.
  destruct (get (dw_state (aw_parent w)) DELEGATE_HISTORY_STATE_KEY) as [| | | | |rows|];
    try by (intros Hn; symmetry in Hn; apply app_nil in Hn as [_ ?]).
  intros ->. rewrite log_of_dset_eq. by apply update_first_row.
Qed.
End Panel.

(** ** The description *)

Lemma before_sub_start sep s : startswith sep s = true → before_sub sep s = "".
Proof. destruct s; cbn [before_sub]; by intros ->. Qed.

Lemma before_sub_none d : has_char "<" d = false → before_sub _DYNAMIC_MARKER d = d.
Proof.
  unfold has_char. induction d as [|c d IH]; intros Hb; [done|]. pose proof Hb as Hall.
  cbn [sexists] in Hb. apply orb_false_iff in Hb as [_ Hb]. cbn [before_sub].
  destruct (startswith _DYNAMIC_MARKER (String c d)) eqn:Es; [|by rewrite (IH Hb)].
  exfalso. apply startswith_spec in Es as [r Hr]. rewrite Hr in Hall. by cbn in Hall.
Qed.

Lemma before_marker base rest : has_char "<" base = false →
  before_sub _DYNAMIC_MARKER (base +:+ _DYNAMIC_MARKER +:+ rest) = base.
Proof.
  intros Hb. induction base as [|c base IH]; [exact (before_sub_start _ _ (startswith_app _DYNAMIC_MARKER rest))|].
  unfold has_char in Hb. cbn [sexists] in Hb. apply orb_false_iff in Hb as [Hc Hb].
  cbn [String.append before_sub].
  assert (startswith _DYNAMIC_MARKER (String c (base +:+ _DYNAMIC_MARKER +:+ rest)) = false) as ->; [|by rewrite IH].
  clear IH Hc. cbn. destruct (Ascii.eqb NL c); cbn; [|done]. destruct base as [|c1 base]; [cbn; done|].
  cbn. destruct (Ascii.eqb NL c1); cbn; [|done]. destruct base as [|c2 base]; [cbn; done|].
  cbn. cbn [sexists] in Hb. apply orb_false_iff in Hb as [_ Hb]. cbn [sexists] in Hb.
  apply orb_false_iff in Hb as [Hc2 _]. by rewrite Hc2.
Qed.

(** Whatever the model requests of a session, the description stays the same after the
    first time: the live part replaces the former one, it does not pile up. *)
Theorem description_settles fd : has_char "<" (default "" fd.2) = false →
  _callback (_callback fd) = _callback fd ∧
  (fd.1 = SUBAGENT → ∃ live, (_callback fd).2 = Some (default "" fd.2 +:+ live)).
Proof.
  intros Hb. destruct fd as [n d]. unfold _callback. cbn [fst snd] in *.
  destruct (String.eqb_spec n SUBAGENT) as [-> |Hn]; cbn [fst snd];
    [|destruct (String.eqb_spec n SUBAGENT); [done|]; by split].
  rewrite String.eqb_refl. assert (_base_description d = default "" d) as Hd
    by (destruct d as [d|]; [by apply before_sub_none|done]).
  rewrite Hd. split; [|by eexists]. do 2 f_equal. cbn [_base_description]. by rewrite before_marker.
Qed.

(** ** Instances *)

Definition demo_sargs (tid : string) : sargs :=
  SArgs (Some "tidy") "" (Some tid) None true None demo_args.

Definition spawned : aworld (S:=kept_sessions) :=
  let Hfl : PyFloat := λ _, "0.0" in
  (agent "t1" 5 0%Q "spawn" (demo_sargs "") true [] (AWorld [] (DWorld [] [] []))).2.

(** A spawn, its end while a result is awaited, and the row before and after. *)
Example spawn_and_result :
  let Hfl : PyFloat := λ _, "0.0" in
  let '(payload, w) := agent "t2" 9 1%Q "result" (demo_sargs "t1") true [("t1", Raised "boom")] spawned in
  get payload "status" = PStr "failed" ∧
  map (λ v, match v with PDict d => get d "status" | _ => PNone end)
    (log_of (dw_state (aw_parent w)) DELEGATE_HISTORY_STATE_KEY) = [PStr "halted"].
Proof. split; reflexivity. Qed.

Lemma panel_in_step_witness :
  let Hfl : PyFloat := λ _, "0.0" in
  let '(payload, w') := agent "t2" 9 1%Q "result" (demo_sargs "t1") true [("t1", Raised "boom")] spawned in
  ∃ d', log_of (dw_state (aw_parent w')) DELEGATE_HISTORY_STATE_KEY = [] ++ PDict d' :: [] ∧
    get d' "status" = PStr "halted".
Proof.
  intros Hfl.
  pose proof (panel_in_step (H:=Hfl) "t2" 9 1%Q "result" (demo_sargs "t1") "t1" [("t1", Raised "boom")] spawned
    "failed" [] (spawn_row 5 "t1" "tidy") [] ltac:(by right) eq_refl) as Hp.
  destruct (agent "t2" 9 1%Q "result" (demo_sargs "t1") true [("t1", Raised "boom")] spawned) as [payload w'] eqn:E.
  apply Hp.
  - vm_compute in E. injection E as <- _. reflexivity.
  - repeat (first [by left|right]).
  - reflexivity.
  - intros e He. by apply elem_of_nil in He.
  - reflexivity.
Defined.

Lemma description_settles_witness :
  _callback (_callback ("subagent", Some "Runs a child.")) = _callback ("subagent", Some "Runs a child.").
Proof. apply (description_settles ("subagent", Some "Runs a child.")). reflexivity. Defined.
