(* ===== verification/SandboxProvider.v ===== *)
(** * The sandbox provider: [sandbox/provider.py], [scheduler/snapshot_endpoint.py]

    What a session or a routine asks for an environment: reattach, restore from a
    snapshot, provision afresh, upgrade, snapshot. [VertexSandboxProvider] composes the
    operations of [SandboxLifecycle] over the process's two caches; [LocalProvider] is
    the host. A [proc] is the process's caches and the state of the Vertex service. *)

From stdpp Require Import sorting.
From S2P Require Import Prelude PyStr Names PyVal Overlay Environ Sorting SandboxLifecycle.

Definition SANDBOX_LOCATION : string := "us-central1".
Definition DEFAULT_SANDBOX_ENGINE_DISPLAY_NAME : string := "lha-sandbox-host".
Definition DEFAULT_SANDBOX_TTL : string := "14d".
Definition _ROUTING_TOKEN_REFRESH_INTERVAL_SECS : Z := 30 * 60.
Definition DEFAULT_SNAPSHOT_TTL : string := "30d".
Definition DEFAULT_SNAPSHOT_KEEP : Z := 2.

Definition SandboxConfigurationError (msg : string) : exc := OtherError "SandboxConfigurationError" msg.
Definition BackendGoneError : exc := OtherError "BackendGoneError" "".

(** ** The service and the process *)

(** The SDK as this module calls it: making a client, listing the engines (what the
    pager yields, and the exception it may end with), creating one; and the calls of
    [SandboxLifecycle]. *)
Record vertex (W : Type) := Vertex {
  v_client : client W;
  client_new : string → string → W → res unit * W;
  engines_list : W → (list obj * option exc) * W;
  engines_create : string → W → res obj * W
}.
Arguments v_client {W}. Arguments client_new {W}. Arguments engines_list {W}.
Arguments engines_create {W}.

Record proc (W : Type) := Proc {
  _engine_cache : list (string * string);
  _template_cache : list (string * string);
  p_world : W
}.
Arguments Proc {W}. Arguments _engine_cache {W}. Arguments _template_cache {W}. Arguments p_world {W}.

Definition on_world {W A} (m : call W A) : call (proc W) A :=
  λ p, let '(r, w) := m (p_world p) in (r, Proc (_engine_cache p) (_template_cache p) w).
Definition cache_engine {W} (k v : string) : call (proc W) unit :=
  λ p, (Ok tt, Proc (dset (_engine_cache p) k v) (_template_cache p) (p_world p)).
Definition cache_template {W} (k v : string) : call (proc W) unit :=
  λ p, (Ok tt, Proc (_engine_cache p) (dset (_template_cache p) k v) (p_world p)).
Definition cached_engine {W} (k : string) : call (proc W) (option string) :=
  λ p, (Ok (dget (_engine_cache p) k), p).
Definition cached_template {W} (k : string) : call (proc W) (option string) :=
  λ p, (Ok (dget (_template_cache p) k), p).

(** A [SandboxEnvironment] as it is built: its connection, its owner, what its refresh
    closures hold, its refresh interval and the label of its egress mode. *)
Record sandbox_env := SandboxEnvironment {
  se_name : string; se_host : string; se_routing : string; se_token : string;
  se_owner : string; se_caller_sa : string; se_interval : Z; se_internet : bool
}.
Inductive environment := LocalEnvironment (working_dir : string) | Sandboxed (s : sandbox_env).

Record PendingMigration := Pending { source_env : sandbox_env; source_name : string }.

Inductive UpgradeProvision :=
| Provisioned_ (version : string) (new_env : sandbox_env) (pending : option PendingMigration)
| AlreadyCurrent (version : string)
| NoPrior (version : string)
| Unavailable (reason : string).

(** ** Settings *)

Section Settings.
Context (environ : environment_vars).

Definition _in_prod : bool := negb (env_get environ "K_SERVICE" =? "")%string.
Definition default_internet_access : bool :=
  env_flag environ "LHA_SANDBOX_INTERNET_ACCESS" (negb _in_prod).
(** [home]: the user's home directory. *)
Definition _default_local_root (home : string) : string :=
  let override := env_get environ "LHA_LOCAL_ROOT" in
  if negb (override =? "")%string then override else path_div home ".lha".
Definition _sandbox_location : string := env_str environ "LHA_SANDBOX_LOCATION" SANDBOX_LOCATION.
Definition snapshots_enabled : bool := env_flag environ "LHA_SNAPSHOT_ENABLED" false.

Definition image_setting : string := env_stripped environ "LHA_RUNTIME_IMAGE".
Definition caller_setting : string := env_stripped environ "LHA_SANDBOX_CALLER_SA".
Definition ttl_setting : string := or_str (env_stripped environ "LHA_SANDBOX_TTL") DEFAULT_SANDBOX_TTL.

Definition engine_display_name : string :=
  or_str (env_stripped environ "LHA_SANDBOX_ENGINE_NAME") DEFAULT_SANDBOX_ENGINE_DISPLAY_NAME.

Definition missing_settings : list string :=
  map fst (List.filter (λ vv : string * string, (vv.2 =? "")%string)
    [("LHA_RUNTIME_IMAGE", image_setting); ("LHA_SANDBOX_CALLER_SA", caller_setting)]).
End Settings.

(** ** Reading what the service returns *)

(** The loop over the engines, without the cache: the first of the display name that
    has a name. *)
Fixpoint named_engine (display_name : string) (engines : list obj) : option string :=
  match engines with
  | [] => None
  | engine :: rest =>
      let api_resource := getattr engine "api_resource" in
      let name := getattr api_resource "name" in
      if is_none api_resource then named_engine display_name rest
      else if negb (eq_str (getattr api_resource "display_name") display_name)
           then named_engine display_name rest
      else if negb (truth name) then named_engine display_name rest
      else Some (obj_str name)
  end.

Definition _connection_info_from_sandbox (sandbox_obj : obj) : option (string * string) :=
  let conn := getattr sandbox_obj "connection_info" in
  if is_none conn then None
  else
    let host := getattr conn "load_balancer_hostname" in
    let routing := getattr conn "routing_token" in
    if negb (truth host) || negb (truth routing) then None
    else Some (obj_str host, obj_str routing).

Definition sandbox_running (sandbox_obj : obj) : res bool :=
  let state := getattr sandbox_obj "state" in
  if is_none state then Ok true
  else str_in "RUNNING" (or_else (getattr state "name") (OStr (obj_str state))).

(** [if s:] on an optional string. *)
Definition filled (o : option string) : option string :=
  match o with Some s => if (s =? "")%string then None else Some s | None => None end.

Section Provider.
Context {W : Type} (v : vertex W) (environ : environment_vars) `{ExcAttr} `{Packaging}.
Context (home : string).
Abbreviation cl := (v_client v).

Definition _vertex_client_factory : call (proc W) unit :=
  let* project := lift (env_item environ "GOOGLE_CLOUD_PROJECT") in
  on_world (client_new v project (_sandbox_location environ)).

Definition list_engines : call (proc W) (list obj * option exc) :=
  on_world (λ w, let '(l, w') := engines_list v w in (Ok l, w')).

Definition _resolve_sandbox_engine : call (proc W) string :=
  let pinned := env_stripped environ "AGENT_ENGINE_RESOURCE_NAME" in
  if negb (pinned =? "")%string then ret pinned
  else
    let display_name := engine_display_name environ in
    let* cached := cached_engine display_name in
    match filled cached with
    | Some c => ret c
    | None =>
        let* listing := list_engines in
        match named_engine display_name listing.1, listing.2 with
        | Some name, _ =>
            let* u := cache_engine display_name name in ret name
        | None, Some e => raise e
        | None, None =>
            let* created := on_world (engines_create v display_name) in
            let api_resource := getattr created "api_resource" in
            let name := if truth api_resource then getattr api_resource "name" else ONone in
            if negb (truth name)
            then raise (RuntimeError ("agent_engines.create returned no api_resource.name; "
                          +:+ "cannot resolve sandbox engine"))
            else let* u := cache_engine display_name (obj_str name) in ret (obj_str name)
        end
    end.

Definition _cached_agent_instance : call (proc W) (option string) :=
  let pinned := env_stripped environ "AGENT_ENGINE_RESOURCE_NAME" in
  if negb (pinned =? "")%string then ret (Some pinned)
  else cached_engine (engine_display_name environ).

(** [(lb_host, routing_token, template_ref)] of a running sandbox. *)
Definition _try_reattach (sandbox_name : string) :
    call (proc W) (option (string * string * string)) :=
  let* got := catch (let* o := on_world (sandboxes_get cl sandbox_name) in ret (Some o))
                    (λ _, ret None) in
  match got with
  | None => ret None
  | Some sandbox_obj =>
      let* running := lift (sandbox_running sandbox_obj) in
      if negb running then ret None
      else match _connection_info_from_sandbox sandbox_obj with
           | None => ret None
           | Some (host, routing) =>
               ret (Some (host, routing,
                 obj_str (or_else (getattr sandbox_obj "sandbox_environment_template") (OStr ""))))
           end
  end.

Definition _template_internet_access (template_ref : string) (dflt : bool) : call (proc W) bool :=
  if (template_ref =? "")%string then ret dflt
  else
    let* tmpl := catch (let* t := on_world (templates_get cl template_ref) in ret (Some t))
                       (λ _, ret None) in
    match tmpl with
    | None => ret dflt
    | Some t => lift (template_internet_access t dflt)
    end.

Definition _sandbox_template (sandbox_name : string) : call (proc W) (option obj) :=
  let* got := catch (let* o := on_world (sandboxes_get cl sandbox_name) in ret (Some o))
                    (λ _, ret None) in
  match got with
  | None => ret None
  | Some o =>
      let template_ref := getattr o "sandbox_environment_template" in
      if negb (truth template_ref) then ret None
      else catch (let* t := on_world (templates_get cl (obj_str template_ref)) in ret (Some t))
                 (λ _, ret None)
  end.

Definition _sandbox_internet_access (sandbox_name : string) (dflt : bool) : call (proc W) bool :=
  let* tmpl := _sandbox_template sandbox_name in
  match tmpl with
  | Some t => if is_none t then ret dflt else lift (template_internet_access t dflt)
  | None => ret dflt
  end.

(** The two closures of [_build_refresh_closures]. *)
Definition token_minter (caller_sa : string) : call (proc W) string :=
  let* u := _vertex_client_factory in on_world (mint_sandbox_token cl caller_sa).
Definition routing_fetcher (sandbox_name : string) : call (proc W) string :=
  catch (let* u := _vertex_client_factory in on_world (fetch_routing_token cl sandbox_name))
        (λ e, if _is_not_found e then raise BackendGoneError else raise e).

(** Minting a token, then building the environment. *)
Definition connected (name host routing user_id caller_sa : string) (internet_access : bool) :
    call (proc W) sandbox_env :=
  let* token := on_world (mint_sandbox_token cl caller_sa) in
  ret (SandboxEnvironment name host routing token user_id caller_sa
         _ROUTING_TOKEN_REFRESH_INTERVAL_SECS internet_access).

Definition _reattach_or_none (sandbox_name : option string) (caller_sa user_id : string) :
    call (proc W) (option sandbox_env) :=
  match sandbox_name with
  | None => ret None
  | Some name =>
      if (name =? "")%string then ret None
      else
        let* reattach := _try_reattach name in
        match reattach with
        | None => ret None
        | Some (host, routing, template_ref) =>
            let* internet_access := _template_internet_access template_ref true in
            let* e := connected name host routing user_id caller_sa internet_access in
            ret (Some e)
        end
  end.

Definition _restore_from_snapshot_or_none (agent_instance user_id caller_sa : string) :
    call (proc W) (option sandbox_env) :=
  if negb (snapshots_enabled environ) then ret None
  else
    let* found := on_world (find_latest_user_snapshot cl agent_instance user_id) in
    match found with
    | None => ret None
    | Some (snapshot_name, snapshot_display) =>
        let* provisioned :=
          catch (let* p := on_world (restore_sandbox_from_snapshot cl agent_instance user_id
                              snapshot_name (sandbox_display_name_from_snapshot snapshot_display)
                              (Some (ttl_setting environ))) in ret (Some p))
                (λ _, ret None) in
        match provisioned with
        | None => ret None
        | Some p =>
            let* e := connected (ps_name p) (lb_host p) (routing_token p) user_id caller_sa
                        (default_internet_access environ) in
            ret (Some e)
        end
    end.

Definition template_key (agent_instance image_uri : string) (internet_access : bool) : string :=
  agent_instance +:+ "|" +:+ image_uri +:+ "|" +:+ (if internet_access then "net" else "hermetic").

(** The template of an egress mode, through the cache. *)
Definition template_for (agent_instance image_uri : string) (internet_access : bool) :
    call (proc W) string :=
  let cache_key := template_key agent_instance image_uri internet_access in
  let* cached := cached_template cache_key in
  match cached with
  | Some n => ret n
  | None =>
      let* n := on_world (ensure_template cl agent_instance image_uri internet_access) in
      let* u := cache_template cache_key n in ret n
  end.

Definition _provision_fresh_sandbox (agent_instance user_id image_uri caller_sa : string)
    (internet_access : bool) (prior_name display_name : option string) :
    call (proc W) (sandbox_env * option PendingMigration) :=
  let* source := _reattach_or_none prior_name caller_sa user_id in
  let* template_name := template_for agent_instance image_uri internet_access in
  let* p := on_world (provision_sandbox cl agent_instance user_id template_name
              (Some (or_str (default "" display_name) (sandbox_display_name user_id image_uri)))
              (Some (ttl_setting environ))) in
  let* new_env := connected (ps_name p) (lb_host p) (routing_token p) user_id caller_sa
                    internet_access in
  ret (new_env,
       match source, prior_name with
       | Some s, Some n => if (n =? "")%string then None else Some (Pending s n)
       | _, _ => None
       end).

(** ** [VertexSandboxProvider] *)

Definition will_provision : bool :=
  negb (image_setting environ =? "")%string && negb (caller_setting environ =? "")%string.

Definition local_user (user_id : string) : environment :=
  LocalEnvironment (path_div (path_div (_default_local_root environ home) "users") user_id).

Definition resolve_engine : call (proc W) string :=
  let* u := _vertex_client_factory in _resolve_sandbox_engine.

(** After the engine is resolved: reattach, restore or provision. *)
Definition build_on (agent_instance user_id image_uri caller_sa : string) :
    call (proc W) (environment * option PendingMigration) :=
  let* latest := on_world (find_latest_user_sandbox cl agent_instance user_id) in
  let floor := env_stripped environ "LHA_RUNTIME_MIN_VERSION" in
  let below := match latest with
               | Some (_, display) => negb (floor =? "")%string && version_below_floor display floor
               | None => false end in
  let prior_name := if below then option_map fst latest else None in
  let* attached := _reattach_or_none (if below then None else option_map fst latest)
                     caller_sa user_id in
  match attached with
  | Some e => ret (Sandboxed e, None)
  | None =>
      let* restored := match prior_name with
                       | None => _restore_from_snapshot_or_none agent_instance user_id caller_sa
                       | Some _ => ret None end in
      match restored with
      | Some e => ret (Sandboxed e, None)
      | None =>
          let* fresh := _provision_fresh_sandbox agent_instance user_id image_uri caller_sa
                          (default_internet_access environ) prior_name None in
          ret (Sandboxed fresh.1, fresh.2)
      end
  end.

Definition build_environment (user_id : string) :
    call (proc W) (environment * option PendingMigration) :=
  match missing_settings environ with
  | (_ :: _) as missing =>
      if _in_prod environ
      then raise (SandboxConfigurationError
                    ("LHA_ENVIRONMENT_BACKEND=sandbox requires " +:+ join ", " missing))
      else ret (local_user user_id, None)
  | [] =>
      let* engine := catch (let* a := resolve_engine in ret (Ok a)) (λ e, ret (Raise e)) in
      match engine with
      | Raise e =>
          if _in_prod environ
          then raise (SandboxConfigurationError
                        ("sandbox engine resolution failed: " +:+ exc_text e))
          else ret (local_user user_id, None)
      | Ok agent_instance =>
          build_on agent_instance user_id (image_setting environ) (caller_setting environ)
      end
  end.

Definition build_routine_environment (routine_id owner : string) :
    call (proc W) (sandbox_env * option PendingMigration) :=
  let image_uri := image_setting environ in
  let caller_sa := caller_setting environ in
  if (image_uri =? "")%string || (caller_sa =? "")%string
  then raise (SandboxConfigurationError
                "routine sandbox needs LHA_RUNTIME_IMAGE and LHA_SANDBOX_CALLER_SA")
  else
    let* agent_instance := resolve_engine in
    let* existing := on_world (find_routine_sandbox cl agent_instance routine_id image_uri) in
    let* attached := _reattach_or_none existing caller_sa owner in
    match attached with
    | Some e => ret (e, None)
    | None => _provision_fresh_sandbox agent_instance owner image_uri caller_sa
                (default_internet_access environ) None (Some (routine_display_name routine_id image_uri))
    end.

Definition provision_upgrade (user_id : string) : call (proc W) UpgradeProvision :=
  if negb will_provision then ret (Unavailable "sandbox backend not enabled")
  else
    let image_uri := image_setting environ in
    let caller_sa := caller_setting environ in
    let version := runtime_image_version image_uri in
    let* engine := catch (let* a := resolve_engine in ret (Some a)) (λ _, ret None) in
    match engine with
    | None => ret (Unavailable "engine resolution failed")
    | Some agent_instance =>
        let* current := on_world (find_user_sandbox cl agent_instance user_id image_uri) in
        match filled current with
        | Some _ => ret (AlreadyCurrent version)
        | None =>
            let* prior := on_world (find_prior_user_sandbox cl agent_instance user_id image_uri) in
            match filled prior with
            | None => ret (NoPrior version)
            | Some prior_name =>
                let* internet_access :=
                  _sandbox_internet_access prior_name (default_internet_access environ) in
                let* fresh := _provision_fresh_sandbox agent_instance user_id image_uri caller_sa
                                internet_access (Some prior_name) None in
                ret (Provisioned_ version fresh.1 fresh.2)
            end
        end
    end.

Definition snapshot_ttl_setting : string :=
  or_str (env_stripped environ "LHA_SNAPSHOT_TTL") DEFAULT_SNAPSHOT_TTL.

(** [int(keep_raw) if keep_raw.isdigit() else 2] *)
Definition keep_setting : res Z :=
  let keep_raw := env_stripped environ "LHA_SNAPSHOT_KEEP" in
  if negb (keep_raw =? "")%string && sforall is_digit keep_raw then py_int (PStr keep_raw) else Ok 2%Z.

(** [None]: the status is [unavailable]. *)
Definition snapshot_and_prune (user_id : string) : call (proc W) (option snapshot_status) :=
  if negb will_provision then ret None
  else
    let* agent_instance := resolve_engine in
    let* keep := lift keep_setting in
    let* s := on_world (snapshot_and_prune_user cl agent_instance user_id snapshot_ttl_setting keep) in
    ret (Some s).

Definition provisioning_status (user_id : string) : call (proc W) (option (string * string)) :=
  if negb will_provision then ret None
  else
    let* agent_instance := _cached_agent_instance in
    match filled agent_instance with
    | None => ret None
    | Some agent =>
        catch (let* u := _vertex_client_factory in
               on_world (get_user_sandbox_state cl agent user_id (image_setting environ)))
              (λ _, ret None)
    end.

(** ** The nightly snapshots: [snapshot_tick] *)

(** [max(1, int(...))], the default when that is no number. *)
Definition _keep : Z :=
  match py_int (PStr (env_get environ "LHA_SNAPSHOT_KEEP")) with
  | Ok k => Z.max 1 k
  | Raise _ => DEFAULT_SNAPSHOT_KEEP
  end.

Record tick_report := Tick { snapshotted : nat; failed : nat; errors : list string }.

Fixpoint snapshot_each (agent_instance : string) (keep : Z) (user_ids : list string) :
    call (proc W) tick_report :=
  match user_ids with
  | [] => ret (Tick 0 0 [])
  | user_id :: rest =>
      let* result :=
        catch (let* s := on_world (snapshot_and_prune_user cl agent_instance user_id
                           snapshot_ttl_setting keep) in ret (Some s))
              (λ _, ret None) in
      let* r := snapshot_each agent_instance keep rest in
      ret (match result with
           | None => Tick (snapshotted r) (S (failed r)) (user_id :: errors r)
           | Some (Snapshotted _) => Tick (S (snapshotted r)) (failed r) (errors r)
           | Some NoSandbox => r
           end)
  end.

Inductive tick_reply :=
| TickSkipped (reason : string)
| TickDone (status : nat) (body : tick_report).

(** [active_users]: the query [list_active_users], made when the request names none; [registered]: the runner has a session service and a name, or the request
    gives the name. *)
Definition snapshot_tick (registered : bool) (requested : list string)
    (active_users : call W (list string)) : call (proc W) tick_reply :=
  if negb (snapshots_enabled environ) || negb will_provision
  then ret (TickSkipped "snapshots disabled")
  else if negb registered then ret (TickSkipped "runner not registered")
  else
    let* user_ids := match requested with [] => on_world active_users | _ => ret requested end in
    match user_ids with
    | [] => ret (TickSkipped "no active users")
    | _ =>
        let* engine := catch (let* a := resolve_engine in ret (Some a)) (λ _, ret None) in
        match engine with
        | None => ret (TickDone 500 (Tick 0 (length user_ids) user_ids))
        | Some agent_instance =>
            let* r := snapshot_each agent_instance _keep user_ids in
            ret (TickDone (if (snapshotted r =? 0) && (0 <? failed r) then 500 else 200) r)
        end
    end.
End Provider.

(** ** [LocalProvider] *)

Section Local.
Context (environ : environment_vars) (home : string).
Definition local_build_environment (user_id : string) : environment * option PendingMigration :=
  (LocalEnvironment (path_div (path_div (_default_local_root environ home) "users") user_id), None).
Definition local_build_routine_environment (routine_id : string) :
    environment * option PendingMigration :=
  (LocalEnvironment (path_div (path_div (_default_local_root environ home) "routines") routine_id), None).
Definition local_provision_upgrade : UpgradeProvision := Unavailable "sandbox backend not enabled".
End Local.

(** * Facts *)

(** ** Sequencing *)

Lemma bind_ok {W A B} (m : call W A) (k : A → call W B) w b w' :
  bind m k w = (Ok b, w') → ∃ a w1, m w = (Ok a, w1) ∧ k a w1 = (Ok b, w').
Proof. unfold bind. destruct (m w) as [[a|e] w1]; [eauto|done]. Qed.

Lemma attempt_ok {W A} (m : call W A) w r w' :
  catch (let* a := m in ret (Some a)) (λ _, ret None) w = (Ok r, w') →
  match r with Some a => m w = (Ok a, w') | None => ∃ e, m w = (Raise e, w') end.
Proof.
  unfold catch, bind, ret. destruct (m w) as [[a|e] w1]; intros [= <- <-]; [done|by exists e].
Qed.

Lemma attempt_never_raises {W A} (m : call W A) w :
  ∃ r w', catch (let* a := m in ret (Some a)) (λ _, ret None) w = (Ok r, w').
Proof. unfold catch, bind, ret. destruct (m w) as [[a|e] w1]; eauto. Qed.

Lemma on_world_ok {W A} (m : call W A) p a p' :
  on_world m p = (Ok a, p') →
  m (p_world p) = (Ok a, p_world p') ∧ _engine_cache p' = _engine_cache p ∧
  _template_cache p' = _template_cache p.
Proof. unfold on_world. destruct (m (p_world p)) as [r w]. by intros [= -> <-]. Qed.

(** Splits the sequencing of a call that returned. *)
Ltac step_ok H a p H1 :=
  apply bind_ok in H; destruct H as (a & p & H1 & H).

(** ** What every operation keeps *)

Definition keeps {W A} (I : proc W → Prop) (m : call (proc W) A) : Prop :=
  ∀ p r p', I p → m p = (r, p') → I p'.

Section Keeps.
Context {W : Type} (I : proc W → Prop).

Lemma keeps_ret {A} (a : A) : keeps I (ret a).
Proof. by intros p r p' HI [= <- <-]. Qed.
Lemma keeps_raise {A} e : keeps I (raise (A:=A) e).
Proof. by intros p r p' HI [= <- <-]. Qed.
Lemma keeps_lift {A} (m : res A) : keeps I (lift m).
Proof. by intros p r p' HI [= <- <-]. Qed.
Lemma keeps_bind {A B} (m : call (proc W) A) (k : A → call (proc W) B) :
  keeps I m → (∀ a, keeps I (k a)) → keeps I (bind m k).
Proof.
  intros Hm Hk p r p' HI. unfold bind. destruct (m p) as [[a|e] p1] eqn:E.
  - apply Hk. by eapply Hm.
  - intros [= <- <-]. by eapply Hm.
Qed.
Lemma keeps_catch {A} (m : call (proc W) A) h :
  keeps I m → (∀ e, keeps I (h e)) → keeps I (catch m h).
Proof.
  intros Hm Hh p r p' HI. unfold catch. destruct (m p) as [[a|e] p1] eqn:E.
  - intros [= <- <-]. by eapply Hm.
  - apply Hh. by eapply Hm.
Qed.
Lemma keeps_cached_engine k : keeps I (cached_engine k).
Proof. by intros p r p' HI [= <- <-]. Qed.
Lemma keeps_cached_template k : keeps I (cached_template k).
Proof. by intros p r p' HI [= <- <-]. Qed.
End Keeps.

(** Closes the goals of a call made of reads, branches and calls already known. *)
Ltac keep_step :=
  first
    [ solve [auto 2]
    | apply keeps_ret | apply keeps_raise | apply keeps_lift
    | apply keeps_cached_engine | apply keeps_cached_template
    | apply keeps_bind; [|intros ?] | apply keeps_catch; [|intros ?]
    | progress cbv zeta
    | match goal with |- keeps _ (match ?x with _ => _ end) => destruct x end ].
Ltac keep := repeat keep_step.

Section Operations_facts.
Context {W : Type} (v : vertex W) (environ : environment_vars) `{ExcAttr} `{Packaging}.
Context (home : string).
Abbreviation cl := (v_client v).

(** A template fit for an image and an egress mode: one that is listed, or read back,
    under the name of the mode and with the image, or one created so. *)
Inductive serves (agent image_uri : string) (internet_access : bool) (n : string) : Prop :=
| serves_listed template w w' d name :
    template_identity cl template w = (Ok (Some (d, Some image_uri)), w') →
    eq_str d (template_display_name internet_access) = true →
    attribute template "name" = Ok name → n = obj_str name →
    serves agent image_uri internet_access n
| serves_created op w w' :
    templates_create cl agent (template_display_name internet_access)
      (template_config image_uri internet_access) w = (Ok op, w') →
    _operation_resource_name op = Ok n → serves agent image_uri internet_access n.

Lemma find_template_spec d image_uri l w n w' :
  find_template cl d image_uri l w = (Ok (Some n), w') →
  ∃ template w1 w2 d' name, template ∈ l ∧
    template_identity cl template w1 = (Ok (Some (d', Some image_uri)), w2) ∧
    eq_str d' d = true ∧ attribute template "name" = Ok name ∧ n = obj_str name.
Proof.
  revert w. induction l as [|t l IH]; intros w E; [done|]. cbn [find_template] in E.
  step_ok E idn w1 Hid. assert (find_template cl d image_uri l w1 = (Ok (Some n), w') →
    ∃ template w1 w2 d' name, template ∈ t :: l ∧
    template_identity cl template w1 = (Ok (Some (d', Some image_uri)), w2) ∧
    eq_str d' d = true ∧ attribute template "name" = Ok name ∧ n = obj_str name) as Hrest.
  { intros (t' & a & b & d' & nm & Hin & ?)%IH. exists t', a, b, d', nm. by split; [right|]. }
  destruct idn as [[nd i]|]; [|auto].
  destruct (eq_str nd d && bool_decide (i = Some image_uri)) eqn:Em; [|auto].
  apply andb_true_iff in Em as [Hd ->%bool_decide_eq_true].
  step_ok E nm w2 Hn. unfold lift in Hn. injection Hn as Hn <-. injection E as <- <-.
  exists t, w, w1, nd, nm. split; [left|done].
Qed.

Lemma ensure_template_serves agent image_uri ia w n w' :
  ensure_template cl agent image_uri ia w = (Ok n, w') → serves agent image_uri ia n.
Proof.
  unfold ensure_template. intros E. step_ok E l w1 Hl. step_ok E found w2 Hf.
  destruct found as [m|].
  - injection E as <- <-. apply find_template_spec in Hf as (t & a & b & d & nm & _ & Hid & Hd & Hn & ->).
    by eapply serves_listed.
  - step_ok E op w3 Ho. injection E as E <-. by eapply serves_created.
Qed.

(** The template cache of a process: each entry serves the image of the process and
    the egress mode its key names. *)
Definition cache_sound (p : proc W) : Prop :=
  ∀ k n, (k, n) ∈ _template_cache p →
    ∃ agent ia, k = template_key agent (image_setting environ) ia ∧
      serves agent (image_setting environ) ia n.

Lemma app_suffix_inj (a b s : string) : a +:+ s = b +:+ s → a = b.
Proof.
  intros E. assert (slen a = slen b) as Hl.
  { apply (f_equal slen) in E. rewrite !slen_app in E. lia. }
  rewrite <- (stake_app a s), E, Hl. apply stake_app.
Qed.

Lemma app_last_inj a b c d : a +:+ s1 c = b +:+ s1 d → c = d.
Proof.
  intros E. assert (slen a = slen b) as Hl.
  { apply (f_equal slen) in E. rewrite !slen_app in E. cbn in E. lia. }
  apply (f_equal (sdrop (slen a))) in E. rewrite sdrop_app, Hl, sdrop_app in E. by injection E.
Qed.

(** With one image, a key tells its engine and its mode. *)
Lemma template_key_inj a b image_uri i j :
  template_key a image_uri i = template_key b image_uri j → a = b ∧ i = j.
Proof.
  unfold template_key. intros E.
  enough (i = j) as -> by (split; [by eapply app_suffix_inj|done]).
  assert (∀ x y, a +:+ "|" +:+ image_uri +:+ "|" +:+ "ne" +:+ s1 x
    = b +:+ "|" +:+ image_uri +:+ "|" +:+ "hermeti" +:+ s1 y → x = y) as Hne.
  { intros x y Exy. rewrite !sapp_assoc in Exy. by apply app_last_inj in Exy. }
  assert (∀ x y, a +:+ "|" +:+ image_uri +:+ "|" +:+ "hermeti" +:+ s1 x
    = b +:+ "|" +:+ image_uri +:+ "|" +:+ "ne" +:+ s1 y → x = y) as Hhe.
  { intros x y Exy. rewrite !sapp_assoc in Exy. by apply app_last_inj in Exy. }
  destruct i, j; [done| | |done].
  - by specialize (Hne _ _ E).
  - by specialize (Hhe _ _ E).
Qed.

Lemma keeps_on_world {A} (m : call W A) : keeps cache_sound (on_world m).
Proof.
  intros p r p' HI. unfold on_world. destruct (m (p_world p)) as [r0 w]. by intros [= <- <-].
Qed.
Lemma keeps_cache_engine k n : keeps (W:=W) cache_sound (cache_engine k n).
Proof. intros p r p' HI. by intros [= <- <-]. Qed.
#[local] Hint Resolve keeps_on_world keeps_cache_engine : core.

Lemma keeps_template_for agent ia :
  keeps cache_sound (template_for v agent (image_setting environ) ia).
Proof.
  intros p r p' HI. unfold template_for, cached_template. unfold bind at 1. cbn beta iota.
  destruct (dget (_template_cache p) (template_key agent (image_setting environ) ia)) as [n|];
    [by intros [= <- <-]|].
  unfold bind, on_world, cache_template, ret.
  destruct (ensure_template cl agent (image_setting environ) ia (p_world p)) as [[n|e] w] eqn:E;
    intros [= <- <-]; [|done].
  intros k' n' [[= -> ->]|Hin]%dset_in; [|by apply HI].
  exists agent, ia. split; [done|]. by eapply ensure_template_serves.
Qed.

(** What a template so obtained is good for. *)
Lemma template_for_serves agent ia p n p' :
  cache_sound p → template_for v agent (image_setting environ) ia p = (Ok n, p') →
  serves agent (image_setting environ) ia n.
Proof.
  intros HI E. unfold template_for in E. step_ok E c p1 Hc. injection Hc as <- <-.
  destruct (dget _ _) as [m|] eqn:Ed.
  - injection E as <- <-. apply dget_in, HI in Ed as (b & j & Ek & Hs).
    by apply template_key_inj in Ek as [-> ->].
  - step_ok E m p2 Hm. step_ok E u p3 Hu. injection E as <- <-.
    apply on_world_ok in Hm as [Hm _]. by eapply ensure_template_serves.
Qed.

Lemma keeps_factory : keeps cache_sound (_vertex_client_factory v environ).
Proof. unfold _vertex_client_factory. keep. Qed.
#[local] Hint Resolve keeps_factory keeps_template_for : core.

Lemma keeps_resolve : keeps cache_sound (resolve_engine v environ).
Proof. unfold resolve_engine, _resolve_sandbox_engine, list_engines. keep. Qed.
Lemma keeps_connected n h r u c i : keeps cache_sound (connected v n h r u c i).
Proof. unfold connected. keep. Qed.
#[local] Hint Resolve keeps_resolve keeps_connected : core.

Lemma keeps_reattach n c u : keeps cache_sound (_reattach_or_none v n c u).
Proof. unfold _reattach_or_none, _try_reattach, _template_internet_access. keep. Qed.
Lemma keeps_restore a u c : keeps cache_sound (_restore_from_snapshot_or_none v environ a u c).
Proof. unfold _restore_from_snapshot_or_none. keep. Qed.
Lemma keeps_egress n d : keeps cache_sound (_sandbox_internet_access v n d).
Proof. unfold _sandbox_internet_access, _sandbox_template. keep. Qed.
#[local] Hint Resolve keeps_reattach keeps_restore keeps_egress : core.

Lemma keeps_fresh a u c i n d :
  keeps cache_sound (_provision_fresh_sandbox v environ a u (image_setting environ) c i n d).
Proof. unfold _provision_fresh_sandbox. keep. Qed.
#[local] Hint Resolve keeps_fresh : core.

Lemma keeps_build u : keeps cache_sound (build_environment v environ home u).
Proof. unfold build_environment, build_on. keep. Qed.
Lemma keeps_routine r o : keeps cache_sound (build_routine_environment v environ r o).
Proof. unfold build_routine_environment. keep. Qed.
Lemma keeps_upgrade u : keeps cache_sound (provision_upgrade v environ u).
Proof. unfold provision_upgrade. keep. Qed.
Lemma keeps_prune u : keeps cache_sound (snapshot_and_prune v environ u).
Proof. unfold snapshot_and_prune. keep. Qed.
Lemma keeps_status u : keeps cache_sound (provisioning_status v environ u).
Proof. unfold provisioning_status, _cached_agent_instance. keep. Qed.

Lemma keeps_snapshot_each a k us : keeps cache_sound (snapshot_each v environ a k us).
Proof. induction us; cbn [snapshot_each]; keep. Qed.
#[local] Hint Resolve keeps_snapshot_each : core.
Lemma keeps_tick g us a : keeps cache_sound (snapshot_tick v environ g us a).
Proof. unfold snapshot_tick. keep. Qed.

(** ** A process, from its start *)

Inductive operation :=
| Build (user_id : string) | BuildRoutine (routine_id owner : string) | Upgrade (user_id : string)
| Prune (user_id : string) | Status (user_id : string)
| Nightly (registered : bool) (requested : list string) (active_users : call W (list string)).

Definition perform (o : operation) (p : proc W) : proc W :=
  match o with
  | Build u => (build_environment v environ home u p).2
  | BuildRoutine r u => (build_routine_environment v environ r u p).2
  | Upgrade u => (provision_upgrade v environ u p).2
  | Prune u => (snapshot_and_prune v environ u p).2
  | Status u => (provisioning_status v environ u p).2
  | Nightly g us a => (snapshot_tick v environ g us a p).2
  end.

(** The caches are this process's; the service is shared, and may move in between. *)
Inductive reachable : proc W → Prop :=
| reach_start w : reachable (Proc [] [] w)
| reach_world p w : reachable p → reachable (Proc (_engine_cache p) (_template_cache p) w)
| reach_op o p : reachable p → reachable (perform o p).

Lemma keeps_perform {A} (m : call (proc W) A) p :
  keeps cache_sound m → cache_sound p → cache_sound (m p).2.
Proof. intros Hk Hp. destruct (m p) as [r p'] eqn:E. by eapply Hk. Qed.

Lemma reachable_sound p : reachable p → cache_sound p.
Proof.
  induction 1 as [w|p w Hp IH|o p Hp IH].
  - intros k n Hin. by apply elem_of_nil in Hin.
  - exact IH.
  - destruct o; cbn [perform]; (apply keeps_perform; [|done]).
    + apply keeps_build.
    + apply keeps_routine.
    + apply keeps_upgrade.
    + apply keeps_prune.
    + apply keeps_status.
    + apply keeps_tick.
Qed.

(** ** What is built *)

Lemma connected_spec n h r u c i p e p' :
  connected v n h r u c i p = (Ok e, p') →
  se_name e = n ∧ se_host e = h ∧ se_routing e = r ∧ se_owner e = u ∧ se_caller_sa e = c ∧
  se_internet e = i.
Proof. unfold connected. intros E. step_ok E t p1 Ht. by injection E as <- <-. Qed.

Lemma reattach_spec name c u p r p' :
  _reattach_or_none v name c u p = (Ok r, p') →
  match r with
  | Some e => name = Some (se_name e) ∧ (se_name e =? "")%string = false ∧ se_owner e = u ∧
              se_caller_sa e = c
  | None => True
  end.
Proof.
  unfold _reattach_or_none. destruct name as [n|]; [|by intros [= <- <-]].
  destruct (n =? "")%string eqn:En; [by intros [= <- <-]|]. intros E. step_ok E t p1 Ht.
  destruct t as [[[h rt] ref]|]; [|by injection E as <- <-].
  step_ok E i p2 Hi. step_ok E e p3 He. injection E as <- <-.
  by apply connected_spec in He as (-> & _ & _ & -> & -> & _).
Qed.

Lemma restore_spec a c u p r p' :
  _restore_from_snapshot_or_none v environ a u c p = (Ok r, p') →
  match r with Some e => se_owner e = u ∧ se_caller_sa e = c | None => True end.
Proof.
  unfold _restore_from_snapshot_or_none. destruct (snapshots_enabled environ); cbn [negb];
    [|by intros [= <- <-]].
  intros E. step_ok E f p1 Hf. destruct f as [[n d]|]; [|by injection E as <- <-].
  step_ok E pr p2 Hp. destruct pr as [ps|]; [|by injection E as <- <-].
  step_ok E e p3 He. injection E as <- <-.
  by apply connected_spec in He as (_ & _ & _ & -> & -> & _).
Qed.

Lemma fresh_spec a u c ia prior display p e pend p' :
  _provision_fresh_sandbox v environ a u (image_setting environ) c ia prior display p
    = (Ok (e, pend), p') →
  cache_sound p →
  (∃ n ps w w', serves a (image_setting environ) ia n ∧
     provision_sandbox cl a u n
       (Some (or_str (default "" display) (sandbox_display_name u (image_setting environ))))
       (Some (ttl_setting environ)) w = (Ok ps, w') ∧
     se_name e = ps_name ps ∧ se_host e = lb_host ps ∧ se_routing e = routing_token ps) ∧
  se_owner e = u ∧ se_caller_sa e = c ∧ se_internet e = ia ∧
  (∀ m, pend = Some m → prior = Some (source_name m) ∧ se_name (source_env m) = source_name m ∧
     se_owner (source_env m) = u).
Proof.
  unfold _provision_fresh_sandbox. intros E HI. step_ok E s p1 Hs. step_ok E n p2 Hn.
  step_ok E ps p3 Hp. step_ok E x p4 Hx. injection E as <- <- <-.
  apply connected_spec in Hx as (-> & -> & -> & -> & -> & ->).
  apply on_world_ok in Hp as [Hp _].
  assert (cache_sound p1) as HI1 by (by eapply keeps_reattach).
  split_and!; try done.
  - exists n, ps, (p_world p2), (p_world p3). split_and!; try done. by eapply template_for_serves.
  - intros m. apply reattach_spec in Hs. destruct s as [s|], prior as [pn|]; try done.
    destruct Hs as ([= ->] & -> & Ho & _). by intros [= <-].
Qed.

(** In production a user's environment is a sandbox or an error: the host is given
    only outside production, with nothing pending, when a setting is missing (and then
    nothing has been called) or the engine could not be resolved. A sandbox is owned by
    the user who asked, refreshes its token as the configured service account, and a
    migration it brings is of a sandbox attached for that same user. *)
Theorem never_local_in_prod user_id p e pend p' :
  reachable p →
  build_environment v environ home user_id p = (Ok (e, pend), p') →
  match e with
  | LocalEnvironment d =>
      _in_prod environ = false ∧ pend = None ∧ e = local_user environ home user_id ∧
      (missing_settings environ ≠ [] ∧ p' = p ∨
       missing_settings environ = [] ∧ ∃ x, resolve_engine v environ p = (Raise x, p'))
  | Sandboxed s =>
      missing_settings environ = [] ∧ se_owner s = user_id ∧
      se_caller_sa s = caller_setting environ ∧
      ∀ m, pend = Some m → se_name (source_env m) = source_name m ∧ se_owner (source_env m) = user_id
  end.
Proof.
  unfold build_environment. intros HI%reachable_sound. destruct (missing_settings environ) as [|x l].
  2: { destruct (_in_prod environ) eqn:Ep; [done|]. intros [= <- <- <-]. cbn. split_and!; try done. by left. }
  intros E. step_ok E eng p1 He. unfold catch, bind, ret in He.
  destruct (resolve_engine v environ p) as [[agent|x] q] eqn:Er; injection He as <- <-.
  2: { destruct (_in_prod environ) eqn:Ep; [done|]. injection E as <- <- <-. cbn. split_and!; eauto. }
  assert (cache_sound q) as HIq by (by eapply keeps_resolve).
  unfold build_on in E. cbv zeta in E. step_ok E latest p2 Hl. step_ok E att p3 Ha.
  assert (cache_sound p3) as HI3.
  { eapply keeps_reattach; [|exact Ha]. by eapply keeps_on_world. }
  apply reattach_spec in Ha. destruct att as [s|].
  { injection E as <- <- <-. destruct Ha as (_ & _ & -> & ->). by split_and!. }
  step_ok E rst p4 Hr.
  match type of Hr with (match ?x with _ => _ end) _ = _ => set (prior := x) in * end.
  assert (match rst with Some e => se_owner e = user_id ∧ se_caller_sa e = caller_setting environ
          | None => True end ∧ cache_sound p4) as [Hspec HI4].
  { destruct prior; [by injection Hr as <- <-|]. split; [by eapply restore_spec|by eapply keeps_restore]. }
  destruct rst as [s|]; [injection E as <- <- <-; by destruct Hspec as (-> & ->)|].
  step_ok E fr p5 Hf. destruct fr as [s m]. injection E as <- <- <-. cbn [fst snd].
  apply fresh_spec in Hf as (_ & -> & -> & _ & Hm); [|done].
  split_and!; try done. intros x Hx. by destruct (Hm x Hx) as (_ & -> & ->).
Qed.

(** An upgrade keeps the egress mode: in a process at any point of its life, the new
    sandbox is created from a template that serves the current image in the mode read
    off the prior sandbox's template, is labelled with that mode, and comes with a
    migration only from that prior sandbox, attached for the same user. *)
Theorem upgrade_keeps_egress user_id p ver e pend p' :
  reachable p →
  provision_upgrade v environ user_id p = (Ok (Provisioned_ ver e pend), p') →
  ∃ agent prior mode n ps q q1 w w',
    find_prior_user_sandbox cl agent user_id (image_setting environ) w = (Ok (Some prior), p_world q) ∧
    _sandbox_internet_access v prior (default_internet_access environ) q = (Ok mode, q1) ∧
    serves agent (image_setting environ) mode n ∧
    (provision_sandbox cl agent user_id n
       (Some (sandbox_display_name user_id (image_setting environ)))
       (Some (ttl_setting environ)) w').1 = Ok ps ∧
    se_name e = ps_name ps ∧ se_internet e = mode ∧ se_owner e = user_id ∧
    ∀ m, pend = Some m → source_name m = prior ∧ se_name (source_env m) = prior ∧
                         se_owner (source_env m) = user_id.
Proof.
  intros HI%reachable_sound. unfold provision_upgrade. destruct (will_provision environ); [|done].
  cbn [negb]. cbv zeta. intros E. step_ok E eng p1 He.
  assert (cache_sound p1) as HI1.
  { eapply (keeps_catch cache_sound); [| |exact HI|exact He]; [|intros ?]; keep. }
  destruct eng as [agent|]; [|done]. step_ok E cur p2 Hc.
  destruct (filled cur); [done|]. step_ok E prior p3 Hp.
  destruct prior as [prior|]; [|done]. cbn [filled] in E. destruct (prior =? "")%string; [done|].
  step_ok E mode p4 Hm. step_ok E fr p5 Hf. injection E as <- <- <- <-.
  destruct fr as [s m]. cbn [fst snd].
  assert (cache_sound p4) as HI4.
  { eapply keeps_egress; [|exact Hm]. eapply keeps_on_world; [|exact Hp]. by eapply keeps_on_world. }
  apply fresh_spec in Hf as ((n & ps & w & w' & Hs & Hps & Hn & _) & -> & _ & -> & Hmm); [|done].
  apply on_world_ok in Hp as [Hp _].
  exists agent, prior, mode, n, ps, p3, p4, (p_world p2), w. split_and!; try done.
  - change (or_str (default "" None) ?d) with d in Hps. by rewrite Hps.
  - intros x Hx. destruct (Hmm x Hx) as ([= ->] & -> & ->). done.
Qed.

(** The engine is looked up once: after a resolution, every later one in the process
    gives the same name without a call, and the status query sees it too. *)
Theorem engine_resolved_once p n p' :
  _resolve_sandbox_engine v environ p = (Ok n, p') → n ≠ "" →
  ∀ q, _engine_cache q = _engine_cache p' →
    _resolve_sandbox_engine v environ q = (Ok n, q) ∧
    _cached_agent_instance environ q = (Ok (Some n), q).
Proof.
  unfold _resolve_sandbox_engine, _cached_agent_instance.
  cbv zeta. destruct (negb (_ =? "")%string).
  { intros [= <- <-] _ q _. done. }
  intros E Hn q Hq. apply String.eqb_neq in Hn.
  unfold cached_engine, bind. cbn beta iota. rewrite Hq.
  enough (dget (_engine_cache p') (engine_display_name environ) = Some n) as Hd.
  { rewrite Hd. cbn [filled]. by rewrite Hn. }
  clear Hq q. step_ok E c p1 Hc. injection Hc as <- <-.
  destruct (filled _) as [m|] eqn:Ef.
  { injection E as <- <-. destruct (dget _ _) as [m'|]; [|done]. cbn in Ef.
    destruct (m' =? "")%string; [done|]. by injection Ef as ->. }
  step_ok E l p1 Hl. destruct (named_engine _ _) as [m|].
  { step_ok E u p2 Hu. injection E as <- <-. injection Hu as _ <-. apply dget_dset_eq. }
  destruct l.2; [done|]. step_ok E o p2 Ho. destruct (negb (truth _)); [done|].
  step_ok E u p3 Hu. injection E as <- <-. injection Hu as _ <-. apply dget_dset_eq.
Qed.

(** The runs of one night: each user's, in the state the one before left. *)
Inductive night (agent : string) (keep : Z) :
    list string → list (res snapshot_status) → W → W → Prop :=
| night_done w : night agent keep [] [] w w
| night_user u us r rs w w1 w2 :
    snapshot_and_prune_user cl agent u (snapshot_ttl_setting environ) keep w = (r, w1) →
    night agent keep us rs w1 w2 → night agent keep (u :: us) (r :: rs) w w2.

Definition is_snapped (r : res snapshot_status) : bool :=
  match r with Ok (Snapshotted _) => true | _ => false end.
Definition is_failed (r : res snapshot_status) : bool := match r with Raise _ => true | _ => false end.

(** The nightly pass never fails as a whole: every user's sandbox is tried once, in
    order, whatever befell the ones before; the report counts the snapshots taken and
    the passes that raised, and names the users of these. A night keeps at least one
    snapshot per user. *)
Theorem nightly_tries_everyone agent us p :
  (1 ≤ _keep environ)%Z ∧
  ∃ rs w', night agent (_keep environ) us rs (p_world p) w' ∧
    snapshot_each v environ agent (_keep environ) us p =
      (Ok (Tick (length (List.filter is_snapped rs)) (length (List.filter is_failed rs))
             (map fst (List.filter (λ ur, is_failed ur.2) (combine us rs)))),
       Proc (_engine_cache p) (_template_cache p) w').
Proof.
  split.
  { unfold _keep. destruct (py_int _); [lia|]. unfold DEFAULT_SNAPSHOT_KEEP. lia. }
  generalize (_keep environ) as keep. intros keep. revert p.
  induction us as [|u us IH]; intros p.
  { exists [], (p_world p). split; [constructor|]. by destruct p. }
  cbn [snapshot_each]. unfold bind at 1. unfold catch, bind at 1, on_world at 1.
  destruct (snapshot_and_prune_user cl agent u (snapshot_ttl_setting environ) keep (p_world p))
    as [r w1] eqn:Er.
  destruct (IH (Proc (_engine_cache p) (_template_cache p) w1)) as (rs & w' & Hn & Hs).
  exists (r :: rs), w'. split; [by econstructor|].
  destruct r as [[|k]|x]; unfold ret at 1; unfold bind; rewrite Hs; done.
Qed.
End Operations_facts.

(** ** The service's promises *)

(** What the theorem below relies on: queries change nothing; a listed object is
    hydrated as it is listed, under its name, and its fields are well-formed; a created
    sandbox is listed from then on, running, with the connection its operation
    reported, and is the most recent. *)
Class VertexLaws {W} (v : vertex W) := {
  list_total agent w : ∃ l, sandboxes_list (v_client v) agent w = (Ok l, w);
  listed_ok agent w l w' o : sandboxes_list (v_client v) agent w = (Ok l, w') → o ∈ l →
    (∃ n, getattr o "name" = OStr n ∧ n ≠ "" ∧ sandboxes_get (v_client v) n w = (Ok o, w)) ∧
    ∀ prefix, ∃ c, latest_candidate prefix o = Ok c;
  get_reads n w r w' : sandboxes_get (v_client v) n w = (r, w') → w' = w;
  template_reads n w r w' : templates_get (v_client v) n w = (r, w') → w' = w;
  template_ok n w t w' d : templates_get (v_client v) n w = (Ok t, w') →
    ∃ b, template_internet_access t d = Ok b;
  token_total sa w : ∃ t, generate_access_token (v_client v) sa w = (Ok t, w);
  created_listed agent cfg w op w' ps l :
    sandboxes_create (v_client v) agent cfg w = (Ok op, w') →
    _provisioned_from_operation op = Ok ps →
    sandboxes_list (v_client v) agent w = (Ok l, w) →
    ∃ o l', sandboxes_list (v_client v) agent w' = (Ok l', w') ∧ l' ≡ₚ o :: l ∧
      getattr o "name" = OStr (ps_name ps) ∧
      getattr o "display_name" = default ONone (table_get (c_fields cfg) "display_name") ∧
      sandbox_running o = Ok true ∧
      _connection_info_from_sandbox o = Some (lb_host ps, routing_token ps) ∧
      ∀ o', o' ∈ l → str_leb (create_time o) (create_time o') = false
}.

Section Rebuild.
Context {W : Type} (v : vertex W) `{!VertexLaws v} (environ : environment_vars) `{ExcAttr} `{Packaging}.
Context (home : string).
Abbreviation cl := (v_client v).

(** A sandbox that can be attached to, and where. *)
Definition attachable (n host routing : string) (w : W) : Prop :=
  ∃ o, sandboxes_get cl n w = (Ok o, w) ∧ sandbox_running o = Ok true ∧
       _connection_info_from_sandbox o = Some (host, routing).

Lemma try_reattach_ok n p h rt ref p' :
  _try_reattach v n p = (Ok (Some (h, rt, ref)), p') → attachable n h rt (p_world p) ∧ p' = p.
Proof.
  unfold _try_reattach. intros E. step_ok E got p1 Hg.
  apply attempt_ok in Hg. destruct got as [o|]; [|done].
  unfold on_world in Hg. destruct (sandboxes_get cl n (p_world p)) as [r w] eqn:Eg.
  injection Hg as -> <-. pose proof (get_reads _ _ _ _ Eg) as ->.
  step_ok E run p2 Hr. injection Hr as Hr <-. destruct run; [|done]. cbn [negb] in E.
  destruct (_connection_info_from_sandbox o) as [[h' rt']|] eqn:Ec; [|done].
  injection E as -> -> <- <-. split; [by exists o|by destruct p].
Qed.

Lemma attach_ok n h rt c u p :
  attachable n h rt (p_world p) → n ≠ "" →
  ∃ e, _reattach_or_none v (Some n) c u p = (Ok (Some e), p) ∧
    se_name e = n ∧ se_host e = h ∧ se_routing e = rt ∧ se_owner e = u.
Proof.
  intros (o & Hg & Hr & Hc) Hn%String.eqb_neq. unfold _reattach_or_none. rewrite Hn.
  unfold _try_reattach, bind at 1. unfold bind at 1, catch, bind at 1, on_world at 1. rewrite Hg.
  unfold bind at 1, lift, ret at 1. rewrite Hr. cbn [negb]. rewrite Hc.
  unfold ret at 1. set (ref := obj_str _).
  replace (Proc (_engine_cache p) (_template_cache p) (p_world p)) with p by (by destruct p).
  assert (∃ b, _template_internet_access v ref true p = (Ok b, p)) as [b Hb].
  { unfold _template_internet_access. destruct (ref =? "")%string; [by eexists|].
    unfold bind at 1, catch, bind, on_world.
    destruct (templates_get cl ref (p_world p)) as [[t|x] w] eqn:Et;
      pose proof (template_reads _ _ _ _ Et) as ->; cbn [ret].
    - destruct (template_ok _ _ _ _ true Et) as [b Hb]. exists b. unfold lift, ret. rewrite Hb.
      by destruct p.
    - exists true. by destruct p. }
  unfold bind at 1. rewrite Hb. unfold connected, bind, on_world, mint_sandbox_token.
  unfold bind. destruct (token_total c (p_world p)) as [t ->]. unfold ret.
  eexists. split; [by destruct p|done].
Qed.

Lemma collect_all {A} (f : obj → res (option A)) l :
  (∀ o, o ∈ l → ∃ c, f o = Ok c) →
  ∃ cs, collect f l = Ok cs ∧ ∀ c, c ∈ cs ↔ ∃ o, o ∈ l ∧ f o = Ok (Some c).
Proof.
  induction l as [|o l IH]; intros Hf.
  { exists []. split; [done|]. intros c. rewrite elem_of_nil. split; [done|].
    by intros (o & Ho%elem_of_nil & _). }
  destruct (Hf o) as [c Hc]; [left|]. destruct IH as (cs & Hcs & Hin); [intros; apply Hf; by right|].
  cbn. rewrite Hc, Hcs. cbn. eexists. split; [done|]. intros d.
  transitivity (c = Some d ∨ d ∈ cs).
  { destruct c; [rewrite elem_of_cons; naive_solver|naive_solver]. }
  rewrite Hin. split.
  - intros [->|(o' & Ho & E)]; [exists o; split; [left|done]|exists o'; split; [by right|done]].
  - intros (o' & [->|Ho]%elem_of_cons & E); [left; congruence|right; by exists o'].
Qed.

Lemma latest_candidate_time prefix o c :
  latest_candidate prefix o = Ok (Some c) → c.1.1 = create_time o.
Proof.
  unfold latest_candidate. destruct (has_prefix _ _) as [[]|]; cbn; try done.
  destruct (_sandbox_is_running o) as [[]|]; cbn; try done. unfold named.
  destruct (truth _); [|done]. by intros [= <-].
Qed.

(** A sandbox just created for a user is the latest of that user. *)
Lemma created_is_latest agent user_id cfg op w w' ps d :
  sandboxes_create cl agent cfg w = (Ok op, w') → _provisioned_from_operation op = Ok ps →
  table_get (c_fields cfg) "display_name" = Some (OStr d) →
  startswith (_user_display_prefix user_id) d = true →
  find_latest_user_sandbox cl agent user_id w' = (Ok (Some (ps_name ps, d)), w') ∧
  attachable (ps_name ps) (lb_host ps) (routing_token ps) w' ∧ ps_name ps ≠ "".
Proof.
  intros Hc Hps Hd Hpre. destruct (list_total (v:=v) agent w) as [l Hl].
  destruct (created_listed _ _ _ _ _ _ _ Hc Hps Hl) as (o & l' & Hl' & Hperm & Hn & Hdn & Hrun & Hconn & Hnew).
  rewrite Hd in Hdn. cbn in Hdn.
  destruct (listed_ok (v:=v) agent w' l' w' o Hl') as [(n & Hn' & Hne & Hget) _]; [rewrite Hperm; left|].
  rewrite Hn in Hn'. injection Hn' as <-. split_and!; [|by exists o|done].
  destruct (collect_all (latest_candidate (_user_display_prefix user_id)) l') as (cs & Hcs & Hin).
  { intros x Hx. by apply (listed_ok (v:=v) agent w' l' w' x Hl'). }
  assert (latest_candidate (_user_display_prefix user_id) o
    = Ok (Some (create_time o, ps_name ps, d))) as Hlc.
  { unfold latest_candidate, has_prefix. rewrite Hdn.
    assert (truth (OStr d) = true) as ->.
    { cbn. destruct (String.eqb_spec d "") as [->|]; [|done]. done. }
    cbn [obj_startswith res_bind]. rewrite Hpre. cbn [negb].
    change (_sandbox_is_running o) with (sandbox_running o). rewrite Hrun. cbn [res_bind].
    unfold named. rewrite Hn. cbn [truth obj_str]. apply String.eqb_neq in Hne. by rewrite Hne. }
  unfold find_latest_user_sandbox, bind, lift, ret. rewrite Hl', Hcs.
  pose proof (newest_first_sorted cs) as Hs. pose proof (newest_first_perm cs) as Hp.
  assert ((create_time o, ps_name ps, d) ∈ _newest_first cs) as Hmem.
  { rewrite Hp. apply Hin. exists o. split; [rewrite Hperm; left|done]. }
  destruct (_newest_first cs) as [|c m]; [by apply elem_of_nil in Hmem|].
  assert (c = (create_time o, ps_name ps, d)) as ->; [|done].
  apply elem_of_cons in Hmem as [->|Hmem]; [done|].
  apply StronglySorted_inv in Hs as [_ Hs]. rewrite Forall_forall in Hs.
  destruct (Hs _ Hmem) as [Hle _]. cbn [fst] in Hle.
  assert (c ∈ cs) as (o' & Ho' & Ec)%Hin by (rewrite <- Hp; left).
  rewrite Hperm in Ho'. apply elem_of_cons in Ho' as [->|Ho']; [congruence|].
  apply latest_candidate_time in Ec. rewrite Ec, Hnew in Hle by done. done.
Qed.

Lemma provisioned_created agent owner template d ttl w ps w' :
  provision_sandbox cl agent owner template (Some d) ttl w = (Ok ps, w') → d ≠ "" →
  ∃ cfg op, sandboxes_create cl agent cfg w = (Ok op, w') ∧
    _provisioned_from_operation op = Ok ps ∧ table_get (c_fields cfg) "display_name" = Some (OStr d).
Proof.
  unfold provision_sandbox. intros E Hd%String.eqb_neq. rewrite Hd in E.
  destruct (template =? "")%string; [done|]. cbv zeta in E.
  step_ok E cfg w1 Hc. step_ok E op w2 Ho. unfold lift in *. injection Hc as Hc <-.
  injection E as E <-. exists cfg, op. split_and!; try done.
  unfold with_ttl in Hc. destruct ttl as [t|]; [|by injection Hc as <-].
  destruct (t =? "")%string; [by injection Hc as <-|].
  destruct (_normalize_ttl t); [|done]. by injection Hc as <-.
Qed.

Lemma connected_world n h r u c i p e p' :
  connected v n h r u c i p = (Ok e, p') → p_world p' = p_world p.
Proof.
  unfold connected. intros E. step_ok E t p1 Ht. injection E as _ <-.
  unfold on_world, mint_sandbox_token, bind in Ht.
  destruct (token_total c (p_world p)) as [t' Et]. rewrite Et in Ht. cbn in Ht. by injection Ht as _ <-.
Qed.

Lemma find_latest_reads agent u p r p' :
  on_world (find_latest_user_sandbox cl agent u) p = (Ok r, p') →
  find_latest_user_sandbox cl agent u (p_world p) = (Ok r, p_world p) ∧ p' = p.
Proof.
  unfold on_world. destruct (list_total (v:=v) agent (p_world p)) as [l Hl].
  unfold find_latest_user_sandbox, bind, lift. rewrite Hl.
  destruct (collect _ l); cbn; [|done]. intros [= <- <-]. split; [done|by destruct p].
Qed.

(** What a build that gave a sandbox leaves: the sandbox is the user's latest, above
    the floor, and can be attached to. *)
Lemma built_is_latest agent u image c p s pend p' :
  snapshots_enabled environ = false →
  version_below_floor (sandbox_display_name u image) (env_stripped environ "LHA_RUNTIME_MIN_VERSION") = false →
  build_on v environ agent u image c p = (Ok (Sandboxed s, pend), p') →
  ∃ d, find_latest_user_sandbox cl agent u (p_world p') = (Ok (Some (se_name s, d)), p_world p') ∧
    version_below_floor d (env_stripped environ "LHA_RUNTIME_MIN_VERSION") = false ∧
    attachable (se_name s) (se_host s) (se_routing s) (p_world p') ∧ se_name s ≠ "".
Proof.
  intros Hsn Hfl E. unfold build_on in E. cbv zeta in E. step_ok E latest p1 Hl.
  apply find_latest_reads in Hl as [Hl ->]. step_ok E att p2 Ha.
  destruct att as [e|].
  - injection E as <- <- <-. destruct latest as [[n d]|]; [|by injection Ha].
    destruct (negb _ && version_below_floor d _) eqn:Eb; [by injection Ha|].
    cbn [option_map fst] in Ha. unfold _reattach_or_none in Ha.
    destruct (n =? "")%string eqn:En; [by injection Ha|]. step_ok Ha t q Ht.
    destruct t as [[[h rt] ref]|]; [|by injection Ha].
    apply try_reattach_ok in Ht as [Hat ->]. step_ok Ha i q1 Hi. step_ok Ha x q2 Hx.
    injection Ha as <- <-. pose proof (connected_world _ _ _ _ _ _ _ _ _ Hx) as Hw.
    assert (p_world q1 = p_world p) as Hq1.
    { unfold _template_internet_access in Hi. destruct (ref =? "")%string; [by injection Hi as _ <-|].
      step_ok Hi t q3 Ht3. apply attempt_ok in Ht3. unfold on_world in Ht3.
      destruct (templates_get cl ref (p_world p)) as [r w] eqn:Et.
      pose proof (template_reads _ _ _ _ Et) as ->.
      assert (q3 = p) as -> by (destruct t; [by injection Ht3 as _ <-; destruct p|];
        destruct Ht3 as [x' [= _ <-]]; by destruct p).
      destruct t; by injection Hi as _ <-. }
    apply connected_spec in Hx as (-> & -> & -> & _). rewrite Hw, Hq1. exists d.
    split_and!; [done| |done|by apply String.eqb_neq].
    apply andb_false_iff in Eb as [Eb|Eb]; [|done]. unfold version_below_floor.
    by destruct (_ =? "")%string.
  - step_ok E rst p3 Hr.
    match type of Hr with (match ?x with _ => _ end) _ = _ => set (prior := x) in * end.
    assert (rst = None) as ->.
    { destruct prior; [by injection Hr|]. unfold _restore_from_snapshot_or_none in Hr.
      rewrite Hsn in Hr. by injection Hr. }
    step_ok E fr p4 Hf. destruct fr as [e m]. injection E as <- <- <-.
    unfold _provision_fresh_sandbox in Hf. step_ok Hf x p5 Hx. step_ok Hf t p6 Ht.
    step_ok Hf ps p7 Hp. step_ok Hf y p8 Hy. injection Hf as <- <- <-.
    apply on_world_ok in Hp as [Hp _].
    change (or_str (default "" None) ?d) with d in Hp.
    apply provisioned_created in Hp as (cfg & op & Hcr & Hpr & Hd); [|done].
    pose proof (connected_world _ _ _ _ _ _ _ _ _ Hy) as ->.
    apply connected_spec in Hy as (-> & -> & -> & _).
    exists (sandbox_display_name u image).
    destruct (created_is_latest _ u _ _ _ _ _ _ Hcr Hpr Hd) as (? & ? & ?); [|done].
    unfold sandbox_display_name. apply startswith_app.
Qed.

(** A sandbox is found again. Once a user has been given a sandbox, attached or created,
    any process that sees the service as that build left it, whatever its caches, gives
    the user the same sandbox on the same connection and creates nothing: the service
    is left as it was. *)
Theorem rebuild_reattaches agent user_id p p1 s pend p' q q1 :
  snapshots_enabled environ = false →
  version_below_floor (sandbox_display_name user_id (image_setting environ))
    (env_stripped environ "LHA_RUNTIME_MIN_VERSION") = false →
  resolve_engine v environ p = (Ok agent, p1) →
  build_environment v environ home user_id p = (Ok (Sandboxed s, pend), p') →
  resolve_engine v environ q = (Ok agent, q1) → p_world q1 = p_world p' →
  ∃ s2, build_environment v environ home user_id q = (Ok (Sandboxed s2, None), q1) ∧
    se_name s2 = se_name s ∧ se_host s2 = se_host s ∧ se_routing s2 = se_routing s ∧
    se_owner s2 = user_id.
Proof.
  intros Hsn Hfl Hr E Hq Hw. unfold build_environment in *.
  destruct (missing_settings environ) as [|x l]; [|by destruct (_in_prod environ)].
  unfold catch, bind, ret in E. rewrite Hr in E.
  apply built_is_latest in E as (d & Hlat & Hb & Hat & Hn); [|done..].
  unfold catch at 1, bind at 1 2, ret at 1. rewrite Hq.
  rewrite <- Hw in Hlat, Hat.
  unfold build_on, bind at 1, on_world at 1. rewrite Hlat. cbv zeta. rewrite Hb, andb_false_r.
  cbn [option_map fst].
  replace (Proc (_engine_cache q1) (_template_cache q1) (p_world q1)) with q1 by (by destruct q1).
  destruct (attach_ok _ _ _ (caller_setting environ) user_id q1 Hat Hn) as (e & He & ? & ? & ? & ?).
  unfold bind at 1. rewrite He. exists e. split_and!; try done.
Qed.
End Rebuild.

(** ** A service in memory *)

(** Its state: the sandboxes, the newest first, as display name and template. *)
Definition shelf : Type := list (string * obj).

Fixpoint ticks (n : nat) : string := match n with O => "" | S m => String "x" (ticks m) end.

Definition shelf_obj (d : string) (t : obj) (k : nat) : obj :=
  OObj [("name", OStr ("s/" +:+ ticks k)); ("display_name", OStr d);
        ("sandbox_environment_template", t); ("state", OStr "STATE_RUNNING");
        ("create_time", OStr (ticks (S k)));
        ("connection_info", OObj [("load_balancer_hostname", OStr "lb"); ("routing_token", OStr "rt")] "")]
       "".
Fixpoint shelf_objs (w : shelf) : list obj :=
  match w with
  | [] => []
  | (d, t) :: w' => shelf_obj d t (length w') :: shelf_objs w'
  end.

Definition shelf_get (n : string) (w : shelf) : res obj * shelf :=
  (match List.find (λ o, eq_str (getattr o "name") n) (shelf_objs w) with
   | Some o => Ok o
   | None => Raise (OtherError "ApiError" "404")
   end, w).

Definition shelf_client : client shelf :=
  let no {A} : res A := Raise (OtherError "ApiError" "not offered") in
  {| sandboxes_list _ w := (Ok (shelf_objs w), w);
     sandboxes_get := shelf_get;
     sandboxes_create _ cfg w :=
       match table_get (c_fields cfg) "display_name" with
       | Some (OStr d) =>
           (Ok (OObj [("response", shelf_obj d ONone (length w))] ""),
            (d, default ONone (table_get (c_fields cfg) "sandbox_environment_template")) :: w)
       | _ => (no, w)
       end;
     sandboxes_delete _ w := (no, w); snapshots_list _ w := (Ok [], w);
     snapshots_create _ _ w := (no, w); snapshots_delete n w := (no, w);
     templates_list _ w := (Ok [], w);
     templates_get n w := (Ok (OObj [("display_name", OStr n)] ""), w);
     templates_create _ d _ w := (Ok (OObj [("response", OObj [("name", OStr d)] "")] ""), w);
     generate_access_token _ w := (Ok (OStr "token"), w) |}.

Definition shelf_vertex : vertex shelf :=
  {| v_client := shelf_client; client_new _ _ w := (Ok tt, w);
     engines_list w := (([OObj [("api_resource", OObj [("display_name", OStr "lha-sandbox-host");
                                                       ("name", OStr "e/1")] "")] ""], None), w);
     engines_create d w := (Raise (OtherError "ApiError" d), w) |}.

Lemma slen_ticks n : slen (ticks n) = n.
Proof. induction n as [|n IH]; [done|]. cbn. by rewrite IH. Qed.

Lemma ticks_after m n : m < n → str_leb (ticks n) (ticks m) = false.
Proof.
  revert n. induction m as [|m IH]; intros [|n] Hmn; try lia; [done|]. cbn. apply IH. lia.
Qed.

Lemma shelf_objs_in o w :
  o ∈ shelf_objs w → ∃ d t k, o = shelf_obj d t k ∧ k < length w ∧ shelf_get ("s/" +:+ ticks k) w = (Ok o, w).
Proof.
  induction w as [|[d t] w IH]; cbn [shelf_objs]; [by intros ?%elem_of_nil|].
  intros [->|Ho]%elem_of_cons.
  - exists d, t, (length w). split_and!; [done|cbn; lia|]. unfold shelf_get. cbn [shelf_objs List.find].
    assert (eq_str (getattr (shelf_obj d t (length w)) "name") ("s/" +:+ ticks (length w)) = true) as ->
      by (apply String.eqb_refl). done.
  - destruct (IH Ho) as (d' & t' & k & -> & Hk & Hg). exists d', t', k. split_and!; [done|cbn; lia|].
    unfold shelf_get in *. cbn [shelf_objs List.find].
    assert (eq_str (getattr (shelf_obj d t (length w)) "name") ("s/" +:+ ticks k) = false) as ->.
    { apply String.eqb_neq. intros E. apply (f_equal slen) in E. rewrite !slen_app, !slen_ticks in E.
      cbn in E. lia. }
    apply (f_equal fst) in Hg. cbn [fst] in Hg. by rewrite Hg.
Qed.

#[global] Instance shelf_laws : VertexLaws shelf_vertex.
Proof.
  split.
  - intros agent w. by eexists.
  - intros agent w l w' o [= <- <-] Ho. destruct (shelf_objs_in _ _ Ho) as (d & t & k & -> & _ & Hg).
    split; [by exists ("s/" +:+ ticks k)|]. intros prefix. unfold latest_candidate, has_prefix.
    change (getattr (shelf_obj d t k) "display_name") with (OStr d).
    destruct (truth (OStr d)); cbn [obj_startswith res_bind negb]; [|by eexists].
    destruct (startswith prefix d); cbn [negb]; by eexists.
  - intros n w r w'. cbn. by intros [= _ <-].
  - intros n w r w'. cbn. by intros [= _ <-].
  - intros n w t w' d. cbn. intros [= <- <-]. unfold template_internet_access.
    change (or_else (getattr (OObj [("display_name", OStr n)] "") "display_name") (OStr ""))
      with (if truth (OStr n) then OStr n else OStr "").
    cbn [attr_or_item getattr table_get is_none is_odict negb]. 
    destruct (truth (OStr n)); cbn [obj_endswith res_bind];
      repeat (destruct (endswith _ _); [by eexists|]); by eexists.
  - intros sa w. by eexists.
  - intros agent cfg op_w op w' ps l Hc Hps Hl. cbn in Hc, Hl. injection Hl as <-.
    destruct (table_get (c_fields cfg) "display_name") as [[]|] eqn:Ed; try done.
    injection Hc as <- <-. cbn in Hps. injection Hps as <-. set (t := default ONone (table_get (c_fields cfg) "sandbox_environment_template")).
    exists (shelf_obj s t (length op_w)), (shelf_objs ((s, t) :: op_w)).
    split_and!; try done.
    intros o' Ho. destruct (shelf_objs_in _ _ Ho) as (d & t' & k & -> & Hk & _).
    apply ticks_after. cbn. lia.
Qed.

(** ** Concrete inputs *)

Definition demo_vars : environment_vars :=
  [("GOOGLE_CLOUD_PROJECT", "p"); ("LHA_RUNTIME_IMAGE", "img:v2"); ("LHA_SANDBOX_CALLER_SA", "sa@p");
   ("K_SERVICE", "backend")].
Definition no_attrs : ExcAttr := λ _ _, ONone.
Definition no_versions : Packaging := λ _ _, None.
Definition cold (w : shelf) : proc shelf := Proc [] [] w.

Definition demo_build (vars : environment_vars) (u : string) : call (proc shelf) (environment * option PendingMigration) :=
  build_environment (H0:=no_versions) shelf_vertex vars "/root" u.

Definition ann_env : sandbox_env :=
  SandboxEnvironment "s/" "lb" "rt" "token" "ann" "sa@p" 1800 false.

(** The first build creates; the second, in another process, attaches. *)
Example builds_once :
  let '(r, p) := demo_build demo_vars "ann" (cold []) in
  r = Ok (Sandboxed ann_env, None) ∧ demo_build demo_vars "ann" (cold (p_world p)) =
    (Ok (Sandboxed ann_env, None), Proc [("lha-sandbox-host", "e/1")] [] (p_world p)).
Proof. vm_compute. split; reflexivity. Qed.

(** Ann's sandbox of the version before, with egress, and its upgrade. *)
Definition before_upgrade : shelf := [("lha-ann-v1", OStr "lha-default-net")].
Definition upgraded : call (proc shelf) UpgradeProvision :=
  provision_upgrade shelf_vertex demo_vars "ann".
Definition ann_env2 : sandbox_env :=
  SandboxEnvironment "s/x" "lb" "rt" "token" "ann" "sa@p" 1800 true.
Definition ann_env1 : sandbox_env :=
  SandboxEnvironment "s/" "lb" "rt" "token" "ann" "sa@p" 1800 true.

Lemma never_local_in_prod_witness :
  _in_prod demo_vars = true ∧
  (missing_settings demo_vars = [] ∧ se_owner ann_env = "ann" ∧
   se_caller_sa ann_env = caller_setting demo_vars ∧
   ∀ m : PendingMigration, None = Some m →
     se_name (source_env m) = source_name m ∧ se_owner (source_env m) = "ann").
Proof.
  split; [reflexivity|].
  apply (never_local_in_prod (H:=no_attrs) (H0:=no_versions) shelf_vertex demo_vars "/root" "ann"
    (cold []) (Sandboxed ann_env) None (demo_build demo_vars "ann" (cold [])).2).
  - apply reach_start.
  - vm_compute. reflexivity.
Defined.

Lemma upgrade_keeps_egress_witness :
  (upgraded (cold before_upgrade)).1 = Ok (Provisioned_ "v2" ann_env2 (Some (Pending ann_env1 "s/"))) ∧
  ∃ agent prior mode n ps q q1 w w',
    find_prior_user_sandbox shelf_client agent "ann" (image_setting demo_vars) w = (Ok (Some prior), p_world q) ∧
    _sandbox_internet_access shelf_vertex prior (default_internet_access demo_vars) q = (Ok mode, q1) ∧
    serves shelf_vertex agent (image_setting demo_vars) mode n ∧
    (provision_sandbox shelf_client agent "ann" n
       (Some (sandbox_display_name "ann" (image_setting demo_vars)))
       (Some (ttl_setting demo_vars)) w').1 = Ok ps ∧
    se_name ann_env2 = ps_name ps ∧ se_internet ann_env2 = mode ∧ se_owner ann_env2 = "ann" ∧
    ∀ m, Some (Pending ann_env1 "s/") = Some m → source_name m = prior ∧ se_name (source_env m) = prior ∧
                         se_owner (source_env m) = "ann".
Proof.
  split; [vm_compute; reflexivity|].
  apply (upgrade_keeps_egress (H:=no_attrs) (H0:=no_versions) shelf_vertex demo_vars "/root" "ann"
    (cold before_upgrade) "v2" ann_env2 (Some (Pending ann_env1 "s/"))
    (upgraded (cold before_upgrade)).2).
  - apply reach_start.
  - vm_compute. reflexivity.
Defined.

Lemma engine_resolved_once_witness :
  _resolve_sandbox_engine shelf_vertex demo_vars (cold []) =
    (Ok "e/1", Proc [("lha-sandbox-host", "e/1")] [] []) ∧
  ∀ q, _engine_cache q = [("lha-sandbox-host", "e/1")] →
    _resolve_sandbox_engine shelf_vertex demo_vars q = (Ok "e/1", q) ∧
    _cached_agent_instance demo_vars q = (Ok (Some "e/1"), q).
Proof.
  split; [vm_compute; reflexivity|].
  apply (engine_resolved_once shelf_vertex demo_vars (cold []) "e/1"
    (Proc [("lha-sandbox-host", "e/1")] [] [])); [vm_compute; reflexivity|done].
Defined.

Lemma rebuild_reattaches_witness :
  ∃ s2, build_environment (H0:=no_versions) shelf_vertex demo_vars "/root" "ann"
          (cold (p_world (demo_build demo_vars "ann" (cold [])).2))
        = (Ok (Sandboxed s2, None),
           Proc [("lha-sandbox-host", "e/1")] [] (p_world (demo_build demo_vars "ann" (cold [])).2)) ∧
    se_name s2 = se_name ann_env ∧ se_host s2 = se_host ann_env ∧ se_routing s2 = se_routing ann_env ∧
    se_owner s2 = "ann".
Proof.
  apply (rebuild_reattaches (H0:=no_versions) shelf_vertex demo_vars "/root" "e/1" "ann" (cold [])
    (Proc [("lha-sandbox-host", "e/1")] [] []) ann_env None (demo_build demo_vars "ann" (cold [])).2);
    vm_compute; reflexivity.
Defined.

(** The number of snapshots to keep is read in two ways: a keep of zero is clamped to
    one by the nightly pass and taken as it is by the provider, which then deletes the
    snapshot it has just made; and a superscript is a digit but no number. *)
Example keep_zero_disagrees :
  let vars := [("LHA_SNAPSHOT_KEEP", "0")] in _keep vars = 1%Z ∧ keep_setting vars = Ok 0%Z.
Proof. vm_compute. split; reflexivity. Qed.

Example keep_superscript_raises :
  ∃ e, keep_setting [("LHA_SNAPSHOT_KEEP", s1 (ascii_of_nat 178))] = Raise e.
Proof. vm_compute. by eexists. Qed.

(** With an image below the floor every build provisions anew: the sandbox just made is
    below it too. *)
Example floor_above_image_reprovisions :
  let below : Packaging := λ _ _, Some true in
  let vars := ("LHA_RUNTIME_MIN_VERSION", "3") :: demo_vars in
  let build := build_environment (H0:=below) shelf_vertex vars "/root" "ann" in
  let '(r, p) := build (cold []) in
  length (p_world p) = 1 ∧ length (p_world (build p).2) = 2 ∧
  length (p_world (build (build p).2).2) = 3.
Proof. vm_compute. split_and!; reflexivity. Qed.
