(* ===== verification/Memory.v ===== *)
(** * Memory: [memory/] without its forks, [api/memories.py], [tools/past_sessions.py]

    What is written into the memory bank, and how it comes back: the [memory] tool, the
    adapters' listing, the profile, the preloaded block, what of an event is replayed into
    the bank, and the search of past sessions. The bank itself and the session service are
    parameters. *)

From stdpp Require Import sorting.
From S2P Require Import Prelude PyStr Names Regex RegexFacts PyVal Sorting Environ Telemetry Models.

(** ** Events *)

Record blob := Blob { mime_type : option string; display_name : option string }.
Record part := Part { p_text : option string; inline_data : option blob }.
Record content := Content { c_role : option string; c_parts : list part }.
Record event := Event {
  e_author : option string; e_content : option content; e_timestamp : option Q; custom_metadata : pydict
}.
(** [getattr(content, "parts", None) or []] *)
Definition parts_of (c : option content) : list part := match c with Some c => c_parts c | None => [] end.
(** [part.text], where it is set and not empty. *)
Definition nonempty (o : option string) : option string :=
  match o with Some s => if (s =? "")%string then None else Some s | None => None end.
Definition text_of (p : part) : option string := nonempty (p_text p).

(** ** What may be remembered: [_content_safety.py] *)

Definition MEMORY_CHAR_LIMIT : nat := 2200.
Definition USER_CHAR_LIMIT : nat := 1375.

Definition _MEMORY_THREAT_PATTERNS : list (string * string) := [
  ("ignore\s+(previous|all|above|prior)\s+instructions", "prompt_injection");
  ("you\s+are\s+now\s+", "role_hijack");
  ("do\s+not\s+tell\s+the\s+user", "deception_hide");
  ("system\s+prompt\s+override", "sys_prompt_override");
  ("disregard\s+(your|all|any)\s+(instructions|rules|guidelines)", "disregard_rules");
  ("act\s+as\s+(if|though)\s+you\s+(have\s+no|don't\s+have)\s+(restrictions|limits|rules)", "bypass_restrictions");
  ("curl\s+[^\n]*\$\{?\w*(KEY|TOKEN|SECRET|PASSWORD|CREDENTIAL|API)", "exfil_curl");
  ("wget\s+[^\n]*\$\{?\w*(KEY|TOKEN|SECRET|PASSWORD|CREDENTIAL|API)", "exfil_wget");
  ("cat\s+[^\n]*(\.env|credentials|\.netrc|\.pgpass|\.npmrc|\.pypirc)", "read_secrets");
  ("authorized_keys", "ssh_backdoor");
  ("\$HOME/\.ssh|\~/\.ssh", "ssh_access")].

(** [scan_memory_content]. The ten invisible characters it looks for first lie beyond
    Latin-1. *)
Definition scan_memory_content (content : string) : option string :=
  first_some (λ p, if re_found IGNORECASE (re_of p.1) content
    then Some ("Blocked: content matches threat pattern '" +:+ p.2 +:+ "'. Memory entries are surfaced as context to "
               +:+ "future turns and must not contain injection or exfiltration payloads.")
    else None) _MEMORY_THREAT_PATTERNS.

(** ** The [memory] tool: [add_memory_tool.py], [_writer.py] *)

Definition _VALID_SCOPES : list string := ["agent"; "user"].
Definition _SCOPE_PREFIX : list (string * string) := [("agent", "[agent] "); ("user", "[user] ")].
Definition _char_limit (scope : string) : nat := if (scope =? "user")%string then USER_CHAR_LIMIT else MEMORY_CHAR_LIMIT.
Definition _scoped_text (scope text : string) : string := default "" (dget _SCOPE_PREFIX scope) +:+ text.

Definition refused (error : string) : pydict := [("success", PBool false); ("error", PStr error)].

(** The memory service, as the tool calls it, over a state [M]: what a search returns, and
    the events added for a user's session. *)
Record memory_service M := MemoryService {
  search_memory : M → string → string → string → res (list (option content));
  add_events_to_memory : M → string → string → string → event → res M
}.
Arguments search_memory {M}. Arguments add_events_to_memory {M}.

Section Writer.
Context {M : Type} (service : memory_service M) (app_name user_id session_id : string).

Definition has_entry (needle : string) (memories : list (option content)) : bool :=
  existsb (λ c, existsb (λ p, match text_of p with Some t => (strip t =? needle)%string | None => false end) (parts_of c))
    memories.
Definition entry_exists (m : M) (text : string) : res bool :=
  let! memories := search_memory service m app_name user_id text in Ok (has_entry (strip text) memories).
Definition memory_event (text scope : string) (author : string) : event :=
  Event (Some author) (Some (Content None [Part (Some text) None])) None [("lha_memory_scope", PStr scope)].
Definition write_memory_event (m : M) (text scope author : string) : res M :=
  add_events_to_memory service m app_name user_id session_id (memory_event text scope author).

Definition add_memory_entry (m : M) (text scope : string) : res (pydict * M) :=
  if negb (mem scope _VALID_SCOPES)
  then Ok (refused ("Invalid scope " +:+ repr_str scope +:+ ". Use one of: " +:+ join ", " _VALID_SCOPES +:+ "."), m)
  else
    let cleaned := strip text in
    if (cleaned =? "")%string then Ok (refused "Content cannot be empty.", m)
    else
      let limit := _char_limit scope in
      if limit <? slen cleaned
      then Ok (refused ("Content is " +:+ str_of_nat (slen cleaned) +:+ " chars; " +:+ scope +:+ " scope limit is "
                        +:+ str_of_nat limit +:+ ". Shorten the entry or split it across multiple writes."), m)
      else
        match scan_memory_content cleaned with
        | Some scan_error => Ok (refused scan_error, m)
        | None =>
            let scoped := _scoped_text scope cleaned in
            let! known := entry_exists m scoped in
            if known
            then Ok ([("success", PBool true); ("scope", PStr scope);
                      ("message", PStr "Entry already in memory (no duplicate added).")], m)
            else
              let! m' := write_memory_event m scoped scope (if (scope =? "user")%string then "user" else "system") in
              Ok ([("success", PBool true); ("scope", PStr scope); ("message", PStr "Entry added.")], m')
        end.
End Writer.

(** ** The search of past sessions: [tools/past_sessions.py] *)

Definition DEFAULT_INDEX_LIMIT : Z := 20.
Definition MAX_INDEX_LIMIT : Z := 50.
Definition DEFAULT_EVENT_LIMIT : Z := 100.
Definition MAX_EVENT_LIMIT : Z := 200.
Definition TITLE_KEY : string := "lha_chat_title".
Definition TITLE_MAX_LEN : nat := 80.
Definition EVENT_TEXT_MAX_LEN : nat := 800.

Record session := Session {
  s_id : string; s_state : pydict; s_events : list event; last_update_time : Q; s_user : string
}.

(** [text.strip().splitlines()[0][:TITLE_MAX_LEN]] *)
Definition first_line (text : string) : string := stake TITLE_MAX_LEN (default "" (head (splitlines (strip text)))).
Definition not_blank (o : option string) : option string :=
  match o with Some s => if (strip s =? "")%string then None else Some s | None => None end.
Definition event_title (e : event) : option string :=
  if bool_decide (e_author e = Some "user")
  then first_some (λ p, first_line <$> not_blank (p_text p)) (parts_of (e_content e)) else None.
Definition _derive_title (s : session) : string :=
  match not_blank (get_str (s_state s) TITLE_KEY) with
  | Some explicit => stake TITLE_MAX_LEN (strip explicit)
  | None => default "Untitled chat" (first_some event_title (s_events s))
  end.
Definition _started_at (s : session) : Q := default (last_update_time s) (first_some e_timestamp (s_events s)).
Definition _event_text (e : event) : option string :=
  match omap (λ p, strip <$> not_blank (p_text p)) (parts_of (e_content e)) with
  | [] => None
  | chunks =>
      let joined := join NLs chunks in
      Some (if EVENT_TEXT_MAX_LEN <? slen joined then stake EVENT_TEXT_MAX_LEN joined +:+ ellipsis else joined)
  end.
Definition _normalize_author (author : option string) : string :=
  if bool_decide (author = Some "user") then "user" else "assistant".

(** The session service: the sessions of one user, without their events and one with them. *)
Record session_reader := SessionReader {
  list_sessions : string → res (list session);
  get_session : string → string → res (option session)
}.

Definition cap_of (limit : option Z) (dflt most : Z) : nat :=
  let wanted := match limit with Some l => if (l =? 0)%Z then dflt else l | None => dflt end in
  Z.to_nat (Z.min (Z.max wanted 1) most).
(** [stubs.sort(key=last_update_time, reverse=True)] *)
Definition newest_first (l : list session) : list session :=
  sort_by (λ a b, Qle_bool (last_update_time b) (last_update_time a)) l.

Section Past.
Context (svc : session_reader) (user_id : string) (current : option string).

Definition index_row (stub : session) : option session :=
  match get_session svc user_id (s_id stub) with Ok (Some full) => Some full | _ => None end.
Definition index_stubs (cap : nat) (sessions : list session) : list session :=
  take cap (newest_first (List.filter (λ s, bool_decide (Some (s_id s) ≠ current)) sessions)).
Definition row_json (full : session) : pyval :=
  PDict [("session_id", PStr (s_id full)); ("started_at", PFloat (_started_at full)); ("title", PStr (_derive_title full))].
Definition event_json (e : event) : option pyval :=
  (λ t, PDict [("author", PStr (_normalize_author (e_author e))); ("text", PStr t);
               ("timestamp", PFloat (default 0%Q (e_timestamp e)))]) <$> _event_text e.
(** [l[-n:]] for a positive [n]. *)
Definition last_n {A} (n : nat) (l : list A) : list A := drop (length l - n) l.

Definition recall_past_sessions_entries (session_id : option string) (limit : option Z) : pydict :=
  match session_id with
  | None =>
      match list_sessions svc user_id with
      | Raise e => refused ("list_sessions failed: " +:+ exc_text e)
      | Ok sessions =>
          let out := map row_json (omap index_row (index_stubs (cap_of limit DEFAULT_INDEX_LIMIT MAX_INDEX_LIMIT) sessions)) in
          [("success", PBool true); ("mode", PStr "index"); ("sessions", PList out);
           ("count", PInt (Z.of_nat (length out)))]
      end
  | Some sid =>
      if bool_decide (session_id = current)
      then refused "Refusing to read the current session; you already have its events in context."
      else
        match get_session svc user_id sid with
        | Raise e => refused ("get_session failed: " +:+ exc_text e)
        | Ok None => refused ("Session " +:+ repr_str sid +:+ " not found for this user.")
        | Ok (Some full) =>
            let cap := cap_of limit DEFAULT_EVENT_LIMIT MAX_EVENT_LIMIT in
            let events := omap event_json (s_events full) in
            let truncated := cap <? length events in
            let shown := if truncated then last_n cap events else events in
            [("success", PBool true); ("mode", PStr "drill"); ("session_id", PStr (s_id full));
             ("title", PStr (_derive_title full)); ("events", PList shown);
             ("event_count", PInt (Z.of_nat (length shown))); ("truncated", PBool truncated)]
        end
  end.
End Past.

(** The tool: [recorded] says that the write goes to the log of the UI. *)
Section Tool.
Context {M : Type} (service : option (memory_service M)) (sessions : option session_reader)
  (app_name user_id session_id : string).

Definition memory (m : M) (action : string) (text : option string) (scope : string)
    (past : option string) (limit : option Z) : res (pydict * M * bool) :=
  if (action =? "search")%string then
    match sessions with
    | None => Ok (refused "Session service is not configured for this runtime.", m, false)
    | Some svc => Ok (recall_past_sessions_entries svc user_id (Some session_id) past limit, m, false)
    end
  else if negb (action =? "add")%string
  then Ok (refused ("Unknown action " +:+ repr_str action +:+ "; use 'add' or 'search'."), m, false)
  else match nonempty text, service with
       | None, _ => Ok (refused "content is required for action='add'.", m, false)
       | Some _, None => Ok (refused "Memory service is not configured for this runtime.", m, false)
       | Some c, Some svc =>
           let! r := add_memory_entry svc app_name user_id session_id m c scope in
           Ok (r.1, r.2, truthy (get r.1 "success"))
       end.
End Tool.

(** ** The profile: [user_profile.py] *)

Definition _BULLETS : regex := re_of "^(?:[-*+]\s+)+".
Fixpoint clean_from (seen : list string) (items : list pyval) : list string :=
  match items with
  | [] => []
  | PStr item :: rest =>
      let text := strip (re_sub noflags _BULLETS "" (strip item)) in
      if (text =? "")%string || mem (lower text) seen then clean_from seen rest
      else text :: clean_from (lower text :: seen) rest
  | _ :: rest => clean_from seen rest
  end.
Definition _clean_list (value : pyval) : list string :=
  match value with PStr _ => clean_from [] [value] | PList l => clean_from [] l | _ => [] end.

Section Profile.
Context `{PyFloat}.

(** [str(profile.get(k) or "").strip()] *)
Definition profile_text (profile : pydict) (k : string) : string :=
  let v := get profile k in strip (if truthy v then py_str v else "").
Definition _render_profile (profile : pydict) (include_lists : bool) : string :=
  let summary := profile_text profile "summary" in
  let role := profile_text profile "role" in
  let style := profile_text profile "working_style" in
  let blank (s : string) := (s =? "")%string in
  let show_lists := include_lists || (blank summary && blank role && blank style) in
  let interests := if show_lists then _clean_list (get profile "interests") else [] in
  let facts := if show_lists then _clean_list (get profile "durable_facts") else [] in
  let fields :=
    (if blank role then [] else [("Role", role)])
    ++ match interests with [] => [] | _ => [("Interests", join ", " interests)] end
    ++ (if blank style then [] else [("Working style", style)]) in
  let head := if blank summary then [] else [summary] in
  let body := map (λ f, "- **" +:+ f.1 +:+ ":** " +:+ f.2) fields ++ map (λ f, "- " +:+ f) facts in
  let sep := match body, head with _ :: _, _ :: _ => [""] | _, _ => [] end in
  strip (join NLs (head ++ sep ++ body)).

(** [load_user_profile]; [retrieve] is the adapter's [retrieve_profile]. *)
Definition load_user_profile (retrieve : string → string → option pydict) (app_name user_id : string)
    (include_lists : bool) : string :=
  if (app_name =? "")%string || (user_id =? "")%string then ""
  else match retrieve app_name user_id with
       | None | Some [] => ""
       | Some profile => _render_profile profile include_lists
       end.
Definition render_user_profile (state : option pydict) : string :=
  match state with
  | None | Some [] => ""
  | Some st =>
      let profile := get st "user_profile" in
      let text := strip (py_str profile) in
      if negb (truthy profile) || (text =? "")%string then "" else "## User Profile" +:+ NLs +:+ NLs +:+ text
  end.
End Profile.

(** ** Listing: [adapter.py], [memory_list.py] *)

Definition _FETCH_CAP : nat := 500.
Definition _MARKERS : list (string * string) :=
  [("[user_profile]", "user_profile"); ("[user] ", "user"); ("[agent] ", "agent")].
Record MemoryWriteEntry := Entry { scope : string; m_content : string; ts_ms : Z; m_session_id : option string }.

Definition is_newline (c : ascii) : bool := Ascii.eqb c NL.
Definition parse_marker (text : string) : option (string * string) :=
  first_some (λ m, if startswith m.1 text
    then Some (m.2, rstrip is_space (lstrip is_newline (sdrop (slen m.1) text))) else None) _MARKERS.

(** [int(ts * 1000) if ts else 0] *)
Definition millis (ts : option Q) : Z :=
  match ts with Some q => Z.quot (Qnum q * 1000) (Zpos (Qden q)) | None => 0%Z end.

(** [InMemoryMemoryAdapter.list_all]: the events it holds for the user, by session. *)
Definition event_entry (session_id : string) (e : event) : option MemoryWriteEntry :=
  match omap text_of (parts_of (e_content e)) with
  | [] => None
  | texts =>
      '(sc, body) ← parse_marker (join NLs texts);
      Some (Entry sc body (millis (e_timestamp e)) (Some session_id))
  end.
Definition in_memory_list (sessions : list (string * list event)) : list MemoryWriteEntry :=
  flat_map (λ s, omap (event_entry s.1) s.2) sessions.

(** [VertexMemoryAdapter.list_all]: the facts of the first page, with their times. *)
Definition fact_entry (f : option string * option Q) : option MemoryWriteEntry :=
  match nonempty f.1 with
  | None => None
  | Some text =>
      match parse_marker text with
      | Some (sc, body) => Some (Entry sc body (millis f.2) None)
      | None => if (strip text =? "")%string then None else Some (Entry "user" (strip text) (millis f.2) None)
      end
  end.
Definition vertex_list (page : list (option string * option Q)) : list MemoryWriteEntry := take _FETCH_CAP (omap fact_entry page).

(** The concrete services [memory_adapter] tells apart. *)
Inductive bank :=
| Vertex_bank (page : list (option string * option Q)) (profile : res (option pydict))
| In_memory_bank (sessions : list (string * list event))
| Other_bank.
Definition supports_profiles (b : bank) : bool := match b with Vertex_bank _ _ => true | _ => false end.
Definition retrieve_profile (b : bank) (_ _ : string) : option pydict :=
  match b with Vertex_bank _ (Ok (Some ((_ :: _) as p))) => Some p | _ => None end.
Definition list_all (b : bank) : list MemoryWriteEntry :=
  match b with Vertex_bank page _ => vertex_list page | In_memory_bank s => in_memory_list s | Other_bank => [] end.

Definition by_time (a b : MemoryWriteEntry) : bool := (ts_ms b <=? ts_ms a)%Z.
(** [reverse()], then the stable [sort(reverse=True)]. *)
Definition newest_entries (l : list MemoryWriteEntry) : list MemoryWriteEntry := sort_by by_time (rev l).
Definition count_scope (counts : list (string * Z)) (e : MemoryWriteEntry) : list (string * Z) :=
  dset counts (scope e) (default 0 (dget counts (scope e)) + 1)%Z.
Definition zero_counts : list (string * Z) := [("user", 0); ("agent", 0); ("user_profile", 0)]%Z.

Record MemoryListResult := Listing { entries : list MemoryWriteEntry; counts : list (string * Z); has_more : bool }.

Definition list_memory_writes `{PyFloat} (b : bank) (app_name user_id : string) (limit offset : nat) : MemoryListResult :=
  let all_entries := newest_entries (list_all b) in
  let cs := fold_left count_scope all_entries zero_counts in
  let page := take limit (drop offset all_entries) in
  let more := offset + limit <? length all_entries in
  let profile := if offset =? 0 then load_user_profile (retrieve_profile b) app_name user_id true else "" in
  if (profile =? "")%string then Listing page cs more
  else
    let newest_ts := match all_entries with [] => 0%Z | e :: l => fold_left (λ t e, Z.max t (ts_ms e)) l (ts_ms e) end in
    let pinned := Entry "user_profile" profile newest_ts None in
    Listing (pinned :: page) (count_scope cs pinned) more.

(** ** What is replayed: [content_sanitizer.py] *)

Definition _EXTRACTABLE_PREFIXES : list string := ["image/"].
Definition _EXTRACTABLE_EXACT : list string := ["application/pdf"].
Definition _extractor_can_ingest (mime : option string) : bool :=
  match nonempty mime with
  | None => false
  | Some m =>
      let base := lower (strip (before_first ";" m)) in
      mem base _EXTRACTABLE_EXACT || existsb (λ p, startswith p base) _EXTRACTABLE_PREFIXES
  end.
Definition _placeholder (b : blob) : part :=
  let mime := default "unknown" (nonempty (mime_type b)) in
  let label := match nonempty (display_name b) with Some name => strip (mime +:+ " " +:+ name) | None => mime end in
  Part (Some ("[attachment omitted: " +:+ label +:+ "]")) None.
Definition foreign (p : part) : bool :=
  match inline_data p with Some b => negb (_extractor_can_ingest (mime_type b)) | None => false end.
Definition sanitize_part (p : part) : part :=
  match inline_data p with
  | Some b => if _extractor_can_ingest (mime_type b) then p else _placeholder b
  | None => p
  end.
Definition sanitize_content_for_memory (c : option content) : option content :=
  match c with
  | None => None
  | Some c => if existsb foreign (c_parts c) then Some (Content (c_role c) (map sanitize_part (c_parts c))) else Some c
  end.

(** ** What is preloaded: [preload.py] *)

Definition _HEADER : string :=
  "The following content is from your previous conversations with the user." +:+ NLs
  +:+ "They may be useful for answering the user's current query.".
Definition DEFAULT_MAX_MEMORIES : Z := 20.
Definition DEFAULT_MAX_CHARS : Z := 4000.
Definition _int_env (environ : environment_vars) (name : string) (dflt : Z) : Z :=
  let raw := env_get environ name in
  match if (raw =? "")%string then Some dflt else int10 raw with
  | Some value => if (0 <? value)%Z then value else dflt
  | None => dflt
  end.

(** A memory a search returned; [found_text] is what [extract_text] makes of it. *)
Record found_memory := Found { found_at : option string; found_author : option string; found_text : string }.
Definition memory_lines (m : found_memory) : list string :=
  match nonempty (found_at m) with Some t => ["Time: " +:+ t] | None => [] end
  ++ if (found_text m =? "")%string then []
     else [match nonempty (found_author m) with Some a => a +:+ ": " +:+ found_text m | None => found_text m end].
Definition _TRUNCATED : string := NLs +:+ "[" +:+ ellipsis +:+ "truncated]".
Definition preload_block (environ : environment_vars) (memories : list found_memory) : option string :=
  match memories with
  | [] => None
  | _ =>
      match flat_map memory_lines (take (Z.to_nat (_int_env environ "LHA_PRELOAD_MAX_MEMORIES" DEFAULT_MAX_MEMORIES)) memories) with
      | [] => None
      | lines =>
          let body := join NLs lines in
          let max_chars := Z.to_nat (_int_env environ "LHA_PRELOAD_MAX_CHARS" DEFAULT_MAX_CHARS) in
          let kept := if max_chars <? slen body then stake max_chars body +:+ _TRUNCATED else body in
          Some (_HEADER +:+ NLs +:+ "<PAST_CONVERSATIONS>" +:+ NLs +:+ kept +:+ NLs +:+ "</PAST_CONVERSATIONS>")
      end
  end.
(** [process_llm_request]: on the contents of the request. *)
Definition process_llm_request (environ : environment_vars) (user_content : option content)
    (search : string → res (list found_memory)) (contents : list content) : list content :=
  match user_content with
  | Some (Content _ (p :: _)) =>
      match text_of p with
      | None => contents
      | Some query =>
          match search query with
          | Raise _ => contents
          | Ok memories => match preload_block environ memories with
                           | None => contents
                           | Some block => contents ++ [Content (Some "user") [Part (Some block) None]]
                           end
          end
      end
  | _ => contents
  end.

(** * Facts *)

(** ** Writing *)

Section Writing.
Context {M : Type} (service : memory_service M) (app_name user_id session_id : string).
Abbreviation add := (add_memory_entry service app_name user_id session_id).

Lemma scope_valid sc : mem sc _VALID_SCOPES = true → sc = "agent" ∨ sc = "user".
Proof. unfold mem, _VALID_SCOPES. cbn. rewrite orb_false_r. intros [E|E]%orb_true_iff; apply String.eqb_eq in E; auto. Qed.

(** The accepted contents. *)
Definition admissible (text sc : string) : Prop :=
  mem sc _VALID_SCOPES = true ∧ strip text ≠ "" ∧ slen (strip text) ≤ _char_limit sc ∧
  scan_memory_content (strip text) = None.

(** What may be remembered. A call of the memory tool to add a fact either is refused and
    leaves the bank as it was, or the fact is admissible: of one of the two scopes, not
    blank, within the limit of its scope and free of every threat pattern; then the bank is
    left as it was if it has this very entry, and otherwise gets one event, with the
    marker of the scope before the stripped fact. If the bank finds an event it was given
    when searched for its text, the same call again adds nothing. *)
Theorem memory_write_guarded m text sc reply m' :
  add m text sc = Ok (reply, m') →
  (get reply "success" = PBool false ∧ ¬ admissible text sc ∧ m' = m ∨
   get reply "success" = PBool true ∧ admissible text sc ∧
     let scoped := _scoped_text sc (strip text) in
     (entry_exists service app_name user_id m scoped = Ok true ∧ m' = m ∨
      entry_exists service app_name user_id m scoped = Ok false ∧
      ∃ author, add_events_to_memory service m app_name user_id session_id (memory_event scoped sc author) = Ok m')) ∧
  ((∀ m1 m2 t a, add_events_to_memory service m1 app_name user_id session_id (memory_event t sc a) = Ok m2 →
      ∃ found, search_memory service m2 app_name user_id t = Ok found ∧
        ∃ c p, Some c ∈ found ∧ p ∈ c_parts c ∧ p_text p = Some t) →
   get reply "success" = PBool true → ∃ reply', add m' text sc = Ok (reply', m')).
Proof.
  unfold add_memory_entry, admissible.
  destruct (mem sc _VALID_SCOPES) eqn:Hsc; cbn [negb];
    [|intros [= <- <-]; split; [left; split_and!; [done|by intros [? _]|done]|done]].
  destruct (strip text =? "")%string eqn:Hb.
  { apply String.eqb_eq in Hb. intros [= <- <-]. split; [|done]. left. split_and!; [done|by intros (_ & ? & _)|done]. }
  apply String.eqb_neq in Hb. destruct (_char_limit sc <? slen (strip text)) eqn:Hl.
  { apply Nat.ltb_lt in Hl. intros [= <- <-]. split; [|done]. left.
    split_and!; [done|intros (_ & _ & ? & _); lia|done]. }
  apply Nat.ltb_ge in Hl. destruct (scan_memory_content (strip text)) as [why|] eqn:Hs.
  { intros [= <- <-]. split; [|done]. left. split_and!; [done|by intros (_ & _ & _ & ?)|done]. }
  set (scoped := _scoped_text sc (strip text)).
  destruct (entry_exists service app_name user_id m scoped) as [[]|e] eqn:Hk; [| |done]; cbn [res_bind].
  - intros [= <- <-]. split; [right; split_and!; auto|]. intros _ _. eexists. rewrite Hk. cbn. done.
  - destruct (write_memory_event _ _ _ _ _ _ _ _) as [m1|e] eqn:Hw; [|done]. cbn [res_bind]. intros [= <- <-].
    split; [right; split_and!; auto; right; split; [done|by eexists]|]. intros Hlaw _.
    destruct (Hlaw _ _ _ _ Hw) as (found & Hf & c & p & Hc & Hp & Ht).
    assert (entry_exists service app_name user_id m1 scoped = Ok true) as ->; [|by eexists].
    unfold entry_exists. rewrite Hf. cbn [res_bind]. f_equal. unfold has_entry.
    apply (elem_of_existsb _ _ (Some c)); [done|]. apply (elem_of_existsb _ _ p); [done|].
    unfold text_of. rewrite Ht. cbn. destruct (scoped =? "")%string eqn:E.
    + apply String.eqb_eq in E. unfold scoped, _scoped_text in E. apply sapp_eq_nil in E as [_ ?]. done.
    + apply String.eqb_refl.
Qed.
End Writing.

(** ** Reading back *)

Lemma lstrip_strip_nl s : lstrip is_newline (strip s) = strip s.
Proof.
  unfold strip, strip_by. destruct (lstrip_head is_space s) as [->|(c & t & -> & Hc)]; [done|].
  destruct (rstrip_head is_space c t Hc) as [u ->]. cbn. unfold is_newline.
  destruct (Ascii.eqb c NL) eqn:Ec; [|done]. apply Ascii.eqb_eq in Ec as ->. done.
Qed.
Lemma rstrip_strip s : rstrip is_space (strip s) = strip s.
Proof. unfold strip, strip_by. apply rstrip_idem. Qed.
Lemma marker_roundtrip sc text : mem sc _VALID_SCOPES = true →
  parse_marker (_scoped_text sc (strip text)) = Some (sc, strip text).
Proof.
  assert (∀ sc u, sc = "agent" ∨ sc = "user" →
    parse_marker (_scoped_text sc u) = Some (sc, rstrip is_space (lstrip is_newline u))) as Hparse by by intros ? ? [-> | ->].
  intros Hsc%scope_valid. by rewrite Hparse, lstrip_strip_nl, rstrip_strip.
Qed.

Lemma newest_sorted (R : MemoryWriteEntry → MemoryWriteEntry → Prop) l : StronglySorted R (rev l) →
  StronglySorted (lex by_time R) (newest_entries l).
Proof.
  apply sort_by_lex; unfold by_time.
  - intros a b. destruct (Z.le_ge_cases (ts_ms b) (ts_ms a)) as [?|?]; [left|right]; by apply Z.leb_le.
  - intros a b c H1%Z.leb_le H2%Z.leb_le. apply Z.leb_le. lia.
Qed.
Lemma newest_perm l : newest_entries l ≡ₚ l.
Proof. unfold newest_entries. by rewrite sort_by_perm, <- Permutation_rev. Qed.

Lemma pages_concat {A} (l : list A) (limit n : nat) :
  concat (map (λ i, take limit (drop (i * limit) l)) (seq 0 n)) = take (n * limit) l.
Proof.
  induction n as [|n IH]; [done|]. rewrite seq_S, map_app, concat_app, IH. cbn.
  rewrite app_nil_r. replace (limit + n * limit) with (n * limit + limit) by lia. by rewrite take_take_drop.
Qed.

Lemma written_entry sid t sc a : t ≠ "" → event_entry sid (memory_event t sc a) =
  match parse_marker t with Some (sc', body) => Some (Entry sc' body 0 (Some sid)) | None => None end.
Proof.
  intros Ht%String.eqb_neq. unfold event_entry. cbn -[parse_marker]. unfold text_of. cbn -[parse_marker]. rewrite Ht.
  cbn -[parse_marker]. by destruct (parse_marker t) as [[? ?]|].
Qed.

Section Listing.
Context `{PyFloat} (b : bank) (app_name user_id : string).
Abbreviation page limit offset := (list_memory_writes b app_name user_id limit offset).
(** The profile's entry, where there is a profile. *)
Definition pinned : list MemoryWriteEntry :=
  let profile := load_user_profile (retrieve_profile b) app_name user_id true in
  if (profile =? "")%string then []
  else [Entry "user_profile" profile
          (match newest_entries (list_all b) with [] => 0%Z | e :: l => fold_left (λ t e, Z.max t (ts_ms e)) l (ts_ms e) end) None].
Lemma page_entries limit offset : entries (page limit offset) =
  (if offset =? 0 then pinned else []) ++ take limit (drop offset (newest_entries (list_all b))).
Proof.
  unfold list_memory_writes, pinned. destruct (offset =? 0); [|done].
  by destruct (load_user_profile (retrieve_profile b) app_name user_id true =? "")%string.
Qed.
Lemma page_counts limit offset : counts (page limit offset) =
  fold_left count_scope (if offset =? 0 then pinned else []) (fold_left count_scope (newest_entries (list_all b)) zero_counts).
Proof.
  unfold list_memory_writes, pinned. destruct (offset =? 0); [|done].
  by destruct (load_user_profile (retrieve_profile b) app_name user_id true =? "")%string.
Qed.
Lemma page_more limit offset : has_more (page limit offset) = (offset + limit <? length (list_all b)).
Proof.
  unfold list_memory_writes. rewrite (Permutation_length (newest_perm (list_all b))).
  by destruct (_ =? "")%string.
Qed.

Definition total (c : list (string * Z)) : Z := fold_right Z.add 0%Z (map snd c).
Lemma total_dset c k v : total (dset c k v) = (total c - default 0 (dget c k) + v)%Z.
Proof.
  induction c as [|[k' v'] c IH]; unfold total in *; cbn; [lia|]. destruct (k =? k')%string; cbn; [lia|]. rewrite IH. lia.
Qed.
Lemma total_count c e : total (count_scope c e) = (total c + 1)%Z.
Proof. unfold count_scope. rewrite total_dset. lia. Qed.
Lemma total_counts l c : total (fold_left count_scope l c) = (total c + Z.of_nat (length l))%Z.
Proof. revert c. induction l as [|e l IH]; intros c; cbn [fold_left length]; [lia|]. rewrite IH, total_count. lia. Qed.

(** The list of memories is paged without loss. Asked page by page, it gives every entry of
    the bank once, newest first and of one time the last written first, with the profile,
    if there is one, before them on the first page; it says that there is more exactly
    while there is; and its counts always sum to the number of entries, and of the profile
    on the page that has it. What the tool wrote is among them, with its scope and its
    stripped text. *)
Theorem memories_paged limit : 0 < limit →
  (∀ n, length (list_all b) ≤ n * limit → 0 < n →
     concat (map (λ i, entries (page limit (i * limit))) (seq 0 n)) = pinned ++ newest_entries (list_all b)) ∧
  newest_entries (list_all b) ≡ₚ list_all b ∧
  (∀ R, StronglySorted R (rev (list_all b)) → StronglySorted (lex by_time R) (newest_entries (list_all b))) ∧
  (∀ offset, has_more (page limit offset) = true ↔ take limit (drop (offset + limit) (newest_entries (list_all b))) ≠ []) ∧
  (∀ offset, total (counts (page limit offset)) =
     Z.of_nat (length (list_all b) + if offset =? 0 then length pinned else 0)) ∧
  (∀ sessions sid es sc text author, b = In_memory_bank sessions → (sid, es) ∈ sessions → mem sc _VALID_SCOPES = true →
     strip text ≠ "" → memory_event (_scoped_text sc (strip text)) sc author ∈ es →
     Entry sc (strip text) 0 (Some sid) ∈ newest_entries (list_all b)).
Proof.
  intros Hl. split_and!; [|apply newest_perm|intros R; apply newest_sorted| | |].
  - intros n Hn Hpos. destruct n as [|n]; [lia|]. cbn [seq map concat]. rewrite page_entries. cbn [Nat.mul Nat.eqb].
    rewrite <- (take_ge (newest_entries (list_all b)) (S n * limit)) at 2
      by by rewrite (Permutation_length (newest_perm (list_all b))).
    rewrite <- pages_concat. cbn [seq map concat Nat.mul]. rewrite app_assoc. f_equal.
    f_equal. apply list_eq_same_length with (n := length (seq 1 n)); rewrite ?length_map; [done..|].
    intros i x y _. rewrite !list_lookup_fmap. destruct (seq 1 n !! i) as [k|] eqn:Hk; [|done].
    apply lookup_seq in Hk as [-> _]. cbn. intros [= <-] [= <-]. rewrite page_entries.
    destruct limit; [lia|]. done.
  - intros offset. rewrite page_more, Nat.ltb_lt. rewrite <- (Permutation_length (newest_perm (list_all b))).
    split.
    + intros Hlt E. apply (f_equal length) in E. rewrite length_take, length_drop in E. cbn in E. lia.
    + intros Hne. destruct (decide (offset + limit < length (newest_entries (list_all b)))); [done|].
      rewrite drop_ge in Hne by lia. by rewrite take_nil in Hne.
  - intros offset. rewrite page_counts, !total_counts, (Permutation_length (newest_perm (list_all b))).
    change (total zero_counts) with 0%Z. destruct (offset =? 0); cbn [length]; lia.
  - intros sessions sid es sc text author -> Hs Hsc Hne He. rewrite newest_perm. cbn [list_all]. unfold in_memory_list.
    apply list_elem_of_In, in_flat_map. exists (sid, es). split; [by apply list_elem_of_In|]. apply list_elem_of_In.
    apply list_elem_of_omap. exists (memory_event (_scoped_text sc (strip text)) sc author). split; [done|].
    rewrite written_entry, marker_roundtrip by (done || by intros [_ ?]%sapp_eq_nil). done.
Qed.
End Listing.

(** ** What the bank is given *)

Lemma foreign_false p : foreign p = false ↔ ∀ b, inline_data p = Some b → _extractor_can_ingest (mime_type b) = true.
Proof.
  unfold foreign. destruct (inline_data p) as [b|]; [|by split]. rewrite negb_false_iff.
  split; [intros Hb b' [= <-]; done|auto].
Qed.
Lemma sanitize_part_ok p : foreign (sanitize_part p) = false ∧ (foreign p = false → sanitize_part p = p).
Proof.
  unfold sanitize_part, foreign. destruct (inline_data p) as [b|] eqn:Hb; [|by rewrite Hb].
  destruct (_extractor_can_ingest (mime_type b)) eqn:He; cbn; [by rewrite Hb, He|]. by split.
Qed.

(** Nothing foreign is replayed into the bank. Of a sanitized content every attachment is of
    a kind the extractor takes; it has as many parts, in their places, and every part that
    was no foreign attachment is as it was, while a foreign one is a text that says so; a
    content without foreign attachments, or none, is returned itself, and sanitizing again
    changes nothing. *)
Theorem sanitized_ingestible c :
  let c' := sanitize_content_for_memory c in
  Forall (λ p, ∀ b, inline_data p = Some b → _extractor_can_ingest (mime_type b) = true) (parts_of c') ∧
  length (parts_of c') = length (parts_of c) ∧
  (∀ i p, parts_of c !! i = Some p → ∃ p', parts_of c' !! i = Some p' ∧
     (foreign p = false → p' = p) ∧
     (foreign p = true → inline_data p' = None ∧ ∃ t, p_text p' = Some ("[attachment omitted: " +:+ t +:+ "]"))) ∧
  (existsb foreign (parts_of c) = false → c' = c) ∧
  sanitize_content_for_memory c' = c' ∧ (c_role <$> c') = (c_role <$> c).
Proof.
  cbn zeta. destruct c as [[role ps]|]; [|by split_and!; try done; constructor].
  unfold sanitize_content_for_memory, parts_of. cbn [c_parts c_role].
  assert (existsb foreign (map sanitize_part ps) = false) as Hclean.
  { apply existsb_false. intros x (p & -> & _)%list_elem_of_fmap. apply sanitize_part_ok. }
  destruct (existsb foreign ps) eqn:Ef; cbn [c_parts c_role]; rewrite ?Hclean, ?Ef.
  - split_and!; try done; [|by rewrite length_map|].
    + apply Forall_forall. intros p Hp. apply foreign_false. rewrite existsb_false in Hclean. by apply Hclean.
    + intros i p Hi. exists (sanitize_part p). rewrite list_lookup_fmap, Hi. split; [done|].
      split; [apply sanitize_part_ok|]. intros Hf. unfold foreign in Hf. unfold sanitize_part.
      destruct (inline_data p) as [b|]; [|done]. destruct (_extractor_can_ingest (mime_type b)); [done|].
      split; [done|]. unfold _placeholder. cbn. by eexists.
  - split_and!; try done.
    + apply Forall_forall. intros p Hp. apply foreign_false. rewrite existsb_false in Ef. by apply Ef.
    + intros i p Hi. exists p. split; [done|]. split; [done|]. intros Hf. exfalso.
      rewrite existsb_false in Ef. rewrite (Ef p) in Hf by by eapply list_elem_of_lookup_2. done.
Qed.

(** ** What the model is given *)

Lemma int_env_pos (environ : environment_vars) name d : (0 < d)%Z → (0 < _int_env environ name d)%Z.
Proof.
  intros Hd. unfold _int_env. destruct (if (_ =? _)%string then _ else _) as [v|]; [|done]. by destruct (0 <? v)%Z eqn:E; [apply Z.ltb_lt|].
Qed.

(** C30. The preloaded memories are bounded, and ride behind the cached prefix. A request keeps
    its contents, with at most one user's content after them; its text has at most the
    configured number of characters of memories, 4000 unless the variable is a positive
    number, besides a fixed frame; nothing is added without a query, without memories or
    when the search fails. *)
Theorem preload_bounded environ user_content search contents :
  process_llm_request environ user_content search contents = contents ∨
  ∃ query memories block,
    match parts_of user_content with p :: _ => text_of p | [] => None end = Some query ∧ search query = Ok memories ∧ memories ≠ [] ∧
    process_llm_request environ user_content search contents = contents ++ [Content (Some "user") [Part (Some block) None]] ∧
    slen block ≤ slen _HEADER + 44 + slen _TRUNCATED + Z.to_nat (_int_env environ "LHA_PRELOAD_MAX_CHARS" DEFAULT_MAX_CHARS).
Proof.
  unfold process_llm_request. destruct user_content as [[role [|p ps]]|]; [by left| |by left].
  destruct (text_of p) as [query|] eqn:Ht; [|by left]. destruct (search query) as [memories|e] eqn:Hs; [|by left].
  destruct (preload_block environ memories) as [block|] eqn:Hb; [right|by left].
  exists query, memories, block. split_and!; [done..|by destruct memories|done|].
  revert Hb. unfold preload_block. destruct memories as [|m0 memories]; [done|].
  destruct (flat_map _ _) as [|l0 lines]; [done|]. generalize (join NLs (l0 :: lines)). intros body [= <-].
  set (max_chars := Z.to_nat (_int_env environ "LHA_PRELOAD_MAX_CHARS" DEFAULT_MAX_CHARS)).
  assert (∀ kept, slen kept ≤ slen _TRUNCATED + max_chars → slen (_HEADER +:+ NLs +:+ "<PAST_CONVERSATIONS>" +:+ NLs +:+
    kept +:+ NLs +:+ "</PAST_CONVERSATIONS>") ≤ slen _HEADER + 44 + slen _TRUNCATED + max_chars) as Hlen.
  { intros kept Hk. rewrite !slen_app.
    change (slen NLs) with 1. change (slen "<PAST_CONVERSATIONS>") with 20. change (slen "</PAST_CONVERSATIONS>") with 21. lia. }
  apply Hlen. destruct (max_chars <? slen body) eqn:E.
  - rewrite slen_app, slen_stake. lia.
  - apply Nat.ltb_ge in E. lia.
Qed.

(** ** Past sessions *)

Lemma omap_length {A B} (f : A → option B) l : length (omap f l) ≤ length l.
Proof. induction l as [|x l IH]; [done|]. cbn. destruct (f x); cbn; lia. Qed.
Lemma cap_of_range limit d most : (1 ≤ most)%Z → 1 ≤ cap_of limit d most ≤ Z.to_nat most.
Proof. intros Hm. unfold cap_of. destruct limit as [l|]; [destruct (l =? 0)%Z|]; lia. Qed.
Lemma cap_of_within limit d most : (0 < limit ≤ most)%Z → cap_of (Some limit) d most = Z.to_nat limit.
Proof. intros Hl. unfold cap_of. destruct (Z.eqb_spec limit 0); lia. Qed.

(** The search of past sessions never shows the current one, and is bounded. An index lists at
    most fifty sessions, and a drill at most two hundred events, the last ones; no listed
    session is the current one and each is one of the user's as the service lists them;
    drilling into the current session is refused without a look at it. A session that
    fails to load is left out of the index. *)
Theorem past_sessions_bounded svc user_id current session_id limit :
  let r := recall_past_sessions_entries svc user_id (Some current) session_id limit in
  (∀ user sid s, get_session svc user sid = Ok (Some s) → s_id s = sid) →
  match session_id with
  | Some sid =>
      (sid = current → get r "success" = PBool false) ∧
      (∀ s, sid ≠ current → get_session svc user_id sid = Ok (Some s) → ∃ before shown,
         omap event_json (s_events s) = before ++ shown ∧ get r "events" = PList shown ∧ length shown ≤ 200 ∧
         (get r "truncated" = PBool true ↔ before ≠ []))
  | None =>
      ∀ sessions, list_sessions svc user_id = Ok sessions → ∃ rows,
        get r "sessions" = PList (map row_json rows) ∧ length rows ≤ 50 ∧
        Forall (λ s, s_id s ≠ current ∧ (∃ stub, stub ∈ sessions ∧ s_id stub = s_id s) ∧
                     get_session svc user_id (s_id s) = Ok (Some s)) rows
  end.
Proof.
  cbn zeta. intros Hid. unfold recall_past_sessions_entries. destruct session_id as [sid|].
  - split.
    + intros ->. by rewrite bool_decide_true.
    + intros s Hne Hs. rewrite bool_decide_false by congruence. rewrite Hs.
      pose proof (cap_of_range limit DEFAULT_EVENT_LIMIT MAX_EVENT_LIMIT ltac:(done)) as Hcap.
      set (cap := cap_of _ _ _) in *. set (es := omap event_json (s_events s)).
      assert (Z.to_nat MAX_EVENT_LIMIT = 200) as Hm by done. destruct (cap <? length es) eqn:E.
      * apply Nat.ltb_lt in E. exists (take (length es - cap) es), (last_n cap es).
        split_and!; [by unfold last_n; rewrite take_drop|done| |].
        -- unfold last_n. rewrite length_drop. lia.
        -- split; [|done]. intros _ Hnil. apply (f_equal length) in Hnil. rewrite length_take in Hnil. cbn in Hnil. lia.
      * apply Nat.ltb_ge in E. exists [], es. split_and!; [done..|lia|]. cbn. split; done.
  - intros sessions Hl. rewrite Hl. eexists. split; [done|].
    pose proof (cap_of_range limit DEFAULT_INDEX_LIMIT MAX_INDEX_LIMIT ltac:(done)) as Hcap.
    set (cap := cap_of _ _ _) in *. assert (Z.to_nat MAX_INDEX_LIMIT = 50) as Hm by done. split.
    + etransitivity; [apply omap_length|]. unfold index_stubs. rewrite length_take. lia.
    + apply Forall_forall. intros s (stub & Hin & Hs)%list_elem_of_omap.
      unfold index_row in Hs. destruct (get_session svc user_id (s_id stub)) as [[full|]|] eqn:Hg; try done.
      injection Hs as ->. pose proof (Hid _ _ _ Hg) as Hsid. rewrite Hsid.
      apply elem_of_take in Hin as (i & Hi%list_elem_of_lookup_2 & _). unfold newest_first in Hi.
      rewrite sort_by_perm in Hi. apply list_elem_of_In, filter_In in Hi as [Hi Hne]. apply bool_decide_eq_true in Hne.
      split_and!; [congruence| |by rewrite Hg]. exists stub. split; [by apply list_elem_of_In|done].
Qed.

(** ** Titles *)

Lemma splitlines_head cur s : cur ≠ "" → ∃ l rest, splitlines_from cur s = (cur +:+ l) :: rest ∧ one_line l = true.
Proof.
  revert cur. induction s as [|c s IH]; intros cur Hc; cbn.
  - exists "", []. rewrite sapp_nil_r. by destruct cur.
  - destruct (is_linebreak c) eqn:E.
    + exists "". rewrite sapp_nil_r. destruct s as [|d s']; [by eexists|]. by destruct (_ && _); eexists.
    + destruct (IH (cur +:+ s1 c)) as (l & rest & -> & Hl); [by destruct cur|].
      exists (String c l), rest. rewrite sapp_snoc. split; [done|]. unfold one_line in *. cbn. by rewrite E.
Qed.
Lemma first_line_head text : strip text ≠ "" →
  ∃ c l, first_line text = String c (stake (TITLE_MAX_LEN - 1) l) ∧ is_space c = false ∧ one_line (String c l) = true.
Proof.
  intros Hne. unfold first_line.
  assert (∃ c u, strip text = String c u ∧ is_space c = false) as (c & u & -> & Hc).
  { unfold strip, strip_by in *. destruct (lstrip_head is_space text) as [E|(c & t & E & Hc)]; rewrite E in *; [done|].
    destruct (rstrip_head is_space c t Hc) as [u ->]. by exists c, u. }
  assert (is_linebreak c = false) as Hl.
  { clear Hne. destruct (is_linebreak c) eqn:E; [|done]. revert E Hc.
    by destruct c as [[] [] [] [] [] [] [] []]; vm_compute. }
  unfold splitlines. cbn [splitlines_from]. rewrite Hl.
  destruct (splitlines_head ("" +:+ s1 c) u) as (l & rest & -> & Ho); [done|]. cbn [head default].
  exists c, l. split_and!; [done..|]. unfold one_line in *. cbn. by rewrite Hl.
Qed.
(** A title is a line of one to eighty characters. *)
Lemma first_line_title text : strip text ≠ "" →
  first_line text ≠ "" ∧ one_line (first_line text) = true ∧ slen (first_line text) ≤ TITLE_MAX_LEN.
Proof.
  intros (c & l & -> & _ & Ho)%first_line_head.
  change (String c (stake (TITLE_MAX_LEN - 1) l)) with (stake TITLE_MAX_LEN (String c l)).
  split_and!; [done| |rewrite slen_stake; lia]. by apply RegexFacts.sforall_stake.
Qed.

(** ** The profile *)

Lemma clean_from_spec seen items :
  NoDup (map lower (clean_from seen items)) ∧
  Forall (λ t, t ≠ "" ∧ (lower t ∉ seen) ∧ strip t = t ∧
    ∃ item, PStr item ∈ items ∧ t = strip (re_sub noflags _BULLETS "" (strip item))) (clean_from seen items).
Proof.
  revert seen. induction items as [|v items IH]; intros seen; cbn [clean_from]; [by split; constructor|].
  assert (NoDup (map lower (clean_from seen items)) ∧
    Forall (λ t, t ≠ "" ∧ (lower t ∉ seen) ∧ strip t = t ∧ ∃ item, PStr item ∈ (v :: items) ∧
      t = strip (re_sub noflags _BULLETS "" (strip item))) (clean_from seen items)) as Hskip.
  { destruct (IH seen) as [H1 H2]. split; [done|]. eapply Forall_impl; [exact H2|].
    intros t (? & ? & ? & item & ? & ?). split_and!; try done. exists item. split; [by right|done]. }
  destruct v as [| | | |s| |]; try done. cbn zeta. set (text := strip (re_sub _ _ _ _)).
  destruct ((text =? "")%string || mem (lower text) seen) eqn:E; [done|].
  apply orb_false_iff in E as [Hne%String.eqb_neq Hseen].
  assert (lower text ∉ seen) as Hnot.
  { intros Hin. unfold mem in Hseen. rewrite existsb_false in Hseen. specialize (Hseen _ Hin).
    rewrite String.eqb_refl in Hseen. done. }
  destruct (IH (lower text :: seen)) as [H1 H2]. cbn [map]. split.
  - constructor; [|done]. intros (t & Ht & Hin)%list_elem_of_fmap. rewrite Forall_forall in H2.
    destruct (H2 t Hin) as (_ & Hn & _). apply Hn. rewrite <- Ht. by left.
  - constructor.
    + split_and!; [done..|by apply strip_idem|]. exists s. split; [by left|done].
    + eapply Forall_impl; [exact H2|]. intros t (? & Hn & ? & item & ? & ?). split_and!; try done.
      * intros ?. apply Hn. by right.
      * exists item. split; [by right|done].
Qed.

(** ** At concrete inputs *)

Definition demo_service : memory_service (list event) :=
  MemoryService _ (λ m _ _ _, Ok (map e_content m)) (λ m _ _ _ e, Ok (m ++ [e])).
Definition demo_text : string := " likes tea " +:+ NLs.
Definition demo_bank : list event := [memory_event "[user] likes tea" "user" "user"].

Lemma memory_write_guarded_witness :
  let added := [("success", PBool true); ("scope", PStr "user"); ("message", PStr "Entry added.")] in
  add_memory_entry demo_service "app" "ann" "s1" [] demo_text "user" = Ok (added, demo_bank) ∧
  (∃ reply', add_memory_entry demo_service "app" "ann" "s1" demo_bank demo_text "user" = Ok (reply', demo_bank)) ∧
  (get added "success" = PBool false ∧ ¬ admissible demo_text "user" ∧ demo_bank = [] ∨
   get added "success" = PBool true ∧ admissible demo_text "user" ∧
     let scoped := _scoped_text "user" (strip demo_text) in
     (entry_exists demo_service "app" "ann" [] scoped = Ok true ∧ demo_bank = [] ∨
      entry_exists demo_service "app" "ann" [] scoped = Ok false ∧
      ∃ author, add_events_to_memory demo_service [] "app" "ann" "s1" (memory_event scoped "user" author) = Ok demo_bank)).
Proof.
  intros added.
  assert (add_memory_entry demo_service "app" "ann" "s1" [] demo_text "user" = Ok (added, demo_bank)) as Ha
    by (vm_compute; reflexivity).
  destruct (memory_write_guarded demo_service "app" "ann" "s1" [] demo_text "user" added demo_bank Ha) as [H1 H2].
  split; [exact Ha|]. split; [|exact H1]. apply H2; [|reflexivity].
  intros m1 m2 t a [= <-]. exists (map e_content (m1 ++ [memory_event t "user" a])). split; [reflexivity|].
  exists (Content None [Part (Some t) None]), (Part (Some t) None). split; [|split; [left|reflexivity]].
  rewrite map_app. apply elem_of_app. right. left.
Defined.

Definition demo_memories : bank :=
  In_memory_bank [("s1", demo_bank); ("s2", [memory_event "hello" "x" "y"; memory_event "[agent] runs make" "agent" "system"])].
Lemma memories_paged_witness :
  let Hf : PyFloat := λ _, "" in
  let page offset := list_memory_writes demo_memories "app" "ann" 1 offset in
  entries (page 0) = [Entry "agent" "runs make" 0 (Some "s2")] ∧
  (∀ n, length (list_all demo_memories) ≤ n * 1 → 0 < n →
     concat (map (λ i, entries (page (i * 1))) (seq 0 n))
     = pinned demo_memories "app" "ann" ++ newest_entries (list_all demo_memories)) ∧
  newest_entries (list_all demo_memories) ≡ₚ list_all demo_memories ∧
  (∀ R, StronglySorted R (rev (list_all demo_memories)) →
     StronglySorted (lex by_time R) (newest_entries (list_all demo_memories))) ∧
  (∀ offset, has_more (page offset) = true ↔ take 1 (drop (offset + 1) (newest_entries (list_all demo_memories))) ≠ []) ∧
  (∀ offset, total (counts (page offset)) =
     Z.of_nat (length (list_all demo_memories) + if offset =? 0 then length (pinned demo_memories "app" "ann") else 0)) ∧
  (∀ sessions sid es sc text author, demo_memories = In_memory_bank sessions → (sid, es) ∈ sessions →
     mem sc _VALID_SCOPES = true → strip text ≠ "" →
     memory_event (_scoped_text sc (strip text)) sc author ∈ es →
     Entry sc (strip text) 0 (Some sid) ∈ newest_entries (list_all demo_memories)).
Proof.
  intros Hf page. split; [vm_compute; reflexivity|].
  apply (memories_paged (H := Hf) demo_memories "app" "ann" 1). lia.
Defined.

Definition demo_session (id : string) (t : Q) : session :=
  Session id [] [Event (Some "user") (Some (Content None [Part (Some "hi") None])) None []] t "ann".
Definition demo_reader : session_reader :=
  SessionReader (λ _, Ok [demo_session "a" 1; demo_session "b" 2]) (λ _ id, Ok (Some (demo_session id 1))).
Lemma past_sessions_bounded_witness :
  let r := recall_past_sessions_entries demo_reader "ann" (Some "b") None None in
  get r "count" = PInt 1 ∧
  ∀ sessions, list_sessions demo_reader "ann" = Ok sessions → ∃ rows,
    get r "sessions" = PList (map row_json rows) ∧ length rows ≤ 50 ∧
    Forall (λ s, s_id s ≠ "b" ∧ (∃ stub, stub ∈ sessions ∧ s_id stub = s_id s) ∧
                 get_session demo_reader "ann" (s_id s) = Ok (Some s)) rows.
Proof.
  intros r. split; [vm_compute; reflexivity|].
  apply (past_sessions_bounded demo_reader "ann" "b" None None). by intros user sid s [= <-].
Defined.
