(* ===== verification/MemoryForks.v ===== *)
(** * Memory forks: [memory/_fork.py], [review_fork.py], [flush_fork.py], [skill_telemetry.py],
    [skill_curator.py], [dream_review.py], [sibling_agent_plugin.py], [auto_capture.py],
    [scheduler/dream_review_endpoint.py], [scheduler/sessions.py]

    What the background passes over a finished turn are given, what they may call, and what
    they count and write. The agents they run are not modelled: a fork is the prompt it is
    spawned with and the gate before its tools. *)

From Stdlib Require Import Qminmax Lqa.
From stdpp Require Import sorting.
From S2P Require Import Prelude PyStr Names Regex PyVal Sorting Overlay Environ Throttle OutputOverflow WorkspaceWindow Memory.
#[local] Open Scope nat_scope.

(** ** What the forks share: [_fork.py] *)

Definition event_text (e : event) : string := join "" (omap text_of (parts_of (e_content e))).
Definition snapshot_line (e : event) : option string :=
  let text := event_text e in
  if (text =? "")%string then None
  else Some ("[" +:+ default "?" (nonempty (e_author e)) +:+ "]" +:+ NLs +:+ text).
Definition format_conversation_snapshot (events : list event) (tag : string) : string :=
  let body := match omap snapshot_line events with [] => "(no conversation)" | lines => join (NLs +:+ NLs) lines end in
  "<" +:+ tag +:+ ">" +:+ NLs +:+ body +:+ NLs +:+ "</" +:+ tag +:+ ">".

Definition repr_names (names : list string) : string := "[" +:+ join ", " (map repr_str (sort_by str_leb names)) +:+ "]".
(** The gate [make_whitelist_callback] builds; [None] lets the call through. *)
Definition whitelist_callback (allowed : list string) (fork_name : string)
    (extra_check : string → pyval → option pydict) (name : string) (args : pyval) : option pydict :=
  if negb (mem name allowed)
  then Some [("error", PStr ("Tool " +:+ repr_str name +:+ " is not available in the " +:+ fork_name
                             +:+ " fork. Allowed: " +:+ repr_names allowed +:+ "."))]
  else extra_check name args.

(** ** Skill telemetry: [skill_telemetry.py] *)

Definition SKILL_TELEMETRY_STATE_KEY : string := "skill_telemetry".
Definition _VIEW_TOOLS : list string := [LOAD_SKILL].
Definition _MUTATE_TOOLS : list string := [WRITE; EDIT].
Definition _SKILLS_PREFIX : string := ".agents/skills/".

Definition _is_success (tool_response : pyval) : bool :=
  match tool_response with
  | PDict d => negb (dhas d "error") && match get d "success" with PBool false => false | _ => true end
  | _ => false
  end.
Definition _empty_record : pydict := [("views", PInt 0); ("manages", PInt 0); ("last_used", PNone)].

Fixpoint drop_dots (fuel : nat) (s : string) : string :=
  match fuel with
  | 0 => s
  | S fuel' => if startswith "./" s then drop_dots fuel' (sdrop 2 s) else s
  end.
(** [path.replace("\\", "/")] and the loop that drops ["./"]. *)
Definition normalized (path : string) : string :=
  let p := smap (λ c, if Ascii.eqb c BSL then "/"%char else c) path in drop_dots (slen p) p.
Definition skill_name_from_path (path : pyval) : option string :=
  match path with
  | PStr p =>
      if startswith _SKILLS_PREFIX (normalized p) then
        match partition_at "/" (sdrop (slen _SKILLS_PREFIX) (normalized p)) with
        | Some (name, _) => if (name =? "")%string then None else Some name
        | None => None
        end
      else None
  | _ => None
  end.

(** [args.get(a) or args.get(b)] *)
Definition get_either (args : pydict) (a b : string) : pyval := if truthy (get args a) then get args a else get args b.
Definition _classify (tool_name : string) (args : pydict) : option (string * string) :=
  if mem tool_name _VIEW_TOOLS then
    match get_either args "skill_name" "name" with
    | PStr n => if (n =? "")%string then None else Some ("views", n)
    | _ => None
    end
  else if mem tool_name _MUTATE_TOOLS
  then match skill_name_from_path (get args "path") with Some n => Some ("manages", n) | None => None end
  else None.
(** [state.get(k) or {}], of a dict. *)
Definition dict_or_empty (v : pyval) : pydict := match v with PDict d => d | _ => [] end.
(** One more in [bump_key] of a skill's record. *)
Definition bump_record (rec : pydict) (bump_key now : string) : res pydict :=
  let! n := py_int (default (PInt 0) (dget rec bump_key)) in
  Ok (dset (dset rec bump_key (PInt (n + 1))) "last_used" (PStr now)).
Definition skill_telemetry_callback (tool_name now : string) (args tool_response : pyval) (state : pydict) : res pydict :=
  if negb (mem tool_name _VIEW_TOOLS || mem tool_name _MUTATE_TOOLS) || negb (_is_success tool_response) then Ok state
  else match args with
       | PDict a =>
           match _classify tool_name a with
           | None => Ok state
           | Some (bump_key, skill_name) =>
               let telem := dict_or_empty (get state SKILL_TELEMETRY_STATE_KEY) in
               let rec := match dict_or_empty (get telem skill_name) with [] => _empty_record | r => r end in
               let! rec' := bump_record rec bump_key now in
               Ok (dset state SKILL_TELEMETRY_STATE_KEY (PDict (dset telem skill_name (PDict rec'))))
           end
       | _ => Ok state
       end.

(** ** The curator: [skill_curator.py] *)

Definition MIN_MANAGES_FOR_PROMOTION : Z := 3.
Definition MIN_VIEWS_FOR_REVIEW : Z := 5.
Definition CURATOR_MARKER : string := "[skill_curator]".
Definition _promotion_text (skill_name : string) (manages : Z) (session_id : string) : string :=
  CURATOR_MARKER +:+ " Skill '" +:+ skill_name +:+ "' is reliable (" +:+ str_of_Z manages +:+ " successful edits in session "
  +:+ session_id +:+ ")".
Definition _review_text (skill_name : string) : string :=
  CURATOR_MARKER +:+ " Skill '" +:+ skill_name +:+ "' is read often but never edited " +:+ em_dash
  +:+ " review for promotion to docs".

(** Both counters of a record, [int(rec.get(k, 0) or 0)]; [None]: not a record, or no numbers. *)
Definition counters (rec : pyval) : option (Z * Z) :=
  match rec with
  | PDict d =>
      let number (k : string) := let v := default (PInt 0) (dget d k) in py_int (if truthy v then v else PInt 0) in
      match number "views", number "manages" with Ok v, Ok m => Some (v, m) | _, _ => None end
  | _ => None
  end.
(** What the walk writes for one skill. *)
Definition curator_text (session_id : string) (skill : string * pyval) : option string :=
  if (skill.1 =? "")%string then None
  else match counters skill.2 with
       | None => None
       | Some (views, manages) =>
           if (MIN_MANAGES_FOR_PROMOTION <=? manages)%Z then Some (_promotion_text skill.1 manages session_id)
           else if (MIN_VIEWS_FOR_REVIEW <=? views)%Z && (manages =? 0)%Z then Some (_review_text skill.1)
           else None
       end.

Section Curator.
Context {M : Type} (service : memory_service M) (app_name user_id session_id : string).
Definition _write_curator_entry (m : M) (text : string) : res M :=
  let! known := entry_exists service app_name user_id m text in
  if known then Ok m
  else write_memory_event service app_name user_id session_id m text "skill_curator" "system".
Fixpoint write_each (m : M) (texts : list string) : res M :=
  match texts with [] => Ok m | t :: rest => let! m' := _write_curator_entry m t in write_each m' rest end.
Definition run_skill_curator (m : M) (telemetry : pydict) : res M := write_each m (omap (curator_text session_id) telemetry).
End Curator.
Definition skill_curator_callback {M} (service : option (memory_service M)) (app_name user_id session_id : string)
    (m : M) (state : pydict) : res M :=
  match service, get state SKILL_TELEMETRY_STATE_KEY with
  | Some svc, PDict ((_ :: _) as telemetry) => run_skill_curator svc app_name user_id session_id m telemetry
  | _, _ => Ok m
  end.

(** ** The review fork: [review_fork.py] *)

Definition _SKILL_MUTATE_TOOL_NAMES : list string := [WRITE; EDIT].
Definition _REVIEW_TOOL_NAMES : list string := [MEMORY] ++ [LOAD_SKILL] ++ _SKILL_MUTATE_TOOL_NAMES.
Definition _is_skills_path (args : pyval) : bool :=
  match args with
  | PDict d => match skill_name_from_path (get d "path") with Some _ => true | None => false end
  | _ => false
  end.
Definition _skills_path_check (name : string) (args : pyval) : option pydict :=
  if mem name _SKILL_MUTATE_TOOL_NAMES && negb (_is_skills_path args)
  then Some [("error", PStr ("Tool " +:+ repr_str name
                             +:+ " in the review fork may only write to '.agents/skills/<name>/...' paths."))]
  else None.
Definition review_gate : string → pyval → option pydict := whitelist_callback _REVIEW_TOOL_NAMES "review" _skills_path_check.

(** The prompts are texts of [review_prompts.py]. *)
Inductive review_prompt := MEMORY_REVIEW_PROMPT | COMBINED_REVIEW_PROMPT.
Definition touched (rec : pyval) : bool :=
  match counters rec with Some (views, manages) => (0 <? views)%Z || (0 <? manages)%Z | None => false end.
Definition _pick_prompt (telemetry : pydict) : review_prompt :=
  if existsb (λ kv, touched kv.2) telemetry then COMBINED_REVIEW_PROMPT else MEMORY_REVIEW_PROMPT.

(** [review_fork_callback]: what it spawns, if anything, and the state with the claim. *)
Definition review_fork_callback (environ : environment_vars) (has_memory : bool) (now : Q) (state : option pydict)
    (events : list event) : option (string * review_prompt) * option pydict :=
  if (default "1" (dget environ "LHA_REVIEW_FORK") =? "0")%string || negb has_memory then (None, state)
  else match try_claim (dget environ "LHA_FORK_COOLDOWN") now state "review_fork" with
       | (false, state') => (None, state')
       | (true, state') =>
           let telemetry := dict_or_empty (get (default [] state') SKILL_TELEMETRY_STATE_KEY) in
           (Some (format_conversation_snapshot events "CONVERSATION", _pick_prompt telemetry), state')
       end.
(** [auto_capture_callback]: whether the session is handed over. *)
Definition auto_capture_callback (environ : environment_vars) (has_memory : bool) (now : Q) (state : option pydict) :
    bool * option pydict :=
  if negb has_memory then (false, state) else try_claim (dget environ "LHA_FORK_COOLDOWN") now state "auto_capture".

(** ** The flush fork: [flush_fork.py] *)

Definition _FLUSH_TOOL_NAMES : list string := [MEMORY].
Definition flush_gate : string → pyval → option pydict := whitelist_callback _FLUSH_TOOL_NAMES "flush" (λ _ _, None).
(** [spawn_flush_fork]: the snapshot it is spawned with. *)
Definition spawn_flush_fork (environ : environment_vars) (has_memory : bool) (events : list event) : option string :=
  if (default "1" (dget environ "LHA_PRE_COMPRESS_FLUSH") =? "0")%string || negb has_memory then None
  else match events with [] => None | _ => Some (format_conversation_snapshot events "CONVERSATION") end.

(** ** The drain of the siblings: [sibling_agent_plugin.py] *)

Definition _DEFAULT_DRAIN_TIMEOUT_SECONDS : Q := 4.
Definition _MAX_DRAIN_TIMEOUT_SECONDS : Q := 9 # 2.
Definition clamp (q : Q) : Q := Qmin _MAX_DRAIN_TIMEOUT_SECONDS (Qmax 0 q).
(** The words [float] reads: an infinity is cut like any number, and what is no number
    compares below zero. *)
Definition special_float (raw : string) : option Q :=
  let word := lower (strip raw) in
  if mem word ["inf"; "+inf"; "infinity"; "+infinity"] then Some _MAX_DRAIN_TIMEOUT_SECONDS
  else if mem word ["-inf"; "-infinity"; "nan"; "+nan"; "-nan"] then Some 0%Q else None.
Definition _resolve_drain_timeout (override : option Q) (raw : option string) : Q :=
  match override, raw with
  | Some q, _ => clamp q
  | None, None => _DEFAULT_DRAIN_TIMEOUT_SECONDS
  | None, Some r =>
      match special_float r, float_of_str r with
      | Some q, _ | None, Some q => clamp q
      | None, None => _DEFAULT_DRAIN_TIMEOUT_SECONDS
      end
  end.

(** ** The nightly dream: [dream_review.py] *)

Definition SESSION_SOURCE_KEY : string := "system:session_source".
Definition SCHEDULER_JOB_KEY : string := "system:scheduler_job".
Definition SCHEDULER_SOURCE : string := "scheduler".
(** [scheduled_session_state] *)
Definition scheduled_session_state (job_type title : string) : pydict :=
  [(SESSION_SOURCE_KEY, PStr SCHEDULER_SOURCE); (SCHEDULER_JOB_KEY, PStr job_type); (TITLE_KEY, PStr title)].

Definition _DEFAULT_SESSION_LIMIT : Z := 50.
Definition _DEFAULT_LOOKBACK_HOURS : Q := 24.
Definition _session_limit (environ : environment_vars) : Z :=
  match int10 (env_get environ "LHA_DREAM_SESSION_LIMIT") with
  | Some value => if (0 <? value)%Z then value else _DEFAULT_SESSION_LIMIT
  | None => _DEFAULT_SESSION_LIMIT
  end.
Definition lookback_seconds (environ : environment_vars) : Q :=
  let hours := default _DEFAULT_LOOKBACK_HOURS (float_of_str (env_get environ "LHA_DREAM_LOOKBACK_HOURS")) in
  ((if Qle_bool hours 0 then _DEFAULT_LOOKBACK_HOURS else hours) * 3600)%Q.
Definition _has_text (e : event) : bool := existsb (λ p, match text_of p with Some _ => true | None => false end) (parts_of (e_content e)).
Definition _consolidation_enabled (environ : environment_vars) : bool :=
  negb (default "1" (dget environ "LHA_MEMORY_CONSOLIDATION") =? "0")%string.
Definition _is_scheduler_session (s : session) : bool :=
  match get (s_state s) SESSION_SOURCE_KEY with PStr source => (source =? SCHEDULER_SOURCE)%string | _ => false end.

(** [list_active_users]; [sessions] is what the service lists for all users. *)
Definition list_active_users (sessions : res (list session)) (since_ts : Q) : list string :=
  match sessions with
  | Raise _ => []
  | Ok l => sort_by str_leb (dedup (map s_user (List.filter (λ s,
      negb (s_user s =? "")%string && Qle_bool since_ts (last_update_time s) && negb (_is_scheduler_session s)) l)))
  end.

Section Dream.
Context (environ : environment_vars) (svc : session_reader) (app_name : string).

Definition load_events (user_id : string) (s : session) : option (string * list event) :=
  if (s_id s =? "")%string then None
  else match get_session svc user_id (s_id s) with
       | Ok (Some full) => Some (s_id s, s_events full)
       | Ok None => Some (s_id s, [])
       | Raise _ => None
       end.
Definition _collect_user_sessions (user_id : string) (limit : nat) : option (list (string * list event)) :=
  match list_sessions svc user_id with
  | Raise _ => None
  | Ok sessions =>
      Some (omap (load_events user_id) (take limit (newest_first (List.filter (λ s, negb (_is_scheduler_session s)) sessions))))
  end.

(** [_count_actions], over the names of the actions. *)
Definition _ACTION_KEYS : list (string * string) := [("CREATED", "created"); ("UPDATED", "updated"); ("DELETED", "deleted")].
Definition _count_actions (actions : list string) : list (string * Z) :=
  fold_left (λ counts a, match dget _ACTION_KEYS a with
                         | Some k => dset counts k (default 0 (dget counts k) + 1)%Z
                         | None => counts
                         end) actions [("created", 0); ("updated", 0); ("deleted", 0)]%Z.

(** [_run_dream_review_for_user]; [generate] is the bank's [memories.generate]: the contents
    it is asked to read, and whether to consolidate. *)
Definition failure (reason : string) : pydict := [("success", PBool false); ("reason", PStr reason)].
Definition review_events (sessions : list (string * list event)) : list event := List.filter _has_text (concat (map snd sessions)).
Definition request_contents (sessions : list (string * list event)) : list (option content) :=
  map (λ e, sanitize_content_for_memory (e_content e)) (review_events sessions).
Definition _run_dream_review_for_user (profiles : bool) (generate : list (option content) → bool → res (list string))
    (user_id : string) : pydict :=
  if (default "1" (dget environ "LHA_DREAM_REVIEW") =? "0")%string then failure "dream review disabled by LHA_DREAM_REVIEW env"
  else if (app_name =? "")%string || (user_id =? "")%string then failure "no app_name / user_id"
  else if negb profiles then failure "structured profiles require Vertex Memory Bank"
  else match _collect_user_sessions user_id (Z.to_nat (_session_limit environ)) with
       | None => failure "session service does not support session lookup (needs list_sessions/get_session)"
       | Some sessions =>
           match review_events sessions with
           | [] => failure "no recent session content to review"
           | _ =>
               match generate (request_contents sessions) (_consolidation_enabled environ) with
               | Raise _ => failure "profile generation failed"
               | Ok actions =>
                   [("success", PBool true); ("sessions_reviewed", PInt (Z.of_nat (length sessions)));
                    ("consolidation", PDict (if _consolidation_enabled environ
                       then ("ran", PBool true) :: map (λ kv, (kv.1, PInt kv.2)) (_count_actions actions)
                       else [("ran", PBool false); ("reason", PStr "disabled")]))]
               end
           end
       end.

(** The endpoint: [dream_review_tick]; each user's pass ends with an envelope, or raises. *)
Inductive dream_reply := Dream_none (reason : string) | Dreamt (status : Z) (reviewed failed : nat) (errors : list string).
Fixpoint review_each (pass : string → res pydict) (user_ids : list string) : nat * list string :=
  match user_ids with
  | [] => (0, [])
  | u :: rest =>
      let '(reviewed, errors) := review_each pass rest in
      match pass u with
      | Ok result => if truthy (get result "success") then (S reviewed, errors) else (reviewed, u :: errors)
      | Raise _ => (reviewed, u :: errors)
      end
  end.
Definition dream_review_tick (memory_registered session_registered : bool) (requested : list string)
    (all_sessions : res (list session)) (now : Q) (pass : string → res pydict) : dream_reply :=
  if negb memory_registered then Dream_none "memory service not registered"
  else if negb session_registered then Dream_none "session service not registered"
  else if (app_name =? "")%string then Dream_none "no app_name"
  else
    let user_ids := match requested with
                    | [] => list_active_users all_sessions (now - lookback_seconds environ)
                    | _ => requested
                    end in
    match user_ids with
    | [] => Dream_none "no active users"
    | _ =>
        let '(reviewed, errors) := review_each pass user_ids in
        Dreamt (if (reviewed =? 0) && (0 <? length errors) then 500 else 200) reviewed (length errors) errors
    end.
End Dream.

(** * Facts *)

(** ** Where the review fork may write *)

Lemma smap_id (f : ascii → ascii) s : (∀ c, has_char c s = true → f c = c) → smap f s = s.
Proof.
  induction s as [|c s IH]; intros Hf; [done|]. cbn. rewrite Hf, IH; [done| |].
  - intros d Hd. apply Hf. unfold has_char in *. cbn. by rewrite Hd, orb_true_r.
  - unfold has_char. cbn. by rewrite (proj2 (Ascii.eqb_eq c c) eq_refl).
Qed.
Lemma parts_dot s : parts ("./" +:+ s) = parts s.
Proof. change ("./" +:+ s) with ("." +:+ "/" +:+ s). by rewrite parts_app. Qed.
Lemma drop_dots_parts fuel s : parts (drop_dots fuel s) = parts s.
Proof.
  revert s. induction fuel as [|fuel IH]; intros s; [done|]. cbn [drop_dots].
  destruct (startswith "./" s) eqn:E; [|done]. apply startswith_spec in E as [r ->]. rewrite IH.
  change (sdrop 2 ("./" +:+ r)) with r. by rewrite parts_dot.
Qed.
Lemma drop_dots_relative fuel s : startswith "/" s = true → drop_dots fuel s = s.
Proof. intros [r ->]%startswith_spec. by destruct fuel. Qed.
Lemma partition_at_spec c s a b : partition_at c s = Some (a, b) → s = a +:+ String c b ∧ has_char c a = false.
Proof.
  revert a. induction s as [|d s IH]; intros a; cbn; [done|]. destruct (Ascii.eqb d c) eqn:E.
  - intros [= <- <-]. apply Ascii.eqb_eq in E as ->. done.
  - destruct (partition_at c s) as [[a' b']|] eqn:Ep; [|done]. intros [= <- <-].
    destruct (IH a' eq_refl) as [-> Ha]. split; [done|]. unfold has_char in *. cbn. rewrite Ha, orb_false_r.
    destruct (Ascii.eqb c d) eqn:E'; [|done]. apply Ascii.eqb_eq in E' as ->. by rewrite (proj2 (Ascii.eqb_eq d d) eq_refl) in E.
Qed.

(** What the check of a path means, for a path without backslashes. *)
Lemma skill_path_parts p n : has_char BSL p = false → skill_name_from_path (PStr p) = Some n →
  startswith "/" p = false ∧ n ≠ "" ∧ has_char "/" n = false ∧
  ∃ rest, parts p = [".agents"; "skills"] ++ parts n ++ rest.
Proof.
  intros Hb. unfold skill_name_from_path, normalized. rewrite (smap_id _ p).
  2:{ intros c Hc. destruct (Ascii.eqb c BSL) eqn:E; [|done]. apply Ascii.eqb_eq in E as ->. congruence. }
  destruct (startswith _SKILLS_PREFIX (drop_dots (slen p) p)) eqn:Hs; [|done].
  assert (startswith "/" p = false) as Hrel.
  { destruct (startswith "/" p) eqn:E; [|done]. rewrite drop_dots_relative in Hs by done.
    apply startswith_spec in E as [r ->]. apply startswith_spec in Hs as [r' Hr]. discriminate Hr. }
  apply startswith_spec in Hs as [r Hr]. rewrite Hr, sdrop_app.
  destruct (partition_at "/" r) as [[n' rest]|] eqn:Hp; [|done]. destruct (n' =? "")%string eqn:Hn; [done|].
  intros [= <-]. apply partition_at_spec in Hp as [-> Hslash]. apply String.eqb_neq in Hn.
  split_and!; [done..|]. exists (parts rest). rewrite <- (drop_dots_parts (slen p)), Hr.
  change (_SKILLS_PREFIX +:+ n' +:+ String "/" rest) with (".agents" +:+ "/" +:+ "skills" +:+ "/" +:+ n' +:+ "/" +:+ rest).
  by rewrite !parts_app.
Qed.


(** Beyond that the gate is no bound: a path that climbs, and one with backslashes, pass as
    paths of a skill, and are written elsewhere. *)
Example review_fork_escapes :
  review_gate WRITE (PDict [("path", PStr ".agents/skills/x/../../../app.py")]) = None ∧
  resolve_in_window (H := lexical) ".agents/skills/x/../../../app.py" "/workspace" [] = Ok "/workspace/app.py" ∧
  review_gate WRITE (PDict [("path", PStr ".agents\skills\x\y")]) = None ∧
  resolve_in_window (H := lexical) ".agents\skills\x\y" "/workspace" [] = Ok "/workspace/.agents\skills\x\y".
Proof. by vm_compute. Qed.

(** ** What is counted *)

Record call := Call { k_tool : string; k_now : string; k_args : pyval; k_response : pyval }.
(** What a call counts as: which counter, of which skill. *)
Definition counted (c : call) : option (string * string) :=
  if negb (mem (k_tool c) _VIEW_TOOLS || mem (k_tool c) _MUTATE_TOOLS) || negb (_is_success (k_response c)) then None
  else match k_args c with PDict a => _classify (k_tool c) a | _ => None end.
Fixpoint after_calls (state : pydict) (calls : list call) : res pydict :=
  match calls with
  | [] => Ok state
  | c :: rest =>
      let! state' := skill_telemetry_callback (k_tool c) (k_now c) (k_args c) (k_response c) state in after_calls state' rest
  end.
Definition hits (kind skill : string) (calls : list call) : Z :=
  Z.of_nat (length (List.filter (λ c, bool_decide (counted c = Some (kind, skill))) calls)).

Definition telemetry_of (state : pydict) : pydict := dict_or_empty (get state SKILL_TELEMETRY_STATE_KEY).
Record tracks (telem : pydict) (views manages : string → Z) : Prop := {
  t_pos n : (0 ≤ views n ∧ 0 ≤ manages n)%Z;
  t_keys : NoDup (keys telem);
  t_rec n : match dget telem n with
            | None => views n = 0%Z ∧ manages n = 0%Z
            | Some v => ∃ r, v = PDict r ∧ dget r "views" = Some (PInt (views n)) ∧ dget r "manages" = Some (PInt (manages n))
            end
}.
Definition bump (f : string → Z) (here : bool) (n : string) : string → Z :=
  λ n', if here && (n' =? n)%string then (f n' + 1)%Z else f n'.

Lemma classify_kind tool a k n : _classify tool a = Some (k, n) → k = "views" ∨ k = "manages".
Proof.
  unfold _classify. destruct (mem tool _VIEW_TOOLS).
  - destruct (get_either a "skill_name" "name") as [| | | |s| |]; try done. destruct (s =? "")%string; [done|].
    intros [= <- <-]. by left.
  - destruct (mem tool _MUTATE_TOOLS); [|done]. destruct (skill_name_from_path _); [|done]. intros [= <- <-]. by right.
Qed.
Lemma bump_tracks telem views manages k n now : k = "views" ∨ k = "manages" → tracks telem views manages →
  ∃ rec', bump_record (match dict_or_empty (get telem n) with [] => _empty_record | r => r end) k now = Ok rec' ∧
    tracks (dset telem n (PDict rec')) (bump views (k =? "views")%string n) (bump manages (k =? "manages")%string n).
Proof.
  intros Hk [Hpos Hkeys Hrec]. set (rec := match dict_or_empty (get telem n) with [] => _empty_record | r => r end).
  assert (dget rec "views" = Some (PInt (views n)) ∧ dget rec "manages" = Some (PInt (manages n))) as [Hv Hm].
  { unfold rec, get. specialize (Hrec n). destruct (dget telem n) as [v|].
    - destruct Hrec as (r & -> & Hv & Hm). cbn [default dict_or_empty]. by destruct r.
    - destruct Hrec as [-> ->]. done. }
  assert (∃ z, dget rec k = Some (PInt z)) as [z Hz] by (destruct Hk as [-> | ->]; eauto).
  exists (dset (dset rec k (PInt (z + 1))) "last_used" (PStr now)). split.
  { unfold bump_record. rewrite Hz. done. }
  assert (z = if (k =? "views")%string then views n else manages n) as ->
    by (destruct Hk as [-> | ->]; [change ("views" =? "views")%string with true|change ("manages" =? "views")%string with false];
        congruence).
  split; [intros n'|by apply NoDup_keys_dset|intros n'].
  - specialize (Hpos n'). unfold bump. destruct (_ && _), (_ && _); lia.
  - unfold bump. destruct (String.eqb_spec n' n) as [->|Hne].
    + rewrite dget_dset_eq, !andb_true_r. eexists. split; [done|].
      rewrite !(dget_dset_ne _ "last_used") by done.
      destruct Hk as [-> | ->].
      * change ("views" =? "views")%string with true. change ("views" =? "manages")%string with false.
        rewrite dget_dset_eq, dget_dset_ne by done. done.
      * change ("manages" =? "views")%string with false. change ("manages" =? "manages")%string with true.
        rewrite dget_dset_eq, dget_dset_ne by done. done.
    + rewrite dget_dset_ne by done. rewrite !andb_false_r. apply Hrec.
Qed.
Lemma hits_cons kind n c calls : hits kind n (c :: calls) =
  ((if decide (counted c = Some (kind, n)) then 1 else 0) + hits kind n calls)%Z.
Proof. unfold hits. cbn [List.filter]. case_bool_decide; case_decide; try done; cbn [length]; lia. Qed.

Lemma calls_track state calls views manages : tracks (telemetry_of state) views manages →
  ∃ state', after_calls state calls = Ok state' ∧
    tracks (telemetry_of state') (λ n, views n + hits "views" n calls)%Z (λ n, manages n + hits "manages" n calls)%Z.
Proof.
  revert state views manages. induction calls as [|c calls IH]; intros state views manages Ht.
  { exists state. split; [done|]. destruct Ht as [Hpos Hkeys Hrec]. split; [intros n|done|intros n]; unfold hits; cbn.
    - specialize (Hpos n). lia.
    - specialize (Hrec n). by rewrite !Z.add_0_r. }
  cbn [after_calls]. unfold skill_telemetry_callback.
  assert (counted c = if negb (mem (k_tool c) _VIEW_TOOLS || mem (k_tool c) _MUTATE_TOOLS) || negb (_is_success (k_response c))
    then None else match k_args c with PDict a => _classify (k_tool c) a | _ => None end) as Hc by done.
  destruct (negb _ || negb _); [|destruct (k_args c) as [| | | | | |a]; [..|destruct (_classify (k_tool c) a) as [[k n]|] eqn:Hcl]].
  all: try (cbn [res_bind]; destruct (IH state views manages Ht) as (state' & Hs' & Ht'); exists state'; split; [done|];
    destruct Ht' as [Hpos Hkeys Hrec]; split; [intros n'|done|intros n']; [specialize (Hpos n')|specialize (Hrec n')];
    rewrite !hits_cons, Hc, !decide_False by done; exact Hpos || exact Hrec).
  destruct (bump_tracks _ _ _ k n (k_now c) (classify_kind _ _ _ _ Hcl) Ht) as (rec' & Hb & Ht').
  fold (telemetry_of state). rewrite Hb. cbn [res_bind].
  set (state1 := dset state SKILL_TELEMETRY_STATE_KEY _).
  assert (telemetry_of state1 = dset (telemetry_of state) n (PDict rec')) as Hst.
  { unfold telemetry_of at 1, state1, get. by rewrite dget_dset_eq. }
  rewrite <- Hst in Ht'. destruct (IH state1 _ _ Ht') as (state' & Hs' & [Hpos Hkeys Hrec]). exists state'. split; [done|].
  assert (∀ kind f n', (kind = "views" ∨ kind = "manages") →
    (bump f (k =? kind)%string n n' + hits kind n' calls = f n' + hits kind n' (c :: calls))%Z) as Hadd.
  { intros kind f n' Hkind. rewrite hits_cons, Hc. unfold bump.
    destruct (String.eqb_spec k kind) as [<-|Hne]; cbn [andb]; [|rewrite decide_False by congruence; lia].
    destruct (String.eqb_spec n' n) as [->|Hne]; [rewrite decide_True by done|rewrite decide_False by congruence]; lia. }
  split; [intros n'|done|intros n']; [specialize (Hpos n')|specialize (Hrec n')]; rewrite !Hadd in *; auto.
Qed.

(** Skill telemetry counts, and the curator goes by the counts. Over any calls of tools from a
    session without telemetry no call raises, and the record of a skill holds how often it
    was successfully loaded, and written or edited on one of its paths; there is none for
    an untouched skill. At the end of the turn the curator promotes a skill exactly if
    there were three edits, with their number, and asks for a review exactly if there were
    five loads and no edit; and the review prompt speaks of skills exactly if one was touched. *)
Theorem telemetry_counts state calls session_id : get state SKILL_TELEMETRY_STATE_KEY = PNone →
  ∃ state', after_calls state calls = Ok state' ∧
    (∀ n, let views := hits "views" n calls in let manages := hits "manages" n calls in
       (dget (telemetry_of state') n = None → views = 0 ∧ manages = 0)%Z ∧
       ∀ rec, dget (telemetry_of state') n = Some rec →
         counters rec = Some (views, manages) ∧
         (n ≠ "" → curator_text session_id (n, rec) =
            if (3 <=? manages)%Z then Some (_promotion_text n manages session_id)
            else if (5 <=? views)%Z && (manages =? 0)%Z then Some (_review_text n) else None)) ∧
    (_pick_prompt (telemetry_of state') = COMBINED_REVIEW_PROMPT ↔
     ∃ n, (0 < hits "views" n calls ∨ 0 < hits "manages" n calls)%Z).
Proof.
  intros H0.
  assert (tracks (telemetry_of state) (λ _, 0%Z) (λ _, 0%Z)) as Ht
    by (unfold telemetry_of; rewrite H0; split; [intros n; lia|constructor|done]).
  destruct (calls_track state calls _ _ Ht) as (state' & Hs & [Hpos Hkeys Hrec]). exists state'. split; [done|].
  assert (∀ n rec, dget (telemetry_of state') n = Some rec →
    counters rec = Some (hits "views" n calls, hits "manages" n calls)) as Hcnt.
  { intros n rec Hn. specialize (Hrec n). rewrite Hn in Hrec. destruct Hrec as (r & -> & Hv & Hm).
    assert (∀ z, py_int (if truthy (PInt z) then PInt z else PInt 0) = Ok z) as Hint
      by (intros z; unfold truthy; destruct (Z.eqb_spec z 0) as [->|]; done).
    unfold counters. cbv zeta. rewrite Hv, Hm. cbn [default id]. by rewrite !Hint. }
  split.
  - intros n views manages. split; [intros Hn; specialize (Hrec n); by rewrite Hn in Hrec|].
    intros rec Hn. split; [by apply Hcnt|]. intros Hne%String.eqb_neq. unfold curator_text. cbn [fst snd].
    by rewrite (Hcnt n rec Hn), Hne.
  - unfold _pick_prompt. destruct (existsb _ _) eqn:E; split; try done.
    + intros _. apply existsb_elem in E as ([n rec] & Hin & Htouch). exists n. cbn [snd] in Htouch. unfold touched in Htouch.
      rewrite (Hcnt n rec) in Htouch by by apply dget_of_in. apply orb_true_iff in Htouch as [H1%Z.ltb_lt|H1%Z.ltb_lt]; auto.
    + intros [n Hn]. exfalso. rewrite existsb_false in E. specialize (Hrec n).
      destruct (dget (telemetry_of state') n) as [rec|] eqn:Hd.
      * specialize (E (n, rec) (dget_in _ _ _ Hd)). cbn [snd] in E. unfold touched in E. rewrite (Hcnt n rec Hd) in E.
        apply orb_false_iff in E as [H1%Z.ltb_ge H2%Z.ltb_ge]. lia.
      * cbn [Z.add] in Hrec. lia.
Qed.

(** ** The dream pass *)

Lemma is_scheduled job_type title s : s_state s = scheduled_session_state job_type title → _is_scheduler_session s = true.
Proof. unfold _is_scheduler_session. by intros ->. Qed.

Lemma active_spec l since u : u ∈ list_active_users (Ok l) since ↔
  u ≠ "" ∧ ∃ s, s ∈ l ∧ s_user s = u ∧ (since <= last_update_time s)%Q ∧ _is_scheduler_session s = false.
Proof.
  cbn. rewrite sort_by_perm, elem_of_dedup, list_elem_of_fmap. split.
  - intros (s & -> & [Hin Hs]%list_elem_of_In%filter_In). bool_prop.
    split; [done|]. exists s. split_and!; [by apply list_elem_of_In|done|by apply Qle_bool_iff|done].
  - intros (Hne & s & Hin & <- & Ht & Hs). exists s. split; [done|]. apply list_elem_of_In, filter_In.
    split; [by apply list_elem_of_In|]. apply Qle_bool_iff in Ht. rewrite Ht, Hs. apply String.eqb_neq in Hne. by rewrite Hne.
Qed.

Lemma has_text_kept e : _has_text e = true → ∃ p t, p ∈ parts_of (e_content e) ∧ p_text p = Some t ∧ t ≠ "".
Proof.
  intros (p & Hp & Ht)%existsb_elem. unfold text_of, nonempty in Ht. destruct (p_text p) as [t|] eqn:E; [|done].
  destruct (t =? "")%string eqn:Et; [done|]. exists p, t. apply String.eqb_neq in Et. done.
Qed.

Section DreamFacts.
Context (environ : environment_vars) (svc : session_reader) (app_name : string).

Lemma collected user_id limit ss : _collect_user_sessions svc user_id limit = Some ss →
  length ss ≤ limit ∧ ∃ l, list_sessions svc user_id = Ok l ∧
  Forall (λ x, ∃ s, s ∈ l ∧ s_id s = x.1 ∧ _is_scheduler_session s = false ∧
    (get_session svc user_id x.1 = Ok None ∧ x.2 = [] ∨ ∃ full, get_session svc user_id x.1 = Ok (Some full) ∧ x.2 = s_events full)) ss.
Proof.
  unfold _collect_user_sessions. destruct (list_sessions svc user_id) as [l|] eqn:Hl; [|done]. intros [= <-]. split.
  - etransitivity; [apply omap_length|]. rewrite length_take. lia.
  - exists l. split; [done|]. apply Forall_forall. intros x (s & Hin & Hx)%list_elem_of_omap.
    apply elem_of_take in Hin as (i & Hi%list_elem_of_lookup_2 & _). unfold newest_first in Hi.
    rewrite sort_by_perm in Hi. apply list_elem_of_In, filter_In in Hi as [Hi Hn]. apply negb_true_iff in Hn.
    unfold load_events in Hx. destruct (s_id s =? "")%string; [done|]. exists s.
    destruct (get_session svc user_id (s_id s)) as [[full|]|] eqn:Hg; try done; injection Hx as <-; cbn;
      (split_and!; [by apply list_elem_of_In|done|done|]); rewrite Hg; eauto.
Qed.

(** What a dream may see. The bank is asked to generate only when the pass is not switched
    off, there is a user and it keeps profiles, and then about at most the configured number
    of sessions (fifty unless the variable is a positive number) of that user, none of them
    created by a scheduled job; it is given every content with text of these sessions and
    nothing without, each without attachments it would reject. The pass succeeds exactly
    when the bank does, and never raises. *)
Theorem dream_sees_own_sessions profiles generate user_id :
  let r := _run_dream_review_for_user environ svc app_name profiles generate user_id in
  (get r "success" = PBool true ↔
     (default "1" (dget environ "LHA_DREAM_REVIEW") ≠ "0" ∧ app_name ≠ "" ∧ user_id ≠ "" ∧ profiles = true ∧
      ∃ ss actions, _collect_user_sessions svc user_id (Z.to_nat (_session_limit environ)) = Some ss ∧ review_events ss ≠ [] ∧
        generate (request_contents ss) (_consolidation_enabled environ) = Ok actions)) ∧
  (get r "success" = PBool true ∨ get r "success" = PBool false) ∧
  ∀ ss, _collect_user_sessions svc user_id (Z.to_nat (_session_limit environ)) = Some ss →
    (Z.of_nat (length ss) ≤ _session_limit environ)%Z ∧ (0 < _session_limit environ)%Z ∧
    (∃ l, list_sessions svc user_id = Ok l ∧
       Forall (λ x, ∃ s, s ∈ l ∧ s_id s = x.1 ∧ ∀ job title, s_state s ≠ scheduled_session_state job title) ss) ∧
    (∀ c, c ∈ request_contents ss → ∃ e x, x ∈ ss ∧ e ∈ x.2 ∧ c = sanitize_content_for_memory (e_content e) ∧
       (∃ p t, p ∈ parts_of (e_content e) ∧ p_text p = Some t ∧ t ≠ "") ∧ existsb foreign (parts_of c) = false).
Proof.
  cbn zeta. split_and!.
  - unfold _run_dream_review_for_user.
    destruct (String.eqb_spec (default "1" (dget environ "LHA_DREAM_REVIEW")) "0") as [->|Hon];
      [split; [done|by intros [? _]]|].
    destruct (String.eqb_spec app_name "") as [->|Ha]; cbn [orb]; [split; [done|by intros (_ & ? & _)]|].
    destruct (String.eqb_spec user_id "") as [->|Hu]; [split; [done|by intros (_ & _ & ? & _)]|].
    destruct profiles; cbn [negb]; [|split; [done|by intros (_ & _ & _ & ? & _)]].
    destruct (_collect_user_sessions _ _ _) as [ss|]; [|split; [done|by intros (_ & _ & _ & _ & ? & ? & ? & _)]].
    destruct (review_events ss) as [|e es] eqn:He.
    { split; [done|]. intros (_ & _ & _ & _ & ss' & ? & [= <-] & Hne & _). by rewrite He in Hne. }
    destruct (generate (request_contents ss) (_consolidation_enabled environ)) as [actions|x] eqn:Hg.
    + split; [|done]. intros _. split_and!; try done. exists ss, actions. split_and!; [done| |done]. by rewrite He.
    + split; [done|]. intros (_ & _ & _ & _ & ss' & actions & [= <-] & _ & E). by rewrite Hg in E.
  - unfold _run_dream_review_for_user. repeat case_match; auto.
  - intros ss Hss. assert (0 < _session_limit environ)%Z as Hpos.
    { unfold _session_limit. destruct (int10 _) as [v|]; [|done]. by destruct (Z.ltb_spec 0 v). }
    destruct (collected _ _ _ Hss) as (Hlen & l & Hl & Hall). split_and!; [lia|done| |].
    + exists l. split; [done|]. eapply Forall_impl; [exact Hall|]. intros x (s & Hin & Hid & Hn & _).
      exists s. split_and!; [done..|]. intros job title E. apply is_scheduled in E. congruence.
    + intros c (e & -> & He)%list_elem_of_fmap. unfold review_events in He.
      apply list_elem_of_In, filter_In in He as [He Ht]. apply in_concat in He as (es & Hes & He).
      apply in_map_iff in Hes as (x & <- & Hx). exists e, x.
      split_and!; [by apply list_elem_of_In|by apply list_elem_of_In|done|by apply has_text_kept|].
      apply existsb_false. intros p Hp. unfold sanitize_content_for_memory in Hp.
      destruct (e_content e) as [cc|]; [|by apply not_elem_of_nil in Hp].
      destruct (existsb foreign (c_parts cc)) eqn:Ef.
      * apply list_elem_of_fmap in Hp as (q & -> & _). apply sanitize_part_ok.
      * rewrite existsb_false in Ef. by apply Ef.
Qed.

Lemma review_each_spec pass us : let '(reviewed, errors) := review_each pass us in
  reviewed + length errors = length us ∧
  errors = List.filter (λ u, match pass u with Ok r => negb (truthy (get r "success")) | Raise _ => true end) us.
Proof.
  induction us as [|u us IH]; [done|]. cbn [review_each List.filter length]. destruct (review_each pass us) as [n errors].
  destruct IH as [IH1 IH2]. destruct (pass u) as [r|x].
  - destruct (truthy (get r "success")); cbn [negb length]; split; try lia; [done|by f_equal].
  - cbn [length]. split; [lia|by f_equal].
Qed.

(** The nightly pass tries everyone. With no users named it goes over exactly the users with a
    session of their own since the lookback, each once; whatever a pass ends with, the others
    are still tried; those that failed are named, in order, and the reply is an error
    exactly if all of them did. *)
Theorem dream_tick_tries_everyone requested l now pass :
  app_name ≠ "" →
  let users := match requested with [] => list_active_users (Ok l) (now - lookback_seconds environ) | _ => requested end in
  (requested = [] → NoDup users ∧ ∀ u, u ∈ users ↔ u ≠ "" ∧ ∃ s, s ∈ l ∧ s_user s = u ∧
     (now - lookback_seconds environ <= last_update_time s)%Q ∧ _is_scheduler_session s = false) ∧
  (0 < lookback_seconds environ)%Q ∧
  match dream_review_tick environ app_name true true requested (Ok l) now pass with
  | Dream_none _ => users = []
  | Dreamt status reviewed failed errors =>
      users ≠ [] ∧ reviewed + failed = length users ∧
      errors = List.filter (λ u, match pass u with Ok r => negb (truthy (get r "success")) | Raise _ => true end) users ∧
      failed = length errors ∧ (status = 500%Z ↔ reviewed = 0) ∧ (status = 200%Z ∨ status = 500%Z)
  end.
Proof.
  intros Ha%String.eqb_neq. cbn zeta. split_and!.
  - intros ->. split; [|intros u; apply active_spec]. cbn. rewrite sort_by_perm. apply NoDup_dedup.
  - unfold lookback_seconds. set (h := default _ _). destruct (Qle_bool h 0) eqn:E; [done|].
    assert (¬ (h <= 0)%Q) as Hh by (intros Hle%Qle_bool_iff; congruence). lra.
  - unfold dream_review_tick. cbn [negb]. rewrite Ha.
    set (users := match requested with [] => _ | _ => _ end). destruct users as [|u us] eqn:Hu; [done|].
    pose proof (review_each_spec pass (u :: us)) as Hr. destruct (review_each pass (u :: us)) as [n errors].
    destruct Hr as [Hn He]. split_and!; [done..| |].
    + destruct (n =? 0) eqn:E1; cbn [andb]; [|apply Nat.eqb_neq in E1; by split].
      apply Nat.eqb_eq in E1. subst n. cbn [length Nat.add] in Hn. destruct (0 <? length errors) eqn:E2; [by split|].
      apply Nat.ltb_ge in E2. lia.
    + destruct (_ && _); auto.
Qed.
End DreamFacts.

(** The drain ends within the five seconds the framework gives a plugin to close. *)
Lemma drain_within_budget override raw : (0 <= _resolve_drain_timeout override raw <= 9 # 2)%Q.
Proof.
  assert (∀ q, 0 <= clamp q <= 9 # 2)%Q as Hc.
  { intros q. unfold clamp, _MAX_DRAIN_TIMEOUT_SECONDS. split; [|apply Q.le_min_l].
    apply Q.min_glb; [done|apply Q.le_max_l]. }
  unfold _resolve_drain_timeout. destruct override; [apply Hc|]. destruct raw as [r|]; [|done].
  destruct (special_float r); [apply Hc|]. destruct (float_of_str r); [apply Hc|done].
Qed.

(** ** At concrete inputs *)

Definition skill_write : pydict := [("path", PStr ".agents/skills/pdf/SKILL.md"); ("content", PStr "x")].

Definition demo_edit : call := Call EDIT "t" (PDict skill_write) (PDict [("success", PBool true)]).
Lemma telemetry_counts_witness :
  hits "manages" "pdf" [demo_edit; demo_edit; demo_edit] = 3%Z ∧
  ∃ state', after_calls [] [demo_edit; demo_edit; demo_edit] = Ok state' ∧
    (∀ n, let views := hits "views" n [demo_edit; demo_edit; demo_edit] in
       let manages := hits "manages" n [demo_edit; demo_edit; demo_edit] in
       (dget (telemetry_of state') n = None → views = 0 ∧ manages = 0)%Z ∧
       ∀ rec, dget (telemetry_of state') n = Some rec →
         counters rec = Some (views, manages) ∧
         (n ≠ "" → curator_text "s" (n, rec) =
            if (3 <=? manages)%Z then Some (_promotion_text n manages "s")
            else if (5 <=? views)%Z && (manages =? 0)%Z then Some (_review_text n) else None)) ∧
    (_pick_prompt (telemetry_of state') = COMBINED_REVIEW_PROMPT ↔
     ∃ n, (0 < hits "views" n [demo_edit; demo_edit; demo_edit] ∨ 0 < hits "manages" n [demo_edit; demo_edit; demo_edit])%Z).
Proof.
  split; [vm_compute; reflexivity|]. apply (telemetry_counts [] [demo_edit; demo_edit; demo_edit] "s"). reflexivity.
Defined.

Definition demo_sessions : list session := [demo_session "a" 100; Session "b" (scheduled_session_state "routine" "t") [] 100 "bob"].
Lemma dream_tick_tries_everyone_witness :
  let pass (u : string) := @Ok pydict [("success", PBool false)] in
  let users := list_active_users (Ok demo_sessions) (100 - lookback_seconds []) in
  users = ["ann"] ∧
  (@nil string = [] → NoDup users ∧ ∀ u, u ∈ users ↔ u ≠ "" ∧ ∃ s, s ∈ demo_sessions ∧ s_user s = u ∧
     (100 - lookback_seconds [] <= last_update_time s)%Q ∧ _is_scheduler_session s = false) ∧
  (0 < lookback_seconds [])%Q ∧
  match dream_review_tick [] "app" true true [] (Ok demo_sessions) 100 pass with
  | Dream_none _ => users = []
  | Dreamt status reviewed failed errors =>
      users ≠ [] ∧ reviewed + failed = length users ∧
      errors = List.filter (λ u, match pass u with Ok r => negb (truthy (get r "success")) | Raise _ => true end) users ∧
      failed = length errors ∧ (status = 500%Z ↔ reviewed = 0) ∧ (status = 200%Z ∨ status = 500%Z)
  end.
Proof.
  intros pass users. split; [vm_compute; reflexivity|].
  apply (dream_tick_tries_everyone [] "app" [] demo_sessions 100 pass). discriminate.
Defined.
