(* ===== verification/SessionStart.v ===== *)
(** * Session start: [conversation/session_start.py], [environment_context.py], [memory/user_profile.py]

    Who gets which environment. Requests of one process run as tasks of one event loop:
    each looks its environment up in the process's cache, refreshes its token, and
    otherwise builds one under the lock of its caller; an upgrade swaps the cached one. A
    step of a task is all it does between two [await]s. Then the migration of a workspace
    into the environment that replaces its sandbox, and what a session's first turn stamps. *)

From stdpp Require Import fin_maps gmap.
From S2P Require Import Prelude PyStr Names PyVal Regex RegexFacts Environ Memory HaltGuards RoutineTool SandboxLifecycle SandboxProvider WorkspaceWindow FileOps Posix Web RuntimeServer SandboxEnv.
#[local] Open Scope nat_scope.

(** ** Which provider *)

(** [_resolve_backend] *)
Definition _resolve_backend (environ : environment_vars) : string :=
  lower (strip (env_str environ "LHA_ENVIRONMENT_BACKEND" "sandbox")).
(** [_resolve_provider]: an override, or one of the two built in. *)
Inductive provider P := Override (p : P) | Vertex_sandbox | Local_host.
Arguments Override {P}. Arguments Vertex_sandbox {P}. Arguments Local_host {P}.
Definition _resolve_provider {P} (override : option P) (environ : environment_vars) : provider P :=
  match override with
  | Some p => Override p
  | None => if (_resolve_backend environ =? "sandbox")%string then Vertex_sandbox else Local_host
  end.

(** ** The cache and the locks *)

(** On whose behalf [_ensure_environment] runs: the user's, or a routine's run. *)
Inductive caller := AsUser (user_id : string) | AsRoutine (run : RoutineRun).

(** An [asyncio.Lock]: the task that holds it, and those that wait, in their order. *)
Record alock := Lock { holder : option nat; waiters : list nat }.
Definition free : alock := Lock None [].
Definition release (l : alock) : alock := Lock None (waiters l).

Section Tasks.
(** Environments are objects: compared by identity, each with the owner its refresh reads. *)
Context {E : Type} `{EqDecision E} (owner : E → option string) (backend : string).

Definition cache_key (c : caller) : string * string :=
  match c with AsUser u => (backend, u) | AsRoutine run => ("routine", run_id run) end.
Definition lock_key (c : caller) : string :=
  match c with AsUser u => u | AsRoutine run => "routine:" +:+ run_id run end.

Abbreviation env_cache := (gmap (string * string) E).

(** Where a task stands; in [Refreshing], [Rechecking] and [Finalizing] it awaits the
    environment, in [Queued] the lock, in [Closing] that the replaced one is closed. *)
Inductive stage :=
| Arriving
| Refreshing (env : E)
| Queued
| Rechecking (env : E)
| Finalizing (env : E)
| Closing (env : E)
| Returned (r : res E).
(** [_ensure_environment] or, with a new environment, [_hotswap_env]. *)
Record task := Task { t_caller : caller; t_swap : option E; t_stage : stage }.
Definition at_stage (st : stage) (t : task) : task := Task (t_caller t) (t_swap t) st.
Definition t_key (t : task) : string * string := cache_key (t_caller t).
Definition t_lock (t : task) : string := lock_key (t_caller t).

(** What resumes a task. Where it may come to build, [built] is what [_build()] gives;
    [Refreshed] and [Finalized] carry what the awaited call came to. *)
Inductive event :=
| Ran (built : res E)
| Refreshed (alive : res bool) (built : res E)
| Finalized (r : res unit)
| Closed
| Cancelled (e : exc).

(** [_refresh_sandbox_auth], once [refresh_auth] has answered. *)
Definition after_refresh (env : E) (alive : bool) (c : env_cache) : env_cache :=
  if alive then c
  else match filled (owner env) with Some o => delete (backend, o) c | None => c end.

Abbreviation outcome := (stage * alock * env_cache)%type.

Definition build_now (built : res E) (l : alock) (c : env_cache) : outcome :=
  match built with
  | Ok env => (Finalizing env, l, c)
  | Raise e => (Returned (Raise e), release l, c)
  end.
(** With the lock: [l] is held by this task. *)
Definition inside (t : task) (built : res E) (l : alock) (c : env_cache) : outcome :=
  match t_swap t with
  | Some new => (Finalizing new, l, c)
  | None => match c !! t_key t with
            | Some env => (Rechecking env, l, c)
            | None => build_now built l c
            end
  end.
(** [lock.acquire()] does not wait if the lock is free and nobody else waits. *)
Definition acquire (i : nat) (t : task) (built : res E) (l : alock) (c : env_cache) : outcome :=
  match l with
  | Lock None [] => inside t built (Lock (Some i) []) c
  | _ => (Queued, Lock (holder l) (waiters l ++ [i]), c)
  end.

(** What a task does when it is resumed; [None]: it does not wait for that. *)
Definition advance (i : nat) (t : task) (ev : event) (l : alock) (c : env_cache) : option outcome :=
  match t_stage t, ev with
  | Arriving, Ran built =>
      Some (match t_swap t, c !! t_key t with
            | None, Some env => (Refreshing env, l, c)
            | _, _ => acquire i t built l c
            end)
  | Refreshing env, Refreshed answer built =>
      Some (match answer with
            | Raise e => (Returned (Raise e), l, c)
            | Ok alive =>
                let c' := after_refresh env alive c in
                if decide (c' !! t_key t = Some env) then (Returned (Ok env), l, c')
                else acquire i t built l c'
            end)
  | Queued, Ran built =>
      match l with
      | Lock None (j :: rest) => if decide (j = i) then Some (inside t built (Lock (Some i) rest) c) else None
      | _ => None
      end
  | Queued, Cancelled e => Some (Returned (Raise e), Lock (holder l) (filter (.≠ i) (waiters l)), c)
  | Rechecking env, Refreshed answer built =>
      Some (match answer with
            | Raise e => (Returned (Raise e), release l, c)
            | Ok alive =>
                let c' := after_refresh env alive c in
                if decide (c' !! t_key t = Some env) then (Returned (Ok env), release l, c')
                else build_now built l c'
            end)
  | Finalizing env, Finalized answer =>
      Some (match answer with
            | Raise e => (Returned (Raise e), release l, c)
            | Ok _ =>
                let c' := <[t_key t := env]> c in
                match t_swap t, c !! t_key t with
                | Some _, Some old => if decide (old = env) then (Returned (Ok env), release l, c')
                                      else (Closing env, l, c')
                | _, _ => (Returned (Ok env), release l, c')
                end
            end)
  | Closing env, Closed => Some (Returned (Ok env), release l, c)
  | Closing _, Cancelled e => Some (Returned (Raise e), release l, c)
  | _, _ => None
  end.

(** The process: the cache, the locks by their keys, and the tasks so far. *)
Record process := Process { _env_cache : env_cache; _provisioning_locks : gmap string alock; tasks : list task }.
Definition lock_of (s : process) (k : string) : alock := default free (_provisioning_locks s !! k).

Definition resume (i : nat) (ev : event) (s : process) : option process :=
  t ← tasks s !! i;
  '(st, l, c) ← advance i t ev (lock_of s (t_lock t)) (_env_cache s);
  Some (Process c (<[t_lock t := l]> (_provisioning_locks s)) (<[i := at_stage st t]> (tasks s))).

(** A request comes in. *)
Definition arrive (c : caller) (swap : option E) (s : process) : process :=
  Process (_env_cache s) (_provisioning_locks s) (tasks s ++ [Task c swap Arriving]).

(** [_close_envs_at_exit]: which environments it closes. *)
Definition _close_envs_at_exit (closed_already : bool) (s : process) : list E * process :=
  if closed_already then ([], s)
  else ((map_to_list (_env_cache s)).*2, Process ∅ (_provisioning_locks s) (tasks s)).
End Tasks.
Arguments Arriving {E}. Arguments Queued {E}. Arguments Closed {E}. Arguments Cancelled {E}. Arguments Finalized {E}.
Arguments Refreshed {E}. Arguments Ran {E}.

(** ** Runs *)

Section Runs.
Context {E : Type} `{EqDecision E} (owner : E → option string) (backend : string).

Definition in_critical (st : stage (E:=E)) : bool :=
  match st with Rechecking _ | Finalizing _ | Closing _ => true | _ => false end.
Definition in_queue (st : stage (E:=E)) : bool := match st with Queued => true | _ => false end.
Definition has_returned (st : stage (E:=E)) : bool := match st with Returned _ => true | _ => false end.

(** What may happen: a request, or the resumption of a task. *)
Inductive step (s : process) : process → Prop :=
| step_arrive c swap : step s (arrive c swap s)
| step_resume i ev s' : resume owner backend i ev s = Some s' → step s s'.
Definition start (s : process (E:=E)) : Prop := tasks s = [] ∧ _provisioning_locks s = ∅ ∧ _env_cache s = ∅.
Inductive reachable : process → Prop :=
| reach_start s : start s → reachable s
| reach_step s s' : reachable s → step s s' → reachable s'.

(** The locks and the stages agree. *)
Record consistent (s : process) : Prop := {
  c_hold i t : tasks s !! i = Some t → (in_critical (t_stage t) = true ↔ holder (lock_of s (t_lock t)) = Some i);
  c_wait i t : tasks s !! i = Some t → (in_queue (t_stage t) = true ↔ i ∈ waiters (lock_of s (t_lock t)));
  c_known k i : holder (lock_of s k) = Some i ∨ i ∈ waiters (lock_of s k) →
    ∃ t, tasks s !! i = Some t ∧ t_lock t = k;
  c_order k : NoDup (waiters (lock_of s k))
}.

(** One task's step, and its lock. *)
Record moves (i : nat) (l l' : alock) (st' : stage (E:=E)) : Prop := {
  m_hold : in_critical st' = true ↔ holder l' = Some i;
  m_wait : in_queue st' = true ↔ i ∈ waiters l';
  m_order : NoDup (waiters l');
  m_holder j : j ≠ i → holder l' = Some j ↔ holder l = Some j;
  m_waiter j : j ≠ i → j ∈ waiters l' ↔ j ∈ waiters l
}.

Lemma moves_keep i l st' : holder l ≠ Some i → i ∉ waiters l → NoDup (waiters l) →
  in_critical st' = false → in_queue st' = false → moves i l l st'.
Proof. intros H1 H2 H3 H4 H5. split; rewrite ?H4, ?H5; try done; split; intros; done. Qed.
Lemma moves_hold i l st' : holder l = Some i → i ∉ waiters l → NoDup (waiters l) →
  in_critical st' = true → in_queue st' = false → moves i l l st'.
Proof. intros H1 H2 H3 H4 H5. split; rewrite ?H4, ?H5; try done; split; intros; done. Qed.
Lemma moves_release i l st' : holder l = Some i → i ∉ waiters l → NoDup (waiters l) →
  in_critical st' = false → in_queue st' = false → moves i l (release l) st'.
Proof.
  intros H1 H2 H3 H4 H5. split; rewrite ?H4, ?H5; cbn; try done; try (split; intros; done).
  intros j Hj. rewrite H1. split; congruence.
Qed.
Lemma moves_trans i l m n st' : (∀ j, j ≠ i → holder m = Some j ↔ holder l = Some j) →
  (∀ j, j ≠ i → j ∈ waiters m ↔ j ∈ waiters l) → moves i m n st' → moves i l n st'.
Proof. intros H1 H2 [? ? ? H3 H4]. split; try done; intros j Hj; [by rewrite H3, H1|by rewrite H4, H2]. Qed.

Lemma build_moves i built l c st l' c' : holder l = Some i → i ∉ waiters l → NoDup (waiters l) →
  build_now (E:=E) built l c = (st, l', c') → moves i l l' st ∧ c' = c.
Proof. intros H1 H2 H3. destruct built; intros [= <- <- <-]; split; try done; by (apply moves_hold || apply moves_release). Qed.
Lemma inside_moves i t built l c st l' c' : holder l = Some i → i ∉ waiters l → NoDup (waiters l) →
  inside backend t built l c = (st, l', c') → moves i l l' st ∧ c' = c.
Proof.
  intros H1 H2 H3. unfold inside. destruct (t_swap t); [intros [= <- <- <-]; split; [by apply moves_hold|done]|].
  destruct (_ !! _); [intros [= <- <- <-]; split; [by apply moves_hold|done]|]. by apply build_moves.
Qed.
Lemma acquire_moves i t built l c st l' c' : holder l ≠ Some i → i ∉ waiters l → NoDup (waiters l) →
  acquire backend i t built l c = (st, l', c') → moves i l l' st ∧ c' = c.
Proof.
  intros H1 H2 H3. unfold acquire.
  assert (moves i l (Lock (holder l) (waiters l ++ [i])) Queued) as Hq.
  { split; cbn; try done.
    - split; [|done]. intros _. apply elem_of_app. right. by apply list_elem_of_singleton.
    - apply NoDup_app. split_and!; [done| |apply NoDup_singleton]. intros x Hx ->%list_elem_of_singleton. done.
    - intros j Hj. rewrite elem_of_app, list_elem_of_singleton. naive_solver. }
  destruct l as [[j|] ws]; [intros [= <- <- <-]; done|]. destruct ws as [|w ws]; [|intros [= <- <- <-]; done].
  intros Hin. apply (inside_moves i) in Hin as [Hm ->]; [|done|by apply not_elem_of_nil|constructor]. split; [|done].
  eapply moves_trans; [| |exact Hm]; cbn; intros j Hj; [split; congruence|done].
Qed.

Lemma advance_moves i t ev l c st l' c' : (in_critical (t_stage t) = true ↔ holder l = Some i) →
  (in_queue (t_stage t) = true ↔ i ∈ waiters l) → NoDup (waiters l) →
  advance owner backend i t ev l c = Some (st, l', c') → moves i l l' st.
Proof.
  intros H1 H2 H3. unfold advance.
  destruct (t_stage t) as [|env| |env|env|env|r]; destruct ev as [built|answer built|answer| |e]; try done; cbn in *.
  all: try (assert (holder l = Some i) as Hh by (by apply H1)).
  all: try (assert (holder l ≠ Some i) as Hh by (by intros ?%H1)).
  all: try (assert (i ∉ waiters l) as Hw by (by intros ?%H2)).
  - intros [= E1]. destruct (t_swap t), (c !! t_key backend t); try (by eapply acquire_moves in E1 as [? ?]).
    injection E1 as <- <- <-. by apply moves_keep.
  - intros [= E1]. destruct answer as [alive|e]; [|injection E1 as <- <- <-; by apply moves_keep].
    case_decide; [injection E1 as <- <- <-; by apply moves_keep|]. by eapply acquire_moves in E1 as [? ?].
  - destruct l as [[k|] [|j rest]]; try done. case_decide as Hj; [|done]. subst j. intros [= E1]. cbn in *.
    inversion H3 as [|? ? Hn Hd]; subst. apply (inside_moves i) in E1 as [Hm _]; [|done..].
    eapply moves_trans; [| |exact Hm]; cbn; intros j Hj; [split; congruence|]. rewrite elem_of_cons. naive_solver.
  - intros [= <- <- <-]. split; cbn; try done.
    + split; [discriminate|]. intros [Hn _]%list_elem_of_filter. done.
    + by apply NoDup_filter.
    + intros j Hj. rewrite list_elem_of_filter. naive_solver.
  - intros [= E1]. destruct answer as [alive|e]; [|injection E1 as <- <- <-; by apply moves_release].
    case_decide; [injection E1 as <- <- <-; by apply moves_release|]. by eapply build_moves in E1 as [? ?].
  - intros [= E1]. destruct answer as [[]|e]; [|injection E1 as <- <- <-; by apply moves_release].
    destruct (t_swap t); [|injection E1 as <- <- <-; by apply moves_release].
    destruct (c !! t_key backend t); [case_decide|]; injection E1 as <- <- <-; by (apply moves_release || apply moves_hold).
  - intros [= <- <- <-]. by apply moves_release.
  - intros [= <- <- <-]. by apply moves_release.
Qed.

Lemma resume_inv i ev s s' : resume owner backend i ev s = Some s' → ∃ t st l c, tasks s !! i = Some t ∧
  advance owner backend i t ev (lock_of s (t_lock t)) (_env_cache s) = Some (st, l, c) ∧
  s' = Process c (<[t_lock t := l]> (_provisioning_locks s)) (<[i := at_stage st t]> (tasks s)).
Proof.
  unfold resume. destruct (tasks s !! i) as [t|]; [|done]. cbn.
  destruct (advance owner backend i t ev (lock_of s (t_lock t)) (_env_cache s)) as [[[st l] c]|] eqn:Ha; [|done].
  cbn. intros [= <-]. by exists t, st, l, c.
Qed.
Lemma lock_of_set c k l locks ts k' : lock_of (E:=E) (Process c (<[k := l]> locks) ts) k' =
  if decide (k' = k) then l else default free (locks !! k').
Proof.
  unfold lock_of. cbn. case_decide as Hk; [subst; by rewrite lookup_insert_eq|by rewrite lookup_insert_ne].
Qed.
Lemma task_after (i : nat) (t : task (E:=E)) st (l : list task) j t' : l !! i = Some t → <[i := at_stage st t]> l !! j = Some t' →
  j = i ∧ t' = at_stage st t ∨ j ≠ i ∧ l !! j = Some t'.
Proof.
  intros Hi. destruct (decide (j = i)) as [->|Hne].
  - rewrite list_lookup_insert_eq by (by eapply lookup_lt_Some). intros [= <-]. by left.
  - rewrite list_lookup_insert_ne by done. by right.
Qed.

Lemma arrive_consistent c swap s : consistent s → consistent (arrive c swap s).
Proof.
  intros [H1 H2 H3 H4]. split; [| | |done].
  - intros i t [Ht|[Hl [_ <-]%list_lookup_singleton_Some]]%lookup_app_Some; [by apply H1|].
    split; [done|]. intros Hh. destruct (H3 _ _ (or_introl Hh)) as (t & Ht%lookup_lt_Some & _). lia.
  - intros i t [Ht|[Hl [_ <-]%list_lookup_singleton_Some]]%lookup_app_Some; [by apply H2|].
    split; [done|]. intros Hh. destruct (H3 _ _ (or_intror Hh)) as (t & Ht%lookup_lt_Some & _). lia.
  - intros k i Hki. destruct (H3 k i Hki) as (t & Ht & Hk). exists t. split; [|done].
    apply lookup_app_Some. by left.
Qed.
Lemma resume_consistent i ev s s' : consistent s → resume owner backend i ev s = Some s' → consistent s'.
Proof.
  intros [H1 H2 H3 H4] (t & st & l & c & Ht & Ha & ->)%resume_inv.
  pose proof (advance_moves _ _ _ _ _ _ _ _ (H1 i t Ht) (H2 i t Ht) (H4 (t_lock t)) Ha) as Hm.
  split; cbn [tasks].
  - intros j t' [[-> ->]|[Hne Hj]]%(task_after i t st (tasks s) j t' Ht); rewrite lock_of_set.
    + rewrite decide_True by done. apply (m_hold _ _ _ _ Hm).
    + rewrite (H1 j t' Hj). case_decide as Hk; [|done]. rewrite (m_holder _ _ _ _ Hm j Hne). by rewrite Hk.
  - intros j t' [[-> ->]|[Hne Hj]]%(task_after i t st (tasks s) j t' Ht); rewrite lock_of_set.
    + rewrite decide_True by done. apply (m_wait _ _ _ _ Hm).
    + rewrite (H2 j t' Hj). case_decide as Hk; [|done]. rewrite (m_waiter _ _ _ _ Hm j Hne). by rewrite Hk.
  - intros k j. rewrite lock_of_set. destruct (decide (j = i)) as [->|Hne].
    + intros Hj. exists (at_stage st t).
      rewrite list_lookup_insert_eq by (by eapply lookup_lt_Some). split; [done|].
      case_decide as Hk; [done|]. destruct (H3 k i Hj) as (t' & Ht' & <-). congruence.
    + rewrite list_lookup_insert_ne by done. case_decide as Hk; [|apply H3].
      rewrite (m_holder _ _ _ _ Hm j Hne), (m_waiter _ _ _ _ Hm j Hne). subst k. apply H3.
  - intros k. rewrite lock_of_set. case_decide; [apply (m_order _ _ _ _ Hm)|apply H4].
Qed.
Lemma reachable_consistent s : reachable s → consistent s.
Proof.
  induction 1 as [s (Ht & Hl & _)|s s' _ IH [c swap|i ev s'' Hr]].
  - split; unfold lock_of; rewrite ?Ht, ?Hl; try (intros *; by rewrite ?lookup_nil).
    + intros k i. rewrite lookup_empty. cbn. intros [?|Hi]; [done|]. by apply not_elem_of_nil in Hi.
    + intros k. rewrite lookup_empty. constructor.
  - by apply arrive_consistent.
  - by eapply resume_consistent.
Qed.

(** At most one task of a caller is in its critical section. *)
Lemma critical_alone s i j ti tj : consistent s → tasks s !! i = Some ti → tasks s !! j = Some tj →
  in_critical (t_stage ti) = true → in_critical (t_stage tj) = true → t_lock ti = t_lock tj → i = j.
Proof. intros Hc Hi Hj Hci%(c_hold s Hc i ti Hi) Hcj%(c_hold s Hc j tj Hj) Hk. rewrite Hk in Hci. congruence. Qed.

(** ** Every task returns *)

Definition rank (st : stage (E:=E)) : nat :=
  match st with
  | Arriving => 6 | Refreshing _ => 5 | Queued => 4 | Rechecking _ => 3 | Finalizing _ => 2 | Closing _ => 1
  | Returned _ => 0
  end.
Definition work (s : process) : nat := sum_list_with (λ t, rank (t_stage t)) (tasks s).

Lemma acquire_rank i t built l c st l' c' : acquire backend i t built l c = (st, l', c') → rank st ≤ 4.
Proof.
  unfold acquire, inside, build_now.
  destruct l as [[h|] [|w ws]], (t_swap t), (c !! t_key backend t), built; intros [= <- <- <-]; cbn; lia.
Qed.
Lemma advance_rank i t ev l c st l' c' : advance owner backend i t ev l c = Some (st, l', c') →
  rank st < rank (t_stage t).
Proof.
  unfold advance.
  destruct (t_stage t) as [|env| |env|env|env|r]; destruct ev as [built|[alive|e] built|[u|e]| |e]; try done; cbn.
  all: try (intros [= <- <- <-]; cbn; lia).
  - intros [= E1]. destruct (t_swap t), (c !! t_key backend t); try (apply acquire_rank in E1; lia).
    injection E1 as <- <- <-. cbn. lia.
  - case_decide; [intros [= <- <- <-]; cbn; lia|]. intros [= E1]. apply acquire_rank in E1. lia.
  - destruct l as [[k|] [|j rest]]; try done. case_decide; [|done]. unfold inside, build_now.
    destruct (t_swap t), (c !! t_key backend t), built; intros [= <- <- <-]; cbn; lia.
  - case_decide; [intros [= <- <- <-]; cbn; lia|]. destruct built; intros [= <- <- <-]; cbn; lia.
  - destruct (t_swap t), (c !! t_key backend t); try case_decide; intros [= <- <- <-]; cbn; lia.
Qed.
Lemma sum_insert (l : list task) i t st : l !! i = Some t → rank st < rank (t_stage t) →
  sum_list_with (λ t, rank (t_stage t)) (<[i := at_stage st t]> l) < sum_list_with (λ t, rank (t_stage t)) l.
Proof.
  revert i. induction l as [|x l IH]; intros [|i] Hi Hr; cbn in Hi; try done.
  - injection Hi as ->. change (rank st + sum_list_with (λ t, rank (t_stage t)) l < rank (t_stage t) + sum_list_with (λ t, rank (t_stage t)) l). lia.
  - specialize (IH i Hi Hr). change (rank (t_stage x) + sum_list_with (λ t, rank (t_stage t)) (<[i := at_stage st t]> l) <
      rank (t_stage x) + sum_list_with (λ t, rank (t_stage t)) l). lia.
Qed.
Lemma resume_work i ev s s' : resume owner backend i ev s = Some s' → work s' < work s.
Proof. intros (t & st & l & c & Ht & Ha%advance_rank & ->)%resume_inv. by apply sum_insert. Qed.

(** Someone can always go on. *)
Lemma holder_moves s i t : tasks s !! i = Some t → in_critical (t_stage t) = true →
  ∃ ev s', resume owner backend i ev s = Some s'.
Proof.
  intros Ht Hc. set (l := lock_of s (t_lock t)).
  assert (∃ ev o, advance owner backend i t ev l (_env_cache s) = Some o) as (ev & [[st l'] c] & Ha).
  { unfold advance. destruct (t_stage t); try done.
    - exists (Refreshed (Raise (KeyError "")) (Raise (KeyError ""))). by eexists.
    - exists (Finalized (Raise (KeyError ""))). by eexists.
    - exists Closed. by eexists. }
  exists ev. unfold resume. rewrite Ht. cbn. fold l. rewrite Ha. by eexists.
Qed.
Lemma queue_moves s : consistent s → (∃ i t, tasks s !! i = Some t ∧ has_returned (t_stage t) = false) →
  ∃ i ev s', resume owner backend i ev s = Some s'.
Proof.
  intros Hs (i & t & Ht & Hr). destruct (in_queue (t_stage t)) eqn:Hq.
  - apply (c_wait s Hs i t Ht) in Hq. destruct (lock_of s (t_lock t)) as [[h|] ws] eqn:Hl.
    + destruct (c_known s Hs (t_lock t) h) as (t' & Ht' & Hk); [left; by rewrite Hl|].
      destruct (holder_moves s h t' Ht') as (ev & s' & Hev); [|by exists h, ev, s'].
      apply (c_hold s Hs h t' Ht'). by rewrite Hk, Hl.
    + cbn in Hq. destruct ws as [|j ws]; [by apply not_elem_of_nil in Hq|].
      destruct (c_known s Hs (t_lock t) j) as (t' & Ht' & Hk); [right; rewrite Hl; by left|].
      assert (in_queue (t_stage t') = true) as Hj.
      { apply (c_wait s Hs j t' Ht'). rewrite Hk, Hl. by left. }
      exists j, (Ran (Raise (KeyError ""))). unfold resume. rewrite Ht'. cbn. rewrite Hk, Hl. unfold advance.
      destruct (t_stage t'); try done. rewrite decide_True by done. by destruct (inside _ _ _ _ _) as [[? ?] ?]; eexists.
  - destruct (in_critical (t_stage t)) eqn:Hc.
    { destruct (holder_moves s i t Ht Hc) as (ev & s' & Hev). by exists i, ev, s'. }
    exists i. destruct (t_stage t) as [|env| | | | |] eqn:Hst; try done.
    + exists (Ran (Raise (KeyError ""))). unfold resume. rewrite Ht. cbn. unfold advance. rewrite Hst.
      cbn. destruct (t_swap t), (_env_cache s !! t_key backend t); try (by eexists);
        by destruct (acquire _ _ _ _ _ _) as [[? ?] ?]; eexists.
    + exists (Refreshed (Raise (KeyError "")) (Raise (KeyError ""))). unfold resume. rewrite Ht. cbn.
      unfold advance. rewrite Hst. by eexists.
Qed.

(** [n] resumptions, with no new request. *)
Inductive resumes : nat → process → process → Prop :=
| resumes_none s : resumes 0 s s
| resumes_more n i ev s s' s'' : resume owner backend i ev s = Some s' → resumes n s' s'' → resumes (S n) s s''.
Definition all_returned (s : process (E:=E)) : Prop := Forall (λ t, has_returned (t_stage t) = true) (tasks s).

Lemma resumes_work n s s' : resumes n s s' → n + work s' ≤ work s.
Proof. induction 1 as [|n i ev s s' s'' Hr%resume_work _ IH]; lia. Qed.
Lemma resumes_consistent n s s' : resumes n s s' → consistent s → consistent s'.
Proof. induction 1 as [|n i ev s s' s'' Hr _ IH]; [done|]. intros Hs. by eapply IH, resume_consistent. Qed.
Lemma not_returned s : all_returned s ∨ ∃ i t, tasks s !! i = Some t ∧ has_returned (t_stage t) = false.
Proof.
  destruct (decide (all_returned s)) as [|Hn]; [by left|right]. unfold all_returned in Hn.
  apply not_Forall_Exists in Hn; [|tc_solve]. apply Exists_exists in Hn as (t & [i Hi]%list_elem_of_lookup & Ht).
  exists i, t. split; [done|]. by apply not_true_iff_false in Ht.
Qed.
Lemma work_bound s : work s ≤ 6 * length (tasks s).
Proof.
  unfold work. induction (tasks s) as [|t ts IH]; [done|].
  change (rank (t_stage t) + sum_list_with (λ t, rank (t_stage t)) ts ≤ 6 * S (length ts)).
  destruct (t_stage t); cbn [rank]; lia.
Qed.
Lemma run_out s : consistent s → ∃ n s', resumes n s s' ∧ all_returned s'.
Proof.
  remember (work s) as w eqn:Hw. revert s Hw. induction (lt_wf w) as [w _ IH]. intros s -> Hs.
  destruct (not_returned s) as [|Hn]; [exists 0, s; split; [constructor|done]|].
  destruct (queue_moves s Hs Hn) as (i & ev & s1 & Hr).
  destruct (IH (work s1) (resume_work _ _ _ _ Hr) s1 eq_refl (resume_consistent _ _ _ _ Hs Hr)) as (n & s' & Hn' & Ha).
  exists (S n), s'. split; [by econstructor|done].
Qed.


(** ** What is cached and returned *)

(** The slot of a task's key, as the task relies on it while it holds the lock. *)
Definition slot (t : task) (c : gmap (string * string) E) : Prop :=
  match t_stage t with
  | Rechecking env => c !! t_key backend t = None ∨ c !! t_key backend t = Some env
  | Finalizing _ => t_swap t = None → c !! t_key backend t = None
  | _ => True
  end.
Lemma inside_cache t (built : res E) l c st l' c' : inside backend t built l c = (st, l', c') → c' = c.
Proof. unfold inside, build_now. by destruct (t_swap t), (c !! t_key backend t), built; intros [= <- <- <-]. Qed.
Lemma acquire_cache i t (built : res E) l c st l' c' : acquire backend i t built l c = (st, l', c') → c' = c.
Proof. unfold acquire. destruct l as [[h|] [|w ws]]; try (by intros [= <- <- <-]). apply inside_cache. Qed.
(** What a step does to the cache: entries vanish, or a finalized environment is put in. *)
Lemma advance_cache i t ev l c st l' c' : advance owner backend i t ev l c = Some (st, l', c') →
  (∀ k e, c' !! k = Some e → c !! k = Some e) ∨
  (∃ env, t_stage t = Finalizing env ∧ c' = <[t_key backend t := env]> c ∧ (st = Closing env ∨ st = Returned (Ok env))).
Proof.
  assert (∀ (c : gmap (string * string) E) env alive k e,
    after_refresh owner backend env alive c !! k = Some e → c !! k = Some e) as Hafter.
  { intros d env alive k e. unfold after_refresh. destruct alive, (filled (owner env)); try done.
    by intros [_ ?]%lookup_delete_Some. }
  unfold advance.
  destruct (t_stage t) as [|env| |env|env|env|r]; destruct ev as [built|[alive|e] built|[u|e]| |e]; try done.
  all: try (intros [= <- <- <-]; by left).
  - intros [= E1]. left. destruct (t_swap t), (c !! t_key backend t); try (by apply acquire_cache in E1 as ->).
    by injection E1 as <- <- <-.
  - intros [= E1]. left. case_decide; [injection E1 as <- <- <-|apply acquire_cache in E1 as ->]; apply Hafter.
  - destruct l as [[h|] [|w ws]]; try done. case_decide; [|done]. intros [= ->%inside_cache]. by left.
  - intros [= E1]. left. case_decide; [injection E1 as <- <- <-|destruct built; injection E1 as <- <- <-]; apply Hafter.
  - intros [= E1]. right. exists env. destruct (t_swap t), (c !! t_key backend t); try case_decide;
      injection E1 as <- <- <-; auto.
Qed.

Lemma slot_smaller (t : task) (c c' : gmap (string * string) E) : (∀ k e, c' !! k = Some e → c !! k = Some e) → slot t c → slot t c'.
Proof.
  intros Hsub. unfold slot. destruct (c' !! t_key backend t) as [e|] eqn:Hc'; [|by destruct (t_stage t); auto].
  pose proof (Hsub _ _ Hc') as Hc. by rewrite Hc.
Qed.
Lemma inside_slot t (built : res E) l c st l' c' : inside backend t built l c = (st, l', c') → slot (at_stage st t) c'.
Proof.
  unfold inside, build_now. destruct (t_swap t) eqn:Hsw, (c !! t_key backend t) eqn:Hc, built; intros [= <- <- <-];
    unfold slot, t_key in *; cbn; rewrite ?Hsw; auto; done.
Qed.
Lemma advance_slot i t ev l c st l' c' : slot t c → advance owner backend i t ev l c = Some (st, l', c') →
  slot (at_stage st t) c'.
Proof.
  intros Hs Ha. assert (∀ r, slot (at_stage (Returned r) t) c') as Hret by done.
  assert (∀ built l1 c1 st l' c', acquire backend i t built l1 c1 = (st, l', c') → slot (at_stage st t) c') as Hacq.
  { intros built l1 c1 st1 l2 c2. unfold acquire. destruct l1 as [[h|] [|w ws]]; try (by intros [= <- <- <-]).
    apply inside_slot. }
  pose proof (advance_cache _ _ _ _ _ _ _ _ Ha) as Hsub. revert Ha. unfold advance.
  destruct (t_stage t) as [|env| |env|env|env|r] eqn:Est; destruct ev as [built|[alive|e] built|[u|e]| |e]; try done.
  all: try (intros [= <- <- <-]; done).
  - intros [= E1]. destruct (t_swap t), (c !! t_key backend t); try (by eapply Hacq).
    by injection E1 as <- <- <-.
  - intros [= E1]. case_decide; [by injection E1 as <- <- <-|by eapply Hacq].
  - destruct l as [[h|] [|w ws]]; try done. case_decide; [|done]. intros [= E1]. by eapply inside_slot.
  - intros [= E1]. case_decide as Hd; [by injection E1 as <- <- <-|].
    destruct built; injection E1 as <- <- <-; [|done]. unfold slot. cbn. intros _.
    destruct Hsub as [Hsub|(? & ? & _)]; [|congruence]. unfold slot in Hs. rewrite Est in Hs.
    change (t_key backend (at_stage (Finalizing a) t)) with (t_key backend t).
    destruct (_ !! _) as [e|] eqn:Hc in Hd |- *; [|done]. apply Hsub in Hc. destruct Hs; congruence.
  - intros [= E1]. destruct (t_swap t), (c !! t_key backend t); try case_decide; by injection E1 as <- <- <-.
Qed.

Lemma returned_cached i t ev l c env l' c' : advance owner backend i t ev l c = Some (Returned (Ok env), l', c') →
  (∀ e, t_stage t ≠ Closing e) → c' !! t_key backend t = Some env.
Proof.
  intros Ha Hnc. revert Ha. unfold advance, acquire, inside, build_now.
  destruct (t_stage t) as [|e| |e|e|e|r] eqn:Est; destruct ev as [built|[alive|x] built|[u|x]| |x]; try done.
  - by destruct (t_swap t), (c !! t_key backend t), l as [[h|] [|w ws]], built.
  - case_decide as Hd; [by intros [= <- <- <-]|].
    by destruct (t_swap t), (after_refresh owner backend e alive c !! t_key backend t), l as [[h|] [|w ws]], built.
  - destruct l as [[h|] [|w ws]]; try done. case_decide; [|done].
    by destruct (t_swap t), (c !! t_key backend t), built.
  - case_decide as Hd; [by intros [= <- <- <-]|]. by destruct built.
  - destruct (t_swap t), (c !! t_key backend t); try case_decide; intros [= <- <- <-]; by rewrite lookup_insert_eq.
  - by destruct (Hnc e).
Qed.
Lemma key_lock c d : backend ≠ "routine" → cache_key backend c = cache_key backend d → lock_key c = lock_key d.
Proof. intros Hb. destruct c, d; cbn; intros [=]; congruence. Qed.
Definition slots (s : process) : Prop := ∀ i t, tasks s !! i = Some t → slot t (_env_cache s).
Lemma reachable_slots s : backend ≠ "routine" → reachable s → slots s.
Proof.
  intros Hb. induction 1 as [s (Ht & _ & _)|s s' Hr IH [c swap|i ev s'' Hi]].
  - intros i t. by rewrite Ht.
  - intros i t [Ht|[_ [_ <-]%list_lookup_singleton_Some]]%lookup_app_Some; [exact (IH i t Ht)|done].
  - pose proof (reachable_consistent s Hr) as Hc.
    apply resume_inv in Hi as (t & st & l & c & Ht & Ha & ->). intros j t'.
    intros [[-> ->]|[Hne Hj]]%(task_after i t st (tasks s) j t' Ht).
    + exact (advance_slot _ _ _ _ _ _ _ _ (IH i t Ht) Ha).
    + pose proof (IH j t' Hj) as Hs. cbn.
      destruct (advance_cache _ _ _ _ _ _ _ _ Ha) as [Hsub|(env & Est & -> & _)]; [by eapply slot_smaller|].
      assert (in_critical (t_stage t') = true → t_key backend t' ≠ t_key backend t) as Hkey.
      { intros Hcrit Hk. apply Hne. apply (critical_alone s j i t' t Hc Hj Ht Hcrit); [by rewrite Est|].
        by apply key_lock. }
      unfold slot in *. destruct (t_stage t'); try done; rewrite lookup_insert_ne; try done; apply not_eq_sym; by apply Hkey.
Qed.

(** C9. One environment per caller. Two requests for the same cached entry are never both past
    the lock, so at most one environment is being built for a user or a routine at any
    time; one that is being built for [_ensure_environment] never takes the place of a
    cached one, even though tokens are refreshed and entries evicted meanwhile, outside
    the lock; and what a request returns is what is cached when it returns. Only an
    upgrade replaces a cached environment, and it goes on to close the one it replaced. *)
Theorem one_environment_per_caller s : backend ≠ "routine" → reachable s →
  (∀ i j ti tj, tasks s !! i = Some ti → tasks s !! j = Some tj →
     in_critical (t_stage ti) = true → in_critical (t_stage tj) = true →
     t_key backend ti = t_key backend tj → i = j) ∧
  (∀ i t env, tasks s !! i = Some t → t_stage t = Finalizing env → t_swap t = None →
     _env_cache s !! t_key backend t = None) ∧
  (∀ i ev s' t, resume owner backend i ev s = Some s' → tasks s !! i = Some t →
     (∀ env, tasks s' !! i = Some (at_stage (Returned (Ok env)) t) → (∀ e, t_stage t ≠ Closing e) →
        _env_cache s' !! t_key backend t = Some env) ∧
     (∀ k old, _env_cache s !! k = Some old → _env_cache s' !! k ≠ Some old → _env_cache s' !! k = None ∨
        ∃ env, tasks s' !! i = Some (at_stage (Closing env) t) ∧ k = t_key backend t ∧ t_swap t ≠ None)).
Proof.
  intros Hb Hr. pose proof (reachable_consistent s Hr) as Hc. pose proof (reachable_slots s Hb Hr) as Hs. split_and!.
  - intros i j ti tj Hi Hj Hci Hcj Hk. apply (critical_alone s i j ti tj Hc Hi Hj Hci Hcj). by apply key_lock.
  - intros i t env Ht Hst Hsw. pose proof (Hs i t Ht) as Hslot. unfold slot in Hslot. rewrite Hst in Hslot. auto.
  - intros i ev s' t (t0 & st & l & c & Ht & Ha & ->)%resume_inv Ht'. assert (t0 = t) as -> by congruence. cbn.
    rewrite list_lookup_insert_eq by (by eapply lookup_lt_Some). split.
    + intros env [= ->] Hnc. by eapply returned_cached.
    + intros k old Hold Hnew. destruct (c !! k) as [e|] eqn:Hck; [right|by left].
      destruct (advance_cache _ _ _ _ _ _ _ _ Ha) as [Hsub|(env & Est & -> & Hst)].
      { apply Hsub in Hck. congruence. }
      apply lookup_insert_Some in Hck as [[Hk ->]|[_ ?]]; [|congruence]. subst k.
      pose proof (Hs i t Ht) as Hslot. unfold slot in Hslot. rewrite Est in Hslot.
      exists e. assert (t_swap t ≠ None) as Hsw by (intros Hn; specialize (Hslot Hn); congruence).
      split_and!; [|done..]. destruct Hst as [->| ->]; [done|].
      revert Ha. unfold advance. rewrite Est. destruct ev as [| |[u|x]| |]; try done.
      destruct (t_swap t); [|done]. rewrite Hold. case_decide; [congruence|done].
Qed.

(** ** Whose it is *)

(** Which entry an environment was built for: whoever builds one for a task builds it for
    that task's caller. *)
Context (made_for : E → string * string).
Definition built_of (ev : event) : option E :=
  match ev with Ran (Ok e) | Refreshed _ (Ok e) => Some e | _ => None end.
Definition env_of (st : stage) : option E :=
  match st with
  | Refreshing e | Rechecking e | Finalizing e | Closing e | Returned (Ok e) => Some e
  | _ => None
  end.
Inductive served : process → Prop :=
| served_start s : start s → served s
| served_arrive c swap s : served s → (∀ e, swap = Some e → made_for e = cache_key backend c) → served (arrive c swap s)
| served_resume i ev s s' : served s →
    (∀ t e, tasks s !! i = Some t → built_of ev = Some e → made_for e = t_key backend t) →
    resume owner backend i ev s = Some s' → served s'.

Lemma inside_env t (built : res E) l c st l' c' e : inside backend t built l c = (st, l', c') → env_of st = Some e →
  t_swap t = Some e ∨ built = Ok e ∨ c !! t_key backend t = Some e.
Proof.
  unfold inside, build_now. destruct (t_swap t), (c !! t_key backend t), built; intros [= <- <- <-] [= ->]; auto.
Qed.
Lemma acquire_env i t (built : res E) l c st l' c' e : acquire backend i t built l c = (st, l', c') →
  env_of st = Some e → t_swap t = Some e ∨ built = Ok e ∨ c !! t_key backend t = Some e.
Proof. unfold acquire. destruct l as [[h|] [|w ws]]; try (by intros [= <- <- <-]). apply inside_env. Qed.
Lemma advance_env i t ev l c st l' c' e : advance owner backend i t ev l c = Some (st, l', c') → env_of st = Some e →
  env_of (t_stage t) = Some e ∨ t_swap t = Some e ∨ built_of ev = Some e ∨ c !! t_key backend t = Some e.
Proof.
  intros Ha. pose proof (advance_cache _ _ _ _ _ _ _ _ Ha) as Hsub. revert Ha. unfold advance.
  destruct (t_stage t) as [|env| |env|env|env|r] eqn:Est; destruct ev as [built|[alive|x] built|[u|x]| |x]; try done.
  all: try (intros [= <- <- <-]; by auto).
  - intros [= E1] He. assert (t_swap t = Some e ∨ built = Ok e ∨ c !! t_key backend t = Some e ∨ env_of st = None) as H1.
    { destruct (t_swap t) as [new|] eqn:Hsw, (c !! t_key backend t) as [old|] eqn:Hc.
      all: try (apply acquire_env with (e := e) in E1; [|done]; rewrite Hsw, Hc in E1; naive_solver).
      injection E1 as <- <- <-. injection He as ->. auto. }
    destruct H1 as [H1|[->|[H1|H1]]]; auto. congruence.
  - intros [= E1] He. case_decide; [injection E1 as <- <- <-; by auto|].
    apply acquire_env with (e := e) in E1 as H1; [|done]. apply acquire_cache in E1 as ->.
    destruct Hsub as [Hsub|(? & ? & _)]; [|congruence]. destruct H1 as [H1|[->|H1%Hsub]]; auto.
  - destruct l as [[h|] [|w ws]]; try done. case_decide; [|done]. intros [= E1] He.
    apply inside_env with (e := e) in E1; [|done]. destruct E1 as [H1|[->|H1]]; auto.
  - intros [= E1] He. case_decide; [injection E1 as <- <- <-; by auto|].
    destruct built; injection E1 as <- <- <-; [|done]. auto.
  - intros [= E1] He. destruct (t_swap t), (c !! t_key backend t); try case_decide; injection E1 as <- <- <-; auto.
Qed.

Lemma served_owned s : served s → (∀ k e, _env_cache s !! k = Some e → made_for e = k) ∧
  (∀ i t e, tasks s !! i = Some t → env_of (t_stage t) = Some e ∨ t_swap t = Some e → made_for e = t_key backend t).
Proof.
  induction 1 as [s (Ht & _ & Hc)|c swap s _ [IH1 IH2] Hsw|i ev s s' _ [IH1 IH2] Hb Hr].
  - split; [intros k e; by rewrite Hc, lookup_empty|intros i t e; by rewrite Ht].
  - split; [done|].
    intros i t e [Ht|[_ [_ <-]%list_lookup_singleton_Some]]%lookup_app_Some; [by eapply IH2|].
    intros [?|He]; [done|]. by apply Hsw.
  - apply resume_inv in Hr as (t & st & l & c & Ht & Ha & ->). cbn. split.
    + intros k e Hk. destruct (advance_cache _ _ _ _ _ _ _ _ Ha) as [Hsub|(env & Est & -> & _)].
      * by apply IH1, Hsub.
      * apply lookup_insert_Some in Hk as [[<- ->]|[_ ?]]; [|by apply IH1]. apply (IH2 i t); [done|left; by rewrite Est].
    + intros j t' e [[-> ->]|[Hne Hj]]%(task_after i t st (tasks s) j t' Ht); [|by apply (IH2 j t' e)].
      change (t_key backend (at_stage st t)) with (t_key backend t). intros [He|He]; [|by apply (IH2 i t e Ht); right].
      destruct (advance_env _ _ _ _ _ _ _ _ _ Ha He) as [H1|[H1|[H1|H1]]];
        [by apply (IH2 i t e Ht); left|by apply (IH2 i t e Ht); right|by apply Hb|by apply IH1].
Qed.

(** C10. Nobody is handed another's environment. However requests, refreshes, evictions, upgrades
    and failures interleave, what a request returns, awaits or finds cached was built for
    its own caller; so two requests that return the same environment have the same entry,
    and users never share one. *)
Theorem environments_stay_apart s : served s →
  (∀ i t e, tasks s !! i = Some t → t_stage t = Returned (Ok e) → made_for e = t_key backend t) ∧
  (∀ c e, _env_cache s !! cache_key backend c = Some e → made_for e = cache_key backend c) ∧
  (∀ i j ti tj u v e, tasks s !! i = Some ti → tasks s !! j = Some tj →
     t_caller ti = AsUser u → t_caller tj = AsUser v →
     t_stage ti = Returned (Ok e) → t_stage tj = Returned (Ok e) → u = v).
Proof.
  intros [H1 H2]%served_owned. split_and!; [|by intros; apply H1|].
  - intros i t e Ht Hst. apply (H2 i t e Ht). left. by rewrite Hst.
  - intros i j ti tj u v e Hi Hj Hu Hv Hsi Hsj.
    assert (made_for e = t_key backend ti) as Ea by (apply (H2 i ti e Hi); left; by rewrite Hsi).
    assert (made_for e = t_key backend tj) as Eb by (apply (H2 j tj e Hj); left; by rewrite Hsj).
    unfold t_key in *. rewrite Hu in Ea. rewrite Hv in Eb. cbn in *. congruence.
Qed.
End Runs.


(** ** The migration of a workspace *)

Record MigrationOutcome := Outcome {
  attempted : bool; m_ok : bool; num_bytes : Z; source_deleted : bool; m_error : option string
}.
(** [_migration_dict] *)
Definition _migration_dict (m : MigrationOutcome) : pydict :=
  [("attempted", PBool (attempted m)); ("ok", PBool (m_ok m)); ("num_bytes", PInt (num_bytes m));
   ("source_deleted", PBool (source_deleted m))]
  ++ match m_error m with Some e => if (e =? "")%string then [] else [("error", PStr e)] | None => [] end.

(** A request may fail before it reaches the server, or its reply may be lost. *)
Inductive line := Answered | Unsent (e : exc) | Unanswered (e : exc).
Definition over {A : Type} (d : line) (r : res A) : res A :=
  match d with Answered => r | Unsent e | Unanswered e => Raise e end.
Definition over_change {A : Type} (d : line) (m : fs) (r : res A * fs) : res A * fs :=
  match d with Unsent e => (Raise e, m) | _ => (over d r.1, r.2) end.

(** Which of the two environments is closed. *)
Inductive closed := New_env | Source_env.

Section Migration.
Context {W : Type} (cl : client W) `{ExcAttr} `{PyFloat} `{Host} (root1 root2 : path) (zip_size : list member → Z).

(** [_migrate_workspace]: from the sandbox [source_name], whose files are [m1], into the
    new one, whose files are [m2]; with what the two requests come to on the way. *)
Definition _migrate_workspace (source_name : string) (workspace : path) (download upload : line) (m1 m2 : fs) (w : W) :
    MigrationOutcome * fs * W :=
  let failed (e : exc) := Outcome true false 0 false (Some (PyVal.exc_text e)) in
  match over download (env_download root1 m1 workspace) with
  | Raise e => (failed e, m2, w)
  | Ok data =>
      match over_change upload m2 (env_upload root2 m2 workspace data) with
      | (Raise e, m2') => (failed e, m2', w)
      | (Ok _, m2') =>
          let '(r, w') := delete_sandbox cl source_name w in
          (Outcome true true (zip_size data) (match r with Ok _ => true | Raise _ => false end) None, m2', w')
      end
  end.

(** [_finalize_env], and what it closes. *)
Definition _finalize_env (initialized : res unit) (pending : option string) (workspace : path) (download upload : line)
    (m1 m2 : fs) (w : W) : res MigrationOutcome * list closed * fs * W :=
  match initialized with
  | Raise e => (Raise e, New_env :: match pending with Some _ => [Source_env] | None => [] end, m2, w)
  | Ok _ =>
      match pending with
      | None => (Ok (Outcome false true 0 false None), [], m2, w)
      | Some source_name =>
          let '(o, m2', w') := _migrate_workspace source_name workspace download upload m1 m2 w in
          (Ok o, [Source_env], m2', w')
      end
  end.

End Migration.

(** ** The first turn of a session *)

Definition SESSION_STARTED_STATE_KEY : string := "_session_started".
Definition SESSION_STARTED_AT_STATE_KEY : string := "_session_started_at".
Definition _safe_user_id (user_id : option string) : string := default "anonymous" (Memory.nonempty user_id).
Definition _stamp_chat_title (state : pydict) (user_content : option Memory.content) : pydict :=
  if truthy (get state Memory.TITLE_KEY) then state
  else match first_some (λ p, Memory.first_line <$> Memory.not_blank (Memory.p_text p)) (Memory.parts_of user_content) with
       | Some title => dset state Memory.TITLE_KEY (PStr title)
       | None => state
       end.

Lemma first_some_map {A B C} (g : B → C) (f : A → option B) l :
  first_some (λ x, g <$> f x) l = g <$> first_some f l.
Proof. induction l as [|x l IH]; [done|]. cbn. by destruct (f x). Qed.

Section Callback.
Context `{PyFloat} {E : Type}.

(** [on_session_start_callback], after [_ensure_environment] came to [ensured]: what it
    raises, the environment it makes the active one, and the state. *)
Definition on_session_start_callback (ensured : res E) (state : option pydict) (now : string)
    (user_content : option Memory.content) (retrieve : string → string → option pydict)
    (app_name context_user user_id : string) : res unit * option E * option pydict :=
  match ensured with
  | Raise e => (Raise e, None, state)
  | Ok env =>
      (Ok tt, Some env,
       match state with
       | None => None
       | Some st =>
           let st := clear_halt_state st in
           Some (if truthy (get st SESSION_STARTED_STATE_KEY) then st
                 else
                   let st := dset (dset st SESSION_STARTED_STATE_KEY (PBool true)) SESSION_STARTED_AT_STATE_KEY (PStr now) in
                   dset (_stamp_chat_title st user_content) "user_profile"
                     (PStr (Memory.load_user_profile retrieve app_name (or_str context_user user_id) false)))
       end)
  end.

Definition halt_keys : list string :=
  [HALT_REASON_STATE_KEY; HALT_HANDOFF_DELIVERED_STATE_KEY; RepeatedFailure._STREAK_STATE_KEY;
   NoProgress._STREAK_STATE_KEY; NoProgress._LAST_TEXT_STATE_KEY].
Lemma clear_other st k : k ∉ halt_keys → get (clear_halt_state st) k = get st k.
Proof.
  unfold halt_keys. rewrite !not_elem_of_cons. intros (? & ? & ? & ? & ? & _). unfold clear_halt_state, NoProgress.reset,
    RepeatedFailure.reset, reset_halt_handoff, acknowledge_halt, get. by rewrite !dget_dset_ne by congruence.
Qed.
Lemma clear_halts st : halted (clear_halt_state st) = false ∧
  get (clear_halt_state st) RepeatedFailure._STREAK_STATE_KEY = PNone.
Proof.
  unfold halted, clear_halt_state, NoProgress.reset, RepeatedFailure.reset, reset_halt_handoff, acknowledge_halt, get.
  split; rewrite ?dget_dset_ne by done; by rewrite ?dget_dset_eq, ?dget_dset_ne by done.
Qed.
Lemma get_dset_is d k v : get (dset d k v) k = v. Proof. unfold get. by rewrite dget_dset_eq. Qed.
Lemma get_dset_not d k k' v : k ≠ k' → get (dset d k v) k' = get d k'. Proof. intros. unfold get. by rewrite dget_dset_ne. Qed.
Lemma stamp_other st c k : k ≠ Memory.TITLE_KEY → get (_stamp_chat_title st c) k = get st k.
Proof. intros Hk. unfold _stamp_chat_title. destruct (truthy _); [done|]. destruct (first_some _ _); [|done]. by apply get_dset_not. Qed.

(** A session is stamped once, and unlatched every turn. Whatever its state, a turn that gets its
    environment binds it and lifts every halt and streak; the first one also marks the
    session as started, notes when, titles it after the first text of the message (a line
    of one to eighty characters) unless it has a title, and loads the profile; on every
    later turn all else of the state is as it was, whatever the message. A turn that gets no
    environment raises and touches nothing. *)
Theorem session_stamped_once ensured st now content retrieve app_name context_user user_id :
  let turn st ensured now content := on_session_start_callback ensured (Some st) now content retrieve app_name context_user user_id in
  match turn st ensured now content with
  | (Raise e, bound, st') => ensured = Raise e ∧ bound = None ∧ st' = Some st
  | (Ok _, bound, st') => ∃ env s, ensured = Ok env ∧ bound = Some env ∧ st' = Some s ∧
      halted s = false ∧ get s SESSION_STARTED_STATE_KEY ≠ PNone ∧
      (truthy (get st SESSION_STARTED_STATE_KEY) = true → ∀ k, k ∉ halt_keys → get s k = get st k) ∧
      (truthy (get st SESSION_STARTED_STATE_KEY) = false →
         get s SESSION_STARTED_AT_STATE_KEY = PStr now ∧
         get s "user_profile" = PStr (Memory.load_user_profile retrieve app_name (or_str context_user user_id) false) ∧
         (truthy (get st Memory.TITLE_KEY) = true → get s Memory.TITLE_KEY = get st Memory.TITLE_KEY) ∧
         (∀ t, truthy (get st Memory.TITLE_KEY) = false →
            first_some (λ p, Memory.not_blank (Memory.p_text p)) (Memory.parts_of content) = Some t →
            get s Memory.TITLE_KEY = PStr (Memory.first_line t) ∧ Memory.first_line t ≠ "" ∧
            one_line (Memory.first_line t) = true ∧ slen (Memory.first_line t) ≤ 80)) ∧
      (∀ env' now' content', ∃ s', turn s (Ok env') now' content' = (Ok tt, Some env', Some s') ∧
         halted s' = false ∧ ∀ k, k ∉ halt_keys → get s' k = get s k)
  end.
Proof.
  cbn zeta. unfold on_session_start_callback. destruct ensured as [env|e]; [|done].
  set (cl := clear_halt_state st). eexists env, _. do 3 (split; [done|]).
  assert (SESSION_STARTED_STATE_KEY ∉ halt_keys) as Hk1 by (apply (bool_decide_unpack _); vm_compute; exact I).
  assert (Memory.TITLE_KEY ∉ halt_keys) as Hk2 by (apply (bool_decide_unpack _); vm_compute; exact I).
  assert (get cl SESSION_STARTED_STATE_KEY = get st SESSION_STARTED_STATE_KEY) as Hst by by apply clear_other.
  assert (get cl Memory.TITLE_KEY = get st Memory.TITLE_KEY) as Htitle by by apply clear_other.
  rewrite Hst. set (s1 := dset (dset cl _ _) _ _). set (s2 := dset (_stamp_chat_title s1 content) _ _).
  assert (get s2 SESSION_STARTED_STATE_KEY = PBool true) as Hs2.
  { unfold s2, s1. by rewrite get_dset_not, stamp_other, get_dset_not, get_dset_is by done. }
  assert (∀ s, truthy (get s SESSION_STARTED_STATE_KEY) = true → ∀ (env' : E) now' content', ∃ s',
    (Ok tt, Some env', Some (if truthy (get (clear_halt_state s) SESSION_STARTED_STATE_KEY) then clear_halt_state s else
      dset (_stamp_chat_title (dset (dset (clear_halt_state s) SESSION_STARTED_STATE_KEY (PBool true))
        SESSION_STARTED_AT_STATE_KEY (PStr now')) content') "user_profile"
        (PStr (Memory.load_user_profile retrieve app_name (or_str context_user user_id) false)))) = (@Ok unit tt, Some env', Some s') ∧
    halted s' = false ∧ ∀ k, k ∉ halt_keys → get s' k = get s k) as Hagain.
  { intros s Hs env' now' content'. exists (clear_halt_state s). rewrite clear_other, Hs by done.
    split_and!; [done|apply clear_halts|]. intros k Hk. by apply clear_other. }
  destruct (truthy (get st SESSION_STARTED_STATE_KEY)) eqn:Hs.
  - split_and!; [apply clear_halts| |intros _ k Hk; by apply clear_other|done|].
    + rewrite Hst. intros E1. by rewrite E1 in Hs.
    + apply Hagain. by rewrite Hst.
  - split_and!; [|by rewrite Hs2|done| |apply Hagain; by rewrite Hs2].
    + unfold halted, s2, s1. rewrite get_dset_not, stamp_other, !get_dset_not by done. apply clear_halts.
    + intros _. split_and!.
      * unfold s2, s1. by rewrite get_dset_not, stamp_other, get_dset_is by done.
      * unfold s2. apply get_dset_is.
      * intros Ht. unfold s2. rewrite get_dset_not by done. unfold _stamp_chat_title.
        assert (get s1 Memory.TITLE_KEY = get cl Memory.TITLE_KEY) as E1 by (unfold s1; by rewrite !get_dset_not by done).
        by rewrite E1, Htitle, Ht, E1, Htitle.
      * intros t Ht Hfirst. unfold s2. rewrite get_dset_not by done. unfold _stamp_chat_title.
        assert (get s1 Memory.TITLE_KEY = get cl Memory.TITLE_KEY) as E1 by (unfold s1; by rewrite !get_dset_not by done).
        rewrite E1, Htitle, Ht. rewrite (first_some_map Memory.first_line), Hfirst. cbn [fmap option_fmap option_map].
        rewrite get_dset_is. split; [done|]. apply Memory.first_line_title.
        apply first_some_Some in Hfirst as (p & _ & Hp). unfold Memory.not_blank in Hp.
        destruct (Memory.p_text p) as [s|]; [|done]. destruct (String.eqb_spec (strip s) ""); [done|]. by injection Hp as ->.
Qed.
End Callback.

(** ** At concrete inputs *)

(** Runs as lists of arrivals and resumptions; environments are numbers. *)
Inductive action := Arrive (c : caller) (swap : option nat) | Resume (i : nat) (ev : event (E:=nat)).
Section Play.
Context (owner : nat → option string) (backend : string) (made_for : nat → string * string).
Definition act (a : action) (s : process (E:=nat)) : option (process (E:=nat)) :=
  match a with Arrive c swap => Some (arrive c swap s) | Resume i ev => resume owner backend i ev s end.
Fixpoint play (l : list action) (s : process) : process :=
  match l with [] => s | a :: l' => match act a s with Some s' => play l' s' | None => s end end.
Lemma play_reachable l s : reachable owner backend s → reachable owner backend (play l s).
Proof.
  revert s. induction l as [|a l IH]; intros s Hs; [done|]. cbn. destruct (act a s) as [s'|] eqn:Ha; [|done].
  apply IH. eapply reach_step; [exact Hs|]. destruct a as [c swap|i ev]; cbn in Ha.
  - injection Ha as <-. constructor.
  - by apply (step_resume _ _ _ i ev).
Qed.
(** Every environment of a run is built for the task that gets it. *)
Definition fits (a : action) (s : process (E:=nat)) : bool :=
  match a with
  | Arrive c (Some e) => bool_decide (made_for e = cache_key backend c)
  | Arrive _ None => true
  | Resume i ev =>
      match tasks s !! i, built_of ev with
      | Some t, Some e => bool_decide (made_for e = t_key (E:=nat) backend t)
      | _, _ => true
      end
  end.
Fixpoint all_fit (l : list action) (s : process) : bool :=
  match l with [] => true | a :: l' => fits a s && match act a s with Some s' => all_fit l' s' | None => true end end.
Lemma play_served l s : all_fit l s = true → served owner backend made_for s → served owner backend made_for (play l s).
Proof.
  revert s. induction l as [|a l IH]; intros s Hl Hs; [done|]. cbn in *. apply andb_true_iff in Hl as [Hf Hl].
  destruct (act a s) as [s'|] eqn:Ha; [|done]. apply IH; [done|]. destruct a as [c swap|i ev]; cbn in Ha.
  - injection Ha as <-. apply served_arrive; [done|]. intros e ->. cbn in Hf. by apply bool_decide_eq_true in Hf.
  - eapply served_resume; [exact Hs| |exact Ha]. intros t e Ht He. cbn in Hf. rewrite Ht, He in Hf.
    by apply bool_decide_eq_true in Hf.
Qed.
End Play.

Definition nobody : process (E:=nat) := Process ∅ ∅ [].
Definition ann_owns (e : nat) : option string := Some "ann".
(** Two requests of Ann and one of Bob: the second of Ann waits while the first builds. *)
Definition three_requests : list action :=
  [Arrive (AsUser "ann") None; Arrive (AsUser "ann") None; Arrive (AsUser "bob") None;
   Resume 0 (Ran (Ok 7)); Resume 1 (Ran (Ok 8)); Resume 2 (Ran (Ok 9))].
Lemma nobody_start : start nobody. Proof. by split_and!. Qed.


Definition ann_again : list action :=
  three_requests ++ [Resume 0 (Finalized (Ok tt)); Resume 1 (Ran (Ok 8)); Resume 1 (Refreshed (Ok true) (Ok 8))].
Lemma one_environment_per_caller_witness :
  let s := play ann_owns "sandbox" ann_again nobody in
  map t_stage (tasks s) = [Returned (Ok 7); Returned (Ok 7); Finalizing 9] ∧
  (∀ i j ti tj, tasks s !! i = Some ti → tasks s !! j = Some tj →
     in_critical (t_stage ti) = true → in_critical (t_stage tj) = true →
     t_key "sandbox" ti = t_key "sandbox" tj → i = j) ∧
  (∀ i t env, tasks s !! i = Some t → t_stage t = Finalizing env → t_swap t = None →
     _env_cache s !! t_key "sandbox" t = None) ∧
  (∀ i ev s' t, resume ann_owns "sandbox" i ev s = Some s' → tasks s !! i = Some t →
     (∀ env, tasks s' !! i = Some (at_stage (Returned (Ok env)) t) → (∀ e, t_stage t ≠ Closing e) →
        _env_cache s' !! t_key "sandbox" t = Some env) ∧
     (∀ k old, _env_cache s !! k = Some old → _env_cache s' !! k ≠ Some old → _env_cache s' !! k = None ∨
        ∃ env, tasks s' !! i = Some (at_stage (Closing env) t) ∧ k = t_key "sandbox" t ∧ t_swap t ≠ None)).
Proof.
  intros s. split; [vm_compute; reflexivity|].
  apply (one_environment_per_caller ann_owns "sandbox" s); [discriminate|].
  apply play_reachable. constructor. apply nobody_start.
Defined.

Definition whose (e : nat) : string * string := ("sandbox", if e =? 9 then "bob" else "ann").
Lemma environments_stay_apart_witness :
  let s := play ann_owns "sandbox" ann_again nobody in
  (∀ i t e, tasks s !! i = Some t → t_stage t = Returned (Ok e) → whose e = t_key "sandbox" t) ∧
  (∀ c e, _env_cache s !! cache_key "sandbox" c = Some e → whose e = cache_key "sandbox" c) ∧
  (∀ i j ti tj u v e, tasks s !! i = Some ti → tasks s !! j = Some tj →
     t_caller ti = AsUser u → t_caller tj = AsUser v →
     t_stage ti = Returned (Ok e) → t_stage tj = Returned (Ok e) → u = v).
Proof.
  intros s. apply (environments_stay_apart ann_owns "sandbox" whose s). apply play_served.
  - vm_compute. reflexivity.
  - constructor. apply nobody_start.
Defined.


(** The environment of a routine belongs to the user who owns the routine: gone, it evicts the
    user's entry, stays in the cache itself, and is what the request returns. *)
Example gone_routine_environment_is_served :
  let t := Task (AsRoutine (Run "r1" "ann")) None (Refreshing 5) in
  let c := {[ ("routine", "r1") := 5; ("sandbox", "ann") := 7 ]} in
  match advance ann_owns "sandbox" 0 t (Refreshed (Ok false) (Ok 6)) free c with
  | Some (st, _, c') => st = Returned (Ok 5) ∧ c' !! ("routine", "r1") = Some 5 ∧ c' !! ("sandbox", "ann") = None
  | None => False
  end.
Proof. vm_compute. split_and!; reflexivity. Qed.

Definition moved_ws : fs := <[ ["workspace"; "b"] := Dir ]> plain_ws.

Definition deleting_client : client (list obj) :=
  Client _ (sandboxes_list demo_client) (sandboxes_get demo_client) (sandboxes_create demo_client) (λ _ w, (Ok tt, w))
    (snapshots_list demo_client) (snapshots_create demo_client) (snapshots_delete demo_client) (templates_list demo_client)
    (templates_get demo_client) (templates_create demo_client) (generate_access_token demo_client).
(** What is no regular file stays behind, and goes with the sandbox that is deleted: an empty
    directory and a link. *)
Example migration_drops_links :
  let Hf : PyFloat := λ _, "" in let Hh : Host := quiet_host in let Hx : ExcAttr := no_attrs in
  let old := <[ ["workspace"; "l"] := Link "a" ]> moved_ws in
  let '(o, new, _) := _migrate_workspace deleting_client demo_root demo_root (λ _, 3%Z) "old" ["workspace"] Answered Answered old empty_ws [] in
  m_ok o = true ∧ source_deleted o = true ∧ new !! ["workspace"; "b"] = None ∧ new !! ["workspace"; "l"] = None.
Proof. vm_compute. split_and!; reflexivity. Qed.
