(* ===== verification/A2A.v ===== *)
(** * Agent to agent: [a2a/executor.py], [a2a/datapart.py], [a2a/user_converter.py], [api/tasks.py]

    What of the agent's events reaches a client: the converter that lifts tool calls out of
    artifacts, drops the text a stream has already carried and keeps artifacts created
    before they are appended to; whom a request is served as and what its parts become; and
    the record of a context's tasks in the session. The framework's own conversion of an
    event, and its message ids, are inputs. *)

From S2P Require Import Prelude PyStr Names Regex RegexFacts PyVal JsonFacts Web OAuthConnect.
#[local] Open Scope nat_scope.

(** ** Events on the wire *)

(** A part, with its metadata; [FilePart] is any other kind. *)
Inductive a2a_part :=
| TextPart (text : string) (meta : pydict)
| DataPart (data meta : pydict)
| FilePart (file : pyval) (meta : pydict).
Inductive a2a_event :=
| ArtifactUpdate (artifact_id : string) (a_parts : list a2a_part) (append last_chunk : bool)
| StatusUpdate (state : string) (message : option (list a2a_part)) (final : bool)
| OtherUpdate (what : pyval).

Definition _ADK_TYPE_KEY : string := "adk_type".
Definition _TOOL_DATA_TYPES : list string := ["function_call"; "function_response"].
Definition _GE_LABEL_KEY : string := "lha_ge_label".
Definition _GE_TOOL_NAME_PREFIX : string := "horizon__".
Definition _FRAMEWORK_TOOL_NAMES : list string := [CLARIFY; "adk_request_confirmation"].
Definition _FAKE_LINK_RE : regex := re_of "\[([^\]]+)\]\((?:attachment|sandbox):[^)\s]*\)".
Definition TS_WORKING : string := "working".

Definition _is_text_part (p : a2a_part) : bool := match p with TextPart _ _ => true | _ => false end.
(** [_tool_data], where it is not empty: every caller tests its truth. *)
Definition _tool_data (p : a2a_part) : option pydict :=
  match p with
  | DataPart ((_ :: _) as data) meta =>
      match get meta _ADK_TYPE_KEY with PStr t => if mem t _TOOL_DATA_TYPES then Some data else None | _ => None end
  | _ => None
  end.
Definition is_tool (p : a2a_part) : bool := match _tool_data p with Some _ => true | None => false end.
Definition part_metadata (p : a2a_part) : pydict := match p with TextPart _ m | DataPart _ m | FilePart _ m => m end.
Definition _ge_prefix_tool_name (data : pydict) : pydict :=
  match get data "name" with
  | PStr name =>
      if mem name _FRAMEWORK_TOOL_NAMES || startswith _GE_TOOL_NAME_PREFIX name then data
      else dset data "name" (PStr (_GE_TOOL_NAME_PREFIX +:+ name))
  | _ => data
  end.
Definition working (p : a2a_part) : a2a_event := StatusUpdate TS_WORKING (Some [p]) false.

(** [_surface_tool_calls] *)
Definition surfaced (p : a2a_part) : option a2a_event :=
  (λ data, working (DataPart (_ge_prefix_tool_name data) (part_metadata p))) <$> _tool_data p.
Definition surface_event (ev : a2a_event) : list a2a_event :=
  match ev with
  | ArtifactUpdate i ps append last =>
      if existsb is_tool ps then
        let kept := List.filter (λ p, negb (is_tool p)) ps in
        omap surfaced ps ++ match kept with [] => [] | _ => [ArtifactUpdate i kept append last] end
      else [ev]
  | _ => [ev]
  end.
Definition _surface_tool_calls : list a2a_event → list a2a_event := flat_map surface_event.

(** [_surface_artifact_links] *)
Section Links.
Context `{PyFloat}.
Definition paperclip : string := s1 "240" +:+ s1 "159" +:+ s1 "147" +:+ s1 "142".
Definition link_of (p : a2a_part) : option a2a_event :=
  match _tool_data p with
  | Some data =>
      match get data "name" with
      | PStr name =>
          if (name =? ARTIFACT)%string then
            let resp := match get data "response" with PDict r => r | _ => [] end in
            let url := get resp "url" in
            if truthy url then
              let filename := get resp "filename" in
              let shown := if truthy filename then filename else PStr "artifact" in
              Some (working (TextPart
                (NLs +:+ NLs +:+ paperclip +:+ " [" +:+ py_str shown +:+ "](" +:+ py_str url +:+ ")" +:+ NLs +:+ NLs)
                [(_GE_LABEL_KEY, PBool true)]))
            else None
          else None
      | _ => None
      end
  | None => None
  end.
Definition links_event (ev : a2a_event) : list a2a_event :=
  ev :: match ev with ArtifactUpdate _ ps _ _ => omap link_of ps | _ => [] end.
Definition _surface_artifact_links : list a2a_event → list a2a_event := flat_map links_event.
End Links.

(** [_strip_streamed_text] *)
Definition strip_event (ev : a2a_event) : list a2a_event :=
  match ev with
  | ArtifactUpdate i ps append last =>
      match List.filter (λ p, negb (_is_text_part p)) ps with
      | [] => []
      | kept => [ArtifactUpdate i kept true last]
      end
  | _ => [ev]
  end.
Definition _strip_streamed_text : list a2a_event → list a2a_event := flat_map strip_event.

(** [pattern.sub(r"\1", s)] *)
Fixpoint keep_group (fl : reflags) (r : regex) (fuel : nat) (prev : option ascii) (s : string) : string :=
  match fuel with
  | 0 => s
  | S f =>
      match search_from fl r prev s with
      | None => s
      | Some (pre, at_, st) =>
          pre +:+ default "" (group 1 st) +:+
          (if slen at_ =? slen (m_rest st) then
             match at_ with "" => "" | String c at' => String c (keep_group fl r f (Some c) at') end
           else keep_group fl r f (m_prev st) (m_rest st))
      end
  end.
(** [_strip_fake_artifact_links] *)
Definition unlink (text : string) : string :=
  if contains "attachment:" text || contains "sandbox:" text
  then keep_group noflags _FAKE_LINK_RE (S (slen text)) None text else text.
Definition unlink_part (p : a2a_part) : a2a_part := match p with TextPart t m => TextPart (unlink t) m | _ => p end.
Definition unlink_event (ev : a2a_event) : a2a_event :=
  match ev with
  | ArtifactUpdate i ps append last => ArtifactUpdate i (map unlink_part ps) append last
  | StatusUpdate s (Some ps) final => StatusUpdate s (Some (map unlink_part ps)) final
  | _ => ev
  end.
Definition _strip_fake_artifact_links : list a2a_event → list a2a_event := map unlink_event.

(** [_enforce_artifact_lifecycle], over the artifacts of the task seen created. *)
Fixpoint enforce (created : list string) (evs : list a2a_event) : list a2a_event * list string :=
  match evs with
  | [] => ([], created)
  | ArtifactUpdate i ps append last :: rest =>
      let ev := ArtifactUpdate i ps (append && mem i created) last in
      let '(out, created') := enforce (if mem i created then created else i :: created) rest in
      (ev :: out, created')
  | ev :: rest => let '(out, created') := enforce created rest in (ev :: out, created')
  end.

(** [_StreamDedupConverter.__call__]: over the created artifacts by task. [a2a_events] is
    what the framework makes of the event; [closes_stream]: the event is not partial, and
    its author has a tracked artifact. *)
Definition created_state := list (string * list string).
Definition created_for (st : created_state) (task_id : string) : list string := default [] (dget st task_id).
Definition convert `{PyFloat} (closes_stream : bool) (task_id : string) (a2a_events : list a2a_event) (st : created_state) :
    list a2a_event * created_state :=
  let evs := if closes_stream then _strip_streamed_text a2a_events else a2a_events in
  let evs := _strip_fake_artifact_links (_surface_tool_calls (_surface_artifact_links evs)) in
  let '(out, created) := enforce (created_for st task_id) evs in
  (out, if closes_stream then ddel st task_id else dset st task_id created).
Definition closes_stream (partial : bool) (author : option string) (agents_artifacts : pydict) : bool :=
  negb partial && match author with Some a => dhas agents_artifacts a | None => false end.

(** ** Data parts: [datapart.py] *)

Definition A2A_DATA_PART_START_TAG : string := "<a2a_datapart_json>".
Definition A2A_DATA_PART_END_TAG : string := "</a2a_datapart_json>".
Definition _SELECTION_KIND : string := "lha.selection".
Definition _FILEREF_KIND : string := "lha.fileref".

Definition nonempty_str (v : pyval) : option string :=
  match v with PStr s => if (s =? "")%string then None else Some s | _ => None end.
Definition _render_fileref (payload : pydict) : option string :=
  match get payload "paths" with
  | PList ((_ :: _) as paths) =>
      let clean := omap nonempty_str paths in
      if length clean =? length paths then
        let noun := if length clean =? 1 then "file" else "files" in
        Some ("[The user attached " +:+ str_of_nat (length clean) +:+ " workspace " +:+ noun
              +:+ " to this message. Read them if the request concerns them:]" +:+ NLs
              +:+ join NLs (map (λ p, "- " +:+ p) clean))
      else None
  | _ => None
  end.
(** [isinstance(v, int)], as it is shown. *)
Definition int_text (v : pyval) : option string :=
  match v with PInt z => Some (str_of_Z z) | PBool b => Some (if b then "True" else "False") | _ => None end.
Definition same_int (a b : pyval) : bool :=
  match num_of a, num_of b with Some x, Some y => Qeq_bool x y | _, _ => false end.
Definition _render_selection (payload : pydict) : option string :=
  match get payload "path", get payload "snippet", int_text (get payload "start"), int_text (get payload "end") with
  | PStr path, PStr snippet, Some _, Some _ =>
      let where_ := match int_text (get payload "start_line"), int_text (get payload "end_line") with
                    | Some a, Some b =>
                        if same_int (get payload "start_line") (get payload "end_line") then path +:+ ", line " +:+ a
                        else path +:+ ", lines " +:+ a +:+ "-" +:+ b
                    | _, _ => path
                    end in
      Some ("[The user highlighted this exact text in " +:+ where_ +:+ ":]" +:+ NLs +:+ snippet +:+ NLs
            +:+ "[To act on exactly that span, call edit with edits=[{'oldText': <the highlighted text above, plus enough "
            +:+ "surrounding context from the file to make it match only this location>, 'newText': ...}].]")
  | _, _, _, _ => None
  end.
Definition unicode_json : dump_opts := {| item_sep := ", "; key_sep := ": "; sort_keys := false; ensure_ascii := false |}.

Section DataParts.
Context `{PyFloat}.
Definition describe (payload : pyval) : string :=
  let plain := "[UI action] " +:+ json_dumps unicode_json payload in
  match payload with
  | PDict d =>
      let rendered := match get d "lha_kind" with
                      | PStr kind => if (kind =? _SELECTION_KIND)%string then _render_selection d
                                     else if (kind =? _FILEREF_KIND)%string then _render_fileref d else None
                      | _ => None
                      end in
      default plain rendered
  | _ => plain
  end.
Definition payload_of (obj : pyval) : pyval := match obj with PDict d => default obj (dget d "data") | _ => obj end.
Definition unwrap_a2a_datapart_text (data : option string) : option string :=
  match data with
  | Some bytes =>
      if startswith A2A_DATA_PART_START_TAG bytes then
        let body := removesuffix A2A_DATA_PART_END_TAG (sdrop (slen A2A_DATA_PART_START_TAG) bytes) in
        match utf8_text body with
        | Some text => match json_loads text with Some obj => Some (describe (payload_of obj)) | None => None end
        | None => None
        end
      else None
  | None => None
  end.

(** ** Requests: [user_converter.py] *)

(** A part for the model: its text, or its blob's data, or anything else. *)
Inductive model_part := MText (t : string) | MBlob (mime : string) (data : option string) | MOther (v : pyval).
Definition _detoxify_part (p : model_part) : model_part :=
  match p with
  | MBlob _ data => match unwrap_a2a_datapart_text data with Some t => MText t | None => p end
  | _ => p
  end.
Record run_request := RunRequest {
  r_user_id : string; r_session_id : string; r_parts : list model_part; streaming_mode : string; custom_metadata : option pydict
}.
(** [request_converter]: [base] is the framework's conversion of the request, and
    [authenticated] the identity the middleware stored. *)
Definition request_converter (authenticated : option string) (base : run_request) : run_request :=
  RunRequest (match authenticated with Some u => if (u =? "")%string then r_user_id base else u | None => r_user_id base end)
    (r_session_id base) (map _detoxify_part (r_parts base)) "sse" (Some (default [] (custom_metadata base))).
End DataParts.

(** ** The tasks of a context: [_TaskTrackingExecutor], [api/tasks.py] *)

Definition LHA_TASK_IDS_KEY : string := "lha:task_ids".
Definition LHA_ACTIVE_TASK_KEY : string := "lha:active_task_id".

(** The two keys in the state of the session, which does not exist before the first task. *)
Record tracked := Tracked { task_ids : list string; active_task_id : option string }.
(** An execution: [_mark_task_active] reads the session under the session's lock and then
    writes; [_mark_task_done] clears the flag, without the lock. *)
Inductive phase := Waiting | Marking (existing : list string) | Running | Finished.
Record executor := Executor { session : option tracked; lock_held : bool; executions : list (string * phase) }.
Definition _mark_task_done (s : option tracked) : option tracked := (λ t, Tracked (task_ids t) None) <$> s.

Definition set_phase (i : nat) (p : phase) (e : executor) : list (string * phase) :=
  match executions e !! i with Some (id, _) => <[i := (id, p)]> (executions e) | None => executions e end.
(** One step of execution [i]; without an id nothing is marked. A run may end in any way,
    also cancelled: the flag is cleared all the same. *)
Definition execute_step (i : nat) (e : executor) : option executor :=
  match executions e !! i with
  | Some (id, Waiting) =>
      if (id =? "")%string then Some (Executor (session e) (lock_held e) (set_phase i Running e))
      else if lock_held e then None
      else Some (Executor (Some (default (Tracked [] None) (session e))) true
                   (set_phase i (Marking (task_ids (default (Tracked [] None) (session e)))) e))
  | Some (id, Marking existing) =>
      let ids := if mem id existing then existing else existing ++ [id] in
      Some (Executor (Some (Tracked ids (Some id))) false (set_phase i Running e))
  | Some (id, Running) => Some (Executor (_mark_task_done (session e)) (lock_held e) (set_phase i Finished e))
  | _ => None
  end.
Definition submit (id : string) (e : executor) : executor :=
  Executor (session e) (lock_held e) (executions e ++ [(id, Waiting)]).

(** [list_tasks]: the store's state of each known task. *)
Definition list_tasks (store : string → res (option (string * string))) (s : res (option tracked)) :
    list (string * string * bool) :=
  match s with
  | Ok (Some t) =>
      omap (λ id, match store id with
                  | Ok (Some (tid, st)) => Some (tid, st, bool_decide (Some id = active_task_id t))
                  | _ => None
                  end) (task_ids t)
  | _ => []
  end.

(** * Facts *)

(** ** What is conserved *)

Lemma flat_map_flat_map {A B C} (f : A → list B) (g : B → list C) l :
  flat_map g (flat_map f l) = flat_map (λ x, flat_map g (f x)) l.
Proof. induction l as [|x l IH]; [done|]. cbn. by rewrite flat_map_app, IH. Qed.
Lemma flat_map_map {A B C} (f : A → B) (g : B → list C) l : flat_map g (map f l) = flat_map (λ x, g (f x)) l.
Proof. induction l as [|x l IH]; [done|]. cbn. by rewrite IH. Qed.
Lemma flat_map_ext_all {A B} (f g : A → list B) l : (∀ x, f x = g x) → flat_map f l = flat_map g l.
Proof. intros Hfg. induction l as [|x l IH]; [done|]. cbn. by rewrite Hfg, IH. Qed.
Lemma flat_map_filter {A B} (f : A → list B) (p : B → bool) l :
  flat_map (λ x, List.filter p (f x)) l = List.filter p (flat_map f l).
Proof. induction l as [|x l IH]; [done|]. cbn. by rewrite List.filter_app, IH. Qed.

(** The parts of artifacts, with the artifact each belongs to. *)
Definition artifact_parts (ev : a2a_event) : list (string * a2a_part) :=
  match ev with ArtifactUpdate i ps _ _ => map (pair i) ps | _ => [] end.
(** The tool calls and responses a client shows: those of an artifact as they will be surfaced. *)
Definition prefixed (p : a2a_part) : a2a_part :=
  match p with DataPart d m => DataPart (_ge_prefix_tool_name d) m | _ => p end.
Definition chips (ev : a2a_event) : list a2a_part :=
  match ev with
  | ArtifactUpdate _ ps _ _ => map prefixed (List.filter is_tool ps)
  | StatusUpdate _ (Some ps) _ => List.filter is_tool ps
  | _ => []
  end.

Lemma surfaced_spec p : surfaced p = if is_tool p then Some (working (prefixed p)) else None.
Proof.
  unfold surfaced, is_tool. destruct (_tool_data p) as [d|] eqn:E; [|done]. cbn.
  destruct p as [t m|[|kv d'] m|f m]; try done. unfold _tool_data in E.
  destruct (get m _ADK_TYPE_KEY) as [| | | |s| |]; try done. destruct (mem s _TOOL_DATA_TYPES); [|done]. by injection E as <-.
Qed.
Lemma prefixed_tool p : is_tool (prefixed p) = is_tool p.
Proof.
  destruct p as [t m|d m|f m]; try done. unfold is_tool, _tool_data, prefixed.
  assert (_ge_prefix_tool_name d = [] ↔ d = []) as Hd.
  { destruct d as [|[k v] d]; [done|]. unfold _ge_prefix_tool_name.
    destruct (get _ "name") as [| | | |s| |]; try done. destruct (_ || _); [done|]. cbn. by destruct (_ =? k)%string. }
  destruct d as [|kv d]; [by rewrite (proj2 Hd)|]. destruct (_ge_prefix_tool_name (kv :: d)) as [|kv' d']; [discriminate (proj1 Hd eq_refl)|].
  destruct (get m _ADK_TYPE_KEY) as [| | | |s| |]; try done. by destruct (mem s _TOOL_DATA_TYPES).
Qed.
Lemma text_no_tool p : _is_text_part p = true → is_tool p = false. Proof. by destruct p. Qed.
Lemma unlink_tool p : is_tool (unlink_part p) = is_tool p. Proof. by destruct p. Qed.
Lemma unlink_tool_id p : is_tool p = true → unlink_part p = p. Proof. by destruct p. Qed.

Lemma filter_filter_and {A} (p q : A → bool) l : List.filter p (List.filter q l) = List.filter (λ x, p x && q x) l.
Proof. induction l as [|x l IH]; [done|]. cbn. destruct (q x); cbn; [|by rewrite andb_false_r]. rewrite andb_true_r, IH. done. Qed.
Lemma filter_map_pair {A} (i : string) (p : A → bool) l : map (pair i) (List.filter p l) = List.filter (λ x, p x.2) (map (pair i) l).
Proof. induction l as [|x l IH]; [done|]. cbn. destruct (p x); cbn; by rewrite IH. Qed.
Lemma filter_none {A} (p : A → bool) l : existsb p l = false → List.filter p l = [] ∧ List.filter (λ x, negb (p x)) l = l.
Proof.
  induction l as [|x l IH]; [done|]. cbn. intros [Hx Hl]%orb_false_iff. destruct (IH Hl) as [-> ->]. by rewrite Hx.
Qed.

Lemma surface_artifact_parts ev : flat_map artifact_parts (surface_event ev) = List.filter (λ x, negb (is_tool x.2)) (artifact_parts ev).
Proof.
  destruct ev as [i ps append last|s m f|w]; try done.
  transitivity (map (pair i) (List.filter (λ p, negb (is_tool p)) ps)); [|apply (filter_map_pair i (λ p, negb (is_tool p)))].
  cbn [surface_event]. destruct (existsb is_tool ps) eqn:E.
  - rewrite flat_map_app. assert (flat_map artifact_parts (omap surfaced ps) = []) as ->.
    { clear E. induction ps as [|p ps IH]; [done|]. cbn. rewrite surfaced_spec. by destruct (is_tool p). }
    cbn [app]. destruct (List.filter _ ps); [done|]. cbn. by rewrite app_nil_r.
  - destruct (filter_none _ _ E) as [_ H2]. cbn [flat_map artifact_parts]. by rewrite app_nil_r, H2.
Qed.
Lemma surface_chips ev : flat_map chips (surface_event ev) = chips ev.
Proof.
  destruct ev as [i ps append last|s m f|w]; cbn [surface_event]; [|by cbn [flat_map]; rewrite app_nil_r..].
  destruct (existsb is_tool ps) eqn:E; [|by cbn; rewrite app_nil_r].
  cbv zeta. rewrite flat_map_app. set (kept := List.filter (λ p, negb (is_tool p)) ps).
  assert (flat_map chips match kept with [] => [] | _ => [ArtifactUpdate i kept append last] end = []) as ->.
  { assert (List.filter is_tool kept = []) as Hk.
    { unfold kept. rewrite filter_filter_and. clear. induction ps as [|x ps IH]; [done|]. cbn. by destruct (is_tool x). }
    destruct kept as [|q l]; [done|]. cbn [flat_map chips app]. by rewrite Hk. }
  rewrite app_nil_r. cbn [chips]. clear E. induction ps as [|p ps IH]; [done|]. cbn. rewrite surfaced_spec.
  destruct (is_tool p) eqn:E; [|done]. cbn. rewrite prefixed_tool, E. cbn. by rewrite <- IH.
Qed.

Lemma strip_artifact_parts ev : flat_map artifact_parts (strip_event ev) = List.filter (λ x, negb (_is_text_part x.2)) (artifact_parts ev).
Proof.
  destruct ev as [i ps append last|s m f|w]; try done.
  transitivity (map (pair i) (List.filter (λ p, negb (_is_text_part p)) ps)); [|apply (filter_map_pair i (λ p, negb (_is_text_part p)))].
  cbn [strip_event]. destruct (List.filter _ ps); [done|]. cbn. by rewrite app_nil_r.
Qed.
Lemma strip_chips ev : flat_map chips (strip_event ev) = chips ev.
Proof.
  destruct ev as [i ps append last|s m f|w]; cbn [strip_event]; [|by cbn [flat_map]; rewrite app_nil_r..].
  assert (List.filter is_tool (List.filter (λ p, negb (_is_text_part p)) ps) = List.filter is_tool ps) as Hf.
  { rewrite filter_filter_and. apply filter_ext. intros p. destruct (_is_text_part p) eqn:E; [by rewrite text_no_tool|by rewrite andb_true_r]. }
  cbn [chips]. rewrite <- Hf. destruct (List.filter (λ p, negb (_is_text_part p)) ps); [done|]. cbn. by rewrite app_nil_r.
Qed.
Section Conserved.
Context `{PyFloat}.
Lemma link_working p ev : link_of p = Some ev → artifact_parts ev = [] ∧ chips ev = [].
Proof.
  unfold link_of. destruct (_tool_data p) as [d|]; [|done]. destruct (get d "name") as [| | | |n| |]; try done.
  destruct (n =? ARTIFACT)%string; [|done]. destruct (truthy _); [|done]. by intros [= <-].
Qed.
Lemma links_nothing {B} (g : a2a_event → list B) ev : (∀ p ev', link_of p = Some ev' → g ev' = []) → flat_map g (links_event ev) = g ev.
Proof.
  intros Hg. unfold links_event. cbn [flat_map]. destruct ev as [i ps append last|s m f|w]; cbn [flat_map]; rewrite ?app_nil_r; try done.
  assert (flat_map g (omap link_of ps) = []) as ->; [|by rewrite app_nil_r].
  induction ps as [|p ps IH]; [done|]. cbn. destruct (link_of p) as [ev'|] eqn:E; [|done]. cbn. by rewrite (Hg p ev' E).
Qed.

Lemma enforce_shape created evs : let '(out, _) := enforce created evs in
  flat_map artifact_parts out = flat_map artifact_parts evs ∧ flat_map chips out = flat_map chips evs.
Proof.
  revert created. induction evs as [|ev evs IH]; intros created; [done|]. destruct ev as [i ps append last|s m f|w]; cbn [enforce].
  - specialize (IH (if mem i created then created else i :: created)). destruct (enforce _ _) as [out c]. destruct IH as [H1 H2].
    cbn [flat_map artifact_parts chips]. by rewrite H1, H2.
  - specialize (IH created). destruct (enforce _ _) as [out c]. destruct IH as [H1 H2]. cbn [flat_map]. by rewrite H1, H2.
  - specialize (IH created). destruct (enforce _ _) as [out c]. destruct IH as [H1 H2]. cbn [flat_map]. by rewrite H1, H2.
Qed.

(** The converter loses nothing and says nothing twice. Of what the framework makes of an event,
    every function call and response reaches the client once, in order, as the part of a
    status message, with its name prefixed; no artifact carries one any more. The other
    parts of the artifacts are kept, in order, in their artifacts, with invented links
    replaced by their text; only when the event closes a stream are the text parts left
    out, which the stream has already carried. *)
Theorem conversion_conserves closes task_id evs st :
  let out := (convert closes task_id evs st).1 in
  flat_map chips out = flat_map chips evs ∧
  Forall (λ x, is_tool x.2 = false) (flat_map artifact_parts out) ∧
  flat_map artifact_parts out = map (λ x, (x.1, unlink_part x.2))
    (List.filter (λ x, negb (is_tool x.2) && negb (closes && _is_text_part x.2)) (flat_map artifact_parts evs)).
Proof.
  cbn zeta. unfold convert. set (evs1 := if closes then _strip_streamed_text evs else evs).
  assert (flat_map chips evs1 = flat_map chips evs ∧ flat_map artifact_parts evs1 =
    List.filter (λ x, negb (closes && _is_text_part x.2)) (flat_map artifact_parts evs)) as [Hc1 Ha1].
  { unfold evs1, _strip_streamed_text. destruct closes; cbn [andb].
    - rewrite !flat_map_flat_map. split; [apply flat_map_ext_all, strip_chips|].
      rewrite <- flat_map_filter. apply flat_map_ext_all, strip_artifact_parts.
    - split; [done|]. clear. induction (flat_map artifact_parts evs) as [|x l IH]; [done|]. cbn [List.filter negb]. by f_equal. }
  set (evs2 := _surface_tool_calls (_surface_artifact_links evs1)).
  assert (flat_map chips evs2 = flat_map chips evs1 ∧ flat_map artifact_parts evs2 =
    List.filter (λ x, negb (is_tool x.2)) (flat_map artifact_parts evs1)) as [Hc2 Ha2].
  { unfold evs2, _surface_tool_calls, _surface_artifact_links. rewrite !flat_map_flat_map. split.
    - apply flat_map_ext_all. intros ev. rewrite (flat_map_ext_all _ chips) by apply surface_chips.
      apply links_nothing. intros p ev' [_ E]%link_working. exact E.
    - rewrite <- flat_map_filter. apply flat_map_ext_all. intros ev.
      rewrite (flat_map_ext_all _ (λ e, List.filter (λ x, negb (is_tool x.2)) (artifact_parts e))) by apply surface_artifact_parts.
      apply (links_nothing (λ e, List.filter _ (artifact_parts e))). intros p ev' [E _]%link_working. by rewrite E. }
  assert (flat_map chips (_strip_fake_artifact_links evs2) = flat_map chips evs2 ∧
    flat_map artifact_parts (_strip_fake_artifact_links evs2) = map (λ x, (x.1, unlink_part x.2)) (flat_map artifact_parts evs2)) as [Hc3 Ha3].
  { unfold _strip_fake_artifact_links. rewrite !flat_map_map. split.
    - apply flat_map_ext_all. intros [i ps append last|s [m|] f|w]; try done; cbn [unlink_event chips].
      + f_equal. induction ps as [|p ps IH]; [done|]. cbn. rewrite unlink_tool. destruct (is_tool p) eqn:E; [|done].
        by rewrite IH, unlink_tool_id.
      + induction m as [|p m IH]; [done|]. cbn. rewrite unlink_tool. destruct (is_tool p) eqn:E; [|done]. by rewrite IH, unlink_tool_id.
    - clear. induction evs2 as [|ev l IH]; [done|]. cbn. rewrite map_app, IH. f_equal.
      destruct ev as [i ps append last|s [m|] f|w]; try done. cbn. by rewrite !map_map. }
  pose proof (enforce_shape (created_for st task_id) (_strip_fake_artifact_links evs2)) as He.
  destruct (enforce _ _) as [out created]. destruct He as [He1 He2]. cbn [fst].
  assert (flat_map artifact_parts out = map (λ x, (x.1, unlink_part x.2))
    (List.filter (λ x, negb (is_tool x.2) && negb (closes && _is_text_part x.2)) (flat_map artifact_parts evs))) as Hout.
  { by rewrite He1, Ha3, Ha2, Ha1, filter_filter_and. }
  split_and!; [congruence| |exact Hout]. rewrite Hout. apply Forall_forall.
  intros x (y & -> & Hy)%list_elem_of_fmap. apply list_elem_of_In, filter_In in Hy as [_ Hy]. cbn.
  rewrite unlink_tool. apply andb_true_iff in Hy as [Hy _]. by apply negb_true_iff in Hy.
Qed.

(** ** Created before appended *)

(** An update may append to an artifact only after another update of it. *)
Fixpoint orderly (seen : list string) (evs : list a2a_event) : Prop :=
  match evs with
  | [] => True
  | ArtifactUpdate i _ append _ :: rest => (append = true → i ∈ seen) ∧ orderly (i :: seen) rest
  | _ :: rest => orderly seen rest
  end.
Definition updated (evs : list a2a_event) : list string := omap (λ ev, match ev with ArtifactUpdate i _ _ _ => Some i | _ => None end) evs.
Lemma orderly_mono s1 s2 evs : s1 ⊆ s2 → orderly s1 evs → orderly s2 evs.
Proof.
  revert s1 s2. induction evs as [|ev evs IH]; intros s1 s2 Hs; [done|].
  destruct ev as [i ps append last|s m f|w]; cbn; [|by apply IH..]. intros [H1 H2]. split; [auto|].
  eapply IH; [|exact H2]. set_solver.
Qed.
Lemma orderly_app seen a b : orderly seen (a ++ b) ↔ orderly seen a ∧ orderly (rev (updated a) ++ seen) b.
Proof.
  revert seen. induction a as [|ev a IH]; intros seen; [naive_solver|].
  destruct ev as [i ps append last|s m f|w]; cbn; rewrite IH; [|done..]. rewrite <- app_assoc. cbn. naive_solver.
Qed.
Lemma enforce_orderly created evs seen : created ⊆ seen → let '(out, created') := enforce created evs in
  orderly seen out ∧ created' ⊆ rev (updated out) ++ seen.
Proof.
  revert created seen. induction evs as [|ev evs IH]; intros created seen Hs; [done|].
  destruct ev as [i ps append last|s m f|w]; cbn [enforce].
  - set (created1 := if mem i created then created else i :: created).
    assert (created1 ⊆ i :: seen) as H1 by (unfold created1; destruct (mem i created); set_solver).
    specialize (IH created1 (i :: seen) H1). destruct (enforce created1 evs) as [out c]. destruct IH as [IH1 IH2]. split.
    + cbn. split; [|done]. intros [_ Hm]%andb_true_iff. apply Hs. unfold mem in Hm.
      apply existsb_elem in Hm as (x & Hx & ->%String.eqb_eq). done.
    + cbn. by rewrite <- app_assoc.
  - specialize (IH created seen Hs). by destruct (enforce created evs).
  - specialize (IH created seen Hs). by destruct (enforce created evs).
Qed.

(** A run of the converter: the events of all tasks, and what each task's client is sent. *)
Record input := Input { closing : bool; for_task : string; framework_events : list a2a_event }.
Fixpoint run (inputs : list input) (st : created_state) : list (string * list a2a_event) :=
  match inputs with
  | [] => []
  | x :: rest => let '(out, st') := convert (closing x) (for_task x) (framework_events x) st in (for_task x, out) :: run rest st'
  end.
Definition wire (task_id : string) (sent : list (string * list a2a_event)) : list a2a_event :=
  concat (map snd (List.filter (λ x, (x.1 =? task_id)%string) sent)).

Lemma created_set st t c t' : created_for (dset st t c) t' = if (t' =? t)%string then c else created_for st t'.
Proof.
  unfold created_for. destruct (String.eqb_spec t' t) as [->|Hne]; [by rewrite dget_dset_eq|by rewrite dget_dset_ne by congruence].
Qed.
Lemma run_orderly inputs st task_id seen : NoDup (keys st) → created_for st task_id ⊆ seen → orderly seen (wire task_id (run inputs st)).
Proof.
  revert st seen. induction inputs as [|x inputs IH]; intros st seen Hnd Hs; [done|].
  cbn [run]. unfold convert. set (evs := _strip_fake_artifact_links _).
  destruct (String.eqb_spec (for_task x) task_id) as [<-|Hne].
  - pose proof (enforce_orderly _ evs seen Hs) as He. destruct (enforce (created_for st (for_task x)) evs) as [out c].
    destruct He as [He1 He2]. unfold wire. cbn [List.filter fst]. rewrite String.eqb_refl. cbn [map concat snd].
    apply orderly_app. split; [done|]. destruct (closing x).
    + apply IH; [by apply NoDup_keys_ddel|]. unfold created_for. rewrite dget_ddel_eq by done. cbn. set_solver.
    + apply IH; [by apply NoDup_keys_dset|]. rewrite created_set, String.eqb_refl. done.
  - destruct (enforce (created_for st (for_task x)) evs) as [out c]. unfold wire. cbn [List.filter fst].
    apply String.eqb_neq in Hne as Hb. rewrite Hb. destruct (closing x).
    + apply IH; [by apply NoDup_keys_ddel|]. unfold created_for. by rewrite dget_ddel_ne.
    + apply IH; [by apply NoDup_keys_dset|]. rewrite created_set. by rewrite (proj2 (String.eqb_neq task_id (for_task x))) by congruence.
Qed.

(** C23. No append without a create. However the events of many tasks follow each other, and
    whatever the framework made of them, on the wire of each task an update never appends
    to an artifact that no earlier update of this task was about, so the first update of
    every artifact creates it. *)
Theorem append_only_after_create inputs task_id before i ps last after :
  wire task_id (run inputs []) = before ++ ArtifactUpdate i ps true last :: after →
  ∃ ps' append last', ArtifactUpdate i ps' append last' ∈ before.
Proof.
  intros Hw. assert (orderly [] (wire task_id (run inputs []))) as Ho by (apply run_orderly; [constructor|done]).
  rewrite Hw in Ho. apply orderly_app in Ho as [_ [Hi _]]. specialize (Hi eq_refl). rewrite app_nil_r in Hi.
  apply list_elem_of_In, in_rev, list_elem_of_In, list_elem_of_omap in Hi as (ev & Hev & E).
  destruct ev as [j ps' append last'|s m f|w]; try done. injection E as ->. by exists ps', append, last'.
Qed.
End Conserved.

(** ** The tasks of a session *)

Definition known_ids (e : executor) : list string := match session e with Some t => task_ids t | None => [] end.
Inductive reachable : executor → Prop :=
| reach_start : reachable (Executor None false [])
| reach_submit id e : reachable e → reachable (submit id e)
| reach_execute i e e' : reachable e → execute_step i e = Some e' → reachable e'.
Definition marked (p : phase) : bool := match p with Running | Finished => true | _ => false end.
Definition is_marking (p : phase) : bool := match p with Marking _ => true | _ => false end.

Record orderly_tasks (e : executor) : Prop := {
  o_lock : lock_held e = true ↔ ∃ i id p, executions e !! i = Some (id, p) ∧ is_marking p = true;
  o_one i j x y : executions e !! i = Some x → executions e !! j = Some y → is_marking x.2 = true → is_marking y.2 = true → i = j;
  o_read i id existing : executions e !! i = Some (id, Marking existing) → known_ids e = existing ∧ id ≠ "";
  o_nodup : NoDup (known_ids e);
  o_known id : id ∈ known_ids e ↔ id ≠ "" ∧ ∃ i p, executions e !! i = Some (id, p) ∧ marked p = true
}.

Lemma set_phase_lookup i p e j x id q : executions e !! i = Some (id, q) → set_phase i p e !! j = Some x →
  j = i ∧ x = (id, p) ∨ j ≠ i ∧ executions e !! j = Some x.
Proof.
  intros Hi. unfold set_phase. rewrite Hi. destruct (decide (j = i)) as [->|Hne].
  - rewrite list_lookup_insert_eq by by eapply lookup_lt_Some. intros [= <-]. by left.
  - rewrite list_lookup_insert_ne by done. by right.
Qed.
Lemma set_phase_at i p e id q : executions e !! i = Some (id, q) → set_phase i p e !! i = Some (id, p).
Proof. intros Hi. unfold set_phase. rewrite Hi, list_lookup_insert_eq by by eapply lookup_lt_Some. done. Qed.
Lemma set_phase_other i p e j id q : executions e !! i = Some (id, q) → j ≠ i → set_phase i p e !! j = executions e !! j.
Proof. intros Hi Hne. unfold set_phase. by rewrite Hi, list_lookup_insert_ne by done. Qed.

(** A step that leaves the lock and the known ids alone. *)
Lemma quiet_step e i id q p session' : orderly_tasks e → executions e !! i = Some (id, q) →
  is_marking q = false → is_marking p = false → (id ≠ "" → marked q = marked p) →
  match session' with Some t => task_ids t | None => [] end = known_ids e →
  orderly_tasks (Executor session' (lock_held e) (set_phase i p e)).
Proof.
  intros [H1 H2 H3 H4 H5] Hi Hq Hp Hm Hs.
  assert (∀ (x : string * phase) j, set_phase i p e !! j = Some x → is_marking x.2 = true → executions e !! j = Some x) as Hback.
  { intros x j [[-> ->]|[_ ?]]%(set_phase_lookup _ _ _ _ _ _ _ Hi); cbn; [congruence|done]. }
  assert (∀ (x : string * phase) j, executions e !! j = Some x → is_marking x.2 = true → set_phase i p e !! j = Some x) as Hforth.
  { intros x j Hj Hx. rewrite (set_phase_other _ _ _ _ _ _ Hi); [done|]. intros ->. rewrite Hi in Hj. injection Hj as <-. cbn in Hx. congruence. }
  split; unfold known_ids in *; cbn [session lock_held executions]; rewrite ?Hs; try done.
  - rewrite H1. split; intros (j & jd & r & Hj & Hr); exists j, jd, r; (split; [|done]); [by apply Hforth|by apply Hback].
  - intros j k x y Hj Hk Hx Hy. apply (H2 j k x y); auto.
  - intros j jd existing Hj. apply (H3 j). by apply Hback.
  - intros jd. rewrite H5. split; intros [Hne (j & r & Hj & Hr)]; (split; [done|]).
    + destruct (decide (j = i)) as [->|Hji].
      * rewrite Hi in Hj. injection Hj as <- <-. exists i, p. split; [by apply (set_phase_at _ _ _ _ q)|]. by rewrite <- Hm.
      * exists j, r. by rewrite (set_phase_other _ _ _ _ _ _ Hi).
    + apply (set_phase_lookup _ _ _ _ _ _ _ Hi) in Hj as [[-> [= -> ->]]|[_ Hj]]; [|by exists j, r].
      exists i, q. split; [done|]. by rewrite Hm.
Qed.

Lemma submit_orderly id e : orderly_tasks e → orderly_tasks (submit id e).
Proof.
  intros [H1 H2 H3 H4 H5].
  assert (∀ j x, executions (submit id e) !! j = Some x → executions e !! j = Some x ∨ x = (id, Waiting)) as Hx.
  { intros j x [?|[_ [_ <-]%list_lookup_singleton_Some]]%lookup_app_Some; auto. }
  assert (∀ j x, executions e !! j = Some x → executions (submit id e) !! j = Some x) as Hy
    by (intros j x Hj; apply lookup_app_Some; by left).
  split; [| | |done|].
  - rewrite H1. split; intros (i & jd & p & Hi & Hp).
    + exists i, jd, p. auto.
    + destruct (Hx _ _ Hi) as [?|[= -> ->]]; [by exists i, jd, p|done].
  - intros i j x y Hi Hj Hpx Hpy. destruct (Hx _ _ Hi) as [?| ->]; [|done]. destruct (Hx _ _ Hj) as [?| ->]; [|done].
    by apply (H2 i j x y).
  - intros i jd existing Hi. destruct (Hx _ _ Hi) as [?|?]; [by apply (H3 i)|done].
  - intros jd. rewrite (H5 jd). split; intros [Hne (i & p & Hi & Hp)]; (split; [done|]).
    + exists i, p. auto.
    + destruct (Hx _ _ Hi) as [?|[= -> ->]]; [by exists i, p|done].
Qed.
(** The read under the lock, and the write that releases it. *)
Lemma begin_marking e i id : orderly_tasks e → executions e !! i = Some (id, Waiting) → lock_held e = false → id ≠ "" →
  let e' := Executor (Some (default (Tracked [] None) (session e))) true
              (set_phase i (Marking (task_ids (default (Tracked [] None) (session e)))) e) in
  orderly_tasks e' ∧ known_ids e `prefix_of` known_ids e'.
Proof.
  intros Ho Hi Hl Hid. cbn zeta.
  assert (known_ids e = task_ids (default (Tracked [] None) (session e))) as Hk by (unfold known_ids; by destruct (session e)).
  destruct Ho as [H1 H2 H3 H4 H5]. split; [|unfold known_ids at 2; cbn; by rewrite <- Hk].
  assert (∀ j x, executions e !! j = Some x → is_marking x.2 = false) as Hno.
  { intros j [jd r] Hj. destruct (is_marking r) eqn:Er; [|done].
    assert (lock_held e = true) by (apply H1; by exists j, jd, r). congruence. }
  split; cbn [lock_held executions]; unfold known_ids; cbn [session]; rewrite <- ?Hk; try done.
  * split; [|done]. intros _. exists i, id, (Marking (known_ids e)). split; [|done].
    rewrite (set_phase_at _ _ _ _ _ Hi). by rewrite Hk.
  * intros j k x y [[-> ->]|[_ Hj]]%(set_phase_lookup _ _ _ _ _ _ _ Hi) [[-> ->]|[_ Hy]]%(set_phase_lookup _ _ _ _ _ _ _ Hi) Hx Hz;
      [done|by rewrite (Hno _ _ Hy) in Hz|by rewrite (Hno _ _ Hj) in Hx|by rewrite (Hno _ _ Hj) in Hx].
  * intros j jd ex [[-> [= -> ->]]|[_ Hj]]%(set_phase_lookup _ _ _ _ _ _ _ Hi); [by rewrite Hk|].
    apply Hno in Hj. done.
  * intros jd. rewrite (H5 jd). split; intros [Hne (j & r & Hj & Hr)]; (split; [done|]).
    -- exists j, r. rewrite (set_phase_other _ _ _ _ _ _ Hi); [done|]. intros ->. rewrite Hi in Hj. by injection Hj as <- <-.
    -- apply (set_phase_lookup _ _ _ _ _ _ _ Hi) in Hj as [[-> [= -> ->]]|[_ Hj]]; [done|by exists j, r].
Qed.
Lemma end_marking e i id existing : orderly_tasks e → executions e !! i = Some (id, Marking existing) →
  let e' := Executor (Some (Tracked (if mem id existing then existing else existing ++ [id]) (Some id))) false (set_phase i Running e) in
  orderly_tasks e' ∧ known_ids e `prefix_of` known_ids e'.
Proof.
  intros Ho Hi. cbn zeta.
  destruct Ho as [H1 H2 H3 H4 H5]. destruct (H3 i id existing Hi) as [Hk Hid].
  set (ids := if mem id existing then existing else existing ++ [id]).
  assert (∀ x, x ∈ ids ↔ x = id ∨ x ∈ existing) as Hids.
  { intros x. unfold ids. destruct (mem id existing) eqn:Em; [|set_solver].
    unfold mem in Em. apply existsb_elem in Em as (y & Hy & ->%String.eqb_eq). naive_solver. }
  assert (∀ j x, executions e !! j = Some x → is_marking x.2 = true → j = i) as Hone
    by (intros j x Hj Hx; by apply (H2 j i x (id, Marking existing))).
  split.
  2:{ unfold known_ids at 2. cbn. rewrite Hk. unfold ids. destruct (mem id existing); [done|by eexists]. }
  split; cbn [lock_held executions]; unfold known_ids; cbn [session task_ids].
  + split; [done|]. intros (j & jd & r & Hj & Hr).
    apply (set_phase_lookup _ _ _ _ _ _ _ Hi) in Hj as [[-> [= -> ->]]|[Hne Hj]]; [done|]. by apply (Hone j (jd, r)) in Hj.
  + intros j k x y [[-> ->]|[Hne Hj]]%(set_phase_lookup _ _ _ _ _ _ _ Hi) Hy Hx Hz; [done|]. by apply (Hone j x) in Hj.
  + intros j jd ex [[-> ?]|[Hne Hj]]%(set_phase_lookup _ _ _ _ _ _ _ Hi); [done|]. by apply (Hone j (jd, Marking ex)) in Hj.
  + unfold ids. rewrite Hk in H4. destruct (mem id existing) eqn:Em; [done|]. apply NoDup_app. split_and!; [done| |apply NoDup_singleton].
    intros x Hx ->%list_elem_of_singleton. unfold mem in Em. rewrite existsb_false in Em. specialize (Em _ Hx).
    by rewrite String.eqb_refl in Em.
  + intros jd. rewrite Hids, <- Hk, (H5 jd). split.
    * intros [->|[Hne (j & r & Hj & Hr)]].
      -- split; [done|]. exists i, Running. by rewrite (set_phase_at _ _ _ _ _ Hi).
      -- split; [done|]. exists j, r. rewrite (set_phase_other _ _ _ _ _ _ Hi); [done|]. intros ->. rewrite Hi in Hj. by injection Hj as <- <-.
    * intros [Hne (j & r & Hj & Hr)]. apply (set_phase_lookup _ _ _ _ _ _ _ Hi) in Hj as [[-> [= -> ->]]|[_ Hj]]; [by left|right].
      split; [done|]. by exists j, r.
Qed.
Lemma execute_orderly i e e' : orderly_tasks e → execute_step i e = Some e' → orderly_tasks e' ∧ known_ids e `prefix_of` known_ids e'.
Proof.
  intros Ho. unfold execute_step. destruct (executions e !! i) as [[id p]|] eqn:Hi; [|done].
  destruct p as [|existing| |]; [| | |done].
  - destruct (id =? "")%string eqn:Hid.
    + intros [= <-]. apply String.eqb_eq in Hid as ->. split; [by apply (quiet_step e i "" Waiting Running)|done].
    + destruct (lock_held e) eqn:Hl; [done|]. intros [= <-]. apply String.eqb_neq in Hid.
      by apply (begin_marking e i id).
  - intros [= <-]. by apply end_marking.
  - intros [= <-]. split.
    + apply (quiet_step e i id Running Finished); try done. unfold known_ids. by destruct (session e).
    + unfold known_ids. cbn. by destruct (session e).
Qed.
Lemma reachable_orderly e : reachable e → orderly_tasks e.
Proof.
  induction 1 as [|id e _ IH|i e e' _ IH He].
  - split; try done; unfold known_ids; cbn.
    + split; [done|]. by intros (i & id & p & ? & _).
    + constructor.
    + intros id. split; [by intros ?%not_elem_of_nil|]. by intros [_ (i & p & ? & _)].
  - by apply submit_orderly.
  - by eapply execute_orderly.
Qed.

(** C22. No task of a context is forgotten. However the executions of a session interleave, and
    however they end, the session lists exactly the tasks that were marked active, each
    once, in the order they were; an entry is never removed or moved: the lock keeps two
    first messages from each reading the list before the other writes it. *)
Theorem tasks_never_lost e : reachable e →
  NoDup (known_ids e) ∧
  (∀ id, id ∈ known_ids e ↔ id ≠ "" ∧ ∃ i p, executions e !! i = Some (id, p) ∧ marked p = true) ∧
  (∀ i e', execute_step i e = Some e' → known_ids e `prefix_of` known_ids e' ∧ length (known_ids e') ≤ S (length (known_ids e))) ∧
  (∀ i j x y, executions e !! i = Some x → executions e !! j = Some y → is_marking x.2 = true → is_marking y.2 = true → i = j).
Proof.
  intros Hr%reachable_orderly. split_and!; [apply Hr|apply Hr| |apply Hr]. intros i e' He.
  split; [by eapply execute_orderly|]. revert He. unfold execute_step, known_ids.
  destruct (executions e !! i) as [[id [|existing| |]]|] eqn:Hi; try done.
  - destruct (id =? "")%string; [intros [= <-]; cbn; lia|]. destruct (lock_held e); [done|]. intros [= <-]. cbn.
    destruct (session e); cbn; lia.
  - intros [= <-]. cbn. destruct (o_read e Hr i id existing Hi) as [Hk _]. unfold known_ids in Hk. rewrite Hk.
    destruct (mem id existing); rewrite ?length_app; cbn; lia.
  - intros [= <-]. cbn. destruct (session e); cbn; lia.
Qed.

(** The flag of the active task is cleared by whichever execution ends first. *)
Example finishing_clears_anothers_flag :
  let steps := foldr (λ i e, e ≫= execute_step i) (Some (submit "b" (submit "a" (Executor None false [])))) in
  let e := steps [1; 1; 0; 0] in
  (session <$> e) = Some (Some (Tracked ["a"; "b"] (Some "b"))) ∧
  (session <$> (e ≫= execute_step 0)) = Some (Some (Tracked ["a"; "b"] None)) ∧
  (executions <$> (e ≫= execute_step 0)) = Some [("a", Finished); ("b", Running)].
Proof. vm_compute. split_and!; reflexivity. Qed.

(** ** Data parts *)

Section DataPartFacts.
Context `{PyFloat}.
Lemma removesuffix_app p s : p ≠ "" → removesuffix p (s +:+ p) = s.
Proof.
  intros Hp. unfold removesuffix. assert (endswith p (s +:+ p) = true) as -> by (apply endswith_spec; by exists s).
  apply String.eqb_neq in Hp. rewrite ?Hp. cbn. rewrite slen_app. replace (slen s + slen p - slen p) with (slen s) by lia. apply stake_app.
Qed.
Lemma utf8_tag : utf8_text A2A_DATA_PART_END_TAG = Some A2A_DATA_PART_END_TAG. Proof. done. Qed.

(** What the framework wrapped is readable again. The blob of a data part, its JSON in ASCII
    between the two tags, is given to the model as the text of the payload under [data], or
    of the object itself without one; a part whose blob has no opening tag is left as it is. *)
Theorem datapart_recovered mime v : json_ok v = true →
  _detoxify_part (MBlob mime (Some (A2A_DATA_PART_START_TAG +:+ json_dumps compact v +:+ A2A_DATA_PART_END_TAG)))
    = MText (describe (payload_of v)) ∧
  (∀ data, startswith A2A_DATA_PART_START_TAG data = false → _detoxify_part (MBlob mime (Some data)) = MBlob mime (Some data)) ∧
  ∀ authenticated base, r_user_id (request_converter authenticated base) =
    match authenticated with Some u => if (u =? "")%string then r_user_id base else u | None => r_user_id base end.
Proof.
  intros Hv. split_and!; [| |done].
  - unfold _detoxify_part, unwrap_a2a_datapart_text. rewrite startswith_app, sdrop_app, removesuffix_app by done.
    rewrite utf8_ascii by by apply dumps_ascii. by rewrite (json_roundtrip compact "" "") by done.
  - intros data Hd. unfold _detoxify_part, unwrap_a2a_datapart_text. by rewrite Hd.
Qed.
End DataPartFacts.

(** ** Witnesses *)

Lemma append_only_after_create_witness :
  let Hf : PyFloat := λ _, "" in
  let a := [ArtifactUpdate "a" [TextPart "hel" []] false false] in
  let inputs := [Input false "t" [ArtifactUpdate "a" [TextPart "hel" []] true false];
     Input false "u" [ArtifactUpdate "b" [TextPart "x" []] true false];
     Input false "t" [ArtifactUpdate "a" [TextPart "lo" []] true true]] in
  wire "t" (run inputs []) = a ++ [ArtifactUpdate "a" [TextPart "lo" []] true true] ∧
  ∃ ps' append last', ArtifactUpdate "a" ps' append last' ∈ a.
Proof.
  intros Hf a inputs. assert (wire "t" (run inputs []) = a ++ [ArtifactUpdate "a" [TextPart "lo" []] true true]) as E
    by (vm_compute; reflexivity). split; [exact E|].
  exact (append_only_after_create (H := Hf) inputs "t" a "a" _ _ [] E).
Defined.

(** Two first messages of a context at once: the second waits for the lock. *)
Definition two_at_once : executor := submit "b" (submit "a" (Executor None false [])).
Lemma tasks_never_lost_witness :
  ∃ e, execute_step 0 two_at_once = Some e ∧ execute_step 1 e = None ∧ NoDup (known_ids e).
Proof.
  eexists. split_and!; [reflexivity|reflexivity|].
  apply (tasks_never_lost _ (reach_execute 0 two_at_once _ (reach_submit "b" _ (reach_submit "a" _ reach_start)) eq_refl)).
Defined.
Lemma datapart_recovered_witness :
  let Hf : PyFloat := λ _, "" in
  let v := PDict [("data", PDict [("k", PInt 1)])] in
  json_ok v = true ∧
  _detoxify_part (MBlob "text/plain" (Some (A2A_DATA_PART_START_TAG +:+ json_dumps compact v +:+ A2A_DATA_PART_END_TAG)))
    = MText ("[UI action] {" +:+ DQs +:+ "k" +:+ DQs +:+ ": 1}").
Proof.
  intros Hf v. assert (json_ok v = true) as Hv by reflexivity. split; [exact Hv|].
  rewrite (proj1 (datapart_recovered (H := Hf) "text/plain" v Hv)). vm_compute. reflexivity.
Defined.
