(* ===== verification/Uploads.v ===== *)
(** * The workspace over HTTP: [api/uploads.py]

    The routes a client uploads, lists, reads, edits and deletes files of its workspace by.
    A route is a program: what it asks of the environment, in order, and what it makes of
    each reply; its theorems hold whatever the environment replies, or for the environment
    of a sandbox, over RuntimeServer.v. *)

From stdpp Require Import fin_maps gmap.
From S2P Require Import Prelude PyStr Names PyVal Environ OutputOverflow WorkspaceWindow FileOps Posix Web RuntimeServer SandboxEnv.
#[local] Open Scope nat_scope.

(** ** Programs over an environment *)

Section Programs.
Context {A : Type}.

(** The operations of an [Environment], each with what is done with its reply; [IsDirOnHost]
    is [Path.is_dir], for an environment on the host. *)
Inductive prog :=
| Give (w : web A)
| ReadFile (p : path) (k : res string → prog)
| WriteFile (p : path) (data : string) (k : res unit → prog)
| ListDirectory (p : path) (limit : Z) (k : res (list pyval * bool) → prog)
| MakeDir (p : path) (k : res unit → prog)
| DeleteFile (p : path) (recursive : bool) (k : res unit → prog)
| DownloadZip (p : path) (k : res (list member) → prog)
| IsDirOnHost (p : path) (k : res bool → prog).

(** An environment: the operations over its state. *)
Record environment (S : Type) := Environment {
  do_read : S → path → res string;
  do_write : S → path → string → res unit * S;
  do_list : S → path → Z → res (list pyval * bool);
  do_mkdir : S → path → res unit * S;
  do_delete : S → path → bool → res unit * S;
  do_zip : S → path → res (list member);
  do_is_dir : S → path → res bool
}.
Fixpoint run {S} (e : environment S) (x : prog) (s : S) : web A * S :=
  match x with
  | Give w => (w, s)
  | ReadFile p k => run e (k (do_read S e s p)) s
  | WriteFile p data k => let '(r, s') := do_write S e s p data in run e (k r) s'
  | ListDirectory p limit k => run e (k (do_list S e s p limit)) s
  | MakeDir p k => let '(r, s') := do_mkdir S e s p in run e (k r) s'
  | DeleteFile p recursive k => let '(r, s') := do_delete S e s p recursive in run e (k r) s'
  | DownloadZip p k => run e (k (do_zip S e s p)) s
  | IsDirOnHost p k => run e (k (do_is_dir S e s p)) s
  end.
End Programs.
Arguments prog : clear implicits.
Arguments do_read {S}. Arguments do_write {S}. Arguments do_list {S}. Arguments do_mkdir {S}.
Arguments do_delete {S}. Arguments do_zip {S}. Arguments do_is_dir {S}.

(** Steps that ask nothing. *)
Definition web_then {A B} (w : web A) (k : A → prog B) : prog B :=
  match w with Answer a => k a | HTTPException s d => Give (HTTPException s d) | Crash e => Give (Crash e) end.
Notation "'let>' x ':=' w 'in' k" := (web_then w (λ x, k))
  (at level 10, x name, w at level 100, k at level 200, only parsing) : py_scope.
(** What no handler catches. *)
Definition uncaught {A B} (r : res A) (k : A → prog B) : prog B :=
  match r with Ok a => k a | Raise e => Give (Crash e) end.

(** ** Constants *)

Definition MAX_UPLOAD_BYTES : Z := 50 * 1024 * 1024.
Definition MAX_EDIT_BYTES : Z := 2 * 1024 * 1024.
Definition MAX_FILENAME_LEN : nat := 255.
Definition MAX_TREE_ENTRIES : Z := 500.
Definition WORKSPACE_ROOT : string := "/workspace".
Definition UPLOADS_SUBDIR : string := "uploads".
Definition _LISTING_EXCLUDE_NAMES : list string :=
  ["__pycache__"; ".git"; ".hg"; ".svn"; ".DS_Store"; "Thumbs.db"; "node_modules"; ".venv"; "venv"; ".tox";
   ".mypy_cache"; ".pytest_cache"; ".ruff_cache"; ".ty_cache"; ".ipynb_checkpoints"; ".idea"; ".vscode"; ".next"; ".turbo"].
Definition _LISTING_EXCLUDE_SUFFIXES : list string := [".pyc"; ".pyo"].
Definition _is_listing_junk (name : string) : bool :=
  mem name _LISTING_EXCLUDE_NAMES || existsb (λ s, endswith s name) _LISTING_EXCLUDE_SUFFIXES.

(** ** Names *)

Definition bad {A} (detail : string) : web A := HTTPException 400 detail.
Definition is_null (c : ascii) : bool := (code c =? 0)%N.
Definition is_control (c : ascii) : bool := (code c <? 32)%N.
Definition slashed (raw : string) : string := smap (λ c, if Ascii.eqb c BSL then "/"%char else c) raw.

(** A segment the loop of [_sanitize_relpath] lets pass, or why not. *)
Definition segment_refusal (part : string) : option string :=
  if mem part [""; "."; ".."] then Some ("relpath segment invalid: " +:+ repr_str part)
  else if has_char "/" part || has_char BSL part then Some "relpath segment must not contain separators"
  else if MAX_FILENAME_LEN <? slen part
  then Some ("relpath segment longer than " +:+ str_of_nat MAX_FILENAME_LEN +:+ " characters")
  else None.
Definition _sanitize_relpath (raw : string) : web path :=
  if (raw =? "")%string then bad "relpath is empty"
  else if sexists is_null raw then bad "relpath must not contain null bytes"
  else if sexists is_control raw then bad "relpath must not contain control characters"
  else
    let normalised := slashed raw in
    if startswith "/" normalised then bad "relpath must be relative"
    else
      let normalised := strip_slashes normalised in
      if (normalised =? "")%string then bad "relpath is empty"
      else
        let segments := split_on "/" normalised in
        match first_some segment_refusal segments with
        | Some detail => bad detail
        | None => Answer segments
        end.
Definition _sanitize_filename (raw : string) : web string :=
  if (raw =? "")%string then bad "filename is empty"
  else if has_char "/" raw || has_char BSL raw then bad "filename must not contain path separators"
  else if sexists is_null raw then bad "filename must not contain null bytes"
  else if sexists is_control raw then bad "filename must not contain control characters"
  else if mem raw ["."; ".."] then bad "filename must not be '.' or '..'"
  else if startswith "." raw then bad "filename must not start with '.'"
  else if MAX_FILENAME_LEN <? slen raw
  then bad ("filename longer than " +:+ str_of_nat MAX_FILENAME_LEN +:+ " characters")
  else Answer raw.

(** ** Paths *)

(** The environment as the routes see it; its directory is absolute. *)
Record workspace := Workspace { working_dir : path; on_host_fs : bool }.

Section Routes.
(** [Path.resolve], on the host the service runs on: its links do not change during a request. *)
Context (resolved : path → res path).

(** [target.relative_to(root)] *)
Definition relative_to (target root : path) : option path :=
  if bool_decide (root `prefix_of` target) then Some (drop (length root) target) else None.

Definition _resolve_workspace_path (env : workspace) (requested : string) : web path :=
  if (requested =? "")%string then Answer (working_dir env)
  else
    let? rel := if startswith WORKSPACE_ROOT requested
                then Answer (lstrip (one_of "/") (sdrop (slen WORKSPACE_ROOT) requested))
                else if startswith "/" requested then bad ("path must be under " +:+ WORKSPACE_ROOT)
                else Answer requested in
    let? target := if (rel =? "")%string then Answer (working_dir env)
                   else of_res (resolved (working_dir env ++ parts rel)) in
    let? root := of_res (resolved (working_dir env)) in
    match relative_to target root with
    | Some _ => Answer target
    | None => bad ("path escapes " +:+ WORKSPACE_ROOT)
    end.

Definition _to_workspace_path (env : workspace) (target : path) : res string :=
  let! root := resolved (working_dir env) in
  let! there := resolved target in
  match relative_to there root with
  | None => Ok (path_text target)
  | Some [] => Ok WORKSPACE_ROOT
  | Some rel => Ok (rstrip (one_of "/") (WORKSPACE_ROOT +:+ "/" +:+ join "/" rel))
  end.

(** ** Responses *)

(** [urllib.parse.quote(name, safe="")] *)
Definition quote_strict : string → string :=
  concat_map (λ c, if is_unreserved c then s1 c else join "" (map percent (utf8_bytes c))).
(** [name.encode("ascii", "replace").decode("ascii").replace(DQ, "_")] *)
Definition fallback_char (c : ascii) : ascii :=
  if negb (is_ascii c) then "?"%char else if Ascii.eqb c DQ then "_"%char else c.
Definition _disposition (name : string) (inline : bool) : string :=
  (if inline then "inline" else "attachment") +:+ "; filename=" +:+ DQs +:+ smap fallback_char name +:+ DQs
  +:+ "; filename*=UTF-8''" +:+ quote_strict name.

Definition _INLINE_MIME_PREFIXES : list string := ["text/"; "image/"].
Definition _INLINE_MIME_EXACT : list string := ["application/pdf"; "application/json"].
(** [mimetypes.guess_type] goes by the tables of the host. *)
Context (guess_type : string → option string).
Definition _resolve_inline_mime (filename : string) : option string :=
  match guess_type filename with
  | None => None
  | Some guessed =>
      if (guessed =? "")%string then None
      else if mem guessed _INLINE_MIME_EXACT || existsb (λ p, startswith p guessed) _INLINE_MIME_PREFIXES
      then Some guessed else None
  end.

Inductive page := Bytes (data : string) | Zipped (members : list member).
Record reply := Reply { r_page : page; media_type : string; headers : list (string * string) }.

(** ** The routes *)

(** [except] clauses, by the class of the exception. *)
Definition is_class (names : list string) (e : exc) : bool := mem (exc_name e) names.
Definition is_os_error : exc → bool :=
  is_class ["OSError"; "FileNotFoundError"; "PermissionError"; "IsADirectoryError"; "NotADirectoryError";
            "FileExistsError"; "TimeoutError"].
Definition not_found : exc → bool := is_class ["FileNotFoundError"].
Definition forbidden : exc → bool := is_class ["PermissionError"].
Definition is_a_directory : exc → bool := is_class ["IsADirectoryError"].
Definition not_a_directory : exc → bool := is_class ["NotADirectoryError"].

(** [_list_directory]: an entry is a dict with a name. *)
Definition entry_name (e : pyval) : string := match e with PDict d => default "" (get_str d "name") | _ => "" end.
Definition visible (entries : list pyval) : list pyval := List.filter (λ e, negb (_is_listing_junk (entry_name e))) entries.

Definition path_name (p : path) : string := default "" (last p).
Definition _serve_dir_zip (target : path) : prog reply :=
  DownloadZip target (λ r,
    match r with
    | Ok data =>
        let name := or_str (path_name target) "workspace" in
        Give (Answer (Reply (Zipped data) "application/zip"
                [("Content-Disposition", _disposition (name +:+ ".zip") false)]))
    | Raise e => Give (if not_found e then HTTPException 404 (path_text target +:+ " not found")
                       else if forbidden e then HTTPException 403 (exc_text e) else Crash e)
    end).

(** The answers: [{"path", "size", "replaced"}], [{"path", "entries", "truncated"}]. *)
Record uploaded := Uploaded { u_path : string; u_size : Z; u_replaced : bool }.
Record listing := Listing { t_path : string; t_entries : list pyval; t_truncated : bool }.

(** [ensured]: what [_ensure_environment] comes to. A body that is too large is cut one
    byte after the limit, which makes no difference. *)
Definition upload_file (ensured : res workspace) (relpath filename : option string) (data : string) : prog uploaded :=
  let> sub_target := match relpath with
                     | Some (String _ _ as rel) => _sanitize_relpath rel
                     | _ => let? safe := _sanitize_filename (default "" filename) in Answer [safe]
                     end in
  if (MAX_UPLOAD_BYTES <? Z.of_nat (slen data))%Z
  then Give (HTTPException 413 ("file exceeds " +:+ str_of_Z MAX_UPLOAD_BYTES +:+ " bytes"))
  else uncaught ensured (λ env,
    let target := working_dir env ++ UPLOADS_SUBDIR :: sub_target in
    ReadFile target (λ probe,
      let replaced := match probe with Ok _ => true | Raise _ => false end in
      WriteFile target data (λ written, uncaught written (λ _,
        uncaught (_to_workspace_path env target) (λ label,
          Give (Answer (Uploaded label (Z.of_nat (slen data)) replaced))))))).

Definition workspace_new_folder (ensured : res workspace) (name : string) : prog string :=
  let name := strip name in
  if (name =? "")%string || mem name ["."; ".."] || has_char "/" name || has_char BSL name
  then Give (bad "invalid folder name")
  else uncaught ensured (λ env,
    let> target := _resolve_workspace_path env name in
    MakeDir target (λ r,
      match r with
      | Ok _ => uncaught (_to_workspace_path env target) (λ label, Give (Answer label))
      | Raise e => Give (if is_os_error e then HTTPException 500 ("folder create failed: " +:+ exc_text e) else Crash e)
      end)).

Definition workspace_tree (ensured : res workspace) (requested : string) : prog listing :=
  uncaught ensured (λ env,
    let> target := _resolve_workspace_path env requested in
    ListDirectory target MAX_TREE_ENTRIES (λ r,
      match r with
      | Ok (entries, truncated) =>
          uncaught (_to_workspace_path env target) (λ label, Give (Answer (Listing label (visible entries) truncated)))
      | Raise e =>
          Give (if not_found e then HTTPException 404 (requested +:+ " not found")
                else if not_a_directory e then HTTPException 400 (requested +:+ " is not a directory")
                else if forbidden e then HTTPException 403 (exc_text e)
                else if is_os_error e then HTTPException 500 ("workspace listing failed: " +:+ exc_text e)
                else Crash e)
      end)).

Definition served (target : path) (data : string) (inline : bool) : reply :=
  match (if inline then _resolve_inline_mime (path_name target) else None) with
  | Some mime => Reply (Bytes data) mime
      [("Content-Disposition", _disposition (path_name target) true); ("Content-Security-Policy", "sandbox");
       ("X-Content-Type-Options", "nosniff")]
  | None => Reply (Bytes data) "application/octet-stream" [("Content-Disposition", _disposition (path_name target) false)]
  end.
Definition workspace_download (ensured : res workspace) (requested : string) (inline : bool) : prog reply :=
  uncaught ensured (λ env,
    let> target := _resolve_workspace_path env requested in
    let fetch :=
      ReadFile target (λ r,
        match r with
        | Ok data =>
            Give (if (MAX_UPLOAD_BYTES <? Z.of_nat (slen data))%Z
                  then HTTPException 413 ("file exceeds " +:+ str_of_Z MAX_UPLOAD_BYTES +:+ " bytes")
                  else Answer (served target data inline))
        | Raise e =>
            if not_found e then Give (HTTPException 404 (requested +:+ " not found"))
            else if is_a_directory e then _serve_dir_zip target
            else Give (if forbidden e then HTTPException 403 (exc_text e) else Crash e)
        end) in
    if on_host_fs env
    then IsDirOnHost target (λ d, uncaught d (λ d, if d then _serve_dir_zip target else fetch))
    else fetch).

(** [content.encode("utf-8")] *)
Definition utf8_encode : string → string := concat_map (λ c, fold_right (λ n s, String (ascii_of_N n) s) "" (utf8_bytes c)).
Definition workspace_write `{Resolve} (hst : host) (ensured : res workspace) (text requested : string) : prog (string * Z) :=
  let data := utf8_encode text in
  if (MAX_EDIT_BYTES <? Z.of_nat (slen data))%Z
  then Give (HTTPException 413 ("content exceeds " +:+ str_of_Z MAX_EDIT_BYTES +:+ " bytes"))
  else uncaught ensured (λ env,
    let> target := _resolve_workspace_path env requested in
    if _is_write_denied hst (path_text target)
    then Give (HTTPException 403 (requested +:+ " is on the protected paths list"))
    else if _has_binary_extension (path_text target)
    then Give (HTTPException 415 (requested +:+ " is not a text file"))
    else
      ReadFile target (λ r,
        match r with
        | Raise e =>
            Give (if not_found e then HTTPException 404 (requested +:+ " not found")
                  else if is_a_directory e then bad (requested +:+ " is a directory")
                  else if is_os_error e then HTTPException 500 ("failed to read " +:+ requested +:+ ": " +:+ exc_text e)
                  else Crash e)
        | Ok _ =>
            WriteFile target data (λ w,
              match w with
              | Ok _ => uncaught (_to_workspace_path env target) (λ label,
                          Give (Answer (label, Z.of_nat (slen data))))
              | Raise e => Give (if is_os_error e then HTTPException 500 ("write failed: " +:+ exc_text e) else Crash e)
              end)
        end)).

Definition workspace_delete (ensured : res workspace) (requested : string) (recursive : bool) : prog unit :=
  uncaught ensured (λ env,
    let> target := _resolve_workspace_path env requested in
    let> root := of_res (resolved (working_dir env)) in
    let> there := of_res (resolved target) in
    if bool_decide (there = root) then Give (bad ("refusing to delete workspace root " +:+ requested))
    else
      let directory := bad (requested +:+ " is a directory; pass recursive=true") in
      let delete :=
        DeleteFile target recursive (λ r,
          match r with
          | Ok _ => Give (Answer tt)
          | Raise e =>
              Give (if not_found e then HTTPException 404 (requested +:+ " not found")
                    else if is_a_directory e then directory
                    else if forbidden e then HTTPException 403 (exc_text e)
                    else if is_os_error e then HTTPException 500 ("workspace delete failed: " +:+ exc_text e)
                    else Crash e)
          end) in
      if on_host_fs env && negb recursive
      then IsDirOnHost target (λ d, uncaught d (λ d, if d then Give directory else delete))
      else delete).
End Routes.

(** * Facts *)

(** ** What a program asks *)

Inductive asked := Reads (p : path) | Writes (p : path) | Lists (p : path) | Makes (p : path) | Deletes (p : path)
| Zips (p : path) | Looks (p : path).
Definition about (a : asked) : path :=
  match a with Reads p | Writes p | Lists p | Makes p | Deletes p | Zips p | Looks p => p end.
(** Whatever the replies, all that is asked satisfies [Q]. *)
Fixpoint asks {A} (Q : asked → Prop) (x : prog A) : Prop :=
  match x with
  | Give _ => True
  | ReadFile p k => Q (Reads p) ∧ ∀ r, asks Q (k r)
  | WriteFile p _ k => Q (Writes p) ∧ ∀ r, asks Q (k r)
  | ListDirectory p _ k => Q (Lists p) ∧ ∀ r, asks Q (k r)
  | MakeDir p k => Q (Makes p) ∧ ∀ r, asks Q (k r)
  | DeleteFile p _ k => Q (Deletes p) ∧ ∀ r, asks Q (k r)
  | DownloadZip p k => Q (Zips p) ∧ ∀ r, asks Q (k r)
  | IsDirOnHost p k => Q (Looks p) ∧ ∀ r, asks Q (k r)
  end.
Lemma asks_uncaught {A B} Q (r : res A) (k : A → prog B) : (∀ a, r = Ok a → asks Q (k a)) → asks Q (uncaught r k).
Proof. destruct r; cbn; auto. Qed.
Lemma asks_web {A B} Q (w : web A) (k : A → prog B) : (∀ a, w = Answer a → asks Q (k a)) → asks Q (web_then w k).
Proof. destruct w; cbn; auto. Qed.
Lemma asks_if {A} Q (b : bool) (x y : prog A) : (b = true → asks Q x) → (b = false → asks Q y) → asks Q (if b then x else y).
Proof. destruct b; auto. Qed.

(** The loop of a program: each of its asks, then its continuations. *)
Ltac walk := repeat first
  [ exact I | assumption
  | match goal with
    | |- asks _ (Give _) => exact I
    | |- asks _ (uncaught _ _) => apply asks_uncaught; intros ? ?
    | |- asks _ (if _ then _ else _) => apply asks_if; intros ?
    | |- asks _ (ReadFile _ _) => split; [|intros [?|?]]
    | |- asks _ (WriteFile _ _ _) => split; [|intros [?|?]]
    | |- asks _ (ListDirectory _ _ _) => split; [|intros [[? ?]|?]]
    | |- asks _ (MakeDir _ _) => split; [|intros [?|?]]
    | |- asks _ (DeleteFile _ _ _) => split; [|intros [?|?]]
    | |- asks _ (DownloadZip _ _) => split; [|intros [?|?]]
    | |- asks _ (IsDirOnHost _ _) => split; [|intros [?|?]]
    end ].

(** ** Names *)

Definition plain_name (x : string) : Prop :=
  is_part x ∧ x ≠ ".." ∧ has_char BSL x = false ∧ sexists is_control x = false ∧ slen x ≤ MAX_FILENAME_LEN.
Lemma first_some_none {A B} (f : A → option B) l : first_some f l = None ↔ ∀ x, x ∈ l → f x = None.
Proof.
  induction l as [|x l IH]; cbn; [split; [intros _ y ?%not_elem_of_nil|]; done|].
  destruct (f x) eqn:E; [split; [done|]; intros Hf; by rewrite (Hf x) in E by by left|].
  rewrite IH. split; [intros Hl y [->|Hy]%elem_of_cons; auto|intros Hl y Hy; apply Hl; by right].
Qed.
Lemma sexists_sub p s t : substring_of s t → sexists p t = false → sexists p s = false.
Proof. intros (l & r & ->). rewrite !sexists_app. by intros [_ [? _]%orb_false_iff]%orb_false_iff. Qed.
Lemma part_of_join sep x l : x ∈ l → substring_of x (join sep l).
Proof.
  induction l as [|y l IH]; [by intros ?%not_elem_of_nil|]. destruct l as [|z l].
  - intros ->%list_elem_of_singleton. apply substring_refl.
  - rewrite join_cons by done. intros [->|Hx]%elem_of_cons; [by exists "", (sep +:+ join sep (z :: l))|].
    apply substring_app_l, substring_app_l. by apply IH.
Qed.
Lemma split_part c x s : x ∈ split_on c s → substring_of x s.
Proof. intros Hx%(part_of_join (s1 c)). by rewrite join_split_on in Hx. Qed.

Lemma segment_ok part : segment_refusal part = None →
  is_part part ∧ part ≠ ".." ∧ has_char BSL part = false ∧ slen part ≤ MAX_FILENAME_LEN.
Proof.
  unfold segment_refusal, mem. cbn [existsb]. rewrite orb_false_r.
  destruct (String.eqb_spec part ""); [done|]. destruct (String.eqb_spec part "."); [done|].
  destruct (String.eqb_spec part ".."); [done|]. cbn [orb].
  destruct (has_char "/" part) eqn:H1; [done|]. destruct (has_char BSL part) eqn:H2; [done|]. cbn [orb].
  destruct (Nat.ltb_spec MAX_FILENAME_LEN (slen part)); [done|]. done.
Qed.
Lemma slashed_control raw : sexists is_control raw = false → sexists is_control (slashed raw) = false.
Proof.
  unfold slashed. induction raw as [|c raw IH]; [done|]. cbn [smap sexists]. intros [Hc Hr]%orb_false_iff.
  rewrite (IH Hr), orb_false_r.
  by destruct (Ascii.eqb c BSL).
Qed.
Lemma relpath_plain raw rel : _sanitize_relpath raw = Answer rel → rel ≠ [] ∧ Forall plain_name rel ∧ join "/" rel = strip_slashes (slashed raw).
Proof.
  unfold _sanitize_relpath. destruct (raw =? "")%string; [done|]. destruct (sexists is_null raw); [done|].
  destruct (sexists is_control raw) eqn:Hc; [done|]. cbv zeta. destruct (startswith "/" _); [done|].
  destruct (strip_slashes (slashed raw) =? "")%string; [done|].
  destruct (first_some segment_refusal _) eqn:Hf; [done|]. intros [= <-]. split_and!; [apply split_on_nonempty| |].
  - apply Forall_forall. intros x Hx. destruct (segment_ok x) as (H1 & H2 & H3 & H4).
    { by apply (proj1 (first_some_none _ _) Hf). }
    split_and!; try done; [apply H1..|]. apply (sexists_sub _ _ (slashed raw)); [|by apply slashed_control].
    eapply substring_trans; [by apply (split_part "/")|]. apply strip_substring.
  - apply (join_split_on "/").
Qed.
Lemma filename_plain raw name : _sanitize_filename raw = Answer name → name = raw ∧ plain_name raw ∧ startswith "." raw = false.
Proof.
  unfold _sanitize_filename. destruct (String.eqb_spec raw ""); [done|].
  destruct (has_char "/" raw) eqn:H1; [done|]. destruct (has_char BSL raw) eqn:H2; [done|]. cbn [orb].
  destruct (sexists is_null raw); [done|]. destruct (sexists is_control raw) eqn:H3; [done|].
  unfold mem. cbn [existsb]. rewrite orb_false_r.
  destruct (String.eqb_spec raw "."); [done|]. destruct (String.eqb_spec raw ".."); [done|]. cbn [orb].
  destruct (startswith "." raw) eqn:H4; [done|]. destruct (Nat.ltb_spec MAX_FILENAME_LEN (slen raw)); [done|].
  by intros [= <-].
Qed.

(** ** Where the routes go *)

(** What the theorems use of [Path.resolve]: what it gives is a path of names, which
    resolves to itself. *)
Class HostPaths (resolved : path → res path) := {
  resolved_again p q : resolved p = Ok q → resolved q = Ok q;
  resolved_proper p q : Forall is_part p → resolved p = Ok q → proper q
}.

(** A host without links keeps the promise. *)
Section Linkless.
Context `{Host} (quiet : ∀ op p, fault op p = None) (m : fs) (linkless : ∀ q, link_target m q = None).
Definition norm_step (acc : path) (name : string) : path :=
  if dropped name then acc else if (name =? "..")%string then parent acc else acc ++ [name].
Lemma joinreal_linkless fuel seen cur rest : joinreal fuel m seen cur rest = Some (fold_left norm_step rest cur, true, seen).
Proof.
  revert cur. induction rest as [|name rest IH]; intros cur; [by rewrite joinreal_nil|].
  rewrite joinreal_cons, linkless. cbn [fold_left]. unfold norm_step at 2.
  destruct (dropped name); [apply IH|]. destruct (name =? "..")%string; apply IH.
Qed.
Lemma resolve_linkless p : resolve_path m p = Ok (normpath p).
Proof.
  unfold resolve_path, realpath. rewrite joinreal_linkless.
  change (fold_left norm_step p []) with (normpath p). rewrite (normpath_of_clean (normpath p)) by apply normpath_clean.
  pose proof (resolve_own quiet m (normpath p)) as Ho. unfold resolve_path in Ho.
  rewrite realpath_own in Ho; [|by intros ? ?|apply normpath_clean]. apply Ho; [by intros ? ?|apply normpath_clean].
Qed.
Lemma normpath_names (P : string → Prop) p : Forall P p → Forall P (normpath p).
Proof.
  unfold normpath. assert (∀ acc, Forall P acc → Forall P p → Forall P (fold_left norm_step p acc)) as Hf; [|by apply Hf, Forall_nil].
  induction p as [|n p IH]; intros acc Ha; [done|]. intros [Hn Hp]%Forall_cons. cbn [fold_left]. apply IH; [|done].
  unfold norm_step. destruct (dropped n); [done|]. destruct (n =? "..")%string.
  - destruct acc as [|x acc _] using rev_ind; [done|]. rewrite parent_snoc. by apply Forall_app in Ha as [? _].
  - apply Forall_app. split; [done|]. by constructor.
Qed.
Lemma linkless_host : HostPaths (resolve_path m).
Proof.
  split; intros p q.
  - rewrite !resolve_linkless. intros [= <-]. f_equal. apply normpath_of_clean, normpath_clean.
  - rewrite resolve_linkless. intros Hp [= <-]. apply Forall_forall. intros x Hx. split.
    + by apply (proj1 (Forall_forall _ _) (normpath_names _ p Hp)).
    + by apply (proj1 (Forall_forall _ _) (normpath_clean p)) in Hx as [_ ?].
Qed.
End Linkless.

Section Confined.
Context (resolved : path → res path) `{!HostPaths resolved}.
Implicit Types env : workspace.

Lemma relative_some target root rel : relative_to target root = Some rel ↔ target = root ++ rel.
Proof.
  unfold relative_to. case_bool_decide as Hp; split; try done.
  - intros [= <-]. destruct Hp as [k ->]. by rewrite drop_app_length.
  - intros ->. by rewrite drop_app_length.
  - intros ->. destruct Hp. by apply prefix_app_r.
Qed.
(** What a request may name. *)
Lemma resolve_workspace_inv env requested target : Forall is_part (working_dir env) →
  _resolve_workspace_path resolved env requested = Answer target →
  (requested = "" ∧ target = working_dir env) ∨
  ∃ root, resolved (working_dir env) = Ok root ∧ root `prefix_of` target ∧
    (target = working_dir env ∨ resolved target = Ok target ∧ proper target).
Proof.
  intros Hwd. unfold _resolve_workspace_path. destruct (String.eqb_spec requested ""); [intros [= <-]; by left|].
  intros Hw. right. set (rel := if startswith WORKSPACE_ROOT requested then _ else _) in Hw.
  destruct rel as [rel|s d|e]; [|done..]. cbn [web_bind] in Hw.
  set (found := if (rel =? "")%string then _ else _) in Hw. destruct found as [t|s d|e] eqn:Hfound; [|done..]. cbn [web_bind] in Hw.
  destruct (resolved (working_dir env)) as [root|e] eqn:Hroot; [|done]. cbn [of_res web_bind] in Hw.
  destruct (relative_to t root) as [k|] eqn:Hrel; [|done]. injection Hw as <-. apply relative_some in Hrel as ->.
  exists root. split; [done|]. split; [by apply prefix_app_r|]. unfold found in Hfound.
  destruct (rel =? "")%string; [injection Hfound as <-; by left|right].
  destruct (resolved (working_dir env ++ parts rel)) as [q|e] eqn:E; [|done]. injection Hfound as <-.
  split; [by eapply resolved_again|]. eapply resolved_proper; [|exact E]. apply Forall_app. split; [done|apply parts_are].
Qed.

(** Inside: the directory itself, or below what it resolves to. *)
Definition inside env (a : asked) : Prop :=
  about a = working_dir env ∨ ∃ root, resolved (working_dir env) = Ok root ∧ root `prefix_of` about a.
Lemma named_inside env requested target : Forall is_part (working_dir env) →
  _resolve_workspace_path resolved env requested = Answer target →
  ∀ a, about a = target → inside env a.
Proof.
  intros Hwd Hr a <-. apply resolve_workspace_inv in Hr as [[_ E]|(root & Hroot & Hp & _)]; [by left|right; by exists root|done].
Qed.
Lemma serve_zip_asks Q target : Q (Zips target) → asks Q (_serve_dir_zip target).
Proof. intros HQ. split; [done|by intros [?|?]]. Qed.

(** The routes stay in the workspace. Whatever a client asks for and whatever the
    environment replies, every operation of the listing, reading, editing, folder and
    deletion routes is on the workspace's directory or below what it resolves to; none
    deletes what that resolves to; and an upload touches one place below the directory's
    uploads, by plain names only: no separators, no dots, no control characters. *)
Theorem workspace_routes_confined `{Resolve} guess_type hst env requested text name recursive inline relpath filename data :
  Forall is_part (working_dir env) →
  asks (inside env) (workspace_tree resolved (Ok env) requested) ∧
  asks (inside env) (workspace_download resolved guess_type (Ok env) requested inline) ∧
  asks (inside env) (workspace_write resolved hst (Ok env) text requested) ∧
  asks (inside env) (workspace_new_folder resolved (Ok env) name) ∧
  asks (λ a, inside env a ∧ ∀ p, a = Deletes p → resolved p ≠ resolved (working_dir env))
    (workspace_delete resolved (Ok env) requested recursive) ∧
  asks (λ a, ∃ rel, about a = working_dir env ++ UPLOADS_SUBDIR :: rel ∧ rel ≠ [] ∧ Forall plain_name rel)
    (upload_file resolved (Ok env) relpath filename data).
Proof.
  intros Hwd. split_and!.
  - unfold workspace_tree. cbn [uncaught]. apply asks_web. intros t Ht. walk. by eapply named_inside.
  - unfold workspace_download. cbn [uncaught]. apply asks_web. intros t Ht. cbv zeta.
    assert (asks (inside env) (_serve_dir_zip t)) as Hzip by (apply serve_zip_asks; by eapply named_inside).
    walk; by eapply named_inside.
  - unfold workspace_write. cbv zeta. apply asks_if; [done|intros _]. cbn [uncaught]. apply asks_web. intros t Ht.
    walk; by eapply named_inside.
  - unfold workspace_new_folder. cbv zeta. apply asks_if; [done|intros _]. cbn [uncaught]. apply asks_web. intros t Ht.
    walk; by eapply named_inside.
  - unfold workspace_delete. cbn [uncaught]. apply asks_web. intros t Ht. apply asks_web. intros root Hroot.
    apply asks_web. intros there Hthere. case_bool_decide as Hne; [done|]. cbv zeta.
    destruct (resolved (working_dir env)) as [r|] eqn:Er; [|done]. injection Hroot as ->.
    destruct (resolved t) as [q|] eqn:Eq; [|done]. injection Hthere as ->.
    assert (∀ a, about a = t → inside env a ∧ ∀ p, a = Deletes p → resolved p ≠ Ok root) as Ha.
    { intros a Ha. split; [by eapply named_inside|]. intros p ->. cbn in Ha. subst p. rewrite Eq. congruence. }
    walk; by apply Ha.
  - unfold upload_file. apply asks_web. intros rel Hrel.
    assert (rel ≠ [] ∧ Forall plain_name rel) as [Hne Hpl].
    { destruct relpath as [[|c r]|]; [| by apply relpath_plain in Hrel as (? & ? & _)|].
      all: destruct (_sanitize_filename _) as [n| |] eqn:Hn; [|done..]; injection Hrel as <-;
        apply filename_plain in Hn as (-> & ? & _); split; [done|by constructor]. }
    apply asks_if; [done|intros _]. cbn [uncaught]. cbv zeta.
    walk; by exists rel.
Qed.
End Confined.

(** ** Labels *)

Section Labels.
Context (resolved : path → res path) `{!HostPaths resolved} (env : workspace).
Context (names : Forall is_part (working_dir env)) (own : resolved (working_dir env) = Ok (working_dir env)).

Lemma join_edges rel : rel ≠ [] → Forall is_part rel →
  join "/" rel ≠ "" ∧ lstrip (one_of "/") (join "/" rel) = join "/" rel ∧
  ∀ s, rstrip (one_of "/") (s +:+ join "/" rel) = s +:+ join "/" rel.
Proof.
  intros Hne Hp. assert (parts (join "/" rel) = rel) as Hparts by by apply parts_join.
  split_and!.
  - intros E. rewrite E in Hparts. by subst rel.
  - destruct rel as [|x rel]; [done|]. apply Forall_cons in Hp as [(Hx & _ & Hs) _].
    destruct x as [|c x]; [done|]. destruct rel as [|y rel]; [cbn [join]|rewrite join_cons by done]; cbn in Hs |- *;
      apply orb_false_iff in Hs as [Hc _]; unfold one_of; cbn; rewrite Ascii.eqb_sym in Hc; by rewrite Hc.
  - intros s. destruct rel as [|x rel _] using rev_ind; [done|]. apply Forall_app in Hp as [_ [(Hx & _ & Hs) _]%Forall_cons].
    assert (∃ t, join "/" (rel ++ [x]) = t +:+ x) as [t ->].
    { destruct rel as [|y rel]; [by exists ""|]. rewrite join_app by done. cbn [join]. eexists. by rewrite sapp_assoc. }
    rewrite (sapp_assoc s t x). apply rstrip_app_keep; [done|]. apply rstrip_none.
    eapply (sforall_impl (λ c, negb (Ascii.eqb "/" c))).
    + intros c Hc. unfold one_of. cbn. rewrite orb_false_r. by rewrite Ascii.eqb_sym.
    + unfold has_char in Hs. rewrite sexists_sforall in Hs. by apply negb_false_iff in Hs.
Qed.
Lemma label_leads_back target : resolved target = Ok target → proper target → working_dir env `prefix_of` target →
  ∃ label, _to_workspace_path resolved env target = Ok label ∧ _resolve_workspace_path resolved env label = Answer target.
Proof.
  intros Ht Hp [rel ->]. unfold _to_workspace_path. rewrite own, Ht. cbn [res_bind].
  rewrite (proj2 (relative_some _ _ rel) eq_refl). destruct rel as [|x rel].
  - rewrite app_nil_r in *. exists WORKSPACE_ROOT. split; [done|]. unfold _resolve_workspace_path.
    change (WORKSPACE_ROOT =? "")%string with false. change (startswith WORKSPACE_ROOT WORKSPACE_ROOT) with true.
    change (lstrip _ _ =? "")%string with true. cbn [web_bind].
    change (lstrip _ _ =? "")%string with true. cbn [web_bind]. rewrite own. cbn [of_res web_bind].
    by rewrite (proj2 (relative_some _ _ []) (eq_sym (app_nil_r _))).
  - assert (Forall is_part (x :: rel)) as Hrel by (apply Forall_app in Hp as [_ Hp]; by apply proper_parts).
    destruct (join_edges (x :: rel)) as (Hj1 & Hj2 & Hj3); [done..|].
    exists (WORKSPACE_ROOT +:+ "/" +:+ join "/" (x :: rel)). split; [f_equal; by rewrite (sapp_assoc WORKSPACE_ROOT), Hj3|].
    unfold _resolve_workspace_path.
    rewrite startswith_app, sdrop_app. destruct (String.eqb_spec (WORKSPACE_ROOT +:+ "/" +:+ join "/" (x :: rel)) ""); [done|].
    cbn [web_bind]. change (lstrip (one_of "/") ("/" +:+ ?t)) with (lstrip (one_of "/") t). rewrite Hj2.
    apply String.eqb_neq in Hj1. rewrite Hj1, parts_join, Ht, own by done. cbn [of_res web_bind].
    by rewrite (proj2 (relative_some _ _ (x :: rel))).
Qed.

(** Labels lead back. Whatever way a place was named by, the label a client is shown for it
    exists and names the same place again, so what was listed can be read, edited or
    deleted under its label. *)
Theorem labels_lead_back requested target :
  _resolve_workspace_path resolved env requested = Answer target →
  ∃ label, _to_workspace_path resolved env target = Ok label ∧ _resolve_workspace_path resolved env label = Answer target.
Proof.
  intros Hr. destruct (resolve_workspace_inv resolved env requested target names Hr) as [[_ ->]|(root & Hroot & Hp & Ht)].
  - apply label_leads_back; [done|by eapply resolved_proper|done].
  - rewrite own in Hroot. injection Hroot as <-. destruct Ht as [->|[Ht Hpr]].
    + apply label_leads_back; [done|by eapply resolved_proper|done].
    + by apply label_leads_back.
Qed.
End Labels.

(** ** Over a sandbox *)

Section Sandbox.
Context `{PyFloat} `{Host} (quiet : ∀ op p, fault op p = None) (validation : string → string) (root : path).
Context (mkdir : fs → path → res unit * fs).
(** The environment of a sandbox: the client over the server; a folder is made by a command. *)
Definition sandbox : environment fs :=
  Environment fs (env_read root) (env_write root) (env_list validation root) mkdir (env_delete root)
    (env_download root) (λ _ _, Ok false).

Context (resolved : path → res path) `{!HostPaths resolved} (own : resolved root = Ok root) (names : Forall is_part root).
Let env : workspace := Workspace root false.

Lemma large_no (data : string) n : (Z.of_nat (slen data) ≤ n)%Z → (n <? Z.of_nat (slen data))%Z = false.
Proof. rewrite Z.ltb_ge. lia. Qed.
Lemma ok_branch {B} (P : Prop) `{!Decision P} (a b : B) :
  (if decide (@Ok unit tt = Ok tt ∧ P) then a else b) = if decide P then a else b.
Proof. destruct (decide P); [by rewrite decide_True|]. rewrite decide_False; [done|by intros [_ ?]]. Qed.


Lemma file_free m p : place root m p → is_Some (contents_at m p) → ¬ blocked m (parent p) ∧ node_at m p ≠ Some Dir.
Proof.
  intros Hpl [d Hd]. unfold contents_at in Hd. destruct (node_at m p) as [[d' md| |]|] eqn:E; try done. split; [|done].
  intros (q & x & mode & Hq & Hn). rewrite (tree_ancestors m p q) in Hn; [done|by apply (pl_tree root m p Hpl)|by eexists| |].
  - transitivity (parent p); [done|apply parent_prefix].
  - intros ->. destruct p as [|n p _] using rev_ind; [done|]. rewrite parent_snoc in Hq.
    apply prefix_length in Hq. rewrite length_app in Hq. cbn in Hq. lia.
Qed.

(** The editor edits. A request to overwrite a file succeeds exactly if the text is small
    enough, the place is neither protected nor of a binary kind, and there is a file; then
    this file has the text's UTF-8 bytes and every other file is as it was. In any case no
    file appears and none goes, and after a refusal all are as they were. *)
Theorem edits_only_edit `{Resolve} hst text requested target m :
  _resolve_workspace_path resolved env requested = Answer target → resolved target = Ok target → place root m target →
  let '(w, m') := run sandbox (workspace_write resolved hst (Ok env) text requested) m in
  ((∃ a, w = Answer a) ↔
     (Z.of_nat (slen (utf8_encode text)) ≤ MAX_EDIT_BYTES)%Z ∧ _is_write_denied hst (path_text target) = false ∧
     _has_binary_extension (path_text target) = false ∧ is_Some (contents_at m target)) ∧
  (∀ label size, w = Answer (label, size) → _resolve_workspace_path resolved env label = Answer target ∧
     size = Z.of_nat (slen (utf8_encode text)) ∧ contents_at m' target = Some (utf8_encode text)) ∧
  (∀ q, is_Some (contents_at m' q) ↔ is_Some (contents_at m q)) ∧
  (∀ q, contents_at m' q ≠ contents_at m q → q = target ∧ ∃ a, w = Answer a).
Proof.
  intros Hr Hres Hpl. unfold workspace_write. cbv zeta. set (data := utf8_encode text).
  destruct (Z.ltb_spec MAX_EDIT_BYTES (Z.of_nat (slen data))) as [Hbig|Hsmall];
    [cbn [run]; split_and!; [split; [by intros [? ?]|intros [? _]; lia]|done|done|done]|].
  cbn [uncaught]. rewrite Hr. cbn [web_then].
  destruct (_is_write_denied hst (path_text target)) eqn:Hden; [cbn [run]; split_and!; [split; [by intros [? ?]|naive_solver]|done|done|done]|].
  destruct (_has_binary_extension (path_text target)) eqn:Hbin; [cbn [run]; split_and!; [split; [by intros [? ?]|naive_solver]|done|done|done]|].
  cbn [run do_read sandbox]. destruct (sandbox_file_store quiet root m target Hpl) as (Hread & Hwrite & _).
  destruct (env_read root m target) as [old|e] eqn:Er.
  2:{ cbn [run]. split_and!; [|by repeat case_match|done|done]. split; [intros [a Ha]; by repeat case_match|].
      intros (_ & _ & _ & d & Hd). apply Hread in Hd. congruence. }
  assert (is_Some (contents_at m target)) as Hsome by (exists old; by apply Hread).
  cbn [run do_write sandbox]. destruct (env_write root m target data) as [r m'] eqn:Ew.
  destruct (Hwrite data r m' Ew) as (_ & _ & Hiff & Hall).
  rewrite (proj2 Hiff (file_free m target Hpl Hsome)) in *.
  assert (∀ q, contents_at m' q = if decide (q = target) then Some data else contents_at m q) as Hc.
  { intros q. by rewrite Hall, ok_branch. }
  pose proof (labels_lead_back resolved env names own requested target Hr) as (label & Hl & Hback).
  rewrite Hl. cbn [uncaught run]. split_and!.
  - split; [done|by eexists].
  - intros l n [= <- <-]. split_and!; [done|done|]. by rewrite Hc, decide_True.
  - intros q. rewrite Hc. destruct (decide (q = target)) as [->|]; [|done]. split; [done|by eexists].
  - intros q. rewrite Hc. destruct (decide (q = target)) as [->|]; [|done]. intros _. split; [done|by eexists].
Qed.
End Sandbox.

(** ** At concrete inputs *)

(** The working directory behind a link, as [/tmp] is on some hosts: the workspace itself is
    refused under its own name. *)
Definition linked_host : fs := list_to_map [
  (["private"], Dir); (["private"; "tmp"], Dir); (["private"; "tmp"; "ws"], Dir); (["tmp"], Link "private/tmp")].
Example linked_root_refused :
  let _ := quiet_host in
  let env := Workspace ["tmp"; "ws"] true in
  _resolve_workspace_path (resolve_path linked_host) env WORKSPACE_ROOT = bad "path escapes /workspace" ∧
  _resolve_workspace_path (resolve_path linked_host) env "/workspace/." = Answer ["private"; "tmp"; "ws"] ∧
  _to_workspace_path (resolve_path linked_host) env ["tmp"; "ws"] = Ok WORKSPACE_ROOT.
Proof. split_and!; vm_compute; reflexivity. Qed.

(** On the host an upload goes where a link leads. *)
Definition trapped_host : fs := list_to_map [(["ws"], Dir); (["ws"; "uploads"], Link "/etc"); (["etc"], Dir)].
Example upload_follows_links :
  let _ := quiet_host in
  let env := Workspace ["ws"] true in
  (∃ k, upload_file (resolve_path trapped_host) (Ok env) None (Some "passwd") "x" = ReadFile ["ws"; "uploads"; "passwd"] k) ∧
  resolve_path trapped_host ["ws"; "uploads"; "passwd"] = Ok ["etc"; "passwd"] ∧
  _resolve_workspace_path (resolve_path trapped_host) env "uploads/passwd" = bad "path escapes /workspace".
Proof. split_and!; [by eexists|vm_compute; reflexivity..]. Qed.

(** A path that only begins with the same letters is taken for one of the workspace. *)
Example prefix_is_no_segment :
  let _ := quiet_host in
  _resolve_workspace_path (resolve_path ∅) (Workspace ["workspace"] false) "/workspaces/a" = Answer ["workspace"; "s"; "a"].
Proof. vm_compute. reflexivity. Qed.

(** A line break of a file's name gets into the header, and a backslash escapes its quote. *)
Example disposition_keeps_newlines name :
  has_char CR (_disposition ("a" +:+ s1 CR +:+ name) false) = true ∧
  startswith ("attachment; filename=" +:+ DQs +:+ "a" +:+ s1 BSL +:+ DQs) (_disposition ("a" +:+ s1 BSL) false) = true.
Proof. split; reflexivity. Qed.

Definition cloud_host : HostPaths (resolve_path (H := quiet_host) ∅) := linkless_host (H := quiet_host) (λ _ _, eq_refl) ∅ (λ q, match q with [] => eq_refl | _ => eq_refl end).

Lemma workspace_routes_confined_witness :
  let env := Workspace ["workspace"] false in
  Forall is_part (working_dir env) ∧ asks (inside (resolve_path (H := quiet_host) ∅) env)
    (workspace_tree (resolve_path (H := quiet_host) ∅) (Ok env) "/workspace/../etc").
Proof.
  intros env. assert (Forall is_part (working_dir env)) as Hn by (repeat constructor; done). split; [exact Hn|].
  exact (proj1 (workspace_routes_confined (H := lexical) _ (HostPaths0 := cloud_host) (λ _, None) demo_host env _ "" "" false false None None "" Hn)).
Defined.
Lemma labels_lead_back_witness :
  let env := Workspace ["workspace"] false in let resolved := resolve_path (H := quiet_host) ∅ in
  ∃ label, _to_workspace_path resolved env ["workspace"; "a"; "b"] = Ok label ∧
    _resolve_workspace_path resolved env label = Answer ["workspace"; "a"; "b"].
Proof.
  intros env resolved. apply (labels_lead_back resolved (HostPaths0 := cloud_host) env) with (requested := "a/../a/./b");
    [repeat constructor; done|vm_compute; reflexivity..].
Defined.

Lemma edits_only_edit_witness :
  let Hf : PyFloat := λ _, "" in let Hh : Host := quiet_host in let Hr : Resolve := lexical in
  let env := Workspace demo_root false in let resolved := resolve_path ∅ in
  let '(w, m') := run (sandbox no_text demo_root (λ m _, (Ok tt, m))) (workspace_write resolved demo_host (Ok env) "new" "a/x") plain_ws in
  (∃ a, w = Answer a) ∧ contents_at m' ["workspace"; "a"; "x"] = Some "new".
Proof.
  intros Hf Hh Hr env resolved.
  pose proof (edits_only_edit (H := Hf) (H0 := Hh) (λ _ _, eq_refl) no_text demo_root (λ m _, (Ok tt, m)) resolved
    (HostPaths0 := cloud_host) eq_refl ltac:(repeat constructor; done) (H1 := Hr) demo_host "new" "a/x" ["workspace"; "a"; "x"] plain_ws
    ltac:(vm_compute; reflexivity) ltac:(vm_compute; reflexivity)
    ltac:(apply plain_place; [repeat constructor; done|by exists ["a"; "x"]])) as Ht.
  destruct (run _ _ plain_ws) as [w m']. destruct Ht as (H1 & H2 & _).
  destruct (proj2 H1) as [[label size] ->]; [split_and!; [vm_compute; discriminate|vm_compute; reflexivity..|by eexists]|].
  split; [by eexists|]. by destruct (H2 label size eq_refl) as (_ & _ & ?).
Defined.
