(* ===== verification/ChatSessions.v ===== *)
(** * The chat list: [api/sessions.py]

    The sidebar's routes over the session service: the list with its filters and the lazy
    migration of titles, renaming, the window of a chat, and deletion of one chat or of
    all. The service is a class of operations over a state; what the theorems use of it
    is a class of laws, with an instance at the end. *)

From stdpp Require Import sorting.
From S2P Require Import Prelude PyStr PyVal Sorting WorkspaceWindow Memory MemoryForks Web.
#[local] Open Scope nat_scope.

(** The session service of one app: sessions by user and id. [recent]: only that many of
    the last events are loaded; [append_delta] is [append_event] of an event that only
    carries a change of the state. *)
Class ChatService (S : Type) := {
  list_all_sessions : S → string → res (list session);
  fetch : S → string → string → option nat → res (option session);
  append_delta : S → string → string → pydict → res unit * S;
  create_chat : S → string → string → pydict → res unit * S;
  remove_chat : S → string → string → res unit * S
}.

Definition SESSIONS_PAGE_SIZE : nat := 50.
Definition SCHEDULER_SCAN_LIMIT : nat := 200.
Definition SESSIONS_EVENT_FETCH : nat := 5.
Definition NEW_CHAT : string := "New chat".

Definition _clean_window (raw : list string) : list string :=
  omap (λ entry, let cleaned := strip_slashes (strip entry) in
                 if (cleaned =? "")%string || (cleaned =? ".")%string then None else Some cleaned) raw.
Definition _explicit_title (s : session) : option string := strip <$> not_blank (get_str (s_state s) TITLE_KEY).
Definition first_user_message_title (s : session) : option string := first_some event_title (s_events s).
Definition _created_at (s : session) : Q := default (last_update_time s) (first_some e_timestamp (s_events s)).
Definition _source (s : session) : string :=
  match get (s_state s) SESSION_SOURCE_KEY with
  | PStr v => if (v =? SCHEDULER_SOURCE)%string then v else "user"
  | _ => "user"
  end.
Definition _job_type (s : session) : option string := nonempty (get_str (s_state s) SCHEDULER_JOB_KEY).

(** A row of the list. *)
Record row := Row {
  r_id : string; title : string; createdAt : Q; lastUpdated : Q; source : string; jobType : option string;
  workspaceWindow : list string
}.
(** [q.strip().lower()], where there is one. *)
Definition needle_of (q : option string) : option string := lower <$> (strip <$> not_blank q).
Definition excluded (wanted : option string) (src : string) : bool :=
  match wanted with
  | Some w => (w =? SCHEDULER_SOURCE)%string && negb (src =? SCHEDULER_SOURCE)%string
              || (w =? "user")%string && (src =? SCHEDULER_SOURCE)%string
  | None => false
  end.
Definition scan_limit (wanted : option string) : nat :=
  match wanted with None => SESSIONS_PAGE_SIZE | Some _ => SCHEDULER_SCAN_LIMIT end.

Section Routes.
Context {S : Type} `{ChatService S} (user_id : string).

(** A failure to persist is logged. *)
Definition _persist_title (s : S) (sid t : string) : S := (append_delta s user_id sid [(TITLE_KEY, PStr t)]).2.

Definition _resolve_title_and_created (s : S) (recent : session) : string * Q * S :=
  match _explicit_title recent with
  | Some explicit => (explicit, _created_at recent, s)
  | None =>
      let full := match fetch s user_id (s_id recent) None with Ok found => found | Raise _ => None end in
      let src := default recent full in
      let t := match nonempty (first_user_message_title src) with Some t => t | None => NEW_CHAT end in
      (t, _created_at src,
       match full with Some f => if (t =? NEW_CHAT)%string then s else _persist_title s (s_id f) t | None => s end)
  end.

(** The loop over the scanned sessions; a window that cannot be read ends it. *)
Fixpoint scan (wanted needle : option string) (stubs : list session) (out : list row) (s : S) : res (list row) * S :=
  match stubs with
  | [] => (Ok out, s)
  | stub :: rest =>
      match fetch s user_id (s_id stub) (Some SESSIONS_EVENT_FETCH) with
      | Ok (Some full) =>
          let src := _source full in
          if excluded wanted src then scan wanted needle rest out s
          else
            let '(t, created, s') := _resolve_title_and_created s full in
            if match needle with Some n => negb (contains n (lower t)) | None => false end
            then scan wanted needle rest out s'
            else
              match window_dirs (Some (s_state full)) with
              | Raise e => (Raise e, s')
              | Ok window =>
                  let out' := out ++ [Row (s_id full) t created (last_update_time full) src (_job_type full) window] in
                  if SESSIONS_PAGE_SIZE <=? length out' then (Ok out', s') else scan wanted needle rest out' s'
              end
      | _ => scan wanted needle rest out s
      end
  end.
Definition list_chats (wanted q : option string) (s : S) : web (list row) * S :=
  match list_all_sessions s user_id with
  | Raise _ => (HTTPException 500 "list sessions failed", s)
  | Ok sessions =>
      let '(r, s') := scan wanted (needle_of q) (take (scan_limit wanted) (newest_first sessions)) [] s in
      (of_res r, s')
  end.

(** [RenameBody]: the title has one to eighty characters. *)
Definition rename_body (t : string) : bool := (1 <=? slen t) && (slen t <=? TITLE_MAX_LEN).
Definition rename (sid t : string) (s : S) : web unit * S :=
  if negb (rename_body t) then (HTTPException 422 "title", s)
  else match fetch s user_id sid None with
       | Raise _ => (HTTPException 500 "session lookup failed", s)
       | Ok None => (HTTPException 404 "session not found", s)
       | Ok (Some _) =>
           match append_delta s user_id sid [(TITLE_KEY, PStr (strip t))] with
           | (Ok _, s') => (Answer tt, s')
           | (Raise _, s') => (HTTPException 500 "rename failed", s')
           end
       end.

Definition set_window (sid : string) (raw : list string) (s : S) : web unit * S :=
  let delta := [(WORKSPACE_WINDOW_STATE_KEY, PList (map PStr (_clean_window raw)))] in
  match fetch s user_id sid None with
  | Raise _ => (HTTPException 500 "session lookup failed", s)
  | Ok found =>
      match (match found with None => create_chat s user_id sid delta | Some _ => append_delta s user_id sid delta end) with
      | (Ok _, s') => (Answer tt, s')
      | (Raise _, s') => (HTTPException 500 "set window failed", s')
      end
  end.

Definition delete_chat (sid : string) (s : S) : web unit * S :=
  match remove_chat s user_id sid with
  | (Ok _, s') => (Answer tt, s')
  | (Raise _, s') => (HTTPException 500 "delete failed", s')
  end.
Fixpoint delete_each (stubs : list session) (deleted failed : nat) (s : S) : nat * nat * S :=
  match stubs with
  | [] => (deleted, failed, s)
  | stub :: rest =>
      match remove_chat s user_id (s_id stub) with
      | (Ok _, s') => delete_each rest (1 + deleted) failed s'
      | (Raise _, s') => delete_each rest deleted (1 + failed) s'
      end
  end.
Definition delete_all_chats (s : S) : web (nat * nat) * S :=
  match list_all_sessions s user_id with
  | Raise _ => (HTTPException 500 "bulk delete failed: list", s)
  | Ok sessions => let '(deleted, failed, s') := delete_each sessions 0 0 s in (Answer (deleted, failed), s')
  end.
End Routes.

(** * Facts *)

(** ** What the theorems use of the service *)

(** Reading: what is found is the user's own, and has its state and its time however many
    events come with it. Writing one chat leaves the others; [append_delta] merges, and adds
    one event without content; what is removed is gone. *)
Definition chat_keys : list string := [TITLE_KEY; WORKSPACE_WINDOW_STATE_KEY].
Class ChatLaws (S : Type) `{ChatService S} : Prop := {
  fetch_own s u sid n f : fetch s u sid n = Ok (Some f) → s_id f = sid ∧ s_user f = u;
  fetch_same s u sid n m f g : fetch s u sid n = Ok (Some f) → fetch s u sid m = Ok (Some g) → s_state f = s_state g;
  append_elsewhere s u sid d r s' u' sid' n : append_delta s u sid d = (r, s') → (u', sid') ≠ (u, sid) →
    fetch s' u' sid' n = fetch s u' sid' n;
  append_merges s u sid k v s' n f : k ∈ chat_keys → append_delta s u sid [(k, v)] = (Ok tt, s') →
    fetch s' u sid n = Ok (Some f) →
    get (s_state f) k = v ∧ ∃ f0, fetch s u sid n = Ok (Some f0) ∧ ∀ k', k' ≠ k → get (s_state f) k' = get (s_state f0) k';
  create_elsewhere s u sid d r s' u' sid' n : create_chat s u sid d = (r, s') → (u', sid') ≠ (u, sid) →
    fetch s' u' sid' n = fetch s u' sid' n;
  create_fresh s u sid k v s' n f : k ∈ chat_keys → create_chat s u sid [(k, v)] = (Ok tt, s') →
    fetch s' u sid n = Ok (Some f) → get (s_state f) k = v;
  remove_elsewhere s u sid r s' u' sid' n : remove_chat s u sid = (r, s') → (u', sid') ≠ (u, sid) →
    fetch s' u' sid' n = fetch s u' sid' n;
  remove_gone s u sid s' n f : remove_chat s u sid = (Ok tt, s') → fetch s' u sid n ≠ Ok (Some f)
}.

Section Facts.
Context {S : Type} `{ChatLaws S} (user_id : string).

(** The chats of other users. *)
Definition others_kept (s s' : S) : Prop := ∀ u sid n, u ≠ user_id → fetch s' u sid n = fetch s u sid n.
#[local] Instance others_kept_preorder : PreOrder others_kept.
Proof. split; [by intros s u sid n|]. intros s1 s2 s3 H1 H2 u sid n Hu. by rewrite H2, H1. Qed.
Lemma append_others s sid d r s' : append_delta s user_id sid d = (r, s') → others_kept s s'.
Proof. intros E u sid' n Hu. eapply append_elsewhere; [exact E|]. by intros [= ? _]. Qed.
Lemma remove_others s sid r s' : remove_chat s user_id sid = (r, s') → others_kept s s'.
Proof. intros E u sid' n Hu. eapply remove_elsewhere; [exact E|]. by intros [= ? _]. Qed.

(** Resolving a title touches at most that chat. *)
Lemma resolve_elsewhere s f t c s' u sid n : _resolve_title_and_created user_id s f = (t, c, s') →
  (u, sid) ≠ (user_id, s_id f) → fetch s' u sid n = fetch s u sid n.
Proof.
  unfold _resolve_title_and_created. destruct (_explicit_title f); [by intros [= _ _ <-]|].
  destruct (fetch s user_id (s_id f) None) as [[full|]|] eqn:Ef; [|by intros [= _ _ <-]..]. cbn [default].
  destruct (fetch_own _ _ _ _ _ Ef) as [Hid _]. rewrite Hid.
  destruct (_ =? NEW_CHAT)%string; intros [= _ _ <-]; [done|]. intros Hne. unfold _persist_title.
  destruct (append_delta _ _ _ _) as [r s1] eqn:Ea. cbn [snd]. by eapply append_elsewhere.
Qed.
(** What it answers goes by that chat alone. *)
Lemma resolve_local s s1 f : fetch s1 user_id (s_id f) None = fetch s user_id (s_id f) None →
  (_resolve_title_and_created user_id s1 f).1 = (_resolve_title_and_created user_id s f).1.
Proof. unfold _resolve_title_and_created. intros E. rewrite E. by destruct (_explicit_title f). Qed.

(** ** The list *)

(** The row of a session, on its own; [None]: there is none. *)
Definition row_of (wanted needle : option string) (s : S) (stub : session) : option row :=
  match fetch s user_id (s_id stub) (Some SESSIONS_EVENT_FETCH) with
  | Ok (Some full) =>
      let src := _source full in
      if excluded wanted src then None
      else
        let '(t, created, _) := _resolve_title_and_created user_id s full in
        if match needle with Some n => negb (contains n (lower t)) | None => false end then None
        else match window_dirs (Some (s_state full)) with
             | Ok window => Some (Row (s_id full) t created (last_update_time full) src (_job_type full) window)
             | Raise _ => None
             end
  | _ => None
  end.
Lemma row_of_local wanted needle s s1 stub : (∀ n, fetch s1 user_id (s_id stub) n = fetch s user_id (s_id stub) n) →
  row_of wanted needle s1 stub = row_of wanted needle s stub.
Proof.
  intros E. unfold row_of. rewrite E. destruct (fetch s user_id (s_id stub) _) as [[full|]|] eqn:Ef; [|done..].
  destruct (excluded _ _); [done|]. destruct (fetch_own _ _ _ _ _ Ef) as [Hid _].
  pose proof (resolve_local s s1 full) as Hr. rewrite Hid in Hr. specialize (Hr (E None)).
  destruct (_resolve_title_and_created user_id s1 full) as [[t1 c1] ?], (_resolve_title_and_created user_id s full) as [[t c] ?].
  cbn in Hr. by injection Hr as -> ->.
Qed.

Lemma scan_spec wanted needle stubs : ∀ out s0 s rows s', NoDup (map s_id stubs) → length out < SESSIONS_PAGE_SIZE →
  (∀ stub n, stub ∈ stubs → fetch s user_id (s_id stub) n = fetch s0 user_id (s_id stub) n) →
  scan user_id wanted needle stubs out s = (Ok rows, s') →
  rows = take SESSIONS_PAGE_SIZE (out ++ omap (row_of wanted needle s0) stubs) ∧
  (∀ u sid n, u ≠ user_id ∨ sid ∉ map s_id stubs → fetch s' u sid n = fetch s u sid n).
Proof.
  induction stubs as [|stub stubs IH]; intros out s0 s rows s' Hnd Hout Hs.
  { intros [= <- <-]. cbn [omap list_omap]. rewrite app_nil_r, take_ge by (by apply Nat.lt_le_incl). by split. }
  cbn [map] in Hnd. apply NoDup_cons in Hnd as [Hnot Hnd]. cbn [scan].
  assert (row_of wanted needle s stub = row_of wanted needle s0 stub) as Hrow by (apply row_of_local; intros n; apply Hs; by left).
  assert (∀ out s1 rows s', length out < SESSIONS_PAGE_SIZE →
    (∀ u sid n, u ≠ user_id ∨ sid ≠ s_id stub → fetch s1 u sid n = fetch s u sid n) →
    scan user_id wanted needle stubs out s1 = (Ok rows, s') →
    rows = take SESSIONS_PAGE_SIZE (out ++ omap (row_of wanted needle s0) stubs) ∧
    ∀ u sid n, u ≠ user_id ∨ sid ∉ map s_id (stub :: stubs) → fetch s' u sid n = fetch s u sid n) as Hnext.
  { intros out1 s1 rows1 s1' Hout1 H1 Hscan. destruct (IH out1 s0 s1 rows1 s1' Hnd Hout1) as [Hr Hk]; [|done|].
    - intros x n Hx. rewrite H1; [apply Hs; by right|]. right. intros E. apply Hnot. rewrite <- E.
      apply list_elem_of_fmap. by exists x.
    - split; [done|]. intros u sid n Hu. rewrite Hk, H1; [done|set_solver..]. }
  cbn [omap list_omap]. rewrite <- Hrow. unfold row_of at 1.
  destruct (fetch s user_id (s_id stub) _) as [[full|]|] eqn:Ef; [|by apply Hnext..].
  destruct (excluded wanted (_source full)); [by apply Hnext|].
  destruct (_resolve_title_and_created user_id s full) as [[t c] s1] eqn:Er.
  assert (∀ u sid n, u ≠ user_id ∨ sid ≠ s_id stub → fetch s1 u sid n = fetch s u sid n) as H1.
  { intros u sid n Hu. eapply resolve_elsewhere; [exact Er|]. destruct (fetch_own _ _ _ _ _ Ef) as [-> _]. naive_solver. }
  destruct (match needle with Some _ => _ | None => _ end); [by apply Hnext|].
  destruct (window_dirs _) as [w|e]; [|done]. cbv zeta. rewrite length_app. cbn [length].
  destruct (Nat.leb_spec SESSIONS_PAGE_SIZE (length out + 1)) as [Hfull|Hmore].
  - intros [= <- <-]. split; [|intros u sid n Hu; apply H1; set_solver].
    set (r := Row _ _ _ _ _ _ _). rewrite (cons_middle r out (omap _ _)), app_assoc, take_app_le; [|by rewrite length_app].
    rewrite take_ge; [done|]. rewrite length_app. cbn [length]. unfold SESSIONS_PAGE_SIZE in *. lia.
  - intros Hscan. apply Hnext in Hscan as [-> Hk]; [|by rewrite length_app|exact H1]. by rewrite <- app_assoc.
Qed.

Lemma stubs_NoDup limit sessions : NoDup (map s_id sessions) → NoDup (map s_id (take limit (newest_first sessions))).
Proof.
  intros Hnd. rewrite <- firstn_map. eapply sublist_NoDup; [|apply sublist_take]. unfold newest_first. by rewrite sort_by_perm.
Qed.

(** The list shows the newest chats, in order, as each of them is on its own: as many as
    the scan reaches, of the wanted source, with the needle in the title, and at most a page.
    It leaves the chats of other users as they were. *)
Theorem chats_listed wanted q s sessions rows s' :
  list_all_sessions s user_id = Ok sessions → NoDup (map s_id sessions) →
  list_chats user_id wanted q s = (Answer rows, s') →
  rows = take SESSIONS_PAGE_SIZE (omap (row_of wanted (needle_of q) s) (take (scan_limit wanted) (newest_first sessions))) ∧
  Forall (λ r, excluded wanted (source r) = false ∧ (∃ stub, stub ∈ sessions ∧ s_id stub = r_id r) ∧
    ∀ n, needle_of q = Some n → contains n (lower (title r)) = true) rows ∧
  others_kept s s'.
Proof.
  intros Hl Hnd. unfold list_chats. rewrite Hl. destruct (scan _ _ _ _ _ _) as [r s1] eqn:Es. intros [= Hr <-].
  destruct r as [rows0|]; [|done]. injection Hr as ->.
  assert (length (A := row) [] < SESSIONS_PAGE_SIZE) as Hz by (unfold SESSIONS_PAGE_SIZE; cbn; lia).
  destruct (scan_spec _ _ _ _ s _ _ _ (stubs_NoDup _ _ Hnd) Hz ltac:(done) Es) as [Hrows Hk].
  cbn [app] in Hrows. split_and!; [done| |intros u sid n Hu; apply Hk; by left].
  rewrite Hrows. apply Forall_forall. intros r (i & Hi%list_elem_of_lookup_2 & _)%elem_of_take.
  apply list_elem_of_omap in Hi as (stub & (j & Hj%list_elem_of_lookup_2 & _)%elem_of_take & Hrow).
  unfold newest_first in Hj. rewrite sort_by_perm in Hj. unfold row_of in Hrow.
  destruct (fetch s user_id (s_id stub) _) as [[full|]|] eqn:Ef; try done.
  destruct (excluded wanted (_source full)) eqn:Ex; [done|].
  destruct (_resolve_title_and_created user_id s full) as [[t c] s2] eqn:Et.
  destruct (needle_of q) as [n|] eqn:En.
  - destruct (contains n (lower t)) eqn:Ec; [|done]. cbn [negb] in Hrow. destruct (window_dirs _); [|done]. injection Hrow as <-.
    split_and!; [done| |by intros ? [= <-]]. exists stub. split; [done|]. symmetry. apply (fetch_own _ _ _ _ _ Ef).
  - destruct (window_dirs _); [|done]. injection Hrow as <-. split_and!; [done| |done].
    exists stub. split; [done|]. symmetry. apply (fetch_own _ _ _ _ _ Ef).
Qed.

(** ** Titles *)

Lemma strip_first_line text : strip text ≠ "" → strip (first_line text) ≠ "".
Proof.
  intros (c & l & -> & Hc & _)%first_line_head. unfold strip, strip_by. cbn [lstrip]. rewrite Hc.
  by destruct (rstrip_head is_space c (stake (TITLE_MAX_LEN - 1) l) Hc) as [u' ->].
Qed.
Lemma first_message_strip f t : first_user_message_title f = Some t → strip t ≠ "".
Proof.
  unfold first_user_message_title. intros (e & _ & He)%first_some_Some. unfold event_title in He.
  case_bool_decide; [|done]. apply first_some_Some in He as (p & _ & Hp). unfold not_blank in Hp.
  destruct (p_text p) as [text|]; [|done]. destruct (String.eqb_spec (strip text) "") as [|Hne]; [done|].
  injection Hp as <-. by apply strip_first_line.
Qed.
Lemma explicit_of f t : get (s_state f) TITLE_KEY = PStr t → strip t ≠ "" → _explicit_title f = Some (strip t).
Proof. intros Hg Hne. unfold _explicit_title, get_str. rewrite Hg. cbn. by destruct (String.eqb_spec (strip t) ""). Qed.
Lemma explicit_stripped f t : _explicit_title f = Some t → strip t = t ∧ t ≠ "".
Proof.
  unfold _explicit_title, not_blank. destruct (get_str _ _) as [v|]; [|done]. cbn.
  destruct (String.eqb_spec (strip v) "") as [|Hne]; [done|]. intros [= <-]. by split; [apply strip_idem|].
Qed.

(** Where a chat that can be read can be read in full, and written. *)
Definition serviceable : Prop :=
  (∀ s sid n f, fetch s user_id sid n = Ok (Some f) → ∃ g, fetch s user_id sid None = Ok (Some g)) ∧
  (∀ s sid d f, fetch s user_id sid None = Ok (Some f) → (append_delta s user_id sid d).1 = Ok tt).
(** The title of a row is the one its chat keeps. *)
Definition settled (s : S) (r : row) : Prop := title r = NEW_CHAT ∨
  ∀ g n, fetch s user_id (r_id r) n = Ok (Some g) → _explicit_title g = Some (strip (title r)).

Lemma resolve_settles s f n t c s' : serviceable → fetch s user_id (s_id f) n = Ok (Some f) →
  _resolve_title_and_created user_id s f = (t, c, s') →
  t = NEW_CHAT ∨ ∀ g m, fetch s' user_id (s_id f) m = Ok (Some g) → _explicit_title g = Some (strip t).
Proof.
  intros [Hwhole Hwrite] Hf. unfold _resolve_title_and_created. destruct (_explicit_title f) as [t0|] eqn:Et.
  { intros [= <- _ <-]. right. intros g m Hg. destruct (explicit_stripped _ _ Et) as [Hst _]. rewrite Hst, <- Et.
    unfold _explicit_title. by rewrite (fetch_same _ _ _ _ _ _ _ Hg Hf). }
  destruct (Hwhole _ _ _ _ Hf) as [full Hfull]. rewrite Hfull. cbn [default].
  destruct (fetch_own _ _ _ _ _ Hfull) as [-> _]. set (t0 := match nonempty _ with Some _ => _ | None => _ end).
  destruct (String.eqb_spec t0 NEW_CHAT) as [E|Hne]; intros [= <- _ <-]; [by left|]. right. intros g m Hg.
  unfold _persist_title in Hg. pose proof (Hwrite s (s_id f) [(TITLE_KEY, PStr t0)] _ Hfull) as Hok.
  destruct (append_delta _ _ _ _) as [r s1] eqn:Ea. cbn in Hok, Hg. subst r.
  destruct (append_merges _ _ _ _ _ _ _ _ ltac:(by left) Ea Hg) as [Hget _]. apply (explicit_of _ _ Hget).
  unfold t0, id in *. destruct (first_user_message_title full) as [t1|] eqn:Em; [|by destruct Hne].
  cbn [nonempty] in *. destruct (t1 =? "")%string; [by destruct Hne|]. by eapply first_message_strip.
Qed.
Lemma settled_kept s s1 r : (∀ n, fetch s1 user_id (r_id r) n = fetch s user_id (r_id r) n) → settled s r → settled s1 r.
Proof. intros E [H1|H1]; [by left|right]. intros g n. rewrite E. apply H1. Qed.

Lemma scan_settles wanted needle stubs : serviceable → ∀ out s rows s', NoDup (map s_id stubs) →
  Forall (λ r, settled s r ∧ r_id r ∉ map s_id stubs) out →
  scan user_id wanted needle stubs out s = (Ok rows, s') → Forall (settled s') rows.
Proof.
  intros Hsv. induction stubs as [|stub stubs IH]; intros out s rows s' Hnd Hout.
  { intros [= <- <-]. eapply Forall_impl; [exact Hout|]. by intros r [? _]. }
  cbn [map] in *. apply NoDup_cons in Hnd as [Hnot Hnd]. cbn [scan].
  assert (∀ s1, (∀ sid n, sid ≠ s_id stub → fetch s1 user_id sid n = fetch s user_id sid n) →
    Forall (λ r, settled s1 r ∧ r_id r ∉ map s_id stubs) out) as Hkeep.
  { intros s1 H1. eapply Forall_impl; [exact Hout|]. intros r [Hr Hn]. apply not_elem_of_cons in Hn as [Hn ?].
    split; [|done]. eapply settled_kept; [|exact Hr]. intros n. by apply H1. }
  destruct (fetch s user_id (s_id stub) _) as [[full|]|] eqn:Ef; [|by apply IH, Hkeep..].
  destruct (excluded wanted (_source full)); [by apply IH, Hkeep|].
  destruct (_resolve_title_and_created user_id s full) as [[t c] s1] eqn:Er.
  destruct (fetch_own _ _ _ _ _ Ef) as [Hid _].
  assert (∀ sid n, sid ≠ s_id stub → fetch s1 user_id sid n = fetch s user_id sid n) as H1.
  { intros sid n Hne. eapply resolve_elsewhere; [exact Er|]. rewrite Hid. naive_solver. }
  destruct (match needle with Some _ => _ | None => _ end); [by apply IH, Hkeep|].
  destruct (window_dirs _) as [w|e]; [|done]. cbv zeta.
  assert (Forall (λ r, settled s1 r ∧ r_id r ∉ map s_id stubs) (out ++ [Row (s_id full) t c (last_update_time full) (_source full) (_job_type full) w])) as Hout'.
  { apply Forall_app. split; [by apply Hkeep|]. constructor; [|done]. cbn [r_id]. rewrite Hid. split; [|done].
    unfold settled. cbn [title r_id]. rewrite <- Hid in Ef |- *. by eapply resolve_settles. }
  destruct (_ <=? _); [|by apply IH]. intros [= <- <-]. eapply Forall_impl; [exact Hout'|]. by intros r [? _].
Qed.

(** A title the list has shown is kept: whatever a later read brings of that chat, its
    title is the one that was shown, stripped, with neither a full read nor a write. *)
Theorem titles_settle wanted q s sessions rows s' : serviceable →
  list_all_sessions s user_id = Ok sessions → NoDup (map s_id sessions) →
  list_chats user_id wanted q s = (Answer rows, s') →
  ∀ r, r ∈ rows → title r ≠ NEW_CHAT → ∀ f n s1, fetch s' user_id (r_id r) n = Ok (Some f) →
    _resolve_title_and_created user_id s1 f = (strip (title r), _created_at f, s1).
Proof.
  intros Hsv Hl Hnd. unfold list_chats. rewrite Hl. destruct (scan _ _ _ _ _ _) as [r1 s2] eqn:Es. intros [= Hr <-].
  destruct r1 as [rows0|]; [|done]. injection Hr as ->. intros r Hr Hnew f n s1 Hf.
  pose proof (scan_settles _ _ _ Hsv _ _ _ _ (stubs_NoDup _ _ Hnd) ltac:(constructor) Es) as Hall.
  rewrite Forall_forall in Hall. destruct (Hall r Hr) as [|Hset]; [done|].
  unfold _resolve_title_and_created. by rewrite (Hset f n Hf).
Qed.

(** ** The other routes *)

(** One request of the user, whatever it answers. *)
Inductive chat_step (s : S) : S → Prop :=
  | Listed wanted q r s' : list_chats user_id wanted q s = (r, s') → chat_step s s'
  | Renamed sid t r s' : rename user_id sid t s = (r, s') → chat_step s s'
  | Windowed sid raw r s' : set_window user_id sid raw s = (r, s') → chat_step s s'
  | Deleted sid r s' : delete_chat user_id sid s = (r, s') → chat_step s s'
  | AllDeleted r s' : delete_all_chats user_id s = (r, s') → chat_step s s'.

Lemma scan_others wanted needle stubs : ∀ out s r s',
  scan user_id wanted needle stubs out s = (r, s') → others_kept s s'.
Proof.
  induction stubs as [|stub stubs IH]; intros out s r s'; cbn [scan]; [by intros [= _ <-]|].
  destruct (fetch s user_id (s_id stub) _) as [[full|]|]; [|by apply IH..].
  destruct (excluded _ _); [by apply IH|]. destruct (_resolve_title_and_created user_id s full) as [[t c] s1] eqn:Er.
  assert (others_kept s s1) as H1 by (intros u sid n Hu; eapply resolve_elsewhere; [exact Er|congruence]).
  destruct (match needle with Some _ => _ | None => _ end); [by intros ?%IH; etransitivity|].
  destruct (window_dirs _); [|by intros [= _ <-]]. cbv zeta. destruct (_ <=? _); [by intros [= _ <-]|].
  by intros ?%IH; etransitivity.
Qed.
Lemma delete_each_others stubs : ∀ d f s d' f' s', delete_each user_id stubs d f s = (d', f', s') → others_kept s s'.
Proof.
  induction stubs as [|stub stubs IH]; intros d f s d' f' s'; cbn [delete_each]; [by intros [= _ _ <-]|].
  destruct (remove_chat _ _ _) as [[]s1] eqn:Er; intros Hs%IH; (etransitivity; [by eapply remove_others|exact Hs]).
Qed.
Lemma chat_step_others s s' : chat_step s s' → others_kept s s'.
Proof.
  intros [wanted q r s1 Hs|sid t r s1 Hs|sid raw r s1 Hs|sid r s1 Hs|r s1 Hs]; revert Hs.
  - unfold list_chats. destruct (list_all_sessions _ _); [|by intros [= _ <-]].
    destruct (scan _ _ _ _ _ _) as [r0 s2] eqn:Es. intros [= _ <-]. by eapply scan_others.
  - unfold rename. destruct (negb _); [by intros [= _ <-]|]. destruct (fetch _ _ _ _) as [[f|]|]; try by intros [= _ <-].
    destruct (append_delta _ _ _ _) as [[] s2] eqn:Ea; intros [= _ <-]; by eapply append_others.
  - unfold set_window. destruct (fetch _ _ _ _) as [[f|]|]; [..|by intros [= _ <-]].
    + destruct (append_delta _ _ _ _) as [[] s2] eqn:Ea; intros [= _ <-]; by eapply append_others.
    + destruct (create_chat _ _ _ _) as [[] s2] eqn:Ea; intros [= _ <-] u sid' n Hu;
        (eapply create_elsewhere; [exact Ea|congruence]).
  - unfold delete_chat. destruct (remove_chat _ _ _) as [[] s2] eqn:Ea; intros [= _ <-]; by eapply remove_others.
  - unfold delete_all_chats. destruct (list_all_sessions _ _); [|by intros [= _ <-]].
    destruct (delete_each _ _ _ _ _) as [[d f] s2] eqn:Es. intros [= _ <-]. by eapply delete_each_others.
Qed.


Definition gone (s : S) (stub : session) : Prop := ∀ n g, fetch s user_id (s_id stub) n ≠ Ok (Some g).
Lemma delete_each_spec stubs : NoDup (map s_id stubs) → ∀ d f s d' f' s', delete_each user_id stubs d f s = (d', f', s') →
  (∃ out left, stubs ≡ₚ out ++ left ∧ d' = d + length out ∧ f' = f + length left ∧ Forall (gone s') out) ∧
  ∀ sid n, sid ∉ map s_id stubs → fetch s' user_id sid n = fetch s user_id sid n.
Proof.
  induction stubs as [|stub stubs IH]; intros Hnd d f s d' f' s'; cbn [delete_each].
  { intros [= <- <- <-]. split; [|done]. exists [], []. split_and!; [done|cbn; lia..|done]. }
  cbn [map] in *. apply NoDup_cons in Hnd as [Hnot Hnd].
  destruct (remove_chat _ _ _) as [r s1] eqn:Er.
  assert (∀ sid n, sid ≠ s_id stub → fetch s1 user_id sid n = fetch s user_id sid n) as H1.
  { intros sid n Hne. eapply remove_elsewhere; [exact Er|]. congruence. }
  destruct r as [[]|e]; intros Hs; destruct (IH Hnd _ _ _ _ _ _ Hs) as [(out & left & Hp & -> & -> & Hg) Hk];
    (split; [|intros sid n [? ?]%not_elem_of_cons; by rewrite Hk, H1]).
  - exists (stub :: out), left. split_and!; [by rewrite Hp|cbn; lia|done|]. constructor; [|done].
    intros n g. rewrite Hk by done. by eapply remove_gone.
  - exists out, (stub :: left). split_and!; [by rewrite Hp, Permutation_middle|done|cbn; lia|done].
Qed.

(** Deleting everything tries every chat: one that cannot be deleted does not save those
    after it, the two numbers count all there were, and what counts as deleted is gone. *)
Theorem all_deleted s sessions : list_all_sessions s user_id = Ok sessions → NoDup (map s_id sessions) →
  ∃ out left s', delete_all_chats user_id s = (Answer (length out, length left), s') ∧
    sessions ≡ₚ out ++ left ∧ Forall (gone s') out ∧
    ∀ u sid n, u ≠ user_id ∨ sid ∉ map s_id sessions → fetch s' u sid n = fetch s u sid n.
Proof.
  intros Hl Hnd. unfold delete_all_chats. rewrite Hl. destruct (delete_each _ _ _ _ _) as [[d f] s'] eqn:Es.
  destruct (delete_each_spec _ Hnd _ _ _ _ _ _ Es) as [(out & left & Hp & -> & -> & Hg) Hk].
  exists out, left, s'. split_and!; [done..|]. intros u sid n [Hu|Hn]; [by eapply delete_each_others|].
  destruct (decide (u = user_id)) as [->|]; [by apply Hk|by eapply delete_each_others].
Qed.

(** *** What is written reads back *)

Lemma clean_entries raw : omap clean_entry (map PStr raw) = _clean_window raw.
Proof.
  unfold _clean_window. induction raw as [|e raw IH]; [done|]. cbn [map omap list_omap clean_entry]. cbv zeta.
  by destruct (_ || _); rewrite IH.
Qed.
(** No slash inside of a slash or blank end: what cleaning leaves is clean. *)
Definition clean_once (entry : string) : Prop := let c := strip_slashes (strip entry) in strip c = c.
Lemma clean_window_idem raw : Forall clean_once raw → _clean_window (_clean_window raw) = _clean_window raw.
Proof.
  unfold _clean_window. induction 1 as [|e raw He Hraw IH]; [done|]. unfold clean_once in He. cbn [omap list_omap] in *. cbv zeta in *.
  set (c := strip_slashes (strip e)) in *. assert (strip_slashes c = c) as Hc by apply strip_idem.
  destruct ((c =? "")%string || (c =? ".")%string) eqn:E; [done|]. cbn [omap list_omap]. cbv zeta.
  by rewrite He, Hc, E, IH.
Qed.

(** An edit that answers is what the chat reads back, and it leaves the rest: a new title,
    stripped, where it is not blank; a window, once its entries are clean, whether the chat was
    there before or not. *)
Theorem edits_read_back s sid :
  (∀ t s' f n, rename user_id sid t s = (Answer tt, s') → fetch s' user_id sid n = Ok (Some f) →
    1 ≤ slen t ≤ TITLE_MAX_LEN ∧ _explicit_title f = (if (strip t =? "")%string then None else Some (strip t)) ∧
    ∃ f0, fetch s user_id sid n = Ok (Some f0) ∧ window_dirs (Some (s_state f)) = window_dirs (Some (s_state f0))) ∧
  (∀ raw s' f n, set_window user_id sid raw s = (Answer tt, s') → fetch s' user_id sid n = Ok (Some f) →
    window_dirs (Some (s_state f)) = Ok (_clean_window (_clean_window raw)) ∧
    (Forall clean_once raw → window_dirs (Some (s_state f)) = Ok (_clean_window raw)) ∧
    ∀ f0, fetch s user_id sid None = Ok (Some f0) → _explicit_title f = _explicit_title f0).
Proof.
  split.
  - intros t s' f n. unfold rename. destruct (rename_body t) eqn:Et; [|done]. cbn [negb].
    destruct (fetch s user_id sid None) as [[f1|]|]; [|done..].
    destruct (append_delta _ _ _ _) as [[[]|] s1] eqn:Ea; [|done]. intros [= <-] Hf.
    destruct (append_merges _ _ _ _ _ _ _ _ ltac:(by left) Ea Hf) as [Hg (f0 & Hf0 & Hkeep)]. split_and!.
    + apply andb_true_iff in Et as [?%Nat.leb_le _]. done.
    + by apply andb_true_iff in Et as [_ ?%Nat.leb_le].
    + unfold _explicit_title, get_str. rewrite Hg. cbn [is_str not_blank].
      assert (strip (strip t) = strip t) as Hi by apply strip_idem. rewrite Hi. destruct (strip t =? "")%string; [done|].
      cbn. by rewrite Hi.
    + exists f0. split; [done|]. unfold window_dirs.
      change (_as_dict (Some (s_state f))) with (s_state f). change (_as_dict (Some (s_state f0))) with (s_state f0). by rewrite Hkeep.
  - intros raw s' f n Hs Hf.
    assert (get (s_state f) WORKSPACE_WINDOW_STATE_KEY = PList (map PStr (_clean_window raw)) ∧
      ∀ f0, fetch s user_id sid None = Ok (Some f0) → _explicit_title f = _explicit_title f0) as [Hg Ht].
    { revert Hs. unfold set_window. destruct (fetch s user_id sid None) as [[f1|]|] eqn:E0; [..|done].
      - destruct (append_delta _ _ _ _) as [[[]|] s1] eqn:Ea; [|done]. intros [= <-].
        destruct (append_merges _ _ _ _ _ _ _ _ ltac:(right; by left) Ea Hf) as [Hg (f2 & Hf2 & Hkeep)].
        split; [done|]. intros f0 [= <-]. unfold _explicit_title, get_str. rewrite Hkeep by done.
        by rewrite (fetch_same _ _ _ _ _ _ _ Hf2 E0).
      - destruct (create_chat _ _ _ _) as [[[]|] s1] eqn:Ea; [|done]. intros [= <-].
        split; [|done]. by apply (create_fresh _ _ _ _ _ _ _ _ ltac:(right; by left) Ea Hf). }
    unfold window_dirs. change (_as_dict (Some (s_state f))) with (s_state f). rewrite Hg, clean_entries. split_and!; [done| |done].
    intros Hc. by rewrite clean_window_idem.
Qed.
End Facts.

(** * A service in memory *)

Module InMemory.
Definition is_chat (u sid : string) (x : session) : bool := (s_user x =? u)%string && (s_id x =? sid)%string.
Definition with_events (n : option nat) (x : session) : session :=
  match n with
  | Some n => Session (s_id x) (s_state x) (last_n n (s_events x)) (last_update_time x) (s_user x)
  | None => x
  end.
Definition merged (d : pydict) (x : session) : session :=
  Session (s_id x) (foldl (λ st kv, dset st kv.1 kv.2) (s_state x) d) (s_events x) (last_update_time x) (s_user x).
Definition own (u sid : string) (s : list session) : option session := List.find (is_chat u sid) s.
#[export] Instance service : ChatService (list session) := {
  list_all_sessions s u := Ok (List.filter (λ x, (s_user x =? u)%string) s);
  fetch s u sid n := Ok (with_events n <$> own u sid s);
  append_delta s u sid d :=
    match own u sid s with
    | Some _ => (Ok tt, map (λ x, if is_chat u sid x then merged d x else x) s)
    | None => (Raise (ValueError "Session not found"), s)
    end;
  create_chat s u sid d :=
    match own u sid s with
    | Some _ => (Raise (ValueError "Session already exists"), s)
    | None => (Ok tt, Session sid d [] 0%Q u :: s)
    end;
  remove_chat s u sid := (Ok tt, List.filter (λ x, negb (is_chat u sid x)) s)
}.

Lemma is_chat_spec u sid x : reflect (u = s_user x ∧ sid = s_id x) (is_chat u sid x).
Proof.
  unfold is_chat. destruct (String.eqb_spec (s_user x) u), (String.eqb_spec (s_id x) sid); constructor; naive_solver.
Qed.
Lemma own_Some u sid s x : own u sid s = Some x → s_id x = sid ∧ s_user x = u.
Proof. intros [_ H]%find_some. by destruct (is_chat_spec u sid x) as [[-> ->]|]. Qed.
Lemma own_update u sid d s u' sid' :
  own u' sid' (map (λ x, if is_chat u sid x then merged d x else x) s) =
  (if bool_decide ((u', sid') = (u, sid)) then merged d <$> own u sid s else own u' sid' s).
Proof.
  induction s as [|x s IH]; [by case_bool_decide|]. cbn [map own List.find]. unfold own in IH |- *.
  assert (is_chat u' sid' (if is_chat u sid x then merged d x else x) = is_chat u' sid' x) as -> by by destruct (is_chat u sid x).
  rewrite IH. case_bool_decide as Hq.
  - injection Hq as -> ->. by destruct (is_chat u sid x) eqn:E.
  - destruct (is_chat_spec u' sid' x) as [[-> ->]|]; [|done]. destruct (is_chat_spec u sid x) as [[-> ->]|]; done.
Qed.
Lemma own_remove u sid s u' sid' : own u' sid' (List.filter (λ x, negb (is_chat u sid x)) s) =
  (if bool_decide ((u', sid') = (u, sid)) then None else own u' sid' s).
Proof.
  unfold own. induction s as [|x s IH]; [by case_bool_decide|]. cbn [List.filter List.find].
  destruct (is_chat_spec u sid x) as [[-> ->]|Hn]; cbn [negb List.find]; rewrite IH.
  - case_bool_decide as Hq; [done|]. by destruct (is_chat_spec u' sid' x) as [[-> ->]|].
  - case_bool_decide as Hq; [|done]. injection Hq as -> ->. by destruct (is_chat_spec u sid x).
Qed.
Lemma with_events_same n x : s_id (with_events n x) = s_id x ∧ s_user (with_events n x) = s_user x ∧
  s_state (with_events n x) = s_state x.
Proof. by destruct n. Qed.

#[export] Instance laws : ChatLaws (list session).
Proof.
  split; cbn [fetch append_delta create_chat remove_chat service].
  - intros s u sid n f [= Hf]. destruct (own u sid s) as [x|] eqn:E; [|done]. injection Hf as <-.
    apply own_Some in E as [<- <-]. by destruct (with_events_same n x) as (-> & -> & _).
  - intros s u sid n m f g [= Hf] [= Hg]. destruct (own u sid s) as [x|]; [|done]. injection Hf as <-. injection Hg as <-.
    by rewrite !(proj2 (proj2 (with_events_same _ _))).
  - intros s u sid d r s' u' sid' n Ha Hne. destruct (own u sid s); injection Ha as _ <-; [|done].
    by rewrite own_update, bool_decide_false.
  - intros s u sid k v s' n f _ Ha [= Hf]. destruct (own u sid s) as [x|] eqn:E; [|done]. injection Ha as <-.
    rewrite own_update, bool_decide_true, E in Hf by done. injection Hf as <-.
    assert (s_state (with_events n (merged [(k, v)] x)) = dset (s_state x) k v) as -> by by destruct n.
    unfold get. rewrite dget_dset_eq. split; [done|]. exists (with_events n x). split; [done|]. intros k' Hk.
    rewrite dget_dset_ne by congruence. by destruct n.
  - intros s u sid d r s' u' sid' n Ha Hne. destruct (own u sid s); injection Ha as _ <-; [done|].
    cbn [own List.find]. unfold own. cbn [List.find].
    destruct (is_chat_spec u' sid' (Session sid d [] 0%Q u)) as [[-> ->]|]; [by destruct Hne|done].
  - intros s u sid k v s' n f _ Ha [= Hf]. destruct (own u sid s) as [x|] eqn:E; [done|]. injection Ha as <-.
    unfold own in Hf. cbn [List.find] in Hf. destruct (is_chat_spec u sid (Session sid [(k, v)] [] 0%Q u)) as [|[]]; [|by split].
    injection Hf as <-. unfold get. destruct n; cbn; by rewrite String.eqb_refl.
  - intros s u sid r s' u' sid' n [= _ <-] Hne. by rewrite own_remove, bool_decide_false.
  - intros s u sid s' n f [= <-]. by rewrite own_remove, bool_decide_true.
Qed.
Lemma is_serviceable u : serviceable (S := list session) u.
Proof.
  split; cbn [fetch append_delta service].
  - intros s sid n f. destruct (own u sid s) as [x|]; [by exists x|done].
  - intros s sid d f. by destruct (own u sid s).
Qed.
End InMemory.

(** ** Witnesses *)

Module Sample.
Import InMemory.
Definition said (t : string) (at_ : Q) : event := Event (Some "user") (Some (Content None [Part (Some t) None])) (Some at_) [].
Definition NL1 : string := String "010" "".
Definition store : list session := [
  Session "a" [] [said ("Plan a trip " +:+ NL1 +:+ "to Rome") 1; said "and back" 2; said "x" 3; said "x" 4; said "x" 5; said "x" 6] 6 "ann";
  Session "b" [(SESSION_SOURCE_KEY, PStr SCHEDULER_SOURCE); (TITLE_KEY, PStr "Digest")] [] 9 "ann";
  Session "a" [(TITLE_KEY, PStr "Bob's")] [] 3 "bob"].
Definition anns : list session := [
  Session "a" [] [said ("Plan a trip " +:+ NL1 +:+ "to Rome") 1; said "and back" 2; said "x" 3; said "x" 4; said "x" 5; said "x" 6] 6 "ann";
  Session "b" [(SESSION_SOURCE_KEY, PStr SCHEDULER_SOURCE); (TITLE_KEY, PStr "Digest")] [] 9 "ann"].
Definition listed : web (list row) * list session := list_chats "ann" (Some "user") None store.
Definition rows : list row := [Row "a" "Plan a trip " 1 6 "user" None []].
Lemma listed_rows : listed = (Answer rows, listed.2).
Proof. by vm_compute. Qed.
Lemma anns_NoDup : NoDup (map s_id anns).
Proof. repeat constructor; set_solver. Qed.
Lemma anns_all : list_all_sessions store "ann" = Ok anns.
Proof. by vm_compute. Qed.
End Sample.
Import InMemory Sample.

Lemma chats_listed_witness : list_chats "ann" (Some "user") None store = (Answer rows, listed.2) ∧ rows ≠ [] ∧
  others_kept "ann" store listed.2.
Proof.
  split; [apply listed_rows|]. split; [done|].
  by destruct (chats_listed "ann" (Some "user") None store anns rows listed.2 anns_all anns_NoDup listed_rows) as (_ & _ & Hk).
Defined.
Lemma titles_settle_witness : ∃ f, fetch listed.2 "ann" "a" (Some SESSIONS_EVENT_FETCH) = Ok (Some f) ∧
  _resolve_title_and_created "ann" store f = (strip "Plan a trip ", _created_at f, store).
Proof.
  eexists. split; [by vm_compute|].
  apply (titles_settle "ann" (Some "user") None store anns rows listed.2 (is_serviceable "ann") anns_all anns_NoDup listed_rows
           (Row "a" "Plan a trip " 1 6 "user" None []) ltac:(by left) ltac:(done) _ (Some SESSIONS_EVENT_FETCH)).
  by vm_compute.
Defined.
Lemma all_deleted_witness : list_all_sessions store "ann" = Ok anns ∧
  ∃ out left s', delete_all_chats "ann" store = (Answer (length out, length left), s') ∧ anns ≡ₚ out ++ left ∧ Forall (gone "ann" s') out.
Proof.
  split; [apply anns_all|]. destruct (all_deleted "ann" store anns anns_all anns_NoDup) as (out & left & s' & H1 & H2 & H3 & _).
  by exists out, left, s'.
Defined.
Definition windowed : list session := (set_window "ann" "c" [" /docs/ "; "."; "src"] store).2.
Lemma edits_read_back_witness : ∃ f, fetch windowed "ann" "c" None = Ok (Some f) ∧
  window_dirs (Some (s_state f)) = Ok ["docs"; "src"].
Proof.
  eexists. split; [by vm_compute|].
  destruct (proj2 (edits_read_back "ann" store "c") [" /docs/ "; "."; "src"] windowed _ None ltac:(by vm_compute) ltac:(by vm_compute)) as (H & _).
  revert H. by vm_compute.
Defined.

(** The title shown changes once: it is stored as derived, and read stripped. *)
Example title_shown_twice : map title rows = ["Plan a trip "] ∧
  (λ r, match r with Answer rs => map title rs | _ => [] end) (list_chats "ann" (Some "user") None listed.2).1 = ["Plan a trip"].
Proof. by vm_compute. Qed.
(** A blank title is accepted, and names the chat after its first message again. *)
Example blank_title_accepted : (rename "ann" "b" "  " store).1 = Answer tt ∧
  (λ r, match r with Answer rs => map title rs | _ => [] end) (list_chats "ann" (Some SCHEDULER_SOURCE) None (rename "ann" "b" "  " store).2).1
    = [NEW_CHAT].
Proof. by vm_compute. Qed.
(** A window entry is not clean after one cleaning: what is stored is not what is read. *)
Example window_cleaned_twice : _clean_window ["/ docs /"] = [" docs "] ∧ _clean_window [" docs "] = ["docs"].
Proof. by vm_compute. Qed.
(** A first message that is "New chat" is looked for at every listing. *)
Example new_chat_never_stored :
  let s := [Session "n" [] [said "New chat" 1] 1 "ann"] in (list_chats "ann" None None s).2 = s.
Proof. by vm_compute. Qed.
