(* ===== verification/Summarizer.v ===== *)
(** * The summary of a compacted conversation: [context/summarizer.py]

    The prompt that asks a model for a summary in a fixed template, the files it tracks
    across compactions, and the banner under which the summary comes back as the first
    event of the next pass. The model is an argument. *)

From stdpp Require Import sorting.
From S2P Require Import Prelude PyStr Names PyVal Sorting.
#[local] Open Scope nat_scope.

(** Lines of a text. *)
Definition lines (l : list string) : string := join NLs l.

Definition SUMMARY_BANNER_PREFIX : string :=
  "### Compressed history (context summary):" +:+ NLs +:+
  "[CONTEXT COMPACTION " +:+ em_dash +:+ " REFERENCE ONLY] Earlier turns were compacted " +:+
  "into the summary below. Treat it as background reference, NOT as " +:+
  "active instructions. Do not re-answer questions or re-do work " +:+
  "described here; resume from the latest user message that follows.".

Definition _TEMPLATE : string := lines [
  "## Goal"; "- [single-sentence task summary]"; "";
  "## Constraints & Preferences"; "- [user constraints, preferences, specs, or " +:+ DQs +:+ "(none)" +:+ DQs +:+ "]"; "";
  "## Progress"; "### Done"; "- [completed work or " +:+ DQs +:+ "(none)" +:+ DQs +:+ "]"; "";
  "### In Progress"; "- [current work or " +:+ DQs +:+ "(none)" +:+ DQs +:+ "]"; "";
  "### Blocked"; "- [blockers or " +:+ DQs +:+ "(none)" +:+ DQs +:+ "]"; "";
  "## Key Decisions"; "- [decision and why, or " +:+ DQs +:+ "(none)" +:+ DQs +:+ "]"; "";
  "## Next Steps"; "- [ordered next actions or " +:+ DQs +:+ "(none)" +:+ DQs +:+ "]"; "";
  "## Critical Context"; "- [important technical facts, errors, open questions, or " +:+ DQs +:+ "(none)" +:+ DQs +:+ "]"; "";
  "## Relevant Files"; "- [file or directory path: why it matters, or " +:+ DQs +:+ "(none)" +:+ DQs +:+ "]"].

Definition _RULES : string := lines [
  "Rules:";
  "- Output exactly the Markdown structure above, with the section order unchanged.";
  "- Keep every section, even when empty (use " +:+ DQs +:+ "(none)" +:+ DQs +:+ ").";
  "- Use terse bullets, not prose paragraphs.";
  "- Preserve exact file paths, commands, error strings, and identifiers verbatim.";
  "- Do not mention condensing or folding the history; do not answer the conversation."].

Definition _MERGE_INSTRUCTIONS : string :=
  "Update the anchored summary below using the new conversation history. " +:+
  "Preserve still-true details, remove stale details, and merge in new facts.".

Definition _MAX_HISTORY_ITEM_CHARS : nat := 2000.
Definition _capped_text (text : string) : string :=
  if slen text <=? _MAX_HISTORY_ITEM_CHARS then text
  else stake _MAX_HISTORY_ITEM_CHARS text +:+ "... [" +:+ str_of_nat (slen text - _MAX_HISTORY_ITEM_CHARS) +:+ " chars omitted]".

(** ** Events *)

Record function_call := FCall { fc_name : option string; args : option pydict }.
Record function_response := FResp { fr_name : option string; response : option pydict }.
Record part := Part {
  text : option string; p_function_response : option function_response; p_function_call : option function_call
}.
Record content := Content { role : option string; c_parts : option (list part) }.
Record event := Event { author : string; e_content : option content; timestamp : Q }.

(** [event.content.parts], where there are any. *)
Definition parts_of (e : event) : list part :=
  match e_content e with Some c => default [] (c_parts c) | None => [] end.
(** The text of a part, where it is set and not empty. *)
Definition part_text (p : part) : option string :=
  match text p with Some t => if (t =? "")%string then None else Some t | None => None end.

Definition _is_prior_summary_seed (e : event) : bool :=
  match parts_of e with
  | [] => false
  | first :: _ => match part_text first with Some t => startswith SUMMARY_BANNER_PREFIX t | None => false end
  end.
Definition _strip_banner (t : string) : string :=
  if startswith SUMMARY_BANNER_PREFIX t then lstrip is_space (sdrop (slen SUMMARY_BANNER_PREFIX) t) else t.

(** ** The files touched *)

Definition _READ_FILE_TOOLS : list string := ["read"; "search_files"].
Definition _WRITE_FILE_TOOLS : list string := ["write"; "edit"].
Definition _RELEVANT_FILES_HEADER : string := "## Relevant Files".

(** The path of a call: its tool and the path. *)
Definition touched (p : part) : option (option string * string) :=
  match p_function_call p with
  | Some (FCall name (Some d)) =>
      match get_str d "path" with
      | Some path => if (path =? "")%string then None else Some (name, path)
      | None => None
      end
  | _ => None
  end.
Definition by_tool (tools : list string) (p : part) : option string :=
  match touched p with Some (Some name, path) => if mem name tools then Some path else None | _ => None end.
(** The sets are lists; what is made of them goes by membership. *)
Definition _extract_touched_files (events : list event) : list string * list string :=
  let calls := flat_map parts_of events in (omap (by_tool _READ_FILE_TOOLS) calls, omap (by_tool _WRITE_FILE_TOOLS) calls).

Definition is_dash (c : ascii) : bool := one_of "-" c.
Definition is_tick (c : ascii) : bool := one_of "`" c.
Definition path_of_line (line : string) : option string :=
  let stripped := strip_by is_tick (strip (lstrip is_dash (strip line))) in
  let path := strip_by is_tick (strip (before_first ":" stripped)) in
  if (path =? "")%string || (path =? "(none)")%string then None else Some path.
Fixpoint previous_files (in_section : bool) (ls : list string) : list string :=
  match ls with
  | [] => []
  | line :: rest =>
      if (strip line =? _RELEVANT_FILES_HEADER)%string then previous_files true rest
      else if negb in_section then previous_files false rest
      else if startswith "## " line then []
      else match path_of_line line with Some p => p :: previous_files true rest | None => previous_files true rest end
  end.
Definition _extract_previous_files (previous_summary : string) : list string := previous_files false (splitlines previous_summary).

Definition all_paths (history_events : list event) (previous_summary : option string) : list string * list string :=
  let '(read, modified) := _extract_touched_files history_events in
  let kept := match previous_summary with
              | Some s => if (s =? "")%string then []
                          else List.filter (λ p, negb (mem p modified)) (_extract_previous_files s)
              | None => []
              end in
  (sort_by str_leb (dedup (read ++ kept ++ modified)), modified).
Definition file_line (modified : list string) (p : string) : string :=
  if mem p modified then "- " +:+ p +:+ " (modified)" else "- " +:+ p.
Definition _build_touched_files_section (history_events : list event) (previous_summary : option string) : option string :=
  let '(paths, modified) := all_paths history_events previous_summary in
  match paths with
  | [] => None
  | _ => Some ("Files touched across this session (tracked deterministically across " +:+
               "compactions, independent of the merge above). Include the ones " +:+
               "still relevant in ## Relevant Files, drop ones no longer relevant:" +:+ NLs +:+
               lines (map (file_line modified) paths))
  end.

(** ** The prompt *)

Section Prompt.
Context `{PyFloat}.

Definition name_text (n : option string) : string := default "None" n.
Definition _capped (d : option pydict) : string := _capped_text (match d with Some d => py_str (PDict d) | None => "None" end).
Definition history_line (who : string) (p : part) : option string :=
  match part_text p with
  | Some t => Some (who +:+ ": " +:+ t)
  | None =>
      match p_function_response p, p_function_call p with
      | Some fr, _ => Some (who +:+ ": [tool " +:+ name_text (fr_name fr) +:+ "] " +:+ _capped (response fr))
      | None, Some fc => Some (who +:+ ": [call " +:+ name_text (fc_name fc) +:+ "] " +:+ _capped (args fc))
      | None, None => None
      end
  end.
Definition history_lines (events : list event) : list string :=
  flat_map (λ e, omap (history_line (author e)) (parts_of e)) events.
Definition _format_history (events : list event) : string := lines (history_lines events).

(** The summary of the pass before, and the events since. *)
Definition seed (events : list event) : option string * list event :=
  match events with
  | e :: rest =>
      if _is_prior_summary_seed e
      then (Some (_strip_banner (default "" (match parts_of e with p :: _ => text p | [] => None end))), rest)
      else (None, events)
  | [] => (None, events)
  end.
Definition merge_section (previous_summary : option string) : list string :=
  match previous_summary with
  | Some s => if (s =? "")%string then []
              else [lines [_MERGE_INSTRUCTIONS; "<previous-summary>"; s; "</previous-summary>"]]
  | None => []
  end.
Definition sections (events : list event) : list string :=
  let '(previous_summary, history_events) := seed events in
  ["Summarize the conversation history into the structured template below."; _TEMPLATE; _RULES]
  ++ merge_section previous_summary
  ++ option_list (_build_touched_files_section history_events previous_summary)
  ++ ["Conversation history:" +:+ NLs +:+ _format_history history_events].
Definition build_compaction_prompt (events : list event) : string := join (NLs +:+ NLs) (sections events).

(** ** The summary *)

Definition _prepend_banner (c : content) : content :=
  let existing_text := match default [] (c_parts c) with first :: _ => default "" (part_text first) | [] => "" end in
  let banner_text := if (existing_text =? "")%string then SUMMARY_BANNER_PREFIX
                     else rstrip is_space (SUMMARY_BANNER_PREFIX +:+ NLs +:+ NLs +:+ existing_text) in
  Content (role c) (Some (Part (Some banner_text) None None :: drop 1 (default [] (c_parts c)))).

Record compaction := Compaction { start_timestamp : Q; end_timestamp : Q; compacted_content : content }.

(** [generate]: the contents of the responses to a prompt, in order. What the flush fork is
    handed is the first component; a failure to spawn it changes nothing. *)
Definition maybe_summarize_events {C} (ctx : option C) (generate : string → list (option content)) (events : list event) :
    option (C * list event) * option compaction :=
  match events with
  | [] => (None, None)
  | e :: _ =>
      ((λ c, (c, events)) <$> ctx,
       match first_some id (generate (build_compaction_prompt events)) with
       | None => None
       | Some c => Some (Compaction (timestamp e) (timestamp (default e (last events)))
                           (_prepend_banner (Content (Some "model") (c_parts c))))
       end)
  end.
End Prompt.

(** * Facts *)

Section Texts.
Context (q : ascii → bool).
(** What is not stripped stops the stripping. *)
Lemma rstrip_cons c t : q c = false → rstrip q (String c t) = String c (rstrip q t).
Proof. intros Hc. cbn. destruct (rstrip q t); [by rewrite Hc|done]. Qed.
Lemma rstrip_at s c t : q c = false → rstrip q (s +:+ String c t) = s +:+ String c (rstrip q t).
Proof.
  intros Hc. induction s as [|d s IH]; [by apply rstrip_cons|].
  change (rstrip q (String d s +:+ String c t)) with
    (match rstrip q (s +:+ String c t) with "" => if q d then "" else String d "" | r => String d r end).
  rewrite IH. by destruct s.
Qed.
Lemma strip_swap s : lstrip q (rstrip q s) = rstrip q (lstrip q s).
Proof.
  induction s as [|c s IH]; [done|]. destruct (q c) eqn:E.
  - cbn [lstrip]. rewrite E, <- IH. cbn [rstrip]. destruct (rstrip q s) as [|d t]; [by rewrite E|].
    change (lstrip q (String c (String d t))) with (if q c then lstrip q (String d t) else String c (String d t)). by rewrite E.
  - rewrite rstrip_cons by done. cbn [lstrip]. rewrite E. by rewrite rstrip_cons.
Qed.
Lemma lstrip_keep s t : s ≠ "" → lstrip q s = s → lstrip q (s +:+ t) = s +:+ t.
Proof.
  destruct s as [|c s]; [done|]. intros _ H. cbn [lstrip] in H. change (lstrip q (String c s +:+ t)) with
    (if q c then lstrip q (s +:+ t) else String c (s +:+ t)). destruct (q c) eqn:E; [|done].
  exfalso. apply (f_equal slen) in H. destruct (lstrip_suffix q s) as [l Hl]. apply (f_equal slen) in Hl.
  rewrite slen_app in Hl. cbn in H. change (slen (String c s)) with (S (slen s)) in H. lia.
Qed.
Lemma strip_left s : strip_by q s = s → lstrip q s = s.
Proof.
  unfold strip_by. intros H. destruct (lstrip_suffix q s) as [l Hl]. destruct (rstrip_prefix q (lstrip q s)) as [r Hr].
  pose proof (f_equal slen Hl) as H1. pose proof (f_equal slen Hr) as H2. rewrite H in H2. rewrite !slen_app in *.
  destruct l as [|c l]; [by rewrite Hl at 2|]. change (slen (String c l)) with (S (slen l)) in H1. lia.
Qed.
End Texts.
Lemma before_first_app c s t : has_char c s = false → before_first c (s +:+ String c t) = s.
Proof.
  unfold before_first. intros H. assert (partition_at c (s +:+ String c t) = Some (s, t)) as ->; [|done].
  induction s as [|d s IH]; cbn in *; [by rewrite Ascii.eqb_refl|]. apply orb_false_iff in H as [Hd H].
  rewrite Ascii.eqb_sym in Hd. rewrite Hd. by rewrite IH.
Qed.

(** ** Lines of the section *)

Definition plain_path (p : string) : Prop :=
  p ≠ "" ∧ p ≠ "(none)" ∧ strip p = p ∧ lstrip is_dash p = p ∧ has_char ":" p = false ∧
  sforall (λ c, negb (is_tick c)) p = true ∧ one_line p = true.
(** A line of the template. *)
Definition item (p why : string) : string := "- " +:+ p +:+ String ":" why.
Lemma path_of_item p why : plain_path p → path_of_line (item p why) = Some p.
Proof.
  intros (Hne & Hnone & Hs & Hd & Hc & Ht & _). unfold path_of_line, item.
  assert (strip_by is_tick p = p) as Htp by by apply strip_none.
  assert (lstrip is_tick p = p) as Htl by by apply strip_left.
  assert (lstrip is_space p = p) as Hsl by by apply strip_left.
  assert (∃ t, strip ("- " +:+ p +:+ String ":" why) = "- " +:+ p +:+ String ":" t) as [t1 ->].
  { unfold strip, strip_by. change (lstrip is_space ("- " +:+ ?x)) with ("- " +:+ x). rewrite !sapp_assoc, rstrip_at by done. by eexists. }
  change (lstrip is_dash ("- " +:+ ?x)) with (" " +:+ x).
  assert (∃ t, strip (" " +:+ p +:+ String ":" t1) = p +:+ String ":" t) as [t2 ->].
  { unfold strip, strip_by. change (lstrip is_space (" " +:+ ?x)) with (lstrip is_space x). rewrite lstrip_keep, rstrip_at by done. by eexists. }
  assert (∃ t, strip_by is_tick (p +:+ String ":" t2) = p +:+ String ":" t) as [t3 ->].
  { unfold strip_by. rewrite lstrip_keep, rstrip_at by done. by eexists. }
  cbv zeta. rewrite before_first_app, Hs, Htp by done.
  by destruct (String.eqb_spec p ""), (String.eqb_spec p "(none)").
Qed.
Lemma item_no_header p why : (strip (item p why) =? _RELEVANT_FILES_HEADER)%string = false.
Proof.
  unfold item, strip, strip_by. change (lstrip is_space ("- " +:+ ?x)) with ("- " +:+ x). rewrite sapp_assoc.
  by rewrite rstrip_at.
Qed.
Lemma items_found l rest : Forall (λ x, plain_path x.1) l →
  previous_files true (map (λ x, item x.1 x.2) l ++ rest) = map fst l ++ previous_files true rest.
Proof.
  induction 1 as [|[p why] l Hp Hl IH]; [done|]. cbn [map app fst snd previous_files] in *.
  rewrite item_no_header. cbn [negb]. change (startswith "## " (item p why)) with false. by rewrite path_of_item, IH.
Qed.
Lemma section_found pre l rest : Forall (λ s, strip s ≠ _RELEVANT_FILES_HEADER) pre → Forall (λ x, plain_path x.1) l →
  previous_files false (pre ++ _RELEVANT_FILES_HEADER :: map (λ x, item x.1 x.2) l ++ rest) = map fst l ++ previous_files true rest.
Proof.
  intros Hpre Hl. induction Hpre as [|s pre Hs Hpre IH].
  - cbn [app previous_files]. change (strip _RELEVANT_FILES_HEADER =? _RELEVANT_FILES_HEADER)%string with true. by apply items_found.
  - cbn [app previous_files]. destruct (String.eqb_spec (strip s) _RELEVANT_FILES_HEADER); [done|]. exact IH.
Qed.

(** ** The files of a pass *)

Definition was_touched (events : list event) (p : string) : Prop :=
  ∃ e part name, e ∈ events ∧ part ∈ parts_of e ∧ touched part = Some (Some name, p) ∧ name ∈ _READ_FILE_TOOLS ++ _WRITE_FILE_TOOLS.
Lemma by_tool_elem tools events p : p ∈ omap (by_tool tools) (flat_map parts_of events) ↔
  ∃ e part name, e ∈ events ∧ part ∈ parts_of e ∧ touched part = Some (Some name, p) ∧ name ∈ tools.
Proof.
  rewrite list_elem_of_omap. split.
  - intros (part & Hin & Hb). apply list_elem_of_In, in_flat_map in Hin as (e & He & Hp). unfold by_tool in Hb.
    destruct (touched part) as [[[name|] path]|] eqn:Et; try done. destruct (mem name tools) eqn:Em; [|done]. injection Hb as ->.
    exists e, part, name. split_and!; [by apply list_elem_of_In..|done|by apply mem_spec].
  - intros (e & part & name & He & Hp & Ht & Hn). exists part. split.
    + apply list_elem_of_In, in_flat_map. exists e. by split; apply list_elem_of_In.
    + unfold by_tool. rewrite Ht. apply mem_spec in Hn. by rewrite Hn.
Qed.
Lemma all_paths_elem events prev p : p ∈ (all_paths events prev).1 ↔
  was_touched events p ∨ ∃ s, prev = Some s ∧ p ∈ _extract_previous_files s.
Proof.
  unfold all_paths, _extract_touched_files, was_touched. cbn [fst]. rewrite (sort_by_perm str_leb), elem_of_dedup, !elem_of_app, !by_tool_elem.
  setoid_rewrite elem_of_app.
  set (modified := omap (by_tool _WRITE_FILE_TOOLS) _).
  assert (p ∈ modified ↔ ∃ e part name, e ∈ events ∧ part ∈ parts_of e ∧ touched part = Some (Some name, p) ∧ name ∈ _WRITE_FILE_TOOLS) as Hm by apply by_tool_elem.
  split.
  - intros [(e & part & name & H)|[Hk|(e & part & name & H)]]; [left; naive_solver| |left; naive_solver].
    destruct prev as [s|]; [|by apply elem_of_nil in Hk]. destruct (s =? "")%string; [by apply elem_of_nil in Hk|].
    apply list_elem_of_In, filter_In in Hk as [Hk _]. right. exists s. split; [done|]. by apply list_elem_of_In.
  - intros [(e & part & name & He & Hp & Ht & [Hn|Hn])|(s & -> & Hs)]; [left; by exists e, part, name|right; right; by exists e, part, name|].
    destruct (mem p modified) eqn:Em; [right; right; by apply Hm, mem_spec|]. right. left.
    destruct (String.eqb_spec s "") as [->|]; [by apply elem_of_nil in Hs|]. apply list_elem_of_In, filter_In. split; [by apply list_elem_of_In|].
    by rewrite Em.
Qed.
Lemma substring_join sep x l : x ∈ l → substring_of x (join sep l).
Proof.
  intros (l1 & l2 & ->)%list_elem_of_split. induction l1 as [|y l1 IH]; cbn [app].
  - destruct l2; [apply substring_refl|]. rewrite join_cons by done. by exists "", (sep +:+ join sep (s :: l2)).
  - rewrite join_cons by by destruct l1. by do 2 apply substring_app_l.
Qed.

Section Passes.
Context `{PyFloat}.

Lemma listed_in_prompt events p : p ∈ (all_paths (seed events).2 (seed events).1).1 →
  substring_of (file_line (all_paths (seed events).2 (seed events).1).2 p) (build_compaction_prompt events).
Proof.
  intros Hp. unfold build_compaction_prompt, sections. destruct (seed events) as [prev hist]. cbn [fst snd] in *.
  unfold _build_touched_files_section. destruct (all_paths hist prev) as [paths modified] eqn:E. cbn [fst snd] in *.
  destruct paths as [|p0 ps]; [by apply elem_of_nil in Hp|].
  eapply substring_trans; [|apply substring_join; apply elem_of_app; right; apply elem_of_app; right; apply elem_of_app; left; by left].
  do 4 apply substring_app_l. unfold lines. apply substring_join. apply list_elem_of_fmap. by exists p.
Qed.

(** Which files a pass tells the model of: the ones the history touches and the ones the
    summary before it lists, each once and in order, with a line in the prompt. *)
Theorem files_tracked events :
  let '(prev, hist) := seed events in let '(paths, modified) := all_paths hist prev in
  NoDup paths ∧ StronglySorted (λ a b, str_leb a b = true) paths ∧
  (∀ p, p ∈ paths ↔ was_touched hist p ∨ ∃ s, prev = Some s ∧ p ∈ _extract_previous_files s) ∧
  ∀ p, p ∈ paths → substring_of (file_line modified p) (build_compaction_prompt events).
Proof.
  pose proof (listed_in_prompt events) as Hl. destruct (seed events) as [prev hist]. cbn [fst snd] in Hl.
  pose proof (all_paths_elem hist prev) as He.
  assert (NoDup (all_paths hist prev).1 ∧ StronglySorted (λ a b, str_leb a b = true) (all_paths hist prev).1) as [Hn Hs].
  { unfold all_paths. destruct (_extract_touched_files hist). cbn [fst]. split.
    - rewrite (sort_by_perm str_leb). apply NoDup_dedup.
    - apply sort_by_total; [apply str_leb_total|apply str_leb_trans]. }
  by destruct (all_paths hist prev) as [paths modified].
Qed.

(** ** The summary comes back *)

Definition summary_text (c : content) : string :=
  match default [] (c_parts c) with first :: _ => default "" (text first) | [] => "" end.
Lemma banner_seed c who ts later :
  seed (Event who (Some (_prepend_banner c)) ts :: later) = (Some (strip (summary_text c)), later).
Proof.
  unfold seed, _is_prior_summary_seed, parts_of, _prepend_banner. cbn [e_content default c_parts].
  set (existing := match default [] (c_parts c) with first :: _ => default "" (part_text first) | [] => "" end).
  assert (existing = summary_text c) as ->.
  { unfold existing, summary_text. destruct (default [] (c_parts c)) as [|[[t|] ? ?] l]; [done| |done].
    unfold part_text. cbn. by destruct (String.eqb_spec t "") as [->|]. }
  set (t := summary_text c).
  assert (∃ b, (if (t =? "")%string then SUMMARY_BANNER_PREFIX else rstrip is_space (SUMMARY_BANNER_PREFIX +:+ NLs +:+ NLs +:+ t))
    = SUMMARY_BANNER_PREFIX +:+ b ∧ lstrip is_space b = strip t) as (b & -> & Hb).
  { destruct (String.eqb_spec t "") as [->|_]; [exists ""; split; [by vm_compute|done]|].
    exists (rstrip is_space (NLs +:+ NLs +:+ t)). rewrite strip_swap. split; [|done].
    assert (SUMMARY_BANNER_PREFIX = stake (slen SUMMARY_BANNER_PREFIX - 1) SUMMARY_BANNER_PREFIX +:+ s1 ".") as -> by by vm_compute.
    rewrite <- sapp_assoc. change (s1 "." +:+ ?x) with (String "." x). rewrite rstrip_at by done. rewrite <- sapp_assoc. done. }
  unfold part_text, id. cbn [text]. destruct (String.eqb_spec (SUMMARY_BANNER_PREFIX +:+ b) "") as [E|_]; [done|].
  rewrite startswith_app. unfold _strip_banner, default, id. by rewrite startswith_app, sdrop_app, Hb.
Qed.

Context {C : Type} (ctx : option C) (generate : string → list (option content)).

(** C35. The banner is put on and taken off again: what the model wrote is, stripped, the
    previous summary of the next pass, and its text is in the prompt of that pass. The
    compaction spans the events it was made of, and a flush fork gets all of them. *)
Theorem summary_comes_back events flushed c : maybe_summarize_events ctx generate events = (flushed, Some c) →
  ∃ c0, first_some id (generate (build_compaction_prompt events)) = Some c0 ∧
    (∀ who ts later, seed (Event who (Some (compacted_content c)) ts :: later) = (Some (strip (summary_text c0)), later) ∧
       (strip (summary_text c0) ≠ "" → substring_of (strip (summary_text c0))
          (build_compaction_prompt (Event who (Some (compacted_content c)) ts :: later)))) ∧
    role (compacted_content c) = Some "model" ∧
    drop 1 (default [] (c_parts (compacted_content c))) = drop 1 (default [] (c_parts c0)) ∧
    (timestamp <$> head events) = Some (start_timestamp c) ∧ (timestamp <$> last events) = Some (end_timestamp c) ∧
    flushed = (λ c, (c, events)) <$> ctx.
Proof.
  unfold maybe_summarize_events. destruct events as [|e events]; [done|].
  destruct (first_some id _) as [c0|]; [|done]. intros [= <- <-]. exists c0. split; [done|]. cbn [compacted_content]. split_and!.
  - intros who ts later. pose proof (banner_seed (Content (Some "model") (c_parts c0)) who ts later) as Hs. split; [exact Hs|].
    intros Hne. unfold build_compaction_prompt, sections. rewrite Hs. unfold merge_section.
    change (summary_text (Content (Some "model") (c_parts c0))) with (summary_text c0).
    destruct (String.eqb_spec (strip (summary_text c0)) ""); [done|].
    eapply substring_trans; [|apply substring_join; apply elem_of_app; right; apply elem_of_app; left; by left].
    apply substring_join. right. right. by left.
  - done.
  - done.
  - done.
  - cbn [end_timestamp]. rewrite last_cons. by destruct (last events).
  - done.
Qed.

(** The model's side of the template: the section of the files is there, once, and lists
    the kept ones in its format. *)
Definition lists_files (t : string) (kept : list (string * string)) : Prop :=
  ∃ pre post, t = lines (pre ++ _RELEVANT_FILES_HEADER :: map (λ x, item x.1 x.2) kept ++ post) ∧ strip t = t ∧
    List.last (pre ++ _RELEVANT_FILES_HEADER :: map (λ x, item x.1 x.2) kept ++ post) "x" ≠ "" ∧
    Forall (λ s, one_line s = true ∧ strip s ≠ _RELEVANT_FILES_HEADER) pre ∧ Forall (λ s, one_line s = true) post ∧
    Forall (λ x, plain_path x.1 ∧ one_line x.2 = true) kept.
Lemma kept_extracted t kept : lists_files t kept → ∀ x, x ∈ kept → x.1 ∈ _extract_previous_files t.
Proof.
  intros (pre & post & Ht & _ & Hlast & Hpre & Hpost & Hkept) x Hx. unfold _extract_previous_files. rewrite Ht. unfold lines.
  rewrite splitlines_join; [|apply Forall_app; split; [eapply Forall_impl; [exact Hpre|]; by intros ? []|constructor; [done|]; apply Forall_app; split; [|done]]|done].
  - rewrite section_found; [|eapply Forall_impl; [exact Hpre|]; by intros ? []|eapply Forall_impl; [exact Hkept|]; by intros ? []].
    apply elem_of_app. left. apply list_elem_of_fmap. by exists x.
  - apply Forall_map. eapply Forall_impl; [exact Hkept|]. intros [p why] [(_ & _ & _ & _ & _ & _ & Hp) Hw]. cbn in *.
    unfold item, one_line in *. rewrite !sforall_app, Hp. cbn. by rewrite Hw.
Qed.

End Passes.

(** ** Witnesses *)

Module Sample.
#[local] Instance no_floats : PyFloat := λ _, "".
Definition call (name path : string) : event :=
  Event "agent" (Some (Content (Some "model") (Some [Part None None (Some (FCall (Some name) (Some [("path", PStr path)])))]))) 5.
Definition history : list event := [call "read" "README.md"; call "edit" "src/app.py"; call "bash" "x"].
Definition summary : string := lines ["## Goal"; "- ship it"; "## Relevant Files"; "- src/app.py: the entry point"].
Definition model (prompt : string) : list (option content) :=
  [None; Some (Content None (Some [Part (Some summary) None None]))].
Definition result : option compaction := (maybe_summarize_events (Some 0) model history).2.
Definition compacted : compaction :=
  Compaction 5 5 (Content (Some "model") (Some [Part (Some (SUMMARY_BANNER_PREFIX +:+ NLs +:+ NLs +:+ summary)) None None])).
Lemma result_is : maybe_summarize_events (Some 0) model history = (Some (0, history), Some compacted).
Proof. by vm_compute. Qed.
Lemma summary_lists : lists_files summary [("src/app.py", " the entry point")].
Proof.
  exists ["## Goal"; "- ship it"], []. split_and!; [by vm_compute| by vm_compute| by vm_compute| | |].
  - by repeat constructor.
  - constructor.
  - constructor; [|constructor]. unfold plain_path. split_and!; by vm_compute.
Qed.
End Sample.
Import Sample.

Lemma summary_comes_back_witness : ∃ f : PyFloat, (@maybe_summarize_events f nat (Some 0) model history).2 = Some compacted ∧
  (seed (Event "user" (Some (compacted_content compacted)) 9 :: history)).1 = Some summary.
Proof.
  exists no_floats. split; [by vm_compute|].
  destruct (summary_comes_back (H := no_floats) (Some 0) model history _ compacted result_is) as (c0 & H0 & H1 & _).
  destruct (H1 "user" 9%Q history) as [-> _]. revert H0. vm_compute. by intros [= <-].
Defined.

(** A line of the section handed to the model comes back as another path: the mark of a
    modified file is taken for a part of its name. *)
Example mark_becomes_name :
  (all_paths [call "edit" "a.py"] (Some (lines ["## Relevant Files"; file_line ["a.py"] "a.py"]))).1 = ["a.py"; "a.py (modified)"].
Proof. by vm_compute. Qed.
(** A path is cut at its first colon. *)
Example colon_cuts_path : _extract_previous_files (lines ["## Relevant Files"; "- C:/data/x.csv: the data"]) = ["C"].
Proof. by vm_compute. Qed.
