(* ===== verification/Skills.v ===== *)
(** * Skills: [tools/skill_loader.py], [tools/skill_toolset.py], [tools/skill_reload.py]

    The catalog of skills of a user, read from a mirror of the workspace on the host and
    from the skills of the package; the one toolset of the process that shows it to the
    model; and the tool that loads a skill. The parser of a SKILL.md and what the framework
    puts into a request are arguments. *)

From stdpp Require Import sorting gmap strings.
From S2P Require Import Prelude PyStr Names PyVal JsonFacts Sorting HaltGuards Commands.
#[local] Open Scope nat_scope.

(** ** Mirroring the skills of a workspace: [skill_loader.py] *)

Definition _LIST_LIMIT : nat := 1000.
Definition _USER_SKILLS_SUBDIR : string := ".agents/skills".

Inductive kind := KFile | KDir | KLink.
(** The environment as the mirror reads it. *)
Record env := Env {
  working_dir : string; owner : option string;
  list_directory : string → nat → res (list (string * kind) * bool);
  read_file : string → res string
}.
Definition under (dir name : string) : string := dir +:+ "/" +:+ name.
Definition _list_dir (e : env) (path : string) : res (list (string * kind)) :=
  let! listed := list_directory e path _LIST_LIMIT in Ok listed.1.

(** A directory of the host, by name. *)
Inductive tree := File (data : string) | Dir (children : list (string * tree)).
Definition is_not_found (x : exc) : bool := match x with FileNotFoundError _ => true | _ => false end.

Section Mirror.
Context (e : env).
(** [_mirror_tree]: what it leaves of a directory, with the exception that ended it; the
    loop over the entries takes the mirror of a directory below as an argument. The fuel is
    the depth of the recursion. *)
Fixpoint mirror_entries (deeper : string → tree * option exc) (src : string) (entries : list (string * kind)) :
    list (string * tree) * option exc :=
  match entries with
  | [] => ([], None)
  | (name, KLink) :: rest => mirror_entries deeper src rest
  | (name, KDir) :: rest =>
      let '(t, x) := deeper (under src name) in
      match x with
      | Some x => if is_not_found x then let '(more, y) := mirror_entries deeper src rest in ((name, t) :: more, y)
                  else ([(name, t)], Some x)
      | None => let '(more, y) := mirror_entries deeper src rest in ((name, t) :: more, y)
      end
  | (name, KFile) :: rest =>
      match read_file e (under src name) with
      | Ok data => let '(more, y) := mirror_entries deeper src rest in ((name, File data) :: more, y)
      | Raise x => if is_not_found x then mirror_entries deeper src rest else ([], Some x)
      end
  end.
Fixpoint _mirror_tree (fuel : nat) (src : string) : tree * option exc :=
  match fuel with
  | O => (Dir [], Some (OtherError "RecursionError" "maximum recursion depth exceeded"))
  | S fuel =>
      match _list_dir e src with
      | Raise x => (Dir [], Some x)
      | Ok entries => let '(children, x) := mirror_entries (_mirror_tree fuel) src entries in (Dir children, x)
      end
  end.
(** [mirror_user_skills_to_host]: what is swapped in. *)
Definition mirror_user_skills_to_host (fuel : nat) : res tree :=
  let src_root := under (working_dir e) _USER_SKILLS_SUBDIR in
  match _list_dir e src_root with
  | Raise x => if is_not_found x then Ok (Dir []) else Raise x
  | Ok _ => match _mirror_tree fuel src_root with (t, None) => Ok t | (_, Some x) => Raise x end
  end.
End Mirror.

(** ** The catalog: [walk_skill_dirs] *)

Inductive body := Text (s : string) | Bytes (s : string).
Record skill := Skill {
  sk_name : string; description : string; metadata : pydict; instructions : string;
  references : list (string * body); assets : list (string * body); scripts : list (string * string)
}.
Definition catalog : Type := list (string * skill).

Section Catalog.
(** [load_skill_from_dir]. *)
Context (load_skill_from_dir : string → list (string * tree) → res skill).

Definition _load_one (name : string) (children : list (string * tree)) : option skill :=
  match load_skill_from_dir name children with Ok s => Some s | Raise _ => None end.
Definition skill_dir (child : string * tree) : option skill :=
  match child.2 with
  | File _ => None
  | Dir children => if dhas children "SKILL.md" || dhas children "skill.md" then _load_one child.1 children else None
  end.
Definition by_name (a b : string * tree) : bool := str_leb a.1 b.1.
Definition _walk_root (root : option tree) : catalog :=
  match root with
  | Some (Dir children) => dict_of (map (λ s, (sk_name s, s)) (omap skill_dir (sort_by by_name children)))
  | _ => []
  end.
Definition walk_skill_dirs (user_dir builtin_dir : option tree) : catalog := dict_of (_walk_root builtin_dir ++ _walk_root user_dir).

(** ** The bound catalog: [skill_reload.py] *)

Context `{RepeatedFailure.Sha256} (tempdir builtin_root : string) (builtin_skills : option tree).

Definition host_mirror_dir (e : env) : string :=
  let digest := stake 16 (RepeatedFailure.sha256_hex (default "" (owner e) +:+ s1 "000" +:+ working_dir e)) in
  tempdir +:+ "/lha-skills-mirror/" +:+ digest.

Record entry := Entry { en_name : string; en_description : string; en_source : string }.
Definition entry_json (x : entry) : pyval :=
  PDict [("name", PStr (en_name x)); ("description", PStr (en_description x)); ("source", PStr (en_source x))].

(** The module's variables ([_TOOLSET] is its [_skills]) and the mirrors on the host. *)
Record shelf := Shelf {
  _TOOLSET : option catalog; _USER_DIR : option string; _BUILTIN_DIR : option string;
  _mirror_cache : gmap string (string * catalog * list entry); mirrors : gmap string tree
}.
Definition dir_at (s : shelf) (dir : string) : option tree :=
  if (dir =? builtin_root)%string then builtin_skills else mirrors s !! dir.
Definition walk (s : shelf) (user builtin : string) : catalog := walk_skill_dirs (dir_at s user) (dir_at s builtin).

Definition entries_of (own : list string) (c : catalog) : list entry :=
  map (λ kv, Entry kv.1 (description kv.2) (if mem kv.1 own then "user" else "builtin")) c.
Definition bound_skill_catalog (s : shelf) : list entry :=
  match _TOOLSET s with
  | None => []
  | Some c =>
      let own := match _USER_DIR s with Some d => keys (walk_skill_dirs (dir_at s d) None) | None => [] end in
      entries_of own c
  end.
Definition bind_toolset (c : catalog) (user builtin : string) (s : shelf) : shelf :=
  Shelf (Some c) (Some user) (Some builtin) (_mirror_cache s) (mirrors s).
Definition unbind_toolset (s : shelf) : shelf := Shelf None None None ∅ (mirrors s).
Definition bound_skill_names (s : shelf) : list string := match _TOOLSET s with Some c => keys c | None => [] end.
Definition cached (k : string) (v : string * catalog * list entry) (s : shelf) : shelf :=
  Shelf (_TOOLSET s) (_USER_DIR s) (_BUILTIN_DIR s) (<[k := v]> (_mirror_cache s)) (mirrors s).
Definition swapped (dir : string) (t : tree) (s : shelf) : shelf :=
  Shelf (_TOOLSET s) (_USER_DIR s) (_BUILTIN_DIR s) (_mirror_cache s) (<[dir := t]> (mirrors s)).
Definition minus (a b : list string) : list string := List.filter (λ x, negb (mem x b)) a.

Definition refresh_skills (s : shelf) : option skill_diff * shelf :=
  match _TOOLSET s, _USER_DIR s, _BUILTIN_DIR s with
  | Some c, Some user, Some builtin =>
      let before := keys c in
      let refreshed := walk s user builtin in
      let after := keys refreshed in
      (Some (Diff (sort_by str_leb (minus after before)) (sort_by str_leb (minus before after)) (length after)),
       Shelf (Some refreshed) (_USER_DIR s) (_BUILTIN_DIR s) (_mirror_cache s) (mirrors s))
  | _, _, _ => (None, s)
  end.

(** [resync_and_refresh] up to its wait for the mirror, and after it: [dest] is the
    directory that was the user's when it began. *)
Definition resync_begin (active : option env) (s : shelf) : string + (option skill_diff * shelf) :=
  match active, _TOOLSET s, _USER_DIR s with
  | Some _, Some _, Some dest => inl dest
  | _, _, _ => inr (refresh_skills s)
  end.
Definition resync_end (dest : string) (mirrored : res tree) (s : shelf) : option skill_diff * shelf :=
  let s := match mirrored with Ok t => swapped dest t s | Raise _ => s end in
  let '(diff, s) := refresh_skills s in
  (diff, match _TOOLSET s, _USER_DIR s with
         | Some c, Some d => cached d (d, c, bound_skill_catalog s) s
         | _, _ => s
         end).

(** [bind_session_skills_callback], likewise: the mirror it waits for, or the shelf and the
    catalog it puts into the state. *)
Definition bind_begin (active : option env) (s : shelf) : string + (option (list entry) * shelf) :=
  match _TOOLSET s, active with
  | Some _, Some e =>
      let mirror_root := host_mirror_dir e in
      match _mirror_cache s !! mirror_root with
      | None => inl mirror_root
      | Some (user_dir, skills, cat) => inr (Some cat, bind_toolset skills user_dir builtin_root s)
      end
  | _, _ => inr (None, s)
  end.
Definition bind_end (mirror_root : string) (mirrored : res tree) (s : shelf) : option (list entry) * shelf :=
  match mirrored with
  | Raise _ => (None, s)
  | Ok t =>
      match _TOOLSET s with
      | None => (None, Shelf None (Some mirror_root) (Some builtin_root) (_mirror_cache s) (<[mirror_root := t]> (mirrors s)))
      | Some c =>
          let s := bind_toolset c mirror_root builtin_root (swapped mirror_root t s) in
          let s := bind_toolset (walk s mirror_root builtin_root) mirror_root builtin_root s in
          let cat := bound_skill_catalog s in
          (Some cat, cached mirror_root (mirror_root, walk s mirror_root builtin_root, cat) s)
      end
  end.
End Catalog.

(** ** Loading a skill: [skill_toolset.py] *)

Definition _SHORT_SKILLS_PREAMBLE : string :=
  NLs +:+ NLs +:+ "Skills below extend your capabilities via SKILL.md instructions " +:+
  "you load with load_skill before following them." +:+ NLs +:+ NLs.

(** The tools of ADK's toolset, and the one that replaces three of them. *)
Inductive toolset_tool := ListSkillsTool | AdkLoadSkillTool | LoadSkillResourceTool | RunSkillScriptTool | LoadSkillTool | OtherTool (name : string).
(** [build_skill_toolset]: the tools that stay of those ADK gives. *)
Definition build_skill_toolset (tools : list toolset_tool) : list toolset_tool :=
  List.filter (λ t, match t with OtherTool _ | LoadSkillTool => true | _ => false end) tools ++ [LoadSkillTool].

Definition problem (error code : string) : pydict := [("error", PStr error); ("error_code", PStr code)].
Definition counter_key (invocation_id : string) : string := "temp:_adk_skill_resource_not_found_count_" +:+ invocation_id.
Definition activated_key (agent_name : string) : string := "_adk_activated_skill_" +:+ agent_name.

Record tool_context := ToolContext { invocation_id : string; agent_name : string }.

(** The file a path names: [None] for a path under no root. *)
Definition resource_of (s : skill) (file_path : string) : option (option body) :=
  if startswith "references/" file_path then Some (dget (references s) (sdrop 11 file_path))
  else if startswith "assets/" file_path then Some (dget (assets s) (sdrop 7 file_path))
  else if startswith "scripts/" file_path then Some (Text <$> dget (scripts s) (sdrop 8 file_path))
  else None.
Definition _load_resource (s : skill) (skill_name file_path : string) (tc : tool_context) (state : pydict) : res pydict * pydict :=
  match resource_of s file_path with
  | None => (Ok (problem "Path must start with 'references/', 'assets/', or 'scripts/'." "INVALID_RESOURCE_PATH"), state)
  | Some None =>
      let key := counter_key (invocation_id tc) in
      match (let v := get state key in if truthy v then py_int v else Ok 0%Z) with
      | Raise x => (Raise x, state)
      | Ok n =>
          let fail_count := (n + 1)%Z in
          (Ok (if (1 <? fail_count)%Z
               then problem ("Resource '" +:+ file_path +:+ "' not found in skill '" +:+ skill_name +:+ "'. This is resource lookup failure #"
                             +:+ str_of_Z fail_count +:+ " this invocation. Do not retry any path " +:+ em_dash
                             +:+ " report the error to the user and stop.") "RESOURCE_NOT_FOUND_FATAL"
               else problem ("Resource '" +:+ file_path +:+ "' not found in skill '" +:+ skill_name +:+ "'.") "RESOURCE_NOT_FOUND"),
           dset state key (PInt fail_count))
      end
  | Some (Some (Bytes _)) =>
      (Ok ([("skill_name", PStr skill_name); ("resource", PStr file_path)]
           ++ problem ("'" +:+ file_path +:+ "' is a binary file; this tool returns text content only.") "BINARY_RESOURCE_UNSUPPORTED"), state)
  | Some (Some (Text t)) =>
      (Ok [("skill_name", PStr skill_name); ("resource", PStr file_path); ("content", PStr t)], state)
  end.

Section Load.
(** [_get_or_fetch_skill], [inject_session_state], [frontmatter.model_dump] and the reload
    of the commands. *)
Context (fetch : string → res (option skill)) (inject : string → pydict → res string) (dump : skill → pyval)
  (reload_skills : pydict → res pydict * pydict).

(** [list(state.get(key) or [])] of the names activated. *)
Definition activated (state : pydict) (key : string) : res (list pyval) :=
  match get state key with
  | PList l => Ok l
  | PStr s => Ok (map (λ c, PStr (s1 c)) (list_ascii_of_string s))
  | PDict d => Ok (map PStr (keys d))
  | v => if truthy v then Raise (TypeError "object is not iterable") else Ok []
  end.
Definition names_skill (n : string) (v : pyval) : bool := match v with PStr s => (s =? n)%string | _ => false end.
Definition activate (key skill_name : string) (state : pydict) : res pydict :=
  let! l := activated state key in
  Ok (if existsb (names_skill skill_name) l then state else dset state key (PList (l ++ [PStr skill_name]))).

(** [run_async]: the arguments are [action], [skill_name] and [resource]. *)
Definition run_async (action skill_name resource : option string) (tc : tool_context) (state : pydict) : res pydict * pydict :=
  let action := match filled_text action with Some a => a | None => "load" end in
  if (action =? "reload")%string then reload_skills state
  else if negb (action =? "load")%string
  then (Ok (problem ("Unknown action " +:+ repr_str action +:+ "; use 'load' or 'reload'.") "INVALID_ARGUMENTS"), state)
  else match filled_text skill_name with
  | None => (Ok (problem "Argument 'skill_name' is required." "INVALID_ARGUMENTS"), state)
  | Some n =>
      match fetch n with
      | Raise x => (Ok (problem ("Failed to fetch skill '" +:+ n +:+ "' from registry: " +:+ exc_text x) "REGISTRY_ERROR"), state)
      | Ok None => (Ok (problem ("Skill '" +:+ n +:+ "' not found.") "SKILL_NOT_FOUND"), state)
      | Ok (Some s) =>
          match filled_text resource with
          | Some file_path => _load_resource s n file_path tc state
          | None =>
              match activate (activated_key (agent_name tc)) n state with
              | Raise x => (Raise x, state)
              | Ok state =>
                  (let! text := if truthy (get (metadata s) "adk_inject_state") then inject (instructions s) state else Ok (instructions s) in
                   Ok [("skill_name", PStr n); ("instructions", PStr text); ("frontmatter", dump s)],
                   state)
              end
          end
      end
  end.
Definition _detect_error_in_response (response : pyval) : option pyval :=
  match response with
  | PDict d => if truthy (get d "error") then Some (let code := get d "error_code" in if truthy code then code else PStr "TOOL_ERROR")
               else None
  | _ => None
  end.
End Load.

(** The text from the first place a text is found at. *)
Fixpoint from_sub (sub s : string) : option string :=
  if startswith sub s then Some s else match s with "" => None | String _ s' => from_sub sub s' end.
(** [process_llm_request]: [super] is what ADK's toolset makes of the system instruction. *)
Definition process_llm_request (super : string → string) (before : string) : res string :=
  let after := super before in
  match from_sub "<available_skills>" (sdrop (slen before) after) with
  | None => Raise (RuntimeError "SkillToolset emitted no <available_skills> index")
  | Some index => Ok (before +:+ _SHORT_SKILLS_PREAMBLE +:+ index)
  end.

(** ** The reload of the commands: [reload] *)

Definition reload (entries : list entry) (diff : option skill_diff) (state : option pydict) : pydict * option pydict :=
  match diff with
  | None => ([("skills_refreshed", PBool false); ("reason", PStr "no skill toolset bound")], state)
  | Some d =>
      ([("skills_refreshed", PBool true); ("loaded", PList (map PStr (loaded d))); ("removed", PList (map PStr (removed d)));
        ("skills_total", PInt (Z.of_nat (skills_total d)))],
       (λ st, dset st BOUND_SKILLS_STATE_KEY (PList (map entry_json entries))) <$> state)
  end.

(** * Facts *)

(** ** The mirror *)

(** What there is to mirror; [SGone]: listed, and no longer there when it is read. *)
Inductive src := SFile (data : string) | SDir (children : list (string * src)) | SLink | SGone.
Definition kind_of (t : src) : kind := match t with SDir _ => KDir | SLink => KLink | SFile _ | SGone => KFile end.
(** The environment has it at a path, whole: no listing is cut. *)
Fixpoint serves (e : env) (path : string) (t : src) : Prop :=
  match t with
  | SFile data => read_file e path = Ok data
  | SGone => ∃ msg, read_file e path = Raise (FileNotFoundError msg)
  | SLink => True
  | SDir children =>
      list_directory e path _LIST_LIMIT = Ok (map (λ c, (c.1, kind_of c.2)) children, false) ∧
      foldr (λ c P, serves e (under path c.1) c.2 ∧ P) True children
  end.
Fixpoint depth (t : src) : nat :=
  match t with SDir children => S (foldr (λ c n, depth c.2 `max` n) 0 children) | _ => 0 end.
(** Without its links. *)
Fixpoint pruned (t : src) : option tree :=
  match t with
  | SFile data => Some (File data)
  | SDir children => Some (Dir (foldr (λ c l, match pruned c.2 with Some t => (c.1, t) :: l | None => l end) [] children))
  | SLink | SGone => None
  end.
Definition pruned_all (children : list (string * src)) : list (string * tree) :=
  foldr (λ c l, match pruned c.2 with Some t => (c.1, t) :: l | None => l end) [] children.
Lemma mirror_tree_spec e : ∀ fuel path children, depth (SDir children) ≤ fuel → serves e path (SDir children) →
  _mirror_tree e fuel path = (Dir (pruned_all children), None).
Proof.
  induction fuel as [|fuel IH]; intros path children Hd Hs; [cbn in Hd; lia|].
  cbn [_mirror_tree serves depth] in *. destruct Hs as [Hl Hs]. unfold _list_dir. rewrite Hl. cbn [res_bind fst].
  apply le_S_n in Hd. enough (mirror_entries e (_mirror_tree e fuel) path (map (λ c, (c.1, kind_of c.2)) children) =
    (pruned_all children, None)) as -> by done.
  clear Hl. induction children as [|[name t] children IHc]; [done|].
  cbn [map foldr fst snd] in *. destruct Hs as [Ht Hs]. specialize (IHc ltac:(lia) Hs). unfold pruned_all in *. cbn [foldr fst snd].
  destruct t as [data|sub| |]; cbn [kind_of mirror_entries pruned].
  - cbn in Ht. by rewrite Ht, IHc.
  - assert (depth (SDir sub) ≤ fuel) as Hsub by (cbn [depth] in *; lia). by rewrite (IH _ sub Hsub Ht), IHc.
  - done.
  - destruct Ht as [msg ->]. exact IHc.
Qed.

(** The mirror holds what the workspace has under its skills directory, but for links and
    for entries that vanish while it is read, which cost nothing else; without that
    directory it is empty. *)
Theorem mirror_faithful e fuel children : depth (SDir children) ≤ fuel →
  serves e (under (working_dir e) _USER_SKILLS_SUBDIR) (SDir children) →
  mirror_user_skills_to_host e fuel = Ok (Dir (pruned_all children)).
Proof.
  intros Hd Hs. unfold mirror_user_skills_to_host. rewrite (mirror_tree_spec e fuel _ children Hd Hs).
  destruct Hs as [Hl _]. unfold _list_dir. by rewrite Hl.
Qed.

(** ** The merged catalog *)

Lemma dget_fold {V} k (l : list (string * V)) : ∀ acc,
  dget (fold_left (λ d kv, dset d kv.1 kv.2) l acc) k = match last (List.filter (λ kv, (kv.1 =? k)%string) l) with Some kv => Some kv.2 | None => dget acc k end.
Proof.
  induction l as [|[k' v] l IH]; intros acc; [done|]. cbn [fold_left List.filter fst snd]. rewrite IH, dget_dset.
  destruct (String.eqb_spec k' k) as [->|Hne]; [|by rewrite decide_False].
  rewrite last_cons, decide_True by done. by destruct (last _).
Qed.
Lemma dget_dict_of {V} k (l : list (string * V)) :
  dget (dict_of l) k = snd <$> last (List.filter (λ kv, (kv.1 =? k)%string) l).
Proof. unfold dict_of. rewrite dget_fold. by destruct (last _). Qed.
Lemma dict_of_some {V} k (l : list (string * V)) v : dget (dict_of l) k = Some v → (k, v) ∈ l.
Proof.
  rewrite dget_dict_of. destruct (last _) as [[k' v']|] eqn:E; [|done]. cbn. intros [= ->].
  apply last_Some_elem_of, list_elem_of_In, filter_In in E as [Hin Hk%String.eqb_eq]. cbn in Hk. subst k'. by apply list_elem_of_In.
Qed.
Lemma dict_of_none {V} k (l : list (string * V)) : dget (dict_of l) k = None ↔ k ∉ keys l.
Proof.
  rewrite dget_dict_of. unfold keys. rewrite list_elem_of_fmap. destruct (last _) as [[k' v']|] eqn:E; cbn.
  - apply last_Some_elem_of, list_elem_of_In, filter_In in E as [Hin Hk%String.eqb_eq]. cbn in Hk. subst k'. split; [done|].
    intros []. exists (k, v'). by split; [|apply list_elem_of_In].
  - apply last_None in E. split; [|done]. intros _ ([k' v] & -> & Hin%list_elem_of_In).
    assert ((k', v) ∈ List.filter (λ kv : string * V, (kv.1 =? k')%string) l) as Hin'.
    { apply list_elem_of_In, filter_In. split; [done|]. apply String.eqb_refl. }
    cbn in E. rewrite E in Hin'. by apply elem_of_nil in Hin'.
Qed.
Lemma fold_keys_NoDup {V} (l : list (string * V)) : ∀ acc, NoDup (keys acc) → NoDup (keys (fold_left (λ d kv, dset d kv.1 kv.2) l acc)).
Proof. induction l as [|kv l IH]; intros acc Hacc; [done|]. apply IH. by apply NoDup_keys_dset. Qed.
Lemma dict_of_NoDup {V} (l : list (string * V)) : NoDup (keys (dict_of l)).
Proof. apply fold_keys_NoDup. constructor. Qed.
Lemma dget_app {V} (a b : list (string * V)) k : NoDup (keys a) → NoDup (keys b) →
  dget (dict_of (a ++ b)) k = match dget b k with Some v => Some v | None => dget a k end.
Proof.
  intros Ha Hb. unfold dict_of. rewrite fold_left_app. change (fold_left _ a []) with (dict_of a).
  rewrite JsonFacts.dict_of_distinct by done. rewrite dget_fold. rewrite <- (JsonFacts.dict_of_distinct b) at 2 by done.
  rewrite dget_dict_of. by destruct (last _).
Qed.

Section CatalogFacts.
Context (load : string → list (string * tree) → res skill).
(** A directory of a root that holds a skill. *)
Definition holds (root : option tree) (dir : string) (s : skill) : Prop :=
  ∃ children sub, root = Some (Dir children) ∧ (dir, Dir sub) ∈ children ∧
    (dhas sub "SKILL.md" = true ∨ dhas sub "skill.md" = true) ∧ load dir sub = Ok s.
Lemma skill_dir_holds children x s : x ∈ children → skill_dir load x = Some s ↔ holds (Some (Dir children)) x.1 s ∧ skill_dir load x = Some s.
Proof.
  intros Hx. split; [|by intros [_ ?]]. intros Hs. split; [|done]. destruct x as [dir [data|sub]]; [done|]. unfold skill_dir in Hs. cbn [fst snd] in *.
  destruct (dhas sub "SKILL.md" || dhas sub "skill.md") eqn:E; [|done]. apply orb_true_iff in E. unfold _load_one in Hs.
  destruct (load dir sub) as [s'|] eqn:El; [|done]. injection Hs as ->. by exists children, sub.
Qed.
Lemma walk_root_sound root n s : dget (_walk_root load root) n = Some s → sk_name s = n ∧ ∃ dir, holds root dir s.
Proof.
  destruct root as [[data|children]|]; [done| |done]. intros H%dict_of_some. apply list_elem_of_fmap in H as (s' & [= -> ->] & Hin).
  split; [done|]. apply list_elem_of_omap in Hin as (x & Hx & Hs). rewrite (sort_by_perm by_name) in Hx.
  exists x.1. by apply (skill_dir_holds _ _ _ Hx).
Qed.
Lemma walk_root_complete root dir s : holds root dir s → is_Some (dget (_walk_root load root) (sk_name s)).
Proof.
  intros (children & sub & -> & Hin & Hmd & Hl). unfold _walk_root. destruct (dget _ _) eqn:E; [by eexists|].
  exfalso. apply dict_of_none in E. apply E. unfold keys. rewrite map_map. apply list_elem_of_fmap. exists s. split; [done|].
  apply list_elem_of_omap. exists (dir, Dir sub). split; [by rewrite (sort_by_perm by_name)|]. unfold skill_dir. cbn [fst snd].
  assert (dhas sub "SKILL.md" || dhas sub "skill.md" = true) as -> by (apply orb_true_iff; tauto).
  unfold _load_one. by rewrite Hl.
Qed.
Lemma walk_root_NoDup root : NoDup (keys (_walk_root load root)).
Proof. destruct root as [[]|]; [constructor|apply dict_of_NoDup|constructor]. Qed.

(** The catalog: every skill that can be parsed, of either root, is in it under its name,
    whatever is wrong with others; a skill of the user hides the one of the package. *)
Theorem catalog_merges user builtin :
  NoDup (keys (walk_skill_dirs load user builtin)) ∧
  (∀ n, dget (walk_skill_dirs load user builtin) n =
     match dget (_walk_root load user) n with Some s => Some s | None => dget (_walk_root load builtin) n end) ∧
  (∀ n s, dget (walk_skill_dirs load user builtin) n = Some s → sk_name s = n ∧ ∃ dir, holds user dir s ∨ holds builtin dir s) ∧
  (∀ dir s, holds user dir s ∨ holds builtin dir s → is_Some (dget (walk_skill_dirs load user builtin) (sk_name s))) ∧
  (∀ dir s s', holds user dir s → dget (walk_skill_dirs load user builtin) (sk_name s) = Some s' → ∃ dir', holds user dir' s').
Proof.
  assert (∀ n, dget (walk_skill_dirs load user builtin) n =
     match dget (_walk_root load user) n with Some s => Some s | None => dget (_walk_root load builtin) n end) as Hget.
  { intros n. apply dget_app; apply walk_root_NoDup. }
  split_and!; [apply dict_of_NoDup|done| | |].
  - intros n s. rewrite Hget. destruct (dget (_walk_root load user) n) as [s'|] eqn:E.
    + intros [= ->]. destruct (walk_root_sound _ _ _ E) as (? & dir & ?). split; [done|]. exists dir. by left.
    + intros E'. destruct (walk_root_sound _ _ _ E') as (? & dir & ?). split; [done|]. exists dir. by right.
  - intros dir s [Hs|Hs]; apply walk_root_complete in Hs as [s' Hs]; rewrite Hget.
    + rewrite Hs. by eexists.
    + destruct (dget (_walk_root load user) _); [by eexists|]. rewrite Hs. by eexists.
  - intros dir s s' Hs. apply walk_root_complete in Hs as [s'' Hs]. rewrite Hget, Hs. intros [= <-].
    by destruct (walk_root_sound _ _ _ Hs) as [_ ?].
Qed.
End CatalogFacts.

(** ** One toolset for all users *)

Section Users.
Context (load : string → list (string * tree) → res skill) `{RepeatedFailure.Sha256} (tempdir builtin_root : string)
  (builtin_skills : option tree).
(** What the mirror of an environment may bring. *)
Context (had : env → tree → Prop).
Hypothesis builtin_apart : ∀ e, host_mirror_dir tempdir e ≠ builtin_root.

Inductive wait := Binding (e : env) | Resyncing (dest : string) (e : env).
Record world := World { shelf_of : shelf; waits : list wait }.
Definition brought (e : env) (m : res tree) : Prop := ∀ t, m = Ok t → had e t.
(** Turns that begin and reloads, each in two steps. A reload begins when the directory
    bound is the one of its own session. *)
Inductive step (w : world) : world → Prop :=
  | BindNow e r s : bind_begin tempdir builtin_root (Some e) (shelf_of w) = inr (r, s) → step w (World s (waits w))
  | BindWaits e k : bind_begin tempdir builtin_root (Some e) (shelf_of w) = inl k → step w (World (shelf_of w) (Binding e :: waits w))
  | BindEnds e l1 l2 m : waits w = l1 ++ Binding e :: l2 → brought e m →
      step w (World (bind_end load builtin_root builtin_skills (host_mirror_dir tempdir e) m (shelf_of w)).2 (l1 ++ l2))
  | ResyncNow e r s : resync_begin load builtin_root builtin_skills e (shelf_of w) = inr (r, s) → step w (World s (waits w))
  | ResyncWaits e : resync_begin load builtin_root builtin_skills (Some e) (shelf_of w) = inl (host_mirror_dir tempdir e) →
      step w (World (shelf_of w) (Resyncing (host_mirror_dir tempdir e) e :: waits w))
  | ResyncEnds dest e l1 l2 m : waits w = l1 ++ Resyncing dest e :: l2 → brought e m →
      step w (World (resync_end load builtin_root builtin_skills dest m (shelf_of w)).2 (l1 ++ l2)).

(** A tree of the user whose mirror a directory is. *)
Definition own (k : string) (t : tree) : Prop := ∃ e, host_mirror_dir tempdir e = k ∧ had e t.
Definition catalog_of (t : tree) : catalog := walk_skill_dirs load (Some t) builtin_skills.
Definition entries_for (t : tree) : list entry := entries_of (keys (walk_skill_dirs load (Some t) None)) (catalog_of t).

Definition mirrored (s : shelf) (k : string) : Prop := is_Some (mirrors s !! k).
Record apart (w : world) : Prop := {
  mirrors_own k t : mirrors (shelf_of w) !! k = Some t → own k t;
  cache_own k d c cat : _mirror_cache (shelf_of w) !! k = Some (d, c, cat) →
    d = k ∧ (∃ t, own k t ∧ c = catalog_of t ∧ cat = entries_for t) ∧ mirrored (shelf_of w) k;
  resync_own dest e : Resyncing dest e ∈ waits w →
    dest = host_mirror_dir tempdir e ∧ ∃ d, _USER_DIR (shelf_of w) = Some d ∧ mirrored (shelf_of w) d;
  bound d : _USER_DIR (shelf_of w) = Some d → mirrored (shelf_of w) d ∨ ∀ e, d ≠ host_mirror_dir tempdir e;
  builtin_bound : _BUILTIN_DIR (shelf_of w) = Some builtin_root
}.
Lemma dir_at_mirror s e : dir_at builtin_root builtin_skills s (host_mirror_dir tempdir e) = mirrors s !! host_mirror_dir tempdir e.
Proof. unfold dir_at. destruct (String.eqb_spec (host_mirror_dir tempdir e) builtin_root) as [E|]; [by destruct (builtin_apart e)|done]. Qed.
Lemma dir_at_builtin s : dir_at builtin_root builtin_skills s builtin_root = builtin_skills.
Proof. unfold dir_at. by rewrite String.eqb_refl. Qed.

(** What a turn finds: the catalog of its own user, in its state and in the toolset. *)
Definition shows (e : env) (cat : list entry) (s : shelf) : Prop :=
  ∃ t, own (host_mirror_dir tempdir e) t ∧ _TOOLSET s = Some (catalog_of t) ∧ cat = entries_for t ∧
    _USER_DIR s = Some (host_mirror_dir tempdir e).
Lemma bind_end_shows e m s cat s' : brought e m →
  bind_end load builtin_root builtin_skills (host_mirror_dir tempdir e) m s = (Some cat, s') → shows e cat s'.
Proof.
  intros Hm. unfold bind_end. destruct m as [t|]; [|done]. destruct (_TOOLSET s) as [c|]; [|done].
  unfold walk, bound_skill_catalog, swapped, bind_toolset, cached. cbn [_TOOLSET _USER_DIR mirrors].
  rewrite dir_at_builtin, !dir_at_mirror. cbn [mirrors]. rewrite lookup_insert_eq. intros [= <- <-].
  exists t. split_and!; [by exists e; split; [|apply Hm]|done..].
Qed.

Lemma mirrored_insert s dir t k : mirrored s k → mirrored (swapped dir t s) k.
Proof. unfold mirrored, swapped. cbn. intros Hk. destruct (decide (k = dir)) as [->|]; [rewrite lookup_insert_eq; by eexists|by rewrite lookup_insert_ne]. Qed.
(** A mirror of one of its users keeps everything apart. *)
Lemma swapped_apart s l e t : apart (World s l) → had e t → apart (World (swapped (host_mirror_dir tempdir e) t s) l).
Proof.
  intros [Hm Hc Hr Hb Hbi] Ht. split; cbn [shelf_of waits swapped mirrors _mirror_cache _USER_DIR _BUILTIN_DIR] in *.
  - intros k t'. destruct (decide (k = host_mirror_dir tempdir e)) as [->|Hne].
    + rewrite lookup_insert_eq. intros [= <-]. by exists e.
    + rewrite lookup_insert_ne by done. apply Hm.
  - intros k d c cat Hk. destruct (Hc _ _ _ _ Hk) as (? & ? & ?). split_and!; [done..|by apply mirrored_insert].
  - intros dest e' Hin. destruct (Hr _ _ Hin) as (? & d & ? & ?). split; [done|]. exists d. split; [done|by apply mirrored_insert].
  - intros d Hd. destruct (Hb d Hd); [left; by apply mirrored_insert|by right].
  - done.
Qed.
Lemma refresh_apart s l : apart (World s l) → apart (World (refresh_skills load builtin_root builtin_skills s).2 l).
Proof.
  intros Ha. unfold refresh_skills. destruct (_TOOLSET s); [|done]. destruct (_USER_DIR s) eqn:Eu; [|done].
  destruct (_BUILTIN_DIR s) eqn:Eb; [|done]. destruct Ha as [Hm Hc Hr Hb Hbi].
  split; cbn [shelf_of waits mirrors _mirror_cache _USER_DIR _BUILTIN_DIR snd] in *; rewrite ?Eu, ?Eb in *; done.
Qed.
Lemma waits_less s l1 x l2 : apart (World s (l1 ++ x :: l2)) → apart (World s (l1 ++ l2)).
Proof. intros [Hm Hc Hr Hb Hbi]. split; [done..| |done|done]. intros dest e Hin. apply Hr. cbn in *. set_solver. Qed.
Lemma cached_apart s l k t : apart (World s l) → own k t → mirrored s k → apart (World (cached k (k, catalog_of t, entries_for t) s) l).
Proof.
  intros [Hm Hc Hr Hb Hbi] Ho Hk. split; cbn [shelf_of waits cached mirrors _mirror_cache _USER_DIR _BUILTIN_DIR] in *; try done.
  intros k' d c cat. destruct (decide (k' = k)) as [->|Hne].
  - rewrite lookup_insert_eq. intros [= <- <- <-]. split_and!; [done| |done]. by exists t.
  - rewrite lookup_insert_ne by done. apply Hc.
Qed.
Lemma bound_apart s l c k : apart (World s l) → mirrored s k → apart (World (bind_toolset c k builtin_root s) l).
Proof.
  intros [Hm Hc Hr Hb Hbi] Hk. split; cbn [shelf_of waits bind_toolset mirrors _mirror_cache _USER_DIR _BUILTIN_DIR] in *; try done.
  - intros dest e Hin. destruct (Hr _ _ Hin) as [? _]. split; [done|]. by exists k.
  - intros d [= <-]. by left.
Qed.

Lemma bind_end_apart s l e m : apart (World s l) → brought e m →
  apart (World (bind_end load builtin_root builtin_skills (host_mirror_dir tempdir e) m s).2 l).
Proof.
  intros Ha Hm. unfold bind_end. destruct m as [t|]; [|done]. pose proof (Hm t eq_refl) as Ht.
  pose proof (swapped_apart _ _ _ _ Ha Ht) as Hs. assert (∀ s', dir_at builtin_root builtin_skills s' (host_mirror_dir tempdir e) = mirrors s' !! host_mirror_dir tempdir e) as Hdir
    by (intros; apply dir_at_mirror).
  set (k := host_mirror_dir tempdir e) in *.
  assert (mirrored (swapped k t s) k) as Hk by (unfold mirrored; cbn; rewrite lookup_insert_eq; by eexists).
  destruct (_TOOLSET s) as [c|] eqn:Ec.
  + cbn [snd].
    assert (walk load builtin_root builtin_skills (bind_toolset c k builtin_root (swapped k t s)) k builtin_root = catalog_of t) as Hw1.
    { unfold walk. rewrite dir_at_builtin, Hdir. cbn. by rewrite lookup_insert_eq. }
    rewrite !Hw1.
    assert (bound_skill_catalog load builtin_root builtin_skills (bind_toolset (catalog_of t) k builtin_root (bind_toolset c k builtin_root (swapped k t s))) = entries_for t) as ->.
    { unfold bound_skill_catalog. cbn [_TOOLSET _USER_DIR bind_toolset]. rewrite Hdir. cbn. by rewrite lookup_insert_eq. }
    assert (walk load builtin_root builtin_skills (bind_toolset (catalog_of t) k builtin_root (bind_toolset c k builtin_root (swapped k t s))) k builtin_root = catalog_of t) as ->.
    { unfold walk. rewrite dir_at_builtin, Hdir. cbn. by rewrite lookup_insert_eq. }
    apply cached_apart; [by repeat apply bound_apart|by exists e|done].
  + cbn [snd]. pose proof (bound_apart _ _ [] _ Hs Hk) as [H1 H2 H3 H4 H5]. by split.
Qed.
Lemma resync_end_apart s l d e m : apart (World s l) → brought e m → _USER_DIR s = Some d → mirrored s d →
  apart (World (resync_end load builtin_root builtin_skills (host_mirror_dir tempdir e) m s).2 l).
Proof.
  intros Ha Hm Hd Hmd. unfold resync_end.
  set (s1 := match m with Ok t => swapped (host_mirror_dir tempdir e) t s | Raise _ => s end).
  assert (apart (World s1 l) ∧ _USER_DIR s1 = Some d ∧ mirrored s1 d) as (Ha1 & Hd1 & Hm1).
  { unfold s1. destruct m as [t|]; [|done]. split_and!; [|done|by apply mirrored_insert]. by apply swapped_apart; [|apply Hm]. }
  clearbody s1. clear Hd Hmd Ha. pose proof (refresh_apart _ _ Ha1) as Ha2.
  destruct Hm1 as [t Ht]. pose proof (mirrors_own _ Ha1 _ _ Ht) as (e' & <- & Hhad). pose proof (builtin_bound _ Ha1) as Hbi.
  unfold refresh_skills in *. cbn [shelf_of] in Hbi. rewrite Hd1, Hbi in *.
  destruct (_TOOLSET s1) as [c|] eqn:Ec; [|cbn [snd]; by rewrite Ec].
  cbn [snd _TOOLSET _USER_DIR] in *.
  set (s2 := Shelf _ _ _ _ _) in *.
  assert (walk load builtin_root builtin_skills s1 (host_mirror_dir tempdir e') builtin_root = catalog_of t) as Hw2.
  { unfold walk. by rewrite dir_at_builtin, dir_at_mirror, Ht. }
  assert (bound_skill_catalog load builtin_root builtin_skills s2 = entries_for t) as ->.
  { unfold bound_skill_catalog, s2. cbn [_TOOLSET _USER_DIR]. rewrite dir_at_mirror, Hw2. cbn [mirrors]. by rewrite Ht. }
  rewrite Hw2. apply cached_apart; [done|by exists e'|by exists t].
Qed.

Lemma step_apart w w' : apart w → step w w' → apart w'.
Proof.
  intros Ha Hstep. destruct w as [s l], Hstep as [e r s' Hb|e k Hb|e l1 l2 m Hw Hm|e r s' Hr|e Hr|dest e l1 l2 m Hw Hm]; cbn [shelf_of waits] in *.
  - unfold bind_begin in Hb. destruct (_TOOLSET s); [|by injection Hb as _ <-].
    destruct (_mirror_cache s !! _) as [[[d c'] cat]|] eqn:Ec; [|done]. injection Hb as _ <-.
    destruct (cache_own _ Ha _ _ _ _ Ec) as (-> & _ & Hk). by apply bound_apart.
  - destruct Ha as [H1 H2 H3 H4 H5]. split; [done..| |done|done]. intros dest e' Hin. cbn in *.
    apply elem_of_cons in Hin as [|Hin]; [done|]. by apply H3.
  - subst l. apply waits_less in Ha. by apply bind_end_apart.
  - unfold resync_begin in Hr. pose proof (refresh_apart _ _ Ha) as Hf.
    destruct (refresh_skills load builtin_root builtin_skills s) as [r1 s1]. cbn [snd] in Hf.
    destruct e, (_TOOLSET s), (_USER_DIR s); try done; by injection Hr as _ <-.
  - unfold resync_begin in Hr. destruct (_TOOLSET s); [|done]. destruct (_USER_DIR s) as [d|] eqn:Eu; [|done]. injection Hr as ->.
    pose proof Ha as [H1 H2 H3 H4 H5]. split; [done..| |done|done]. intros dest e' Hin. cbn in *.
    apply elem_of_cons in Hin as [[= -> ->]|Hin]; [|by apply H3]. split; [done|].
    eexists. split; [exact Eu|]. destruct (H4 _ Eu) as [|Hno]; [done|]. by destruct (Hno e).
  - subst l. destruct (resync_own _ Ha dest e ltac:(cbn; set_solver)) as (-> & d & Hd & Hmd). apply waits_less in Ha.
    by eapply resync_end_apart.
Qed.

End Users.

(** ** When mirroring fails *)

(** A mirror that cannot be read changes nothing of what is served: a turn leaves the shelf
    as it was, and a reload is one of the mirror there was before. *)
Theorem failed_mirror_keeps load builtin_root builtin_skills root x s :
  bind_end load builtin_root builtin_skills root (Raise x) s = (None, s) ∧
  (∀ dest, mirrors (resync_end load builtin_root builtin_skills dest (Raise x) s).2 = mirrors s ∧
     (resync_end load builtin_root builtin_skills dest (Raise x) s).1 = (refresh_skills load builtin_root builtin_skills s).1 ∧
     (∀ c user, _TOOLSET s = Some c → _USER_DIR s = Some user → _BUILTIN_DIR s = Some builtin_root →
        _TOOLSET (resync_end load builtin_root builtin_skills dest (Raise x) s).2
          = Some (walk_skill_dirs load (dir_at builtin_root builtin_skills s user) builtin_skills))) ∧
  ∀ diff s', refresh_skills load builtin_root builtin_skills s = (Some diff, s') → ∃ c c', _TOOLSET s = Some c ∧ _TOOLSET s' = Some c' ∧
    skills_total diff = length c' ∧ (∀ n, n ∈ loaded diff ↔ n ∈ keys c' ∧ n ∉ keys c) ∧ (∀ n, n ∈ removed diff ↔ n ∈ keys c ∧ n ∉ keys c').
Proof.
  assert (∀ a b n, n ∈ sort_by str_leb (minus a b) ↔ n ∈ a ∧ n ∉ b) as Hminus.
  { intros a b n. rewrite (sort_by_perm str_leb). unfold minus. rewrite list_elem_of_In, filter_In, <- list_elem_of_In, negb_true_iff. by rewrite mem_false. }
  split_and!; [done| |].
  - intros dest. unfold resync_end. destruct (refresh_skills load builtin_root builtin_skills s) as [d s1] eqn:Er.
    unfold refresh_skills in Er. split_and!.
    + destruct (_TOOLSET s), (_USER_DIR s), (_BUILTIN_DIR s); injection Er as <- <-; cbn [snd]; by repeat case_match.
    + by repeat case_match.
    + intros c user Hc Hu Hb. rewrite Hc, Hu, Hb in Er. injection Er as <- <-. cbn [_TOOLSET _USER_DIR snd cached].
      unfold walk. by rewrite dir_at_builtin.
  - intros diff s'. unfold refresh_skills. destruct (_TOOLSET s) as [c|], (_USER_DIR s), (_BUILTIN_DIR s); try done.
    intros [= <- <-]. eexists c, _. split_and!; [done|done| | |]; cbn [skills_total loaded removed]; [by unfold keys; rewrite length_map|..]; intros n; apply Hminus.
Qed.

(** ** Loading *)

(** Nothing of the instruction that was there before is lost: the short text and the index
    of ADK follow it, and without an index the turn fails. *)
Theorem prefix_kept super before d : super before = before +:+ d →
  match process_llm_request super before with
  | Ok after => ∃ tutorial index, d = tutorial +:+ index ∧ startswith "<available_skills>" index = true ∧
      after = before +:+ _SHORT_SKILLS_PREAMBLE +:+ index ∧
      ∀ t i, d = t +:+ i → startswith "<available_skills>" i = true → slen tutorial ≤ slen t
  | Raise _ => contains "<available_skills>" d = false
  end.
Proof.
  intros Hs. unfold process_llm_request. rewrite Hs, sdrop_app. set (sub := "<available_skills>").
  assert (sub ≠ "") as Hne by done. clearbody sub. clear Hs super.
  assert (match from_sub sub d with
          | Some index => ∃ tutorial, d = tutorial +:+ index ∧ startswith sub index = true ∧
              ∀ t i, d = t +:+ i → startswith sub i = true → slen tutorial ≤ slen t
          | None => contains sub d = false end) as H.
  { induction d as [|c d IH].
    - cbn. destruct sub; [done|]. done.
    - cbn [from_sub contains]. destruct (startswith sub (String c d)) eqn:E; [exists ""; split_and!; [done..|intros; cbn; lia]|].
      destruct (from_sub sub d) as [index|]; [|done]. destruct IH as (tut & -> & Hi & Hmin). exists (String c tut).
      split_and!; [done..|]. intros [|c' t] i Hd Hi'; [cbn in Hd; subst i; congruence|]. injection Hd as _ Hd.
      specialize (Hmin _ _ Hd Hi'). cbn. change (slen (String c tut)) with (S (slen tut)). change (slen (String c' t)) with (S (slen t)). lia. }
  destruct (from_sub sub d) as [index|]; [|done]. destruct H as (tut & -> & Hi & Hmin). by exists tut, index.
Qed.

Section LoadFacts.
Context (fetch : string → res (option skill)) (inject : string → pydict → res string) (dump : skill → pyval)
  (reload_skills : pydict → res pydict * pydict) (tc : tool_context).
Definition load_skill (skill_name resource : option string) (state : pydict) : res pydict * pydict :=
  run_async fetch inject dump reload_skills None skill_name resource tc state.

(** What loading changes: an activated skill is noted once, a file that is not there is
    counted, and from the second such failure of an invocation on the answer says to stop;
    nothing else of the state changes, and a skill that is not there changes nothing. *)
Theorem load_skill_effect n resource state r state' : load_skill (Some n) resource state = (r, state') → n ≠ "" →
  match fetch n, filled_text resource with
  | Ok (Some s), None => ∀ l, activated state (activated_key (agent_name tc)) = Ok l →
      let l' := if existsb (names_skill n) l then l else l ++ [PStr n] in
      activated state' (activated_key (agent_name tc)) = Ok l' ∧ existsb (names_skill n) l' = true ∧
      ∀ k, k ≠ activated_key (agent_name tc) → get state' k = get state k
  | Ok (Some s), Some path =>
      match resource_of s path with
      | Some None => ∀ k, get state (counter_key (invocation_id tc)) = PInt k → (0 ≤ k)%Z →
        state' = dset state (counter_key (invocation_id tc)) (PInt (k + 1)) ∧
        ∃ e, r = Ok (problem e (if decide (k = 0)%Z then "RESOURCE_NOT_FOUND" else "RESOURCE_NOT_FOUND_FATAL"))
      | _ => state' = state
      end
  | _, _ => state' = state ∧ ∃ e c, r = Ok (problem e c)
  end.
Proof.
  intros Hrun Hne. unfold load_skill, run_async in Hrun. cbn [filled_text] in Hrun. revert Hrun.
  change (("load" =? "reload")%string) with false. change (negb ("load" =? "load")%string) with false.
  destruct (String.eqb_spec n "") as [|_]; [done|]. destruct (fetch n) as [[s|]|x]; [|by intros [= <- <-]; eauto..].
  destruct (filled_text resource) as [path|].
  - unfold _load_resource. destruct (resource_of s path) as [[[t|t]|]|]; [by intros [= _ <-]..| |by intros [= _ <-]].
    + intros Hrun k Hk Hpos. rewrite Hk in Hrun. revert Hrun.
      assert ((if truthy (PInt k) then py_int (PInt k) else Ok 0%Z) = Ok k) as -> by (cbn; by destruct (Z.eqb_spec k 0) as [->|]).
      intros [= <- <-]. split; [done|]. destruct (decide (k = 0)%Z) as [->|Hk0]; [by eexists|].
      destruct (Z.ltb_spec 1 (k + 1)); [by eexists|lia].
  - unfold activate. intros Hrun l Hl. rewrite Hl in Hrun. cbn [res_bind] in Hrun. injection Hrun as _ <-.
    destruct (existsb (names_skill n) l) eqn:E; [done|]. unfold activated, get at 1. rewrite dget_dset_eq. split_and!; [done| |].
    + rewrite existsb_app. cbn. by rewrite String.eqb_refl, E.
    + intros k Hk. unfold get. by rewrite dget_dset_ne.
Qed.
End LoadFacts.

(** ** Witnesses *)

Module Sample.
#[export] Instance plain_hash : RepeatedFailure.Sha256 := λ s, s.
Definition parse (dir : string) (children : list (string * tree)) : res skill :=
  match dget children "SKILL.md" with
  | Some (File d) => if startswith "---" d then Ok (Skill dir d [] d [] [] []) else Raise (ValueError "no frontmatter")
  | _ => Raise (ValueError "no SKILL.md")
  end.
(** An environment with one skill in its workspace, a link, and a file that vanishes. *)
Definition box (who skill_name : string) : env :=
  let root := "/workspace/.agents/skills" in
  Env "/workspace" (Some who)
    (λ path _, if (path =? root)%string then Ok ([(skill_name, KDir); ("link", KLink); ("gone", KFile)], false)
               else if (path =? root +:+ "/" +:+ skill_name)%string then Ok ([("SKILL.md", KFile)], false)
               else Raise (FileNotFoundError path))
    (λ path, if (path =? root +:+ "/" +:+ skill_name +:+ "/SKILL.md")%string then Ok ("--- " +:+ skill_name) else Raise (FileNotFoundError path)).
Definition skill_src (skill_name : string) : list (string * src) :=
  [(skill_name, SDir [("SKILL.md", SFile ("--- " +:+ skill_name))]); ("link", SLink); ("gone", SGone)].
Definition skill_tree (skill_name : string) : tree := Dir [(skill_name, Dir [("SKILL.md", File ("--- " +:+ skill_name))])].
Definition package : option tree := Some (Dir [("pdf", Dir [("SKILL.md", File "--- pdf")]); ("bad", Dir [("skill.md", File "")])]).
Definition boot : shelf := Shelf (Some (walk_skill_dirs parse None package)) (Some "/app/_unbound_user_skills") (Some "/app/builtin_skills") ∅ ∅.
Definition dir_of (e : env) : string := host_mirror_dir "/tmp" e.
Definition ann : env := box "ann" "taxes".
Definition bob : env := box "bob" "chess".
(** A turn from its begin to its end. *)
Definition turn (e : env) (s : shelf) : option (list entry) * shelf :=
  match bind_begin "/tmp" "/app/builtin_skills" (Some e) s with
  | inl k => bind_end parse "/app/builtin_skills" package k (mirror_user_skills_to_host e 9) s
  | inr r => r
  end.
Definition reload_by (e : env) (s : shelf) : option skill_diff * shelf :=
  match resync_begin parse "/app/builtin_skills" package (Some e) s with
  | inl dest => resync_end parse "/app/builtin_skills" package dest (mirror_user_skills_to_host e 9) s
  | inr r => r
  end.
Definition names_of (r : option (list entry) * shelf) : list (string * string) := map (λ x, (en_name x, en_source x)) (default [] r.1).
Definition had (e : env) (t : tree) : Prop := e = ann ∧ t = skill_tree "taxes".
Lemma boot_apart e : dir_of e ≠ "/app/builtin_skills" ∧ dir_of e ≠ "/app/_unbound_user_skills".
Proof. done. Qed.
End Sample.
Import Sample.

Lemma mirror_faithful_witness : mirror_user_skills_to_host ann 9 = Ok (skill_tree "taxes").
Proof.
  apply (mirror_faithful ann 9 (skill_src "taxes")); [cbn; lia|]. split; [by vm_compute|]. cbn [foldr skill_src fst snd]. split_and!; [|done|by eexists|done].
  split; [by vm_compute|]. cbn [foldr fst snd]. split; [by vm_compute|done].
Defined.
Definition ann_bound : shelf := (turn ann boot).2.
Definition sample_delta : string := " <skills tutorial> <available_skills>a</available_skills>".
Lemma prefix_kept_witness : process_llm_request (λ s, s +:+ sample_delta) "You are an agent." =
    Ok ("You are an agent." +:+ _SHORT_SKILLS_PREAMBLE +:+ "<available_skills>a</available_skills>") ∧
  ∃ tutorial index, sample_delta = tutorial +:+ index ∧ startswith "<available_skills>" index = true.
Proof.
  assert (process_llm_request (λ s, s +:+ sample_delta) "You are an agent." =
    Ok ("You are an agent." +:+ _SHORT_SKILLS_PREAMBLE +:+ "<available_skills>a</available_skills>")) as E by by vm_compute.
  split; [exact E|]. pose proof (prefix_kept (λ s, s +:+ sample_delta) "You are an agent." sample_delta eq_refl) as H.
  rewrite E in H. destruct H as (tutorial & index & H1 & H2 & _). by exists tutorial, index.
Defined.
Lemma load_skill_effect_witness : ∃ s', activated s' "_adk_activated_skill_lha" = Ok [PStr "pdf"] ∧ get s' "x" = PNone.
Proof.
  pose (fetch := λ n : string, Ok (Some (Skill n "" [] "do" [] [] []))).
  exists (load_skill fetch (λ t _, Ok t) (λ _, PNone) (λ st, (Ok [], st)) (ToolContext "i" "lha") (Some "pdf") None []).2.
  destruct (load_skill_effect fetch (λ t _, Ok t) (λ _, PNone) (λ st, (Ok [], st)) (ToolContext "i" "lha") "pdf" None [] _ _
    (surjective_pairing _) ltac:(done) [] eq_refl) as (H1 & _ & H3).
  split; [exact H1|]. rewrite H3; [done|]. done.
Defined.

(** Two users, one process: a reload in a session that was not bound last mirrors its
    workspace over the skills of the other user, whose next turns get them. *)
Definition crossed : shelf := (reload_by ann (turn bob (turn ann boot).2).2).2.
Example reload_crosses_users :
  names_of (turn bob (turn ann boot).2) = [("pdf", "builtin"); ("chess", "user")] ∧
  names_of (turn bob crossed) = [("pdf", "builtin"); ("taxes", "user")].
Proof. by vm_compute. Qed.
(** While a turn goes on, the turn of another user changes the skills it can load. *)
Example toolset_is_shared : bound_skill_names (turn ann boot).2 = ["pdf"; "taxes"] ∧
  bound_skill_names (turn bob (turn ann boot).2).2 = ["pdf"; "chess"].
Proof. by vm_compute. Qed.
