(* ===== verification/ReadTool.v ===== *)
(** * The read tool: [tools/read.py]

    Text goes to [read_file] of FileOps.v; media is saved as an artifact, noted in the
    session state, and put into the request of the next turn. The tables of [mimetypes], the
    bytes of a file and the artifact service are arguments. *)

From S2P Require Import Prelude PyStr Names PyVal Sorting Overlay PermissionRules OutputOverflow WorkspaceWindow Environ Models FileOps.
#[local] Open Scope Z_scope.

Definition _PENDING_STATE_KEY : string := "_pending_media_reads".

Definition _MEDIA_MIME_ALLOWLIST : list string :=
  ["image/png"; "image/jpeg"; "image/webp"; "image/heic"; "image/heif"; "image/gif"; "image/bmp"; "image/tiff";
   "audio/mpeg"; "audio/wav"; "audio/x-wav"; "audio/ogg"; "audio/flac"; "audio/x-flac"; "audio/aac"; "audio/x-aac";
   "audio/mp4"; "audio/x-m4a"; "audio/opus"; "video/mp4"; "video/quicktime"; "video/x-msvideo"; "video/x-matroska";
   "video/webm"; "video/x-ms-wmv"; "video/x-flv"; "video/mpeg"; "application/pdf"].

(** [types.Blob], and a part with one. *)
Record blob := Blob { data : string; mime_type : string; display_name : string }.

(** The artifact service of a session: versions of a file name. *)
Class Artifacts (A : Type) := {
  save_artifact : A → string → blob → res Z * A;
  load_artifact : A → pyval → pyval → res (option blob)
}.

(** The context of a tool call. *)
Record context A := Context_ { state : pydict; artifact_delta : list (string * Z); store : A }.
Arguments Context_ {A}. Arguments state {A}. Arguments artifact_delta {A}. Arguments store {A}.

Inductive reply :=
| Refused (error : string)
| TextReply (r : read_reply)
| MediaReply (d : pydict).

(** [f"{q:.0f}"] of a quotient of integers: to the nearest, halves to the even one. *)
Definition round_even (n d : Z) : Z :=
  let k := n / d in
  let twice := 2 * (n mod d) in
  if twice <? d then k else if d <? twice then k + 1 else if Z.even k then k else k + 1.

(** [list(v)] *)
Definition list_of (v : pyval) : res (list pyval) :=
  match v with
  | PList l => Ok l
  | PStr s => Ok (map (λ c, PStr (s1 c)) (list_ascii_of_string s))
  | PDict d => Ok (map PStr (keys d))
  | _ => Raise (TypeError "object is not iterable")
  end.

Section Read.
Context `{PyFloat} `{Resolve} {A : Type} `{Artifacts A} (guess_type : string → option string).

(** [file_ops.guess_mime] and [guess_mime_from_bytes]. *)
Definition guess_mime (name : string) : string :=
  match guess_type name with Some m => if (m =? "")%string then "application/octet-stream" else m | None => "application/octet-stream" end.
Definition guess_mime_from_bytes (name bytes : string) : string :=
  match sniff_image_or_pdf_mime (bytes_of bytes) with Some m => m | None => guess_mime name end.
Definition _default_as_media (path : string) : bool := mem (guess_mime path) _MEDIA_MIME_ALLOWLIST.

Context (environ : environment_vars) (h : host) (e : env) (read_bytes : string → res string).

Definition media_error (path : string) (x : exc) : option string :=
  match x with
  | FileNotFoundError _ => Some ("File not found: " +:+ path)
  | OSError m => Some ("Failed to read " +:+ path +:+ ": " +:+ m)
  | OtherError "IsADirectoryError" m => Some ("Failed to read " +:+ path +:+ ": " +:+ m)
  | _ => None
  end.

Definition label_of (target : string) : string :=
  let root := resolve (working_dir e) in
  let resolved := resolve target in
  if is_under root resolved
  then match relative_parts root resolved with [] => "." | ps => join "/" ps end
  else path_name target.

Definition too_large (caps : ModelCapabilities) (mime : string) (size : Z) : option Z :=
  match max_image_bytes caps with
  | Some cap => if startswith "image/" mime && (cap <? b64_len size) then Some cap else None
  | None => None
  end.

Definition _read_as_media (target path : string) (c : context A) : res reply * context A :=
  match read_bytes target with
  | Raise x => (match media_error path x with Some m => Ok (Refused m) | None => Raise x end, c)
  | Ok bytes =>
      let filename := path_name target in
      let mime := guess_mime_from_bytes filename bytes in
      let size := Z.of_nat (slen bytes) in
      match save_artifact (store c) filename (Blob bytes mime filename) with
      | (Raise x, s) => (Raise x, Context_ (state c) (artifact_delta c) s)
      | (Ok version, s) =>
          let c := Context_ (state c) (dset (artifact_delta c) filename version) s in
          let result := [("success", PBool true); ("filename", PStr filename); ("mime_type", PStr mime); ("size_bytes", PInt size)] in
          match _resolve environ (Some (state c)) with
          | Raise x => (Raise x, c)
          | Ok model_name =>
              let caps := model_capabilities (Some model_name) in
              if negb (can_view_mime caps (Some mime))
              then (Ok (MediaReply (result ++ [("model_can_view", PBool false);
                      ("note", PStr ("Surfaced to the UI but NOT loaded into your context: the active model (" +:+ model_name +:+
                         ") cannot view " +:+ mime +:+ ". Re-reading this path will not help " +:+ em_dash +:+ " routing is " +:+
                         "extension-based, not model-based, so it always retries the same media path. Tell the user you can't view this file " +:+
                         "type with the current model."))])), c)
              else match too_large caps mime size with
              | Some cap =>
                  let cap_mb := str_of_Z (round_even cap (1024 * 1024)) in
                  (Ok (MediaReply (result ++ [("too_large", PBool true);
                      ("note", PStr ("Surfaced to the UI but NOT loaded into your context: this image is " +:+ str_of_Z size +:+
                         " bytes, over the active model's " +:+ cap_mb +:+ " MB per-image limit. Resize or compress it under " +:+ cap_mb +:+
                         " MB, then read it again."))])), c)
              | None =>
                  match list_of (default (PList []) (dget (state c) _PENDING_STATE_KEY)) with
                  | Raise x => (Raise x, c)
                  | Ok pending =>
                      let staged := PDict [("filename", PStr filename); ("version", PInt version); ("label", PStr (label_of target))] in
                      (Ok (MediaReply result),
                       Context_ (dset (state c) _PENDING_STATE_KEY (PList (pending ++ [staged]))) (artifact_delta c) (store c))
                  end
              end
          end
      end
  end.

(** [args.get(k) or n] *)
Definition or_else (v : option Z) (n : Z) : Z := match v with Some v => if v =? 0 then n else v | None => n end.
(** [run_async]; [fresh] names a file for what is too long. *)
Definition run_async (path : option string) (offset limit : option Z) (fresh : string) (f : fs) (c : context A) : res reply * context A :=
  match path with
  | None | Some "" => (Ok (Refused "missing required arg 'path'"), c)
  | Some path =>
      match _resolve_in_session_window path e (Some (state c)) with
      | Raise x => (Raise x, c)
      | Ok (Raise x) => (Ok (Refused (exc_text x)), c)
      | Ok (Ok target) =>
          if _is_write_denied h target then (Ok (Refused ("Read denied: " +:+ path +:+ " is on the protected paths list.")), c)
          else match entry h target with
          | Some IsDir => (Ok (Refused ("Path is a directory, not a file: " +:+ path)), c)
          | Some IsOther => (Ok (Refused ("Not a regular file: " +:+ path)), c)
          | _ =>
              if _default_as_media target then _read_as_media target path c
              else if _has_binary_extension target then (Ok (Refused ("Cannot read binary file: " +:+ path)), c)
              else (let! r := read_file h path fresh (or_else offset 1) (or_else limit 500) f e (Some (state c)) in Ok (TextReply r), c)
          end
      end
  end.

(** ** The next request *)

(** A content of the user: a line of text, and the file. *)
Record injected := Injected { heading : string; file : blob }.
(** What an entry names; [None]: it is passed over. *)
Definition entry_of (v : pyval) : option (pyval * pyval * pyval) :=
  match v with
  | PDict d =>
      let fn := get d "filename" in
      let lbl := get d "label" in
      if truthy fn then Some (fn, get d "version", if truthy lbl then lbl else fn) else None
  | PStr s => if (s =? "")%string then None else Some (PStr s, PNone, PStr s)
  | _ => None
  end.
Fixpoint load_all (s : A) (pending : list pyval) : res (list injected) :=
  match pending with
  | [] => Ok []
  | v :: rest =>
      match entry_of v with
      | None => load_all s rest
      | Some (fn, ver, lbl) =>
          match load_artifact s fn ver with
          | Raise x => Raise x
          | Ok part =>
              let! more := load_all s rest in
              Ok (match part with Some b => Injected ("Contents of " +:+ py_str lbl +:+ ":") b :: more | None => more end)
          end
      end
  end.
(** [process_llm_request]: what is appended to the contents. A failure to load ends it; what
    was appended before it does not count, since the request is not sent. *)
Definition process_llm_request (c : context A) : res (list injected) * context A :=
  let pending := get (state c) _PENDING_STATE_KEY in
  if negb (truthy pending) then (Ok [], c)
  else
    (let! l := list_of pending in load_all (store c) l,
     Context_ (dset (state c) _PENDING_STATE_KEY (PList [])) (artifact_delta c) (store c)).
End Read.

(** * Facts *)

Class ArtifactLaws (A : Type) `{Artifacts A} : Prop := {
  load_saved s f b v s' : save_artifact s f b = (Ok v, s') → load_artifact s' (PStr f) (PInt v) = Ok (Some b);
  load_kept s f b r s' fn v b' : save_artifact s f b = (r, s') →
    load_artifact s fn (PInt v) = Ok (Some b') → load_artifact s' fn (PInt v) = Ok (Some b')
}.

Section Facts.
Context `{PyFloat} `{Resolve} {A : Type} `{ArtifactLaws A} (guess_type : string → option string)
  (environ : environment_vars) (h : host) (e : env) (read_bytes : string → res string).
#[local] Abbreviation run := (run_async guess_type environ h e read_bytes).

Lemma guarded_run path offset limit fresh f (c : context A) r c' : run (Some path) offset limit fresh f c = (r, c') →
  c' = c ∧ ((∃ m, r = Ok (Refused m)) ∨ ∃ x, window_dirs (Some (state c)) = Raise x ∧ r = Raise x) ∨
  ∃ target, _resolve_in_session_window path e (Some (state c)) = Ok (Ok target) ∧
    is_under (resolve (resolve (working_dir e))) target = true ∧ _is_write_denied h target = false ∧
    (entry h target = None ∨ entry h target = Some IsFile) ∧
    if _default_as_media guess_type target then (r, c') = _read_as_media guess_type environ e read_bytes target path c
    else c' = c ∧ (r = Ok (Refused ("Cannot read binary file: " +:+ path)) ∨
                   r = (let! t := read_file h path fresh (or_else offset 1) (or_else limit 500) f e (Some (state c)) in Ok (TextReply t))).
Proof.
  unfold run_async. destruct path as [|ch path']; [by intros [= <- <-]; left; split; [|left; eexists]|]. set (path := String ch path').
  destruct (_resolve_in_session_window path e (Some (state c))) as [[target|x]|x] eqn:Er.
  2: { intros [= <- <-]. left. split; [done|]. left. by eexists. }
  2: { intros [= <- <-]. left. split; [done|]. right. exists x. split; [|done]. unfold _resolve_in_session_window in Er.
       by destruct (window_dirs _) as [dirs|]; [|injection Er as ->]. }
  destruct (_is_write_denied h target) eqn:Ed; [by intros [= <- <-]; left; split; [|left; eexists]|].
  assert (is_under (resolve (resolve (working_dir e))) target = true) as Hu.
  { unfold _resolve_in_session_window in Er. destruct (window_dirs _) as [dirs|]; [|done]. injection Er as Er.
    pose proof (window_stays_under_root path (resolve (working_dir e)) dirs) as Hw. by rewrite Er in Hw. }
  destruct (entry h target) as [[| |]|] eqn:Ee; try (by intros [= <- <-]; left; split; [|left; eexists]);
    intros Hrun; right; exists target; (split_and!; [done..|by auto|]);
    (destruct (_default_as_media guess_type target); [done|]); destruct (_has_binary_extension target);
    injection Hrun as <- <-; auto.
Qed.

(** C25. Before any byte of a file is read, on the way to text and to media alike: the path is
    inside the workspace, not protected, and no directory or device; otherwise the call is
    refused and nothing changes. *)
Theorem read_guarded path offset limit fresh f (c : context A) r c' : run (Some path) offset limit fresh f c = (r, c') →
  c' = c ∧ ((∃ m, r = Ok (Refused m)) ∨ ∃ x, window_dirs (Some (state c)) = Raise x ∧ r = Raise x) ∨
  ∃ target, _resolve_in_session_window path e (Some (state c)) = Ok (Ok target) ∧
    is_under (resolve (resolve (working_dir e))) target = true ∧ _is_write_denied h target = false ∧
    (entry h target = None ∨ entry h target = Some IsFile) ∧
    if _default_as_media guess_type target then (r, c') = _read_as_media guess_type environ e read_bytes target path c
    else c' = c ∧ (r = Ok (Refused ("Cannot read binary file: " +:+ path)) ∨
                   r = (let! t := read_file h path fresh (or_else offset 1) (or_else limit 500) f e (Some (state c)) in Ok (TextReply t))).
Proof. apply guarded_run. Qed.

(** ** What is read is seen, once *)

(** A name that has a type has an extension. *)
Hypothesis typed_name : ∀ p m, guess_type p = Some m → path_name p ≠ "".
Definition pending_of (c : context A) : list pyval := match get (state c) _PENDING_STATE_KEY with PList l => l | _ => [] end.
Definition loads_to (s : A) (v : pyval) (i : injected) : Prop := ∃ fn n lbl, entry_of v = Some (fn, PInt n, lbl) ∧
  load_artifact s fn (PInt n) = Ok (Some (file i)) ∧ heading i = "Contents of " +:+ py_str lbl +:+ ":".
Definition good (c : context A) (l : list injected) : Prop :=
  (dget (state c) _PENDING_STATE_KEY = None ∨ dget (state c) _PENDING_STATE_KEY = Some (PList (pending_of c))) ∧
  Forall2 (loads_to (store c)) (pending_of c) l.
Lemma load_all_good s pend l :
  Forall2 (loads_to s) pend l → load_all s pend = Ok l.
Proof.
  induction 1 as [|v [hd b] pend l (fn & ver & lbl & He & Hl & Hh) _ IH]; [done|]. cbn in *. rewrite He, Hl, IH. cbn. by rewrite Hh.
Qed.
Lemma good_sent c l : good c l → ∃ c', process_llm_request c = (Ok l, c') ∧ good c' [] ∧ process_llm_request c' = (Ok [], c').
Proof.
  intros [Hd Hf]. apply load_all_good in Hf as Hl. unfold process_llm_request.
  assert (get (state c) _PENDING_STATE_KEY = PNone ∧ pending_of c = [] ∨ get (state c) _PENDING_STATE_KEY = PList (pending_of c)) as [[Hg Hp]|Hg].
  { unfold get, pending_of in *. unfold get. destruct Hd as [-> | ->]; [by left|]. right. cbn in *. done. }
  - rewrite Hg. cbn. exists c. rewrite Hp in Hl. injection Hl as <-. split_and!; [done| |by rewrite Hg]. unfold good. split; [by rewrite Hp in *|]. by rewrite Hp.
  - rewrite Hg. destruct (pending_of c) as [|v pend] eqn:Hp.
    + cbn. exists c. injection Hl as <-. split_and!; [done| |by rewrite Hg]. unfold good. split; [by rewrite Hp in *|]. by rewrite Hp.
    + cbn [truthy negb res_bind list_of]. rewrite Hl. eexists. split; [done|]. unfold good, pending_of, get. cbn [state].
      rewrite dget_dset_eq. cbn. split; [split; [by right|constructor]|done].
Qed.
Lemma good_store c l s' : good c l → (∀ fn v b, load_artifact (store c) fn (PInt v) = Ok (Some b) → load_artifact s' fn (PInt v) = Ok (Some b)) →
  ∀ delta, good (Context_ (state c) delta s') l.
Proof.
  intros [Hd Hf] Hk delta. split; [exact Hd|]. eapply Forall2_impl; [exact Hf|].
  intros v i (fn & ver & lbl & ? & Hl & ?). exists fn, ver, lbl. split_and!; [done|by apply Hk|done].
Qed.

Lemma label_nonempty target : path_name target ≠ "" → label_of e target ≠ "".
Proof.
  intros Hn. unfold label_of. destruct (is_under _ _); [|done]. unfold relative_parts, parts.
  destruct (List.filter _ _) as [|p ps] eqn:Ef; [done|].
  assert (p ≠ "") as Hp.
  { assert (p ∈ p :: ps) as Hin by by left. rewrite <- Ef in Hin. apply list_elem_of_In, filter_In in Hin as [_ Hin].
    intros ->. done. }
  destruct ps as [|p' ps]; [done|]. rewrite join_cons by done. by destruct p.
Qed.

Lemma entry_of_staged fn ver lbl : fn ≠ "" → lbl ≠ "" →
  entry_of (PDict [("filename", PStr fn); ("version", PInt ver); ("label", PStr lbl)]) = Some (PStr fn, PInt ver, PStr lbl).
Proof. by destruct fn, lbl. Qed.

(** What a read has staged for the next turn: the file and its label. *)
Definition staged (target bytes : string) : injected :=
  Injected ("Contents of " +:+ label_of e target +:+ ":") (Blob bytes (guess_mime_from_bytes guess_type (path_name target) bytes) (path_name target)).
Definition noted (d : pydict) : bool := dhas d "note".
Lemma media_good target path c l r c' : good c l → path_name target ≠ "" →
  _read_as_media guess_type environ e read_bytes target path c = (r, c') →
  (∃ d bytes, r = Ok (MediaReply d) ∧ noted d = false ∧ read_bytes target = Ok bytes ∧ good c' (l ++ [staged target bytes])) ∨
  (∀ d, r = Ok (MediaReply d) → noted d = true) ∧ good c' l.
Proof.
  intros Hg Hn. unfold _read_as_media. destruct (read_bytes target) as [bytes|x] eqn:Eb.
  2: { intros [= <- <-]. right. split; [|done]. destruct (media_error path x); by intros d [= ]. }
  set (b := Blob bytes _ _). destruct (save_artifact (store c) (path_name target) b) as [[v|x] s'] eqn:Es.
  2: { intros [= <- <-]. right. split; [by intros d [= ]|]. apply good_store; [done|]. intros fn ver b' Hl. by eapply load_kept. }
  set (c1 := Context_ _ _ s').
  assert (good c1 l) as Hg1 by (apply good_store; [done|]; intros fn ver b' Hl; by eapply load_kept).
  destruct (_resolve environ _) as [m|x]; [|by intros [= <- <-]; right; split; [intros d [= ]|]].
  destruct (negb (can_view_mime _ _)); [intros [= <- <-]; right; split; [by intros d [= <-]|done]|].
  destruct (too_large _ _ _); [intros [= <- <-]; right; split; [by intros d [= <-]|done]|].
  assert (list_of (default (PList []) (dget (state c1) _PENDING_STATE_KEY)) = Ok (pending_of c1)) as ->.
  { unfold pending_of, get. by destruct Hg1 as [[E|E] _]; rewrite E. }
  intros [= <- <-]. left. exists [("success", PBool true); ("filename", PStr (path_name target));
    ("mime_type", PStr (guess_mime_from_bytes guess_type (path_name target) bytes)); ("size_bytes", PInt (Z.of_nat (slen bytes)))], bytes.
  split_and!; [done..|]. destruct Hg1 as [_ Hf]. unfold good, pending_of, get. cbn [state store]. rewrite dget_dset_eq. cbn [default id].
  split; [by right|]. apply Forall2_app; [exact Hf|]. constructor; [|constructor].
  exists (PStr (path_name target)), v, (PStr (label_of e target)). split_and!; [|by apply (load_saved _ _ _ _ _ Es)|done].
  apply entry_of_staged; [done|by apply label_nonempty].
Qed.

(** Turns of a session: reads, with what they stage for the next request, and requests. *)
Inductive reading : context A → list injected → Prop :=
  | Begun c : dget (state c) _PENDING_STATE_KEY = None → reading c []
  | Read c l path offset limit fresh f r c' : reading c l → run (Some path) offset limit fresh f c = (r, c') →
      (∀ d, r = Ok (MediaReply d) → noted d = true) → reading c' l
  | Staged c l path offset limit fresh f d target bytes c' : reading c l → run (Some path) offset limit fresh f c = (Ok (MediaReply d), c') →
      noted d = false → _resolve_in_session_window path e (Some (state c)) = Ok (Ok target) → read_bytes target = Ok bytes →
      reading c' (l ++ [staged target bytes])
  | Sent c l r c' : reading c l → process_llm_request c = (r, c') → reading c' [].
Lemma run_good path offset limit fresh f c l r c' : good c l → run (Some path) offset limit fresh f c = (r, c') →
  (∃ d target bytes, r = Ok (MediaReply d) ∧ noted d = false ∧ _resolve_in_session_window path e (Some (state c)) = Ok (Ok target) ∧
     read_bytes target = Ok bytes ∧ good c' (l ++ [staged target bytes])) ∨
  (∀ d, r = Ok (MediaReply d) → noted d = true) ∧ good c' l.
Proof.
  intros Hg Hrun. destruct (guarded_run _ _ _ _ _ _ _ _ Hrun) as [(-> & [(m & ->)|(x & _ & ->)])|(target & Hr & _ & _ & _ & Hm)];
    [by right; split; [intros d [= ]|]..|].
  destruct (_default_as_media guess_type target) eqn:Em.
  - symmetry in Hm. assert (path_name target ≠ "") as Hn.
    { unfold _default_as_media, guess_mime in Em. destruct (guess_type target) eqn:Eg; [by eapply typed_name|].
      by vm_compute in Em. }
    destruct (media_good _ _ _ _ _ _ Hg Hn Hm) as [(d & bytes & ? & ? & ? & ?)|?]; [left; by exists d, target, bytes|by right].
  - destruct Hm as [-> [-> | ->]]; right; (split; [|done]); [by intros d [= ]|]. intros d.
    by destruct (read_file _ _ _ _ _ _ _ _).
Qed.
Lemma reading_good c l : reading c l → good c l.
Proof.
  induction 1 as [c Hc|c l path offset limit fresh f r c' _ IH Hrun Hno|c l path offset limit fresh f d target bytes c' _ IH Hrun Hd Hr Hb|c l r c' _ IH Hp].
  - split; [by left|]. unfold pending_of, get. by rewrite Hc.
  - destruct (run_good _ _ _ _ _ _ _ _ _ IH Hrun) as [(d & ? & ? & -> & Hd & _)|[_ ?]]; [|done]. by rewrite (Hno d eq_refl) in Hd.
  - destruct (run_good _ _ _ _ _ _ _ _ _ IH Hrun) as [(d' & t' & b' & [= <-] & _ & Hr' & Hb' & Hg)|[Hno _]]; [|by rewrite (Hno d eq_refl) in Hd].
    rewrite Hr in Hr'. injection Hr' as <-. rewrite Hb in Hb'. by injection Hb' as <-.
  - destruct (good_sent _ _ IH) as (c'' & Hp' & Hg & _). rewrite Hp in Hp'. by injection Hp' as _ ->.
Qed.

(** The request after any number of reads gets what they staged: each file with its label,
    as its bytes were, in the order of the reads; the next request gets nothing of it. *)
Theorem read_seen_once c l : reading c l →
  ∃ c', process_llm_request c = (Ok l, c') ∧ process_llm_request c' = (Ok [], c').
Proof. intros Hr%reading_good. destruct (good_sent _ _ Hr) as (c' & ? & _ & ?). by exists c'. Qed.
End Facts.

(** ** Witnesses *)

Module Sample.
(** Versions of a name are numbered from zero. *)
Definition versions (s : list (string * blob)) (f : string) : list blob := map snd (List.filter (λ x, (x.1 =? f)%string) s).
#[export] Instance kept : Artifacts (list (string * blob)) := {
  save_artifact s f b := (Ok (Z.of_nat (length (versions s f))), s ++ [(f, b)]);
  load_artifact s fn ver :=
    Ok (match fn, ver with
        | PStr f, PInt v => if v <? 0 then None else versions s f !! Z.to_nat v
        | PStr f, _ => last (versions s f)
        | _, _ => None
        end)
}.
Lemma versions_app s f g b : versions (s ++ [(g, b)]) f = versions s f ++ (if (g =? f)%string then [b] else []).
Proof. unfold versions. rewrite List.filter_app, map_app. cbn. by destruct (g =? f)%string. Qed.
#[export] Instance kept_laws : ArtifactLaws (list (string * blob)).
Proof.
  split; cbn [save_artifact load_artifact kept].
  - intros s f b v s' [= <- <-]. destruct (Z.ltb_spec (Z.of_nat (length (versions s f))) 0); [lia|].
    rewrite versions_app, String.eqb_refl, Nat2Z.id, lookup_app_r, Nat.sub_diag by done. done.
  - intros s f b r s' fn v b' [= _ <-]. destruct fn as [| | | |g| |]; try done. destruct (v <? 0); [done|].
    rewrite versions_app. intros [= Hl]. by rewrite (lookup_app_l_Some _ _ _ _ Hl).
Qed.
#[export] Instance no_floats : PyFloat := λ _, "".
#[export] Instance lexically : Resolve := lexical.
Definition by_extension (p : string) : option string := if negb (path_name p =? "")%string && endswith ".png" p then Some "image/png" else None.
Lemma named p m : by_extension p = Some m → path_name p ≠ "".
Proof. unfold by_extension. by destruct (String.eqb_spec (path_name p) ""). Qed.
Definition files (p : string) : res string := if (p =? "/workspace/art/logo.png")%string then Ok "PNG bytes" else Raise (FileNotFoundError p).
Definition no_fs : fs := FS ∅ ∅.
Definition call (c : context (list (string * blob))) : res reply * context (list (string * blob)) :=
  run_async by_extension [] demo_host demo_box files (Some "art/logo.png") None None "f" no_fs c.
Definition begun : context (list (string * blob)) := Context_ [] [] [].
Definition logo : injected := Injected "Contents of art/logo.png:" (Blob "PNG bytes" "image/png" "logo.png").
End Sample.
Import Sample.

Lemma read_guarded_witness : ∃ target, _resolve_in_session_window "art/logo.png" demo_box (Some []) = Ok (Ok target) ∧ _is_write_denied demo_host target = false.
Proof.
  destruct (read_guarded by_extension [] demo_host demo_box files "art/logo.png" None None "f" no_fs begun (call begun).1 (call begun).2
    (surjective_pairing _)) as [[H _]|(target & H & _ & Hd & _)].
  - exfalso. revert H. by vm_compute.
  - by exists target.
Defined.
Lemma read_seen_once_witness : ∃ c', process_llm_request (call (call begun).2).2 = (Ok [logo; logo], c') ∧ process_llm_request c' = (Ok [], c').
Proof.
  assert (∃ d, (call begun).1 = Ok (MediaReply d) ∧ noted d = false) as (d & Hd & Hn) by (eexists; split; by vm_compute).
  assert (∃ d, (call (call begun).2).1 = Ok (MediaReply d) ∧ noted d = false) as (d2 & Hd2 & Hn2) by (eexists; split; by vm_compute).
  pose (st := staged by_extension demo_box "/workspace/art/logo.png" "PNG bytes").
  assert ([logo; logo] = ([] ++ [st]) ++ [st]) as -> by by vm_compute.
  apply (read_seen_once by_extension [] demo_host demo_box files named).
  apply (Staged by_extension [] demo_host demo_box files (call begun).2 ([] ++ [st]) "art/logo.png" None None "f" no_fs d2 "/workspace/art/logo.png" "PNG bytes");
    [|rewrite (surjective_pairing (run_async _ _ _ _ _ _ _ _ _ _ _)); by f_equal|done|by vm_compute|done].
  apply (Staged by_extension [] demo_host demo_box files begun [] "art/logo.png" None None "f" no_fs d "/workspace/art/logo.png" "PNG bytes");
    [by constructor|rewrite (surjective_pairing (run_async _ _ _ _ _ _ _ _ _ _ _)); by f_equal|done|by vm_compute|done].
Defined.
