(* ===== verification/RootAgent.v ===== *)
(** * The root agent: [agent.py], [models/__init__.py]

    What the root agent is built of, and the chain of callbacks in front of its tools: the
    log of the call in flight, the exfiltration guard, the policies guard and the permission
    guard, in this order. ADK runs them until one replies; the reply then stands for the
    result of the tool. *)

From S2P Require Import Prelude PyStr Names Regex PyVal Sorting Overlay CommandClassify CommandSafety Telemetry Environ Models.
From S2P Require Import PermissionRules PolicyGrants Policies PermissionGuard ExfilConfig ExfilGuard Prompt.

(** ** Building *)

(** A tool with a name, or a toolset with the ones it holds. *)
Inductive agent_tool := Named (name : string) | Toolset (inner : list string).

Definition tool_names_of (tool : agent_tool) : list string :=
  List.filter (λ n, negb (n =? "")%string) (match tool with Named n => [n] | Toolset inner => inner end).

Definition _static_instruction_for (f : fs) (environ : environment_vars) (home : string)
    (tools : list agent_tool) (has_code_executor : bool) : res string :=
  let! model_name := _resolve environ None in
  Ok (build_static_instruction f environ (flat_map tool_names_of tools) (Some model_name) has_code_executor (_default_soul_path home)).

(** The resource of the executor, when there is one. *)
Definition _build_code_executor (environ : environment_vars) : option string :=
  let resource := or_str (env_get environ "CODE_SANDBOX_RESOURCE_NAME") (env_get environ "AGENT_ENGINE_RESOURCE_NAME") in
  if (resource =? "")%string then None else Some resource.

(** A model by its name, or one that is built already. *)
Inductive root_model (L : Type) := Dispatching (default_model : string) | Given (llm : L).
Arguments Dispatching {L} default_model. Arguments Given {L} llm.

Definition build_root_llm {L} : res (root_model L) :=
  let! _ := default_must_be_known DEFAULT_MODEL_NAME in Ok (Dispatching DEFAULT_MODEL_NAME).
Definition _resolve_root_model {L} (model : option (string + L)) : res (root_model L) :=
  match model with
  | None => build_root_llm
  | Some (inl name) =>
      if negb (mem name MODEL_REGISTRY)
      then Raise (ValueError ("unknown model " +:+ repr_str name +:+ "; must be one of " +:+ backends_text))
      else let! _ := default_must_be_known name in Ok (Dispatching name)
  | Some (inr llm) => Ok (Given llm)
  end.

Definition root_tools (skill_tools : list string) : list agent_tool :=
  [Named MEMORY; Named PRELOAD_MEMORY; Named READ; Named WRITE; Named EDIT; Named SEARCH_FILES; Named ARTIFACT;
   Named BASH; Named PROCESS; Named SUBAGENT; Toolset skill_tools; Named ROUTINE; Named CLARIFY; Named WEB_RESEARCH].

(** [_build_app_object]: the model, the instruction and the executor of the agent. *)
Definition _build_app_object {L} (f : fs) (environ : environment_vars) (home : string) (skill_tools : list string) :
    res (root_model L * string * option string) :=
  let executor := _build_code_executor environ in
  let! model := _resolve_root_model None in
  let! instruction := _static_instruction_for f environ home (root_tools skill_tools) (match executor with Some _ => true | None => false end) in
  Ok (model, instruction, executor).

(** ** In front of the tools *)

(** What the chain reads and changes. *)
Record rworld := RWorld { rw : world; rw_exfil : ocache ExfilConfig; rw_policies : policies_cache }.

Section Chain.
Context `{PyRe} `{PyFloat} (now_ms : Z).

(** A callback in front of a tool: its reply, if it has one. *)
Abbreviation before_tool := (call → rworld → res (option pydict) * rworld).

Definition log_link : before_tool := λ k x,
  (Ok None, RWorld (World (w_cache (rw x)) (w_fs (rw x)) (before_tool_log_callback now_ms (c_tool k) (c_args k) <$> w_state (rw x))
                      (w_requests (rw x)) (w_skip (rw x))) (rw_exfil x) (rw_policies x)).
Definition exfil_link : before_tool := λ k x,
  let '(r, c) := exfil_guard (rw_exfil x) (w_fs (rw x)) (c_env k) (w_state (rw x)) (c_tool k) (c_args k) in
  (r, RWorld (rw x) c (rw_policies x)).
Definition policies_link : before_tool := λ k x,
  let '(r, c) := policies_guard (rw_policies x) (w_fs (rw x)) (c_env k) (w_state (rw x)) (c_tool k) (c_args k) false in
  (r, RWorld (rw x) (rw_exfil x) c).
Definition permission_link : before_tool := λ k x,
  let '(r, w) := permission_guard k (rw x) in (r, RWorld w (rw_exfil x) (rw_policies x)).

Fixpoint run_chain (links : list before_tool) (k : call) (x : rworld) : res (option pydict) * rworld :=
  match links with
  | [] => (Ok None, x)
  | l :: rest =>
      match l k x with
      | (Ok None, x') => run_chain rest k x'
      | r => r
      end
  end.
Definition before_tool_callback : list before_tool := [log_link; exfil_link; policies_link; permission_link].
Definition before_root_tool : before_tool := run_chain before_tool_callback.
End Chain.

(** * Facts *)

(** ** The instruction *)

(** The switch that takes the acting, safety and style guidance out. *)
Definition enforcement_off (environ : environment_vars) : bool :=
  let mode := lower (strip (or_str (env_get environ _TOOL_USE_ENFORCEMENT_ENV) "auto")) in
  negb (mem mode _ENFORCEMENT_TRUE) && mem mode _ENFORCEMENT_FALSE.

Lemma resolved_known environ m : _resolve environ None = Ok m → m ∈ MODEL_REGISTRY.
Proof.
  assert (DEFAULT_MODEL_NAME ∈ MODEL_REGISTRY) as Hd by (apply mem_spec; by vm_compute).
  unfold _resolve. destruct (dget environ "LHA_ROOT_MODEL") as [v|]; [|intros E; by injection E as <-].
  destruct (mem v MODEL_REGISTRY) eqn:Ev; intros E; injection E as <-; [by apply mem_spec|done].
Qed.
Lemma enforced environ m tools : tools ≠ [] → m ∈ MODEL_REGISTRY →
  _should_inject_tool_use_enforcement environ (Some m) tools = negb (enforcement_off environ).
Proof.
  intros Ht Hm. unfold _should_inject_tool_use_enforcement, enforcement_off. destruct tools; [done|]. cbv zeta.
  destruct (mem _ _ENFORCEMENT_TRUE); [done|]. destruct (mem _ _ENFORCEMENT_FALSE); [done|].
  assert (forallb (λ m, existsb (λ pattern, contains pattern (lower m)) TOOL_USE_ENFORCEMENT_MODELS) MODEL_REGISTRY = true) as H by by vm_compute.
  rewrite forallb_elem in H. exact (H m Hm).
Qed.
Lemma identity_text f path : load_soul_identity f path ≠ "" ∧ strip (load_soul_identity f path) = load_soul_identity f path.
Proof.
  assert (DEFAULT_AGENT_IDENTITY ≠ "" ∧ strip DEFAULT_AGENT_IDENTITY = DEFAULT_AGENT_IDENTITY) as Hd by (split; [done|by vm_compute]).
  unfold load_soul_identity. destruct (negb _); [done|]. destruct (read_text _ _) as [t|]; [|done]. unfold or_str.
  destruct (String.eqb_spec (strip t) ""); [done|]. split; [done|apply strip_idem].
Qed.
Lemma non_blanks_app a b : non_blanks (a ++ b) = non_blanks a ++ non_blanks b.
Proof. unfold non_blanks. by rewrite map_app, List.filter_app. Qed.

Lemma skills_held l : existsb (λ n, mem n _SKILL_TOOL_NAMES) (flat_map tool_names_of (root_tools l)) = mem LOAD_SKILL l.
Proof.
  assert (existsb (λ n, mem n _SKILL_TOOL_NAMES) (tool_names_of (Toolset l)) = mem LOAD_SKILL l) as <-.
  { unfold tool_names_of. induction l as [|n l IH]; [done|]. cbn [List.filter]. unfold mem at 2. cbn [existsb]. fold (mem LOAD_SKILL l).
    rewrite <-IH, (String.eqb_sym LOAD_SKILL n). destruct (String.eqb_spec n "") as [->|]; cbn [negb]; [done|]. cbn [existsb].
    unfold mem at 1, _SKILL_TOOL_NAMES at 1. cbn [existsb]. by rewrite orb_false_r. }
  unfold root_tools. rewrite !flat_map_concat_map. cbn [map concat].
  generalize (tool_names_of (Toolset l)) as t. intros t. cbn -[existsb].
  rewrite !existsb_app. repeat match goal with |- context [existsb ?P (if ?b then ?x else [])] => change (existsb P (if b then x else [])) with false end.
  cbn [orb existsb]. by rewrite orb_false_r.
Qed.

(** The agent always comes to be, and its instruction is, in this order: an identity, never
    blank; the memory guidance; the skills guidance when the toolset holds [load_skill]; the
    acting, safety and style guidance, unless the environment says off, whatever model it
    names; how to work; and how to run code when there is an executor. *)
Theorem root_instruction {L} f environ home skill_tools :
  ∃ identity executor, identity ≠ "" ∧
    _build_app_object (L := L) f environ home skill_tools = Ok (Dispatching DEFAULT_MODEL_NAME,
      join (NLs +:+ NLs) ([identity; MEMORY_GUIDANCE]
        ++ (if mem LOAD_SKILL skill_tools then [SKILLS_GUIDANCE] else [])
        ++ (if enforcement_off environ then [] else [ACTING_GUIDANCE; SAFETY_GUIDANCE; STYLE_GUIDANCE])
        ++ [WORKSPACE_GUIDANCE; EXECUTION_GUIDANCE; TOOL_ROUTING_GUIDANCE; OPERATIONS_GUIDANCE]
        ++ match executor with Some _ => [CODE_EXECUTION_GUIDANCE] | None => [] end), executor) ∧
    (executor = None ↔ env_get environ "CODE_SANDBOX_RESOURCE_NAME" = "" ∧ env_get environ "AGENT_ENGINE_RESOURCE_NAME" = "").
Proof.
  exists (load_soul_identity f (_default_soul_path home)), (_build_code_executor environ).
  destruct (identity_text f (_default_soul_path home)) as [Hne Hst]. split; [done|]. split.
  - unfold _build_app_object, _resolve_root_model, build_root_llm. cbn [res_bind].
    assert (default_must_be_known DEFAULT_MODEL_NAME = Ok tt) as -> by by vm_compute. cbn [res_bind].
    unfold _static_instruction_for. destruct (_resolve environ None) as [m|] eqn:Em; [|by unfold _resolve in Em]. cbn [res_bind].
    unfold build_static_instruction, parts_of. rewrite enforced; [|by cbn|by eapply resolved_known].
    match goal with |- Ok (_, join _ ?a, _) = Ok (_, join _ ?b, _) => assert (a = b) as ->; [|done] end.
    rewrite !non_blanks_app. change ([load_soul_identity f (_default_soul_path home); MEMORY_GUIDANCE] ++ ?l) with ([load_soul_identity f (_default_soul_path home)] ++ [MEMORY_GUIDANCE] ++ l).
    assert (non_blanks [load_soul_identity f (_default_soul_path home)] = [load_soul_identity f (_default_soul_path home)]) as ->.
    { unfold non_blanks. cbn [map List.filter]. rewrite Hst. by destruct (String.eqb_spec (load_soul_identity f (_default_soul_path home)) ""). }
    apply f_equal2; [done|].
    assert (existsb (λ n, mem n _MEMORY_TOOL_NAMES) (flat_map tool_names_of (root_tools skill_tools)) = true) as -> by done.
    assert (existsb (λ n, mem n _SKILL_TOOL_NAMES) (flat_map tool_names_of (root_tools skill_tools)) = mem LOAD_SKILL skill_tools) as ->.
    { apply skills_held. }
    apply f_equal2; [by vm_compute|]. apply f_equal2; [destruct (mem _ _); by vm_compute|].
    apply f_equal2; [destruct (enforcement_off _); by vm_compute|]. apply f_equal2; [by vm_compute|].
    destruct (_build_code_executor environ); by vm_compute.
  - unfold _build_code_executor, or_str. destruct (String.eqb_spec (env_get environ "CODE_SANDBOX_RESOURCE_NAME") "") as [->|Hc].
    + destruct (String.eqb_spec (env_get environ "AGENT_ENGINE_RESOURCE_NAME") ""); naive_solver.
    + destruct (String.eqb_spec (env_get environ "CODE_SANDBOX_RESOURCE_NAME") ""); naive_solver.
Qed.

(** ** The chain *)

Section ChainFacts.
Context `{PyRe} `{PyFloat} (now_ms : Z).

Definition logged (k : call) (state : session) : session := before_tool_log_callback now_ms (c_tool k) (c_args k) <$> state.

(** The entry for the panel is no grant. *)
Lemma grants_logged k st : _active_grants (before_tool_log_callback now_ms (c_tool k) (c_args k) st) = _active_grants st.
Proof. unfold _active_grants, before_tool_log_callback, get. by rewrite dget_dset_ne. Qed.
Lemma cleared_logged k state t a tier : cleared (logged k state) t a tier = cleared state t a tier.
Proof. destruct state as [st|]; [|done]. unfold cleared, logged, find_matching_grant, find_matching_grant_loose. cbn [fmap option_fmap option_map]. by rewrite grants_logged. Qed.
Lemma exempt_logged k state t a : exempt (logged k state) t a = exempt state t a.
Proof. destruct state as [st|]; [|done]. unfold exempt, logged, find_matching_grant. cbn [fmap option_fmap option_map]. by rewrite grants_logged. Qed.

(** The guards, in their order, past the log. *)
Lemma chain_unfold k x :
  let w1 := World (w_cache (rw x)) (w_fs (rw x)) (logged k (w_state (rw x))) (w_requests (rw x)) (w_skip (rw x)) in
  before_root_tool now_ms k x =
    match exfil_guard (rw_exfil x) (w_fs (rw x)) (c_env k) (logged k (w_state (rw x))) (c_tool k) (c_args k) with
    | (Ok None, ce) =>
        match policies_guard (rw_policies x) (w_fs (rw x)) (c_env k) (logged k (w_state (rw x))) (c_tool k) (c_args k) false with
        | (Ok None, cp) => let '(r, w) := permission_guard k w1 in (r, RWorld w ce cp)
        | (r, cp) => (r, RWorld w1 ce cp)
        end
    | (r, ce) => (r, RWorld w1 ce (rw_policies x))
    end.
Proof.
  cbv zeta. unfold before_root_tool, before_tool_callback. cbn [run_chain log_link]. unfold exfil_link. cbn [rw rw_exfil rw_policies w_fs w_state].
  fold (logged k (w_state (rw x))). destruct (exfil_guard _ _ _ _ _ _) as [[[b|]|e] ce]; [done| |done].
  unfold policies_link. cbn [rw rw_exfil rw_policies w_fs w_state]. destruct (policies_guard _ _ _ _ _ _ _) as [[[b|]|e] cp]; [done| |done].
  unfold permission_link. cbn [rw rw_exfil rw_policies]. by destruct (permission_guard _ _) as [[[b|]|e] w].
Qed.

(** What the two guards of the chain say of a call that no grant covers. *)
Definition security_reply (cfg : ExfilConfig) (rules : list pydict) (t : string) (a : pyval) : option pydict :=
  match evaluate_exfil t a cfg with
  | Some v => Some (ExfilGuard._block v)
  | None => check_call rules t a false
  end.

Lemma uncovered k x cfg ce rules cp : c_tool k ≠ "" →
  load_exfil_config_for_env (rw_exfil x) (w_fs (rw x)) (c_env k) = (Ok cfg, ce) →
  load_policies_for_env (rw_policies x) (w_fs (rw x)) (c_env k) = (Ok rules, cp) →
  (∀ tier, cleared (w_state (rw x)) (c_tool k) (c_args k) tier = false) → exempt (w_state (rw x)) (c_tool k) (c_args k) = false →
  ∀ reply, security_reply cfg rules (c_tool k) (c_args k) = Some reply →
  ∃ x', before_root_tool now_ms k x = (Ok (Some reply), x') ∧
    rw x' = World (w_cache (rw x)) (w_fs (rw x)) (logged k (w_state (rw x))) (w_requests (rw x)) (w_skip (rw x)).
Proof.
  intros Ht He Hp Hc Hx reply. unfold security_reply. rewrite chain_unfold. cbv zeta. unfold exfil_guard.
  destruct (String.eqb_spec (c_tool k) ""); [done|]. rewrite He. cbn [res_bind].
  destruct (evaluate_exfil _ _ _) as [v|].
  - rewrite cleared_logged, Hc. intros [= <-]. by eexists.
  - intros Hr. unfold policies_guard. destruct (String.eqb_spec (c_tool k) ""); [done|]. rewrite exempt_logged, Hx, Hp. cbn [res_bind].
    rewrite Hr. by eexists.
Qed.

Lemma check_call_clear rules t a : check_call rules t a false = None →
  (∀ r, r ∈ rules → _evaluate r t a = None) ∧
  ∀ cmd tr why, _command_for t a = Some cmd → classify cmd = Some (tr, why) → tr = Ask.
Proof.
  unfold check_call. cbn [first_some]. destruct (first_block rules t a) eqn:Ef; [done|]. repeat (case_match; [done|]). intros _. split.
  - intros r Hr. unfold first_block in Ef. rewrite first_some_None in Ef. specialize (Ef r Hr). cbn in Ef. by destruct (_evaluate r t a).
  - intros cmd tr why Hc Hcl. unfold safety_block in *. rewrite Hc, Hcl in *. by destruct tr.
Qed.
End ChainFacts.

(** C1. A call the exfiltration guard or the policies guard objects to is answered with the
    objection, and the permission guard is not asked: no approval mode, permission grant or
    confirmation lifts it, no one is asked, and nothing but the log of the call changes. *)
Theorem consent_lifts_no_block `{PyRe} `{PyFloat} now_ms k x cfg ce rules cp reply : c_tool k ≠ "" →
  load_exfil_config_for_env (rw_exfil x) (w_fs (rw x)) (c_env k) = (Ok cfg, ce) →
  load_policies_for_env (rw_policies x) (w_fs (rw x)) (c_env k) = (Ok rules, cp) →
  (∀ tier, cleared (w_state (rw x)) (c_tool k) (c_args k) tier = false) → exempt (w_state (rw x)) (c_tool k) (c_args k) = false →
  security_reply cfg rules (c_tool k) (c_args k) = Some reply →
  ∀ agent tc headless now cache st' requests skip,
    (∀ st, w_state (rw x) = Some st → get st' POLICY_GRANTS_STATE_KEY = get st POLICY_GRANTS_STATE_KEY) → is_Some (w_state (rw x)) →
    ∃ x', before_root_tool now_ms (Call (c_tool k) (c_args k) agent tc (c_env k) headless now)
            (RWorld (World cache (w_fs (rw x)) (Some st') requests skip) (rw_exfil x) (rw_policies x)) = (Ok (Some reply), x') ∧
      w_requests (rw x') = requests ∧ w_fs (rw x') = w_fs (rw x) ∧ w_cache (rw x') = cache ∧ w_skip (rw x') = skip ∧
      w_state (rw x') = Some (before_tool_log_callback now_ms (c_tool k) (c_args k) st').
Proof.
  intros Ht He Hp Hc Hx Hr agent tc headless now cache st' requests skip Hst [st Es].
  assert (_active_grants st' = _active_grants st) as Eg by (unfold _active_grants; by rewrite (Hst st Es)).
  rewrite Es in Hc, Hx.
  destruct (uncovered now_ms (Call (c_tool k) (c_args k) agent tc (c_env k) headless now)
    (RWorld (World cache (w_fs (rw x)) (Some st') requests skip) (rw_exfil x) (rw_policies x)) cfg ce rules cp Ht He Hp) with (reply := reply)
    as (x' & Hb & Hw); [| |done|].
  - intros tier. rewrite <-(Hc tier). cbn. unfold find_matching_grant, find_matching_grant_loose. by rewrite Eg.
  - rewrite <-Hx. cbn. unfold find_matching_grant. by rewrite Eg.
  - exists x'. split; [exact Hb|]. by rewrite Hw.
Qed.

(** C2. What a call needs to reach its tool: the exfiltration guard finds nothing or a grant
    clears it; a grant exempts it from the policies, or no rule refuses it and the classifier
    does not deny its command; and the permission guard has no say, allows it, or would ask
    and the session is in yolo mode, it is a command of a routine, or the user confirmed.
    On the way no one is asked. *)
Theorem tool_is_reached_only `{PyRe} `{PyFloat} now_ms k x x' : c_tool k ≠ "" → before_root_tool now_ms k x = (Ok None, x') →
  (∃ cfg ce, load_exfil_config_for_env (rw_exfil x) (w_fs (rw x)) (c_env k) = (Ok cfg, ce) ∧
     ∀ v, evaluate_exfil (c_tool k) (c_args k) cfg = Some v → cleared (w_state (rw x)) (c_tool k) (c_args k) (ev_tier v) = true) ∧
  (exempt (w_state (rw x)) (c_tool k) (c_args k) = true ∨
   (∃ rules cp, load_policies_for_env (rw_policies x) (w_fs (rw x)) (c_env k) = (Ok rules, cp) ∧
      (∀ r, r ∈ rules → _evaluate r (c_tool k) (c_args k) = None) ∧
      ∀ cmd tr why, _command_for (c_tool k) (c_args k) = Some cmd → classify cmd = Some (tr, why) → tr = Ask)) ∧
  (bypasses (c_tool k) (c_args k) = true ∨
   ∃ r c, resolve_permission_decision (w_cache (rw x)) (w_fs (rw x)) (c_env k) (c_tool k) (c_args k) (logged now_ms k (w_state (rw x))) (c_agent k) = (Ok r, c) ∧
     (rs_decision r = allow ∨
      rs_decision r = ask_user ∧
        (read_approval_mode (logged now_ms k (w_state (rw x))) = Ok "yolo" ∧ c_headless k = false ∨
         c_headless k = true ∧ is_Some (rs_command r) ∨
         ∃ tc, c_confirmation k = Some tc ∧ tc_confirmed tc = true))) ∧
  w_requests (rw x') = w_requests (rw x).
Proof.
  intros Ht. rewrite chain_unfold. cbv zeta. destruct (exfil_guard _ _ _ _ _ _) as [[[b|]|e] ce] eqn:Ee; [done| |done].
  destruct (policies_guard _ _ _ _ _ _ _) as [[[b|]|e] cp] eqn:Ep; [done| |done].
  set (w1 := World _ _ _ _ _). destruct (permission_guard k w1) as [r w] eqn:Eg. intros [= -> <-].
  split; [|split; [|]].
  - unfold exfil_guard in Ee. destruct (String.eqb_spec (c_tool k) ""); [done|].
    destruct (load_exfil_config_for_env _ _ _) as [[cfg|e] c1] eqn:El; cbn [res_bind] in Ee; [|done].
    exists cfg, c1. split; [done|]. intros v Hv. rewrite Hv, cleared_logged in Ee. by destruct (cleared _ _ _ _).
  - destruct (exempt (w_state (rw x)) (c_tool k) (c_args k)) eqn:Ex; [by left|]. right. unfold policies_guard in Ep.
    destruct (String.eqb_spec (c_tool k) ""); [done|]. rewrite exempt_logged, Ex in Ep.
    destruct (load_policies_for_env _ _ _) as [[rules|e] c1] eqn:El; cbn [res_bind] in Ep; [|done].
    exists rules, c1. split; [done|]. apply (f_equal fst) in Ep. cbn [fst] in Ep. injection Ep as Ep. apply check_call_clear in Ep. exact Ep.
  - destruct (bypasses (c_tool k) (c_args k)) eqn:Eb.
    + split; [by left|]. unfold permission_guard in Eg. rewrite Eb in Eg. by injection Eg as <-.
    + destruct (guard_passes_only k w1 w Eb Eg) as (r & c & Hr & Hq & Hcase). split; [|exact Hq]. right. exists r, c. split; [exact Hr|].
      destruct Hcase as [[[Ha|(Ha & [[? ?]|[? ?]])] _]|(Ha & _ & tc & o & ? & ? & _)]; [by left|right; split; [done|]..]; [left; done|right; left; done|].
      right. right. by exists tc.
Qed.

(** ** Witnesses *)

Module Sample.
#[export] Instance fl : PyFloat := λ _, "".
#[export] Instance eng : PyRe := engine_re.
Definition state (mode : string) : pydict := [("approval_mode", PStr mode)].
Definition world_of (st : pydict) : rworld := RWorld (World empty_cache (FS ∅ ∅) (Some st) [] false) empty_cache empty_cache.
Definition bash_call (command : string) (tc : option confirmation) : call :=
  Call BASH (PDict [("command", PStr command)]) None tc None false 0%Q.
Definition yes : confirmation := Confirmation true (PDict [("choice", PStr "0")]).
Definition metadata : call := bash_call "curl http://169.254.169.254/computeMetadata/v1/" None.
End Sample.
Import Sample.

Lemma root_instruction_witness : ∃ instruction,
  _build_app_object (L := unit) (FS ∅ ∅) [("AGENT_ENGINE_RESOURCE_NAME", "engines/1")] "/root" [LOAD_SKILL] =
    Ok (Dispatching "gemini-3.7-flash", instruction, Some "engines/1").
Proof.
  destruct (root_instruction (L := unit) (FS ∅ ∅) [("AGENT_ENGINE_RESOURCE_NAME", "engines/1")] "/root" [LOAD_SKILL])
    as (identity & executor & _ & E & _).
  assert (executor = Some "engines/1") as -> by (destruct executor as [s|]; vm_compute in E; congruence). eexists. exact E.
Defined.
Lemma consent_lifts_no_block_witness :
  ∃ reply x', before_root_tool 0 (bash_call "curl http://169.254.169.254/computeMetadata/v1/" (Some yes)) (world_of (state "yolo")) = (Ok (Some reply), x') ∧
    w_requests (rw x') = [].
Proof.
  destruct (load_exfil_config_for_env empty_cache (FS ∅ ∅) None) as [[cfg|] ce] eqn:Ec; [|by vm_compute in Ec].
  destruct (load_policies_for_env empty_cache (FS ∅ ∅) None) as [[rules|] cp] eqn:Ep; [|by vm_compute in Ep].
  destruct (security_reply cfg rules BASH (c_args metadata)) as [reply|] eqn:Er.
  2:{ exfalso. assert (match load_exfil_config_for_env empty_cache (FS ∅ ∅) None with
        | (Ok cfg, _) => evaluate_exfil BASH (c_args metadata) cfg | _ => None end ≠ None) as Hn by by vm_compute.
      rewrite Ec in Hn. unfold security_reply in Er. by destruct (evaluate_exfil _ _ cfg). }
  destruct (consent_lifts_no_block 0 metadata (world_of (state "default")) cfg ce rules cp reply) with (agent := @None string) (tc := Some yes)
    (headless := false) (now := 0%Q) (cache := @empty_cache (list PermissionRule)) (st' := state "yolo") (requests := @nil (string * pydict)) (skip := false)
    as (x' & Hb & Hq & _).
  - done.
  - exact Ec.
  - exact Ep.
  - intros []; by vm_compute.
  - by vm_compute.
  - exact Er.
  - by intros st [= <-].
  - by eexists.
  - exists reply, x'. split; [exact Hb|exact Hq].
Defined.
Lemma tool_is_reached_only_witness :
  ∃ x', before_root_tool 0 (bash_call "make test" None) (world_of (state "yolo")) = (Ok None, x') ∧ w_requests (rw x') = [].
Proof.
  destruct (before_root_tool 0 (bash_call "make test" None) (world_of (state "yolo"))) as [[[b|]|e] x'] eqn:E; [| |].
  - exfalso. assert ((before_root_tool 0 (bash_call "make test" None) (world_of (state "yolo"))).1 = Ok None) as Hn by by vm_compute. rewrite E in Hn. done.
  - exists x'. split; [reflexivity|].
    assert (BASH ≠ "") as Hb by done. destruct (tool_is_reached_only 0 (bash_call "make test" None) (world_of (state "yolo")) x' Hb E) as (_ & _ & _ & Hq). exact Hq.
  - exfalso. assert ((before_root_tool 0 (bash_call "make test" None) (world_of (state "yolo"))).1 = Ok None) as Hn by by vm_compute. rewrite E in Hn. done.
Defined.
(** A grant of the user does lift one. *)
Example grant_lifts_the_block :
  let grant := PDict [("tool_name", PStr "bash"); ("signature", PDict [("command", PStr "curl http://169.254.169.254/computeMetadata/v1/")])] in
  let st := state "default" ++ [(POLICY_GRANTS_STATE_KEY, PList [grant])] in
  (before_root_tool 0 metadata (world_of st)).1 = Ok None.
Proof. by vm_compute. Qed.
