(* ===== verification/Artifacts.v ===== *)
(** * Artifacts and questions: [tools/artifacts.py], [tools/_artifact_links.py],
    [context/artifact_url_redaction.py], [infrastructure/artifact_service.py],
    [tools/clarify.py], [tools/_hitl.py]

    A file of the workspace goes to the artifact service and back, the user gets a link to
    it, and the model does not. The artifact service, the signer of links, and the bytes of
    the workspace are arguments. *)

From S2P Require Import Prelude PyStr Names PyVal Web Sorting Overlay PermissionRules PermissionGuard OutputOverflow WorkspaceWindow Environ Models FileOps ReadTool.

(** ** Links *)

(** [urllib.parse.quote(path)]: the slash is safe. *)
Definition quote : string → string :=
  concat_map (λ c, if is_unreserved c || Ascii.eqb c "/" then s1 c else join "" (map percent (utf8_bytes c))).
Definition workspace_download_url (workspace_rel_path : string) (inline : bool) : string :=
  "/lha/workspace/download?path=" +:+ quote workspace_rel_path +:+ (if inline then "&inline=1" else "").

Definition removeprefix (p s : string) : string := if startswith p s then sdrop (slen p) s else s.

(** The credentials of the process and what signs with them: the bucket, the blob, the type
    and the disposition of the response. *)
Record signer := Signer {
  default_valid : res bool;
  refresh : res unit;
  service_account_email : string;
  generate_signed_url : string → string → option string → string → res string
}.
Definition _signed_blob_url (g : signer) (bucket blob_name mime : string) (inline : bool) : option string :=
  match
    let! valid := default_valid g in
    let! _ := (if valid : bool then Ok tt else refresh g) in
    if (service_account_email g =? "")%string then Ok None
    else let! url := generate_signed_url g bucket blob_name (if inline then Some mime else None) (if inline then "inline" else "attachment") in
         Ok (Some url)
  with Ok url => url | Raise _ => None end.

(** Whose session it is. *)
Record session_key := SessionKey { app_name : string; user_id : string; session_id : string }.
Definition blob_name_of (k : session_key) (filename : string) (version : Z) : string :=
  app_name k +:+ "/" +:+ user_id k +:+ "/" +:+ session_id k +:+ "/" +:+ filename +:+ "/" +:+ str_of_Z version.
Definition bucket_of (environ : environment_vars) : string := removeprefix "gs://" (strip (env_get environ "LOGS_BUCKET_NAME")).
Definition artifact_url (g : signer) (environ : environment_vars) (k : session_key) (filename : string) (version : Z)
    (rel_path mime : string) (inline : bool) : string :=
  let bucket := bucket_of environ in
  let local := workspace_download_url rel_path inline in
  if (bucket =? "")%string then local
  else match _signed_blob_url g bucket (blob_name_of k filename version) mime inline with
       | Some signed => or_str signed local
       | None => local
       end.

(** ** The tool *)

Section Artifact.
Context `{PyFloat} `{Resolve} {A : Type} `{Artifacts A} (guess_type : string → option string)
  (g : signer) (environ : environment_vars) (h : host) (e : env) (k : session_key).

(** [_resolve_under_env] *)
Definition _resolve_under_env (path : string) : res string := path_under_root path (resolve (working_dir e)).

(** [str(target.relative_to(env.working_dir))], else the file name. *)
Definition rel_path_of (target : string) : string :=
  if is_under (working_dir e) target
  then match relative_parts (working_dir e) target with [] => "." | ps => join "/" ps end
  else path_name target.

(** [read_bytes] reads a file of the environment. *)
Definition _save (read_bytes : string → res string) (path : string) (inline : bool) (c : context A) : res pydict * context A :=
  match _resolve_under_env path with
  | Raise x => (Ok (_error (exc_text x)), c)
  | Ok target =>
      match read_bytes target with
      | Raise x => (match media_error path x with Some m => Ok (_error m) | None => Raise x end, c)
      | Ok data =>
          let filename := path_name target in
          let mime := guess_mime_from_bytes guess_type filename data in
          match save_artifact (store c) filename (Blob data mime filename) with
          | (Raise x, s) => (Raise x, Context_ (state c) (artifact_delta c) s)
          | (Ok version, s) =>
              (Ok [("success", PBool true); ("filename", PStr filename); ("version", PInt version);
                   ("url", PStr (artifact_url g environ k filename version (rel_path_of target) mime inline))],
               Context_ (state c) (dset (artifact_delta c) filename version) s)
          end
      end
  end.

Definition _load (name dest_path : string) (f : fs) (c : context A) : res pydict * fs :=
  match load_artifact (store c) (PStr name) PNone with
  | Raise x => (Raise x, f)
  | Ok None => (Ok (_error ("Artifact not found: " +:+ name)), f)
  | Ok (Some b) =>
      match _resolve_under_env dest_path with
      | Raise x => (Ok (_error (exc_text x)), f)
      | Ok dest =>
          match write_file h f e dest (data b) with
          | Ok f' => (Ok [("success", PBool true); ("filename", PStr name); ("dest_path", PStr dest)], f')
          | Raise x => (if catches_os x then Ok (_error ("Failed to write " +:+ dest_path +:+ ": " +:+ exc_text x)) else Raise x, f)
          end
      end
  end.

Definition artifact (read_bytes : string → res string) (action : string) (path name dest_path : option string) (inline : bool)
    (f : fs) (c : context A) : res pydict * fs * context A :=
  if (action =? "save")%string then
    match path with
    | None => (Ok (_error "action='save' requires 'path'"), f, c)
    | Some p => let '(r, c') := _save read_bytes p inline c in (r, f, c')
    end
  else if (action =? "load")%string then
    match name, dest_path with
    | None, _ => (Ok (_error "action='load' requires 'name'"), f, c)
    | Some _, None => (Ok (_error "action='load' requires 'dest_path'"), f, c)
    | Some n, Some d => let '(r, f') := _load n d f c in (r, f', c)
    end
  else (Ok (_error ("Unknown action " +:+ repr_str action +:+ ". Use: save, load.")), f, c).
End Artifact.

(** ** What the model sees *)

Definition REDACTED_URL : string := "[link delivered to the user automatically " +:+ em_dash +:+ " do not repeat it]".

(** A part of a content: the response of a tool, or something else. *)
Inductive part := FunctionResponse (name : string) (response : pyval) | OtherPart.

(** The response with its link hidden, when there is one to hide. *)
Definition hidden (resp : pyval) : option pyval :=
  match resp with
  | PDict d =>
      match dget d "url" with
      | Some (PStr url) => if (url =? REDACTED_URL)%string then None else Some (PDict (dset d "url" (PStr REDACTED_URL)))
      | _ => None
      end
  | _ => None
  end.
Definition redact_part (p : part) : nat * part :=
  match p with
  | FunctionResponse name resp =>
      if (name =? ARTIFACT)%string
      then match hidden resp with Some r => (1, FunctionResponse name r) | None => (0, p) end
      else (0, p)
  | OtherPart => (0, p)
  end.
Fixpoint redact_parts (l : list part) : nat * list part :=
  match l with
  | [] => (0, [])
  | p :: rest => let '(n, p') := redact_part p in let '(m, rest') := redact_parts rest in (n + m, p' :: rest')
  end.
Fixpoint redact_artifact_urls (contents : list (list part)) : nat * list (list part) :=
  match contents with
  | [] => (0, [])
  | l :: rest => let '(n, l') := redact_parts l in let '(m, rest') := redact_artifact_urls rest in (n + m, l' :: rest')
  end.

(** ** The artifact service *)

(** [FilenamePreservingArtifactService] around a service that may lose the name. *)
Record FilenamePreservingArtifactService A := Preserving { _inner : A }.
Arguments Preserving {A}. Arguments _inner {A}.
Definition renamed (fn : pyval) (b : blob) : res (option blob) :=
  if negb (display_name b =? "")%string then Ok (Some b)
  else match fn with
       | PStr f => Ok (Some (Blob (data b) (mime_type b) f))
       | _ => Raise (ValueError "Input should be a valid string")
       end.
Definition save_preserving {A} `{Artifacts A} (s : FilenamePreservingArtifactService A) (f : string) (b : blob) :
    res Z * FilenamePreservingArtifactService A :=
  let '(r, i) := save_artifact (_inner s) f b in (r, Preserving i).
Definition load_preserving {A} `{Artifacts A} (s : FilenamePreservingArtifactService A) (fn ver : pyval) : res (option blob) :=
  let! found := load_artifact (_inner s) fn ver in
  match found with Some b => renamed fn b | None => Ok None end.
#[export] Instance preserving {A} `{Artifacts A} : Artifacts (FilenamePreservingArtifactService A) := {
  save_artifact := save_preserving;
  load_artifact := load_preserving
}.

(** ** Questions *)

Definition MAX_CHOICES : nat := 4.

Section Clarify.
Context `{PyFloat}.

Definition _normalize_choices (choices : pyval) : res (option (list string)) :=
  match choices with
  | PNone => Ok None
  | PList l =>
      let cleaned := List.filter (λ s, negb (s =? "")%string) (map (λ c, strip (py_str c)) l) in
      Ok (match cleaned with [] => None | _ => Some (take MAX_CHOICES cleaned) end)
  | _ => Raise (TypeError "choices must be a list of strings.")
  end.

Definition text_answer (v : pyval) : option string :=
  match v with PStr s => if (strip s =? "")%string then None else Some (strip s) | _ => None end.
Definition _extract_answer (payload : pyval) : option string :=
  match payload with
  | PDict d => text_answer (py_or (get d "answer") (get d "choice"))
  | _ => text_answer payload
  end.

Definition choices_json (normalized : option (list string)) : pyval :=
  match normalized with Some l => PList (map PStr l) | None => PNone end.
Definition clarify (question : string) (choices : pyval) (tc : option confirmation) (w : world) : pydict * world :=
  if (strip question =? "")%string then (_error "Question text is required.", w)
  else
    let question := strip question in
    match _normalize_choices choices with
    | Raise x => (_error (exc_text x), w)
    | Ok normalized =>
        let head ok := [("success", PBool ok); ("question", PStr question); ("choices", choices_json normalized)] in
        match request_user_confirmation tc question [("question", PStr question); ("choices", choices_json normalized)] w with
        | (None, w') => (head true ++ [("status", PStr "awaiting_user_response")], w')
        | (Some t, w') =>
            if negb (tc_confirmed t)
            then (head false ++ [("status", PStr "declined"); ("error", PStr "User declined to answer.")], w')
            else (head true ++ [("answer", match _extract_answer (tc_payload t) with Some a => PStr a | None => PNone end);
                                ("status", PStr "answered")], w')
        end
    end.
End Clarify.

(** * Facts *)

(** What the tools need of a service: a file they save under its own name comes back, by its
    version and as the latest one. *)
Class NamedLaws (A : Type) `{Artifacts A} : Prop := {
  named_saved s f b v s' : save_artifact s f b = (Ok v, s') → display_name b = f → load_artifact s' (PStr f) (PInt v) = Ok (Some b);
  named_latest s f b v s' : save_artifact s f b = (Ok v, s') → display_name b = f → load_artifact s' (PStr f) PNone = Ok (Some b)
}.
(** What the services of the framework give: the name may be lost on the way. *)
Class LossyLaws (A : Type) `{Artifacts A} : Prop := {
  lossy_load s f b v s' ver : save_artifact s f b = (Ok v, s') → ver = PInt v ∨ ver = PNone →
    ∃ b', load_artifact s' (PStr f) ver = Ok (Some b') ∧ data b' = data b ∧ mime_type b' = mime_type b ∧
      (display_name b' = display_name b ∨ display_name b' = "")
}.
Lemma preserving_load {A} `{LossyLaws A} (s : FilenamePreservingArtifactService A) f b v s' ver :
  save_artifact s f b = (Ok v, s') → display_name b = f → ver = PInt v ∨ ver = PNone → load_artifact s' (PStr f) ver = Ok (Some b).
Proof.
  cbn. unfold save_preserving, load_preserving. destruct (save_artifact (_inner s) f b) as [r i] eqn:Es. intros E Hb Hver. injection E as -> <-. cbn [_inner].
  destruct (lossy_load _ _ _ _ _ ver Es Hver) as (b' & -> & Hd & Hm & Hn). cbn [res_bind]. unfold renamed.
  destruct b as [bd bm bn], b' as [d m n]. cbn in *. subst. destruct (String.eqb_spec n ""); cbn [negb]; [done|]. by destruct Hn as [->|].
Qed.

Lemma preserving_laws {A} `{LossyLaws A} : NamedLaws (FilenamePreservingArtifactService A).
Proof. split; intros; (eapply preserving_load; [done..|]); auto. Qed.

(** Around a service that loses names the wrapper is one that keeps them. *)
Theorem names_come_back {A} `{LossyLaws A} : NamedLaws (FilenamePreservingArtifactService A).
Proof. apply preserving_laws. Qed.

(** ** Saving and loading *)

Section SaveFacts.
Context `{PyFloat} `{Resolve} {A : Type} `{NamedLaws A} (guess_type : string → option string)
  (g : signer) (environ : environment_vars) (h : host) (e : env) (k : session_key).

Lemma save_cases read_bytes path inline (c : context A) reply c' :
  _save guess_type g environ e k read_bytes path inline c = (Ok reply, c') →
  (∃ m, reply = _error m ∧ c' = c) ∨
  ∃ target data version s, _resolve_under_env e path = Ok target ∧ read_bytes target = Ok data ∧
    let filename := path_name target in let mime := guess_mime_from_bytes guess_type filename data in
    save_artifact (store c) filename (Blob data mime filename) = (Ok version, s) ∧
    c' = Context_ (state c) (dset (artifact_delta c) filename version) s ∧
    reply = [("success", PBool true); ("filename", PStr filename); ("version", PInt version);
             ("url", PStr (artifact_url g environ k filename version (rel_path_of e target) mime inline))].
Proof.
  unfold _save. destruct (_resolve_under_env e path) as [target|x] eqn:Et; [|intros [= <- <-]; left; by eexists].
  destruct (read_bytes target) as [data|x] eqn:Er.
  - cbv zeta. destruct (save_artifact _ _ _) as [[v|x] s] eqn:Es; [|done]. intros E. injection E as <- <-. right.
    exists target, data, v, s. done.
  - destruct (media_error path x) as [m|]; [|done]. intros [= <- <-]. left. by eexists.
Qed.

(** A link is either the path of the file at the workspace route, or one the signer made for
    the blob of this version in the session of the caller. *)
Lemma link_cases filename version rel mime inline :
  artifact_url g environ k filename version rel mime inline = workspace_download_url rel inline ∨
  ∃ type disposition, bucket_of environ ≠ "" ∧
    generate_signed_url g (bucket_of environ) (blob_name_of k filename version) type disposition =
      Ok (artifact_url g environ k filename version rel mime inline).
Proof.
  unfold artifact_url. cbv zeta. destruct (String.eqb_spec (bucket_of environ) ""); [by left|].
  unfold _signed_blob_url. destruct (default_valid g) as [valid|]; cbn [res_bind]; [|by left].
  destruct (if valid then _ else _) as [[]|]; cbn [res_bind]; [|by left].
  destruct (_ =? "")%string; [by left|]. destruct (generate_signed_url _ _ _ _ _) as [url|] eqn:Eu; cbn [res_bind]; [|by left].
  unfold or_str. destruct (String.eqb_spec url ""); [by left|]. right. eexists _, _. split; [done|]. exact Eu.
Qed.

End SaveFacts.

(** ** Redaction *)

(** A response of the artifact tool that shows no link. *)
Definition discreet (p : part) : Prop :=
  ∀ d url, p = FunctionResponse ARTIFACT (PDict d) → dget d "url" = Some (PStr url) → url = REDACTED_URL.
(** A part, or the same response with the link hidden. *)
Definition redacted (p p' : part) : Prop :=
  p' = p ∨ ∃ d url, p = FunctionResponse ARTIFACT (PDict d) ∧ dget d "url" = Some (PStr url) ∧ url ≠ REDACTED_URL ∧
    p' = FunctionResponse ARTIFACT (PDict (dset d "url" (PStr REDACTED_URL))).
Lemma redact_part_spec p : let '(n, p') := redact_part p in
  discreet p' ∧ redacted p p' ∧ (n = 0 → p' = p) ∧ (discreet p → n = 0).
Proof.
  unfold redact_part, discreet, redacted. destruct p as [name resp|]; [|split_and!; [done|by left|done|done]].
  destruct (String.eqb_spec name ARTIFACT) as [->|Hn].
  2:{ split_and!; [intros d url Hp; injection Hp as ->; done|by left|done|done]. }
  destruct resp as [| | | | | |d]; cbn [hidden]; try (split_and!; [done|by left|done|done]).
  destruct (dget d "url") as [v|] eqn:Ev; [|split_and!; [intros ? ? [= <-]; congruence|by left|done|done]].
  destruct v as [| | | |url| |]; try (split_and!; [intros ? ? [= <-]; congruence|by left|done|done]).
  destruct (String.eqb_spec url REDACTED_URL) as [->|Hu].
  - split_and!; [intros ? ? [= <-]; congruence|by left|done|done].
  - split_and!; [|right; exists d, url; done|done|intros Hd; by destruct Hu; apply (Hd d url)].
    intros d' url' Hp. injection Hp as <-. rewrite dget_dset_eq. congruence.
Qed.
Lemma redact_parts_spec l : let '(n, l') := redact_parts l in
  Forall discreet l' ∧ Forall2 redacted l l' ∧ (n = 0 → l' = l) ∧ (Forall discreet l → n = 0).
Proof.
  induction l as [|p l IH]; [by split_and!|]. cbn [redact_parts]. pose proof (redact_part_spec p) as Hp.
  destruct (redact_part p) as [n p'], (redact_parts l) as [m l']. destruct Hp as (H1 & H2 & H3 & H4), IH as (I1 & I2 & I3 & I4).
  split_and!; [by constructor|by constructor| |].
  - intros Hz. rewrite H3, I3 by lia. done.
  - intros [Hd Hl]%Forall_cons. rewrite H4, I4 by done. done.
Qed.

(** C39. What the model reads: no response of the artifact tool shows a link, however often the
    pass runs; nothing else of the request changes, and the count says whether anything did. *)
Theorem model_never_sees_links contents : let '(n, contents') := redact_artifact_urls contents in
  Forall (Forall discreet) contents' ∧ Forall2 (Forall2 redacted) contents contents' ∧ (n = 0 ↔ contents' = contents) ∧
  redact_artifact_urls contents' = (0, contents').
Proof.
  assert (∀ contents, let '(n, contents') := redact_artifact_urls contents in
    Forall (Forall discreet) contents' ∧ Forall2 (Forall2 redacted) contents contents' ∧ (n = 0 → contents' = contents) ∧
    (Forall (Forall discreet) contents → n = 0)) as Hall.
  { intros cs. induction cs as [|l cs IH]; [by split_and!|]. cbn [redact_artifact_urls]. pose proof (redact_parts_spec l) as Hp.
    destruct (redact_parts l) as [n l'], (redact_artifact_urls cs) as [m cs']. destruct Hp as (H1 & H2 & H3 & H4), IH as (I1 & I2 & I3 & I4).
    split_and!; [by constructor|by constructor| |].
    - intros Hz. rewrite H3, I3 by lia. done.
    - intros [Hd Hl]%Forall_cons. rewrite H4, I4 by done. done. }
  pose proof (Hall contents) as H1. destruct (redact_artifact_urls contents) as [n contents']. destruct H1 as (H1 & H2 & H3 & H4).
  split_and!; [done|done|split; [done|intros ->; by apply H4]|].
  pose proof (Hall contents') as H5. destruct (redact_artifact_urls contents') as [m contents'']. destruct H5 as (_ & _ & H7 & H8).
  specialize (H8 H1). subst m. by rewrite (H7 eq_refl).
Qed.

(** ** Questions *)

Section ClarifyFacts.
Context `{PyFloat}.
Lemma choices_bounded choices l : _normalize_choices choices = Ok (Some l) → 0 < length l ≤ MAX_CHOICES ∧ "" ∉ l.
Proof.
  unfold _normalize_choices. destruct choices as [| | | | |cs|]; try done. set (cl := List.filter _ _).
  assert ("" ∉ cl) as Hne by (unfold cl; intros Hin%list_elem_of_In%filter_In; by destruct Hin).
  clearbody cl. destruct cl as [|c0 rest]; [done|]. intros Heq. assert (take MAX_CHOICES (c0 :: rest) = l) as <- by congruence. split.
  - rewrite length_take. cbn [length]. unfold MAX_CHOICES. lia.
  - intros Hin. apply Hne. by eapply elem_of_take in Hin as (i & Hi & _); apply list_elem_of_lookup_2 in Hi.
Qed.
End ClarifyFacts.

(** A question that is blank, or whose choices are no list, is refused. Another is put to the
    user once, with at most four choices, none blank; resumed with the user's reply, it asks
    no more: declined, or answered with the text the user gave, if it is one. *)
Theorem clarify_asks_once `{PyFloat} question choices tc w :
  (strip question = "" ∨ (∃ x, _normalize_choices choices = Raise x) → ∃ m, clarify question choices tc w = (_error m, w)) ∧
  ∀ normalized, strip question ≠ "" → _normalize_choices choices = Ok normalized →
    (∀ l, normalized = Some l → 0 < length l ≤ MAX_CHOICES ∧ "" ∉ l) ∧
    match tc with
    | None => ∃ reply payload, clarify question choices tc w =
        (reply, World (w_cache w) (w_fs w) (w_state w) (w_requests w ++ [(strip question, payload)]) true) ∧
        get reply "status" = PStr "awaiting_user_response" ∧ get payload "choices" = choices_json normalized
    | Some t => ∃ reply, clarify question choices tc w = (reply, w) ∧
        if tc_confirmed t
        then get reply "status" = PStr "answered" ∧
             get reply "answer" = (match _extract_answer (tc_payload t) with Some a => PStr a | None => PNone end) ∧
             ∀ a, _extract_answer (tc_payload t) = Some a → a ≠ "" ∧ strip a = a
        else get reply "status" = PStr "declined" ∧ get reply "success" = PBool false
    end.
Proof.
  split.
  - unfold clarify. intros [->|[x Hx]]; [by eexists|]. destruct (_ =? _)%string; [by eexists|]. rewrite Hx. by eexists.
  - intros normalized Hq Hn. split; [intros l ->; by eapply choices_bounded|]. unfold clarify.
    destruct (String.eqb_spec (strip question) ""); [done|]. rewrite Hn. destruct tc as [t|]; cbn [request_user_confirmation].
    + destruct (tc_confirmed t); cbn [negb]; eexists; (split; [done|]); [|done]. split; [done|]. split; [done|].
      assert (∀ v a, text_answer v = Some a → a ≠ "" ∧ strip a = a) as Ht.
      { intros v a. unfold text_answer. destruct v; try done. destruct (String.eqb_spec (strip s) ""); [done|].
        intros [= <-]. split; [done|]. apply strip_idem. }
      unfold _extract_answer. intros a. destruct (tc_payload t); apply Ht.
    + by eexists _, _.
Qed.

(** ** Witnesses *)

Module Sample.
#[export] Instance fl : PyFloat := λ _, "".
#[export] Instance as_written : Resolve := λ p, p.
(** A service that forgets the names of its blobs. *)
Definition shelf : Type := list (string * blob).
Definition versions (s : shelf) (f : string) : list blob := map snd (List.filter (λ x, (x.1 =? f)%string) s).
Definition unnamed (b : blob) : blob := Blob (data b) (mime_type b) "".
#[export] Instance forgetful : Artifacts shelf := {
  save_artifact s f b := (Ok (Z.of_nat (length (versions s f))), s ++ [(f, b)]);
  load_artifact s fn ver := Ok (match fn, ver with
                                | PStr f, PInt v => if (v <? 0)%Z then None else unnamed <$> (versions s f !! Z.to_nat v)
                                | PStr f, PNone => unnamed <$> last (versions s f)
                                | _, _ => None
                                end)
}.
Lemma versions_snoc s f b : versions (s ++ [(f, b)]) f = versions s f ++ [b].
Proof. unfold versions. rewrite List.filter_app, map_app. cbn. by rewrite String.eqb_refl. Qed.
#[export] Instance forgetful_laws : LossyLaws shelf.
Proof.
  split. intros s f b v s' ver Hs Hver. cbn in Hs. injection Hs as <- <-. exists (unnamed b). split; [|by split_and!; [..|right]].
  cbn. destruct Hver as [->| ->].
  - rewrite (proj2 (Z.ltb_ge _ 0)), Nat2Z.id by lia. rewrite versions_snoc. rewrite lookup_app_r by lia. by rewrite Nat.sub_diag.
  - by rewrite versions_snoc, last_snoc.
Qed.
#[export] Instance named : NamedLaws (FilenamePreservingArtifactService shelf) := preserving_laws.
Definition box : env := Env "ann" (Some "/workspace") false None.
Definition here : host := Host "/home/ann" (λ _, None) (λ _, None) (λ _ _, Ok (Executed 0 "" "")).
Definition no_signer : signer := Signer (Raise (RuntimeError "no credentials")) (Ok tt) "" (λ _ _ _ _, Ok "").
Definition key : session_key := SessionKey "app" "ann" "s1".
Definition files (p : string) : res string := if (p =? "/workspace/out/chart.svg")%string then Ok "<svg/>" else Raise (FileNotFoundError p).
Definition start : context (FilenamePreservingArtifactService shelf) := Context_ [] [] (Preserving []).
Definition save_chart := _save (λ _, Some "image/svg+xml") no_signer [] box key files "out/chart.svg" true start.
Definition empty_world : world := World empty_cache (FS ∅ ∅) (Some []) [] false.
(** A host whose home is the workspace. *)
Definition home_box : env := Env "ann" (Some "/home/ann") true None.
(** A workspace reached through a link. *)
Definition linked : Resolve := λ p, if startswith "/work" p then "/data" +:+ sdrop 5 p else p.
End Sample.
Import Sample.

Lemma names_come_back_witness : ∃ v s, save_artifact (Preserving (A := shelf) []) "a.txt" (Blob "hi" "text/plain" "a.txt") = (Ok v, s) ∧
  load_artifact s (PStr "a.txt") PNone = Ok (Some (Blob "hi" "text/plain" "a.txt")).
Proof.
  eexists _, _. split; [reflexivity|]. by apply (@named_latest _ _ (names_come_back (A := shelf)) (Preserving []) "a.txt" (Blob "hi" "text/plain" "a.txt") 0%Z).
Defined.
Lemma clarify_asks_once_witness : ∃ w, clarify " Which region? " (PList [PStr "eu"; PStr " "; PStr "us"]) None empty_world =
    ([("success", PBool true); ("question", PStr "Which region?"); ("choices", PList [PStr "eu"; PStr "us"]); ("status", PStr "awaiting_user_response")], w) ∧
  length (w_requests w) = 1.
Proof.
  destruct (proj2 (clarify_asks_once " Which region? " (PList [PStr "eu"; PStr " "; PStr "us"]) None empty_world) (Some ["eu"; "us"]) ltac:(by vm_compute) ltac:(by vm_compute))
    as [_ (reply & payload & E & _)].
  assert (reply = [("success", PBool true); ("question", PStr "Which region?"); ("choices", PList [PStr "eu"; PStr "us"]); ("status", PStr "awaiting_user_response")])
    as -> by (vm_compute in E; congruence).
  eexists. split; [exact E|]. done.
Defined.

(** What [write] refuses, [load] overwrites. *)
Example load_skips_the_guard : let c := (save_artifact (Preserving (A := shelf) []) "keys" (Blob "ssh-rsa AAAA" "text/plain" "keys")).2 in
  _is_write_denied here "/home/ann/.ssh/authorized_keys" = true ∧
  _load here home_box "keys" ".ssh/authorized_keys" (FS ∅ ∅) (Context_ [] [] c) =
    (Ok [("success", PBool true); ("filename", PStr "keys"); ("dest_path", PStr "/home/ann/.ssh/authorized_keys")],
     env_write (FS ∅ ∅) home_box "/home/ann/.ssh/authorized_keys" "ssh-rsa AAAA").
Proof. split; vm_compute; reflexivity. Qed.
(** Through a link, the path in the download link loses its directory. *)
Example linked_workspace_link : let Hl : Resolve := linked in let b := Env "ann" (Some "/work") true None in
  _resolve_under_env b "out/a.svg" = Ok "/data/out/a.svg" ∧ rel_path_of b "/data/out/a.svg" = "a.svg".
Proof. by vm_compute. Qed.
(** A blank answer hides the choice the user made. *)
Example blank_hides_choice : _extract_answer (PDict [("answer", PStr " "); ("choice", PStr "eu")]) = None.
Proof. by vm_compute. Qed.
