(* ===== verification/Cymbal.v ===== *)
(** * The retail agents: [cymbal_subagents.py]

    The survey, the abandoned checkout and the stock notice of the shop: each handler is a
    function from the event to its answer. Events are the dictionaries a caller sends, so a
    missing key or a value of another type raises as in Python. Floats are rationals. *)

From S2P Require Import Prelude PyStr PyVal Sorting.
From Stdlib Require Import QArith Lqa.
#[local] Open Scope nat_scope.

(** ** Operators on values *)

(** [d[k]] *)
Definition item (d : pydict) (k : string) : res pyval :=
  match dget d k with Some v => Ok v | None => Raise (KeyError k) end.
(** [d.get(k, v)] *)
Definition get_default (d : pydict) (k : string) (v : pyval) : pyval := default v (dget d k).

Definition unsupported {A} (op : string) : res A := Raise (TypeError ("unsupported operand types for " +:+ op)).

(** [a <= b]: numbers, texts, and lists by the first place they differ in. *)
Fixpoint py_le (a b : pyval) {struct a} : res bool :=
  match a, b with
  | PStr s, PStr t => Ok (str_leb s t)
  | PList l, PList m =>
      (fix go (l m : list pyval) :=
         match l, m with
         | [], _ => Ok true
         | _ :: _, [] => Ok false
         | x :: l', y :: m' => if py_eq x y then go l' m' else py_le x y
         end) l m
  | _, _ =>
      match num_of a, num_of b with
      | Some p, Some q => Ok (Qle_bool p q)
      | _, _ => unsupported "<="
      end
  end.

(** The integer a [bool] or [int] is. *)
Definition int_of (v : pyval) : option Z :=
  match v with PBool b => Some (if b then 1%Z else 0%Z) | PInt z => Some z | _ => None end.
(** [n] copies. *)
Definition copies {A} (n : Z) (l : list A) : list A := concat (repeat l (Z.to_nat n)).
(** [a * b]: an integer times a text or a list repeats it. *)
Definition py_mul (a b : pyval) : res pyval :=
  match int_of a, int_of b with
  | Some m, Some n => Ok (PInt (m * n))
  | ia, ib =>
      match num_of a, num_of b with
      | Some p, Some q => Ok (PFloat (p * q))
      | _, _ =>
          match a, ib, b, ia with
          | PStr s, Some n, _, _ | _, _, PStr s, Some n => Ok (PStr (join "" (repeat s (Z.to_nat n))))
          | PList l, Some n, _, _ | _, _, PList l, Some n => Ok (PList (copies n l))
          | _, _, _, _ => unsupported "*"
          end
      end
  end.
(** [s.capitalize()] of a value. *)
Definition capitalize (v : pyval) : res string :=
  match v with
  | PStr "" => Ok ""
  | PStr (String c s) => Ok (String (upper_char c) (lower s))
  | _ => Raise (AttributeError "capitalize")
  end.

(** ** The agents *)

Definition alert : string := s1 "226" +:+ s1 "154" +:+ s1 "160" +:+ s1 "239" +:+ s1 "184" +:+ s1 "143".

(** [ExperienceReputationAgent.process_survey_event] *)
Definition process_survey_event (event : pydict) : res pydict :=
  let rating := get_default event "rating" (PInt 10) in
  let! is_detractor := py_le rating (PInt 6) in
  let store_id := get_default event "storeId" (PStr "birmingham") in
  let! order := item event "orderId" in
  let! dossier := (if is_detractor : bool then
      let! store := capitalize store_id in
      let! high := py_le rating (PInt 3) in
      Ok (PDict [("title", PStr (alert +:+ " " +:+ store +:+ " Autocentre Experience Alert"));
                 ("severity", PStr (if high : bool then "HIGH" else "MEDIUM"));
                 ("reason", get_default event "feedback" (PStr "Low satisfaction score"));
                 ("storeId", store_id);
                 ("customerEmail", get_default event "customerEmail" (PStr ""))])
    else Ok PNone) in
  Ok [("orderId", order); ("rating", rating); ("reviewLinkSent", PBool true);
      ("escalateToGoogleChat", PBool is_detractor); ("incidentDossier", dossier)].

Definition discount_percent : Z := 5.
(** [min((total * discount_percent) / 100.0, 35.0)] *)
Definition discount_of (total : pyval) : res Q :=
  let! product := py_mul total (PInt discount_percent) in
  match num_of product with
  | Some p => let share := (p / 100)%Q in Ok (if Qle_bool share 35 then share else 35%Q)
  | None => unsupported "/"
  end.
(** [CheckoutRecoveryAgent.process_stalled_checkout] *)
Definition process_stalled_checkout (event : pydict) : res pydict :=
  let! discount := discount_of (get_default event "totalGbp" (PInt 0)) in
  let! checkout := item event "checkoutId" in
  Ok [("checkoutId", checkout); ("eligible", PBool true); ("discountPercent", PInt discount_percent);
      ("discountGbp", PFloat discount); ("expiresInHours", PInt 2); ("a2aMessageType", PStr "commerce.recovery.offer")].

(** [and]: the second operand is evaluated only when the first is true. *)
Definition and_also (a : res bool) (b : res bool) : res bool := let! x := a in if x : bool then b else Ok false.
Definition same_item (x y : pydict) (k : string) : res bool :=
  let! a := item x k in let! b := item y k in Ok (py_eq a b).
(** [InventoryIntentAgent.process_replenishment] *)
Definition process_replenishment (intent stock : pydict) : res pydict :=
  let! price := item stock "unitPriceGbp" in
  let! quantity := item intent "targetQuantity" in
  let! total := py_mul price quantity in
  let! matched := and_also (same_item intent stock "sku")
    (and_also (same_item intent stock "storeId")
      (and_also (let! added := item stock "addedQuantity" in let! wanted := item intent "targetQuantity" in py_le wanted added)
        (let! cap := item intent "maxPriceCapGbp" in py_le total cap))) in
  let! intent_id := item intent "intentId" in
  Ok [("matched", PBool matched); ("intentId", intent_id); ("totalPriceGbp", if matched : bool then total else PNone);
      ("a2aMessageType", if matched : bool then PStr "inventory.intent.ready" else PNone)].

(** * Facts *)

Lemma mul_num a b p q : num_of a = Some p → num_of b = Some q → ∃ c r, py_mul a b = Ok c ∧ num_of c = Some r ∧ (r == p * q)%Q.
Proof.
  intros Ha Hb. unfold py_mul. destruct a as [|ba|za|qa| | |]; try done; destruct b as [|bb|zb|qb| | |]; try done;
    cbn [int_of num_of] in *; injection Ha as <-; injection Hb as <-; eexists _, _; (split; [done|]); (split; [done|]); unfold Qeq; cbn; lia.
Qed.
Lemma le_num a b p q : num_of a = Some p → num_of b = Some q → py_le a b = Ok (Qle_bool p q).
Proof. by destruct a, b; cbn; try done; intros [= <-] [= <-]. Qed.
Lemma mul_is_num a b c : py_mul a b = Ok c → is_Some (num_of b) → is_Some (num_of c) → is_Some (num_of a).
Proof.
  unfold py_mul. destruct a as [|ba|za|qa|sa|la|da]; cbn [int_of num_of]; try (intros _ _ _; by eexists).
  all: destruct b as [|bb|zb|qb|sb|lb|db]; cbn [int_of num_of]; try done; try (intros [= <-] _ [x Hx]; done).
  all: by intros _ [x Hx].
Qed.

(** An offer is made exactly for a checkout with an id whose total is a number. It takes off
    five percent, never more than 35 pounds, and nothing is charged on top of a total that is
    not negative. *)
Theorem discount_bounded event :
  (is_Some (dget event "checkoutId") → is_Some (num_of (get_default event "totalGbp" (PInt 0))) → ∃ offer, process_stalled_checkout event = Ok offer) ∧
  ∀ offer, process_stalled_checkout event = Ok offer →
    ∃ total discount, num_of (get_default event "totalGbp" (PInt 0)) = Some total ∧ get offer "discountGbp" = PFloat discount ∧
      (discount <= 35)%Q ∧ (discount <= total * 5 / 100)%Q ∧ (0 <= total → 0 <= discount <= total)%Q ∧
      (discount == total * 5 / 100 ∨ discount == 35)%Q ∧ get offer "checkoutId" = get event "checkoutId".
Proof.
  unfold process_stalled_checkout, discount_of, item. set (v := get_default event "totalGbp" (PInt 0)).
  assert (num_of (PInt discount_percent) = Some 5%Q) as H5 by done. split.
  - intros [c Hc] [t Ht]. destruct (mul_num _ _ _ _ Ht H5) as (pr & r & -> & Hr & _). cbn [res_bind]. rewrite Hr, Hc. cbn [res_bind]. by eexists.
  - intros offer. destruct (py_mul v (PInt discount_percent)) as [pr|] eqn:Em; cbn [res_bind]; [|done].
    destruct (num_of pr) as [r|] eqn:Er; [|done]. cbn [res_bind]. destruct (dget event "checkoutId") as [c|] eqn:Ec; [|done]. cbn [res_bind].
    intros E. injection E as <-.
    destruct (mul_is_num _ _ _ Em ltac:(by eexists) ltac:(by eexists)) as [t Ht]. destruct (mul_num _ _ _ _ Ht H5) as (pr' & r' & Em' & Hr' & Hq).
    rewrite Em in Em'. injection Em' as <-. rewrite Er in Hr'. injection Hr' as <-.
    eexists t, _. split; [done|]. split; [reflexivity|].
    assert (r / 100 == t * 5 / 100)%Q as Hs by (by rewrite Hq).
    assert (get [("checkoutId", c)] "checkoutId" = get event "checkoutId") as Hid by (unfold get; by rewrite Ec).
    unfold Qdiv in *. change (/ 100)%Q with (1 # 100)%Q in *. destruct (Qle_bool (r * (1 # 100)) 35) eqn:El.
    + apply Qle_bool_iff in El. split_and!; [lra|lra|intros ?; split; lra|left; exact Hs|exact Hid].
    + assert (35 <= t * 5 * (1 # 100))%Q as H35.
      { destruct (Qlt_le_dec 35 (r * (1 # 100))) as [Hl|Hl]; [lra|]. apply Qle_bool_iff in Hl. congruence. }
      split_and!; [lra|exact H35|intros ?; split; lra|right; reflexivity|exact Hid].
Qed.

(** What the guards of a match compare. *)
Lemma and_also_true a b : and_also a b = Ok true ↔ a = Ok true ∧ b = Ok true.
Proof. unfold and_also. destruct a as [[]|]; cbn [res_bind]; naive_solver. Qed.

(** A replenishment is matched exactly when product and store are those of the intent, the
    stock covers the quantity and the price of it is within the cap; only then are a price,
    the one compared, and a message given. *)
Theorem replenishment_sound intent stock answer : process_replenishment intent stock = Ok answer →
  ∃ matched total, get answer "matched" = PBool matched ∧
    (let! p := item stock "unitPriceGbp" in let! q := item intent "targetQuantity" in py_mul p q) = Ok total ∧
    (matched = true ↔
       same_item intent stock "sku" = Ok true ∧ same_item intent stock "storeId" = Ok true ∧
       (let! added := item stock "addedQuantity" in let! wanted := item intent "targetQuantity" in py_le wanted added) = Ok true ∧
       (let! cap := item intent "maxPriceCapGbp" in py_le total cap) = Ok true) ∧
    get answer "totalPriceGbp" = (if matched then total else PNone) ∧
    get answer "a2aMessageType" = (if matched then PStr "inventory.intent.ready" else PNone) ∧
    get answer "intentId" = get intent "intentId".
Proof.
  unfold process_replenishment. destruct (item stock "unitPriceGbp") as [p|]; cbn [res_bind]; [|done].
  destruct (item intent "targetQuantity") as [q|] eqn:Eq; cbn [res_bind]; [|done]. destruct (py_mul p q) as [total|]; cbn [res_bind]; [|done].
  set (m := and_also _ _). destruct m as [matched|] eqn:Em; cbn [res_bind]; [|done].
  unfold item at 1. destruct (dget intent "intentId") as [i|] eqn:Ei; cbn [res_bind]; [|done]. intros E. injection E as <-.
  exists matched, total. split; [done|]. split; [done|]. split; [|split_and!; [done|done|unfold get; by rewrite Ei]].
  transitivity (m = Ok true); [rewrite Em; naive_solver|]. unfold m. by rewrite !and_also_true.
Qed.

(** Every customer gets the link to review; the manager is told exactly of a rating of six or
    less, urgently of three or less. *)
Theorem survey_ungated event decision rating : process_survey_event event = Ok decision →
  num_of (get_default event "rating" (PInt 10)) = Some rating →
  get decision "reviewLinkSent" = PBool true ∧
  get decision "escalateToGoogleChat" = PBool (Qle_bool rating 6) ∧
  if Qle_bool rating 6
  then ∃ dossier, get decision "incidentDossier" = PDict dossier ∧
         get dossier "severity" = PStr (if Qle_bool rating 3 then "HIGH" else "MEDIUM") ∧
         get dossier "storeId" = get_default event "storeId" (PStr "birmingham")
  else get decision "incidentDossier" = PNone.
Proof.
  intros Hd Hr. unfold process_survey_event in Hd. rewrite (le_num _ (PInt 6) rating 6) in Hd by done. cbn [res_bind] in Hd.
  destruct (item event "orderId") as [o|]; cbn [res_bind] in Hd; [|done]. destruct (Qle_bool rating 6).
  - destruct (capitalize _) as [st|]; cbn [res_bind] in Hd; [|done]. rewrite (le_num _ (PInt 3) rating 3) in Hd by done. cbn [res_bind] in Hd.
    injection Hd as <-. split; [done|]. split; [done|]. eexists. split; [reflexivity|]. split; [by destruct (Qle_bool rating 3)|done].
  - cbn [res_bind] in Hd. injection Hd as <-. done.
Qed.

(** ** Witnesses *)

Module Sample.
Definition intent : pydict :=
  [("intentId", PStr "int_99"); ("sku", PStr "TYRE"); ("storeId", PStr "bham"); ("targetQuantity", PInt 4); ("maxPriceCapGbp", PInt 480)].
Definition stock (price : Z) : pydict := [("sku", PStr "TYRE"); ("storeId", PStr "bham"); ("addedQuantity", PInt 8); ("unitPriceGbp", PInt price)].
Definition survey : pydict := [("orderId", PStr "ord_1"); ("rating", PInt 2); ("storeId", PStr "birmingham")].
End Sample.
Import Sample.

Lemma discount_bounded_witness : ∃ offer, process_stalled_checkout [("checkoutId", PStr "chk"); ("totalGbp", PInt 900)] = Ok offer ∧
  ∃ discount, get offer "discountGbp" = PFloat discount ∧ (discount <= 35)%Q.
Proof.
  destruct (discount_bounded [("checkoutId", PStr "chk"); ("totalGbp", PInt 900)]) as [H1 H2].
  destruct H1 as [offer Ho]; [by eexists|by eexists|]. destruct (H2 offer Ho) as (t & d & _ & Hd & Hle & _). exists offer. split; [done|]. by exists d.
Defined.
Lemma replenishment_sound_witness : ∃ answer, process_replenishment intent (stock 110) = Ok answer ∧ get answer "totalPriceGbp" = PInt 440.
Proof.
  eexists. split; [vm_compute; reflexivity|].
  destruct (replenishment_sound intent (stock 110) _ eq_refl) as (m & t & Hm & Ht & _ & Hp & _).
  assert (t = PInt 440) as -> by (vm_compute in Ht; congruence). assert (m = true) as -> by (vm_compute in Hm; congruence). exact Hp.
Defined.
Lemma survey_ungated_witness : ∃ decision, process_survey_event survey = Ok decision ∧ get decision "escalateToGoogleChat" = PBool true.
Proof.
  eexists. split; [vm_compute; reflexivity|]. destruct (survey_ungated survey _ 2%Q eq_refl eq_refl) as (_ & H & _). exact H.
Defined.

(** The date of the last offer plays no part. *)
Example offers_repeat : process_stalled_checkout [("checkoutId", PStr "chk"); ("totalGbp", PInt 100); ("lastOfferDate", PStr "today")] =
  process_stalled_checkout [("checkoutId", PStr "chk"); ("totalGbp", PInt 100)].
Proof. by vm_compute. Qed.
(** A price below zero, or a quantity, is as good as any: the total is within every cap. *)
Example negative_quantity_matches :
  (λ a, get a "matched") <$> (match process_replenishment (dset intent "targetQuantity" (PInt (-4))) (stock 110) with Ok a => Some a | Raise _ => None end) = Some (PBool true).
Proof. by vm_compute. Qed.
