(* ===== verification/Services.v ===== *)
(** * The served application: [fast_api_app.py],
    [infrastructure/resilient_session_service.py], [a2a/routes.py]

    Which session, memory, artifact and task stores the environment asks for, the engine
    that is found or created for them, the stores that retry, and the life of the
    application. The framework's services are named by their URIs. *)

From S2P Require Import Prelude PyStr Names PyVal Environ DbResilience Artifacts.
From Stdlib Require Import QArith.
#[local] Open Scope nat_scope.

(** ** Engines *)

(** An agent engine of the project: its resource name and its display name. *)
Record engine := Engine { resource_name : string; engine_display_name : string }.

(** What the cloud gives: the default project, and the name of an engine it creates among
    those there are. *)
Record cloud := Cloud { default_project : res string; new_resource : list engine → string }.

Definition agent_name_of (environ : environment_vars) : string := env_str environ "AGENT_ENGINE_SESSION_NAME" "lha-memory-bank".

(** The engine of that display name: the first listed, else a new one. *)
Definition find_or_create (c : cloud) (name : string) (engines : list engine) : engine * list engine :=
  match first_such (λ a, (engine_display_name a =? name)%string) engines with
  | Some a => (a, engines)
  | None => let a := Engine (new_resource c engines) name in (a, engines ++ [a])
  end.

(** ** URIs *)

Definition given (environ : environment_vars) (name : string) : bool := negb (env_get environ name =? "")%string.

Definition resolve_session_service_uri (environ : environment_vars) : option string :=
  if env_flag environ "USE_IN_MEMORY_SESSION" false then None
  else if given environ "SESSION_DB_URL" then Some (env_get environ "SESSION_DB_URL") else None.

Record uris := Uris { session_uri : option string; memory_uri : option string; artifact_uri : option string }.

Definition memory_bank_resource (environ : environment_vars) : string :=
  or_str (env_get environ "LHA_MEMORY_BANK_RESOURCE_NAME") (env_get environ "AGENT_ENGINE_RESOURCE_NAME").
Definition engine_uri (resource : string) : string := "agentengine://" +:+ resource.
Definition pinned_memory (environ : environment_vars) : option string :=
  let r := memory_bank_resource environ in if (r =? "")%string then None else Some (engine_uri r).
Definition sqlite_uri (data_dir : string) : string := "sqlite:///" +:+ data_dir +:+ "/lha_sessions.db".
Definition resolved_artifact (environ : environment_vars) : option string :=
  if given environ "ARTIFACT_SERVICE_URI" then Some (env_get environ "ARTIFACT_SERVICE_URI")
  else if given environ "LOGS_BUCKET_NAME" then Some ("gs://" +:+ env_get environ "LOGS_BUCKET_NAME") else None.

Definition _resolve_service_uris (data_dir : string) (c : cloud) (environ : environment_vars) (engines : list engine) :
    res uris * list engine :=
  let use_in_memory_session := env_flag environ "USE_IN_MEMORY_SESSION" false in
  let memory := pinned_memory environ in
  let session :=
    match resolve_session_service_uri environ with
    | Some u => Some u
    | None => if negb use_in_memory_session && negb (given environ "K_SERVICE") && negb (given environ "AGENT_ENGINE_RESOURCE_NAME")
              then Some (sqlite_uri data_dir) else None
    end in
  match session with
  | Some _ => (Ok (Uris session memory (resolved_artifact environ)), engines)
  | None =>
      if use_in_memory_session then (Ok (Uris None memory (resolved_artifact environ)), engines)
      else match default_project c with
           | Raise x => (Raise x, engines)
           | Ok _ =>
               let '(a, engines) := find_or_create c (agent_name_of environ) engines in
               let session := engine_uri (resource_name a) in
               (Ok (Uris (Some session) (Some (default session memory)) (resolved_artifact environ)), engines)
           end
  end.

(** ** Stores *)

Inductive task_store := InMemoryTasks | DatabaseTasks (url : string) (pooled resilient : bool).
Definition task_url (data_dir : string) (environ : environment_vars) : string :=
  or_str (env_get environ "TASK_DB_URL") ("sqlite+aiosqlite:///" +:+ data_dir +:+ "/lha_tasks.db").
Definition _build_task_store (data_dir : string) (environ : environment_vars) : task_store :=
  if env_flag environ "USE_IN_MEMORY_TASK_STORE" false then InMemoryTasks
  else let url := task_url data_dir environ in
       let pooled := is_pooled_sql_url (Some url) in DatabaseTasks url pooled pooled.

(** A session service, and whether it retries. *)
Inductive session_service S := Plain (s : S) | ResilientSessionService (s : S).
Arguments Plain {S}. Arguments ResilientSessionService {S}.
Definition _maybe_resilient_session_service {S} (service : S) (uri : option string) : session_service S :=
  if is_pooled_sql_url uri then ResilientSessionService service else Plain service.

(** A method of a store, called through the wrapper: three attempts. *)
Definition _retry `{Asyncpg} {St A} (op : St → (A + dbexc) * St) (base_delay : Q) (s : St) : outcome A * St :=
  (retry_on_disconnect op 3 base_delay s).1.
Definition through `{Asyncpg} {S St A} (service : session_service S) (op : S → St → (A + dbexc) * St) (base_delay : Q) (s : St) : outcome A * St :=
  match service with
  | Plain i => match op i s with (inl a, s') => (Returned a, s') | (inr e, s') => (Raised e, s') end
  | ResilientSessionService i => _retry (op i) base_delay s
  end.

(** ** The runner and the application *)

Record runner_config := RunnerConfig { r_uris : uris; r_resilient : bool; r_session_kwargs : option pydict }.
Definition session_kwargs (environ : environment_vars) (uri : option string) : option pydict :=
  if is_pooled_sql_url uri then Some (resilient_engine_kwargs environ true) else None.
Definition build_runner (data_dir : string) (c : cloud) (environ : environment_vars) (engines : list engine) : res runner_config * list engine :=
  let '(u, engines) := _resolve_service_uris data_dir c environ engines in
  (let! u := u in Ok (RunnerConfig u (is_pooled_sql_url (session_uri u)) (session_kwargs environ (session_uri u))), engines).

Definition allow_origins (environ : environment_vars) : option (list string) :=
  if given environ "ALLOW_ORIGINS" then Some (split_on "," (env_get environ "ALLOW_ORIGINS")) else None.
Definition otel_to_cloud (environ : environment_vars) : bool := env_flag environ "LHA_OTEL_TO_CLOUD" (given environ "K_SERVICE").
Record served := Served { a_uris : uris; a_kwargs : option pydict; a_origins : option (list string); a_otel : bool }.
Definition _build_app (data_dir : string) (c : cloud) (environ : environment_vars) (engines : list engine) : res served * list engine :=
  let '(u, engines) := _resolve_service_uris data_dir c environ engines in
  (let! u := u in Ok (Served u (session_kwargs environ (session_uri u)) (allow_origins environ) (otel_to_cloud environ)), engines).

(** The attribute [app] of the module: built once, unless it is disabled. *)
Definition module_getattr (data_dir : string) (c : cloud) (environ : environment_vars) (name : string)
    (built : option served) (engines : list engine) : res served * option served * list engine :=
  match built, (name =? "app")%string with
  | Some a, true => (Ok a, built, engines)
  | _, false => (Raise (AttributeError ("module 'horizon.fast_api_app' has no attribute " +:+ repr_str name)), built, engines)
  | None, true =>
      if env_flag environ "LHA_ADK_SKIP_APP_BUILD" false
      then (Raise (AttributeError "horizon.fast_api_app.app is disabled by LHA_ADK_SKIP_APP_BUILD"), built, engines)
      else match _build_app data_dir c environ engines with
           | (Ok a, engines) => (Ok a, Some a, engines)
           | (Raise x, engines) => (Raise x, built, engines)
           end
  end.

(** [_shutdown_runtime]: each step may raise and is tried; [None]: the store has no close. *)
Definition _shutdown_runtime {St} (close_siblings : St → res unit * St) (close_store : option (St → res unit * St)) (s : St) : St :=
  let s := (close_siblings s).2 in
  match close_store with Some close => (close s).2 | None => s end.
(** The lifespan: the body of the service, then the shutdown, however the body ends. *)
Definition lifespan {St A} (body : St → res A * St) (close_siblings : St → res unit * St) (close_store : option (St → res unit * St))
    (s : St) : res A * St :=
  let '(r, s) := body s in (r, _shutdown_runtime close_siblings close_store s).

(** ** The card of the agent *)

Record interface := Interface { protocol_binding : string; protocol_version : string; i_url : string }.
Definition A2A_RPC_PATH : string := "/a2a".
Definition rpc_url (environ : environment_vars) : string := env_str environ "APP_URL" "http://127.0.0.1:8001" +:+ A2A_RPC_PATH.
Definition _add_v0_3_compat_interface (supported_interfaces : list interface) : list interface :=
  match supported_interfaces with
  | [] => []
  | first :: _ =>
      if existsb (λ i, (protocol_version i =? "0.3")%string) supported_interfaces then supported_interfaces
      else supported_interfaces ++ [Interface "JSONRPC" "0.3" (i_url first)]
  end.

(** * Facts *)

Section ServiceFacts.
Context (data_dir : string) (c : cloud).

Lemma found_again name engines a engines' : find_or_create c name engines = (a, engines') →
  find_or_create c name engines' = (a, engines') ∧
  (engines' = engines ∨ engines' = engines ++ [a] ∧ ∀ b, b ∈ engines → engine_display_name b ≠ name).
Proof.
  unfold find_or_create. destruct (first_such _ engines) as [b|] eqn:Ef.
  - intros E. injection E as <- <-. rewrite Ef. auto.
  - intros E. injection E as <- <-. rewrite first_such_None in Ef. split.
    + destruct (first_such _ (engines ++ _)) as [b|] eqn:Eg.
      * apply first_such_Some in Eg as [[Hb|Hb%list_elem_of_singleton]%elem_of_app Hn].
        -- specialize (Ef b Hb). congruence.
        -- by rewrite Hb.
      * rewrite first_such_None in Eg. specialize (Eg (Engine (new_resource c engines) name) ltac:(set_solver)). cbn in Eg. by rewrite String.eqb_refl in Eg.
    + right. split; [done|]. intros b Hb Hn. specialize (Ef b Hb). cbn in Ef. by rewrite Hn, String.eqb_refl in Ef.
Qed.

Lemma resolved_cases environ engines u engines' : _resolve_service_uris data_dir c environ engines = (Ok u, engines') →
  _resolve_service_uris data_dir c environ engines' = (Ok u, engines') ∧
  (engines' = engines ∨ ∃ a, engines' = engines ++ [a] ∧ engine_display_name a = agent_name_of environ ∧
     ∀ b, b ∈ engines → engine_display_name b ≠ agent_name_of environ).
Proof.
  unfold _resolve_service_uris. cbv zeta. set (session := match resolve_session_service_uri environ with Some u => Some u | None => _ end).
  destruct session as [s|]; [intros E; injection E as <- <-; auto|].
  destruct (env_flag _ _ _); [intros E; injection E as <- <-; auto|]. destruct (default_project c); [|done].
  destruct (find_or_create c _ engines) as [e engines1] eqn:Ef. destruct (found_again _ _ _ _ Ef) as [Ha Hc]. intros E. injection E as <- <-.
  rewrite Ha. split; [done|]. destruct Hc as [->|[-> Hb]]; [by left|]. right. exists e. split_and!; [done| |done].
  unfold find_or_create in Ef. destruct (first_such _ engines) as [b|] eqn:Eg; [|by injection Ef as <-].
  injection Ef as <- _. apply first_such_Some in Eg as [Hin Hn]. by apply String.eqb_eq in Hn.
Qed.


(** The session store, in every environment: none exactly when memory is asked for; else the
    database that is given; else a file beside the code, which a deployment never uses; else
    an engine. Memory is on the engine that is pinned, else on that of the sessions. *)
Theorem session_backend environ engines u engines' : _resolve_service_uris data_dir c environ engines = (Ok u, engines') →
  let in_memory := env_flag environ "USE_IN_MEMORY_SESSION" false in
  (session_uri u = None ↔ in_memory = true) ∧
  (in_memory = false → given environ "SESSION_DB_URL" = true → session_uri u = Some (env_get environ "SESSION_DB_URL") ∧ engines' = engines) ∧
  (in_memory = false → given environ "SESSION_DB_URL" = false →
     if given environ "K_SERVICE" || given environ "AGENT_ENGINE_RESOURCE_NAME"
     then ∃ e, e ∈ engines' ∧ engine_display_name e = agent_name_of environ ∧ session_uri u = Some (engine_uri (resource_name e)) ∧
            (pinned_memory environ = None → memory_uri u = session_uri u)
     else session_uri u = Some (sqlite_uri data_dir) ∧ engines' = engines) ∧
  (∀ m, pinned_memory environ = Some m → memory_uri u = Some m).
Proof.
  unfold _resolve_service_uris, resolve_session_service_uri. cbv zeta. destruct (env_flag environ "USE_IN_MEMORY_SESSION" false) eqn:Ef; cbn [negb andb].
  { intros E. injection E as <- <-. split_and!; done. }
  destruct (given environ "SESSION_DB_URL") eqn:Ed.
  { intros E. injection E as <- <-. split_and!; done. }
  destruct (given environ "K_SERVICE" || given environ "AGENT_ENGINE_RESOURCE_NAME") eqn:Ek.
  - assert (negb (given environ "K_SERVICE") && negb (given environ "AGENT_ENGINE_RESOURCE_NAME") = false) as ->.
    { rewrite <-negb_orb, Ek. done. }
    destruct (default_project c); [|done]. destruct (find_or_create c _ engines) as [e engines1] eqn:Eg. intros E. injection E as <- <-.
    split_and!; [done|done| |].
    + intros _ _. exists e. cbn [session_uri memory_uri]. split_and!; [| |done|by intros ->].
      * unfold find_or_create in Eg. destruct (first_such _ engines) as [b|] eqn:Eb; injection Eg as <- <-; [by apply first_such_Some in Eb as [? _]|set_solver].
      * unfold find_or_create in Eg. destruct (first_such _ engines) as [b|] eqn:Eb; injection Eg as <- <-; [|done].
        apply first_such_Some in Eb as [_ Hn]. by apply String.eqb_eq in Hn.
    + intros m ->. done.
  - apply orb_false_iff in Ek as [-> ->]. cbn [negb andb]. intros E. injection E as <- <-. split_and!; done.
Qed.
End ServiceFacts.

(** A link names the bucket the artifacts are stored in, as long as the bucket is given bare
    and no other store is. *)
Theorem links_name_the_store environ : given environ "ARTIFACT_SERVICE_URI" = false →
  strip (env_get environ "LOGS_BUCKET_NAME") = env_get environ "LOGS_BUCKET_NAME" → startswith "gs://" (env_get environ "LOGS_BUCKET_NAME") = false →
  resolved_artifact environ = (if (bucket_of environ =? "")%string then None else Some ("gs://" +:+ bucket_of environ)).
Proof.
  intros Ha Hs Hp. unfold resolved_artifact, bucket_of, removeprefix. rewrite Ha, Hs, Hp. unfold given. by destruct (_ =? "")%string.
Qed.

(** The card offers version 0.3 once, however often it is served, at the address of its first
    interface; what it offered before stays. *)
Theorem compat_offered_once l : let l' := _add_v0_3_compat_interface l in
  _add_v0_3_compat_interface l' = l' ∧ l `prefix_of` l' ∧
  (l ≠ [] → ∃ i, i ∈ l' ∧ protocol_version i = "0.3" ∧ ((i ∈ l) ∨ i_url <$> head l = Some (i_url i))).
Proof.
  cbv zeta. destruct l as [|first l]; [split_and!; [done|done|done]|].
  destruct (existsb (λ i, (protocol_version i =? "0.3")%string) (first :: l)) eqn:Ex.
  - assert (_add_v0_3_compat_interface (first :: l) = first :: l) as Hl by (unfold _add_v0_3_compat_interface; by rewrite Ex).
    rewrite !Hl. split_and!; [done|done|]. intros _. apply existsb_elem in Ex as (i & Hi & Hv). exists i.
    apply String.eqb_eq in Hv. split_and!; [done|done|by left].
  - assert (_add_v0_3_compat_interface (first :: l) = first :: l ++ [Interface "JSONRPC" "0.3" (i_url first)]) as Hl.
    { unfold _add_v0_3_compat_interface. by rewrite Ex. }
    rewrite !Hl. split_and!; [|by exists [Interface "JSONRPC" "0.3" (i_url first)]|].
    + unfold _add_v0_3_compat_interface. rewrite app_comm_cons, existsb_app, Ex. done.
    + intros _. exists (Interface "JSONRPC" "0.3" (i_url first)). split; [set_solver|]. split; [done|]. by right.
Qed.

(** A wrapped read that loses the connection twice at most ends as an unwrapped one. *)
Theorem reads_survive `{Asyncpg} {S St A} (i : S) (op : S → St → (A + dbexc) * St) base_delay s j s1 a s2 :
  j < 3 → disconnects (op i) j s s1 → op i s1 = (inl a, s2) →
  through (ResilientSessionService i) op base_delay s = (Returned a, s2).
Proof.
  intros Hj Hd Ho. cbn [through]. unfold _retry, retry_on_disconnect. change (Z.to_nat 3) with 3.
  assert (∀ n k last s, j < n → disconnects (op i) j s s1 → (retry_loop (op i) base_delay n k last s).1 = (Returned a, s2)) as Hloop.
  { clear Hj Hd s. induction j as [|j' IH]; intros n k last s Hn Hd; cbn [disconnects] in Hd; (destruct n as [|n]; [lia|]).
    - subst s1. rewrite (retry_loop_end _ _ _ _ _ _ _ _ Ho) by done. done.
    - destruct Hd as (e & s' & He & Ht & Hd). rewrite (retry_loop_next _ _ _ _ _ _ _ _ He Ht) by lia. apply IH; [lia|done]. }
  by apply Hloop.
Qed.

(** ** Witnesses *)

Module Sample.
Definition cloud_ : cloud := Cloud (Ok "proj") (λ l, "engines/" +:+ str_of_nat (length l)).
Definition deployed : environment_vars := [("K_SERVICE", "lha")].
(** A log of events that loses the reply of its first commit. *)
Definition lossy_append (_ : unit) (s : list nat * bool) : (unit + dbexc) * (list nat * bool) :=
  match s with (log, true) => (inr reset, (log ++ [7], false)) | (log, false) => (inl tt, (log ++ [7], false)) end.
Definition flaky_get (_ : unit) (k : nat) : (nat + dbexc) * nat := flaky reset k.
End Sample.
Import Sample.

Lemma session_backend_witness : ∃ u engines', _resolve_service_uris "/srv/.data" cloud_ deployed [] = (Ok u, engines') ∧ memory_uri u = session_uri u.
Proof.
  eexists _, _. split; [vm_compute; reflexivity|].
  destruct (session_backend "/srv/.data" cloud_ deployed [] _ _ ltac:(vm_compute; reflexivity)) as (_ & _ & H & _).
  destruct (H ltac:(by vm_compute) ltac:(by vm_compute)) as (e & _ & _ & _ & Hm). by apply Hm; vm_compute.
Defined.
Lemma links_name_the_store_witness : resolved_artifact [("LOGS_BUCKET_NAME", "logs")] = Some "gs://logs".
Proof. by apply (links_name_the_store [("LOGS_BUCKET_NAME", "logs")]). Defined.
Lemma reads_survive_witness : let _ : Asyncpg := true in through (ResilientSessionService tt) flaky_get (1 # 4) 2 = (Returned 7, 0).
Proof.
  intros H. apply (reads_survive (H := H) tt flaky_get (1 # 4) 2 2 0 7 0); [lia| |done].
  by exists reset, 1; split_and!; [..|exists reset, 0; split_and!].
Defined.

(** With an engine named for memory, sessions go to another one. *)
Example sessions_on_another_engine : let environ := [("AGENT_ENGINE_RESOURCE_NAME", "engines/shared")] in
  (_resolve_service_uris "/srv/.data" cloud_ environ []) =
    (Ok (Uris (Some "agentengine://engines/0") (Some "agentengine://engines/shared") None), [Engine "engines/0" "lha-memory-bank"]).
Proof. by vm_compute. Qed.
(** A bucket given with its scheme is stored to under one name and linked to under another. *)
Example scheme_given_twice : let environ := [("LOGS_BUCKET_NAME", "gs://logs")] in
  resolved_artifact environ = Some "gs://gs://logs" ∧ bucket_of environ = "logs".
Proof. by vm_compute. Qed.
(** An append whose reply is lost is done again. *)
Example append_done_twice : let _ : Asyncpg := true in
  through (ResilientSessionService tt) lossy_append (1 # 4) ([], true) = (Returned tt, ([7; 7], false)).
Proof. by vm_compute. Qed.
