(* ===== verification/LocalProcess.v ===== *)
(** * The host's processes: [environment/local_process.py], [tools/processes/interactive.py]

    The thread that reads a child's terminal into the handle of [ProcessTool], as a step
    relation that interleaves with what the processes do; killing and writing; and the
    detector of prompts. The terminal is a parameter with the behaviour of a pseudo-terminal
    as laws. Times are in milliseconds. *)

From S2P Require Import Prelude PyStr Regex OutputOverflow ProcessTool.
Import Utf8.
#[local] Open Scope nat_scope.

(** ** The terminal *)

(** What [os.read] of the master end gives. *)
Inductive os_read := Data (bs : list Z) | WouldBlock | InputOutput | OtherError.

(** The host as the reader sees it: all that was written to the terminal so far, how much
    of it was read, whether any process still holds it open, and the child's return code.
    [moves]: what the processes may do meanwhile. *)
Class Terminal (W : Type) := {
  written : W → list Z;
  taken : W → nat;
  held : W → bool;
  returncode : W → option Z;
  master_read : W → os_read * W;
  moves : W → W → Prop
}.

(** A pseudo-terminal gives what was written, in order and in pieces, and reports an error
    or the end only when everything is read; other than "would block" only when no process
    holds it. What is written and a return code stay. *)
Class TerminalLaws (W : Type) `{Terminal W} := {
  taken_within w : taken w ≤ length (written w);
  read_keeps w : let w' := (master_read w).2 in
    written w' = written w ∧ held w' = held w ∧ returncode w' = returncode w;
  read_gives w : match (master_read w).1 with
                 | Data bs =>
                     take (taken (master_read w).2) (written w) = take (taken w) (written w) ++ bs ∧
                     (bs = [] → held w = false ∧ taken w = length (written w))
                 | WouldBlock => taken w = length (written w) ∧ taken (master_read w).2 = taken w
                 | InputOutput | OtherError =>
                     held w = false ∧ taken w = length (written w) ∧ taken (master_read w).2 = taken w
                 end;
  moves_on w w' : moves w w' → written w `prefix_of` written w' ∧ taken w' = taken w;
  moves_held w w' : moves w w' → held w = false → held w' = false ∧ written w' = written w;
  moves_code w w' c : moves w w' → returncode w = Some c → returncode w' = Some c
}.

(** ** The reader thread *)

(** Where the loop stands: before its read, before [poll], before the second read, before
    [wait], and after it. *)
Inductive place := Reading | Polling | Draining | Waiting | Ended.
#[global] Instance place_eq_dec : EqDecision place.
Proof. solve_decision. Defined.

Section Reader.
Context {W : Type} `{Terminal W}.

Definition thread : Type := place * local_handle * W.

Definition after_read (r : os_read) (h : local_handle) : place * local_handle :=
  match r with
  | Data [] => (Waiting, h)
  | Data bs => (Reading, on_chunk bs h)
  | WouldBlock => (Polling, h)
  | InputOutput | OtherError => (Waiting, h)
  end.
Definition after_poll (code : option Z) : place := match code with Some _ => Draining | None => Reading end.
Definition after_drain (r : os_read) (h : local_handle) : place * local_handle :=
  match r with
  | Data [] => (Waiting, h)
  | Data bs => (Reading, on_chunk bs h)
  | WouldBlock | InputOutput | OtherError => (Waiting, h)
  end.

(** One turn of [_reader_loop]; [now]: the time when the wait is over, because the child has
    ended or five seconds have passed. *)
Definition _reader_loop (now : Z) (t : thread) : thread :=
  let '(p, h, w) := t in
  match p with
  | Reading => let '(r, w) := master_read w in (after_read r h, w)
  | Polling => (after_poll (returncode w), h, w)
  | Draining => let '(r, w) := master_read w in (after_drain r h, w)
  | Waiting => (Ended, on_exit (returncode w) now h, w)
  | Ended => (Ended, h, w)
  end.

(** The thread beside the processes. *)
Inductive step : thread → thread → Prop :=
| step_processes p h w w' : moves w w' → step (p, h, w) (p, h, w')
| step_reader t now : step t (_reader_loop now t).

(** The thread alone. *)
Fixpoint alone (n : nat) (now : Z) (t : thread) : thread :=
  match n with 0 => t | S n => alone n now (_reader_loop now t) end.

(** Without a pseudo-terminal: [read(4096)] of the pipe, which waits for that many bytes or
    the end. *)
Definition _pipe_reader_loop (now : Z) (code : option Z) (chunks : list (list Z)) (h : local_handle) : local_handle :=
  on_exit code now (foldl (λ h c, on_chunk c h) h chunks).
Fixpoint pipe_chunks (fuel : nat) (out : list Z) : list (list Z) :=
  match fuel, out with
  | 0, _ | _, [] => []
  | S f, _ => take (Z.to_nat 4096) out :: pipe_chunks f (drop (Z.to_nat 4096) out)
  end.
(** The pieces the reader has while the child still runs: the full ones. *)
Definition pipe_shown (out : list Z) : list Z := take (4096 * (length out / 4096)) out.
End Reader.

(** ** Killing and writing *)

Inductive signal := SIGTERM | SIGKILL.

(** What the host offers: the group of a process, signals to a group, [Popen.kill], waiting
    for the handle's exit event, and a write that may take only part of the bytes. *)
Record host_calls (W : Type) := HostCalls {
  exit_is_set : W → bool;
  has_killpg : bool;
  getpgid : W → Z → option Z;
  killpg : Z → signal → W → option W;
  popen_kill : W → W;
  wait_exit : Z → W → bool * W;
  os_write : list Z → W → res nat * W
}.
Arguments exit_is_set {W}. Arguments has_killpg {W}. Arguments getpgid {W}. Arguments killpg {W}.
Arguments popen_kill {W}. Arguments wait_exit {W}. Arguments os_write {W}.

Section Control.
Context {W : Type} (c : host_calls W).

(** [kill], with the signals it has sent. *)
Definition kill (pid : Z) (w : W) : list (Z * signal) * W :=
  if exit_is_set c w then ([], w)
  else if negb (has_killpg c) then ([], (wait_exit c 1000 (popen_kill c w)).2)
  else match getpgid c w pid with
       | None => ([], w)
       | Some pgid =>
           match killpg c pgid SIGTERM w with
           | None => ([], w)
           | Some w =>
               let '(exited, w) := wait_exit c 2000 w in
               if exited : bool then ([(pgid, SIGTERM)], w)
               else match killpg c pgid SIGKILL w with
                    | None => ([(pgid, SIGTERM)], w)
                    | Some w => ([(pgid, SIGTERM); (pgid, SIGKILL)], (wait_exit c 1000 w).2)
                    end
           end
       end.

(** [write]: the count that [os.write] gives is not looked at. *)
Definition write (session_id : string) (data : list Z) (w : W) : res unit * W :=
  if exit_is_set c w then (Raise (RuntimeError ("process " +:+ session_id +:+ " has already exited")), w)
  else match os_write c data w with
       | (Ok _, w) => (Ok tt, w)
       | (Raise x, w) => (Raise x, w)
       end.
End Control.

(** ** Prompts *)

Definition INTERACTIVE_IDLE_MS : Z := 3000.
Definition _INSPECT_WINDOW_BYTES : nat := 512.

(** A pattern: its flags, whether it starts with the [^] of [(?m)], and what comes before the
    [\Z] all of them end with. *)
Record prompt_pattern := Pattern { p_flags : reflags; p_line : bool; p_body : regex }.
Definition at_end : regex := RLook true (RSet true []).
Definition _PROMPT_PATTERNS : list prompt_pattern :=
  [ Pattern IGNORECASE false (re_of "pass(word|phrase)\s*[:?]\s*");
    Pattern IGNORECASE false (re_of "pass(word|phrase)\s+for\s+\S+\s*[:?]\s*");
    Pattern noflags false (re_of "\[[yY]/[nN]\]\s*");
    Pattern noflags false (re_of "\([yY]es/[nN]o\)\??\s*");
    Pattern noflags false (re_of "\([yY]/[nN]\)\??\s*");
    Pattern noflags true (re_of ">>>\s*");
    Pattern noflags true (re_of "In\s*\[\d+\]:\s*");
    Pattern noflags true (re_of "\(Pdb\)\s*") ].

(** The matched text at the first position that matches; [bol]: the position starts a line. *)
Fixpoint find_prompt (p : prompt_pattern) (bol : bool) (prev : option ascii) (s : string) : option string :=
  match (if p_line p && negb bol then [] else rmatch (p_flags p) (RSeq (p_body p) at_end) (start_at prev s)) with
  | st :: _ => Some (span_text s st)
  | [] => match s with "" => None | String c s' => find_prompt p (Ascii.eqb c NL) (Some c) s' end
  end.

(** Bytes and code points as characters; one beyond Latin-1 stands as a letter. *)
Definition char_of (c : Z) : ascii := ascii_of_N (if (c <? 256)%Z then Z.to_N c else 254%N).
Definition text_of (l : list Z) : string := string_of_list_ascii (map char_of l).

Definition _ANSI_ESCAPE_RE : regex := re_of (String "027" "\[[0-9;?]*[A-Za-z]").
Definition _strip_ansi (data : list Z) : list Z := cps (re_sub noflags _ANSI_ESCAPE_RE "" (text_of data)).
(** [text.replace("\r\n", "\n").rstrip("\r")] *)
Definition normalized (window : list Z) : string :=
  rstrip (Ascii.eqb CR) (replace_sub (String CR NLs) NLs (text_of (decode window))).
Definition tail_window (tail : list Z) : list Z := drop (length tail - _INSPECT_WINDOW_BYTES) tail.

Definition detect_interactive_prompt (tail : list Z) (idle : Z) : option string :=
  if (idle <? INTERACTIVE_IDLE_MS)%Z then None
  else match tail with
       | [] => None
       | _ => let text := normalized (_strip_ansi (tail_window tail)) in first_some (λ p, find_prompt p true None text) _PROMPT_PATTERNS
       end.

(** * Facts *)

(** ** What the reader keeps *)

Section ReaderFacts.
Context {W : Type} `{TerminalLaws W}.

(** What the reader has taken so far. *)
Definition seen_of (w : W) : list Z := take (taken w) (written w).

Lemma on_chunk_exited bs h : _exited (on_chunk bs h) = _exited h.
Proof. done. Qed.

(** After a read: what was taken grew by the piece, and the loop goes on or waits; it waits
    only when all is read. *)
Lemma read_step w r w' h : master_read w = (r, w') → rolled h (seen_of w) →
  written w' = written w ∧ held w' = held w ∧ returncode w' = returncode w ∧
  match r with
  | Data (b :: bs) => rolled (on_chunk (b :: bs) h) (seen_of w') ∧ taken w < taken w'
  | Data [] | InputOutput | OtherError => rolled h (seen_of w') ∧ held w' = false ∧ taken w' = length (written w')
  | WouldBlock => rolled h (seen_of w') ∧ taken w' = length (written w')
  end.
Proof.
  intros E Hr. destruct (read_keeps w) as (Hw & Hh & Hc). pose proof (read_gives w) as Hg. pose proof (taken_within w) as Hb.
  pose proof (taken_within w') as Hb'. rewrite E in *. cbn [fst snd] in *. split_and!; [done..|]. unfold seen_of. rewrite Hw in *.
  destruct r as [[|b bs]| | |].
  - destruct Hg as [Ht He]. destruct (He eq_refl) as [Hf Hl]. rewrite app_nil_r in Ht. rewrite Ht. apply (f_equal length) in Ht.
    rewrite !length_take in Ht. split_and!; [done|congruence|lia].
  - destruct Hg as [Ht _]. split; [rewrite Ht; by apply rolled_chunk|]. apply (f_equal length) in Ht.
    rewrite length_app, !length_take in Ht. cbn [length] in Ht. lia.
  - destruct Hg as [Hl ->]. done.
  - destruct Hg as (Hf & Hl & ->). split_and!; [done|congruence|done].
  - destruct Hg as (Hf & Hl & ->). split_and!; [done|congruence|done].
Qed.

(** The state of the thread at every moment. *)
Definition thread_ok (t : thread) : Prop :=
  let '(p, h, w) := t in
  rolled h (seen_of w) ∧ _exited h = bool_decide (p = Ended) ∧ (p ≠ Ended → _exit_code h = None) ∧
  (p = Draining → is_Some (returncode w)) ∧
  (p = Waiting ∨ p = Ended → is_Some (returncode w) ∨ (held w = false ∧ taken w = length (written w))) ∧
  (p = Ended → ∀ c, _exit_code h = Some c → returncode w = Some c).

(** What was written to a terminal at one moment is taken once the loop is left. *)
Definition taken_by (n : nat) (t : thread) : Prop :=
  let '(p, _, w) := t in n ≤ length (written w) ∧ (p = Waiting ∨ p = Ended → n ≤ taken w).

Local Ltac places := first [done | by intros [?|?] | by intros _; right | match goal with Hc : _ → _exit_code _ = None |- _ → _ => by intros _; apply Hc end].

Lemma loop_ok now t : thread_ok t → thread_ok (_reader_loop now t).
Proof.
  destruct t as [[p h] w]. intros (Hr & He & Hc & Hd & Hw & Hx). destruct p; cbn [_reader_loop].
  - destruct (master_read w) as [r w'] eqn:E. destruct (read_step w r w' h E Hr) as (Ew & Eh & Ec & Hg).
    destruct r as [[|b bs]| | |]; cbn [after_read]; unfold thread_ok.
    1,4,5: destruct Hg as (Hr' & Hf & Hl); split_and!; places.
    all: destruct Hg as [Hr' _]; split_and!; places.
  - destruct (returncode w) eqn:Ecode; cbn [after_poll]; unfold thread_ok; split_and!; places || (intros _; by rewrite Ecode).
  - specialize (Hd eq_refl) as [c Hcode]. destruct (master_read w) as [r w'] eqn:E. destruct (read_step w r w' h E Hr) as (Ew & Eh & Ec & Hg).
    rewrite Hcode in Ec. assert (rolled (after_drain r h).2 (seen_of w')) as Hr' by (destruct r as [[|b bs]| | |]; apply Hg).
    destruct r as [[|b bs]| | |]; cbn [after_drain snd] in *; unfold thread_ok; split_and!; first [places | intros _; left; by rewrite Ec].
  - unfold thread_ok. split_and!; try done. intros _. apply Hw. by left.
  - unfold thread_ok. by split_and!.
Qed.

Lemma step_ok t t' : step t t' → thread_ok t → thread_ok t'.
Proof.
  intros [p h w w' Hm|t0 now]; [|by apply loop_ok]. intros (Hr & He & Hc & Hd & Hw & Hx).
  destruct (moves_on _ _ Hm) as [Hp Ht]. pose proof (moves_held _ _ Hm) as Hh. pose proof (λ c, moves_code _ _ c Hm) as Hcode.
  unfold thread_ok, seen_of. rewrite Ht. split_and!; try done.
  - destruct Hp as [k ->]. unfold seen_of in Hr. rewrite take_app_le by apply taken_within. done.
  - intros Hd'. destruct (Hd Hd') as [c Hc']. exists c. by apply Hcode.
  - intros Hw'. destruct (Hw Hw') as [[c Hc']|[Hf Hl]]; [left; exists c; by apply Hcode|].
    right. destruct (Hh Hf) as [-> ->]. done.
  - intros Hp' c Hc'. apply Hcode. by apply Hx.
Qed.

Lemma step_taken n t t' : step t t' → thread_ok t → taken_by n t → taken_by n t'.
Proof.
  intros [p h w w' Hm|[[p h] w] now] Hok [Hn Ht].
  - destruct (moves_on _ _ Hm) as [Hp Ht']. split; [apply prefix_length in Hp; lia|]. rewrite Ht'. done.
  - destruct Hok as (Hr & _). pose proof (taken_within w). destruct p; cbn [_reader_loop].
    + destruct (master_read w) as [r w'] eqn:E. destruct (read_step w r w' h E Hr) as (Ew & _ & _ & Hg).
      destruct r as [[|b bs]| | |]; cbn [after_read]; unfold taken_by; rewrite Ew in *; (split; [done|]); naive_solver lia.
    + destruct (returncode w); cbn [after_poll]; unfold taken_by; (split; [exact Hn|by intros [?|?]]).
    + destruct (master_read w) as [r w'] eqn:E. destruct (read_step w r w' h E Hr) as (Ew & _ & _ & Hg).
      destruct r as [[|b bs]| | |]; cbn [after_drain]; unfold taken_by; rewrite Ew in *; (split; [done|]); naive_solver lia.
    + unfold taken_by. split; [done|]. intros _. apply Ht. by left.
    + unfold taken_by. split; [done|]. intros _. apply Ht. by right.
Qed.

Lemma step_written t t' : step t t' → written t.2 `prefix_of` written t'.2.
Proof.
  intros [p h w w' Hm|[[p h] w] now]; [by apply moves_on|]. pose proof (read_keeps w) as (Hw & _). cbn [snd].
  destruct p; cbn [_reader_loop]; try destruct (master_read w) as [r w']; try done; cbn [snd] in *; by rewrite Hw.
Qed.

(** The handle of a new process, and a host on which nothing has been written. *)
Definition fresh_thread (h : local_handle) (w : W) : thread := (Reading, h, w).

Lemma reach_ok h w t : rolled h [] → _exited h = false → _exit_code h = None → taken w = 0 →
  rtc step (fresh_thread h w) t → thread_ok t.
Proof.
  intros Hr He Hc Ht Hs. assert (thread_ok (fresh_thread h w)) as Hi.
  { unfold thread_ok, fresh_thread, seen_of. rewrite Ht. split_and!; places. }
  induction Hs as [|x y z Hxy _ IH]; [done|]. apply IH. by apply (step_ok x).
Qed.

(** C26. However the thread and the processes interleave: what the child and its descendants have
    written at any moment at which the child still runs is read before the handle says
    exited; the handle holds the last bytes of it, in order; and an exit code, once there, is
    the child's. *)
Theorem log_complete id command pid start w0 p h w h' w' :
  let h0 := started id command pid start in
  taken w0 = 0 → rtc step (fresh_thread h0 w0) (p, h, w) → returncode w = None →
  rtc step (p, h, w) (Ended, h', w') →
  rolled h' (seen_of w') ∧ written w `prefix_of` seen_of w' ∧ _exited h' = true ∧
  ∀ c, _exit_code h' = Some c → returncode w' = Some c.
Proof.
  intros h0 Ht H1 Hcode H2. assert (thread_ok (p, h, w)) as Hok by (by eapply (reach_ok h0 w0)).
  assert (taken_by (length (written w)) (p, h, w)) as Hk.
  { split; [done|]. destruct Hok as (_ & _ & _ & _ & Hw & _). intros Hp. destruct (Hw Hp) as [[c Hc]|[_ Hl]]; [congruence|lia]. }
  assert (written w `prefix_of` written w') as Hpre.
  { clear -H2 H0. change w with ((p, h, w).2). change w' with ((Ended, h', w').2). induction H2 as [t|t t1 t2 Ht _ IH]; [done|].
    etransitivity; [|exact IH]. by apply step_written. }
  assert (thread_ok (Ended, h', w') ∧ taken_by (length (written w)) (Ended, h', w')) as [(Hr & He & _ & _ & _ & Hx) [_ Hn]].
  { clear -H2 H0 Hok Hk. induction H2 as [t|t t1 t2 Hs _ IH]; [done|]. apply IH; [by eapply step_ok|by eapply step_taken]. }
  split_and!; [done| |by rewrite He|by apply Hx].
  destruct Hpre as [k Hk']. unfold seen_of. rewrite Hk', take_app. specialize (Hn (or_intror eq_refl)).
  rewrite take_ge by done. by eexists.
Qed.

(** A read on its own: a piece is progress. *)
Lemma read_progress w r w' : master_read w = (r, w') → returncode w' = returncode w ∧ written w' = written w ∧ taken w ≤ taken w' ∧
  ∀ b bs, r = Data (b :: bs) → taken w < taken w'.
Proof.
  intros E. destruct (read_keeps w) as (Hw & _ & Hc). pose proof (read_gives w) as Hg. pose proof (taken_within w). pose proof (taken_within w') as Hb.
  rewrite E in *. cbn [fst snd] in *. rewrite Hw in *. split_and!; [done|done| |].
  - destruct r; [destruct Hg as [Hg _]|..]; [|lia..]. apply (f_equal length) in Hg. rewrite length_app, !length_take in Hg. lia.
  - intros b bs ->. destruct Hg as [Hg _]. apply (f_equal length) in Hg. rewrite length_app, !length_take in Hg. cbn [length] in Hg. lia.
Qed.

Definition left_of (w : W) : nat := length (written w) - taken w.
Definition finishes (n : nat) (now : Z) (t : thread) : Prop := ∃ h' w', alone n now t = (Ended, h', w').

Lemma ended_finishes n now h w : finishes n now (Ended, h, w).
Proof. exists h, w. induction n as [|n IH]; [done|exact IH]. Qed.
Lemma waiting_finishes n now h w : 1 ≤ n → finishes n now (Waiting, h, w).
Proof. destruct n as [|n]; [lia|]. intros _. apply (ended_finishes n). Qed.
Lemma finishes_step n now t : finishes n now (_reader_loop now t) → finishes (S n) now t.
Proof. done. Qed.

(** From a read that gave a piece the loop goes on with less left, by [IH]; else it goes on
    as given. *)
Lemma reading_finishes now m : ∀ n h w, left_of w ≤ m → 3 * m + 4 ≤ n → is_Some (returncode w) → finishes n now (Reading, h, w).
Proof.
  induction m as [m IH] using lt_wf_ind. intros n h w Hm Hn [c Hc].
  assert (∀ w r w', returncode w = Some c → left_of w ≤ m → master_read w = (r, w') →
    ∀ b bs h n, r = Data (b :: bs) → 3 * m + 1 ≤ n → finishes n now (Reading, h, w')) as Hdata.
  { clear -IH H0. intros w r w' Hc Hm E b bs h n -> Hn. destruct (read_progress _ _ _ E) as (Ec & Ew & _ & Hp). specialize (Hp b bs eq_refl).
    pose proof (taken_within w') as Hb. rewrite Ew in Hb. unfold left_of in Hm. apply (IH (m - 1)); [lia|unfold left_of; rewrite Ew; lia|lia|].
    rewrite Ec, Hc. by eexists. }
  destruct n as [|[|[|[|n]]]]; try lia. apply finishes_step. cbn [_reader_loop]. destruct (master_read w) as [r w1] eqn:E1.
  destruct (read_progress _ _ _ E1) as (Ec1 & Ew1 & Hle1 & _).
  destruct r as [[|b bs]| | |] eqn:Er; cbn [after_read]; try (apply waiting_finishes; lia).
  - eapply (Hdata w); [exact Hc|exact Hm|exact E1|reflexivity|lia].
  - apply finishes_step. cbn [_reader_loop]. rewrite Ec1, Hc. cbn [after_poll]. apply finishes_step. cbn [_reader_loop].
    destruct (master_read w1) as [r2 w2] eqn:E2. destruct r2 as [[|b bs]| | |] eqn:Er2; cbn [after_drain]; try (apply waiting_finishes; lia).
    eapply (Hdata w1); [congruence|unfold left_of in *; rewrite Ew1; lia|exact E2|reflexivity|lia].
Qed.

(** C27. Once the child has ended and the processes are quiet, the thread is done after at most
    three turns for each byte left and six more. *)
Theorem reader_finishes now p h w : is_Some (returncode w) →
  finishes (3 * (length (written w) - taken w) + 6) now (p, h, w).
Proof.
  intros Hc. fold (left_of w). pose proof (reading_finishes now (left_of w)) as Hr.
  replace (3 * left_of w + 6) with (S (S (3 * left_of w + 4))) by lia. destruct p.
  - apply Hr; [done|lia|done].
  - apply finishes_step. destruct Hc as [c Hc]. cbn [_reader_loop]. rewrite Hc. cbn [after_poll].
    apply finishes_step. cbn [_reader_loop]. destruct (master_read w) as [r w'] eqn:E. destruct (read_progress _ _ _ E) as (Ec & Ew & Hle & _).
    destruct r as [[|b bs]| | |]; cbn [after_drain]; try (apply waiting_finishes; lia).
    apply Hr; [unfold left_of; rewrite Ew; lia|lia|rewrite Ec, Hc; by eexists].
  - apply finishes_step. cbn [_reader_loop]. destruct (master_read w) as [r w'] eqn:E. destruct (read_progress _ _ _ E) as (Ec & Ew & Hle & _).
    destruct r as [[|b bs]| | |]; cbn [after_drain]; try (apply waiting_finishes; lia).
    apply Hr; [unfold left_of; rewrite Ew; lia|lia|by rewrite Ec].
  - apply waiting_finishes. lia.
  - apply ended_finishes.
Qed.
End ReaderFacts.

(** ** Pipes *)

Lemma pipe_chunks_all fuel out : length out ≤ 4096 * fuel → concat (pipe_chunks fuel out) = out.
Proof.
  revert out. induction fuel as [|f IH]; intros [|b out] Hl; try done; [cbn in Hl; lia|]. cbn [pipe_chunks concat].
  rewrite IH; [by rewrite take_drop|]. rewrite length_drop. lia.
Qed.
Lemma rolled_chunks h out chunks : rolled h out → rolled (foldl (λ h c, on_chunk c h) h chunks) (out ++ concat chunks).
Proof.
  revert h out. induction chunks as [|c l IH]; intros h out Hr; cbn; [by rewrite app_nil_r|]. rewrite app_assoc. apply IH. by apply rolled_chunk.
Qed.
(** Through a pipe, too, the handle ends with the last bytes of all there was. *)
Theorem pipe_log_complete id command pid start now code out :
  rolled (_pipe_reader_loop now code (pipe_chunks (S (length out)) out) (started id command pid start)) out.
Proof.
  pose proof (rolled_chunks (started id command pid start) [] (pipe_chunks (S (length out)) out)) as Hr.
  cbn [app] in Hr. rewrite pipe_chunks_all in Hr by lia. apply Hr. by split_and!.
Qed.

(** ** Signals *)

(** A kill signals one group only, the child's: nothing once the exit is known, else a
    request to end, and force exactly when the request has not been followed in time. *)
Theorem kill_spec {W} (c : host_calls W) pid w sent w' : kill c pid w = (sent, w') →
  (exit_is_set c w = true → sent = [] ∧ w' = w) ∧
  ∀ pgid s, (pgid, s) ∈ sent → getpgid c w pid = Some pgid ∧ exit_is_set c w = false ∧
    sent `prefix_of` [(pgid, SIGTERM); (pgid, SIGKILL)] ∧
    (s = SIGKILL → ∃ w1 w2, killpg c pgid SIGTERM w = Some w1 ∧ wait_exit c 2000 w1 = (false, w2)).
Proof.
  unfold kill. destruct (exit_is_set c w); [intros [= <- <-]; split; [done|]; intros ? ? Hin; by apply not_elem_of_nil in Hin|].
  intros E. split; [done|]. intros pgid s Hin. destruct (has_killpg c); cbn [negb] in E; [|injection E as <- _; by apply not_elem_of_nil in Hin].
  destruct (getpgid c w pid) as [g|]; [|injection E as <- _; by apply not_elem_of_nil in Hin].
  destruct (killpg c g SIGTERM w) as [w1|] eqn:Et; [|injection E as <- _; by apply not_elem_of_nil in Hin].
  destruct (wait_exit c 2000 w1) as [[] w2] eqn:Ew.
  - injection E as <- _. apply list_elem_of_singleton in Hin as [= -> ->]. split_and!; [done|done|by exists [(g, SIGKILL)]|done].
  - destruct (killpg c g SIGKILL w2) as [w3|]; injection E as <- _.
    + assert (pgid = g) as -> by set_solver. split_and!; [done|done|done|]. intros _. by exists w1, w2.
    + apply list_elem_of_singleton in Hin as [= -> ->]. split_and!; [done|done|by exists [(g, SIGKILL)]|done].
Qed.

(** ** Prompts *)

Lemma at_end_rest fl st st' : st' ∈ rmatch fl at_end st → m_rest st' = "".
Proof.
  unfold at_end. cbn [rmatch step1]. unfold step1. destruct st as [prev [|c rest] caps]; cbn; [|destruct (f_icase fl); cbn; intros Hin; by apply not_elem_of_nil in Hin].
  intros Hin. by apply list_elem_of_singleton in Hin as ->.
Qed.
Lemma seq_end_rest fl r st st' : st' ∈ rmatch fl (RSeq r at_end) st → m_rest st' = "".
Proof.
  cbn [rmatch]. intros Hin. apply list_elem_of_In, in_flat_map in Hin as (x & _ & Hx).
  apply list_elem_of_In in Hx. by apply (at_end_rest fl x).
Qed.

Lemma find_prompt_end p bol prev s m : find_prompt p bol prev s = Some m → ∃ before, s = before +:+ m.
Proof.
  revert bol prev. induction s as [|c s IH]; intros bol prev; cbn [find_prompt].
  all: destruct (if p_line p && negb bol then [] else _) as [|st l] eqn:E.
  - done.
  - intros [= <-]. by exists "".
  - intros Hf. destruct (IH _ _ Hf) as [b Hb]. exists (String c b). cbn. by rewrite Hb.
  - intros [= <-]. exists "". destruct (p_line p && negb bol); [done|].
    assert (m_rest st = "") as Hm by (apply (seq_end_rest (p_flags p) (p_body p) (start_at prev (String c s))); rewrite E; left).
    unfold span_text. rewrite Hm. change (slen "") with 0. rewrite Nat.sub_0_r. pose proof (stake_app (String c s) "") as Hs. by rewrite sapp_nil_r in Hs; rewrite Hs.
Qed.

(** A prompt is reported only for a process that has been quiet for three seconds, and what is
    reported is how its output ends: nothing was written after it. *)
Theorem prompt_is_the_end tail idle m : detect_interactive_prompt tail idle = Some m →
  (INTERACTIVE_IDLE_MS <= idle)%Z ∧ tail ≠ [] ∧ ∃ before, normalized (_strip_ansi (tail_window tail)) = before +:+ m.
Proof.
  unfold detect_interactive_prompt. destruct (Z.ltb_spec idle INTERACTIVE_IDLE_MS) as [|Hi]; [done|]. destruct tail as [|b tail]; [done|].
  intros Hf. split_and!; [done|done|]. apply first_some_Some in Hf as (p & _ & Hp). by apply find_prompt_end in Hp.
Qed.

(** ** Instances *)

(** A terminal of a kernel: what was read of it, what is still to be, whether it is held, and
    what became of the child. *)
Record tty := Tty { tt_read : list Z; tt_unread : list Z; tt_held : bool; tt_code : option Z }.
Inductive tty_moves : tty → tty → Prop :=
| tty_writes seen out code bs : tty_moves (Tty seen out true code) (Tty seen (out ++ bs) true code)
| tty_closes seen out code : tty_moves (Tty seen out true code) (Tty seen out false code)
| tty_ends seen out held code : tty_moves (Tty seen out held None) (Tty seen out held (Some code)).
(** Reading: the next piece, else whether there can be more. *)
Definition tty_read (w : tty) : os_read * tty :=
  match tt_unread w with
  | [] => (if tt_held w then WouldBlock else InputOutput, w)
  | b :: out => (Data (b :: take 4095 out), Tty (tt_read w ++ b :: take 4095 out) (drop 4095 out) (tt_held w) (tt_code w))
  end.
#[global] Instance tty_terminal : Terminal tty :=
  {| written w := tt_read w ++ tt_unread w; taken w := length (tt_read w); held := tt_held; returncode := tt_code;
     master_read := tty_read; moves := tty_moves |}.
#[global] Instance tty_laws : TerminalLaws tty.
Proof.
  split; cbn [written taken held returncode master_read moves tty_terminal].
  - intros w. rewrite length_app. lia.
  - intros [seen [|b out] held code]; unfold tty_read; cbn [tt_unread tt_read tt_held tt_code snd]; [done|].
    split_and!; [|done|done]. by rewrite <-app_assoc, <-app_comm_cons, take_drop.
  - intros [seen [|b out] held code]; unfold tty_read; cbn [tt_unread tt_read tt_held tt_code fst snd].
    + rewrite app_nil_r. by destruct held.
    + split; [|done]. rewrite take_app_length, length_app, take_app_add. f_equal. cbn [length take]. f_equal. rewrite length_take.
      destruct (decide (4095 ≤ length out)); [by rewrite Nat.min_l|]. by rewrite Nat.min_r, !take_ge by lia.
  - intros w w' []; cbn [tt_read tt_unread]; (split; [|done]); [rewrite app_assoc; by eexists|done|done].
  - by intros w w' [].
  - by intros w w' c [].
Qed.

Module Sample.
Definition quiet : tty := Tty [] [] true None.
Definition handle : local_handle := started "proc_1" "make" 42 0.
(** A host on which a signal does nothing and a write takes three bytes at most. *)
Definition stubborn : host_calls (list Z) :=
  {| exit_is_set := λ _, false; has_killpg := true; getpgid _ pid := Some pid; killpg _ _ w := Some w; popen_kill w := w;
     wait_exit _ w := (false, w); os_write data w := (Ok 3, w ++ take 3 data) |}.
End Sample.
Import Sample.

Lemma step_writes p h seen out code bs : step (p, h, Tty seen out true code) (p, h, Tty seen (out ++ bs) true code).
Proof. apply step_processes. constructor. Qed.

(** The child writes between the first read and its end: the second read gets it. *)
Lemma log_complete_witness : ∃ h' w', rtc step (Polling, handle, Tty [] (cps "done") true None) (Ended, h', w') ∧
  cps "done" `prefix_of` seen_of w' ∧ _exit_code h' = Some 0%Z.
Proof.
  set (w1 := Tty [] (cps "done") true (Some 0%Z)).
  assert (rtc step (Polling, handle, Tty [] (cps "done") true None) (alone 6 7 (Polling, handle, w1))) as Hrun.
  { eapply rtc_l; [apply step_processes, tty_ends|]. fold w1.
    do 6 (eapply rtc_l; [apply (step_reader _ 7)|]). cbv [alone]. apply rtc_refl. }
  assert (∃ h' w', alone 6 7 (Polling, handle, w1) = (Ended, h', w') ∧ _exit_code h' = Some 0%Z) as (h' & w' & E & Hc).
  { eexists _, _. split; vm_compute; reflexivity. }
  rewrite E in Hrun. exists h', w'. split; [done|]. split; [|done].
  destruct (log_complete "proc_1" "make" 42 0 quiet Polling handle (Tty [] (cps "done") true None) h' w') as (_ & Hp & _ & _); [done| |done|done|done].
  eapply rtc_l; [apply (step_reader _ 0)|]. eapply rtc_l; [apply step_writes|]. apply rtc_refl.
Defined.
Lemma reader_finishes_witness : finishes 18 7 (Reading, handle, Tty [] (cps "done") false (Some 0%Z)).
Proof.
  pose (w := Tty [] (cps "done") false (Some 0%Z)).
  refine (eq_ind _ (λ n, finishes n 7 (Reading, handle, w)) (reader_finishes 7 Reading handle w _) 18 _); [by eexists|by vm_compute].
Defined.
Lemma kill_spec_witness : ∃ w', kill stubborn 42 [] = ([(42, SIGTERM); (42, SIGKILL)], w')%Z ∧ getpgid stubborn [] 42 = Some 42%Z.
Proof.
  eexists. split; [reflexivity|]. destruct (kill_spec stubborn 42 [] _ _ eq_refl) as [_ H].
  destruct (H 42%Z SIGTERM ltac:(left)) as (Hg & _). exact Hg.
Defined.
Lemma prompt_is_the_end_witness : ∃ m, detect_interactive_prompt (cps "Password: ") 3000 = Some m ∧ ∃ before, "Password: " = before +:+ m.
Proof.
  eexists. split; [vm_compute; reflexivity|]. destruct (prompt_is_the_end (cps "Password: ") 3000 "Password: ") as (_ & _ & H); [by vm_compute|]. exact H.
Defined.

(** A child that gives up its terminal and goes on: after five seconds the handle says exited,
    without a code, and a kill sends nothing. *)
Example exited_while_running : let w := Tty [] [] false None in
  (∃ h, alone 2 5000 (Reading, handle, w) = (Ended, h, w) ∧ _exited h = true ∧ _exit_code h = None) ∧ returncode w = None.
Proof. split; [eexists; split; [vm_compute; reflexivity|done]|done]. Qed.
(** Through a pipe nothing of less than 4096 bytes is seen before the child ends. *)
Example pipe_hides_a_prompt : pipe_shown (cps "Password: ") = [] ∧ pipe_chunks 9 (cps "Password: ") = [cps "Password: "].
Proof. by vm_compute. Qed.
(** A terminal that takes part of a write: the rest is lost and the write went well. *)
Example short_write_is_lost : write stubborn "proc_1" (cps "yes, do") [] = (Ok tt, cps "yes").
Proof. by vm_compute. Qed.
