(* ===== verification/Siblings.v ===== *)
(** * Sibling agents: [memory/sibling_agent_plugin.py]

    The tasks the background forks run in: a run of an agent whose failures stay its own, the
    set of tasks in flight as a step relation beside the event loop, and the drain at
    shutdown. The runner, the session service and the times at which tasks end are
    parameters. Times are in seconds. *)

From S2P Require Import Prelude PyStr PyVal MemoryForks.
From Stdlib Require Import QArith Qminmax Lqa.
#[local] Open Scope nat_scope.

(** ** One run *)

Section Run.
Context {E St : Type}.

(** The framework around one run: building the runner, creating the session, and what the
    runner gives: events and, at the end, an exception or none. *)
Record framework := Framework {
  build_runner : St → res unit * St;
  create_session : pydict → St → res string * St;
  run_events : string → string → list E;
  run_ending : string → string → option exc
}.

(** The loop over the events. *)
Fixpoint drive (on_event : option (E → St → res unit * St)) (events : list E) (ending : option exc) (s : St) : res unit * St :=
  match events with
  | [] => (match ending with Some x => Raise x | None => Ok tt end, s)
  | e :: events =>
      match on_event with
      | None => drive on_event events ending s
      | Some f => match f e s with
                  | (Ok _, s) => drive on_event events ending s
                  | (Raise x, s) => (Raise x, s)
                  end
      end
  end.

Definition _run_one (fw : framework) (prompt : string) (session_state : option pydict)
    (on_event : option (E → St → res unit * St)) (s : St) : res unit * St :=
  match build_runner fw s with
  | (Raise x, s) => (Raise x, s)
  | (Ok _, s) =>
      match create_session fw (default [] session_state) s with
      | (Raise x, s) => (Raise x, s)
      | (Ok id, s) =>
          let '(_, s) := drive on_event (run_events fw id prompt) (run_ending fw id prompt) s in (Ok tt, s)
      end
  end.
End Run.
Arguments framework : clear implicits.

(** ** Tasks in flight *)

(** [live]: tasks that have not ended; [_pending]: the plugin's set; tasks are numbered. *)
Record plugin := Plugin { live : gset nat; _pending : gset nat; next_task : nat }.

Definition new_plugin : plugin := Plugin ∅ ∅ 0.
Definition spawn_sibling (p : plugin) : nat * plugin :=
  let task := next_task p in (task, Plugin ({[task]} ∪ live p) ({[task]} ∪ _pending p) (S task)).
(** A task ends, well, with an exception or cancelled; the loop calls its callback later. *)
Definition task_ends (t : nat) (p : plugin) : plugin := Plugin (live p ∖ {[t]}) (_pending p) (next_task p).
Definition done_callback (t : nat) (p : plugin) : plugin := Plugin (live p) (_pending p ∖ {[t]}) (next_task p).

Inductive loop_step : plugin → plugin → Prop :=
| loop_spawn p : loop_step p (spawn_sibling p).2
| loop_end t p : t ∈ live p → loop_step p (task_ends t p)
| loop_callback t p : t ∉ live p → loop_step p (done_callback t p).

(** ** Draining *)

(** [asyncio.wait] with a timeout; [ends_in]: after what time a task ends, if ever. *)
Definition in_time (ends_in : nat → option Q) (timeout : Q) (t : nat) : bool :=
  match ends_in t with Some q => Qle_bool q timeout | None => false end.
Definition wait (ends_in : nat → option Q) (timeout : Q) (tasks : list nat) : list nat * list nat * Q :=
  let finished := List.filter (in_time ends_in timeout) tasks in
  let left := List.filter (λ t, negb (in_time ends_in timeout t)) tasks in
  (finished, left,
   match left with
   | [] => foldr (λ t q, Qmax (default 0%Q (ends_in t)) q) 0%Q tasks
   | _ => timeout
   end).

Inductive drain := NothingPending | Cancelled (in_flight : nat) | DrainTimedOut (left : list nat) | Drained (finished : nat).

(** [close], and how long it takes; [budget]: when the framework cancels it. *)
Definition close (drain_timeout : Q) (budget : Q) (ends_in : nat → option Q) (p : plugin) : drain * Q :=
  match elements (_pending p) with
  | [] => (NothingPending, 0%Q)
  | pending =>
      let '(finished, not_done, elapsed) := wait ends_in drain_timeout pending in
      if negb (Qle_bool elapsed budget) then (Cancelled (length pending), budget)
      else match not_done with
           | [] => (Drained (length finished), elapsed)
           | _ => (DrainTimedOut not_done, elapsed)
           end
  end.

(** * Facts *)

(** What a sibling does while it runs never fails its task: only a runner or a session that
    cannot be made does. *)
Lemma run_one_contains {E St} (fw : framework E St) prompt session_state on_event s x s' :
  _run_one fw prompt session_state on_event s = (Raise x, s') →
  build_runner fw s = (Raise x, s') ∨
  ∃ s1, build_runner fw s = (Ok tt, s1) ∧ create_session fw (default [] session_state) s1 = (Raise x, s').
Proof.
  unfold _run_one. destruct (build_runner fw s) as [[[]|y] s1]; [|intros [= -> ->]; by left].
  destruct (create_session fw _ s1) as [[id|y] s2] eqn:Ec; [|intros [= -> ->]; right; by exists s1].
  by destruct (drive on_event _ _ s2).
Qed.

(** Without a listener the events leave no trace. *)
Lemma drive_silent {E St} (events : list E) ending (s : St) : (drive None events ending s).2 = s.
Proof. by induction events. Qed.

(** Every task that runs is in the set, and numbers are not used twice. *)
Definition tracked (p : plugin) : Prop := live p ⊆ _pending p ∧ ∀ t, t ∈ _pending p → t < next_task p.
Lemma loop_tracked p q : loop_step p q → tracked p → tracked q.
Proof.
  unfold tracked. intros [p0|t p0 Ht|t p0 Ht] [H1 H2]; cbn; (split; [set_solver|]).
  - intros t [->%elem_of_singleton|Hin]%elem_of_union; [lia|]. specialize (H2 t Hin). lia.
  - done.
  - intros u [Hin _]%elem_of_difference. by apply H2.
Qed.
Lemma reach_tracked p : rtc loop_step new_plugin p → tracked p.
Proof.
  intros Hs. assert (tracked new_plugin) as Hi by (split; set_solver). induction Hs; [done|]. eauto using loop_tracked.
Qed.

Lemma wait_bound ends_in timeout tasks finished left elapsed : (0 <= timeout)%Q →
  wait ends_in timeout tasks = (finished, left, elapsed) → (0 <= elapsed <= timeout)%Q.
Proof.
  intros H0 E. unfold wait in E. injection E as _ Hl He.
  destruct left; [|rewrite Hl in He; subst elapsed; split; [done|apply Qle_refl]]. rewrite Hl in He. subst elapsed.
  assert (∀ t, t ∈ tasks → in_time ends_in timeout t = true) as Hin.
  { intros t Ht. destruct (in_time ends_in timeout t) eqn:Et; [done|].
    assert (t ∈ []) as Hbad; [|by apply not_elem_of_nil in Hbad].
    rewrite <-Hl. apply list_elem_of_In, filter_In. split; [by apply list_elem_of_In|]. by rewrite Et. }
  clear Hl. induction tasks as [|t tasks IH]; cbn [foldr]; [split; [apply Qle_refl|done]|].
  destruct IH as [IH1 IH2]; [intros u Hu; apply Hin; by right|]. split; [eapply Qle_trans; [exact IH1|apply Q.le_max_r]|].
  apply Q.max_lub; [|done]. specialize (Hin t ltac:(left)). unfold in_time in Hin. destruct (ends_in t) as [q|]; [|done]. by apply Qle_bool_iff.
Qed.
Lemma wait_left ends_in timeout tasks t : t ∈ (wait ends_in timeout tasks).1.2 ↔ t ∈ tasks ∧ in_time ends_in timeout t = false.
Proof. cbn. rewrite list_elem_of_In, filter_In, negb_true_iff, <-list_elem_of_In. done. Qed.

(** Whatever was spawned and ended before: closing takes no longer than its timeout, which no
    setting puts at the five seconds after which the framework would cancel it; what it
    leaves behind is exactly the tasks in flight that do not end in that time. *)
Theorem siblings_drained override raw budget ends_in p d elapsed : rtc loop_step new_plugin p → (5 <= budget)%Q →
  let timeout := _resolve_drain_timeout override raw in
  close timeout budget ends_in p = (d, elapsed) →
  (0 <= elapsed <= timeout)%Q ∧ (elapsed < budget)%Q ∧
  match d with
  | NothingPending => live p = ∅
  | Cancelled _ => False
  | Drained _ => ∀ t, t ∈ live p → in_time ends_in timeout t = true
  | DrainTimedOut rest => rest ≠ [] ∧ ∀ t, t ∈ live p → (t ∈ rest ↔ in_time ends_in timeout t = false)
  end.
Proof.
  intros Hr Hb timeout Hc. destruct (reach_tracked p Hr) as [Hl _]. pose proof (drain_within_budget override raw) as [Ht0 Ht]. fold timeout in Ht0, Ht.
  unfold close in Hc. destruct (elements (_pending p)) as [|x l] eqn:Ep.
  { injection Hc as <- <-. split_and!; [apply Qle_refl|done|lra|]. apply elements_empty_inv in Ep. set_solver. }
  destruct (wait ends_in timeout (x :: l)) as [[finished not_done] e] eqn:Ew. destruct (wait_bound _ _ _ _ _ _ Ht0 Ew) as [He0 He].
  pose proof (wait_left ends_in timeout (x :: l)) as Hw. rewrite Ew in Hw. cbn [fst snd] in Hw.
  assert (∀ t, t ∈ live p → t ∈ x :: l) as Hin by (intros t Hin; rewrite <-Ep; apply elem_of_elements; by apply Hl).
  destruct (Qle_bool e budget) eqn:Eb; cbn [negb] in Hc.
  - destruct not_done as [|y k]; injection Hc as <- <-; (split; [done|]); (split; [lra|]).
    + intros t Htl. destruct (in_time ends_in timeout t) eqn:Ei; [done|]. assert (t ∈ []) as Hbad; [|by apply not_elem_of_nil in Hbad].
      apply Hw. split; [by apply Hin|done].
    + split; [done|]. intros t Htl. rewrite Hw. specialize (Hin t Htl). tauto.
  - exfalso. assert (Qle_bool e budget = true) as H1; [|congruence]. apply Qle_bool_iff. lra.
Qed.

(** ** Instances *)

Module Sample.
Definition two_spawned : plugin := (spawn_sibling (spawn_sibling new_plugin).2).2.
Definition ends (t : nat) : option Q := match t with 0 => Some 1%Q | _ => None end.
(** A session service that is down. *)
Definition no_sessions : framework nat nat :=
  @Framework nat nat (λ s, (Ok tt, s)) (λ _ s, (Raise (RuntimeError "down"), s)) (λ _ _, []) (λ _ _, None).
(** A run that emits two events and fails. *)
Definition failing : framework nat nat :=
  @Framework nat nat (λ s, (Ok tt, s)) (λ _ s, (Ok "s", s)) (λ _ _, [1; 2]) (λ _ _, Some (RuntimeError "model")).
End Sample.
Import Sample.

Lemma siblings_drained_witness : close 4 5 ends two_spawned = (DrainTimedOut [1], 4%Q) ∧ (4 < 5)%Q.
Proof.
  assert (close 4 5 ends two_spawned = (DrainTimedOut [1], 4%Q)) as Hc by (by vm_compute). split; [done|].
  apply (siblings_drained None None 5 ends two_spawned (DrainTimedOut [1]) 4); [|done|exact Hc].
  eapply rtc_l; [apply loop_spawn|]. eapply rtc_l; [apply loop_spawn|]. apply rtc_refl.
Defined.

(** A run that fails ends its task well; a session that cannot be created does not. *)
Example failures_contained : (_run_one failing "go" None (Some (λ e s, (Ok tt, s + e))) 0 = (Ok tt, 3)) ∧
  _run_one no_sessions "go" None None 0 = (Raise (RuntimeError "down"), 0).
Proof. by vm_compute. Qed.
