(* ===== verification/Contexts.v ===== *)
(** * What a turn finds in place: [environment_context.py], [context/compaction_context.py],
    [context/schema_normalization.py], [telemetry/otel.py]

    Context variables over a tree of tasks, the overrides of a process, the descriptions of
    tools as they are sent, and the settings of telemetry. *)

From S2P Require Import Prelude PyStr PyVal Environ.
#[local] Open Scope nat_scope.

(** ** Context variables *)

(** A [ContextVar] with default [None]: each task has a copy of its creator's value at its
    creation and sets its own. *)
Section ContextVar.
Context {V : Type}.

Definition context_var : Type := gmap nat V.
Definition var_get (task : nat) (v : context_var) : option V := v !! task.
Definition var_set (task : nat) (x : option V) (v : context_var) : context_var :=
  match x with Some x => <[task := x]> v | None => delete task v end.
Definition create_task (parent child : nat) (v : context_var) : context_var := var_set child (var_get parent v) v.

(** What tasks do: setting, clearing, starting another. *)
Inductive var_op := Sets (task : nat) (x : V) | Clears (task : nat) | Starts (parent child : nat).
Definition var_run (o : var_op) (v : context_var) : context_var :=
  match o with
  | Sets t x => var_set t (Some x) v
  | Clears t => var_set t None v
  | Starts p c => create_task p c v
  end.
(** Operations, the latest first. *)
Definition var_runs (ops : list var_op) : context_var := foldr var_run ∅ ops.

(** Who a task has its value from: itself since it last set one, else its creator at the time
    of its creation. *)
Fixpoint line_of (task : nat) (ops : list var_op) : option V :=
  match ops with
  | [] => None
  | Sets t x :: ops => if t =? task then Some x else line_of task ops
  | Clears t :: ops => if t =? task then None else line_of task ops
  | Starts p c :: ops => if c =? task then line_of p ops else line_of task ops
  end.
End ContextVar.
Arguments context_var : clear implicits.
Arguments var_op : clear implicits.

(** *** The environment of a turn and the overrides of the process *)

Section Surroundings.
Context {Env Sandbox : Type}.

Record surroundings := Surroundings {
  _active_env : context_var Env;
  _provider_override : option (string → Env);
  _sandbox_provider_override : option Sandbox
}.

Definition set_environment_provider (factory : option (string → Env)) (s : surroundings) : surroundings :=
  Surroundings (_active_env s) factory (_sandbox_provider_override s).
Definition environment_provider (s : surroundings) : option (string → Env) := _provider_override s.
Definition set_sandbox_provider (provider : option Sandbox) (s : surroundings) : surroundings :=
  Surroundings (_active_env s) (_provider_override s) provider.
Definition sandbox_provider (s : surroundings) : option Sandbox := _sandbox_provider_override s.
Definition set_active_environment (task : nat) (env : Env) (s : surroundings) : surroundings :=
  Surroundings (var_set task (Some env) (_active_env s)) (_provider_override s) (_sandbox_provider_override s).
Definition clear_active_environment (task : nat) (s : surroundings) : surroundings :=
  Surroundings (var_set task None (_active_env s)) (_provider_override s) (_sandbox_provider_override s).
Definition active_environment (task : nat) (s : surroundings) : res Env :=
  match var_get task (_active_env s) with
  | Some env => Ok env
  | None => Raise (RuntimeError "No active environment. Call set_active_environment() (tests) or rely on before_agent_callback (runtime).")
  end.
(** The loop starts a task. *)
Definition start_task (parent child : nat) (s : surroundings) : surroundings :=
  Surroundings (create_task parent child (_active_env s)) (_provider_override s) (_sandbox_provider_override s).

(** What happens in a process. *)
Inductive action :=
| Bind (task : nat) (env : Env) | Unbind (task : nat) | Start (parent child : nat)
| Override (factory : option (string → Env)) | OverrideSandbox (provider : option Sandbox).
Definition act (a : action) : surroundings → surroundings :=
  match a with
  | Bind t e => set_active_environment t e
  | Unbind t => clear_active_environment t
  | Start p c => start_task p c
  | Override f => set_environment_provider f
  | OverrideSandbox p => set_sandbox_provider p
  end.
Definition at_import : surroundings := Surroundings ∅ None None.
(** The actions so far, the latest first. *)
Definition acts (l : list action) : surroundings := foldr act at_import l.

Definition env_ops (l : list action) : list (var_op Env) :=
  omap (λ a, match a with Bind t e => Some (Sets t e) | Unbind t => Some (Clears t) | Start p c => Some (Starts p c) | _ => None end) l.
End Surroundings.
Arguments surroundings : clear implicits.
Arguments action : clear implicits.

(** *** The handles of the summarizer *)

Section Compaction.
Context {Memory Plugin : Type}.
Record CompactionContext := Compaction { memory_service : Memory; app_name : string; user_id : string; sibling_agent_plugin : option Plugin }.
Definition bind_compaction_context (task : nat) (ctx : CompactionContext) (v : context_var CompactionContext) : context_var CompactionContext :=
  var_set task (Some ctx) v.
Definition clear_compaction_context (task : nat) (v : context_var CompactionContext) : context_var CompactionContext := var_set task None v.
Definition get_compaction_context (task : nat) (v : context_var CompactionContext) : option CompactionContext := var_get task v.
End Compaction.
Arguments CompactionContext : clear implicits.

(** ** Descriptions of tools *)

Definition spaces (n : nat) : string := string_of_list_ascii (repeat SP n).
(** [s.expandtabs()], from a column. *)
Fixpoint expandtabs (col : nat) (s : string) : string :=
  match s with
  | "" => ""
  | String c s =>
      if Ascii.eqb c TAB then let n := 8 - col mod 8 in spaces n +:+ expandtabs (col + n) s
      else String c (expandtabs (if Ascii.eqb c NL || Ascii.eqb c CR then 0 else S col) s)
  end.
(** The indentation of a line with content. *)
Definition indent_of (line : string) : option nat :=
  let content := slen (lstrip is_space line) in if content =? 0 then None else Some (slen line - content).
(** The least of them, if any. *)
Definition margin_of (lines : list string) : option nat :=
  foldr (λ l m, match indent_of l, m with Some i, Some k => Some (Nat.min i k) | Some i, None => Some i | None, _ => m end) None lines.
Fixpoint pop_front (lines : list string) : list string :=
  match lines with [] => [] | l :: rest => if (l =? "")%string then pop_front rest else lines end.
Definition pop_back (lines : list string) : list string := rev (pop_front (rev lines)).
(** [inspect.cleandoc] *)
Definition cleandoc (doc : string) : string :=
  match split_on NL (expandtabs 0 doc) with
  | [] => ""
  | first :: rest =>
      let rest' := match margin_of rest with Some m => map (sdrop m) rest | None => rest end in
      join NLs (pop_front (pop_back (lstrip is_space first :: rest')))
  end.

(** A declared function: its name and its description; a tool without declarations has none. *)
Record declaration := Declaration { d_name : string; description : option string }.
Definition normalize_declaration (d : declaration) : declaration * Z :=
  match description d with
  | None | Some "" => (d, 0%Z)
  | Some text =>
      let cleaned := cleandoc text in
      if (cleaned =? text)%string then (d, 0%Z) else (Declaration (d_name d) (Some cleaned), (Z.of_nat (slen text) - Z.of_nat (slen cleaned))%Z)
  end.
Definition normalize_tool_descriptions (tools : list (option (list declaration))) : list (option (list declaration)) * Z :=
  foldr (λ t acc, match t with
                  | None => (None :: acc.1, acc.2)
                  | Some ds => let done := map normalize_declaration ds in
                               (Some (map fst done) :: acc.1, foldr (λ d n, (d.2 + n)%Z) acc.2 done)
                  end) ([], 0%Z) tools.
Definition normalize_tool_schemas_callback (tools : list (option (list declaration))) : list (option (list declaration)) :=
  (normalize_tool_descriptions tools).1.

(** ** Telemetry *)

Definition CAPTURE : string := "OTEL_INSTRUMENTATION_GENAI_CAPTURE_MESSAGE_CONTENT".
(** [os.environ.setdefault] *)
Definition setdefault (name value : string) (environ : environment_vars) : environment_vars :=
  match dget environ name with Some _ => environ | None => dset environ name value end.
Definition setup_telemetry (environ : environment_vars) : option string * environment_vars :=
  let bucket := dget environ "LOGS_BUCKET_NAME" in
  let capture_content := env_str environ CAPTURE "false" in
  (bucket,
   if negb (default "" bucket =? "")%string && negb (capture_content =? "false")%string then
     let environ := dset environ CAPTURE "NO_CONTENT" in
     let environ := setdefault "OTEL_INSTRUMENTATION_GENAI_UPLOAD_FORMAT" "jsonl" environ in
     let environ := setdefault "OTEL_INSTRUMENTATION_GENAI_COMPLETION_HOOK" "upload" environ in
     let environ := setdefault "OTEL_SEMCONV_STABILITY_OPT_IN" "gen_ai_latest_experimental" environ in
     let commit_sha := env_str environ "COMMIT_SHA" "dev" in
     let environ := setdefault "OTEL_RESOURCE_ATTRIBUTES" ("service.namespace=lha,service.version=" +:+ commit_sha) environ in
     let path := env_str environ "GENAI_TELEMETRY_PATH" "completions" in
     setdefault "OTEL_INSTRUMENTATION_GENAI_UPLOAD_BASE_PATH" ("gs://" +:+ default "" bucket +:+ "/" +:+ path) environ
   else environ).

(** * Facts *)

(** ** Tasks *)

Lemma var_get_set {V} t u x (v : context_var V) : var_get t (var_set u x v) = if u =? t then x else var_get t v.
Proof.
  unfold var_get, var_set, context_var in *. destruct (Nat.eqb_spec u t) as [->|Hne]; destruct x.
  - apply lookup_insert_eq.
  - apply lookup_delete_eq.
  - by apply lookup_insert_ne.
  - by apply lookup_delete_ne.
Qed.
Lemma var_runs_line {V} t (ops : list (var_op V)) : var_get t (var_runs ops) = line_of t ops.
Proof.
  revert t. induction ops as [|o ops IH]; intros t; [done|]. cbn [var_runs foldr].
  destruct o; cbn [var_run line_of]; unfold create_task; rewrite var_get_set; case_match; try apply IH; done.
Qed.
Lemma acts_ops {Env Sandbox} (l : list (action Env Sandbox)) :
  _active_env (acts l) = var_runs (env_ops l).
Proof.
  unfold acts, env_ops, var_runs. induction l as [|a l IH]; [done|]. cbn [foldr omap list_omap]. destruct a; cbn [act foldr var_run]; unfold create_task; rewrite <-?IH; done.
Qed.

(** The task an action is about. *)
Definition acts_on {Env Sandbox} (t : nat) (a : action Env Sandbox) : bool :=
  match a with Bind u _ | Unbind u | Start _ u => u =? t | _ => false end.

(** Whatever tasks do and in whatever order: each finds the environment it bound last, or that
    of its creator when it was created, and an error if there is none; what other tasks bind
    later does not reach it, while an override is the same for all. *)
Theorem environment_of_task {Env Sandbox} (l : list (action Env Sandbox)) t : let s := acts l in
  match line_of t (env_ops l) with
  | Some env => active_environment t s = Ok env
  | None => ∃ m, active_environment t s = Raise (RuntimeError m)
  end ∧
  (∀ later, Forall (λ a, acts_on t a = false) later → active_environment t (acts (later ++ l)) = active_environment t s) ∧
  environment_provider s = default None (first_some (λ a, match a with Override f => Some f | _ => None end) l).
Proof.
  cbv zeta. assert (∀ l' : list (action Env Sandbox), active_environment t (acts l') =
    match line_of t (env_ops l') with Some e => Ok e | None => active_environment 0 (at_import (Env := Env) (Sandbox := Sandbox)) end) as Ha.
  { intros l'. unfold active_environment at 1. rewrite acts_ops, var_runs_line. by destruct (line_of t (env_ops l')). }
  split_and!.
  - rewrite Ha. destruct (line_of t (env_ops l)); [done|]. by eexists.
  - intros later Hl. rewrite !Ha. enough (line_of t (env_ops (later ++ l)) = line_of t (env_ops l)) as -> by done.
    induction Hl as [|a later Ht _ IH]; [done|]. destruct a; cbn in *; rewrite ?Ht; exact IH.
  - induction l as [|a l IH]; [done|]. destruct a; cbn; try apply IH; try done.
    all: exact (IH (λ l', Ha l')).
Qed.

(** ** Texts *)

(** The characters of a text that can be seen. *)
Definition visible (s : string) : list ascii := List.filter (λ c, negb (is_space c)) (list_ascii_of_string s).

Lemma visible_cons c s : visible (String c s) = (if is_space c then [] else [c]) ++ visible s.
Proof. unfold visible. cbn. by destruct (is_space c). Qed.
Lemma visible_app s t : visible (s +:+ t) = visible s ++ visible t.
Proof.
  induction s as [|c s IH]; [done|]. change (String c s +:+ t) with (String c (s +:+ t)). rewrite !visible_cons, IH. by rewrite app_assoc.
Qed.
Lemma visible_spaces n : visible (spaces n) = [].
Proof. unfold visible, spaces. rewrite list_ascii_of_string_of_list_ascii. by induction n. Qed.
Lemma visible_expandtabs s : ∀ col, visible (expandtabs col s) = visible s.
Proof.
  induction s as [|c s IH]; intros col; [done|]. cbn [expandtabs]. rewrite visible_cons. destruct (Ascii.eqb_spec c TAB) as [->|_].
  - rewrite visible_app, visible_spaces, IH. done.
  - rewrite visible_cons, IH. done.
Qed.
Lemma visible_lstrip s : visible (lstrip is_space s) = visible s.
Proof.
  induction s as [|c s IH]; [done|]. cbn [lstrip]. destruct (is_space c) eqn:E; [by rewrite visible_cons, E|done].
Qed.
Lemma visible_lines l : visible (join NLs l) = concat (map visible l).
Proof.
  induction l as [|x l IH]; [done|]. destruct l as [|y l]; [cbn; by rewrite app_nil_r|].
  rewrite join_cons by done. rewrite !visible_app, IH. done.
Qed.
Lemma visible_pop_front l : concat (map visible (pop_front l)) = concat (map visible l).
Proof. induction l as [|x l IH]; [done|]. cbn [pop_front]. destruct (String.eqb_spec x "") as [->|_]; [exact IH|done]. Qed.
Lemma concat_rev_nil {A} (l : list (list A)) : concat l = [] ↔ concat (rev l) = [].
Proof.
  assert (∀ l : list (list A), concat l = [] ↔ ∀ x, x ∈ l → x = []) as Hc.
  { clear. intros l. induction l as [|x l IH]; cbn; [split; [intros _ ? H; by apply not_elem_of_nil in H|done]|].
    split; [intros [-> H]%app_eq_nil y [->|Hy]%elem_of_cons; [done|by apply IH]|].
    intros H. rewrite (H x) by left. cbn. apply IH. intros y Hy. apply H. by right. }
  rewrite !Hc. split; intros H x Hx; apply H; apply list_elem_of_In; apply list_elem_of_In in Hx; [by apply in_rev|by apply in_rev in Hx].
Qed.
Lemma pop_front_split l : ∃ blank, l = blank ++ pop_front l ∧ Forall (λ x, x = "") blank.
Proof.
  induction l as [|x l IH]; [by exists []|]. cbn [pop_front]. destruct (String.eqb_spec x "") as [->|_]; [|by exists []].
  destruct IH as (b & Hb & Hf). exists ("" :: b). split; [cbn; by rewrite <-Hb|by constructor].
Qed.
Lemma visible_pop_back l : concat (map visible (pop_back l)) = concat (map visible l).
Proof.
  unfold pop_back. destruct (pop_front_split (rev l)) as (b & Hb & Hf). apply (f_equal (@rev string)) in Hb.
  rewrite rev_involutive, rev_app_distr in Hb. rewrite Hb at 2. rewrite map_app, concat_app.
  enough (concat (map visible (rev b)) = []) as -> by by rewrite app_nil_r.
  rewrite map_rev. apply concat_rev_nil. rewrite rev_involutive. clear -Hf. induction Hf as [|x b -> _ IH]; [done|exact IH].
Qed.

(** What the margin takes from a line is blank. *)
Lemma sdrop_indent n s : n ≤ slen s - slen (lstrip is_space s) → visible (sdrop n s) = visible s.
Proof.
  revert s. induction n as [|n IH]; intros [|c s]; cbn [sdrop]; try done. cbn [lstrip]. destruct (is_space c) eqn:E.
  - intros Hn. rewrite visible_cons, E. apply IH. cbn [slen] in Hn. change (String.length (String c s)) with (S (slen s)) in Hn. lia.
  - cbn [slen]. lia.
Qed.
Lemma visible_blank s : slen (lstrip is_space s) = 0 → visible s = [].
Proof. rewrite <-(visible_lstrip s). by destruct (lstrip is_space s). Qed.
Lemma visible_sdrop_nil n s : visible s = [] → visible (sdrop n s) = [].
Proof.
  revert s. induction n as [|n IH]; intros [|c s]; cbn [sdrop]; try done. rewrite visible_cons. intros [_ H]%app_eq_nil. by apply IH.
Qed.
Lemma margin_le lines m l i : margin_of lines = Some m → l ∈ lines → indent_of l = Some i → m ≤ i.
Proof.
  revert m. induction lines as [|x lines IH]; intros m Hm Hl Hi; [by apply not_elem_of_nil in Hl|].
  cbn [margin_of foldr] in Hm. fold (margin_of lines) in Hm. apply elem_of_cons in Hl as [<-|Hl].
  - rewrite Hi in Hm. destruct (margin_of lines); injection Hm as <-; lia.
  - destruct (indent_of x), (margin_of lines) as [k|] eqn:Ek; try (injection Hm as <-; specialize (IH _ eq_refl Hl Hi); lia).
    + injection Hm as <-. exfalso. clear -Ek Hl Hi. induction lines as [|y lines IH]; [by apply not_elem_of_nil in Hl|].
      cbn [margin_of foldr] in Ek. fold (margin_of lines) in Ek. apply elem_of_cons in Hl as [<-|Hl].
      * rewrite Hi in Ek. by destruct (margin_of lines).
      * destruct (indent_of y), (margin_of lines); try done. by apply IH.
    + done.
Qed.
Lemma margin_blank lines m l : margin_of lines = Some m → l ∈ lines → visible (sdrop m l) = visible l.
Proof.
  intros Hm Hl. destruct (indent_of l) as [i|] eqn:Ei.
  - apply sdrop_indent. pose proof (margin_le _ _ _ _ Hm Hl Ei) as Hle. unfold indent_of in Ei.
    destruct (slen (lstrip is_space l) =? 0); [done|]. injection Ei as <-. exact Hle.
  - unfold indent_of in Ei. destruct (Nat.eqb_spec (slen (lstrip is_space l)) 0) as [E0|]; [|done].
    apply visible_blank in E0. rewrite E0. by apply visible_sdrop_nil.
Qed.

Lemma cleandoc_visible doc : visible (cleandoc doc) = visible doc.
Proof.
  pose proof (join_split_on NL (expandtabs 0 doc)) as Hj. fold NLs in Hj. unfold cleandoc. rewrite <-(visible_expandtabs doc 0).
  destruct (split_on NL (expandtabs 0 doc)) as [|x rest]; [by rewrite <-Hj|]. rewrite <-Hj, !visible_lines, visible_pop_front, visible_pop_back.
  cbn [map concat]. rewrite visible_lstrip. f_equal. f_equal. destruct (margin_of rest) as [m|] eqn:Em; [|done].
  rewrite map_map. apply map_ext_in. intros l Hl. apply (margin_blank rest); [done|by apply list_elem_of_In].
Qed.

Definition texts_of (tools : list (option (list declaration))) : list string :=
  concat (map (λ t, map (λ d, default "" (description d)) (default [] t)) tools).
Definition chars (l : list string) : Z := foldr (λ s n, (Z.of_nat (slen s) + n)%Z) 0%Z l.

Lemma chars_app a b : chars (a ++ b) = (chars a + chars b)%Z.
Proof. unfold chars. induction a as [|x a IH]; [done|]. cbn [app foldr]. lia. Qed.
Lemma normalize_one d : let '(d', n) := normalize_declaration d in
  d_name d' = d_name d ∧ visible (default "" (description d')) = visible (default "" (description d)) ∧
  n = (Z.of_nat (slen (default "" (description d))) - Z.of_nat (slen (default "" (description d'))))%Z.
Proof.
  unfold normalize_declaration. destruct d as [name [[|c s]|]]; cbn [description d_name]; try (split_and!; [done|done|cbn; lia]).
  destruct (String.eqb_spec (cleandoc (String c s)) (String c s)) as [|Hne]; cbn [description d_name default]; split_and!; try done; try lia.
  apply cleandoc_visible.
Qed.
Lemma normalize_list ds : let r := map normalize_declaration ds in
  map d_name (map fst r) = map d_name ds ∧
  map visible (map (λ d, default "" (description d)) (map fst r)) = map visible (map (λ d, default "" (description d)) ds) ∧
  ∀ n, foldr (λ d n, (d.2 + n)%Z) n r =
    (n + chars (map (λ d, default "" (description d)) ds) - chars (map (λ d, default "" (description d)) (map fst r)))%Z.
Proof.
  induction ds as [|d ds IH]; cbn zeta in *; [split_and!; [done|done|intros n; cbn; lia]|]. destruct IH as (IH1 & IH2 & IH3).
  pose proof (normalize_one d) as Hd. cbn [map]. destruct (normalize_declaration d) as [d' n0]. destruct Hd as (Hn & Hv & Hc). cbn [fst snd].
  split_and!; [by f_equal|by f_equal|]. intros n. unfold chars in *. cbn [foldr fst snd map]. rewrite IH3, Hc. lia.
Qed.

(** Before a request is sent only blanks change in what tools are said to do: every tool,
    every declared name and every visible character stays, in order, and the number returned
    is what the texts got shorter by. *)
Theorem descriptions_keep_their_words tools : let '(tools', saved) := normalize_tool_descriptions tools in
  map (fmap (map d_name)) tools' = map (fmap (map d_name)) tools ∧
  map visible (texts_of tools') = map visible (texts_of tools) ∧
  saved = (chars (texts_of tools) - chars (texts_of tools'))%Z.
Proof.
  induction tools as [|t tools IH]; [done|]. cbn [normalize_tool_descriptions foldr] in *. fold (normalize_tool_descriptions tools) in *.
  destruct (normalize_tool_descriptions tools) as [tools' saved]. destruct IH as (IH1 & IH2 & IH3). cbn [fst snd].
  destruct t as [ds|]; [|unfold texts_of in *; cbn [map concat default app]; split_and!; [by f_equal|done|done]].
  destruct (normalize_list ds) as (H1 & H2 & H3). unfold texts_of in *. cbn [map concat default]. rewrite !map_app in *.
  split_and!.
  - f_equal; [|done]. cbn. f_equal. exact H1.
  - f_equal; [|done]. exact H2.
  - rewrite H3, !chars_app, IH3. unfold id. lia.
Qed.

(** ** Settings *)

Lemma setdefault_keeps n v environ m x : dget environ m = Some x → dget (setdefault n v environ) m = Some x.
Proof.
  intros Hm. unfold setdefault. destruct (dget environ n) eqn:En; [done|]. rewrite dget_dset_ne; [done|]. intros ->. congruence.
Qed.

(** Telemetry is switched on only with a bucket and a mode, and then never with the contents
    of messages; nothing else that is set is changed. Without a bucket the mode stays. *)
Theorem telemetry_keeps_settings environ b environ' : setup_telemetry environ = (b, environ') →
  b = dget environ "LOGS_BUCKET_NAME" ∧
  (∀ n x, n ≠ CAPTURE → dget environ n = Some x → dget environ' n = Some x) ∧
  if negb (default "" b =? "")%string && negb (env_str environ CAPTURE "false" =? "false")%string
  then dget environ' CAPTURE = Some "NO_CONTENT" else environ' = environ.
Proof.
  unfold setup_telemetry. intros E. injection E as <- <-. split; [done|]. destruct (_ && _); [|done].
  split; [intros n x Hn Hx|]; repeat (apply setdefault_keeps); [by rewrite dget_dset_ne|by rewrite dget_dset_eq].
Qed.

(** ** Instances *)

Module Sample.
Definition doc : string := join NLs ["Read a file."; ""; "    Args:"; s1 TAB +:+ "path: where"; "    "].
Definition tool_list : list (option (list declaration)) := [None; Some [Declaration "read" (Some doc); Declaration "write" None]].
Definition two_turns : list (action string nat) := [Bind 2 "sandbox-b"; Start 1 3; Bind 1 "sandbox-a"; Start 0 2; Start 0 1].
End Sample.
Import Sample.

Lemma telemetry_keeps_settings_witness : let environ := [("LOGS_BUCKET_NAME", "logs"); (CAPTURE, "true")] in
  dget (setup_telemetry environ).2 CAPTURE = Some "NO_CONTENT".
Proof.
  destruct (telemetry_keeps_settings [("LOGS_BUCKET_NAME", "logs"); (CAPTURE, "true")] _ _ eq_refl) as (_ & _ & H). exact H.
Defined.

Example turns_apart : (active_environment 1 (acts two_turns), active_environment 2 (acts two_turns),
  active_environment 3 (acts two_turns)) = (Ok "sandbox-a", Ok "sandbox-b", Ok "sandbox-a").
Proof. by vm_compute. Qed.
Example doc_cleaned : cleandoc doc = join NLs ["Read a file."; ""; "Args:"; "    path: where"].
Proof. by vm_compute. Qed.
(** Cleaning is not done after one pass: a text that opens with a line break. *)
Example cleaned_twice : let once := cleandoc (join NLs [""; "    a"; "  b"]) in once = join NLs ["  a"; "b"] ∧ cleandoc once = join NLs ["a"; "b"].
Proof. by vm_compute. Qed.
(** Without a bucket the mode that captures contents stays on. *)
Example capture_stays_on : (setup_telemetry [(CAPTURE, "true")]).2 = [(CAPTURE, "true")].
Proof. by vm_compute. Qed.
(** A bucket given as the message says has its scheme twice in the path. *)
Example upload_path_doubled : dget (setup_telemetry [("LOGS_BUCKET_NAME", "gs://logs"); (CAPTURE, "NO_CONTENT")]).2 "OTEL_INSTRUMENTATION_GENAI_UPLOAD_BASE_PATH" =
  Some "gs://gs://logs/completions".
Proof. by vm_compute. Qed.
