(* ===== verification/ContainerReader.v ===== *)
(** * Processes inside a sandbox: the reader and the kill of [sandbox/runtime/server.py]

    [_ContainerProcess] mirrors the handle of the host. Its reader thread and its kill, on
    the handle of [RuntimeServer], beside those of [LocalProcess]: every run of the one is
    a run of the other. *)

From S2P Require Import Prelude PyStr OutputOverflow ProcessTool RuntimeServer SandboxEnv LocalProcess.
From Stdlib Require Import QArith.
Import LocalProcess.
#[local] Open Scope nat_scope.

Definition text_of_bytes (bs : list Z) : string := string_of_list_ascii (map (λ b, ascii_of_N (Z.to_N b)) bs).

Section Reader.
Context {W : Type} `{Terminal W}.

Definition container_thread : Type := place * container_process * W.

(** One turn of [_ContainerProcess._reader_loop]. *)
Definition container_reader_loop (now : Q) (t : container_thread) : container_thread :=
  let '(pl, p, w) := t in
  match pl with
  | Reading =>
      let '(r, w) := master_read w in
      match r with
      | WouldBlock => (Polling, p, w)
      | InputOutput | OtherError => (Waiting, p, w)
      | Data [] => (Waiting, p, w)
      | Data chunk => (Reading, on_output (text_of_bytes chunk) now p, w)
      end
  | Polling => match returncode w with Some _ => (Draining, p, w) | None => (Reading, p, w) end
  | Draining =>
      let '(r, w) := master_read w in
      match r with
      | WouldBlock | InputOutput | OtherError => (Waiting, p, w)
      | Data [] => (Waiting, p, w)
      | Data chunk => (Reading, on_output (text_of_bytes chunk) now p, w)
      end
  | Waiting => (Ended, on_end (returncode w) p, w)
  | Ended => (Ended, p, w)
  end.

Inductive container_step : container_thread → container_thread → Prop :=
| container_processes pl p w w' : moves w w' → container_step (pl, p, w) (pl, p, w')
| container_reader t now : container_step t (container_reader_loop now t).

(** [_ContainerProcess.kill], with the signals it sends; [code]: the exit code the handle has. *)
Definition container_kill (c : host_calls W) (code : W → option Z) (pid : Z) (w : W) : list (Z * signal) * option Z * W :=
  if exit_is_set c w then ([], code w, w)
  else match getpgid c w pid with
       | None => ([], code w, w)
       | Some pgid =>
           match killpg c pgid SIGTERM w with
           | None => ([], code w, w)
           | Some w =>
               let '(exited, w) := wait_exit c 2000 w in
               if exited : bool then ([(pgid, SIGTERM)], code w, w)
               else match killpg c pgid SIGKILL w with
                    | None => ([(pgid, SIGTERM)], code w, w)
                    | Some w => let w := (wait_exit c 1000 w).2 in ([(pgid, SIGTERM); (pgid, SIGKILL)], code w, w)
                    end
           end
       end.

(** * Facts *)

Lemma container_alone n now t : rtc container_step t (Nat.iter n (container_reader_loop now) t).
Proof. induction n as [|n IH]; [apply rtc_refl|]. eapply rtc_r; [exact IH|apply container_reader]. Qed.

(** A kill in the sandbox sends what a kill on the host does. *)
Lemma kills_alike c code pid w : has_killpg c = true →
  container_kill c code pid w = ((kill c pid w).1, code (kill c pid w).2, (kill c pid w).2).
Proof.
  intros Hk. unfold container_kill, kill. rewrite Hk. cbn [negb]. destruct (exit_is_set c w); [done|]. destruct (getpgid c w pid); [|done].
  destruct (killpg c _ SIGTERM w); [|done]. destruct (wait_exit c 2000 _) as [[] w1]; [done|]. by destruct (killpg c _ SIGKILL w1).
Qed.
End Reader.

Section Refinement.
Context {W : Type} `{TerminalLaws W}.

Definition bytes (l : list Z) : Prop := Forall (λ b, (0 <= b < 256)%Z) l.
Lemma bytes_of_text bs : bytes bs → bytes_of (text_of_bytes bs) = bs.
Proof.
  unfold bytes_of, text_of_bytes. rewrite list_ascii_of_string_of_list_ascii, map_map. induction 1 as [|b bs Hb _ IH]; [done|].
  cbn [map]. rewrite IH. f_equal. unfold code. rewrite N_ascii_embedding by lia. lia.
Qed.

(** The two threads side by side: at the same place, over the same host, the handles alike. *)
Definition beside (t : container_thread) (u : thread) : Prop :=
  let '(pl, p, w) := t in let '(pl', h, w') := u in pl = pl' ∧ w = w' ∧ (bytes (seen_of w) → mirrors p h).

Lemma seen_grows w r w' : master_read w = (r, w') → bytes (seen_of w') →
  bytes (seen_of w) ∧ ∀ b bs, r = Data (b :: bs) → bytes (b :: bs).
Proof.
  intros E Hb. destruct (read_keeps w) as (Hw & _ & _). pose proof (read_gives w) as Hg. rewrite E in *. cbn [fst snd] in *.
  unfold seen_of in *. rewrite Hw in Hb. destruct r as [bs| | |].
  - destruct Hg as [Hg _]. rewrite Hg in Hb. apply Forall_app in Hb as [H1 H2]. split; [done|]. by intros b bs' [= ->].
  - destruct Hg as [_ Ht]. by rewrite Ht in Hb.
  - destruct Hg as (_ & _ & Ht). by rewrite Ht in Hb.
  - destruct Hg as (_ & _ & Ht). by rewrite Ht in Hb.
Qed.
Lemma mirrors_chunk p h bs now : bytes bs → mirrors p h → mirrors (on_output (text_of_bytes bs) now p) (on_chunk bs h).
Proof. intros Hb Hm. pose proof (mirrors_event p h (Wrote (text_of_bytes bs) now) Hm) as He. cbn in He. by rewrite bytes_of_text in He. Qed.

Lemma turn_beside now zero t u : beside t u → beside (container_reader_loop now t) (_reader_loop zero u).
Proof.
  destruct t as [[pl p] w], u as [[pl' h] w']. intros (<- & <- & Hm). destruct pl; cbn [container_reader_loop _reader_loop].
  1,3: destruct (master_read w) as [r w1] eqn:E; pose proof (seen_grows w r w1 E) as Hs;
    destruct r as [[|b bs]| | |]; cbn [after_read after_drain]; (split; [done|]); (split; [done|]); intros Hb; destruct (Hs Hb) as [Hw Hd];
    first [apply mirrors_chunk; [by apply Hd|by apply Hm] | by apply Hm].
  - destruct (returncode w); by split_and!.
  - split_and!; [done|done|]. intros Hb. destruct (Hm Hb). by split.
  - by split_and!.
Qed.

(** Every run of the reader in a sandbox, whatever the processes do meanwhile, is a run of the
    reader on the host that leaves the same bytes, total, exit code and end; so the log of a
    sandbox is complete as that of the host is. *)
Theorem container_reader_refines sid command pid start w pl p' w' :
  rtc container_step (Reading, Proc sid command pid "" 0 None false start, w) (pl, p', w') →
  ∃ h', rtc step (Reading, started sid command pid 0, w) (pl, h', w') ∧ (bytes (seen_of w') → mirrors p' h').
Proof.
  intros Hr. assert (∀ t t', rtc container_step t t' → ∀ u, beside t u → ∃ u', rtc step u u' ∧ beside t' u') as Hsim.
  { clear -H0. induction 1 as [t|t t1 t' Hs _ IH]; intros u Hu; [exists u; split; [apply rtc_refl|done]|].
    assert (∃ u1, step u u1 ∧ beside t1 u1) as (u1 & Hu1 & Hb1).
    { destruct Hs as [pl p w w1 Hm|t now].
      - destruct u as [[pl' h] w0]. destruct Hu as (<- & <- & Hm'). exists (pl, h, w1). split; [by constructor|].
        split_and!; [done|done|]. destruct (moves_on _ _ Hm) as [[k Hk] Ht]. unfold seen_of in *. rewrite Ht, Hk.
        rewrite take_app_le by apply taken_within. exact Hm'.
      - exists (_reader_loop 0 u). split; [constructor|]. by apply turn_beside. }
    destruct (IH u1 Hb1) as (u' & Hu' & Hb'). exists u'. split; [by eapply rtc_l|done]. }
  destruct (Hsim _ _ Hr (Reading, started sid command pid 0, w)) as ([[pl' h'] w1] & Hs & He); [split_and!; done|].
  destruct He as (<- & <- & Hm). by exists h'.
Qed.
End Refinement.

(** ** At concrete inputs *)

Lemma container_reader_refines_witness : ∃ p' h' w', rtc step (Reading, started "proc_1" "make" 42 0, Tty [] (cps "done") true (Some 0%Z)) (LocalProcess.Ended, h', w') ∧
  mirrors p' h' ∧ c_buffer p' = "done".
Proof.
  set (w := Tty [] (cps "done") true (Some 0%Z)). set (p := Proc "proc_1" "make" 42 "" 0 None false 0).
  set (t := Nat.iter 5 (container_reader_loop 0) (Reading, p, w)). pose proof (container_alone 5 0 (Reading, p, w)) as Hr. fold t in Hr.
  assert (t.1.1 = LocalProcess.Ended) as Hpl by (vm_compute; reflexivity). assert (c_buffer t.1.2 = "done") as Hb by (vm_compute; reflexivity).
  assert (seen_of t.2 = cps "done") as Hs by (vm_compute; reflexivity). clearbody t. destruct t as [[pl p'] w']. cbn [fst snd] in *. subst pl.
  destruct (container_reader_refines "proc_1" "make" 42 0 w LocalProcess.Ended p' w' Hr) as (h' & Hl & Hm). exists p', h', w'. split; [done|]. split; [|done].
  apply Hm. rewrite Hs. change (cps "done") with [100; 111; 110; 101]%Z. unfold bytes. repeat (apply Forall_cons_2; [lia|]). apply Forall_nil_2.
Defined.
