(* ===== verification/TurnHalt.v ===== *)
(** * The halts of a turn: the plugins of [agent.py] over [guardrails/guardrails_plugin.py]
    and [conversation/iteration_budget_plugin.py]

    The hooks of the plugins in the order they are installed, over one session state, beside
    the reset a new user message brings: what the model is still asked once any of the three
    guards has halted the turn. *)

From S2P Require Import Prelude PyStr PyVal HaltGuards IterationBudget Prompt.
From Stdlib Require Import QArith.
#[local] Open Scope nat_scope.

(** ** The hooks *)

(** The plugins in order; the one of the sibling agents has no hooks. *)
Record plugins := Plugins { iteration_budget : plugin; guards : guardrails }.
Definition root_plugins : res plugins :=
  let! b := make_budget_plugin _DEFAULT_MAX_ITERATIONS 200 in
  let! g := make_plugin 3 5 in
  Ok (Plugins b g).

(** A request is answered by a plugin, or goes on to the agent's callbacks and the model. *)
Inductive verdict := Answered (content : string * string) | Called (r : llm_request).

Section Hooks.
Context `{PyFloat} `{RepeatedFailure.Sha256} (p : plugins).

(** The first plugin that answers ends the chain. *)
Definition plugins_before_model (state : pydict) (r : llm_request) : res (verdict * pydict) :=
  let! x := IterationBudget.before_model_callback (iteration_budget p) state r in
  match x with
  | (Some c, _, state) => Ok (Answered c, state)
  | (None, r, state) =>
      match halt_consumer_callback state r with
      | (Some c, _, state) => Ok (Answered c, state)
      | (None, r, state) => Ok (Called r, state)
      end
  end.
Definition plugins_after_model (response : NoProgress.response) (state : pydict) : res pydict :=
  NoProgress.after_model_callback (g_window (guards p)) response state.
Definition plugins_after_tool (tool : string) (args response : pyval) (now : Q) (state : pydict) : res pydict :=
  RepeatedFailure.after_tool_callback (g_threshold (guards p)) tool args response now state.
Definition plugins_on_event (function_calls : nat) (state : pydict) : res pydict :=
  on_event_callback (iteration_budget p) state function_calls.
(** A user message: the budget counts the turn, then the session start clears the halts. *)
Definition new_turn (state : pydict) : res pydict :=
  let! state := before_run_callback (iteration_budget p) state in Ok (clear_halt_state state).

(** What happens within a turn, in any order. *)
Inductive turn_event :=
| Asks (r : llm_request) | Replies (response : NoProgress.response)
| ToolRan (tool : string) (args response : pyval) (now : Q) | Emits (function_calls : nat).

(** The requests the model gets, and the state after. *)
Fixpoint run_turn (events : list turn_event) (state : pydict) : res (list llm_request * pydict) :=
  match events with
  | [] => Ok ([], state)
  | e :: events =>
      let! x :=
        match e with
        | Asks r => let! x := plugins_before_model state r in
                    Ok (match x.1 with Called r => [r] | Answered _ => [] end, x.2)
        | Replies response => let! s := plugins_after_model response state in Ok ([], s)
        | ToolRan tool args response now => let! s := plugins_after_tool tool args response now state in Ok ([], s)
        | Emits n => let! s := plugins_on_event n state in Ok ([], s)
        end in
      let! y := run_turn events x.2 in Ok (x.1 ++ y.1, y.2)
  end.

(** * Facts *)

Definition budget_halted (state : pydict) : bool := truthy (get state IterationBudget._HALTED_STATE_KEY).
Definition budget_handed (state : pydict) : bool := truthy (get state IterationBudget._HANDOFF_DELIVERED_STATE_KEY).
Definition guards_handed (state : pydict) : bool := truthy (get state HALT_HANDOFF_DELIVERED_STATE_KEY).
Definition any_halt (state : pydict) : bool := budget_halted state || halted state.
(** A guard that has halted has had its last words asked for. *)
Definition spent (state : pydict) : bool := (budget_halted state && budget_handed state) || (halted state && guards_handed state).

(** Within a turn halts and their flags only come. *)
Definition only_more (s s' : pydict) : Prop :=
  (budget_halted s = true → budget_halted s' = true) ∧ (halted s = true → halted s' = true) ∧
  (budget_handed s = true → budget_handed s' = true) ∧ (guards_handed s = true → guards_handed s' = true).
#[local] Instance only_more_trans : Transitive only_more.
Proof. intros s s1 s2 H1 H2. unfold only_more in *. naive_solver. Qed.
Lemma only_more_refl s : only_more s s.
Proof. by split_and!. Qed.

Lemma more_spent s s' : only_more s s' → spent s = true → spent s' = true.
Proof.
  intros (H1 & H2 & H3 & H4). unfold spent. rewrite !orb_true_iff, !andb_true_iff. naive_solver.
Qed.
Lemma more_halt s s' : only_more s s' → any_halt s = true → any_halt s' = true.
Proof. intros (H1 & H2 & _). unfold any_halt. rewrite !orb_true_iff. naive_solver. Qed.

(** Setting a key that is none of the four changes none. *)
Lemma more_dset s k v : k ≠ IterationBudget._HALTED_STATE_KEY → k ≠ HALT_REASON_STATE_KEY →
  k ≠ IterationBudget._HANDOFF_DELIVERED_STATE_KEY → k ≠ HALT_HANDOFF_DELIVERED_STATE_KEY → only_more s (dset s k v).
Proof.
  intros. unfold only_more, budget_halted, halted, budget_handed, guards_handed. by rewrite !get_dset_ne.
Qed.
Lemma more_true s k : only_more s (dset s k (PBool true)).
Proof.
  assert (∀ k', truthy (get s k') = true → truthy (get (dset s k (PBool true)) k') = true) as Hk.
  { intros k' Ht. destruct (decide (k = k')) as [->|Hne]; [by rewrite get_dset_eq|by rewrite get_dset_ne]. }
  split_and!; apply Hk.
Qed.
Lemma more_latch s reason : only_more s (latch_halt s reason).2.
Proof.
  unfold latch_halt. destruct (truthy (get s HALT_REASON_STATE_KEY)) eqn:Et; cbn [snd]; [apply only_more_refl|].
  unfold only_more, budget_halted, halted, budget_handed, guards_handed. 
  split_and!; [by rewrite get_dset_ne|intros Ht; congruence|by rewrite get_dset_ne|by rewrite get_dset_ne].
Qed.

Lemma hydrate_halted q s b : _hydrate_budget q s = Ok b → _halted b = budget_halted s.
Proof.
  unfold _hydrate_budget. destruct (make_budget _ _); cbn [res_bind]; [|done]. destruct (py_int _); cbn [res_bind]; [|done].
  destruct (py_int _); cbn [res_bind]; [|done]. by intros [= <-].
Qed.

Lemma tool_more tool args response now s s' : plugins_after_tool tool args response now s = Ok s' → only_more s s'.
Proof.
  unfold plugins_after_tool, RepeatedFailure.after_tool_callback. destruct (RepeatedFailure._load_streaks _) as [ss|]; cbn [res_bind]; [|done].
  intros E. injection E as <-. set (pruned := RepeatedFailure._prune_stale ss now). set (sg := RepeatedFailure._signature tool args).
  assert (∀ s v w, only_more s (dset (dset s RepeatedFailure._STREAK_STATE_KEY v) RepeatedFailure.LAST_ERROR_STATE_KEY w)) as H2.
  { intros s0 v w. transitivity (dset s0 RepeatedFailure._STREAK_STATE_KEY v); by apply more_dset. }
  assert (only_more s (dset (if dhas pruned sg then dset s RepeatedFailure._STREAK_STATE_KEY (RepeatedFailure.dump_streaks (ddel pruned sg)) else s)
    RepeatedFailure.LAST_ERROR_STATE_KEY PNone)) as Hc by (destruct (dhas pruned sg); [apply H2|by apply more_dset]).
  destruct (RepeatedFailure._is_failure response); [|exact Hc]. destruct response; try exact Hc.
  destruct (_ <=? _)%Z; [etransitivity; [|apply more_latch]|]; apply H2.
Qed.
Lemma reply_more response s s' : plugins_after_model response s = Ok s' → only_more s s'.
Proof.
  unfold plugins_after_model, NoProgress.after_model_callback. destruct (_ =? "")%string; [intros [= <-]; apply only_more_refl|].
  destruct (if py_eq _ _ then _ else _) as [k|]; cbn [res_bind]; [|done]. intros E. injection E as <-.
  assert (∀ v w, only_more s (dset (dset s NoProgress._LAST_TEXT_STATE_KEY v) NoProgress._STREAK_STATE_KEY w)) as H2.
  { intros v w. transitivity (dset s NoProgress._LAST_TEXT_STATE_KEY v); by apply more_dset. }
  destruct (NoProgress.at_least _ _); [etransitivity; [|apply more_latch]|]; apply H2.
Qed.
Lemma event_more n s s' : plugins_on_event n s = Ok s' → only_more s s'.
Proof.
  unfold plugins_on_event, on_event_callback. destruct (_hydrate_budget _ s) as [b|] eqn:Eb; cbn [res_bind]; [|done]. intros E. injection E as <-.
  pose proof (hydrate_halted _ _ _ Eb) as Hh. unfold _persist_budget, only_more, budget_halted, halted, budget_handed, guards_handed in *.
  split_and!; try by rewrite !get_dset_ne. rewrite get_dset_ne by done. rewrite get_dset_eq. intros Ht.
  rewrite record_calls_halted by congruence. cbn. congruence.
Qed.

(** A request: passed on as it is without a halt, handed on once for the last words, and
    answered after that. *)
Lemma asks_spec s r v s1 : plugins_before_model s r = Ok (v, s1) →
  only_more s s1 ∧
  (any_halt s = false → v = Called r ∧ s1 = s) ∧
  (any_halt s = true → spent s1 = true ∧
     if spent s then ∃ c, v = Answered c else ∃ r', v = Called r' ∧ tools_stripped r' ∧ handed_off s1 = true).
Proof.
  assert (∀ (r : llm_request) reason, tools_stripped (apply_graceful_halt r reason)) as Hstrip.
  { intros r0 reason. split; [done|]. intros c. cbn. destruct (req_config r0); [|done]. by intros [= <-]. }
  assert (∀ r, tools_stripped r → ∀ reason, tools_stripped (apply_graceful_halt r reason)) as _ by auto.
  unfold plugins_before_model, IterationBudget.before_model_callback. destruct (_hydrate_budget _ s) as [b|] eqn:Eb; cbn [res_bind]; [|done].
  rewrite (hydrate_halted _ _ _ Eb). set (reason := if truthy (_halt_reason b) then _ else _). unfold halt_consumer_callback, deliver_halt_or_envelope.
  unfold any_halt, spent, handed_off. fold (budget_handed s).
  change _GUARDRAILS_HANDOFF_DELIVERED_STATE_KEY with HALT_HANDOFF_DELIVERED_STATE_KEY.
  change _BUDGET_HANDOFF_DELIVERED_STATE_KEY with IterationBudget._HANDOFF_DELIVERED_STATE_KEY.
  destruct (budget_halted s) eqn:Ebh; cbn [orb andb].
  - destruct (budget_handed s) eqn:Ebd; cbn [res_bind orb andb].
    { intros E. injection E as <- <-. split; [apply only_more_refl|]. split; [done|]. intros _. rewrite Ebh, Ebd. split; [done|]. by eexists. }
    set (s0 := dset s IterationBudget._HANDOFF_DELIVERED_STATE_KEY (PBool true)).
    assert (only_more s s0) as Hm by apply more_true. assert (budget_halted s0 = true) as H1 by (by apply Hm).
    assert (budget_handed s0 = true) as H2 by (unfold budget_handed, s0; by rewrite get_dset_eq).
    assert (halted s0 = halted s ∧ guards_handed s0 = guards_handed s) as [H3 H4].
    { unfold halted, guards_handed, s0. by rewrite !get_dset_ne. }
    fold (halted s0) (guards_handed s0). rewrite H3, H4. destruct (halted s) eqn:Eh; cbn [andb].
    + destruct (guards_handed s) eqn:Eg; intros E; injection E as <- <-.
      * split; [done|]. split; [done|]. intros _. rewrite H1, H2. split; [done|]. by eexists.
      * set (s2 := dset s0 HALT_HANDOFF_DELIVERED_STATE_KEY (PBool true)). assert (only_more s0 s2) as Hm2 by apply more_true.
        assert (guards_handed s2 = true) as Hg2 by (unfold guards_handed, s2; by rewrite get_dset_eq).
        split; [by transitivity s0|]. split; [done|]. intros _. destruct Hm2 as (M1 & M2 & M3 & _). rewrite (M1 H1), (M3 H2). split; [done|].
        eexists. split; [done|]. split; [apply Hstrip|]. fold (guards_handed s2). by rewrite Hg2.
    + intros E. injection E as <- <-. split; [done|]. split; [done|]. intros _. rewrite H1, H2. split; [done|].
      eexists. split; [done|]. split; [apply Hstrip|]. fold (guards_handed s0) (budget_handed s0). rewrite H2. by rewrite orb_true_r.
  - cbn [res_bind]. fold (halted s) (guards_handed s). destruct (halted s) eqn:Eh; cbn [andb].
    + destruct (guards_handed s) eqn:Eg; intros E; injection E as <- <-.
      * split; [apply only_more_refl|]. split; [done|]. intros _. rewrite Eh, Eg. split; [by rewrite orb_true_r|]. by eexists.
      * set (s2 := dset s HALT_HANDOFF_DELIVERED_STATE_KEY (PBool true)). assert (only_more s s2) as Hm2 by apply more_true.
        assert (guards_handed s2 = true) as Hg2 by (unfold guards_handed, s2; by rewrite get_dset_eq).
        split; [done|]. split; [done|]. intros _. destruct Hm2 as (_ & M2 & _ & _). rewrite (M2 Eh), Hg2. split; [by rewrite orb_true_r|].
        eexists. split; [done|]. split; [apply Hstrip|]. fold (guards_handed s2). by rewrite Hg2.
    + intros E. injection E as <- <-. split; [apply only_more_refl|]. done.
Qed.

End Hooks.

(** ** At concrete inputs *)

Module Sample.
Definition request : llm_request := LlmRequest [("bash", "")] None [("user", "go on")].
Definition both : pydict := [(HALT_REASON_STATE_KEY, PStr "stuck"); (IterationBudget._HALTED_STATE_KEY, PBool true); (IterationBudget._HALT_REASON_STATE_KEY, PStr "cap")].
End Sample.
Import Sample.

